(* ===== verification/_CoqProject ===== *)
-Q . S2P
Prelude.v
Words.v
Printf.v
Console.v
Speech.v
Bridge.v
Announce.v
Sched.v
KList.v
KListThm.v
KListRefine.v
Kernel.v
KernelApi.v
Queue.v
QueueSpec.v
QueueApi.v
QueueRefine.v
QueueLife.v
Heap4.v
Heap4Thm.v
Pbuf.v
Def.v
Checksum.v
Memp.v
Mem.v
Timeouts.v
PbufMem.v
MemThm.v
MemRefine.v
PbufThm.v
PbufOps.v
PbufSafe.v
PbufDemo.v
Ip4Addr.v
Net.v
NetThm.v
Etharp.v
EtharpThm.v
EtharpOps.v
EtharpSend.v
EtharpQuery.v
EtharpSafe.v
EtharpDemo.v
UdpPcb.v
UdpPcbThm.v
UdpPcbSafe.v
Ip4.v
Icmp.v
UdpIo.v
Ip4In.v
StackThm.v
IcmpThm.v
Ip4InThm.v
Datagram.v
UdpSend.v
Ping.v
Frames.v
StackDemo.v
Ntp.v
NtpThm.v
Tasks.v
System.v
SystemThm.v
SystemLive.v
Main.v
Lan9118.v
Lan9118Thm.v
NetInit.v
KernelInv.v
KernelMoves.v
KernelTick.v
KernelResume.v
KernelPrio.v
KernelLife.v
KernelIsr.v
KernelThm.v
