(* ===== verification/Prelude.v ===== *)
(** * Network-synchronised speaking clock: verification library

    The program is firmware for a Cortex-M3 board (QEMU's MPS2-AN385).  A key
    pressed on the console asks for the time; the firmware queries an NTP
    server over Ethernet, converts the answer to Indian Standard Time and
    prints it as a stream of speech tokens, which a program on the host turns
    into a spoken sentence.  Three FreeRTOS tasks share the work, connected by
    a binary semaphore and a queue of one place.

    ** How the parts interact, and where each is modelled

    - Prelude: the failure and state monad [M] all the stateful code is written
      in, its total-correctness predicate [wp] with one rule per construct, and
      the tactics [wp_step], [wp_go], [wp_apply].  A failing outcome ([err])
      stands for a failed assertion, an invalid access, an endless [while (1)]
      or fuel that ran out, and satisfies no [wp].
    - Words: 8-, 16- and 32-bit unsigned integers as [Z] with their wrap-around,
      and big- and little-endian words.
    - Printf: C strings and the part of [vsnprintf] the format strings use (the
      C library is not part of the sources; only the conversions used are
      defined, any other gives no result).
    - Console: src/src/main.c below the tasks: memory-mapped registers
      ([Mmio]), the polling UART driver, [uart_puts], [uart_printf], the fatal
      hooks, [_sbrk], [system_init].  [Console]/[ConsoleLaws] is the interface
      all printing code is proved against; [UartTx] is what the driver needs of
      the hardware, and [UartConsoleLaws] shows that the driver implements the
      interface.
    - Speech: src/src/speech_task.c and src/include/speech_tokens.h, the tokens
      of an announcement.
    - Bridge: the reader of src/scripts/tts_bridge.py, which gives the token
      stream its meaning.  Announce puts the two together.
    - Sched: the functions of src/freertos/tasks.c that queues and the heap
      call, as the interface [TaskOps]/[TaskLaws], with a clock as an instance.
    - KList: src/freertos/list.c and list.h as doubly linked memory; KListThm
      each operation against the list it holds, KListRefine whole sequences.
    - Kernel, KernelApi: src/freertos/tasks.c on those lists: the
      ready lists and their bit map, tick and delayed lists, suspension, event
      lists, priorities and inheritance; creation, deletion, suspension and
      notification of tasks.  KernelInv is the invariant of the scheduler data
      ([kinv]) and what it needs of the list code ([ListLaws]), KernelMoves the
      moves of a task between its lists; KernelTick, KernelResume, KernelPrio,
      KernelLife and KernelIsr prove what each group of services does, KernelThm
      states the properties and has a concrete scheduler.
    - Queue: src/freertos/queue.c, one definition per function; QueueSpec its
      representation by a list of items ([q_rep]) and the critical sections;
      QueueApi the points where other tasks run ([others]), the locking, the
      wait, and the loops of the public functions; QueueRefine the theorems.
      QueueLife has the registry of names, mutexes, deletion and the wait of the
      timer task.
    - Heap4: src/freertos/portable/MemMang/heap_4.c over a memory of block
      headers, and the abstract heap, a tiling of the array by blocks; Heap4Thm
      the refinement.
    - Pbuf, Def, Ip4Addr: the parts of lwIP the application touches directly,
      src/lwip/src/core/pbuf.c (the bytes of a chain), def.c and
      ipv4/ip4_addr.c.
    - Checksum: src/lwip/src/core/inet_chksum.c, over flat data and chains.
    - Memp: src/lwip/src/core/memp.c, the pools as linked memory; [Pool] and
      [PoolLaws] are what a pool promises to those who take from it.
    - Timeouts: src/lwip/src/core/timeouts.c over a [Pool] and a clock.
    - Mem: src/lwip/src/core/mem.c, the structures between the blocks of an
      array.  MemThm represents them by a list of blocks ([heap_rep]), proves
      each function against it and makes the heap an instance of [Heap];
      MemRefine has sequences of calls.
    - PbufMem: the rest of src/lwip/src/core/pbuf.c, allocation, references,
      chains and headers, over two [Pool]s and the interface [Heap] of a heap
      (with its laws [HeapLaws]); PbufThm the invariant of the reference counts ([refs_ok]), the
      account of the memory ([mem_ok]) and allocation, PbufOps the operations
      on chains, PbufSafe the properties, PbufDemo runs them on the pools of Memp
      and the heap of Mem.
    - Net: the state of the network layer (packet buffers, the bytes of the
      memory, interfaces, the frames handed to the driver), [ethernet_output] of
      src/lwip/src/netif/ethernet.c and the copies of packets of pbuf.c; NetThm
      what they do to the bytes.
    - Etharp: src/lwip/src/core/ipv4/etharp.c on that state.  EtharpThm has the
      queues of waiting packets, the choice of an entry and the ARP packets;
      EtharpOps the invariant of the table ([arp_ok]), the search and the timer;
      EtharpSend what is learnt and sent when a packet comes in; EtharpQuery
      what happens to a packet that goes out; EtharpSafe sequences of calls and
      the theorems, EtharpDemo a concrete table.
    - UdpPcb: the control blocks of src/lwip/src/core/udp.c, a state of their own
      ([udp_mod]): creation, binding and ports, connecting, removal, and the search
      of [udp_input] for the block of a datagram.  UdpPcbThm has the invariant
      ([udp_ok]) and a rule for each function, UdpPcbSafe sequences of calls,
      the theorems, and the blocks of DHCP and of the NTP client.
    - Ip4, Icmp, UdpIo, Ip4In: the packets over the link, on the state [stack] of
      all of it.  Ip4 has the output of src/lwip/src/core/ipv4/ip4.c and the
      routing with one interface, Icmp is ipv4/icmp.c, UdpIo the sending and
      [udp_input] of udp.c, Ip4In the input of ip4.c and [ethernet_input] of
      src/lwip/src/netif/ethernet.c.  StackThm has the formats of the headers, the
      invariant of the state ([stack_ok]) and output, IcmpThm and Ip4InThm what the
      functions do to a packet in one pbuf, as the driver of the firmware makes
      them.  Datagram, UdpSend, Ping and Frames are the theorems, StackDemo a clock
      that asks a time server.
    - Ntp: src/network/ntp_client.c against the interface [Udp]; NtpThm states
      what UDP and packet buffers promise ([NetLaws]) and what a query does.
    - Lan9118: src/network/netif_qemu.c, the Ethernet driver, over [Mmio] and
      the interface [Stack]; Lan9118Thm its theorems.  NetInit:
      src/network/lwip_init.c over the interface [LwipCore].
    - Tasks: src/src/key_task.c, ntp_task.c and the loop of speech_task.c as
      programs ([prog]) over the operations between which another task can run;
      one character sent is one operation, and [uart_printf] goes through its
      static buffer.  System interleaves the three in any order over the
      semaphore, the queue, the console and the environment; SystemThm proves
      what holds under every schedule, by a protocol per task ([obeys]) and one
      invariant; SystemLive that a pending request can always be served, with runs.
    - Main: [main] of src/src/main.c over the console, the queues and the heap.

    ** What the theorems show

    - The application (SystemThm, SystemLive): every request key is accounted for, the
      times that reach the speaker are those the answers convert to, in order
      and once each, and the speaker says each of them whole; from every state
      a pending request can still be served when the network answers, so that
      no schedule leads the tasks into a deadlock.  [exec_op] gives
      the semaphore and the queue the behaviour of the FIFO of QueueRefine, and
      a query the result NtpThm proves.
    - What it does not protect (SystemLive): two tasks that print at once can
      overwrite each other's [uart_printf] buffer and break a token line, so
      that the host speaks a sentence that is no time.
    - The announcement (Announce): printed whole, spoken as one sentence, and
      different for different times.
    - The NTP query (Ntp, NtpThm): right across the 2036 rollover; it returns,
      leaks nothing on any path, and reports the last long enough answer.
    - The queue (QueueRefine): every sequence of non-waiting calls
      refines a bounded FIFO; a call with a finite wait returns while other
      tasks interfere arbitrarily; no wake-up is lost while it is locked.  The
      registry is a map from queues to names (QueueLife).
    - The heap (Heap4Thm): first-fit allocation and coalescing refine the
      tiling; blocks are aligned, inside the array and disjoint; double frees
      are caught; nothing is lost to fragmentation.
    - The driver and the network start-up (Lan9118Thm, NetInit): a poll stays in
      step with the controller and gives the stack the bytes of every frame, once
      and in order, unless the pool has no buffer; transmission is right for
      word-aligned chains and wrong for others; every wait is bounded.
    - The lists (KListRefine): a sequence of list calls answers what lists of
      items with a position answer, whatever the memory.
    - The scheduler (KernelThm): every service keeps the scheduler data in
      order; a switch runs a ready task of the highest priority, and tasks of
      the same priority take turns; ticks, delays and time-outs are exact
      across the overflow of the tick count; resuming loses nothing; events
      wake the most important waiter; mutexes inherit priorities and give them
      back; a notification wakes the task exactly if it waits for one.
    - Checksums (Checksum): those over chains, cut anywhere and placed at any
      address, are those of the bytes, which are the sums of RFC 1071; data
      with its checksum verifies; a changed word is detected.
    - Pools and timeouts (Memp, Timeouts): elements are never handed out twice;
      the list of timeouts is in the order of the true due times, and a check
      ends, serves each overdue timer once (again only if it is due at the very
      instant the check began) and renews it from when it was due.
    - Packet buffers (PbufSafe): counts are the number of references, memory is
      either used by a pbuf or free, and comes back when the last reference
      goes, for every sequence of calls made as the functions ask; the data of a
      pbuf stay inside its block or element.
    - The heap of lwIP (MemRefine): first-fit allocation, release and trimming
      refine the list of blocks, nothing is lost to fragmentation; a block at
      the end of the array must not be shrunk, an assertion stops that.
    - ARP (EtharpSafe): after any sequence of calls every address has one entry,
      no packet, queue element or pbuf is lost and queues are short; the search
      recycles the least valuable entry; entries live as long as their limits
      say; what an ARP packet teaches, which packets it sets free and when it is
      answered; where a packet to a given address goes and when a request is sent.
      A reply, a request or a copy that is due is left out only in a memory in which
      [pbuf_alloc] returns NULL ([no_memory]), and a packet is lost only for that or
      when no queue element is left.  A clone of a packet (NetThm) has its bytes.
    - UDP blocks (UdpPcbSafe): after any sequence of calls no two blocks get the
      same datagrams, a bound block gets those to its port, and binding fails
      exactly when the port is taken.
    - Packets: a datagram to a bound block reaches its user with exactly its data
      and the sender (Datagram); what is sent leaves in one frame with all headers
      and checksums right, also to a host ARP has to ask for, nothing is lost, and
      another host receives what was sent (UdpSend); an echo request is answered
      with its data, the checksum changed in place (Ping); any sequence of frames
      that are no fragments and hold their ARP packet leaves the stack in order
      (Frames).  The users' functions keep the contract [receives] there.
    - Start-up (Main): both objects are created out of the fresh heap.

    ** Bounds and fuel

    A busy-wait on a device, a list traversal and a wait on a queue are loops
    with fuel.  [heap_fuel] and [mem_fuel] are more than the number of blocks the two
    heaps can hold; a poll of the driver needs more than the number of frames; the wait
    loops of the queue theorems return for all fuel from some number on, which
    [k_patience] bounds.  Bounded waits of the source keep their own bounds
    (5000 polls for an answer, 10000 and 100000 reads of a busy bit).  The walks
    of a chain of pbufs have the number of pbufs as fuel, which is enough as a
    chain visits none twice; allocation from the pool has the length asked for;
    a check of the timeouts needs two rounds for each timer and one; the walks of
    a queue of ARP have the number of queue elements in use and one, those of the
    table its size, those of the UDP blocks the number of blocks in use and one, the
    sum over a chain the number of pbufs and one;
    the search for a port has the size of the range.

    ** Not modelled

    Software timers, event groups and stream buffers (built, but unused by the
    application), names and stacks of tasks, the context switch in assembly,
    fragmentation and reassembly of IP packets, DHCP, DNS, [mem_calloc] (the
    contents of heap blocks are not part of the model of mem.c), and the parts of
    the bridge that run subprocesses.  Where the rest uses them they are the
    interfaces above;
    [ip4_frag] and [ip4_reass] are parameters, of which the theorems assume
    nothing as they are about packets that need neither; the release function of
    custom pbufs and the answer of the driver to a frame are parameters.  The
    counting loop after the reset of the controller ([lan9118_hw_init]), which has
    no effect on registers, and the message LWIP_ERROR prints when a function is
    called with bad arguments are left out; the error it returns is not. *)
From Stdlib Require Import Ascii.
From stdpp Require Import base tactics numbers list gmap strings.

#[global] Open Scope Z_scope.

(** ** Failure outcomes of C code *)

(** How a run of a C function can fail to return: a [configASSERT] or
    [LWIP_ASSERT] that does not hold, an access through an invalid pointer,
    one of the program's own [while (1);] loops, or a busy-wait loop that is
    still spinning when the model's fuel is used up. *)
Inductive err : Set :=
  | AssertFailed
  | BadAccess
  | Hang
  | OutOfFuel.

#[export] Instance err_eq_dec : EqDecision err.
Proof. solve_decision. Defined.

(** ** The state and failure monad *)

Definition M (S A : Type) : Type := S → (A + err) * S.

#[export] Instance M_ret {S} : MRet (M S) := λ A a s, (inl a, s).
#[export] Instance M_bind {S} : MBind (M S) := λ A B f m s,
  match m s with
  | (inl a, s') => f a s'
  | (inr e, s') => (inr e, s')
  end.
#[export] Instance M_fmap {S} : FMap (M S) := λ A B f m, x ← m; mret (f x).

Definition fail {S A} (e : err) : M S A := λ s, (inr e, s).
Definition get {S} : M S S := λ s, (inl s, s).
Definition gets {S A} (f : S → A) : M S A := λ s, (inl (f s), s).
Definition put {S} (s : S) : M S unit := λ _, (inl tt, s).
Definition modify {S} (f : S → S) : M S unit := λ s, (inl tt, f s).
Definition assert_that {S} (b : bool) : M S unit :=
  if b then mret tt else fail AssertFailed.
Definition of_option {S A} (o : option A) : M S A :=
  match o with Some a => mret a | None => fail BadAccess end.
Definition when_ {S} (b : bool) (m : M S unit) : M S unit :=
  if b then m else mret tt.

(** [while (cond) body;], with fuel for the number of evaluations of [cond]. *)
Fixpoint while_ {S} (fuel : nat) (cond : M S bool) (body : M S unit) : M S unit :=
  match fuel with
  | O => fail OutOfFuel
  | Datatypes.S n =>
      b ← cond;
      if (b : bool) then body;; while_ n cond body else mret tt
  end.

(** [for (i = 0; i < n; i++) body;] *)
Fixpoint repeat_ {S} (n : nat) (body : M S unit) : M S unit :=
  match n with
  | O => mret tt
  | Datatypes.S n => body;; repeat_ n body
  end.

(** Run a computation on one field of a larger state. *)
Definition zoom {S T A} (proj : S → T) (upd : T → S → S) (m : M T A) : M S A :=
  λ s, let '(r, t) := m (proj s) in (r, upd t s).

(** ** Total-correctness specifications *)

(** [wp m Q s]: run from [s], [m] returns, with a result and a final state
    that satisfy [Q]. Failing outcomes do not satisfy it. *)
Definition wp {S A} (m : M S A) (Q : A → S → Prop) (s : S) : Prop :=
  match m s with
  | (inl a, s') => Q a s'
  | (inr _, _) => False
  end.

Section wp_lemmas.
Context {S : Type}.
Implicit Types s : S.

Lemma wp_ret {A} (a : A) (Q : A → S → Prop) s : Q a s → wp (mret a) Q s.
Proof. done. Qed.

Lemma wp_bind {A B} (m : M S A) (f : A → M S B) (Q : B → S → Prop) s :
  wp m (λ a, wp (f a) Q) s → wp (m ≫= f) Q s.
Proof. unfold wp, mbind, M_bind. by destruct (m s) as [[a|e] s']. Qed.

Lemma wp_fmap {A B} (f : A → B) (m : M S A) (Q : B → S → Prop) s :
  wp m (λ a, Q (f a)) s → wp (f <$> m) Q s.
Proof. intros Hm. by apply (wp_bind m (λ a, mret (f a)) Q). Qed.

Lemma wp_mono {A} (m : M S A) (P Q : A → S → Prop) s :
  wp m P s → (∀ a s', P a s' → Q a s') → wp m Q s.
Proof. unfold wp. destruct (m s) as [[a|e] s']; auto. Qed.

Lemma wp_conj {A} (m : M S A) (P Q : A → S → Prop) s :
  wp m P s → wp m Q s → wp m (λ a s', P a s' ∧ Q a s') s.
Proof. unfold wp. destruct (m s) as [[a|e] s']; auto. Qed.

Lemma wp_inv {A} (m : M S A) (Q : A → S → Prop) s :
  wp m Q s → ∃ a s', m s = (inl a, s') ∧ Q a s'.
Proof. unfold wp. destruct (m s) as [[a|e] s']; naive_solver. Qed.

(** In the postcondition, that the run ended so. *)
Lemma wp_self {A} (m : M S A) (Q : A → S → Prop) s :
  wp m (λ a s', m s = (inl a, s') → Q a s') s → wp m Q s.
Proof. unfold wp. destruct (m s) as [[a|e] s']; auto. Qed.

Lemma wp_run {A} (m : M S A) (Q : A → S → Prop) s a s' :
  m s = (inl a, s') → Q a s' → wp m Q s.
Proof. unfold wp. by intros ->. Qed.

Lemma wp_get (Q : S → S → Prop) s : Q s s → wp get Q s.
Proof. done. Qed.

Lemma wp_gets {A} (f : S → A) (Q : A → S → Prop) s : Q (f s) s → wp (gets f) Q s.
Proof. done. Qed.

Lemma wp_put s0 (Q : unit → S → Prop) s : Q tt s0 → wp (put s0) Q s.
Proof. done. Qed.

Lemma wp_modify f (Q : unit → S → Prop) s : Q tt (f s) → wp (modify f) Q s.
Proof. done. Qed.

Lemma wp_assert b (Q : unit → S → Prop) s :
  b = true → Q tt s → wp (assert_that b) Q s.
Proof. by intros ->. Qed.

Lemma wp_of_option {A} (o : option A) (a : A) (Q : A → S → Prop) s :
  o = Some a → Q a s → wp (of_option o) Q s.
Proof. by intros ->. Qed.

Lemma wp_when (b : bool) m (Q : unit → S → Prop) s :
  (b = true → wp m Q s) → (b = false → Q tt s) → wp (when_ b m) Q s.
Proof. destruct b; simpl; intros H1 H2; [by apply H1 | by apply H2]. Qed.

Lemma wp_if {A} (b : bool) (m1 m2 : M S A) (Q : A → S → Prop) s :
  (b = true → wp m1 Q s) → (b = false → wp m2 Q s) →
  wp (if b then m1 else m2) Q s.
Proof. destruct b; auto. Qed.

(** The loop rule: an invariant indexed by a bound on the iterations left. *)
Lemma wp_while (I : nat → S → Prop) fuel cond body (Q : unit → S → Prop) s n :
  I n s → (n < fuel)%nat →
  (∀ k s, I k s →
    wp cond (λ b s', if (b : bool)
      then (0 < k)%nat ∧ wp body (λ _ s'', ∃ k', (k' < k)%nat ∧ I k' s'') s'
      else Q tt s') s) →
  wp (while_ fuel cond body) Q s.
Proof.
  intros HI Hf Hstep. revert n s HI Hf.
  induction fuel as [|fuel IH]; intros n s HI Hf; [lia|].
  simpl. apply wp_bind. eapply wp_mono; [by apply Hstep|].
  intros [] s'; [|done]. intros [_ Hb]. apply wp_bind.
  eapply wp_mono; [exact Hb|]. intros [] s'' (k' & ? & HI').
  apply (IH k'); [done|lia].
Qed.

Lemma wp_repeat (I : nat → S → Prop) n body (Q : unit → S → Prop) s :
  I n s →
  (∀ k s, I (Datatypes.S k) s → wp body (λ _ s', I k s') s) →
  (∀ s, I O s → Q tt s) →
  wp (repeat_ n body) Q s.
Proof.
  intros HI Hb HQ. revert s HI. induction n as [|n IH]; intros s HI; simpl.
  - by apply wp_ret, HQ.
  - apply wp_bind. eapply wp_mono; [by apply Hb|]. intros [] s' ?. by apply IH.
Qed.
End wp_lemmas.

Lemma wp_zoom {S T A} (proj : S → T) (upd : T → S → S) (m : M T A)
    (Q : A → S → Prop) s :
  wp m (λ a t, Q a (upd t s)) (proj s) → wp (zoom proj upd m) Q s.
Proof. unfold wp, zoom. by destruct (m (proj s)) as [[a|e] t]. Qed.

(** One symbolic-execution step; [wp_go] runs straight-line code. *)
Ltac wp_step :=
  lazymatch goal with
  | |- wp (mbind _ _) _ _ => apply wp_bind
  | |- wp (fmap _ _) _ _ => apply wp_fmap
  | |- wp (mret _) _ _ => apply wp_ret
  | |- wp get _ _ => apply wp_get
  | |- wp (gets _) _ _ => apply wp_gets
  | |- wp (put _) _ _ => apply wp_put
  | |- wp (modify _) _ _ => apply wp_modify
  | |- wp (zoom _ _ _) _ _ => apply wp_zoom
  | |- wp (if _ then _ else _) _ _ => apply wp_if; intros ?
  end.
Ltac wp_go := repeat (wp_step; cbv beta).

(** Apply a specification lemma of a called function, then continue. *)
Tactic Notation "wp_apply" uconstr(spec) :=
  eapply wp_mono; [eapply spec | cbv beta].

Create HintDb wp discriminated.
#[export] Hint Resolve wp_ret wp_get wp_gets wp_put wp_modify : wp.
