(* ===== verification/Words.v ===== *)
(** Machine integers: the unsigned 8-, 16- and 32-bit types of the target as
    [Z] with their wrap-around written out, big-endian byte composition, and
    the bit lemmas the components share. *)
From stdpp Require Import base tactics numbers list.
From Stdlib Require Import Btauto.
From S2P Require Import Prelude.

(** The null pointer. *)
Definition NULL : Z := 0.

Definition u8 (x : Z) : Z := x mod 256.
Definition u16 (x : Z) : Z := x mod 65536.
Definition u32 (x : Z) : Z := x mod 4294967296.

(** The value of an [int] computed in 32 bits (two's complement). *)
Definition s32 (x : Z) : Z :=
  let y := u32 x in if y <? 2147483648 then y else y - 4294967296.

Lemma u8_range x : 0 ≤ u8 x < 256.
Proof. unfold u8. by apply Z.mod_pos_bound. Qed.
Lemma u16_range x : 0 ≤ u16 x < 65536.
Proof. unfold u16. by apply Z.mod_pos_bound. Qed.
Lemma u32_range x : 0 ≤ u32 x < 4294967296.
Proof. unfold u32. by apply Z.mod_pos_bound. Qed.
Lemma u8_id x : 0 ≤ x < 256 → u8 x = x.
Proof. apply Z.mod_small. Qed.
Lemma u16_id x : 0 ≤ x < 65536 → u16 x = x.
Proof. apply Z.mod_small. Qed.
Lemma u32_id x : 0 ≤ x < 4294967296 → u32 x = x.
Proof. apply Z.mod_small. Qed.

Create HintDb words discriminated.
#[export] Hint Resolve u8_range u16_range u32_range : words.
Create Rewrite HintDb word_ids.
#[export] Hint Rewrite u8_id u16_id u32_id using lia : word_ids.

(** ** Bits *)

Lemma testbit_high x n i : 0 ≤ x < 2 ^ n → 0 ≤ n ≤ i → Z.testbit x i = false.
Proof.
  intros Hx Hi. rewrite <-(Z.mod_small x (2 ^ n)) by done.
  apply Z.mod_pow2_bits_high. lia.
Qed.

(** A word below [2^n] does not overlap one shifted left by [n]. *)
Lemma lor_shiftl_add a b n :
  0 ≤ n → 0 ≤ b < 2 ^ n → Z.lor (Z.shiftl a n) b = a * 2 ^ n + b.
Proof.
  intros Hn Hb.
  assert (Hl : Z.land (Z.shiftl a n) b = 0).
  { apply Z.bits_inj'. intros i Hi.
    rewrite Z.land_spec, Z.bits_0, Z.shiftl_spec by lia.
    destruct (Z.lt_ge_cases i n).
    - by rewrite Z.testbit_neg_r by lia.
    - by rewrite (testbit_high b n i), andb_false_r by lia. }
  rewrite <-(Z.lxor_lor _ _ Hl), <-(Z.add_nocarry_lxor _ _ Hl).
  by rewrite Z.shiftl_mul_pow2 by lia.
Qed.

Lemma land_mask x n : 0 ≤ n → Z.land x (Z.ones n) = x mod 2 ^ n.
Proof. apply Z.land_ones. Qed.

Lemma land_lor_disjoint a b m : Z.land b m = 0 → Z.land (Z.lor a b) m = Z.land a m.
Proof. intros H. by rewrite Z.land_lor_distr_l, H, Z.lor_0_r. Qed.

(** ** Big-endian 32-bit words *)

(** [(b0 << 24) | (b1 << 16) | (b2 << 8) | b3] on [uint32_t]. *)
Definition be32 (b0 b1 b2 b3 : Z) : Z :=
  Z.lor (Z.lor (Z.lor (u32 (Z.shiftl b0 24)) (u32 (Z.shiftl b1 16)))
    (u32 (Z.shiftl b2 8))) b3.

(** [b0 | (b1 << 8) | (b2 << 16) | (b3 << 24)] on [uint32_t]. *)
Definition le32 (b0 b1 b2 b3 : Z) : Z :=
  Z.lor (Z.lor (Z.lor b0 (u32 (Z.shiftl b1 8))) (u32 (Z.shiftl b2 16)))
    (u32 (Z.shiftl b3 24)).

Definition byte_ok (b : Z) : Prop := 0 ≤ b < 256.
#[export] Instance byte_ok_dec b : Decision (byte_ok b).
Proof. unfold byte_ok. apply _. Defined.

Lemma be32_value b0 b1 b2 b3 :
  byte_ok b0 → byte_ok b1 → byte_ok b2 → byte_ok b3 →
  be32 b0 b1 b2 b3 = b0 * 16777216 + b1 * 65536 + b2 * 256 + b3.
Proof.
  unfold byte_ok, be32. intros.
  rewrite !u32_id by (rewrite Z.shiftl_mul_pow2 by lia; lia).
  replace (Z.shiftl b0 24) with (Z.shiftl (Z.shiftl (Z.shiftl b0 8) 8) 8)
    by (by rewrite !Z.shiftl_shiftl by lia).
  replace (Z.shiftl b1 16) with (Z.shiftl (Z.shiftl b1 8) 8)
    by (by rewrite Z.shiftl_shiftl by lia).
  rewrite <-!Z.shiftl_lor.
  rewrite !lor_shiftl_add by lia. lia.
Qed.

Lemma be32_range b0 b1 b2 b3 :
  byte_ok b0 → byte_ok b1 → byte_ok b2 → byte_ok b3 →
  0 ≤ be32 b0 b1 b2 b3 < 4294967296.
Proof. intros. rewrite be32_value by done. unfold byte_ok in *. lia. Qed.

Lemma le32_be32 b0 b1 b2 b3 : le32 b0 b1 b2 b3 = be32 b3 b2 b1 b0.
Proof.
  unfold le32, be32. apply Z.bits_inj'. intros i Hi.
  rewrite !Z.lor_spec. btauto.
Qed.

Lemma be32_inj b0 b1 b2 b3 c0 c1 c2 c3 :
  byte_ok b0 → byte_ok b1 → byte_ok b2 → byte_ok b3 →
  byte_ok c0 → byte_ok c1 → byte_ok c2 → byte_ok c3 →
  be32 b0 b1 b2 b3 = be32 c0 c1 c2 c3 → b0 = c0 ∧ b1 = c1 ∧ b2 = c2 ∧ b3 = c3.
Proof. intros. rewrite !be32_value in * by done. unfold byte_ok in *. lia. Qed.

(** Clearing the low bits rounds down. *)
Lemma land_align x n k :
  0 ≤ k → 0 ≤ n → 0 ≤ x < 2 ^ n →
  Z.land x (Z.ldiff (Z.ones n) (Z.ones k)) = x / 2 ^ k * 2 ^ k.
Proof.
  intros Hk Hn Hx. rewrite Z.ldiff_land, Z.land_assoc, <-Z.ldiff_land.
  rewrite land_mask, Z.mod_small by done.
  by rewrite Z.ldiff_ones_r, Z.shiftr_div_pow2, Z.shiftl_mul_pow2.
Qed.

(** A top bit on its own. *)
Lemma land_top_small s n : 0 ≤ n → 0 ≤ s < 2 ^ n → Z.land s (2 ^ n) = 0.
Proof.
  intros Hn Hs. apply Z.bits_inj'. intros i Hi. rewrite Z.land_spec, Z.bits_0.
  destruct (decide (i = n)) as [->|].
  - by rewrite (testbit_high s n) by lia.
  - by rewrite Z.pow2_bits_false, andb_false_r.
Qed.

Lemma land_top_set s n : 0 ≤ n → Z.land (Z.lor s (2 ^ n)) (2 ^ n) ≠ 0.
Proof.
  intros Hn E. apply (f_equal (λ z, Z.testbit z n)) in E.
  by rewrite Z.land_spec, Z.lor_spec, Z.pow2_bits_true, Z.bits_0, orb_true_r in E.
Qed.

Lemma land_top_clear s n :
  0 ≤ n → 0 ≤ s < 2 ^ n → Z.land (Z.lor s (2 ^ n)) (Z.ones n) = s.
Proof.
  intros Hn Hs. rewrite Z.land_lor_distr_l, land_mask, Z.mod_small by done.
  rewrite land_mask, Z.mod_same, Z.lor_0_r by lia. done.
Qed.
