(* ===== verification/Printf.v ===== *)
(** C strings and the part of [vsnprintf] the firmware's format strings use:
    [%s], [%d], [%u] and [%x], with the [0] flag, a field width and the [h]
    length modifier. *)
From Stdlib Require Import Ascii.
From stdpp Require Import base tactics numbers list strings.
From S2P Require Import Prelude Words.

(** ** C strings *)

Definition nul : ascii := Ascii.zero.

(** The characters of a string object up to its terminating NUL; the end of
    the Rocq string is the terminator the compiler adds to a literal. *)
Fixpoint cstr (s : string) : list ascii :=
  match s with
  | EmptyString => []
  | String c s => if decide (c = nul) then [] else c :: cstr s
  end.

(** The same, on a character buffer. *)
Fixpoint cstr_buf (l : list ascii) : list ascii :=
  match l with
  | [] => []
  | c :: l => if decide (c = nul) then [] else c :: cstr_buf l
  end.

Definition no_nul (l : list ascii) : Prop := Forall (λ c, c ≠ nul) l.
#[export] Instance no_nul_dec l : Decision (no_nul l).
Proof. unfold no_nul. apply _. Defined.

Fixpoint string_chars (s : string) : list ascii :=
  match s with
  | EmptyString => []
  | String c s => c :: string_chars s
  end.

Lemma cstr_buf_no_nul l : no_nul l → cstr_buf l = l.
Proof. induction 1 as [|c l Hc _ IH]; simpl; [done|]. by rewrite decide_False, IH. Qed.

Lemma cstr_string_chars s : cstr s = cstr_buf (string_chars s).
Proof. induction s; simpl; [done|]. case_decide; [done|]. by f_equal. Qed.

Lemma no_nul_cstr_buf l : no_nul (cstr_buf l).
Proof. induction l; simpl; [constructor|]. case_decide; [constructor|]. by constructor. Qed.

(** ** Numbers in base 10 and 16 *)

Definition digit_char (d : Z) : ascii :=
  if d <? 10 then ascii_of_N (Z.to_N (d + 48)) else ascii_of_N (Z.to_N (d + 87)).

Definition char_digit (c : ascii) : Z :=
  let n := Z.of_N (N_of_ascii c) in if n <? 58 then n - 48 else n - 87.

(** The digits of [n], most significant first; [fuel] bounds their number. *)
Fixpoint digits (fuel : nat) (base n : Z) : list ascii :=
  match fuel with
  | O => []
  | S fuel =>
      if n <? base then [digit_char n]
      else digits fuel base (n / base) ++ [digit_char (n mod base)]
  end.

(** 32 digits are enough for any 32-bit number in any base from 2 on. *)
Definition print_uint (base n : Z) : list ascii := digits 32 base n.

Definition read_digits (base : Z) (l : list ascii) : Z :=
  foldl (λ acc c, acc * base + char_digit c) 0 l.

Lemma char_digit_char d : 0 ≤ d < 16 → char_digit (digit_char d) = d.
Proof.
  intros Hd. assert (Hin : d ∈ seqZ 0 16) by (apply elem_of_seqZ; lia).
  clear Hd. revert d Hin. apply Forall_forall.
  by repeat (constructor; [vm_compute; reflexivity|]).
Qed.

Lemma digit_char_not_nul d : 0 ≤ d < 16 → digit_char d ≠ nul.
Proof.
  intros Hd Heq. apply (f_equal char_digit) in Heq.
  rewrite char_digit_char in Heq by done. vm_compute in Heq. lia.
Qed.

Section digits.
Context (base : Z) (Hbase : 2 ≤ base ≤ 16).

Lemma read_digits_snoc l c :
  read_digits base (l ++ [c]) = read_digits base l * base + char_digit c.
Proof. unfold read_digits. by rewrite foldl_snoc. Qed.

(** Reading back what was printed gives the number. *)
Lemma read_digits_digits fuel n :
  0 ≤ n < 2 ^ Z.of_nat fuel → read_digits base (digits fuel base n) = n.
Proof.
  revert n. induction fuel as [|fuel IH]; intros n Hn.
  - simpl in *. unfold read_digits. simpl. lia.
  - rewrite Nat2Z.inj_succ, Z.pow_succ_r in Hn by lia. simpl.
    destruct (Z.ltb_spec n base) as [Hlt|Hge].
    + unfold read_digits. simpl. rewrite char_digit_char; lia.
    + rewrite read_digits_snoc, IH, char_digit_char.
      * pose proof (Z_div_mod_eq_full n base). lia.
      * pose proof (Z.mod_pos_bound n base). lia.
      * split; [apply Z.div_pos; lia|]. apply Z.div_lt_upper_bound; nia.
Qed.

Lemma digits_length fuel n k :
  (0 < k)%nat → (k ≤ fuel)%nat → 0 ≤ n < base ^ Z.of_nat k →
  (length (digits fuel base n) ≤ k)%nat.
Proof.
  revert fuel n. induction k as [|k IH]; intros fuel n Hk Hf Hn; [lia|].
  destruct fuel as [|fuel]; [lia|]. simpl.
  destruct (Z.ltb_spec n base) as [|Hge]; [simpl; lia|].
  rewrite length_app. simpl.
  destruct k as [|k]; [rewrite Z.pow_1_r in Hn; lia|].
  enough (length (digits fuel base (n / base)) ≤ Datatypes.S k)%nat by lia.
  apply IH; [lia..|]. rewrite Nat2Z.inj_succ, Z.pow_succ_r in Hn by lia.
  split; [apply Z.div_pos; lia|]. apply Z.div_lt_upper_bound; lia.
Qed.

Lemma digits_nonempty fuel n : (0 < fuel)%nat → digits fuel base n ≠ [].
Proof.
  destruct fuel; [lia|]. intros _. simpl. case_match; [done|].
  intros [_ ?]%app_eq_nil. done.
Qed.

Lemma digits_Forall (P : ascii → Prop) fuel n :
  (∀ d, 0 ≤ d < base → P (digit_char d)) → 0 ≤ n → Forall P (digits fuel base n).
Proof.
  intros HP. revert n. induction fuel as [|fuel IH]; intros n Hn; simpl; [constructor|].
  destruct (Z.ltb_spec n base).
  - constructor; [by apply HP; lia|constructor].
  - apply Forall_app_2.
    + apply IH, Z.div_pos; lia.
    + constructor; [|constructor]. apply HP, Z.mod_pos_bound. lia.
Qed.
End digits.

(** ** [vsnprintf] *)

(** A variadic argument: an [int], an [unsigned] or a [char *]. *)
Inductive parg : Set :=
  | PInt (z : Z)
  | PUint (z : Z)
  | PStr (s : list ascii).

(** Where the scan of the format string is: in plain text, or after a [%]
    with the [0] flag and the field width read so far. *)
Inductive fstate : Set :=
  | FText
  | FSpec (zero : bool) (width : Z).

Definition pad (zero : bool) (width : Z) (sign ds : list ascii) : list ascii :=
  let fill := Z.to_nat (width - Z.of_nat (length sign + length ds)) in
  if zero then sign ++ replicate fill "0"%char ++ ds
  else replicate fill " "%char ++ sign ++ ds.

(** One conversion; [None] where C leaves the behaviour undefined (the
    argument has another type). *)
Definition convert (zero : bool) (width : Z) (c : ascii) (a : parg)
    : option (list ascii) :=
  match a with
  | PInt z =>
      if decide (c = "d"%char) then
        Some (pad zero width (if z <? 0 then ["-"%char] else [])
                (print_uint 10 (Z.abs z)))
      else if decide (c = "u"%char) then Some (pad zero width [] (print_uint 10 (u32 z)))
      else if decide (c = "x"%char) then Some (pad zero width [] (print_uint 16 (u32 z)))
      else None
  | PUint z =>
      if decide (c = "u"%char) then Some (pad zero width [] (print_uint 10 z))
      else if decide (c = "x"%char) then Some (pad zero width [] (print_uint 16 z))
      else if decide (c = "d"%char) then
        let z := s32 z in
        Some (pad zero width (if z <? 0 then ["-"%char] else [])
                (print_uint 10 (Z.abs z)))
      else None
  | PStr s => if decide (c = "s"%char) then Some (pad false width [] s) else None
  end.

Definition is_digit (c : ascii) : bool :=
  let n := N_of_ascii c in (48 <=? n)%N && (n <=? 57)%N.

Fixpoint vformat (st : fstate) (fmt : string) (args : list parg)
    : option (list ascii) :=
  match fmt with
  | EmptyString => match st with FText => Some [] | FSpec _ _ => None end
  | String c fmt =>
      match st with
      | FText =>
          if decide (c = "%"%char) then vformat (FSpec false 0) fmt args
          else out ← vformat FText fmt args; Some (c :: out)
      | FSpec zero width =>
          if decide (c = "%"%char) then
            out ← vformat FText fmt args; Some (c :: out)
          else if decide (c = "h"%char) then vformat (FSpec zero width) fmt args
          else if is_digit c then
            if decide (c = "0"%char ∧ width = 0) then vformat (FSpec true 0) fmt args
            else vformat (FSpec zero (width * 10 + char_digit c)) fmt args
          else
            match args with
            | [] => None
            | a :: args =>
                txt ← convert zero width c a;
                out ← vformat FText fmt args;
                Some (txt ++ out)
            end
      end
  end.

(** [vsnprintf(buf, size, fmt, args)]: what [buf] then holds before its NUL,
    and the returned length, which is that of the whole text. *)
Definition vsnprintf (size : Z) (fmt : string) (args : list parg)
    : option (list ascii * Z) :=
  out ← vformat FText fmt args;
  Some (take (Z.to_nat (size - 1)) out, Z.of_nat (length out)).

Example vsnprintf_time :
  vsnprintf 256 "%02d:%02d:%02d" [PInt 7; PInt 45; PInt 0]
  = Some (string_chars "07:45:00", 8).
Proof. vm_compute. reflexivity. Qed.

Example vsnprintf_hex :
  vsnprintf 5 "0x%08x" [PUint 0x9220002] = Some (string_chars "0x09", 10).
Proof. vm_compute. reflexivity. Qed.
