(* ===== verification/Console.v ===== *)
(** The console of [src/main.c]: memory-mapped registers, UART0 output by
    polling, [uart_puts] and [uart_printf], the fatal-error hooks and
    [_sbrk].

    The chip behind the registers is a parameter ([Mmio]); what the driver
    relies on of it is [UartTx].  The code that prints is written against the
    interface [Console]/[ConsoleLaws], which the UART driver implements. *)
From Stdlib Require Import Ascii.
From stdpp Require Import base tactics numbers list strings.
From S2P Require Import Prelude Words Printf.

(** ** Memory-mapped registers *)

(** A device: what a 32-bit read returns and how reads and writes change it. *)
Class Mmio (D : Type) := {
  mmio_read : Z → D → Z * D;
  mmio_write : Z → Z → D → D
}.

Section mmio.
Context {D : Type} `{Mmio D}.

Definition read_reg (a : Z) : M D Z := λ d, let '(v, d) := mmio_read a d in (inl v, d).
Definition write_reg (a v : Z) : M D unit := modify (mmio_write a (u32 v)).

Lemma wp_read_reg a (Q : Z → D → Prop) d :
  (let '(v, d') := mmio_read a d in Q v d') → wp (read_reg a) Q d.
Proof. unfold wp, read_reg. by destruct (mmio_read a d). Qed.
End mmio.

(** ** The interface between the printing code and the console *)

Class Console (S : Type) := putc : ascii → M S unit.

(** What the console promises: every character is appended to what it has
    sent so far, in order, and the call returns. *)
Class ConsoleLaws (S : Type) `{Console S} := {
  con_ok : S → Prop;
  con_out : S → list ascii;
  putc_spec c s :
    con_ok s → wp (putc c) (λ _ s', con_ok s' ∧ con_out s' = con_out s ++ [c]) s
}.

(** [s'] is a console that has sent [l] since [s]. *)
Definition emits {S} `{ConsoleLaws S} (l : list ascii) (s s' : S) : Prop :=
  con_ok s' ∧ con_out s' = con_out s ++ l.

(** The two characters [\r\n]. *)
Definition crlf : string := String "013" (String "010" EmptyString).

Section console.
Context {S : Type} `{Console S}.

(** [while ( *s) uart_putc( *s++);] *)
Fixpoint uart_puts (str : string) : M S unit :=
  match str with
  | EmptyString => mret tt
  | String c str => if decide (c = nul) then mret tt else putc c;; uart_puts str
  end.

(** The same loop on the characters of a buffer. *)
Fixpoint uart_puts_buf (l : list ascii) : M S unit :=
  match l with
  | [] => mret tt
  | c :: l => if decide (c = nul) then mret tt else putc c;; uart_puts_buf l
  end.

(** [static char buf[256]; vsnprintf(buf, sizeof(buf), fmt, args);
    uart_puts(buf);] *)
Definition uart_printf (fmt : string) (args : list parg) : M S Z :=
  '(buf, len) ← of_option (vsnprintf 256 fmt args);
  uart_puts_buf buf;;
  mret len.

(** [vApplicationStackOverflowHook], [vApplicationMallocFailedHook],
    [vAssertCalled] and the fault handlers: they print and never return. *)
Definition vApplicationStackOverflowHook (pcTaskName : string) : M S unit :=
  uart_puts "FATAL: Stack overflow in task: ";;
  uart_puts pcTaskName;;
  uart_puts crlf;;
  fail Hang.

Definition vApplicationMallocFailedHook : M S unit :=
  uart_puts ("FATAL: Malloc failed!" +:+ crlf);;
  fail Hang.

Definition vAssertCalled (pcFile : list ascii) (ulLine : Z) : M S unit :=
  uart_printf ("ASSERT FAILED: %s:%u" +:+ crlf)
    [PStr pcFile; PUint ulLine];;
  fail Hang.
End console.

Section fault_handlers.
Context {S : Type} `{Console S}.
Definition HardFault_Handler : M S unit :=
  uart_puts (crlf +:+ "!!! HARDFAULT !!!" +:+ crlf);; fail Hang.
Definition MemManage_Handler : M S unit :=
  uart_puts (crlf +:+ "!!! MEMMANAGE FAULT !!!" +:+ crlf);; fail Hang.
Definition BusFault_Handler : M S unit :=
  uart_puts (crlf +:+ "!!! BUS FAULT !!!" +:+ crlf);; fail Hang.
Definition UsageFault_Handler : M S unit :=
  uart_puts (crlf +:+ "!!! USAGE FAULT !!!" +:+ crlf);; fail Hang.
End fault_handlers.

Section console_lemmas.
Context {S : Type} `{Console S}.
Lemma uart_puts_as_buf (str : string) : uart_puts (S := S) str = uart_puts_buf (string_chars str).
Proof. induction str as [|c str IH]; simpl; [done|]. case_decide; [done|]. by rewrite IH. Qed.
End console_lemmas.

Section console_specs.
Context {S : Type} `{ConsoleLaws S}.

Lemma emits_refl (s : S) : con_ok s → emits [] s s.
Proof. intros. split; [done|]. by rewrite app_nil_r. Qed.

Lemma emits_trans l1 l2 (s1 s2 s3 : S) :
  emits l1 s1 s2 → emits l2 s2 s3 → emits (l1 ++ l2) s1 s3.
Proof. intros [? E1] [? E2]. split; [done|]. by rewrite E2, E1, app_assoc. Qed.

Lemma emits_ok l (s s' : S) : emits l s s' → con_ok s'.
Proof. by intros [? _]. Qed.

Lemma uart_puts_buf_spec l (s : S) :
  con_ok s → wp (uart_puts_buf l) (λ _ s', emits (cstr_buf l) s s') s.
Proof.
  intros Hok. revert s Hok. induction l as [|c l IH]; simpl; intros s Hs.
  { by apply wp_ret, emits_refl. }
  case_decide. { by apply wp_ret, emits_refl. }
  apply wp_bind. eapply wp_mono; [by apply putc_spec|].
  intros _ s1 [? Hout]. eapply wp_mono; [by apply IH|].
  intros [] s2 ?. change (emits ([c] ++ cstr_buf l) s s2).
  by eapply emits_trans; [split; [done|exact Hout]|].
Qed.

Lemma uart_puts_spec str (s : S) :
  con_ok s → wp (uart_puts str) (λ _ s', emits (cstr str) s s') s.
Proof.
  intros. rewrite uart_puts_as_buf, cstr_string_chars. by apply uart_puts_buf_spec.
Qed.

Lemma uart_printf_spec fmt args txt (s : S) :
  con_ok s → vformat FText fmt args = Some txt →
  wp (uart_printf fmt args)
    (λ len s', emits (cstr_buf (take 255 txt)) s s' ∧ len = Z.of_nat (length txt)) s.
Proof.
  intros Hs Hf. unfold uart_printf. apply wp_bind.
  eapply wp_of_option; [unfold vsnprintf; by rewrite Hf|].
  apply wp_bind. eapply wp_mono; [by apply uart_puts_buf_spec|].
  intros [] s' ?. by apply wp_ret.
Qed.
End console_specs.

(** What every character keeps, the printing functions keep. *)
Section keeps.
Context {S : Type} `{Console S} (P : S → Prop).
Context (putc_keeps : ∀ c s, P s → wp (putc c) (λ _, P) s).

Lemma puts_buf_keeps l s : P s → wp (uart_puts_buf l) (λ _, P) s.
Proof using putc_keeps.
  revert s. induction l as [|c l IH]; intros s Hs; simpl; [by apply wp_ret|].
  case_decide; [by apply wp_ret|]. apply wp_bind.
  eapply wp_mono; [by apply putc_keeps|]. intros ? s'. apply IH.
Qed.

Lemma puts_keeps str s : P s → wp (uart_puts str) (λ _, P) s.
Proof using putc_keeps. rewrite uart_puts_as_buf. apply puts_buf_keeps. Qed.

Lemma printf_keeps fmt args s :
  is_Some (vformat FText fmt args) → P s → wp (uart_printf fmt args) (λ _, P) s.
Proof using putc_keeps.
  intros [txt Hf] Hs. unfold uart_printf. apply wp_bind.
  eapply wp_of_option; [unfold vsnprintf; by rewrite Hf|]. apply wp_bind.
  eapply wp_mono; [by apply puts_buf_keeps|]. intros ? s' Hs'. by apply wp_ret.
Qed.
End keeps.

(** ** The UART driver *)

Definition UART0_BASE : Z := 0x40004000.
Definition UART0_DATA : Z := UART0_BASE + 0x00.
Definition UART0_STATE : Z := UART0_BASE + 0x04.
Definition UART0_CTRL : Z := UART0_BASE + 0x08.
Definition UART0_BAUDDIV : Z := UART0_BASE + 0x10.
Definition UART_STATE_TXFULL : Z := 1.
Definition UART_STATE_RXFULL : Z := 2.
Definition UART_CTRL_TXEN : Z := 1.
Definition UART_CTRL_RXEN : Z := 2.

Definition char_val (c : ascii) : Z := Z.of_N (N_of_ascii c).
Definition val_char (v : Z) : ascii := ascii_of_N (Z.to_N (u8 v)).

Lemma val_char_val c : val_char (char_val c) = c.
Proof.
  unfold val_char, char_val. rewrite u8_id.
  - by rewrite N2Z.id, ascii_N_embedding.
  - pose proof (N_ascii_bounded c). lia.
Qed.

Section uart.
Context {D : Type} `{Mmio D}.
(** The polls of the state register the model allows one busy-wait. *)
Context (poll_fuel : nat).

Definition tx_full : M D bool :=
  st ← read_reg UART0_STATE; mret (negb (Z.land st UART_STATE_TXFULL =? 0)).

Definition uart_putc (c : ascii) : M D unit :=
  while_ poll_fuel tx_full (mret tt);;
  write_reg UART0_DATA (char_val c).
End uart.

(** The transmitter, as the driver relies on it: polling does not change what
    was sent, the "full" bit clears after at most [tx_wait] more polls, and a
    character written to the data register is sent. *)
Class UartTx (D : Type) `{Mmio D} (bound : nat) := {
  tx_ok : D → Prop;
  tx_wait : D → nat;
  tx_sent : D → list ascii;
  tx_wait_bound d : tx_ok d → (tx_wait d ≤ bound)%nat;
  tx_poll d : tx_ok d →
    let '(st, d') := mmio_read UART0_STATE d in
    tx_ok d' ∧ tx_sent d' = tx_sent d ∧
    (Z.land st UART_STATE_TXFULL ≠ 0 → (tx_wait d' < tx_wait d)%nat);
  tx_write d v : tx_ok d →
    tx_ok (mmio_write UART0_DATA v d) ∧
    tx_sent (mmio_write UART0_DATA v d) = tx_sent d ++ [val_char v]
}.

Section uart_console.
Context {D : Type} `{Mmio D} {bound : nat} `{!UartTx D bound}.

Lemma tx_full_spec d :
  tx_ok d →
  wp tx_full (λ b d', tx_ok d' ∧ tx_sent d' = tx_sent d ∧
    (b = true → (tx_wait d' < tx_wait d)%nat)) d.
Proof.
  intros Hd. unfold tx_full. apply wp_bind, wp_read_reg.
  pose proof (tx_poll d Hd) as Hp. destruct (mmio_read UART0_STATE d) as [st d'].
  destruct Hp as (? & ? & Hw). apply wp_ret. split_and!; [done..|].
  rewrite negb_true_iff, Z.eqb_neq. done.
Qed.

Lemma uart_putc_spec fuel c d :
  tx_ok d → (bound < fuel)%nat →
  wp (uart_putc fuel c) (λ _ d', tx_ok d' ∧ tx_sent d' = tx_sent d ++ [c]) d.
Proof.
  intros Hd Hf. unfold uart_putc. apply wp_bind.
  apply (wp_while (λ n d', tx_ok d' ∧ tx_sent d' = tx_sent d ∧ n = tx_wait d') _ _ _ _ _
           (tx_wait d)); [done| |].
  { pose proof (tx_wait_bound d Hd). lia. }
  intros k d' (Hd' & Hs & ->). eapply wp_mono; [by apply tx_full_spec|].
  intros [] d'' (Hd'' & Hs' & Hw).
  - specialize (Hw eq_refl). split; [lia|]. apply wp_ret.
    exists (tx_wait d''). split_and!; [lia|done|congruence|done].
  - unfold write_reg. apply wp_modify.
    destruct (tx_write d'' (u32 (char_val c)) Hd'') as [? Hs'']. split; [done|].
    rewrite Hs'', Hs', Hs. do 2 f_equal.
    rewrite u32_id; [apply val_char_val|].
    unfold char_val. pose proof (N_ascii_bounded c). lia.
Qed.
End uart_console.

(** The driver on a device implements the console interface. *)
Definition UartConsole {D} `{Mmio D} (fuel : nat) : Console D := uart_putc fuel.

Definition UartConsoleLaws {D} `{Mmio D} {bound} `{!UartTx D bound} (fuel : nat)
    (Hf : (bound < fuel)%nat) : @ConsoleLaws D (UartConsole fuel) :=
  {| con_ok := tx_ok; con_out := tx_sent;
     putc_spec c d Hd := uart_putc_spec fuel c d Hd Hf |}.

(** A console that is just its transcript, for running the models. *)
#[export] Instance transcript_console : Console (list ascii) :=
  λ c, modify (λ l, l ++ [c]).
#[export] Instance transcript_console_laws : ConsoleLaws (list ascii).
Proof.
  refine {| con_ok := λ _, True; con_out := λ l : list ascii, l |}.
  intros c s _. by apply wp_modify.
Defined.

(** ** A concrete transmitter *)

(** A UART that needs [u_delay] polls after each character before it is ready
    for the next. *)
Record uart_dev := UartDev {
  u_sent : list ascii;
  u_busy : nat;
  u_delay : nat;
  u_regs : list (Z * Z)
}.

#[export] Instance uart_dev_mmio : Mmio uart_dev := {|
  mmio_read a d :=
    if a =? UART0_STATE then
      match u_busy d with
      | O => (0, d)
      | S n => (UART_STATE_TXFULL, UartDev (u_sent d) n (u_delay d) (u_regs d))
      end
    else (0, d);
  mmio_write a v d :=
    if a =? UART0_DATA then
      UartDev (u_sent d ++ [val_char v]) (u_delay d) (u_delay d) (u_regs d)
    else UartDev (u_sent d) (u_busy d) (u_delay d) (u_regs d ++ [(a, v)])
|}.

#[export] Instance uart_dev_tx bound : UartTx uart_dev bound.
Proof.
  refine {| tx_ok d := (u_busy d ≤ bound)%nat ∧ (u_delay d ≤ bound)%nat;
            tx_wait := u_busy; tx_sent := u_sent |}.
  - tauto.
  - intros [l [|n] dl r] [? ?]; simpl in *; split_and!; try done; lia.
  - intros [l n dl r] v [? ?]; simpl in *; split_and!; done.
Defined.

(** ** System start-up: [system_init] *)

Section system_init.
Context {D : Type} `{Mmio D} `{!Console D}.

Definition system_init : M D unit :=
  write_reg UART0_CTRL 0;;
  write_reg UART0_BAUDDIV (25000000 / 115200);;
  write_reg UART0_CTRL (Z.lor UART_CTRL_TXEN UART_CTRL_RXEN);;
  uart_puts crlf;;
  uart_puts ("================================================" +:+ crlf);;
  uart_puts ("  Speaking Clock - STM32 / FreeRTOS / QEMU" +:+ crlf);;
  uart_puts ("  Network Time Protocol (NTP) Client" +:+ crlf);;
  uart_puts ("================================================" +:+ crlf);;
  uart_puts crlf.
End system_init.

(** ** The newlib heap stub [_sbrk] *)

Section sbrk.
(** The linker symbols [_heap_bottom] and [_heap_top]. *)
Context (heap_bottom heap_top : Z).

(** State: the static [heap_ptr], [None] for NULL.  Result: the previous
    break, or [-1]. *)
Definition sbrk (incr : Z) (heap_ptr : option Z) : Z * option Z :=
  let prev := default heap_bottom heap_ptr in
  if prev + incr >? heap_top then (-1, Some prev)
  else (prev, Some (prev + incr)).

(** Every block handed out for a non-negative request lies in the heap,
    past every block handed out before. *)
Lemma sbrk_block incr p r p' :
  heap_bottom ≤ default heap_bottom p ≤ heap_top → 0 ≤ incr →
  sbrk incr p = (r, p') →
  (r = -1 ∧ default heap_bottom p' = default heap_bottom p ∧
     default heap_bottom p + incr > heap_top) ∨
  (r = default heap_bottom p ∧ heap_bottom ≤ r ∧
     default heap_bottom p' = r + incr ∧ r + incr ≤ heap_top).
Proof.
  unfold sbrk. intros Hp Hi Hs.
  rewrite Z.gtb_ltb in Hs. destruct (Z.ltb_spec heap_top (default heap_bottom p + incr));
    simplify_eq; simpl in *; [left|right]; lia.
Qed.
End sbrk.
