(* ===== verification/Speech.v ===== *)
(** Speech output: the token tables of [include/speech_tokens.h],
    [uart_send_token] and [speak_time] of [src/speech_task.c], proved against
    the console interface. *)
From Stdlib Require Import Ascii.
From stdpp Require Import base tactics numbers list strings.
From S2P Require Import Prelude Words Printf Console.

(** ** Tokens *)

Definition TOKEN_THE : string := "THE".
Definition TOKEN_TIME : string := "TIME".
Definition TOKEN_IS : string := "IS".
Definition TOKEN_HOURS : string := "HOURS".
Definition TOKEN_HOUR : string := "HOUR".
Definition TOKEN_MINUTES : string := "MINUTES".
Definition TOKEN_MINUTE : string := "MINUTE".
Definition TOKEN_AND : string := "AND".
Definition TOKEN_SECONDS : string := "SECONDS".
Definition TOKEN_SECOND : string := "SECOND".

Definition number_words : list string := [
  "ZERO"; "ONE"; "TWO"; "THREE"; "FOUR";
  "FIVE"; "SIX"; "SEVEN"; "EIGHT"; "NINE";
  "TEN"; "ELEVEN"; "TWELVE"; "THIRTEEN"; "FOURTEEN";
  "FIFTEEN"; "SIXTEEN"; "SEVENTEEN"; "EIGHTEEN"; "NINETEEN";
  "TWENTY"; "TWENTY_ONE"; "TWENTY_TWO"; "TWENTY_THREE"; "TWENTY_FOUR";
  "TWENTY_FIVE"; "TWENTY_SIX"; "TWENTY_SEVEN"; "TWENTY_EIGHT"; "TWENTY_NINE";
  "THIRTY"; "THIRTY_ONE"; "THIRTY_TWO"; "THIRTY_THREE"; "THIRTY_FOUR";
  "THIRTY_FIVE"; "THIRTY_SIX"; "THIRTY_SEVEN"; "THIRTY_EIGHT"; "THIRTY_NINE";
  "FORTY"; "FORTY_ONE"; "FORTY_TWO"; "FORTY_THREE"; "FORTY_FOUR";
  "FORTY_FIVE"; "FORTY_SIX"; "FORTY_SEVEN"; "FORTY_EIGHT"; "FORTY_NINE";
  "FIFTY"; "FIFTY_ONE"; "FIFTY_TWO"; "FIFTY_THREE"; "FIFTY_FOUR";
  "FIFTY_FIVE"; "FIFTY_SIX"; "FIFTY_SEVEN"; "FIFTY_EIGHT"; "FIFTY_NINE"].

(** [number_words[n]]; an index past the table is an invalid access. *)
Definition number_word {S} (n : Z) : M S string :=
  of_option (number_words !! Z.to_nat n).

Section speech.
Context {S : Type} `{Console S}.

Definition uart_send_token (token : string) : M S unit :=
  uart_puts "TOKEN ";;
  uart_puts token;;
  uart_puts crlf.

Definition speak_time (hour minute second : Z) : M S unit :=
  uart_puts (crlf +:+ "--- Speech Output ---" +:+ crlf);;
  uart_send_token TOKEN_THE;;
  uart_send_token TOKEN_TIME;;
  uart_send_token TOKEN_IS;;
  when_ (hour <? 60) (w ← number_word hour; uart_send_token w);;
  uart_send_token (if hour =? 1 then TOKEN_HOUR else TOKEN_HOURS);;
  when_ (minute <? 60) (w ← number_word minute; uart_send_token w);;
  uart_send_token (if minute =? 1 then TOKEN_MINUTE else TOKEN_MINUTES);;
  uart_send_token TOKEN_AND;;
  when_ (second <? 60) (w ← number_word second; uart_send_token w);;
  uart_send_token (if second =? 1 then TOKEN_SECOND else TOKEN_SECONDS);;
  uart_puts ("END" +:+ crlf);;
  uart_puts ("--- End Speech ---" +:+ crlf +:+ crlf).
End speech.

(** ** What is sent *)

(** The word for a number, absent from 60 on. *)
Definition spoken_number (n : Z) : list string :=
  if n <? 60 then [default EmptyString (number_words !! Z.to_nat n)] else [].

(** The tokens of an announcement, in order. *)
Definition time_tokens (hour minute second : Z) : list string :=
  [TOKEN_THE; TOKEN_TIME; TOKEN_IS] ++
  spoken_number hour ++ [if hour =? 1 then TOKEN_HOUR else TOKEN_HOURS] ++
  spoken_number minute ++ [if minute =? 1 then TOKEN_MINUTE else TOKEN_MINUTES] ++
  [TOKEN_AND] ++
  spoken_number second ++ [if second =? 1 then TOKEN_SECOND else TOKEN_SECONDS].

Definition token_line (token : string) : list ascii :=
  cstr "TOKEN " ++ cstr token ++ cstr crlf.

Definition announcement (tokens : list string) : list ascii :=
  cstr (crlf +:+ "--- Speech Output ---" +:+ crlf) ++
  concat (token_line <$> tokens) ++
  cstr ("END" +:+ crlf) ++ cstr ("--- End Speech ---" +:+ crlf +:+ crlf).

Section speech_specs.
Context {S : Type} `{ConsoleLaws S}.

(** [m] returns, having sent exactly [l]. *)
Definition sends (m : M S unit) (l : list ascii) : Prop :=
  ∀ s, con_ok s → wp m (λ _ s', emits l s s') s.

Lemma sends_puts str : sends (uart_puts str) (cstr str).
Proof. intros s Hs. by apply uart_puts_spec. Qed.

Lemma sends_ret : sends (mret tt) [].
Proof. intros s Hs. by apply wp_ret, emits_refl. Qed.

Lemma sends_bind m1 m2 l1 l2 :
  sends m1 l1 → sends m2 l2 → sends (m1;; m2) (l1 ++ l2).
Proof.
  intros H1 H2 s Hs. apply wp_bind. eapply wp_mono; [by apply H1|].
  intros [] s1 Hs1. eapply wp_mono; [by apply H2, (emits_ok l1 s)|].
  intros [] s2 Hs2. by eapply emits_trans.
Qed.

Lemma sends_token t : sends (uart_send_token t) (token_line t).
Proof. repeat apply sends_bind; apply sends_puts. Qed.

Lemma number_words_lookup n :
  0 ≤ n < 60 →
  number_words !! Z.to_nat n = Some (default EmptyString (number_words !! Z.to_nat n)).
Proof.
  intros Hn. destruct (lookup_lt_is_Some_2 number_words (Z.to_nat n)) as [w Hw].
  - change (length number_words) with 60%nat. lia.
  - by rewrite Hw.
Qed.

Lemma sends_number n :
  0 ≤ n →
  sends (when_ (n <? 60) (w ← number_word n; uart_send_token w))
    (concat (token_line <$> spoken_number n)).
Proof.
  intros Hn. unfold spoken_number. destruct (Z.ltb_spec n 60); [|apply sends_ret].
  unfold when_, number_word. rewrite number_words_lookup by lia.
  simpl. rewrite app_nil_r. apply sends_token.
Qed.

(** The printed stream of a call, for every argument. *)
Lemma sends_speak_time h m s :
  0 ≤ h → 0 ≤ m → 0 ≤ s →
  sends (speak_time h m s) (announcement (time_tokens h m s)).
Proof.
  intros. unfold speak_time, announcement, time_tokens.
  rewrite !fmap_app, !concat_app, <-!app_assoc.
  cbn [fmap list_fmap concat]. rewrite !app_nil_r, <-!app_assoc.
  repeat first [ apply sends_bind | apply sends_token | apply sends_puts
               | by apply sends_number ].
Qed.
End speech_specs.
