(* ===== verification/Bridge.v ===== *)
(** The host side of the token protocol, [scripts/tts_bridge.py]: the reader
    thread's line buffer and [process_line].  It is what gives the firmware's
    token stream its meaning, so the announcements of [Speech] are proved
    against it.  Characters are ASCII, which is all the firmware sends. *)
From Stdlib Require Import Ascii.
From stdpp Require Import base tactics numbers list strings.
From S2P Require Import Prelude Words Printf Console Speech.

(** ** Python string operations on ASCII characters *)

(** [str.isspace] on ASCII: tab to carriage return, 0x1c to 0x1f and space. *)
Definition is_pyspace (c : ascii) : bool :=
  let n := N_of_ascii c in
  ((9 <=? n)%N && (n <=? 13)%N) || ((28 <=? n)%N && (n <=? 32)%N).

Fixpoint lstrip (l : list ascii) : list ascii :=
  match l with
  | [] => []
  | c :: l' => if is_pyspace c then lstrip l' else l
  end.

Definition strip (l : list ascii) : list ascii := reverse (lstrip (reverse (lstrip l))).

Definition lower_char (c : ascii) : ascii :=
  let n := N_of_ascii c in
  if ((65 <=? n)%N && (n <=? 90)%N) then ascii_of_N (n + 32) else c.

(** [token.lower().replace('_', ' ')] *)
Definition token_to_word (token : list ascii) : list ascii :=
  (λ c, if decide (c = "_"%char) then " "%char else c) <$> (lower_char <$> token).

(** [' '.join(tokens)] *)
Fixpoint join_words (ws : list (list ascii)) : list ascii :=
  match ws with
  | [] => []
  | [w] => w
  | w :: ws => w ++ " "%char :: join_words ws
  end.

Fixpoint starts_with (p l : list ascii) : bool :=
  match p, l with
  | [], _ => true
  | c :: p, d :: l => bool_decide (c = d) && starts_with p l
  | _ :: _, [] => false
  end.

(** ** The bridge *)

Record bridge := Bridge {
  b_buf : list ascii;          (* the bytes of the current line *)
  b_tokens : list (list ascii); (* words since the last END *)
  b_spoken : list (list ascii); (* sentences passed to speak, in order *)
  b_printed : list (list ascii) (* other lines, printed through *)
}.

Definition process_line (line : list ascii) (b : bridge) : bool * bridge :=
  let line := strip line in
  if starts_with (string_chars "TOKEN ") line then
    let word := strip (drop 6 line) in
    if decide (word ≠ []) then
      (false, Bridge (b_buf b) (b_tokens b ++ [token_to_word word]) (b_spoken b)
        (b_printed b))
    else (false, b)
  else if decide (line = string_chars "END") then
    if decide (b_tokens b ≠ []) then
      (true, Bridge (b_buf b) [] (b_spoken b ++ [join_words (b_tokens b)]) (b_printed b))
    else (true, b)
  else if decide (line ≠ []) then
    (false, Bridge (b_buf b) (b_tokens b) (b_spoken b) (b_printed b ++ [line]))
  else (false, b).

(** One byte read by [read_output]. *)
Definition read_output_byte (b : bridge) (c : ascii) : bridge :=
  if decide (c = "010"%char) then
    let line := filter (λ c, c ≠ "013"%char) (b_buf b) in
    let b' := (process_line line b).2 in
    Bridge [] (b_tokens b') (b_spoken b') (b_printed b')
  else Bridge (b_buf b ++ [c]) (b_tokens b) (b_spoken b) (b_printed b).

Definition read_output (b : bridge) (bytes : list ascii) : bridge :=
  foldl read_output_byte b bytes.

Definition bridge_init : bridge := Bridge [] [] [] [].

(** ** Lines *)

Lemma read_output_app b l1 l2 : read_output b (l1 ++ l2) = read_output (read_output b l1) l2.
Proof. apply foldl_app. Qed.

(** Reading a line and its newline processes the line. *)
Lemma read_output_line b l :
  Forall (λ c, c ≠ "010"%char) l →
  read_output b (l ++ ["010"%char]) =
  let b' := (process_line (filter (λ c, c ≠ "013"%char) (b_buf b ++ l)) b).2 in
  Bridge [] (b_tokens b') (b_spoken b') (b_printed b').
Proof.
  intros Hl. rewrite read_output_app.
  assert (read_output b l = Bridge (b_buf b ++ l) (b_tokens b) (b_spoken b) (b_printed b))
    as ->.
  { revert b. induction Hl as [|c l Hc _ IH]; intros b; simpl.
    - rewrite app_nil_r. by destruct b.
    - unfold read_output_byte. rewrite decide_False by done.
      rewrite IH. simpl. by rewrite <-app_assoc. }
  simpl. unfold read_output_byte. rewrite decide_True by done. simpl.
  set (line := filter _ _). clearbody line. unfold process_line.
  cbn [b_buf b_tokens b_spoken b_printed].
  destruct (starts_with _ _); [by case_decide|].
  case_decide; [by case_decide|]. by case_decide.
Qed.

(** A token the protocol carries unchanged: not empty, no white space. *)
Definition clean_word (w : list ascii) : Prop :=
  w ≠ [] ∧ Forall (λ c, is_pyspace c = false) w.
#[export] Instance clean_word_dec w : Decision (clean_word w).
Proof. unfold clean_word. apply _. Defined.

Definition hard_ends (l : list ascii) : Prop :=
  match head l, last l with
  | Some c, Some d => is_pyspace c = false ∧ is_pyspace d = false
  | _, _ => True
  end.

Lemma lstrip_hard l c : head l = Some c → is_pyspace c = false → lstrip l = l.
Proof. destruct l; simpl; [done|]. by intros [= ->] ->. Qed.

(** Stripping leaves a string whose ends are not white space as it is. *)
Lemma strip_hard l : hard_ends l → strip l = l.
Proof.
  unfold hard_ends, strip. intros Hl. rename l into l0.
    destruct (head l0) as [c'|] eqn:Hh; [|by destruct l0].
  destruct (last l0) as [d|] eqn:Ht; [|by apply last_None in Ht as ->].
  destruct Hl. rewrite (lstrip_hard l0 c') by done.
  rewrite (lstrip_hard (reverse l0) d), reverse_involutive; [done|by rewrite head_reverse|done].
Qed.

Lemma clean_hard_ends l : Forall (λ c, is_pyspace c = false) l → hard_ends l.
Proof.
  intros Hl. unfold hard_ends.
  destruct (head l) as [c|] eqn:Hh, (last l) as [d|] eqn:Ht; try done.
  rewrite Forall_forall in Hl. split; apply Hl.
  - by apply head_Some_elem_of.
  - by apply last_Some_elem_of.
Qed.

Lemma strip_clean l : Forall (λ c, is_pyspace c = false) l → strip l = l.
Proof. intros. by apply strip_hard, clean_hard_ends. Qed.

Lemma strip_token_line w :
  clean_word w → strip (string_chars "TOKEN " ++ w) = string_chars "TOKEN " ++ w.
Proof.
  intros [Hne Hw]. apply strip_hard. unfold hard_ends.
  rewrite last_app. destruct (last w) as [d|] eqn:Hd.
  - split; [done|]. rewrite Forall_forall in Hw. by apply Hw, last_Some_elem_of.
  - by apply last_None in Hd.
Qed.

Lemma space_newline c : is_pyspace c = false → c ≠ "010"%char ∧ c ≠ "013"%char.
Proof. intros Hc. split; intros ->; vm_compute in Hc; done. Qed.

Lemma filter_clean (w : list ascii) :
  Forall (λ c, is_pyspace c = false) w → filter (λ c, c ≠ "013"%char) w = w.
Proof.
  induction 1 as [|c w Hc _ IH]; [done|]. rewrite filter_cons_True, IH; [done|].
  by apply space_newline.
Qed.

(** A token line adds its word. *)
Lemma read_output_token b w :
  b_buf b = [] → no_nul (string_chars w) → clean_word (string_chars w) →
  read_output b (token_line w) =
  Bridge [] (b_tokens b ++ [token_to_word (string_chars w)]) (b_spoken b) (b_printed b).
Proof.
  intros Hb Hn [Hne Hw]. unfold token_line. rewrite !cstr_string_chars.
  rewrite (cstr_buf_no_nul (string_chars w)) by done.
  change (cstr_buf (string_chars crlf)) with (["013"%char] ++ ["010"%char]).
  change (cstr_buf (string_chars "TOKEN ")) with (string_chars "TOKEN ").
  rewrite !app_assoc, read_output_line.
  - rewrite Hb, app_nil_l, filter_app, filter_app, (filter_clean (string_chars w)) by done.
    rewrite (filter_cons_False _ "013"%char) by auto. rewrite filter_nil, app_nil_r.
    change (filter _ (string_chars "TOKEN ")) with (string_chars "TOKEN ").
    unfold process_line. rewrite strip_token_line by done.
    replace (starts_with _ _) with true by done.
    change (drop 6 (string_chars "TOKEN " ++ string_chars w)) with (string_chars w).
    rewrite strip_clean by done. by rewrite decide_True.
  - repeat apply Forall_app_2; [by repeat constructor| |by repeat constructor].
    eapply Forall_impl; [exact Hw|]. intros c Hc. by apply space_newline.
Qed.

Lemma read_output_tokens b ws :
  b_buf b = [] →
  Forall (λ w, no_nul (string_chars w) ∧ clean_word (string_chars w)) ws →
  read_output b (concat (token_line <$> ws)) =
  Bridge [] (b_tokens b ++ ((λ w, token_to_word (string_chars w)) <$> ws))
    (b_spoken b) (b_printed b).
Proof.
  intros Hb Hws. revert b Hb.
  induction Hws as [|w ws [Hn Hw] _ IH]; intros b Hb; cbn [concat fmap list_fmap].
  - simpl. rewrite app_nil_r. destruct b; simpl in *. by subst.
  - rewrite read_output_app, read_output_token by done. rewrite IH by done.
    cbn [b_tokens b_spoken b_printed]. by rewrite <-app_assoc.
Qed.
