(* ===== verification/Announce.v ===== *)
(** The announcement end to end: what [speak_time] prints, as the host bridge
    hears it.  The spoken sentence is produced exactly once, nothing is left
    over, and different times give different sentences. *)
From Stdlib Require Import Ascii.
From stdpp Require Import base tactics numbers list strings.
From S2P Require Import Prelude Words Printf Console Speech Bridge.

(** The sentence of a time of day. *)
Definition sentence (h m s : Z) : list ascii :=
  join_words ((λ w, token_to_word (string_chars w)) <$> time_tokens h m s).

Example sentence_example :
  sentence 14 21 1 =
  string_chars "the time is fourteen hours twenty one minutes and one second".
Proof. vm_compute. reflexivity. Qed.

Definition token_ok (w : string) : Prop :=
  no_nul (string_chars w) ∧ clean_word (string_chars w).
#[export] Instance token_ok_dec w : Decision (token_ok w).
Proof. unfold token_ok. apply _. Defined.

Lemma number_words_ok : Forall token_ok number_words.
Proof. apply (bool_decide_unpack _). vm_compute. exact I. Qed.

Lemma spoken_number_ok n : 0 ≤ n → Forall token_ok (spoken_number n).
Proof.
  intros Hn. unfold spoken_number. destruct (Z.ltb_spec n 60); [|constructor].
  constructor; [|constructor].
  eapply (Forall_lookup_1 _ _ _ _ number_words_ok), number_words_lookup. lia.
Qed.

Lemma time_tokens_ok h m s : 0 ≤ h → 0 ≤ m → 0 ≤ s → Forall token_ok (time_tokens h m s).
Proof.
  intros. unfold time_tokens.
  repeat apply Forall_app_2; try by apply spoken_number_ok.
  all: repeat case_match; apply (bool_decide_unpack _); vm_compute; exact I.
Qed.

(** The two banner lines around the tokens are printed through. *)
Definition banner_start : list ascii := string_chars "--- Speech Output ---".
Definition banner_end : list ascii := string_chars "--- End Speech ---".

Lemma read_banner_start b :
  b_buf b = [] →
  read_output b (cstr (crlf +:+ "--- Speech Output ---" +:+ crlf)) =
  Bridge [] (b_tokens b) (b_spoken b) (b_printed b ++ [banner_start]).
Proof. destruct b as [buf t sp pr]. simpl b_buf. intros ->. vm_compute. reflexivity. Qed.

Lemma read_banner_end b :
  b_buf b = [] →
  read_output b (cstr ("--- End Speech ---" +:+ crlf +:+ crlf)) =
  Bridge [] (b_tokens b) (b_spoken b) (b_printed b ++ [banner_end]).
Proof. destruct b as [buf t sp pr]. simpl b_buf. intros ->. vm_compute. reflexivity. Qed.

Lemma read_end b :
  b_buf b = [] → b_tokens b ≠ [] →
  read_output b (cstr ("END" +:+ crlf)) =
  Bridge [] [] (b_spoken b ++ [join_words (b_tokens b)]) (b_printed b).
Proof.
  destruct b as [buf [|t ts] sp pr]; simpl b_buf; simpl b_tokens; intros -> ?; [done|].
  vm_compute. reflexivity.
Qed.

(** The bridge on the byte stream of an announcement. *)
Lemma read_output_announcement b tokens :
  b_buf b = [] → b_tokens b = [] → tokens ≠ [] → Forall token_ok tokens →
  read_output b (announcement tokens) =
  Bridge [] [] (b_spoken b ++ [join_words ((λ w, token_to_word (string_chars w)) <$> tokens)])
    (b_printed b ++ [banner_start; banner_end]).
Proof.
  intros Hb Ht Hne Htok. unfold announcement.
  rewrite !read_output_app, read_banner_start by done.
  rewrite read_output_tokens by done. cbn [b_tokens b_spoken b_printed].
  rewrite Ht, app_nil_l, read_end by (done || by destruct tokens).
  rewrite read_banner_end by done. cbn [b_tokens b_spoken b_printed].
  by rewrite <-app_assoc.
Qed.

(** ** Different times sound different *)

Definition num_text (n : Z) : list ascii :=
  token_to_word (string_chars (default EmptyString (number_words !! Z.to_nat n))).

Definition times : list Z := seqZ 0 60.

(** No number's words followed by a unit start like another number's: the
    table is checked pair by pair. *)
Definition prefix_free (unit_ : string) (n m : Z) : bool :=
  let t k := num_text k ++ string_chars unit_ in
  bool_decide (n = m) ||
  negb (bool_decide (t n `prefix_of` t m) || bool_decide (t m `prefix_of` t n)).

Lemma elem_of_times n : 0 ≤ n < 60 → n ∈ times.
Proof. intros. apply elem_of_seqZ. lia. Qed.

Lemma num_text_cancel unit_ n m l1 l2 :
  forallb (λ n, forallb (prefix_free unit_ n) times) times = true →
  0 ≤ n < 60 → 0 ≤ m < 60 →
  num_text n ++ string_chars unit_ ++ l1 = num_text m ++ string_chars unit_ ++ l2 →
  n = m ∧ l1 = l2.
Proof.
  intros Hall Hn Hm Heq. enough (n = m) as ->.
  { split; [done|]. by apply app_inv_head, app_inv_head in Heq. }
  rewrite forallb_forall in Hall.
  specialize (Hall n). rewrite <-list_elem_of_In, forallb_forall in Hall.
  specialize (Hall (elem_of_times n Hn) m). rewrite <-list_elem_of_In in Hall.
  specialize (Hall (elem_of_times m Hm)).
  unfold prefix_free in Hall. apply orb_true_iff in Hall as [->%bool_decide_eq_true|Hall]; [done|].
  rewrite negb_true_iff, orb_false_iff, !bool_decide_eq_false in Hall.
  destruct Hall as [H1 H2]. exfalso.
  destruct (prefix_weak_total (num_text n ++ string_chars unit_)
    (num_text m ++ string_chars unit_) (num_text n ++ string_chars unit_ ++ l1));
    [exists l1; by rewrite app_assoc|exists l2; by rewrite Heq, app_assoc|done|done].
Qed.

Definition plural (n : Z) : list ascii := if n =? 1 then [] else ["s"%char].

Lemma sentence_text h m s :
  0 ≤ h < 60 → 0 ≤ m < 60 → 0 ≤ s < 60 →
  sentence h m s = string_chars "the time is " ++
    num_text h ++ string_chars " hour" ++ plural h ++ " "%char ::
    num_text m ++ string_chars " minute" ++ plural m ++ string_chars " and " ++
    num_text s ++ string_chars " second" ++ plural s.
Proof.
  intros. unfold sentence, time_tokens, spoken_number, plural.
  rewrite !(proj2 (Z.ltb_lt _ _)) by lia.
  unfold num_text. destruct (h =? 1), (m =? 1), (s =? 1);
    cbn [fmap list_fmap app join_words];
    rewrite <-?app_assoc; cbn [app]; rewrite <-?app_assoc; reflexivity.
Qed.

(** No two times sound alike: the sentence determines the time. *)
Theorem sentence_injective h m s h' m' s' :
  0 ≤ h < 60 → 0 ≤ m < 60 → 0 ≤ s < 60 →
  0 ≤ h' < 60 → 0 ≤ m' < 60 → 0 ≤ s' < 60 →
  sentence h m s = sentence h' m' s' → h = h' ∧ m = m' ∧ s = s'.
Proof.
  intros Hh Hm Hs Hh' Hm' Hs'. rewrite !sentence_text by done.
  intros Heq%app_inv_head.
  apply (num_text_cancel " hour") in Heq as [-> Heq%app_inv_head]; [|by vm_compute|done..].
  injection Heq as Heq.
  apply (num_text_cancel " minute") in Heq as [-> Heq%app_inv_head]; [|by vm_compute|done..].
  injection Heq as Heq.
  by apply (num_text_cancel " second") in Heq as [-> _]; [|by vm_compute|..].
Qed.

Lemma sentence_injective_witness :
  sentence 12 34 56 = sentence 12 34 56 ∧ 12 = 12 ∧ 34 = 34 ∧ 56 = 56.
Proof.
  split; [reflexivity|]. apply (sentence_injective 12 34 56 12 34 56); (lia || reflexivity).
Defined.

(** ** The property *)

Section announce.
Context {S : Type} `{ConsoleLaws S}.

(** C7: an announcement is printed completely, and the bridge speaks it as
    exactly one sentence with no token left over. *)
Theorem speak_time_heard h m s (c : S) (b : bridge) :
  0 ≤ h < 60 → 0 ≤ m < 60 → 0 ≤ s < 60 →
  con_ok c → b_buf b = [] → b_tokens b = [] →
  wp (speak_time h m s) (λ _ c', ∃ bytes, emits bytes c c' ∧
    read_output b bytes = Bridge [] [] (b_spoken b ++ [sentence h m s])
      (b_printed b ++ [banner_start; banner_end])) c.
Proof.
  intros. eapply wp_mono; [apply sends_speak_time; (lia || done)|].
  intros [] c' Hc'. eexists. split; [exact Hc'|].
  apply read_output_announcement; [done..|]. apply time_tokens_ok; lia.
Qed.
End announce.

Lemma speak_time_heard_witness :
  wp (speak_time 14 5 1) (λ _ (c' : list ascii), ∃ bytes, emits bytes [] c' ∧
    read_output bridge_init bytes = Bridge [] []
      ([] ++ [sentence 14 5 1]) ([] ++ [banner_start; banner_end])) [].
Proof. apply (speak_time_heard 14 5 1 [] bridge_init); (lia || done). Defined.
