(* ===== verification/Sched.v ===== *)
(** What [freertos/queue.c] uses of the scheduler, [freertos/tasks.c]: the
    interface [TaskOps] with one operation per function called, and
    [TaskLaws], what those functions promise to their callers.

    An event list ([List_t] of waiting tasks, kept in priority order by the
    list code) is passed by value as the list of its task handles, head first;
    a function that changes it returns the new list. *)
From stdpp Require Import base tactics numbers list.
From S2P Require Import Prelude Words.

(** [TaskHandle_t], and [TimeOut_t]: the overflow count and the tick count at
    which a wait began. *)
Definition task_handle : Type := Z.

Record TimeOut_t := TimeOut {
  xOverflowCount : Z;
  xTimeOnEntering : Z
}.

Definition portMAX_DELAY : Z := 4294967295.
Definition configMAX_PRIORITIES : Z := 5.
Definition tskIDLE_PRIORITY : Z := 0.

Class TaskOps (K : Type) := {
  xTaskRemoveFromEventList : list task_handle → M K (bool * list task_handle);
  vTaskPlaceOnEventList : list task_handle → Z → M K (list task_handle);
  vTaskInternalSetTimeOutState : M K TimeOut_t;
  (** Whether the time is up, the restarted [TimeOut_t] and the ticks left. *)
  xTaskCheckForTimeOut : TimeOut_t → Z → M K (bool * (TimeOut_t * Z));
  vTaskSuspendAll : M K unit;
  xTaskResumeAll : M K bool;
  vTaskMissedYield : M K unit;
  uxTaskGetNumberOfTasks : M K Z;
  scheduler_suspended : K → bool;
  event_item_value : K → task_handle → Z;
  portYIELD_WITHIN_API : M K unit;
  xTaskPriorityDisinherit : option task_handle → M K bool;
  pvTaskIncrementMutexHeldCount : M K (option task_handle);
  xTaskPriorityInherit : option task_handle → M K bool;
  vTaskPriorityDisinheritAfterTimeout : option task_handle → Z → M K unit
}.

(** The promises.  [k_live] is the state the scheduler is in while a task
    runs.  [k_patience to ticks k] bounds how often a wait that began at [to]
    with [ticks] to go can still be found not to have expired: time passes
    between two looks at the clock, and nothing turns it back. *)
Class TaskLaws (K : Type) `{TaskOps K} := {
  k_live : K → Prop;
  k_patience : TimeOut_t → Z → K → nat;
  k_step k k' : Prop := k_live k' ∧ ∀ to t, (k_patience to t k' ≤ k_patience to t k)%nat;
  remove_event_law t ts k : k_live k →
    wp (xTaskRemoveFromEventList (t :: ts)) (λ r k', k_step k k' ∧ r.2 = ts) k;
  place_event_law l ticks k : k_live k →
    wp (vTaskPlaceOnEventList l ticks) (λ _ k', k_step k k') k;
  set_timeout_law k : k_live k →
    wp vTaskInternalSetTimeOutState (λ _ k', k_step k k') k;
  check_timeout_law to ticks k : k_live k →
    wp (xTaskCheckForTimeOut to ticks) (λ '(b, (to', ticks')) k', k_step k k' ∧
      (b = true → ticks' = 0) ∧
      (b = false → ticks < portMAX_DELAY → ticks' < portMAX_DELAY ∧
         (k_patience to' ticks' k' < k_patience to ticks k)%nat)) k;
  suspend_law k : k_live k → wp vTaskSuspendAll (λ _ k', k_step k k') k;
  resume_law k : k_live k → wp xTaskResumeAll (λ _ k', k_step k k') k;
  missed_yield_law k : k_live k → wp vTaskMissedYield (λ _ k', k_step k k') k;
  number_of_tasks_law k : k_live k →
    wp uxTaskGetNumberOfTasks (λ n k', k_step k k' ∧ 0 < n ≤ 127) k;
  yield_law k : k_live k → wp portYIELD_WITHIN_API (λ _ k', k_step k k') k
}.

Lemma k_step_trans {K} `{TaskLaws K} (k1 k2 k3 : K) :
  k_step k1 k2 → k_step k2 k3 → k_step k1 k3.
Proof. intros [? Ha] [? Hb]. split; [done|]. intros to t. etrans; [apply Hb|apply Ha]. Qed.

(** ** A concrete clock *)

(** A scheduler that is only its clock: every look at the clock takes a tick,
    and nothing else is modelled.  It shows that the promises can be kept. *)
Record clock := Clock { ck_now : Z }.

#[export] Instance clock_ops : TaskOps clock := {|
  xTaskRemoveFromEventList l := mret (false, tail l);
  vTaskPlaceOnEventList l _ := mret (l ++ [1]);
  vTaskInternalSetTimeOutState := k ← get; mret (TimeOut 0 (ck_now k));
  xTaskCheckForTimeOut to ticks :=
    modify (λ k, Clock (ck_now k + 1));;
    k ← get;
    if ticks =? portMAX_DELAY then mret (false, (to, ticks))
    else
      let elapsed := ck_now k - xTimeOnEntering to in
      if (0 <? elapsed) && (elapsed <? ticks)
      then mret (false, (TimeOut 0 (ck_now k), ticks - elapsed))
      else mret (true, (to, 0));
  vTaskSuspendAll := mret tt;
  xTaskResumeAll := mret false;
  vTaskMissedYield := mret tt;
  uxTaskGetNumberOfTasks := mret 5;
  scheduler_suspended _ := false;
  event_item_value _ _ := 0;
  portYIELD_WITHIN_API := mret tt;
  xTaskPriorityDisinherit _ := mret false;
  pvTaskIncrementMutexHeldCount := mret (Some 1);
  xTaskPriorityInherit _ := mret false;
  vTaskPriorityDisinheritAfterTimeout _ _ := mret tt
|}.

#[export] Instance clock_laws : TaskLaws clock.
Proof.
  refine {| k_live _ := True;
            k_patience to t k := Z.to_nat (xTimeOnEntering to + t - ck_now k) |}.
  all: intros; unfold xTaskRemoveFromEventList, vTaskPlaceOnEventList,
    vTaskInternalSetTimeOutState, xTaskCheckForTimeOut; simpl; wp_go; simpl; try done.
  - split; [split; [done|]; simpl; lia|]. split; [done|]. intros _ Ht.
    match goal with Hb : (_ =? _) = true |- _ => apply Z.eqb_eq in Hb; lia end.
  - match goal with Hb : _ && _ = true |- _ =>
      apply andb_true_iff in Hb as [?%Z.ltb_lt ?%Z.ltb_lt] end.
    split; [split; [done|]; simpl; lia|]. split; [done|]. intros _ Ht. simpl in *. lia.
  - split; [split; [done|]; simpl; lia|done].
Defined.
