(* ===== verification/KList.v ===== *)
(** The lists of the kernel, [freertos/list.c] and the access macros of
    [freertos/include/list.h]: circular doubly linked lists through a marker
    embedded in the list, with [configUSE_MINI_LIST_ITEM] 1 and without
    integrity checks (config/FreeRTOSConfig.h leaves both at their defaults).

    The memory maps an address to the links of the [ListItem_t] or
    [MiniListItem_t] there, to the other fields of a [ListItem_t], and to the
    fields of a [List_t] before its marker.  Pointers are addresses, NULL is 0. *)
From stdpp Require Import base tactics numbers list gmap sorting.
From S2P Require Import Prelude Words Sched.

(** ** Data *)

(** [MiniListItem_t], also the front part of a [ListItem_t]. *)
Record link := Link { xItemValue : Z; pxNext : Z; pxPrevious : Z }.
Record item := Item { pvOwner : Z; pxContainer : Z }.
Record List_t := List { uxNumberOfItems : Z; pxIndex : Z }.

Record lmem := Lmem { links : gmap Z link; items : gmap Z item; lists : gmap Z List_t }.

(** [&( pxList->xListEnd )], after two words. *)
Definition xListEnd (pxList : Z) : Z := pxList + 8.

Definition rd_link (p : Z) : M lmem link := m ← gets links; of_option (m !! p).
Definition rd_item (p : Z) : M lmem item := m ← gets items; of_option (m !! p).
Definition rd_list (p : Z) : M lmem List_t := m ← gets lists; of_option (m !! p).
Definition wr_link (p : Z) (f : link → link) : M lmem unit :=
  l ← rd_link p; modify (λ σ, Lmem (<[p := f l]> (links σ)) (items σ) (lists σ)).
Definition wr_item (p : Z) (f : item → item) : M lmem unit :=
  i ← rd_item p; modify (λ σ, Lmem (links σ) (<[p := f i]> (items σ)) (lists σ)).
Definition wr_list (p : Z) (f : List_t → List_t) : M lmem unit :=
  l ← rd_list p; modify (λ σ, Lmem (links σ) (items σ) (<[p := f l]> (lists σ))).

Definition set_value v (l : link) : link := Link v (pxNext l) (pxPrevious l).
Definition set_next p (l : link) : link := Link (xItemValue l) p (pxPrevious l).
Definition set_previous p (l : link) : link := Link (xItemValue l) (pxNext l) p.
Definition set_owner o (i : item) : item := Item o (pxContainer i).
Definition set_container c (i : item) : item := Item (pvOwner i) c.
Definition set_index p (l : List_t) : List_t := List (uxNumberOfItems l) p.
Definition set_count n (l : List_t) : List_t := List n (pxIndex l).

(** ** Operations *)

Definition vListInitialise (pxList : Z) : M lmem unit :=
  wr_list pxList (set_index (xListEnd pxList));;
  wr_link (xListEnd pxList) (set_value portMAX_DELAY);;
  wr_link (xListEnd pxList) (set_next (xListEnd pxList));;
  wr_link (xListEnd pxList) (set_previous (xListEnd pxList));;
  wr_list pxList (set_count 0).

Definition vListInitialiseItem (pxItem : Z) : M lmem unit := wr_item pxItem (set_container NULL).

Definition vListInsertEnd (pxList pxNewListItem : Z) : M lmem unit :=
  pxIndex ← pxIndex <$> rd_list pxList;
  wr_link pxNewListItem (set_next pxIndex);;
  prev ← pxPrevious <$> rd_link pxIndex;
  wr_link pxNewListItem (set_previous prev);;
  prev ← pxPrevious <$> rd_link pxIndex;
  wr_link prev (set_next pxNewListItem);;
  wr_link pxIndex (set_previous pxNewListItem);;
  wr_item pxNewListItem (set_container pxList);;
  n ← uxNumberOfItems <$> rd_list pxList;
  wr_list pxList (set_count (u32 (n + 1))).

(** [for( pxIterator = ...; pxIterator->pxNext->xItemValue <= xValueOfInsertion;
    pxIterator = pxIterator->pxNext )] *)
Fixpoint find_insertion (fuel : nat) (v pxIterator : Z) : M lmem Z :=
  match fuel with
  | O => fail OutOfFuel
  | S fuel =>
      next ← pxNext <$> rd_link pxIterator;
      w ← xItemValue <$> rd_link next;
      if w <=? v then find_insertion fuel v next else mret pxIterator
  end.

(** The loop passes every item of memory once at most. *)
Definition vListInsert (pxList pxNewListItem : Z) : M lmem unit :=
  v ← xItemValue <$> rd_link pxNewListItem;
  pxIterator ←
    (if v =? portMAX_DELAY then pxPrevious <$> rd_link (xListEnd pxList)
     else fuel ← gets (λ σ, S (size (links σ))); find_insertion fuel v (xListEnd pxList));
  next ← pxNext <$> rd_link pxIterator;
  wr_link pxNewListItem (set_next next);;
  next ← pxNext <$> rd_link pxNewListItem;
  wr_link next (set_previous pxNewListItem);;
  wr_link pxNewListItem (set_previous pxIterator);;
  wr_link pxIterator (set_next pxNewListItem);;
  wr_item pxNewListItem (set_container pxList);;
  n ← uxNumberOfItems <$> rd_list pxList;
  wr_list pxList (set_count (u32 (n + 1))).

Definition uxListRemove (pxItemToRemove : Z) : M lmem Z :=
  pxList ← pxContainer <$> rd_item pxItemToRemove;
  prev ← pxPrevious <$> rd_link pxItemToRemove;
  next ← pxNext <$> rd_link pxItemToRemove;
  wr_link next (set_previous prev);;
  next ← pxNext <$> rd_link pxItemToRemove;
  prev ← pxPrevious <$> rd_link pxItemToRemove;
  wr_link prev (set_next next);;
  pxIndex ← pxIndex <$> rd_list pxList;
  (if pxIndex =? pxItemToRemove then
     prev ← pxPrevious <$> rd_link pxItemToRemove;
     wr_list pxList (set_index prev)
   else mret tt);;
  wr_item pxItemToRemove (set_container NULL);;
  n ← uxNumberOfItems <$> rd_list pxList;
  wr_list pxList (set_count (u32 (n - 1)));;
  uxNumberOfItems <$> rd_list pxList.

(** ** Macros *)

Definition listSET_LIST_ITEM_OWNER (pxListItem pxOwner : Z) : M lmem unit :=
  wr_item pxListItem (set_owner pxOwner).
Definition listGET_LIST_ITEM_OWNER (pxListItem : Z) : M lmem Z := pvOwner <$> rd_item pxListItem.
Definition listSET_LIST_ITEM_VALUE (pxListItem xValue : Z) : M lmem unit :=
  wr_link pxListItem (set_value xValue).
Definition listGET_LIST_ITEM_VALUE (pxListItem : Z) : M lmem Z :=
  xItemValue <$> rd_link pxListItem.
Definition listGET_HEAD_ENTRY (pxList : Z) : M lmem Z := pxNext <$> rd_link (xListEnd pxList).
Definition listGET_ITEM_VALUE_OF_HEAD_ENTRY (pxList : Z) : M lmem Z :=
  head ← pxNext <$> rd_link (xListEnd pxList); xItemValue <$> rd_link head.
Definition listGET_OWNER_OF_HEAD_ENTRY (pxList : Z) : M lmem Z :=
  head ← pxNext <$> rd_link (xListEnd pxList); pvOwner <$> rd_item head.
Definition listLIST_IS_EMPTY (pxList : Z) : M lmem bool :=
  n ← uxNumberOfItems <$> rd_list pxList; mret (n =? 0).
Definition listCURRENT_LIST_LENGTH (pxList : Z) : M lmem Z := uxNumberOfItems <$> rd_list pxList.
Definition listLIST_ITEM_CONTAINER (pxListItem : Z) : M lmem Z :=
  pxContainer <$> rd_item pxListItem.
Definition listIS_CONTAINED_WITHIN (pxList pxListItem : Z) : M lmem bool :=
  c ← pxContainer <$> rd_item pxListItem; mret (c =? pxList).

Definition listGET_OWNER_OF_NEXT_ENTRY (pxList : Z) : M lmem Z :=
  i ← pxIndex <$> rd_list pxList;
  next ← pxNext <$> rd_link i;
  wr_list pxList (set_index next);;
  i ← pxIndex <$> rd_list pxList;
  (if i =? xListEnd pxList then
     first ← pxNext <$> rd_link (xListEnd pxList);
     wr_list pxList (set_index first)
   else mret tt);;
  i ← pxIndex <$> rd_list pxList;
  pvOwner <$> rd_item i.

(** The memory of an item set to zero by [memset]. *)
Definition zero_item (p : Z) : M lmem unit :=
  modify (λ σ, Lmem (<[p := Link 0 0 0]> (links σ)) (<[p := Item 0 NULL]> (items σ)) (lists σ)).
