(* ===== verification/KListThm.v ===== *)
(** What the kernel lists hold: a list in memory represents a sequence of items
    and a position in it ([is_list]), and each function of [freertos/list.c]
    refines an operation on sequences.  Lists that share a memory never
    interfere, because an item knows the one list it is in. *)
From stdpp Require Import base tactics numbers list gmap sorting.
From S2P Require Import Prelude Words Sched KList.

(** ** Rings of links *)

(** [seg N P a l b]: following the next links [N] leads from [a] through [l] to
    [b], and the previous links [P] lead back. *)
Section ring.
Implicit Types N P : Z → option Z.

Fixpoint seg N P (a : Z) (l : list Z) (b : Z) : Prop :=
  match l with
  | [] => N a = Some b ∧ P b = Some a
  | x :: l => (N a = Some x ∧ P x = Some a) ∧ seg N P x l b
  end.

Lemma seg_app N P a l1 x l2 b :
  seg N P a (l1 ++ x :: l2) b ↔ seg N P a l1 x ∧ seg N P x l2 b.
Proof. revert a. induction l1 as [|y l1 IH]; intros a; simpl; [done|]. rewrite IH. tauto. Qed.

(** A ring may be entered anywhere. *)
Lemma seg_rotate N P x l1 y l2 :
  seg N P x (l1 ++ y :: l2) x ↔ seg N P y (l2 ++ x :: l1) y.
Proof. rewrite !seg_app. tauto. Qed.

Lemma seg_frame N P N' P' a l b :
  (∀ y, y ∈ a :: l → N' y = N y) → (∀ y, y ∈ l ++ [b] → P' y = P y) →
  seg N P a l b → seg N' P' a l b.
Proof.
  revert a. induction l as [|x l IH]; intros a HN HP; simpl.
  - rewrite HN, HP by set_solver. done.
  - rewrite HN, HP by set_solver. intros [? ?]. split; [done|]. apply IH; set_solver.
Qed.

Lemma seg_prev N P a l b : seg N P a l b → P b = Some (default a (last l)).
Proof.
  destruct l as [|x l _] using rev_ind; simpl; [tauto|]. rewrite seg_app, last_snoc. simpl. tauto.
Qed.

Lemma seg_next N P a l b : seg N P a l b → N a = Some (default b (head l)).
Proof. destruct l; simpl; tauto. Qed.

Lemma seg_linked N P a l b y : seg N P a l b → y ∈ a :: l → is_Some (N y).
Proof.
  revert a. induction l as [|x l IH]; intros a; simpl.
  - intros [? ?] ->%list_elem_of_singleton. eauto.
  - intros [[? ?] ?] [->|?]%elem_of_cons; [eauto|]. by apply (IH x).
Qed.

(** Linking [x] in before [b], and out again. *)
Lemma seg_link N P N' P' b l a x :
  seg N P b l b → NoDup (b :: l) → x ∉ b :: l → P b = Some a →
  (∀ q, N' q = if decide (q = x) then Some b else if decide (q = a) then Some x else N q) →
  (∀ q, P' q = if decide (q = b) then Some x else if decide (q = x) then Some a else P q) →
  seg N' P' b (l ++ [x]) b.
Proof.
  intros Hs Hnd Hx Ha HN HP. pose proof (seg_prev _ _ _ _ _ Hs) as Ha'.
  rewrite Ha in Ha'. injection Ha' as ->. apply seg_app. simpl.
  assert (x ≠ b) by set_solver.
  split; [|rewrite HN, HP, !decide_True by done; done].
  destruct l as [|y l _] using rev_ind; simpl.
  { rewrite HN, HP. by repeat case_decide. }
  rewrite last_snoc in *. simpl in *. apply seg_app in Hs as [Hs _].
  apply NoDup_cons in Hnd as [Hb [_ [Hy _]]%NoDup_app]. apply seg_app. simpl. split.
  - eapply seg_frame; [..|exact Hs]; intros q Hq; [rewrite HN|rewrite HP];
      repeat case_decide; set_solver.
  - rewrite HN, HP. repeat case_decide; set_solver.
Qed.

Lemma seg_unlink N P N' P' b l a x :
  seg N P b (l ++ [x]) b → NoDup (b :: l ++ [x]) → P x = Some a →
  (∀ q, q ≠ x → N' q = if decide (q = a) then Some b else N q) →
  (∀ q, q ≠ x → P' q = if decide (q = b) then Some a else P q) →
  seg N' P' b l b.
Proof.
  intros [Hs _]%seg_app Hnd Ha HN HP. pose proof (seg_prev _ _ _ _ _ Hs) as Ha'.
  rewrite Ha in Ha'. injection Ha' as ->.
  apply NoDup_cons in Hnd as [Hb [Hl [Hx _]]%NoDup_app].
  destruct l as [|y l _] using rev_ind; simpl.
  { rewrite HN, HP by set_solver. by repeat case_decide. }
  rewrite last_snoc in *. simpl in *. apply seg_app in Hs as [Hs _].
  apply NoDup_app in Hl as (_ & Hy & _). apply seg_app. simpl. split.
  - eapply seg_frame; [..|exact Hs]; intros q Hq; [rewrite HN|rewrite HP];
      repeat case_decide; set_solver.
  - rewrite HN, HP by set_solver. repeat case_decide; set_solver.
Qed.

(** The ring entered at the node after [l1], so that the node before it comes
    last. *)
Lemma ring_at e l1 l2 :
  let b := default e (head l2) in
  ∃ r, b :: r ≡ₚ e :: l1 ++ l2 ∧
    (∀ N P, seg N P b r b ↔ seg N P e (l1 ++ l2) e) ∧
    ∀ N P x, seg N P b (r ++ [x]) b ↔ seg N P e (l1 ++ x :: l2) e.
Proof.
  destruct l2 as [|b l2]; simpl.
  - exists l1. by rewrite app_nil_r.
  - exists (l2 ++ e :: l1). split; [|split].
    + rewrite <-!Permutation_middle. rewrite (Permutation_app_comm l2 l1). constructor.
    + intros N P. symmetry. apply seg_rotate.
    + intros N P x. rewrite (cons_middle x l1 (b :: l2)), (app_assoc l1), (seg_rotate N P e).
      by rewrite <-app_assoc.
Qed.
End ring.

(** ** Memory *)

Definition nxt (σ : lmem) (p : Z) : option Z := pxNext <$> links σ !! p.
Definition prv (σ : lmem) (p : Z) : option Z := pxPrevious <$> links σ !! p.
Definition val (σ : lmem) (p : Z) : option Z := xItemValue <$> links σ !! p.
Definition cont (σ : lmem) (p : Z) : option Z := pxContainer <$> items σ !! p.
Definition own (σ : lmem) (p : Z) : option Z := pvOwner <$> items σ !! p.

Definition on_link p f (σ : lmem) : lmem := Lmem (alter f p (links σ)) (items σ) (lists σ).
Definition on_item p f (σ : lmem) : lmem := Lmem (links σ) (alter f p (items σ)) (lists σ).
Definition on_list p f (σ : lmem) : lmem := Lmem (links σ) (items σ) (alter f p (lists σ)).

Lemma insert_alter {A} (m : gmap Z A) p a (f : A → A) : m !! p = Some a → <[p:=f a]> m = alter f p m.
Proof.
  intros Hp. apply map_eq. intros q. destruct (decide (p = q)) as [->|].
  - by rewrite lookup_insert_eq, lookup_alter_eq, Hp.
  - by rewrite lookup_insert_ne, lookup_alter_ne.
Qed.

Lemma on_list_ext L l f g σ :
  lists σ !! L = Some l → f l = g l → on_list L f σ = on_list L g σ.
Proof. intros Hl E. unfold on_list. f_equal. apply alter_ext. intros ? ?. by simplify_eq. Qed.

Lemma on_list_id L l f σ : lists σ !! L = Some l → f l = l → on_list L f σ = σ.
Proof.
  intros Hl E. unfold on_list. rewrite alter_id; [by destruct σ|]. intros ? ?. by simplify_eq.
Qed.

Section access.
Implicit Types σ : lmem.

(** Reading and writing a field of a record that a map keeps. *)
Lemma wp_field {A B} (m : lmem → gmap Z A) (f : A → B) p x (Q : B → lmem → Prop) σ :
  f <$> m σ !! p = Some x → Q x σ → wp (f <$> (m ← gets m; of_option (m !! p))) Q σ.
Proof. intros (a & Ha & ->)%fmap_Some HQ. wp_go. by eapply wp_of_option. Qed.

Lemma field_same {A B} (f : A → A) (g : A → B) (m : gmap Z A) p q :
  (∀ a, g (f a) = g a) → g <$> alter f p m !! q = g <$> m !! q.
Proof.
  intros Hg. destruct (decide (p = q)) as [->|]; [|by rewrite lookup_alter_ne].
  rewrite lookup_alter_eq. destruct (m !! q); simpl; [by rewrite Hg|done].
Qed.

Lemma field_set {A B} (f : A → A) (g : A → B) (m : gmap Z A) p q x :
  (∀ a, g (f a) = x) →
  g <$> alter f p m !! q = if decide (q = p) then (λ _, x) <$> (g <$> m !! q) else g <$> m !! q.
Proof.
  intros Hg. case_decide as Hq; [subst|by rewrite lookup_alter_ne].
  rewrite lookup_alter_eq. destruct (m !! p); simpl; [by rewrite Hg|done].
Qed.

Lemma wp_next p x (Q : Z → lmem → Prop) σ :
  nxt σ p = Some x → Q x σ → wp (pxNext <$> rd_link p) Q σ.
Proof. apply (wp_field links). Qed.
Lemma wp_previous p x (Q : Z → lmem → Prop) σ :
  prv σ p = Some x → Q x σ → wp (pxPrevious <$> rd_link p) Q σ.
Proof. apply (wp_field links). Qed.
Lemma wp_value p x (Q : Z → lmem → Prop) σ :
  val σ p = Some x → Q x σ → wp (xItemValue <$> rd_link p) Q σ.
Proof. apply (wp_field links). Qed.
Lemma wp_container p x (Q : Z → lmem → Prop) σ :
  cont σ p = Some x → Q x σ → wp (pxContainer <$> rd_item p) Q σ.
Proof. apply (wp_field items). Qed.
Lemma wp_owner p x (Q : Z → lmem → Prop) σ :
  own σ p = Some x → Q x σ → wp (pvOwner <$> rd_item p) Q σ.
Proof. apply (wp_field items). Qed.
Lemma wp_list {A} (f : List_t → A) p l (Q : A → lmem → Prop) σ :
  lists σ !! p = Some l → Q (f l) σ → wp (f <$> rd_list p) Q σ.
Proof. intros Hl. apply (wp_field lists). by rewrite Hl. Qed.

Lemma wp_wr_link p f (Q : unit → lmem → Prop) σ :
  is_Some (nxt σ p) → Q tt (on_link p f σ) → wp (wr_link p f) Q σ.
Proof.
  unfold nxt. intros [x (l & Hl & _)%fmap_Some] HQ. unfold wr_link, rd_link. wp_go. simpl.
  eapply wp_of_option; [done|]. wp_go. by rewrite (insert_alter _ _ _ _ Hl).
Qed.

Lemma wp_wr_item p f (Q : unit → lmem → Prop) σ :
  is_Some (cont σ p) → Q tt (on_item p f σ) → wp (wr_item p f) Q σ.
Proof.
  unfold cont. intros [x (l & Hl & _)%fmap_Some] HQ. unfold wr_item, rd_item. wp_go. simpl.
  eapply wp_of_option; [done|]. wp_go. by rewrite (insert_alter _ _ _ _ Hl).
Qed.

Lemma wp_wr_list p f l (Q : unit → lmem → Prop) σ :
  lists σ !! p = Some l → Q tt (on_list p f σ) → wp (wr_list p f) Q σ.
Proof.
  intros Hl HQ. unfold wr_list, rd_list. wp_go. simpl.
  eapply wp_of_option; [done|]. wp_go. by rewrite (insert_alter _ _ _ _ Hl).
Qed.

(** How writes show in later reads. *)
Lemma nxt_next p x σ q :
  nxt (on_link p (set_next x) σ) q = if decide (q = p) then (λ _, x) <$> nxt σ q else nxt σ q.
Proof. by apply field_set. Qed.
Lemma prv_previous p x σ q :
  prv (on_link p (set_previous x) σ) q = if decide (q = p) then (λ _, x) <$> prv σ q else prv σ q.
Proof. by apply field_set. Qed.
Lemma val_value p x σ q :
  val (on_link p (set_value x) σ) q = if decide (q = p) then (λ _, x) <$> val σ q else val σ q.
Proof. by apply field_set. Qed.
Lemma cont_container p x σ q :
  cont (on_item p (set_container x) σ) q =
    if decide (q = p) then (λ _, x) <$> cont σ q else cont σ q.
Proof. by apply field_set. Qed.
Lemma prv_next p x σ q : prv (on_link p (set_next x) σ) q = prv σ q.
Proof. by apply field_same. Qed.
Lemma val_next p x σ q : val (on_link p (set_next x) σ) q = val σ q.
Proof. by apply field_same. Qed.
Lemma nxt_previous p x σ q : nxt (on_link p (set_previous x) σ) q = nxt σ q.
Proof. by apply field_same. Qed.
Lemma val_previous p x σ q : val (on_link p (set_previous x) σ) q = val σ q.
Proof. by apply field_same. Qed.
Lemma nxt_value p x σ q : nxt (on_link p (set_value x) σ) q = nxt σ q.
Proof. by apply field_same. Qed.
Lemma prv_value p x σ q : prv (on_link p (set_value x) σ) q = prv σ q.
Proof. by apply field_same. Qed.
Lemma own_container p x σ q : own (on_item p (set_container x) σ) q = own σ q.
Proof. by apply field_same. Qed.

(** Links are there for all of [nxt], [prv] and [val], or for none. *)
Lemma linked_prv σ p : is_Some (nxt σ p) ↔ is_Some (prv σ p).
Proof. unfold nxt, prv. by rewrite !fmap_is_Some. Qed.
Lemma linked_val σ p : is_Some (nxt σ p) ↔ is_Some (val σ p).
Proof. unfold nxt, val. by rewrite !fmap_is_Some. Qed.
End access.

Create HintDb klist discriminated.
#[export] Hint Rewrite nxt_next prv_next val_next nxt_previous prv_previous val_previous
  nxt_value prv_value val_value cont_container own_container : klist.

(** ** Sequences *)

(** [x] before [i], or at the end when [i] is not there. *)
Fixpoint put_before (i x : Z) (l : list Z) : list Z :=
  match l with
  | [] => [x]
  | y :: l => if y =? i then x :: y :: l else y :: put_before i x l
  end.

(** [x], of value [v], after all that are not greater. *)
Fixpoint put_sorted (value : Z → Z) (v x : Z) (l : list Z) : list Z :=
  match l with
  | [] => [x]
  | y :: l => if value y <=? v then y :: put_sorted value v x l else x :: y :: l
  end.

Definition take_out (x : Z) (l : list Z) : list Z := filter (λ y, y ≠ x) l.

Fixpoint after (i : Z) (l : list Z) : list Z :=
  match l with
  | [] => []
  | y :: l => if y =? i then l else after i l
  end.

Fixpoint up_to (i : Z) (l : list Z) : list Z :=
  match l with
  | [] => []
  | y :: l => if y =? i then [y] else y :: up_to i l
  end.

(** The items in the order in which [listGET_OWNER_OF_NEXT_ENTRY] will return
    to them, from position [i]. *)
Definition upcoming (i : Z) (l : list Z) : list Z := after i l ++ up_to i l.

(** ** Representation *)

Record klist := KL { k_items : list Z; k_index : Z }.

(** A value of [TickType_t]. *)
Definition tick_value (v : Z) : Prop := 0 ≤ v ≤ portMAX_DELAY.

(** The marker and the items of a list. *)
Definition nodes (L : Z) (k : klist) : list Z := xListEnd L :: k_items k.

(** An item in no list. *)
Definition unlisted (σ : lmem) (x : Z) : Prop :=
  cont σ x = Some NULL ∧ ∃ v, val σ x = Some v ∧ tick_value v.

Record is_list (σ : lmem) (L : Z) (k : klist) : Prop := {
  il_null : L ≠ NULL;
  il_head : lists σ !! L = Some (List (Z.of_nat (length (k_items k))) (k_index k));
  il_len : Z.of_nat (length (k_items k)) < 4294967296;
  il_ring : seg (nxt σ) (prv σ) (xListEnd L) (k_items k) (xListEnd L);
  il_nodup : NoDup (k_items k);
  il_index : k_index k ∈ nodes L k;
  il_marker : val σ (xListEnd L) = Some portMAX_DELAY ∧ cont σ (xListEnd L) = None;
  il_items : ∀ x, x ∈ k_items k →
    cont σ x = Some L ∧ ∃ v, val σ x = Some v ∧ tick_value v
}.

Section is_list.
Implicit Types σ : lmem.

Lemma node_home σ L k p :
  is_list σ L k → p ∈ nodes L k → p = xListEnd L ∧ cont σ p = None ∨ cont σ p = Some L.
Proof.
  intros H [->|Hp]%elem_of_cons; [left; by destruct (il_marker _ _ _ H)|right].
  by apply (il_items _ _ _ H).
Qed.

Lemma nodes_apart σ L k L' k' p :
  is_list σ L k → is_list σ L' k' → L ≠ L' → p ∈ nodes L k → p ∉ nodes L' k'.
Proof.
  intros H H' Hne Hp Hp'.
  destruct (node_home _ _ _ _ H Hp) as [[-> E]|E], (node_home _ _ _ _ H' Hp') as [[E2 E']|E'];
    rewrite E in E'; try done; unfold xListEnd in *; [lia|congruence].
Qed.

Lemma unlisted_apart σ L k x : is_list σ L k → unlisted σ x → x ∉ nodes L k.
Proof.
  intros H [Hx _] Hp. pose proof (il_null _ _ _ H).
  destruct (node_home _ _ _ _ H Hp) as [[_ E]|E]; congruence.
Qed.

Lemma nodes_nodup σ L k : is_list σ L k → NoDup (nodes L k).
Proof.
  intros H. apply NoDup_cons. split; [|apply (il_nodup _ _ _ H)].
  intros [E _]%(il_items _ _ _ H). destruct (il_marker _ _ _ H). congruence.
Qed.

Lemma node_linked σ L k p : is_list σ L k → p ∈ nodes L k → is_Some (nxt σ p).
Proof. intros H Hp. by eapply seg_linked; [apply (il_ring _ _ _ H)|]. Qed.

Lemma unlisted_linked σ x : unlisted σ x → is_Some (nxt σ x).
Proof. intros (_ & v & Hv & _). apply linked_val. eauto. Qed.
End is_list.

(** ** Linking an item in *)

(** [σ'] is [σ] with [x] linked in between [a] and [b] of the list [L]. *)
Record joined (σ σ' : lmem) (L x a b : Z) : Prop := {
  jo_next q : nxt σ' q = if decide (q = x) then Some b else if decide (q = a) then Some x else nxt σ q;
  jo_prev q : prv σ' q = if decide (q = b) then Some x else if decide (q = x) then Some a else prv σ q;
  jo_val q : val σ' q = val σ q;
  jo_own q : own σ' q = own σ q;
  jo_cont q : cont σ' q = if decide (q = x) then Some L else cont σ q;
  jo_lists : lists σ' = alter (λ l, set_count (u32 (uxNumberOfItems l + 1)) l) L (lists σ)
}.

Section joined.
Implicit Types σ : lmem.

Lemma joined_list σ σ' L k x a l1 l2 :
  is_list σ L k → unlisted σ x → Z.of_nat (length (k_items k)) + 1 < 4294967296 →
  k_items k = l1 ++ l2 → prv σ (default (xListEnd L) (head l2)) = Some a →
  joined σ σ' L x a (default (xListEnd L) (head l2)) →
  is_list σ' L (KL (l1 ++ x :: l2) (k_index k)).
Proof.
  intros H Hu Hlen Hl Ha J. pose proof (unlisted_apart _ _ _ _ H Hu) as Hx.
  pose proof Hu as (Hc & v & Hv & Hr).
  assert (Hperm : l1 ++ x :: l2 ≡ₚ x :: k_items k) by (by rewrite Hl, Permutation_middle).
  assert (Hcx : ∀ q, q ∈ nodes L k → cont σ' q = cont σ q).
  { intros q Hq. rewrite (jo_cont _ _ _ _ _ _ J). case_decide; [by subst|done]. }
  split; simpl.
  - apply (il_null _ _ _ H).
  - rewrite (jo_lists _ _ _ _ _ _ J), lookup_alter_eq, (il_head _ _ _ H). simpl.
    rewrite Hperm. simpl. unfold set_count, u32. simpl. rewrite Z.mod_small by lia.
    do 2 f_equal. lia.
  - rewrite Hperm. simpl. lia.
  - destruct (ring_at (xListEnd L) l1 l2) as (r & Hp & Hs & <-). rewrite <-Hl in Hp, Hs.
    eapply seg_link; [by apply Hs, il_ring|rewrite Hp; by eapply nodes_nodup|by rewrite Hp|exact Ha|..].
    + apply (jo_next _ _ _ _ _ _ J).
    + apply (jo_prev _ _ _ _ _ _ J).
  - rewrite Hperm. apply NoDup_cons. split; [set_solver|apply (il_nodup _ _ _ H)].
  - unfold nodes. simpl. rewrite Hperm. pose proof (il_index _ _ _ H). set_solver.
  - rewrite (jo_val _ _ _ _ _ _ J), Hcx by set_solver. apply (il_marker _ _ _ H).
  - intros q. rewrite Hperm, (jo_val _ _ _ _ _ _ J), (jo_cont _ _ _ _ _ _ J).
    intros [->|Hq]%elem_of_cons; [rewrite decide_True by done; eauto|].
    rewrite decide_False by set_solver. by apply (il_items _ _ _ H).
Qed.

(** A change that keeps away from a list keeps the list. *)
Lemma is_list_frame σ σ' L k :
  is_list σ L k → lists σ' !! L = lists σ !! L →
  (∀ q, q ∈ nodes L k → nxt σ' q = nxt σ q ∧ prv σ' q = prv σ q ∧ val σ' q = val σ q ∧
     cont σ' q = cont σ q) → is_list σ' L k.
Proof.
  intros H HL Hq. split; try apply H.
  - rewrite HL. apply H.
  - eapply seg_frame; [..|apply (il_ring _ _ _ H)]; intros q ?; apply Hq; unfold nodes; set_solver.
  - destruct (Hq (xListEnd L)) as (_ & _ & -> & ->); [set_solver|]. apply H.
  - intros x Hx. destruct (Hq x) as (_ & _ & -> & ->); [by right|]. by apply (il_items _ _ _ H).
Qed.

Lemma joined_other σ σ' L k x a b L' k' :
  is_list σ L k → unlisted σ x → a ∈ nodes L k → b ∈ nodes L k → joined σ σ' L x a b →
  L' ≠ L → is_list σ L' k' → is_list σ' L' k'.
Proof.
  intros H Hu Ha Hb J Hne H'. apply (is_list_frame σ); [done|..].
  - by rewrite (jo_lists _ _ _ _ _ _ J), lookup_alter_ne.
  - intros q Hq. pose proof (unlisted_apart _ _ _ _ H' Hu).
    pose proof (nodes_apart σ L k L' k' a H H' ltac:(done) Ha).
    pose proof (nodes_apart σ L k L' k' b H H' ltac:(done) Hb).
    rewrite (jo_next _ _ _ _ _ _ J), (jo_prev _ _ _ _ _ _ J), (jo_val _ _ _ _ _ _ J),
      (jo_cont _ _ _ _ _ _ J). repeat case_decide; by subst.
Qed.

Lemma joined_unlisted σ σ' L x a b y :
  joined σ σ' L x a b → y ≠ x → unlisted σ y → unlisted σ' y.
Proof.
  intros J Hne (? & v & ? & ?). split; [|exists v; by rewrite (jo_val _ _ _ _ _ _ J)].
  by rewrite (jo_cont _ _ _ _ _ _ J), decide_False.
Qed.
End joined.

(** ** Insertion *)

Lemma put_before_split i x l :
  ∃ l1 l2, l = l1 ++ l2 ∧ put_before i x l = l1 ++ x :: l2 ∧
    (i ∈ l → head l2 = Some i) ∧ (i ∉ l → l2 = []).
Proof.
  induction l as [|y l (l1 & l2 & -> & E & H1 & H2)]; simpl.
  - exists [], []. set_solver.
  - case_match eqn:Hy; [apply Z.eqb_eq in Hy as ->|apply Z.eqb_neq in Hy].
    + exists [], (i :: l1 ++ l2). set_solver.
    + exists (y :: l1), l2. simpl. rewrite E. set_solver.
Qed.

(** Reads look through the writes to other maps and fields. *)
Ltac see_through :=
  repeat first
    [ progress autorewrite with klist
    | progress change (nxt (on_item ?p ?f ?s)) with (nxt s)
    | progress change (prv (on_item ?p ?f ?s)) with (prv s)
    | progress change (val (on_item ?p ?f ?s)) with (val s)
    | progress change (nxt (on_list ?p ?f ?s)) with (nxt s)
    | progress change (prv (on_list ?p ?f ?s)) with (prv s)
    | progress change (val (on_list ?p ?f ?s)) with (val s)
    | progress change (cont (on_list ?p ?f ?s)) with (cont s)
    | progress change (own (on_list ?p ?f ?s)) with (own s)
    | progress change (cont (on_link ?p ?f ?s)) with (cont s)
    | progress change (own (on_link ?p ?f ?s)) with (own s) ].
Ltac links :=
  see_through; repeat case_decide; try (exfalso; congruence); subst; simpl; try done; eauto;
  repeat match goal with E : _ = Some _ |- _ => rewrite E end; try done; eauto.

(** One access; reads of fields written before are looked up in the writes. *)
Ltac list_step :=
  cbv beta;
  lazymatch goal with
  | |- wp (mbind _ _) _ _ => apply wp_bind
  | |- wp (pxNext <$> rd_link _) _ _ => eapply wp_next; [by links|]
  | |- wp (pxPrevious <$> rd_link _) _ _ => eapply wp_previous; [by links|]
  | |- wp (xItemValue <$> rd_link _) _ _ => eapply wp_value; [by links|]
  | |- wp (wr_link _ _) _ _ => apply wp_wr_link; [by links|]
  | |- wp (wr_item _ _) _ _ => apply wp_wr_item; [by links|]
  | |- wp (_ <$> rd_list _) _ _ => eapply wp_list; [eassumption|]
  | |- wp (wr_list _ _) _ _ => eapply wp_wr_list; [eassumption|]
  end.

(** The neighbours of a place in the ring. *)
Lemma neighbours σ L k l1 l2 :
  is_list σ L k → k_items k = l1 ++ l2 →
  let a := default (xListEnd L) (last l1) in let b := default (xListEnd L) (head l2) in
  prv σ b = Some a ∧ nxt σ a = Some b ∧ a ∈ nodes L k ∧ b ∈ nodes L k.
Proof.
  intros Hk Hl. pose proof (il_ring _ _ _ Hk) as Hr. unfold nodes. rewrite Hl in *. simpl.
  assert (default (xListEnd L) (last l1) ∈ xListEnd L :: l1 ++ l2).
  { destruct (last l1) as [y|] eqn:E; simpl; [|set_solver].
    apply last_Some in E as [l ->]. set_solver. }
  destruct l2 as [|b l2]; simpl.
  - rewrite app_nil_r in Hr. split; [by apply seg_prev in Hr|]. split; [|set_solver].
    destruct l1 as [|y l1 _] using rev_ind; simpl in *; [tauto|]. rewrite last_snoc. simpl.
    apply seg_app in Hr. simpl in Hr. tauto.
  - apply seg_app in Hr as [Hr _]. split; [by apply seg_prev in Hr|]. split; [|set_solver].
    destruct l1 as [|y l1 _] using rev_ind; simpl in *; [tauto|]. rewrite last_snoc. simpl.
    apply seg_app in Hr. simpl in Hr. tauto.
Qed.

Section insert.
Context (σ : lmem) (L x : Z) (k : klist).
Context (Hk : is_list σ L k) (Hu : unlisted σ x).

Lemma fresh p : p ∈ nodes L k → p ≠ x.
Proof. intros Hp ->. by eapply unlisted_apart. Qed.

Lemma item_linked p : p ∈ x :: nodes L k → is_Some (nxt σ p).
Proof.
  intros [->|Hp]%elem_of_cons; [by apply unlisted_linked|by eapply node_linked].
Qed.

Lemma vListInsertEnd_joins a :
  prv σ (k_index k) = Some a → a ∈ nodes L k →
  wp (vListInsertEnd L x) (λ _ σ', joined σ σ' L x a (k_index k)) σ.
Proof.
  intros Ha Hna. pose proof (il_index _ _ _ Hk) as Hi. set (b := k_index k) in *.
  pose proof (fresh _ Hna). pose proof (fresh _ Hi). pose proof (proj1 Hu) as Hc.
  destruct (item_linked x ltac:(set_solver)) as [nx Hnx].
  destruct (item_linked a ltac:(set_solver)) as [na Hna'].
  destruct (item_linked b ltac:(set_solver)) as [nb Hnb].
  destruct (proj1 (linked_prv _ _) (item_linked x ltac:(set_solver))) as [px Hpx].
  pose proof (il_head _ _ _ Hk) as Hh. fold b in Hh.
  unfold vListInsertEnd. repeat list_step. cbv beta.
  split; intros; cbn [pxIndex uxNumberOfItems]; links.
  apply alter_ext. intros l Hl. by simplify_eq.
Qed.

(** ** Insertion in order *)

Definition vof (y : Z) : Z := default 0 (val σ y).

Lemma put_sorted_split v l :
  ∃ l1 l2, l = l1 ++ l2 ∧ put_sorted vof v x l = l1 ++ x :: l2 ∧
    Forall (λ y, vof y ≤ v) l1 ∧ (∀ y, head l2 = Some y → v < vof y).
Proof.
  induction l as [|y l (l1 & l2 & -> & E & H1 & H2)]; simpl; [by exists [], []|].
  case_match eqn:Hy; [apply Z.leb_le in Hy|apply Z.leb_gt in Hy].
  - exists (y :: l1), l2. simpl. rewrite E. split_and!; auto.
  - exists [], (y :: l1 ++ l2). split_and!; try done. intros ? [= <-]. done.
Qed.

Lemma find_insertion_last fuel v p l1 l2 :
  v < portMAX_DELAY → (length l1 < fuel)%nat →
  seg (nxt σ) (prv σ) p (l1 ++ l2) (xListEnd L) →
  (∀ y, y ∈ l1 ++ l2 → is_Some (val σ y)) →
  Forall (λ y, vof y ≤ v) l1 → (∀ y, head l2 = Some y → v < vof y) →
  wp (find_insertion fuel v p) (λ r σ', σ' = σ ∧ r = default p (last l1)) σ.
Proof.
  intros Hv. revert fuel p. induction l1 as [|y l1 IH]; intros fuel p Hf Hs Hval H1 H2.
  - destruct fuel as [|fuel]; simpl in Hf; [lia|]. cbn [find_insertion].
    apply wp_bind. eapply wp_next; [by eapply seg_next|]. apply wp_bind.
    destruct l2 as [|y l2]; simpl.
    + eapply wp_value; [apply (il_marker _ _ _ Hk)|]. rewrite (proj2 (Z.leb_gt _ _)) by done.
      by apply wp_ret.
    + destruct (Hval y) as [w Hw]; [set_solver|]. eapply wp_value; [done|].
      specialize (H2 y eq_refl). unfold vof in H2. rewrite Hw in H2. simpl in H2.
      rewrite (proj2 (Z.leb_gt _ _)) by done. by apply wp_ret.
  - destruct fuel as [|fuel]; simpl in Hf; [lia|]. cbn [find_insertion].
    apply wp_bind. eapply wp_next; [by eapply seg_next|]. simpl.
    destruct (Hval y) as [w Hw]; [set_solver|]. apply wp_bind. eapply wp_value; [done|].
    apply Forall_cons in H1 as [Hy H1]. unfold vof in Hy. rewrite Hw in Hy. simpl in Hy.
    rewrite (proj2 (Z.leb_le _ _)) by done. destruct Hs as [_ Hs].
    eapply wp_mono; [apply IH; try done; [lia|set_solver]|]. intros r σ' [-> ->].
    split; [done|]. rewrite last_cons. by destruct (last l1).
Qed.

Lemma nodes_size : (length (nodes L k) ≤ size (links σ))%nat.
Proof.
  rewrite <-size_dom, <-(size_list_to_set (C := gset Z) (nodes L k)) by by eapply nodes_nodup.
  apply subseteq_size. intros p Hp%elem_of_list_to_set. apply elem_of_dom.
  pose proof (node_linked _ _ _ _ Hk Hp) as Hn. unfold nxt in Hn. by apply fmap_is_Some in Hn.
Qed.

Lemma vListInsert_joins v :
  val σ x = Some v →
  ∃ l1 l2, k_items k = l1 ++ l2 ∧ put_sorted vof v x (k_items k) = l1 ++ x :: l2 ∧
  wp (vListInsert L x) (λ _ σ', joined σ σ' L x (default (xListEnd L) (last l1))
                                  (default (xListEnd L) (head l2))) σ.
Proof.
  intros Hv. destruct (put_sorted_split v (k_items k)) as (l1 & l2 & Hl & E & H1 & H2).
  exists l1, l2. split; [done|]. split; [done|].
  destruct (neighbours _ _ _ l1 l2 Hk Hl) as (Ha & Hb & Hna & Hnb).
  set (a := default (xListEnd L) (last l1)) in *. set (b := default (xListEnd L) (head l2)) in *.
  pose proof (fresh _ Hna). pose proof (fresh _ Hnb). pose proof (proj1 Hu) as Hc.
  destruct (item_linked x ltac:(set_solver)) as [nx Hnx].
  destruct (proj1 (linked_prv _ _) (item_linked x ltac:(set_solver))) as [px Hpx].
  destruct (item_linked b ltac:(set_solver)) as [nb Hnb'].
  pose proof (il_head _ _ _ Hk) as Hh.
  unfold vListInsert. do 2 list_step. apply wp_bind.
  eapply (wp_mono _ (λ r σ', σ' = σ ∧ r = a)).
  { destruct (Z.eqb_spec v portMAX_DELAY) as [->|Hne].
    - eapply wp_previous; [|done]. destruct l2 as [|y l2]; [done|].
      destruct (il_items _ _ _ Hk y) as (_ & w & Hw & Hr); [rewrite Hl; set_solver|].
      specialize (H2 y eq_refl). unfold vof in H2. rewrite Hw in H2. unfold tick_value in Hr.
      simpl in H2. lia.
    - wp_go. assert (tick_value v) as Hr by (destruct Hu as (_ & w & ? & ?); by simplify_eq).
      unfold tick_value in Hr. eapply find_insertion_last with (l2 := l2); [lia|..|done|done].
      + pose proof nodes_size as Hs. unfold nodes in Hs. rewrite Hl in Hs. simpl in Hs.
        rewrite length_app in Hs. lia.
      + rewrite <-Hl. apply (il_ring _ _ _ Hk).
      + rewrite <-Hl. intros y Hy. destruct (il_items _ _ _ Hk y Hy) as (_ & w & -> & _). eauto. }
  intros r σ' [-> ->]. repeat list_step. cbv beta.
  split; intros; cbn [pxIndex uxNumberOfItems]; links.
  apply alter_ext. intros l Hl'. by simplify_eq.
Qed.
End insert.

(** ** Removal *)

(** [σ'] is [σ] with [x] taken out between [a] and [b]. *)
Record unlinked (σ σ' : lmem) (L x a b : Z) : Prop := {
  un_next q : q ≠ x → nxt σ' q = if decide (q = a) then Some b else nxt σ q;
  un_prev q : q ≠ x → prv σ' q = if decide (q = b) then Some a else prv σ q;
  un_val q : val σ' q = val σ q;
  un_own q : own σ' q = own σ q;
  un_cont q : cont σ' q = if decide (q = x) then Some NULL else cont σ q;
  un_lists : lists σ' = alter (λ l, List (u32 (uxNumberOfItems l - 1))
               (if pxIndex l =? x then a else pxIndex l)) L (lists σ)
}.

Lemma take_out_absent x l : x ∉ l → take_out x l = l.
Proof.
  unfold take_out. induction l as [|y l IH]; intros Hx; [done|].
  rewrite filter_cons_True, IH by set_solver. done.
Qed.

Lemma take_out_middle x l1 l2 : NoDup (l1 ++ x :: l2) → take_out x (l1 ++ x :: l2) = l1 ++ l2.
Proof.
  intros (_ & H1 & [H2 _]%NoDup_cons)%NoDup_app. unfold take_out.
  rewrite filter_app, filter_cons_False by auto.
  f_equal; apply take_out_absent; set_solver.
Qed.

Section remove.
Context (σ : lmem) (L x : Z) (k : klist) (l1 l2 : list Z).
Context (Hk : is_list σ L k) (Hl : k_items k = l1 ++ x :: l2).
Let a := default (xListEnd L) (last l1).
Let b := default (xListEnd L) (head l2).

Lemma around :
  prv σ x = Some a ∧ nxt σ a = Some x ∧ nxt σ x = Some b ∧ prv σ b = Some x ∧
  a ∈ nodes L k ∧ b ∈ nodes L k ∧ a ≠ x ∧ b ≠ x.
Proof.
  destruct (neighbours _ _ _ l1 (x :: l2) Hk Hl) as (H1 & H2 & H3 & H4).
  destruct (neighbours _ _ _ (l1 ++ [x]) l2 Hk) as (H5 & H6 & _ & H7); [by rewrite <-app_assoc|].
  rewrite last_snoc in *. pose proof (nodes_nodup _ _ _ Hk) as Hnd. unfold nodes in Hnd.
  rewrite Hl, NoDup_cons, NoDup_app, NoDup_cons in Hnd. destruct Hnd as (He & _ & Hd & Hx & _).
  split_and!; try done; subst a b.
  - destruct (last l1) as [y|] eqn:E; simpl; [|set_solver]. apply last_Some in E as [l ->]. set_solver.
  - destruct l2; simpl; set_solver.
Qed.

Lemma uxListRemove_unlinks :
  wp (uxListRemove x) (λ r σ', r = Z.of_nat (length (k_items k)) - 1 ∧ unlinked σ σ' L x a b) σ.
Proof.
  destruct around as (H1 & H2 & H3 & H4 & H5 & H6 & H7 & H8).
  destruct (il_items _ _ _ Hk x) as [Hc _]; [rewrite Hl; set_solver|].
  pose proof (il_head _ _ _ Hk) as Hh. pose proof (il_len _ _ _ Hk) as Hlen.
  destruct (node_linked _ _ _ _ Hk H6) as [nb Hnb].
  assert (0 < Z.of_nat (length (k_items k))) by (rewrite Hl, length_app; simpl; lia).
  unfold uxListRemove. apply wp_bind. eapply wp_container; [exact Hc|]. cbv beta.
  repeat list_step. cbv beta. cbn [pxIndex].
  set (σ1 := on_link a (set_next b) (on_link b (set_previous a) σ)).
  eapply (wp_mono _ (λ _ σ', σ' = on_list L
    (λ l, set_index (if pxIndex l =? x then a else pxIndex l) l) σ1)).
  { destruct (Z.eqb_spec (k_index k) x) as [Hi|Hi].
    - apply wp_bind. eapply wp_previous; [by subst σ1; links|]. eapply wp_wr_list; [exact Hh|].
      eapply on_list_ext; [exact Hh|]. simpl. by rewrite Hi, Z.eqb_refl.
    - apply wp_ret. symmetry. eapply on_list_id; [exact Hh|]. simpl.
      by rewrite (proj2 (Z.eqb_neq _ _) Hi). }
  intros [] σ' ->.
  assert (Hh' : lists (on_list L (λ l, set_index (if pxIndex l =? x then a else pxIndex l) l) σ1) !! L
    = Some (List (Z.of_nat (length (k_items k))) (if k_index k =? x then a else k_index k))).
  { simpl. by rewrite lookup_alter_eq, Hh. }
  apply wp_bind, wp_wr_item; [subst σ1; links|].
  apply wp_bind. eapply wp_list; [exact Hh'|]. apply wp_bind. eapply wp_wr_list; [exact Hh'|].
  eapply wp_list; [simpl; rewrite lookup_alter_eq; simpl in Hh'; by rewrite Hh'|].
  simpl. split; [unfold u32; rewrite Z.mod_small by lia; lia|].
  split; intros; subst σ1; links.
  rewrite alter_alter_eq. apply alter_ext. intros l E. simpl. by simplify_eq.
Qed.

Lemma unlinked_list σ' :
  unlinked σ σ' L x a b →
  is_list σ' L (KL (l1 ++ l2) (if k_index k =? x then a else k_index k)) ∧ unlisted σ' x.
Proof.
  intros U. destruct around as (H1 & H2 & H3 & H4 & H5 & H6 & H7 & H8).
  pose proof (nodes_nodup _ _ _ Hk) as Hnd. pose proof (il_len _ _ _ Hk) as Hlen.
  assert (Hin : ∀ q, q ∈ xListEnd L :: l1 ++ l2 → q ∈ nodes L k ∧ q ≠ x).
  { intros q Hq. unfold nodes in *. rewrite Hl in *. split; [set_solver|]. intros ->.
    rewrite NoDup_cons, NoDup_app, NoDup_cons in Hnd. set_solver. }
  assert (Hperm : k_items k ≡ₚ x :: l1 ++ l2) by (by rewrite Hl, Permutation_middle).
  assert (Hcx : ∀ q, q ∈ xListEnd L :: l1 ++ l2 → cont σ' q = cont σ q).
  { intros q [Hq Hqx]%Hin. rewrite (un_cont _ _ _ _ _ _ U). by rewrite decide_False. }
  destruct (il_items _ _ _ Hk x) as (_ & v & Hv & Hr); [rewrite Hl; set_solver|].
  split; [|split; [by rewrite (un_cont _ _ _ _ _ _ U), decide_True|];
           exists v; by rewrite (un_val _ _ _ _ _ _ U)].
  rewrite Hperm in Hlen. simpl in Hlen. split; simpl.
  - apply (il_null _ _ _ Hk).
  - rewrite (un_lists _ _ _ _ _ _ U), lookup_alter_eq, (il_head _ _ _ Hk). simpl.
    do 2 f_equal. rewrite Hperm. simpl. unfold u32. rewrite Z.mod_small; lia.
  - lia.
  - destruct (ring_at (xListEnd L) l1 l2) as (r & Hp & <- & Hs).
    eapply (seg_unlink (nxt σ) (prv σ) _ _ _ _ a x);
      [rewrite Hs, <-Hl; apply (il_ring _ _ _ Hk)| |exact H1|apply (un_next _ _ _ _ _ _ U)
      |apply (un_prev _ _ _ _ _ _ U)].
    rewrite app_comm_cons, Hp, Permutation_app_comm. simpl. unfold nodes in Hnd.
    by rewrite Hperm, Permutation_swap in Hnd.
  - pose proof (il_nodup _ _ _ Hk) as Hd. rewrite Hperm in Hd. by apply NoDup_cons in Hd as [_ Hd].
  - unfold nodes. simpl. case_match eqn:Hi; [|apply Z.eqb_neq in Hi].
    + unfold nodes in H5. rewrite Hl in H5. set_solver.
    + pose proof (il_index _ _ _ Hk) as Hx. unfold nodes in Hx. rewrite Hl in Hx. set_solver.
  - rewrite (un_val _ _ _ _ _ _ U), Hcx by set_solver. apply (il_marker _ _ _ Hk).
  - intros q Hq. rewrite (un_val _ _ _ _ _ _ U), Hcx by set_solver.
    apply (il_items _ _ _ Hk). rewrite Hl. set_solver.
Qed.
End remove.
