(* ===== verification/KListRefine.v ===== *)
(** The kernel lists of a memory as a whole refine a table of sequences: every
    sequence of legal calls returns what the table says, whatever the number of
    lists and however items move between them; and the position of a list
    visits its items in turn. *)
From stdpp Require Import base tactics numbers list gmap sorting.
From S2P Require Import Prelude Words Sched KList KListThm.

(** ** The abstract table *)

Record kitem := KI { ki_value : Z; ki_owner : Z; ki_home : Z }.
Record ktable := KT { kt_lists : gmap Z klist; kt_items : gmap Z kitem }.

Definition set_home h (i : kitem) : kitem := KI (ki_value i) (ki_owner i) h.
Definition set_kowner o (i : kitem) : kitem := KI (ki_value i) o (ki_home i).
Definition set_kvalue v (i : kitem) : kitem := KI v (ki_owner i) (ki_home i).

(** The node before [x], from the marker [p] on. *)
Fixpoint prev_of (p x : Z) (l : list Z) : Z :=
  match l with
  | [] => p
  | y :: l => if y =? x then p else prev_of y x l
  end.

Definition value_in (T : ktable) (x : Z) : Z := default 0 (ki_value <$> kt_items T !! x).

Inductive lcall :=
  | CInsertEnd (L x : Z)
  | CInsert (L x : Z)
  | CRemove (x : Z)
  | CNext (L : Z)
  | CSetValue (x v : Z)
  | CGetValue (x : Z)
  | CLength (L : Z)
  | CContained (L x : Z)
  | CHeadOwner (L : Z)
  | CHeadValue (L : Z)
  | COwner (x : Z)
  | CContainer (x : Z)
  | CSetOwner (x o : Z)
  | CInitItem (x : Z)
  | CZero (x : Z).

(** The code of a call, its result as a number. *)
Definition lcode (c : lcall) : M lmem Z :=
  match c with
  | CInsertEnd L x => vListInsertEnd L x;; mret 0
  | CInsert L x => vListInsert L x;; mret 0
  | CRemove x => uxListRemove x
  | CNext L => listGET_OWNER_OF_NEXT_ENTRY L
  | CSetValue x v => listSET_LIST_ITEM_VALUE x v;; mret 0
  | CGetValue x => listGET_LIST_ITEM_VALUE x
  | CLength L => listCURRENT_LIST_LENGTH L
  | CContained L x => b ← listIS_CONTAINED_WITHIN L x; mret (if b : bool then 1 else 0)
  | CHeadOwner L => listGET_OWNER_OF_HEAD_ENTRY L
  | CHeadValue L => listGET_ITEM_VALUE_OF_HEAD_ENTRY L
  | COwner x => listGET_LIST_ITEM_OWNER x
  | CContainer x => listLIST_ITEM_CONTAINER x
  | CSetOwner x o => listSET_LIST_ITEM_OWNER x o;; mret 0
  | CInitItem x => vListInitialiseItem x;; mret 0
  | CZero x => zero_item x;; mret 0
  end.

Definition insert_item (f : klist → list Z) (L x : Z) (T : ktable) : ktable :=
  KT (alter (λ k, KL (f k) (k_index k)) L (kt_lists T)) (alter (set_home L) x (kt_items T)).

(** What it does to the table. *)
Definition lspec (c : lcall) (T : ktable) : Z * ktable :=
  match c with
  | CInsertEnd L x => (0, insert_item (λ k, put_before (k_index k) x (k_items k)) L x T)
  | CInsert L x =>
      (0, insert_item (λ k, put_sorted (value_in T) (value_in T x) x (k_items k)) L x T)
  | CRemove x =>
      let L := default NULL (ki_home <$> kt_items T !! x) in
      let out k := KL (take_out x (k_items k))
                     (if k_index k =? x then prev_of (xListEnd L) x (k_items k) else k_index k) in
      (default 0 ((λ k, Z.of_nat (length (k_items k)) - 1) <$> kt_lists T !! L),
       KT (alter out L (kt_lists T)) (alter (set_home NULL) x (kt_items T)))
  | CNext L =>
      let j := default NULL (k ← kt_lists T !! L; head (upcoming (k_index k) (k_items k))) in
      (default 0 (ki_owner <$> kt_items T !! j),
       KT (alter (λ k, KL (k_items k) j) L (kt_lists T)) (kt_items T))
  | CSetValue x v => (0, KT (kt_lists T) (alter (set_kvalue v) x (kt_items T)))
  | CGetValue x => (value_in T x, T)
  | CLength L => (default 0 ((λ k, Z.of_nat (length (k_items k))) <$> kt_lists T !! L), T)
  | CContained L x =>
      (if default NULL (ki_home <$> kt_items T !! x) =? L then 1 else 0, T)
  | CHeadOwner L =>
      let j := default NULL (k ← kt_lists T !! L; head (k_items k)) in
      (default 0 (ki_owner <$> kt_items T !! j), T)
  | CHeadValue L =>
      (match k ← kt_lists T !! L; head (k_items k) with
       | Some j => value_in T j
       | None => portMAX_DELAY
       end, T)
  | COwner x => (default 0 (ki_owner <$> kt_items T !! x), T)
  | CContainer x => (default NULL (ki_home <$> kt_items T !! x), T)
  | CSetOwner x o => (0, KT (kt_lists T) (alter (set_kowner o) x (kt_items T)))
  | CInitItem x => (0, T)
  | CZero x => (0, KT (kt_lists T) (<[x := KI 0 0 NULL]> (kt_items T)))
  end.

(** When a call is legal: lists exist and have room, an item inserted is in no
    list and one removed is in one, there is a next item to ask for, and memory
    set to zero holds no marker and no item of a list. *)
Definition legal (c : lcall) (T : ktable) : Prop :=
  match c with
  | CInsertEnd L x | CInsert L x =>
      (∃ k, kt_lists T !! L = Some k ∧ Z.of_nat (length (k_items k)) + 1 < 4294967296) ∧
      ki_home <$> kt_items T !! x = Some NULL
  | CRemove x => ∃ L, ki_home <$> kt_items T !! x = Some L ∧ is_Some (kt_lists T !! L)
  | CNext L | CHeadOwner L => ∃ k, kt_lists T !! L = Some k ∧ k_items k ≠ []
  | CSetValue x v => is_Some (kt_items T !! x) ∧ tick_value v
  | CGetValue x | CContained _ x | COwner x | CContainer x | CSetOwner x _ =>
      is_Some (kt_items T !! x)
  | CInitItem x => ki_home <$> kt_items T !! x = Some NULL
  | CZero x =>
      kt_items T !! x = None ∧ kt_lists T !! (x - 8) = None ∨
      ki_home <$> kt_items T !! x = Some NULL
  | CLength L | CHeadValue L => is_Some (kt_lists T !! L)
  end.

(** ** The memory and the table *)

Record represents (σ : lmem) (T : ktable) : Prop := {
  rp_lists L k : kt_lists T !! L = Some k → is_list σ L k;
  rp_items x i : kt_items T !! x = Some i →
    val σ x = Some (ki_value i) ∧ tick_value (ki_value i) ∧ own σ x = Some (ki_owner i) ∧
    cont σ x = Some (ki_home i);
  rp_home x i L k : kt_items T !! x = Some i → kt_lists T !! L = Some k →
    (ki_home i = L ↔ x ∈ k_items k);
  rp_known L k x : kt_lists T !! L = Some k → x ∈ k_items k → is_Some (kt_items T !! x)
}.

Section refinement.
Implicit Types (σ : lmem) (T : ktable).

Lemma represents_unlisted σ T x :
  represents σ T → ki_home <$> kt_items T !! x = Some NULL → unlisted σ x.
Proof.
  intros R (i & Hi & Hh)%fmap_Some. destruct (rp_items _ _ R x i Hi) as (Hv & Hr & _ & Hc).
  split; [by rewrite Hc, Hh|]. eauto.
Qed.

Lemma joined_item σ σ' T L x a b y i :
  represents σ T → joined σ σ' L x a b → alter (set_home L) x (kt_items T) !! y = Some i →
  val σ' y = Some (ki_value i) ∧ tick_value (ki_value i) ∧ own σ' y = Some (ki_owner i) ∧
  cont σ' y = Some (ki_home i).
Proof.
  intros R J. rewrite (jo_val _ _ _ _ _ _ J), (jo_own _ _ _ _ _ _ J), (jo_cont _ _ _ _ _ _ J).
  intros [[-> (i' & Hi & ->)]|[Hne Hi]]%lookup_alter_Some.
  - rewrite decide_True by done. destruct (rp_items _ _ R y i' Hi) as (? & ? & ? & _). done.
  - rewrite decide_False by done. by apply (rp_items _ _ R).
Qed.

Lemma insert_represents σ σ' T L x k f l1 l2 :
  represents σ T → kt_lists T !! L = Some k →
  Z.of_nat (length (k_items k)) + 1 < 4294967296 →
  ki_home <$> kt_items T !! x = Some NULL →
  k_items k = l1 ++ l2 → f k = l1 ++ x :: l2 →
  joined σ σ' L x (default (xListEnd L) (last l1)) (default (xListEnd L) (head l2)) →
  represents σ' (insert_item f L x T).
Proof.
  intros R HL Hlen Hx Hl Hf J. pose proof (rp_lists _ _ R L k HL) as Hk.
  pose proof (represents_unlisted σ T x R Hx) as Hu.
  destruct (neighbours σ L k l1 l2 Hk Hl) as (Ha & _ & Hna & Hnb).
  assert (Hmem : ∀ y, y ∈ f k ↔ y = x ∨ y ∈ k_items k) by (intros y; rewrite Hf, Hl; set_solver).
  apply fmap_Some in Hx as (ix & Hix & Hhx).
  split; unfold insert_item; simpl.
  - intros L' k' [[-> (k0 & HL' & ->)]|[Hne HL']]%lookup_alter_Some.
    + simplify_eq. rewrite Hf. by eapply joined_list.
    + eapply (joined_other _ _ _ _ _ _ _ _ _ Hk Hu Hna Hnb J); [congruence|]. by apply (rp_lists _ _ R).
  - intros y i. by eapply joined_item.
  - intros y i L' k' [[-> (i' & Hi & ->)]|[Hne Hi]]%lookup_alter_Some
      [[-> (k0 & HL' & ->)]|[HneL HL']]%lookup_alter_Some; simplify_eq; simpl.
    + rewrite Hmem. tauto.
    + split; [congruence|]. intros Hy. apply (rp_home _ _ R _ _ _ _ Hix HL') in Hy.
      pose proof (il_null _ _ _ (rp_lists _ _ R L' k' HL')). congruence.
    + rewrite Hmem, (rp_home _ _ R _ _ _ _ Hi HL). naive_solver.
    + by apply (rp_home _ _ R).
  - intros L' k' y HL' Hy. rewrite lookup_alter.
    assert (is_Some (kt_items T !! y)) as [i Hi].
    { apply lookup_alter_Some in HL' as [[-> (k0 & HL' & ->)]|[Hne HL']]; simplify_eq; simpl in *.
      - apply Hmem in Hy as [->|Hy]; [eauto|by eapply (rp_known _ _ R)].
      - by eapply (rp_known _ _ R). }
    case_decide; subst; rewrite Hi; simpl; eauto.
Qed.

Lemma insert_end_refines σ T L x k :
  represents σ T → kt_lists T !! L = Some k →
  Z.of_nat (length (k_items k)) + 1 < 4294967296 →
  ki_home <$> kt_items T !! x = Some NULL →
  wp (vListInsertEnd L x)
    (λ _ σ', represents σ' (insert_item (λ k, put_before (k_index k) x (k_items k)) L x T)) σ.
Proof.
  intros R HL Hlen Hx. pose proof (rp_lists _ _ R L k HL) as Hk.
  pose proof (represents_unlisted σ T x R Hx) as Hu.
  destruct (put_before_split (k_index k) x (k_items k)) as (l1 & l2 & Hl & E & H1 & H2).
  assert (Hb : k_index k = default (xListEnd L) (head l2)).
  { pose proof (il_index _ _ _ Hk) as [Hi|Hi]%elem_of_cons; [|by rewrite H1].
    rewrite H2; [done|]. rewrite Hi. pose proof (nodes_nodup _ _ _ Hk) as Hnd.
    by apply NoDup_cons in Hnd as [? _]. }
  destruct (neighbours σ L k l1 l2 Hk Hl) as (Ha & _ & Hna & Hnb). rewrite <-Hb in Ha, Hnb.
  eapply wp_mono; [by apply (vListInsertEnd_joins σ L x k Hk Hu _ Ha Hna)|].
  intros ? σ' J. rewrite Hb in J. by eapply insert_represents.
Qed.

Lemma vof_value σ T x v : represents σ T → kt_items T !! x = Some v → vof σ x = value_in T x.
Proof.
  intros R Hx. unfold vof, value_in. rewrite Hx. by destruct (rp_items _ _ R x v Hx) as (-> & _).
Qed.

Lemma put_sorted_ext f g v x l :
  (∀ y, y ∈ l → f y = g y) → put_sorted f v x l = put_sorted g v x l.
Proof.
  induction l as [|y l IH]; intros E; simpl; [done|].
  rewrite (E y), IH by set_solver. done.
Qed.

Lemma insert_refines σ T L x k :
  represents σ T → kt_lists T !! L = Some k →
  Z.of_nat (length (k_items k)) + 1 < 4294967296 →
  ki_home <$> kt_items T !! x = Some NULL →
  wp (vListInsert L x) (λ _ σ', represents σ'
    (insert_item (λ k, put_sorted (value_in T) (value_in T x) x (k_items k)) L x T)) σ.
Proof.
  intros R HL Hlen Hx. pose proof (rp_lists _ _ R L k HL) as Hk.
  pose proof (represents_unlisted σ T x R Hx) as Hu.
  pose proof Hx as (ix & Hix & _)%fmap_Some.
  destruct (vListInsert_joins σ L x k Hk Hu (value_in T x)) as (l1 & l2 & Hl & E & Hw).
  { unfold value_in. rewrite Hix. by apply (rp_items _ _ R x ix Hix). }
  eapply wp_mono; [exact Hw|]. intros ? σ' J. eapply insert_represents; try done.
  rewrite <-E. apply put_sorted_ext. intros y Hy.
  destruct (rp_known _ _ R L k y HL Hy) as [i Hi]. symmetry. by eapply vof_value.
Qed.

(** ** Removal *)

Lemma prev_of_middle p x l1 l2 : x ∉ l1 → prev_of p x (l1 ++ x :: l2) = default p (last l1).
Proof.
  revert p. induction l1 as [|y l1 IH]; intros p Hx; simpl; [by rewrite Z.eqb_refl|].
  rewrite (proj2 (Z.eqb_neq _ _)) by set_solver. rewrite IH by set_solver.
  rewrite last_cons. by destruct (last l1).
Qed.

Lemma remove_refines σ T x L :
  represents σ T → ki_home <$> kt_items T !! x = Some L → is_Some (kt_lists T !! L) →
  wp (uxListRemove x) (λ r σ', (lspec (CRemove x) T).1 = r ∧
    represents σ' (lspec (CRemove x) T).2) σ.
Proof.
  intros R Hx [k HL]. pose proof (rp_lists _ _ R L k HL) as Hk. simpl. rewrite Hx. simpl. rewrite HL. simpl.
  apply fmap_Some in Hx as (ix & Hix & Hhx).
  pose proof (proj1 (rp_home _ _ R x ix L k Hix HL) (eq_sym Hhx)) as Hin.
  apply list_elem_of_split in Hin as (l1 & l2 & Hl).
  pose proof (il_nodup _ _ _ Hk) as Hnd. rewrite Hl in Hnd.
  pose proof (take_out_middle x l1 l2 Hnd) as Eout.
  assert (Hx1 : x ∉ l1) by (apply NoDup_app in Hnd as (_ & Hd & _); set_solver).
  assert (Hx2 : x ∉ l1 ++ l2).
  { rewrite <-Permutation_middle in Hnd. by apply NoDup_cons in Hnd as [? _]. }
  destruct (around σ L x k l1 l2 Hk Hl) as (_ & _ & _ & _ & Hna & Hnb & Hax & Hbx).
  eapply wp_mono; [by apply (uxListRemove_unlinks σ L x k l1 l2 Hk Hl)|].
  intros r σ' [-> U]. split; [done|].
  destruct (unlinked_list σ L x k l1 l2 Hk Hl σ' U) as [Hk' Hu'].
  split; simpl.
  - intros L' k' [[-> (k0 & HL' & ->)]|[Hne HL']]%lookup_alter_Some.
    + simplify_eq. by rewrite Hl, Eout, prev_of_middle.
    + pose proof (rp_lists _ _ R L' k' HL') as Hk2. apply (is_list_frame σ); [done|..].
      * by rewrite (un_lists _ _ _ _ _ _ U), lookup_alter_ne.
      * intros q Hq.
        assert (∀ p, p ∈ nodes L k → q ≠ p) as Hd.
        { intros p Hp ->. by apply (nodes_apart σ L k L' k' p). }
        assert (q ≠ x) by (apply Hd; unfold nodes; rewrite Hl; set_solver).
        rewrite (un_next _ _ _ _ _ _ U), (un_prev _ _ _ _ _ _ U), (un_val _ _ _ _ _ _ U),
          (un_cont _ _ _ _ _ _ U) by done. by rewrite !decide_False by auto.
  - intros y i Hi. rewrite (un_val _ _ _ _ _ _ U), (un_own _ _ _ _ _ _ U), (un_cont _ _ _ _ _ _ U).
    apply lookup_alter_Some in Hi as [[-> (i' & Hi & ->)]|[Hne Hi]].
    + rewrite decide_True by done. destruct (rp_items _ _ R y i' Hi) as (? & ? & ? & _). done.
    + rewrite decide_False by done. by apply (rp_items _ _ R).
  - intros y i L' k' Hi HL'. pose proof (il_null _ _ _ Hk).
    apply lookup_alter_Some in Hi as [[-> (i' & Hi & ->)]|[Hne Hi]];
      apply lookup_alter_Some in HL' as [[-> (k0 & HL' & ->)]|[HneL HL']]; simplify_eq; simpl.
    + rewrite Hl, Eout. naive_solver.
    + pose proof (il_null _ _ _ (rp_lists _ _ R L' k' HL')).
      rewrite <-(rp_home _ _ R _ _ _ _ Hix HL'). naive_solver.
    + rewrite (rp_home _ _ R _ _ _ _ Hi HL), Hl, Eout. set_solver.
    + by apply (rp_home _ _ R).
  - intros L' k' y HL' Hy. rewrite lookup_alter.
    assert (is_Some (kt_items T !! y)) as [i Hi].
    { apply lookup_alter_Some in HL' as [[-> (k0 & HL' & ->)]|[Hne HL']]; simplify_eq; simpl in *.
      - eapply (rp_known _ _ R); [exact HL|]. rewrite Hl, Eout in Hy. rewrite Hl. set_solver.
      - by eapply (rp_known _ _ R). }
    case_decide; subst; rewrite Hi; simpl; eauto.
Qed.

(** ** The next item *)

Lemma upcoming_marker i l : i ∉ l → upcoming i l = l.
Proof.
  unfold upcoming. intros Hi. assert (after i l = [] ∧ up_to i l = l) as [-> ->]; [|done].
  induction l as [|y l IH]; simpl; [done|]. rewrite (proj2 (Z.eqb_neq _ _)) by set_solver.
  destruct IH as [-> ->]; [set_solver|done].
Qed.

Lemma upcoming_middle i l1 l2 : i ∉ l1 → upcoming i (l1 ++ i :: l2) = l2 ++ l1 ++ [i].
Proof.
  unfold upcoming. intros Hi.
  assert (after i (l1 ++ i :: l2) = l2 ∧ up_to i (l1 ++ i :: l2) = l1 ++ [i]) as [-> ->]; [|done].
  induction l1 as [|y l1 IH]; simpl; [by rewrite Z.eqb_refl|].
  rewrite (proj2 (Z.eqb_neq _ _)) by set_solver. destruct IH as [-> ->]; [set_solver|done].
Qed.

(** The position after [i] in the ring, the marker skipped. *)
Lemma next_index σ L k :
  is_list σ L k → k_items k ≠ [] →
  ∃ j, head (upcoming (k_index k) (k_items k)) = Some j ∧ j ∈ k_items k ∧
    (nxt σ (k_index k) = Some j ∨
     nxt σ (k_index k) = Some (xListEnd L) ∧ nxt σ (xListEnd L) = Some j).
Proof.
  intros Hk Hne. pose proof (il_ring _ _ _ Hk) as Hr.
  pose proof (nodes_nodup _ _ _ Hk) as [He Hnd]%NoDup_cons.
  pose proof (il_index _ _ _ Hk) as [Hi|Hi]%elem_of_cons.
  - rewrite Hi, upcoming_marker by done. destruct (k_items k) as [|j l] eqn:E; [done|].
    exists j. split; [done|]. split; [set_solver|]. left. by apply seg_next in Hr.
  - apply list_elem_of_split in Hi as (l1 & l2 & Hl). rewrite Hl in *.
    assert (k_index k ∉ l1) by (apply NoDup_app in Hnd as (_ & ? & _); set_solver).
    rewrite upcoming_middle by done. pose proof (proj1 (seg_app _ _ _ _ _ _ _) Hr) as [_ Hr2].
    apply seg_next in Hr2. apply seg_next in Hr.
    destruct l2 as [|j l2]; simpl in *; [|exists j; set_solver].
    destruct l1 as [|j l1]; simpl in *; [exists (k_index k)|exists j]; set_solver.
Qed.

Lemma index_represents σ T L k j :
  represents σ T → kt_lists T !! L = Some k → j ∈ nodes L k →
  represents (on_list L (set_index j) σ)
    (KT (alter (λ k, KL (k_items k) j) L (kt_lists T)) (kt_items T)).
Proof.
  intros R HL Hj. split; simpl.
  - intros L' k' [[-> (k0 & HL' & ->)]|[Hne HL']]%lookup_alter_Some.
    + simplify_eq. pose proof (rp_lists _ _ R L' k HL) as Hk.
      split; simpl; try apply Hk; [|done]. by rewrite lookup_alter_eq, (il_head _ _ _ Hk).
    + eapply is_list_frame; [by apply (rp_lists _ _ R)|simpl; by rewrite lookup_alter_ne|done].
  - apply (rp_items _ _ R).
  - intros y i L' k' Hi [[-> (k0 & HL' & ->)]|[Hne HL']]%lookup_alter_Some; simpl;
      by apply (rp_home _ _ R).
  - intros L' k' y [[-> (k0 & HL' & ->)]|[Hne HL']]%lookup_alter_Some; simpl;
      by eapply (rp_known _ _ R).
Qed.

Lemma next_refines σ T L k :
  represents σ T → kt_lists T !! L = Some k → k_items k ≠ [] →
  wp (listGET_OWNER_OF_NEXT_ENTRY L) (λ r σ', (lspec (CNext L) T).1 = r ∧
    represents σ' (lspec (CNext L) T).2) σ.
Proof.
  intros R HL Hne. pose proof (rp_lists _ _ R L k HL) as Hk. pose proof (il_head _ _ _ Hk) as Hh.
  destruct (next_index σ L k Hk Hne) as (j & Ej & Hj & Hn).
  simpl. rewrite HL. simpl. rewrite Ej. simpl.
  destruct (rp_known _ _ R L k j HL Hj) as [i Hi]. rewrite Hi. simpl.
  destruct (rp_items _ _ R j i Hi) as (_ & _ & Hown & _).
  assert (Hjn : j ∈ nodes L k) by (unfold nodes; set_solver).
  assert (Hje : j ≠ xListEnd L).
  { intros ->. pose proof (nodes_nodup _ _ _ Hk) as [? _]%NoDup_cons. done. }
  unfold listGET_OWNER_OF_NEXT_ENTRY. apply wp_bind. eapply wp_list; [exact Hh|]. cbn [pxIndex].
  assert (Hend : ∀ σ', σ' = on_list L (set_index j) σ →
    wp (i ← pxIndex <$> rd_list L; pvOwner <$> rd_item i) (λ r σ'', ki_owner i = r ∧
      represents σ'' (KT (alter (λ k, KL (k_items k) j) L (kt_lists T)) (kt_items T))) σ').
  { intros ? ->. apply wp_bind. eapply wp_list; [simpl; by rewrite lookup_alter_eq, Hh|]. simpl.
    eapply wp_owner; [exact Hown|]. split; [done|]. by eapply index_represents. }
  apply wp_bind. destruct Hn as [Hn|[Hn Hn2]].
  - eapply wp_next; [exact Hn|]. apply wp_bind. eapply wp_wr_list; [exact Hh|].
    apply wp_bind. eapply wp_list; [simpl; by rewrite lookup_alter_eq, Hh|]. simpl.
    rewrite (proj2 (Z.eqb_neq _ _) Hje). by apply Hend.
  - eapply wp_next; [exact Hn|]. apply wp_bind. eapply wp_wr_list; [exact Hh|].
    apply wp_bind. eapply wp_list; [simpl; by rewrite lookup_alter_eq, Hh|]. simpl.
    rewrite Z.eqb_refl. apply wp_bind, wp_bind. eapply wp_next; [exact Hn2|].
    eapply wp_wr_list; [simpl; by rewrite lookup_alter_eq, Hh|]. apply Hend.
    unfold on_list. simpl. f_equal. rewrite alter_alter_eq. apply alter_ext. done.
Qed.

(** ** Values *)

Lemma set_value_refines σ T x v :
  represents σ T → is_Some (kt_items T !! x) → tick_value v →
  wp (listSET_LIST_ITEM_VALUE x v)
    (λ _ σ', represents σ' (KT (kt_lists T) (alter (set_kvalue v) x (kt_items T)))) σ.
Proof.
  intros R [i Hi] Hv. destruct (rp_items _ _ R x i Hi) as (Hvx & _ & Hox & Hcx).
  apply wp_wr_link; [apply linked_val; eauto|]. split; simpl.
  - intros L k HL. pose proof (rp_lists _ _ R L k HL) as Hk. split; try apply Hk.
    + eapply seg_frame; [..|apply (il_ring _ _ _ Hk)]; intros; by see_through.
    + destruct (il_marker _ _ _ Hk). see_through. case_decide as E; [|done].
      rewrite <-E in Hcx. congruence.
    + intros y Hy. see_through. destruct (il_items _ _ _ Hk y Hy) as (? & w & Hw & ?). split; [done|].
      case_decide; [|by exists w]. rewrite Hw. by exists v.
  - intros y j Hj. see_through.
    apply lookup_alter_Some in Hj as [[-> (j' & Hj & ->)]|[Hne Hj]];
      destruct (rp_items _ _ R y _ Hj) as (Hvy & ? & Hoy & Hcy).
    + rewrite decide_True by done. rewrite Hvy. done.
    + rewrite decide_False by done. done.
  - intros y j L k [[-> (j' & Hj & ->)]|[Hne Hj]]%lookup_alter_Some HL; simpl; by apply (rp_home _ _ R).
  - intros L k y HL Hy. rewrite lookup_alter.
    destruct (rp_known _ _ R L k y HL Hy) as [j Hj]. case_decide; subst; rewrite Hj; simpl; eauto.
Qed.

(** The owner, and an item as creation leaves it. *)
Lemma set_owner_refines σ T x o :
  represents σ T → is_Some (kt_items T !! x) →
  wp (listSET_LIST_ITEM_OWNER x o)
    (λ _ σ', represents σ' (KT (kt_lists T) (alter (set_kowner o) x (kt_items T)))) σ.
Proof.
  intros R [i Hi]. destruct (rp_items _ _ R x i Hi) as (_ & _ & Hox & Hcx).
  apply wp_wr_item; [eauto|].
  assert (Hc : ∀ q, cont (on_item x (set_owner o) σ) q = cont σ q) by (intros q; by apply field_same).
  split; simpl.
  - intros L k HL. apply (is_list_frame σ); [by apply (rp_lists _ _ R)|done|].
    intros q _. by rewrite Hc.
  - intros y j Hj. rewrite Hc. unfold own. simpl. rewrite (field_set _ _ _ _ _ o) by done.
    change (pvOwner <$> items σ !! y) with (own σ y).
    apply lookup_alter_Some in Hj as [[-> (j' & Hj & ->)]|[Hne Hj]];
      destruct (rp_items _ _ R y _ Hj) as (? & ? & Hoy & ?).
    + rewrite decide_True by done. by rewrite Hoy.
    + by rewrite decide_False.
  - intros y j L k [[-> (j' & Hj & ->)]|[Hne Hj]]%lookup_alter_Some HL; simpl; by apply (rp_home _ _ R).
  - intros L k y HL Hy. rewrite lookup_alter.
    destruct (rp_known _ _ R L k y HL Hy) as [j Hj]. case_decide; subst; rewrite Hj; simpl; eauto.
Qed.

Lemma init_item_refines σ T x :
  represents σ T → ki_home <$> kt_items T !! x = Some NULL →
  wp (vListInitialiseItem x) (λ _ σ', represents σ' T) σ.
Proof.
  intros R (i & Hi & Hh)%fmap_Some. destruct (rp_items _ _ R x i Hi) as (_ & _ & _ & Hcx).
  apply wp_wr_item; [eauto|].
  assert (Hc : ∀ q, cont (on_item x (set_container NULL) σ) q = cont σ q).
  { intros q. see_through. case_decide; [subst; by rewrite Hcx, Hh|done]. }
  split; try apply R.
  - intros L k HL. apply (is_list_frame σ); [by apply (rp_lists _ _ R)|done|].
    intros q _. by rewrite Hc.
  - intros y j Hj. rewrite Hc, own_container. by apply (rp_items _ _ R).
Qed.

Lemma zero_refines σ T x :
  represents σ T → legal (CZero x) T →
  wp (zero_item x)
    (λ _ σ', represents σ' (KT (kt_lists T) (<[x := KI 0 0 NULL]> (kt_items T)))) σ.
Proof.
  intros R Hx. apply wp_modify.
  assert (Hout : ∀ L k, kt_lists T !! L = Some k → x ∉ nodes L k).
  { intros L k HL [Hq|Hq]%elem_of_cons.
    - unfold xListEnd in Hq. destruct Hx as [[_ Hx]|(i & Hi & _)%fmap_Some].
      + replace (x - 8) with L in Hx by lia. congruence.
      + destruct (rp_items _ _ R x i Hi) as (_ & _ & _ & Hc).
        destruct (il_marker _ _ _ (rp_lists _ _ R L k HL)) as [_ Hm]. unfold xListEnd in Hm.
        rewrite <-Hq in Hm. congruence.
    - destruct (rp_known _ _ R L k x HL Hq) as [i Hi].
      apply (rp_home _ _ R _ _ _ _ Hi HL) in Hq. pose proof (il_null _ _ _ (rp_lists _ _ R L k HL)).
      destruct Hx as [[Hx _]|Hx]; [congruence|]. rewrite Hi in Hx. simpl in Hx. congruence. }
  split; simpl.
  - intros L k HL. apply (is_list_frame σ); [by apply (rp_lists _ _ R)|done|].
    intros q Hq. assert (x ≠ q) by (intros ->; by apply (Hout L k)).
    unfold nxt, prv, val, cont. simpl. by rewrite !lookup_insert_ne.
  - intros y i [[<- <-]|[Hne Hi]]%lookup_insert_Some.
    + unfold val, own, cont, tick_value, portMAX_DELAY. simpl. rewrite !lookup_insert_eq. done.
    + unfold val, own, cont. simpl. rewrite !lookup_insert_ne by done. by apply (rp_items _ _ R).
  - intros y i L k [[<- <-]|[Hne Hi]]%lookup_insert_Some HL; [|by apply (rp_home _ _ R)]. simpl.
    pose proof (il_null _ _ _ (rp_lists _ _ R L k HL)). pose proof (Hout L k HL).
    unfold nodes in *. set_solver.
  - intros L k y HL Hy. destruct (decide (x = y)) as [->|]; [rewrite lookup_insert_eq; eauto|].
    rewrite lookup_insert_ne by done. by eapply (rp_known _ _ R).
Qed.

(** The first node of a list. *)
Lemma head_next σ L k :
  is_list σ L k → nxt σ (xListEnd L) = Some (default (xListEnd L) (head (k_items k))).
Proof. intros Hk. eapply seg_next. apply (il_ring _ _ _ Hk). Qed.

Lemma call_refines c σ T :
  represents σ T → legal c T →
  wp (lcode c) (λ r σ', (lspec c T).1 = r ∧ represents σ' (lspec c T).2) σ.
Proof.
  intros R. destruct c as [L x|L x|x|L|x v|x|L|L x|L|L|x|x|x o|x|x]; cbn [legal lcode].
  - intros [(k & HL & Hlen) Hx]. apply wp_bind.
    eapply wp_mono; [by eapply insert_end_refines|]. intros ? σ' ?. by apply wp_ret.
  - intros [(k & HL & Hlen) Hx]. apply wp_bind.
    eapply wp_mono; [by eapply insert_refines|]. intros ? σ' ?. by apply wp_ret.
  - intros (L & Hx & HL). by apply (remove_refines σ T x L).
  - intros (k & HL & Hne). by apply (next_refines σ T L k).
  - intros [Hx Hv]. apply wp_bind.
    eapply wp_mono; [by apply set_value_refines|]. intros ? σ' ?. by apply wp_ret.
  - intros [i Hi]. destruct (rp_items _ _ R x i Hi) as (Hv & _).
    eapply wp_value; [exact Hv|]. simpl. unfold value_in. by rewrite Hi.
  - intros [k HL]. eapply wp_list; [apply (il_head _ _ _ (rp_lists _ _ R L k HL))|].
    simpl. by rewrite HL.
  - intros [i Hi]. destruct (rp_items _ _ R x i Hi) as (_ & _ & _ & Hc). apply wp_bind, wp_bind.
    eapply wp_container; [exact Hc|]. apply wp_ret, wp_ret. simpl. by rewrite Hi.
  - intros (k & HL & Hne). apply wp_bind.
    eapply wp_next; [by eapply head_next, (rp_lists _ _ R)|]. simpl. rewrite HL.
    destruct (k_items k) as [|j l] eqn:E; [done|]. simpl. rewrite E. simpl.
    destruct (rp_known _ _ R L k j HL) as [i Hi]; [rewrite E; set_solver|].
    destruct (rp_items _ _ R j i Hi) as (_ & _ & Ho & _). rewrite Hi. by eapply wp_owner.
  - intros [k HL]. apply wp_bind. pose proof (rp_lists _ _ R L k HL) as Hk.
    eapply wp_next; [by eapply head_next|]. simpl. rewrite HL. simpl.
    destruct (k_items k) as [|j l] eqn:E; simpl.
    + eapply wp_value; [apply (il_marker _ _ _ Hk)|done].
    + destruct (rp_known _ _ R L k j HL) as [i Hi]; [rewrite E; set_solver|].
      destruct (rp_items _ _ R j i Hi) as (Hv & _). unfold value_in. rewrite Hi.
      by eapply wp_value.
  - intros [i Hi]. destruct (rp_items _ _ R x i Hi) as (_ & _ & Ho & _).
    eapply wp_owner; [exact Ho|]. simpl. by rewrite Hi.
  - intros [i Hi]. destruct (rp_items _ _ R x i Hi) as (_ & _ & _ & Hc).
    eapply wp_container; [exact Hc|]. simpl. by rewrite Hi.
  - intros Hx. apply wp_bind.
    eapply wp_mono; [by apply set_owner_refines|]. intros ? σ' ?. by apply wp_ret.
  - intros Hx. apply wp_bind.
    eapply wp_mono; [by eapply init_item_refines|]. intros ? σ' ?. by apply wp_ret.
  - intros Hx. apply wp_bind.
    eapply wp_mono; [by apply zero_refines|]. intros ? σ' ?. by apply wp_ret.
Qed.
End refinement.

(** ** Initialisation *)

(** A fresh list, in memory that holds anything: it joins the table empty. *)
Lemma vListInitialise_refines σ T L :
  represents σ T → kt_lists T !! L = None → L ≠ NULL →
  (∀ L' k, kt_lists T !! L' = Some k → xListEnd L ∉ nodes L' k) →
  (∀ x, is_Some (kt_items T !! x) → ki_home <$> kt_items T !! x ≠ Some L) →
  is_Some (lists σ !! L) → is_Some (nxt σ (xListEnd L)) → cont σ (xListEnd L) = None →
  wp (vListInitialise L)
    (λ _ σ', represents σ' (KT (<[L := KL [] (xListEnd L)]> (kt_lists T)) (kt_items T))) σ.
Proof.
  intros R HL Hnull Hend Hhome [l Hl] Hn Hc. destruct Hn as [n Hn].
  destruct (proj1 (linked_prv _ _) (ex_intro _ n Hn)) as [p Hp].
  destruct (proj1 (linked_val _ _) (ex_intro _ n Hn)) as [v Hv].
  unfold vListInitialise. apply wp_bind. eapply wp_wr_list; [exact Hl|].
  repeat (apply wp_bind; apply wp_wr_link; [links|]).
  eapply wp_wr_list; [simpl; by rewrite lookup_alter_eq, Hl|]. split; simpl.
  - intros L' k [[<- <-]|[Hne HL']]%lookup_insert_Some.
    + split; simpl; try done.
      * by rewrite !lookup_alter_eq, Hl.
      * split; links.
      * apply NoDup_nil_2.
      * unfold nodes. set_solver.
      * split; links.
      * set_solver.
    + pose proof (rp_lists _ _ R L' k HL') as Hk. apply (is_list_frame σ); [done|..].
      * simpl. by rewrite !lookup_alter_ne.
      * intros q Hq. assert (q ≠ xListEnd L) by (intros ->; by apply (Hend L' k)).
        split_and!; see_through; by rewrite ?decide_False.
  - intros x i Hi. destruct (rp_items _ _ R x i Hi) as (? & ? & ? & Hcx).
    assert (x ≠ xListEnd L) by (intros ->; congruence). see_through.
    by rewrite decide_False.
  - intros x i L' k Hi [[<- <-]|[Hne HL']]%lookup_insert_Some; [|by apply (rp_home _ _ R)].
    simpl. split; [|set_solver]. intros E. exfalso. apply (Hhome x); rewrite Hi; simpl; eauto.
    by rewrite E.
  - intros L' k x [[<- <-]|[Hne HL']]%lookup_insert_Some; simpl; [set_solver|].
    by eapply (rp_known _ _ R).
Qed.

(** ** Sequences of calls *)

Fixpoint lrun (cs : list lcall) : M lmem (list Z) :=
  match cs with
  | [] => mret []
  | c :: cs => r ← lcode c; rs ← lrun cs; mret (r :: rs)
  end.

Fixpoint lspecs (cs : list lcall) (T : ktable) : list Z * ktable :=
  match cs with
  | [] => ([], T)
  | c :: cs => let '(r, T) := lspec c T in let '(rs, T) := lspecs cs T in (r :: rs, T)
  end.

Fixpoint all_legal (cs : list lcall) (T : ktable) : Prop :=
  match cs with
  | [] => True
  | c :: cs => legal c T ∧ all_legal cs (lspec c T).2
  end.

Lemma run_refines cs σ T :
  represents σ T → all_legal cs T →
  wp (lrun cs) (λ rs σ', (lspecs cs T).1 = rs ∧ represents σ' (lspecs cs T).2) σ.
Proof.
  revert σ T. induction cs as [|c cs IH]; intros σ T R; [by intros _; apply wp_ret|].
  intros [Hc Hcs]. cbn [lrun lspecs]. apply wp_bind.
  eapply wp_mono; [by apply call_refines|]. intros r σ1 [Hr R1].
  destruct (lspec c T) as [r' T'] eqn:E. simpl in Hr, R1, Hcs. subst r'. apply wp_bind.
  eapply wp_mono; [by apply (IH σ1 T')|]. intros rs σ2 [Hrs R2].
  destruct (lspecs cs T') as [rs' T2]. simpl in *. subst. by apply wp_ret.
Qed.

(** C27: the kernel lists of a memory behave as sequences: every legal sequence
    of insertions, removals, walks and look-ups, over any number of lists that
    share the memory, returns, with the results of the sequences and leaving
    the links of every list in step with them. *)
Theorem klist_refines cs σ T :
  represents σ T → all_legal cs T →
  wp (lrun cs) (λ rs σ', (lspecs cs T).1 = rs ∧ represents σ' (lspecs cs T).2) σ.
Proof. apply run_refines. Qed.

(** ** Walking in turn *)

Lemma upcoming_next e i j l u :
  NoDup (e :: l) → i ∈ e :: l → upcoming i l = j :: u → upcoming j l = u ++ [j].
Proof.
  intros [He Hnd]%NoDup_cons Hi E.
  assert (Hsplit : ∃ l1 l2, l = l1 ++ j :: l2 ∧ u = l2 ++ l1).
  { apply elem_of_cons in Hi as [->|Hi].
    - rewrite upcoming_marker in E by done. exists [], u. by rewrite app_nil_r.
    - apply list_elem_of_split in Hi as (l1 & l2 & ->).
      assert (i ∉ l1) by (apply NoDup_app in Hnd as (_ & ? & _); set_solver).
      rewrite upcoming_middle in E by done. destruct l2 as [|y l2]; simplify_eq/=.
      + destruct l1 as [|y l1]; simplify_eq/=; [by exists [], []|].
        exists [], (l1 ++ [i]). by rewrite app_nil_r.
      + exists (l1 ++ [i]), l2. by rewrite <-!app_assoc. }
  destruct Hsplit as (l1 & l2 & -> & ->). rewrite upcoming_middle, app_assoc; [done|].
  apply NoDup_app in Hnd as (_ & Hd & _). set_solver.
Qed.

Lemma specs_next T L k n u v :
  kt_lists T !! L = Some k → NoDup (xListEnd L :: k_items k) → k_index k ∈ nodes L k →
  upcoming (k_index k) (k_items k) = u ++ v → length u = n →
  lspecs (replicate n (CNext L)) T =
    ((λ x, default 0 (ki_owner <$> kt_items T !! x)) <$> u,
     KT (<[L := KL (k_items k) (default (k_index k) (last u))]> (kt_lists T)) (kt_items T)).
Proof.
  intros HL Hnd Hi. revert T k HL Hnd Hi u v.
  induction n as [|n IH]; intros T k HL Hnd Hi u v E Hlen.
  - destruct u; [|done]. simpl. rewrite insert_id; [by destruct T|]. rewrite HL. by destruct k.
  - destruct u as [|j u]; [done|]. simpl in E, Hlen. injection Hlen as Hlen.
    change (replicate (S n) (CNext L)) with (CNext L :: replicate n (CNext L)). cbn [lspecs lspec].
    rewrite HL. simpl. rewrite E. simpl.
    assert (Hj : j ∈ k_items k).
    { assert (j ∈ upcoming (k_index k) (k_items k)) as Hj by (rewrite E; set_solver).
      unfold nodes in Hi. apply NoDup_cons in Hnd as [He Hnd].
      apply elem_of_cons in Hi as [Hi|Hi]; [by rewrite Hi, upcoming_marker in Hj|].
      apply list_elem_of_split in Hi as (l1 & l2 & Hl). rewrite Hl in Hj, Hnd |- *.
      rewrite upcoming_middle in Hj; [set_solver|]. apply NoDup_app in Hnd as (_ & ? & _). set_solver. }
    pose proof (upcoming_next (xListEnd L) _ j (k_items k) (u ++ v) Hnd Hi E) as E2.
    rewrite (IH (KT (alter (λ k, KL (k_items k) j) L (kt_lists T)) (kt_items T))
      (KL (k_items k) j)) with (u := u) (v := v ++ [j]); simpl.
    + do 2 f_equal. rewrite insert_alter_eq, last_cons. by destruct (last u).
    + by rewrite lookup_alter_eq, HL.
    + done.
    + unfold nodes. simpl. set_solver.
    + by rewrite E2, app_assoc.
    + done.
Qed.

Lemma next_legal T L k n :
  kt_lists T !! L = Some k → k_items k ≠ [] → all_legal (replicate n (CNext L)) T.
Proof.
  revert T k. induction n as [|n IH]; intros T k HL Hne; [done|]. simpl. split; [eauto|].
  eapply IH; [simpl; by rewrite lookup_alter_eq, HL|done].
Qed.

Lemma upcoming_perm e i l : NoDup (e :: l) → i ∈ e :: l → upcoming i l ≡ₚ l.
Proof.
  intros [He Hnd]%NoDup_cons [->|Hi]%elem_of_cons; [by rewrite upcoming_marker|].
  apply list_elem_of_split in Hi as (l1 & l2 & ->). rewrite upcoming_middle.
  - rewrite (Permutation_app_comm l2), <-app_assoc. done.
  - apply NoDup_app in Hnd as (_ & ? & _). set_solver.
Qed.

(** [listGET_OWNER_OF_NEXT_ENTRY] shares its list fairly: called as often as
    the list has items, from whatever position, it returns the owner of each
    item once, those after the position first, and leaves the items as they
    were. *)
Theorem next_entry_fair σ T L k :
  represents σ T → kt_lists T !! L = Some k → k_items k ≠ [] →
  wp (lrun (replicate (length (k_items k)) (CNext L))) (λ rs σ',
    rs = (λ x, default 0 (ki_owner <$> kt_items T !! x)) <$> upcoming (k_index k) (k_items k) ∧
    upcoming (k_index k) (k_items k) ≡ₚ k_items k ∧
    ∃ i, represents σ' (KT (<[L := KL (k_items k) i]> (kt_lists T)) (kt_items T))) σ.
Proof.
  intros R HL Hne. pose proof (rp_lists _ _ R L k HL) as Hk.
  pose proof (nodes_nodup _ _ _ Hk) as Hnd. pose proof (il_index _ _ _ Hk) as Hi.
  pose proof (upcoming_perm _ _ _ Hnd Hi) as Hp.
  eapply wp_mono; [apply run_refines; [exact R|by eapply next_legal]|].
  intros rs σ' [<- R'].
  rewrite (specs_next T L k _ (upcoming (k_index k) (k_items k)) []) in R' |- *; try done.
  - simpl. eauto.
  - by rewrite app_nil_r.
  - by rewrite Hp.
  - by rewrite app_nil_r.
  - by rewrite Hp.
Qed.

(** ** A memory with two lists and three items *)

Definition demo_mem : lmem :=
  Lmem (list_to_map [(108, Link portMAX_DELAY 108 108); (208, Link portMAX_DELAY 208 208);
                     (1000, Link 30 0 0); (1020, Link 10 0 0); (1040, Link 30 0 0)])
       (list_to_map [(1000, Item 1 NULL); (1020, Item 2 NULL); (1040, Item 3 NULL)])
       (list_to_map [(100, List 0 108); (200, List 0 208)]).

Definition demo_table : ktable :=
  KT (list_to_map [(100, KL [] 108); (200, KL [] 208)])
     (list_to_map [(1000, KI 30 1 NULL); (1020, KI 10 2 NULL); (1040, KI 30 3 NULL)]).

Lemma empty_list σ L :
  L ≠ NULL → lists σ !! L = Some (List 0 (xListEnd L)) →
  links σ !! xListEnd L = Some (Link portMAX_DELAY (xListEnd L) (xListEnd L)) →
  items σ !! xListEnd L = None → is_list σ L (KL [] (xListEnd L)).
Proof.
  intros Hn Hl Hk Hi. split; simpl; unfold nxt, prv, val, cont; try rewrite Hk; try rewrite Hi; try done.
  - apply NoDup_nil_2.
  - unfold nodes. set_solver.
  - set_solver.
Qed.

Ltac cases_of_map :=
  repeat match goal with
  | H : <[_ := _]> _ !! _ = Some _ |- _ => apply lookup_insert_Some in H as [[<- <-]|[_ H]]
  | H : ∅ !! _ = Some _ |- _ => by rewrite lookup_empty in H
  end.

Lemma demo_represents : represents demo_mem demo_table.
Proof.
  split; simpl.
  - intros L k HL. cases_of_map; by apply (empty_list demo_mem).
  - intros x i Hi. cases_of_map; unfold tick_value, portMAX_DELAY; simpl; split_and!; (done || lia).
  - intros x i L k Hi HL. cases_of_map; simpl; split; [done|set_solver|done|set_solver|done|set_solver|done|set_solver|done|set_solver|done|set_solver].
  - intros L k x HL. cases_of_map; set_solver.
Qed.

(** Moving items between the two lists. *)
Definition demo_calls : list lcall :=
  [CInsert 100 1000; CInsert 100 1020; CInsert 100 1040; CHeadOwner 100; CRemove 1020;
   CInsertEnd 200 1020; CNext 100; CNext 100; CNext 100; CLength 200; CHeadValue 100].

Lemma demo_legal : all_legal demo_calls demo_table.
Proof.
  unfold demo_calls. cbn [all_legal legal].
  repeat (split;
    [first [ split; [eexists; split; [reflexivity|vm_compute; reflexivity]|reflexivity]
           | eexists; split; [reflexivity|by eexists]
           | eexists; split; [reflexivity|discriminate]
           | eexists; reflexivity ]|]).
  exact I.
Qed.

Lemma klist_refines_witness :
  wp (lrun demo_calls) (λ rs σ', rs = [0; 0; 0; 2; 2; 0; 1; 3; 1; 1; 30] ∧
    represents σ' (lspecs demo_calls demo_table).2) demo_mem.
Proof.
  assert ((lspecs demo_calls demo_table).1 = [0; 0; 0; 2; 2; 0; 1; 3; 1; 1; 30]) as <-
    by (vm_compute; reflexivity).
  eapply wp_mono; [apply (klist_refines demo_calls demo_mem demo_table);
    [exact demo_represents|exact demo_legal]|].
  intros rs σ' [<- H]. split; [reflexivity|exact H].
Defined.

Lemma next_entry_fair_witness :
  ∃ σ T, represents σ T ∧ kt_lists T !! 100 = Some (KL [1000; 1020; 1040] 1020) ∧
  wp (lrun (replicate 3 (CNext 100))) (λ rs σ', rs = [3; 1; 2] ∧
    ∃ i, represents σ' (KT (<[100 := KL [1000; 1020; 1040] i]> (kt_lists T)) (kt_items T))) σ.
Proof.
  set (cs := [CInsertEnd 100 1000; CInsertEnd 100 1020; CInsertEnd 100 1040; CNext 100; CNext 100]).
  destruct (wp_inv _ _ _ (run_refines cs demo_mem demo_table demo_represents ltac:(
    unfold cs; cbn [all_legal legal];
    repeat (split; [first [ split; [eexists; split; [reflexivity|vm_compute; reflexivity]|reflexivity]
                          | eexists; split; [reflexivity|discriminate] ]|]); exact I)))
    as (rs & σ & _ & _ & R).
  exists σ, (lspecs cs demo_table).2. split; [exact R|]. split; [vm_compute; reflexivity|].
  eapply wp_mono; [apply (next_entry_fair σ _ 100 (KL [1000; 1020; 1040] 1020) R);
    [vm_compute; reflexivity|discriminate]|].
  intros rs' σ' (-> & _ & H). split; [vm_compute; reflexivity|exact H].
Defined.
