(* ===== verification/Kernel.v ===== *)
(** The scheduler, [freertos/tasks.c], in the configuration of
    config/FreeRTOSConfig.h: one core, preemption and time slicing, 32-bit
    ticks, the port's bit map of ready priorities (portable/GCC/ARM_CM3/
    portmacro.h), mutexes, task notifications, deletion and suspension, no
    tickless idle, no hooks, no static allocation.

    It is written against [ListOps], what it calls of [freertos/list.c] and
    [freertos/include/list.h], and runs over the list memory of [KList].
    A task is the address of its TCB.  Each function is one step: the parts
    outside its critical sections run with the scheduler suspended or touch
    nothing that others change.  [portYIELD] sets [pendsv], the request that
    the PendSV handler answers with [vTaskSwitchContext]. *)
From stdpp Require Import base tactics numbers list gmap.
From S2P Require Import Prelude Words Sched KList.

(** ** The list operations *)

Class ListOps (S : Type) := {
  list_initialise : Z → M S unit;
  list_insert_end : Z → Z → M S unit;
  list_insert : Z → Z → M S unit;
  list_remove : Z → M S Z;
  list_next_owner : Z → M S Z;
  list_head_owner : Z → M S Z;
  list_head_value : Z → M S Z;
  list_length : Z → M S Z;
  item_value : Z → M S Z;
  item_set_value : Z → Z → M S unit;
  item_owner : Z → M S Z;
  item_container : Z → M S Z;
  item_set_owner : Z → Z → M S unit;
  item_initialise : Z → M S unit;
  (** The memory of an item becomes zero. *)
  item_zero : Z → M S unit
}.

(** ** Data *)

Definition configTASK_NOTIFICATION_ARRAY_ENTRIES : Z := 3.
Definition taskEVENT_LIST_ITEM_VALUE_IN_USE : Z := 0x80000000.

Inductive notify_state := taskNOT_WAITING_NOTIFICATION | taskWAITING_NOTIFICATION | taskNOTIFICATION_RECEIVED.
#[export] Instance notify_state_eq_dec : EqDecision notify_state.
Proof. solve_decision. Defined.

Inductive eTaskState := eRunning | eReady | eBlocked | eSuspended | eDeleted | eInvalid.
#[export] Instance eTaskState_eq_dec : EqDecision eTaskState.
Proof. solve_decision. Defined.

Inductive eNotifyAction := eNoAction | eSetBits | eIncrement | eSetValueWithOverwrite | eSetValueWithoutOverwrite.

(** [TCB_t] without its list items, which are in the list memory, its stack and
    its name. *)
Record tcb := Tcb {
  uxPriority : Z;
  uxBasePriority : Z;
  uxMutexesHeld : Z;
  ulNotifiedValue : list Z;
  ucNotifyState : list notify_state
}.

Definition xStateListItem (pxTCB : Z) : Z := pxTCB + 4.
Definition xEventListItem (pxTCB : Z) : Z := pxTCB + 24.

(** The file-scope variables; booleans are [pdTRUE] and [pdFALSE]. *)
Inductive kvar :=
  | pxCurrentTCB | pxDelayedTaskList | pxOverflowDelayedTaskList | uxCurrentNumberOfTasks
  | xTickCount | uxTopReadyPriority | xSchedulerRunning | xPendedTicks | xYieldPending
  | xNumOfOverflows | uxTaskNumber | xNextTaskUnblockTime | uxSchedulerSuspended
  | uxDeletedTasksWaitingCleanUp | pendsv.

Definition kvar_eqb (x y : kvar) : bool :=
  match x, y with
  | pxCurrentTCB, pxCurrentTCB | pxDelayedTaskList, pxDelayedTaskList
  | pxOverflowDelayedTaskList, pxOverflowDelayedTaskList
  | uxCurrentNumberOfTasks, uxCurrentNumberOfTasks | xTickCount, xTickCount
  | uxTopReadyPriority, uxTopReadyPriority | xSchedulerRunning, xSchedulerRunning
  | xPendedTicks, xPendedTicks | xYieldPending, xYieldPending
  | xNumOfOverflows, xNumOfOverflows | uxTaskNumber, uxTaskNumber
  | xNextTaskUnblockTime, xNextTaskUnblockTime | uxSchedulerSuspended, uxSchedulerSuspended
  | uxDeletedTasksWaitingCleanUp, uxDeletedTasksWaitingCleanUp | pendsv, pendsv => true
  | _, _ => false
  end.

(** The list memory, the TCBs and the variables. *)
Record kernel (S : Type) := Kernel { kmem : S; tcbs : gmap Z tcb; var : kvar → Z }.
Arguments Kernel {_}.
Arguments kmem {_}.
Arguments tcbs {_}.
Arguments var {_}.

Definition set_var {S} (x : kvar) (v : Z) (k : kernel S) : kernel S :=
  Kernel (kmem k) (tcbs k) (λ y, if kvar_eqb x y then v else var k y).

Definition set_uxPriority p (c : tcb) : tcb :=
  Tcb p (uxBasePriority c) (uxMutexesHeld c) (ulNotifiedValue c) (ucNotifyState c).
Definition set_uxBasePriority p (c : tcb) : tcb :=
  Tcb (uxPriority c) p (uxMutexesHeld c) (ulNotifiedValue c) (ucNotifyState c).
Definition set_uxMutexesHeld n (c : tcb) : tcb :=
  Tcb (uxPriority c) (uxBasePriority c) n (ulNotifiedValue c) (ucNotifyState c).
Definition set_ulNotifiedValue l (c : tcb) : tcb :=
  Tcb (uxPriority c) (uxBasePriority c) (uxMutexesHeld c) l (ucNotifyState c).
Definition set_ucNotifyState l (c : tcb) : tcb :=
  Tcb (uxPriority c) (uxBasePriority c) (uxMutexesHeld c) (ulNotifiedValue c) l.

(** A TCB as [memset] leaves it. *)
Definition zero_tcb : tcb :=
  Tcb 0 0 0 (replicate 3 0) (replicate 3 taskNOT_WAITING_NOTIFICATION).

(** The addresses of the file-scope lists. *)
Class KernelLists := {
  pxReadyTasksLists : Z;
  xDelayedTaskList1 : Z;
  xDelayedTaskList2 : Z;
  xPendingReadyList : Z;
  xTasksWaitingTermination : Z;
  xSuspendedTaskList : Z
}.

Section tasks.
Context `{KernelLists} {S : Type} `{ListOps S}.

Definition rd (x : kvar) : M (kernel S) Z := gets (λ k, var k x).
Definition wr (x : kvar) (v : Z) : M (kernel S) unit := modify (set_var x v).
Definition lst {A} (m : M S A) : M (kernel S) A :=
  zoom kmem (λ l k, Kernel l (tcbs k) (var k)) m.
Definition rd_tcb (pxTCB : Z) : M (kernel S) tcb := m ← gets tcbs; of_option (m !! pxTCB).
Definition wr_tcb (pxTCB : Z) (f : tcb → tcb) : M (kernel S) unit :=
  c ← rd_tcb pxTCB; modify (λ k, Kernel (kmem k) (<[pxTCB := f c]> (tcbs k)) (var k)).

(** [&( pxReadyTasksLists[ uxPriority ] )]; [sizeof( List_t )] is 20. *)
Definition ready (uxPriority : Z) : Z := pxReadyTasksLists + 20 * uxPriority.

Definition portYIELD : M (kernel S) unit := wr pendsv 1.

(** More than the number of tasks. *)
Definition task_fuel : M (kernel S) nat := gets (λ k, Datatypes.S (size (tcbs k))).

(** ** Ready priorities *)

Definition taskRECORD_READY_PRIORITY (uxPriority : Z) : M (kernel S) unit :=
  top ← rd uxTopReadyPriority; wr uxTopReadyPriority (Z.lor top (Z.shiftl 1 uxPriority)).

Definition portRESET_READY_PRIORITY (uxPriority : Z) : M (kernel S) unit :=
  top ← rd uxTopReadyPriority;
  wr uxTopReadyPriority (Z.land top (u32 (Z.lnot (Z.shiftl 1 uxPriority)))).

Definition taskRESET_READY_PRIORITY (uxPriority : Z) : M (kernel S) unit :=
  n ← lst (list_length (ready uxPriority));
  when_ (n =? 0) (portRESET_READY_PRIORITY uxPriority).

(** The CLZ instruction. *)
Definition ucPortCountLeadingZeros (ulBitmap : Z) : Z :=
  if ulBitmap =? 0 then 32 else 31 - Z.log2 ulBitmap.

Definition portGET_HIGHEST_PRIORITY (uxReadyPriorities : Z) : Z :=
  u32 (31 - ucPortCountLeadingZeros uxReadyPriorities).

Definition taskSELECT_HIGHEST_PRIORITY_TASK : M (kernel S) unit :=
  uxTopPriority ← portGET_HIGHEST_PRIORITY <$> rd uxTopReadyPriority;
  n ← lst (list_length (ready uxTopPriority));
  assert_that (0 <? n);;
  t ← lst (list_next_owner (ready uxTopPriority));
  wr pxCurrentTCB t.

Definition prvAddTaskToReadyList (pxTCB : Z) : M (kernel S) unit :=
  p ← uxPriority <$> rd_tcb pxTCB;
  taskRECORD_READY_PRIORITY p;;
  p ← uxPriority <$> rd_tcb pxTCB;
  lst (list_insert_end (ready p) (xStateListItem pxTCB)).

Definition taskYIELD_ANY_CORE_IF_USING_PREEMPTION (pxTCB : Z) : M (kernel S) unit :=
  cur ← rd pxCurrentTCB;
  pc ← uxPriority <$> rd_tcb cur;
  p ← uxPriority <$> rd_tcb pxTCB;
  when_ (pc <? p) portYIELD.

Definition prvGetTCBFromHandle (pxHandle : Z) : M (kernel S) Z :=
  if pxHandle =? NULL then rd pxCurrentTCB else mret pxHandle.

(** [listREMOVE_ITEM], which does not return the number of items left. *)
Definition listREMOVE_ITEM (pxItem : Z) : M (kernel S) unit := lst (list_remove pxItem);; mret tt.

(** [if( listLIST_ITEM_CONTAINER( ... ) != NULL ) ( void ) uxListRemove( ... )] *)
Definition leave_event_list (pxTCB : Z) : M (kernel S) unit :=
  c ← lst (item_container (xEventListItem pxTCB));
  when_ (negb (c =? NULL)) (listREMOVE_ITEM (xEventListItem pxTCB)).

(** ** Delayed tasks *)

Definition prvResetNextTaskUnblockTime : M (kernel S) unit :=
  l ← rd pxDelayedTaskList;
  n ← lst (list_length l);
  if n =? 0 then wr xNextTaskUnblockTime portMAX_DELAY
  else
    l ← rd pxDelayedTaskList;
    v ← lst (list_head_value l);
    wr xNextTaskUnblockTime v.

Definition taskSWITCH_DELAYED_LISTS : M (kernel S) unit :=
  l ← rd pxDelayedTaskList;
  n ← lst (list_length l);
  assert_that (n =? 0);;
  pxTemp ← rd pxDelayedTaskList;
  o ← rd pxOverflowDelayedTaskList;
  wr pxDelayedTaskList o;;
  wr pxOverflowDelayedTaskList pxTemp;;
  n ← rd xNumOfOverflows;
  wr xNumOfOverflows (s32 (n + 1));;
  prvResetNextTaskUnblockTime.

Definition prvAddCurrentTaskToDelayedList (xTicksToWait : Z) (xCanBlockIndefinitely : bool)
    : M (kernel S) unit :=
  xConstTickCount ← rd xTickCount;
  pxDelayedList ← rd pxDelayedTaskList;
  pxOverflowDelayedList ← rd pxOverflowDelayedTaskList;
  cur ← rd pxCurrentTCB;
  n ← lst (list_remove (xStateListItem cur));
  when_ (n =? 0) (p ← uxPriority <$> rd_tcb cur; portRESET_READY_PRIORITY p);;
  if (xTicksToWait =? portMAX_DELAY) && xCanBlockIndefinitely then
    lst (list_insert_end xSuspendedTaskList (xStateListItem cur))
  else
    let xTimeToWake := u32 (xConstTickCount + xTicksToWait) in
    lst (item_set_value (xStateListItem cur) xTimeToWake);;
    if xTimeToWake <? xConstTickCount then
      lst (list_insert pxOverflowDelayedList (xStateListItem cur))
    else
      lst (list_insert pxDelayedList (xStateListItem cur));;
      next ← rd xNextTaskUnblockTime;
      when_ (xTimeToWake <? next) (wr xNextTaskUnblockTime xTimeToWake).

(** ** The tick *)

(** The [for( ;; )] of [xTaskIncrementTick]; the result is [xSwitchRequired]. *)
Fixpoint unblock_expired (fuel : nat) (xConstTickCount : Z) (xSwitchRequired : bool)
    : M (kernel S) bool :=
  match fuel with
  | O => fail OutOfFuel
  | Datatypes.S fuel =>
      l ← rd pxDelayedTaskList;
      n ← lst (list_length l);
      if n =? 0 then wr xNextTaskUnblockTime portMAX_DELAY;; mret xSwitchRequired
      else
        l ← rd pxDelayedTaskList;
        pxTCB ← lst (list_head_owner l);
        xItemValue ← lst (item_value (xStateListItem pxTCB));
        if xConstTickCount <? xItemValue then
          wr xNextTaskUnblockTime xItemValue;; mret xSwitchRequired
        else
          listREMOVE_ITEM (xStateListItem pxTCB);;
          leave_event_list pxTCB;;
          prvAddTaskToReadyList pxTCB;;
          p ← uxPriority <$> rd_tcb pxTCB;
          cur ← rd pxCurrentTCB;
          pc ← uxPriority <$> rd_tcb cur;
          unblock_expired fuel xConstTickCount (if pc <? p then true else xSwitchRequired)
  end.

(** [++xTickCount], and the delayed lists switched when it wraps. *)
Definition count_tick : M (kernel S) Z :=
  xConstTickCount ← (λ n, u32 (n + 1)) <$> rd xTickCount;
  wr xTickCount xConstTickCount;;
  when_ (xConstTickCount =? 0) taskSWITCH_DELAYED_LISTS;;
  mret xConstTickCount.

Definition xTaskIncrementTick : M (kernel S) bool :=
  suspended ← rd uxSchedulerSuspended;
  if suspended =? 0 then
    xConstTickCount ← count_tick;
    xSwitchRequired ←
      (next ← rd xNextTaskUnblockTime;
       if next <=? xConstTickCount then
         fuel ← task_fuel; unblock_expired fuel xConstTickCount false
       else mret false);
    cur ← rd pxCurrentTCB;
    p ← uxPriority <$> rd_tcb cur;
    n ← lst (list_length (ready p));
    y ← rd xYieldPending;
    mret (xSwitchRequired || (1 <? n) || negb (y =? 0))
  else
    n ← rd xPendedTicks;
    wr xPendedTicks (u32 (n + 1));;
    mret false.

(** [xPortSysTickHandler] of the port. *)
Definition xPortSysTickHandler : M (kernel S) unit :=
  b ← xTaskIncrementTick; when_ b portYIELD.

Definition vTaskSwitchContext : M (kernel S) unit :=
  suspended ← rd uxSchedulerSuspended;
  if negb (suspended =? 0) then wr xYieldPending 1
  else wr xYieldPending 0;; taskSELECT_HIGHEST_PRIORITY_TASK.
End tasks.
