(* ===== verification/KernelApi.v ===== *)
(** The services of the scheduler, [freertos/tasks.c]. *)
From stdpp Require Import base tactics numbers list gmap.
From S2P Require Import Prelude Words Sched KList Kernel.

(** * Suspension, delays, events, priorities

    The services of the scheduler, [freertos/tasks.c]: suspension of the
    scheduler, delays, event lists and time-outs, priorities and their
    inheritance, task notifications, creation, deletion and suspension of
    tasks, and the start of the scheduler. *)

Section api.
Context `{KernelLists} {S : Type} `{ListOps S}.

(** [++x] and [--x] on an unsigned variable. *)
Definition incr (x : kvar) : M (kernel S) unit := n ← rd x; wr x (u32 (n + 1)).
Definition decr (x : kvar) : M (kernel S) unit := n ← rd x; wr x (u32 (n - 1)).

(** ** Suspending the scheduler *)

Definition vTaskSuspendAll : M (kernel S) unit := incr uxSchedulerSuspended.

(** Whether [pxTCB] has a higher priority than the running task; if so a yield
    becomes pending. *)
Definition yield_if_higher (pxTCB : Z) : M (kernel S) bool :=
  p ← uxPriority <$> rd_tcb pxTCB;
  cur ← rd pxCurrentTCB;
  pc ← uxPriority <$> rd_tcb cur;
  if pc <? p then wr xYieldPending 1;; mret true else mret false.

(** A task from the list it is in to the ready list of its priority. *)
Definition wake_task (pxTCB : Z) : M (kernel S) unit :=
  listREMOVE_ITEM (xStateListItem pxTCB);; prvAddTaskToReadyList pxTCB.

(** [while( listLIST_IS_EMPTY( &xPendingReadyList ) == pdFALSE )]; whether a
    task was moved. *)
Fixpoint move_pending (fuel : nat) (moved : bool) : M (kernel S) bool :=
  match fuel with
  | O => fail OutOfFuel
  | Datatypes.S fuel =>
      n ← lst (list_length xPendingReadyList);
      if n =? 0 then mret moved
      else
        pxTCB ← lst (list_head_owner xPendingReadyList);
        listREMOVE_ITEM (xEventListItem pxTCB);;
        wake_task pxTCB;;
        yield_if_higher pxTCB;;
        move_pending fuel true
  end.

(** [do ... while( xPendedCounts > 0 )] *)
Definition wind_ticks (xPendedCounts : Z) : M (kernel S) unit :=
  repeat_ (Z.to_nat xPendedCounts) (b ← xTaskIncrementTick; when_ b (wr xYieldPending 1)).

Definition xTaskResumeAll : M (kernel S) bool :=
  n ← rd uxSchedulerSuspended;
  assert_that (negb (n =? 0));;
  decr uxSchedulerSuspended;;
  n ← rd uxSchedulerSuspended;
  if n =? 0 then
    tasks ← rd uxCurrentNumberOfTasks;
    if 0 <? tasks then
      fuel ← task_fuel;
      moved ← move_pending fuel false;
      when_ moved prvResetNextTaskUnblockTime;;
      xPendedCounts ← rd xPendedTicks;
      when_ (0 <? xPendedCounts) (wind_ticks xPendedCounts;; wr xPendedTicks 0);;
      y ← rd xYieldPending;
      if negb (y =? 0) then portYIELD;; mret true else mret false
    else mret false
  else mret false.

Definition xTaskGetTickCount : M (kernel S) Z := rd xTickCount.
Definition xTaskGetTickCountFromISR : M (kernel S) Z := rd xTickCount.
Definition uxTaskGetNumberOfTasks : M (kernel S) Z := rd uxCurrentNumberOfTasks.
Definition xTaskGetCurrentTaskHandle : M (kernel S) Z := rd pxCurrentTCB.

Definition taskSCHEDULER_SUSPENDED : Z := 0.
Definition taskSCHEDULER_NOT_STARTED : Z := 1.
Definition taskSCHEDULER_RUNNING : Z := 2.

Definition xTaskGetSchedulerState : M (kernel S) Z :=
  running ← rd xSchedulerRunning;
  if running =? 0 then mret taskSCHEDULER_NOT_STARTED
  else
    n ← rd uxSchedulerSuspended;
    mret (if n =? 0 then taskSCHEDULER_RUNNING else taskSCHEDULER_SUSPENDED).

Definition xTaskCatchUpTicks (xTicksToCatchUp : Z) : M (kernel S) bool :=
  n ← rd uxSchedulerSuspended;
  assert_that (n =? 0);;
  vTaskSuspendAll;;
  t ← rd xPendedTicks;
  wr xPendedTicks (u32 (t + xTicksToCatchUp));;
  xTaskResumeAll.

(** ** Delays *)

Definition vTaskDelay (xTicksToDelay : Z) : M (kernel S) unit :=
  xAlreadyYielded ←
    (if 0 <? xTicksToDelay then
       vTaskSuspendAll;;
       n ← rd uxSchedulerSuspended;
       assert_that (n =? 1);;
       prvAddCurrentTaskToDelayedList xTicksToDelay false;;
       xTaskResumeAll
     else mret false);
  when_ (negb xAlreadyYielded) portYIELD.

(** [xShouldDelay], from the tick count, [*pxPreviousWakeTime] and
    [xTimeToWake]. *)
Definition should_delay (xConstTickCount previous xTimeToWake : Z) : bool :=
  if xConstTickCount <? previous then (xTimeToWake <? previous) && (xConstTickCount <? xTimeToWake)
  else (xTimeToWake <? previous) || (xConstTickCount <? xTimeToWake).

(** The new [*pxPreviousWakeTime] is part of the result. *)
Definition xTaskDelayUntil (previous xTimeIncrement : Z) : M (kernel S) (bool * Z) :=
  assert_that (0 <? xTimeIncrement);;
  vTaskSuspendAll;;
  xConstTickCount ← rd xTickCount;
  n ← rd uxSchedulerSuspended;
  assert_that (n =? 1);;
  let xTimeToWake := u32 (previous + xTimeIncrement) in
  let xShouldDelay := should_delay xConstTickCount previous xTimeToWake in
  when_ xShouldDelay
    (prvAddCurrentTaskToDelayedList (u32 (xTimeToWake - xConstTickCount)) false);;
  xAlreadyYielded ← xTaskResumeAll;
  when_ (negb xAlreadyYielded) portYIELD;;
  mret (xShouldDelay, xTimeToWake).

(** ** Event lists *)

Definition vTaskPlaceOnEventList (pxEventList xTicksToWait : Z) : M (kernel S) unit :=
  assert_that (negb (pxEventList =? NULL));;
  cur ← rd pxCurrentTCB;
  lst (list_insert pxEventList (xEventListItem cur));;
  prvAddCurrentTaskToDelayedList xTicksToWait true.

Definition vTaskPlaceOnUnorderedEventList (pxEventList xItemValue xTicksToWait : Z)
    : M (kernel S) unit :=
  assert_that (negb (pxEventList =? NULL));;
  n ← rd uxSchedulerSuspended;
  assert_that (negb (n =? 0));;
  cur ← rd pxCurrentTCB;
  lst (item_set_value (xEventListItem cur)
         (Z.lor xItemValue taskEVENT_LIST_ITEM_VALUE_IN_USE));;
  lst (list_insert_end pxEventList (xEventListItem cur));;
  prvAddCurrentTaskToDelayedList xTicksToWait true.

Definition vTaskPlaceOnEventListRestricted (pxEventList xTicksToWait : Z)
    (xWaitIndefinitely : bool) : M (kernel S) unit :=
  assert_that (negb (pxEventList =? NULL));;
  cur ← rd pxCurrentTCB;
  lst (list_insert_end pxEventList (xEventListItem cur));;
  prvAddCurrentTaskToDelayedList (if xWaitIndefinitely then portMAX_DELAY else xTicksToWait)
    xWaitIndefinitely.

Definition xTaskRemoveFromEventList (pxEventList : Z) : M (kernel S) bool :=
  pxUnblockedTCB ← lst (list_head_owner pxEventList);
  assert_that (negb (pxUnblockedTCB =? NULL));;
  listREMOVE_ITEM (xEventListItem pxUnblockedTCB);;
  n ← rd uxSchedulerSuspended;
  (if n =? 0 then wake_task pxUnblockedTCB
   else lst (list_insert_end xPendingReadyList (xEventListItem pxUnblockedTCB)));;
  yield_if_higher pxUnblockedTCB.

Definition vTaskRemoveFromUnorderedEventList (pxEventListItem xItemValue : Z) : M (kernel S) unit :=
  n ← rd uxSchedulerSuspended;
  assert_that (negb (n =? 0));;
  lst (item_set_value pxEventListItem (Z.lor xItemValue taskEVENT_LIST_ITEM_VALUE_IN_USE));;
  pxUnblockedTCB ← lst (item_owner pxEventListItem);
  assert_that (negb (pxUnblockedTCB =? NULL));;
  listREMOVE_ITEM pxEventListItem;;
  wake_task pxUnblockedTCB;;
  yield_if_higher pxUnblockedTCB;;
  mret tt.

Definition uxTaskResetEventItemValue : M (kernel S) Z :=
  cur ← rd pxCurrentTCB;
  uxReturn ← lst (item_value (xEventListItem cur));
  p ← uxPriority <$> rd_tcb cur;
  lst (item_set_value (xEventListItem cur) (u32 (configMAX_PRIORITIES - p)));;
  mret uxReturn.

(** ** Time-outs *)

Definition vTaskInternalSetTimeOutState : M (kernel S) TimeOut_t :=
  n ← rd xNumOfOverflows; t ← rd xTickCount; mret (TimeOut n t).
Definition vTaskSetTimeOutState : M (kernel S) TimeOut_t :=
  n ← rd xNumOfOverflows; t ← rd xTickCount; mret (TimeOut n t).

(** The result, and [*pxTimeOut] and [*pxTicksToWait] afterwards. *)
Definition xTaskCheckForTimeOut (pxTimeOut : TimeOut_t) (ticks : Z)
    : M (kernel S) (bool * (TimeOut_t * Z)) :=
  xConstTickCount ← rd xTickCount;
  let xElapsedTime := u32 (xConstTickCount - xTimeOnEntering pxTimeOut) in
  if ticks =? portMAX_DELAY then mret (false, (pxTimeOut, ticks))
  else
    n ← rd xNumOfOverflows;
    if negb (n =? xOverflowCount pxTimeOut) && (xTimeOnEntering pxTimeOut <=? xConstTickCount)
    then mret (true, (pxTimeOut, 0))
    else if xElapsedTime <? ticks then
      to ← vTaskInternalSetTimeOutState;
      mret (false, (to, u32 (ticks - xElapsedTime)))
    else mret (true, (pxTimeOut, 0)).

Definition vTaskMissedYield : M (kernel S) unit := wr xYieldPending 1.

(** ** Priorities *)

Definition uxTaskPriorityGet (xTask : Z) : M (kernel S) Z :=
  pxTCB ← prvGetTCBFromHandle xTask;
  assert_that (negb (pxTCB =? NULL));;
  uxPriority <$> rd_tcb pxTCB.

Definition uxTaskPriorityGetFromISR (xTask : Z) : M (kernel S) Z :=
  pxTCB ← prvGetTCBFromHandle xTask;
  assert_that (negb (pxTCB =? NULL));;
  uxPriority <$> rd_tcb pxTCB.

Definition uxTaskBasePriorityGet (xTask : Z) : M (kernel S) Z :=
  pxTCB ← prvGetTCBFromHandle xTask;
  assert_that (negb (pxTCB =? NULL));;
  uxBasePriority <$> rd_tcb pxTCB.

Definition uxTaskBasePriorityGetFromISR (xTask : Z) : M (kernel S) Z :=
  pxTCB ← prvGetTCBFromHandle xTask;
  assert_that (negb (pxTCB =? NULL));;
  uxBasePriority <$> rd_tcb pxTCB.

(** The event item's value follows the priority unless it is in use. *)
Definition set_event_value (pxTCB uxPriority : Z) : M (kernel S) unit :=
  v ← lst (item_value (xEventListItem pxTCB));
  when_ (Z.land v taskEVENT_LIST_ITEM_VALUE_IN_USE =? 0)
    (lst (item_set_value (xEventListItem pxTCB) (u32 (configMAX_PRIORITIES - uxPriority)))).

(** Whether the task is in the ready list of [uxPriority]. *)
Definition is_ready_at (pxTCB uxPriority : Z) : M (kernel S) bool :=
  c ← lst (item_container (xStateListItem pxTCB)); mret (c =? ready uxPriority).

(** Out of the ready list of [uxPriority]. *)
Definition leave_ready (pxTCB uxPriority : Z) : M (kernel S) unit :=
  n ← lst (list_remove (xStateListItem pxTCB));
  when_ (n =? 0) (portRESET_READY_PRIORITY uxPriority).

(** A task that is ready at [uxPriority] goes to the ready list of the priority it
    has now. *)
Definition requeue_ready (pxTCB uxPriority : Z) : M (kernel S) unit :=
  b ← is_ready_at pxTCB uxPriority;
  when_ b (leave_ready pxTCB uxPriority;; prvAddTaskToReadyList pxTCB).

Definition vTaskPrioritySet (xTask uxNewPriority : Z) : M (kernel S) unit :=
  assert_that (uxNewPriority <? configMAX_PRIORITIES);;
  pxTCB ← prvGetTCBFromHandle xTask;
  assert_that (negb (pxTCB =? NULL));;
  uxCurrentBasePriority ← uxBasePriority <$> rd_tcb pxTCB;
  if uxCurrentBasePriority =? uxNewPriority then mret tt
  else
    cur ← rd pxCurrentTCB;
    xYieldRequired ←
      (if uxCurrentBasePriority <? uxNewPriority then
         if negb (pxTCB =? cur) then
           pc ← uxPriority <$> rd_tcb cur; mret (pc <? uxNewPriority)
         else mret false
       else mret (pxTCB =? cur));
    uxPriorityUsedOnEntry ← uxPriority <$> rd_tcb pxTCB;
    c ← rd_tcb pxTCB;
    when_ ((uxBasePriority c =? uxPriority c) || (uxPriority c <? uxNewPriority))
      (wr_tcb pxTCB (set_uxPriority uxNewPriority));;
    wr_tcb pxTCB (set_uxBasePriority uxNewPriority);;
    set_event_value pxTCB uxNewPriority;;
    requeue_ready pxTCB uxPriorityUsedOnEntry;;
    when_ xYieldRequired portYIELD.

Definition pvTaskIncrementMutexHeldCount : M (kernel S) Z :=
  pxTCB ← rd pxCurrentTCB;
  when_ (negb (pxTCB =? NULL)) (wr_tcb pxTCB (λ c, set_uxMutexesHeld (u32 (uxMutexesHeld c + 1)) c));;
  mret pxTCB.

Definition xTaskPriorityInherit (pxMutexHolder : Z) : M (kernel S) bool :=
  if pxMutexHolder =? NULL then mret false
  else
    cur ← rd pxCurrentTCB;
    pc ← uxPriority <$> rd_tcb cur;
    holder ← rd_tcb pxMutexHolder;
    if uxPriority holder <? pc then
      set_event_value pxMutexHolder pc;;
      b ← is_ready_at pxMutexHolder (uxPriority holder);
      (if b : bool then
         leave_ready pxMutexHolder (uxPriority holder);;
         wr_tcb pxMutexHolder (set_uxPriority pc);;
         prvAddTaskToReadyList pxMutexHolder
       else wr_tcb pxMutexHolder (set_uxPriority pc));;
      mret true
    else mret (uxBasePriority holder <? pc).

Definition xTaskPriorityDisinherit (pxMutexHolder : Z) : M (kernel S) bool :=
  if pxMutexHolder =? NULL then mret false
  else
    cur ← rd pxCurrentTCB;
    assert_that (pxMutexHolder =? cur);;
    n ← uxMutexesHeld <$> rd_tcb pxMutexHolder;
    assert_that (negb (n =? 0));;
    wr_tcb pxMutexHolder (set_uxMutexesHeld (u32 (n - 1)));;
    c ← rd_tcb pxMutexHolder;
    if negb (uxPriority c =? uxBasePriority c) && (uxMutexesHeld c =? 0) then
      leave_ready pxMutexHolder (uxPriority c);;
      wr_tcb pxMutexHolder (set_uxPriority (uxBasePriority c));;
      lst (item_set_value (xEventListItem pxMutexHolder)
             (u32 (configMAX_PRIORITIES - uxBasePriority c)));;
      prvAddTaskToReadyList pxMutexHolder;;
      mret true
    else mret false.

Definition vTaskPriorityDisinheritAfterTimeout (pxMutexHolder uxHighestPriorityWaitingTask : Z)
    : M (kernel S) unit :=
  if pxMutexHolder =? NULL then mret tt
  else
    c ← rd_tcb pxMutexHolder;
    assert_that (negb (uxMutexesHeld c =? 0));;
    let uxPriorityToUse :=
      if uxBasePriority c <? uxHighestPriorityWaitingTask then uxHighestPriorityWaitingTask
      else uxBasePriority c in
    if negb (uxPriority c =? uxPriorityToUse) && (uxMutexesHeld c =? 1) then
      cur ← rd pxCurrentTCB;
      assert_that (negb (pxMutexHolder =? cur));;
      wr_tcb pxMutexHolder (set_uxPriority uxPriorityToUse);;
      set_event_value pxMutexHolder uxPriorityToUse;;
      requeue_ready pxMutexHolder (uxPriority c)
    else mret tt.
End api.

(** * Tasks and notifications

    The life of tasks and their notifications, [freertos/tasks.c]: creation,
    deletion, suspension and resumption, the state of a task, the start of the
    scheduler, and the [xTaskGenericNotify] family. *)

Section tasks.
Context `{KernelLists} {S : Type} `{ListOps S}.

(** ** Creation *)

Definition prvInitialiseTaskLists : M (kernel S) unit :=
  lst (list_initialise (ready 0));;
  lst (list_initialise (ready 1));;
  lst (list_initialise (ready 2));;
  lst (list_initialise (ready 3));;
  lst (list_initialise (ready 4));;
  lst (list_initialise xDelayedTaskList1);;
  lst (list_initialise xDelayedTaskList2);;
  lst (list_initialise xPendingReadyList);;
  lst (list_initialise xTasksWaitingTermination);;
  lst (list_initialise xSuspendedTaskList);;
  wr pxDelayedTaskList xDelayedTaskList1;;
  wr pxOverflowDelayedTaskList xDelayedTaskList2.

(** [memset( pxNewTCB, 0, sizeof( TCB_t ) )] *)
Definition memset_tcb (pxNewTCB : Z) : M (kernel S) unit :=
  lst (item_zero (xStateListItem pxNewTCB));;
  lst (item_zero (xEventListItem pxNewTCB));;
  modify (λ k, Kernel (kmem k) (<[pxNewTCB := zero_tcb]> (tcbs k)) (var k)).

(** Without the stack and the name. *)
Definition prvInitialiseNewTask (uxNewPriority pxNewTCB : Z) : M (kernel S) unit :=
  assert_that (uxNewPriority <? configMAX_PRIORITIES);;
  wr_tcb pxNewTCB (set_uxPriority uxNewPriority);;
  wr_tcb pxNewTCB (set_uxBasePriority uxNewPriority);;
  lst (item_initialise (xStateListItem pxNewTCB));;
  lst (item_initialise (xEventListItem pxNewTCB));;
  lst (item_set_owner (xStateListItem pxNewTCB) pxNewTCB);;
  lst (item_set_value (xEventListItem pxNewTCB) (u32 (configMAX_PRIORITIES - uxNewPriority)));;
  lst (item_set_owner (xEventListItem pxNewTCB) pxNewTCB).

Definition prvAddNewTaskToReadyList (pxNewTCB : Z) : M (kernel S) unit :=
  incr uxCurrentNumberOfTasks;;
  cur ← rd pxCurrentTCB;
  running ← rd xSchedulerRunning;
  (if cur =? NULL then
     wr pxCurrentTCB pxNewTCB;;
     n ← rd uxCurrentNumberOfTasks;
     when_ (n =? 1) prvInitialiseTaskLists
   else if running =? 0 then
     pc ← uxPriority <$> rd_tcb cur;
     p ← uxPriority <$> rd_tcb pxNewTCB;
     when_ (pc <=? p) (wr pxCurrentTCB pxNewTCB)
   else mret tt);;
  incr uxTaskNumber;;
  prvAddTaskToReadyList pxNewTCB;;
  running ← rd xSchedulerRunning;
  when_ (negb (running =? 0)) (taskYIELD_ANY_CORE_IF_USING_PREEMPTION pxNewTCB).

Definition pdPASS : Z := 1.
Definition errCOULD_NOT_ALLOCATE_REQUIRED_MEMORY : Z := -1.

(** [pxStack] and [pxNewTCB] are what [pvPortMalloc] gives for the stack and,
    when it is asked, for the TCB.  The result is that of the function and the
    new handle. *)
Definition xTaskCreate (uxNewPriority pxStack pxNewTCB : Z) : M (kernel S) (Z * Z) :=
  if (pxStack =? NULL) || (pxNewTCB =? NULL) then
    mret (errCOULD_NOT_ALLOCATE_REQUIRED_MEMORY, NULL)
  else
    memset_tcb pxNewTCB;;
    prvInitialiseNewTask uxNewPriority pxNewTCB;;
    prvAddNewTaskToReadyList pxNewTCB;;
    mret (pdPASS, pxNewTCB).

(** From the creation of the idle and the timer task on. *)
Definition vTaskStartScheduler : M (kernel S) unit :=
  wr xNextTaskUnblockTime portMAX_DELAY;;
  wr xSchedulerRunning 1;;
  wr xTickCount 0.

(** ** Deletion *)

(** The TCB is no longer memory of the scheduler's. *)
Definition prvDeleteTCB (pxTCB : Z) : M (kernel S) unit :=
  modify (λ k, Kernel (kmem k) (delete pxTCB (tcbs k)) (var k)).

(** Out of the ready, delayed or suspended list. *)
Definition leave_state_list (pxTCB : Z) : M (kernel S) unit :=
  n ← lst (list_remove (xStateListItem pxTCB));
  when_ (n =? 0) (p ← uxPriority <$> rd_tcb pxTCB; taskRESET_READY_PRIORITY p).

Definition vTaskDelete (xTaskToDelete : Z) : M (kernel S) unit :=
  pxTCB ← prvGetTCBFromHandle xTaskToDelete;
  assert_that (negb (pxTCB =? NULL));;
  leave_state_list pxTCB;;
  leave_event_list pxTCB;;
  incr uxTaskNumber;;
  cur ← rd pxCurrentTCB;
  running ← rd xSchedulerRunning;
  (if negb (running =? 0) && (pxTCB =? cur) then
     lst (list_insert_end xTasksWaitingTermination (xStateListItem pxTCB));;
     incr uxDeletedTasksWaitingCleanUp
   else
     decr uxCurrentNumberOfTasks;;
     prvResetNextTaskUnblockTime;;
     prvDeleteTCB pxTCB);;
  running ← rd xSchedulerRunning;
  when_ (negb (running =? 0))
    (cur ← rd pxCurrentTCB;
     when_ (pxTCB =? cur)
       (n ← rd uxSchedulerSuspended; assert_that (n =? 0);; portYIELD)).

(** Run by the idle task. *)
Fixpoint check_termination (fuel : nat) : M (kernel S) unit :=
  match fuel with
  | O => fail OutOfFuel
  | Datatypes.S fuel =>
      n ← rd uxDeletedTasksWaitingCleanUp;
      if 0 <? n then
        pxTCB ← lst (list_head_owner xTasksWaitingTermination);
        listREMOVE_ITEM (xStateListItem pxTCB);;
        decr uxCurrentNumberOfTasks;;
        decr uxDeletedTasksWaitingCleanUp;;
        prvDeleteTCB pxTCB;;
        check_termination fuel
      else mret tt
  end.

Definition prvCheckTasksWaitingTermination : M (kernel S) unit :=
  fuel ← task_fuel; check_termination fuel.

(** One round of the loop of the idle task. *)
Definition prvIdleTask : M (kernel S) unit :=
  prvCheckTasksWaitingTermination;;
  n ← lst (list_length (ready 0));
  when_ (1 <? n) portYIELD.

(** ** Suspension *)

(** Whether a notification is waited for at some index. *)
Definition waits_notification (c : tcb) : bool :=
  existsb (λ x, bool_decide (x = taskWAITING_NOTIFICATION)) (ucNotifyState c).

Definition vTaskSuspend (xTaskToSuspend : Z) : M (kernel S) unit :=
  pxTCB ← prvGetTCBFromHandle xTaskToSuspend;
  assert_that (negb (pxTCB =? NULL));;
  leave_state_list pxTCB;;
  leave_event_list pxTCB;;
  lst (list_insert_end xSuspendedTaskList (xStateListItem pxTCB));;
  wr_tcb pxTCB (λ c, set_ucNotifyState
    ((λ x, if bool_decide (x = taskWAITING_NOTIFICATION) then taskNOT_WAITING_NOTIFICATION else x)
       <$> ucNotifyState c) c);;
  running ← rd xSchedulerRunning;
  when_ (negb (running =? 0)) prvResetNextTaskUnblockTime;;
  cur ← rd pxCurrentTCB;
  when_ (pxTCB =? cur)
    (running ← rd xSchedulerRunning;
     if negb (running =? 0) then
       n ← rd uxSchedulerSuspended; assert_that (n =? 0);; portYIELD
     else
       n ← lst (list_length xSuspendedTaskList);
       tasks ← rd uxCurrentNumberOfTasks;
       if n =? tasks then wr pxCurrentTCB NULL else vTaskSwitchContext).

Definition prvTaskIsTaskSuspended (xTask : Z) : M (kernel S) bool :=
  assert_that (negb (xTask =? NULL));;
  s ← lst (item_container (xStateListItem xTask));
  if s =? xSuspendedTaskList then
    e ← lst (item_container (xEventListItem xTask));
    if e =? xPendingReadyList then mret false
    else if e =? NULL then negb <$> (waits_notification <$> rd_tcb xTask)
    else mret false
  else mret false.

Definition vTaskResume (xTaskToResume : Z) : M (kernel S) unit :=
  assert_that (negb (xTaskToResume =? NULL));;
  cur ← rd pxCurrentTCB;
  when_ (negb (xTaskToResume =? cur))
    (b ← prvTaskIsTaskSuspended xTaskToResume;
     when_ b
       (wake_task xTaskToResume;;
        taskYIELD_ANY_CORE_IF_USING_PREEMPTION xTaskToResume)).

(** The result is [xYieldRequired]. *)
Definition xTaskResumeFromISR (xTaskToResume : Z) : M (kernel S) bool :=
  assert_that (negb (xTaskToResume =? NULL));;
  b ← prvTaskIsTaskSuspended xTaskToResume;
  if b : bool then
    n ← rd uxSchedulerSuspended;
    if n =? 0 then
      xYieldRequired ← yield_if_higher xTaskToResume;
      wake_task xTaskToResume;;
      mret xYieldRequired
    else
      lst (list_insert_end xPendingReadyList (xEventListItem xTaskToResume));;
      mret false
  else mret false.

Definition eTaskGetState (xTask : Z) : M (kernel S) eTaskState :=
  assert_that (negb (xTask =? NULL));;
  cur ← rd pxCurrentTCB;
  if xTask =? cur then mret eRunning
  else
    s ← lst (item_container (xStateListItem xTask));
    e ← lst (item_container (xEventListItem xTask));
    d ← rd pxDelayedTaskList;
    o ← rd pxOverflowDelayedTaskList;
    if e =? xPendingReadyList then mret eReady
    else if (s =? d) || (s =? o) then mret eBlocked
    else if s =? xSuspendedTaskList then
      (if e =? NULL then
         b ← waits_notification <$> rd_tcb xTask; mret (if b : bool then eBlocked else eSuspended)
       else mret eBlocked)
    else if (s =? xTasksWaitingTermination) || (s =? NULL) then mret eDeleted
    else mret eReady.

(** ** Notifications *)

(** [pxTCB->ulNotifiedValue[ i ]] and [pxTCB->ucNotifyState[ i ]]. *)
Definition notified (pxTCB i : Z) : M (kernel S) Z :=
  c ← rd_tcb pxTCB; of_option (ulNotifiedValue c !! Z.to_nat i).
Definition notify_of (pxTCB i : Z) : M (kernel S) notify_state :=
  c ← rd_tcb pxTCB; of_option (ucNotifyState c !! Z.to_nat i).
Definition wr_notified (pxTCB i v : Z) : M (kernel S) unit :=
  wr_tcb pxTCB (λ c, set_ulNotifiedValue (<[Z.to_nat i := v]> (ulNotifiedValue c)) c).
Definition wr_notify (pxTCB i : Z) (v : notify_state) : M (kernel S) unit :=
  wr_tcb pxTCB (λ c, set_ucNotifyState (<[Z.to_nat i := v]> (ucNotifyState c)) c).

Definition is_state (x y : notify_state) : bool := bool_decide (x = y).

(** With the scheduler suspended: if [still] there is nothing to take, [mark] that
    the task waits and let it wait; then the scheduler goes on.  Both waiting
    functions do this. *)
Definition notify_block (still : M (kernel S) bool) (mark : M (kernel S) unit)
    (xTicksToWait : Z) : M (kernel S) unit :=
  vTaskSuspendAll;;
  xShouldBlock ← still;
  when_ xShouldBlock (mark;; prvAddCurrentTaskToDelayedList xTicksToWait true);;
  xAlreadyYielded ← xTaskResumeAll;
  when_ (xShouldBlock && negb xAlreadyYielded) portYIELD.

(** Up to the point where the task may have to wait; the rest runs when it runs
    again. *)
Definition ulTaskGenericNotifyTake_wait (uxIndexToWaitOn xTicksToWait : Z) : M (kernel S) unit :=
  assert_that (uxIndexToWaitOn <? configTASK_NOTIFICATION_ARRAY_ENTRIES);;
  cur ← rd pxCurrentTCB;
  v ← notified cur uxIndexToWaitOn;
  when_ ((v =? 0) && (0 <? xTicksToWait))
    (notify_block ((λ v, v =? 0) <$> notified cur uxIndexToWaitOn)
       (wr_notify cur uxIndexToWaitOn taskWAITING_NOTIFICATION) xTicksToWait).

Definition ulTaskGenericNotifyTake_end (uxIndexToWaitOn : Z) (xClearCountOnExit : bool)
    : M (kernel S) Z :=
  cur ← rd pxCurrentTCB;
  ulReturn ← notified cur uxIndexToWaitOn;
  when_ (negb (ulReturn =? 0))
    (wr_notified cur uxIndexToWaitOn (if xClearCountOnExit then 0 else u32 (ulReturn - 1)));;
  wr_notify cur uxIndexToWaitOn taskNOT_WAITING_NOTIFICATION;;
  mret ulReturn.

Definition xTaskGenericNotifyWait_wait (uxIndexToWaitOn ulBitsToClearOnEntry xTicksToWait : Z)
    : M (kernel S) unit :=
  assert_that (uxIndexToWaitOn <? configTASK_NOTIFICATION_ARRAY_ENTRIES);;
  cur ← rd pxCurrentTCB;
  st ← notify_of cur uxIndexToWaitOn;
  when_ (negb (is_state st taskNOTIFICATION_RECEIVED) && (0 <? xTicksToWait))
    (notify_block
       ((λ st, negb (is_state st taskNOTIFICATION_RECEIVED)) <$> notify_of cur uxIndexToWaitOn)
       (v ← notified cur uxIndexToWaitOn;
        wr_notified cur uxIndexToWaitOn (Z.land v (u32 (Z.lnot ulBitsToClearOnEntry)));;
        wr_notify cur uxIndexToWaitOn taskWAITING_NOTIFICATION)
       xTicksToWait).

(** The result and [*pulNotificationValue]. *)
Definition xTaskGenericNotifyWait_end (uxIndexToWaitOn ulBitsToClearOnExit : Z)
    : M (kernel S) (bool * Z) :=
  cur ← rd pxCurrentTCB;
  v ← notified cur uxIndexToWaitOn;
  st ← notify_of cur uxIndexToWaitOn;
  xReturn ←
    (if negb (is_state st taskNOTIFICATION_RECEIVED) then mret false
     else
       wr_notified cur uxIndexToWaitOn (Z.land v (u32 (Z.lnot ulBitsToClearOnExit)));;
       mret true);
  wr_notify cur uxIndexToWaitOn taskNOT_WAITING_NOTIFICATION;;
  mret (xReturn, v).

(** The [switch( eAction )]; the result is [xReturn]. *)
Definition notify_action (pxTCB i ulValue : Z) (eAction : eNotifyAction)
    (ucOriginalNotifyState : notify_state) : M (kernel S) bool :=
  v ← notified pxTCB i;
  match eAction with
  | eSetBits => wr_notified pxTCB i (Z.lor v ulValue);; mret true
  | eIncrement => wr_notified pxTCB i (u32 (v + 1));; mret true
  | eSetValueWithOverwrite => wr_notified pxTCB i ulValue;; mret true
  | eSetValueWithoutOverwrite =>
      if negb (is_state ucOriginalNotifyState taskNOTIFICATION_RECEIVED) then
        wr_notified pxTCB i ulValue;; mret true
      else mret false
  | eNoAction => mret true
  end.

(** The result and [*pulPreviousNotificationValue]. *)
Definition xTaskGenericNotify (xTaskToNotify uxIndexToNotify ulValue : Z)
    (eAction : eNotifyAction) : M (kernel S) (bool * Z) :=
  assert_that (uxIndexToNotify <? configTASK_NOTIFICATION_ARRAY_ENTRIES);;
  assert_that (negb (xTaskToNotify =? NULL));;
  previous ← notified xTaskToNotify uxIndexToNotify;
  ucOriginalNotifyState ← notify_of xTaskToNotify uxIndexToNotify;
  wr_notify xTaskToNotify uxIndexToNotify taskNOTIFICATION_RECEIVED;;
  xReturn ← notify_action xTaskToNotify uxIndexToNotify ulValue eAction ucOriginalNotifyState;
  when_ (is_state ucOriginalNotifyState taskWAITING_NOTIFICATION)
    (wake_task xTaskToNotify;;
     e ← lst (item_container (xEventListItem xTaskToNotify));
     assert_that (e =? NULL);;
     taskYIELD_ANY_CORE_IF_USING_PREEMPTION xTaskToNotify);;
  mret (xReturn, previous).

(** From an interrupt, a task notified while the scheduler is suspended is held
    pending; the result is whether a higher priority task was woken. *)
Definition notify_unblock_from_isr (pxTCB : Z) (ucOriginalNotifyState : notify_state)
    : M (kernel S) bool :=
  if is_state ucOriginalNotifyState taskWAITING_NOTIFICATION then
    e ← lst (item_container (xEventListItem pxTCB));
    assert_that (e =? NULL);;
    n ← rd uxSchedulerSuspended;
    (if n =? 0 then wake_task pxTCB
     else lst (list_insert_end xPendingReadyList (xEventListItem pxTCB)));;
    yield_if_higher pxTCB
  else mret false.

(** The result, [*pulPreviousNotificationValue], and whether
    [*pxHigherPriorityTaskWoken] is set. *)
Definition xTaskGenericNotifyFromISR (xTaskToNotify uxIndexToNotify ulValue : Z)
    (eAction : eNotifyAction) : M (kernel S) (bool * Z * bool) :=
  assert_that (negb (xTaskToNotify =? NULL));;
  assert_that (uxIndexToNotify <? configTASK_NOTIFICATION_ARRAY_ENTRIES);;
  previous ← notified xTaskToNotify uxIndexToNotify;
  ucOriginalNotifyState ← notify_of xTaskToNotify uxIndexToNotify;
  wr_notify xTaskToNotify uxIndexToNotify taskNOTIFICATION_RECEIVED;;
  xReturn ← notify_action xTaskToNotify uxIndexToNotify ulValue eAction ucOriginalNotifyState;
  woken ← notify_unblock_from_isr xTaskToNotify ucOriginalNotifyState;
  mret (xReturn, previous, woken).

Definition vTaskGenericNotifyGiveFromISR (xTaskToNotify uxIndexToNotify : Z)
    : M (kernel S) bool :=
  assert_that (negb (xTaskToNotify =? NULL));;
  assert_that (uxIndexToNotify <? configTASK_NOTIFICATION_ARRAY_ENTRIES);;
  ucOriginalNotifyState ← notify_of xTaskToNotify uxIndexToNotify;
  wr_notify xTaskToNotify uxIndexToNotify taskNOTIFICATION_RECEIVED;;
  v ← notified xTaskToNotify uxIndexToNotify;
  wr_notified xTaskToNotify uxIndexToNotify (u32 (v + 1));;
  notify_unblock_from_isr xTaskToNotify ucOriginalNotifyState.

Definition xTaskGenericNotifyStateClear (xTask uxIndexToClear : Z) : M (kernel S) bool :=
  assert_that (uxIndexToClear <? configTASK_NOTIFICATION_ARRAY_ENTRIES);;
  pxTCB ← prvGetTCBFromHandle xTask;
  assert_that (negb (pxTCB =? NULL));;
  st ← notify_of pxTCB uxIndexToClear;
  if is_state st taskNOTIFICATION_RECEIVED then
    wr_notify pxTCB uxIndexToClear taskNOT_WAITING_NOTIFICATION;; mret true
  else mret false.

Definition ulTaskGenericNotifyValueClear (xTask uxIndexToClear ulBitsToClear : Z)
    : M (kernel S) Z :=
  assert_that (uxIndexToClear <? configTASK_NOTIFICATION_ARRAY_ENTRIES);;
  pxTCB ← prvGetTCBFromHandle xTask;
  assert_that (negb (pxTCB =? NULL));;
  v ← notified pxTCB uxIndexToClear;
  wr_notified pxTCB uxIndexToClear (Z.land v (u32 (Z.lnot ulBitsToClear)));;
  mret v.
End tasks.
