(* ===== verification/Queue.v ===== *)
(** FreeRTOS queues and semaphores, [freertos/queue.c]: the queue structure
    with its storage area, and every operation the firmware can reach, in
    single-core configuration with mutexes and without queue sets
    (config/FreeRTOSConfig.h).

    Pointers into the storage area are byte addresses; the bytes themselves
    are the list [storage], which starts at [pcHead].  A critical section is
    one uninterrupted piece of code; where interrupts are enabled, the other
    tasks and the interrupt handlers may run, which is the function
    [others]. *)
From stdpp Require Import base tactics numbers list.
From S2P Require Import Prelude Words Sched.

(** ** The queue structure *)

Definition queueUNLOCKED : Z := -1.
Definition queueLOCKED_UNMODIFIED : Z := 0.
Definition queueINT8_MAX : Z := 127.

Definition pdTRUE : Z := 1.
Definition pdFALSE : Z := 0.
Definition pdPASS : Z := 1.
Definition pdFAIL : Z := 0.
Definition errQUEUE_EMPTY : Z := 0.
Definition errQUEUE_FULL : Z := 0.

Definition queueSEND_TO_BACK : Z := 0.
Definition queueSEND_TO_FRONT : Z := 1.
Definition queueOVERWRITE : Z := 2.

(** NULL in [pcHead] marks a mutex. *)
Definition queueQUEUE_IS_MUTEX : Z := NULL.

(** sizeof( Queue_t ) on the target: four pointers, two [List_t] of 20 bytes,
    three counts and two lock bytes, padded to a word. *)
Definition sizeof_Queue_t : Z := 72.
Definition SIZE_MAX : Z := 4294967295.

Record queue := Queue {
  pcHead : Z;                 (* alias uxQueueType *)
  pcWriteTo : Z;
  pcTail : Z;                 (* u.xQueue.pcTail *)
  pcReadFrom : Z;             (* u.xQueue.pcReadFrom *)
  xMutexHolder : option task_handle;   (* u.xSemaphore.xMutexHolder *)
  xTasksWaitingToSend : list task_handle;
  xTasksWaitingToReceive : list task_handle;
  uxMessagesWaiting : Z;
  uxLength : Z;
  uxItemSize : Z;
  cRxLock : Z;
  cTxLock : Z;
  storage : list Z
}.

Definition set_pcWriteTo (v : Z) (q : queue) : queue :=
  Queue (pcHead q) v (pcTail q) (pcReadFrom q) (xMutexHolder q)
    (xTasksWaitingToSend q) (xTasksWaitingToReceive q) (uxMessagesWaiting q)
    (uxLength q) (uxItemSize q) (cRxLock q) (cTxLock q) (storage q).
Definition set_pcReadFrom (v : Z) (q : queue) : queue :=
  Queue (pcHead q) (pcWriteTo q) (pcTail q) v (xMutexHolder q)
    (xTasksWaitingToSend q) (xTasksWaitingToReceive q) (uxMessagesWaiting q)
    (uxLength q) (uxItemSize q) (cRxLock q) (cTxLock q) (storage q).
Definition set_xMutexHolder (v : option task_handle) (q : queue) : queue :=
  Queue (pcHead q) (pcWriteTo q) (pcTail q) (pcReadFrom q) v
    (xTasksWaitingToSend q) (xTasksWaitingToReceive q) (uxMessagesWaiting q)
    (uxLength q) (uxItemSize q) (cRxLock q) (cTxLock q) (storage q).
Definition set_xTasksWaitingToSend (v : list task_handle) (q : queue) : queue :=
  Queue (pcHead q) (pcWriteTo q) (pcTail q) (pcReadFrom q) (xMutexHolder q)
    v (xTasksWaitingToReceive q) (uxMessagesWaiting q)
    (uxLength q) (uxItemSize q) (cRxLock q) (cTxLock q) (storage q).
Definition set_xTasksWaitingToReceive (v : list task_handle) (q : queue) : queue :=
  Queue (pcHead q) (pcWriteTo q) (pcTail q) (pcReadFrom q) (xMutexHolder q)
    (xTasksWaitingToSend q) v (uxMessagesWaiting q)
    (uxLength q) (uxItemSize q) (cRxLock q) (cTxLock q) (storage q).
Definition set_uxMessagesWaiting (v : Z) (q : queue) : queue :=
  Queue (pcHead q) (pcWriteTo q) (pcTail q) (pcReadFrom q) (xMutexHolder q)
    (xTasksWaitingToSend q) (xTasksWaitingToReceive q) v
    (uxLength q) (uxItemSize q) (cRxLock q) (cTxLock q) (storage q).
Definition set_cRxLock (v : Z) (q : queue) : queue :=
  Queue (pcHead q) (pcWriteTo q) (pcTail q) (pcReadFrom q) (xMutexHolder q)
    (xTasksWaitingToSend q) (xTasksWaitingToReceive q) (uxMessagesWaiting q)
    (uxLength q) (uxItemSize q) v (cTxLock q) (storage q).
Definition set_cTxLock (v : Z) (q : queue) : queue :=
  Queue (pcHead q) (pcWriteTo q) (pcTail q) (pcReadFrom q) (xMutexHolder q)
    (xTasksWaitingToSend q) (xTasksWaitingToReceive q) (uxMessagesWaiting q)
    (uxLength q) (uxItemSize q) (cRxLock q) v (storage q).
Definition set_storage (v : list Z) (q : queue) : queue :=
  Queue (pcHead q) (pcWriteTo q) (pcTail q) (pcReadFrom q) (xMutexHolder q)
    (xTasksWaitingToSend q) (xTasksWaitingToReceive q) (uxMessagesWaiting q)
    (uxLength q) (uxItemSize q) (cRxLock q) (cTxLock q) v.

(** ** The storage area *)

(** [memcpy( ( void * ) a, item, n)] into the storage area; [None] when the
    copy leaves the item or the area. *)
Definition mem_write (a n : Z) (item : list Z) (q : queue) : option queue :=
  let o := a - pcHead q in
  if bool_decide (n ≤ Z.of_nat (length item) ∧
       0 ≤ o ∧ o + n ≤ Z.of_nat (length (storage q)))
  then Some (set_storage (list_inserts (Z.to_nat o) (take (Z.to_nat n) item) (storage q)) q)
  else None.

(** [memcpy(buffer, ( void * ) a, n)] out of it. *)
Definition mem_read (a n : Z) (q : queue) : option (list Z) :=
  let o := a - pcHead q in
  if bool_decide (0 ≤ o ∧ o + n ≤ Z.of_nat (length (storage q)))
  then Some (take (Z.to_nat n) (drop (Z.to_nat o) (storage q)))
  else None.

(** ** Operations *)

Section ops.
Context {K : Type} `{TaskOps K}.
Definition qstate : Type := queue * K.

Definition kern {A} (m : M K A) : M qstate A := zoom snd (λ k s, (s.1, k)) m.
Definition rdq {A} (f : queue → A) : M qstate A := gets (λ s, f s.1).
Definition mdq (f : queue → queue) : M qstate unit := modify (λ s, (f s.1, s.2)).

(** What runs when interrupts are enabled and this code is not. *)
Context (others : qstate → qstate).
Definition preempt : M qstate unit := modify others.

Definition prvCopyDataToQueue (pvItemToQueue : list Z) (xPosition : Z)
    : M qstate bool :=
  n ← rdq uxMessagesWaiting;
  size ← rdq uxItemSize;
  head ← rdq pcHead;
  '(n, ret) ←
    (if size =? 0 then
       if head =? queueQUEUE_IS_MUTEX then
         holder ← rdq xMutexHolder;
         r ← kern (xTaskPriorityDisinherit holder);
         mdq (set_xMutexHolder None);;
         mret (n, r)
       else mret (n, false)
     else if xPosition =? queueSEND_TO_BACK then
       w ← rdq pcWriteTo;
       q ← gets fst;
       q' ← of_option (mem_write w size pvItemToQueue q);
       mdq (λ _, q');;
       mdq (set_pcWriteTo (w + size));;
       tail ← rdq pcTail;
       when_ (tail <=? w + size) (mdq (set_pcWriteTo head));;
       mret (n, false)
     else
       r ← rdq pcReadFrom;
       q ← gets fst;
       q' ← of_option (mem_write r size pvItemToQueue q);
       mdq (λ _, q');;
       mdq (set_pcReadFrom (r - size));;
       tail ← rdq pcTail;
       when_ (r - size <? head) (mdq (set_pcReadFrom (tail - size)));;
       if xPosition =? queueOVERWRITE then
         if 0 <? n then mret (n - 1, false) else mret (n, false)
       else mret (n, false));
  mdq (set_uxMessagesWaiting (u32 (n + 1)));;
  mret ret.

(** The bytes copied to [pvBuffer]. *)
Definition prvCopyDataFromQueue : M qstate (list Z) :=
  size ← rdq uxItemSize;
  if negb (size =? 0) then
    r ← rdq pcReadFrom;
    mdq (set_pcReadFrom (r + size));;
    tail ← rdq pcTail;
    head ← rdq pcHead;
    when_ (tail <=? r + size) (mdq (set_pcReadFrom head));;
    r ← rdq pcReadFrom;
    q ← gets fst;
    of_option (mem_read r size q)
  else mret [].

Definition prvIsQueueEmpty : M qstate bool :=
  n ← rdq uxMessagesWaiting; mret (n =? 0).

Definition prvIsQueueFull : M qstate bool :=
  n ← rdq uxMessagesWaiting; l ← rdq uxLength; mret (n =? l).

Definition prvLockQueue : M qstate unit :=
  rx ← rdq cRxLock;
  when_ (rx =? queueUNLOCKED) (mdq (set_cRxLock queueLOCKED_UNMODIFIED));;
  tx ← rdq cTxLock;
  when_ (tx =? queueUNLOCKED) (mdq (set_cTxLock queueLOCKED_UNMODIFIED)).

(** Unblock the first task waiting to receive (to send), if there is one;
    the result is whether a higher-priority task was unblocked. *)
Definition unblock_receiver : M qstate bool :=
  l ← rdq xTasksWaitingToReceive;
  '(b, l) ← kern (xTaskRemoveFromEventList l);
  mdq (set_xTasksWaitingToReceive l);; mret b.
Definition unblock_sender : M qstate bool :=
  l ← rdq xTasksWaitingToSend;
  '(b, l) ← kern (xTaskRemoveFromEventList l);
  mdq (set_xTasksWaitingToSend l);; mret b.

(** The two loops of [prvUnlockQueue]; each pass lowers the lock count. *)
Fixpoint unlock_tx (n : nat) : M qstate unit :=
  match n with
  | O => mret tt
  | S n =>
      l ← rdq xTasksWaitingToReceive;
      if bool_decide (l ≠ []) then
        b ← unblock_receiver;
        when_ b (kern vTaskMissedYield);;
        unlock_tx n
      else mret tt
  end.
Fixpoint unlock_rx (n : nat) : M qstate unit :=
  match n with
  | O => mret tt
  | S n =>
      l ← rdq xTasksWaitingToSend;
      if bool_decide (l ≠ []) then
        b ← unblock_sender;
        when_ b (kern vTaskMissedYield);;
        unlock_rx n
      else mret tt
  end.

(** The two critical sections of [prvUnlockQueue]. *)
Definition unlock_receivers : M qstate unit :=
  tx ← rdq cTxLock;
  unlock_tx (Z.to_nat (tx - queueLOCKED_UNMODIFIED));;
  mdq (set_cTxLock queueUNLOCKED).
Definition unlock_senders : M qstate unit :=
  rx ← rdq cRxLock;
  unlock_rx (Z.to_nat (rx - queueLOCKED_UNMODIFIED));;
  mdq (set_cRxLock queueUNLOCKED).

Definition prvUnlockQueue : M qstate unit :=
  unlock_receivers;;
  preempt;;
  unlock_senders.

(** The critical section of [xQueueGenericSend] when there is room. *)
Definition send_now (item : list Z) (pos : Z) : M qstate unit :=
  y ← prvCopyDataToQueue item pos;
  l ← rdq xTasksWaitingToReceive;
  if bool_decide (l ≠ []) then
    b ← unblock_receiver;
    when_ b (kern portYIELD_WITHIN_API)
  else when_ y (kern portYIELD_WITHIN_API).

(** Place the calling task on an event list with the queue locked, and let
    the scheduler run the others: the tail of the three blocking calls. *)
Definition block_on (place : M qstate unit) : M qstate unit :=
  place;;
  prvUnlockQueue;;
  r ← kern xTaskResumeAll;
  when_ (negb r) (kern portYIELD_WITHIN_API);;
  preempt.

Definition retry : M qstate unit :=
  prvUnlockQueue;;
  kern xTaskResumeAll;;
  preempt.

Definition place_sender (ticks : Z) : M qstate unit :=
  l ← rdq xTasksWaitingToSend;
  l ← kern (vTaskPlaceOnEventList l ticks);
  mdq (set_xTasksWaitingToSend l).
Definition place_receiver (ticks : Z) : M qstate unit :=
  l ← rdq xTasksWaitingToReceive;
  l ← kern (vTaskPlaceOnEventList l ticks);
  mdq (set_xTasksWaitingToReceive l).

(** [xEntryTimeSet]/[xTimeOut]: [None] until the entry time is set. *)
Definition entry_time (to : option TimeOut_t) : M qstate TimeOut_t :=
  match to with
  | None => kern vTaskInternalSetTimeOutState
  | Some to => mret to
  end.

(** From the end of the critical section to the check of the clock. *)
Definition suspend_and_check (to : TimeOut_t) (ticks : Z)
    : M qstate (bool * (TimeOut_t * Z)) :=
  preempt;;
  kern vTaskSuspendAll;;
  preempt;;
  prvLockQueue;;
  preempt;;
  kern (xTaskCheckForTimeOut to ticks).

Fixpoint send_loop (fuel : nat) (item : list Z) (pos ticks : Z)
    (to : option TimeOut_t) : M qstate Z :=
  match fuel with
  | O => fail OutOfFuel
  | S fuel =>
      n ← rdq uxMessagesWaiting;
      len ← rdq uxLength;
      if (n <? len) || (pos =? queueOVERWRITE) then
        send_now item pos;; mret pdPASS
      else if ticks =? 0 then mret errQUEUE_FULL
      else
        to ← entry_time to;
        '(expired, (to, ticks)) ← suspend_and_check to ticks;
        if negb expired then
          full ← prvIsQueueFull;
          preempt;;
          (if (full : bool) then block_on (place_sender ticks) else retry);;
          send_loop fuel item pos ticks (Some to)
        else retry;; mret errQUEUE_FULL
  end.

(** Cannot block if the scheduler is suspended. *)
Definition assert_can_wait (xTicksToWait : Z) : M qstate unit :=
  susp ← gets (λ s, scheduler_suspended s.2);
  assert_that (negb (susp && negb (xTicksToWait =? 0))).

(** [pvItemToQueue]: [None] is the NULL pointer. *)
Definition xQueueGenericSend (fuel : nat) (pvItemToQueue : option (list Z))
    (xTicksToWait xCopyPosition : Z) : M qstate Z :=
  size ← rdq uxItemSize;
  assert_that (negb (bool_decide (pvItemToQueue = None) && negb (size =? 0)));;
  len ← rdq uxLength;
  assert_that (negb ((xCopyPosition =? queueOVERWRITE) && negb (len =? 1)));;
  assert_can_wait xTicksToWait;;
  send_loop fuel (default [] pvItemToQueue) xCopyPosition xTicksToWait None.

(** The critical section of [xQueueReceive] when there is an item. *)
Definition receive_now : M qstate (list Z) :=
  n ← rdq uxMessagesWaiting;
  bs ← prvCopyDataFromQueue;
  mdq (set_uxMessagesWaiting (u32 (n - 1)));;
  l ← rdq xTasksWaitingToSend;
  (if bool_decide (l ≠ []) then
     b ← unblock_sender; when_ b (kern portYIELD_WITHIN_API)
   else mret tt);;
  mret bs.

(** The loop of the calls that wait for an item.  [take] is the critical
    section when there is one, [prepare] what is done before blocking and
    [on_timeout] what is done when the wait has timed out; [inh] is the local
    [xInheritanceOccurred], which only [xQueueSemaphoreTake] has. *)
Fixpoint wait_loop {A} (fuel : nat) (take : M qstate A) (prepare : bool → M qstate bool)
    (on_timeout : bool → M qstate unit) (inh : bool) (ticks : Z) (to : option TimeOut_t)
    : M qstate (Z * option A) :=
  match fuel with
  | O => fail OutOfFuel
  | S fuel =>
      n ← rdq uxMessagesWaiting;
      if 0 <? n then a ← take; mret (pdPASS, Some a)
      else if ticks =? 0 then mret (errQUEUE_EMPTY, None)
      else
        to ← entry_time to;
        '(expired, (to, ticks)) ← suspend_and_check to ticks;
        if negb expired then
          empty ← prvIsQueueEmpty;
          preempt;;
          inh ← (if (empty : bool) then
                   inh ← prepare inh; block_on (place_receiver ticks);; mret inh
                 else retry;; mret inh);
          wait_loop fuel take prepare on_timeout inh ticks (Some to)
        else
          retry;;
          empty ← prvIsQueueEmpty;
          preempt;;
          if (empty : bool) then on_timeout inh;; mret (errQUEUE_EMPTY, None)
          else wait_loop fuel take prepare on_timeout inh ticks (Some to)
  end.

(** [has_buffer]: whether [pvBuffer] is not NULL.  The received bytes come
    with the result. *)
Definition xQueueReceive (fuel : nat) (has_buffer : bool) (xTicksToWait : Z)
    : M qstate (Z * option (list Z)) :=
  size ← rdq uxItemSize;
  assert_that (negb (negb has_buffer && negb (size =? 0)));;
  assert_can_wait xTicksToWait;;
  wait_loop fuel receive_now mret (λ _, mret tt) false xTicksToWait None.

(** The critical section of [xQueuePeek] when there is an item. *)
Definition peek_now : M qstate (list Z) :=
  pcOriginalReadPosition ← rdq pcReadFrom;
  bs ← prvCopyDataFromQueue;
  mdq (set_pcReadFrom pcOriginalReadPosition);;
  l ← rdq xTasksWaitingToReceive;
  (if bool_decide (l ≠ []) then
     b ← unblock_receiver; when_ b (kern portYIELD_WITHIN_API)
   else mret tt);;
  mret bs.

Definition xQueuePeek (fuel : nat) (has_buffer : bool) (xTicksToWait : Z)
    : M qstate (Z * option (list Z)) :=
  size ← rdq uxItemSize;
  assert_that (negb (negb has_buffer && negb (size =? 0)));;
  assert_can_wait xTicksToWait;;
  wait_loop fuel peek_now mret (λ _, mret tt) false xTicksToWait None.

(** The critical section of [xQueueSemaphoreTake] when the count is not 0. *)
Definition take_now : M qstate unit :=
  n ← rdq uxMessagesWaiting;
  mdq (set_uxMessagesWaiting (u32 (n - 1)));;
  head ← rdq pcHead;
  when_ (head =? queueQUEUE_IS_MUTEX)
    (h ← kern pvTaskIncrementMutexHeldCount; mdq (set_xMutexHolder h));;
  l ← rdq xTasksWaitingToSend;
  if bool_decide (l ≠ []) then
    b ← unblock_sender; when_ b (kern portYIELD_WITHIN_API)
  else mret tt.

Definition prvGetHighestPriorityOfWaitToReceiveList : M qstate Z :=
  l ← rdq xTasksWaitingToReceive;
  k ← gets snd;
  mret (match l with
        | t :: _ => u32 (configMAX_PRIORITIES - event_item_value k t)
        | [] => tskIDLE_PRIORITY
        end).

(** Before blocking on a mutex, let its holder inherit the priority. *)
Definition inherit (inh : bool) : M qstate bool :=
  head ← rdq pcHead;
  if head =? queueQUEUE_IS_MUTEX then
    holder ← rdq xMutexHolder; kern (xTaskPriorityInherit holder)
  else mret inh.

(** Undo the inheritance when the wait has timed out. *)
Definition disinherit (inh : bool) : M qstate unit :=
  when_ inh
    (p ← prvGetHighestPriorityOfWaitToReceiveList;
     holder ← rdq xMutexHolder;
     kern (vTaskPriorityDisinheritAfterTimeout holder p)).

Definition xQueueSemaphoreTake (fuel : nat) (xTicksToWait : Z) : M qstate Z :=
  size ← rdq uxItemSize;
  assert_that (size =? 0);;
  assert_can_wait xTicksToWait;;
  '(r, _) ← wait_loop fuel take_now inherit disinherit false xTicksToWait None;
  mret r.

(** ** Calls from interrupt handlers *)

(** [prvIncrementQueueTxLock] and [prvIncrementQueueRxLock]. *)
Definition prvIncrementQueueTxLock (c : Z) : M qstate unit :=
  n ← kern uxTaskGetNumberOfTasks;
  when_ (c <? n) (assert_that (negb (c =? queueINT8_MAX));; mdq (set_cTxLock (c + 1))).
Definition prvIncrementQueueRxLock (c : Z) : M qstate unit :=
  n ← kern uxTaskGetNumberOfTasks;
  when_ (c <? n) (assert_that (negb (c =? queueINT8_MAX));; mdq (set_cRxLock (c + 1))).

(** Wake a receiver (a sender) unless the queue is locked; the result is
    the new value of [*pxHigherPriorityTaskWoken], [woken] before. *)
Definition wake_receiver_isr (woken : bool) : M qstate bool :=
  c ← rdq cTxLock;
  if c =? queueUNLOCKED then
    l ← rdq xTasksWaitingToReceive;
    if bool_decide (l ≠ []) then
      b ← unblock_receiver; mret (woken || b)
    else mret woken
  else prvIncrementQueueTxLock c;; mret woken.
Definition wake_sender_isr (woken : bool) : M qstate bool :=
  c ← rdq cRxLock;
  if c =? queueUNLOCKED then
    l ← rdq xTasksWaitingToSend;
    if bool_decide (l ≠ []) then
      b ← unblock_sender; mret (woken || b)
    else mret woken
  else prvIncrementQueueRxLock c;; mret woken.

Definition xQueueGenericSendFromISR (pvItemToQueue : option (list Z)) (woken : bool)
    (xCopyPosition : Z) : M qstate (Z * bool) :=
  size ← rdq uxItemSize;
  assert_that (negb (bool_decide (pvItemToQueue = None) && negb (size =? 0)));;
  len ← rdq uxLength;
  assert_that (negb ((xCopyPosition =? queueOVERWRITE) && negb (len =? 1)));;
  n ← rdq uxMessagesWaiting;
  if (n <? len) || (xCopyPosition =? queueOVERWRITE) then
    prvCopyDataToQueue (default [] pvItemToQueue) xCopyPosition;;
    woken ← wake_receiver_isr woken;
    mret (pdPASS, woken)
  else mret (errQUEUE_FULL, woken).

Definition xQueueGiveFromISR (woken : bool) : M qstate (Z * bool) :=
  size ← rdq uxItemSize;
  assert_that (size =? 0);;
  head ← rdq pcHead;
  holder ← rdq xMutexHolder;
  assert_that (negb ((head =? queueQUEUE_IS_MUTEX) && bool_decide (holder ≠ None)));;
  n ← rdq uxMessagesWaiting;
  len ← rdq uxLength;
  if n <? len then
    mdq (set_uxMessagesWaiting (u32 (n + 1)));;
    woken ← wake_receiver_isr woken;
    mret (pdPASS, woken)
  else mret (errQUEUE_FULL, woken).

Definition xQueueReceiveFromISR (has_buffer : bool) (woken : bool)
    : M qstate (Z * option (list Z) * bool) :=
  size ← rdq uxItemSize;
  assert_that (negb (negb has_buffer && negb (size =? 0)));;
  n ← rdq uxMessagesWaiting;
  if 0 <? n then
    bs ← prvCopyDataFromQueue;
    mdq (set_uxMessagesWaiting (u32 (n - 1)));;
    woken ← wake_sender_isr woken;
    mret (pdPASS, Some bs, woken)
  else mret (pdFAIL, None, woken).

Definition xQueuePeekFromISR (has_buffer : bool) : M qstate (Z * option (list Z)) :=
  size ← rdq uxItemSize;
  assert_that (negb (negb has_buffer && negb (size =? 0)));;
  assert_that (negb (size =? 0));;
  n ← rdq uxMessagesWaiting;
  if 0 <? n then
    pcOriginalReadPosition ← rdq pcReadFrom;
    bs ← prvCopyDataFromQueue;
    mdq (set_pcReadFrom pcOriginalReadPosition);;
    mret (pdPASS, Some bs)
  else mret (pdFAIL, None).

(** ** Reset and queries *)

Definition xQueueGenericReset (xNewQueue : bool) : M qstate Z :=
  len ← rdq uxLength;
  size ← rdq uxItemSize;
  head ← rdq pcHead;
  r ← (if (1 <=? len) && (size <=? SIZE_MAX / len) then
         modify (λ s, (Queue head head (head + len * size) (head + (len - 1) * size)
           (xMutexHolder s.1) (xTasksWaitingToSend s.1) (xTasksWaitingToReceive s.1)
           0 len size queueUNLOCKED queueUNLOCKED (storage s.1), s.2));;
         (if xNewQueue then
            mdq (set_xTasksWaitingToSend []);; mdq (set_xTasksWaitingToReceive [])
          else
            l ← rdq xTasksWaitingToSend;
            if bool_decide (l ≠ []) then
              b ← unblock_sender; when_ b (kern portYIELD_WITHIN_API)
            else mret tt);;
         mret pdPASS
       else mret pdFAIL);
  assert_that (negb (r =? pdFAIL));;
  mret r.

Definition uxQueueMessagesWaiting : M qstate Z := rdq uxMessagesWaiting.
Definition uxQueueMessagesWaitingFromISR : M qstate Z := rdq uxMessagesWaiting.
Definition uxQueueSpacesAvailable : M qstate Z :=
  rdq (λ q, u32 (uxLength q - uxMessagesWaiting q)).
Definition xQueueIsQueueEmptyFromISR : M qstate bool :=
  rdq (λ q, uxMessagesWaiting q =? 0).
Definition xQueueIsQueueFullFromISR : M qstate bool :=
  rdq (λ q, uxMessagesWaiting q =? uxLength q).
Definition uxQueueGetQueueItemSize : M qstate Z := rdq uxItemSize.
Definition uxQueueGetQueueLength : M qstate Z := rdq uxLength.
End ops.

(** ** Creation *)

Section create.
Context {K H : Type} `{TaskOps K}.
(** The allocator, and the contents of RAM when a block is handed out. *)
Context (pvPortMalloc : Z → M H Z) (ram : Z → Z).

(** A structure whose members are still to be initialised. *)
Definition raw_queue (len size : Z) (head : Z) (bytes : list Z) : queue :=
  Queue head 0 0 0 None [] [] 0 len size 0 0 bytes.

Definition prvInitialiseNewQueue (uxQueueLength uxItemSize pucQueueStorage pxNewQueue : Z)
    (k : K) : (Z + err) * (queue * K) :=
  let head := if uxItemSize =? 0 then pxNewQueue else pucQueueStorage in
  let bytes := ram <$> seqZ pucQueueStorage (uxQueueLength * uxItemSize) in
  xQueueGenericReset true (raw_queue uxQueueLength uxItemSize head bytes, k).

(** The new queue with its address, or no queue (NULL). *)
Definition xQueueGenericCreate (uxQueueLength uxItemSize : Z) (k : K)
    : M H (option (Z * queue)) :=
  if (0 <? uxQueueLength) && (uxItemSize <=? SIZE_MAX / uxQueueLength) &&
     (uxQueueLength * uxItemSize <=? SIZE_MAX - sizeof_Queue_t)
  then
    pxNewQueue ← pvPortMalloc (sizeof_Queue_t + uxQueueLength * uxItemSize);
    if negb (pxNewQueue =? NULL) then
      match prvInitialiseNewQueue uxQueueLength uxItemSize
              (pxNewQueue + sizeof_Queue_t) pxNewQueue k with
      | (inl _, (q, _)) => mret (Some (pxNewQueue, q))
      | (inr e, _) => fail e
      end
    else mret None
  else fail AssertFailed.

Definition xQueueCreateCountingSemaphore (uxMaxCount uxInitialCount : Z) (k : K)
    : M H (option (Z * queue)) :=
  if negb (uxMaxCount =? 0) && (uxInitialCount <=? uxMaxCount) then
    r ← xQueueGenericCreate uxMaxCount 0 k;
    mret (match r with
          | Some (a, q) => Some (a, set_uxMessagesWaiting uxInitialCount q)
          | None => None
          end)
  else fail AssertFailed.

(** [xSemaphoreCreateBinary()] and [xQueueCreate( n, size )]. *)
Definition xSemaphoreCreateBinary (k : K) : M H (option (Z * queue)) :=
  xQueueGenericCreate 1 0 k.
Definition xQueueCreate (uxQueueLength uxItemSize : Z) (k : K)
    : M H (option (Z * queue)) := xQueueGenericCreate uxQueueLength uxItemSize k.
End create.

(** [xSemaphoreGive( s )], [xSemaphoreTake( s, t )] and
    [xQueueSend( q, item, t )]. *)
Section macros.
Context {K : Type} `{TaskOps K} (others : queue * K → queue * K).
Definition xSemaphoreGive (fuel : nat) : M (queue * K) Z :=
  xQueueGenericSend others fuel None 0 queueSEND_TO_BACK.
Definition xSemaphoreTake (fuel : nat) (xBlockTime : Z) : M (queue * K) Z :=
  xQueueSemaphoreTake others fuel xBlockTime.
Definition xQueueSend (fuel : nat) (item : list Z) (xTicksToWait : Z) : M (queue * K) Z :=
  xQueueGenericSend others fuel (Some item) xTicksToWait queueSEND_TO_BACK.
End macros.
