(* ===== verification/QueueSpec.v ===== *)
(** The queue refines a bounded FIFO of items: the representation relation
    [q_rep] between the queue structure with its ring buffer and the list of
    items in it, kept by every operation, and the theorems on the calls. *)
From stdpp Require Import base tactics numbers list.
From S2P Require Import Prelude Words Sched Queue.

(** ** Slots of the storage area *)

Definition slot (s : nat) (l : list Z) (k : nat) : list Z := take s (drop (k * s) l).

Section slots.
Context (s len : nat) (l : list Z) (Hl : length l = (len * s)%nat).

Lemma length_slot k : (k < len)%nat → length (slot s l k) = s.
Proof. intros. unfold slot. rewrite length_take, length_drop. nia. Qed.

Lemma slot_lookup k i : (i < s)%nat → slot s l k !! i = l !! (k * s + i)%nat.
Proof. intros. unfold slot. by rewrite lookup_take_lt, lookup_drop. Qed.

Lemma slot_write_same k bs :
  (k < len)%nat → length bs = s → slot s (list_inserts (k * s) bs l) k = bs.
Proof using Hl.
  intros Hk Hbs. unfold slot. apply list_eq. intros i.
  destruct (decide (i < s)%nat) as [Hi|Hi].
  - rewrite lookup_take_lt, lookup_drop by lia.
    rewrite list_lookup_inserts by nia. f_equal. lia.
  - rewrite lookup_take_ge, lookup_ge_None_2 by lia. done.
Qed.

Lemma slot_write_other k j bs :
  (k < len)%nat → (j < len)%nat → j ≠ k → length bs = s →
  slot s (list_inserts (k * s) bs l) j = slot s l j.
Proof using Hl.
  intros Hk Hj Hne Hbs. unfold slot. apply list_eq. intros i.
  destruct (decide (i < s)%nat) as [Hi|Hi].
  - rewrite !lookup_take_lt, !lookup_drop by lia.
    destruct (decide (j < k)%nat).
    + by rewrite list_lookup_inserts_lt by nia.
    + by rewrite list_lookup_inserts_ge by nia.
  - by rewrite !lookup_take_ge by lia.
Qed.
End slots.

(** ** The representation relation *)

(** [a] is [b] reduced to the ring of [len] slots. *)
Definition on_ring (len a b : nat) : Prop :=
  (a < len ∧ (a = b ∨ a + len = b ∨ a + 2 * len = b))%nat.

Lemma on_ring_inj len a a' b : on_ring len a b → on_ring len a' b → a = a'.
Proof. unfold on_ring. lia. Qed.

Lemma on_ring_total len b : (0 < len)%nat → (b < 3 * len)%nat → ∃ a, on_ring len a b.
Proof.
  intros. unfold on_ring. destruct (decide (b < len)%nat); [exists b; lia|].
  destruct (decide (b < 2 * len)%nat); [exists (b - len)%nat|exists (b - 2 * len)%nat]; lia.
Qed.

(** [items] is what the ring holds: item [i] is in the slot [i + 1] after the
    last one read, and the next free slot is right after the last item. *)
Record ring_rep (len size : nat) (head tail wr rd : Z) (st : list Z)
    (items : list (list Z)) : Prop := {
  ring_tail : tail = head + Z.of_nat (len * size);
  ring_storage : length st = (len * size)%nat;
  ring_ptrs : ∃ w r : nat,
    wr = head + Z.of_nat (w * size) ∧ rd = head + Z.of_nat (r * size) ∧ (r < len)%nat ∧
    on_ring len w (r + 1 + length items) ∧
    ∀ i it p, items !! i = Some it → on_ring len p (r + 1 + i) → slot size st p = it
}.

Record q_rep (q : queue) (items : list (list Z)) : Prop := {
  rep_len : 0 < uxLength q < 4294967296;
  rep_size : 0 ≤ uxItemSize q;
  rep_head : 0 < pcHead q;
  rep_count : uxMessagesWaiting q = Z.of_nat (length items);
  rep_bound : Z.of_nat (length items) ≤ uxLength q;
  rep_items : Forall (λ it, Z.of_nat (length it) = uxItemSize q) items;
  rep_ring : uxItemSize q ≠ 0 →
    ring_rep (Z.to_nat (uxLength q)) (Z.to_nat (uxItemSize q)) (pcHead q) (pcTail q)
      (pcWriteTo q) (pcReadFrom q) (storage q) items
}.

(** What [q_rep] depends on, and what no operation but creation changes. *)
Definition q_core (q : queue) :=
  (pcHead q, pcWriteTo q, pcTail q, pcReadFrom q, uxMessagesWaiting q, uxLength q,
   uxItemSize q, storage q).
Definition q_config (q : queue) := (pcHead q, uxLength q, uxItemSize q).

Lemma q_rep_core q q' items : q_core q = q_core q' → q_rep q items → q_rep q' items.
Proof.
  destruct q, q'. unfold q_core; simpl. intros Hc [? ? ? ? ? ? Hr]. simpl in *.
  simplify_eq. by split.
Qed.

Lemma q_core_config q q' : q_core q = q_core q' → q_config q = q_config q'.
Proof. destruct q, q'. unfold q_core, q_config. simpl. intros Hc. by simplify_eq. Qed.

Section ring.
Context (len size : nat) (head tail : Z).
Implicit Types items : list (list Z).

Lemma ring_send_back wr rd st items x :
  (0 < size)%nat → (length items < len)%nat → length x = size →
  ring_rep len size head tail wr rd st items →
  ring_rep len size head tail
    (if tail <=? wr + Z.of_nat size then head else wr + Z.of_nat size) rd
    (list_inserts (Z.to_nat (wr - head)) x st) (items ++ [x]).
Proof.
  intros Hs Hn Hx [Htail Hst (w & r & Hw & Hr & Hrl & Hwr & Hit)].
  assert (Hwl : (w < len)%nat) by apply Hwr.
  replace (Z.to_nat (wr - head)) with (w * size)%nat by lia.
  split; [done|by rewrite length_inserts|].
  exists (if decide (S w = len) then 0 else S w)%nat, r.
  rewrite length_app. simpl. split_and!; [|done|done| |].
  - case_decide; destruct (Z.leb_spec tail (wr + Z.of_nat size)); nia.
  - unfold on_ring in *. case_decide; lia.
  - intros i it p Hi Hp. destruct (decide (i = length items)) as [->|Hne].
    + rewrite lookup_app_r, Nat.sub_diag in Hi by lia. simpl in Hi. injection Hi as <-.
      assert (p = w) as -> by (unfold on_ring in *; lia).
      by apply (slot_write_same size len).
    + assert (i < length items)%nat.
      { apply lookup_lt_Some in Hi. rewrite length_app in Hi. simpl in Hi. lia. }
      rewrite lookup_app_l in Hi by lia.
      rewrite (slot_write_other size len) by (done || unfold on_ring in *; lia).
      by apply (Hit i).
Qed.

Lemma ring_send_front wr rd st items x :
  (0 < size)%nat → (length items < len)%nat → length x = size →
  ring_rep len size head tail wr rd st items →
  ring_rep len size head tail wr
    (if rd - Z.of_nat size <? head then tail - Z.of_nat size else rd - Z.of_nat size)
    (list_inserts (Z.to_nat (rd - head)) x st) (x :: items).
Proof.
  intros Hs Hn Hx [Htail Hst (w & r & Hw & Hr & Hrl & Hwr & Hit)].
  replace (Z.to_nat (rd - head)) with (r * size)%nat by lia.
  split; [done|by rewrite length_inserts|].
  exists w, (if decide (r = 0) then len - 1 else r - 1)%nat.
  split_and!; [done| |case_decide; lia| |].
  - case_decide; destruct (Z.ltb_spec (rd - Z.of_nat size) head); nia.
  - simpl. unfold on_ring in *. case_decide; lia.
  - intros [|i] it p Hi Hp; simpl in Hi.
    + injection Hi as <-. assert (p = r) as -> by (unfold on_ring in *; case_decide; lia).
      by apply (slot_write_same size len).
    + pose proof (lookup_lt_Some _ _ _ Hi).
      rewrite (slot_write_other size len)
        by (done || unfold on_ring in *; case_decide; lia).
      apply (Hit i); [done|]. unfold on_ring in *. case_decide; lia.
Qed.

Lemma ring_receive wr rd st x items :
  (0 < size)%nat → (length items < len)%nat →
  ring_rep len size head tail wr rd st (x :: items) →
  let rd' := if tail <=? rd + Z.of_nat size then head else rd + Z.of_nat size in
  ring_rep len size head tail wr rd' st items ∧
  0 ≤ rd' - head ∧ rd' - head + Z.of_nat size ≤ Z.of_nat (length st) ∧
  take size (drop (Z.to_nat (rd' - head)) st) = x.
Proof.
  intros Hs Hlen [Htail Hst (w & r & Hw & Hr & Hrl & Hwr & Hit)] rd'.
  set (r' := (if decide (S r = len) then 0 else S r)%nat).
  assert (Hrd' : rd' = head + Z.of_nat (r' * size)).
  { subst rd' r'. case_decide; destruct (Z.leb_spec tail (rd + Z.of_nat size)); nia. }
  assert (Hr' : (r' < len)%nat) by (subst r'; case_decide; lia).
  clearbody rd'. split_and!; [|nia|nia|].
  - split; [done|done|]. exists w, r'. split_and!; [done|done|done| |].
    + simpl in Hwr. subst r'. unfold on_ring in *. case_decide; lia.
    + intros i it p Hi Hp. pose proof (lookup_lt_Some _ _ _ Hi).
      apply (Hit (S i)); [done|]. subst r'. unfold on_ring in *. case_decide; lia.
  - replace (Z.to_nat (rd' - head)) with (r' * size)%nat by lia.
    apply (Hit 0%nat x r'); [done|]. subst r'. unfold on_ring. case_decide; lia.
Qed.
End ring.

(** ** Symbolic execution of queue code *)

Section queue_wp.
Context {K : Type} `{TaskLaws K}.
Implicit Types (q : queue) (k : K).

Lemma wp_rdq {A} (f : queue → A) (Q : A → queue * K → Prop) q k :
  Q (f q) (q, k) → wp (rdq f) Q (q, k).
Proof. done. Qed.

Lemma wp_mdq f (Q : unit → queue * K → Prop) q k :
  Q tt (f q, k) → wp (mdq f) Q (q, k).
Proof. done. Qed.

Lemma wp_kern {A} (m : M K A) (Q : A → queue * K → Prop) q k :
  wp m (λ a k', Q a (q, k')) k → wp (kern m) Q (q, k).
Proof. intros Hm. unfold kern. by apply wp_zoom. Qed.

Lemma wp_preempt (others : queue * K → queue * K) (Q : unit → queue * K → Prop) (s : queue * K) :
  Q tt (others s) → wp (preempt others) Q s.
Proof. done. Qed.
End queue_wp.

Ltac q_step :=
  lazymatch goal with
  | |- wp (rdq _) _ _ => apply wp_rdq
  | |- wp (mdq _) _ _ => apply wp_mdq
  | |- wp (kern _) _ _ => apply wp_kern
  | |- wp (preempt _) _ _ => apply wp_preempt
  | |- wp (when_ _ _) _ _ => apply wp_when; intros ?
  | |- wp (match ?x with (_, _) => _ end) _ _ => destruct x
  | _ => wp_step
  end.
Ltac q_go := repeat (q_step; cbv beta; cbn [fst snd]).

(** ** The two copying functions *)

Definition enqueue (pos : Z) (x : list Z) (items : list (list Z)) : list (list Z) :=
  if pos =? queueSEND_TO_BACK then items ++ [x]
  else if pos =? queueOVERWRITE then [x]
  else x :: items.

(** The fields the copying functions leave alone. *)
Definition q_aux (q : queue) :=
  (xMutexHolder q, xTasksWaitingToSend q, xTasksWaitingToReceive q, cRxLock q, cTxLock q).

Lemma ring_rep_overwrite size head tail wr rd st y :
  ring_rep 1 size head tail wr rd st [y] → ring_rep 1 size head tail wr rd st [].
Proof.
  intros [Htail Hst (w & r & Hw & Hr & Hrl & Hwr & Hit)]. split; [done|done|].
  exists w, r. split_and!; [done..| |]; [|by intros i it p ?].
  unfold on_ring in *. simpl in *. lia.
Qed.

Lemma ring_rep_write_ok len size head tail wr rd st items :
  (0 < size)%nat → (0 < len)%nat →
  ring_rep len size head tail wr rd st items →
  (0 ≤ wr - head ∧ wr - head + Z.of_nat size ≤ Z.of_nat (length st)) ∧
  (0 ≤ rd - head ∧ rd - head + Z.of_nat size ≤ Z.of_nat (length st)).
Proof.
  intros Hs Hl [Htail Hst (w & r & Hw & Hr & Hrl & Hwr & Hit)].
  assert (w < len)%nat by apply Hwr. split; split; nia.
Qed.

Section copy.
Context {K : Type} `{TaskLaws K}.
Implicit Types (q : queue) (k : K).

Definition send_pos (pos : Z) : Prop :=
  pos = queueSEND_TO_BACK ∨ pos = queueSEND_TO_FRONT ∨ pos = queueOVERWRITE.

(** When a send is allowed: there is room, or the only item of a one-item
    queue (not a semaphore) is overwritten. *)
Definition can_send (pos : Z) (q : queue) (items : list (list Z)) : Prop :=
  (pos ≠ queueOVERWRITE ∧ Z.of_nat (length items) < uxLength q) ∨
  (pos = queueOVERWRITE ∧ uxLength q = 1 ∧ uxItemSize q ≠ 0).

Lemma copy_to_semaphore q k items x pos :
  q_rep q items → uxItemSize q = 0 → can_send pos q items → send_pos pos →
  wp (prvCopyDataToQueue x pos) (λ ret s', ret = false ∧ s'.2 = k ∧
    q_rep s'.1 (enqueue pos [] items) ∧ q_config s'.1 = q_config q ∧
    q_aux s'.1 = q_aux q) (q, k).
Proof.
  intros Hq Hs Hc Hp. destruct Hc as [[Hno Hroom]|(_ & _ & ?)]; [|done].
  unfold prvCopyDataToQueue. q_go; rewrite ?Hs in *; try done.
  { pose proof (rep_head _ _ Hq). unfold queueQUEUE_IS_MUTEX, NULL in *. lia. }
  destruct Hq as [? ? ? Hcnt ? Hit ?]. split_and!; [done..| |done|done].
  assert (Hlen : length (enqueue pos [] items) = S (length items)).
  { unfold enqueue. repeat case_match; try (rewrite length_app; simpl; lia); try done.
    rewrite Z.eqb_eq in *. done. }
  split; simpl; rewrite ?Hlen; try done; try lia.
  - rewrite Hcnt, u32_id by lia. lia.
  - rewrite Hs. unfold enqueue. rewrite Hs in Hit.
    repeat case_match; repeat (apply Forall_app_2 || constructor); done.
Qed.

Lemma mem_write_ok a n x q :
  n ≤ Z.of_nat (length x) → 0 ≤ a - pcHead q →
  a - pcHead q + n ≤ Z.of_nat (length (storage q)) →
  mem_write a n x q =
  Some (set_storage (list_inserts (Z.to_nat (a - pcHead q)) (take (Z.to_nat n) x)
    (storage q)) q).
Proof. intros. unfold mem_write. by rewrite bool_decide_true. Qed.

(** The queue with its ring data replaced. *)
Lemma q_rep_update q items wr rd st n items' :
  q_rep q items → uxItemSize q ≠ 0 →
  n = Z.of_nat (length items') → Z.of_nat (length items') ≤ uxLength q →
  Forall (λ it, Z.of_nat (length it) = uxItemSize q) items' →
  ring_rep (Z.to_nat (uxLength q)) (Z.to_nat (uxItemSize q)) (pcHead q) (pcTail q)
    wr rd st items' →
  q_rep (Queue (pcHead q) wr (pcTail q) rd (xMutexHolder q) (xTasksWaitingToSend q)
    (xTasksWaitingToReceive q) n (uxLength q) (uxItemSize q) (cRxLock q) (cTxLock q) st)
    items'.
Proof. intros [? ? ? ? ? ? ?] ? -> ? ? ?. by split. Qed.

Lemma copy_to_back q k items x :
  q_rep q items → uxItemSize q ≠ 0 → Z.of_nat (length items) < uxLength q →
  uxItemSize q ≤ Z.of_nat (length x) →
  wp (prvCopyDataToQueue x queueSEND_TO_BACK) (λ ret s', ret = false ∧ s'.2 = k ∧
    q_rep s'.1 (items ++ [take (Z.to_nat (uxItemSize q)) x]) ∧
    q_config s'.1 = q_config q ∧ q_aux s'.1 = q_aux q) (q, k).
Proof.
  intros Hq Hs Hroom Hx. pose proof Hq as [Hlen Hsz Hhd Hcnt _ Hit Hring].
  specialize (Hring Hs).
  assert (Hnx : length (take (Z.to_nat (uxItemSize q)) x) = Z.to_nat (uxItemSize q))
    by (rewrite length_take; lia).
  pose proof Hring as Hw. apply ring_rep_write_ok in Hw as [[Ha Hb] _]; [|lia..].
  rewrite Z2Nat.id in Hb by lia.
  eapply ring_send_back in Hring; [|lia|lia|exact Hnx].
  rewrite Z2Nat.id in Hring by lia.
  unfold prvCopyDataToQueue. do 4 (q_step; cbv beta).
  rewrite (proj2 (Z.eqb_neq (uxItemSize q) 0)) by done. simpl (_ =? _).
  cbv iota. repeat (q_step; cbv beta; cbn [fst]).
  eapply wp_of_option; [by apply mem_write_ok|].
  repeat (q_step; cbv beta; cbn [fst]).
  all: cbn in *.
  all: match goal with Hb : (_ <=? _) = _ |- _ => rewrite Hb in Hring end.
  all: split_and!; [done..| |done|done].
  all: cbn; apply (q_rep_update q items); try done.
  all: try (rewrite length_app; cbn [length]; try rewrite u32_id by lia; lia).
  all: apply Forall_app_2; [done|]; constructor; [cbv beta; lia|constructor].
Qed.

Lemma copy_to_front q k items x pos :
  q_rep q items → uxItemSize q ≠ 0 → can_send pos q items →
  send_pos pos → pos ≠ queueSEND_TO_BACK →
  uxItemSize q ≤ Z.of_nat (length x) →
  wp (prvCopyDataToQueue x pos) (λ ret s', ret = false ∧ s'.2 = k ∧
    q_rep s'.1 (enqueue pos (take (Z.to_nat (uxItemSize q)) x) items) ∧
    q_config s'.1 = q_config q ∧ q_aux s'.1 = q_aux q) (q, k).
Proof.
  intros Hq Hs Hroom Hpos Hnb Hx. pose proof Hq as [Hlen Hsz Hhd Hcnt Hbd Hit Hring].
  specialize (Hring Hs).
  assert (Hnx : length (take (Z.to_nat (uxItemSize q)) x) = Z.to_nat (uxItemSize q))
    by (rewrite length_take; lia).
  pose proof Hring as Hw. apply ring_rep_write_ok in Hw as [_ [Ha Hb]]; [|lia..].
  rewrite Z2Nat.id in Hb by lia.
  (* the items that stay, and the count they leave *)
  set (rest := if pos =? queueOVERWRITE then [] else items).
  assert (Hrest : ring_rep (Z.to_nat (uxLength q)) (Z.to_nat (uxItemSize q)) (pcHead q)
    (pcTail q) (pcWriteTo q) (pcReadFrom q) (storage q) rest).
  { subst rest. destruct (Z.eqb_spec pos queueOVERWRITE) as [->|]; [|done].
    destruct Hroom as [[? _]|(_ & Hl & _)]; [done|]. rewrite Hl in *.
    destruct items as [|y [|? ?]]; [done|by apply ring_rep_overwrite in Hring|].
    simpl in Hbd. lia. }
  assert (Hroom' : (length rest < Z.to_nat (uxLength q))%nat).
  { subst rest. destruct (Z.eqb_spec pos queueOVERWRITE) as [->|]; simpl; [lia|].
    destruct Hroom as [[_ ?]|[? _]]; [lia|done]. }
  assert (Henq : enqueue pos (take (Z.to_nat (uxItemSize q)) x) items =
    take (Z.to_nat (uxItemSize q)) x :: rest).
  { unfold enqueue, rest. rewrite (proj2 (Z.eqb_neq pos queueSEND_TO_BACK)) by done.
    by destruct (pos =? queueOVERWRITE). }
  assert (Hcnt' : u32 ((if (pos =? queueOVERWRITE) && (0 <? uxMessagesWaiting q)
                    then uxMessagesWaiting q - 1 else uxMessagesWaiting q) + 1) =
    Z.of_nat (length (take (Z.to_nat (uxItemSize q)) x :: rest))).
  { cbn [length]. subst rest. destruct (Z.eqb_spec pos queueOVERWRITE) as [->|]; simpl.
    - destruct Hroom as [[? _]|(_ & Hl & _)]; [done|]. rewrite Hcnt.
      destruct (Z.ltb_spec 0 (Z.of_nat (length items))); rewrite u32_id; lia.
    - rewrite Hcnt, u32_id; lia. }
  assert (Hrit : Forall (λ it, Z.of_nat (length it) = uxItemSize q)
    (take (Z.to_nat (uxItemSize q)) x :: rest)).
  { constructor; [cbv beta; lia|]. subst rest. by destruct (pos =? queueOVERWRITE). }
  eapply ring_send_front in Hrest; [|lia|exact Hroom'|exact Hnx].
  rewrite Z2Nat.id in Hrest by lia. rewrite Henq.
  unfold prvCopyDataToQueue. do 4 (q_step; cbv beta).
  rewrite (proj2 (Z.eqb_neq (uxItemSize q) 0)) by done.
  rewrite (proj2 (Z.eqb_neq pos queueSEND_TO_BACK)) by done.
  repeat (q_step; cbv beta; cbn [fst]).
  eapply wp_of_option; [by apply mem_write_ok|].
  repeat (q_step; cbv beta; cbn [fst]).
  all: cbn in *.
  all: repeat match goal with Hb : _ = true |- _ => rewrite Hb in * | Hb : _ = false |- _ => rewrite Hb in * end.
  all: cbn in *; split_and!; [done..| |done|done].
  all: cbn; apply (q_rep_update q items); try done; simpl; lia.
Qed.

(** [prvCopyDataToQueue] adds the item where [xPosition] says. *)
Lemma copy_to_spec q k items x pos :
  q_rep q items → can_send pos q items → send_pos pos →
  uxItemSize q ≤ Z.of_nat (length x) →
  wp (prvCopyDataToQueue x pos) (λ ret s', ret = false ∧ s'.2 = k ∧
    q_rep s'.1 (enqueue pos (take (Z.to_nat (uxItemSize q)) x) items) ∧
    q_config s'.1 = q_config q ∧ q_aux s'.1 = q_aux q) (q, k).
Proof.
  intros Hq Hc Hp Hx. destruct (decide (uxItemSize q = 0)) as [Hs|Hs].
  - rewrite Hs. simpl. by apply copy_to_semaphore.
  - destruct (decide (pos = queueSEND_TO_BACK)) as [->|].
    + destruct Hc as [[_ ?]|[? _]]; [|done]. by apply copy_to_back.
    + by apply copy_to_front.
Qed.

(** [prvCopyDataFromQueue] reads the first item and moves the read
    position; the count is the caller's to lower. *)
Lemma copy_from_spec q k x items :
  q_rep q (x :: items) →
  wp prvCopyDataFromQueue (λ bs s', bs = x ∧ s'.2 = k ∧
    q_rep (set_uxMessagesWaiting (uxMessagesWaiting q - 1) s'.1) items ∧
    q_rep (set_pcReadFrom (pcReadFrom q) s'.1) (x :: items) ∧
    uxMessagesWaiting s'.1 = uxMessagesWaiting q ∧
    q_config s'.1 = q_config q ∧ q_aux s'.1 = q_aux q) (q, k).
Proof.
  intros Hq. pose proof Hq as [Hlen Hsz Hhd Hcnt Hbd Hit Hring].
  pose proof (Forall_inv Hit) as Hx. pose proof (Forall_inv_tail Hit) as Hit'.
  simpl in Hx. cbn [length] in Hbd, Hcnt.
  unfold prvCopyDataFromQueue. do 2 (q_step; cbv beta).
  destruct (Z.eqb_spec (uxItemSize q) 0) as [Hs|Hs]; simpl negb; cbv iota.
  - apply wp_ret. rewrite Hs in Hx. destruct x; [|simpl in Hx; lia].
    split_and!; [done|done| | |done..].
    + split; try done; simpl; lia.
    + eapply q_rep_core; [|exact Hq]. by destruct q.
  - specialize (Hring Hs).
    apply ring_receive in Hring as (Hring & Ha & Hb & Hrd); [|lia..].
    rewrite Z2Nat.id in Hring, Ha, Hb, Hrd by lia.
    repeat (q_step; cbv beta; cbn [fst]).
    all: cbn in *.
    all: match goal with Hw : (_ <=? _) = _ |- _ => rewrite Hw in Hring, Ha, Hb, Hrd end.
    all: (eapply wp_of_option; [unfold mem_read; cbn; by rewrite bool_decide_true|]).
    all: split_and!; try done.
    all: try (eapply q_rep_core; [|exact Hq]; by destruct q).
    all: apply (q_rep_update q (x :: items)); try done; lia.
Qed.
End copy.
