(* ===== verification/QueueApi.v ===== *)
(** The queue API against the FIFO specification. *)
From stdpp Require Import base tactics numbers list.
From S2P Require Import Prelude Words Sched Queue QueueSpec.

(** * Calls

    The calls of the queue API against the FIFO specification: sending and
    receiving without waiting, and with a wait during which the other tasks
    and the interrupt handlers may change the queue. *)

Section calls.
Context {K : Type} `{TaskLaws K}.
Implicit Types (q : queue) (k : K) (s : queue * K).

Lemma k_step_live k k' : k_step k k' → k_live k'.
Proof. by intros [? _]. Qed.

Lemma k_step_refl k : k_live k → k_step k k.
Proof. intros. by split. Qed.

(** A step that does not touch the items or the ring. *)
Definition quiet s s' : Prop := q_core s'.1 = q_core s.1 ∧ k_step s.2 s'.2.

(** A step after which the queue is still a queue of the same shape. *)
Definition drift s s' : Prop :=
  q_config s'.1 = q_config s.1 ∧ k_step s.2 s'.2 ∧ ∃ items, q_rep s'.1 items.

Lemma quiet_refl s : k_live s.2 → quiet s s.
Proof. intros. split; [done|by apply k_step_refl]. Qed.

Lemma quiet_trans s1 s2 s3 : quiet s1 s2 → quiet s2 s3 → quiet s1 s3.
Proof.
  intros [Hc1 Hk1] [Hc2 Hk2]. split; [congruence|]. by eapply k_step_trans.
Qed.

Lemma quiet_rep s s' items : quiet s s' → q_rep s.1 items → q_rep s'.1 items.
Proof. intros [Hc _]. by apply q_rep_core. Qed.

Lemma quiet_drift s s' items : quiet s s' → q_rep s.1 items → drift s s'.
Proof.
  intros Hq Hr. split_and!; [|apply Hq|exists items; by eapply quiet_rep].
  symmetry. apply q_core_config. symmetry. apply Hq.
Qed.

Lemma drift_trans s1 s2 s3 : drift s1 s2 → drift s2 s3 → drift s1 s3.
Proof.
  intros (Hc1 & Hk1 & _) (Hc2 & Hk2 & Hr). split_and!; [congruence| |done].
  by eapply k_step_trans.
Qed.

Lemma drift_live s s' : drift s s' → k_live s'.2.
Proof. intros (_ & ? & _). by eapply k_step_live. Qed.

Lemma wp_quiet_bind {A B} (m : M (queue * K) A) (f : A → M (queue * K) B)
    (Q : B → queue * K → Prop) s :
  wp m (λ _ s', quiet s s') s →
  (∀ a s', quiet s s' → wp (f a) Q s') →
  wp (m ≫= f) Q s.
Proof. intros Hm Hf. apply wp_bind. eapply wp_mono; [exact Hm|]. simpl. auto. Qed.

(** *** The scheduler calls leave the items alone *)

Lemma unblock_receiver_quiet q k :
  k_live k → xTasksWaitingToReceive q ≠ [] →
  wp unblock_receiver (λ _ s', quiet (q, k) s') (q, k).
Proof.
  intros Hk Hl. unfold unblock_receiver. q_go.
  destruct (xTasksWaitingToReceive q) as [|t ts]; [done|].
  eapply wp_mono; [by apply remove_event_law|cbv beta]. intros [b l] k' [Hk' _].
  q_go. by split.
Qed.

Lemma unblock_sender_quiet q k :
  k_live k → xTasksWaitingToSend q ≠ [] →
  wp unblock_sender (λ _ s', quiet (q, k) s') (q, k).
Proof.
  intros Hk Hl. unfold unblock_sender. q_go.
  destruct (xTasksWaitingToSend q) as [|t ts]; [done|].
  eapply wp_mono; [by apply remove_event_law|cbv beta]. intros [b l] k' [Hk' _].
  q_go. by split.
Qed.

Lemma kern_quiet {A} (m : M K A) s :
  (∀ k, k_live k → wp m (λ _ k', k_step k k') k) → k_live s.2 →
  wp (kern m) (λ _ s', quiet s s') s.
Proof.
  destruct s as [q k]. intros Hm Hk. apply wp_kern.
  eapply wp_mono; [by apply Hm|cbv beta]. intros a k' ?. by split.
Qed.

Lemma mdq_quiet f s :
  (∀ q, q_core (f q) = q_core q) → k_live s.2 →
  wp (mdq f) (λ _ s', quiet s s') s.
Proof. intros Hf Hk. apply wp_modify. split; [apply Hf|by apply k_step_refl]. Qed.

Lemma when_quiet b (m : M (queue * K) unit) s :
  k_live s.2 → wp m (λ _ s', quiet s s') s → wp (when_ b m) (λ _ s', quiet s s') s.
Proof. intros Hk Hm. apply wp_when; [done|]. intros _. by apply quiet_refl. Qed.

Lemma quiet_live s s' : quiet s s' → k_live s'.2.
Proof. intros [_ ?]. by eapply k_step_live. Qed.

(** Sequencing of quiet code. *)
Lemma quiet_seq {A B} (m : M (queue * K) A) (f : A → M (queue * K) B) s :
  wp m (λ _ s', quiet s s') s →
  (∀ a s', quiet s s' → wp (f a) (λ _ s'', quiet s' s'') s') →
  wp (m ≫= f) (λ _ s', quiet s s') s.
Proof.
  intros Hm Hf. eapply wp_quiet_bind; [exact Hm|]. intros a s' Hs'.
  eapply wp_mono; [by apply Hf|cbv beta]. intros b s'' Hs''. by eapply quiet_trans.
Qed.

Lemma yield_quiet s : k_live s.2 → wp (kern portYIELD_WITHIN_API) (λ _ s', quiet s s') s.
Proof. apply kern_quiet. intros. by apply yield_law. Qed.

Lemma missed_quiet s : k_live s.2 → wp (kern vTaskMissedYield) (λ _ s', quiet s s') s.
Proof. apply kern_quiet. intros. by apply missed_yield_law. Qed.

Lemma unlock_tx_quiet n s : k_live s.2 → wp (unlock_tx n) (λ _ s', quiet s s') s.
Proof.
  revert s. induction n as [|n IH]; intros [q k] Hk; cbn [unlock_tx].
  { by apply wp_ret, quiet_refl. }
  q_go; [|by apply quiet_refl].
  case_bool_decide; [|done].
  eapply wp_mono; [by apply unblock_receiver_quiet|cbv beta]. intros b s1 Hs1.
  apply wp_bind. eapply wp_mono; [apply when_quiet; [by eapply quiet_live|]|cbv beta].
  { apply missed_quiet. by eapply quiet_live. }
  intros [] s2 Hs2. eapply wp_mono; [apply IH; by eapply quiet_live|].
  intros [] s3 Hs3. eauto using quiet_trans.
Qed.

Lemma unlock_rx_quiet n s : k_live s.2 → wp (unlock_rx n) (λ _ s', quiet s s') s.
Proof.
  revert s. induction n as [|n IH]; intros [q k] Hk; cbn [unlock_rx].
  { by apply wp_ret, quiet_refl. }
  q_go; [|by apply quiet_refl].
  case_bool_decide; [|done].
  eapply wp_mono; [by apply unblock_sender_quiet|cbv beta]. intros b s1 Hs1.
  apply wp_bind. eapply wp_mono; [apply when_quiet; [by eapply quiet_live|]|cbv beta].
  { apply missed_quiet. by eapply quiet_live. }
  intros [] s2 Hs2. eapply wp_mono; [apply IH; by eapply quiet_live|].
  intros [] s3 Hs3. eauto using quiet_trans.
Qed.

Lemma rdq_quiet {A} (f : queue → A) s : k_live s.2 → wp (rdq f) (λ _ s', quiet s s') s.
Proof. intros. by apply wp_gets, quiet_refl. Qed.

Lemma unlock_receivers_quiet s : k_live s.2 → wp unlock_receivers (λ _ s', quiet s s') s.
Proof.
  intros Hk. unfold unlock_receivers.
  apply quiet_seq; [by apply rdq_quiet|]; intros tx s1 Q1.
  apply quiet_seq; [by eapply unlock_tx_quiet, quiet_live|]; intros [] s2 Q2.
  by apply mdq_quiet; [|eapply quiet_live].
Qed.

Lemma unlock_senders_quiet s : k_live s.2 → wp unlock_senders (λ _ s', quiet s s') s.
Proof.
  intros Hk. unfold unlock_senders.
  apply quiet_seq; [by apply rdq_quiet|]; intros rx s1 Q1.
  apply quiet_seq; [by eapply unlock_rx_quiet, quiet_live|]; intros [] s2 Q2.
  by apply mdq_quiet; [|eapply quiet_live].
Qed.

Lemma prvLockQueue_quiet s : k_live s.2 → wp prvLockQueue (λ _ s', quiet s s') s.
Proof.
  intros Hk. unfold prvLockQueue.
  apply quiet_seq; [by apply rdq_quiet|]; intros rx s1 H1.
  apply quiet_seq.
  { apply when_quiet; [by eapply quiet_live|]. by apply mdq_quiet; [|eapply quiet_live]. }
  intros [] s2 H2.
  apply quiet_seq; [by eapply rdq_quiet, quiet_live|]; intros tx s3 H3.
  apply when_quiet; [by eapply quiet_live|]. by apply mdq_quiet; [|eapply quiet_live].
Qed.

Lemma place_sender_quiet ticks s : k_live s.2 → wp (place_sender ticks) (λ _ s', quiet s s') s.
Proof.
  intros Hk. unfold place_sender.
  apply quiet_seq; [by apply rdq_quiet|]; intros l s1 H1.
  apply quiet_seq.
  { apply kern_quiet; [|by eapply quiet_live]. intros. by apply place_event_law. }
  intros l' s2 H2. by apply mdq_quiet; [|eapply quiet_live].
Qed.

Lemma place_receiver_quiet ticks s :
  k_live s.2 → wp (place_receiver ticks) (λ _ s', quiet s s') s.
Proof.
  intros Hk. unfold place_receiver.
  apply quiet_seq; [by apply rdq_quiet|]; intros l s1 H1.
  apply quiet_seq.
  { apply kern_quiet; [|by eapply quiet_live]. intros. by apply place_event_law. }
  intros l' s2 H2. by apply mdq_quiet; [|eapply quiet_live].
Qed.

(** The yield decisions at the end of a critical section. *)
Lemma wake_receiver_quiet s :
  k_live s.2 →
  wp (l ← rdq xTasksWaitingToReceive;
      if bool_decide (l ≠ []) then
        b ← unblock_receiver; when_ b (kern portYIELD_WITHIN_API)
      else mret tt) (λ _ s', quiet s s') s.
Proof.
  destruct s as [q k]. intros Hk. q_go; [|by apply quiet_refl].
  case_bool_decide; [|done].
  eapply wp_mono; [by apply unblock_receiver_quiet|cbv beta]. intros b s1 Hs1.
  eapply wp_mono; [apply when_quiet; [by eapply quiet_live|]|cbv beta].
  { by eapply yield_quiet, quiet_live. }
  intros [] s2 Hs2. by eapply quiet_trans.
Qed.

Lemma wake_sender_quiet s :
  k_live s.2 →
  wp (l ← rdq xTasksWaitingToSend;
      if bool_decide (l ≠ []) then
        b ← unblock_sender; when_ b (kern portYIELD_WITHIN_API)
      else mret tt) (λ _ s', quiet s s') s.
Proof.
  destruct s as [q k]. intros Hk. q_go; [|by apply quiet_refl].
  case_bool_decide; [|done].
  eapply wp_mono; [by apply unblock_sender_quiet|cbv beta]. intros b s1 Hs1.
  eapply wp_mono; [apply when_quiet; [by eapply quiet_live|]|cbv beta].
  { by eapply yield_quiet, quiet_live. }
  intros [] s2 Hs2. by eapply quiet_trans.
Qed.

(** *** Critical sections *)

(** The item and its place are accepted by the queue. *)
Definition sendable (pos : Z) (x : list Z) q (items : list (list Z)) : Prop :=
  can_send pos q items ∧ send_pos pos ∧ uxItemSize q ≤ Z.of_nat (length x).

(** The item as stored: the first [uxItemSize] bytes. *)
Definition stored q (x : list Z) : list Z := take (Z.to_nat (uxItemSize q)) x.

Lemma send_now_spec q k items x pos :
  q_rep q items → k_live k → sendable pos x q items →
  wp (send_now x pos) (λ _ s', q_rep s'.1 (enqueue pos (stored q x) items) ∧
    q_config s'.1 = q_config q ∧ k_step k s'.2) (q, k).
Proof.
  intros Hq Hk (Hc & Hp & Hx). unfold send_now. apply wp_bind.
  eapply wp_mono; [by apply copy_to_spec|cbv beta].
  intros y [q1 k1] (-> & Hk1 & Hq1 & Hcf & _). simpl in *. subst k1.
  eapply wp_mono; [by apply wake_receiver_quiet|cbv beta].
  intros [] s2 Hs2. split_and!.
  - by eapply quiet_rep in Hs2.
  - rewrite <-Hcf. symmetry. apply q_core_config. symmetry. apply Hs2.
  - apply Hs2.
Qed.

Lemma receive_now_spec q k x items :
  q_rep q (x :: items) → k_live k →
  wp receive_now (λ bs s', bs = x ∧ q_rep s'.1 items ∧
    q_config s'.1 = q_config q ∧ k_step k s'.2) (q, k).
Proof.
  intros Hq Hk. unfold receive_now. apply wp_bind, wp_rdq, wp_bind.
  eapply wp_mono; [by apply copy_from_spec|cbv beta].
  intros bs [q1 k1] (-> & Hk1 & Hq1 & _ & Hn & Hcf & _). simpl in *. subst k1.
  apply wp_bind, wp_mdq.
  assert (Hu : u32 (uxMessagesWaiting q - 1) = uxMessagesWaiting q - 1).
  { apply u32_id. pose proof (rep_count _ _ Hq). pose proof (rep_bound _ _ Hq).
    pose proof (rep_len _ _ Hq). simpl in *. lia. }
  rewrite Hu. set (q2 := set_uxMessagesWaiting _ _) in *.
  assert (Hcf2 : q_config q2 = q_config q1) by done.
  apply wp_bind, wp_rdq, wp_bind.
  pose proof (wake_sender_quiet (q2, k) Hk) as Hw.
  eapply wp_mono; [exact Hw|cbv beta].
  intros [] s3 Hs3. apply wp_ret. split_and!; [done| | |].
  - by eapply quiet_rep in Hs3.
  - rewrite <-Hcf, <-Hcf2. symmetry. apply q_core_config. symmetry. apply Hs3.
  - apply Hs3.
Qed.

Lemma peek_now_spec q k x items :
  q_rep q (x :: items) → k_live k →
  wp peek_now (λ bs s', bs = x ∧ q_rep s'.1 (x :: items) ∧
    q_config s'.1 = q_config q ∧ k_step k s'.2) (q, k).
Proof.
  intros Hq Hk. unfold peek_now. apply wp_bind, wp_rdq, wp_bind.
  eapply wp_mono; [by apply copy_from_spec|cbv beta].
  intros bs [q1 k1] (-> & Hk1 & _ & Hq1 & Hn & Hcf & _). simpl in *. subst k1.
  apply wp_bind, wp_mdq. set (q2 := set_pcReadFrom _ _) in *.
  assert (Hcf2 : q_config q2 = q_config q1) by done.
  apply wp_bind, wp_rdq, wp_bind.
  eapply wp_mono; [exact (wake_receiver_quiet (q2, k) Hk)|cbv beta].
  intros [] s3 Hs3. apply wp_ret. split_and!; [done| | |].
  - by eapply quiet_rep in Hs3.
  - rewrite <-Hcf, <-Hcf2. symmetry. apply q_core_config. symmetry. apply Hs3.
  - apply Hs3.
Qed.

Lemma take_now_spec q k x items :
  q_rep q (x :: items) → k_live k → uxItemSize q = 0 →
  wp take_now (λ _ s', q_rep s'.1 items ∧
    q_config s'.1 = q_config q ∧ k_step k s'.2) (q, k).
Proof.
  intros Hq Hk Hs. unfold take_now. apply wp_bind, wp_rdq, wp_bind, wp_mdq.
  assert (Hu : u32 (uxMessagesWaiting q - 1) = Z.of_nat (length items)).
  { pose proof (rep_count _ _ Hq). pose proof (rep_bound _ _ Hq).
    pose proof (rep_len _ _ Hq). simpl in *. rewrite u32_id; lia. }
  rewrite Hu. set (q2 := set_uxMessagesWaiting _ _).
  assert (Hq2 : q_rep q2 items).
  { destruct Hq as [? ? ? ? Hb Hit ?]. inversion Hit; subst. simpl in Hb.
    split; simpl; try done; lia. }
  apply wp_bind, wp_rdq, wp_bind.
  rewrite (proj2 (Z.eqb_neq _ _)) by
    (pose proof (rep_head _ _ Hq); unfold queueQUEUE_IS_MUTEX, NULL; simpl; lia).
  simpl when_. apply wp_ret.
  eapply wp_mono; [exact (wake_sender_quiet (q2, k) Hk)|cbv beta].
  intros [] s3 Hs3. split_and!.
  - by eapply quiet_rep in Hs3.
  - change (q_config q) with (q_config q2). symmetry. apply q_core_config. symmetry. apply Hs3.
  - apply Hs3.
Qed.
End calls.

(** ** Calls that may wait *)

Section waiting.
Context {K : Type} `{TaskLaws K} (others : queue * K → queue * K).
Implicit Types (q : queue) (k : K) (s : queue * K).

(** A queue in a running system. *)
Definition ready s : Prop := (∃ items, q_rep s.1 items) ∧ k_live s.2.

(** What the other tasks and the interrupt handlers may do: use the queue
    as a queue, and let time pass. *)
Definition env_ok : Prop := ∀ s, ready s → drift s (others s).
Context (Hothers : env_ok).

Lemma drift_ready s s' : drift s s' → ready s'.
Proof. intros D. split; [apply D|by eapply drift_live]. Qed.

Lemma quiet_ready s s' : quiet s s' → ready s → ready s'.
Proof. intros Q [[items Hr] _]. split; [exists items; by eapply quiet_rep|by eapply quiet_live]. Qed.

Lemma drift_refl s : ready s → drift s s.
Proof. intros [? ?]. split_and!; [done|by apply k_step_refl|done]. Qed.

Lemma ready_drift s s' : quiet s s' → ready s → drift s s'.
Proof. intros Q [[items Hr] _]. by eapply quiet_drift. Qed.

(** [m] leaves the queue a queue. *)
Definition drifts {A} (m : M (queue * K) A) : Prop :=
  ∀ s, ready s → wp m (λ _ s', drift s s') s.

Lemma drifts_bind {A B} (m : M (queue * K) A) (f : A → M (queue * K) B) :
  drifts m → (∀ a, drifts (f a)) → drifts (m ≫= f).
Proof.
  intros Hm Hf s Hs. apply wp_bind. eapply wp_mono; [by apply Hm|cbv beta].
  intros a s1 D1. eapply wp_mono; [by eapply Hf, drift_ready|cbv beta].
  intros b s2 D2. by eapply drift_trans.
Qed.

Lemma drifts_seq {A B} (m : M (queue * K) A) (f : A → M (queue * K) B)
    (Q : B → queue * K → Prop) s0 s :
  drifts m → drift s0 s → (∀ a s', drift s0 s' → wp (f a) Q s') → wp (m ≫= f) Q s.
Proof.
  intros Hm D Hf. apply wp_bind. eapply wp_mono; [by eapply Hm, drift_ready|cbv beta].
  intros a s' D'. by eapply Hf, drift_trans.
Qed.

Lemma drifts_quiet {A} (m : M (queue * K) A) :
  (∀ s, k_live s.2 → wp m (λ _ s', quiet s s') s) → drifts m.
Proof.
  intros Hm s Hs. eapply wp_mono; [apply Hm, Hs|cbv beta]. intros a s' Q.
  by eapply ready_drift.
Qed.

Lemma drifts_kern {A} (m : M K A) :
  (∀ k, k_live k → wp m (λ _ k', k_step k k') k) → drifts (kern m).
Proof. intros. apply drifts_quiet. intros. by apply kern_quiet. Qed.

Lemma drifts_ret {A} (a : A) : drifts (mret a).
Proof. intros s Hs. by apply wp_ret, drift_refl. Qed.

Lemma drifts_rdq {A} (f : queue → A) : drifts (rdq f).
Proof. intros s Hs. by apply wp_gets, drift_refl. Qed.

Lemma drifts_when b (m : M (queue * K) unit) : drifts m → drifts (when_ b m).
Proof. intros Hm s Hs. apply wp_when; [intros; by apply Hm|intros; by apply drift_refl]. Qed.

Lemma drifts_preempt : drifts (preempt others).
Proof using Hothers. intros s Hs. by apply wp_preempt, Hothers. Qed.

Lemma drifts_unlock : drifts (prvUnlockQueue others).
Proof using Hothers.
  unfold prvUnlockQueue.
  apply drifts_bind; [apply drifts_quiet, unlock_receivers_quiet|intros []].
  apply drifts_bind; [apply drifts_preempt|intros []].
  apply drifts_quiet, unlock_senders_quiet.
Qed.

Lemma drifts_retry : drifts (retry others).
Proof using Hothers.
  unfold retry. apply drifts_bind; [apply drifts_unlock|intros []].
  apply drifts_bind; [apply drifts_kern, resume_law|intros _]. apply drifts_preempt.
Qed.

Lemma drifts_block_on place : drifts place → drifts (block_on others place).
Proof using Hothers.
  intros Hp. unfold block_on. apply drifts_bind; [done|intros []].
  apply drifts_bind; [apply drifts_unlock|intros []].
  apply drifts_bind; [apply drifts_kern, resume_law|intros r].
  apply drifts_bind; [apply drifts_when, drifts_kern, yield_law|intros []].
  apply drifts_preempt.
Qed.

Lemma drifts_entry_time to : drifts (entry_time to).
Proof. destruct to; [apply drifts_ret|apply drifts_kern, set_timeout_law]. Qed.

(** The look at the clock: either the wait goes on with less patience left,
    or the ticks are used up. *)
Lemma suspend_and_check_spec to ticks s :
  ready s →
  wp (suspend_and_check others to ticks) (λ '(b, (to', ticks')) s', drift s s' ∧
    (b = true → ticks' = 0) ∧
    (b = false → ticks < portMAX_DELAY → ticks' < portMAX_DELAY ∧
      (k_patience to' ticks' s'.2 < k_patience to ticks s.2)%nat)) s.
Proof using Hothers.
  intros Hs. unfold suspend_and_check.
  eapply drifts_seq; [apply drifts_preempt|by apply drift_refl|]. intros [] s1 D1.
  eapply drifts_seq; [apply drifts_kern, suspend_law|exact D1|]. intros [] s2 D2.
  eapply drifts_seq; [apply drifts_preempt|exact D2|]. intros [] s3 D3.
  eapply drifts_seq; [apply drifts_quiet, prvLockQueue_quiet|exact D3|]. intros [] s4 D4.
  eapply drifts_seq; [apply drifts_preempt|exact D4|]. intros [] [q5 k5] Hd.
  apply wp_kern.
  eapply wp_mono; [by eapply check_timeout_law, (drift_live s (q5, k5))|].
  intros [b [to' ticks']] k6 (Hk6 & Hexp & Hp). destruct Hd as (Hc & Hk & Hr).
  cbn [fst snd] in *. split_and!; [|done|].
  - split_and!; [done| |done]. by eapply k_step_trans.
  - intros Hb Ht. destruct (Hp Hb Ht) as [? ?]. split; [done|].
    destruct Hk as [_ Hpat]. specialize (Hpat to ticks). simpl in *. lia.
Qed.
End waiting.

(** * Call by call

    The queue API, call by call: every call returns, and what it returns and
    does is what a bounded FIFO does. *)

(** The item may be sent to such a queue: a position the API knows, enough
    bytes, and overwriting only a one-item queue that is not a semaphore. *)
Definition accepts (pos : Z) (x : list Z) (q : queue) : Prop :=
  send_pos pos ∧ uxItemSize q ≤ Z.of_nat (length x) ∧
  (pos = queueOVERWRITE → uxLength q = 1 ∧ uxItemSize q ≠ 0).

Lemma accepts_config pos x q q' : q_config q = q_config q' → accepts pos x q → accepts pos x q'.
Proof. destruct q, q'. unfold accepts, q_config. simpl. intros. by simplify_eq. Qed.

Definition has_room (pos : Z) (q : queue) (items : list (list Z)) : Prop :=
  Z.of_nat (length items) < uxLength q ∨ pos = queueOVERWRITE.
#[export] Instance has_room_dec pos q items : Decision (has_room pos q items).
Proof. unfold has_room. apply _. Defined.

Lemma accepts_sendable pos x q items :
  accepts pos x q → has_room pos q items → sendable pos x q items.
Proof.
  intros (Hp & Hx & Hov) Hr. split_and!; [|done|done].
  destruct (decide (pos = queueOVERWRITE)) as [->|].
  - right. split; [done|]. by apply Hov.
  - left. destruct Hr; [|done]. done.
Qed.

Lemma room_test pos q items :
  q_rep q items →
  (uxMessagesWaiting q <? uxLength q) || (pos =? queueOVERWRITE) =
  bool_decide (has_room pos q items).
Proof.
  intros Hq. rewrite (rep_count _ _ Hq). unfold has_room.
  destruct (Z.ltb_spec (Z.of_nat (length items)) (uxLength q)); simpl.
  - symmetry. apply bool_decide_eq_true. by left.
  - destruct (Z.eqb_spec pos queueOVERWRITE); symmetry.
    + apply bool_decide_eq_true. by right.
    + apply bool_decide_eq_false. lia.
Qed.

(** ** Sending *)

Section send.
Context {K : Type} `{TaskLaws K} (others : queue * K → queue * K).
Implicit Types (q : queue) (k : K) (s : queue * K).

(** The item has gone into the queue [sm], which the call found with room. *)
Definition sent (pos : Z) (x : list Z) s s' : Prop :=
  ∃ sm items, drift s sm ∧ q_rep sm.1 items ∧ has_room pos sm.1 items ∧
    q_rep s'.1 (enqueue pos (stored sm.1 x) items) ∧
    q_config s'.1 = q_config sm.1 ∧ k_step sm.2 s'.2.

Definition send_outcome (pos : Z) (x : list Z) s (r : Z) s' : Prop :=
  (r = pdPASS ∧ sent pos x s s') ∨ (r = errQUEUE_FULL ∧ drift s s').

Lemma sent_drift pos x s s1 s' : drift s s1 → sent pos x s1 s' → sent pos x s s'.
Proof.
  intros D (sm & items & Dm & Hrest). exists sm, items. split; [|done]. by eapply drift_trans.
Qed.

Lemma outcome_drift pos x s s1 r s' :
  drift s s1 → send_outcome pos x s1 r s' → send_outcome pos x s r s'.
Proof.
  intros D [[? ?]|[? ?]]; [left|right]; (split; [done|]);
    [by eapply sent_drift|by eapply drift_trans].
Qed.

(** One pass that finds room. *)
Lemma send_loop_room fuel x pos ticks to q k items :
  q_rep q items → k_live k → accepts pos x q → has_room pos q items →
  wp (send_loop others (Datatypes.S fuel) x pos ticks to)
    (λ r s', r = pdPASS ∧ q_rep s'.1 (enqueue pos (stored q x) items) ∧
      q_config s'.1 = q_config q ∧ k_step k s'.2) (q, k).
Proof.
  intros Hq Hk Ha Hr. cbn [send_loop]. do 2 (apply wp_bind, wp_rdq).
  rewrite (room_test pos q items), bool_decide_true by done.
  apply wp_bind. eapply wp_mono; [by apply send_now_spec, accepts_sendable|cbv beta].
  intros [] s' (? & ? & ?). by apply wp_ret.
Qed.

(** One pass that finds the queue full and may not wait. *)
Lemma send_loop_full fuel x pos to q k items :
  q_rep q items → ¬ has_room pos q items →
  send_loop others (Datatypes.S fuel) x pos 0 to (q, k) = (inl errQUEUE_FULL, (q, k)).
Proof.
  intros Hq Hr. cbn [send_loop]. unfold rdq, gets, mbind, M_bind. cbn [fst].
  rewrite (room_test pos q items), bool_decide_false by done. done.
Qed.

Context (Hothers : env_ok others).

Lemma drifts_full : drifts prvIsQueueFull.
Proof.
  unfold prvIsQueueFull. repeat (apply drifts_bind; [apply drifts_rdq|intros ?]).
  apply drifts_ret.
Qed.

(** A pass of the loop from the check of the clock on, given the rest. *)
Lemma send_wait_step fuel x pos ticks to s :
  ready s → accepts pos x s.1 → ticks < portMAX_DELAY →
  (∀ ticks' to' s', drift s s' → ticks' < portMAX_DELAY →
    (k_patience to' ticks' s'.2 < k_patience to ticks s.2)%nat →
    wp (send_loop others fuel x pos ticks' (Some to')) (send_outcome pos x s') s') →
  wp ('(expired, (to, ticks)) ← suspend_and_check others to ticks;
      if negb expired then
        full ← prvIsQueueFull;
        preempt others;;
        (if (full : bool) then block_on others (place_sender ticks) else retry others);;
        send_loop others fuel x pos ticks (Some to)
      else retry others;; mret errQUEUE_FULL) (send_outcome pos x s) s.
Proof using Hothers.
  intros Hs Ha Ht IH. apply wp_bind.
  eapply wp_mono; [by apply suspend_and_check_spec|cbv beta].
  intros [b [to' ticks']] s1 (D1 & _ & Hp). destruct b; simpl negb; cbv iota.
  { eapply drifts_seq; [by apply drifts_retry|exact D1|]. intros [] s2 D2.
    apply wp_ret. by right. }
  destruct (Hp eq_refl Ht) as [Ht' Hpat]. pose proof (drift_refl _ (drift_ready _ _ D1)) as R1.
  eapply drifts_seq; [apply drifts_full|exact R1|]. intros full s2 D2.
  eapply drifts_seq; [by apply drifts_preempt|exact D2|]. intros [] s3 D3.
  eapply drifts_seq; [|exact D3|].
  { destruct full; [by apply drifts_block_on, drifts_quiet, place_sender_quiet|].
    by apply drifts_retry. }
  intros [] s4 D4. eapply wp_mono; [apply IH; [by eapply drift_trans|done|]|].
  - pose proof D4 as (_ & [_ Hle] & _). specialize (Hle to' ticks'). lia.
  - intros r s'. by apply outcome_drift, (drift_trans _ s1).
Qed.

(** With the entry time set, one pass more than the patience is enough. *)
Lemma send_loop_waits n : ∀ fuel x pos ticks to s,
  (k_patience to ticks s.2 < n)%nat → (n ≤ fuel)%nat →
  ready s → accepts pos x s.1 → ticks < portMAX_DELAY →
  wp (send_loop others fuel x pos ticks (Some to)) (send_outcome pos x s) s.
Proof using Hothers.
  induction n as [|n IH]; intros fuel x pos ticks to s Hn Hf Hs Ha Ht; [lia|].
  destruct fuel as [|fuel]; [lia|]. pose proof Hs as [[items Hr] Hk]. destruct s as [q k].
  destruct (decide (has_room pos q items)) as [Hroom|Hroom].
  { eapply wp_mono; [by eapply send_loop_room|cbv beta]. intros r s' (-> & ? & ? & ?).
    left. split; [done|]. exists (q, k), items. split_and!; try done. by apply drift_refl. }
  destruct (decide (ticks = 0)) as [->|Hne].
  { unfold wp. erewrite send_loop_full by done. right. split; [done|]. by apply drift_refl. }
  cbn [send_loop]. do 2 (apply wp_bind, wp_rdq).
  rewrite (room_test pos q items), bool_decide_false by done.
  rewrite (proj2 (Z.eqb_neq _ _)) by done. apply wp_bind. cbn [entry_time]. apply wp_ret.
  apply send_wait_step; [done..|]. intros ticks' to' s' D Ht' Hlt.
  apply IH; try done; [lia|lia|by eapply drift_ready|].
  eapply accepts_config; [|done]. symmetry. apply D.
Qed.

Lemma send_loop_starts x pos ticks s :
  ready s → accepts pos x s.1 → ticks < portMAX_DELAY →
  ∃ N, ∀ fuel, (N ≤ fuel)%nat →
    wp (send_loop others fuel x pos ticks None) (send_outcome pos x s) s.
Proof using Hothers.
  intros Hs Ha Ht. pose proof Hs as [[items Hr] Hk]. destruct s as [q k].
  destruct (wp_inv _ _ _ (drifts_entry_time None (q, k) Hs)) as (to & s1 & He & D1).
  exists (Datatypes.S (Datatypes.S (k_patience to ticks s1.2))). intros [|fuel] Hf; [lia|].
  destruct (decide (has_room pos q items)) as [Hroom|Hroom].
  { eapply wp_mono; [by eapply send_loop_room|cbv beta]. intros r s' (-> & ? & ? & ?).
    left. split; [done|]. exists (q, k), items. split_and!; try done. by apply drift_refl. }
  destruct (decide (ticks = 0)) as [->|Hne].
  { unfold wp. erewrite send_loop_full by done. right. split; [done|]. by apply drift_refl. }
  cbn [send_loop]. do 2 (apply wp_bind, wp_rdq).
  rewrite (room_test pos q items), bool_decide_false by done.
  rewrite (proj2 (Z.eqb_neq _ _)) by done. apply wp_bind.
  eapply wp_run; [exact He|]. eapply wp_mono; [|intros r s'; by apply outcome_drift].
  assert (Ha1 : accepts pos x s1.1).
  { eapply accepts_config; [|exact Ha]. symmetry. apply D1. }
  apply send_wait_step; [by eapply drift_ready|done|done|]. intros ticks' to' s' D Ht' Hlt.
  apply (send_loop_waits (Datatypes.S (k_patience to' ticks' s'.2)));
    try done; [lia|lia|by eapply drift_ready|].
  eapply accepts_config; [|exact Ha1]. symmetry. apply D.
Qed.
End send.

(** ** Waiting for an item *)

Section wait.
Context {K : Type} `{TaskLaws K} (others : queue * K → queue * K).
Implicit Types (q : queue) (k : K) (s : queue * K).

(** The three calls differ in their critical section: [took a x rest] says
    what the section returns for a queue [x :: rest], and [left_ x rest] the
    items it leaves. *)
Context {A : Type} (took : A → list Z → Prop)
  (left_ : list Z → list (list Z) → list (list Z)) (kind : queue → Prop).

Definition takes_spec (take : M (queue * K) A) : Prop :=
  ∀ q k x items, q_rep q (x :: items) → k_live k → kind q →
    wp take (λ a s', took a x ∧ q_rep s'.1 (left_ x items) ∧
      q_config s'.1 = q_config q ∧ k_step k s'.2) (q, k).

(** The item was the first of the queue [sm], which the call found not to
    be empty. *)
Definition received (a : A) s s' : Prop :=
  ∃ sm x items, drift s sm ∧ q_rep sm.1 (x :: items) ∧ took a x ∧
    q_rep s'.1 (left_ x items) ∧ q_config s'.1 = q_config sm.1 ∧ k_step sm.2 s'.2.

Definition wait_outcome s (r : Z * option A) s' : Prop :=
  (∃ a, r = (pdPASS, Some a) ∧ received a s s') ∨
  (r = (errQUEUE_EMPTY, None) ∧ drift s s').

Lemma wait_outcome_drift s s1 r s' :
  drift s s1 → wait_outcome s1 r s' → wait_outcome s r s'.
Proof.
  intros D [(a & ? & sm & x & items & Dm & Hrest)|[? ?]]; [left|right].
  - exists a. split; [done|]. exists sm, x, items. split; [|done]. by eapply drift_trans.
  - split; [done|]. by eapply drift_trans.
Qed.

Context (take : M (queue * K) A) (prepare : bool → M (queue * K) bool)
  (on_timeout : bool → M (queue * K) unit) (Htake : takes_spec take).

Lemma count_test q items :
  q_rep q items → (0 <? uxMessagesWaiting q) = bool_decide (items ≠ []).
Proof. intros Hq. rewrite (rep_count _ _ Hq). by destruct items. Qed.

Lemma wait_loop_item fuel inh ticks to q k x items :
  q_rep q (x :: items) → k_live k → kind q →
  wp (wait_loop others (Datatypes.S fuel) take prepare on_timeout inh ticks to)
    (λ r s', ∃ a, r = (pdPASS, Some a) ∧ took a x ∧ q_rep s'.1 (left_ x items) ∧
      q_config s'.1 = q_config q ∧ k_step k s'.2) (q, k).
Proof using Htake.
  intros Hq Hk Hkd. cbn [wait_loop]. apply wp_bind, wp_rdq.
  rewrite (count_test q (x :: items)), bool_decide_true by done.
  apply wp_bind. eapply wp_mono; [by apply Htake|cbv beta].
  intros a s' ?. apply wp_ret. by exists a.
Qed.

Lemma wait_loop_empty fuel inh to q k :
  q_rep q [] →
  wait_loop others (Datatypes.S fuel) take prepare on_timeout inh 0 to (q, k) =
  (inl (errQUEUE_EMPTY, None), (q, k)).
Proof.
  intros Hq. cbn [wait_loop]. unfold rdq, gets, mbind, M_bind. cbn [fst].
  by rewrite (count_test q []), bool_decide_false by naive_solver.
Qed.

(** One pass: the item is taken, the call gives up, or it looks at the
    clock. *)
Lemma wait_loop_step fuel inh ticks to s :
  ready s → kind s.1 →
  (ticks ≠ 0 → wp (to ← entry_time to;
      '(expired, (to, ticks)) ← suspend_and_check others to ticks;
      if negb expired then
        empty ← prvIsQueueEmpty;
        preempt others;;
        inh ← (if (empty : bool) then
                 inh ← prepare inh;
                 block_on others (place_receiver ticks);; mret inh
               else retry others;; mret inh);
        wait_loop others fuel take prepare on_timeout inh ticks (Some to)
      else
        retry others;;
        empty ← prvIsQueueEmpty;
        preempt others;;
        if (empty : bool) then on_timeout inh;; mret (errQUEUE_EMPTY, None)
        else wait_loop others fuel take prepare on_timeout inh ticks (Some to))
    (wait_outcome s) s) →
  wp (wait_loop others (Datatypes.S fuel) take prepare on_timeout inh ticks to)
    (wait_outcome s) s.
Proof using Htake.
  intros Hs Hkd Hwait. pose proof Hs as [[items Hr] Hk]. destruct s as [q k].
  destruct items as [|x items].
  - destruct (decide (ticks = 0)) as [->|Hne].
    { unfold wp. rewrite wait_loop_empty by done. right. split; [done|]. by apply drift_refl. }
    cbn [wait_loop]. apply wp_bind, wp_rdq.
    rewrite (count_test q []), bool_decide_false by naive_solver.
    rewrite (proj2 (Z.eqb_neq _ _)) by done. by apply Hwait.
  - eapply wp_mono; [by eapply wait_loop_item|cbv beta].
    intros r s' (a & -> & ? & ? & ? & ?). left. exists a. split; [done|].
    exists (q, k), x, items. split_and!; try done. by apply drift_refl.
Qed.

Context (Hothers : env_ok others).
(** No mutex, so no inheritance: [inh] stays false. *)
Context (Hprep : ∀ s, ready s → wp (prepare false) (λ inh s', inh = false ∧ drift s s') s).
Context (Hgive : drifts (on_timeout false)).
Context (Hkind : ∀ q q', q_config q = q_config q' → kind q → kind q').

Lemma drifts_empty : drifts prvIsQueueEmpty.
Proof. apply drifts_bind; [apply drifts_rdq|intros ?]. apply drifts_ret. Qed.

Lemma wait_kind s s' : drift s s' → kind s.1 → kind s'.1.
Proof using Hkind. intros D. eapply Hkind. symmetry. apply D. Qed.

Lemma wait_tail fuel ticks to s :
  ready s → kind s.1 → ticks < portMAX_DELAY → (0 < fuel)%nat →
  (∀ ticks' to' s', drift s s' → ticks' < portMAX_DELAY →
    (k_patience to' ticks' s'.2 < k_patience to ticks s.2)%nat →
    wp (wait_loop others fuel take prepare on_timeout false ticks' (Some to'))
      (wait_outcome s') s') →
  wp ('(expired, (to, ticks)) ← suspend_and_check others to ticks;
      if negb expired then
        empty ← prvIsQueueEmpty;
        preempt others;;
        inh ← (if (empty : bool) then
                 inh ← prepare false;
                 block_on others (place_receiver ticks);; mret inh
               else retry others;; mret false);
        wait_loop others fuel take prepare on_timeout inh ticks (Some to)
      else
        retry others;;
        empty ← prvIsQueueEmpty;
        preempt others;;
        if (empty : bool) then on_timeout false;; mret (errQUEUE_EMPTY, None)
        else wait_loop others fuel take prepare on_timeout false ticks (Some to))
    (wait_outcome s) s.
Proof using All.
  intros Hs Hkd Ht Hf IH. apply wp_bind.
  eapply wp_mono; [by apply suspend_and_check_spec|cbv beta].
  intros [b [to' ticks']] s1 (D1 & Hz & Hp).
  pose proof (drift_refl _ (drift_ready _ _ D1)) as R1. destruct b; simpl negb; cbv iota.
  - rewrite (Hz eq_refl). eapply drifts_seq; [by apply drifts_retry|exact D1|]. intros [] s2 D2.
    eapply drifts_seq; [apply drifts_empty|exact D2|]. intros e s3 D3.
    eapply drifts_seq; [by apply drifts_preempt|exact D3|]. intros [] s4 D4. destruct e.
    + eapply drifts_seq; [apply Hgive|exact D4|]. intros [] s5 D5. apply wp_ret. by right.
    + destruct fuel as [|fuel]; [lia|].
      eapply wp_mono; [|intros r s'; by apply (wait_outcome_drift s s4)].
      apply wait_loop_step; [by eapply drift_ready|by eapply wait_kind|done].
  - destruct (Hp eq_refl Ht) as [Ht' Hpat].
    eapply drifts_seq; [apply drifts_empty|exact R1|]. intros e s2 D2.
    eapply drifts_seq; [by apply drifts_preempt|exact D2|]. intros [] s3 D3.
    apply wp_bind. apply wp_mono with (P := λ inh s', inh = false ∧ drift s1 s').
    { destruct e.
      - apply wp_bind. eapply wp_mono; [by eapply Hprep, drift_ready|cbv beta].
        intros ? s4 [-> D4].
        eapply (drifts_seq _ _ _ s1); [|by eapply drift_trans|intros [] s5 D5; by apply wp_ret].
        apply drifts_block_on; [done|]. apply drifts_quiet, place_receiver_quiet.
      - eapply drifts_seq; [by apply drifts_retry|exact D3|intros [] s5 D5; by apply wp_ret]. }
    intros inh' s4 [-> D4]. eapply wp_mono; [apply IH; [by eapply drift_trans|done|]|].
    + pose proof D4 as (_ & [_ Hle] & _). specialize (Hle to' ticks'). lia.
    + intros r s'. by apply wait_outcome_drift, (drift_trans _ s1).
Qed.

(** Two passes more than the patience are enough: one may follow expiry. *)
Lemma wait_loop_waits n : ∀ fuel ticks to s,
  (k_patience to ticks s.2 < n)%nat → (n < fuel)%nat →
  ready s → kind s.1 → ticks < portMAX_DELAY →
  wp (wait_loop others fuel take prepare on_timeout false ticks (Some to)) (wait_outcome s) s.
Proof using All.
  induction n as [|n IH]; intros fuel ticks to s Hn Hf Hs Hkd Ht; [lia|].
  destruct fuel as [|fuel]; [lia|]. apply wait_loop_step; [done..|]. intros _.
  apply wp_bind. cbn [entry_time]. apply wp_ret. apply wait_tail; [done..|lia|].
  intros ticks' to' s' D Ht' Hlt.
  apply IH; try done; [lia|lia|by eapply drift_ready|by eapply wait_kind].
Qed.

Lemma wait_loop_starts ticks s :
  ready s → kind s.1 → ticks < portMAX_DELAY →
  ∃ N, ∀ fuel, (N ≤ fuel)%nat →
    wp (wait_loop others fuel take prepare on_timeout false ticks None) (wait_outcome s) s.
Proof using All.
  intros Hs Hkd Ht.
  destruct (wp_inv _ _ _ (drifts_entry_time None s Hs)) as (to & s1 & He & D1).
  exists (3 + k_patience to ticks s1.2)%nat. intros [|fuel] Hf; [lia|].
  apply wait_loop_step; [done..|]. intros _. apply wp_bind. eapply wp_run; [exact He|].
  eapply wp_mono; [|intros r s'; by apply (wait_outcome_drift s s1)].
  apply wait_tail; [by eapply drift_ready|by eapply wait_kind|done|lia|].
  intros ticks' to' s' D Ht' Hlt.
  apply (wait_loop_waits (Datatypes.S (k_patience to' ticks' s'.2)));
    try done; [lia|lia|by eapply drift_ready|].
  by eapply wait_kind, (wait_kind s s1).
Qed.
End wait.

(** ** The calls *)

Section api.
Context {K : Type} `{TaskLaws K} (others : queue * K → queue * K).
Implicit Types (q : queue) (k : K) (s : queue * K).

(** A wait is only allowed while the scheduler runs. *)
Definition may_wait (ticks : Z) s : Prop := scheduler_suspended s.2 = false ∨ ticks = 0.

(** The pointer handed to a send, and the item it stands for. *)
Definition item_ok (pv : option (list Z)) q : Prop := pv = None → uxItemSize q = 0.

Lemma assert_can_wait_ok {B} ticks (m : M (queue * K) B) (Q : B → queue * K → Prop) s :
  may_wait ticks s → wp m Q s → wp (assert_can_wait ticks;; m) Q s.
Proof.
  intros Hw Hm. unfold assert_can_wait. apply wp_bind, wp_bind, wp_gets.
  apply wp_assert; [|done]. destruct Hw as [-> | ->]; [done|]. by rewrite andb_false_r.
Qed.

Lemma xQueueGenericSend_enter fuel pv ticks pos (Q : Z → queue * K → Prop) s :
  item_ok pv s.1 → accepts pos (default [] pv) s.1 → may_wait ticks s →
  wp (send_loop others fuel (default [] pv) pos ticks None) Q s →
  wp (xQueueGenericSend others fuel pv ticks pos) Q s.
Proof.
  destruct s as [q k]. intros Hi (_ & _ & Hov) Hw Hl. unfold xQueueGenericSend.
  apply wp_bind, wp_rdq, wp_bind, wp_assert.
  { destruct pv; [done|]. specialize (Hi eq_refl). simpl in Hi |- *. by rewrite Hi. }
  apply wp_bind, wp_rdq, wp_bind, wp_assert; [|by apply assert_can_wait_ok].
  destruct (Z.eqb_spec pos queueOVERWRITE); [|done]. simpl.
  destruct Hov as [Hl1 _]; [done|]. simpl in Hl1. by rewrite Hl1.
Qed.

Lemma xQueueReceive_enter fuel buf ticks (Q : _ → queue * K → Prop) s :
  (buf = false → uxItemSize s.1 = 0) → may_wait ticks s →
  wp (wait_loop others fuel receive_now mret (λ _, mret tt) false ticks None) Q s →
  wp (xQueueReceive others fuel buf ticks) Q s.
Proof.
  destruct s as [q k]. intros Hb Hw Hl. unfold xQueueReceive.
  apply wp_bind, wp_rdq, wp_bind, wp_assert; [|by apply assert_can_wait_ok].
  destruct buf; [done|]. specialize (Hb eq_refl). simpl in Hb |- *. by rewrite Hb.
Qed.

Lemma xQueuePeek_enter fuel buf ticks (Q : _ → queue * K → Prop) s :
  (buf = false → uxItemSize s.1 = 0) → may_wait ticks s →
  wp (wait_loop others fuel peek_now mret (λ _, mret tt) false ticks None) Q s →
  wp (xQueuePeek others fuel buf ticks) Q s.
Proof.
  destruct s as [q k]. intros Hb Hw Hl. unfold xQueuePeek.
  apply wp_bind, wp_rdq, wp_bind, wp_assert; [|by apply assert_can_wait_ok].
  destruct buf; [done|]. specialize (Hb eq_refl). simpl in Hb |- *. by rewrite Hb.
Qed.

Lemma receive_takes : takes_spec eq (λ _ l, l) (λ _, True) receive_now.
Proof. intros q k x items ? ? _. by apply receive_now_spec. Qed.

Lemma peek_takes : takes_spec eq cons (λ _, True) peek_now.
Proof. intros q k x items ? ? _. by apply peek_now_spec. Qed.

Lemma take_takes :
  takes_spec (λ _ _, True) (λ _ l, l) (λ q, uxItemSize q = 0) take_now.
Proof.
  intros q k x items Hq Hk Hs. eapply wp_mono; [by apply (take_now_spec q k x items)|].
  intros [] s' ?. done.
Qed.

Lemma inherit_drifts inh s :
  ready s → wp (inherit inh) (λ inh' s', inh' = inh ∧ drift s s') s.
Proof.
  destruct s as [q k]. intros Hs. unfold inherit. apply wp_bind, wp_rdq.
  destruct Hs as [[items Hr] Hk]. pose proof (rep_head _ _ Hr) as Hh.
  rewrite (proj2 (Z.eqb_neq _ _)) by (unfold queueQUEUE_IS_MUTEX, NULL; simpl in *; lia).
  apply wp_ret. split; [done|]. apply drift_refl. split; [by exists items|done].
Qed.
End api.
