(* ===== verification/QueueRefine.v ===== *)
(** Timed calls of the queue API, and the refinement of a bounded FIFO. *)
From stdpp Require Import base tactics numbers list.
From S2P Require Import Prelude Words Sched Queue QueueSpec QueueApi.

(** * Timed calls

    Timed calls of the queue API: while other tasks and interrupt handlers use
    the queue at every point where interrupts are enabled, a call with a finite
    wait returns, either having done its work on the queue as it found it or
    having timed out.  Each theorem is instantiated with a clock, a queue in
    memory, and another task that takes an item away at every opportunity. *)

Section timed.
Context {K : Type} `{TaskLaws K} (others : queue * K → queue * K).
Context (Hothers : env_ok others).
Implicit Types (q : queue) (k : K) (s : queue * K).

(** C9: a send with a finite wait returns.  It either puts the item into
    the queue as some state in between found it, with room, or reports
    errQUEUE_FULL and has sent nothing. *)
Theorem xQueueGenericSend_timed pv ticks pos s :
  ready s → item_ok pv s.1 → accepts pos (default [] pv) s.1 →
  may_wait ticks s → ticks < portMAX_DELAY →
  ∃ N, ∀ fuel, (N ≤ fuel)%nat →
    wp (xQueueGenericSend others fuel pv ticks pos)
      (send_outcome pos (default [] pv) s) s.
Proof using Hothers.
  intros Hs Hi Ha Hw Ht.
  destruct (send_loop_starts others Hothers (default [] pv) pos ticks s) as [N HN]; [done..|].
  exists N. intros fuel Hf. apply xQueueGenericSend_enter; auto.
Qed.

(** A receive with a finite wait returns.  It either removes the first
    item of the queue as some state in between found it, and returns its
    bytes, or reports errQUEUE_EMPTY. *)
Theorem xQueueReceive_timed buf ticks s :
  ready s → (buf = false → uxItemSize s.1 = 0) →
  may_wait ticks s → ticks < portMAX_DELAY →
  ∃ N, ∀ fuel, (N ≤ fuel)%nat →
    wp (xQueueReceive others fuel buf ticks) (wait_outcome eq (λ _ l, l) s) s.
Proof using Hothers.
  intros Hs Hb Hw Ht.
  destruct (wait_loop_starts others eq (λ _ l, l) (λ _, True) receive_now mret
    (λ _, mret tt) receive_takes Hothers) with ticks s as [N HN]; try done.
  - intros s' Hs'. by apply wp_ret; split; [|apply drift_refl].
  - apply drifts_ret.
  - exists N. intros fuel Hf. apply xQueueReceive_enter; auto.
Qed.

(** A peek with a finite wait returns, and leaves the item where it
    is. *)
Theorem xQueuePeek_timed buf ticks s :
  ready s → (buf = false → uxItemSize s.1 = 0) →
  may_wait ticks s → ticks < portMAX_DELAY →
  ∃ N, ∀ fuel, (N ≤ fuel)%nat →
    wp (xQueuePeek others fuel buf ticks) (wait_outcome eq cons s) s.
Proof using Hothers.
  intros Hs Hb Hw Ht.
  destruct (wait_loop_starts others eq cons (λ _, True) peek_now mret
    (λ _, mret tt) peek_takes Hothers) with ticks s as [N HN]; try done.
  - intros s' Hs'. by apply wp_ret; split; [|apply drift_refl].
  - apply drifts_ret.
  - exists N. intros fuel Hf. apply xQueuePeek_enter; auto.
Qed.

(** Taking a semaphore with a finite wait returns: pdPASS when the
    count went down by one from a positive count, errQUEUE_EMPTY when the
    wait timed out. *)
Theorem xQueueSemaphoreTake_timed ticks s :
  ready s → uxItemSize s.1 = 0 → may_wait ticks s → ticks < portMAX_DELAY →
  ∃ N, ∀ fuel, (N ≤ fuel)%nat →
    wp (xQueueSemaphoreTake others fuel ticks) (λ r s',
      (r = pdPASS ∧ ∃ sm n, drift s sm ∧ uxMessagesWaiting sm.1 = n + 1 ∧
        uxMessagesWaiting s'.1 = n ∧ 0 ≤ n ∧ q_config s'.1 = q_config s.1) ∨
      (r = errQUEUE_EMPTY ∧ drift s s')) s.
Proof using Hothers.
  intros Hs Hz Hw Ht.
  destruct (wait_loop_starts others (λ _ _, True) (λ _ l, l) (λ q, uxItemSize q = 0) take_now
    inherit disinherit take_takes Hothers) with ticks s as [N HN]; try done.
  - intros s' Hs'. by apply inherit_drifts.
  - apply drifts_ret.
  - intros q q' Hc. destruct q, q'. unfold q_config in Hc. simpl in *. by simplify_eq.
  - exists N. intros fuel Hf. destruct s as [q k]. unfold xQueueSemaphoreTake.
    apply wp_bind, wp_rdq, wp_bind, wp_assert; [by apply Z.eqb_eq|].
    apply assert_can_wait_ok; [done|]. apply wp_bind.
    eapply wp_mono; [by apply HN|cbv beta].
    intros r s' [(a & -> & sm & x & items & D & Hsm & _ & Hs' & Hc & _)|[-> D]];
      apply wp_ret; [left|by right].
    split; [done|]. exists sm, (Z.of_nat (length items)).
    rewrite (rep_count _ _ Hsm), (rep_count _ _ Hs'). cbn [length].
    split_and!; [done|lia|done|lia|]. rewrite Hc. apply D.
Qed.
End timed.

(** ** A system to run them in *)

(** A queue of two 3-byte items at address 1000 holding one item, between a
    clock and another task that empties it whenever it can. *)
Definition demo_queue : queue :=
  Queue 1000 1003 1006 1003 None [] [] 1 2 3 queueUNLOCKED queueUNLOCKED [7; 8; 9; 0; 0; 0].
Definition demo_semaphore : queue :=
  Queue 1000 1000 1000 1000 None [] [] 1 1 0 queueUNLOCKED queueUNLOCKED [].
Definition demo_state (q : queue) : queue * clock := (q, Clock 0).

Lemma demo_queue_rep : q_rep demo_queue [[7; 8; 9]].
Proof.
  split; try done; simpl; [by constructor|]. intros _. split; [done|done|].
  exists 1%nat, 1%nat. split_and!; [done|done|lia| |].
  - unfold on_ring. simpl. lia.
  - intros [|i] it p Hi Hp; [|done]. injection Hi as <-.
    assert (p = 0%nat) as -> by (unfold on_ring in Hp; lia). done.
Qed.

Lemma demo_semaphore_rep : q_rep demo_semaphore [[]].
Proof. split; try done. by constructor. Qed.

Definition taker (s : queue * clock) : queue * clock :=
  match receive_now s with
  | (inl _, s') => if 0 <? uxMessagesWaiting s.1 then s' else s
  | _ => s
  end.

Lemma taker_ok : env_ok taker.
Proof.
  intros [q k] [[items Hr] Hk]. unfold taker. rewrite (rep_count _ _ Hr). simpl in Hr.
  assert (drift (q, k) (q, k)) as Hrefl by (apply drift_refl; split; [by exists items|done]).
  destruct items as [|x items]; [by destruct (receive_now (q, k)) as [[?|?] ?]|].
  destruct (wp_inv _ _ _ (receive_now_spec q k x items Hr Hk)) as (a & s' & -> & _ & Hr' & Hc & Hk').
  simpl. split_and!; [done|done|by exists items].
Qed.

Lemma demo_queue_ready : ready (demo_state demo_queue).
Proof. split; [exists [[7; 8; 9]]; apply demo_queue_rep|exact I]. Qed.
Lemma demo_semaphore_ready : ready (demo_state demo_semaphore).
Proof. split; [exists [[]]; apply demo_semaphore_rep|exact I]. Qed.

Lemma xQueueGenericSend_timed_witness :
  ∃ N, ∀ fuel, (N ≤ fuel)%nat →
    wp (xQueueGenericSend taker fuel (Some [1; 2; 3]) 100 queueSEND_TO_BACK)
      (send_outcome queueSEND_TO_BACK [1; 2; 3] (demo_state demo_queue))
      (demo_state demo_queue).
Proof.
  apply (xQueueGenericSend_timed taker taker_ok (Some [1; 2; 3]));
    [apply demo_queue_ready|done| |by left|done].
  split; [by left|done].
Defined.

Lemma xQueueReceive_timed_witness :
  ∃ N, ∀ fuel, (N ≤ fuel)%nat →
    wp (xQueueReceive taker fuel true 100)
      (wait_outcome eq (λ _ l, l) (demo_state demo_queue)) (demo_state demo_queue).
Proof.
  apply (xQueueReceive_timed taker taker_ok); [apply demo_queue_ready|done|by left|done].
Defined.

Lemma xQueuePeek_timed_witness :
  ∃ N, ∀ fuel, (N ≤ fuel)%nat →
    wp (xQueuePeek taker fuel true 100)
      (wait_outcome eq cons (demo_state demo_queue)) (demo_state demo_queue).
Proof.
  apply (xQueuePeek_timed taker taker_ok); [apply demo_queue_ready|done|by left|done].
Defined.

Lemma xQueueSemaphoreTake_timed_witness :
  ∃ N, ∀ fuel, (N ≤ fuel)%nat →
    wp (xQueueSemaphoreTake taker fuel 100) (λ r s',
      (r = pdPASS ∧ ∃ sm n, drift (demo_state demo_semaphore) sm ∧
        uxMessagesWaiting sm.1 = n + 1 ∧ uxMessagesWaiting s'.1 = n ∧ 0 ≤ n ∧
        q_config s'.1 = q_config (demo_state demo_semaphore).1) ∨
      (r = errQUEUE_EMPTY ∧ drift (demo_state demo_semaphore) s')) (demo_state demo_semaphore).
Proof.
  apply (xQueueSemaphoreTake_timed taker taker_ok); [apply demo_semaphore_ready|done|by left|done].
Defined.

(** * Refinement

    The queue refines a bounded FIFO: any sequence of calls that do not wait,
    from tasks or from interrupt handlers, returns what the same sequence
    returns on a list of items; a new queue is empty; and no wake-up is lost
    while a queue is locked. *)

(** ** The abstract queue *)

Inductive q_call :=
  | CSend (pv : option (list Z)) (pos : Z)
  | CSendISR (pv : option (list Z)) (pos : Z)
  | CReceive
  | CReceiveISR
  | CPeek
  | CPeekISR
  | CTake
  | CGiveISR
  | CWaiting
  | CSpaces
  | CReset.

Inductive q_ret :=
  | RCode (r : Z)
  | RItem (r : Z) (item : option (list Z)).

Section abstract.
(** The length and the item size the queue was created with. *)
Context (len size : Z).
Implicit Types items : list (list Z).

Definition abs_send (pos : Z) (x : list Z) items : q_ret * list (list Z) :=
  if (Z.of_nat (length items) <? len) || (pos =? queueOVERWRITE)
  then (RCode pdPASS, enqueue pos (take (Z.to_nat size) x) items)
  else (RCode errQUEUE_FULL, items).

Definition abs_call (c : q_call) items : q_ret * list (list Z) :=
  match c, items with
  | CSend pv pos, _ | CSendISR pv pos, _ => abs_send pos (default [] pv) items
  | CGiveISR, _ => abs_send queueSEND_TO_BACK [] items
  | (CReceive | CReceiveISR), x :: rest => (RItem pdPASS (Some x), rest)
  | (CPeek | CPeekISR), x :: _ => (RItem pdPASS (Some x), items)
  | (CReceive | CReceiveISR | CPeek | CPeekISR), [] => (RItem errQUEUE_EMPTY None, [])
  | CTake, _ :: rest => (RCode pdPASS, rest)
  | CTake, [] => (RCode errQUEUE_EMPTY, [])
  | CWaiting, _ => (RCode (Z.of_nat (length items)), items)
  | CSpaces, _ => (RCode (len - Z.of_nat (length items)), items)
  | CReset, _ => (RCode pdPASS, [])
  end.

Fixpoint abs_calls (cs : list q_call) items : list q_ret * list (list Z) :=
  match cs with
  | [] => ([], items)
  | c :: cs =>
      let '(r, items) := abs_call c items in
      let '(rs, items) := abs_calls cs items in (r :: rs, items)
  end.

(** What the API asks of a caller. *)
Definition valid_call (c : q_call) : Prop :=
  match c with
  | CSend pv pos | CSendISR pv pos =>
      (pv = None → size = 0) ∧ send_pos pos ∧
      size ≤ Z.of_nat (length (default [] pv)) ∧
      (pos = queueOVERWRITE → len = 1 ∧ size ≠ 0)
  | CTake | CGiveISR => size = 0
  | CPeekISR => size ≠ 0
  | CReset => len * size ≤ SIZE_MAX
  | _ => True
  end.
End abstract.

(** ** The concrete calls *)

Section refine.
Context {K : Type} `{TaskLaws K} (others : queue * K → queue * K).
Implicit Types (q : queue) (k : K) (s : queue * K).

Definition run_call (c : q_call) : M (queue * K) q_ret :=
  match c with
  | CSend pv pos => r ← xQueueGenericSend others 1 pv 0 pos; mret (RCode r)
  | CSendISR pv pos =>
      '(r, _) ← xQueueGenericSendFromISR pv false pos; mret (RCode r)
  | CReceive => '(r, it) ← xQueueReceive others 1 true 0; mret (RItem r it)
  | CReceiveISR =>
      '(r, it, _) ← xQueueReceiveFromISR true false; mret (RItem r it)
  | CPeek => '(r, it) ← xQueuePeek others 1 true 0; mret (RItem r it)
  | CPeekISR => '(r, it) ← xQueuePeekFromISR true; mret (RItem r it)
  | CTake => r ← xQueueSemaphoreTake others 1 0; mret (RCode r)
  | CGiveISR => '(r, _) ← xQueueGiveFromISR false; mret (RCode r)
  | CWaiting => n ← uxQueueMessagesWaiting; mret (RCode n)
  | CSpaces => n ← uxQueueSpacesAvailable; mret (RCode n)
  | CReset => r ← xQueueGenericReset false; mret (RCode r)
  end.

Fixpoint run_calls (cs : list q_call) : M (queue * K) (list q_ret) :=
  match cs with
  | [] => mret []
  | c :: cs => r ← run_call c; rs ← run_calls cs; mret (r :: rs)
  end.

(** [s'] holds [items'] in a queue of the same shape. *)
Definition becomes q k items' s' : Prop :=
  q_rep s'.1 items' ∧ q_config s'.1 = q_config q ∧ k_step k s'.2.

Definition does (c : q_call) : Prop := ∀ q k items,
  q_rep q items → k_live k → valid_call (uxLength q) (uxItemSize q) c →
  let '(r, items') := abs_call (uxLength q) (uxItemSize q) c items in
  wp (run_call c) (λ r' s', r' = r ∧ becomes q k items' s') (q, k).

Lemma becomes_refl q k items : q_rep q items → k_live k → becomes q k items (q, k).
Proof. intros. split_and!; [done..|]. by apply k_step_refl. Qed.

Lemma does_send pv pos : does (CSend pv pos).
Proof.
  intros q k items Hq Hk (Hi & Hv). cbn [abs_call]. unfold abs_send.
  rewrite <-(rep_count _ _ Hq), (room_test pos q items) by done.
  pose proof (Hv : accepts pos (default [] pv) q) as Ha. case_bool_decide as Hr.
  - apply wp_bind, xQueueGenericSend_enter; [done|done|by right|].
    eapply wp_mono; [by apply send_loop_room|cbv beta]. intros r s' (-> & ? & ? & ?).
    by apply wp_ret.
  - apply wp_bind, xQueueGenericSend_enter; [done|done|by right|].
    unfold wp at 1. rewrite (send_loop_full others _ _ _ _ _ _ items) by done.
    apply wp_ret. split; [done|]. by apply becomes_refl.
Qed.

Lemma does_receive : does CReceive.
Proof.
  intros q k [|x items] Hq Hk _; cbn [abs_call];
    (apply wp_bind, xQueueReceive_enter; [done|by right|]).
  - unfold wp at 1. rewrite wait_loop_empty by done. apply wp_ret.
    split; [done|]. by apply becomes_refl.
  - eapply wp_mono; [by eapply wait_loop_item; [apply receive_takes|..]|cbv beta].
    intros r s' (a & -> & -> & ? & ? & ?). by apply wp_ret.
Qed.

Lemma does_peek : does CPeek.
Proof.
  intros q k [|x items] Hq Hk _; cbn [abs_call];
    (apply wp_bind, xQueuePeek_enter; [done|by right|]).
  - unfold wp at 1. rewrite wait_loop_empty by done. apply wp_ret.
    split; [done|]. by apply becomes_refl.
  - eapply wp_mono; [by eapply wait_loop_item; [apply peek_takes|..]|cbv beta].
    intros r s' (a & -> & -> & ? & ? & ?). by apply wp_ret.
Qed.

Lemma does_take : does CTake.
Proof.
  intros q k items Hq Hk Hv. cbn [valid_call] in Hv. cbn [run_call]. unfold xQueueSemaphoreTake.
  destruct items as [|x items]; cbn [abs_call];
    (apply wp_bind, wp_bind, wp_rdq, wp_bind, wp_assert; [by apply Z.eqb_eq|]);
    (apply assert_can_wait_ok; [by right|]); apply wp_bind.
  - unfold wp at 1. rewrite wait_loop_empty by done. do 2 apply wp_ret.
    split; [done|]. by apply becomes_refl.
  - eapply wp_mono; [by eapply wait_loop_item; [apply take_takes|..]|cbv beta].
    intros r s' (a & -> & _ & ? & ? & ?). by do 2 apply wp_ret.
Qed.

(** *** The calls from interrupt handlers *)

Lemma lock_count_quiet (f : Z → queue → queue) c s :
  (∀ v q, q_core (f v q) = q_core q) → k_live s.2 →
  wp (n ← kern uxTaskGetNumberOfTasks;
      when_ (c <? n) (assert_that (negb (c =? queueINT8_MAX));; mdq (f (c + 1))))
    (λ _ s', quiet s s') s.
Proof.
  destruct s as [q k]. intros Hf Hk. apply wp_bind, wp_kern.
  eapply wp_mono; [by apply number_of_tasks_law|cbv beta]. intros n k' [Hk' Hn].
  apply wp_when; [|by split]. intros Hc%Z.ltb_lt. apply wp_bind, wp_assert.
  { rewrite (proj2 (Z.eqb_neq _ _)) by (unfold queueINT8_MAX; lia). done. }
  apply wp_mdq. split; [apply Hf|done].
Qed.

Lemma wake_receiver_isr_quiet woken s :
  k_live s.2 → wp (wake_receiver_isr woken) (λ _ s', quiet s s') s.
Proof.
  destruct s as [q k]. intros Hk. unfold wake_receiver_isr. q_go; try by apply quiet_refl.
  - case_bool_decide; [|done].
    eapply wp_mono; [by apply unblock_receiver_quiet|cbv beta]. intros. by q_go.
  - eapply wp_mono; [by apply lock_count_quiet|cbv beta]. intros. by q_go.
Qed.

Lemma wake_sender_isr_quiet woken s :
  k_live s.2 → wp (wake_sender_isr woken) (λ _ s', quiet s s') s.
Proof.
  destruct s as [q k]. intros Hk. unfold wake_sender_isr. q_go; try by apply quiet_refl.
  - case_bool_decide; [|done].
    eapply wp_mono; [by apply unblock_sender_quiet|cbv beta]. intros. by q_go.
  - eapply wp_mono; [by apply lock_count_quiet|cbv beta]. intros. by q_go.
Qed.

Lemma becomes_quiet q k q1 items s' :
  q_rep q1 items → q_config q1 = q_config q → quiet (q1, k) s' → becomes q k items s'.
Proof.
  intros Hr Hc Q. split_and!; [by eapply quiet_rep| |apply Q].
  rewrite <-Hc. symmetry. apply q_core_config. symmetry. apply Q.
Qed.

Lemma does_send_isr pv pos : does (CSendISR pv pos).
Proof.
  intros q k items Hq Hk (Hi & Hv). cbn [abs_call]. unfold abs_send.
  rewrite <-(rep_count _ _ Hq), (room_test pos q items) by done.
  pose proof (Hv : accepts pos (default [] pv) q) as Ha.
  destruct Hv as (Hp & Hx & Hov). cbn [run_call]. unfold xQueueGenericSendFromISR.
  case_bool_decide as Hr; (apply wp_bind, wp_bind, wp_rdq, wp_bind, wp_assert;
    [destruct pv; [done|]; simpl; by rewrite Hi|]);
  (apply wp_bind, wp_rdq, wp_bind, wp_assert;
    [destruct (Z.eqb_spec pos queueOVERWRITE); [|done]; destruct Hov as [Hl _]; [done|];
     by rewrite Hl|]);
  (apply wp_bind, wp_rdq; rewrite (room_test pos q items) by done).
  - rewrite bool_decide_true by done. apply wp_bind. eapply wp_mono; [by eapply copy_to_spec; [| |exact Hp|]; [|apply
      (accepts_sendable _ _ _ _ Ha Hr)|]|cbv beta].
    intros y [q1 k1] (_ & Hk1 & Hq1 & Hc1 & _). simpl in Hk1, Hq1, Hc1. subst k1.
    apply wp_bind. eapply wp_mono; [by apply wake_receiver_isr_quiet|cbv beta].
    intros w s2 Q. do 2 apply wp_ret. split; [done|]. by eapply becomes_quiet.
  - rewrite bool_decide_false by done. do 2 apply wp_ret. split; [done|].
    by apply becomes_refl.
Qed.

Lemma does_give_isr : does CGiveISR.
Proof.
  intros q k items Hq Hk Hv. cbn [valid_call] in Hv. cbn [abs_call]. unfold abs_send.
  rewrite <-(rep_count _ _ Hq), orb_false_r. cbn [run_call]. unfold xQueueGiveFromISR.
  pose proof (rep_head _ _ Hq) as Hh.
  destruct (uxMessagesWaiting q <? uxLength q) eqn:Hroom;
  (apply wp_bind, wp_bind, wp_rdq, wp_bind, wp_assert; [by apply Z.eqb_eq|]);
  (apply wp_bind, wp_rdq, wp_bind, wp_rdq, wp_bind, wp_assert;
    [by rewrite (proj2 (Z.eqb_neq _ _)) by (unfold queueQUEUE_IS_MUTEX, NULL; lia)|]);
  apply wp_bind, wp_rdq, wp_bind, wp_rdq; rewrite Hroom; [apply Z.ltb_lt in Hroom|].
  - apply wp_bind, wp_mdq, wp_bind.
    eapply wp_mono; [by apply wake_receiver_isr_quiet|cbv beta].
    intros w s2 Q. do 2 apply wp_ret. split; [done|]. eapply becomes_quiet; [..|exact Q]; [|done].
    rewrite take_nil. change (enqueue queueSEND_TO_BACK [] items) with (items ++ [[]]).
    destruct Hq as [? ? ? Hn ? Hit ?]. split; cbn; try done.
    + rewrite length_app, u32_id; simpl; lia.
    + rewrite length_app; simpl; lia.
    + apply Forall_app_2; [done|]. by constructor.
  - do 2 apply wp_ret. split; [done|]. by apply becomes_refl.
Qed.

Lemma does_receive_isr : does CReceiveISR.
Proof.
  intros q k items Hq Hk _. cbn [run_call]. unfold xQueueReceiveFromISR.
  pose proof (count_test q items Hq) as Hc. destruct items as [|x items]; cbn [abs_call];
  (apply wp_bind, wp_bind, wp_rdq, wp_bind, wp_assert; [done|]; apply wp_bind, wp_rdq;
   rewrite Hc).
  { rewrite (bool_decide_false ([] ≠ [])) by naive_solver. do 2 apply wp_ret. split; [done|].
    by apply becomes_refl. }
  rewrite bool_decide_true by done. apply wp_bind.
  eapply wp_mono; [by eapply copy_from_spec|cbv beta].
  intros bs [q1 k1] (-> & Hk1 & Hq1 & _ & _ & Hc1 & _). simpl in Hk1, Hq1, Hc1. subst k1.
  apply wp_bind, wp_mdq, wp_bind.
  eapply wp_mono; [by apply wake_sender_isr_quiet|cbv beta].
  intros w s2 Q. do 2 apply wp_ret. split; [done|]. eapply becomes_quiet; [..|exact Q]; [|done].
  rewrite u32_id; [done|]. pose proof (rep_count _ _ Hq). pose proof (rep_bound _ _ Hq).
  pose proof (rep_len _ _ Hq). cbn [length] in *. lia.
Qed.

Lemma does_peek_isr : does CPeekISR.
Proof.
  intros q k items Hq Hk Hv. cbn [valid_call] in Hv. cbn [run_call]. unfold xQueuePeekFromISR.
  pose proof (count_test q items Hq) as Hc. destruct items as [|x items]; cbn [abs_call];
  (apply wp_bind, wp_bind, wp_rdq, wp_bind, wp_assert; [done|];
   apply wp_bind, wp_assert; [by rewrite (proj2 (Z.eqb_neq _ _))|]; apply wp_bind, wp_rdq;
   rewrite Hc).
  { rewrite (bool_decide_false ([] ≠ [])) by naive_solver. do 2 apply wp_ret. split; [done|].
    by apply becomes_refl. }
  rewrite bool_decide_true by done. apply wp_bind, wp_rdq, wp_bind.
  eapply wp_mono; [by eapply copy_from_spec|cbv beta].
  intros bs [q1 k1] (-> & Hk1 & _ & Hq1 & _ & Hc1 & _). simpl in Hk1, Hq1, Hc1. subst k1.
  apply wp_bind, wp_mdq. do 2 apply wp_ret. split; [done|].
  split_and!; [done|done|by apply k_step_refl].
Qed.

(** *** Reset *)

Definition reset_queue q : queue :=
  let head := pcHead q in
  let len := uxLength q in
  let size := uxItemSize q in
  Queue head head (head + len * size) (head + (len - 1) * size) (xMutexHolder q)
    (xTasksWaitingToSend q) (xTasksWaitingToReceive q) 0 len size
    queueUNLOCKED queueUNLOCKED (storage q).

Lemma reset_queue_rep q :
  0 < uxLength q < 4294967296 → 0 ≤ uxItemSize q → 0 < pcHead q →
  (uxItemSize q ≠ 0 → Z.of_nat (length (storage q)) = uxLength q * uxItemSize q) →
  q_rep (reset_queue q) [].
Proof.
  intros Hl Hs Hh Hst. split; simpl; try done; [lia|]. intros Hne. specialize (Hst Hne).
  split; simpl; [lia|nia|].
  exists 0%nat, (Z.to_nat (uxLength q) - 1)%nat. split_and!; [lia|nia|lia| |done].
  unfold on_ring. simpl. lia.
Qed.

Lemma size_check len size :
  0 < len → len * size ≤ SIZE_MAX → (1 <=? len) && (size <=? SIZE_MAX / len) = true.
Proof.
  intros. apply andb_true_iff. split; apply Z.leb_le; [lia|].
  by apply Z.div_le_lower_bound.
Qed.

Lemma does_reset : does CReset.
Proof.
  intros q k items Hq Hk Hv. cbn [valid_call] in Hv. cbn [abs_call run_call].
  unfold xQueueGenericReset. pose proof (rep_len _ _ Hq) as Hl.
  do 2 apply wp_bind. apply wp_rdq. do 2 (apply wp_bind, wp_rdq). apply wp_bind.
  rewrite size_check by (done || lia). apply wp_bind, wp_modify. cbn [fst snd].
  fold (reset_queue q). apply wp_bind.
  eapply wp_mono; [by apply (wake_sender_quiet (reset_queue q, k))|cbv beta].
  intros [] s' Q. apply wp_ret. apply wp_bind, wp_assert; [done|]. do 2 apply wp_ret.
  split; [done|]. eapply becomes_quiet; [..|exact Q]; [|done].
  apply reset_queue_rep; [apply Hq..|]. intros Hne.
  pose proof (ring_storage _ _ _ _ _ _ _ _ (rep_ring _ _ Hq Hne)) as ->.
  pose proof (rep_size _ _ Hq). lia.
Qed.

Lemma does_waiting : does CWaiting.
Proof.
  intros q k items Hq Hk _. cbn [abs_call run_call]. apply wp_bind, wp_rdq, wp_ret.
  rewrite (rep_count _ _ Hq). split; [done|]. by apply becomes_refl.
Qed.

Lemma does_spaces : does CSpaces.
Proof.
  intros q k items Hq Hk _. cbn [abs_call run_call]. apply wp_bind, wp_rdq, wp_ret.
  rewrite (rep_count _ _ Hq). pose proof (rep_bound _ _ Hq). pose proof (rep_len _ _ Hq).
  rewrite u32_id by lia. split; [done|]. by apply becomes_refl.
Qed.

Lemma run_call_does c : does c.
Proof.
  destruct c; auto using does_send, does_send_isr, does_receive, does_receive_isr, does_peek,
    does_peek_isr, does_take, does_give_isr, does_waiting, does_spaces, does_reset.
Qed.

(** C8: the queue refines the bounded FIFO.  Every sequence of calls that
    do not wait (sends to the back, to the front or overwriting, receives,
    peeks, semaphore gives and takes, their variants for interrupt handlers,
    counts and resets) returns, and gives the results the same calls give
    on a list of items; the queue ends up holding that list. *)
Theorem queue_refines_fifo cs q k items :
  q_rep q items → k_live k → Forall (valid_call (uxLength q) (uxItemSize q)) cs →
  let '(rs, items') := abs_calls (uxLength q) (uxItemSize q) cs items in
  wp (run_calls cs) (λ rs' s', rs' = rs ∧ becomes q k items' s') (q, k).
Proof.
  revert q k items. induction cs as [|c cs IH]; intros q k items Hq Hk Hv.
  { apply wp_ret. split; [done|]. by apply becomes_refl. }
  apply Forall_cons in Hv as [Hc Hcs]. cbn [abs_calls run_calls].
  pose proof (run_call_does c q k items Hq Hk Hc) as Hdo.
  destruct (abs_call _ _ c items) as [r items1].
  destruct (abs_calls (uxLength q) (uxItemSize q) cs items1) as [rs items2] eqn:Eabs.
  apply wp_bind. eapply wp_mono; [exact Hdo|cbv beta].
  intros r' [q1 k1] [-> (Hr1 & Hc1 & Hk1)]. simpl in Hr1, Hc1, Hk1.
  assert (uxLength q1 = uxLength q ∧ uxItemSize q1 = uxItemSize q) as [El Es].
  { unfold q_config in Hc1. by injection Hc1. }
  specialize (IH q1 k1 items1 Hr1 (k_step_live _ _ Hk1)). rewrite El, Es, Eabs in IH.
  apply wp_bind. eapply wp_mono; [by apply IH|cbv beta].
  intros rs' s' [-> (Hr2 & Hc2 & Hk2)]. apply wp_ret. split; [done|].
  split_and!; [done|congruence|by eapply k_step_trans].
Qed.
End refine.

(** ** Creation *)

Section created.
Context {K H : Type} `{TaskOps K} (pvPortMalloc : Z → M H Z) (ram : Z → Z).

(** A queue nobody waits on, unlocked. *)
Definition fresh (q : queue) : Prop :=
  xTasksWaitingToSend q = [] ∧ xTasksWaitingToReceive q = [] ∧
  cRxLock q = queueUNLOCKED ∧ cTxLock q = queueUNLOCKED.

Lemma prvInitialiseNewQueue_run n size a k :
  0 < n → 0 ≤ size → n * size ≤ SIZE_MAX →
  prvInitialiseNewQueue ram n size (a + sizeof_Queue_t) a k =
  (inl pdPASS, (reset_queue (raw_queue n size
     (if size =? 0 then a else a + sizeof_Queue_t)
     (ram <$> seqZ (a + sizeof_Queue_t) (n * size))), k)).
Proof.
  intros. unfold prvInitialiseNewQueue, xQueueGenericReset.
  unfold rdq, gets, mbind, M_bind. cbn [fst raw_queue uxLength uxItemSize].
  rewrite size_check by done. reflexivity.
Qed.

Lemma create_ok n size k h a h' :
  0 < n < 4294967296 → 0 ≤ size → n * size + sizeof_Queue_t ≤ SIZE_MAX → 0 ≤ a →
  pvPortMalloc (sizeof_Queue_t + n * size) h = (inl a, h') →
  wp (xQueueGenericCreate pvPortMalloc ram n size k) (λ r h'', h'' = h' ∧
    match r with
    | None => a = NULL
    | Some (a', q) => a' = a ∧ a ≠ NULL ∧ q_rep q [] ∧ fresh q ∧
                      uxLength q = n ∧ uxItemSize q = size
    end) h.
Proof.
  intros Hn Hs Hsz Ha Hm. unfold xQueueGenericCreate.
  assert ((0 <? n) && (size <=? SIZE_MAX / n) && (n * size <=? SIZE_MAX - sizeof_Queue_t)
    = true) as ->.
  { rewrite !andb_true_iff, Z.ltb_lt, !Z.leb_le. unfold sizeof_Queue_t in *.
    split_and!; [lia| |lia]. apply Z.div_le_lower_bound; lia. }
  apply wp_bind. eapply wp_run; [exact Hm|]. unfold NULL.
  destruct (Z.eqb_spec a 0) as [->|Hne]; simpl negb; cbv iota; [by apply wp_ret|].
  rewrite prvInitialiseNewQueue_run by (unfold sizeof_Queue_t in *; lia).
  apply wp_ret. split_and!; try done.
  apply reset_queue_rep; cbn; [done|done| |].
  - unfold sizeof_Queue_t. destruct (size =? 0); lia.
  - intros _. rewrite length_fmap, length_seqZ. lia.
Qed.

(** Creating a queue gives an empty queue of the asked shape, or no
    queue exactly when the allocator has no block for the structure and its
    storage area. *)
Theorem xQueueGenericCreate_empty n size k h a h' :
  0 < n < 4294967296 → 0 ≤ size → n * size + sizeof_Queue_t ≤ SIZE_MAX → 0 ≤ a →
  pvPortMalloc (sizeof_Queue_t + n * size) h = (inl a, h') →
  wp (xQueueGenericCreate pvPortMalloc ram n size k) (λ r h'', h'' = h' ∧
    match r with
    | None => a = NULL
    | Some (a', q) => a' = a ∧ a ≠ NULL ∧ q_rep q [] ∧ fresh q ∧
                      uxLength q = n ∧ uxItemSize q = size
    end) h.
Proof. apply create_ok. Qed.

(** A new counting semaphore holds its initial count. *)
Theorem xQueueCreateCountingSemaphore_count n c k h a h' :
  0 < n < 4294967296 → 0 ≤ c ≤ n → 0 < a →
  pvPortMalloc sizeof_Queue_t h = (inl a, h') →
  wp (xQueueCreateCountingSemaphore pvPortMalloc ram n c k) (λ r h'', h'' = h' ∧
    ∃ q, r = Some (a, q) ∧ q_rep q (replicate (Z.to_nat c) []) ∧ uxLength q = n ∧
      uxMessagesWaiting q = c) h.
Proof.
  intros Hn Hc Ha Hm. unfold xQueueCreateCountingSemaphore.
  rewrite (proj2 (Z.eqb_neq n 0)) by lia. rewrite (proj2 (Z.leb_le c n)) by lia. simpl.
  apply wp_bind. unfold xQueueGenericCreate.
  assert ((0 <? n) && (0 <=? SIZE_MAX / n) && (n * 0 <=? SIZE_MAX - sizeof_Queue_t)
    = true) as ->.
  { rewrite !andb_true_iff, Z.ltb_lt, !Z.leb_le. unfold sizeof_Queue_t, SIZE_MAX.
    split_and!; [lia| |lia]. apply Z.div_pos; lia. }
  apply wp_bind. rewrite Z.mul_0_r, Z.add_0_r. eapply wp_run; [exact Hm|]. unfold NULL.
  rewrite (proj2 (Z.eqb_neq a 0)) by lia. simpl negb. cbv iota.
  rewrite prvInitialiseNewQueue_run by (unfold SIZE_MAX; lia).
  do 2 apply wp_ret. split; [done|]. eexists. split; [done|]. split_and!; try done.
  split; simpl; rewrite ?length_replicate; try done; try lia.
  by apply Forall_replicate.
Qed.
End created.

(** ** Locking *)

Section locking.
Context {K : Type} `{TaskLaws K} (others : queue * K → queue * K).
Implicit Types (q : queue) (k : K) (s : queue * K).

(** Unlocking wakes a waiting receiver for every count of the lock. *)
Lemma unlock_tx_drops n q k :
  k_live k →
  wp (unlock_tx n) (λ _ s',
    s'.1 = set_xTasksWaitingToReceive (drop n (xTasksWaitingToReceive q)) q ∧
    k_step k s'.2) (q, k).
Proof.
  revert q k. induction n as [|n IH]; intros q k Hk; cbn [unlock_tx].
  { apply wp_ret. split; [by destruct q|by apply k_step_refl]. }
  apply wp_bind, wp_rdq. destruct (xTasksWaitingToReceive q) as [|t ts] eqn:El.
  { apply wp_ret. split; [|by apply k_step_refl]. destruct q; cbn in *. by subst. }
  rewrite bool_decide_true by done. unfold unblock_receiver.
  apply wp_bind, wp_bind, wp_rdq. rewrite El. apply wp_bind, wp_kern.
  eapply wp_mono; [by apply remove_event_law|cbv beta]. intros [b l] k1 [Hk1 Hl].
  cbn in Hl. subst l. apply wp_bind, wp_mdq, wp_ret, wp_bind.
  eapply wp_mono with (P := λ _ s', s'.1 = set_xTasksWaitingToReceive ts q ∧ k_step k s'.2).
  { apply wp_when; [|by split]. intros _. apply wp_kern.
    eapply wp_mono; [by eapply missed_yield_law, k_step_live|cbv beta].
    intros _ k2 ?. split; [done|]. by eapply k_step_trans. }
  intros [] [q2 k2] [E Hk2]. cbn in E, Hk2. subst q2.
  eapply wp_mono; [by eapply IH, k_step_live|cbv beta].
  intros [] s3 [-> Hk3]. split; [by destruct q|]. by eapply k_step_trans.
Qed.

Lemma unlock_receivers_drops q k :
  k_live k →
  wp unlock_receivers (λ _ s',
    s'.1 = set_cTxLock queueUNLOCKED (set_xTasksWaitingToReceive
      (drop (Z.to_nat (cTxLock q)) (xTasksWaitingToReceive q)) q) ∧ k_step k s'.2) (q, k).
Proof.
  intros Hk. unfold unlock_receivers. apply wp_bind, wp_rdq, wp_bind.
  eapply wp_mono; [by apply unlock_tx_drops|cbv beta]. intros [] [q1 k1] [E Hk1].
  cbn in E, Hk1. subst q1. apply wp_mdq. unfold queueLOCKED_UNMODIFIED. by rewrite Z.sub_0_r.
Qed.

(** [m] sends of [x] from an interrupt handler. *)
Fixpoint isr_sends (m : nat) (x : list Z) : M (queue * K) unit :=
  match m with
  | O => mret tt
  | Datatypes.S m => xQueueGenericSendFromISR (Some x) false queueSEND_TO_BACK;; isr_sends m x
  end.

Context (tasks : Z) (Htasks : ∀ k, k_live k → wp uxTaskGetNumberOfTasks (λ n _, n = tasks) k).

Lemma isr_send_counts q k items x :
  q_rep q items → k_live k → uxItemSize q ≤ Z.of_nat (length x) →
  Z.of_nat (length items) < uxLength q → 0 ≤ cTxLock q ≤ tasks →
  wp (xQueueGenericSendFromISR (Some x) false queueSEND_TO_BACK) (λ r s',
    r = (pdPASS, false) ∧ becomes q k (items ++ [stored q x]) s' ∧
    xTasksWaitingToReceive s'.1 = xTasksWaitingToReceive q ∧
    cTxLock s'.1 = Z.min tasks (cTxLock q + 1)) (q, k).
Proof using Htasks.
  intros Hq Hk Hx Hroom Hc. unfold xQueueGenericSendFromISR.
  apply wp_bind, wp_rdq, wp_bind, wp_assert; [done|].
  apply wp_bind, wp_rdq, wp_bind, wp_assert; [done|]. apply wp_bind, wp_rdq.
  rewrite (rep_count _ _ Hq), (proj2 (Z.ltb_lt _ _)) by done. simpl orb. cbv iota.
  apply wp_bind. eapply wp_mono; [apply (copy_to_spec q k items); try done|cbv beta].
  { left. split; [|done]. by unfold queueSEND_TO_BACK, queueOVERWRITE. }
  { by left. }
  intros y [q1 k1] (_ & Hk1 & Hq1 & Hc1 & Ha). simpl in Hk1, Hq1, Hc1, Ha. subst k1.
  unfold q_aux in Ha. injection Ha as Eh Es Er Erx Etx.
  apply wp_bind. unfold wake_receiver_isr. apply wp_bind, wp_rdq. rewrite Etx.
  rewrite (proj2 (Z.eqb_neq _ _)) by (unfold queueUNLOCKED; lia).
  unfold prvIncrementQueueTxLock. do 2 apply wp_bind. apply wp_kern.
  eapply wp_mono; [by apply wp_conj, (Htasks k Hk); apply number_of_tasks_law|cbv beta].
  intros n k2 [[Hk2 Hn] ->]. apply wp_when.
  - intros Hlt%Z.ltb_lt. apply wp_bind, wp_assert.
    { rewrite (proj2 (Z.eqb_neq _ _)) by (unfold queueINT8_MAX; lia). done. }
    apply wp_mdq. do 2 apply wp_ret. split; [done|]. split_and!; [|done|simpl; lia].
    eapply becomes_quiet; [exact Hq1|done|]. by split.
  - intros Hge%Z.ltb_ge. do 2 apply wp_ret. split; [done|].
    split_and!; [|done|simpl; lia]. eapply becomes_quiet; [exact Hq1|done|]. by split.
Qed.

Lemma isr_sends_count m x : ∀ q k items,
  q_rep q items → k_live k → uxItemSize q ≤ Z.of_nat (length x) →
  Z.of_nat (length items + m) ≤ uxLength q → 0 ≤ cTxLock q ≤ tasks →
  wp (isr_sends m x) (λ _ s',
    becomes q k (items ++ replicate m (stored q x)) s' ∧
    xTasksWaitingToReceive s'.1 = xTasksWaitingToReceive q ∧
    cTxLock s'.1 = Z.min tasks (cTxLock q + Z.of_nat m)) (q, k).
Proof using Htasks.
  induction m as [|m IH]; intros q k items Hq Hk Hx Hroom Hc; cbn [isr_sends].
  { apply wp_ret. rewrite app_nil_r. split; [by apply becomes_refl|].
    split; [done|simpl; lia]. }
  apply wp_bind. eapply wp_mono; [apply (isr_send_counts q k items); (done || lia)|cbv beta].
  intros r [q1 k1] (_ & (Hq1 & Hc1 & Hk1) & Hw & Hl). simpl in *.
  assert (uxLength q1 = uxLength q ∧ uxItemSize q1 = uxItemSize q) as [El Es].
  { unfold q_config in Hc1. by injection Hc1. }
  eapply wp_mono; [eapply (IH q1 k1); [exact Hq1|by eapply k_step_live|..]|cbv beta].
  - by rewrite Es.
  - rewrite length_app, El. simpl. lia.
  - lia.
  - intros [] s' ((Hq2 & Hc2 & Hk2) & Hw2 & Hl2). split_and!.
    + split_and!; [|congruence|by eapply k_step_trans].
      rewrite <-app_assoc in Hq2. unfold stored in *. by rewrite Es in Hq2.
    + congruence.
    + rewrite Hl2, Hl. lia.
Qed.

(** No wake-up is lost while a queue is locked.  If interrupt handlers
    send [m] items to a locked queue with waiting receivers, unlocking
    unblocks the first [m] of them (all of them, when fewer wait), and the
    lock is released. *)
Theorem locked_sends_wake m x q k items :
  q_rep q items → k_live k → uxItemSize q ≤ Z.of_nat (length x) →
  Z.of_nat (length items + m) ≤ uxLength q → cTxLock q = queueLOCKED_UNMODIFIED →
  Z.of_nat (length (xTasksWaitingToReceive q)) ≤ tasks →
  wp (isr_sends m x;; unlock_receivers) (λ _ s',
    becomes q k (items ++ replicate m (stored q x)) s' ∧
    xTasksWaitingToReceive s'.1 = drop m (xTasksWaitingToReceive q) ∧
    cTxLock s'.1 = queueUNLOCKED) (q, k).
Proof using Htasks.
  intros Hq Hk Hx Hroom Hc Hw. unfold queueLOCKED_UNMODIFIED in Hc. apply wp_bind.
  eapply wp_mono; [apply (isr_sends_count m x q k items); (done || lia)|cbv beta].
  intros [] [q1 k1] ((Hq1 & Hc1 & Hk1) & Hw1 & Hl1). simpl in *.
  eapply wp_mono; [by eapply unlock_receivers_drops, k_step_live|cbv beta].
  intros [] [q2 k2] [E Hk2]. simpl in *. subst q2. split_and!.
  - split_and!; [by eapply q_rep_core; [|exact Hq1]|done|by eapply k_step_trans].
  - simpl. rewrite Hw1, Hl1, Hc. destruct (Z.le_ge_cases (Z.of_nat m) tasks).
    + f_equal. lia.
    + by rewrite !drop_ge by lia.
  - done.
Qed.
End locking.

(** ** Instances *)

(** A full round: fill the queue from a task and a handler, find it full, look
    at the front, empty it, find it empty. *)
Definition demo_calls : list q_call :=
  [CSend (Some [1; 2; 3]) queueSEND_TO_BACK; CSendISR (Some [4; 5; 6]) queueSEND_TO_BACK;
   CPeek; CWaiting; CReceive; CReceiveISR; CReceive; CSpaces].

Example demo_calls_results :
  abs_calls 2 3 demo_calls [[7; 8; 9]] =
  ([RCode pdPASS; RCode errQUEUE_FULL; RItem pdPASS (Some [7; 8; 9]); RCode 2;
    RItem pdPASS (Some [7; 8; 9]); RItem pdPASS (Some [1; 2; 3]);
    RItem errQUEUE_EMPTY None; RCode 2], []).
Proof. reflexivity. Qed.

Lemma queue_refines_fifo_witness :
  let '(rs, items') := abs_calls 2 3 demo_calls [[7; 8; 9]] in
  wp (run_calls taker demo_calls) (λ rs' s', rs' = rs ∧ becomes demo_queue (Clock 0) items' s')
    (demo_queue, Clock 0).
Proof.
  apply (queue_refines_fifo taker demo_calls demo_queue (Clock 0));
    [apply demo_queue_rep|exact I|].
  repeat constructor; simpl; (done || lia || (by left) || idtac).
Defined.

(** An allocator that hands out address 4096. *)
Definition demo_malloc : Z → M unit Z := λ _, mret 4096.

Lemma xQueueGenericCreate_empty_witness :
  wp (xQueueGenericCreate demo_malloc (λ _, 0) 2 3 (Clock 0)) (λ r h'', h'' = tt ∧
    match r with
    | None => 4096 = NULL
    | Some (a', q) => a' = 4096 ∧ 4096 ≠ NULL ∧ q_rep q [] ∧ fresh q ∧
                      uxLength q = 2 ∧ uxItemSize q = 3
    end) tt.
Proof. by apply (xQueueGenericCreate_empty demo_malloc (λ _, 0) 2 3 (Clock 0) tt 4096 tt). Defined.

Lemma xQueueCreateCountingSemaphore_count_witness :
  wp (xQueueCreateCountingSemaphore demo_malloc (λ _, 0) 5 3 (Clock 0)) (λ r h'', h'' = tt ∧
    ∃ q, r = Some (4096, q) ∧ q_rep q (replicate 3 []) ∧ uxLength q = 5 ∧
      uxMessagesWaiting q = 3) tt.
Proof.
  by apply (xQueueCreateCountingSemaphore_count demo_malloc (λ _, 0) 5 3 (Clock 0) tt 4096 tt).
Defined.

(** A locked counting semaphore at 0, with three tasks waiting. *)
Definition demo_locked : queue :=
  Queue 1000 1000 1000 1000 None [] [11; 12; 13] 0 5 0 queueLOCKED_UNMODIFIED
    queueLOCKED_UNMODIFIED [].
Lemma demo_locked_rep : q_rep demo_locked [].
Proof. by split. Qed.
Lemma locked_sends_wake_witness :
  wp (isr_sends 2 [];; unlock_receivers) (λ _ s',
    becomes demo_locked (Clock 0) [[]; []] s' ∧
    xTasksWaitingToReceive s'.1 = [13] ∧ cTxLock s'.1 = queueUNLOCKED)
    (demo_locked, Clock 0).
Proof.
  assert (Ht : ∀ k : clock, k_live k → wp uxTaskGetNumberOfTasks (λ n _, n = 5) k) by done.
  by apply (locked_sends_wake 5 Ht 2 [] demo_locked (Clock 0) [] demo_locked_rep).
Defined.
