(* ===== verification/QueueLife.v ===== *)
(** The life of a queue, [freertos/queue.c]: the registry of names that a
    debugger reads, the creation of mutexes, deletion, and the wait of the timer
    task, which blocks with the scheduler suspended. *)
From stdpp Require Import base tactics numbers list.
From S2P Require Import Prelude Words Sched Queue QueueSpec QueueApi QueueRefine.

(** ** The registry *)

Definition configQUEUE_REGISTRY_SIZE : nat := 8.

(** A name (the address of a string, NULL in a free slot) and a queue. *)
Record QueueRegistryItem_t := QueueRegistryItem { pcQueueName : Z; xHandle : Z }.

(** [xQueueRegistry], as zeroed memory at the start. *)
Definition registry : Type := list QueueRegistryItem_t.
Definition xQueueRegistry : registry :=
  replicate configQUEUE_REGISTRY_SIZE (QueueRegistryItem NULL NULL).

(** The loop of [vQueueAddToRegistry] from index [ux]. *)
Fixpoint entry_to_write (xQueue : Z) (ux : nat) (pxEntryToWrite : option nat)
    (r : registry) : option nat :=
  match r with
  | [] => pxEntryToWrite
  | e :: r =>
      if xQueue =? xHandle e then Some ux
      else if bool_decide (pxEntryToWrite = None) && (pcQueueName e =? NULL)
      then entry_to_write xQueue (S ux) (Some ux) r
      else entry_to_write xQueue (S ux) pxEntryToWrite r
  end.

Definition vQueueAddToRegistry (xQueue name : Z) : M registry unit :=
  assert_that (negb (xQueue =? NULL));;
  r ← get;
  let pxEntryToWrite := if negb (name =? NULL) then entry_to_write xQueue 0 None r else None in
  match pxEntryToWrite with
  | Some ux => modify (λ r, <[ux := QueueRegistryItem name xQueue]> r)
  | None => mret tt
  end.

Fixpoint name_of (xQueue : Z) (r : registry) : Z :=
  match r with
  | [] => NULL
  | e :: r => if xHandle e =? xQueue then pcQueueName e else name_of xQueue r
  end.

Definition pcQueueGetName (xQueue : Z) : M registry Z :=
  assert_that (negb (xQueue =? NULL));;
  gets (name_of xQueue).

Fixpoint clear_entry (xQueue : Z) (r : registry) : registry :=
  match r with
  | [] => []
  | e :: r =>
      if xHandle e =? xQueue then QueueRegistryItem NULL NULL :: r
      else e :: clear_entry xQueue r
  end.

Definition vQueueUnregisterQueue (xQueue : Z) : M registry unit :=
  assert_that (negb (xQueue =? NULL));;
  modify (clear_entry xQueue).

(** ** Deletion *)

Section delete.
Context {H : Type} (vPortFree : Z → M H unit).

Definition vQueueDelete (xQueue : Z) : M (registry * H) unit :=
  assert_that (negb (xQueue =? NULL));;
  zoom fst (λ r s, (r, s.2)) (vQueueUnregisterQueue xQueue);;
  zoom snd (λ h s, (s.1, h)) (vPortFree xQueue).
End delete.

(** ** Mutexes, and the wait of the timer task *)

Section mutex.
Context {K : Type} `{TaskOps K} (others : queue * K → queue * K).

(** The branch for a queue: [pcHead] is [uxQueueType]; the holder and the
    recursive call count lie over [pcTail] and [pcReadFrom]. *)
Definition prvInitialiseMutex (fuel : nat) : M (queue * K) unit :=
  mdq (λ q, Queue queueQUEUE_IS_MUTEX (pcWriteTo q) NULL 0 None
    (xTasksWaitingToSend q) (xTasksWaitingToReceive q) (uxMessagesWaiting q)
    (uxLength q) (uxItemSize q) (cRxLock q) (cTxLock q) (storage q));;
  xQueueGenericSend others fuel None 0 queueSEND_TO_BACK;;
  mret tt.

(** The new mutex with its address and the scheduler, or NULL. *)
Definition xQueueCreateMutex {H} (pvPortMalloc : Z → M H Z) (ram : Z → Z)
    (fuel : nat) (k : K) : M H (option (Z * (queue * K))) :=
  xNewQueue ← xQueueGenericCreate pvPortMalloc ram 1 0 k;
  match xNewQueue with
  | Some (a, q) =>
      match prvInitialiseMutex fuel (q, k) with
      | (inl _, s) => mret (Some (a, s))
      | (inr e, _) => fail e
      end
  | None => mret None
  end.

(** The function of [freertos/tasks.c] that only this call uses. *)
Context (vTaskPlaceOnEventListRestricted :
  list task_handle → Z → bool → M K (list task_handle)).

Definition vQueueWaitForMessageRestricted (xTicksToWait : Z) (xWaitIndefinitely : bool)
    : M (queue * K) unit :=
  prvLockQueue;;
  preempt others;;
  n ← rdq uxMessagesWaiting;
  preempt others;;
  when_ (n =? 0)
    (l ← rdq xTasksWaitingToReceive;
     l ← kern (vTaskPlaceOnEventListRestricted l xTicksToWait xWaitIndefinitely);
     mdq (set_xTasksWaitingToReceive l));;
  prvUnlockQueue others.
End mutex.

(** ** The registry is a map from queues to names *)

(** A free slot has no queue, and no queue has two slots. *)
Record registry_ok (r : registry) : Prop := {
  reg_free : ∀ i e, r !! i = Some e → pcQueueName e = NULL → xHandle e = NULL;
  reg_once : ∀ i j ei ej, r !! i = Some ei → r !! j = Some ej →
    xHandle ei = xHandle ej → xHandle ei ≠ NULL → i = j
}.

Lemma name_of_some r i n h :
  registry_ok r → h ≠ NULL → r !! i = Some (QueueRegistryItem n h) → name_of h r = n.
Proof.
  intros [_ Ho] Hh Hi. revert i Hi Ho. induction r as [|e r IH]; intros i Hi Ho; [done|]. cbn.
  destruct (Z.eqb_spec (xHandle e) h) as [E|Hne].
  { assert (0%nat = i) as <- by (by eapply (Ho 0%nat i); [done|exact Hi| |rewrite E]). by injection Hi as ->. }
  destruct i as [|i]; [by injection Hi as ->|]. apply (IH i); [done|].
  intros i' j ei ej ?? E' ?. by injection (Ho (S i') (S j) ei ej ltac:(done) ltac:(done) E' ltac:(done)).
Qed.

Lemma name_of_none r h :
  (∀ i e, r !! i = Some e → xHandle e ≠ h) → name_of h r = NULL.
Proof.
  induction r as [|e r IH]; intros Hn; [done|]. cbn.
  rewrite (proj2 (Z.eqb_neq _ _)) by (by apply (Hn 0%nat e)). apply IH. intros i. by apply (Hn (S i)).
Qed.

Lemma name_of_cases r h :
  (∃ i, r !! i = Some (QueueRegistryItem (name_of h r) h)) ∨
  name_of h r = NULL ∧ ∀ i e, r !! i = Some e → xHandle e ≠ h.
Proof.
  induction r as [|e r IH]; [by right|]. cbn. destruct (Z.eqb_spec (xHandle e) h) as [<-|Hne].
  { left. exists 0%nat. by destruct e. }
  destruct IH as [[i Hi]|[E Hn]]; [left; by exists (S i)|right]. split; [done|].
  intros [|i] e' Hi; [by injection Hi as <-|by eapply Hn].
Qed.

(** Registries with the same entries for a queue know it by the same name. *)
Lemma name_of_ext r r' h :
  registry_ok r' → h ≠ NULL →
  (∀ i n, r !! i = Some (QueueRegistryItem n h) ↔ r' !! i = Some (QueueRegistryItem n h)) →
  name_of h r' = name_of h r.
Proof.
  intros Hr' Hh Hext. destruct (name_of_cases r h) as [[i Hi]|[-> Hn]].
  { apply (name_of_some _ i); [done|done|by apply Hext]. }
  apply name_of_none. intros i [n h'] Hi E. cbn in E. subst h'.
  apply Hext in Hi. by apply (Hn _ _ Hi).
Qed.

Lemma entry_to_write_spec h r : ∀ ux w,
  match entry_to_write h ux w r with
  | Some j =>
      (∃ i e, j = (ux + i)%nat ∧ r !! i = Some e ∧ xHandle e = h) ∨
      (∀ i e, r !! i = Some e → xHandle e ≠ h) ∧
      (w = Some j ∨ ∃ i e, j = (ux + i)%nat ∧ r !! i = Some e ∧ pcQueueName e = NULL)
  | None => w = None ∧ ∀ i e, r !! i = Some e → xHandle e ≠ h ∧ pcQueueName e ≠ NULL
  end.
Proof.
  induction r as [|e r IH]; intros ux w; cbn.
  { destruct w; [right; split; [done|by left]|done]. }
  destruct (Z.eqb_spec h (xHandle e)) as [E|Hne].
  { left. exists 0%nat, e. split_and!; [lia|done|done]. }
  assert (Hcons : ∀ P : QueueRegistryItem_t → Prop, P e → (∀ i e', r !! i = Some e' → P e') →
    ∀ i e', (e :: r) !! i = Some e' → P e').
  { intros P He Hr [|i] e' Hi; [by injection Hi as <-|by eapply Hr]. }
  destruct (bool_decide (w = None) && (pcQueueName e =? NULL)) eqn:Eb.
  - apply andb_true_iff in Eb as [->%bool_decide_eq_true En%Z.eqb_eq].
    specialize (IH (S ux) (Some ux)). destruct (entry_to_write h (S ux) (Some ux) r) as [j|]; [|by destruct IH].
    destruct IH as [(i & e' & -> & ? & ?)|[Hn Hj]].
    { left. exists (S i), e'. split_and!; [lia|done|done]. }
    right. split; [apply (Hcons (λ e', xHandle e' ≠ h)); [congruence|done]|right].
    destruct Hj as [[= <-]|(i & e' & -> & ? & ?)].
    + exists 0%nat, e. split_and!; [lia|done|done].
    + exists (S i), e'. split_and!; [lia|done|done].
  - specialize (IH (S ux) w). destruct (entry_to_write h (S ux) w r) as [j|].
    + destruct IH as [(i & e' & -> & ? & ?)|[Hn Hj]].
      { left. exists (S i), e'. split_and!; [lia|done|done]. }
      right. split; [apply (Hcons (λ e', xHandle e' ≠ h)); [congruence|done]|].
      destruct Hj as [->|(i & e' & -> & ? & ?)]; [by left|right].
      exists (S i), e'. split_and!; [lia|done|done].
    + destruct IH as [-> Hn]. split; [done|].
      apply (Hcons (λ e', xHandle e' ≠ h ∧ pcQueueName e' ≠ NULL)); [|done].
      split; [congruence|]. intros E. rewrite E in Eb. done.
Qed.

(** Writing the entry of [h] over its old one, or into a free slot when it has
    none. *)
Lemma registry_ok_insert r i e n h :
  registry_ok r → n ≠ NULL → r !! i = Some e →
  (xHandle e = h ∨ xHandle e = NULL ∧ ∀ i e, r !! i = Some e → xHandle e ≠ h) →
  registry_ok (<[i := QueueRegistryItem n h]> r).
Proof.
  intros [Hf Ho] Hn Hi He. split.
  - intros j e' Hj. apply list_lookup_insert_Some in Hj as [(-> & <- & _)|[_ Hj]]; [done|]. by eapply Hf.
  - intros j k ej ek Hj Hk.
    apply list_lookup_insert_Some in Hj as [(-> & <- & _)|[Hji Hj]];
      apply list_lookup_insert_Some in Hk as [(-> & <- & _)|[Hki Hk]]; cbn; [done|..].
    + intros -> Hh. destruct He as [E|[_ Hno]]; [|by destruct (Hno _ _ Hk)].
      apply (Ho _ _ _ _ Hi Hk); congruence.
    + intros E' Hh. destruct He as [E|[_ Hno]]; [|by destruct (Hno _ _ Hj)].
      apply (Ho _ _ _ _ Hj Hi); congruence.
    + by apply Ho.
Qed.

(** After an addition the queue has its name, and every other queue the name it
    had; only when the queue has no slot and none is free nothing happens. *)
Theorem registry_add h n r :
  registry_ok r → h ≠ NULL → n ≠ NULL →
  wp (vQueueAddToRegistry h n) (λ _ r', registry_ok r' ∧ length r' = length r ∧
    (name_of h r' = n ∧ (∀ h', h' ≠ NULL → h' ≠ h → name_of h' r' = name_of h' r) ∨
     r' = r ∧ ∀ i e, r !! i = Some e → xHandle e ≠ h ∧ pcQueueName e ≠ NULL)) r.
Proof.
  intros Hr Hh Hn. unfold vQueueAddToRegistry.
  apply wp_bind, wp_assert; [by rewrite (proj2 (Z.eqb_neq _ _))|]. apply wp_bind, wp_get. cbv beta zeta.
  rewrite (proj2 (Z.eqb_neq n NULL)) by done. cbn [negb].
  pose proof (entry_to_write_spec h r 0 None) as He. destruct (entry_to_write h 0 None r) as [j|].
  2: { apply wp_ret. destruct He. split_and!; [done|done|by right]. }
  assert (∃ e, r !! j = Some e ∧
    (xHandle e = h ∨ xHandle e = NULL ∧ ∀ i e, r !! i = Some e → xHandle e ≠ h)) as (e & Hj & Hjh).
  { destruct He as [(i & e & -> & Hi & E)|[Hno [?|(i & e & -> & Hi & E)]]]; [by eauto|done|].
    exists e. split; [done|right]. split; [exact (reg_free r Hr _ _ Hi E)|done]. }
  pose proof (registry_ok_insert r j e n h Hr Hn Hj Hjh) as Hr'.
  apply wp_modify. split_and!; [done|apply length_insert|left]. split.
  - apply (name_of_some _ j); [done|done|]. apply list_lookup_insert_eq. by eapply lookup_lt_Some.
  - intros h' Hh' Hne. apply name_of_ext; [done|done|]. intros i m.
    rewrite list_lookup_insert_Some. split.
    + intros Hi. right. split; [|done]. intros <-. rewrite Hj in Hi. injection Hi as ->.
      cbn in Hjh. naive_solver.
    + intros [(_ & E & _)|[_ Hi]]; [|done]. by injection E.
Qed.

Lemma clear_entry_lookup r h : registry_ok r → h ≠ NULL → ∀ i,
  clear_entry h r !! i =
    (λ e, if xHandle e =? h then QueueRegistryItem NULL NULL else e) <$> r !! i.
Proof.
  intros [_ Ho] Hh. induction r as [|e r IH]; intros i; [done|]. cbn [clear_entry].
  destruct (Z.eqb_spec (xHandle e) h) as [E|Hne].
  - destruct i as [|i]; cbn; [by rewrite (proj2 (Z.eqb_eq _ _))|].
    destruct (r !! i) as [e'|] eqn:Hi; [|done]. cbn. destruct (Z.eqb_spec (xHandle e') h) as [E'|]; [|done].
    exfalso. by assert (0%nat = S i) by (by eapply Ho; [done|exact Hi|congruence|congruence]).
  - destruct i as [|i]; cbn; [by rewrite (proj2 (Z.eqb_neq _ _))|]. apply IH.
    intros i' j ei ej ?? E' ?. by injection (Ho (S i') (S j) ei ej ltac:(done) ltac:(done) E' ltac:(done)).
Qed.

(** A removed queue has no name, every other queue the name it had. *)
Lemma unregister_ok h r :
  registry_ok r → h ≠ NULL →
  wp (vQueueUnregisterQueue h) (λ _ r', registry_ok r' ∧ name_of h r' = NULL ∧
    ∀ h', h' ≠ NULL → h' ≠ h → name_of h' r' = name_of h' r) r.
Proof.
  intros Hr Hh. unfold vQueueUnregisterQueue.
  apply wp_bind, wp_assert; [by rewrite (proj2 (Z.eqb_neq _ _))|]. apply wp_modify.
  pose proof (clear_entry_lookup r h Hr Hh) as Hl.
  assert (Hin : ∀ i e', clear_entry h r !! i = Some e' →
    e' = QueueRegistryItem NULL NULL ∨ r !! i = Some e' ∧ xHandle e' ≠ h).
  { intros i e' Hi. rewrite Hl in Hi. destruct (r !! i) as [e|]; [|done]. cbn in Hi.
    destruct (Z.eqb_spec (xHandle e) h); injection Hi as <-; [by left|by right]. }
  assert (Hr' : registry_ok (clear_entry h r)).
  { destruct Hr as [Hf Ho]. split.
    - intros i e' Hi. destruct (Hin _ _ Hi) as [->|[Hi' _]]; [done|]. by eapply Hf.
    - intros i j ei ej Hi Hj E Hn. destruct (Hin _ _ Hi) as [->|[Hi' _]]; [done|].
      destruct (Hin _ _ Hj) as [->|[Hj' _]]; [by rewrite E in Hn|]. by eapply Ho. }
  split_and!; [done| |].
  - apply name_of_none. intros i e' Hi. destruct (Hin _ _ Hi) as [->|[_ ?]]; [|done]. by cbn.
  - intros h' Hh' Hne. apply name_of_ext; [done|done|]. intros i n. rewrite Hl. split.
    + intros ->. cbn. by rewrite (proj2 (Z.eqb_neq _ _)).
    + destruct (r !! i) as [e|]; [|done]. cbn.
      destruct (Z.eqb_spec (xHandle e) h); [|done]. intros [= E1 E2]. by destruct Hh'.
Qed.

(** ** Deletion and mutexes *)

Section life.
Context {H : Type} (vPortFree : Z → M H unit).

(** A deleted queue gives its block back, and its name. *)
Theorem vQueueDelete_frees a r h h' :
  registry_ok r → a ≠ NULL → vPortFree a h = (inl tt, h') →
  wp (vQueueDelete vPortFree a) (λ _ s, s.2 = h' ∧ registry_ok s.1 ∧ name_of a s.1 = NULL ∧
    ∀ b, b ≠ NULL → b ≠ a → name_of b s.1 = name_of b r) (r, h).
Proof.
  intros Hr Ha Hf. unfold vQueueDelete.
  apply wp_bind, wp_assert; [by rewrite (proj2 (Z.eqb_neq _ _))|]. apply wp_bind, wp_zoom. cbn.
  eapply wp_mono; [by apply unregister_ok|cbv beta]. intros _ r' (? & ? & ?).
  apply wp_zoom. cbn. eapply wp_run; [exact Hf|]. done.
Qed.

Context {K : Type} `{TaskOps K} (others : queue * K → queue * K) (ram : Z → Z)
  (pvPortMalloc : Z → M H Z).

(** A mutex nobody holds or waits for. *)
Definition free_mutex (q : queue) : Prop :=
  fresh q ∧ pcHead q = queueQUEUE_IS_MUTEX ∧ xMutexHolder q = None ∧ uxLength q = 1 ∧
  uxItemSize q = 0 ∧ uxMessagesWaiting q = 1.

Lemma initialise_mutex fuel a bytes k :
  xTaskPriorityDisinherit None k = (inl false, k) →
  wp (prvInitialiseMutex others (S fuel)) (λ _ s, free_mutex s.1 ∧ s.2 = k)
    (reset_queue (raw_queue 1 0 a bytes), k).
Proof.
  intros Hd.
  unfold prvInitialiseMutex, xQueueGenericSend, assert_can_wait.
  repeat (first [apply wp_bind|apply wp_rdq|apply wp_mdq|apply wp_ret|apply wp_gets]; cbn).
  rewrite andb_false_r. apply wp_assert; [done|].
  unfold send_now, prvCopyDataToQueue.
  repeat (first [apply wp_bind|apply wp_rdq|apply wp_ret]; cbn).
  apply wp_kern. eapply wp_run; [exact Hd|].
  by repeat (first [apply wp_bind|apply wp_rdq|apply wp_mdq|apply wp_ret]; cbn).
Qed.

(** A new mutex is free, for every scheduler that has nothing to do when
    nobody held the mutex; NULL only if there is no block for it. *)
Theorem xQueueCreateMutex_free fuel k h a h' :
  xTaskPriorityDisinherit None k = (inl false, k) →
  pvPortMalloc sizeof_Queue_t h = (inl a, h') →
  wp (xQueueCreateMutex others pvPortMalloc ram (S fuel) k) (λ r h'', h'' = h' ∧
    if a =? NULL then r = None else ∃ q, r = Some (a, (q, k)) ∧ free_mutex q) h.
Proof.
  intros Hd Hm. unfold xQueueCreateMutex. apply wp_bind. unfold xQueueGenericCreate.
  change (_ && _ && _) with true. cbv iota. apply wp_bind.
  eapply wp_run; [exact Hm|]. destruct (a =? NULL) eqn:Ea; simpl negb; cbv iota.
  { by do 2 apply wp_ret. }
  rewrite prvInitialiseNewQueue_run by (unfold SIZE_MAX; lia). apply wp_ret. cbn.
  pose proof (initialise_mutex fuel a (ram <$> seqZ (a + sizeof_Queue_t) (1 * 0)) k Hd) as Hi.
  unfold wp in Hi. destruct (prvInitialiseMutex _ _ _) as [[[]|e] [q k']]; [|done].
  apply wp_ret. destruct Hi as [Hq E]. cbn in E. subst k'. eauto.
Qed.
End life.

(** ** The wait of the timer task *)

Section restricted.
Context {K : Type} `{TaskLaws K} (others : queue * K → queue * K).
Context (place : list task_handle → Z → bool → M K (list task_handle)).
Context (Hplace : ∀ l n b k, k_live k → wp (place l n b) (λ _ k', k_step k k') k).

(** The queue stays a queue, whatever tasks and handlers do meanwhile. *)
Theorem vQueueWaitForMessageRestricted_drifts n b :
  env_ok others → drifts (vQueueWaitForMessageRestricted others place n b).
Proof using Hplace.
  intros Ho. unfold vQueueWaitForMessageRestricted.
  apply drifts_bind; [apply drifts_quiet, prvLockQueue_quiet|intros []].
  apply drifts_bind; [by apply drifts_preempt|intros []].
  apply drifts_bind; [apply drifts_rdq|intros c].
  apply drifts_bind; [by apply drifts_preempt|intros []].
  apply drifts_bind; [apply drifts_when|intros []; by apply drifts_unlock].
  apply drifts_bind; [apply drifts_rdq|intros l].
  apply drifts_bind; [apply drifts_kern; auto|intros l'].
  apply drifts_quiet. intros. by apply mdq_quiet.
Qed.

(** Left alone, the calling task waits exactly if there is no message, and
    the queue is unlocked again. *)
Theorem vQueueWaitForMessageRestricted_waits n b q k l k' :
  (∀ s, others s = s) → k_live k → cRxLock q = queueUNLOCKED → cTxLock q = queueUNLOCKED →
  place (xTasksWaitingToReceive q) n b k = (inl l, k') →
  wp (vQueueWaitForMessageRestricted others place n b) (λ _ s',
    s' = if uxMessagesWaiting q =? 0 then (set_xTasksWaitingToReceive l q, k') else (q, k)) (q, k).
Proof.
  intros Ho Hk Hrx Htx Hp. unfold vQueueWaitForMessageRestricted, prvLockQueue.
  destruct q as [hd wr tl rd mx ws wl n' len sz rx tx st]. cbn in *. subst rx tx.
  repeat (first [apply wp_bind|apply wp_rdq|apply wp_mdq|apply wp_preempt]; cbn; rewrite ?Ho).
  assert (Hu : ∀ l k, wp (prvUnlockQueue others) (λ _ s', s' =
      (Queue hd wr tl rd mx ws l n' len sz queueUNLOCKED queueUNLOCKED st, k))
    (Queue hd wr tl rd mx ws l n' len sz queueLOCKED_UNMODIFIED queueLOCKED_UNMODIFIED st, k)).
  { intros. unfold prvUnlockQueue, unlock_receivers, unlock_senders.
    repeat (first [apply wp_bind|apply wp_rdq|apply wp_mdq|apply wp_preempt|apply wp_ret]; cbn;
      rewrite ?Ho). done. }
  apply wp_when; intros E; rewrite E; [|apply Hu].
  apply wp_bind, wp_rdq, wp_bind, wp_kern. eapply wp_run; [exact Hp|]. apply wp_mdq, Hu.
Qed.
End restricted.

(** ** Instances *)

(** The registry when it has named a queue, and a renamed one. *)
Example registry_used :
  (vQueueAddToRegistry 4096 100;; vQueueAddToRegistry 8192 200;; vQueueAddToRegistry 4096 300;;
   a ← pcQueueGetName 4096; b ← pcQueueGetName 8192;
   vQueueUnregisterQueue 4096;; c ← pcQueueGetName 4096; mret (a, b, c)) xQueueRegistry =
  (inl (300, 200, NULL), QueueRegistryItem NULL NULL :: QueueRegistryItem 200 8192 ::
     replicate 6 (QueueRegistryItem NULL NULL)).
Proof. reflexivity. Qed.

Lemma xQueueRegistry_ok : registry_ok xQueueRegistry.
Proof.
  split; [by intros i e [-> _]%lookup_replicate|].
  by intros i j ei ej [-> _]%lookup_replicate.
Qed.

Lemma xQueueCreateMutex_free_witness :
  wp (xQueueCreateMutex taker demo_malloc (λ _, 0) 1 (Clock 0)) (λ r h'', h'' = tt ∧
    ∃ q, r = Some (4096, (q, Clock 0)) ∧ free_mutex q) tt.
Proof. by apply (xQueueCreateMutex_free taker (λ _, 0) demo_malloc 0 (Clock 0) tt 4096 tt). Defined.
