(* ===== verification/Heap4.v ===== *)
(** The FreeRTOS heap, [freertos/portable/MemMang/heap_4.c], without the heap
    protector and without the malloc-failed hook (config/FreeRTOSConfig.h):
    first-fit allocation from an address-ordered list of free blocks, and
    freeing with coalescing.

    The memory is a map from the addresses where the code keeps a
    [BlockLink_t] to its contents; [xStart] is the address of the static list
    head.  Pointers are addresses, NULL is 0. *)
From stdpp Require Import base tactics numbers list gmap.
From S2P Require Import Prelude Words Sched Queue.

(** ** Constants and state *)

Definition configTOTAL_HEAP_SIZE : Z := 64 * 1024.
Definition portBYTE_ALIGNMENT : Z := 8.
Definition portBYTE_ALIGNMENT_MASK : Z := 7.

Record BlockLink_t := BlockLink {
  pxNextFreeBlock : Z;
  xBlockSize : Z
}.

(** sizeof( BlockLink_t ), rounded up to the alignment. *)
Definition xHeapStructSize : Z :=
  Z.land (8 + (portBYTE_ALIGNMENT - 1)) (u32 (Z.lnot portBYTE_ALIGNMENT_MASK)).
Definition heapMINIMUM_BLOCK_SIZE : Z := Z.shiftl xHeapStructSize 1.
Definition heapBLOCK_ALLOCATED_BITMASK : Z := Z.shiftl 1 31.

Record heap := Heap {
  mem : gmap Z BlockLink_t;
  pxEnd : Z;
  xFreeBytesRemaining : Z;
  xMinimumEverFreeBytesRemaining : Z;
  xNumberOfSuccessfulAllocations : Z;
  xNumberOfSuccessfulFrees : Z
}.

(** At start-up every static is 0. *)
Definition heap_reset : heap := Heap ∅ NULL 0 0 0 0.

Definition heapADD_WILL_OVERFLOW (a b : Z) : bool := SIZE_MAX - b <? a.
Definition heapMULTIPLY_WILL_OVERFLOW (a b : Z) : bool := (0 <? a) && (SIZE_MAX / a <? b).
Definition heapSUBTRACT_WILL_UNDERFLOW (a b : Z) : bool := a <? b.
Definition heapBLOCK_SIZE_IS_VALID (size : Z) : bool :=
  Z.land size heapBLOCK_ALLOCATED_BITMASK =? 0.
Definition heapBLOCK_IS_ALLOCATED (b : BlockLink_t) : bool :=
  negb (Z.land (xBlockSize b) heapBLOCK_ALLOCATED_BITMASK =? 0).
Definition heapALLOCATE_BLOCK (size : Z) : Z := Z.lor size heapBLOCK_ALLOCATED_BITMASK.
Definition heapFREE_BLOCK (size : Z) : Z :=
  Z.land size (u32 (Z.lnot heapBLOCK_ALLOCATED_BITMASK)).

(** The size of the block for a request: with its header, rounded up to the
    alignment; 0 when there is none. *)
Definition wanted_size (xWantedSize : Z) : Z :=
  if 0 <? xWantedSize then
    if negb (heapADD_WILL_OVERFLOW xWantedSize xHeapStructSize) then
      let w := xWantedSize + xHeapStructSize in
      if negb (Z.land w portBYTE_ALIGNMENT_MASK =? 0) then
        let add := portBYTE_ALIGNMENT - Z.land w portBYTE_ALIGNMENT_MASK in
        if negb (heapADD_WILL_OVERFLOW w add) then w + add else 0
      else w
    else 0
  else xWantedSize.

(** ** Operations *)

Section ops.
Context {K : Type} `{TaskOps K}.
(** The addresses of the array [ucHeap] and of the list head [xStart]. *)
Context (ucHeap xStart : Z).

Definition hstate : Type := heap * K.
Definition hget {A} (f : heap → A) : M hstate A := gets (λ s, f s.1).
Definition hmod (f : heap → heap) : M hstate unit := modify (λ s, (f s.1, s.2)).
Definition sched {A} (m : M K A) : M hstate A := zoom snd (λ k s, (s.1, k)) m.

Definition load (p : Z) : M hstate BlockLink_t :=
  m ← hget mem; of_option (m !! p).
Definition store (p : Z) (b : BlockLink_t) : M hstate unit :=
  hmod (λ h, Heap (<[p := b]> (mem h)) (pxEnd h) (xFreeBytesRemaining h)
    (xMinimumEverFreeBytesRemaining h) (xNumberOfSuccessfulAllocations h)
    (xNumberOfSuccessfulFrees h)).

Definition heapVALIDATE_BLOCK_POINTER (p : Z) : M hstate unit :=
  assert_that ((ucHeap <=? p) && (p <=? ucHeap + configTOTAL_HEAP_SIZE - 1)).

(** More links than the list can have: a free block has at least 8 bytes. *)
Definition heap_fuel : nat := Z.to_nat (configTOTAL_HEAP_SIZE / 8 + 2).

Definition start_address : Z :=
  if negb (Z.land ucHeap portBYTE_ALIGNMENT_MASK =? 0) then
    Z.land (u32 (ucHeap + (portBYTE_ALIGNMENT - 1))) (u32 (Z.lnot portBYTE_ALIGNMENT_MASK))
  else ucHeap.
Definition end_address : Z :=
  let xTotalHeapSize := configTOTAL_HEAP_SIZE - (start_address - ucHeap) in
  Z.land (u32 (start_address + xTotalHeapSize - xHeapStructSize))
    (u32 (Z.lnot portBYTE_ALIGNMENT_MASK)).

Definition prvHeapInit : M hstate unit :=
  store xStart (BlockLink start_address 0);;
  hmod (λ h, Heap (mem h) end_address (xFreeBytesRemaining h)
    (xMinimumEverFreeBytesRemaining h) (xNumberOfSuccessfulAllocations h)
    (xNumberOfSuccessfulFrees h));;
  store end_address (BlockLink NULL 0);;
  let size := u32 (end_address - start_address) in
  store start_address (BlockLink end_address size);;
  hmod (λ h, Heap (mem h) (pxEnd h) size size (xNumberOfSuccessfulAllocations h)
    (xNumberOfSuccessfulFrees h)).

(** The [while] loop of [pvPortMalloc]: the first block of adequate size, or
    the end marker, with the block before it. *)
Fixpoint find_block (fuel : nat) (want prev blk : Z) : M hstate (Z * Z) :=
  match fuel with
  | O => fail OutOfFuel
  | S fuel =>
      b ← load blk;
      if (xBlockSize b <? want) && negb (pxNextFreeBlock b =? NULL) then
        heapVALIDATE_BLOCK_POINTER (pxNextFreeBlock b);;
        find_block fuel want blk (pxNextFreeBlock b)
      else mret (prev, blk)
  end.

(** Take the block [blk] after [prev] out of the list, split it if the rest is
    large enough, and mark it as allocated. *)
Definition take_block (want prev blk : Z) : M hstate Z :=
  pb ← load prev;
  let pvReturn := pxNextFreeBlock pb + xHeapStructSize in
  heapVALIDATE_BLOCK_POINTER pvReturn;;
  b ← load blk;
  store prev (BlockLink (pxNextFreeBlock b) (xBlockSize pb));;
  assert_that (negb (heapSUBTRACT_WILL_UNDERFLOW (xBlockSize b) want));;
  when_ (heapMINIMUM_BLOCK_SIZE <? xBlockSize b - want)
    (let pxNewBlockLink := blk + want in
     assert_that (Z.land pxNewBlockLink portBYTE_ALIGNMENT_MASK =? 0);;
     pb ← load prev;
     store pxNewBlockLink (BlockLink (pxNextFreeBlock pb) (xBlockSize b - want));;
     store blk (BlockLink (pxNextFreeBlock b) want);;
     store prev (BlockLink pxNewBlockLink (xBlockSize pb)));;
  b ← load blk;
  hmod (λ h,
    let free := u32 (xFreeBytesRemaining h - xBlockSize b) in
    Heap (mem h) (pxEnd h) free
      (if free <? xMinimumEverFreeBytesRemaining h then free
       else xMinimumEverFreeBytesRemaining h)
      (xNumberOfSuccessfulAllocations h) (xNumberOfSuccessfulFrees h));;
  store blk (BlockLink NULL (heapALLOCATE_BLOCK (xBlockSize b)));;
  hmod (λ h, Heap (mem h) (pxEnd h) (xFreeBytesRemaining h)
    (xMinimumEverFreeBytesRemaining h) (u32 (xNumberOfSuccessfulAllocations h + 1))
    (xNumberOfSuccessfulFrees h));;
  mret pvReturn.

Definition pvPortMalloc (xWantedSize : Z) : M hstate Z :=
  let want := wanted_size xWantedSize in
  sched vTaskSuspendAll;;
  e ← hget pxEnd;
  when_ (e =? NULL) prvHeapInit;;
  free ← hget xFreeBytesRemaining;
  pvReturn ←
    (if heapBLOCK_SIZE_IS_VALID want && ((0 <? want) && (want <=? free)) then
       st ← load xStart;
       heapVALIDATE_BLOCK_POINTER (pxNextFreeBlock st);;
       '(prev, blk) ← find_block heap_fuel want xStart (pxNextFreeBlock st);
       e ← hget pxEnd;
       if negb (blk =? e) then take_block want prev blk else mret NULL
     else mret NULL);
  sched xTaskResumeAll;;
  assert_that (Z.land pvReturn portBYTE_ALIGNMENT_MASK =? 0);;
  mret pvReturn.

(** The [for] loop of [prvInsertBlockIntoFreeList]: the last block of the list
    below the one to insert. *)
Fixpoint find_place (fuel : nat) (blk it : Z) : M hstate Z :=
  match fuel with
  | O => fail OutOfFuel
  | S fuel =>
      b ← load it;
      if pxNextFreeBlock b <? blk then find_place fuel blk (pxNextFreeBlock b)
      else mret it
  end.

Definition prvInsertBlockIntoFreeList (pxBlockToInsert : Z) : M hstate unit :=
  pxIterator ← find_place heap_fuel pxBlockToInsert xStart;
  when_ (negb (pxIterator =? xStart)) (heapVALIDATE_BLOCK_POINTER pxIterator);;
  it ← load pxIterator;
  b ← load pxBlockToInsert;
  pxBlockToInsert ←
    (if pxIterator + xBlockSize it =? pxBlockToInsert then
       store pxIterator (BlockLink (pxNextFreeBlock it) (u32 (xBlockSize it + xBlockSize b)));;
       mret pxIterator
     else mret pxBlockToInsert);
  it ← load pxIterator;
  b ← load pxBlockToInsert;
  e ← hget pxEnd;
  (if pxBlockToInsert + xBlockSize b =? pxNextFreeBlock it then
     if negb (pxNextFreeBlock it =? e) then
       n ← load (pxNextFreeBlock it);
       store pxBlockToInsert
         (BlockLink (pxNextFreeBlock n) (u32 (xBlockSize b + xBlockSize n)))
     else store pxBlockToInsert (BlockLink e (xBlockSize b))
   else store pxBlockToInsert (BlockLink (pxNextFreeBlock it) (xBlockSize b)));;
  when_ (negb (pxIterator =? pxBlockToInsert))
    (it ← load pxIterator; store pxIterator (BlockLink pxBlockToInsert (xBlockSize it))).

Definition vPortFree (pv : Z) : M hstate unit :=
  if negb (pv =? NULL) then
    let pxLink := pv - xHeapStructSize in
    heapVALIDATE_BLOCK_POINTER pxLink;;
    b ← load pxLink;
    assert_that (heapBLOCK_IS_ALLOCATED b);;
    assert_that (pxNextFreeBlock b =? NULL);;
    store pxLink (BlockLink (pxNextFreeBlock b) (heapFREE_BLOCK (xBlockSize b)));;
    sched vTaskSuspendAll;;
    b ← load pxLink;
    hmod (λ h, Heap (mem h) (pxEnd h) (u32 (xFreeBytesRemaining h + xBlockSize b))
      (xMinimumEverFreeBytesRemaining h) (xNumberOfSuccessfulAllocations h)
      (xNumberOfSuccessfulFrees h));;
    prvInsertBlockIntoFreeList pxLink;;
    hmod (λ h, Heap (mem h) (pxEnd h) (xFreeBytesRemaining h)
      (xMinimumEverFreeBytesRemaining h) (xNumberOfSuccessfulAllocations h)
      (u32 (xNumberOfSuccessfulFrees h + 1)));;
    sched xTaskResumeAll;;
    mret tt
  else mret tt.

(** The [memset] fills the payload, which is not part of the model. *)
Definition pvPortCalloc (xNum xSize : Z) : M hstate Z :=
  if negb (heapMULTIPLY_WILL_OVERFLOW xNum xSize)
  then pvPortMalloc (u32 (xNum * xSize)) else mret NULL.

Definition xPortGetFreeHeapSize : M hstate Z := hget xFreeBytesRemaining.
Definition xPortGetMinimumEverFreeHeapSize : M hstate Z := hget xMinimumEverFreeBytesRemaining.
Definition xPortResetHeapMinimumEverFreeHeapSize : M hstate unit :=
  hmod (λ h, Heap (mem h) (pxEnd h) (xFreeBytesRemaining h) (xFreeBytesRemaining h)
    (xNumberOfSuccessfulAllocations h) (xNumberOfSuccessfulFrees h)).

(** [HeapStats_t]: the largest and smallest free block and their number. *)
Fixpoint heap_stats_loop (fuel : nat) (blk blocks maxs mins : Z) : M hstate (Z * Z * Z) :=
  match fuel with
  | O => fail OutOfFuel
  | S fuel =>
      e ← hget pxEnd;
      if negb (blk =? e) then
        b ← load blk;
        heap_stats_loop fuel (pxNextFreeBlock b) (u32 (blocks + 1))
          (if maxs <? xBlockSize b then xBlockSize b else maxs)
          (if xBlockSize b <? mins then xBlockSize b else mins)
      else mret (maxs, mins, blocks)
  end.

(** Before the first allocation [xStart] is still zero, so its next pointer is
    NULL. *)
Definition vPortGetHeapStats : M hstate (Z * Z * Z) :=
  sched vTaskSuspendAll;;
  m ← hget mem;
  let st := default (BlockLink NULL 0) (m !! xStart) in
  r ← (if negb (pxNextFreeBlock st =? NULL)
       then heap_stats_loop heap_fuel (pxNextFreeBlock st) 0 0 SIZE_MAX
       else mret (0, SIZE_MAX, 0));
  sched xTaskResumeAll;;
  mret r.

Definition vPortHeapResetState : M hstate unit :=
  hmod (λ h, Heap (mem h) NULL 0 0 0 0).
End ops.

(** Allocate, free, allocate again: on a heap at 0x20000004. *)
Example heap_runs :
  let ops := (a ← pvPortMalloc (K := clock) 0x20000004 0x100 20;
     b ← pvPortMalloc 0x20000004 0x100 100;
     vPortFree 0x20000004 0x100 a;;
     c ← pvPortMalloc 0x20000004 0x100 30;
     d ← pvPortMalloc 0x20000004 0x100 16;
     vPortFree 0x20000004 0x100 b;;
     vPortFree 0x20000004 0x100 c;;
     vPortFree 0x20000004 0x100 d;;
     s ← vPortGetHeapStats 0x100;
     mret ([a; b; c; d], s)) in
  (ops (heap_reset, Clock 0)).1 =
  inl ([0x20000010; 0x20000030; 0x200000a0; 0x20000010], (65520, 65520, 1)).
Proof. vm_compute. reflexivity. Qed.

(** * The abstract heap

    The heap as a sequence of blocks: the abstract first-fit allocator, and
    what the list of free blocks in memory looks like while it represents such
    a sequence. *)

(** A block: whether it is in use, and its size with the header. *)
Definition seg : Type := bool * Z.

(** ** The abstract allocator *)

Definition split_block (want s : Z) (t : list seg) : list seg :=
  if heapMINIMUM_BLOCK_SIZE <? s - want then (true, want) :: (false, s - want) :: t
  else (true, s) :: t.

(** First fit, from address [a] on: the address of the block taken, and the
    blocks afterwards. *)
Fixpoint abs_take (want a : Z) (segs : list seg) : option (Z * list seg) :=
  match segs with
  | [] => None
  | (u, s) :: t =>
      if negb u && (want <=? s) then Some (a, split_block want s t)
      else match abs_take want (a + s) t with
           | Some (b, t') => Some (b, (u, s) :: t')
           | None => None
           end
  end.

(** A free block of size [s] in front of the blocks [t]. *)
Definition merge (s : Z) (t : list seg) : list seg :=
  match t with
  | (false, s') :: t' => (false, s + s') :: t'
  | _ => (false, s) :: t
  end.

(** Free the block in use at address [b]. *)
Fixpoint abs_free (b a : Z) (segs : list seg) : option (list seg) :=
  match segs with
  | [] => None
  | (true, s) :: t =>
      if a =? b then Some (merge s t) else cons (true, s) <$> abs_free b (a + s) t
  | (false, s) :: t =>
      match t with
      | (true, s') :: t' =>
          if a + s =? b then Some (merge (s + s') t')
          else cons (false, s) <$> abs_free b (a + s) t
      | _ => cons (false, s) <$> abs_free b (a + s) t
      end
  end.

Fixpoint total (segs : list seg) : Z :=
  match segs with [] => 0 | (_, s) :: t => s + total t end.
Fixpoint free_total (segs : list seg) : Z :=
  match segs with [] => 0 | (u, s) :: t => (if u then 0 else s) + free_total t end.

(** Sizes are positive multiples of the alignment. *)
Definition good_seg (sg : seg) : Prop := 0 < sg.2 ∧ (8 | sg.2).

Lemma total_nonneg segs : Forall good_seg segs → 0 ≤ total segs.
Proof. induction 1 as [|[u s] t [Hs _] _ IH]; simpl in *; lia. Qed.

Lemma free_total_bounds segs : Forall good_seg segs → 0 ≤ free_total segs ≤ total segs.
Proof. induction 1 as [|[u s] t [Hs _] _ IH]; simpl in *; [lia|]. destruct u; lia. Qed.

Lemma total_length segs : Forall good_seg segs → 8 * Z.of_nat (length segs) ≤ total segs.
Proof.
  induction 1 as [|[u s] t [Hs [c Hc]] _ IH]; simpl in *; lia.
Qed.

(** ** The list of free blocks in memory *)

(** The address of the first free block from [a] on, or of the end marker. *)
Fixpoint next_free (a : Z) (segs : list seg) : Z :=
  match segs with
  | [] => a
  | (true, s) :: t => next_free (a + s) t
  | (false, _) :: _ => a
  end.

Fixpoint segs_in (m : gmap Z BlockLink_t) (a : Z) (segs : list seg) : Prop :=
  match segs with
  | [] => m !! a = Some (BlockLink NULL 0)
  | (u, s) :: t =>
      m !! a = Some (if u then BlockLink NULL (heapALLOCATE_BLOCK s)
                     else BlockLink (next_free (a + s) t) s) ∧
      segs_in m (a + s) t
  end.

(** An address that is not one of the heap from [a] on. *)
Definition apart (p a : Z) (segs : list seg) : Prop := p < a ∨ a + total segs < p.

Lemma next_free_ge a segs : Forall good_seg segs → a ≤ next_free a segs ≤ a + total segs.
Proof.
  intros Hg. revert a. induction Hg as [|[u s] t [Hs _] Ht IH]; intros a; simpl in *; [lia|].
  destruct u; [specialize (IH (a + s)); lia|]. pose proof (total_nonneg t Ht). lia.
Qed.

Lemma next_free_at a segs :
  Forall good_seg segs → next_free a segs = a → segs = [] ∨ ∃ s t, segs = (false, s) :: t.
Proof.
  intros Hg. destruct segs as [|[u s] t]; simpl; [by left|].
  inversion Hg as [|? ? [Hs _] Ht]; subst. simpl in Hs.
  destruct u; [|right; by eauto]. pose proof (next_free_ge (a + s) t Ht). lia.
Qed.

Lemma segs_in_frame m p b a segs :
  Forall good_seg segs → apart p a segs → segs_in m a segs → segs_in (<[p := b]> m) a segs.
Proof.
  intros Hg. revert a. induction Hg as [|[u s] t [Hs _] Ht IH]; intros a Hp; simpl in *.
  - intros. rewrite lookup_insert_ne; [done|]. unfold apart in Hp. simpl in Hp. lia.
  - unfold apart in *. simpl in *. pose proof (total_nonneg t Ht). intros [Hm Hr]. split.
    + rewrite lookup_insert_ne; [done|lia].
    + apply IH; [lia|done].
Qed.

(** ** Taking a block *)

(** The block before the one [abs_take] takes: the last free one, or
    [prev]. *)
Fixpoint take_prev (want prev a : Z) (segs : list seg) : Z :=
  match segs with
  | [] => prev
  | (u, s) :: t =>
      if negb u && (want <=? s) then prev
      else take_prev want (if u then prev else a) (a + s) t
  end.

(** The memory after [take_block]. *)
Definition take_mem (want p b : Z) (m : gmap Z BlockLink_t) : gmap Z BlockLink_t :=
  match m !! p, m !! b with
  | Some (BlockLink _ ps), Some (BlockLink nxt s) =>
      if heapMINIMUM_BLOCK_SIZE <? s - want then
        <[b := BlockLink NULL (heapALLOCATE_BLOCK want)]>
          (<[p := BlockLink (b + want) ps]> (<[b := BlockLink nxt want]>
            (<[b + want := BlockLink nxt (s - want)]> (<[p := BlockLink nxt ps]> m))))
      else <[b := BlockLink NULL (heapALLOCATE_BLOCK s)]> (<[p := BlockLink nxt ps]> m)
  | _, _ => m
  end.

Lemma segs_in_ext m m' a segs :
  Forall good_seg segs → (∀ x, a ≤ x → m' !! x = m !! x) →
  segs_in m a segs → segs_in m' a segs.
Proof.
  intros Hg. revert a. induction Hg as [|[u s] t [Hs _] Ht IH]; intros a Hx; simpl in *.
  - by rewrite Hx.
  - intros [? ?]. split; [by rewrite Hx|]. apply IH; [|done]. intros. apply Hx. lia.
Qed.

Section take.
Context (want : Z) (Hwant : 0 < want) (Hw8 : (8 | want)).

Lemma take_here prev ps a s t m :
  good_seg (false, s) → Forall good_seg t → want ≤ s →
  apart prev a ((false, s) :: t) →
  m !! prev = Some (BlockLink a ps) → segs_in m a ((false, s) :: t) →
  let m' := take_mem want prev a m in
  let segs' := split_block want s t in
  m' !! prev = Some (BlockLink (next_free a segs') ps) ∧ segs_in m' a segs' ∧
  (∀ x, x ≠ prev → apart x a ((false, s) :: t) → m' !! x = m !! x).
Proof using Hwant.
  intros [Hs _] Ht Hfit Hp Hprev [Hm Hr]. simpl in Hs. cbv zeta.
  unfold take_mem, split_block. rewrite Hprev, Hm.
  pose proof (total_nonneg t Ht). unfold apart in *. simpl in Hp.
  assert (Hmin : heapMINIMUM_BLOCK_SIZE = 16) by reflexivity.
  destruct (Z.ltb_spec heapMINIMUM_BLOCK_SIZE (s - want)).
  - split_and!.
    + rewrite lookup_insert_ne by lia. rewrite lookup_insert_eq. simpl. done.
    + simpl. split; [by rewrite lookup_insert_eq|].
      replace (a + want + (s - want)) with (a + s) by lia.
      rewrite !lookup_insert_ne by lia. rewrite lookup_insert_eq. split; [done|].
      do 5 (apply segs_in_frame; [done|unfold apart; lia|]). done.
    + intros x Hx Hax. simpl in Hax. rewrite !lookup_insert_ne by lia. done.
  - split_and!.
    + rewrite lookup_insert_ne by lia. by rewrite lookup_insert_eq.
    + simpl. split; [by rewrite lookup_insert_eq|].
      do 2 (apply segs_in_frame; [done|unfold apart; lia|]). done.
    + intros x Hx Hax. simpl in Hax. rewrite !lookup_insert_ne by lia. done.
Qed.

Lemma take_mem_ok segs : ∀ prev ps a m b segs',
  Forall good_seg segs → apart prev a segs →
  m !! prev = Some (BlockLink (next_free a segs) ps) → segs_in m a segs →
  abs_take want a segs = Some (b, segs') →
  let m' := take_mem want (take_prev want prev a segs) b m in
  m' !! prev = Some (BlockLink (next_free a segs') ps) ∧ segs_in m' a segs' ∧
  (∀ x, x ≠ prev → apart x a segs → m' !! x = m !! x).
Proof using Hwant.
  induction segs as [|[u s] t IH]; intros prev ps a m b segs' Hg Hp Hprev Hm Hab; [done|].
  apply Forall_cons in Hg as [Hs Ht]. pose proof Hs as [Hs0 _]. simpl in Hs0.
  pose proof (total_nonneg t Ht). simpl in Hab |- *.
  destruct (negb u && (want <=? s)) eqn:Efit.
  { apply andb_true_iff in Efit as [Hu Hle%Z.leb_le]. destruct u; [done|].
    injection Hab as <- <-. by apply take_here. }
  destruct (abs_take want (a + s) t) as [[b' t']|] eqn:Et; [|done]. injection Hab as <- <-.
  destruct Hm as [Hma Hmt]. unfold apart in *. simpl in Hp. destruct u.
  - destruct (IH prev ps (a + s) m b' t') as (H1 & H2 & H3); try done; [lia|].
    split; [done|split; [split; [|done]|]].
    + rewrite H3 by lia. done.
    + intros x Hx Hax. simpl in Hax. apply H3; [done|lia].
  - destruct (IH a s (a + s) m b' t') as (H1 & H2 & H3); try done; [lia|].
    split; [|split; [by split|]].
    + rewrite H3 by lia. done.
    + intros x Hx Hax. simpl in Hax. apply H3; lia.
Qed.

(** What the code relies on at the block it takes. *)
Lemma take_found segs : ∀ prev ps a m b segs',
  Forall good_seg segs → m !! prev = Some (BlockLink (next_free a segs) ps) → segs_in m a segs →
  abs_take want a segs = Some (b, segs') →
  ∃ nxt s ps', m !! b = Some (BlockLink nxt s) ∧ want ≤ s ∧ good_seg (false, s) ∧
    m !! take_prev want prev a segs = Some (BlockLink b ps') ∧
    a ≤ b ∧ b + s ≤ a + total segs ∧ s ≤ free_total segs ∧ ((8 | a) → (8 | b)) ∧
    free_total segs' = free_total segs -
      (if heapMINIMUM_BLOCK_SIZE <? s - want then want else s) ∧
    total segs' = total segs ∧ Forall good_seg segs'.
Proof using Hwant Hw8.
  induction segs as [|[u s] t IH]; intros prev ps a m b segs' Hg Hprev Hm Hab; [done|].
  apply Forall_cons in Hg as [Hs Ht]. pose proof Hs as [Hs0 Hs8]. simpl in Hs0, Hs8.
  pose proof (free_total_bounds t Ht). simpl in Hab |- *. destruct Hm as [Hma Hmt].
  destruct (negb u && (want <=? s)) eqn:Efit.
  - apply andb_true_iff in Efit as [Hu Hle%Z.leb_le]. destruct u; [done|].
    injection Hab as <- <-. eexists _, s, ps. split_and!; try done; try lia.
    + unfold split_block. destruct (Z.ltb_spec heapMINIMUM_BLOCK_SIZE (s - want)); simpl; lia.
    + unfold split_block. destruct (Z.ltb_spec heapMINIMUM_BLOCK_SIZE (s - want)); simpl; lia.
    + unfold split_block. destruct (Z.ltb_spec heapMINIMUM_BLOCK_SIZE (s - want)).
      * assert (heapMINIMUM_BLOCK_SIZE = 16) by reflexivity.
        repeat constructor; simpl; try done; try lia. by apply Z.divide_sub_r.
      * by repeat constructor.
  - destruct (abs_take want (a + s) t) as [[b' t']|] eqn:Et; [|done]. injection Hab as <- <-.
    destruct u.
    + destruct (IH prev ps (a + s) m b' t') as (nxt & s' & ps' & ? & ? & ? & ? & ? & ? & ? & H8 & ? & ? & ?);
        try done. exists nxt, s', ps'. split_and!; try done; simpl; try lia.
      * intros. apply H8. by apply Z.divide_add_r.
      * by constructor.
    + destruct (IH a s (a + s) m b' t') as (nxt & s' & ps' & ? & ? & ? & ? & ? & ? & ? & H8 & ? & ? & ?);
        try done. exists nxt, s', ps'. split_and!; try done; simpl; try lia.
      * intros. apply H8. by apply Z.divide_add_r.
      * by constructor.
Qed.

Lemma take_prev_apart segs : ∀ prev a b segs',
  Forall good_seg segs → apart prev a segs → abs_take want a segs = Some (b, segs') →
  take_prev want prev a segs < b ∨ a + total segs < take_prev want prev a segs.
Proof using Type.
  induction segs as [|[u s] t IH]; intros prev a b segs' Hg Hp Hab; [done|].
  apply Forall_cons in Hg as [[Hs _] Ht]. simpl in Hs, Hab |- *. pose proof (total_nonneg t Ht).
  unfold apart in *. simpl in Hp.
  destruct (negb u && (want <=? s)); [injection Hab as <- _; lia|].
  destruct (abs_take want (a + s) t) as [[b' t']|] eqn:Et; [|done]. injection Hab as <- _.
  rewrite Z.add_assoc. eapply IH; [done| |done]. destruct u; lia.
Qed.
End take.

(** ** Putting a block back *)

(** The last free block below [b], or [prev]. *)
Fixpoint free_prev (b prev a : Z) (segs : list seg) : Z :=
  match segs with
  | [] => prev
  | (u, s) :: t =>
      if b <=? a then prev else free_prev b (if u then prev else a) (a + s) t
  end.

(** The memory after [prvInsertBlockIntoFreeList], for a list that ends at
    [e]. *)
Definition insert_mem (e p b : Z) (m : gmap Z BlockLink_t) : gmap Z BlockLink_t :=
  match m !! p, m !! b with
  | Some (BlockLink n ps), Some (BlockLink _ bs) =>
      let joined := p + ps =? b in
      let blk := if joined then p else b in
      let size := if joined then ps + bs else bs in
      let m1 := if joined then <[p := BlockLink n size]> m else m in
      let link :=
        if blk + size =? n then
          if n =? e then BlockLink e size
          else match m1 !! n with
               | Some (BlockLink n' s') => BlockLink n' (size + s')
               | None => BlockLink 0 0
               end
        else BlockLink n size in
      let m2 := <[blk := link]> m1 in
      if p =? blk then m2 else <[p := BlockLink blk ps]> m2
  | _, _ => m
  end.

Lemma abs_free_below b a segs : Forall good_seg segs → b < a → abs_free b a segs = None.
Proof.
  intros Hg. revert a. induction Hg as [|[u s] t [Hs _] Ht IH]; intros a Hb; [done|].
  simpl in Hs |- *. destruct u; [rewrite (proj2 (Z.eqb_neq _ _)) by lia; by rewrite IH by lia|].
  rewrite IH by lia. destruct t as [|[[] s'] t']; [done| |done].
  by rewrite (proj2 (Z.eqb_neq _ _)) by lia.
Qed.

Lemma abs_free_free a s t :
  Forall good_seg ((false, s) :: t) → abs_free a a ((false, s) :: t) = None.
Proof.
  intros [[Hs _] Ht]%Forall_cons. simpl in Hs |- *.
  rewrite abs_free_below by (done || lia). destruct t as [|[[] s'] t']; [done| |done].
  by rewrite (proj2 (Z.eqb_neq _ _)) by lia.
Qed.

(** The link written for a block in front of the blocks [t] at [a]. *)
Lemma insert_link m a t size n :
  Forall good_seg t → segs_in m a t → n = next_free a t →
  (if a =? n then
     if n =? a + total t then BlockLink (a + total t) size
     else match m !! n with
          | Some (BlockLink n' s') => BlockLink n' (size + s')
          | None => BlockLink 0 0
          end
   else BlockLink n size) =
  match merge size t with
  | (_, s) :: t' => BlockLink (next_free (a - size + s) t') s
  | [] => BlockLink 0 0
  end.
Proof.
  intros Ht Hm ->. destruct t as [|[[] s] t]; simpl.
  - rewrite !Z.eqb_refl. rewrite (proj2 (Z.eqb_eq a (a + 0))) by lia.
    f_equal. lia.
  - apply Forall_cons in Ht as [[Hs _] Ht]. simpl in Hs.
    pose proof (next_free_ge (a + s) t Ht). rewrite (proj2 (Z.eqb_neq _ _)) by lia.
    f_equal. f_equal. lia.
  - apply Forall_cons in Ht as [[Hs _] Ht]. simpl in Hs. pose proof (total_nonneg t Ht).
    rewrite Z.eqb_refl, (proj2 (Z.eqb_neq _ _)) by lia. destruct Hm as [-> _].
    f_equal. f_equal. lia.
Qed.

(** The merged block, and the blocks after it, which are where they were. *)
Lemma merge_shape m a t size :
  0 < size → Forall good_seg t → segs_in m a t →
  ∃ s1 t', merge size t = (false, s1) :: t' ∧ size ≤ s1 ∧ s1 + total t' = size + total t ∧
    Forall good_seg t' ∧ segs_in m (a - size + s1) t'.
Proof.
  intros Hs Ht Hm. destruct t as [|[[] s] t]; simpl in *.
  - exists size, []. split_and!; try done; simpl; try lia. by replace (a - size + size) with a by lia.
  - exists size, ((true, s) :: t). replace (a - size + size) with a by lia.
    split_and!; try done; simpl; try lia; apply Hm.
  - apply Forall_cons in Ht as [[Hs' _] Ht]. simpl in Hs'. exists (size + s), t.
    replace (a - size + (size + s)) with (a + s) by lia.
    split_and!; try done; try lia; apply Hm.
Qed.

Lemma merge_good s t : good_seg (false, s) → Forall good_seg t → Forall good_seg (merge s t).
Proof.
  intros Hg Ht. destruct t as [|[[] s'] t']; simpl; [by constructor|by constructor|].
  apply Forall_cons in Ht as [[Hs' Hs8'] Ht]. destruct Hg as [Hs Hs8]. simpl in *.
  constructor; [|done]. split; simpl; [lia|by apply Z.divide_add_r].
Qed.

Lemma merge_total s t : total (merge s t) = s + total t ∧
  free_total (merge s t) = s + free_total t.
Proof. destruct t as [|[[] s'] t']; simpl; lia. Qed.

(** Inserting the block at [b], the first one of the blocks from there on. *)
Lemma insert_here prev ps b s t m :
  good_seg (true, s) → Forall good_seg t → apart prev b ((true, s) :: t) → prev + ps ≠ b →
  m !! prev = Some (BlockLink (next_free (b + s) t) ps) →
  m !! b = Some (BlockLink NULL s) → segs_in m (b + s) t →
  let m' := insert_mem (b + s + total t) prev b m in
  m' !! prev = Some (BlockLink b ps) ∧ segs_in m' b (merge s t) ∧
  (∀ x, x ≠ prev → apart x b ((true, s) :: t) → m' !! x = m !! x).
Proof.
  intros [Hs _] Ht Hp Hadj Hprev Hb Hm. simpl in Hs. cbv zeta. unfold insert_mem.
  pose proof (total_nonneg t Ht). unfold apart in *. simpl in Hp.
  rewrite Hprev, Hb, (proj2 (Z.eqb_neq (prev + ps) b)) by done.
  rewrite (insert_link m (b + s) t s _ Ht Hm eq_refl).
  rewrite (proj2 (Z.eqb_neq prev b)) by lia.
  destruct (merge_shape m (b + s) t s Hs Ht Hm) as (s1 & t' & -> & Hs1 & Htot & Ht' & Hm').
  pose proof (total_nonneg t' Ht').
  split; [by rewrite lookup_insert_eq|].
  split; [|intros x Hx Hax; simpl in Hax; by rewrite !lookup_insert_ne by lia].
  replace (b + s - s + s1) with (b + s1) in * by lia. split.
  - rewrite lookup_insert_ne by lia. by rewrite lookup_insert_eq.
  - do 2 (apply segs_in_frame; [done|unfold apart; lia|]). done.
Qed.

(** The block at [b] comes right after the free block at [a]. *)
Lemma insert_joined a s b s2 t m :
  good_seg (false, s) → good_seg (true, s2) → Forall good_seg t → a + s = b →
  m !! a = Some (BlockLink (next_free (b + s2) t) s) →
  m !! b = Some (BlockLink NULL s2) → segs_in m (b + s2) t →
  let m' := insert_mem (b + s2 + total t) a b m in
  segs_in m' a (merge (s + s2) t) ∧
  (∀ x, apart x a ((false, s) :: (true, s2) :: t) → m' !! x = m !! x).
Proof.
  intros [Hs _] [Hs2 _] Ht Hab Ha Hb Hm. simpl in Hs, Hs2. cbv zeta. unfold insert_mem.
  pose proof (total_nonneg t Ht). unfold apart. simpl.
  rewrite Ha, Hb, (proj2 (Z.eqb_eq (a + s) b)) by done. rewrite (Z.eqb_refl a).
  replace (b + s2) with (a + (s + s2)) in * by lia.
  set (m1 := <[a := BlockLink _ (s + s2)]> m).
  assert (Hm1 : segs_in m1 (a + (s + s2)) t).
  { apply segs_in_frame; [done|unfold apart; lia|done]. }
  rewrite (insert_link m1 (a + (s + s2)) t (s + s2) _ Ht Hm1 eq_refl).
  destruct (merge_shape m1 (a + (s + s2)) t (s + s2)) as
    (s1 & t' & -> & Hs1 & Htot & Ht' & Hm'); [lia|done..|].
  pose proof (total_nonneg t' Ht').
  replace (a + (s + s2) - (s + s2) + s1) with (a + s1) in * by lia.
  split; [split|].
  - by rewrite lookup_insert_eq.
  - apply segs_in_frame; [done|unfold apart; lia|done].
  - intros x Hax. subst m1. by rewrite !lookup_insert_ne by lia.
Qed.

Lemma abs_free_inv b a s t segs' :
  Forall good_seg t → abs_free b a ((false, s) :: t) = Some segs' →
  (∃ s2 t2, t = (true, s2) :: t2 ∧ a + s = b ∧ segs' = merge (s + s2) t2) ∨
  (a + s ≠ b ∧ ∃ t', abs_free b (a + s) t = Some t' ∧ segs' = (false, s) :: t').
Proof.
  intros Ht. simpl. destruct t as [|[[] s2] t2]; [done| |].
  - destruct (Z.eqb_spec (a + s) b).
    + intros [= <-]. left. by exists s2, t2.
    + intros (t' & Ht' & ->)%fmap_Some. right. eauto.
  - intros (t' & Ht' & ->)%fmap_Some. right. split; [|eauto].
    intros <-. by rewrite abs_free_free in Ht'.
Qed.

Lemma next_free_merge a s t : next_free a (merge s t) = a.
Proof. by destruct t as [|[[] ?] ?]. Qed.

Lemma abs_free_range segs : ∀ b a segs',
  Forall good_seg segs → abs_free b a segs = Some segs' → a ≤ b ≤ a + total segs.
Proof.
  induction segs as [|[u s] t IH]; intros b a segs' Hg Hab; [done|].
  apply Forall_cons in Hg as [[Hs _] Ht]. simpl in Hs |- *. pose proof (total_nonneg t Ht).
  destruct u.
  - simpl in Hab. destruct (Z.eqb_spec a b); [lia|].
    apply fmap_Some in Hab as (t' & Hab & _). apply IH in Hab; [lia|done].
  - apply abs_free_inv in Hab as [(s2 & t2 & -> & <- & _)|(_ & t' & Hab & _)]; [lia| |done].
    apply IH in Hab; [lia|done].
Qed.

(** The memory that represents the blocks [segs'], with the list linked from
    [prev]; nothing outside changes. *)
Definition relinked (prev ps a : Z) (segs segs' : list seg) (m m' : gmap Z BlockLink_t) : Prop :=
  m' !! prev = Some (BlockLink (next_free a segs') ps) ∧ segs_in m' a segs' ∧
  (∀ x, x ≠ prev → apart x a segs → m' !! x = m !! x).

Lemma relinked_used prev ps a s t t' m m' :
  good_seg (true, s) → Forall good_seg t → apart prev a ((true, s) :: t) →
  segs_in m a ((true, s) :: t) →
  relinked prev ps (a + s) t t' m m' →
  relinked prev ps a ((true, s) :: t) ((true, s) :: t') m m'.
Proof.
  intros [Hs _] Ht Hp [Hm _] (H1 & H2 & H3). simpl in Hs. pose proof (total_nonneg t Ht).
  unfold apart in *. simpl in Hp. split; [done|]. split; [split; [|done]|].
  - by rewrite H3 by lia.
  - intros x Hx Hax. unfold apart in Hax. simpl in Hax. apply H3; [done|lia].
Qed.

Lemma relinked_free prev ps a s t t' m m' :
  good_seg (false, s) → Forall good_seg t → apart prev a ((false, s) :: t) →
  m !! prev = Some (BlockLink a ps) →
  relinked a s (a + s) t t' m m' →
  relinked prev ps a ((false, s) :: t) ((false, s) :: t') m m'.
Proof.
  intros [Hs _] Ht Hp Hprev (H1 & H2 & H3). simpl in Hs. pose proof (total_nonneg t Ht).
  unfold apart in *. simpl in Hp. split; [rewrite (H3 prev) by lia; exact Hprev|]. split; [done|].
  intros x Hx Hax. unfold apart in Hax. simpl in Hax. apply H3; lia.
Qed.

(** The block [abs_free] frees is in use; with its mark cleared and inserted
    into the list, the memory represents the freed blocks. *)
Lemma insert_mem_ok segs : ∀ prev ps a m b segs',
  Forall good_seg segs → apart prev a segs → prev + ps ≠ b →
  m !! prev = Some (BlockLink (next_free a segs) ps) → segs_in m a segs →
  abs_free b a segs = Some segs' →
  ∃ s0, m !! b = Some (BlockLink NULL (heapALLOCATE_BLOCK s0)) ∧ good_seg (true, s0) ∧
    a ≤ b ∧ b + s0 ≤ a + total segs ∧
    free_total segs' = free_total segs + s0 ∧ total segs' = total segs ∧ Forall good_seg segs' ∧
    relinked prev ps a segs segs' m
      (insert_mem (a + total segs) (free_prev b prev a segs) b (<[b := BlockLink NULL s0]> m)).
Proof.
  induction segs as [|[u s] t IH]; intros prev ps a m b segs' Hg Hp Hadj Hprev Hm Hab; [done|].
  pose proof Hg as [Hs Ht]%Forall_cons. pose proof Hs as [Hs0 Hs8]. simpl in Hs0, Hs8.
  pose proof (total_nonneg t Ht). pose proof Hm as [Hma Hmt]. destruct u.
  - simpl in Hab. destruct (Z.eqb_spec a b) as [->|].
    + injection Hab as <-. exists s. destruct (merge_total s t) as [Htot Hft].
      simpl total. simpl free_total. simpl free_prev. rewrite Htot, Hft.
      assert (prev ≠ b) by (unfold apart in Hp; simpl in Hp; lia).
      split_and!; try done; try lia; [by apply merge_good|].
      rewrite (proj2 (Z.leb_le b b)) by lia. rewrite Z.add_assoc.
      destruct (insert_here prev ps b s t (<[b:=BlockLink NULL s]> m)) as (H1 & H2 & H3); try done.
      * by rewrite lookup_insert_ne.
      * by rewrite lookup_insert_eq.
      * apply segs_in_frame; [done|unfold apart; lia|done].
      * split; [by rewrite next_free_merge|]. split; [done|]. intros x Hx Hax.
        rewrite H3 by done. unfold apart in Hax. simpl in Hax. by rewrite lookup_insert_ne by lia.
    + apply fmap_Some in Hab as (t' & Ht' & ->).
      destruct (IH prev ps (a + s) m b t') as (s0 & ? & ? & ? & ? & Hf & Htt & ? & Hr); try done.
      { unfold apart in *. simpl in Hp. lia. }
      exists s0. split; [done|]. split; [done|]. simpl total. simpl free_total. simpl free_prev.
      rewrite (proj2 (Z.leb_gt b a)) by lia. rewrite Z.add_assoc.
      split_and!; try lia; [by constructor|]. by apply relinked_used.
  - apply abs_free_inv in Hab as [(s2 & t2 & -> & Hb & ->)|(Hne & t' & Ht' & ->)]; [..|done].
    + destruct Hmt as [Hm2 Hmt]. apply Forall_cons in Ht as [Hs2 Ht2].
      pose proof (total_nonneg t2 Ht2). pose proof Hs2 as [Hs20 Hs28]. simpl in Hs20, Hs28.
      exists s2. destruct (merge_total (s + s2) t2) as [Htot Hft].
      cbn [total free_total free_prev next_free] in *. rewrite Htot, Hft.
      rewrite (proj2 (Z.leb_gt b a)), (proj2 (Z.leb_le b (a + s))) by lia.
      split; [by rewrite <-Hb|]. split; [done|].
      split_and!; try lia.
      { apply merge_good; [|done]. split; simpl; [lia|by apply Z.divide_add_r]. }
      rewrite !Z.add_assoc, Hb.
      destruct (insert_joined a s b s2 t2 (<[b:=BlockLink NULL s2]> m)) as (H2 & H3); try done.
      * rewrite lookup_insert_ne by lia. rewrite Hma. by rewrite Hb.
      * by rewrite lookup_insert_eq.
      * apply segs_in_frame; [done|unfold apart; lia|by rewrite <-Hb].
      * unfold apart in Hp. simpl in Hp. split; [|split; [done|]].
        { rewrite next_free_merge, H3 by (unfold apart; simpl; lia).
          by rewrite lookup_insert_ne by lia. }
        intros x Hx Hax. rewrite H3 by done. unfold apart in Hax. simpl in Hax.
        by rewrite lookup_insert_ne by lia.
    + destruct (IH a s (a + s) m b t') as (s0 & ? & ? & ? & ? & Hf & Htt & ? & Hr); try done.
      { unfold apart. lia. }
      exists s0. split; [done|]. split; [done|]. simpl total. simpl free_total. simpl free_prev.
      rewrite (proj2 (Z.leb_gt b a)) by lia. rewrite Z.add_assoc.
      split_and!; try lia; [by constructor|]. by apply relinked_free.
Qed.

(** What the code finds where it inserts a block below the end. *)
Lemma next_free_in m a segs :
  Forall good_seg segs → segs_in m a segs →
  ∃ n s, m !! next_free a segs = Some (BlockLink n s) ∧ 0 ≤ s ≤ total segs.
Proof.
  intros Hg. revert a. induction Hg as [|[u s] t [Hs _] Ht IH]; intros a Hm; simpl in *.
  - eexists _, _. split; [exact Hm|lia].
  - pose proof (total_nonneg t Ht). destruct Hm as [Hma Hmt]. destruct u.
    + destruct (IH (a + s) Hmt) as (n & s' & ? & ?). exists n, s'. split; [done|lia].
    + eexists _, _. split; [exact Hma|lia].
Qed.

Lemma free_prev_link b segs : ∀ prev ps a m,
  Forall good_seg segs → segs_in m a segs →
  m !! prev = Some (BlockLink (next_free a segs) ps) → 0 ≤ ps →
  ∃ n ps' n' s', m !! free_prev b prev a segs = Some (BlockLink n ps') ∧
    0 ≤ ps' ≤ Z.max ps (total segs) ∧ m !! n = Some (BlockLink n' s') ∧
    0 ≤ s' ≤ total segs ∧
    (free_prev b prev a segs = prev ∨ a ≤ free_prev b prev a segs < b).
Proof.
  induction segs as [|[u s] t IH]; intros prev ps a m Hg Hm Hp Hps.
  { simpl in *. eexists _, _, _, _. split_and!; [exact Hp|lia|lia|exact Hm|lia|lia|by left]. }
  pose proof (next_free_in m a _ Hg Hm) as (n & s' & Hn & Hs').
  apply Forall_cons in Hg as [[Hs _] Ht]. simpl in Hs. pose proof (total_nonneg t Ht).
  destruct Hm as [Hma Hmt]. cbn [free_prev]. destruct (Z.leb_spec b a) as [Hle|Hlt].
  { eexists _, _, _, _. split_and!; [exact Hp|lia|lia|exact Hn|lia|lia|by left]. }
  simpl in *. destruct u.
  - destruct (IH prev ps (a + s) m) as (n1 & ps1 & n2 & s2 & ? & ? & ? & ? & ?); try done.
    exists n1, ps1, n2, s2. split_and!; try done; lia.
  - destruct (IH a s (a + s) m) as (n1 & ps1 & n2 & s2 & ? & ? & ? & ? & ?); try done; [lia|].
    exists n1, ps1, n2, s2. split_and!; try done; lia.
Qed.

(** ** Free neighbours are always merged *)

Definition starts_free (segs : list seg) : bool :=
  match segs with (false, _) :: _ => true | _ => false end.

Fixpoint coalesced (segs : list seg) : Prop :=
  match segs with
  | [] => True
  | (u, _) :: t => (u = false → starts_free t = false) ∧ coalesced t
  end.

Lemma split_coalesced want s t :
  coalesced ((false, s) :: t) → coalesced (split_block want s t).
Proof.
  intros [Ht Hc]. unfold split_block. destruct (heapMINIMUM_BLOCK_SIZE <? s - want); simpl; auto.
Qed.

Lemma take_coalesced want segs : ∀ a b segs',
  coalesced segs → abs_take want a segs = Some (b, segs') →
  coalesced segs' ∧ (starts_free segs = false → starts_free segs' = false).
Proof.
  induction segs as [|[u s] t IH]; intros a b segs' Hc Hab; [done|].
  simpl in Hab. destruct (negb u && (want <=? s)) eqn:Eu.
  - injection Hab as <- <-. destruct u; [done|]. split; [by apply split_coalesced|done].
  - destruct (abs_take want (a + s) t) as [[b' t']|] eqn:Et; [|done]. injection Hab as <- <-.
    destruct Hc as [Hu Hc]. destruct (IH (a + s) b' t' Hc Et) as [Hc' Hst].
    split; [|by destruct u]. split; [auto|done].
Qed.

Lemma merge_coalesced s t : coalesced t → coalesced (merge s t).
Proof. destruct t as [|[[] s'] t']; simpl; [done|auto|]. intros [? ?]. auto. Qed.

Lemma free_coalesced segs : ∀ b a segs',
  Forall good_seg segs → coalesced segs → abs_free b a segs = Some segs' →
  coalesced segs' ∧ (a ≠ b → starts_free segs = false → starts_free segs' = false).
Proof.
  induction segs as [|[u s] t IH]; intros b a segs' Hg Hc Hab; [done|].
  apply Forall_cons in Hg as [Hs Ht]. destruct Hc as [Hu Hc]. destruct u.
  - simpl in Hab. destruct (Z.eqb_spec a b) as [->|].
    + injection Hab as <-. split; [by apply merge_coalesced|done].
    + apply fmap_Some in Hab as (t' & Ht' & ->). destruct (IH b (a + s) t') as [Hc' _]; [done..|].
      split; [by split|done].
  - apply abs_free_inv in Hab as [(s2 & t2 & -> & Hb & ->)|(Hne & t' & Ht' & ->)]; [..|done].
    + destruct Hc as [_ Hc]. split; [by apply merge_coalesced|done].
    + destruct (IH b (a + s) t') as [Hc' Hst]; [done..|].
      split; [|done]. split; [auto|done].
Qed.

(** Freeing undoes allocating. *)
Lemma free_take want segs : ∀ a b segs',
  0 < want → Forall good_seg segs → coalesced segs → abs_take want a segs = Some (b, segs') →
  abs_free b a segs' = Some segs ∧ a ≤ b ∧ (starts_free segs = false → a < b).
Proof.
  intros a b segs' Hw. revert a b segs'.
  induction segs as [|[u s] t IH]; intros a b segs' Hg Hc Hab; [done|].
  apply Forall_cons in Hg as [[Hs _] Ht]. simpl in Hs, Hab. destruct Hc as [Hu Hc].
  destruct (negb u && (want <=? s)) eqn:Eu.
  - injection Hab as <- <-. destruct u; [done|]. split; [|split; [lia|done]].
    unfold split_block. destruct (Z.ltb_spec heapMINIMUM_BLOCK_SIZE (s - want)).
    + simpl. rewrite Z.eqb_refl. repeat f_equal. lia.
    + simpl. rewrite Z.eqb_refl. f_equal. destruct t as [|[[] s'] t']; [done..|].
      by specialize (Hu eq_refl).
  - destruct (abs_take want (a + s) t) as [[b' t']|] eqn:Et; [|done]. injection Hab as <- <-.
    destruct (IH (a + s) b' t' Ht Hc Et) as (Hf & Hle & Hlt). split; [|lia]. destruct u.
    + simpl. rewrite (proj2 (Z.eqb_neq a b')) by lia. by rewrite Hf.
    + specialize (Hlt (Hu eq_refl)). simpl. rewrite Hf.
      destruct t' as [|[[] s'] t'']; [done| |done].
      by rewrite (proj2 (Z.eqb_neq (a + s) b')) by lia.
Qed.

(** ** The blocks in use *)

(** Their addresses and sizes. *)
Fixpoint used_blocks (a : Z) (segs : list seg) : list (Z * Z) :=
  match segs with
  | [] => []
  | (u, s) :: t => (if u then [(a, s)] else []) ++ used_blocks (a + s) t
  end.

Lemma used_in a segs b s :
  Forall good_seg segs → (b, s) ∈ used_blocks a segs → a ≤ b ∧ 0 < s ∧ b + s ≤ a + total segs.
Proof.
  intros Hg. revert a. induction Hg as [|[u s'] t [Hs _] Ht IH]; intros a Hin; simpl in *.
  { by apply elem_of_nil in Hin. }
  pose proof (total_nonneg t Ht). apply elem_of_app in Hin as [Hin|Hin].
  - destruct u; [|by apply elem_of_nil in Hin].
    apply list_elem_of_singleton in Hin. injection Hin as -> ->. lia.
  - apply IH in Hin. lia.
Qed.

Lemma take_after want segs : ∀ a b segs',
  Forall good_seg segs → abs_take want a segs = Some (b, segs') → a ≤ b.
Proof.
  induction segs as [|[u s] t IH]; intros a b segs' Hg Hab; [done|].
  apply Forall_cons in Hg as [[Hs _] Ht]. simpl in Hs, Hab.
  destruct (negb u && (want <=? s)); [injection Hab as <- _; lia|].
  destruct (abs_take want (a + s) t) as [[b' t']|] eqn:Et; [|done]. injection Hab as <- _.
  apply IH in Et; [lia|done].
Qed.

(** Taking a block leaves the others in use, and is apart from them. *)
Lemma take_disjoint want segs : ∀ a b segs' c s,
  0 < want → Forall good_seg segs → abs_take want a segs = Some (b, segs') →
  (c, s) ∈ used_blocks a segs →
  (c, s) ∈ used_blocks a segs' ∧ (b + want ≤ c ∨ c + s ≤ b).
Proof.
  intros a b segs' c s Hw. revert a b segs'.
  induction segs as [|[u s'] t IH]; intros a b segs' Hg Hab Hin; [done|].
  apply Forall_cons in Hg as [[Hs _] Ht]. simpl in Hs, Hab.
  destruct (negb u && (want <=? s')) eqn:Eu.
  - apply andb_true_iff in Eu as [Hu Hle%Z.leb_le]. destruct u; [done|].
    injection Hab as <- <-. simpl in Hin. pose proof (used_in _ _ _ _ Ht Hin). split; [|lia].
    unfold split_block. destruct (heapMINIMUM_BLOCK_SIZE <? s' - want); simpl.
    + apply elem_of_cons. right. by replace (a + want + (s' - want)) with (a + s') by lia.
    + apply elem_of_cons. by right.
  - destruct (abs_take want (a + s') t) as [[b' t']|] eqn:Et; [|done]. injection Hab as <- <-.
    simpl in Hin |- *. apply elem_of_app in Hin as [Hin|Hin].
    + split; [apply elem_of_app; by left|]. right. destruct u; [|by apply elem_of_nil in Hin].
      apply list_elem_of_singleton in Hin. injection Hin as -> ->.
      apply take_after in Et; [lia|done].
    + destruct (IH (a + s') b' t') as [? ?]; [done..|]. split; [|done].
      apply elem_of_app. by right.
Qed.

Lemma take_used want segs : ∀ a b segs',
  abs_take want a segs = Some (b, segs') →
  ∃ s, want ≤ s ∧ (b, s) ∈ used_blocks a segs'.
Proof.
  induction segs as [|[u s] t IH]; intros a b segs' Hab; [done|]. simpl in Hab.
  destruct (negb u && (want <=? s)) eqn:Eu.
  - apply andb_true_iff in Eu as [Hu Hle%Z.leb_le]. injection Hab as <- <-. unfold split_block.
    destruct (heapMINIMUM_BLOCK_SIZE <? s - want);
      [exists want|exists s]; (split; [lia|]); simpl; apply elem_of_cons; by left.
  - destruct (abs_take want (a + s) t) as [[b' t']|] eqn:Et; [|done]. injection Hab as <- <-.
    destruct (IH _ _ _ Et) as (s' & ? & ?). exists s'. split; [done|]. simpl.
    apply elem_of_app. by right.
Qed.

(** When nothing is in use there is one free block. *)
Lemma all_free a segs :
  Forall good_seg segs → coalesced segs → used_blocks a segs = [] → 0 < total segs →
  segs = [(false, total segs)].
Proof.
  intros Hg Hc Hu Ht. destruct segs as [|[u s] t]; simpl in *; [lia|].
  destruct u; [done|]. simpl in Hu. destruct t as [|[[] s'] t'].
  - simpl. repeat f_equal. lia.
  - done.
  - destruct Hc as [Hc _]. by specialize (Hc eq_refl).
Qed.

Lemma take_none want a segs :
  abs_take want a segs = None → Forall (λ sg : seg, sg.1 = false → sg.2 < want) segs.
Proof.
  revert a. induction segs as [|[u s] t IH]; intros a Hab; [done|]. simpl in Hab.
  destruct (negb u && (want <=? s)) eqn:Eu; [done|].
  destruct (abs_take want (a + s) t) as [[b' t']|] eqn:Et; [done|].
  constructor; [|by eapply IH]. simpl. intros ->. by apply Z.leb_gt in Eu.
Qed.
