(* ===== verification/Heap4Thm.v ===== *)
(** [pvPortMalloc] and [vPortFree] implement the abstract first-fit allocator:
    blocks that are aligned, inside the heap and apart from each other; a
    request fails only when no free block is large enough; and freeing merges
    with the free neighbours. *)
From stdpp Require Import base tactics numbers list gmap.
From S2P Require Import Prelude Words Sched Queue QueueApi Heap4.

(** ** Sizes and marks *)

Lemma align_down x : 0 ≤ x < 4294967296 → Z.land x (u32 (Z.lnot 7)) = x / 8 * 8.
Proof. apply (land_align x 32 3); lia. Qed.

Lemma align_test x : Z.land x 7 = x mod 8.
Proof. by apply (land_mask x 3). Qed.

Lemma aligned_divide x : (8 | x) ↔ Z.land x 7 = 0.
Proof. rewrite align_test. symmetry. by apply Z.mod_divide. Qed.

Lemma alloc_free s : 0 ≤ s < 2147483648 → heapFREE_BLOCK (heapALLOCATE_BLOCK s) = s.
Proof. apply (land_top_clear s 31). lia. Qed.

Lemma alloc_marked p s : heapBLOCK_IS_ALLOCATED (BlockLink p (heapALLOCATE_BLOCK s)) = true.
Proof.
  unfold heapBLOCK_IS_ALLOCATED. simpl. rewrite negb_true_iff, Z.eqb_neq.
  apply (land_top_set s 31). lia.
Qed.

Lemma free_unmarked p s :
  0 ≤ s < 2147483648 → heapBLOCK_IS_ALLOCATED (BlockLink p s) = false.
Proof.
  intros. unfold heapBLOCK_IS_ALLOCATED. simpl. rewrite negb_false_iff, Z.eqb_eq.
  apply (land_top_small s 31); lia.
Qed.

Lemma size_valid s : 0 ≤ s < 2147483648 → heapBLOCK_SIZE_IS_VALID s = true.
Proof.
  intros. unfold heapBLOCK_SIZE_IS_VALID. apply Z.eqb_eq. apply (land_top_small s 31); lia.
Qed.

(** The size of the block for a request: room for the request and the
    header, a multiple of the alignment, less than one alignment too large;
    none for an empty request or one whose rounding does not fit a [size_t]. *)
Lemma wanted_size_spec x :
  0 ≤ x ≤ SIZE_MAX →
  (wanted_size x = 0 ∧ (x = 0 ∨ SIZE_MAX - 15 < x + 8)) ∨
  ((8 | wanted_size x) ∧ x + xHeapStructSize ≤ wanted_size x < x + xHeapStructSize + 8 ∧
   0 < wanted_size x ≤ SIZE_MAX).
Proof.
  intros Hx. unfold wanted_size, heapADD_WILL_OVERFLOW, portBYTE_ALIGNMENT_MASK, portBYTE_ALIGNMENT.
  change xHeapStructSize with 8. unfold SIZE_MAX in *. rewrite align_test.
  pose proof (Z.mod_pos_bound (x + 8) 8 ltac:(lia)) as Hm.
  pose proof (Z.div_mod (x + 8) 8 ltac:(lia)) as Hd.
  destruct (Z.ltb_spec 0 x); [|left; lia].
  destruct (Z.ltb_spec (4294967295 - 8) x); simpl; [left; lia|].
  destruct (Z.eqb_spec ((x + 8) mod 8) 0) as [E|E]; simpl.
  - right. split; [by apply Z.mod_divide|lia].
  - destruct (Z.ltb_spec (4294967295 - (8 - (x + 8) mod 8)) (x + 8)); simpl; [left; lia|].
    right. split; [|lia]. exists ((x + 8) / 8 + 1). lia.
Qed.

(** ** The representation of the heap *)

Section heap.
Context (ucHeap xStart : Z).

(** The array is in RAM, and the list head is not in it. *)
Record heap_layout : Prop := {
  lay_heap : 0 < ucHeap ∧ ucHeap + configTOTAL_HEAP_SIZE < 4294967296;
  lay_start : 0 < xStart;
  lay_apart : xStart < ucHeap ∨ ucHeap + configTOTAL_HEAP_SIZE ≤ xStart
}.
Context (Hlay : heap_layout).

Local Abbreviation A := (start_address ucHeap).
Local Abbreviation E := (end_address ucHeap).

Lemma start_address_spec : (8 | A) ∧ ucHeap ≤ A < ucHeap + 8.
Proof using Hlay.
  destruct Hlay as [[Hh Ht] _ _]. unfold configTOTAL_HEAP_SIZE in Ht.
  unfold start_address, portBYTE_ALIGNMENT_MASK, portBYTE_ALIGNMENT. rewrite align_test.
  pose proof (Z.mod_pos_bound ucHeap 8 ltac:(lia)) as Hm.
  pose proof (Z.div_mod ucHeap 8 ltac:(lia)) as Hd.
  destruct (Z.eqb_spec (ucHeap mod 8) 0) as [E0|E0]; simpl.
  - split; [by apply Z.mod_divide|lia].
  - rewrite u32_id, align_down by lia. split; [by exists ((ucHeap + (8 - 1)) / 8)|].
    pose proof (Z.mod_pos_bound (ucHeap + (8 - 1)) 8 ltac:(lia)).
    pose proof (Z.div_mod (ucHeap + (8 - 1)) 8 ltac:(lia)). lia.
Qed.

Lemma end_address_spec :
  (8 | E) ∧ ucHeap + configTOTAL_HEAP_SIZE - 16 < E ≤ ucHeap + configTOTAL_HEAP_SIZE - 8.
Proof using Hlay.
  pose proof start_address_spec as [_ HA]. destruct Hlay as [[Hh Ht] _ _].
  unfold end_address, configTOTAL_HEAP_SIZE in *. change xHeapStructSize with 8.
  set (x := A + _ - 8). assert (Hx : x = ucHeap + 65528) by (subst x; lia).
  unfold portBYTE_ALIGNMENT_MASK. rewrite u32_id, align_down by lia.
  pose proof (Z.mod_pos_bound x 8 ltac:(lia)). pose proof (Z.div_mod x 8 ltac:(lia)).
  split; [by exists (x / 8)|lia].
Qed.

(** The heap holds the blocks [segs]. *)
Record heap_rep (h : heap) (segs : list seg) : Prop := {
  rep_end : pxEnd h = E;
  rep_good : Forall good_seg segs;
  rep_total : A + total segs = E;
  rep_start : mem h !! xStart = Some (BlockLink (next_free A segs) 0);
  rep_mem : segs_in (mem h) A segs;
  rep_free : xFreeBytesRemaining h = free_total segs;
  rep_min : 0 ≤ xMinimumEverFreeBytesRemaining h ≤ free_total segs;
  rep_coalesced : coalesced segs
}.

(** One free block before and after the first call initialises the heap. *)
Definition heap_state (h : heap) (segs : list seg) : Prop :=
  heap_rep h segs ∨ (pxEnd h = NULL ∧ segs = [(false, E - A)] ).

Lemma start_apart segs : A + total segs = E → apart xStart A segs.
Proof using Hlay.
  intros Ht. pose proof start_address_spec as [_ HA]. pose proof end_address_spec as [_ HE].
  destruct Hlay as [_ _ Hap]. unfold apart, configTOTAL_HEAP_SIZE in *. lia.
Qed.

Lemma heap_length segs :
  Forall good_seg segs → A + total segs = E → (length segs < heap_fuel)%nat.
Proof using Hlay.
  intros Hg Ht. pose proof (total_length segs Hg).
  pose proof start_address_spec as [_ HA]. pose proof end_address_spec as [_ HE].
  unfold heap_fuel, configTOTAL_HEAP_SIZE in *. change (64 * 1024 / 8 + 2) with 8194. lia.
Qed.

Definition in_heap (p : Z) : Prop := ucHeap ≤ p ≤ ucHeap + configTOTAL_HEAP_SIZE - 1.

Lemma in_heap_seg p segs : A + total segs = E → A ≤ p ≤ A + total segs → in_heap p.
Proof using Hlay.
  intros Ht. pose proof start_address_spec as [_ HA]. pose proof end_address_spec as [_ HE].
  unfold in_heap, configTOTAL_HEAP_SIZE in *. lia.
Qed.

(** ** The loops and the updates *)

Section code.
Context {K : Type} `{TaskLaws K}.
Implicit Types (h : heap) (k : K).

Definition set_mem (m : gmap Z BlockLink_t) h : heap :=
  Heap m (pxEnd h) (xFreeBytesRemaining h) (xMinimumEverFreeBytesRemaining h)
    (xNumberOfSuccessfulAllocations h) (xNumberOfSuccessfulFrees h).

Lemma wp_load p b (Q : BlockLink_t → heap * K → Prop) h k :
  mem h !! p = Some b → Q b (h, k) → wp (load p) Q (h, k).
Proof. intros Hm HQ. apply wp_bind, wp_gets. by eapply wp_of_option. Qed.

Lemma wp_store p b (Q : unit → heap * K → Prop) h k :
  Q tt (set_mem (<[p := b]> (mem h)) h, k) → wp (store p b) Q (h, k).
Proof. done. Qed.

Lemma wp_valid p (Q : unit → heap * K → Prop) h k :
  in_heap p → Q tt (h, k) → wp (heapVALIDATE_BLOCK_POINTER ucHeap p) Q (h, k).
Proof.
  intros [? ?] HQ. apply wp_assert; [|done]. apply andb_true_iff.
  split; apply Z.leb_le; lia.
Qed.

Lemma wp_sched {B} (m : M K B) (Q : B → heap * K → Prop) h k :
  wp m (λ b k', Q b (h, k')) k → wp (sched m) Q (h, k).
Proof. intros. by apply wp_zoom. Qed.

(** The search finds the first block that fits, or the end marker. *)
Lemma find_block_ok want segs : 0 < want → ∀ fuel prev a h k,
  Forall good_seg segs → segs_in (mem h) a segs → (length segs < fuel)%nat → 0 < a →
  (∀ p, a ≤ p ≤ a + total segs → in_heap p) →
  wp (find_block ucHeap fuel want prev (next_free a segs)) (λ r s', s' = (h, k) ∧
    match abs_take want a segs with
    | Some (b, _) => r = (take_prev want prev a segs, b)
    | None => r.2 = a + total segs
    end) (h, k).
Proof.
  intros Hw. induction segs as [|[u s] t IH]; intros fuel prev a h k Hg Hm Hf Ha Hv.
  - destruct fuel as [|fuel]; [simpl in Hf; lia|]. cbn [find_block next_free].
    apply wp_bind. eapply wp_load; [exact Hm|]. simpl. rewrite andb_false_r.
    apply wp_ret. split; [done|]. simpl. lia.
  - apply Forall_cons in Hg as [[Hs _] Ht]. simpl in Hs. pose proof (total_nonneg t Ht).
    destruct Hm as [Hma Hmt]. simpl in Hv, Hf. cbn [abs_take take_prev next_free]. destruct u.
    + simpl negb. cbn [andb]. eapply wp_mono.
      { apply (IH fuel prev (a + s)); try done; [lia|lia|]. intros. apply Hv. lia. }
      intros r s' [-> Hr]. split; [done|]. destruct (abs_take want (a + s) t) as [[b t']|]; [done|].
      simpl. lia.
    + simpl negb. cbn [andb]. destruct fuel as [|fuel]; [lia|]. cbn [find_block].
      apply wp_bind. eapply wp_load; [exact Hma|]. cbn [pxNextFreeBlock xBlockSize].
      pose proof (next_free_ge (a + s) t Ht). rewrite (proj2 (Z.eqb_neq _ NULL)) by (unfold NULL; lia).
      rewrite andb_true_r. destruct (Z.ltb_spec s want) as [Hlt|Hge].
      * rewrite (proj2 (Z.leb_gt want s)) by lia. apply wp_bind, wp_valid; [apply Hv; lia|].
        eapply wp_mono; [apply (IH fuel a (a + s)); try done; [lia|lia|]; intros; apply Hv; lia|].
        intros r s' [-> Hr]. split; [done|]. destruct (abs_take want (a + s) t) as [[b t']|]; [done|].
        simpl. lia.
      * rewrite (proj2 (Z.leb_le want s)) by lia. by apply wp_ret.
Qed.

Lemma find_place_ok b segs m : ∀ fuel prev ps a h k,
  Forall good_seg segs → segs_in m a segs → (∀ x, x ≠ b → mem h !! x = m !! x) →
  (length segs < fuel)%nat → m !! prev = Some (BlockLink (next_free a segs) ps) → prev ≠ b →
  b < a + total segs ∨ b ≤ a →
  wp (find_place fuel b prev) (λ r s', s' = (h, k) ∧ r = free_prev b prev a segs) (h, k).
Proof.
  induction segs as [|[u s] t IH]; intros fuel prev ps a h k Hg Hm Hx Hf Hp Hne Hb;
    (destruct fuel as [|fuel]; [simpl in Hf; lia|]).
  - cbn [find_place]. apply wp_bind. eapply wp_load; [by rewrite Hx|]. cbn [next_free pxNextFreeBlock].
    simpl in Hb. rewrite (proj2 (Z.ltb_ge _ _)) by lia. by apply wp_ret.
  - pose proof Hg as [[Hs _] Ht]%Forall_cons. simpl in Hs. pose proof (total_nonneg t Ht).
    pose proof (next_free_ge a ((u, s) :: t) Hg) as Hn.
    destruct Hm as [Hma Hmt]. simpl in Hf, Hb. cbn [free_prev].
    destruct (Z.leb_spec b a).
    + cbn [find_place]. apply wp_bind. eapply wp_load; [by rewrite Hx|]. cbn [pxNextFreeBlock].
      rewrite (proj2 (Z.ltb_ge _ b)) by (simpl in Hn |- *; lia). by apply wp_ret.
    + destruct u.
      * apply (IH (Datatypes.S fuel) prev ps (a + s)); try done; lia.
      * cbn [find_place]. apply wp_bind. eapply wp_load; [by rewrite Hx|].
        cbn [pxNextFreeBlock next_free]. rewrite (proj2 (Z.ltb_lt _ _)) by lia.
        apply (IH fuel a s (a + s)); try done; lia.
Qed.

(** The heap after a block of size [s] was taken for [want] bytes. *)
Definition take_heap (want p b s : Z) h : heap :=
  let used := if heapMINIMUM_BLOCK_SIZE <? s - want then want else s in
  let free := xFreeBytesRemaining h - used in
  Heap (take_mem want p b (mem h)) (pxEnd h) free
    (if free <? xMinimumEverFreeBytesRemaining h then free
     else xMinimumEverFreeBytesRemaining h)
    (u32 (xNumberOfSuccessfulAllocations h + 1)) (xNumberOfSuccessfulFrees h).

Lemma take_block_ok want p b nxt s ps h k :
  mem h !! p = Some (BlockLink b ps) → mem h !! b = Some (BlockLink nxt s) →
  p ≠ b → p ≠ b + want → 0 < want ≤ s → (8 | b) → (8 | want) → in_heap (b + xHeapStructSize) →
  0 ≤ s ≤ xFreeBytesRemaining h → xFreeBytesRemaining h < 4294967296 →
  wp (take_block ucHeap want p b) (λ r s', r = b + xHeapStructSize ∧
    s' = (take_heap want p b s h, k)) (h, k).
Proof.
  intros Hp Hb Hne Hne' Hw Hb8 Hw8 Hin Hs Hf. unfold take_block, take_heap, take_mem.
  rewrite Hp, Hb. apply wp_bind. eapply wp_load; [exact Hp|].
  apply wp_bind, wp_valid; [exact Hin|]. apply wp_bind. eapply wp_load; [exact Hb|].
  cbn [pxNextFreeBlock xBlockSize]. apply wp_bind, wp_store.
  apply wp_bind, wp_assert; [unfold heapSUBTRACT_WILL_UNDERFLOW; rewrite negb_true_iff, Z.ltb_ge; lia|].
  apply wp_bind. destruct (Z.ltb_spec heapMINIMUM_BLOCK_SIZE (s - want)).
  - apply wp_when; [|done]. intros _. apply wp_bind, wp_assert.
    { apply Z.eqb_eq, aligned_divide. by apply Z.divide_add_r. }
    apply wp_bind. eapply wp_load; [by apply lookup_insert_eq|].
    do 3 (apply wp_bind, wp_store || apply wp_store). apply wp_bind. eapply wp_load.
    { simpl. rewrite lookup_insert_ne by done. by apply lookup_insert_eq. }
    apply wp_bind, wp_modify, wp_bind, wp_store, wp_bind, wp_modify, wp_ret.
    split; [done|]. cbn. by rewrite (u32_id (xFreeBytesRemaining h - want)) by lia.
  - apply wp_when; [done|]. intros _. apply wp_bind. eapply wp_load.
    { simpl. by rewrite lookup_insert_ne. }
    apply wp_bind, wp_modify, wp_bind, wp_store, wp_bind, wp_modify, wp_ret.
    split; [done|]. cbn. by rewrite (u32_id (xFreeBytesRemaining h - s)) by lia.
Qed.

Lemma prvHeapInit_ok h k :
  wp (prvHeapInit ucHeap xStart) (λ _ s', heap_rep s'.1 [(false, E - A)] ∧ s'.2 = k) (h, k).
Proof using Hlay.
  pose proof (start_address_spec) as [HA8 HA]. pose proof end_address_spec as [HE8 HE].
  pose proof (start_apart [(false, E - A)] ltac:(simpl; lia)) as Hap. unfold apart in Hap.
  destruct Hlay as [Hh Hst _]. unfold configTOTAL_HEAP_SIZE in *.
  unfold prvHeapInit. apply wp_bind, wp_store, wp_bind, wp_modify, wp_bind, wp_store.
  apply wp_bind, wp_store, wp_modify. split; [|done]. cbn. rewrite u32_id by lia.
  simpl in Hap. split; cbn; try done; try lia.
  - repeat constructor; simpl; [lia|by apply Z.divide_sub_r].
  - rewrite !lookup_insert_ne by lia. by rewrite lookup_insert_eq.
  - replace (A + (E - A)) with E by lia. rewrite lookup_insert_eq.
    rewrite lookup_insert_ne by lia. by rewrite lookup_insert_eq.
Qed.

(** ** Allocation *)

(** What the allocator does, on the blocks. *)
Definition abs_malloc (x : Z) (segs : list seg) : Z * list seg :=
  if wanted_size x =? 0 then (NULL, segs)
  else match abs_take (wanted_size x) A segs with
       | Some (b, segs') => (b + xHeapStructSize, segs')
       | None => (NULL, segs)
       end.

Lemma heap_rep_bounds h segs :
  heap_rep h segs → 0 ≤ free_total segs ≤ total segs ∧ total segs < 65536.
Proof using Hlay.
  intros Hr. pose proof (free_total_bounds segs (rep_good _ _ Hr)) as Hb.
  pose proof (rep_total _ _ Hr). pose proof start_address_spec as [_ HA].
  pose proof end_address_spec as [_ HE]. unfold configTOTAL_HEAP_SIZE in *. lia.
Qed.

(** The heap after taking a block holds the blocks afterwards. *)
Lemma take_rep want segs b segs' h :
  0 < want → (8 | want) → heap_rep h segs → abs_take want A segs = Some (b, segs') →
  ∃ nxt s ps, let p := take_prev want xStart A segs in
    mem h !! p = Some (BlockLink b ps) ∧ mem h !! b = Some (BlockLink nxt s) ∧
    p ≠ b ∧ p ≠ b + want ∧ want ≤ s ≤ xFreeBytesRemaining h ∧ (8 | b) ∧
    A ≤ b ∧ b + s ≤ E ∧ heap_rep (take_heap want p b s h) segs'.
Proof using Hlay.
  intros Hw Hw8 Hr Hab. pose proof Hr as [He Hg Ht Hst Hm Hf Hmin Hco].
  pose proof (start_apart segs Ht) as Hap. pose proof start_address_spec as [HA8 _].
  destruct (take_found want Hw Hw8 segs xStart 0 A (mem h) b segs') as
    (nxt & s & ps & Hb & Hle & [Hs0 Hs8] & Hp & HAb & HbE & Hfs & H8 & Hfree & Htot & Hg');
    [done..|]. simpl in Hs0.
  destruct (take_mem_ok want Hw segs xStart 0 A (mem h) b segs') as (H1 & H2 & _); [done..|].
  pose proof (free_total_bounds segs' Hg') as Hfb.
  exists nxt, s, ps. cbv zeta. set (p := take_prev want xStart A segs) in *.
  assert (Hpb : p < b ∨ E < p) by (rewrite <-Ht; by eapply take_prev_apart).
  split_and!; try done; try lia; [by apply H8|].
  unfold take_heap. split; cbn; try done; [lia| | |]; [..|by eapply take_coalesced];
    rewrite Hf, <-Hfree; [done|].
  destruct (Z.ltb_spec (free_total segs') (xMinimumEverFreeBytesRemaining h)); lia.
Qed.

Lemma abs_take_fits want a segs m b segs' :
  0 < want → (8 | want) → Forall good_seg segs → segs_in m a segs →
  abs_take want a segs = Some (b, segs') → want ≤ free_total segs.
Proof.
  intros Hw Hw8 Hg Hm Hab.
  destruct (take_found want Hw Hw8 segs (a - 1) 0 a (<[a - 1 := BlockLink (next_free a segs) 0]> m)
    b segs') as (nxt & s & ps & Hb & Hle & Hs & Hp & HAb & HbE & Hfs & H8 & Hfree & Htot & Hg');
    [done|by rewrite lookup_insert_eq| |done|].
  { apply segs_in_frame; [done|unfold apart; lia|done]. }
  pose proof (free_total_bounds segs' Hg').
  destruct (Z.ltb_spec heapMINIMUM_BLOCK_SIZE (s - want)); lia.
Qed.

(** The part of [pvPortMalloc] between suspending and resuming the
    scheduler, once the heap is initialised. *)
Lemma malloc_inner x segs h k :
  0 ≤ x ≤ SIZE_MAX → heap_rep h segs →
  let want := wanted_size x in
  wp (free ← hget xFreeBytesRemaining;
      if heapBLOCK_SIZE_IS_VALID want && ((0 <? want) && (want <=? free)) then
        st ← load xStart;
        heapVALIDATE_BLOCK_POINTER ucHeap (pxNextFreeBlock st);;
        '(prev, blk) ← find_block ucHeap heap_fuel want xStart (pxNextFreeBlock st);
        e ← hget pxEnd;
        if negb (blk =? e) then take_block ucHeap want prev blk else mret NULL
      else mret NULL)
    (λ r s', r = (abs_malloc x segs).1 ∧ heap_rep s'.1 (abs_malloc x segs).2 ∧ s'.2 = k) (h, k).
Proof using Hlay.
  intros Hx Hr. cbv zeta. unfold abs_malloc. pose proof Hr as [He Hg Ht Hst Hm Hf Hmin Hco].
  pose proof (heap_rep_bounds h segs Hr) as [Hfb Htb].
  pose proof start_address_spec as [HA8 HA]. pose proof end_address_spec as [HE8 HE].
  apply wp_bind, wp_gets. cbn [fst]. rewrite Hf.
  destruct (wanted_size_spec x Hx) as [[-> _]|(Hw8 & _ & Hw)].
  { rewrite andb_false_r. by apply wp_ret. }
  rewrite (proj2 (Z.eqb_neq (wanted_size x) 0)) by lia.
  rewrite (proj2 (Z.ltb_lt 0 _)) by lia. rewrite andb_true_l.
  destruct (Z.leb_spec (wanted_size x) (free_total segs)) as [Hle|Hgt].
  2: { rewrite andb_false_r. apply wp_ret.
       destruct (abs_take (wanted_size x) A segs) as [[b segs']|] eqn:Eab; [|done].
       eapply abs_take_fits in Eab; [lia|lia|done|done|done]. }
  rewrite size_valid by lia. simpl andb. cbv iota.
  apply wp_bind. eapply wp_load; [exact Hst|]. cbn [pxNextFreeBlock].
  pose proof (next_free_ge A segs Hg) as Hnf.
  apply wp_bind, wp_valid; [apply (in_heap_seg _ segs); lia|]. apply wp_bind.
  eapply wp_mono; [apply find_block_ok; try done; [lia|by apply heap_length| |]|cbv beta].
  { destruct Hlay as [[? _] _ _]. lia. }
  { intros p Hp. by apply (in_heap_seg _ segs). }
  intros [prev blk] s' [-> Hfind]. apply wp_bind, wp_gets. cbn [fst]. rewrite He.
  destruct (abs_take (wanted_size x) A segs) as [[b segs']|] eqn:Eab.
  - injection Hfind as -> ->.
    destruct (take_rep (wanted_size x) segs b segs' h) as
      (nxt & s & ps & Hp & Hb & Hne & Hne' & Hs & Hb8 & HAb & HbE & Hrep); [lia|done..|].
    rewrite (proj2 (Z.eqb_neq b E)) by lia. simpl negb. cbv iota.
    eapply wp_mono; [eapply take_block_ok; try done; try lia|cbv beta].
    + change xHeapStructSize with 8. apply (in_heap_seg _ segs); [done|].
      destruct Hw8 as [c Hc]. lia.
    + intros r s' [-> ->]. done.
  - simpl in Hfind. rewrite Hfind, Ht, Z.eqb_refl. by apply wp_ret.
Qed.

(** ** Freeing *)

(** [prvInsertBlockIntoFreeList] past its loop, for a block after [p]. *)
Lemma insert_ok p b n ps x bs h k :
  mem h !! p = Some (BlockLink n ps) → mem h !! b = Some (BlockLink x bs) → p ≠ b →
  0 ≤ ps < 65536 → 0 < bs < 65536 → pxEnd h = E → (p = xStart ∨ in_heap p) →
  (b < n → ∃ n' s', mem h !! n = Some (BlockLink n' s') ∧ 0 ≤ s' < 65536) →
  (wp (find_place heap_fuel b xStart) (λ r s', s' = (h, k) ∧ r = p) (h, k)) →
  wp (prvInsertBlockIntoFreeList ucHeap xStart b) (λ _ s', s' =
    (set_mem (insert_mem E p b (mem h)) h, k)) (h, k).
Proof using Type.
  intros Hp Hb Hne Hps Hbs He Hv Hn Hfind. unfold prvInsertBlockIntoFreeList, insert_mem.
  rewrite Hp, Hb. apply wp_bind. eapply wp_mono; [exact Hfind|cbv beta]. intros r s' [-> ->].
  apply wp_bind. apply wp_mono with (P := λ _ s', s' = (h, k)).
  { apply wp_when; [|done]. intros Hx. apply wp_valid; [|done].
    destruct Hv as [-> |?]; [by rewrite Z.eqb_refl in Hx|done]. }
  intros [] s' ->. apply wp_bind. eapply wp_load; [exact Hp|].
  apply wp_bind. eapply wp_load; [exact Hb|]. cbn [pxNextFreeBlock xBlockSize].
  destruct (Z.eqb_spec (p + ps) b) as [Hj|Hj].
  - (* joined to the block before: the result is at [p] *)
    apply wp_bind, wp_bind, wp_store, wp_ret. rewrite u32_id by lia.
    do 2 (apply wp_bind; eapply wp_load; [by apply lookup_insert_eq|]).
    apply wp_bind, wp_gets. cbn. rewrite He, (Z.eqb_refl p).
    destruct (Z.eqb_spec (p + (ps + bs)) n) as [Ha|Ha]; [destruct (Z.eqb_spec n E) as [Hend|Hend]|];
      simpl negb; cbv iota; apply wp_bind.
    + by apply wp_store.
    + destruct Hn as (n' & s' & Hn & Hs'); [lia|].
      rewrite (lookup_insert_ne (mem h) p n) by lia. rewrite Hn. apply wp_bind.
      eapply wp_load; [cbn; rewrite lookup_insert_ne by lia; exact Hn|].
      cbn [pxNextFreeBlock xBlockSize]. rewrite u32_id by lia. by apply wp_store.
    + by apply wp_store.
  - (* a block of its own at [b] *)
    apply wp_bind, wp_ret. apply wp_bind. eapply wp_load; [exact Hp|].
    apply wp_bind. eapply wp_load; [exact Hb|]. apply wp_bind, wp_gets. cbn.
    rewrite He, (proj2 (Z.eqb_neq p b)) by done.
    assert (Hlast : ∀ l, wp (it ← load p; store p (BlockLink b (xBlockSize it)))
      (λ _ s', s' = (set_mem (<[p := BlockLink b ps]> (<[b := l]> (mem h))) h, k))
      (set_mem (<[b := l]> (mem h)) h, k)).
    { intros l. apply wp_bind. eapply wp_load; [cbn; by rewrite lookup_insert_ne|].
      by apply wp_store. }
    destruct (Z.eqb_spec (b + bs) n) as [Ha|Ha]; [destruct (Z.eqb_spec n E) as [Hend|Hend]|];
      simpl negb; cbv iota; apply wp_bind.
    + apply wp_store, Hlast.
    + destruct Hn as (n' & s' & Hn & Hs'); [lia|].
      rewrite Hn. apply wp_bind. eapply wp_load; [exact Hn|].
      cbn [pxNextFreeBlock xBlockSize]. rewrite u32_id by lia. apply wp_store, Hlast.
    + apply wp_store, Hlast.
Qed.

(** The header of the inserted block carries no mark. *)
Lemma insert_mem_header e p b m n ps x bs :
  m !! p = Some (BlockLink n ps) → m !! b = Some (BlockLink x bs) → p ≠ b → 0 < bs < 65536 →
  (b < n → ∃ n' s', m !! n = Some (BlockLink n' s') ∧ 0 ≤ s' < 65536) →
  ∃ l, insert_mem e p b m !! b = Some l ∧ heapBLOCK_IS_ALLOCATED l = false.
Proof.
  intros Hp Hb Hne Hbs Hn. unfold insert_mem. rewrite Hp, Hb.
  destruct (Z.eqb_spec (p + ps) b) as [Hj|Hj]; simpl.
  - rewrite Z.eqb_refl, !lookup_insert_ne by done. exists (BlockLink x bs).
    split; [done|]. apply free_unmarked. lia.
  - rewrite (proj2 (Z.eqb_neq p b)) by done. rewrite lookup_insert_ne by done.
    rewrite lookup_insert_eq. eexists. split; [done|].
    destruct (Z.eqb_spec (b + bs) n); [|apply free_unmarked; lia].
    destruct (n =? e); [apply free_unmarked; lia|].
    destruct Hn as (n' & s' & -> & ?); [lia|]. apply free_unmarked. lia.
Qed.

(** [pvPortMalloc] on the blocks. *)
Lemma pvPortMalloc_ok x segs h k :
  0 ≤ x ≤ SIZE_MAX → heap_state h segs → k_live k →
  wp (pvPortMalloc ucHeap xStart x) (λ r s', r = (abs_malloc x segs).1 ∧
    heap_rep s'.1 (abs_malloc x segs).2 ∧ k_step k s'.2) (h, k).
Proof using Hlay.
  intros Hx Hh Hk. unfold pvPortMalloc. pose proof start_address_spec as [HA8 HA].
  apply wp_bind, wp_sched. eapply wp_mono; [by apply suspend_law|cbv beta]. intros [] k1 Hk1.
  apply wp_bind, wp_gets. cbn [fst]. apply wp_bind.
  apply wp_mono with (P := λ _ s', heap_rep s'.1 segs ∧ s'.2 = k1).
  { destruct Hh as [Hr|[He ->]].
    - rewrite (rep_end _ _ Hr). pose proof end_address_spec as [_ HE].
      unfold configTOTAL_HEAP_SIZE in HE. destruct Hlay as [[? ?] _ _].
      unfold configTOTAL_HEAP_SIZE in *. by rewrite (proj2 (Z.eqb_neq E NULL)) by (unfold NULL; lia).
    - rewrite He, Z.eqb_refl. apply prvHeapInit_ok. }
  intros [] [h1 k2] [Hr Ek]. simpl in Hr, Ek. subst k2.
  pose proof (malloc_inner x segs h1 k1 Hx Hr) as Hin. cbv zeta in Hin |- *.
  apply wp_bind, wp_gets. cbn [fst]. apply wp_bind.
  eapply wp_mono; [exact Hin|cbv beta]. intros r [h2 k3] (-> & Hr2 & Ek). simpl in Hr2, Ek.
  subst k3.
  apply wp_bind, wp_sched. eapply wp_mono; [by eapply resume_law, k_step_live|cbv beta].
  intros b k4 Hk4. apply wp_bind, wp_assert.
  { apply Z.eqb_eq, aligned_divide. unfold abs_malloc.
    destruct (wanted_size_spec x Hx) as [[-> _]|(Hw8 & _ & Hw)]; [by apply Z.divide_0_r|].
    rewrite (proj2 (Z.eqb_neq (wanted_size x) 0)) by lia.
    destruct (abs_take (wanted_size x) A segs) as [[b' segs']|] eqn:Eab; [|by apply Z.divide_0_r].
    eapply take_rep in Eab as (nxt & s & ps & _ & _ & _ & _ & _ & Hb8 & _); [|lia|done|done].
    apply Z.divide_add_r; [done|]. by exists 1. }
  apply wp_ret. split; [done|]. split; [done|]. by eapply k_step_trans.
Qed.

(** C28: [pvPortMalloc] implements first fit: on a heap with the blocks [segs]
    it returns the address behind the header of the first free block that is
    large enough, splits the block when more than the minimum is left, and
    returns NULL exactly when there is no such block or the request is empty or
    too large to round up.  The heap still represents the blocks. *)
Theorem pvPortMalloc_refines x segs h k :
  0 ≤ x ≤ SIZE_MAX → heap_state h segs → k_live k →
  wp (pvPortMalloc ucHeap xStart x) (λ r s', r = (abs_malloc x segs).1 ∧
    heap_rep s'.1 (abs_malloc x segs).2 ∧ k_step k s'.2) (h, k).
Proof using Hlay. apply pvPortMalloc_ok. Qed.

(** A block that is handed out is aligned, lies inside the heap with the
    whole of the request, and is apart from every block that was in use, which
    all stay in use. *)
Theorem pvPortMalloc_block x segs h k :
  0 ≤ x ≤ SIZE_MAX → heap_rep h segs → k_live k →
  wp (pvPortMalloc ucHeap xStart x) (λ r s', r ≠ NULL →
    (8 | r) ∧ ucHeap ≤ r ∧ r + x ≤ ucHeap + configTOTAL_HEAP_SIZE ∧
    ∃ segs', heap_rep s'.1 segs' ∧
      (∃ s, xHeapStructSize + x ≤ s ∧ (r - xHeapStructSize, s) ∈ used_blocks A segs') ∧
      ∀ b s, (b, s) ∈ used_blocks A segs →
        (b, s) ∈ used_blocks A segs' ∧ (r + x ≤ b ∨ b + s ≤ r - xHeapStructSize)) (h, k).
Proof using Hlay.
  intros Hx Hr Hk. eapply wp_mono; [apply pvPortMalloc_ok; [done|by left|done]|cbv beta].
  intros r s' (-> & Hr' & _). unfold abs_malloc in *.
  pose proof start_address_spec as [HA8 HA]. pose proof end_address_spec as [_ HE].
  destruct (wanted_size_spec x Hx) as [[-> _]|(Hw8 & Hwx & Hw)]; [done|].
  rewrite (proj2 (Z.eqb_neq (wanted_size x) 0)) in * by lia.
  destruct (abs_take (wanted_size x) A segs) as [[b segs']|] eqn:Eab; [|done].
  intros _. simpl in Hr' |- *. change xHeapStructSize with 8 in *.
  assert (Hw0 : 0 < wanted_size x) by lia.
  pose proof (take_rep _ _ _ _ h Hw0 Hw8 Hr Eab) as
    (nxt & s & ps & _ & _ & _ & _ & Hs & Hb8 & HAb & HbE & _).
  split; [apply Z.divide_add_r; [done|by exists 1]|]. split; [lia|]. split; [lia|].
  exists segs'. split; [done|]. replace (b + 8 - 8) with b by lia. split.
  - destruct (take_used _ _ _ _ _ Eab) as (s1 & ? & ?). exists s1. split; [lia|done].
  - intros c sc Hc.
    destruct (take_disjoint (wanted_size x) segs A b segs' c sc) as [? ?];
      [lia|apply Hr|done|done|]. split; [done|lia].
Qed.

(** [vPortFree] on the blocks. *)
Lemma vPortFree_ok p segs segs' h k :
  heap_rep h segs → abs_free (p - xHeapStructSize) A segs = Some segs' → k_live k →
  wp (vPortFree ucHeap xStart p) (λ _ s', heap_rep s'.1 segs' ∧ k_step k s'.2 ∧
    ∃ l, mem s'.1 !! (p - xHeapStructSize) = Some l ∧ heapBLOCK_IS_ALLOCATED l = false) (h, k).
Proof using Hlay.
  intros Hr Hab Hk. pose proof Hr as [He Hg Ht Hst Hm Hf Hmin Hco].
  pose proof (heap_rep_bounds h segs Hr) as [Hfb Htb].
  pose proof start_address_spec as [HA8 HA]. pose proof end_address_spec as [HE8 HE].
  pose proof (start_apart segs Ht) as Hap. change xHeapStructSize with 8 in *.
  set (b := p - 8) in *. assert (Hxb : xStart + 0 ≠ b → xStart ≠ b) by lia.
  destruct (insert_mem_ok segs xStart 0 A (mem h) b segs') as
    (s0 & Hb & [Hs0 _] & HAb & HbE & Hfree & Htot & Hg' & Hm1 & Hm2 & Hm3); try done.
  { apply abs_free_range in Hab; [|done]. unfold apart in Hap. lia. }
  simpl in Hs0. assert (Hxb' : xStart ≠ b) by (unfold apart in Hap; lia).
  unfold vPortFree. assert (p ≠ 0) by (destruct Hlay as [[? ?] _ _]; lia).
  rewrite (proj2 (Z.eqb_neq p NULL)) by done. simpl negb. cbv iota.
  change xHeapStructSize with 8. fold b.
  apply wp_bind, wp_valid; [by apply (in_heap_seg b segs); [|lia]|].
  apply wp_bind. eapply wp_load; [exact Hb|].
  apply wp_bind, wp_assert; [by rewrite alloc_marked|].
  apply wp_bind, wp_assert; [done|]. cbn [pxNextFreeBlock xBlockSize].
  rewrite alloc_free by lia. apply wp_bind, wp_store, wp_bind, wp_sched.
  eapply wp_mono; [by apply suspend_law|cbv beta]. intros [] k1 Hk1.
  apply wp_bind. eapply wp_load; [by apply lookup_insert_eq|]. apply wp_bind, wp_modify.
  cbn [fst snd set_mem mem xBlockSize pxEnd xFreeBytesRemaining xMinimumEverFreeBytesRemaining
       xNumberOfSuccessfulAllocations xNumberOfSuccessfulFrees].
  rewrite Hf, u32_id by lia. set (h1 := Heap _ _ _ _ _ _).
  destruct (free_prev_link b segs xStart 0 A (mem h) Hg Hm Hst) as
    (n & ps & n' & s' & Hp & Hps & Hn & Hs' & Hwhere); [lia|].
  apply wp_bind. eapply wp_mono.
  { apply (insert_ok (free_prev b xStart A segs) b n ps NULL s0 h1 k1); cbn; try done; try lia.
    - rewrite lookup_insert_ne; [done|lia].
    - by rewrite lookup_insert_eq.
    - destruct Hwhere as [->|?]; [by left|right]. apply (in_heap_seg _ segs); [done|lia].
    - intros Hbn. exists n', s'. rewrite lookup_insert_ne by lia. split; [done|lia].
    - apply (find_place_ok b segs (mem h) heap_fuel xStart 0 A h1 k1); cbn; try done.
      + intros x Hx. by rewrite lookup_insert_ne.
      + by apply heap_length.
      + left. lia. }
  cbv beta. intros [] s2 ->. apply wp_bind, wp_modify, wp_bind, wp_sched.
  eapply wp_mono; [by eapply resume_law, k_step_live|cbv beta].
  intros r k2 Hk2. apply wp_ret. cbn [fst snd]. rewrite Ht in Hm1, Hm2, Hm3.
  split; [|split; [by eapply k_step_trans|]].
  - split; cbn; try done; try lia. eapply free_coalesced; [exact Hg|done|exact Hab].
  - cbn. apply (insert_mem_header _ _ b _ n ps NULL s0); try done; try lia.
    + by rewrite lookup_insert_ne by lia.
    + by rewrite lookup_insert_eq.
    + intros Hbn. exists n', s'. rewrite lookup_insert_ne by lia. split; [done|lia].
Qed.

(** C29: [vPortFree] gives the block back: it is free afterwards, merged with
    its free neighbours. *)
Theorem vPortFree_refines p segs segs' h k :
  heap_rep h segs → abs_free (p - xHeapStructSize) A segs = Some segs' → k_live k →
  wp (vPortFree ucHeap xStart p) (λ _ s', heap_rep s'.1 segs' ∧ k_step k s'.2 ∧
    ∃ l, mem s'.1 !! (p - xHeapStructSize) = Some l ∧ heapBLOCK_IS_ALLOCATED l = false) (h, k).
Proof using Hlay. apply vPortFree_ok. Qed.

(** Freeing what was just allocated restores the blocks exactly, and
    freeing NULL does nothing. *)
Theorem vPortFree_malloc x segs h k :
  0 ≤ x ≤ SIZE_MAX → heap_rep h segs → k_live k →
  wp (r ← pvPortMalloc ucHeap xStart x; vPortFree ucHeap xStart r) (λ _ s',
    heap_rep s'.1 segs ∧ k_step k s'.2) (h, k).
Proof using Hlay.
  intros Hx Hr Hk. apply wp_bind.
  eapply wp_mono; [apply pvPortMalloc_ok; [done|by left|done]|cbv beta].
  intros r [h1 k1] (-> & Hr1 & Hk1). simpl in Hr1, Hk1. unfold abs_malloc in *.
  pose proof (k_step_live _ _ Hk1).
  destruct (wanted_size_spec x Hx) as [[E0 _]|(Hw8 & Hwx & Hw)].
  { rewrite E0 in *. by apply wp_ret. }
  rewrite (proj2 (Z.eqb_neq (wanted_size x) 0)) in * by lia.
  destruct (abs_take (wanted_size x) A segs) as [[b segs']|] eqn:Eab; [|by apply wp_ret].
  destruct (free_take (wanted_size x) segs A b segs') as [Hf _]; [lia|apply Hr..|done|].
  eapply wp_mono; [apply (vPortFree_ok _ segs' segs h1 k1)|cbv beta]; try done.
  { simpl. by rewrite Z.add_simpl_r. }
  intros [] s' (? & ? & _). split; [done|]. by eapply k_step_trans.
Qed.

(** Freeing a block twice is caught: the second call fails its
    assertion. *)
Theorem vPortFree_twice p segs segs' h k :
  heap_rep h segs → abs_free (p - xHeapStructSize) A segs = Some segs' → k_live k →
  ∃ s', (vPortFree ucHeap xStart p;; vPortFree ucHeap xStart p) (h, k) =
    (inr AssertFailed, s').
Proof using Hlay.
  intros Hr Hab Hk. pose proof (vPortFree_ok p segs segs' h k Hr Hab Hk) as Hf.
  apply wp_inv in Hf as ([] & [h1 k1] & Hrun & Hr1 & _ & l & Hl & Hmark).
  exists (h1, k1). unfold mbind, M_bind. rewrite Hrun. clear Hrun.
  apply abs_free_range in Hab; [|apply Hr]. rewrite (rep_total _ _ Hr) in Hab.
  pose proof start_address_spec as [_ HA]. pose proof end_address_spec as [_ HE].
  change xHeapStructSize with 8 in *. destruct Hlay as [[? ?] _ _].
  unfold configTOTAL_HEAP_SIZE in *. simpl in Hl.
  unfold vPortFree. rewrite (proj2 (Z.eqb_neq p NULL)) by (unfold NULL; lia).
  simpl negb. cbv iota. change xHeapStructSize with 8.
  unfold heapVALIDATE_BLOCK_POINTER, configTOTAL_HEAP_SIZE.
  rewrite (proj2 (Z.leb_le ucHeap (p - 8))), (proj2 (Z.leb_le (p - 8) _)) by lia.
  unfold load, hget, gets, of_option, mbind, M_bind. cbn. rewrite Hl. cbn. by rewrite Hmark.
Qed.

(** A request fails only for want of a block: the size cannot be rounded
    up, or every free block is too small. *)
Theorem pvPortMalloc_fails x segs h k :
  0 < x ≤ SIZE_MAX → heap_rep h segs → k_live k →
  wp (pvPortMalloc ucHeap xStart x) (λ r s', r = NULL → heap_rep s'.1 segs ∧
    (SIZE_MAX - 15 < x + 8 ∨ Forall (λ sg : seg, sg.1 = false → sg.2 < wanted_size x) segs)) (h, k).
Proof using Hlay.
  intros Hx Hr Hk. pose proof start_address_spec as [_ HA].
  destruct Hlay as [[Hh _] _ _].
  eapply wp_mono; [apply pvPortMalloc_ok; [lia|by left|done]|cbv beta].
  intros r s' (-> & Hr1 & _). unfold abs_malloc in *.
  destruct (wanted_size_spec x) as [[E0 Hbig]|(Hw8 & Hwx & Hw)]; [lia| |].
  { rewrite E0 in *. intros _. split; [done|]. left. lia. }
  rewrite (proj2 (Z.eqb_neq (wanted_size x) 0)) in * by lia.
  destruct (abs_take (wanted_size x) A segs) as [[b segs']|] eqn:Eab; simpl in Hr1 |- *.
  - apply take_after in Eab; [|apply Hr]. change xHeapStructSize with 8. unfold NULL. lia.
  - intros _. split; [done|]. right. by apply (take_none _ A).
Qed.

(** Nothing is lost to fragmentation: when no block is in use any more,
    the whole heap is one block again, and a request that fits it succeeds. *)
Theorem heap_recovers x segs h k :
  0 < x → wanted_size x ≤ E - A → 0 < wanted_size x →
  heap_rep h segs → used_blocks A segs = [] → k_live k →
  segs = [(false, E - A)] ∧
  wp (pvPortMalloc ucHeap xStart x) (λ r s', r = A + xHeapStructSize) (h, k).
Proof using Hlay.
  intros Hx Hfit Hpos Hr Hu Hk. pose proof start_address_spec as [_ HA].
  pose proof end_address_spec as [_ HE]. unfold configTOTAL_HEAP_SIZE in *.
  pose proof (rep_total _ _ Hr) as Ht.
  assert (Hs : segs = [(false, E - A)]).
  { rewrite (all_free A segs) by (apply Hr || done || lia). repeat f_equal. lia. }
  split; [done|]. eapply wp_mono; [apply pvPortMalloc_ok; [|by left|done]|cbv beta].
  { unfold wanted_size, heapADD_WILL_OVERFLOW in Hpos.
    rewrite (proj2 (Z.ltb_lt 0 x)) in Hpos by lia. change xHeapStructSize with 8 in Hpos.
    destruct (Z.ltb_spec (SIZE_MAX - 8) x); simpl in Hpos; lia. }
  intros r s' (-> & _). unfold abs_malloc. rewrite (proj2 (Z.eqb_neq (wanted_size x) 0)) by lia.
  rewrite Hs. simpl. by rewrite (proj2 (Z.leb_le _ _)) by lia.
Qed.
End code.
End heap.

(** ** A heap in memory *)

Definition demo_ucHeap : Z := 0x20000004.
Definition demo_xStart : Z := 0x100.
Lemma demo_layout : heap_layout demo_ucHeap demo_xStart.
Proof. split; unfold demo_ucHeap, demo_xStart, configTOTAL_HEAP_SIZE; lia. Qed.

(** The heap after its initialisation, and after one allocation of 20 bytes. *)
Definition demo_heap : heap :=
  (prvHeapInit (K := clock) demo_ucHeap demo_xStart (heap_reset, Clock 0)).2.1.
Definition demo_heap_used : heap :=
  (pvPortMalloc demo_ucHeap demo_xStart 20 (demo_heap, Clock 0)).2.1.
Definition demo_segs : list seg := [(false, 65520)].
Definition demo_segs_used : list seg := [(true, 32); (false, 65488)].

Lemma demo_heap_rep : heap_rep demo_ucHeap demo_xStart demo_heap demo_segs.
Proof.
  pose proof (prvHeapInit_ok _ _ demo_layout heap_reset (Clock 0)) as Hi.
  apply wp_inv in Hi as ([] & s' & Hrun & Hr & _). unfold demo_heap. by rewrite Hrun.
Qed.
Lemma demo_heap_used_rep : heap_rep demo_ucHeap demo_xStart demo_heap_used demo_segs_used.
Proof.
  pose proof (pvPortMalloc_ok _ _ demo_layout 20 demo_segs demo_heap (Clock 0)) as Hi.
  apply wp_inv in Hi as (r & s' & Hrun & _ & Hr & _).
  - unfold demo_heap_used. rewrite Hrun. exact Hr.
  - done.
  - left. apply demo_heap_rep.
  - done.
Qed.

Lemma wanted_size_spec_witness :
  (wanted_size 20 = 0 ∧ (20 = 0 ∨ SIZE_MAX - 15 < 20 + 8)) ∨
  ((8 | wanted_size 20) ∧ 20 + xHeapStructSize ≤ wanted_size 20 < 20 + xHeapStructSize + 8 ∧
   0 < wanted_size 20 ≤ SIZE_MAX).
Proof. by apply (wanted_size_spec 20). Defined.

Lemma pvPortMalloc_refines_witness :
  wp (pvPortMalloc demo_ucHeap demo_xStart 20) (λ r s', r = 0x20000010 ∧
    heap_rep demo_ucHeap demo_xStart s'.1 demo_segs_used ∧ k_step (Clock 0) s'.2)
    (heap_reset, Clock 0).
Proof.
  by apply (pvPortMalloc_refines _ _ demo_layout 20 demo_segs heap_reset (Clock 0));
    [|right|].
Defined.

Lemma pvPortMalloc_block_witness :
  wp (pvPortMalloc demo_ucHeap demo_xStart 100) (λ r s', r ≠ NULL →
    (8 | r) ∧ demo_ucHeap ≤ r ∧ r + 100 ≤ demo_ucHeap + configTOTAL_HEAP_SIZE ∧
    ∃ segs', heap_rep demo_ucHeap demo_xStart s'.1 segs' ∧
      (∃ s, xHeapStructSize + 100 ≤ s ∧
        (r - xHeapStructSize, s) ∈ used_blocks (start_address demo_ucHeap) segs') ∧
      ∀ b s, (b, s) ∈ used_blocks (start_address demo_ucHeap) demo_segs_used →
        (b, s) ∈ used_blocks (start_address demo_ucHeap) segs' ∧
        (r + 100 ≤ b ∨ b + s ≤ r - xHeapStructSize)) (demo_heap_used, Clock 0).
Proof.
  by apply (pvPortMalloc_block _ _ demo_layout 100 demo_segs_used demo_heap_used (Clock 0));
    [|apply demo_heap_used_rep|].
Defined.

Lemma vPortFree_refines_witness :
  wp (vPortFree demo_ucHeap demo_xStart 0x20000010) (λ _ s',
    heap_rep demo_ucHeap demo_xStart s'.1 demo_segs ∧ k_step (Clock 0) s'.2 ∧
    ∃ l, mem s'.1 !! (0x20000010 - xHeapStructSize) = Some l ∧ heapBLOCK_IS_ALLOCATED l = false)
    (demo_heap_used, Clock 0).
Proof.
  by apply (vPortFree_refines _ _ demo_layout 0x20000010 demo_segs_used demo_segs
    demo_heap_used (Clock 0) demo_heap_used_rep).
Defined.

Lemma vPortFree_malloc_witness :
  wp (r ← pvPortMalloc demo_ucHeap demo_xStart 100; vPortFree demo_ucHeap demo_xStart r)
    (λ _ s', heap_rep demo_ucHeap demo_xStart s'.1 demo_segs_used ∧ k_step (Clock 0) s'.2)
    (demo_heap_used, Clock 0).
Proof.
  by apply (vPortFree_malloc _ _ demo_layout 100 demo_segs_used demo_heap_used (Clock 0));
    [|apply demo_heap_used_rep|].
Defined.

Lemma vPortFree_twice_witness :
  ∃ s', (vPortFree demo_ucHeap demo_xStart 0x20000010;;
         vPortFree demo_ucHeap demo_xStart 0x20000010) (demo_heap_used, Clock 0) =
    (inr AssertFailed, s').
Proof.
  by apply (vPortFree_twice _ _ demo_layout 0x20000010 demo_segs_used demo_segs
    demo_heap_used (Clock 0) demo_heap_used_rep).
Defined.

Lemma pvPortMalloc_fails_witness :
  wp (pvPortMalloc demo_ucHeap demo_xStart 65500) (λ r s', r = NULL →
    heap_rep demo_ucHeap demo_xStart s'.1 demo_segs_used ∧
    (SIZE_MAX - 15 < 65500 + 8 ∨
     Forall (λ sg : seg, sg.1 = false → sg.2 < wanted_size 65500) demo_segs_used))
    (demo_heap_used, Clock 0).
Proof.
  by apply (pvPortMalloc_fails _ _ demo_layout 65500 demo_segs_used demo_heap_used (Clock 0));
    [|apply demo_heap_used_rep|].
Defined.

Lemma heap_recovers_witness :
  demo_segs = [(false, end_address demo_ucHeap - start_address demo_ucHeap)] ∧
  wp (pvPortMalloc demo_ucHeap demo_xStart 65000) (λ r s', r = 0x20000010) (demo_heap, Clock 0).
Proof.
  by apply (heap_recovers _ _ demo_layout 65000 demo_segs demo_heap (Clock 0));
    [..|apply demo_heap_rep| |].
Defined.
