(* ===== verification/Pbuf.v ===== *)
(** lwIP packet buffers, [lwip/src/core/pbuf.c]: the operations that read and
    write the bytes of a chain.  A chain is the list of its pbufs; the theorems
    say that each operation treats it as the byte string it stands for. *)
From stdpp Require Import base tactics numbers list.
From S2P Require Import Prelude Words.

(** ** Chains *)

(** The fields [payload], [len] and [tot_len] of a pbuf; the next one is the
    next of the list. *)
Record pbuf := Pbuf {
  payload : list Z;
  p_len : Z;
  tot_len : Z
}.

Definition chain : Type := list pbuf.

(** The bytes of a chain. *)
Definition bytes (c : chain) : list Z := concat (payload <$> c).

(** [len] is the length of the payload and [tot_len] that of the rest of the
    chain, which a 16-bit length can hold. *)
Fixpoint chain_ok (c : chain) : Prop :=
  match c with
  | [] => True
  | p :: c =>
      p_len p = Z.of_nat (length (payload p)) ∧
      tot_len p = Z.of_nat (length (bytes (p :: c))) ∧
      tot_len p < 65536 ∧ chain_ok c
  end.

(** ** Operations *)

(** [pbuf_clen]. *)
Fixpoint pbuf_clen (c : chain) : Z :=
  match c with
  | [] => 0
  | _ :: c => u16 (1 + pbuf_clen c)
  end.

(** The bytes copied to [dataptr]; the function's result is their number. *)
Fixpoint pbuf_copy_partial (c : chain) (len offset : Z) : list Z :=
  match c with
  | [] => []
  | p :: c =>
      if len =? 0 then []
      else if negb (offset =? 0) && (p_len p <=? offset) then
        pbuf_copy_partial c len (u16 (offset - p_len p))
      else
        let n := u16 (p_len p - offset) in
        let n := if len <? n then len else n in
        take (Z.to_nat n) (drop (Z.to_nat offset) (payload p)) ++
        pbuf_copy_partial c (u16 (len - n)) 0
  end.

(** The rest of the chain, with the offset left. *)
Fixpoint pbuf_skip_const (c : chain) (offset : Z) : chain * Z :=
  match c with
  | [] => ([], offset)
  | p :: c' =>
      if p_len p <=? offset then pbuf_skip_const c' (u16 (offset - p_len p))
      else (c, offset)
  end.

Definition pbuf_skip : chain → Z → chain * Z := pbuf_skip_const.

Definition pbuf_try_get_at (c : chain) (offset : Z) : Z :=
  match pbuf_skip_const c offset with
  | (q :: _, q_idx) =>
      if q_idx <? p_len q then nth (Z.to_nat q_idx) (payload q) 0 else -1
  | ([], _) => -1
  end.

Definition pbuf_get_at (c : chain) (offset : Z) : Z :=
  let ret := pbuf_try_get_at c offset in
  if 0 <=? ret then u8 ret else 0.

(** A write replaces bytes of the pbuf in place: the part of the chain before
    it is unchanged. *)
Fixpoint pbuf_put_at (c : chain) (offset data : Z) : chain :=
  match c with
  | [] => []
  | p :: c' =>
      if p_len p <=? offset then p :: pbuf_put_at c' (u16 (offset - p_len p)) data
      else if offset <? p_len p then
        Pbuf (<[Z.to_nat offset := data]> (payload p)) (p_len p) (tot_len p) :: c'
      else c
  end.

Definition ERR_OK : Z := 0.
Definition ERR_MEM : Z := -1.
Definition ERR_ARG : Z := -16.

(** The copying loop of [pbuf_take]; running off the chain is its assertion. *)
Fixpoint take_loop (c : chain) (data : list Z) (total_copy_len : Z) : option chain :=
  if total_copy_len =? 0 then Some c
  else match c with
       | [] => None
       | p :: c =>
           let n := if p_len p <? total_copy_len then p_len p else total_copy_len in
           c' ← take_loop c (drop (Z.to_nat n) data) (total_copy_len - n);
           Some (Pbuf (list_inserts 0 (take (Z.to_nat n) data) (payload p))
                   (p_len p) (tot_len p) :: c')
       end.

(** The result and the chain afterwards; [None] when an assertion fails. *)
Definition pbuf_take (c : chain) (data : list Z) (len : Z) : option (Z * chain) :=
  match c with
  | [] => Some (ERR_ARG, c)
  | p :: _ =>
      if tot_len p <? len then Some (ERR_MEM, c)
      else c' ← take_loop c data len; Some (ERR_OK, c')
  end.

Fixpoint pbuf_take_at (c : chain) (data : list Z) (len offset : Z) : option (Z * chain) :=
  match c with
  | [] => Some (ERR_MEM, [])
  | q :: c' =>
      if p_len q <=? offset then
        '(r, c'') ← pbuf_take_at c' data len (u16 (offset - p_len q));
        Some (r, q :: c'')
      else if offset + len <=? tot_len q then
        let n := if len <? p_len q - offset then len else p_len q - offset in
        let q' := Pbuf (list_inserts (Z.to_nat offset) (take (Z.to_nat n) data) (payload q))
                    (p_len q) (tot_len q) in
        let remaining := u16 (len - n) in
        if 0 <? remaining then
          '(r, c'') ← pbuf_take c' (drop (Z.to_nat n) data) remaining;
          Some (r, q' :: c'')
        else Some (ERR_OK, q' :: c')
      else Some (ERR_MEM, c)
  end.

(** The comparison loop, from index [i] on, of [n] bytes. *)
Fixpoint memcmp_loop (q : chain) (start i : Z) (s2 : list Z) : Z :=
  match s2 with
  | [] => 0
  | b :: s2 =>
      if negb (pbuf_get_at q (u16 (start + i)) =? b) then Z.min (i + 1) 65535
      else memcmp_loop q start (u16 (i + 1)) s2
  end.

Definition pbuf_memcmp (c : chain) (offset : Z) (s2 : list Z) (n : Z) : Z :=
  match c with
  | [] => 65535
  | p :: _ =>
      if tot_len p <? offset + n then 65535
      else
        let '(q, start) := pbuf_skip_const c offset in
        memcmp_loop q start 0 (take (Z.to_nat n) s2)
  end.

(** [for (i = start; i <= max; i++)], for [k] values of [i]. *)
Fixpoint memfind_loop (k : nat) (c : chain) (mem : list Z) (mem_len i : Z) : Z :=
  match k with
  | O => 65535
  | S k =>
      if pbuf_memcmp c i mem mem_len =? 0 then i
      else memfind_loop k c mem mem_len (i + 1)
  end.

Definition pbuf_memfind (c : chain) (mem : list Z) (mem_len start_offset : Z) : Z :=
  match c with
  | [] => 65535
  | p :: _ =>
      let max_cmp_start := u16 (tot_len p - mem_len) in
      if mem_len + start_offset <=? tot_len p then
        memfind_loop (Z.to_nat (max_cmp_start + 1 - start_offset)) c mem mem_len start_offset
      else 65535
  end.

(** ** The byte string of a chain *)

Lemma bytes_cons p c : bytes (p :: c) = payload p ++ bytes c.
Proof. done. Qed.

Lemma chain_ok_len p c :
  chain_ok (p :: c) →
  p_len p = Z.of_nat (length (payload p)) ∧
  tot_len p = p_len p + Z.of_nat (length (bytes c)) ∧ tot_len p < 65536.
Proof.
  intros (Hl & Ht & Hb & _). split; [done|]. split; [|done].
  rewrite Ht, Hl, bytes_cons, length_app. lia.
Qed.

Lemma chain_ok_tail p c : chain_ok (p :: c) → chain_ok c.
Proof. by intros (_ & _ & _ & ?). Qed.

(** The total length of a chain, 0 for none. *)
Definition chain_len (c : chain) : Z := Z.of_nat (length (bytes c)).

Lemma chain_len_bound c : chain_ok c → 0 ≤ chain_len c < 65536.
Proof.
  unfold chain_len. destruct c as [|p c]; [simpl; lia|]. intros (_ & Ht & Hb & _). lia.
Qed.

Lemma copy_partial_bytes c len offset :
  chain_ok c → 0 ≤ len < 65536 → 0 ≤ offset < 65536 →
  pbuf_copy_partial c len offset = take (Z.to_nat len) (drop (Z.to_nat offset) (bytes c)).
Proof.
  revert len offset. induction c as [|p c IH]; intros len offset Hc Hl Ho.
  { change (bytes []) with (@nil Z). by rewrite drop_nil, take_nil. }
  pose proof (chain_ok_len p c Hc) as (Hp & Ht & Hb). apply chain_ok_tail in Hc.
  cbn [pbuf_copy_partial]. rewrite bytes_cons.
  destruct (Z.eqb_spec len 0) as [->|]; [done|].
  destruct (Z.leb_spec (p_len p) offset) as [Hle|Hgt].
  - destruct (Z.eqb_spec offset 0) as [->|]; simpl.
    + (* an empty pbuf *)
      destruct (payload p) as [|? ?] eqn:Ep; simpl in Hp; [|lia].
      rewrite Hp. change (u16 (Z.of_nat 0 - 0)) with 0. rewrite drop_nil, take_nil. simpl app.
      rewrite (proj2 (Z.ltb_ge len 0)) by lia. rewrite Z.sub_0_r, u16_id by lia.
      by apply IH.
    + rewrite u16_id by lia. rewrite IH by (done || lia). f_equal.
      rewrite drop_app_ge by lia. f_equal. lia.
  - rewrite andb_false_r. cbv zeta. rewrite (u16_id (p_len p - offset)) by lia.
    rewrite drop_app_le by lia. destruct (Z.ltb_spec len (p_len p - offset)).
    + rewrite Z.sub_diag, u16_id by lia. rewrite IH by (done || lia). simpl.
      rewrite app_nil_r, take_app_le; [done|]. rewrite length_drop. lia.
    + rewrite u16_id by lia. rewrite IH by (done || lia). simpl.
      rewrite take_app, length_drop. f_equal.
      * rewrite !take_ge; [done|rewrite length_drop; lia..].
      * f_equal. lia.
Qed.

(** A frame of six bytes in two pbufs. *)
Definition demo_chain : chain := [Pbuf [1; 2; 3; 4] 4 6; Pbuf [5; 6] 2 2].
Lemma demo_chain_ok : chain_ok demo_chain.
Proof. by repeat split. Qed.

(** Copying out of a chain copies that part of its bytes, cut off at its
    end, however the chain is divided. *)
Theorem pbuf_copy_partial_bytes c len offset :
  chain_ok c → 0 ≤ len < 65536 → 0 ≤ offset < 65536 →
  pbuf_copy_partial c len offset = take (Z.to_nat len) (drop (Z.to_nat offset) (bytes c)).
Proof. apply copy_partial_bytes. Qed.

Lemma pbuf_copy_partial_bytes_witness :
  pbuf_copy_partial demo_chain 3 2 = take (Z.to_nat 3) (drop (Z.to_nat 2) (bytes demo_chain)).
Proof. apply (pbuf_copy_partial_bytes demo_chain 3 2 demo_chain_ok); lia. Defined.

Lemma chain_ok_bytes_range (P : Z → Prop) p c :
  Forall P (bytes (p :: c)) → Forall P (payload p) ∧ Forall P (bytes c).
Proof. rewrite bytes_cons. apply Forall_app. Qed.

(** Skipping ends in the pbuf that holds the offset. *)
Lemma pbuf_skip_const_spec c offset :
  chain_ok c → 0 ≤ offset < 65536 →
  match pbuf_skip_const c offset with
  | (q :: r, o) => chain_ok (q :: r) ∧ 0 ≤ o < p_len q ∧ offset < chain_len c ∧
      ∃ l, bytes c = l ++ bytes (q :: r) ∧ Z.of_nat (length l) = offset - o
  | ([], o) => chain_len c ≤ offset ∧ o = offset - chain_len c
  end.
Proof.
  revert offset. induction c as [|p c IH]; intros offset Hc Ho; cbn [pbuf_skip_const].
  { unfold chain_len. simpl. lia. }
  pose proof (chain_ok_len p c Hc) as (Hp & Ht & Hb).
  unfold chain_len in *. rewrite bytes_cons, length_app.
  destruct (Z.leb_spec (p_len p) offset) as [Hle|Hgt].
  - rewrite u16_id by lia. specialize (IH (offset - p_len p) (chain_ok_tail _ _ Hc) ltac:(lia)).
    destruct (pbuf_skip_const c (offset - p_len p)) as [[|q r] o]; [lia|].
    destruct IH as (? & ? & ? & l & E & Hll). split; [done|]. split; [done|]. split; [lia|].
    exists (payload p ++ l). rewrite E, length_app, app_assoc. split; [done|lia].
  - split; [done|]. split; [lia|]. split; [rewrite Hp in Hgt; lia|]. exists []. split; [done|simpl; lia].
Qed.

(** Reading a byte of a chain reads that byte of its bytes; past the end
    the result is -1. *)
Lemma pbuf_try_get_at_bytes c offset :
  chain_ok c → 0 ≤ offset < 65536 →
  pbuf_try_get_at c offset = default (-1) (bytes c !! Z.to_nat offset).
Proof.
  intros Hc Ho. unfold pbuf_try_get_at. pose proof (pbuf_skip_const_spec c offset Hc Ho) as Hs.
  destruct (pbuf_skip_const c offset) as [[|q r] o]; unfold chain_len in Hs.
  - rewrite lookup_ge_None_2 by lia. done.
  - destruct Hs as (Hq & Ho' & _ & l & E & Hl). pose proof (chain_ok_len q r Hq) as (Hp & _ & _).
    rewrite (proj2 (Z.ltb_lt o (p_len q))) by lia. rewrite E, lookup_app_r by lia.
    replace (Z.to_nat offset - length l)%nat with (Z.to_nat o) by lia.
    rewrite bytes_cons, lookup_app_l by lia.
    destruct (lookup_lt_is_Some_2 (payload q) (Z.to_nat o)) as [b Hb]; [lia|].
    rewrite Hb. simpl. by apply nth_lookup_Some.
Qed.

Lemma pbuf_get_at_bytes c offset :
  chain_ok c → Forall (λ b, 0 ≤ b < 256) (bytes c) → 0 ≤ offset < 65536 →
  pbuf_get_at c offset = default 0 (bytes c !! Z.to_nat offset).
Proof.
  intros Hc Hb Ho. unfold pbuf_get_at. rewrite pbuf_try_get_at_bytes by done.
  destruct (bytes c !! Z.to_nat offset) as [b|] eqn:E; simpl; [|done].
  pose proof (Forall_lookup_1 _ _ _ _ Hb E) as Hr. simpl in Hr.
  rewrite (proj2 (Z.leb_le 0 b)) by lia. by apply u8_id.
Qed.

(** The lengths of the pbufs of a chain, which no write changes. *)
Definition shape (c : chain) := (λ p, (p_len p, tot_len p)) <$> c.

Lemma chain_ok_shape c c' :
  shape c = shape c' → length <$> (payload <$> c) = length <$> (payload <$> c') →
  chain_ok c → chain_ok c'.
Proof.
  revert c'. induction c as [|p c IH]; intros [|p' c'] Hs Hl Hc; try done.
  injection Hs as Hpl Htl Hs. injection Hl as Hpp Hl. pose proof Hc as (H1 & H2 & H3 & H4).
  assert (Hlen : length (bytes c) = length (bytes c')).
  { clear -Hl. unfold bytes. revert c' Hl. induction c as [|p c IH]; intros [|p' c'] Hl; try done.
    injection Hl as Hp Hl. simpl. rewrite !length_app, Hp. f_equal. by apply IH. }
  rewrite bytes_cons, length_app in H2.
  split; [lia|]. rewrite bytes_cons, length_app. split; [lia|]. split; [lia|]. by apply (IH c').
Qed.

(** Writing a byte of a chain writes that byte of its bytes, and keeps the
    chain; past the end nothing is written. *)
Theorem pbuf_put_at_bytes c offset data :
  chain_ok c → 0 ≤ offset < 65536 →
  bytes (pbuf_put_at c offset data) = <[Z.to_nat offset := data]> (bytes c) ∧
  shape (pbuf_put_at c offset data) = shape c ∧ chain_ok (pbuf_put_at c offset data).
Proof.
  revert offset. induction c as [|p c IH]; intros offset Hc Ho; [done|].
  pose proof (chain_ok_len p c Hc) as (Hp & Ht & Hb). cbn [pbuf_put_at].
  destruct (Z.leb_spec (p_len p) offset) as [Hle|Hgt].
  - rewrite u16_id by lia.
    destruct (IH (offset - p_len p) (chain_ok_tail _ _ Hc)) as (H1 & H2 & H3); [lia|].
    rewrite !bytes_cons, H1. split; [|split].
    + rewrite insert_app_r_alt by lia. do 2 f_equal. lia.
    + simpl. by rewrite <-H2.
    + destruct Hc as (Hl1 & Hl2 & Hl3 & _). split; [done|]. split; [|done].
      rewrite bytes_cons, H1, length_app, length_insert.
      by rewrite bytes_cons, length_app in Hl2.
  - rewrite (proj2 (Z.ltb_lt _ _)) by lia. rewrite !bytes_cons. simpl.
    split; [by rewrite insert_app_l by lia|split; [done|]].
    destruct Hc as (Hl1 & Hl2 & Hl3 & Hl4). rewrite bytes_cons, length_app in Hl2.
    split; [by rewrite length_insert|]. rewrite bytes_cons, length_app. simpl.
    by rewrite length_insert.
Qed.

Lemma pbuf_put_at_bytes_witness :
  bytes (pbuf_put_at demo_chain 4 9) = <[Z.to_nat 4 := 9]> (bytes demo_chain) ∧
  shape (pbuf_put_at demo_chain 4 9) = shape demo_chain ∧ chain_ok (pbuf_put_at demo_chain 4 9).
Proof. apply (pbuf_put_at_bytes demo_chain 4 9 demo_chain_ok). lia. Defined.

(** ** Writing a run of bytes *)

Lemma inserts_split {A} (o : nat) (l k : list A) :
  (o + length l ≤ length k)%nat →
  list_inserts o l k = take o k ++ l ++ drop (o + length l) k.
Proof.
  intros Hl. assert (Ho : length (take o k) = o) by (rewrite length_take; lia).
  apply list_eq. intros i. destruct (decide (i < o)%nat).
  { rewrite list_lookup_inserts_lt by lia. rewrite lookup_app_l, lookup_take_lt by lia. done. }
  destruct (decide (i < o + length l)%nat).
  - rewrite list_lookup_inserts by lia. rewrite lookup_app_r, lookup_app_l by lia. by rewrite Ho.
  - rewrite list_lookup_inserts_ge by lia. rewrite !lookup_app_r by lia.
    rewrite lookup_drop, Ho. f_equal. lia.
Qed.

Lemma inserts_as_app {A} (l k : list A) :
  (length l ≤ length k)%nat → list_inserts 0 l k = l ++ drop (length l) k.
Proof. apply (inserts_split 0). Qed.

Lemma take_loop_bytes c : ∀ data n,
  chain_ok c → 0 ≤ n ≤ chain_len c → n ≤ Z.of_nat (length data) →
  ∃ c', take_loop c data n = Some c' ∧
    bytes c' = take (Z.to_nat n) data ++ drop (Z.to_nat n) (bytes c) ∧
    shape c' = shape c ∧ chain_ok c'.
Proof.
  induction c as [|p c IH]; intros data n Hc Hn Hd.
  { unfold chain_len in Hn. simpl in Hn. assert (n = 0) as -> by lia. by exists []. }
  cbn [take_loop]. destruct (Z.eqb_spec n 0) as [->|Hne]; [by exists (p :: c)|].
  pose proof (chain_ok_len p c Hc) as (Hp & Ht & Hb). unfold chain_len in *.
  rewrite bytes_cons, length_app in Hn.
  set (m := if p_len p <? n then p_len p else n).
  assert (Hm : 0 ≤ m ≤ n ∧ m ≤ p_len p ∧ n - m ≤ Z.of_nat (length (bytes c)) ∧
    (m = n ∨ m = p_len p)).
  { subst m. destruct (Z.ltb_spec (p_len p) n); lia. }
  clearbody m. destruct (IH (drop (Z.to_nat m) data) (n - m)) as (c' & -> & Hc' & Hs & Hok).
  { by eapply chain_ok_tail. }
  { lia. }
  { rewrite length_drop. lia. }
  simpl. eexists. split; [done|]. rewrite bytes_cons, Hc'. simpl.
  assert (Hlm : length (take (Z.to_nat m) data) = Z.to_nat m) by (rewrite length_take; lia).
  rewrite inserts_as_app by lia. rewrite Hlm.
  assert (Hpl : length (take (Z.to_nat m) data ++ drop (Z.to_nat m) (payload p)) =
    length (payload p)) by (rewrite length_app, Hlm, length_drop; lia).
  split; [|split].
  - rewrite <-app_assoc. destruct Hm as (? & ? & ? & [->| ->]).
    + rewrite Z.sub_diag. simpl. rewrite bytes_cons, drop_app_le by lia. done.
    + rewrite Hp, Nat2Z.id, drop_ge by lia. simpl. rewrite bytes_cons, drop_app_ge by lia.
      rewrite app_assoc. f_equal; [|f_equal; lia].
      rewrite take_take_drop. f_equal. lia.
  - by f_equal.
  - destruct Hc as (Hl1 & Hl2 & Hl3 & Hl4). rewrite bytes_cons, length_app in Hl2.
    split; [by simpl; rewrite Hpl|]. rewrite bytes_cons, length_app. simpl. rewrite Hpl, Hc'.
    split; [|done]. rewrite length_app, length_take, !length_drop. lia.
Qed.

(** Copying into a chain replaces the front of its bytes; a chain that is
    too short is left alone and the error is ERR_MEM. *)
Theorem pbuf_take_bytes p c data len :
  chain_ok (p :: c) → 0 ≤ len ≤ Z.of_nat (length data) →
  ∃ r c', pbuf_take (p :: c) data len = Some (r, c') ∧ chain_ok c' ∧ shape c' = shape (p :: c) ∧
    if bool_decide (len ≤ chain_len (p :: c))
    then r = ERR_OK ∧
      bytes c' = take (Z.to_nat len) data ++ drop (Z.to_nat len) (bytes (p :: c))
    else r = ERR_MEM ∧ c' = p :: c.
Proof.
  intros Hc Hl. unfold pbuf_take. pose proof Hc as (_ & Ht & _ & _). rewrite Ht.
  fold (chain_len (p :: c)). case_bool_decide as Hle.
  - rewrite (proj2 (Z.ltb_ge _ _)) by lia.
    destruct (take_loop_bytes (p :: c) data len) as (c' & -> & ? & ? & ?); [done|lia|lia|].
    simpl. by exists ERR_OK, c'.
  - rewrite (proj2 (Z.ltb_lt _ _)) by lia. by exists ERR_MEM, (p :: c).
Qed.

Lemma pbuf_take_bytes_witness :
  ∃ r c', pbuf_take demo_chain [7; 8; 9; 10; 11] 5 = Some (r, c') ∧ chain_ok c' ∧
    shape c' = shape demo_chain ∧
    if bool_decide (5 ≤ chain_len demo_chain)
    then r = ERR_OK ∧
      bytes c' = take (Z.to_nat 5) [7; 8; 9; 10; 11] ++ drop (Z.to_nat 5) (bytes demo_chain)
    else r = ERR_MEM ∧ c' = demo_chain.
Proof.
  apply (pbuf_take_bytes (Pbuf [1; 2; 3; 4] 4 6) [Pbuf [5; 6] 2 2]); [apply demo_chain_ok|].
  simpl. lia.
Defined.

(** The same for the rest of a chain, which may be empty when nothing is left
    to copy. *)
Lemma pbuf_take_rest c data n :
  chain_ok c → 0 < n ≤ Z.of_nat (length data) → n ≤ chain_len c →
  ∃ c', pbuf_take c data n = Some (ERR_OK, c') ∧ chain_ok c' ∧ shape c' = shape c ∧
    bytes c' = take (Z.to_nat n) data ++ drop (Z.to_nat n) (bytes c).
Proof.
  intros Hc Hn Hle. destruct c as [|p c]; [unfold chain_len in Hle; simpl in Hle; lia|].
  unfold pbuf_take. pose proof Hc as (_ & Ht & _ & _). rewrite Ht. fold (chain_len (p :: c)).
  rewrite (proj2 (Z.ltb_ge _ _)) by lia.
  destruct (take_loop_bytes (p :: c) data n) as (c' & -> & ? & ? & ?); [done|lia|lia|].
  by exists c'.
Qed.

Lemma take_at_ok c : ∀ data len offset,
  chain_ok c → 0 ≤ len ≤ Z.of_nat (length data) → 0 ≤ offset < chain_len c →
  offset + len ≤ chain_len c →
  ∃ c', pbuf_take_at c data len offset = Some (ERR_OK, c') ∧ chain_ok c' ∧ shape c' = shape c ∧
    bytes c' = take (Z.to_nat offset) (bytes c) ++ take (Z.to_nat len) data ++
               drop (Z.to_nat (offset + len)) (bytes c).
Proof.
  induction c as [|q c IH]; intros data len offset Hc Hl Ho Hf.
  { unfold chain_len in Ho. simpl in Ho. lia. }
  pose proof (chain_ok_len q c Hc) as (Hp & Ht & Hb). unfold chain_len in *.
  rewrite bytes_cons, length_app in Ho, Hf. cbn [pbuf_take_at].
  destruct Hc as (Hl1 & Hl2 & Hl3 & Hl4). rewrite bytes_cons, length_app in Hl2.
  destruct (Z.leb_spec (p_len q) offset) as [Hle|Hgt].
  - rewrite u16_id by lia.
    destruct (IH data len (offset - p_len q)) as (c' & -> & Hok & Hs & Hbs); [done|lia..|].
    simpl. eexists. split; [done|]. rewrite !bytes_cons, Hbs.
    assert (Hlen : length (bytes c') = length (bytes c)).
    { rewrite Hbs, !length_app, !length_take, length_drop. lia. }
    split; [|split; [by rewrite <-Hs|]].
    + split; [done|]. rewrite bytes_cons, length_app, Hlen. by split_and!.
    + rewrite take_app_ge by lia. rewrite <-app_assoc. f_equal. f_equal; [f_equal; lia|].
      f_equal. rewrite drop_app_ge by lia. f_equal. lia.
  - rewrite (proj2 (Z.leb_le _ _)) by lia.
    set (n := if len <? p_len q - offset then len else p_len q - offset).
    assert (Hn : 0 ≤ n ≤ len ∧ offset + n ≤ p_len q ∧ (n = len ∨ offset + n = p_len q)).
    { subst n. destruct (Z.ltb_spec len (p_len q - offset)); lia. }
    clearbody n. rewrite u16_id by lia.
    set (pl := list_inserts (Z.to_nat offset) (take (Z.to_nat n) data) (payload q)).
    assert (Hpl : pl = take (Z.to_nat offset) (payload q) ++ take (Z.to_nat n) data ++
      drop (Z.to_nat (offset + n)) (payload q)).
    { subst pl. rewrite inserts_split by (rewrite length_take; lia).
      do 3 f_equal. rewrite length_take. lia. }
    assert (Hpll : length pl = length (payload q)) by (subst pl; by rewrite length_inserts).
    destruct (Z.ltb_spec 0 (len - n)) as [Hrem|Hrem].
    + destruct (pbuf_take_rest c (drop (Z.to_nat n) data) (len - n)) as (c' & -> & Hok & Hs & Hbs);
        [done|rewrite length_drop; lia|unfold chain_len; lia|].
      simpl. eexists. split; [done|].
      assert (Hlen : length (bytes c') = length (bytes c)).
      { rewrite Hbs, length_app, length_take, !length_drop. lia. }
      split; [|split; [by rewrite <-Hs|]].
      * split; [simpl; lia|]. rewrite bytes_cons, length_app, Hlen. simpl. rewrite Hpll. by split_and!.
      * rewrite !bytes_cons, Hbs. simpl. rewrite Hpl.
        rewrite (drop_ge (payload q)) by lia. rewrite app_nil_r, <-!app_assoc.
        rewrite take_app_le by lia. f_equal. rewrite drop_app_ge by lia.
        rewrite app_assoc, take_take_drop. f_equal; [f_equal; lia|f_equal; lia].
    + assert (n = len) as -> by lia. eexists. split; [done|].
      split; [|split; [done|]].
      * split; [simpl; lia|]. rewrite bytes_cons, length_app. simpl. rewrite Hpll. by split_and!.
      * rewrite !bytes_cons. simpl. rewrite Hpl, <-!app_assoc.
        rewrite take_app_le, drop_app_le by lia. done.
Qed.

Lemma take_at_fail c data len offset :
  chain_ok c → 0 ≤ offset < 65536 → 0 ≤ len →
  chain_len c ≤ offset ∨ chain_len c < offset + len →
  pbuf_take_at c data len offset = Some (ERR_MEM, c).
Proof.
  revert offset. induction c as [|q c IH]; intros offset Hc Ho Hl Hbig; [done|].
  pose proof (chain_ok_len q c Hc) as (Hp & Ht & Hb). unfold chain_len in *.
  rewrite bytes_cons, length_app in Hbig. cbn [pbuf_take_at].
  destruct (Z.leb_spec (p_len q) offset) as [Hle|Hgt].
  - rewrite u16_id by lia. rewrite IH; [done|by eapply chain_ok_tail|lia..].
  - by rewrite (proj2 (Z.leb_gt _ _)) by lia.
Qed.

(** Copying into a chain at an offset replaces that part of its bytes; when
    it does not fit, nothing is written and the error is ERR_MEM. *)
Theorem pbuf_take_at_bytes c data len offset :
  chain_ok c → 0 ≤ len ≤ Z.of_nat (length data) → 0 ≤ offset < 65536 →
  ∃ r c', pbuf_take_at c data len offset = Some (r, c') ∧ chain_ok c' ∧ shape c' = shape c ∧
    if bool_decide (offset < chain_len c ∧ offset + len ≤ chain_len c)
    then r = ERR_OK ∧ bytes c' = take (Z.to_nat offset) (bytes c) ++ take (Z.to_nat len) data ++
           drop (Z.to_nat (offset + len)) (bytes c)
    else r = ERR_MEM ∧ c' = c.
Proof.
  intros Hc Hl Ho. case_bool_decide as Hfit.
  - destruct (take_at_ok c data len offset) as (c' & ? & ? & ? & ?); [done|done|lia|lia|].
    by exists ERR_OK, c'.
  - exists ERR_MEM, c. rewrite take_at_fail by (done || lia). done.
Qed.

Lemma pbuf_take_at_bytes_witness :
  ∃ r c', pbuf_take_at demo_chain [7; 8; 9] 3 2 = Some (r, c') ∧ chain_ok c' ∧
    shape c' = shape demo_chain ∧
    if bool_decide (2 < chain_len demo_chain ∧ 2 + 3 ≤ chain_len demo_chain)
    then r = ERR_OK ∧ bytes c' = take (Z.to_nat 2) (bytes demo_chain) ++
           take (Z.to_nat 3) [7; 8; 9] ++ drop (Z.to_nat (2 + 3)) (bytes demo_chain)
    else r = ERR_MEM ∧ c' = demo_chain.
Proof. apply (pbuf_take_at_bytes demo_chain [7; 8; 9] 3 2 demo_chain_ok); simpl; lia. Defined.

(** ** Comparing and searching *)

(** The bytes of a chain from [offset] on, [n] of them. *)
Definition slice (offset n : Z) (l : list Z) : list Z :=
  take (Z.to_nat n) (drop (Z.to_nat offset) l).

(** The index of the first difference of two byte strings of one length. *)
Fixpoint first_diff (i : Z) (l1 l2 : list Z) : option Z :=
  match l1, l2 with
  | a :: l1, b :: l2 => if a =? b then first_diff (i + 1) l1 l2 else Some i
  | _, _ => None
  end.

Lemma first_diff_none i l1 l2 : length l1 = length l2 → first_diff i l1 l2 = None ↔ l1 = l2.
Proof.
  revert i l2. induction l1 as [|a l1 IH]; intros i [|b l2] Hl; try done.
  simpl in *. destruct (Z.eqb_spec a b) as [->|]; [|naive_solver].
  rewrite IH by lia. naive_solver.
Qed.

Lemma first_diff_range i l1 l2 j :
  first_diff i l1 l2 = Some j → i ≤ j < i + Z.of_nat (length l1).
Proof.
  revert i l2. induction l1 as [|a l1 IH]; intros i [|b l2]; try done. simpl.
  destruct (a =? b); [|intros [= ->]; lia]. intros Hj%IH. lia.
Qed.

Lemma memcmp_loop_bytes q start i s2 :
  chain_ok q → Forall (λ b, 0 ≤ b < 256) (bytes q) → 0 ≤ start → 0 ≤ i →
  start + i + Z.of_nat (length s2) ≤ chain_len q →
  memcmp_loop q start i s2 =
  match first_diff i (slice (start + i) (Z.of_nat (length s2)) (bytes q)) s2 with
  | Some j => j + 1
  | None => 0
  end.
Proof.
  intros Hq Hb Hs. revert i. pose proof (chain_len_bound q Hq) as Hbd. unfold chain_len in *.
  induction s2 as [|b s2 IH]; intros i Hi Hfit; unfold slice; simpl in *.
  { done. }
  rewrite u16_id by lia. rewrite pbuf_get_at_bytes by (done || lia).
  destruct (lookup_lt_is_Some_2 (bytes q) (Z.to_nat (start + i))) as [a Ha]; [lia|].
  rewrite Ha. simpl. rewrite (drop_S _ a) by done.
  rewrite Nat2Z.id. simpl.
  destruct (a =? b); simpl; [|lia]. rewrite u16_id by lia. rewrite IH by lia.
  unfold slice. rewrite Nat2Z.id.
  replace (Z.to_nat (start + (i + 1))) with (S (Z.to_nat (start + i))) by lia. done.
Qed.

(** Comparing a part of a chain with [n] bytes gives 0 when they are equal,
    the position after the first difference when they are not, and 0xffff when
    the chain is too short. *)
Lemma pbuf_memcmp_bytes p c offset s2 n :
  chain_ok (p :: c) → Forall (λ b, 0 ≤ b < 256) (bytes (p :: c)) →
  0 ≤ offset < 65536 → n = Z.of_nat (length s2) →
  pbuf_memcmp (p :: c) offset s2 n =
  if bool_decide (offset + n ≤ chain_len (p :: c)) then
    match first_diff 0 (slice offset n (bytes (p :: c))) s2 with
    | Some j => j + 1
    | None => 0
    end
  else 65535.
Proof.
  intros Hc Hb Ho Hn. cbn [pbuf_memcmp]. pose proof Hc as (_ & Ht & _ & _). rewrite Ht.
  fold (chain_len (p :: c)). case_bool_decide as Hfit; [|by rewrite (proj2 (Z.ltb_lt _ _)) by lia].
  rewrite (proj2 (Z.ltb_ge _ _)) by lia. rewrite take_ge by lia.
  pose proof (pbuf_skip_const_spec (p :: c) offset Hc Ho) as Hs.
  destruct (pbuf_skip_const (p :: c) offset) as [[|q r] o].
  - destruct Hs as [Hs _]. assert (n = 0) as -> by lia. by destruct s2.
  - destruct Hs as (Hq & Ho' & Hlt & l & E & Hll).
    pose proof (chain_len_bound _ Hc) as Hbd.
    unfold chain_len in *. rewrite E in Hb, Hfit |- *. apply Forall_app in Hb as [_ Hb].
    rewrite length_app in Hfit. rewrite memcmp_loop_bytes by (done || unfold chain_len; lia).
    unfold slice. rewrite drop_app_ge by lia. rewrite Z.add_0_r, <-Hn.
    by replace (Z.to_nat offset - length l)%nat with (Z.to_nat o) by lia.
Qed.

(** The first position from [i] on, of [k], where [mem] is in [l]. *)
Fixpoint search (k : nat) (mem l : list Z) (i : Z) : option Z :=
  match k with
  | O => None
  | S k =>
      if decide (slice i (Z.of_nat (length mem)) l = mem) then Some i
      else search k mem l (i + 1)
  end.

Lemma memfind_loop_bytes k p c mem i :
  chain_ok (p :: c) → Forall (λ b, 0 ≤ b < 256) (bytes (p :: c)) → 0 ≤ i →
  i + Z.of_nat k + Z.of_nat (length mem) ≤ chain_len (p :: c) + 1 →
  memfind_loop k (p :: c) mem (Z.of_nat (length mem)) i =
  default 65535 (search k mem (bytes (p :: c)) i).
Proof.
  intros Hc Hb. pose proof (chain_len_bound _ Hc) as Hbd. revert i.
  induction k as [|k IH]; intros i Hi Hk; [done|]. cbn [memfind_loop search].
  rewrite (pbuf_memcmp_bytes p c i mem _) by (done || lia).
  rewrite bool_decide_true by lia. unfold chain_len in *.
  assert (Hlen : length (slice i (Z.of_nat (length mem)) (bytes (p :: c))) = length mem).
  { unfold slice. rewrite length_take, length_drop. lia. }
  pose proof (first_diff_none 0 _ _ Hlen) as Hnone.
  destruct (first_diff 0 _ mem) as [j|] eqn:Ej.
  - pose proof (first_diff_range _ _ _ _ Ej). rewrite (proj2 (Z.eqb_neq (j + 1) 0)) by lia.
    rewrite decide_False by naive_solver. apply IH; lia.
  - rewrite Z.eqb_refl, decide_True by naive_solver. done.
Qed.

(** Searching a chain gives the first position where the bytes looked for
    are, and 0xffff when they are not there. *)
Theorem pbuf_memfind_bytes p c mem start :
  chain_ok (p :: c) → Forall (λ b, 0 ≤ b < 256) (bytes (p :: c)) → 0 ≤ start < 65536 →
  pbuf_memfind (p :: c) mem (Z.of_nat (length mem)) start =
  default 65535 (search (Z.to_nat (chain_len (p :: c) - Z.of_nat (length mem) + 1 - start))
    mem (bytes (p :: c)) start).
Proof.
  intros Hc Hb Hs. cbn [pbuf_memfind]. pose proof Hc as (_ & Ht & _ & _). rewrite Ht.
  fold (chain_len (p :: c)). pose proof (chain_len_bound _ Hc) as Hbd.
  destruct (Z.leb_spec (Z.of_nat (length mem) + start) (chain_len (p :: c))) as [Hle|Hgt].
  - rewrite u16_id by lia. rewrite memfind_loop_bytes by (done || lia). done.
  - replace (Z.to_nat _) with 0%nat by lia. done.
Qed.

Lemma pbuf_memfind_bytes_witness :
  pbuf_memfind demo_chain [4; 5] (Z.of_nat 2) 1 =
  default 65535 (search (Z.to_nat (chain_len demo_chain - Z.of_nat 2 + 1 - 1))
    [4; 5] (bytes demo_chain) 1).
Proof.
  apply (pbuf_memfind_bytes (Pbuf [1; 2; 3; 4] 4 6) [Pbuf [5; 6] 2 2] [4; 5] 1);
    [apply demo_chain_ok| |lia].
  repeat constructor; lia.
Defined.
