(* ===== verification/Def.v ===== *)
(** lwIP's common functions, [lwip/src/core/def.c]: byte order, case-blind
    comparison, substring search and decimal output. *)
From Stdlib Require Import Ascii.
From stdpp Require Import base tactics numbers list strings.
From S2P Require Import Prelude Words Printf.

(** ** Byte order: the target is little-endian *)

Definition PP_HTONS (x : Z) : Z :=
  u16 (Z.lor (Z.shiftl (Z.land x 255) 8) (Z.shiftr (Z.land x 65280) 8)).
Definition PP_HTONL (x : Z) : Z :=
  Z.lor (Z.lor (Z.lor (u32 (Z.shiftl (Z.land x 0xff) 24))
    (u32 (Z.shiftl (Z.land x 0xff00) 8)))
    (Z.shiftr (Z.land x 0xff0000) 8))
    (Z.shiftr (Z.land x 0xff000000) 24).

Definition lwip_htons (n : Z) : Z := PP_HTONS n.
Definition lwip_htonl (n : Z) : Z := PP_HTONL n.

(** Byte [i] of a word in memory. *)
Definition byte_at (x i : Z) : Z := Z.land (Z.shiftr x (8 * i)) 255.

Lemma byte_at_ok x i : byte_ok (byte_at x i).
Proof.
  unfold byte_at, byte_ok. change 255 with (Z.ones 8). rewrite land_mask by lia.
  by apply Z.mod_pos_bound.
Qed.

Lemma byte_at_bits x i j :
  0 ≤ i → 0 ≤ j → Z.testbit (byte_at x i) j = (j <? 8) && Z.testbit x (8 * i + j).
Proof.
  intros Hi Hj. unfold byte_at. change 255 with (Z.ones 8).
  rewrite Z.land_spec, Z.shiftr_spec, Z.testbit_ones_nonneg by lia.
  rewrite andb_comm. f_equal. f_equal. lia.
Qed.

(** A word is its bytes. *)
Lemma le32_bytes x :
  0 ≤ x < 4294967296 → le32 (byte_at x 0) (byte_at x 1) (byte_at x 2) (byte_at x 3) = x.
Proof.
  intros Hx. rewrite le32_be32, be32_value by apply byte_at_ok.
  unfold byte_at. change 255 with (Z.ones 8). rewrite !land_mask, !Z.shiftr_div_pow2 by lia.
  rewrite !Z.mul_0_r, !Z.pow_0_r, Z.div_1_r.
  change (2 ^ (8 * 1)) with 256. change (2 ^ (8 * 2)) with 65536.
  change (2 ^ (8 * 3)) with 16777216. change (2 ^ 8) with 256.
  rewrite (Z.mod_small (x / 16777216)).
  - replace (x / 65536) with (x / 256 / 256) by (by rewrite Z.div_div).
    replace (x / 16777216) with (x / 256 / 256 / 256) by (by rewrite !Z.div_div).
    pose proof (Z_div_mod_eq_full x 256). pose proof (Z_div_mod_eq_full (x / 256) 256).
    pose proof (Z_div_mod_eq_full (x / 256 / 256) 256). lia.
  - split; [apply Z.div_pos; lia|]. apply Z.div_lt_upper_bound; lia.
Qed.

Lemma mask_byte x n :
  0 ≤ n → Z.land x (Z.shiftl 255 n) = Z.shiftl (Z.land (Z.shiftr x n) 255) n.
Proof.
  intros Hn. apply Z.bits_inj'. intros i Hi. rewrite Z.shiftl_land, !Z.land_spec.
  rewrite !Z.shiftl_spec by lia. destruct (Z.lt_ge_cases i n).
  - by rewrite !(Z.testbit_neg_r _ (i - n)), !andb_false_r by lia.
  - rewrite Z.shiftr_spec by lia. do 2 f_equal. lia.
Qed.

Lemma lwip_htonl_bytes x :
  lwip_htonl x = be32 (byte_at x 0) (byte_at x 1) (byte_at x 2) (byte_at x 3).
Proof.
  assert (E0 : Z.land x 0xff = byte_at x 0) by (unfold byte_at; by rewrite Z.shiftr_0_r).
  assert (E1 : Z.land x 0xff00 = Z.shiftl (byte_at x 1) 8) by apply (mask_byte x 8 ltac:(lia)).
  assert (E2 : Z.land x 0xff0000 = Z.shiftl (byte_at x 2) 16) by apply (mask_byte x 16 ltac:(lia)).
  assert (E3 : Z.land x 0xff000000 = Z.shiftl (byte_at x 3) 24)
    by apply (mask_byte x 24 ltac:(lia)).
  unfold lwip_htonl, PP_HTONL, be32. rewrite E0, E1, E2, E3.
  rewrite Z.shiftl_shiftl, !Z.shiftr_shiftl_l by lia. change (24 - 24) with 0.
  rewrite Z.shiftl_0_r. do 2 f_equal.
  pose proof (byte_at_ok x 2) as Hb. unfold byte_ok in Hb.
  rewrite u32_id; [done|]. rewrite Z.shiftl_mul_pow2; lia.
Qed.

Lemma byte_at_le32 b0 b1 b2 b3 :
  byte_ok b0 → byte_ok b1 → byte_ok b2 → byte_ok b3 →
  byte_at (le32 b0 b1 b2 b3) 0 = b0 ∧ byte_at (le32 b0 b1 b2 b3) 1 = b1 ∧
  byte_at (le32 b0 b1 b2 b3) 2 = b2 ∧ byte_at (le32 b0 b1 b2 b3) 3 = b3.
Proof.
  intros H0 H1 H2 H3. set (x := le32 b0 b1 b2 b3).
  assert (Hx : 0 ≤ x < 4294967296) by (subst x; rewrite le32_be32; by apply be32_range).
  pose proof (le32_bytes x Hx) as Hb. unfold x at 5 in Hb. rewrite !le32_be32 in Hb.
  apply be32_inj in Hb as (? & ? & ? & ?); try done; apply byte_at_ok.
Qed.

(** Conversion to network byte order reverses the bytes of a word, so
    converting twice gives the word back. *)
Lemma lwip_htonl_involutive x :
  0 ≤ x < 4294967296 →
  lwip_htonl (lwip_htonl x) = x ∧
  ∀ i, 0 ≤ i < 4 → byte_at (lwip_htonl x) i = byte_at x (3 - i).
Proof.
  intros Hx.
  assert (Hle : lwip_htonl x = le32 (byte_at x 3) (byte_at x 2) (byte_at x 1) (byte_at x 0))
    by (by rewrite lwip_htonl_bytes, le32_be32).
  destruct (byte_at_le32 (byte_at x 3) (byte_at x 2) (byte_at x 1) (byte_at x 0))
    as (E0 & E1 & E2 & E3); [apply byte_at_ok..|].
  rewrite <-Hle in E0, E1, E2, E3. split.
  - rewrite (lwip_htonl_bytes (lwip_htonl x)), E0, E1, E2, E3, <-le32_be32. by apply le32_bytes.
  - intros i Hi. assert (i = 0 ∨ i = 1 ∨ i = 2 ∨ i = 3) as [->|[->|[->| ->]]] by lia; done.
Qed.

Lemma lwip_htons_value y : 0 ≤ y < 65536 → lwip_htons y = y mod 256 * 256 + y / 256.
Proof.
  intros Hy. unfold lwip_htons, PP_HTONS. change 65280 with (Z.shiftl 255 8).
  rewrite mask_byte by lia. change 255 with (Z.ones 8). rewrite !land_mask by lia.
  rewrite Z.shiftr_shiftl_l, Z.shiftl_0_r, Z.shiftr_div_pow2 by lia. change (2 ^ 8) with 256.
  pose proof (Z.mod_pos_bound y 256 ltac:(lia)). pose proof (Z_div_mod_eq_full y 256).
  rewrite (Z.mod_small (y / 256)) by lia. rewrite lor_shiftl_add by lia.
  rewrite u16_id; lia.
Qed.

Lemma lwip_htons_range y : 0 ≤ y < 65536 → 0 ≤ lwip_htons y < 65536.
Proof. intros Hy. rewrite lwip_htons_value by done. Z.div_mod_to_equations. lia. Qed.

Lemma lwip_htons_involutive x : 0 ≤ x < 65536 → lwip_htons (lwip_htons x) = x.
Proof.
  intros Hx. pose proof (lwip_htons_range x Hx). rewrite (lwip_htons_value (lwip_htons x)) by done.
  rewrite lwip_htons_value by done. Z.div_mod_to_equations. lia.
Qed.

(** ** Comparison without regard to case *)

Definition chr (c : ascii) : Z := Z.of_N (N_of_ascii c).

(** Whether the comparison of two characters goes on. *)
Definition same_char (c1 c2 : ascii) : bool :=
  if decide (c1 = c2) then true
  else
    let c1_upc := Z.lor (chr c1) 0x20 in
    (97 <=? c1_upc) && (c1_upc <=? 122) && (c1_upc =? Z.lor (chr c2) 0x20).

(** The loop of [lwip_stricmp], on the characters before the NULs; [None] for
    a read past a NUL. *)
Fixpoint lwip_stricmp (s1 s2 : list ascii) : option Z :=
  match s1, s2 with
  | [], [] => Some 0
  | c1 :: s1, c2 :: s2 => if same_char c1 c2 then lwip_stricmp s1 s2 else Some 1
  | c1 :: _, [] => if same_char c1 nul then None else Some 1
  | [], c2 :: _ => if same_char nul c2 then Some 0 else Some 1
  end.

(** The lower-case form of an ASCII letter. *)
Definition lower (c : ascii) : ascii :=
  if (65 <=? chr c) && (chr c <=? 90) then ascii_of_N (Z.to_N (chr c + 32)) else c.

Definition all_chars : list ascii := (λ n, ascii_of_N (Z.to_N n)) <$> seqZ 0 256.

Lemma elem_of_all_chars c : c ∈ all_chars.
Proof.
  apply list_elem_of_fmap. exists (chr c). unfold chr. split.
  - by rewrite N2Z.id, ascii_N_embedding.
  - apply elem_of_seqZ. pose proof (N_ascii_bounded c). lia.
Qed.

Lemma same_char_lower c1 c2 : same_char c1 c2 = bool_decide (lower c1 = lower c2).
Proof.
  assert (Hall : forallb (λ c1, forallb (λ c2,
    eqb (same_char c1 c2) (bool_decide (lower c1 = lower c2))) all_chars) all_chars = true)
    by (vm_compute; reflexivity).
  rewrite forallb_forall in Hall. specialize (Hall c1).
  rewrite <-list_elem_of_In, forallb_forall in Hall. specialize (Hall (elem_of_all_chars c1) c2).
  rewrite <-list_elem_of_In in Hall. by apply eqb_prop, Hall, elem_of_all_chars.
Qed.

Lemma lower_nul c : c ≠ nul → lower c ≠ lower nul.
Proof.
  assert (Hall : forallb (λ c, bool_decide (c = nul) || negb (bool_decide (lower c = lower nul)))
    all_chars = true) by (vm_compute; reflexivity).
  rewrite forallb_forall in Hall. specialize (Hall c). rewrite <-list_elem_of_In in Hall.
  specialize (Hall (elem_of_all_chars c)). apply orb_true_iff in Hall as [H|H].
  - by apply bool_decide_eq_true in H.
  - by apply negb_true_iff, bool_decide_eq_false in H.
Qed.

(** Comparing two strings without regard to case gives 0 exactly when their
    lower-case forms are the same, and never reads past an end. *)
Theorem lwip_stricmp_lower s1 s2 :
  no_nul s1 → no_nul s2 →
  lwip_stricmp s1 s2 = Some (if decide (lower <$> s1 = lower <$> s2) then 0 else 1).
Proof.
  intros H1. revert s2. induction H1 as [|c1 s1 Hc1 _ IH]; intros s2 H2.
  - destruct H2 as [|c2 s2 Hc2 _]; [done|]. cbn [lwip_stricmp]. rewrite same_char_lower.
    rewrite bool_decide_false by (intros E; by apply (lower_nul c2 Hc2)). by rewrite decide_False.
  - destruct H2 as [|c2 s2 Hc2 H2]; cbn [lwip_stricmp]; rewrite same_char_lower.
    + rewrite bool_decide_false by (by apply lower_nul). by rewrite decide_False.
    + case_bool_decide as E; [|rewrite decide_False; [done|]; intros E'; by injection E'].
      rewrite IH by done. f_equal. destruct (decide (lower <$> s1 = lower <$> s2)) as [E'|E'].
      * rewrite decide_True; [done|]. rewrite !fmap_cons. by f_equal.
      * rewrite decide_False; [done|]. rewrite !fmap_cons. intros E''. by injection E''.
Qed.

Lemma lwip_stricmp_lower_witness :
  lwip_stricmp (string_chars "Pool.NTP") (string_chars "pool.ntp") =
  Some (if decide (lower <$> string_chars "Pool.NTP" = lower <$> string_chars "pool.ntp")
        then 0 else 1).
Proof.
  apply (lwip_stricmp_lower (string_chars "Pool.NTP") (string_chars "pool.ntp"));
    apply (bool_decide_unpack _); vm_compute; exact I.
Defined.
