(* ===== verification/Checksum.v ===== *)
(** The Internet checksum, [lwip/src/core/inet_chksum.c]: the sum over a buffer at
    any address, over a chain of pbufs, and with the pseudo header of UDP.  The
    theorems say that it is the one's complement sum of the bytes alone, wherever
    they are and however they are cut into pbufs, that it is the sum of RFC 1071,
    and that a receiver accepts what was sent and notices a changed word. *)
From stdpp Require Import base tactics numbers list.
From S2P Require Import Prelude Words Pbuf Def.

(** ** The code *)

Definition FOLD_U32T (u : Z) : Z := u32 (Z.shiftr u 16 + Z.land u 0xffff).
Definition SWAP_BYTES_IN_WORD (w : Z) : Z :=
  Z.lor (Z.shiftl (Z.land w 0xff) 8) (Z.shiftr (Z.land w 0xff00) 8).

(** [while (len > 1) { sum += *ps++; len -= 2; }] on a little-endian machine; the
    sum and what is left of the data. *)
Fixpoint add_words (data : list Z) (sum : Z) : Z * list Z :=
  match data with
  | a :: b :: data => add_words data (u32 (sum + Z.lor a (Z.shiftl b 8)))
  | _ => (sum, data)
  end.

(** [data] are the [len] bytes at address [dataptr]. *)
Definition lwip_standard_chksum (dataptr : Z) (data : list Z) : Z :=
  let odd := Z.land dataptr 1 =? 1 in
  let '(t, data) :=
    match data with
    | b :: rest => if odd then (Z.shiftl b 8, rest) else (0, data)
    | [] => (0, data)
    end in
  let '(sum, rest) := add_words data 0 in
  let t := match rest with b :: _ => Z.lor (Z.land t 0xff00) b | [] => t end in
  let sum := u32 (sum + t) in
  let sum := FOLD_U32T (FOLD_U32T sum) in
  u16 (if odd then SWAP_BYTES_IN_WORD sum else sum).

Definition LWIP_CHKSUM : Z → list Z → Z := lwip_standard_chksum.

Definition inet_chksum (dataptr : Z) (data : list Z) : Z :=
  u16 (Z.lnot (LWIP_CHKSUM dataptr data)).

(** A chain whose payloads are at the addresses given. *)
Definition placed : Type := list (Z * pbuf).

(** The loop of [inet_chksum_pbuf] and of [inet_cksum_pseudo_base]. *)
Fixpoint chain_sum (c : placed) (acc : Z) (swapped : bool) : Z * bool :=
  match c with
  | [] => (acc, swapped)
  | (a, q) :: c =>
      let acc := FOLD_U32T (u32 (acc + LWIP_CHKSUM a (payload q))) in
      if negb (p_len q mod 2 =? 0) then chain_sum c (SWAP_BYTES_IN_WORD acc) (negb swapped)
      else chain_sum c acc swapped
  end.

Definition inet_chksum_pbuf (p : placed) : Z :=
  let '(acc, swapped) := chain_sum p 0 false in
  let acc := if swapped : bool then SWAP_BYTES_IN_WORD acc else acc in
  u16 (Z.lnot (Z.land acc 0xffff)).

Definition inet_cksum_pseudo_base (p : placed) (proto proto_len acc : Z) : Z :=
  let '(acc, swapped) := chain_sum p acc false in
  let acc := if swapped : bool then SWAP_BYTES_IN_WORD acc else acc in
  let acc := u32 (acc + lwip_htons (u16 proto)) in
  let acc := u32 (acc + lwip_htons proto_len) in
  let acc := FOLD_U32T (FOLD_U32T acc) in
  u16 (Z.lnot (Z.land acc 0xffff)).

(** The addresses are in network byte order, as they are in memory. *)
Definition pseudo_addrs (src dest : Z) : Z :=
  let acc := Z.land src 0xffff in
  let acc := u32 (acc + Z.land (Z.shiftr src 16) 0xffff) in
  let acc := u32 (acc + Z.land dest 0xffff) in
  let acc := u32 (acc + Z.land (Z.shiftr dest 16) 0xffff) in
  FOLD_U32T (FOLD_U32T acc).

Definition inet_chksum_pseudo (p : placed) (proto proto_len src dest : Z) : Z :=
  inet_cksum_pseudo_base p proto proto_len (pseudo_addrs src dest).

(** Without IPv6. *)
Definition ip_chksum_pseudo : placed → Z → Z → Z → Z → Z := inet_chksum_pseudo.

(** ** One's complement sums *)

(** [r] is the one's complement sum [n]: they agree modulo 2^16 - 1, and only a
    sum of nothing but zeros is 0. *)
Definition same_sum (r n : Z) : Prop :=
  0 ≤ r ∧ 0 ≤ n ∧ (r = 0 ↔ n = 0) ∧ (65535 | r - n).

#[export] Instance same_sum_per : RelationClasses.PER same_sum.
Proof.
  split.
  - intros r n (? & ? & ? & [k Hk]). split_and!; [done|done|naive_solver|]. exists (- k). lia.
  - intros a b c (? & ? & ? & [k Hk]) (? & ? & ? & [l Hl]). split_and!; [done|done|naive_solver|].
    exists (k + l). lia.
Qed.

#[export] Instance same_sum_add : Proper (same_sum ==> same_sum ==> same_sum) Z.add.
Proof.
  intros a b (? & ? & ? & [k Hk]) c d (? & ? & ? & [l Hl]). split_and!; [lia|lia|naive_solver lia|].
  exists (k + l). lia.
Qed.

Lemma same_sum_refl n : 0 ≤ n → same_sum n n.
Proof. intros. split_and!; [done|done|done|]. exists 0. lia. Qed.

Lemma same_sum_after k a b : 0 ≤ k → same_sum a b → same_sum (k + a) (k + b).
Proof. intros Hk Hs. apply same_sum_add; [by apply same_sum_refl|done]. Qed.

Lemma same_sum_mul n r : same_sum r n → same_sum (256 * r) (256 * n).
Proof. intros (? & ? & ? & [k Hk]). split_and!; [lia|lia|lia|]. exists (256 * k). lia. Qed.

(** The 16-bit representative. *)
Definition ones (n : Z) : Z := if n =? 0 then 0 else (n - 1) mod 65535 + 1.

Lemma ones_range n : 0 ≤ ones n < 65536.
Proof.
  unfold ones. destruct (n =? 0); [lia|]. pose proof (Z.mod_pos_bound (n - 1) 65535). lia.
Qed.

Lemma ones_sum n : 0 ≤ n → same_sum (ones n) n.
Proof.
  intros Hn. pose proof (ones_range n) as Hr. unfold ones in *. destruct (Z.eqb_spec n 0) as [->|Hne].
  - by apply same_sum_refl.
  - pose proof (Z.mod_pos_bound (n - 1) 65535). split_and!; [lia|lia|lia|].
    exists (- ((n - 1) / 65535)). pose proof (Z_div_mod_eq_full (n - 1) 65535). lia.
Qed.

Lemma same_sum_eq a b : a < 65536 → b < 65536 → same_sum a b → a = b.
Proof.
  intros Ha Hb (? & ? & ? & [k Hk]). assert (k = 0 ∨ k ≤ -1 ∨ 1 ≤ k) as [->|[?|?]] by lia; [lia|nia|].
  nia.
Qed.

Lemma ones_unique r n : r < 65536 → same_sum r n → r = ones n.
Proof.
  intros Hr Hs. apply same_sum_eq; [done|apply ones_range|].
  rewrite Hs. symmetry. apply ones_sum, Hs.
Qed.

(** ** Folding and swapping *)

Lemma halves x : 0 ≤ x → x = 65536 * Z.shiftr x 16 + Z.land x 0xffff ∧ 0 ≤ Z.shiftr x 16 ∧ 0 ≤ Z.land x 0xffff < 65536.
Proof.
  intros Hx. change 0xffff with (Z.ones 16). rewrite land_mask, Z.shiftr_div_pow2 by lia.
  change (2 ^ 16) with 65536. pose proof (Z_div_mod_eq_full x 65536).
  pose proof (Z.mod_pos_bound x 65536 ltac:(lia)). pose proof (Z.div_pos x 65536). lia.
Qed.

Lemma fold_same u : 0 ≤ u < 4294967296 → same_sum (FOLD_U32T u) u ∧ FOLD_U32T u ≤ u / 65536 + 65535.
Proof.
  intros Hu. destruct (halves u) as (E & Hh & Hl); [lia|]. unfold FOLD_U32T.
  rewrite u32_id by lia. split.
  - split_and!; [lia|lia|lia|]. exists (- Z.shiftr u 16). lia.
  - assert (u / 65536 = Z.shiftr u 16); [|lia]. symmetry. apply (Z.div_unique_pos _ _ _ (Z.land u 65535)); lia.
Qed.

(** One fold is enough below 2^17, two below 2^32. *)
Lemma fold_once u : 0 ≤ u < 131072 → u ≠ 131071 → FOLD_U32T u = ones u.
Proof.
  intros Hu Hne. destruct (fold_same u) as [Hs Hb]; [lia|]. apply ones_unique; [|done].
  destruct (halves u) as (E & Hh & Hl); [lia|]. unfold FOLD_U32T. rewrite u32_id by lia.
  assert (Z.shiftr u 16 = 0 ∨ Z.shiftr u 16 = 1) as [?|?] by lia; lia.
Qed.

Lemma fold_twice u : 0 ≤ u < 4294967296 → FOLD_U32T (FOLD_U32T u) = ones u.
Proof.
  intros Hu. destruct (fold_same u) as [Hs Hb]; [lia|].
  assert (u / 65536 < 65536) by (apply Z.div_lt_upper_bound; lia).
  assert (0 ≤ FOLD_U32T u) by apply Hs. rewrite fold_once by lia.
  apply ones_unique; [apply ones_range|]. rewrite <-Hs at 2. apply ones_sum, Hs.
Qed.

Lemma swap_same w : 0 ≤ w < 65536 → same_sum (SWAP_BYTES_IN_WORD w) (256 * w) ∧ SWAP_BYTES_IN_WORD w < 65536.
Proof.
  intros Hw. unfold SWAP_BYTES_IN_WORD.
  assert (Z.land w 0xff = w mod 256) as E1 by (change 0xff with (Z.ones 8); by rewrite land_mask).
  assert (Z.shiftr (Z.land w 0xff00) 8 = w / 256) as E2.
  { change 0xff00 with (Z.shiftl 255 8). rewrite mask_byte, Z.shiftr_shiftl_l, Z.shiftl_0_r by lia.
    change 255 with (Z.ones 8). rewrite land_mask, Z.shiftr_div_pow2 by lia.
    apply Z.mod_small. split; [by apply Z.div_pos; lia|by apply Z.div_lt_upper_bound; lia]. }
  rewrite E1, E2. pose proof (Z.mod_pos_bound w 256 ltac:(lia)). pose proof (Z_div_mod_eq_full w 256).
  assert (0 ≤ w / 256 < 256) by (split; [by apply Z.div_pos; lia|by apply Z.div_lt_upper_bound; lia]).
  rewrite lor_shiftl_add by lia. split; [|lia]. split_and!; [lia|lia|lia|]. exists (- (w / 256)). lia.
Qed.

Lemma swap_ones n : 0 ≤ n → SWAP_BYTES_IN_WORD (ones n) = ones (256 * n).
Proof.
  intros Hn. destruct (swap_same (ones n)) as [Hs Hb]; [apply ones_range|].
  apply ones_unique; [done|]. rewrite Hs. by apply same_sum_mul, ones_sum.
Qed.

(** ** The sum of a buffer *)

(** The number the bytes spell, the first being the least significant: modulo
    2^16 - 1 it is the sum of the 16-bit words. *)
Fixpoint le_num (data : list Z) : Z :=
  match data with
  | [] => 0
  | b :: data => b + 256 * le_num data
  end.

Lemma le_num_pos data : Forall byte_ok data → 0 ≤ le_num data.
Proof. induction 1 as [|b l Hb _ IH]; simpl; [done|]. unfold byte_ok in Hb. lia. Qed.

Lemma le_num_pair a b data :
  byte_ok a → byte_ok b → Forall byte_ok data →
  same_sum (Z.lor a (Z.shiftl b 8) + le_num data) (le_num (a :: b :: data)).
Proof.
  intros Ha Hb Hd. rewrite Z.lor_comm, lor_shiftl_add by (try done; lia).
  pose proof (le_num_pos data Hd). unfold byte_ok in *. cbn [le_num].
  split_and!; [lia|lia|lia|]. exists (- le_num data). lia.
Qed.

Lemma add_words_sum n data sum :
  (length data ≤ n)%nat → Forall byte_ok data → 0 ≤ sum →
  sum + 65535 * Z.of_nat (length data) < 4294967296 →
  let r := add_words data sum in
  (r.2 = [] ∨ ∃ b, r.2 = [b] ∧ byte_ok b) ∧ sum ≤ r.1 ≤ sum + 65535 * Z.of_nat (length data) ∧
  same_sum (r.1 + le_num r.2) (sum + le_num data).
Proof.
  revert data sum. induction n as [|n IH]; intros data sum Hn Hd Hs Hb.
  { destruct data; [|simpl in Hn; lia]. cbn -[Z.mul]. split; [by left|]. split; [lia|].
    apply same_sum_refl. lia. }
  destruct data as [|a [|b data]].
  - cbn -[Z.mul]. split; [by left|]. split; [lia|]. apply same_sum_refl. lia.
  - apply Forall_cons in Hd as [Ha _]. pose proof Ha as Ha'. unfold byte_ok in Ha'. cbn -[Z.mul].
    split; [by right; exists a|]. split; [lia|]. apply same_sum_refl. lia.
  - apply Forall_cons in Hd as [Ha Hd]. apply Forall_cons in Hd as [Hb' Hd].
    pose proof (le_num_pair a b data Ha Hb' Hd) as Hp.
    assert (Z.lor a (Z.shiftl b 8) = b * 256 + a) as E
      by (rewrite Z.lor_comm, lor_shiftl_add by (try done; lia); done).
    cbn [add_words length] in *. unfold byte_ok in *. rewrite E in Hp |- *.
    rewrite u32_id by lia.
    destruct (IH data (sum + (b * 256 + a))) as (H1 & H2 & H3); [lia|done|lia|lia|].
    split; [done|]. split; [lia|]. rewrite H3, <-Z.add_assoc. by apply same_sum_after.
Qed.

(** The byte before and the byte after the words, in one word. *)
Lemma end_bytes rest t b0 :
  rest = [] ∨ (∃ b, rest = [b] ∧ byte_ok b) → t = 0 ∨ byte_ok b0 ∧ t = Z.shiftl b0 8 →
  match rest with b :: _ => Z.lor (Z.land t 0xff00) b | [] => t end = t + le_num rest ∧
  0 ≤ t < 65536 ∧ 0 ≤ le_num rest < 256.
Proof.
  intros Hrest Ht.
  assert (0 ≤ t < 65536 ∧ Z.land t 0xff00 = t) as [Hr Hm].
  { destruct Ht as [->|[Hb ->]]; [done|]. unfold byte_ok in Hb. rewrite Z.shiftl_mul_pow2 by lia.
    split; [lia|]. change 0xff00 with (Z.shiftl 255 8). rewrite mask_byte by lia.
    change 255 with (Z.ones 8). rewrite land_mask, Z.shiftr_div_pow2, Z.div_mul, Z.mod_small by lia.
    by rewrite Z.shiftl_mul_pow2. }
  destruct Hrest as [->|(b & -> & Hb)]; simpl; [lia|]. unfold byte_ok in Hb. rewrite Hm.
  split; [|lia]. rewrite Z.add_0_r.
  destruct Ht as [->|[Hb0 ->]]; [done|]. rewrite lor_shiftl_add by lia. by rewrite Z.shiftl_mul_pow2.
Qed.

Lemma words_and_ends t d b0 :
  Forall byte_ok d → Z.of_nat (length d) < 65536 → t = 0 ∨ byte_ok b0 ∧ t = Z.shiftl b0 8 →
  (let '(sum, rest) := add_words d 0 in
   FOLD_U32T (FOLD_U32T (u32 (sum +
     match rest with b :: _ => Z.lor (Z.land t 0xff00) b | [] => t end)))) = ones (t + le_num d).
Proof.
  intros Hd Hlen Ht.
  destruct (add_words_sum (length d) d 0) as (H1 & H2 & H3); [lia|done|lia|lia|].
  destruct (add_words d 0) as [sum rest]. cbn [fst snd] in *.
  destruct (end_bytes rest t b0 H1 Ht) as (-> & Ht' & Hr).
  rewrite u32_id by lia. rewrite fold_twice by lia. apply ones_unique; [apply ones_range|].
  rewrite ones_sum by lia. replace (sum + (t + le_num rest)) with (t + (sum + le_num rest)) by lia.
  apply same_sum_after; [lia|exact H3].
Qed.

(** The sum is that of the bytes, wherever they are. *)
Lemma lwip_standard_chksum_num a data :
  Forall byte_ok data → Z.of_nat (length data) < 65536 → lwip_standard_chksum a data = ones (le_num data).
Proof.
  intros Hd Hlen. unfold lwip_standard_chksum.
  destruct data as [|b0 rest]; [by destruct (Z.land a 1 =? 1)|].
  destruct (Z.land a 1 =? 1).
  - apply Forall_cons in Hd as [Hb Hd]. simpl in Hlen.
    pose proof (words_and_ends (Z.shiftl b0 8) rest b0 Hd ltac:(lia) ltac:(by right)) as Hw.
    destruct (add_words rest 0) as [sum r]. rewrite Hw. pose proof (le_num_pos rest Hd).
    unfold byte_ok in Hb. rewrite Z.shiftl_mul_pow2 by lia. rewrite swap_ones by lia.
    rewrite u16_id by apply ones_range. apply ones_unique; [apply ones_range|].
    rewrite ones_sum by lia. cbn [le_num]. split_and!; [lia|lia|lia|]. exists b0. lia.
  - pose proof (words_and_ends 0 (b0 :: rest) 0 Hd Hlen ltac:(by left)) as Hw.
    destruct (add_words (b0 :: rest) 0) as [sum r]. rewrite Hw. by rewrite u16_id by apply ones_range.
Qed.

(** ** The sum of a chain *)

Lemma le_num_app d1 d2 : le_num (d1 ++ d2) = le_num d1 + 256 ^ Z.of_nat (length d1) * le_num d2.
Proof.
  induction d1 as [|b d1 IH]; [simpl; lia|]. cbn [le_num app length]. rewrite IH.
  rewrite Nat2Z.inj_succ, Z.pow_succ_r by lia. lia.
Qed.

(** A byte string swapped is 256 times its number. *)
Definition swapped_by (b : bool) (n : Z) : Z := if b then 256 * n else n.

Lemma swapped_by_pos b n : 0 ≤ n → 0 ≤ swapped_by b n.
Proof. destruct b; simpl; lia. Qed.

Lemma swapped_by_add b n k : swapped_by b (n + k) = swapped_by b n + swapped_by b k.
Proof. destruct b; simpl; lia. Qed.

Lemma swapped_by_same b r n : same_sum r n → same_sum (swapped_by b r) (swapped_by b n).
Proof. destruct b; [apply same_sum_mul|done]. Qed.

Lemma swapped_by_twice b c n : 0 ≤ n → same_sum (swapped_by b (swapped_by c n)) (swapped_by (xorb b c) n).
Proof.
  intros Hn. destruct b, c; simpl; try (apply same_sum_refl; lia).
  split_and!; [lia|lia|lia|]. exists n. lia.
Qed.

(** A power of 256 swaps or does not. *)
Lemma pow256 k x : 0 ≤ x → same_sum (256 ^ Z.of_nat k * x) (swapped_by (Nat.odd k) x).
Proof.
  intros Hx. induction k as [|k IH].
  - rewrite Z.mul_1_l. by apply same_sum_refl.
  - rewrite Nat2Z.inj_succ, Z.pow_succ_r, <-Z.mul_assoc by lia. rewrite Nat.odd_succ.
    rewrite <-Nat.negb_odd. change (negb (Nat.odd k)) with (xorb true (Nat.odd k)).
    rewrite <-swapped_by_twice by done. by apply same_sum_mul.
Qed.

(** The chain as the code may rely on it. *)
Definition placed_ok (c : placed) : Prop :=
  Forall (λ x, p_len x.2 = Z.of_nat (length (payload x.2)) ∧ p_len x.2 < 65536 ∧
    Forall byte_ok (payload x.2)) c.
Definition placed_bytes (c : placed) : list Z := bytes c.*2.

Lemma placed_bytes_ok c : placed_ok c → Forall byte_ok (placed_bytes c).
Proof.
  induction 1 as [|[a q] c (_ & _ & Hb) _ IH]; [constructor|].
  unfold placed_bytes, bytes. simpl. by apply Forall_app.
Qed.

Lemma odd_of_nat k : Z.odd (Z.of_nat k) = Nat.odd k.
Proof.
  induction k as [|k IH]; [done|].
  by rewrite Nat2Z.inj_succ, Z.odd_succ, Nat.odd_succ, <-Z.negb_odd, IH, Nat.negb_odd.
Qed.

Lemma odd_length q :
  p_len q = Z.of_nat (length (payload q)) → negb (p_len q mod 2 =? 0) = Nat.odd (length (payload q)).
Proof. intros ->. by rewrite <-Zeven_mod, Z.negb_even, odd_of_nat. Qed.

Lemma chain_sum_num c acc sw n :
  placed_ok c → 0 ≤ n → acc < 65536 → same_sum acc (swapped_by sw n) →
  let r := chain_sum c acc sw in
  r.1 < 65536 ∧ same_sum r.1 (swapped_by r.2 (n + swapped_by sw (le_num (placed_bytes c)))).
Proof.
  intros Hc. revert acc sw n. induction Hc as [|[a q] c (Hlen & Hsmall & Hb) Hc IH]; intros acc sw n Hn Ha Hs.
  - split; [done|]. cbn [chain_sum fst snd]. change (le_num (placed_bytes [])) with 0.
    replace (swapped_by sw 0) with 0 by (by destruct sw). by rewrite Z.add_0_r.
  - cbn [fst snd] in Hlen, Hsmall, Hb. cbn [chain_sum]. rewrite odd_length by done. unfold LWIP_CHKSUM.
    rewrite lwip_standard_chksum_num by (try done; lia).
    set (P := le_num (payload q)). set (R := le_num (placed_bytes c)).
    assert (0 ≤ P) by by apply le_num_pos. assert (0 ≤ R) by by apply le_num_pos, placed_bytes_ok.
    assert (le_num (placed_bytes ((a, q) :: c)) = P + 256 ^ Z.of_nat (length (payload q)) * R) as ->
      by (unfold placed_bytes, bytes; simpl; by rewrite le_num_app).
    pose proof (ones_range P) as HP. pose proof Hs as (Hacc & _).
    rewrite u32_id by lia. rewrite fold_once by lia.
    set (n1 := n + swapped_by sw P). assert (0 ≤ n1) by (pose proof (swapped_by_pos sw P); lia).
    assert (same_sum (ones (acc + ones P)) (swapped_by sw n1)) as HA.
    { rewrite ones_sum by lia. unfold n1. rewrite swapped_by_add.
      apply same_sum_add; [done|]. rewrite ones_sum by done. symmetry.
      rewrite swapped_by_twice by done. by destruct sw; apply same_sum_refl. }
    set (o := Nat.odd (length (payload q))).
    assert (same_sum (n1 + swapped_by (xorb sw o) R) (n + swapped_by sw (P + 256 ^ Z.of_nat (length (payload q)) * R))) as HB.
    { unfold n1. rewrite swapped_by_add, Z.add_assoc. apply same_sum_after; [done|].
      rewrite <-swapped_by_twice by done. symmetry. by apply swapped_by_same, pow256. }
    pose proof (ones_range (acc + ones P)) as Hr1. destruct (swap_same _ Hr1) as [Hsw Hr2]. fold o.
    assert (∀ acc', acc' < 65536 → same_sum acc' (swapped_by (xorb sw o) n1) →
      let r := chain_sum c acc' (xorb sw o) in
      r.1 < 65536 ∧ same_sum r.1 (swapped_by r.2 (n + swapped_by sw (P + 256 ^ Z.of_nat (length (payload q)) * R)))) as Hend.
    { intros acc' Ha' Hs'. destruct (IH acc' (xorb sw o) n1) as [E1 E2]; [done|done|done|]. split; [done|].
      rewrite E2. by apply swapped_by_same. }
    destruct o eqn:Eo.
    + rewrite xorb_true_r in Hend. apply Hend; [done|]. rewrite Hsw. rewrite <-xorb_true_r, xorb_comm.
      rewrite <-swapped_by_twice by done. by apply same_sum_mul.
    + rewrite xorb_false_r in Hend. apply Hend; [lia|done].
Qed.

(** ** The checksums *)

Lemma u16_lnot x : 0 ≤ x < 65536 → u16 (Z.lnot x) = 65535 - x.
Proof.
  intros Hx. unfold Z.lnot, u16. rewrite <-Z.sub_1_r. symmetry. apply (Z.mod_unique_pos _ _ (-1)); lia.
Qed.

Lemma low_half x : 0 ≤ x < 65536 → Z.land x 0xffff = x.
Proof. intros Hx. change 0xffff with (Z.ones 16). rewrite land_mask by lia. by apply Z.mod_small. Qed.

(** Of [n]: what is stored in a header. *)
Definition complement (n : Z) : Z := 65535 - ones n.

Lemma inet_chksum_num a data :
  Forall byte_ok data → Z.of_nat (length data) < 65536 → inet_chksum a data = complement (le_num data).
Proof.
  intros Hd Hlen. unfold inet_chksum, LWIP_CHKSUM. rewrite lwip_standard_chksum_num by done.
  by rewrite u16_lnot by apply ones_range.
Qed.

(** Both loops end alike. *)
Lemma unswapped acc sw n :
  0 ≤ n → acc < 65536 → same_sum acc (swapped_by sw n) →
  (if sw : bool then SWAP_BYTES_IN_WORD acc else acc) = ones n.
Proof.
  intros Hn Ha Hs. destruct sw; [|by apply ones_unique].
  rewrite (ones_unique acc (256 * n)) by done. rewrite swap_ones by lia.
  apply ones_unique; [apply ones_range|]. rewrite ones_sum by lia.
  pose proof (swapped_by_twice true true n Hn) as Ht. exact Ht.
Qed.

Lemma inet_chksum_pbuf_num c : placed_ok c → inet_chksum_pbuf c = complement (le_num (placed_bytes c)).
Proof.
  intros Hc. pose proof (le_num_pos _ (placed_bytes_ok c Hc)) as Hp. unfold inet_chksum_pbuf.
  destruct (chain_sum_num c 0 false 0 Hc ltac:(lia) ltac:(lia) (same_sum_refl 0 ltac:(lia))) as [E1 E2].
  destruct (chain_sum c 0 false) as [acc sw]. cbn [fst snd] in E1, E2. rewrite Z.add_0_l in E2.
  rewrite (unswapped acc sw (le_num (placed_bytes c))) by done.
  rewrite low_half, u16_lnot by apply ones_range. done.
Qed.

(** The pseudo header of UDP, as its bytes would be in memory. *)
Definition pseudo_header (src dest proto proto_len : Z) : list Z :=
  [byte_at src 0; byte_at src 1; byte_at src 2; byte_at src 3;
   byte_at dest 0; byte_at dest 1; byte_at dest 2; byte_at dest 3;
   0; proto; byte_at proto_len 1; byte_at proto_len 0].

Lemma pseudo_header_ok src dest proto proto_len :
  byte_ok proto → Forall byte_ok (pseudo_header src dest proto proto_len).
Proof. intros Hp. repeat constructor; try apply byte_at_ok; try done; by apply Hp. Qed.

Lemma byte_at_div x i : 0 ≤ i → byte_at x i = x / 2 ^ (8 * i) mod 256.
Proof.
  intros Hi. unfold byte_at. change 255 with (Z.ones 8). rewrite land_mask by lia.
  by rewrite Z.shiftr_div_pow2 by lia.
Qed.

(** The two halves of an address are its bytes. *)
Lemma half_words x :
  0 ≤ x < 4294967296 →
  Z.land x 0xffff = byte_at x 0 + 256 * byte_at x 1 ∧
  Z.land (Z.shiftr x 16) 0xffff = byte_at x 2 + 256 * byte_at x 3.
Proof.
  intros Hx. change 0xffff with (Z.ones 16). rewrite !land_mask, Z.shiftr_div_pow2, !byte_at_div by lia.
  change (2 ^ (8 * 0)) with 1. change (2 ^ (8 * 1)) with 256. change (2 ^ (8 * 2)) with 65536.
  change (2 ^ (8 * 3)) with 16777216. change (2 ^ 16) with 65536. rewrite Z.div_1_r.
  Z.div_mod_to_equations. lia.
Qed.

Lemma htons_bytes x : 0 ≤ x < 65536 → lwip_htons x = byte_at x 1 + 256 * byte_at x 0.
Proof.
  intros Hx. rewrite lwip_htons_value, !byte_at_div by lia. change (2 ^ (8 * 0)) with 1.
  change (2 ^ (8 * 1)) with 256. rewrite Z.div_1_r. Z.div_mod_to_equations. lia.
Qed.

Lemma byte_sum x y : byte_ok x → byte_ok y → 0 ≤ x + 256 * y < 65536.
Proof. unfold byte_ok. lia. Qed.

Lemma pseudo_addrs_num src dest :
  0 ≤ src < 4294967296 → 0 ≤ dest < 4294967296 →
  ∃ n, 0 ≤ n ∧ pseudo_addrs src dest = ones n ∧
    ∀ l, Forall byte_ok l → same_sum (n + le_num l)
      (le_num ([byte_at src 0; byte_at src 1; byte_at src 2; byte_at src 3;
        byte_at dest 0; byte_at dest 1; byte_at dest 2; byte_at dest 3] ++ l)).
Proof.
  intros Hs Hd. destruct (half_words src Hs) as [Es1 Es2]. destruct (half_words dest Hd) as [Ed1 Ed2].
  pose proof (byte_sum _ _ (byte_at_ok src 0) (byte_at_ok src 1)).
  pose proof (byte_sum _ _ (byte_at_ok src 2) (byte_at_ok src 3)).
  pose proof (byte_sum _ _ (byte_at_ok dest 0) (byte_at_ok dest 1)).
  pose proof (byte_sum _ _ (byte_at_ok dest 2) (byte_at_ok dest 3)).
  unfold pseudo_addrs. rewrite Es1, Es2, Ed1, Ed2.
  rewrite (u32_id (_ + (byte_at src 2 + _))), (u32_id (_ + (byte_at dest 0 + _))), u32_id by lia.
  rewrite fold_twice by lia. match goal with |- context [ones ?s] => exists s end.
  split; [lia|]. split; [done|]. intros l Hl.
  pose proof (le_num_pos l Hl). cbn [app le_num].
  set (a := byte_at src 0) in *. set (b := byte_at src 1) in *. set (c := byte_at src 2) in *.
  set (d := byte_at src 3) in *. set (e := byte_at dest 0) in *. set (f := byte_at dest 1) in *.
  set (g := byte_at dest 2) in *. set (h := byte_at dest 3) in *.
  assert (byte_ok a ∧ byte_ok b ∧ byte_ok c ∧ byte_ok d ∧ byte_ok e ∧ byte_ok f ∧ byte_ok g ∧ byte_ok h)
    as (? & ? & ? & ? & ? & ? & ? & ?) by (repeat split; apply byte_at_ok).
  unfold byte_ok in *. split_and!; [lia|lia|lia|].
  exists (- ((c + 256 * d) + 65537 * (e + 256 * f) + 4295032833 * (g + 256 * h) + 281479271743489 * le_num l)).
  lia.
Qed.

Lemma inet_chksum_pseudo_num c proto proto_len src dest :
  placed_ok c → byte_ok proto → 0 ≤ proto_len < 65536 →
  0 ≤ src < 4294967296 → 0 ≤ dest < 4294967296 →
  inet_chksum_pseudo c proto proto_len src dest =
  complement (le_num (pseudo_header src dest proto proto_len ++ placed_bytes c)).
Proof.
  intros Hc Hp Hlen Hs Hd. pose proof (placed_bytes_ok c Hc) as Hb. pose proof (le_num_pos _ Hb) as Hpos.
  destruct (pseudo_addrs_num src dest Hs Hd) as (n & Hn & En & Hsum).
  unfold inet_chksum_pseudo, inet_cksum_pseudo_base. pose proof (ones_range n) as Hr.
  destruct (chain_sum_num c (pseudo_addrs src dest) false n Hc Hn) as [E1 E2];
    [rewrite En; lia|rewrite En; by apply ones_sum|].
  destruct (chain_sum c (pseudo_addrs src dest) false) as [acc sw]. cbn [fst snd swapped_by] in E1, E2.
  rewrite (unswapped acc sw (n + le_num (placed_bytes c))) by (try done; lia).
  set (m := n + le_num (placed_bytes c)) in *. pose proof (ones_range m) as Hm.
  unfold byte_ok in Hp. rewrite (u16_id proto) by lia.
  pose proof (lwip_htons_range proto ltac:(lia)). pose proof (lwip_htons_range proto_len Hlen).
  rewrite (u32_id (_ + lwip_htons proto)), u32_id, fold_twice by lia.
  rewrite low_half, u16_lnot by apply ones_range. unfold complement. f_equal.
  apply ones_unique; [apply ones_range|]. rewrite ones_sum by lia.
  transitivity (m + (lwip_htons proto + lwip_htons proto_len)).
  { rewrite <-Z.add_assoc. apply same_sum_add; [|apply same_sum_refl; lia]. apply ones_sum. lia. }
  unfold m. rewrite <-Z.add_assoc.
  transitivity (n + le_num ([0; proto; byte_at proto_len 1; byte_at proto_len 0] ++ placed_bytes c)).
  - apply same_sum_after; [done|]. cbn [app le_num]. rewrite (htons_bytes proto_len) by done.
    assert (lwip_htons proto = 256 * proto) as ->.
    { rewrite lwip_htons_value by lia. rewrite Z.mod_small, Z.div_small by lia. lia. }
    pose proof (byte_at_ok proto_len 0). pose proof (byte_at_ok proto_len 1). unfold byte_ok in *.
    split_and!; [lia|lia|lia|].
    exists (- (byte_at proto_len 1 + 256 * byte_at proto_len 0 + 65537 * le_num (placed_bytes c))). lia.
  - apply Hsum. apply Forall_app. split; [|done]. repeat constructor; try apply byte_at_ok; try done; lia.
Qed.

(** ** RFC 1071 *)

(** Addition with the carry brought around. *)
Definition end_around (a b : Z) : Z := if a + b <? 65536 then a + b else a + b - 65535.

(** The sum of the big-endian words, the last one padded with a zero byte. *)
Fixpoint rfc1071_sum (data : list Z) : Z :=
  match data with
  | a :: b :: data => end_around (256 * a + b) (rfc1071_sum data)
  | [a] => 256 * a
  | [] => 0
  end.

Lemma end_around_same a b :
  0 ≤ a < 65536 → 0 ≤ b < 65536 → same_sum (end_around a b) (a + b) ∧ end_around a b < 65536.
Proof.
  intros Ha Hb. unfold end_around. destruct (Z.ltb_spec (a + b) 65536).
  - split; [apply same_sum_refl|]; lia.
  - split; [|lia]. split_and!; [lia|lia|lia|]. exists (-1). lia.
Qed.

Lemma rfc1071_same n data :
  (length data ≤ n)%nat → Forall byte_ok data →
  same_sum (rfc1071_sum data) (256 * le_num data) ∧ rfc1071_sum data < 65536.
Proof.
  revert data. induction n as [|n IH]; intros data Hn Hd.
  { destruct data; [|simpl in Hn; lia]. split; [by apply same_sum_refl|done]. }
  destruct data as [|a [|b data]].
  - split; [by apply same_sum_refl|done].
  - apply Forall_cons in Hd as [Ha _]. unfold byte_ok in Ha. cbn [rfc1071_sum le_num].
    rewrite Z.mul_0_r, Z.add_0_r. split; [apply same_sum_refl|]; lia.
  - apply Forall_cons in Hd as [Ha Hd]. apply Forall_cons in Hd as [Hb Hd]. cbn [length] in Hn.
    destruct (IH data) as [Hs Hr]; [lia|done|]. pose proof (le_num_pos data Hd).
    cbn [rfc1071_sum le_num]. unfold byte_ok in *.
    destruct (end_around_same (256 * a + b) (rfc1071_sum data)) as [He Hlt];
      [lia|split; [apply Hs|done]|]. split; [|done]. rewrite He.
    transitivity ((256 * a + b) + 256 * le_num data).
    + apply same_sum_after; [lia|exact Hs].
    + split_and!; [lia|lia|lia|]. exists (- (b + 256 * le_num data)). lia.
Qed.

Lemma swap_htons w : 0 ≤ w < 65536 → SWAP_BYTES_IN_WORD w = lwip_htons w.
Proof.
  intros Hw. destruct (swap_same w Hw) as [Hs Hlt]. apply same_sum_eq; [done|apply (lwip_htons_range w Hw)|].
  rewrite Hs, lwip_htons_value by lia. symmetry.
  assert (0 ≤ w / 256 < 256) by (Z.div_mod_to_equations; lia).
  assert (0 ≤ w mod 256 < 256 ∧ w = 256 * (w / 256) + w mod 256) as [? E] by (Z.div_mod_to_equations; lia).
  split_and!; [lia|lia|lia|]. exists (- (w / 256)). lia.
Qed.

(** ** A word of the data *)

(** The checksum field, or any word at an even offset, adds its value. *)
Lemma aligned_word d1 x y d2 :
  Nat.even (length d1) = true → byte_ok x → byte_ok y → Forall byte_ok d1 → Forall byte_ok d2 →
  same_sum (le_num (d1 ++ [x; y] ++ d2)) (le_num (d1 ++ [0; 0] ++ d2) + (x + 256 * y)).
Proof.
  intros Heven Hx Hy H1 H2. rewrite !(le_num_app d1). cbn [app le_num].
  pose proof (le_num_pos d1 H1). pose proof (le_num_pos d2 H2). unfold byte_ok in *.
  set (k := 256 ^ Z.of_nat (length d1)) in *.
  assert (same_sum (k * (x + 256 * y)) (x + 256 * y)) as Hk.
  { transitivity (swapped_by (Nat.odd (length d1)) (x + 256 * y)); [apply pow256; lia|].
    rewrite <-Nat.negb_even, Heven. apply same_sum_refl. cbn. lia. }
  replace (le_num d1 + k * (x + 256 * (y + 256 * le_num d2)))
    with ((le_num d1 + k * (0 + 256 * (0 + 256 * le_num d2))) + k * (x + 256 * y)) by lia.
  apply same_sum_after; [|done].
  assert (0 ≤ k) by (apply Z.pow_nonneg; lia).
  assert (0 ≤ k * (0 + 256 * (0 + 256 * le_num d2))) by (apply Z.mul_nonneg_nonneg; lia). lia.
Qed.

Lemma ones_same a b : same_sum a b → ones a = ones b.
Proof.
  intros Hs. apply ones_unique; [apply ones_range|].
  transitivity a; [apply ones_sum, Hs|done].
Qed.

Lemma ones_congr a b : 0 ≤ a → 0 ≤ b → ones a = ones b → same_sum a b.
Proof.
  intros Ha Hb E. transitivity (ones a); [symmetry; by apply ones_sum|]. rewrite E. by apply ones_sum.
Qed.

(** The bytes of a 16-bit word of memory. *)
Definition word_bytes (w : Z) : list Z := [byte_at w 0; byte_at w 1].

Lemma word_bytes_value w : 0 ≤ w < 65536 → byte_at w 0 + 256 * byte_at w 1 = w.
Proof.
  intros Hw. destruct (half_words w) as [E _]; [lia|]. rewrite <-E. by apply low_half.
Qed.

Lemma complement_range n : 0 ≤ complement n < 65536.
Proof. unfold complement. pose proof (ones_range n). lia. Qed.

Lemma stored_sum d1 d2 w a :
  Nat.even (length d1) = true → Forall byte_ok d1 → Forall byte_ok d2 → 0 ≤ w < 65536 →
  Z.of_nat (length d1) + 2 + Z.of_nat (length d2) < 65536 →
  inet_chksum a (d1 ++ word_bytes w ++ d2) = complement (le_num (d1 ++ [0; 0] ++ d2) + w) ∧
  0 ≤ le_num (d1 ++ [0; 0] ++ d2).
Proof.
  intros Heven H1 H2 Hw Hlen.
  assert (∀ u v, byte_ok u → byte_ok v → Forall byte_ok (d1 ++ [u; v] ++ d2)) as Hok.
  { intros u v Hu Hv. apply Forall_app. split; [done|]. constructor; [done|]. by constructor. }
  split; [|apply le_num_pos, Hok; done].
  rewrite inet_chksum_num; [|apply Hok; apply byte_at_ok|rewrite !length_app; cbn; lia].
  unfold complement. f_equal. apply ones_same. rewrite <-(word_bytes_value w) at 2 by done.
  apply aligned_word; try done; apply byte_at_ok.
Qed.

(** ** Properties *)

(** C40: the checksum of a chain of pbufs is that of its bytes in one buffer, at an
    even or an odd address, however the bytes are cut into pbufs of odd and even
    lengths; and with the pseudo header it is that of the pseudo header's bytes in
    front of them. *)
Theorem chksum_of_bytes c a :
  placed_ok c → Z.of_nat (length (placed_bytes c)) < 65524 →
  inet_chksum_pbuf c = inet_chksum a (placed_bytes c) ∧
  ∀ proto proto_len src dest,
    byte_ok proto → 0 ≤ proto_len < 65536 → 0 ≤ src < 4294967296 → 0 ≤ dest < 4294967296 →
    ip_chksum_pseudo c proto proto_len src dest =
    inet_chksum a (pseudo_header src dest proto proto_len ++ placed_bytes c).
Proof.
  intros Hc Hlen. pose proof (placed_bytes_ok c Hc) as Hb. split.
  - rewrite inet_chksum_pbuf_num, inet_chksum_num by (try done; lia). done.
  - intros proto proto_len src dest Hp Hpl Hs Hd. unfold ip_chksum_pseudo.
    rewrite inet_chksum_pseudo_num by done. rewrite inet_chksum_num; [done| |].
    + apply Forall_app. split; [by apply pseudo_header_ok|done].
    + rewrite length_app. cbn [length pseudo_header]. lia.
Qed.

Lemma chksum_of_bytes_witness :
  let c := [(0, Pbuf [69; 1; 2] 3 9); (7, Pbuf [3; 4; 5; 255] 4 6); (2, Pbuf [6; 7] 2 2)] in
  inet_chksum_pbuf c = 61358 ∧ inet_chksum_pbuf c = inet_chksum 5 (placed_bytes c).
Proof.
  split; [by vm_compute|]. apply chksum_of_bytes; [|by vm_compute].
  repeat constructor; by vm_compute.
Defined.

(** Read as a big-endian word, what [lwip_standard_chksum] returns on this
    little-endian machine is the sum of RFC 1071: that of the big-endian words,
    carries brought around, at whatever address the bytes are. *)
Theorem chksum_rfc1071 a data :
  Forall byte_ok data → Z.of_nat (length data) < 65536 →
  lwip_htons (lwip_standard_chksum a data) = rfc1071_sum data.
Proof.
  intros Hd Hlen. rewrite lwip_standard_chksum_num by done. pose proof (ones_range (le_num data)) as Hr.
  rewrite <-swap_htons, swap_ones by (try done; by apply le_num_pos).
  destruct (rfc1071_same (length data) data) as [Hs Hlt]; [done|done|].
  symmetry. by apply ones_unique.
Qed.

Lemma chksum_rfc1071_witness :
  lwip_htons (lwip_standard_chksum 3 [0; 1; 242; 3; 244; 245; 246; 247; 255]) = 56563 ∧
  rfc1071_sum [0; 1; 242; 3; 244; 245; 246; 247; 255] = 56563.
Proof.
  split; [|by vm_compute]. rewrite chksum_rfc1071; [by vm_compute| |by vm_compute].
  repeat constructor; by vm_compute.
Defined.

(** Storing the checksum computed with the field zero, at an even offset,
    makes the checksum of the whole 0, which is what the receiver tests; so does
    storing 0xffff where the checksum is 0, as UDP does. *)
Theorem chksum_verifies d1 d2 a a' :
  Nat.even (length d1) = true → Forall byte_ok d1 → Forall byte_ok d2 →
  Z.of_nat (length d1) + 2 + Z.of_nat (length d2) < 65536 →
  let w := inet_chksum a (d1 ++ word_bytes 0 ++ d2) in
  inet_chksum a' (d1 ++ word_bytes w ++ d2) = 0 ∧
  (w = 0 → inet_chksum a' (d1 ++ word_bytes 0xffff ++ d2) = 0).
Proof.
  intros Heven H1 H2 Hlen w.
  destruct (stored_sum d1 d2 0 a) as [E0 Hn]; [done..|]. rewrite Z.add_0_r in E0. fold w in E0.
  set (n := le_num (d1 ++ [0; 0] ++ d2)) in *. pose proof (complement_range n) as Hw.
  pose proof (ones_sum n Hn) as (Hge & _ & Hz & [k Hk]). pose proof (ones_range n) as Hr.
  split; [|intros Ew].
  - destruct (stored_sum d1 d2 w a') as [-> _]; [done|done|done|by rewrite E0|done|]. fold n.
    unfold complement in *. enough (65535 = ones (n + w)) by lia.
    apply ones_unique; [done|]. rewrite E0. split_and!; [lia|lia|lia|]. exists k. lia.
  - destruct (stored_sum d1 d2 0xffff a') as [-> _]; [done..|]. fold n.
    unfold complement in *. enough (65535 = ones (n + 65535)) by lia.
    apply ones_unique; [done|]. split_and!; [lia|lia|lia|]. exists (k - 1). lia.
Qed.

Lemma chksum_verifies_witness :
  let w := inet_chksum 0 ([69; 0; 0; 76] ++ word_bytes 0 ++ [64; 17; 9]) in
  w = 41585 ∧ inet_chksum 1 ([69; 0; 0; 76] ++ word_bytes w ++ [64; 17; 9]) = 0.
Proof.
  intros w. split; [by vm_compute|]. apply chksum_verifies; [done| | |by vm_compute].
  all: repeat constructor; by vm_compute.
Defined.

(** Two packets that differ in one word at an even offset have different
    checksums, except where the word is 0 in one and 0xffff in the other. *)
Theorem chksum_detects d1 d2 w w' a a' :
  Nat.even (length d1) = true → Forall byte_ok d1 → Forall byte_ok d2 →
  Z.of_nat (length d1) + 2 + Z.of_nat (length d2) < 65536 → 0 ≤ w < 65536 → 0 ≤ w' < 65536 →
  inet_chksum a (d1 ++ word_bytes w ++ d2) = inet_chksum a' (d1 ++ word_bytes w' ++ d2) →
  w = w' ∨ (w = 0 ∧ w' = 0xffff) ∨ (w = 0xffff ∧ w' = 0).
Proof.
  intros Heven H1 H2 Hlen Hw Hw' E.
  destruct (stored_sum d1 d2 w a) as [E1 Hn]; [done..|]. destruct (stored_sum d1 d2 w' a') as [E2 _]; [done..|].
  rewrite E1, E2 in E. unfold complement in E.
  destruct (ones_congr (le_num (d1 ++ [0; 0] ++ d2) + w) (le_num (d1 ++ [0; 0] ++ d2) + w'))
    as (_ & _ & _ & [k Hk]); [lia..|]. assert (-1 ≤ k ≤ 1) by nia.
  assert (k = -1 ∨ k = 0 ∨ k = 1) as [E0 | [E0 | E0]] by lia; subst k; lia.
Qed.

Lemma chksum_detects_witness :
  inet_chksum 0 ([1; 2] ++ word_bytes 0 ++ [3]) = inet_chksum 1 ([1; 2] ++ word_bytes 0xffff ++ [3]) ∧
  (0 = 0xffff ∨ (0 = 0 ∧ 0xffff = 0xffff) ∨ (0 = 0xffff ∧ 0xffff = 0)).
Proof.
  split; [by vm_compute|]. apply (chksum_detects [1; 2] [3] 0 0xffff 0 1); try done.
  all: repeat constructor; by vm_compute.
Defined.
