(* ===== verification/Memp.v ===== *)
(** Memory pools, [lwip/src/core/memp.c] and [lwip/priv/memp_priv.h]: a pool is an
    array of elements of one size, the free ones linked through their first word.
    The interface [Pool] is what the users of a pool rely on; [memp_pool] is the
    proof that [memp_malloc] and [memp_free] provide it. *)
From stdpp Require Import base tactics numbers list gmap sorting.
From S2P Require Import Prelude Words.

(** ** The interface *)

Class Pool (P : Type) := {
  pool_malloc : M P Z;
  pool_free : Z → M P unit;
  (** The addresses of the elements, and those that are free, in the order in
      which they will be handed out. *)
  pool_elem : Z → Prop;
  pool_holds : P → list Z → Prop
}.

Class PoolLaws (P : Type) `{Pool P} := {
  pool_elem_nonnull x : pool_elem x → x ≠ NULL;
  pool_holds_elems p l : pool_holds p l → NoDup l ∧ Forall pool_elem l;
  wp_pool_malloc_some p x l :
    pool_holds p (x :: l) → wp pool_malloc (λ a p', a = x ∧ pool_holds p' l) p;
  wp_pool_malloc_none p :
    pool_holds p [] → wp pool_malloc (λ a p', a = NULL ∧ p' = p) p;
  wp_pool_free p x l :
    pool_holds p l → pool_elem x → x ∉ l → wp (pool_free x) (λ _ p', pool_holds p' (x :: l)) p
}.

(** ** The code *)

Definition MEM_ALIGNMENT : Z := 4.
Definition LWIP_MEM_ALIGN_SIZE (size : Z) : Z := Z.land (size + MEM_ALIGNMENT - 1) (Z.lnot (MEM_ALIGNMENT - 1)).
Definition LWIP_MEM_ALIGN (addr : Z) : Z := Z.land (addr + MEM_ALIGNMENT - 1) (Z.lnot (MEM_ALIGNMENT - 1)).

(** [struct memp_desc]; [tab] and the elements' [next] are the state. *)
Record memp_desc := MempDesc { desc_size : Z; desc_num : nat; desc_base : Z }.
Record memp := MempState { tab : Z; memp_next : gmap Z Z }.

(** [for (i = 0; i < desc->num; ++i)] of [memp_init_pool]. *)
Fixpoint init_pool_loop (size : Z) (n : nat) (m : Z) : M memp unit :=
  match n with
  | O => mret tt
  | S n =>
      modify (λ s, MempState (tab s) (<[m := tab s]> (memp_next s)));;
      modify (λ s, MempState m (memp_next s));;
      init_pool_loop size n (m + size)
  end.

Definition memp_init_pool (desc : memp_desc) : M memp unit :=
  modify (λ s, MempState NULL (memp_next s));;
  init_pool_loop (desc_size desc) (desc_num desc) (LWIP_MEM_ALIGN (desc_base desc)).

Definition memp_malloc (desc : memp_desc) : M memp Z :=
  m ← gets tab;
  if negb (m =? NULL) then
    next ← gets (λ s, memp_next s !! m) ≫= of_option;
    modify (λ s, MempState next (memp_next s));;
    assert_that (m mod MEM_ALIGNMENT =? 0);;
    mret m
  else mret NULL.

Definition memp_free (desc : memp_desc) (mem : Z) : M memp unit :=
  if mem =? NULL then mret tt
  else
    assert_that (mem mod MEM_ALIGNMENT =? 0);;
    modify (λ s, MempState (tab s) (<[mem := tab s]> (memp_next s)));;
    modify (λ s, MempState mem (memp_next s)).

(** ** The elements *)

Section pool.
Context (desc : memp_desc).

(** What [LWIP_MEMPOOL_DECLARE] gives: the sizes are aligned, and the array does
    not start at address 0. *)
Class DescOk : Prop := {
  desc_base_pos : 0 < desc_base desc;
  desc_size_pos : 0 < desc_size desc;
  desc_size_aligned : desc_size desc mod MEM_ALIGNMENT = 0
}.

Definition element (i : nat) : Z := LWIP_MEM_ALIGN (desc_base desc) + Z.of_nat i * desc_size desc.
Definition elements : list Z := element <$> seq 0 (desc_num desc).

(** The free list from [p] on. *)
Fixpoint linked (next : gmap Z Z) (p : Z) (l : list Z) : Prop :=
  match l with
  | [] => p = NULL
  | x :: l => p = x ∧ ∃ n, next !! x = Some n ∧ linked next n l
  end.

Definition free_list (s : memp) (l : list Z) : Prop :=
  linked (memp_next s) (tab s) l ∧ NoDup l ∧ l ⊆ elements.

Lemma linked_insert next p l x n : x ∉ l → linked next p l → linked (<[x := n]> next) p l.
Proof.
  revert p. induction l as [|y l IH]; intros p Hx; simpl; [done|].
  intros (-> & m & Hm & Hl). apply not_elem_of_cons in Hx as [Hxy Hx]. split; [done|]. exists m.
  rewrite lookup_insert_ne by done. auto.
Qed.

Lemma align_up x : LWIP_MEM_ALIGN x = (x + 3) / 4 * 4.
Proof.
  unfold LWIP_MEM_ALIGN, MEM_ALIGNMENT. change (4 - 1) with (Z.ones 2).
  rewrite <-Z.ldiff_land, Z.ldiff_ones_r, Z.shiftr_div_pow2, Z.shiftl_mul_pow2 by lia.
  f_equal. f_equal. lia.
Qed.

Lemma align_range x : x ≤ (x + 3) / 4 * 4 < x + 4.
Proof. Z.div_mod_to_equations. lia. Qed.

Context `{!DescOk}.

Lemma element_ok x : x ∈ elements → x ≠ NULL ∧ x mod MEM_ALIGNMENT = 0.
Proof.
  intros (i & -> & _)%list_elem_of_fmap. pose proof desc_base_pos. pose proof desc_size_pos.
  pose proof desc_size_aligned as Ha. unfold MEM_ALIGNMENT, NULL, element in *.
  rewrite align_up. set (a := (desc_base desc + 3) / 4) in *.
  assert (1 ≤ a) by (unfold a; Z.div_mod_to_equations; lia).
  assert (0 ≤ Z.of_nat i * desc_size desc) by nia. split; [lia|].
  apply Z.mod_divide in Ha as [k Hk]; [|done]. rewrite Hk, Z.mul_assoc, <-Z.mul_add_distr_r.
  by rewrite Z.mod_mul.
Qed.

Lemma element_inj i j : element i = element j → i = j.
Proof. unfold element. pose proof desc_size_pos. nia. Qed.

Lemma elements_nodup : NoDup elements.
Proof. apply NoDup_fmap_2; [intros i j; apply element_inj|apply NoDup_seq]. Qed.

(** ** The operations *)

Lemma linked_null next p l : l ⊆ elements → linked next p l → p = NULL ↔ l = [].
Proof.
  intros Hl. destruct l as [|x l]; simpl; [done|]. intros [-> _]. split; [|done]. intros E.
  destruct (element_ok x) as [Hx _]; [apply Hl; by left|done].
Qed.

Lemma wp_init_pool_loop n m s l (Q : unit → memp → Prop) :
  linked (memp_next s) (tab s) l → (∀ y, y ∈ l → y < m) →
  (∀ s', linked (memp_next s') (tab s') (reverse ((λ i, m + Z.of_nat i * desc_size desc) <$> seq 0 n) ++ l) → Q tt s') →
  wp (init_pool_loop (desc_size desc) n m) Q s.
Proof.
  pose proof desc_size_pos as Hpos.
  revert m s l. induction n as [|n IH]; intros m s l Hl Hlt HQ; simpl.
  - by apply wp_ret, HQ.
  - wp_go. apply (IH (m + desc_size desc) _ (m :: l)); simpl.
    + split; [done|]. eexists. split; [apply lookup_insert_eq|]. apply linked_insert; [|done].
      intros Hin. specialize (Hlt m Hin). lia.
    + intros y [->|Hy]%elem_of_cons; [lia|]. specialize (Hlt y Hy). lia.
    + intros s' Hs'. apply HQ. cbn [seq fmap list_fmap]. rewrite reverse_cons, <-app_assoc.
      replace (m + Z.of_nat 0 * desc_size desc) with m by lia.
      enough (((λ i, m + desc_size desc + Z.of_nat i * desc_size desc) <$> seq 0 n) =
              ((λ i, m + Z.of_nat i * desc_size desc) <$> seq 1 n)) as <- by done.
      rewrite <-fmap_S_seq, <-list_fmap_compose. apply list_fmap_ext. intros i x _. simpl. lia.
Qed.

(** The pool starts with all its elements free, the last one first. *)
Lemma wp_memp_init_pool s : wp (memp_init_pool desc) (λ _ s', free_list s' (reverse elements)) s.
Proof.
  unfold memp_init_pool. wp_go. apply (wp_init_pool_loop _ _ _ []); [done|by intros ? ?%elem_of_nil|].
  intros s' Hs. rewrite app_nil_r in Hs. split_and!; [done| |].
  - rewrite reverse_Permutation. apply elements_nodup.
  - intros x. by rewrite elem_of_reverse.
Qed.

Lemma wp_memp_malloc s l :
  free_list s l →
  wp (memp_malloc desc) (λ a s', match l with
    | x :: l => a = x ∧ free_list s' l
    | [] => a = NULL ∧ s' = s
    end) s.
Proof.
  intros (Hl & Hnd & Hsub). unfold memp_malloc. wp_go.
  - destruct l as [|x l]; simpl in Hl; [rewrite Hl in *; done|].
    destruct Hl as (E & n & Hn & Hl). apply wp_of_option with (a := n); [by rewrite E|].
    wp_go. apply wp_assert.
    + rewrite E. destruct (element_ok x) as [_ ->]; [apply Hsub; by left|done].
    + wp_go. split; [done|]. apply NoDup_cons in Hnd as [_ Hnd]. split_and!; [done|done|].
      intros y Hy. apply Hsub. by right.
  - match goal with E : negb _ = false |- _ => apply negb_false_iff, Z.eqb_eq in E; rename E into Enull end.
    rewrite (linked_null _ _ l) in Enull by done. by subst l.
Qed.

Lemma wp_memp_free s x l :
  free_list s l → x ∈ elements → x ∉ l → wp (memp_free desc x) (λ _ s', free_list s' (x :: l)) s.
Proof.
  intros (Hl & Hnd & Hsub) Hx Hxl. destruct (element_ok x Hx) as [Hnull Hal]. unfold memp_free.
  rewrite (proj2 (Z.eqb_neq x NULL) Hnull).
  apply wp_bind, wp_assert; [by apply Z.eqb_eq|]. wp_go. simpl.
  split_and!.
  - simpl. split; [done|]. eexists. split; [apply lookup_insert_eq|]. by apply linked_insert.
  - by apply NoDup_cons.
  - intros y [->|Hy]%elem_of_cons; [done|by apply Hsub].
Qed.

(** Only the free elements' memory is the pool's. *)
Lemma free_list_frame s s' l :
  tab s' = tab s → (∀ x, x ∈ l → memp_next s' !! x = memp_next s !! x) → free_list s l → free_list s' l.
Proof.
  intros Et Hsame (Hl & Hnd & Hsub). split_and!; [|done|done]. rewrite Et. clear Et Hnd Hsub.
  revert Hl. generalize (tab s). induction l as [|x l IH]; intros p; simpl; [done|].
  intros (-> & n & Hn & Hl). split; [done|]. exists n. rewrite Hsame by by left.
  split; [done|]. apply IH; [|done]. intros y Hy. apply Hsame. by right.
Qed.

(** ** A pool in use *)

(** A client: it allocates, or frees the [i]th of the elements it has. *)
Inductive pool_op := PMalloc | PFree (i : nat).

Fixpoint pool_run (ops : list pool_op) (out : list Z) : M memp (list Z) :=
  match ops with
  | [] => mret out
  | PMalloc :: ops =>
      a ← memp_malloc desc;
      pool_run ops (if a =? NULL then out else a :: out)
  | PFree i :: ops =>
      match out !! i with
      | Some x => memp_free desc x;; pool_run ops (delete i out)
      | None => pool_run ops out
      end
  end.

Lemma wp_pool_run ops out l s :
  free_list s l → out ++ l ≡ₚ elements →
  wp (pool_run ops out) (λ out' s', ∃ l', free_list s' l' ∧ out' ++ l' ≡ₚ elements) s.
Proof.
  revert out l s. induction ops as [|[|i] ops IH]; intros out l s Hs Hp; simpl.
  - apply wp_ret. by exists l.
  - apply wp_bind. eapply wp_mono; [by apply wp_memp_malloc|]. intros a s' Ha. destruct l as [|x l].
    + destruct Ha as [-> ->]. by apply (IH out []).
    + destruct Ha as [-> Hs']. destruct (element_ok x) as [Hx _]; [apply Hs; by left|].
      apply Z.eqb_neq in Hx as ->. apply (IH _ l); [done|]. by rewrite <-Hp, <-Permutation_middle.
  - destruct (out !! i) as [x|] eqn:Ei; [|by apply (IH out l)].
    apply delete_Permutation in Ei as Eo. assert (NoDup (x :: delete i out ++ l)) as Hnd.
    { assert ((x :: delete i out) ++ l ≡ₚ elements) as E; [|rewrite E; apply elements_nodup].
      rewrite <-Hp. apply Permutation_app_tail. by symmetry. }
    apply NoDup_cons in Hnd as [Hx _]. apply wp_bind. eapply wp_mono.
    + apply wp_memp_free; [exact Hs| |set_solver]. rewrite <-Hp. apply elem_of_app. left.
        by apply list_elem_of_lookup_2 with i.
    + intros [] s' Hs'. apply (IH _ (x :: l)); [done|]. rewrite <-Hp.
      transitivity ((x :: delete i out) ++ l); [symmetry; apply Permutation_middle|].
      apply Permutation_app_tail. by symmetry.
Qed.

#[export] Instance memp_pool : Pool memp := {
  pool_malloc := memp_malloc desc;
  pool_free := memp_free desc;
  pool_elem x := x ∈ elements;
  pool_holds := free_list
}.

#[export] Instance memp_pool_laws : PoolLaws memp.
Proof.
  split.
  - intros x Hx. by apply element_ok.
  - intros p l (_ & Hnd & Hsub). split; [done|]. by apply Forall_forall.
  - intros p x l Hp. apply (wp_memp_malloc p (x :: l) Hp).
  - intros p Hp. apply (wp_memp_malloc p [] Hp).
  - intros p x l. apply wp_memp_free.
Qed.
End pool.

(** ** Properties *)

(** A pool is carved into [num] elements that do not overlap and lie in its
    memory, and whatever sequence of calls follows, each of them is free or with
    one client: [memp_malloc] returns an element nobody has, and NULL exactly when
    the clients have all of them. *)
Theorem memp_partition desc ops s `{!DescOk desc} :
  wp (memp_init_pool desc;; pool_run desc ops []) (λ out s',
    NoDup out ∧ out ⊆ elements desc ∧
    wp (memp_malloc desc) (λ a _, (a = NULL ↔ length out = desc_num desc) ∧
      (a ≠ NULL → a ∈ elements desc ∧ a ∉ out)) s') s ∧
  ∀ i j, (i < desc_num desc)%nat → (j < i)%nat →
    desc_base desc ≤ element desc j ∧ element desc j + desc_size desc ≤ element desc i ∧
    element desc i + desc_size desc < desc_base desc + 4 + Z.of_nat (desc_num desc) * desc_size desc.
Proof.
  split.
  - apply wp_bind. eapply wp_mono; [by apply wp_memp_init_pool|]. intros [] s1 Hs1.
    eapply wp_mono; [apply (wp_pool_run _ _ [] (reverse (elements desc)) _ Hs1)|].
    { by rewrite reverse_Permutation. }
    intros out s2 (l & Hs2 & Hp). assert (NoDup (out ++ l)) as Hnd by (rewrite Hp; by apply elements_nodup).
    apply NoDup_app in Hnd as (Hnd & Hdisj & _). split_and!; [done|intros x Hx; rewrite <-Hp; apply elem_of_app; by left|].
    assert (length out + length l = desc_num desc)%nat as Hlen.
    { rewrite <-length_app, Hp. unfold elements. by rewrite length_fmap, length_seq. }
    eapply wp_mono; [by apply wp_memp_malloc|]. intros a s3 Ha. destruct l as [|x l].
    + destruct Ha as [-> _]. simpl in Hlen. split; [|done]. split; [lia|done].
    + destruct Ha as [-> _]. destruct (element_ok desc x) as [Hx _]; [apply Hs2; by left|].
      simpl in Hlen. split; [split; [done|lia]|]. intros _. split; [apply Hs2; by left|].
      intros Hin. apply (Hdisj x Hin). by left.
  - intros i j Hi Hj. unfold element. rewrite !align_up.
    pose proof (@desc_size_pos desc _). assert (Z.of_nat j + 1 ≤ Z.of_nat i) by lia.
    assert (Z.of_nat i + 1 ≤ Z.of_nat (desc_num desc)) by lia.
    pose proof (align_range (desc_base desc)). split_and!; nia.
Qed.

(** The pool of [struct sys_timeo]. *)
Definition memp_SYS_TIMEOUT (base : Z) : memp_desc := MempDesc (LWIP_MEM_ALIGN_SIZE 16) 8 base.

Lemma memp_partition_witness :
  let d := memp_SYS_TIMEOUT 0x20001002 in
  let ops := [PMalloc; PMalloc; PFree 1; PMalloc] in
  wp (memp_init_pool d;; pool_run d ops []) (λ out s',
    NoDup out ∧ out ⊆ elements d ∧
    wp (memp_malloc d) (λ a _, (a = NULL ↔ length out = desc_num d) ∧
      (a ≠ NULL → a ∈ elements d ∧ a ∉ out)) s') (MempState 0 ∅).
Proof. intros d ops. apply memp_partition. by split. Defined.
