(* ===== verification/Mem.v ===== *)
(** The heap of lwIP, [lwip/src/core/mem.c]: blocks one after the other in one
    array, each with a [struct mem] in front that has the indices of the next and
    of the previous one; [lfree] is the lowest free block.  The heap is built
    without overflow and sanity checks and is not freed from interrupts
    (lwipopts.h), so that the protection macros are empty.  The contents of the
    blocks are not part of the model. *)
From stdpp Require Import base tactics numbers list gmap.
From S2P Require Import Prelude Words Memp.

(** ** Constants *)

Definition MEM_SIZE : Z := 16 * 1024.
Definition MIN_SIZE : Z := 12.
Definition MIN_SIZE_ALIGNED : Z := LWIP_MEM_ALIGN_SIZE MIN_SIZE.
(** [next] 2, [prev] 2, [used] 1, one byte of padding. *)
Definition SIZEOF_STRUCT_MEM : Z := LWIP_MEM_ALIGN_SIZE 6.
Definition MEM_SIZE_ALIGNED : Z := LWIP_MEM_ALIGN_SIZE MEM_SIZE.

(** ** Data *)

Record mem := Mem { m_next : Z; m_prev : Z; m_used : Z }.

(** The statics, and the structures in the array by their addresses. *)
Record mem_heap := MemHeap { ram : Z; ram_end : Z; lfree : Z; mems : gmap Z mem }.

Definition set_mems (f : gmap Z mem → gmap Z mem) : M mem_heap unit :=
  modify (λ h, MemHeap (ram h) (ram_end h) (lfree h) (f (mems h))).
Definition set_lfree (p : Z) : M mem_heap unit :=
  modify (λ h, MemHeap (ram h) (ram_end h) p (mems h)).
Definition rd_mem (p : Z) : M mem_heap mem := gets (λ h, mems h !! p) ≫= of_option.
Definition wr_mem (p : Z) (m : mem) : M mem_heap unit := set_mems <[p := m]>.
Definition wr_next (p n : Z) : M mem_heap unit := m ← rd_mem p; wr_mem p (Mem n (m_prev m) (m_used m)).
Definition wr_prev (p n : Z) : M mem_heap unit := m ← rd_mem p; wr_mem p (Mem (m_next m) n (m_used m)).
Definition wr_used (p u : Z) : M mem_heap unit := m ← rd_mem p; wr_mem p (Mem (m_next m) (m_prev m) u).

Definition ptr_to_mem (ptr : Z) : M mem_heap Z := gets (λ h, ram h + ptr).
Definition mem_to_ptr (m : Z) : M mem_heap Z := gets (λ h, u16 (m - ram h)).

(** [if (next != MEM_SIZE_ALIGNED) ptr_to_mem(next)->prev = prev;] *)
Definition link_back (next prev : Z) : M mem_heap unit :=
  when_ (negb (next =? MEM_SIZE_ALIGNED)) (p ← ptr_to_mem next; wr_prev p prev).

(** ** The functions *)

Definition plug_forward (m : Z) : M mem_heap unit :=
  b ← rd_mem m;
  nmem ← ptr_to_mem (m_next b);
  n ← rd_mem nmem;
  re ← gets ram_end;
  when_ (negb (m =? nmem) && (m_used n =? 0) && negb (nmem =? re))
    (lf ← gets lfree;
     when_ (lf =? nmem) (set_lfree m);;
     wr_next m (m_next n);;
     i ← mem_to_ptr m;
     link_back (m_next n) i).

Definition plug_backward (m : Z) : M mem_heap unit :=
  b ← rd_mem m;
  pm ← ptr_to_mem (m_prev b);
  p ← rd_mem pm;
  when_ (negb (pm =? m) && (m_used p =? 0))
    (lf ← gets lfree;
     when_ (lf =? m) (set_lfree pm);;
     wr_next pm (m_next b);;
     i ← mem_to_ptr pm;
     link_back (m_next b) i).

Definition plug_holes (m : Z) : M mem_heap unit :=
  r ← gets ram; assert_that (r <=? m);;
  re ← gets ram_end; assert_that (m <? re);;
  b ← rd_mem m;
  assert_that (m_used b =? 0);;
  assert_that (m_next b <=? MEM_SIZE_ALIGNED);;
  plug_forward m;;
  plug_backward m.

Section init.
(** [LWIP_RAM_HEAP_POINTER], the address of the array. *)
Context (ram_heap : Z).

Definition mem_init : M mem_heap unit :=
  assert_that (Z.land SIZEOF_STRUCT_MEM (MEM_ALIGNMENT - 1) =? 0);;
  modify (λ h, MemHeap (LWIP_MEM_ALIGN ram_heap) (ram_end h) (lfree h) (mems h));;
  r ← gets ram;
  wr_mem r (Mem MEM_SIZE_ALIGNED 0 0);;
  e ← ptr_to_mem MEM_SIZE_ALIGNED;
  modify (λ h, MemHeap (ram h) e (lfree h) (mems h));;
  wr_mem e (Mem MEM_SIZE_ALIGNED MEM_SIZE_ALIGNED 1);;
  set_lfree r.
End init.

Definition mem_link_valid (m : Z) : M mem_heap bool :=
  b ← rd_mem m;
  rmem_idx ← mem_to_ptr m;
  nmem ← ptr_to_mem (m_next b);
  pmem ← ptr_to_mem (m_prev b);
  re ← gets ram_end;
  if (MEM_SIZE_ALIGNED <? m_next b) || (MEM_SIZE_ALIGNED <? m_prev b) then mret false
  else
    unlinked ← (if negb (m_prev b =? rmem_idx) then p ← rd_mem pmem; mret (negb (m_next p =? rmem_idx)) else mret false);
    if unlinked : bool then mret false
    else if negb (nmem =? re) then n ← rd_mem nmem; mret (m_prev n =? rmem_idx)
    else mret true.

(** [LWIP_MEM_ILLEGAL_FREE] is an assertion that fails. *)
Definition mem_free (rmem : Z) : M mem_heap unit :=
  if rmem =? NULL then mret tt
  else if negb (Z.land rmem (MEM_ALIGNMENT - 1) =? 0) then fail AssertFailed
  else
    let m := rmem - SIZEOF_STRUCT_MEM in
    r ← gets ram;
    re ← gets ram_end;
    if (m <? r) || (re <? rmem + MIN_SIZE_ALIGNED) then fail AssertFailed
    else
      b ← rd_mem m;
      if m_used b =? 0 then fail AssertFailed
      else
        ok ← mem_link_valid m;
        if negb ok then fail AssertFailed
        else
          wr_used m 0;;
          lf ← gets lfree;
          when_ (m <? lf) (set_lfree m);;
          plug_holes m.

(** The data size of a block for [n] bytes. *)
Definition block_size (n : Z) : Z :=
  let size := u16 (LWIP_MEM_ALIGN_SIZE n) in
  if size <? MIN_SIZE_ALIGNED then MIN_SIZE_ALIGNED else size.

(** The free block [mem2] behind [m] is moved down to the new end of [m]. *)
Definition move_next (m ptr newsize mem2 : Z) (b b2 : mem) : M mem_heap unit :=
  assert_that (negb (m_next b =? MEM_SIZE_ALIGNED));;
  let ptr2 := u16 (ptr + SIZEOF_STRUCT_MEM + newsize) in
  new2 ← ptr_to_mem ptr2;
  lf ← gets lfree;
  when_ (lf =? mem2) (set_lfree new2);;
  wr_mem new2 (Mem (m_next b2) ptr 0);;
  wr_next m ptr2;;
  link_back (m_next b2) ptr2.

(** The end of [m] becomes a free block. *)
Definition split_end (m ptr newsize : Z) (b : mem) : M mem_heap unit :=
  let ptr2 := u16 (ptr + SIZEOF_STRUCT_MEM + newsize) in
  assert_that (negb (m_next b =? MEM_SIZE_ALIGNED));;
  new2 ← ptr_to_mem ptr2;
  lf ← gets lfree;
  when_ (new2 <? lf) (set_lfree new2);;
  wr_mem new2 (Mem (m_next b) ptr 0);;
  wr_next m ptr2;;
  link_back (m_next b) ptr2.

Definition mem_trim (rmem new_size : Z) : M mem_heap Z :=
  let newsize := block_size new_size in
  if (MEM_SIZE_ALIGNED <? newsize) || (newsize <? new_size) then mret NULL
  else
    r ← gets ram;
    re ← gets ram_end;
    assert_that ((r <=? rmem) && (rmem <? re));;
    let m := rmem - SIZEOF_STRUCT_MEM in
    ptr ← mem_to_ptr m;
    b ← rd_mem m;
    let size := u16 (u16 (m_next b - ptr) - SIZEOF_STRUCT_MEM) in
    assert_that (newsize <=? size);;
    if newsize =? size then mret rmem
    else
      mem2 ← ptr_to_mem (m_next b);
      b2 ← rd_mem mem2;
      (if m_used b2 =? 0 then move_next m ptr newsize mem2 b b2
       else when_ (newsize + SIZEOF_STRUCT_MEM + MIN_SIZE_ALIGNED <=? size) (split_end m ptr newsize b));;
      mret rmem.

(** [while (cur->used && cur != ram_end) cur = ptr_to_mem(cur->next);] *)
Fixpoint next_free (n : nat) (cur : Z) : M mem_heap Z :=
  match n with
  | O => fail OutOfFuel
  | S n =>
      b ← rd_mem cur;
      re ← gets ram_end;
      if negb (m_used b =? 0) && negb (cur =? re) then
        cur ← ptr_to_mem (m_next b);
        next_free n cur
      else mret cur
  end.

(** More than the number of blocks the array has room for. *)
Definition mem_fuel : nat := Z.to_nat (MEM_SIZE_ALIGNED / SIZEOF_STRUCT_MEM).

Definition adjust_lfree (m : Z) : M mem_heap unit :=
  lf ← gets lfree;
  when_ (m =? lf)
    (cur ← next_free mem_fuel lf;
     set_lfree cur;;
     b ← rd_mem cur;
     re ← gets ram_end;
     assert_that ((cur =? re) || (m_used b =? 0))).

(** A free block large enough is used, split when there is room for another. *)
Definition use_block (m ptr size : Z) (b : mem) : M mem_heap unit :=
  if size + SIZEOF_STRUCT_MEM + MIN_SIZE_ALIGNED <=? u32 (m_next b - (ptr + SIZEOF_STRUCT_MEM)) then
    let ptr2 := u16 (ptr + SIZEOF_STRUCT_MEM + size) in
    assert_that (negb (ptr2 =? MEM_SIZE_ALIGNED));;
    mem2 ← ptr_to_mem ptr2;
    wr_mem mem2 (Mem (m_next b) ptr 0);;
    wr_next m ptr2;;
    wr_used m 1;;
    link_back (m_next b) ptr2
  else wr_used m 1.

Fixpoint search (n : nat) (size ptr : Z) : M mem_heap Z :=
  match n with
  | O => fail OutOfFuel
  | S n =>
      if ptr <? MEM_SIZE_ALIGNED - size then
        m ← ptr_to_mem ptr;
        b ← rd_mem m;
        if (m_used b =? 0) && (size <=? u32 (m_next b - (ptr + SIZEOF_STRUCT_MEM))) then
          use_block m ptr size b;;
          adjust_lfree m;;
          re ← gets ram_end;
          assert_that (m + SIZEOF_STRUCT_MEM + size <=? re);;
          assert_that ((m + SIZEOF_STRUCT_MEM) mod MEM_ALIGNMENT =? 0);;
          assert_that (Z.land m (MEM_ALIGNMENT - 1) =? 0);;
          mret (m + SIZEOF_STRUCT_MEM)
        else search n size (m_next b)
      else mret NULL
  end.

Definition mem_malloc (size_in : Z) : M mem_heap Z :=
  if size_in =? 0 then mret NULL
  else
    let size := block_size size_in in
    if (MEM_SIZE_ALIGNED <? size) || (size <? size_in) then mret NULL
    else
      lf ← gets lfree;
      ptr ← mem_to_ptr lf;
      search mem_fuel size ptr.
