(* ===== verification/Timeouts.v ===== *)
(** Timeouts, [lwip/src/core/timeouts.c]: the list of pending timeouts in the order
    in which they are due, the cyclic timers of the stack, and
    [sys_check_timeouts], which the polling loop calls.  Times are 32-bit
    milliseconds that wrap around.  The elements come from a pool ([Memp]), the
    time and the cyclic handlers from the rest of the stack ([TimeoutEnv]). *)
From stdpp Require Import base tactics numbers list sorting.
From S2P Require Import Prelude Words Memp.

(** The handlers of [lwip_cyclic_timers] in this configuration. *)
Inductive cyclic_handler := ip_reass_tmr | etharp_tmr | dhcp_coarse_tmr | dhcp_fine_tmr | dns_tmr.

#[export] Instance cyclic_handler_eq_dec : EqDecision cyclic_handler.
Proof. solve_decision. Defined.

(** A [sys_timeout_handler]: NULL, [lwip_cyclic_timer], or a function of a client. *)
Inductive sys_timeout_handler := no_handler | cyclic_timer_handler | client_handler (f : Z).

#[export] Instance sys_timeout_handler_eq_dec : EqDecision sys_timeout_handler.
Proof. solve_decision. Defined.

Class TimeoutEnv (W : Type) := {
  sys_now : M W Z;
  run_cyclic : cyclic_handler → M W unit
}.

(** ** The code *)

Definition LWIP_MAX_TIMEOUT : Z := 0x7fffffff.
Definition LWIP_UINT32_MAX : Z := 0xffffffff.
Definition SYS_TIMEOUTS_SLEEPTIME_INFINITE : Z := 0xffffffff.
Definition TIME_LESS_THAN (t compare_to : Z) : bool := LWIP_MAX_TIMEOUT <? u32 (t - compare_to).

Record lwip_cyclic_timer := CyclicTimer { interval_ms : Z; handler : cyclic_handler }.

Definition lwip_cyclic_timers : list lwip_cyclic_timer :=
  [CyclicTimer 1000 ip_reass_tmr; CyclicTimer 1000 etharp_tmr;
   CyclicTimer (60 * 1000) dhcp_coarse_tmr; CyclicTimer 500 dhcp_fine_tmr;
   CyclicTimer 1000 dns_tmr].

(** An element of the list, with its address. *)
Record sys_timeo := SysTimeo {
  to_addr : Z;
  to_time : Z;
  to_h : sys_timeout_handler;
  to_arg : Z
}.

Section code.
Context {P W : Type} `{Pool P, TimeoutEnv W}.

Record timeouts := Timeouts {
  next_timeout : list sys_timeo;
  current_timeout_due_time : Z;
  pool : P
}.

Definition tstate : Type := timeouts * W.

(** What the client's handlers do. *)
Context (call_client : Z → Z → M tstate unit).

Definition from_pool {A} (m : M P A) : M tstate A :=
  zoom (λ s, pool s.1) (λ p s, (Timeouts (next_timeout s.1) (current_timeout_due_time s.1) p, s.2)) m.
Definition from_env {A} (m : M W A) : M tstate A := zoom snd (λ w s, (s.1, w)) m.
Definition set_list (l : list sys_timeo) : M tstate unit :=
  modify (λ s, (Timeouts l (current_timeout_due_time s.1) (pool s.1), s.2)).

(** The [for] loop over [t]: [timeout] goes before the first element that is due
    later, or to the end; the first element stays. *)
Fixpoint insert_after (timeout : sys_timeo) (t : sys_timeo) (rest : list sys_timeo) : list sys_timeo :=
  match rest with
  | [] => [t; timeout]
  | n :: rest' =>
      if TIME_LESS_THAN (to_time timeout) (to_time n) then t :: timeout :: n :: rest'
      else t :: insert_after timeout n rest'
  end.

Definition sys_timeout_abs (abs_time : Z) (h : sys_timeout_handler) (arg : Z) : M tstate unit :=
  timeout ← from_pool pool_malloc;
  assert_that (negb (timeout =? NULL));;
  let timeout := SysTimeo timeout abs_time h arg in
  l ← gets (λ s, next_timeout s.1);
  match l with
  | [] => set_list [timeout]
  | t :: rest =>
      if TIME_LESS_THAN (to_time timeout) (to_time t) then set_list (timeout :: t :: rest)
      else set_list (insert_after timeout t rest)
  end.

Definition lwip_cyclic_timer_ (arg : Z) : M tstate unit :=
  cyclic ← of_option (lwip_cyclic_timers !! Z.to_nat arg);
  from_env (run_cyclic (handler cyclic));;
  now ← from_env sys_now;
  next_timeout_time ← gets (λ s, u32 (current_timeout_due_time s.1 + interval_ms cyclic));
  if TIME_LESS_THAN next_timeout_time now then
    sys_timeout_abs (u32 (now + interval_ms cyclic)) cyclic_timer_handler arg
  else sys_timeout_abs next_timeout_time cyclic_timer_handler arg.

Definition sys_timeout (msecs : Z) (h : sys_timeout_handler) (arg : Z) : M tstate unit :=
  assert_that (msecs <=? LWIP_UINT32_MAX / 4);;
  now ← from_env sys_now;
  sys_timeout_abs (u32 (now + msecs)) h arg.

Fixpoint timeouts_init_loop (l : list lwip_cyclic_timer) (i : Z) : M tstate unit :=
  match l with
  | [] => mret tt
  | c :: l => sys_timeout (interval_ms c) cyclic_timer_handler i;; timeouts_init_loop l (i + 1)
  end.

Definition sys_timeouts_init : M tstate unit := timeouts_init_loop lwip_cyclic_timers 0.

Definition matches (h : sys_timeout_handler) (arg : Z) (t : sys_timeo) : bool :=
  bool_decide (to_h t = h) && (to_arg t =? arg).

(** The element unlinked and the list without it. *)
Fixpoint unlink (h : sys_timeout_handler) (arg : Z) (l : list sys_timeo) : option (sys_timeo * list sys_timeo) :=
  match l with
  | [] => None
  | t :: l =>
      if matches h arg t then Some (t, l)
      else match unlink h arg l with Some (x, l) => Some (x, t :: l) | None => None end
  end.

Definition sys_untimeout (h : sys_timeout_handler) (arg : Z) : M tstate unit :=
  l ← gets (λ s, next_timeout s.1);
  match unlink h arg l with
  | Some (t, l) => set_list l;; from_pool (pool_free (to_addr t))
  | None => mret tt
  end.

Definition call_handler (h : sys_timeout_handler) (arg : Z) : M tstate unit :=
  match h with
  | no_handler => mret tt
  | cyclic_timer_handler => lwip_cyclic_timer_ arg
  | client_handler f => call_client f arg
  end.

(** The [do ... while (1)] loop, [fuel] iterations of it. *)
Fixpoint check_loop (fuel : nat) (now : Z) : M tstate unit :=
  match fuel with
  | O => fail OutOfFuel
  | S fuel =>
      l ← gets (λ s, next_timeout s.1);
      match l with
      | [] => mret tt
      | t :: l =>
          if TIME_LESS_THAN now (to_time t) then mret tt
          else
            set_list l;;
            modify (λ s, (Timeouts (next_timeout s.1) (to_time t) (pool s.1), s.2));;
            from_pool (pool_free (to_addr t));;
            call_handler (to_h t) (to_arg t);;
            check_loop fuel now
      end
  end.

Definition sys_check_timeouts (fuel : nat) : M tstate unit :=
  now ← from_env sys_now; check_loop fuel now.

Definition sys_restart_timeouts : M tstate unit :=
  l ← gets (λ s, next_timeout s.1);
  match l with
  | [] => mret tt
  | t0 :: _ =>
      now ← from_env sys_now;
      let base := to_time t0 in
      set_list ((λ t, SysTimeo (to_addr t) (u32 (u32 (to_time t - base) + now)) (to_h t) (to_arg t)) <$> l)
  end.

Definition sys_timeouts_sleeptime : M tstate Z :=
  l ← gets (λ s, next_timeout s.1);
  match l with
  | [] => mret SYS_TIMEOUTS_SLEEPTIME_INFINITE
  | t :: _ =>
      now ← from_env sys_now;
      if TIME_LESS_THAN (to_time t) now then mret 0
      else
        let ret := u32 (to_time t - now) in
        assert_that (ret <=? LWIP_MAX_TIMEOUT);; mret ret
  end.
End code.

Arguments timeouts : clear implicits.
Arguments tstate : clear implicits.

(** ** The specification: due times that do not wrap around *)

Record timer := Timer { due : Z; fun_of : sys_timeout_handler; arg_of : Z }.

(** After those that are due at the same time. *)
Fixpoint schedule (x : timer) (l : list timer) : list timer :=
  match l with
  | [] => [x]
  | y :: l => if due x <? due y then x :: y :: l else y :: schedule x l
  end.

Definition earlier (x y : timer) : Prop := due x ≤ due y.
Definition in_order : list timer → Prop := StronglySorted earlier.

(** Times that the 32-bit comparison tells apart. *)
Definition near (a b : Z) : Prop := -2147483648 < a - b < 2147483648.

(** The element for a timer. *)
Definition holds_timer (t : sys_timeo) (v : timer) : Prop :=
  to_time t = u32 (due v) ∧ to_h t = fun_of v ∧ to_arg t = arg_of v.

Lemma time_less a b : near a b → TIME_LESS_THAN (u32 a) (u32 b) = (a <? b).
Proof.
  intros Hn. unfold TIME_LESS_THAN, LWIP_MAX_TIMEOUT, near in *.
  assert (u32 (u32 a - u32 b) = u32 (a - b)) as -> by (unfold u32; by rewrite <-Zminus_mod).
  unfold u32. destruct (Z.ltb_spec a b).
  - apply Z.ltb_lt. rewrite <-(Z.mod_add (a - b) 1), Z.mod_small by lia. lia.
  - apply Z.ltb_ge. rewrite Z.mod_small by lia. lia.
Qed.

Lemma time_add a k : u32 (u32 a + k) = u32 (a + k).
Proof. unfold u32. by rewrite Zplus_mod_idemp_l. Qed.

Lemma time_sub a b : u32 (u32 a - u32 b) = u32 (a - b).
Proof. unfold u32. by rewrite <-Zminus_mod. Qed.

Lemma schedule_perm x l : schedule x l ≡ₚ x :: l.
Proof.
  induction l as [|y l IH]; simpl; [done|]. destruct (due x <? due y); [done|].
  rewrite IH. apply Permutation_swap.
Qed.

Lemma schedule_length x l : length (schedule x l) = S (length l).
Proof. by rewrite schedule_perm. Qed.

Lemma schedule_in_order x l : in_order l → in_order (schedule x l).
Proof.
  unfold in_order. induction 1 as [|y l Hl IH Hy]; simpl; [by repeat constructor|].
  destruct (Z.ltb_spec (due x) (due y)).
  - constructor; [by constructor|]. constructor; [unfold earlier; lia|].
    eapply Forall_impl; [exact Hy|]. unfold earlier. simpl. lia.
  - constructor; [done|]. apply Forall_forall. intros z Hz. rewrite schedule_perm in Hz.
    apply elem_of_cons in Hz as [->|Hz]; [unfold earlier; lia|]. rewrite Forall_forall in Hy. by apply Hy.
Qed.

(** A timer that is due no earlier than those of [l1] goes behind them. *)
Lemma schedule_app x l1 l2 : Forall (λ y, due y ≤ due x) l1 → schedule x (l1 ++ l2) = l1 ++ schedule x l2.
Proof.
  induction 1 as [|y l1 Hy _ IH]; simpl; [done|]. rewrite (proj2 (Z.ltb_ge _ _) Hy). by rewrite IH.
Qed.

(** [sys_untimeout]. *)
Fixpoint cancel (h : sys_timeout_handler) (arg : Z) (l : list timer) : list timer :=
  match l with
  | [] => []
  | y :: l => if bool_decide (fun_of y = h) && (arg_of y =? arg) then l else y :: cancel h arg l
  end.

(** [sys_restart_timeouts] at time [now]. *)
Definition rebase (now : Z) (l : list timer) : list timer :=
  match l with
  | [] => []
  | y :: _ => (λ x, Timer (due x - due y + now) (fun_of x) (arg_of x)) <$> l
  end.

(** When a cyclic timer that was due at [d] is next due, if its handler returned
    at time [now]. *)
Definition next_due (d interval now : Z) : Z := if d + interval <? now then now + interval else d + interval.

Definition cyclic_of (v : timer) : option lwip_cyclic_timer :=
  match fun_of v with
  | cyclic_timer_handler => lwip_cyclic_timers !! Z.to_nat (arg_of v)
  | _ => None
  end.

(** [y] is the cyclic timer [x] started again at a time between [T] and [M]. *)
Definition renewed (T M : Z) (x y : timer) : Prop :=
  fun_of y = fun_of x ∧ arg_of y = arg_of x ∧
  ∃ c now, cyclic_of x = Some c ∧ T ≤ now ≤ M ∧ due y = next_due (due x) (interval_ms c) now.

(** The rest of the stack, as the timeouts rely on it: a clock of which [sys_now]
    is the low 32 bits, and handlers that take time but at most [slowest]. *)
Class TimeoutEnvLaws (W : Type) `{TimeoutEnv W} := {
  clock : W → Z;
  ran : W → list cyclic_handler;
  slowest : Z;
  wp_sys_now w : wp sys_now (λ t w', t = u32 (clock w) ∧ w' = w) w;
  wp_run_cyclic c w :
    wp (run_cyclic c) (λ _ w', clock w ≤ clock w' ≤ clock w + slowest ∧ ran w' = ran w ++ [c]) w
}.

Section timeouts_spec.
Context {P W : Type} `{PoolLaws P, TimeoutEnvLaws W}.

(** The state holds the timers [l]; [k] more can be had. *)
Definition holds_timers (k : nat) (l : list timer) (s : timeouts P) : Prop :=
  Forall2 holds_timer (next_timeout s) l ∧
  ∃ free, pool_holds (pool s) free ∧ length free = k ∧
    NoDup ((to_addr <$> next_timeout s) ++ free) ∧ Forall pool_elem (to_addr <$> next_timeout s).

Lemma insert_after_holds t t0 rest x x0 l :
  holds_timer t x → holds_timer t0 x0 → Forall2 holds_timer rest l →
  Forall (λ y, near (due x) (due y)) l → due x0 ≤ due x →
  Forall2 holds_timer (insert_after t t0 rest) (schedule x (x0 :: l)).
Proof.
  intros Ht Ht0 Hl Hn Hle. simpl. rewrite (proj2 (Z.ltb_ge _ _) Hle). clear Hle.
  revert t0 x0 Ht0. induction Hl as [|n y rest l Hy Hl IH]; intros t0 x0 Ht0; simpl.
  - by do 2 (constructor; [done|]).
  - apply Forall_cons in Hn as [Hxy Hn]. pose proof Ht as (Et & _). pose proof Hy as (Ey & _).
    rewrite Et, Ey, time_less by done. destruct (due x <? due y).
    + constructor; [done|]. constructor; [done|]. by constructor.
    + constructor; [done|]. by apply IH.
Qed.

Lemma insert_after_addrs t t0 rest : to_addr <$> insert_after t t0 rest ≡ₚ to_addr <$> t :: t0 :: rest.
Proof.
  revert t0. induction rest as [|n rest IH]; intros t0; simpl; [apply Permutation_swap|].
  destruct (TIME_LESS_THAN _ _); [apply Permutation_swap|]. simpl. rewrite IH. simpl. apply Permutation_swap.
Qed.

Lemma wp_sys_timeout_abs k l x (s : tstate P W) (Q : unit → tstate P W → Prop) :
  holds_timers (S k) l s.1 → Forall (λ y, near (due x) (due y)) l →
  (∀ s', holds_timers k (schedule x l) s' →
    current_timeout_due_time s' = current_timeout_due_time s.1 → Q tt (s', s.2)) →
  wp (sys_timeout_abs (u32 (due x)) (fun_of x) (arg_of x)) Q s.
Proof.
  intros (Hl & free & Hfree & Hk & Hnd & Hel) Hn HQ. unfold sys_timeout_abs, from_pool, set_list.
  destruct free as [|a free]; [done|]. injection Hk as Hk.
  pose proof (pool_holds_elems _ _ Hfree) as [Hnf Hef].
  apply Forall_cons in Hef as [Ha Hef]. pose proof (pool_elem_nonnull a Ha) as Hnull.
  wp_go. eapply wp_mono; [by apply (wp_pool_malloc_some _ _ _ Hfree)|]. intros a' p' [-> Hp'].
  apply wp_bind, wp_assert; [by apply negb_true_iff, Z.eqb_neq|]. wp_go. simpl.
  set (t := SysTimeo a (u32 (due x)) (fun_of x) (arg_of x)).
  assert (holds_timer t x) as Ht by done.
  assert (∀ l', Forall2 holds_timer l' (schedule x l) → to_addr <$> l' ≡ₚ a :: (to_addr <$> next_timeout s.1) →
    wp (modify (λ s, (Timeouts l' (current_timeout_due_time s.1) (pool s.1), s.2))) Q
      (Timeouts (next_timeout s.1) (current_timeout_due_time s.1) p', s.2)) as Hend.
  { intros l' Hl' Hp. wp_go. apply HQ; [|done]. split; [done|]. exists free. simpl. split_and!; [done|done| |].
    - rewrite Hp. simpl. by rewrite Permutation_middle.
    - rewrite Hp. by constructor. }
  destruct (next_timeout s.1) as [|t0 rest] eqn:El.
  - inversion Hl; subst. apply Hend; [|done]. by constructor.
  - inversion Hl as [|? x0 ? l0 Ht0 Hl0]; subst. apply Forall_cons in Hn as [Hx0 Hn].
    pose proof Ht0 as (Et0 & _). rewrite Et0, time_less by done. destruct (Z.ltb_spec (due x) (due x0)) as [Hlt|Hge].
    + apply Hend; [|done]. simpl. rewrite (proj2 (Z.ltb_lt _ _) Hlt). by do 2 (constructor; [done|]).
    + apply Hend; [by apply insert_after_holds|]. rewrite insert_after_addrs. done.
Qed.

Lemma wp_from_now (s : tstate P W) (Q : Z → tstate P W → Prop) :
  Q (u32 (clock s.2)) s → wp (from_env sys_now) Q s.
Proof.
  intros HQ. apply wp_zoom. eapply wp_mono; [apply wp_sys_now|]. intros t w' [-> ->]. by destruct s.
Qed.

Lemma wp_sys_timeout k l msecs h arg (s : tstate P W) (Q : unit → tstate P W → Prop) :
  holds_timers (S k) l s.1 → 0 ≤ msecs ≤ 0x3fffffff →
  let x := Timer (clock s.2 + msecs) h arg in
  Forall (λ y, near (due x) (due y)) l →
  (∀ s', holds_timers k (schedule x l) s' →
    current_timeout_due_time s' = current_timeout_due_time s.1 → Q tt (s', s.2)) →
  wp (sys_timeout msecs h arg) Q s.
Proof.
  intros Hs Hm x Hn HQ. unfold sys_timeout. apply wp_bind, wp_assert; [apply Z.leb_le; change (LWIP_UINT32_MAX / 4) with 0x3fffffff; lia|].
  apply wp_bind, wp_from_now. rewrite time_add. by apply (wp_sys_timeout_abs k l x s).
Qed.

Lemma wp_sys_untimeout k l h arg (s : tstate P W) (Q : unit → tstate P W → Prop) :
  holds_timers k l s.1 →
  (∀ s', holds_timers (k + (length l - length (cancel h arg l))) (cancel h arg l) s' →
    current_timeout_due_time s' = current_timeout_due_time s.1 → Q tt (s', s.2)) →
  wp (sys_untimeout h arg) Q s.
Proof.
  intros (Hl & free & Hfree & Hk & Hnd & Hel) HQ. unfold sys_untimeout, set_list, from_pool. wp_go.
  assert (match unlink h arg (next_timeout s.1) with
    | Some (t, l') => next_timeout s.1 ≡ₚ t :: l' ∧ Forall2 holds_timer l' (cancel h arg l)
    | None => cancel h arg l = l
    end) as Hun.
  { clear -Hl. induction Hl as [|t v ts l (Et & Eh & Ea) Hl IH]; simpl; [done|]. unfold matches. rewrite Eh, Ea.
    destruct (_ && _); [done|]. destruct (unlink h arg ts) as [[t' ts']|]; [|by rewrite IH].
    destruct IH as [Hp IH]. split; [rewrite Hp; apply Permutation_swap|]. constructor; [|done]. by split_and!. }
  destruct (unlink h arg (next_timeout s.1)) as [[t l']|].
  - destruct Hun as [Hp Hl']. rewrite Hp in Hnd, Hel. apply Forall_cons in Hel as [Ht Hel].
    cbn [fmap list_fmap] in Hnd, Ht. simpl in Hnd.
    apply NoDup_cons in Hnd as [Htn Hnd]. wp_go. simpl.
    eapply wp_mono; [apply (wp_pool_free _ (to_addr t) free); [done|done|]|].
    { intros Hin. apply Htn, elem_of_app. by right. }
    intros [] p' Hp'. apply (HQ (Timeouts l' _ p')); [|done]. split; [done|]. exists (to_addr t :: free).
    split_and!; [done| | |done].
    + simpl. rewrite Hk. apply Forall2_length in Hl'. apply Forall2_length in Hl.
      assert (length (next_timeout s.1) = S (length l')) as E by (by rewrite Hp). lia.
    + simpl. rewrite <-Permutation_middle. by apply NoDup_cons.
  - wp_go. destruct s as [ts w]. apply HQ; [|done]. rewrite Hun, Nat.sub_diag, Nat.add_0_r. split; [done|]. by exists free.
Qed.

Lemma wp_sys_restart_timeouts k l (s : tstate P W) (Q : unit → tstate P W → Prop) :
  holds_timers k l s.1 →
  (∀ s', holds_timers k (rebase (clock s.2) l) s' →
    current_timeout_due_time s' = current_timeout_due_time s.1 → Q tt (s', s.2)) →
  wp sys_restart_timeouts Q s.
Proof.
  intros (Hl & free & Hfree & Hk & Hnd & Hel) HQ. unfold sys_restart_timeouts, set_list. wp_go.
  destruct (next_timeout s.1) as [|t0 ts] eqn:El; inversion Hl as [|? x0 ? l0 Ht0 Hl0]; subst.
  - wp_go. destruct s as [st w]. apply HQ; [|done]. simpl in El. split; [by rewrite El|].
    exists free. by rewrite El.
  - apply wp_bind, wp_from_now. wp_go. apply HQ; [|done].
    split.
    + destruct Ht0 as (E0 & _).
      change (Forall2 holds_timer ((λ t, SysTimeo (to_addr t) (u32 (u32 (to_time t - to_time t0) + u32 (clock s.2))) (to_h t) (to_arg t)) <$> t0 :: ts)
        ((λ x, Timer (due x - due x0 + clock s.2) (fun_of x) (arg_of x)) <$> x0 :: l0)).
      apply Forall2_fmap. eapply Forall2_impl; [exact Hl|]. intros t v (Et & Eh & Ea). split_and!; [|done|done].
      simpl. rewrite Et, E0, time_sub. unfold u32. by rewrite <-Zplus_mod.
    + exists free. simpl. rewrite <-list_fmap_compose. done.
Qed.

Lemma wp_sys_timeouts_sleeptime k l (s : tstate P W) (Q : Z → tstate P W → Prop) :
  holds_timers k l s.1 →
  match l with
  | [] => Q SYS_TIMEOUTS_SLEEPTIME_INFINITE s
  | x :: _ => near (due x) (clock s.2) ∧ Q (Z.max 0 (due x - clock s.2)) s
  end → wp sys_timeouts_sleeptime Q s.
Proof.
  intros (Hl & _) HQ. unfold sys_timeouts_sleeptime. wp_go.
  destruct (next_timeout s.1) as [|t0 ts]; inversion Hl as [|? x0 ? l0 (E0 & _) Hl0]; subst; [by apply wp_ret|].
  destruct HQ as [Hn HQ]. apply wp_bind, wp_from_now. rewrite E0, time_less by done.
  destruct (Z.ltb_spec (due x0) (clock s.2)).
  - apply wp_ret. by rewrite Z.max_l in HQ by lia.
  - rewrite Z.max_r in HQ by lia. unfold near in Hn. rewrite time_sub, u32_id by lia.
    apply wp_bind, wp_assert; [apply Z.leb_le; unfold LWIP_MAX_TIMEOUT; lia|]. by apply wp_ret.
Qed.

(** ** Checking for expired timeouts *)

Context (call_client : Z → Z → M (tstate P W) unit).

Lemma wp_check_stop fuel T l k (s : tstate P W) (Q : unit → tstate P W → Prop) :
  holds_timers k l s.1 → match l with [] => True | x :: _ => near T (due x) ∧ T < due x end →
  Q tt s → wp (check_loop call_client (S fuel) (u32 T)) Q s.
Proof.
  intros (Hl & _) Hx HQ. simpl. wp_go.
  destruct (next_timeout s.1) as [|t ts]; inversion Hl as [|? x ? l0 (E & _) Hl0]; subst; [by apply wp_ret|].
  destruct Hx as [Hn Hlt]. rewrite E, time_less by done. rewrite (proj2 (Z.ltb_lt _ _) Hlt). by apply wp_ret.
Qed.

Lemma wp_check_next fuel T x l k (s : tstate P W) (Q : unit → tstate P W → Prop) :
  holds_timers k (x :: l) s.1 → near T (due x) → due x ≤ T →
  (∀ s1, holds_timers (S k) l s1 → current_timeout_due_time s1 = u32 (due x) →
    wp (call_handler call_client (fun_of x) (arg_of x))
      (λ _ s2, wp (check_loop call_client fuel (u32 T)) Q s2) (s1, s.2)) →
  wp (check_loop call_client (S fuel) (u32 T)) Q s.
Proof.
  intros (Hl & free & Hfree & Hk & Hnd & Hel) Hn Hle HQ. cbn [check_loop]. unfold set_list, from_pool. wp_go.
  destruct (next_timeout s.1) as [|t ts]; [by inversion Hl|].
  apply Forall2_cons in Hl as [(E & Eh & Ea) Hl]. rewrite E, time_less by done.
  rewrite (proj2 (Z.ltb_ge _ _) Hle). simpl in Hnd, Hel.
  apply NoDup_cons in Hnd as [Htn Hnd]. apply Forall_cons in Hel as [Ht Hel]. wp_go. simpl.
  eapply wp_mono; [apply (wp_pool_free _ (to_addr t) free); [done|done|]|].
  { intros Hin. apply Htn, elem_of_app. by right. }
  intros [] p' Hp'. rewrite Eh, Ea. apply wp_bind, HQ; [|done]. split; [done|]. exists (to_addr t :: free).
  split_and!; [done|simpl; by rewrite Hk| |done]. simpl. rewrite <-Permutation_middle. by apply NoDup_cons.
Qed.

Lemma interval_bounds i c : lwip_cyclic_timers !! i = Some c → 500 ≤ interval_ms c ≤ 60000.
Proof. intros Hi%list_elem_of_lookup_2. by repeat (apply elem_of_cons in Hi as [->|Hi]; [done|]); apply elem_of_nil in Hi. Qed.

(** Due times that can be compared with each other and with any time up to [M]. *)
Definition in_window (lo M : Z) : list timer → Prop := Forall (λ y, lo ≤ due y ≤ M + 60000).

Lemma renewed_window T M x y : due x ≤ M → renewed T M x y → due x ≤ due y ≤ M + 60000.
Proof.
  intros Hx (_ & _ & c & now & Hc & Hnow & ->). assert (500 ≤ interval_ms c ≤ 60000) as Hi.
  { unfold cyclic_of in Hc. destruct (fun_of x); try done. by apply interval_bounds in Hc. }
  unfold next_due. destruct (Z.ltb_spec (due x + interval_ms c) now); lia.
Qed.

(** A cyclic timer runs its handler and is started again. *)
Lemma wp_lwip_cyclic_timer x c lo M k l (s : tstate P W) (Q : unit → tstate P W → Prop) :
  cyclic_of x = Some c → holds_timers (S k) l s.1 → current_timeout_due_time s.1 = u32 (due x) →
  due x ≤ clock s.2 → clock s.2 + slowest ≤ M → M + 60000 - lo < 2147483648 → in_window lo M (x :: l) →
  (∀ y s', renewed (clock s.2) M x y → holds_timers k (schedule y l) s'.1 →
    clock s.2 ≤ clock s'.2 ≤ clock s.2 + slowest → ran s'.2 = ran s.2 ++ [handler c] → Q tt s') →
  wp (lwip_cyclic_timer_ (arg_of x)) Q s.
Proof.
  intros Hc Hs Ecur Hx HM Hwin Hl HQ. unfold lwip_cyclic_timer_.
  apply Forall_cons in Hl as [Hxw Hl].
  assert (fun_of x = cyclic_timer_handler ∧ lwip_cyclic_timers !! Z.to_nat (arg_of x) = Some c) as [Hf Hi].
  { unfold cyclic_of in Hc. by destruct (fun_of x). }
  apply wp_bind, wp_of_option with c; [done|]. apply wp_bind, wp_zoom.
  eapply wp_mono; [apply wp_run_cyclic|]. intros [] w' [Hclk Hran]. apply wp_bind, wp_from_now.
  apply wp_bind, wp_gets. pose proof (interval_bounds _ _ Hi) as Hint.
  cbn [fst snd]. rewrite Ecur, !time_add, time_less by (unfold near; lia).
  set (y := Timer (next_due (due x) (interval_ms c) (clock w')) cyclic_timer_handler (arg_of x)).
  assert (renewed (clock s.2) M x y) as Hy.
  { split_and!; [done|done|]. exists c, (clock w'). split_and!; [done|lia|lia|done]. }
  assert (∀ s', holds_timers k (schedule y l) s' → current_timeout_due_time s' = current_timeout_due_time s.1 → Q tt (s', w')) as Hend.
  { intros s' Hs' _. by apply (HQ y). }
  assert (Forall (λ z, near (due y) (due z)) l) as Hnear.
  { apply renewed_window in Hy; [|lia]. eapply Forall_impl; [exact Hl|]. intros z Hz. cbv beta in Hz. unfold near. lia. }
  unfold next_due in y. destruct (Z.ltb_spec (due x + interval_ms c) (clock w')) as [Hlt|Hge].
  - by apply (wp_sys_timeout_abs k l y (s.1, w')).
  - by apply (wp_sys_timeout_abs k l y (s.1, w')).
Qed.

Definition overdue (T : Z) : list timer → list timer := filter (λ v, due v ≤ T).
Definition later (T : Z) : list timer → list timer := filter (λ v, T < due v).
Definition handlers : list timer → list cyclic_handler := omap (λ v, handler <$> cyclic_of v).

Lemma order_split T l : in_order l → l = overdue T l ++ later T l.
Proof.
  unfold in_order, overdue, later. induction 1 as [|x l Hl IH Hx]; [done|].
  rewrite !filter_cons. destruct (decide (due x ≤ T)); destruct (decide (T < due x)); try lia.
  - simpl. by f_equal.
  - assert (filter (λ v, due v ≤ T) l = []) as E.
    { clear -Hx n. induction Hx as [|y l Hy _ IH]; [done|]. unfold earlier in Hy.
      rewrite filter_cons_False; [done|lia]. }
    rewrite E in IH |- *. simpl in *. by f_equal.
Qed.

Lemma in_order_app_r l1 l2 : in_order (l1 ++ l2) → in_order l2.
Proof. unfold in_order. induction l1; simpl; [done|]. intros Hs. inversion Hs; auto. Qed.

(** The timers [ds] are due and no other is: they run in order, and are started
    again among the others. *)
Lemma wp_run_due T b lo M ds rest k (s : tstate P W) fuel (Q : unit → tstate P W → Prop) :
  T ≤ b → M + 60000 - lo < 2147483648 → holds_timers k (ds ++ rest) s.1 →
  Forall (λ x, due x ≤ T) ds → Forall (λ x, b ≤ due x) rest → in_order rest → in_window lo M (ds ++ rest) →
  Forall (λ x, ∃ c, cyclic_of x = Some c ∧ ∀ now, T ≤ now → b ≤ next_due (due x) (interval_ms c) now) ds →
  T ≤ clock s.2 → clock s.2 + Z.of_nat (length ds) * slowest ≤ M → 0 ≤ slowest →
  (∀ rest' new s', holds_timers k rest' s'.1 → in_order rest' → Forall (λ x, b ≤ due x) rest' →
    in_window lo M rest' → rest' ≡ₚ rest ++ new → Forall2 (renewed T M) ds new →
    clock s.2 ≤ clock s'.2 ≤ clock s.2 + Z.of_nat (length ds) * slowest →
    ran s'.2 = ran s.2 ++ handlers ds → wp (check_loop call_client fuel (u32 T)) Q s') →
  wp (check_loop call_client (length ds + fuel) (u32 T)) Q s.
Proof.
  intros HTb Hwin. revert rest s Q. induction ds as [|x ds IH]; intros rest s Q Hs Hds Hrest Hord Hw Hcyc Hclk HM Hslow HQ.
  - apply (HQ rest []); try done; [by rewrite app_nil_r|simpl; lia|by rewrite app_nil_r].
  - apply Forall_cons in Hds as [Hx Hds]. apply Forall_cons in Hcyc as [(c & Hc & Hnext) Hcyc].
    cbn [length] in HM, HQ. rewrite Nat2Z.inj_succ, Z.mul_succ_l in HM, HQ.
    assert (0 ≤ Z.of_nat (length ds) * slowest) by (apply Z.mul_nonneg_nonneg; lia). pose proof Hw as Hw'. apply Forall_cons in Hw' as [Hxw Hw'].
    cbn [length plus]. apply (wp_check_next _ _ x (ds ++ rest) k); [done|unfold near; lia|done|].
    intros s1 Hs1 Ecur. assert (fun_of x = cyclic_timer_handler) as Hf by (unfold cyclic_of in Hc; by destruct (fun_of x)).
    rewrite Hf. simpl call_handler.
    apply (wp_lwip_cyclic_timer x c lo M k (ds ++ rest) (s1, s.2)); cbn [fst snd]; try done; [lia|lia|].
    intros y s' Hy Hs' Hclk' Hran. pose proof (λ Hle, renewed_window _ _ _ _ Hle Hy) as Hyw. specialize (Hyw ltac:(lia)).
    assert (renewed T M x y) as HyT.
    { destruct Hy as (Ef & Ea & c' & now & Ec & Hnow & Ed). split_and!; [done|done|]. exists c', now.
      split_and!; [done|lia|lia|done]. }
    assert (b ≤ due y) as Hby.
    { destruct HyT as (_ & _ & c' & now & Ec & Hnow & ->). rewrite Hc in Ec. injection Ec as <-. apply Hnext. lia. }
    apply Forall_app in Hw' as [Hwds Hwrest].
    apply (IH (schedule y rest)); try done.
    + rewrite <-schedule_app; [done|]. eapply Forall_impl; [exact Hds|]. simpl. lia.
    + rewrite schedule_perm. by constructor.
    + by apply schedule_in_order.
    + apply Forall_app. split; [done|]. rewrite schedule_perm. constructor; [lia|done].
    + lia.
    + lia.
    + intros rest' new s2 R1 R2 R3 R4 R5 R6 R7 R8. apply (HQ rest' (y :: new)); try done.
      * rewrite R5, schedule_perm. simpl. apply Permutation_middle.
      * by constructor.
      * lia.
      * rewrite R8, Hran, <-app_assoc. f_equal. unfold handlers. simpl. by rewrite Hc.
Qed.

Lemma slowest_nonneg (w : W) : 0 ≤ slowest.
Proof.
  destruct (wp_inv _ _ _ (wp_run_cyclic dns_tmr w)) as (_ & w' & _ & Hc & _). lia.
Qed.

Lemma later_later T l : later T (later T l) = later T l.
Proof. unfold later. rewrite list_filter_filter. apply list_filter_iff. naive_solver. Qed.

Lemma overdue_later T l : overdue T (later T l) = [].
Proof.
  unfold overdue, later. induction l as [|x l IH]; [done|]. rewrite filter_cons.
  destruct (decide (T < due x)); [|done]. rewrite filter_cons_False; [done|lia].
Qed.

Lemma Forall_overdue T l : Forall (λ x, due x ≤ T) (overdue T l).
Proof. apply Forall_forall. intros x Hx. by apply list_elem_of_filter in Hx as [? _]. Qed.
Lemma Forall_later T l : Forall (λ x, T < due x) (later T l).
Proof. apply Forall_forall. intros x Hx. by apply list_elem_of_filter in Hx as [? _]. Qed.

Lemma window_overdue lo M T l : in_window lo M l → in_window lo M (overdue T l).
Proof. intros Hl. apply Forall_forall. intros x Hx. apply list_elem_of_filter in Hx as [_ Hx]. by apply (proj1 (Forall_forall _ _) Hl). Qed.

Definition all_cyclic : list timer → Prop := Forall (λ v, is_Some (cyclic_of v)).

(** A timer that is due is next due no earlier than [T], and later than [T] if it
    was due at [T]. *)
Lemma cyclic_next T b l :
  all_cyclic l → (b = T ∨ b = T + 1 ∧ Forall (λ x, T ≤ due x) l) →
  Forall (λ x, ∃ c, cyclic_of x = Some c ∧ ∀ now, T ≤ now → b ≤ next_due (due x) (interval_ms c) now) l.
Proof.
  intros Hl Hb. apply Forall_forall. intros x Hx. pose proof (proj1 (Forall_forall _ _) Hl x Hx) as [c Hc].
  exists c. split; [done|]. intros now Hnow. assert (500 ≤ interval_ms c ≤ 60000) as Hi.
  { unfold cyclic_of in Hc. destruct (fun_of x); try done. by apply interval_bounds in Hc. }
  unfold next_due. destruct Hb as [->|[-> Hge]].
  - destruct (Z.ltb_spec (due x + interval_ms c) now); lia.
  - pose proof (proj1 (Forall_forall _ _) Hge x Hx) as HT. cbv beta in HT.
    destruct (Z.ltb_spec (due x + interval_ms c) now); lia.
Qed.

Lemma renewed_cyclic T M ds new : Forall2 (renewed T M) ds new → all_cyclic new.
Proof.
  induction 1 as [|x y ds new (Ef & Ea & c & _ & Hc & _) _ IH]; constructor; [|done].
  exists c. unfold cyclic_of in *. by rewrite Ef, Ea.
Qed.

(** One check runs every timer that is due, and a second time those of them that
    fall due again at that very instant. *)
Lemma wp_sys_check_timeouts k l lo M fuel (s : tstate P W) (Q : unit → tstate P W → Prop) :
  holds_timers k l s.1 → in_order l → all_cyclic l → in_window lo M l → M + 60000 - lo < 2147483648 →
  let T := clock s.2 in lo ≤ T →
  T + 2 * Z.of_nat (length l) * slowest ≤ M → (2 * length l < fuel)%nat →
  (∀ l' new twice again s',
    Forall2 (renewed T M) (overdue T l) new → twice ≡ₚ overdue T new → Forall2 (renewed T M) twice again →
    holds_timers k l' s'.1 → in_order l' → l' ≡ₚ later T l ++ later T new ++ again →
    Forall (λ y, T < due y) l' → in_window lo M l' → T ≤ clock s'.2 ≤ M →
    ran s'.2 = ran s.2 ++ handlers (overdue T l) ++ handlers twice → Q tt s') →
  wp (sys_check_timeouts call_client fuel) Q s.
Proof.
  intros Hs Hord Hcyc Hw Hwin T Hlo HM Hfuel HQ. unfold sys_check_timeouts. apply wp_bind, wp_from_now. fold T.
  pose proof (slowest_nonneg s.2) as Hslow.
  set (ds := overdue T l) in *. pose proof (order_split T l Hord) as El. fold ds in El.
  assert (length ds ≤ length l)%nat as Hlen by apply length_filter.
  assert (Z.of_nat (length ds) * slowest ≤ Z.of_nat (length l) * slowest) as Hcost by (apply Z.mul_le_mono_nonneg_r; lia).
  assert (in_order (later T l)) as Hlater by (apply (in_order_app_r ds); by rewrite <-El).
  replace fuel with (length ds + (fuel - length ds))%nat by lia.
  apply (wp_run_due T T lo M ds (later T l) k); try done; try lia.
  - by rewrite <-El.
  - apply Forall_overdue.
  - eapply Forall_impl; [apply Forall_later|]. simpl. lia.
  - by rewrite <-El.
  - apply cyclic_next; [|by left]. apply Forall_forall. intros x [_ Hx]%list_elem_of_filter. by apply (proj1 (Forall_forall _ _) Hcyc).
  - intros l1 new s1 Hs1 Hord1 Hge Hw1 Hperm Hnew Hclk Hran.
    pose proof (order_split T l1 Hord1) as El1. set (twice := overdue T l1) in *.
    assert (twice ≡ₚ overdue T new) as Htwice.
    { unfold twice, overdue. rewrite Hperm, filter_app. change (filter _ (later T l)) with (overdue T (later T l)).
      by rewrite overdue_later. }
    assert (later T l1 ≡ₚ later T l ++ later T new) as Hlat.
    { unfold later at 1. rewrite Hperm, filter_app. by rewrite <-(later_later T l) at 2. }
    assert (length twice ≤ length l)%nat as Hlen2.
    { rewrite Htwice. unfold overdue. etransitivity; [apply length_filter|].
      by rewrite <-(Forall2_length _ _ _ Hnew). }
    assert (Z.of_nat (length twice) * slowest ≤ Z.of_nat (length l) * slowest) by (apply Z.mul_le_mono_nonneg_r; lia).
    replace (fuel - length ds)%nat with (length twice + (fuel - length ds - length twice))%nat by lia.
    apply (wp_run_due T (T + 1) lo M twice (later T l1) k); try done; try lia.
    + by rewrite <-El1.
    + apply Forall_overdue.
    + eapply Forall_impl; [apply Forall_later|]. simpl. lia.
    + apply (in_order_app_r twice). by rewrite <-El1.
    + by rewrite <-El1.
    + apply cyclic_next.
      * unfold all_cyclic. rewrite Htwice. apply Forall_forall. intros x [_ Hx]%list_elem_of_filter.
        by apply (proj1 (Forall_forall _ _) (renewed_cyclic _ _ _ _ Hnew)).
      * right. split; [done|]. apply Forall_forall. intros x [_ Hx]%list_elem_of_filter.
        by apply (proj1 (Forall_forall _ _) Hge).
    + intros l2 again s2 Hs2 Hord2 Hge2 Hw2 Hperm2 Hagain Hclk2 Hran2.
      assert (∃ f, (fuel - length ds - length twice = S f)%nat) as [f ->] by (exists (fuel - length ds - length twice - 1)%nat; lia).
      apply (wp_check_stop f T l2 k s2); [done| |].
      * destruct l2 as [|x l2]; [done|]. apply Forall_cons in Hge2 as [Hx _]. apply Forall_cons in Hw2 as [Hxw _].
        split; [unfold near; lia|lia].
      * apply (HQ l2 new twice again); try done.
        -- by rewrite Hperm2, Hlat, <-app_assoc.
        -- eapply Forall_impl; [exact Hge2|]. simpl. lia.
        -- lia.
        -- by rewrite Hran2, Hran, <-app_assoc.
Qed.

(** ** Start-up *)

Fixpoint start_all (T : Z) (cs : list lwip_cyclic_timer) (i : Z) (l : list timer) : list timer :=
  match cs with
  | [] => l
  | c :: cs => start_all T cs (i + 1) (schedule (Timer (T + interval_ms c) cyclic_timer_handler i) l)
  end.

Lemma wp_timeouts_init_loop cs i k l (s : tstate P W) (Q : unit → tstate P W → Prop) :
  holds_timers (length cs + k) l s.1 → Forall (λ c, 500 ≤ interval_ms c ≤ 60000) cs →
  in_window (clock s.2) (clock s.2) l →
  (∀ s', holds_timers k (start_all (clock s.2) cs i l) s' → Q tt (s', s.2)) →
  wp (timeouts_init_loop cs i) Q s.
Proof.
  revert i l s. induction cs as [|c cs IH]; intros i l s Hs Hcs Hl HQ.
  - apply wp_ret. destruct s. by apply HQ.
  - apply Forall_cons in Hcs as [Hc Hcs]. cbn [timeouts_init_loop]. apply wp_bind.
    apply (wp_sys_timeout (length cs + k) l); [exact Hs|lia| |].
    + eapply Forall_impl; [exact Hl|]. intros y Hy. cbv beta in Hy. unfold near. simpl. lia.
    + intros s' Hs' _. apply (IH _ (schedule (Timer (clock s.2 + interval_ms c) cyclic_timer_handler i) l) (s', s.2)); [done|done| |].
      * unfold in_window. rewrite schedule_perm. constructor; [simpl; lia|done].
      * intros s2 Hs2. by apply HQ.
Qed.

Definition shift (T : Z) (x : timer) : timer := Timer (T + due x) (fun_of x) (arg_of x).

Lemma schedule_shift T x l : schedule (shift T x) (shift T <$> l) = shift T <$> schedule x l.
Proof.
  induction l as [|y l IH]; [done|]. cbn [fmap list_fmap schedule]. cbn [shift due] in *.
  destruct (Z.ltb_spec (due x) (due y)), (Z.ltb_spec (T + due x) (T + due y)); try lia; [done|].
  cbn [fmap list_fmap]. by f_equal.
Qed.

Lemma start_all_shift T cs i l : start_all T cs i (shift T <$> l) = shift T <$> start_all 0 cs i l.
Proof.
  revert i l. induction cs as [|c cs IH]; intros i l; [done|]. cbn [start_all].
  by rewrite <-IH, <-schedule_shift.
Qed.

(** What [sys_timeouts_init] schedules at time [T]. *)
Definition initial_timers (T : Z) : list timer :=
  [Timer (T + 500) cyclic_timer_handler 3; Timer (T + 1000) cyclic_timer_handler 0;
   Timer (T + 1000) cyclic_timer_handler 1; Timer (T + 1000) cyclic_timer_handler 4;
   Timer (T + 60000) cyclic_timer_handler 2].

Lemma wp_sys_timeouts_init k (s : tstate P W) :
  holds_timers (5 + k) [] s.1 →
  wp sys_timeouts_init (λ _ s', s'.2 = s.2 ∧ holds_timers k (initial_timers (clock s.2)) s'.1) s.
Proof.
  intros Hs. apply (wp_timeouts_init_loop lwip_cyclic_timers 0 k []); [done| |constructor|].
  - by repeat constructor.
  - intros s' Hs'. split; [done|]. cbn [fst].
    enough (initial_timers (clock s.2) = start_all (clock s.2) lwip_cyclic_timers 0 []) as -> by done.
    by rewrite (start_all_shift (clock s.2) _ _ []).
Qed.

(** ** Calls *)

Inductive tcall := CTimeout (msecs : Z) (h : sys_timeout_handler) (arg : Z) | CUntimeout (h : sys_timeout_handler) (arg : Z) | CRestart.

Definition do_call (c : tcall) : M (tstate P W) unit :=
  match c with
  | CTimeout msecs h arg => sys_timeout msecs h arg
  | CUntimeout h arg => sys_untimeout h arg
  | CRestart => sys_restart_timeouts
  end.

Definition spec_call (T : Z) (c : tcall) (l : list timer) : list timer :=
  match c with
  | CTimeout msecs h arg => schedule (Timer (T + msecs) h arg) l
  | CUntimeout h arg => cancel h arg l
  | CRestart => rebase T l
  end.

(** Calls at the states of the stack given. *)
Fixpoint calls_run (cs : list (W * tcall)) : M (tstate P W) unit :=
  match cs with
  | [] => mret tt
  | (w, c) :: cs => modify (λ s : tstate P W, (s.1, w));; do_call c;; calls_run cs
  end.

Fixpoint spec_run (cs : list (W * tcall)) (l : list timer) : list timer :=
  match cs with
  | [] => l
  | (w, c) :: cs => spec_run cs (spec_call (clock w) c l)
  end.

(** A timeout is at most 2^30 - 1 ms away, less than 2^31 ms from every other
    one, and one of [n] elements is free for it. *)
Fixpoint calls_ok (n : nat) (cs : list (W * tcall)) (l : list timer) : Prop :=
  match cs with
  | [] => True
  | (w, c) :: cs =>
      match c with
      | CTimeout msecs _ _ => 0 ≤ msecs ≤ 0x3fffffff ∧ Forall (λ y, near (clock w + msecs) (due y)) l ∧ (length l < n)%nat
      | _ => True
      end ∧ calls_ok n cs (spec_call (clock w) c l)
  end.

Lemma cancel_length h arg l : (length (cancel h arg l) ≤ length l)%nat.
Proof. induction l as [|y l IH]; simpl; [lia|]. destruct (_ && _); simpl; lia. Qed.

Lemma cancel_forall (R : timer → Prop) h arg l : Forall R l → Forall R (cancel h arg l).
Proof. induction 1 as [|y l Hy Hl IH]; simpl; [constructor|]. destruct (_ && _); [done|by constructor]. Qed.

Lemma spec_call_in_order T c l : in_order l → in_order (spec_call T c l).
Proof.
  intros Hl. destruct c as [ms h arg|h arg|]; simpl; [by apply schedule_in_order| |].
  - unfold in_order in *. induction Hl as [|y l Hl IH Hy]; simpl; [constructor|].
    destruct (_ && _); [done|]. constructor; [done|]. by apply cancel_forall.
  - destruct l as [|y l]; [done|]. unfold rebase. revert Hl. generalize (y :: l) as l'. intros l' Hl'.
    unfold in_order in *. induction Hl' as [|z l' Hl' IH Hz]; simpl; [constructor|]. constructor; [done|].
    apply Forall_fmap. eapply Forall_impl; [exact Hz|]. intros x. unfold earlier. simpl. lia.
Qed.

Lemma wp_do_call c k l n (s : tstate P W) (Q : unit → tstate P W → Prop) :
  holds_timers k l s.1 → (k + length l = n)%nat → calls_ok n [(s.2, c)] l →
  (∀ s', holds_timers (n - length (spec_call (clock s.2) c l)) (spec_call (clock s.2) c l) s' →
    (length (spec_call (clock s.2) c l) ≤ n)%nat → Q tt (s', s.2)) →
  wp (do_call c) Q s.
Proof.
  intros Hs Hn [Hc _] HQ. destruct c as [ms h arg|h arg|]; simpl in *.
  - destruct Hc as (Hms & Hnear & Hlen). rewrite schedule_length in HQ.
    apply (wp_sys_timeout (k - 1) l); [by replace (S (k - 1)) with k by lia|done|done|].
    intros s' Hs' _. apply HQ; [|lia]. by replace (n - S (length l))%nat with (k - 1)%nat by lia.
  - apply (wp_sys_untimeout k l); [done|]. intros s' Hs' _. pose proof (cancel_length h arg l).
    apply HQ; [|lia]. by replace (n - length (cancel h arg l))%nat with (k + (length l - length (cancel h arg l)))%nat by lia.
  - apply (wp_sys_restart_timeouts k l); [done|]. intros s' Hs' _.
    assert (length (rebase (clock s.2) l) = length l) as El.
    { unfold rebase. destruct l; [done|]. by rewrite length_fmap. }
    rewrite El in HQ. apply HQ; [|lia]. by replace (n - length l)%nat with k by lia.
Qed.
End timeouts_spec.

Arguments calls_ok {W} {_ _} n cs l.
Arguments spec_run {W} {_ _} cs l.

(** ** Properties *)

Section properties.
Context {P W : Type} `{PoolLaws P, TimeoutEnvLaws W}.
Context (call_client : Z → Z → M (tstate P W) unit).

(** C38: the list with its 32-bit times implements the list of timers sorted by
    due times that never wrap around: [sys_timeout] puts a timer behind all that
    are due no later, [sys_untimeout] takes out the first that matches,
    [sys_restart_timeouts] moves all of them alike, none of them fails, and every
    pool element is in use or free again. *)
Theorem timeouts_refine n cs k l (s : tstate P W) :
  holds_timers k l s.1 → (k + length l = n)%nat → calls_ok n cs l →
  wp (calls_run cs) (λ _ s',
    holds_timers (n - length (spec_run cs l)) (spec_run cs l) s'.1 ∧
    (length (spec_run cs l) ≤ n)%nat ∧ (in_order l → in_order (spec_run cs l))) s.
Proof.
  revert k l s. induction cs as [|[w c] cs IH]; intros k l s Hs Hn Hok.
  - apply wp_ret. simpl. split_and!; [by replace (n - length l)%nat with k by lia|lia|done].
  - destruct Hok as [Hc Hok]. cbn [calls_run]. wp_go. cbn [fst snd].
    apply (wp_do_call c k l n (s.1, w)); [done|done|by split|]. intros s' Hs' Hlen. cbn [snd] in *.
    eapply wp_mono; [apply (IH (n - length (spec_call (clock w) c l))%nat _ (s', w) Hs'); [lia|done]|].
    intros [] s2 (R1 & R2 & R3). split_and!; [done|done|]. intros Hord. by apply R3, spec_call_in_order.
Qed.

(** C39: one [sys_check_timeouts] returns, within twice as many iterations as there
    are timers, with every cyclic timer that was due run once, in the order of
    their due times, and once more those that fall due again at the very instant
    the check began; no other runs.  Those that ran are started again, one
    interval after they were due, or after now when that has passed already; and
    no timer is left that was due. *)
Theorem check_timeouts_cyclic k l lo M (s : tstate P W) :
  let T := clock s.2 in
  holds_timers k l s.1 → in_order l → all_cyclic l → in_window lo M l →
  lo ≤ T → M + 60000 - lo < 2147483648 → T + 2 * Z.of_nat (length l) * slowest ≤ M →
  wp (sys_check_timeouts call_client (S (2 * length l))) (λ _ s', ∃ l' new twice again,
    holds_timers k l' s'.1 ∧ in_order l' ∧ Forall (λ y, T < due y) l' ∧
    l' ≡ₚ later T l ++ later T new ++ again ∧
    Forall2 (renewed T M) (overdue T l) new ∧ twice ≡ₚ overdue T new ∧ Forall2 (renewed T M) twice again ∧
    ran s'.2 = ran s.2 ++ handlers (overdue T l) ++ handlers twice ∧ T ≤ clock s'.2 ≤ M) s.
Proof.
  intros T Hs Hord Hcyc Hw Hlo Hwin HM. apply (wp_sys_check_timeouts call_client k l lo M); try done; [lia|].
  intros l' new twice again s' R1 R2 R3 R4 R5 R6 R7 R8 R9 R10. by exists l', new, twice, again.
Qed.

(** [sys_timeouts_sleeptime] is how long nothing will happen: a check before
    that time has passed does nothing at all; and it is exact, 0 when the first
    timer is due or overdue and else the milliseconds to it. *)
Theorem sleeptime_exact k l (s : tstate P W) :
  holds_timers k l s.1 → Forall (λ x, near (due x) (clock s.2)) l →
  wp sys_timeouts_sleeptime (λ r s', s' = s ∧
    r = match l with [] => SYS_TIMEOUTS_SLEEPTIME_INFINITE | x :: _ => Z.max 0 (due x - clock s.2) end ∧
    ∀ w, clock s.2 ≤ clock w → clock w < clock s.2 + r →
      wp (sys_check_timeouts call_client 1) (λ _ s', s' = (s.1, w)) (s.1, w)) s.
Proof.
  intros Hs Hn. apply (wp_sys_timeouts_sleeptime k l); [done|]. destruct l as [|x l].
  - split_and!; [done|done|]. intros w _ _. apply wp_bind, wp_from_now. by apply (wp_check_stop call_client 0 (clock w) [] k).
  - apply Forall_cons in Hn as [Hx _]. split; [done|]. split_and!; [done|done|]. intros w Hle Hlt.
    apply wp_bind, wp_from_now. apply (wp_check_stop call_client 0 (clock w) (x :: l) k); [done| |done].
    cbn [snd]. unfold near in *. lia.
Qed.
End properties.

(** ** A concrete system *)

(** A clock, and handlers that take 3 ms and are recorded. *)
Definition demo_env : Type := Z * list cyclic_handler.

#[export] Instance demo_timeout_env : TimeoutEnv demo_env := {
  sys_now := gets (λ w : demo_env, u32 w.1);
  run_cyclic c := modify (λ w : demo_env, (w.1 + 3, w.2 ++ [c]))
}.

#[export] Instance demo_timeout_env_laws : TimeoutEnvLaws demo_env.
Proof.
  refine {| clock := λ w, w.1; ran := λ w, w.2; slowest := 3 |}.
  all: intros; repeat wp_step; repeat split; try done; cbn [fst]; lia.
Defined.

Definition demo_desc : memp_desc := memp_SYS_TIMEOUT 0x20001000.

#[export] Instance demo_desc_ok : DescOk demo_desc.
Proof. by split. Qed.

#[local] Instance demo_pool : Pool memp := memp_pool demo_desc.
#[local] Instance demo_pool_laws : PoolLaws memp := memp_pool_laws demo_desc.

(** The pool after [memp_init], and the timeouts after [sys_timeouts_init] at time
    [T]. *)
Definition demo_start : timeouts memp := Timeouts [] 0 (memp_init_pool demo_desc (MempState 0 ∅)).2.
Definition demo_timeouts (T : Z) : timeouts memp := (sys_timeouts_init (demo_start, (T, []))).2.1.
Definition demo_clients (f arg : Z) : M (tstate memp demo_env) unit := mret tt.

Lemma demo_start_holds : holds_timers 8 [] demo_start.
Proof.
  split; [done|]. destruct (wp_inv _ _ _ (wp_memp_init_pool demo_desc (MempState 0 ∅))) as (u & s & E & Hs).
  exists (reverse (elements demo_desc)). unfold demo_start. cbn [pool next_timeout]. rewrite E.
  split_and!; [done|done| |constructor]. cbn [fmap list_fmap app]. rewrite reverse_Permutation. by apply elements_nodup.
Qed.

Lemma demo_timeouts_holds T : holds_timers 3 (initial_timers T) (demo_timeouts T).
Proof.
  destruct (wp_inv _ _ _ (wp_sys_timeouts_init 3 (demo_start, (T, [])) demo_start_holds)) as (u & s & E & _ & Hs).
  unfold demo_timeouts. by rewrite E.
Qed.

(** Shortly before the 32-bit time wraps around. *)
Definition late : Z := 4294967000.

Lemma timeouts_refine_witness :
  let cs := [((late, []), CTimeout 5 (client_handler 9) 1); ((late + 2, []), CUntimeout cyclic_timer_handler 1);
    ((late + 4, []), CRestart)] in
  spec_run cs (initial_timers late) =
    [Timer (late + 4) (client_handler 9) 1; Timer (late + 499) cyclic_timer_handler 3;
     Timer (late + 999) cyclic_timer_handler 0; Timer (late + 999) cyclic_timer_handler 4;
     Timer (late + 59999) cyclic_timer_handler 2] ∧
  wp (calls_run cs) (λ _ s',
    holds_timers (8 - length (spec_run cs (initial_timers late))) (spec_run cs (initial_timers late)) s'.1 ∧
    (length (spec_run cs (initial_timers late)) ≤ 8)%nat ∧
    (in_order (initial_timers late) → in_order (spec_run cs (initial_timers late)))) (demo_timeouts late, (late, [])).
Proof.
  intros cs. split; [by vm_compute|]. apply (timeouts_refine 8 cs 3); [apply demo_timeouts_holds|done|].
  split; [|by split; [|split]]. split; [done|]. split; [|simpl; lia]. by repeat constructor.
Defined.

Lemma check_timeouts_cyclic_witness :
  let s := (demo_timeouts late, (late + 997, [])) in
  (sys_check_timeouts demo_clients 11 s).2.2 = (late + 1000, [dhcp_fine_tmr]) ∧
  wp (sys_check_timeouts demo_clients 11) (λ _ s', ∃ l' new twice again,
    holds_timers 3 l' s'.1 ∧ in_order l' ∧ Forall (λ y, late + 997 < due y) l' ∧
    l' ≡ₚ later (late + 997) (initial_timers late) ++ later (late + 997) new ++ again ∧
    Forall2 (renewed (late + 997) (late + 2000)) (overdue (late + 997) (initial_timers late)) new ∧
    twice ≡ₚ overdue (late + 997) new ∧ Forall2 (renewed (late + 997) (late + 2000)) twice again ∧
    ran s'.2 = [] ++ handlers (overdue (late + 997) (initial_timers late)) ++ handlers twice ∧
    late + 997 ≤ clock s'.2 ≤ late + 2000) s.
Proof.
  split; [by vm_compute|]. generalize (demo_timeouts_holds late). generalize (demo_timeouts late). intros st Hst.
  pose proof (check_timeouts_cyclic demo_clients 3 (initial_timers late) late (late + 2000) (st, (late + 997, [])) Hst) as Hw.
  change (clock (st, (late + 997, [] : list cyclic_handler)).2) with (late + 997) in Hw. apply Hw; clear Hw.
  - unfold in_order, earlier. repeat constructor; simpl; lia.
  - by repeat (constructor; [by eexists|]).
  - by repeat (constructor; [by vm_compute|]).
  - by vm_compute.
  - by vm_compute.
  - by vm_compute.
Defined.

Lemma sleeptime_exact_witness :
  let s : tstate memp demo_env := (demo_timeouts late, (late + 1, [])) in
  wp sys_timeouts_sleeptime (λ r s', s' = s ∧ r = 499 ∧
    ∀ w, late + 1 ≤ clock w → clock w < late + 1 + r →
      wp (sys_check_timeouts demo_clients 1) (λ _ s', s' = (s.1, w)) (s.1, w)) s.
Proof.
  generalize (demo_timeouts_holds late). generalize (demo_timeouts late). intros st Hst.
  eapply wp_mono; [apply (sleeptime_exact demo_clients 3 (initial_timers late) (st, (late + 1, [])) Hst)|].
  - by repeat (constructor; [by vm_compute|]).
  - intros r s' (-> & -> & Hcheck). split_and!; [done|by vm_compute|]. exact Hcheck.
Defined.
