(* ===== verification/PbufMem.v ===== *)
(** Packet buffers in memory, [lwip/src/core/pbuf.c] and [lwip/pbuf.h]: the
    [struct pbuf]s as a store of linked structures with reference counts, and the
    functions that allocate, free, reference, join, split and shrink chains of
    them and move their payload pointers.  The contents of the payloads are the
    subject of [Pbuf]; the memory comes from two pools ([Memp]) and from the heap
    of lwIP, which is an interface here. *)
From stdpp Require Import base tactics numbers list gmap.
From S2P Require Import Prelude Words Memp.

(** [mem_malloc], [mem_free] and [mem_trim]. *)
Class Heap (H : Type) := {
  mem_malloc : Z → M H Z;
  mem_free : Z → M H unit;
  mem_trim : Z → Z → M H Z;
  (** The addresses the heap can hand out, the blocks that are in use, how many
      bytes there are in a block, and whether it can be trimmed. *)
  heap_addr : Z → Prop;
  heap_holds : H → list Z → Prop;
  heap_room : H → Z → Z;
  heap_trims : H → Z → Prop
}.

Class HeapLaws (H : Type) `{Heap H} := {
  heap_holds_perm h l l' : l ≡ₚ l' → heap_holds h l → heap_holds h l';
  heap_addr_ok x : heap_addr x → x ≠ NULL ∧ x mod MEM_ALIGNMENT = 0;
  heap_room_small h l x : heap_holds h l → x ∈ l → heap_room h x < 65536;
  heap_apart h l x y :
    heap_holds h l → x ∈ l → y ∈ l → x ≠ y → x + heap_room h x ≤ y ∨ y + heap_room h y ≤ x;
  wp_mem_malloc h l n :
    heap_holds h l → 0 ≤ n < 65536 →
    wp (mem_malloc n) (λ a h', (∀ x, x ∈ l → heap_room h' x = heap_room h x) ∧
      (a = NULL ∧ heap_holds h' l ∨
       heap_addr a ∧ a ∉ l ∧ n ≤ heap_room h' a ∧ heap_holds h' (a :: l))) h;
  wp_mem_free h l x :
    heap_holds h (x :: l) →
    wp (mem_free x) (λ _ h', heap_holds h' l ∧ ∀ y, y ∈ l → heap_room h' y = heap_room h y) h;
  wp_mem_trim h l x n :
    heap_holds h (x :: l) → heap_trims h x → 0 ≤ n ≤ heap_room h x →
    wp (mem_trim x n) (λ a h', a = x ∧ n ≤ heap_room h' x ∧ heap_holds h' (x :: l) ∧
      ∀ y, y ∈ l → heap_room h' y = heap_room h y) h
}.

(** ** Constants *)

Definition PBUF_TYPE_FLAG_STRUCT_DATA_CONTIGUOUS : Z := 0x80.
Definition PBUF_TYPE_FLAG_DATA_VOLATILE : Z := 0x40.
Definition PBUF_TYPE_ALLOC_SRC_MASK : Z := 0x0F.
Definition PBUF_ALLOC_FLAG_RX : Z := 0x0100.
Definition PBUF_ALLOC_FLAG_DATA_CONTIGUOUS : Z := 0x0200.
Definition PBUF_TYPE_ALLOC_SRC_MASK_STD_HEAP : Z := 0x00.
Definition PBUF_TYPE_ALLOC_SRC_MASK_STD_MEMP_PBUF : Z := 0x01.
Definition PBUF_TYPE_ALLOC_SRC_MASK_STD_MEMP_PBUF_POOL : Z := 0x02.
Definition PBUF_FLAG_IS_CUSTOM : Z := 0x02.

Inductive pbuf_type := PBUF_RAM | PBUF_ROM | PBUF_REF | PBUF_POOL.

#[export] Instance pbuf_type_eq_dec : EqDecision pbuf_type.
Proof. solve_decision. Defined.

Definition pbuf_type_value (t : pbuf_type) : Z :=
  match t with
  | PBUF_RAM => Z.lor (Z.lor PBUF_ALLOC_FLAG_DATA_CONTIGUOUS PBUF_TYPE_FLAG_STRUCT_DATA_CONTIGUOUS) PBUF_TYPE_ALLOC_SRC_MASK_STD_HEAP
  | PBUF_ROM => PBUF_TYPE_ALLOC_SRC_MASK_STD_MEMP_PBUF
  | PBUF_REF => Z.lor PBUF_TYPE_FLAG_DATA_VOLATILE PBUF_TYPE_ALLOC_SRC_MASK_STD_MEMP_PBUF
  | PBUF_POOL => Z.lor (Z.lor PBUF_ALLOC_FLAG_RX PBUF_TYPE_FLAG_STRUCT_DATA_CONTIGUOUS) PBUF_TYPE_ALLOC_SRC_MASK_STD_MEMP_PBUF_POOL
  end.

(** Header room by layer, for Ethernet and IPv4. *)
Definition PBUF_LINK_HLEN : Z := 14.
Definition PBUF_IP_HLEN : Z := 20.
Definition PBUF_TRANSPORT_HLEN : Z := 20.

Inductive pbuf_layer := PBUF_TRANSPORT | PBUF_IP | PBUF_LINK | PBUF_RAW_TX | PBUF_RAW.

Definition layer_offset (l : pbuf_layer) : Z :=
  match l with
  | PBUF_TRANSPORT => PBUF_LINK_HLEN + PBUF_IP_HLEN + PBUF_TRANSPORT_HLEN
  | PBUF_IP => PBUF_LINK_HLEN + PBUF_IP_HLEN
  | PBUF_LINK => PBUF_LINK_HLEN
  | PBUF_RAW_TX => 0
  | PBUF_RAW => 0
  end.

Definition PBUF_POOL_BUFSIZE : Z := 1536.
Definition PBUF_POOL_BUFSIZE_ALIGNED : Z := LWIP_MEM_ALIGN_SIZE PBUF_POOL_BUFSIZE.
(** [next] 4, [payload] 4, [tot_len] 2, [len] 2, four bytes. *)
Definition SIZEOF_STRUCT_PBUF : Z := LWIP_MEM_ALIGN_SIZE 16.

(** ** The structures *)

Record pbuf_s := PbufS {
  b_next : Z;
  b_payload : Z;
  b_tot_len : Z;
  b_len : Z;
  b_type : Z;
  b_flags : Z;
  b_ref : Z;
  b_if_idx : Z
}.

Definition set_next (n : Z) (b : pbuf_s) : pbuf_s :=
  PbufS n (b_payload b) (b_tot_len b) (b_len b) (b_type b) (b_flags b) (b_ref b) (b_if_idx b).
Definition set_lens (tot len : Z) (b : pbuf_s) : pbuf_s :=
  PbufS (b_next b) (b_payload b) tot len (b_type b) (b_flags b) (b_ref b) (b_if_idx b).
Definition set_payload (p : Z) (b : pbuf_s) : pbuf_s :=
  PbufS (b_next b) p (b_tot_len b) (b_len b) (b_type b) (b_flags b) (b_ref b) (b_if_idx b).
Definition set_ref (r : Z) (b : pbuf_s) : pbuf_s :=
  PbufS (b_next b) (b_payload b) (b_tot_len b) (b_len b) (b_type b) (b_flags b) r (b_if_idx b).

Definition pbuf_get_allocsrc (b : pbuf_s) : Z := Z.land (b_type b) PBUF_TYPE_ALLOC_SRC_MASK.
Definition pbuf_match_allocsrc (b : pbuf_s) (type : Z) : bool :=
  pbuf_get_allocsrc b =? Z.land type PBUF_TYPE_ALLOC_SRC_MASK.

Notation bufs := (gmap Z pbuf_s).

Section code.
Context {PP PR H : Type} `{Pool PP, Pool PR, Heap H}.

(** The allocated structures, the pools MEMP_PBUF_POOL and MEMP_PBUF, the heap. *)
Record pmem := PMem { store : bufs; pool_pool : PP; ref_pool : PR; heap : H }.

(** [pc->custom_free_function(p)]. *)
Context (custom_free : Z → M pmem unit).

Definition with_pool_pool {A} (m : M PP A) : M pmem A :=
  zoom pool_pool (λ p s, PMem (store s) p (ref_pool s) (heap s)) m.
Definition with_ref_pool {A} (m : M PR A) : M pmem A :=
  zoom ref_pool (λ p s, PMem (store s) (pool_pool s) p (heap s)) m.
Definition with_heap {A} (m : M H A) : M pmem A :=
  zoom heap (λ h s, PMem (store s) (pool_pool s) (ref_pool s) h) m.
Definition mod_store (f : bufs → bufs) : M pmem unit :=
  modify (λ s, PMem (f (store s)) (pool_pool s) (ref_pool s) (heap s)).

Definition rd (p : Z) : M pmem pbuf_s := gets (λ s, store s !! p) ≫= of_option.
Definition wr (p : Z) (f : pbuf_s → pbuf_s) : M pmem unit := b ← rd p; mod_store <[p := f b]>.

Definition pbuf_init_alloced_pbuf (p payload tot_len len type flags : Z) : M pmem unit :=
  mod_store <[p := PbufS NULL payload tot_len len (u8 type) flags 1 0]>.

Definition pbuf_alloc_reference (payload length : Z) (type : pbuf_type) : M pmem Z :=
  assert_that (bool_decide (type = PBUF_REF ∨ type = PBUF_ROM));;
  p ← with_ref_pool pool_malloc;
  if p =? NULL then mret NULL
  else pbuf_init_alloced_pbuf p payload length length (pbuf_type_value type) 0;; mret p.

(** Nobody refers to [p] any more. *)
Definition dealloc (p : Z) (b : pbuf_s) : M pmem unit :=
  let alloc_src := pbuf_get_allocsrc b in
  if negb (Z.land (b_flags b) PBUF_FLAG_IS_CUSTOM =? 0) then custom_free p
  else if alloc_src =? PBUF_TYPE_ALLOC_SRC_MASK_STD_MEMP_PBUF_POOL then
    mod_store (delete p);; with_pool_pool (pool_free p)
  else if alloc_src =? PBUF_TYPE_ALLOC_SRC_MASK_STD_MEMP_PBUF then
    mod_store (delete p);; with_ref_pool (pool_free p)
  else if alloc_src =? PBUF_TYPE_ALLOC_SRC_MASK_STD_HEAP then
    mod_store (delete p);; with_heap (mem_free p)
  else fail AssertFailed.

(** The body of the loop of [pbuf_free]; [n] is the fuel. *)
Fixpoint free_loop (n : nat) (p count : Z) : M pmem Z :=
  match n with
  | O => fail OutOfFuel
  | S n =>
      if p =? NULL then mret count
      else
        b ← rd p;
        assert_that (0 <? b_ref b);;
        let ref := u8 (b_ref b - 1) in
        wr p (set_ref ref);;
        if ref =? 0 then
          let q := b_next b in
          dealloc p b;;
          free_loop n q (u8 (count + 1))
        else free_loop n NULL count
  end.

Definition pbuf_free (p : Z) : M pmem Z :=
  assert_that (negb (p =? NULL));;
  n ← gets (λ s, size (store s));
  free_loop (S (S n)) p 0.

(** The loop of [pbuf_alloc] for PBUF_POOL. *)
Fixpoint alloc_pool_loop (n : nat) (p last rem_len offset : Z) : M pmem Z :=
  match n with
  | O => fail OutOfFuel
  | S n =>
      q ← with_pool_pool pool_malloc;
      if q =? NULL then
        when_ (negb (p =? NULL)) (pbuf_free p;; mret tt);;
        mret NULL
      else
        let qlen := Z.min rem_len (u16 (PBUF_POOL_BUFSIZE_ALIGNED - LWIP_MEM_ALIGN_SIZE offset)) in
        let payload := LWIP_MEM_ALIGN (q + SIZEOF_STRUCT_PBUF + offset) in
        pbuf_init_alloced_pbuf q payload rem_len qlen (pbuf_type_value PBUF_POOL) 0;;
        assert_that (payload mod MEM_ALIGNMENT =? 0);;
        assert_that (0 <? PBUF_POOL_BUFSIZE_ALIGNED - LWIP_MEM_ALIGN_SIZE offset);;
        (if p =? NULL then mret tt else wr last (set_next q));;
        let p := if p =? NULL then q else p in
        let rem_len := u16 (rem_len - qlen) in
        if 0 <? rem_len then alloc_pool_loop n p q rem_len 0 else mret p
  end.

(** The size of the block for PBUF_RAM, in 16-bit arithmetic. *)
Definition ram_alloc_len (layer : pbuf_layer) (length : Z) : option Z :=
  let offset := u16 (layer_offset layer) in
  let payload_len := u16 (LWIP_MEM_ALIGN_SIZE offset + LWIP_MEM_ALIGN_SIZE length) in
  let alloc_len := u16 (LWIP_MEM_ALIGN_SIZE SIZEOF_STRUCT_PBUF + payload_len) in
  if (payload_len <? LWIP_MEM_ALIGN_SIZE length) || (alloc_len <? LWIP_MEM_ALIGN_SIZE length) then None
  else Some alloc_len.

Definition pbuf_alloc (layer : pbuf_layer) (length : Z) (type : pbuf_type) : M pmem Z :=
  let offset := u16 (layer_offset layer) in
  match type with
  | PBUF_REF | PBUF_ROM => pbuf_alloc_reference NULL length type
  | PBUF_POOL => alloc_pool_loop (S (Z.to_nat length)) NULL NULL length offset
  | PBUF_RAM =>
      match ram_alloc_len layer length with
      | None => mret NULL
      | Some alloc_len =>
          p ← with_heap (mem_malloc alloc_len);
          if p =? NULL then mret NULL
          else
            let payload := LWIP_MEM_ALIGN (p + SIZEOF_STRUCT_PBUF + offset) in
            pbuf_init_alloced_pbuf p payload length length (pbuf_type_value type) 0;;
            assert_that (payload mod MEM_ALIGNMENT =? 0);;
            mret p
      end
  end.

Definition add_tot (k : Z) (b : pbuf_s) : pbuf_s := set_lens (u16 (b_tot_len b + k)) (b_len b) b.

(** The [for] loop of [pbuf_cat], which ends at the last pbuf. *)
Fixpoint to_last (n : nat) (t p : Z) : M pmem Z :=
  match n with
  | O => fail OutOfFuel
  | S n =>
      b ← rd p;
      if b_next b =? NULL then mret p
      else
        tb ← rd t;
        wr p (add_tot (b_tot_len tb));;
        to_last n t (b_next b)
  end.

Fixpoint clen_loop (n : nat) (p len : Z) : M pmem Z :=
  match n with
  | O => fail OutOfFuel
  | S n => if p =? NULL then mret len else b ← rd p; clen_loop n (b_next b) (u16 (len + 1))
  end.

Definition pbuf_clen (p : Z) : M pmem Z :=
  n ← gets (λ s, size (store s)); clen_loop (S n) p 0.

Definition pbuf_ref (p : Z) : M pmem unit :=
  if p =? NULL then mret tt
  else
    wr p (λ b, set_ref (u8 (b_ref b + 1)) b);;
    b ← rd p; assert_that (0 <? b_ref b).

Definition pbuf_cat (h t : Z) : M pmem unit :=
  if (h =? NULL) || (t =? NULL) then mret tt
  else
    assert_that (negb (h =? t));;
    n ← gets (λ s, size (store s));
    p ← to_last (S n) t h;
    b ← rd p;
    assert_that (b_tot_len b =? b_len b);;
    tb ← rd t;
    wr p (λ b, set_next t (add_tot (b_tot_len tb) b)).

Definition pbuf_chain (h t : Z) : M pmem unit := pbuf_cat h t;; pbuf_ref t.

Definition pbuf_dechain (p : Z) : M pmem Z :=
  b ← rd p;
  let q := b_next b in
  tail_gone ← (if negb (q =? NULL) then
      qb ← rd q;
      assert_that (b_tot_len qb =? b_tot_len b - b_len b);;
      wr q (set_lens (u16 (b_tot_len b - b_len b)) (b_len qb));;
      wr p (λ b, set_next NULL (set_lens (b_len b) (b_len b) b));;
      pbuf_free q
    else mret 1);
  b ← rd p;
  assert_that (b_tot_len b =? b_len b);;
  mret (if 0 <? tail_gone then NULL else q).

(** The loop of [pbuf_realloc]: the last pbuf that stays and its new length. *)
Fixpoint shrink_loop (n : nat) (shrink q rem_len : Z) : M pmem (Z * Z) :=
  match n with
  | O => fail OutOfFuel
  | S n =>
      b ← rd q;
      if b_len b <? rem_len then
        wr q (λ b, set_lens (u16 (b_tot_len b - shrink)) (b_len b) b);;
        assert_that (negb (b_next b =? NULL));;
        shrink_loop n shrink (b_next b) (u16 (rem_len - b_len b))
      else mret (q, rem_len)
  end.

Definition pbuf_realloc (p new_len : Z) : M pmem unit :=
  assert_that (negb (p =? NULL));;
  pb ← rd p;
  if b_tot_len pb <=? new_len then mret tt
  else
    let shrink := u16 (b_tot_len pb - new_len) in
    n ← gets (λ s, size (store s));
    '(q, rem_len) ← shrink_loop (S n) shrink p new_len;
    b ← rd q;
    when_ (pbuf_match_allocsrc b PBUF_TYPE_ALLOC_SRC_MASK_STD_HEAP && negb (rem_len =? b_len b) &&
           (Z.land (b_flags b) PBUF_FLAG_IS_CUSTOM =? 0))
      (r ← with_heap (mem_trim q (u16 (b_payload b - q + rem_len)));
       assert_that (negb (r =? NULL));;
       assert_that (r =? q));;
    wr q (set_lens rem_len rem_len);;
    when_ (negb (b_next b =? NULL)) (pbuf_free (b_next b);; mret tt);;
    wr q (set_next NULL).

Definition pbuf_add_header_impl (p header_size_increment : Z) (force : bool) : M pmem Z :=
  assert_that (negb (p =? NULL));;
  if 0xFFFF <? header_size_increment then mret 1
  else if header_size_increment =? 0 then mret 0
  else
    b ← rd p;
    let increment_magnitude := u16 header_size_increment in
    if u16 (increment_magnitude + b_tot_len b) <? increment_magnitude then mret 1
    else
      let payload := b_payload b - header_size_increment in
      if negb (Z.land (b_type b) PBUF_TYPE_FLAG_STRUCT_DATA_CONTIGUOUS =? 0) then
        if payload <? p + SIZEOF_STRUCT_PBUF then mret 1
        else
          wr p (λ b, set_payload payload (set_lens (u16 (b_tot_len b + increment_magnitude)) (u16 (b_len b + increment_magnitude)) b));;
          mret 0
      else if force then
        wr p (λ b, set_payload payload (set_lens (u16 (b_tot_len b + increment_magnitude)) (u16 (b_len b + increment_magnitude)) b));;
        mret 0
      else mret 1.

Definition pbuf_add_header (p header_size_increment : Z) : M pmem Z := pbuf_add_header_impl p header_size_increment false.
Definition pbuf_add_header_force (p header_size_increment : Z) : M pmem Z := pbuf_add_header_impl p header_size_increment true.

Definition pbuf_remove_header (p header_size_decrement : Z) : M pmem Z :=
  assert_that (negb (p =? NULL));;
  if 0xFFFF <? header_size_decrement then mret 1
  else if header_size_decrement =? 0 then mret 0
  else
    b ← rd p;
    let increment_magnitude := u16 header_size_decrement in
    if negb (increment_magnitude <=? b_len b) then mret 1
    else
      wr p (λ b, set_payload (b_payload b + header_size_decrement)
        (set_lens (u16 (b_tot_len b - increment_magnitude)) (u16 (b_len b - increment_magnitude)) b));;
      mret 0.

Definition pbuf_header_impl (p header_size_increment : Z) (force : bool) : M pmem Z :=
  if header_size_increment <? 0 then pbuf_remove_header p (- header_size_increment)
  else pbuf_add_header_impl p header_size_increment force.
Definition pbuf_header (p header_size_increment : Z) : M pmem Z := pbuf_header_impl p header_size_increment false.
Definition pbuf_header_force (p header_size_increment : Z) : M pmem Z := pbuf_header_impl p header_size_increment true.

Fixpoint free_header_loop (n : nat) (p free_left : Z) : M pmem Z :=
  match n with
  | O => fail OutOfFuel
  | S n =>
      if (free_left =? 0) || (p =? NULL) then mret p
      else
        b ← rd p;
        if b_len b <=? free_left then
          wr p (set_next NULL);;
          pbuf_free p;;
          free_header_loop n (b_next b) (u16 (free_left - b_len b))
        else pbuf_remove_header p free_left;; free_header_loop n p 0
  end.

Definition pbuf_free_header (q size_ : Z) : M pmem Z :=
  n ← gets (λ s, size (store s)); free_header_loop (S (S n)) q size_.
End code.

Arguments pmem : clear implicits.
