(* ===== verification/MemThm.v ===== *)
(** The heap of [Mem] against the list of its blocks: what is in front of what,
    how large, in use or free.  [mem_malloc] is first fit with splitting,
    [mem_free] merges with both neighbours, [mem_trim] gives the end of a block
    back; no two free blocks are ever side by side. *)
From stdpp Require Import base tactics numbers list gmap.
From S2P Require Import Prelude Words Memp Mem PbufMem.

(** ** Blocks *)

Record blk := Blk { bsize : Z; bused : bool }.

(** Room for the structure and the least data. *)
Definition LEAST : Z := SIZEOF_STRUCT_MEM + MIN_SIZE_ALIGNED.
Definition blk_ok (b : blk) : Prop := LEAST ≤ bsize b ∧ bsize b mod MEM_ALIGNMENT = 0.

Fixpoint total (l : list blk) : Z :=
  match l with [] => 0 | b :: l => bsize b + total l end.

(** The last block before the end of [l], which starts at [p] after [prev]. *)
Fixpoint last_at (prev p : Z) (l : list blk) : Z :=
  match l with [] => prev | b :: l => last_at p (p + bsize b) l end.

Fixpoint first_free (p : Z) (l : list blk) : Z :=
  match l with [] => p | b :: l => if bused b then first_free (p + bsize b) l else p end.

Definition all_used : list blk → Prop := Forall (λ b, bused b = true).

(** No two free blocks side by side; [f] tells whether the one before is free. *)
Fixpoint apart (f : bool) (l : list blk) : Prop :=
  match l with [] => True | b :: l => (f = true → bused b = true) ∧ apart (negb (bused b)) l end.
Fixpoint ends_free (f : bool) (l : list blk) : bool :=
  match l with [] => f | b :: l => ends_free (negb (bused b)) l end.

Lemma total_app l1 l2 : total (l1 ++ l2) = total l1 + total l2.
Proof. induction l1 as [|b l1 IH]; simpl; [done|]. rewrite IH. lia. Qed.

Lemma last_at_snoc prev p l b : last_at prev p (l ++ [b]) = p + total l.
Proof. revert prev p. induction l as [|c l IH]; intros prev p; simpl; [lia|]. rewrite IH. lia. Qed.

Lemma first_free_skip p l1 l2 : all_used l1 → first_free p (l1 ++ l2) = first_free (p + total l1) l2.
Proof.
  intros Hl. revert p. induction Hl as [|b l1 Hb Hl IH]; intros p; simpl; [by rewrite Z.add_0_r|].
  rewrite Hb, IH. f_equal. lia.
Qed.

Lemma some_free p l1 l2 l2' : ¬ all_used l1 → first_free p (l1 ++ l2) = first_free p (l1 ++ l2').
Proof.
  revert p. induction l1 as [|b l1 IH]; intros p Hl; simpl; [by destruct Hl; constructor|].
  destruct (bused b) eqn:Hb; [|done]. apply IH. intros Ha. apply Hl. by constructor.
Qed.

Lemma first_free_split p l : ∃ l1 l2, l = l1 ++ l2 ∧ all_used l1 ∧ first_free p l = p + total l1 ∧
  match l2 with [] => True | b :: _ => bused b = false end.
Proof.
  revert p. induction l as [|b l IH]; intros p; simpl.
  { exists [], []. split_and!; [done|constructor|simpl; lia|done]. }
  destruct (bused b) eqn:Hb.
  - destruct (IH (p + bsize b)) as (l1 & l2 & -> & Hu & E & H2). exists (b :: l1), l2. split_and!; [done|by constructor|simpl; lia|done].
  - exists [], (b :: l). split_and!; [done|by constructor|simpl; lia|done].
Qed.

Lemma apart_app f l1 l2 : apart f (l1 ++ l2) ↔ apart f l1 ∧ apart (ends_free f l1) l2.
Proof. revert f. induction l1 as [|b l1 IH]; intros f; simpl; [naive_solver|]. rewrite IH. naive_solver. Qed.

Lemma apart_weaken f l : apart f l → apart false l.
Proof. destruct l; simpl; [done|]. intros [_ H]. by split. Qed.

Lemma ends_free_app f l1 l2 : ends_free f (l1 ++ l2) = ends_free (ends_free f l1) l2.
Proof. revert f. by induction l1 as [|b l1 IH]; intros f; simpl. Qed.

(** ** The blocks in memory *)

Section seg.
Context (base : Z).

Definition image (b : blk) (prev p : Z) : mem := Mem (p + bsize b) prev (Z.b2z (bused b)).

(** The blocks [l] lie from index [p] to index [q]. *)
Fixpoint seg (m : gmap Z mem) (prev p : Z) (l : list blk) (q : Z) : Prop :=
  match l with
  | [] => p = q
  | b :: l => m !! (base + p) = Some (image b prev p) ∧ blk_ok b ∧ seg m p (p + bsize b) l q
  end.

Lemma segs_app m prev p l1 l2 q :
  seg m prev p (l1 ++ l2) q ↔ seg m prev p l1 (p + total l1) ∧ seg m (last_at prev p l1) (p + total l1) l2 q.
Proof.
  revert prev p. induction l1 as [|b l1 IH]; intros prev p; simpl.
  - rewrite Z.add_0_r. naive_solver.
  - rewrite IH. replace (p + bsize b + total l1) with (p + (bsize b + total l1)) by lia. naive_solver.
Qed.

Lemma seg_total m prev p l q : seg m prev p l q → q = p + total l.
Proof. revert prev p. induction l as [|b l IH]; intros prev p; simpl; [lia|]. intros (_ & _ & E%IH). lia. Qed.

Lemma seg_ok m prev p l q : seg m prev p l q → Forall blk_ok l.
Proof. revert prev p. induction l as [|b l IH]; intros prev p; simpl; [done|]. intros (_ & Hb & Hl%IH). by constructor. Qed.

Lemma total_bound l : Forall blk_ok l → LEAST * Z.of_nat (length l) ≤ total l ∧ total l mod MEM_ALIGNMENT = 0.
Proof.
  unfold blk_ok, MEM_ALIGNMENT. change LEAST with 20. induction 1 as [|b l [Hb Hm] _ IH]; [done|]. cbn [length total].
  split; [lia|]. destruct IH as [_ IH]. rewrite Zplus_mod, Hm, IH. done.
Qed.

Lemma seg_length m prev p l q : seg m prev p l q → LEAST * Z.of_nat (length l) ≤ q - p.
Proof. intros Hs. rewrite (seg_total _ _ _ _ _ Hs). pose proof (proj1 (total_bound l (seg_ok _ _ _ _ _ Hs))). lia. Qed.

Lemma segs_frame m m' prev p l q :
  (∀ x, p ≤ x < q → m' !! (base + x) = m !! (base + x)) → seg m prev p l q → seg m' prev p l q.
Proof.
  revert prev p. induction l as [|b l IH]; intros prev p Hm; simpl; [done|]. intros (Hb & Hok & Hl).
  pose proof (seg_length _ _ _ _ _ Hl) as Hlen. destruct Hok as [Hsz Hal]. change LEAST with 20 in *.
  split_and!; [rewrite Hm by lia; done|done|]. apply IH; [|done]. intros x Hx. apply Hm. lia.
Qed.

(** Only the link back to the block before is changed. *)
Lemma seg_relink m m' prev prev' p l q :
  (∀ x, p < x < q → m' !! (base + x) = m !! (base + x)) →
  (l ≠ [] → m' !! (base + p) = (λ b, Mem (m_next b) prev' (m_used b)) <$> m !! (base + p)) →
  seg m prev p l q → seg m' prev' p l q.
Proof.
  destruct l as [|b l]; simpl; [done|]. intros Hm Hp (Hb & [Hsz Hal] & Hl). split_and!; [|done|].
  - rewrite Hp, Hb by done. done.
  - change LEAST with 20 in *. eapply segs_frame; [|exact Hl]. intros x Hx. apply Hm. lia.
Qed.
End seg.

(** ** The representation *)

Section heap.
(** The array; its address is known when the program is linked. *)
Context (ram_heap : Z).

Notation base := (LWIP_MEM_ALIGN ram_heap).

Class HeapBase : Prop := { heap_base_pos : 0 < LWIP_MEM_ALIGN ram_heap }.

(** The array is cut into the blocks [l]. *)
Record tiled (h : mem_heap) (l : list blk) : Prop := Tiled {
  ti_ram : ram h = base;
  ti_end : ram_end h = base + MEM_SIZE_ALIGNED;
  ti_seg : seg base (mems h) 0 0 l MEM_SIZE_ALIGNED;
  ti_last : mems h !! (base + MEM_SIZE_ALIGNED) = Some (Mem MEM_SIZE_ALIGNED MEM_SIZE_ALIGNED 1)
}.

Record heap_rep (h : mem_heap) (l : list blk) : Prop := HeapRep {
  hr_tiled : tiled h l;
  hr_lfree : lfree h = base + first_free 0 l;
  hr_apart : apart false l
}.

Lemma wp_rd_mem p b h (Q : mem → mem_heap → Prop) : mems h !! p = Some b → Q b h → wp (rd_mem p) Q h.
Proof. intros Hb HQ. unfold rd_mem. wp_go. by apply wp_of_option with b. Qed.

Definition with_mems (h : mem_heap) (m : gmap Z mem) : mem_heap := MemHeap (ram h) (ram_end h) (lfree h) m.
Definition with_lfree (h : mem_heap) (p : Z) : mem_heap := MemHeap (ram h) (ram_end h) p (mems h).

Lemma wp_wr_mem p b h (Q : unit → mem_heap → Prop) : Q tt (with_mems h (<[p := b]> (mems h))) → wp (wr_mem p b) Q h.
Proof. intros HQ. unfold wr_mem, set_mems. by wp_go. Qed.

Lemma wp_wr_next p n b h (Q : unit → mem_heap → Prop) :
  mems h !! p = Some b → Q tt (with_mems h (<[p := Mem n (m_prev b) (m_used b)]> (mems h))) → wp (wr_next p n) Q h.
Proof. intros Hb HQ. by apply wp_bind, (wp_rd_mem p b), wp_wr_mem. Qed.

Lemma wp_wr_used p u b h (Q : unit → mem_heap → Prop) :
  mems h !! p = Some b → Q tt (with_mems h (<[p := Mem (m_next b) (m_prev b) u]> (mems h))) → wp (wr_used p u) Q h.
Proof. intros Hb HQ. by apply wp_bind, (wp_rd_mem p b), wp_wr_mem. Qed.

Lemma wp_set_lfree p h (Q : unit → mem_heap → Prop) : Q tt (with_lfree h p) → wp (set_lfree p) Q h.
Proof. intros HQ. unfold set_lfree. by wp_go. Qed.

Lemma wp_ptr_to_mem x h (Q : Z → mem_heap → Prop) : ram h = base → Q (base + x) h → wp (ptr_to_mem x) Q h.
Proof. intros E HQ. apply wp_gets. by rewrite E. Qed.

Lemma wp_mem_to_ptr x h (Q : Z → mem_heap → Prop) :
  ram h = base → 0 ≤ x < 65536 → Q x h → wp (mem_to_ptr (base + x)) Q h.
Proof. intros E Hx HQ. apply wp_gets. rewrite E. by rewrite Z.add_simpl_l, u16_id. Qed.
(** ** What is where *)

Section at_block.
Context {h : mem_heap} {l1 : list blk} {b : blk} {l2 : list blk} (Ht : tiled h (l1 ++ b :: l2)).

Lemma block_bounds :
  0 ≤ total l1 ∧ total l1 + bsize b + total l2 = MEM_SIZE_ALIGNED ∧ blk_ok b ∧ 0 ≤ total l2 ∧ total l1 mod MEM_ALIGNMENT = 0.
Proof.
  destruct Ht as [_ _ Hs _]. pose proof (seg_total _ _ _ _ _ _ Hs) as E. rewrite total_app in E. simpl in E.
  apply seg_ok in Hs. apply Forall_app in Hs as [H1 [Hb H2]%Forall_cons].
  pose proof (total_bound _ H1) as [B1 M1]. pose proof (total_bound _ H2) as [B2 _]. change LEAST with 20 in *.
  split_and!; (done || lia).
Qed.

Lemma block_at : mems h !! (base + total l1) = Some (image b (last_at 0 0 l1) (total l1)).
Proof. destruct Ht as [_ _ Hs _]. apply segs_app in Hs as [_ Hs]. by destruct Hs as [Hs _]. Qed.

Lemma next_at :
  mems h !! (base + (total l1 + bsize b)) = Some
    match l2 with
    | [] => Mem MEM_SIZE_ALIGNED MEM_SIZE_ALIGNED 1
    | c :: _ => image c (total l1) (total l1 + bsize b)
    end.
Proof.
  pose proof block_bounds as (_ & E & _). destruct Ht as [_ _ Hs Hl]. apply segs_app in Hs as [_ (_ & _ & Hs)].
  destruct l2 as [|c l]; [|by destruct Hs as [Hs _]]. simpl in E. by replace (total l1 + bsize b) with MEM_SIZE_ALIGNED by lia.
Qed.

(** The block before, or [b] itself if it is the first. *)
Lemma prev_at :
  match rev l1 with
  | [] => l1 = [] ∧ last_at 0 0 l1 = total l1
  | a :: l => l1 = rev l ++ [a] ∧ last_at 0 0 l1 = total (rev l) ∧ last_at 0 0 l1 < total l1 ∧
      mems h !! (base + last_at 0 0 l1) = Some (image a (last_at 0 0 (rev l)) (total (rev l)))
  end.
Proof.
  destruct (rev l1) as [|a l] eqn:E.
  - assert (l1 = []) as -> by (by rewrite <-(rev_involutive l1), E). done.
  - assert (l1 = rev l ++ [a]) as E1 by (by rewrite <-(rev_involutive l1), E). split; [done|].
    destruct Ht as [_ _ Hs _]. rewrite E1, last_at_snoc, Z.add_0_l, total_app. apply segs_app in Hs as [Hs _].
    rewrite E1 in Hs. apply segs_app in Hs as [_ (Ha & [Hsz _] & _)]. change LEAST with 20 in Hsz.
    split_and!; [done|simpl; lia|exact Ha].
Qed.
End at_block.

(** ** Replacing blocks *)

(** What [link_back] does. *)
Definition relinked (q prev : Z) (m : gmap Z mem) : gmap Z mem :=
  if q =? MEM_SIZE_ALIGNED then m else alter (λ b, Mem (m_next b) prev (m_used b)) (base + q) m.

Lemma wp_link_back q prev h (Q : unit → mem_heap → Prop) :
  ram h = base → is_Some (mems h !! (base + q)) → Q tt (with_mems h (relinked q prev (mems h))) → wp (link_back q prev) Q h.
Proof.
  intros E [b Hb] HQ. unfold link_back, relinked in *. destruct (Z.eqb_spec q MEM_SIZE_ALIGNED) as [->|Hne].
  - apply wp_ret. by destruct h.
  - cbn [negb when_]. apply wp_bind, wp_gets. rewrite E. apply wp_bind, (wp_rd_mem _ b); [done|]. apply wp_wr_mem.
    replace (<[base + q := Mem (m_next b) prev (m_used b)]> (mems h)) with
      (alter (λ b, Mem (m_next b) prev (m_used b)) (base + q) (mems h)); [done|].
    apply map_eq. intros x. destruct (decide (x = base + q)) as [->|].
    + by rewrite lookup_alter_eq, lookup_insert_eq, Hb.
    + by rewrite lookup_alter_ne, lookup_insert_ne by done.
Qed.

Lemma relinked_other q prev m x : x ≠ q → relinked q prev m !! (base + x) = m !! (base + x).
Proof. intros Hx. unfold relinked. destruct (q =? _); [done|]. apply lookup_alter_ne. lia. Qed.

Lemma tiled_relinked h l1 mid mid' l2 lf m :
  tiled h (l1 ++ mid ++ l2) → total mid' = total mid →
  seg base m (last_at 0 0 l1) (total l1) mid' (total l1 + total mid) →
  (∀ x, x < total l1 ∨ total l1 + total mid ≤ x → m !! (base + x) = mems h !! (base + x)) →
  tiled (MemHeap (ram h) (ram_end h) lf
    (relinked (total l1 + total mid) (last_at (last_at 0 0 l1) (total l1) mid') m)) (l1 ++ mid' ++ l2).
Proof.
  intros [E1 E2 Hs Hl] Et Hmid Hout. set (q := total l1 + total mid) in *. pose proof (seg_total _ _ _ _ _ _ Hs) as Etot.
  rewrite !total_app in Etot. apply segs_app in Hs as [Hs1 Hs]. apply segs_app in Hs as [Hsm Hs2]. rewrite Z.add_0_l in *. fold q in Hs2.
  pose proof (seg_length _ _ _ _ _ _ Hs2) as Hlen2. pose proof (seg_length _ _ _ _ _ _ Hsm) as Hlenm. change LEAST with 20 in *.
  split; simpl; try done.
  - apply segs_app. rewrite Z.add_0_l. split.
    + eapply segs_frame; [|exact Hs1]. intros x Hx. rewrite relinked_other by lia. apply Hout. lia.
    + apply segs_app. rewrite Et. fold q. split.
      * eapply segs_frame; [|exact Hmid]. intros x Hx. apply relinked_other. lia.
      * eapply seg_relink; [| |exact Hs2].
        -- intros x Hx. rewrite relinked_other by lia. apply Hout. lia.
        -- intros Hne. destruct l2 as [|c l2]; [done|]. destruct Hs2 as (_ & [Hc _] & Hr%seg_length). change LEAST with 20 in *.
           unfold relinked. rewrite (proj2 (Z.eqb_neq q _)) by lia. rewrite lookup_alter_eq, Hout by lia. done.
  - destruct (decide (q = MEM_SIZE_ALIGNED)) as [Eq|Hne].
    + unfold relinked. rewrite Eq, Z.eqb_refl. rewrite Hout; [done|]. lia.
    + rewrite relinked_other by done. rewrite Hout; [done|]. lia.
Qed.

(** The block after has the same one before it. *)
Lemma tiled_replaced h l1 mid mid' l2 lf m :
  tiled h (l1 ++ mid ++ l2) → total mid' = total mid →
  last_at (last_at 0 0 l1) (total l1) mid' = last_at (last_at 0 0 l1) (total l1) mid →
  seg base m (last_at 0 0 l1) (total l1) mid' (total l1 + total mid) →
  (∀ x, x < total l1 ∨ total l1 + total mid ≤ x → m !! (base + x) = mems h !! (base + x)) →
  tiled (MemHeap (ram h) (ram_end h) lf m) (l1 ++ mid' ++ l2).
Proof.
  intros Ht Et El Hmid Hout. pose proof (tiled_relinked h l1 mid mid' l2 lf m Ht Et Hmid Hout) as Hr. rewrite El in Hr.
  replace (relinked _ _ m) with m in Hr; [done|]. unfold relinked. destruct (Z.eqb_spec (total l1 + total mid) MEM_SIZE_ALIGNED) as [|Hne]; [done|].
  destruct Ht as [_ _ Hs _]. apply segs_app in Hs as [_ Hs]. apply segs_app in Hs as [_ Hs]. rewrite Z.add_0_l in Hs.
  symmetry. apply map_eq. intros x. destruct (decide (x = base + (total l1 + total mid))) as [->|Hx]; [|by rewrite lookup_alter_ne].
  rewrite lookup_alter_eq, Hout by lia. destruct l2 as [|c l2]; [by simpl in Hs|]. destruct Hs as (Hc & _). by rewrite Hc.
Qed.

(** ** Freeing *)

Definition join_right (sz : Z) (l2 : list blk) : Z * list blk :=
  match l2 with Blk n false :: l => (sz + n, l) | _ => (sz, l2) end.

Lemma first_free_in p l1 l2 : ¬ all_used l1 → Forall blk_ok l1 → first_free p (l1 ++ l2) < p + total l1.
Proof.
  intros Hl Hok. revert p Hl. induction Hok as [|b l1 [Hb _] Hok IH]; intros p Hl; simpl; [by destruct Hl; constructor|].
  change LEAST with 20 in Hb. pose proof (proj1 (total_bound l1 Hok)). change LEAST with 20 in *.
  destruct (bused b) eqn:Hu; [|lia]. assert (¬ all_used l1) as Hl1 by (intros Ha; apply Hl; by constructor).
  specialize (IH (p + bsize b) Hl1). lia.
Qed.

#[local] Instance all_used_dec l : Decision (all_used l) := Forall_dec _ l.

Lemma tiled_ok h l : tiled h l → Forall blk_ok l.
Proof. intros [_ _ Hs _]. by apply seg_ok in Hs. Qed.

Lemma first_free_here h l1 b l2 :
  tiled h (l1 ++ b :: l2) → bused b = false → first_free 0 (l1 ++ b :: l2) ≤ total l1.
Proof.
  intros Ht Hb. destruct (decide (all_used l1)) as [Ha|Hna].
  - rewrite first_free_skip by done. simpl. rewrite Hb. lia.
  - pose proof (tiled_ok _ _ Ht) as [Hok _]%Forall_app. pose proof (first_free_in 0 l1 (b :: l2) Hna Hok). lia.
Qed.

Lemma wp_plug_forward h l1 sz l2 (Q : unit → mem_heap → Prop) :
  tiled h (l1 ++ Blk sz false :: l2) → lfree h ≤ base + total l1 →
  (∀ h', tiled h' (l1 ++ Blk (join_right sz l2).1 false :: (join_right sz l2).2) → lfree h' = lfree h → Q tt h') →
  wp (plug_forward (base + total l1)) Q h.
Proof.
  intros Ht Hlf HQ. pose proof (block_bounds Ht) as (Hp & Htot & [Hsz _] & Hl2 & _). simpl in Htot, Hsz. change LEAST with 20 in Hsz.
  pose proof (next_at Ht) as Hnext. simpl in Hnext. change MEM_SIZE_ALIGNED with 16384 in Htot.
  unfold plug_forward. apply wp_bind, (wp_rd_mem _ _ _ _ (block_at Ht)). cbn [image m_next bsize].
  apply wp_bind, wp_ptr_to_mem; [apply Ht|]. apply wp_bind, (wp_rd_mem _ _ _ _ Hnext). apply wp_bind, wp_gets.
  rewrite (ti_end _ _ Ht). rewrite (proj2 (Z.eqb_neq (base + total l1) _)) by lia.
  assert (join_right sz l2 = (sz, l2) → Q tt h) as Hstay.
  { intros E. apply HQ; [|done]. by rewrite E. }
  destruct l2 as [|[n [|]] l3]; cbn [negb andb m_used image bused Z.b2z Z.eqb when_]; [by apply Hstay|by apply Hstay|].
  assert (20 ≤ n ∧ 0 ≤ total l3) as [Hn Hl3].
  { apply tiled_ok, Forall_app in Ht as [_ [_ [[Hn _] H3]%Forall_cons]%Forall_cons].
    pose proof (proj1 (total_bound l3 H3)). change LEAST with 20 in *. simpl in Hn. lia. }
  simpl in Htot. change MEM_SIZE_ALIGNED with 16384. rewrite (proj2 (Z.eqb_neq _ (base + 16384))) by lia. cbn [negb when_ andb].
  apply wp_bind, wp_gets. rewrite (proj2 (Z.eqb_neq (lfree h) _)) by lia. cbn [when_]. apply wp_bind, wp_ret.
  apply wp_bind, (wp_wr_next _ _ _ _ _ (block_at Ht)). cbn [image m_next m_prev m_used bsize bused Z.b2z].
  apply wp_bind, wp_mem_to_ptr; [apply Ht|lia|].
  set (m' := <[_ := _]> _).
  pose proof (tiled_relinked h l1 [Blk sz false; Blk n false] [Blk (sz + n) false] l3 (lfree h) m') as Hr.
  cbn [app last_at total bsize] in Hr. replace (total l1 + (sz + (n + 0))) with (total l1 + sz + n) in Hr by lia.
  apply wp_link_back; [apply Ht| |].
  - simpl. unfold m'. rewrite lookup_insert_ne by lia.
    change (l1 ++ Blk sz false :: Blk n false :: l3) with (l1 ++ [Blk sz false] ++ Blk n false :: l3) in Ht.
    rewrite app_assoc in Ht. pose proof (next_at Ht) as Hn2. rewrite total_app in Hn2. simpl in Hn2.
    replace (total l1 + sz + n) with (total l1 + (sz + 0) + n) by lia. by rewrite Hn2.
  - apply HQ; [|done]. cbn [join_right fst snd]. apply Hr; [done|simpl; lia| |].
    + split_and!; [|split; simpl|simpl; lia].
      * unfold m'. rewrite lookup_insert_eq. unfold image. simpl. f_equal. f_equal. lia.
      * change LEAST with 20. lia.
      * apply tiled_ok, Forall_app in Ht as [_ [[_ A1] [[_ A2] _]%Forall_cons]%Forall_cons]. simpl in A1, A2.
        unfold MEM_ALIGNMENT in *. rewrite Zplus_mod, A1, A2. done.
    + intros x Hx. unfold m'. apply lookup_insert_ne. lia.
Qed.

Definition join_left (l1 : list blk) (sz : Z) : list blk * Z :=
  match rev l1 with Blk n false :: l => (rev l, n + sz) | _ => (l1, sz) end.

Lemma blk_ok_sum a b u : blk_ok a → blk_ok b → blk_ok (Blk (bsize a + bsize b) u).
Proof.
  intros [A1 A2] [B1 B2]. split; simpl; [change LEAST with 20 in *; lia|]. by rewrite Zplus_mod, A2, B2.
Qed.

Lemma wp_plug_backward h l1 sz l2 (Q : unit → mem_heap → Prop) :
  tiled h (l1 ++ Blk sz false :: l2) → lfree h = base + first_free 0 (l1 ++ Blk sz false :: l2) →
  (∀ h', tiled h' ((join_left l1 sz).1 ++ Blk (join_left l1 sz).2 false :: l2) → lfree h' = lfree h → Q tt h') →
  wp (plug_backward (base + total l1)) Q h.
Proof.
  intros Ht Hlf HQ. pose proof (block_bounds Ht) as (Hp & Htot & [Hsz _] & Hl2 & _). simpl in Htot, Hsz. change LEAST with 20 in Hsz. change MEM_SIZE_ALIGNED with 16384 in Htot.
  pose proof (prev_at Ht) as Hprev. unfold plug_backward, join_left in *.
  apply wp_bind, (wp_rd_mem _ _ _ _ (block_at Ht)). cbn [image m_prev m_next bsize].
  apply wp_bind, wp_ptr_to_mem; [apply Ht|]. destruct (rev l1) as [|[n u] l].
  { destruct Hprev as [-> E]. rewrite E. apply wp_bind, (wp_rd_mem _ _ _ _ (block_at Ht)). rewrite Z.eqb_refl. apply HQ; [exact Ht|done]. }
  destruct Hprev as (E1 & E2 & Hlt & Ha). apply wp_bind, (wp_rd_mem _ _ _ _ Ha). rewrite (proj2 (Z.eqb_neq _ (base + total l1))) by lia.
  destruct u; cbn [negb andb m_used image bused Z.b2z Z.eqb when_]; [apply HQ; [exact Ht|done]|].
  assert (lfree h < base + total l1) as Hlow.
  { rewrite Hlf. assert (¬ all_used l1) as Hna by (rewrite E1; by intros [_ [? _]%Forall_cons]%Forall_app).
    pose proof (tiled_ok _ _ Ht) as [Hok _]%Forall_app. pose proof (first_free_in 0 l1 (Blk sz false :: l2) Hna Hok). lia. }
  apply wp_bind, wp_gets. rewrite (proj2 (Z.eqb_neq (lfree h) _)) by lia. cbn [when_]. apply wp_bind, wp_ret.
  rewrite E2 in *. apply wp_bind, (wp_wr_next _ _ _ _ _ Ha). cbn [image m_next m_prev m_used bsize bused Z.b2z].
  assert (total l1 = total (rev l) + n) as Et by (rewrite E1, total_app; simpl; lia).
  assert (0 ≤ total (rev l)) as Hpos.
  { pose proof Ht as Ht'. rewrite E1, <-app_assoc in Ht'. apply (block_bounds Ht'). }
  apply wp_bind, wp_mem_to_ptr; [apply Ht|lia|]. set (m' := <[_ := _]> _).
  apply wp_link_back; [apply Ht| |].
  - simpl. unfold m'. rewrite lookup_insert_ne by lia. pose proof (next_at Ht) as Hn. simpl in Hn. by rewrite Hn.
  - apply HQ; [|done]. cbn [fst snd].
    assert (l1 ++ Blk sz false :: l2 = rev l ++ [Blk n false; Blk sz false] ++ l2) as El by (by rewrite E1, <-app_assoc).
    pose proof (block_bounds Ht) as (_ & _ & Hok & _). rewrite El in Ht.
    change (rev l ++ [Blk n false; Blk sz false] ++ l2) with (rev l ++ Blk n false :: Blk sz false :: l2) in Ht.
    pose proof (block_bounds Ht) as (_ & _ & Hok' & _).
    pose proof (tiled_relinked h (rev l) [Blk n false; Blk sz false] [Blk (n + sz) false] l2 (lfree h) m') as Hr.
    cbn [app last_at total bsize] in Hr. replace (total (rev l) + (n + (sz + 0))) with (total l1 + sz) in Hr by lia.
    apply Hr; [done|simpl; lia| |].
    + split_and!; [|by apply (blk_ok_sum (Blk n false) (Blk sz false))|simpl; lia].
      unfold m'. rewrite lookup_insert_eq. unfold image. simpl. do 2 f_equal. lia.
    + intros x Hx. unfold m'. apply lookup_insert_ne. lia.
Qed.

Lemma first_free_ge p l : Forall blk_ok l → p ≤ first_free p l.
Proof.
  intros Hok. revert p. induction Hok as [|b l [Hb _] _ IH]; intros p; simpl; [lia|]. change LEAST with 20 in Hb.
  destruct (bused b); [|lia]. specialize (IH (p + bsize b)). lia.
Qed.

(** The first free block stays the first when it, or what is behind it, changes. *)
Lemma first_free_same l1 b b' l2 l2' :
  bused b = false → bused b' = false → first_free 0 (l1 ++ b :: l2) = first_free 0 (l1 ++ b' :: l2').
Proof.
  intros Hb Hb'. destruct (decide (all_used l1)) as [Ha|Hna]; [|by apply some_free].
  rewrite !first_free_skip by done. simpl. by rewrite Hb, Hb'.
Qed.

Lemma join_right_apart sz l2 : apart false l2 → apart true (join_right sz l2).2.
Proof. destruct l2 as [|[n [|]] l]; simpl; naive_solver. Qed.

Lemma join_left_apart l1 sz :
  apart false l1 → apart false (join_left l1 sz).1 ∧ ends_free false (join_left l1 sz).1 = false.
Proof.
  unfold join_left. destruct (rev l1) as [|[n u] l] eqn:E.
  - assert (l1 = []) as -> by (by rewrite <-(rev_involutive l1), E). done.
  - assert (l1 = rev l ++ [Blk n u]) as -> by (by rewrite <-(rev_involutive l1), E).
    intros [Hl Hu]%apart_app. destruct u; cbn [fst].
    + split; [by apply apart_app|]. by rewrite ends_free_app.
    + split; [done|]. destruct (ends_free false (rev l)); [|done]. destruct Hu as [Hu _]. by specialize (Hu eq_refl).
Qed.

Lemma join_left_first l1 sz b l2 :
  bused b = false → first_free 0 (l1 ++ b :: l2) = first_free 0 ((join_left l1 sz).1 ++ Blk (join_left l1 sz).2 false :: l2).
Proof.
  intros Hb. unfold join_left. destruct (rev l1) as [|[n [|]] l] eqn:E; cbn [fst snd]; [by apply first_free_same..|].
  assert (l1 = rev l ++ [Blk n false]) as -> by (by rewrite <-(rev_involutive l1), E). rewrite <-app_assoc. by apply first_free_same.
Qed.

(** The blocks after [Blk sz true] between [l1] and [l2] is freed. *)
Definition freed (l1 : list blk) (sz : Z) (l2 : list blk) : list blk :=
  let '(sz, l2) := join_right sz l2 in
  let '(l1, sz) := join_left l1 sz in
  l1 ++ Blk sz false :: l2.

Lemma base_aligned : base mod MEM_ALIGNMENT = 0.
Proof. rewrite align_up. unfold MEM_ALIGNMENT. by rewrite Z.mod_mul. Qed.

Lemma land_alignment x : Z.land x (MEM_ALIGNMENT - 1) = x mod MEM_ALIGNMENT.
Proof. change (MEM_ALIGNMENT - 1) with (Z.ones 2). by rewrite Z.land_ones. Qed.

Lemma wp_mem_link_valid h l1 b l2 (Q : bool → mem_heap → Prop) :
  tiled h (l1 ++ b :: l2) → Q true h → wp (mem_link_valid (base + total l1)) Q h.
Proof.
  intros Ht HQ. pose proof (block_bounds Ht) as (Hp & Htot & [Hsz _] & Hl2 & _). change LEAST with 20 in Hsz.
  pose proof (next_at Ht) as Hnext. pose proof (prev_at Ht) as Hprev. change MEM_SIZE_ALIGNED with 16384 in *.
  unfold mem_link_valid. apply wp_bind, (wp_rd_mem _ _ _ _ (block_at Ht)).
  apply wp_bind, wp_mem_to_ptr; [apply Ht|lia|]. apply wp_bind, wp_ptr_to_mem; [apply Ht|].
  apply wp_bind, wp_ptr_to_mem; [apply Ht|]. apply wp_bind, wp_gets. rewrite (ti_end _ _ Ht). cbn [image m_next m_prev].
  change MEM_SIZE_ALIGNED with 16384. rewrite (proj2 (Z.ltb_ge _ (total l1 + bsize b))) by lia. cbn [orb].
  assert (last_at 0 0 l1 ≤ total l1 ∧ (negb (last_at 0 0 l1 =? total l1) = true →
    ∃ a, mems h !! (base + last_at 0 0 l1) = Some a ∧ m_next a = total l1)) as [Hle Hback].
  { destruct (rev l1) as [|a l]; [destruct Hprev as [_ E]; rewrite E, Z.eqb_refl; split; [lia|done]|].
    destruct Hprev as (E1 & E2 & Hlt & Ha). split; [lia|]. intros _. eexists. split; [exact Ha|]. simpl.
    rewrite E1, total_app. simpl. lia. }
  rewrite (proj2 (Z.ltb_ge _ _)) by lia. apply wp_bind.
  assert (∀ Q', Q' false h → wp (if negb (last_at 0 0 l1 =? total l1)
    then p ← rd_mem (base + last_at 0 0 l1); mret (negb (m_next p =? total l1)) else mret false) Q' h) as Hgo.
  { intros Q' HQ'. destruct (negb _) eqn:E; [|by apply wp_ret]. destruct (Hback eq_refl) as (a & Ha & En).
    apply wp_bind, (wp_rd_mem _ _ _ _ Ha), wp_ret. by rewrite En, Z.eqb_refl. }
  apply Hgo. destruct (Z.eqb_spec (base + (total l1 + bsize b)) (base + 16384)) as [|Hne]; [by apply wp_ret|]. cbn [negb].
  apply wp_bind, (wp_rd_mem _ _ _ _ Hnext), wp_ret. destruct l2 as [|c l2]; [simpl in *; lia|]. simpl. by rewrite Z.eqb_refl.
Qed.

(** Marking the block used or free. *)
Lemma tiled_marked h l1 sz u u' l2 lf :
  tiled h (l1 ++ Blk sz u :: l2) →
  tiled (MemHeap (ram h) (ram_end h) lf (<[base + total l1 := image (Blk sz u') (last_at 0 0 l1) (total l1)]> (mems h))) (l1 ++ Blk sz u' :: l2).
Proof.
  intros Ht. pose proof (block_bounds Ht) as (_ & _ & Hok & _). pose proof Hok as [Hsz _]. simpl in Hsz. change LEAST with 20 in Hsz.
  apply (tiled_replaced h l1 [Blk sz u] [Blk sz u'] l2); [done|done|done| |].
  - split_and!; [by rewrite lookup_insert_eq|exact Hok|simpl; lia].
  - intros x Hx. apply lookup_insert_ne. simpl in Hx. lia.
Qed.

Lemma wp_plug_holes h l1 sz l2 (Q : unit → mem_heap → Prop) :
  tiled h (l1 ++ Blk sz false :: l2) → lfree h = base + first_free 0 (l1 ++ Blk sz false :: l2) →
  (∀ h', tiled h' (freed l1 sz l2) → lfree h' = base + first_free 0 (freed l1 sz l2) → Q tt h') →
  wp (plug_holes (base + total l1)) Q h.
Proof.
  intros Ht Hlf HQ. pose proof (block_bounds Ht) as (Hp & Htot & [Hsz _] & Hl2 & _). simpl in Hsz, Htot. change LEAST with 20 in Hsz.
  unfold plug_holes. apply wp_bind, wp_gets. rewrite (ti_ram _ _ Ht). apply wp_bind, wp_assert; [apply Z.leb_le; lia|].
  apply wp_bind, wp_gets. rewrite (ti_end _ _ Ht). apply wp_bind, wp_assert; [apply Z.ltb_lt; lia|].
  apply wp_bind, (wp_rd_mem _ _ _ _ (block_at Ht)). apply wp_bind, wp_assert; [done|].
  apply wp_bind, wp_assert; [apply Z.leb_le; simpl; lia|]. unfold freed in HQ.
  apply wp_bind, (wp_plug_forward h l1 sz l2); [done| |].
  { pose proof (first_free_here h l1 _ l2 Ht eq_refl). lia. }
  intros h1 Ht1 Hlf1. destruct (join_right sz l2) as [sz1 l2']. cbn [fst snd] in *.
  assert (lfree h1 = base + first_free 0 (l1 ++ Blk sz1 false :: l2')) as Hlf1'.
  { rewrite Hlf1, Hlf. f_equal. by apply first_free_same. }
  apply (wp_plug_backward h1 l1 sz1 l2'); [done|done|]. intros h2 Ht2 Hlf2.
  rewrite (join_left_first l1 sz1 _ l2') in Hlf1' by done. destruct (join_left l1 sz1) as [l1' sz2]. cbn [fst snd] in *.
  apply HQ; [done|]. by rewrite Hlf2.
Qed.

Lemma freed_apart l1 sz l2 : apart false (l1 ++ Blk sz true :: l2) → apart false (freed l1 sz l2).
Proof.
  intros [H1 [_ H2]]%apart_app. unfold freed. pose proof (join_right_apart sz l2 H2) as H2'.
  destruct (join_right sz l2) as [sz1 l2']. destruct (join_left_apart l1 sz1 H1) as [H1' E].
  destruct (join_left l1 sz1) as [l1' sz2]. apply apart_app. split; [done|]. cbn [fst snd apart bused negb] in *. rewrite E. by split.
Qed.

Lemma wp_mem_free_rep h l1 sz l2 (Q : unit → mem_heap → Prop) :
  HeapBase → heap_rep h (l1 ++ Blk sz true :: l2) → (∀ h', heap_rep h' (freed l1 sz l2) → Q tt h') →
  wp (Mem.mem_free (base + total l1 + SIZEOF_STRUCT_MEM)) Q h.
Proof.
  intros [Hb] [Ht Hlf Hap] HQ. pose proof (block_bounds Ht) as (Hp & Htot & [Hsz _] & Hl2 & Hal).
  simpl in Hsz, Htot. change LEAST with 20 in Hsz. unfold Mem.mem_free.
  assert ((base + total l1 + SIZEOF_STRUCT_MEM) mod MEM_ALIGNMENT = 0) as Hm.
  { pose proof base_aligned as Hba. unfold MEM_ALIGNMENT in *. change SIZEOF_STRUCT_MEM with 8. Z.div_mod_to_equations. lia. }
  rewrite land_alignment, Hm. change SIZEOF_STRUCT_MEM with 8 in *. change MIN_SIZE_ALIGNED with 12.
  unfold NULL. rewrite (proj2 (Z.eqb_neq _ 0)) by lia. cbn [Z.eqb negb]. apply wp_bind, wp_gets, wp_bind, wp_gets.
  rewrite (ti_ram _ _ Ht), (ti_end _ _ Ht), (proj2 (Z.ltb_ge _ base)), (proj2 (Z.ltb_ge (base + MEM_SIZE_ALIGNED) _)) by lia.
  cbn [orb]. rewrite Z.add_simpl_r. apply wp_bind, (wp_rd_mem _ _ _ _ (block_at Ht)). cbn [image m_used bused Z.b2z Z.eqb].
  apply wp_bind, (wp_mem_link_valid h l1 _ l2 _ Ht). cbn [negb].
  apply wp_bind, (wp_wr_used _ _ _ _ _ (block_at Ht)). cbn [image m_next m_prev].
  apply wp_bind, wp_gets. apply wp_bind. cbn [lfree with_mems].
  pose proof (tiled_ok _ _ Ht) as [Hok1 [_ Hok2]%Forall_cons]%Forall_app.
  assert (∀ lf, lf = base + first_free 0 (l1 ++ Blk sz false :: l2) →
    wp (plug_holes (base + total l1)) Q (MemHeap (ram h) (ram_end h) lf (<[base + total l1 := image (Blk sz false) (last_at 0 0 l1) (total l1)]> (mems h)))) as Hgo.
  { intros lf ->. apply (wp_plug_holes _ l1 sz l2); [by eapply tiled_marked|done|].
    intros h' Ht' Hlf'. apply HQ. split; [done|done|]. by apply freed_apart. }
  destruct (decide (all_used l1)) as [Ha|Hna].
  - rewrite first_free_skip in Hlf by done. cbn [first_free bused bsize] in Hlf. rewrite Z.add_0_l in Hlf. pose proof (first_free_ge (total l1 + sz) l2 Hok2).
    rewrite (proj2 (Z.ltb_lt (base + total l1) _)) by lia. apply wp_set_lfree, Hgo.
    rewrite first_free_skip by done. cbn [first_free bused]. by rewrite Z.add_0_l.
  - pose proof (first_free_in 0 l1 (Blk sz true :: l2) Hna Hok1).
    rewrite (proj2 (Z.ltb_ge (base + total l1) _)) by lia. apply wp_ret, Hgo. rewrite Hlf. f_equal. by apply some_free.
Qed.

(** ** Allocating *)

(** A free block of [sz] bytes is used for [size] bytes of data. *)
Definition used_part (sz size : Z) : list blk :=
  if size + SIZEOF_STRUCT_MEM + LEAST <=? sz
  then [Blk (size + SIZEOF_STRUCT_MEM) true; Blk (sz - size - SIZEOF_STRUCT_MEM) false]
  else [Blk sz true].

Definition data_size (n : Z) : Prop := MIN_SIZE_ALIGNED ≤ n ∧ n mod MEM_ALIGNMENT = 0.

Lemma blk_ok_data n u : data_size n → blk_ok (Blk (n + SIZEOF_STRUCT_MEM) u).
Proof.
  intros [Hn Hm]. split; simpl; [change LEAST with 20; change MIN_SIZE_ALIGNED with 12 in Hn; change SIZEOF_STRUCT_MEM with 8; lia|].
  by rewrite Zplus_mod, Hm.
Qed.

Lemma blk_ok_rest sz n u : blk_ok (Blk sz u) → data_size n → n + SIZEOF_STRUCT_MEM + LEAST ≤ sz → blk_ok (Blk (sz - n - SIZEOF_STRUCT_MEM) u).
Proof.
  intros [_ Hs] [_ Hm] Hr. split; simpl in *; [change LEAST with 20 in *; change SIZEOF_STRUCT_MEM with 8 in *; lia|].
  unfold MEM_ALIGNMENT in *. change SIZEOF_STRUCT_MEM with 8. Z.div_mod_to_equations. lia.
Qed.

(** The block between [l1] and [l2] is cut in two. *)
Lemma tiled_cut h l1 sz u n l2 lf m :
  tiled h (l1 ++ Blk sz u :: l2) → data_size n → n + SIZEOF_STRUCT_MEM + LEAST ≤ sz →
  m !! (base + total l1) = Some (image (Blk (n + SIZEOF_STRUCT_MEM) true) (last_at 0 0 l1) (total l1)) →
  m !! (base + (total l1 + SIZEOF_STRUCT_MEM + n)) = Some (Mem (total l1 + sz) (total l1) 0) →
  (∀ x, x ≠ total l1 → x ≠ total l1 + SIZEOF_STRUCT_MEM + n → m !! (base + x) = mems h !! (base + x)) →
  tiled (MemHeap (ram h) (ram_end h) lf (relinked (total l1 + sz) (total l1 + SIZEOF_STRUCT_MEM + n) m))
    (l1 ++ Blk (n + SIZEOF_STRUCT_MEM) true :: Blk (sz - n - SIZEOF_STRUCT_MEM) false :: l2).
Proof.
  intros Ht Hn Hroom H1 H2 Hm. pose proof (block_bounds Ht) as (_ & _ & Hok & _). change SIZEOF_STRUCT_MEM with 8 in *. change LEAST with 20 in *.
  pose proof (blk_ok_data n true Hn) as Hok1. pose proof (blk_ok_rest sz n u Hok Hn Hroom) as Hok2. change SIZEOF_STRUCT_MEM with 8 in *.
  assert (12 ≤ n) as Hn12 by apply Hn.
  pose proof (tiled_relinked h l1 [Blk sz u] [Blk (n + 8) true; Blk (sz - n - 8) false] l2 lf m) as Hr.
  cbn [app last_at total bsize] in Hr. replace (total l1 + (n + 8)) with (total l1 + 8 + n) in Hr by lia.
  replace (total l1 + (sz + 0)) with (total l1 + sz) in Hr by lia. apply Hr; [done|lia| |].
  - cbn [seg]. split_and!; [exact H1|exact Hok1| |exact Hok2|cbn [bsize]; lia]. cbn [bsize].
    replace (total l1 + (n + 8)) with (total l1 + 8 + n) by lia. rewrite H2. unfold image. cbn [bsize bused Z.b2z]. do 2 f_equal. lia.
  - intros x Hx. apply Hm; lia.
Qed.

Lemma wp_use_block h l1 sz l2 size (Q : unit → mem_heap → Prop) :
  tiled h (l1 ++ Blk sz false :: l2) → data_size size → size + SIZEOF_STRUCT_MEM ≤ sz →
  (∀ h', tiled h' (l1 ++ used_part sz size ++ l2) → lfree h' = lfree h → Q tt h') →
  wp (use_block (base + total l1) (total l1) size (image (Blk sz false) (last_at 0 0 l1) (total l1))) Q h.
Proof.
  intros Ht Hsize Hfit HQ. pose proof (block_bounds Ht) as (Hp & Htot & Hok & Hl2 & _). pose proof Hok as [Hsz _].
  simpl in Hsz, Htot. pose proof Hsize as [Hs12 _]. pose proof (next_at Ht) as Hnext. simpl in Hnext. pose proof (block_at Ht) as Hat.
  change LEAST with 20 in *. change SIZEOF_STRUCT_MEM with 8 in *. change MIN_SIZE_ALIGNED with 12 in *. change MEM_SIZE_ALIGNED with 16384 in *.
  unfold use_block, used_part in *. cbn [image m_next bsize]. change SIZEOF_STRUCT_MEM with 8 in *. change MIN_SIZE_ALIGNED with 12. change LEAST with 20 in *.
  rewrite u32_id by lia. replace (total l1 + sz - (total l1 + 8)) with (sz - 8) by lia.
  destruct (Z.leb_spec (size + 8 + 12) (sz - 8)) as [Hsplit|Hwhole].
  - rewrite (proj2 (Z.leb_le (size + 8 + 20) sz)) in HQ by lia. rewrite u16_id by lia. change MEM_SIZE_ALIGNED with 16384.
    apply wp_bind, wp_assert; [apply negb_true_iff, Z.eqb_neq; lia|].
    apply wp_bind, wp_ptr_to_mem; [apply Ht|]. apply wp_bind, wp_wr_mem.
    apply wp_bind, (wp_wr_next _ _ (image (Blk sz false) (last_at 0 0 l1) (total l1))); [simpl; by rewrite lookup_insert_ne by lia|].
    apply wp_bind, (wp_wr_used _ _ (Mem (total l1 + 8 + size) (last_at 0 0 l1) 0)); [simpl; by rewrite lookup_insert_eq|].
    cbn [m_next m_prev]. apply wp_link_back; [apply Ht| |].
    + simpl. rewrite !lookup_insert_ne by lia. by rewrite Hnext.
    + apply HQ; [|done]. apply (tiled_cut h l1 sz false size l2 (lfree h)); [done|done|change SIZEOF_STRUCT_MEM with 8; change LEAST with 20; lia|..]; simpl.
      * rewrite lookup_insert_eq. unfold image. simpl. do 2 f_equal. change SIZEOF_STRUCT_MEM with 8. lia.
      * change SIZEOF_STRUCT_MEM with 8. do 2 rewrite lookup_insert_ne by lia. by rewrite lookup_insert_eq.
      * intros x Hx1 Hx2. change SIZEOF_STRUCT_MEM with 8 in Hx2. by rewrite !lookup_insert_ne by lia.
  - rewrite (proj2 (Z.leb_gt (size + 8 + 20) sz)) in HQ by lia.
    apply (wp_wr_used _ _ _ _ _ Hat). apply HQ; [|done]. by apply (tiled_marked h l1 sz false true l2 (lfree h)).
Qed.

Lemma wp_next_free n l1 l2 h (Q : Z → mem_heap → Prop) :
  tiled h (l1 ++ l2) → (length l2 < n)%nat → Q (base + first_free (total l1) l2) h → wp (next_free n (base + total l1)) Q h.
Proof.
  revert n l1. induction l2 as [|b l2 IH]; intros n l1 Ht Hn HQ; (destruct n as [|n]; [lia|]); cbn [next_free].
  - rewrite app_nil_r in Ht. pose proof (seg_total _ _ _ _ _ _ (ti_seg _ _ Ht)) as E. rewrite Z.add_0_l in E.
    rewrite <-E in *. apply wp_bind, (wp_rd_mem _ _ _ _ (ti_last _ _ Ht)), wp_bind, wp_gets. rewrite (ti_end _ _ Ht), Z.eqb_refl.
    by apply wp_ret.
  - pose proof (block_bounds Ht) as (Hp & Htot & [Hsz _] & Hl2 & _). change LEAST with 20 in Hsz.
    apply wp_bind, (wp_rd_mem _ _ _ _ (block_at Ht)), wp_bind, wp_gets. rewrite (ti_end _ _ Ht). cbn [first_free image m_used m_next] in *.
    rewrite (proj2 (Z.eqb_neq (base + total l1) _)) by lia. destruct (bused b); cbn [Z.b2z Z.eqb negb andb]; [|by apply wp_ret].
    apply wp_bind, wp_ptr_to_mem; [apply Ht|]. replace (total l1 + bsize b) with (total (l1 ++ [b])) in * by (rewrite total_app; simpl; lia).
    apply IH; [by rewrite <-app_assoc|simpl in Hn; lia|done].
Qed.

Lemma tiled_short h l : tiled h l → (length l < mem_fuel)%nat.
Proof.
  intros Ht. pose proof (seg_length _ _ _ _ _ _ (ti_seg _ _ Ht)) as Hl. change LEAST with 20 in Hl.
  change MEM_SIZE_ALIGNED with 16384 in Hl. unfold mem_fuel. change (MEM_SIZE_ALIGNED / SIZEOF_STRUCT_MEM) with 2048. lia.
Qed.

(** What is at the end of a walk: the end of the array, or a free block. *)
Lemma first_free_read h l :
  tiled h l → ∃ b, mems h !! (base + first_free 0 l) = Some b ∧
    ((base + first_free 0 l =? base + MEM_SIZE_ALIGNED) || (m_used b =? 0) = true).
Proof.
  intros Ht. destruct (first_free_split 0 l) as (l1 & l2 & -> & _ & -> & H2). rewrite Z.add_0_l.
  destruct l2 as [|b l2].
  - rewrite app_nil_r in Ht. pose proof (seg_total _ _ _ _ _ _ (ti_seg _ _ Ht)) as E. rewrite Z.add_0_l in E.
    rewrite <-E. eexists. split; [apply (ti_last _ _ Ht)|]. by rewrite Z.eqb_refl.
  - eexists. split; [apply (block_at Ht)|]. cbn [image m_used]. rewrite H2. apply orb_true_r.
Qed.

Lemma wp_adjust_lfree h l1 l2 (Q : unit → mem_heap → Prop) :
  tiled h (l1 ++ l2) →
  (lfree h = base + total l1 → all_used l1) → (lfree h ≠ base + total l1 → lfree h = base + first_free 0 (l1 ++ l2)) →
  (∀ h', tiled h' (l1 ++ l2) → lfree h' = base + first_free 0 (l1 ++ l2) → Q tt h') → wp (adjust_lfree (base + total l1)) Q h.
Proof.
  intros Ht Hyes Hno HQ. unfold adjust_lfree. apply wp_bind, wp_gets.
  destruct (Z.eqb_spec (base + total l1) (lfree h)) as [E|Hne]; cbn [when_].
  - rewrite <-E. apply wp_bind, (wp_next_free _ l1 l2); [done| |].
    { pose proof (tiled_short _ _ Ht) as Hlen. rewrite length_app in Hlen. lia. }
    apply wp_bind, wp_set_lfree. symmetry in E. specialize (Hyes E).
    assert (first_free (total l1) l2 = first_free 0 (l1 ++ l2)) as Ef by (by rewrite first_free_skip).
    rewrite Ef. destruct (first_free_read h _ Ht) as (b & Hb & Hok).
    apply wp_bind, (wp_rd_mem _ b); [done|]. apply wp_bind, wp_gets. cbn [ram_end with_lfree]. rewrite (ti_end _ _ Ht).
    apply wp_assert; [done|]. apply HQ; [|done]. by destruct Ht.
  - apply wp_ret, HQ; [done|]. apply Hno. by intros E.
Qed.

(** First fit, by index. *)
Fixpoint abs_malloc (size p : Z) (l : list blk) : option (Z * list blk) :=
  match l with
  | [] => None
  | b :: l =>
      if negb (bused b) && (size + SIZEOF_STRUCT_MEM <=? bsize b) then Some (p, used_part (bsize b) size ++ l)
      else match abs_malloc size (p + bsize b) l with Some (q, l') => Some (q, b :: l') | None => None end
  end.

Lemma abs_malloc_skip size p l1 l2 :
  Forall (λ b, negb (bused b) && (size + SIZEOF_STRUCT_MEM <=? bsize b) = false) l1 →
  abs_malloc size p (l1 ++ l2) = match abs_malloc size (p + total l1) l2 with Some (q, l') => Some (q, l1 ++ l') | None => None end.
Proof.
  intros Hl. revert p. induction Hl as [|b l1 Hb _ IH]; intros p; simpl.
  - rewrite Z.add_0_r. by destruct (abs_malloc size p l2) as [[]|].
  - rewrite Hb, IH. replace (p + bsize b + total l1) with (p + (bsize b + total l1)) by lia.
    by destruct (abs_malloc _ _ l2) as [[]|].
Qed.

Lemma abs_malloc_none size p l q :
  0 < size → Forall blk_ok l → p + total l = q → q - size ≤ p → abs_malloc size p l = None.
Proof.
  intros Hs Hok. revert p. induction Hok as [|b l [Hb _] Hok IH]; intros p Et Hp; simpl in *; [done|].
  pose proof (proj1 (total_bound l Hok)). change LEAST with 20 in *. change SIZEOF_STRUCT_MEM with 8.
  rewrite (proj2 (Z.leb_gt _ _)) by lia. rewrite andb_false_r. by rewrite IH by lia.
Qed.

Lemma apart_used_part f sz size l1 l2 :
  apart f (l1 ++ Blk sz false :: l2) → apart f (l1 ++ used_part sz size ++ l2).
Proof.
  intros [H1 [_ H2]]%apart_app. apply apart_app. split; [done|]. unfold used_part.
  destruct (_ <=? _); simpl; (split; [done|]); [by split|]. by apply apart_weaken in H2.
Qed.

Lemma wp_search n size l1 l2 h (Q : Z → mem_heap → Prop) :
  heap_rep h (l1 ++ l2) → data_size size → size ≤ MEM_SIZE_ALIGNED → (length l2 < n)%nat →
  match abs_malloc size (total l1) l2 with
  | Some (q, l2') => ∀ h', heap_rep h' (l1 ++ l2') → Q (base + q + SIZEOF_STRUCT_MEM) h'
  | None => Q NULL h
  end → wp (search n size (total l1)) Q h.
Proof.
  revert n l1. induction l2 as [|b l2 IH]; intros n l1 [Ht Hlf Hap] Hsize Hmax Hn HQ; (destruct n as [|n]; [lia|]); cbn [search].
  - rewrite app_nil_r in Ht. pose proof (seg_total _ _ _ _ _ _ (ti_seg _ _ Ht)) as E. destruct Hsize as [Hs12 _].
    change MIN_SIZE_ALIGNED with 12 in Hs12. rewrite (proj2 (Z.ltb_ge _ _)) by lia. by apply wp_ret.
  - pose proof (block_bounds Ht) as (Hp & Htot & Hok & Hl2 & Hal). pose proof Hok as [Hsz _]. destruct Hsize as [Hs12 Hsm].
    destruct (Z.ltb_spec (total l1) (MEM_SIZE_ALIGNED - size)) as [Hin|Hout].
    2:{ apply wp_ret. rewrite (abs_malloc_none _ _ _ MEM_SIZE_ALIGNED) in HQ; [done| | |simpl; lia|lia].
        - change MIN_SIZE_ALIGNED with 12 in Hs12. lia.
        - by apply tiled_ok, Forall_app in Ht as [_ ?]. }
    apply wp_bind, wp_ptr_to_mem; [apply Ht|]. apply wp_bind, (wp_rd_mem _ _ _ _ (block_at Ht)). cbn [image m_used m_next abs_malloc] in *.
    change LEAST with 20 in *. change SIZEOF_STRUCT_MEM with 8 in *. change MEM_SIZE_ALIGNED with 16384 in *. rewrite u32_id by lia.
    replace (total l1 + bsize b - (total l1 + 8)) with (bsize b - 8) by lia.
    assert ((Z.b2z (bused b) =? 0) && (size <=? bsize b - 8) = negb (bused b) && (size + 8 <=? bsize b)) as ->.
    { destruct (bused b); [done|]. simpl. apply Bool.eq_iff_eq_true. rewrite !Z.leb_le. lia. }
    destruct (negb (bused b) && (size + 8 <=? bsize b)) eqn:Efit.
    + apply andb_true_iff in Efit as [Hfree%negb_true_iff Hfit%Z.leb_le]. destruct b as [sz u]. simpl in Hfree, Hfit, Hsz, Htot. subst u.
      apply wp_bind, (wp_use_block h l1 sz l2 size); [done|done|change SIZEOF_STRUCT_MEM with 8; lia|]. intros h1 Ht1 Hlf1.
      pose proof (tiled_ok _ _ Ht) as [Hok1 _]%Forall_app.
      apply wp_bind, (wp_adjust_lfree h1 l1 (used_part sz size ++ l2)); [done| | |].
      * rewrite Hlf1, Hlf. intros E. destruct (decide (all_used l1)) as [|Hna]; [done|].
        pose proof (first_free_in 0 l1 (Blk sz false :: l2) Hna Hok1). lia.
      * rewrite Hlf1, Hlf. intros Hne. f_equal. apply some_free. intros Ha. apply Hne. rewrite first_free_skip by done. by rewrite Z.add_0_l.
      * intros h2 Ht2 Hlf2. apply wp_bind, wp_gets. rewrite (ti_end _ _ Ht2). change MEM_SIZE_ALIGNED with 16384.
        apply wp_bind, wp_assert; [apply Z.leb_le; lia|]. pose proof base_aligned as Hba. unfold MEM_ALIGNMENT in Hba, Hal.
        apply wp_bind, wp_assert; [unfold MEM_ALIGNMENT; apply Z.eqb_eq; Z.div_mod_to_equations; lia|].
        apply wp_bind, wp_assert; [rewrite land_alignment; unfold MEM_ALIGNMENT; apply Z.eqb_eq; Z.div_mod_to_equations; lia|].
        apply wp_ret, HQ. split; [done|done|by apply apart_used_part].
    + replace (total l1 + bsize b) with (total (l1 ++ [b])) in * by (rewrite total_app; simpl; lia).
      apply (IH n (l1 ++ [b])); [rewrite <-app_assoc; by split|done|done|simpl in Hn; lia|].
      destruct (abs_malloc size (total (l1 ++ [b])) l2) as [[q l2']|]; [|done]. intros h' Hh'. apply HQ. by rewrite <-app_assoc in Hh'.
Qed.

Lemma block_size_spec n :
  0 ≤ n < 65536 →
  if n <=? MEM_SIZE_ALIGNED then data_size (block_size n) ∧ n ≤ block_size n ≤ MEM_SIZE_ALIGNED
  else (MEM_SIZE_ALIGNED <? block_size n) || (block_size n <? n) = true.
Proof.
  intros Hn. unfold block_size, data_size, MEM_ALIGNMENT. change MIN_SIZE_ALIGNED with 12. change MEM_SIZE_ALIGNED with 16384.
  assert (LWIP_MEM_ALIGN_SIZE n = (n + 3) / 4 * 4) as E by apply align_up. rewrite E.
  destruct (Z.leb_spec n 16384) as [Hle|Hgt].
  - rewrite u16_id by (Z.div_mod_to_equations; lia). destruct (Z.ltb_spec ((n + 3) / 4 * 4) 12); [split; [done|Z.div_mod_to_equations; lia]|].
    rewrite Z.mod_mul by done. split; [by split|]. Z.div_mod_to_equations. lia.
  - apply orb_true_iff. rewrite !Z.ltb_lt. unfold u16. case_match; [lia|]. Z.div_mod_to_equations. lia.
Qed.

(** What [mem_malloc] answers, by index of the block. *)
Definition spec_malloc (n : Z) (l : list blk) : option (Z * list blk) :=
  if (n =? 0) || (MEM_SIZE_ALIGNED <? n) then None else abs_malloc (block_size n) 0 l.

Lemma wp_mem_malloc_rep h l n (Q : Z → mem_heap → Prop) :
  heap_rep h l → 0 ≤ n < 65536 →
  match spec_malloc n l with
  | Some (q, l') => ∀ h', heap_rep h' l' → Q (base + q + SIZEOF_STRUCT_MEM) h'
  | None => Q NULL h
  end → wp (Mem.mem_malloc n) Q h.
Proof.
  intros Hh Hn HQ. unfold Mem.mem_malloc, spec_malloc in *. destruct (n =? 0); cbn [orb] in HQ; [by apply wp_ret|].
  pose proof (block_size_spec n Hn) as Hbs. rewrite Z.leb_antisym in Hbs.
  destruct (MEM_SIZE_ALIGNED <? n); cbn [negb] in Hbs; [rewrite Hbs; by apply wp_ret|]. destruct Hbs as [Hd [Hle Hmax]].
  rewrite (proj2 (Z.ltb_ge _ _)), (proj2 (Z.ltb_ge _ _)) by lia. cbn [orb]. pose proof Hh as [Ht Hlf _].
  destruct (first_free_split 0 l) as (l1 & l2 & -> & Hu & E & _). rewrite Z.add_0_l in E. rewrite E in Hlf.
  assert (0 ≤ total l1 ≤ MEM_SIZE_ALIGNED) as Hb.
  { pose proof (seg_total _ _ _ _ _ _ (ti_seg _ _ Ht)) as Et. rewrite total_app in Et. pose proof (tiled_ok _ _ Ht) as [H1 H2]%Forall_app.
    pose proof (proj1 (total_bound l1 H1)). pose proof (proj1 (total_bound l2 H2)). change LEAST with 20 in *. lia. }
  apply wp_bind, wp_gets. rewrite Hlf. apply wp_bind, wp_mem_to_ptr; [apply Ht|change MEM_SIZE_ALIGNED with 16384 in Hb; lia|].
  rewrite abs_malloc_skip, Z.add_0_l in HQ by (eapply Forall_impl; [exact Hu|]; by intros b ->).
  apply (wp_search _ _ l1 l2); [done|done|done| |].
  - pose proof (tiled_short _ _ Ht) as Hlen. rewrite length_app in Hlen. lia.
  - by destruct (abs_malloc (block_size n) (total l1) l2) as [[q l2']|].
Qed.

(** ** Trimming *)

(** What [mem_trim] leaves of the used block of [sz] bytes before [l2]. *)
Definition trimmed (sz n : Z) (l2 : list blk) : list blk :=
  let newsize := block_size n in
  if newsize + SIZEOF_STRUCT_MEM =? sz then Blk sz true :: l2
  else match l2 with
       | Blk k false :: l => Blk (newsize + SIZEOF_STRUCT_MEM) true :: Blk (sz - newsize - SIZEOF_STRUCT_MEM + k) false :: l
       | _ => if newsize + SIZEOF_STRUCT_MEM + LEAST <=? sz
              then Blk (newsize + SIZEOF_STRUCT_MEM) true :: Blk (sz - newsize - SIZEOF_STRUCT_MEM) false :: l2
              else Blk sz true :: l2
       end.

(** The free block behind moves down. *)
Lemma tiled_moved h l1 sz u k l3 n lf m :
  tiled h (l1 ++ Blk sz u :: Blk k false :: l3) → data_size n → n + SIZEOF_STRUCT_MEM < sz →
  m !! (base + total l1) = Some (image (Blk (n + SIZEOF_STRUCT_MEM) true) (last_at 0 0 l1) (total l1)) →
  m !! (base + (total l1 + SIZEOF_STRUCT_MEM + n)) = Some (Mem (total l1 + sz + k) (total l1) 0) →
  (∀ x, x ≠ total l1 → x ≠ total l1 + SIZEOF_STRUCT_MEM + n → m !! (base + x) = mems h !! (base + x)) →
  tiled (MemHeap (ram h) (ram_end h) lf (relinked (total l1 + sz + k) (total l1 + SIZEOF_STRUCT_MEM + n) m))
    (l1 ++ Blk (n + SIZEOF_STRUCT_MEM) true :: Blk (sz - n - SIZEOF_STRUCT_MEM + k) false :: l3).
Proof.
  intros Ht Hn Hroom H1 H2 Hm. pose proof (tiled_ok _ _ Ht) as [_ [Hok [Hok' _]%Forall_cons]%Forall_cons]%Forall_app.
  pose proof (blk_ok_data n true Hn) as Hok1. pose proof Hn as [Hn12 Hnm]. destruct Hok as [Hs Hsm], Hok' as [Hk Hkm]. simpl in Hs, Hsm, Hk, Hkm.
  change SIZEOF_STRUCT_MEM with 8 in *. change LEAST with 20 in *. change MIN_SIZE_ALIGNED with 12 in Hn12.
  pose proof (tiled_relinked h l1 [Blk sz u; Blk k false] [Blk (n + 8) true; Blk (sz - n - 8 + k) false] l3 lf m) as Hr.
  cbn [app last_at total bsize] in Hr. replace (total l1 + (n + 8)) with (total l1 + 8 + n) in Hr by lia.
  replace (total l1 + (sz + (k + 0))) with (total l1 + sz + k) in Hr by lia. apply Hr; [done|lia| |].
  - cbn [seg]. split_and!; [exact H1|exact Hok1| | |cbn [bsize]; lia]; cbn [bsize].
    + replace (total l1 + (n + 8)) with (total l1 + 8 + n) by lia. rewrite H2. unfold image. cbn [bsize bused Z.b2z]. do 2 f_equal. lia.
    + split; cbn [bsize]; [change LEAST with 20; lia|]. unfold MEM_ALIGNMENT in *. Z.div_mod_to_equations. lia.
  - intros x Hx. apply Hm; lia.
Qed.

(** The new free block is the first unless there is one before. *)
Lemma first_free_cut h l1 sz l2 n b l2' :
  heap_rep h (l1 ++ Blk sz true :: l2) → bused b = false →
  base + first_free 0 (l1 ++ Blk n true :: b :: l2') = if decide (all_used l1) then base + (total l1 + n) else lfree h.
Proof.
  intros [Ht Hlf _] Hb. case_decide as Ha.
  - rewrite first_free_skip by done. simpl. by rewrite Hb.
  - rewrite Hlf. f_equal. by apply some_free.
Qed.

Lemma lfree_low h l1 b l2 : heap_rep h (l1 ++ b :: l2) → ¬ all_used l1 → lfree h < base + total l1.
Proof.
  intros [Ht -> _] Hna. pose proof (tiled_ok _ _ Ht) as [Hok1 _]%Forall_app.
  pose proof (first_free_in 0 l1 (b :: l2) Hna Hok1). lia.
Qed.

Lemma wp_move_next h l1 sz k l3 ns (Q : unit → mem_heap → Prop) :
  heap_rep h (l1 ++ Blk sz true :: Blk k false :: l3) → data_size ns → ns + SIZEOF_STRUCT_MEM < sz →
  (∀ h', heap_rep h' (l1 ++ Blk (ns + SIZEOF_STRUCT_MEM) true :: Blk (sz - ns - SIZEOF_STRUCT_MEM + k) false :: l3) → Q tt h') →
  wp (move_next (base + total l1) (total l1) ns (base + (total l1 + sz))
    (image (Blk sz true) (last_at 0 0 l1) (total l1)) (image (Blk k false) (total l1) (total l1 + sz))) Q h.
Proof.
  intros Hh Hd Hlt HQ. pose proof Hh as [Ht Hlf Hap]. pose proof (block_bounds Ht) as (Hp & Htot & _ & _ & _). pose proof (block_at Ht) as Hat.
  pose proof (tiled_ok _ _ Ht) as [_ [_ [[Hk _] Hok3]%Forall_cons]%Forall_cons]%Forall_app. pose proof (proj1 (total_bound l3 Hok3)).
  pose proof Hd as [Hd12 _]. simpl in Htot, Hk. change LEAST with 20 in *. change SIZEOF_STRUCT_MEM with 8 in *. change MIN_SIZE_ALIGNED with 12 in *. change MEM_SIZE_ALIGNED with 16384 in *.
  unfold move_next. cbn [image m_next bsize]. change MEM_SIZE_ALIGNED with 16384. change SIZEOF_STRUCT_MEM with 8.
  apply wp_bind, wp_assert; [apply negb_true_iff, Z.eqb_neq; lia|]. rewrite u16_id by lia.
  apply wp_bind, wp_ptr_to_mem; [apply Ht|]. apply wp_bind, wp_gets.
  set (new := base + (total l1 + 8 + ns)).
  assert (∀ lf, lf = (if decide (all_used l1) then new else lfree h) →
    wp (wr_mem new (Mem (total l1 + sz + k) (total l1) 0);; wr_next (base + total l1) (total l1 + 8 + ns);; link_back (total l1 + sz + k) (total l1 + 8 + ns))
      Q (with_lfree h lf)) as Hgo.
  { intros lf Elf. apply wp_bind, wp_wr_mem.
    apply wp_bind, (wp_wr_next _ _ (image (Blk sz true) (last_at 0 0 l1) (total l1))); [simpl; unfold new; by rewrite lookup_insert_ne by lia|].
    apply wp_link_back; [apply Ht| |].
    - simpl. unfold new. rewrite !lookup_insert_ne by lia.
      change (l1 ++ Blk sz true :: Blk k false :: l3) with (l1 ++ [Blk sz true] ++ Blk k false :: l3) in Ht. rewrite app_assoc in Ht.
      pose proof (next_at Ht) as Hn. rewrite total_app in Hn. simpl in Hn. replace (total l1 + sz + k) with (total l1 + (sz + 0) + k) by lia. by rewrite Hn.
    - apply HQ. split.
      + apply (tiled_moved h l1 sz true k l3 ns lf); [done|done|change SIZEOF_STRUCT_MEM with 8; lia|..]; change SIZEOF_STRUCT_MEM with 8; simpl.
        * rewrite lookup_insert_eq. unfold image. simpl. do 2 f_equal. lia.
        * rewrite lookup_insert_ne by lia. by rewrite lookup_insert_eq.
        * intros x Hx1 Hx2. unfold new. by rewrite !lookup_insert_ne by lia.
      + simpl. rewrite Elf. rewrite (first_free_cut h l1 sz (Blk k false :: l3)) by done. case_decide; [unfold new; lia|done].
      + apply apart_app in Hap as [Hap1 [_ [_ Hap3]]]. apply apart_app. by split. }
  destruct (decide (all_used l1)) as [Ha|Hna].
  - rewrite Hlf, first_free_skip by done. simpl. rewrite Z.eqb_refl. apply wp_bind, wp_set_lfree, Hgo. done.
  - pose proof (lfree_low _ _ _ _ Hh Hna). rewrite (proj2 (Z.eqb_neq (lfree h) _)) by lia. apply wp_bind, wp_ret.
    specialize (Hgo (lfree h) eq_refl). by destruct h.
Qed.

Lemma wp_split_end h l1 sz b l3 ns (Q : unit → mem_heap → Prop) :
  heap_rep h (l1 ++ Blk sz true :: b :: l3) → bused b = true → data_size ns → ns + SIZEOF_STRUCT_MEM + LEAST ≤ sz →
  (∀ h', heap_rep h' (l1 ++ Blk (ns + SIZEOF_STRUCT_MEM) true :: Blk (sz - ns - SIZEOF_STRUCT_MEM) false :: b :: l3) → Q tt h') →
  wp (split_end (base + total l1) (total l1) ns (image (Blk sz true) (last_at 0 0 l1) (total l1))) Q h.
Proof.
  intros Hh Hb Hd Hlt HQ. pose proof Hh as [Ht Hlf Hap]. pose proof (block_bounds Ht) as (Hp & Htot & _ & _ & _). pose proof (block_at Ht) as Hat.
  pose proof (tiled_ok _ _ Ht) as [_ [_ Hok2]%Forall_cons]%Forall_app. pose proof (next_at Ht) as Hnext.
  pose proof Hok2 as [[Hk _] Hok3]%Forall_cons. pose proof (proj1 (total_bound l3 Hok3)).
  pose proof Hd as [Hd12 _]. simpl in Htot, Hnext. change LEAST with 20 in *. change SIZEOF_STRUCT_MEM with 8 in *. change MIN_SIZE_ALIGNED with 12 in *. change MEM_SIZE_ALIGNED with 16384 in *.
  unfold split_end. cbn [image m_next bsize]. change MEM_SIZE_ALIGNED with 16384. change SIZEOF_STRUCT_MEM with 8. rewrite u16_id by lia.
  apply wp_bind, wp_assert; [apply negb_true_iff, Z.eqb_neq; lia|].
  apply wp_bind, wp_ptr_to_mem; [apply Ht|]. apply wp_bind, wp_gets.
  set (new := base + (total l1 + 8 + ns)).
  assert (∀ lf, lf = (if decide (all_used l1) then new else lfree h) →
    wp (wr_mem new (Mem (total l1 + sz) (total l1) 0);; wr_next (base + total l1) (total l1 + 8 + ns);; link_back (total l1 + sz) (total l1 + 8 + ns))
      Q (with_lfree h lf)) as Hgo.
  { intros lf Elf. apply wp_bind, wp_wr_mem.
    apply wp_bind, (wp_wr_next _ _ (image (Blk sz true) (last_at 0 0 l1) (total l1))); [simpl; unfold new; by rewrite lookup_insert_ne by lia|].
    apply wp_link_back; [apply Ht| |].
    - simpl. unfold new. rewrite !lookup_insert_ne by lia. by rewrite Hnext.
    - apply HQ. split.
      + apply (tiled_cut h l1 sz true ns (b :: l3) lf); [done|done|change SIZEOF_STRUCT_MEM with 8; change LEAST with 20; lia|..]; change SIZEOF_STRUCT_MEM with 8; simpl.
        * rewrite lookup_insert_eq. unfold image. simpl. do 2 f_equal. lia.
        * rewrite lookup_insert_ne by lia. by rewrite lookup_insert_eq.
        * intros x Hx1 Hx2. unfold new. by rewrite !lookup_insert_ne by lia.
      + simpl. rewrite Elf. rewrite (first_free_cut h l1 sz (b :: l3)) by done. case_decide; [unfold new; lia|done].
      + apply apart_app in Hap as [Hap1 [_ [_ Hap3]]]. apply apart_app. split; [done|]. simpl. rewrite Hb in *. by split_and!. }
  destruct (decide (all_used l1)) as [Ha|Hna].
  - rewrite Hlf, first_free_skip, Z.add_0_l by done. simpl. pose proof (first_free_ge (total l1 + sz) (b :: l3) Hok2) as Hge. simpl in Hge. rewrite Hb in Hge |- *.
    rewrite (proj2 (Z.ltb_lt new _)) by (unfold new; lia). apply wp_bind, wp_set_lfree, Hgo. done.
  - pose proof (lfree_low _ _ _ _ Hh Hna). rewrite (proj2 (Z.ltb_ge new _)) by (unfold new; lia). apply wp_bind, wp_ret.
    specialize (Hgo (lfree h) eq_refl). by destruct h.
Qed.

Lemma block_size_fits n sz :
  0 ≤ n ≤ sz - SIZEOF_STRUCT_MEM → blk_ok (Blk sz true) → sz ≤ MEM_SIZE_ALIGNED →
  data_size (block_size n) ∧ n ≤ block_size n ≤ MEM_SIZE_ALIGNED ∧ block_size n + SIZEOF_STRUCT_MEM ≤ sz.
Proof.
  intros Hn [Hsz Hm] Hmax. simpl in Hsz, Hm. change SIZEOF_STRUCT_MEM with 8 in *. change LEAST with 20 in Hsz. change MEM_SIZE_ALIGNED with 16384 in *.
  pose proof (block_size_spec n) as Hbs. change MEM_SIZE_ALIGNED with 16384 in Hbs.
  rewrite (proj2 (Z.leb_le n 16384)) in Hbs by lia. destruct Hbs as [Hd Hb]; [lia|]. split_and!; [done|lia|lia|].
  unfold block_size. change MIN_SIZE_ALIGNED with 12. destruct (Z.ltb_spec (u16 (LWIP_MEM_ALIGN_SIZE n)) 12); [lia|].
  assert (LWIP_MEM_ALIGN_SIZE n = (n + 3) / 4 * 4) as E by apply align_up. rewrite E, u16_id by (Z.div_mod_to_equations; lia).
  unfold MEM_ALIGNMENT in Hm. Z.div_mod_to_equations. lia.
Qed.

Lemma wp_mem_trim_rep h l1 sz l2 n (Q : Z → mem_heap → Prop) :
  heap_rep h (l1 ++ Blk sz true :: l2) → l2 ≠ [] → 0 ≤ n ≤ sz - SIZEOF_STRUCT_MEM →
  (∀ h', heap_rep h' (l1 ++ trimmed sz n l2) → Q (base + total l1 + SIZEOF_STRUCT_MEM) h') →
  wp (Mem.mem_trim (base + total l1 + SIZEOF_STRUCT_MEM) n) Q h.
Proof.
  intros Hh Hl2 Hn HQ. pose proof Hh as [Ht _ _]. pose proof (block_bounds Ht) as (Hp & Htot & Hok & Hl2t & _).
  pose proof (next_at Ht) as Hnext. pose proof (block_at Ht) as Hat. simpl in Hnext, Htot.
  destruct (block_size_fits n sz Hn Hok) as (Hd & Hns & Hfits); [lia|]. pose proof Hd as [Hd12 _]. pose proof Hok as [Hsz _]. simpl in Hsz.
  unfold Mem.mem_trim, trimmed in *. set (ns := block_size n) in *. change SIZEOF_STRUCT_MEM with 8 in *. change LEAST with 20 in *.
  change MIN_SIZE_ALIGNED with 12 in *. change MEM_SIZE_ALIGNED with 16384 in *.
  rewrite (proj2 (Z.ltb_ge _ ns)), (proj2 (Z.ltb_ge ns _)) by lia. cbn [orb].
  apply wp_bind, wp_gets, wp_bind, wp_gets. rewrite (ti_ram _ _ Ht), (ti_end _ _ Ht). change MEM_SIZE_ALIGNED with 16384.
  apply wp_bind, wp_assert; [apply andb_true_iff; split; [apply Z.leb_le|apply Z.ltb_lt]; lia|].
  rewrite Z.add_simpl_r. apply wp_bind, wp_mem_to_ptr; [apply Ht|lia|]. apply wp_bind, (wp_rd_mem _ _ _ _ Hat). cbn [image m_next bsize].
  replace (total l1 + sz - total l1) with sz by lia. rewrite (u16_id sz), (u16_id (sz - 8)) by lia.
  apply wp_bind, wp_assert; [apply Z.leb_le; lia|].
  destruct (Z.eqb_spec ns (sz - 8)) as [Eq|Hne].
  { apply wp_ret, HQ. by rewrite (proj2 (Z.eqb_eq _ _)) by lia. }
  rewrite (proj2 (Z.eqb_neq (ns + 8) sz)) in HQ by lia.
  apply wp_bind, wp_ptr_to_mem; [apply Ht|]. apply wp_bind, (wp_rd_mem _ _ _ _ Hnext). apply wp_bind.
  destruct l2 as [|[k [|]] l3]; [done| |]; cbn [image m_used bused Z.b2z Z.eqb].
  - apply wp_when.
    + intros Hroom%Z.leb_le. rewrite (proj2 (Z.leb_le (ns + 8 + 20) sz)) in HQ by lia.
      apply (wp_split_end h l1 sz (Blk k true) l3 ns); [done|done|done|change SIZEOF_STRUCT_MEM with 8; change LEAST with 20; lia|].
      intros h' Hh'. by apply wp_ret, HQ.
    + intros Hroom%Z.leb_gt. rewrite (proj2 (Z.leb_gt (ns + 8 + 20) sz)) in HQ by lia. by apply wp_ret, HQ.
  - apply (wp_move_next h l1 sz k l3 ns); [done|done|change SIZEOF_STRUCT_MEM with 8; lia|]. intros h' Hh'. by apply wp_ret, HQ.
Qed.

(** ** The beginning *)

Lemma wp_mem_init h (Q : unit → mem_heap → Prop) :
  (∀ h', heap_rep h' [Blk MEM_SIZE_ALIGNED false] → Q tt h') → wp (mem_init ram_heap) Q h.
Proof.
  intros HQ. unfold mem_init. apply wp_bind, wp_assert; [done|]. apply wp_bind, wp_modify, wp_bind, wp_gets.
  apply wp_bind, wp_wr_mem. apply wp_bind, wp_ptr_to_mem; [done|]. apply wp_bind, wp_modify. apply wp_bind, wp_wr_mem.
  apply wp_set_lfree, HQ. split; [|cbn; lia|done]. split; [done|done| |]; cbn [mems with_lfree with_mems ram].
  - cbn [seg]. change MEM_SIZE_ALIGNED with 16384. split_and!; [|done|done]. rewrite Z.add_0_r, lookup_insert_ne by lia. by rewrite lookup_insert_eq.
  - apply lookup_insert_eq.
Qed.

(** ** The blocks in use *)

(** Their data: where and how many bytes. *)
Fixpoint in_use (p : Z) (l : list blk) : list (Z * Z) :=
  match l with
  | [] => []
  | b :: l =>
      (if bused b then [(base + p + SIZEOF_STRUCT_MEM, bsize b - SIZEOF_STRUCT_MEM)] else []) ++ in_use (p + bsize b) l
  end.

Lemma in_use_app p l1 l2 : in_use p (l1 ++ l2) = in_use p l1 ++ in_use (p + total l1) l2.
Proof.
  revert p. induction l1 as [|b l1 IH]; intros p; simpl; [by rewrite Z.add_0_r|]. rewrite IH, app_assoc. do 2 f_equal. lia.
Qed.

Lemma in_use_split p l a k :
  (a, k) ∈ in_use p l → ∃ l1 l2, l = l1 ++ Blk (k + SIZEOF_STRUCT_MEM) true :: l2 ∧ a = base + (p + total l1) + SIZEOF_STRUCT_MEM.
Proof.
  revert p. induction l as [|[sz u] l IH]; intros p; simpl; [by intros ?%elem_of_nil|]. intros [Hh|Ht]%elem_of_app.
  - destruct u; [|by apply elem_of_nil in Hh]. apply list_elem_of_singleton in Hh as [= -> ->]. exists [], l. simpl. split; [do 2 f_equal; lia|lia].
  - destruct (IH _ Ht) as (l1 & l2 & -> & ->). exists (Blk sz u :: l1), l2. simpl. split; [done|lia].
Qed.

Lemma in_use_low p l a k : Forall blk_ok l → (a, k) ∈ in_use p l → base + p + SIZEOF_STRUCT_MEM ≤ a.
Proof.
  intros Hok Ha. apply in_use_split in Ha as (l1 & l2 & -> & ->). apply Forall_app in Hok as [H1 _].
  pose proof (proj1 (total_bound l1 H1)). change LEAST with 20 in *. lia.
Qed.

Lemma in_use_nodup p l : Forall blk_ok l → NoDup (in_use p l).*1.
Proof.
  intros Hok. revert p. induction Hok as [|[sz u] l [Hsz _] Hok IH]; intros p; simpl; [constructor|]. simpl in Hsz. change LEAST with 20 in Hsz.
  destruct u; [|apply IH]. simpl. constructor; [|apply IH]. intros ([a k] & E & Ha)%list_elem_of_fmap. simpl in E. subst a.
  pose proof (in_use_low _ _ _ _ Hok Ha). lia.
Qed.

Lemma in_use_apart p l a k b j :
  Forall blk_ok l → (a, k) ∈ in_use p l → (b, j) ∈ in_use p l → a ≠ b → a + k ≤ b ∨ b + j ≤ a.
Proof.
  revert p. induction l as [|[sz u] l IH]; intros p Hok Ha Hb Hne; [by apply elem_of_nil in Ha|].
  apply Forall_cons in Hok as [Hsz Hok]. simpl in Ha, Hb. apply elem_of_app in Ha, Hb.
  assert (∀ x i, (x, i) ∈ (if u then [(base + p + SIZEOF_STRUCT_MEM, sz - SIZEOF_STRUCT_MEM)] else []) →
    x = base + p + SIZEOF_STRUCT_MEM ∧ i = sz - SIZEOF_STRUCT_MEM) as Hhd.
  { intros x i. destruct u; [|by intros ?%elem_of_nil]. by intros [= -> ->]%list_elem_of_singleton. }
  destruct Ha as [Ha%Hhd|Ha], Hb as [Hb%Hhd|Hb]; [lia| | |by eapply IH].
  - destruct Ha as [-> ->]. pose proof (in_use_low _ _ _ _ Hok Hb). change SIZEOF_STRUCT_MEM with 8 in *. lia.
  - destruct Hb as [-> ->]. pose proof (in_use_low _ _ _ _ Hok Ha). change SIZEOF_STRUCT_MEM with 8 in *. lia.
Qed.

Lemma in_use_freed l1 sz l2 : in_use 0 (freed l1 sz l2) = in_use 0 l1 ++ in_use (total l1 + sz) l2.
Proof.
  assert (∀ p, (let '(sz', l2') := join_right sz l2 in in_use (p + sz') l2') = in_use (p + sz) l2) as Hr.
  { intros p. destruct l2 as [|[n [|]] l]; simpl; [done|done|]. f_equal. lia. }
  unfold freed. specialize (Hr (total l1)). destruct (join_right sz l2) as [sz1 l2']. rewrite <-Hr.
  unfold join_left. destruct (rev l1) as [|[n [|]] l] eqn:E.
  1,2: by rewrite in_use_app.
  assert (l1 = rev l ++ [Blk n false]) as -> by (by rewrite <-(rev_involutive l1), E).
  rewrite !in_use_app, total_app. simpl. rewrite app_nil_r. do 2 f_equal. lia.
Qed.

Lemma in_use_malloc size p l q l' :
  abs_malloc size p l = Some (q, l') →
  ∃ k, size ≤ k ∧ in_use p l' ≡ₚ (base + q + SIZEOF_STRUCT_MEM, k) :: in_use p l.
Proof.
  revert p q l'. induction l as [|[sz u] l IH]; intros p q l'; simpl; [done|]. destruct (negb u && _) eqn:E.
  - apply andb_true_iff in E as [Hu%negb_true_iff Hfit%Z.leb_le]. intros [= <- <-]. subst u. unfold used_part.
    destruct (Z.leb_spec (size + SIZEOF_STRUCT_MEM + LEAST) sz) as [Hs|Hs]; simpl.
    + exists size. split; [lia|]. rewrite Z.add_simpl_r. do 2 f_equiv. lia.
    + exists (sz - SIZEOF_STRUCT_MEM). split; [lia|done].
  - destruct (abs_malloc _ _ l) as [[q' l2]|] eqn:El; [|done]. intros [= -> <-].
    destruct (IH _ _ _ El) as (k & Hk & Hp). exists k. split; [done|]. simpl. rewrite Hp. by rewrite Permutation_middle.
Qed.

Lemma in_use_trimmed l1 sz n l2 :
  0 ≤ n ≤ sz - SIZEOF_STRUCT_MEM → blk_ok (Blk sz true) → sz ≤ MEM_SIZE_ALIGNED →
  ∃ k, n ≤ k ∧ in_use 0 (l1 ++ trimmed sz n l2) ≡ₚ (base + total l1 + SIZEOF_STRUCT_MEM, k) :: in_use 0 l1 ++ in_use (total l1 + sz) l2.
Proof.
  intros Hn Hok Hmax. destruct (block_size_fits n sz Hn Hok Hmax) as (_ & [Hns _] & Hfit).
  assert (∀ m r, n ≤ m - SIZEOF_STRUCT_MEM → in_use (total l1 + m) r = in_use (total l1 + sz) l2 →
    in_use 0 (l1 ++ Blk m true :: r) ≡ₚ
      (base + total l1 + SIZEOF_STRUCT_MEM, m - SIZEOF_STRUCT_MEM) :: in_use 0 l1 ++ in_use (total l1 + sz) l2) as Hgo.
  { intros m r Hm Er. rewrite in_use_app, Z.add_0_l. simpl. rewrite Er. by rewrite Permutation_middle. }
  assert (∀ m k r, n ≤ m - SIZEOF_STRUCT_MEM → in_use (total l1 + m + k) r = in_use (total l1 + sz) l2 →
    ∃ k', n ≤ k' ∧ in_use 0 (l1 ++ Blk m true :: Blk k false :: r) ≡ₚ
      (base + total l1 + SIZEOF_STRUCT_MEM, k') :: in_use 0 l1 ++ in_use (total l1 + sz) l2) as Hcut.
  { intros m k r Hm Er. eexists. split; [exact Hm|]. by apply Hgo. }
  assert (∃ k', n ≤ k' ∧ in_use 0 (l1 ++ Blk sz true :: l2) ≡ₚ
    (base + total l1 + SIZEOF_STRUCT_MEM, k') :: in_use 0 l1 ++ in_use (total l1 + sz) l2) as Hsame.
  { eexists. split; [|by apply Hgo; [lia|]]. lia. }
  unfold trimmed. destruct (_ =? sz); [done|].
  destruct l2 as [|[k [|]] l3].
  1,2: destruct (_ <=? sz); [|done]; apply Hcut; [lia|f_equal; lia].
  apply Hcut; [lia|]. simpl. f_equal. lia.
Qed.

Lemma room_at h l a k :
  heap_rep h l → (a, k) ∈ in_use 0 l → ∃ b, mems h !! (a - SIZEOF_STRUCT_MEM) = Some b ∧ m_next b - (a - SIZEOF_STRUCT_MEM - base) - SIZEOF_STRUCT_MEM = k.
Proof.
  intros [Ht _ _] Ha. apply in_use_split in Ha as (l1 & l2 & -> & ->). rewrite Z.add_simpl_r, Z.add_0_l.
  eexists. split; [apply (block_at Ht)|]. simpl. lia.
Qed.

(** ** The interface *)

#[local] Instance mem_heap_heap : Heap mem_heap := {
  mem_malloc := Mem.mem_malloc;
  mem_free := Mem.mem_free;
  mem_trim := Mem.mem_trim;
  heap_addr a := ∃ p, 0 ≤ p < MEM_SIZE_ALIGNED ∧ p mod MEM_ALIGNMENT = 0 ∧ a = base + p + SIZEOF_STRUCT_MEM;
  heap_holds h l := ∃ bl, heap_rep h bl ∧ (in_use 0 bl).*1 ≡ₚ l;
  heap_room h a :=
    match mems h !! (a - SIZEOF_STRUCT_MEM) with
    | Some b => m_next b - (a - SIZEOF_STRUCT_MEM - base) - SIZEOF_STRUCT_MEM
    | None => 0
    end;
  heap_trims h a := m_next <$> mems h !! (a - SIZEOF_STRUCT_MEM) ≠ Some MEM_SIZE_ALIGNED
}.

Lemma room_in_use h bl a k : heap_rep h bl → (a, k) ∈ in_use 0 bl → heap_room h a = k.
Proof. intros Hh Ha. destruct (room_at h bl a k Hh Ha) as (b & Hb & E). simpl. by rewrite Hb. Qed.

(** The blocks in both keep their room. *)
Lemma rooms_same h h' bl bl' (l : list (Z * Z)) :
  heap_rep h bl → heap_rep h' bl' → (∀ x, x ∈ l → x ∈ in_use 0 bl ∧ x ∈ in_use 0 bl') →
  ∀ a, a ∈ l.*1 → heap_room h' a = heap_room h a.
Proof.
  intros Hh Hh' Hl a ([a' k] & -> & Hin)%list_elem_of_fmap. destruct (Hl _ Hin) as [H1 H2].
  cbn [fst]. by rewrite (room_in_use h bl a' k), (room_in_use h' bl' a' k).
Qed.

Lemma rep_size h l1 b l2 : heap_rep h (l1 ++ b :: l2) → blk_ok b ∧ bsize b ≤ MEM_SIZE_ALIGNED.
Proof. intros [Ht _ _]. pose proof (block_bounds Ht) as (? & ? & ? & ? & _). split; [done|lia]. Qed.

(** The block in use at [x] and the others. *)
Lemma holds_split h bl x l :
  heap_rep h bl → (in_use 0 bl).*1 ≡ₚ x :: l →
  ∃ l1 sz l2, bl = l1 ++ Blk sz true :: l2 ∧ x = base + total l1 + SIZEOF_STRUCT_MEM ∧ heap_room h x = sz - SIZEOF_STRUCT_MEM ∧
    (in_use 0 l1 ++ in_use (total l1 + sz) l2).*1 ≡ₚ l ∧
    in_use 0 bl ≡ₚ (x, sz - SIZEOF_STRUCT_MEM) :: in_use 0 l1 ++ in_use (total l1 + sz) l2.
Proof.
  intros Hh Hp. assert (x ∈ (in_use 0 bl).*1) as ([x' k] & E & Hin)%list_elem_of_fmap by (rewrite Hp; by left). simpl in E. subst x'.
  pose proof (room_in_use h bl x k Hh Hin) as Hroom. apply in_use_split in Hin as (l1 & l2 & -> & E). rewrite Z.add_0_l in E.
  exists l1, (k + SIZEOF_STRUCT_MEM), l2. rewrite Z.add_simpl_r.
  assert (in_use 0 (l1 ++ Blk (k + SIZEOF_STRUCT_MEM) true :: l2) ≡ₚ (x, k) :: in_use 0 l1 ++ in_use (total l1 + (k + SIZEOF_STRUCT_MEM)) l2) as Ep.
  { rewrite in_use_app, Z.add_0_l. simpl. rewrite Z.add_simpl_r, <-E. by rewrite Permutation_middle. }
  split_and!; [done|done|done| |done]. rewrite Ep in Hp. simpl in Hp. by apply Permutation_cons_inv in Hp.
Qed.

#[local] Instance mem_heap_laws : HeapBase → HeapLaws mem_heap.
Proof.
  intros Hpos. split.
  - intros h l l' Hp (bl & Hh & E). exists bl. split; [done|]. by rewrite E.
  - intros x (p & Hp & Hm & ->). destruct Hpos as [Hpos]. pose proof base_aligned as Hba. unfold MEM_ALIGNMENT in *.
    change SIZEOF_STRUCT_MEM with 8. split; [unfold NULL; lia|]. Z.div_mod_to_equations. lia.
  - intros h l x (bl & Hh & E) Hx. rewrite <-E in Hx. apply list_elem_of_fmap in Hx as ([x' k] & -> & Hin).
    cbn [fst]. rewrite (room_in_use h bl x' k) by done. apply in_use_split in Hin as (l1 & l2 & -> & _).
    apply rep_size in Hh as [_ Hh]. simpl in Hh. change MEM_SIZE_ALIGNED with 16384 in Hh. change SIZEOF_STRUCT_MEM with 8 in Hh. lia.
  - intros h l x y (bl & Hh & E) Hx Hy Hne. rewrite <-E in Hx, Hy.
    apply list_elem_of_fmap in Hx as ([x' k] & -> & Hx), Hy as ([y' j] & -> & Hy). cbn [fst] in *.
    rewrite (room_in_use h bl x' k), (room_in_use h bl y' j) by done.
    eapply (in_use_apart 0 bl); [by eapply tiled_ok, hr_tiled|done..].
  - intros h l n (bl & Hh & E) Hn. apply (wp_mem_malloc_rep h bl n); [done|done|].
    destruct (spec_malloc n bl) as [[q bl']|] eqn:Es.
    + unfold spec_malloc in Es. destruct ((n =? 0) || (MEM_SIZE_ALIGNED <? n)) eqn:E0; [done|].
      apply orb_false_iff in E0 as [_ Hmax]. pose proof (block_size_spec n Hn) as Hbs. rewrite Z.leb_antisym, Hmax in Hbs. destruct Hbs as [_ [Hle _]].
      destruct (in_use_malloc _ _ _ _ _ Es) as (k & Hk & Hp). intros h' Hh'.
      assert ((base + q + SIZEOF_STRUCT_MEM, k) ∈ in_use 0 bl') as Hin by (rewrite Hp; by left).
      assert (∀ y, y ∈ l → heap_room h' y = heap_room h y) as Hrooms.
      { intros y Hy. rewrite <-E in Hy. apply (rooms_same h h' bl bl' (in_use 0 bl)); [done|done| |done].
        intros z Hz. split; [done|]. rewrite Hp. by right. }
      split; [done|]. right. pose proof (tiled_ok _ _ (hr_tiled _ _ Hh')) as Hok'.
      pose proof (in_use_nodup 0 bl' Hok') as Hnd. rewrite Hp in Hnd. simpl in Hnd. apply NoDup_cons in Hnd as [Hnew _]. split_and!.
      * apply in_use_split in Hin as (l1 & l2 & El & Ea). exists q. rewrite Z.add_0_l in Ea. assert (q = total l1) as -> by lia.
        rewrite El in Hh'. pose proof (block_bounds (hr_tiled _ _ Hh')) as (? & ? & [Hs _] & ? & ?). simpl in *. change LEAST with 20 in Hs. split_and!; (done || lia).
      * by rewrite <-E.
      * rewrite (room_in_use h' bl' _ k) by done. lia.
      * exists bl'. split; [done|]. rewrite Hp. simpl. by rewrite E.
    + split; [done|]. left. split; [done|]. by exists bl.
  - intros h l x (bl & Hh & E). destruct (holds_split h bl x l Hh E) as (l1 & sz & l2 & -> & -> & _ & El & Ep).
    apply (wp_mem_free_rep h l1 sz l2); [done|done|]. intros h' Hh'. split.
    + exists (freed l1 sz l2). split; [done|]. by rewrite in_use_freed.
    + intros y Hy. rewrite <-El in Hy. eapply (rooms_same h h' _ (freed l1 sz l2)); [done|done| |exact Hy].
      intros z Hz. rewrite in_use_freed, Ep. split; [by right|done].
  - intros h l x n (bl & Hh & E) Htrim Hn. destruct (holds_split h bl x l Hh E) as (l1 & sz & l2 & -> & -> & Er & El & Ep).
    rewrite Er in Hn. pose proof (rep_size _ _ _ _ Hh) as [Hok Hmax]. apply (wp_mem_trim_rep h l1 sz l2 n); [done| |done|].
    { intros ->. apply Htrim. rewrite Z.add_simpl_r. rewrite (block_at (hr_tiled _ _ Hh)). simpl.
      pose proof (block_bounds (hr_tiled _ _ Hh)) as (_ & Et & _). simpl in Et. f_equal. lia. }
    intros h' Hh'. destruct (in_use_trimmed l1 sz n l2 Hn Hok Hmax) as (k & Hk & Hp). split_and!.
    + done.
    + rewrite (room_in_use h' (l1 ++ trimmed sz n l2) _ k); [done|done|]. rewrite Hp. by left.
    + exists (l1 ++ trimmed sz n l2). split; [done|]. rewrite Hp. simpl. by rewrite El.
    + intros y Hy. rewrite <-El in Hy. eapply (rooms_same h h' _ (l1 ++ trimmed sz n l2)); [done|done| |exact Hy].
      intros z Hz. rewrite Hp, Ep. split; by right.
Qed.
End heap.
