(* ===== verification/MemRefine.v ===== *)
(** Sequences of calls to the heap of lwIP ([Mem]) against the list of its blocks
    ([MemThm]), and the call it does not survive. *)
From stdpp Require Import base tactics numbers list gmap.
From S2P Require Import Prelude Words Memp Mem PbufMem MemThm.

(** ** Failed assertions *)

Definition stops {S A} (m : M S A) (s : S) : Prop := (m s).1 = inr AssertFailed.

Lemma stops_bind {S A B} (m : M S A) (f : A → M S B) s : stops m s → stops (m ≫= f) s.
Proof. unfold stops, mbind, M_bind. destruct (m s) as [[a|e] s']; [done|]. by intros [= ->]. Qed.

Lemma stops_bind_run {S A B} (m : M S A) (f : A → M S B) s a s' : m s = (inl a, s') → stops (f a) s' → stops (m ≫= f) s.
Proof. unfold stops, mbind, M_bind. by intros ->. Qed.

Lemma rd_mem_run h p b : mems h !! p = Some b → rd_mem p h = (inl b, h).
Proof. intros Hb. unfold rd_mem, mbind, M_bind, gets. by rewrite Hb. Qed.

Section refine.
Context (ram_heap : Z) `{!HeapBase ram_heap}.

Notation base := (LWIP_MEM_ALIGN ram_heap).

Inductive mem_call := MMalloc (n : Z) | MFree (a : Z) | MTrim (a n : Z).

Definition do_mem_call (c : mem_call) : M mem_heap Z :=
  match c with
  | MMalloc n => Mem.mem_malloc n
  | MFree a => Mem.mem_free a;; mret 0
  | MTrim a n => Mem.mem_trim a n
  end.

Fixpoint run_mem_calls (cs : list mem_call) : M mem_heap (list Z) :=
  match cs with
  | [] => mret []
  | c :: cs => r ← do_mem_call c; rs ← run_mem_calls cs; mret (r :: rs)
  end.

(** The block in use whose data are at [a], what is before it and after it. *)
Fixpoint block_of (a p : Z) (l : list blk) : option (list blk * Z * list blk) :=
  match l with
  | [] => None
  | b :: l =>
      if bused b && (a =? base + p + SIZEOF_STRUCT_MEM) then Some ([], bsize b, l)
      else match block_of a (p + bsize b) l with Some (l1, sz, l2) => Some (b :: l1, sz, l2) | None => None end
  end.

(** What a call answers and makes of the blocks; [None] where the caller must not
    make it. *)
Definition spec_mem_call (c : mem_call) (l : list blk) : option (Z * list blk) :=
  match c with
  | MMalloc n =>
      if (0 <=? n) && (n <? 65536) then
        match spec_malloc n l with
        | Some (q, l') => Some (base + q + SIZEOF_STRUCT_MEM, l')
        | None => Some (NULL, l)
        end
      else None
  | MFree a => match block_of a 0 l with Some (l1, sz, l2) => Some (0, freed l1 sz l2) | None => None end
  | MTrim a n =>
      match block_of a 0 l with
      | Some (l1, sz, b :: l2) =>
          if (0 <=? n) && (n <=? sz - SIZEOF_STRUCT_MEM) then Some (a, l1 ++ trimmed sz n (b :: l2)) else None
      | _ => None
      end
  end.

Fixpoint spec_mem_calls (cs : list mem_call) (l : list blk) : option (list Z * list blk) :=
  match cs with
  | [] => Some ([], l)
  | c :: cs =>
      match spec_mem_call c l with
      | Some (r, l) => match spec_mem_calls cs l with Some (rs, l) => Some (r :: rs, l) | None => None end
      | None => None
      end
  end.

Lemma block_of_spec a p l l1 sz l2 :
  block_of a p l = Some (l1, sz, l2) → l = l1 ++ Blk sz true :: l2 ∧ a = base + (p + total l1) + SIZEOF_STRUCT_MEM.
Proof.
  revert p l1. induction l as [|[k u] l IH]; intros p l1; simpl; [done|].
  destruct (u && (a =? base + p + SIZEOF_STRUCT_MEM)) eqn:E.
  - apply andb_true_iff in E as [-> ->%Z.eqb_eq]. intros [= <- <- <-]. split; [done|simpl; lia].
  - destruct (block_of a (p + k) l) as [[[l1' sz'] l2']|] eqn:Eb; [|done]. intros [= <- -> ->].
    destruct (IH _ _ Eb) as [-> ->]. split; [done|simpl; lia].
Qed.

Lemma mem_call_refines c h l r l' :
  heap_rep ram_heap h l → spec_mem_call c l = Some (r, l') →
  wp (do_mem_call c) (λ r' h', r' = r ∧ heap_rep ram_heap h' l') h.
Proof.
  intros Hh Hc. destruct c as [n|a|a n]; simpl in *.
  - destruct ((0 <=? n) && (n <? 65536)) eqn:En; [|done]. apply andb_true_iff in En as [?%Z.leb_le ?%Z.ltb_lt].
    apply (wp_mem_malloc_rep ram_heap h l n); [done|done|]. destruct (spec_malloc n l) as [[q l1]|]; injection Hc as <- <-; done.
  - destruct (block_of a 0 l) as [[[l1 sz] l2]|] eqn:Eb; [|done]. injection Hc as <- <-.
    destruct (block_of_spec _ _ _ _ _ _ Eb) as [-> ->]. apply wp_bind, (wp_mem_free_rep ram_heap h l1 sz l2); [done|done|].
    intros h' Hh'. by apply wp_ret.
  - destruct (block_of a 0 l) as [[[l1 sz] [|b l2]]|] eqn:Eb; [done| |done].
    destruct ((0 <=? n) && (n <=? sz - SIZEOF_STRUCT_MEM)) eqn:En; [|done]. apply andb_true_iff in En as [?%Z.leb_le ?%Z.leb_le].
    injection Hc as <- <-. destruct (block_of_spec _ _ _ _ _ _ Eb) as [-> ->].
    apply (wp_mem_trim_rep ram_heap h l1 sz (b :: l2) n); [done|done|done|]. by intros h' Hh'.
Qed.

Lemma one_block l : apart false l → Forall (λ b, bused b = false) l → Forall blk_ok l → total l = MEM_SIZE_ALIGNED → l = [Blk MEM_SIZE_ALIGNED false].
Proof.
  intros Ha Hf Hok Ht. destruct l as [|[s u] l]; [done|]. apply Forall_cons in Hf as [Hu Hf]. simpl in Hu. subst u.
  destruct l as [|[s' u'] l]; [simpl in Ht; do 2 f_equal; lia|]. apply Forall_cons in Hf as [Hu' _]. simpl in Hu'. subst u'.
  simpl in Ha. naive_solver.
Qed.

Lemma mem_calls_refine cs h rs l0 l :
  heap_rep ram_heap h l0 → spec_mem_calls cs l0 = Some (rs, l) →
  wp (run_mem_calls cs) (λ rs' h', rs' = rs ∧ heap_rep ram_heap h' l) h.
Proof.
  revert h rs l0. induction cs as [|c cs IH]; intros h rs l0 Hh Hcs; simpl in Hcs; [injection Hcs as <- <-; by apply wp_ret|].
  destruct (spec_mem_call c l0) as [[r l1]|] eqn:Ec; [|done]. destruct (spec_mem_calls cs l1) as [[rs' l2]|] eqn:Es; [|done].
  injection Hcs as <- ->. apply wp_bind. eapply wp_mono; [by eapply mem_call_refines|]. intros r' h1 [-> Hh1].
  apply wp_bind. eapply wp_mono; [by eapply (IH h1 _ l1)|]. intros rs2 h2 (-> & Hh2). by apply wp_ret.
Qed.

(** C36: from [mem_init] on, any sequence of allocations, releases and trimmings
    answers what a list of blocks answers: allocation is first fit with
    splitting, a released block is merged with free neighbours, trimming gives
    the end of a block back.  The blocks fill the array and no two free ones are
    side by side, so that when none is in use the heap is one block again. *)
Theorem mem_refines cs h rs l :
  spec_mem_calls cs [Blk MEM_SIZE_ALIGNED false] = Some (rs, l) →
  wp (mem_init ram_heap;; run_mem_calls cs) (λ rs' h', rs' = rs ∧ heap_rep ram_heap h' l ∧ total l = MEM_SIZE_ALIGNED ∧
    (Forall (λ b, bused b = false) l → l = [Blk MEM_SIZE_ALIGNED false])) h.
Proof.
  intros Hcs. apply wp_bind, (wp_mem_init ram_heap). intros h0 Hh0.
  eapply wp_mono; [by eapply mem_calls_refine|]. intros rs' h' [-> Hh']. pose proof Hh' as [Ht _ Hap].
  assert (total l = MEM_SIZE_ALIGNED) as Et by (by rewrite (seg_total _ _ _ _ _ _ (ti_seg _ _ _ Ht))).
  split_and!; [done|done|done|]. intros Hf. apply one_block; [done|done|by eapply tiled_ok|done].
Qed.

(** C37: a block at the end of the array cannot be shrunk by as much as another
    block takes: [mem_trim] fails its own assertion, although the code behind it
    allows for a block at the end. *)
Theorem mem_trim_last_fails h l sz n :
  heap_rep ram_heap h (l ++ [Blk sz true]) → 0 ≤ n → block_size n + SIZEOF_STRUCT_MEM + LEAST ≤ sz → n ≤ sz - SIZEOF_STRUCT_MEM →
  (Mem.mem_trim (base + total l + SIZEOF_STRUCT_MEM) n h).1 = inr AssertFailed.
Proof.
  intros Hh Hn Hroom Hle. pose proof Hh as [Ht _ _]. pose proof (block_bounds ram_heap Ht) as (Hp & Htot & Hok & _ & _).
  pose proof (next_at ram_heap Ht) as Hnext. pose proof (block_at ram_heap Ht) as Hat. simpl in Hnext, Htot.
  destruct (block_size_fits n sz) as (_ & Hns & _); [lia|done|lia|].
  change (stops (Mem.mem_trim (base + total l + SIZEOF_STRUCT_MEM) n) h). unfold Mem.mem_trim. set (ns := block_size n) in *.
  change SIZEOF_STRUCT_MEM with 8 in *. change LEAST with 20 in *. change MEM_SIZE_ALIGNED with 16384 in *. change MIN_SIZE_ALIGNED with 12.
  rewrite (proj2 (Z.ltb_ge _ ns)), (proj2 (Z.ltb_ge ns _)) by lia. cbn [orb].
  eapply stops_bind_run; [done|]. eapply stops_bind_run; [done|]. rewrite (ti_ram _ _ _ Ht), (ti_end _ _ _ Ht). change MEM_SIZE_ALIGNED with 16384.
  rewrite (proj2 (Z.leb_le base _)), (proj2 (Z.ltb_lt _ (base + 16384))) by lia. eapply stops_bind_run; [done|].
  rewrite Z.add_simpl_r. eapply stops_bind_run; [done|]. rewrite (ti_ram _ _ _ Ht), Z.add_simpl_l, (u16_id (total l)) by lia.
  eapply stops_bind_run; [by apply rd_mem_run|]. cbn [image m_next bsize].
  replace (total l + sz - total l) with sz by lia. rewrite (u16_id sz), (u16_id (sz - 8)) by lia.
  rewrite (proj2 (Z.leb_le ns _)) by lia. eapply stops_bind_run; [done|]. rewrite (proj2 (Z.eqb_neq ns _)) by lia.
  eapply stops_bind_run; [done|]. rewrite (ti_ram _ _ _ Ht). eapply stops_bind_run; [by apply rd_mem_run|]. cbn [m_used Z.eqb].
  apply stops_bind. rewrite (proj2 (Z.leb_le _ (sz - 8))) by lia. cbn [when_]. unfold split_end. cbn [image m_next bsize].
  change MEM_SIZE_ALIGNED with 16384. replace (total l + sz) with 16384 by lia. by apply stops_bind.
Qed.
End refine.

(** ** Witnesses *)

Definition array : Z := 0x20030001.

#[export] Instance array_ok : HeapBase array.
Proof. by split. Qed.

(** The second block is released and its place taken again, the first is trimmed,
    then all are released. *)
Definition demo_mem_calls : list mem_call :=
  [MMalloc 100; MMalloc 5; MMalloc 300; MFree 0x20030078; MMalloc 8; MTrim 0x2003000C 40;
   MFree 0x2003008C; MFree 0x2003000C; MFree 0x20030078].

Lemma mem_refines_witness :
  ∃ rs l, spec_mem_calls array demo_mem_calls [Blk MEM_SIZE_ALIGNED false] = Some (rs, l) ∧
  wp (mem_init array;; run_mem_calls demo_mem_calls) (λ rs' h', rs' = rs ∧ heap_rep array h' l ∧ total l = MEM_SIZE_ALIGNED ∧
    (Forall (λ b, bused b = false) l → l = [Blk MEM_SIZE_ALIGNED false])) (MemHeap 0 0 0 ∅).
Proof. eexists _, _. split; [by vm_compute|]. apply (mem_refines array); by vm_compute. Defined.

(** All the memory is taken as one block. *)
Definition full_heap : mem_heap := (Mem.mem_malloc 16376 (mem_init array (MemHeap 0 0 0 ∅)).2).2.

Lemma full_heap_rep : heap_rep array full_heap ([] ++ [Blk MEM_SIZE_ALIGNED true]).
Proof.
  assert (∃ h, mem_init array (MemHeap 0 0 0 ∅) = (inl tt, h) ∧ heap_rep array h [Blk MEM_SIZE_ALIGNED false]) as (h & E & Hh).
  { destruct (wp_inv (mem_init array) (λ _ h', heap_rep array h' [Blk MEM_SIZE_ALIGNED false]) (MemHeap 0 0 0 ∅)) as ([] & h & E & Hh);
      [by apply wp_mem_init|by exists h]. }
  unfold full_heap. rewrite E. cbn [snd].
  destruct (wp_inv _ _ _ (mem_call_refines array (MMalloc 16376) h _ _ [Blk MEM_SIZE_ALIGNED true] Hh eq_refl)) as (r & h' & E' & _ & Hh').
  simpl in E'. by rewrite E'.
Qed.

Lemma mem_trim_last_fails_witness :
  heap_rep array full_heap ([] ++ [Blk MEM_SIZE_ALIGNED true]) ∧
  (Mem.mem_trim (LWIP_MEM_ALIGN array + total [] + SIZEOF_STRUCT_MEM) 100 full_heap).1 = inr AssertFailed.
Proof. split; [apply full_heap_rep|]. by apply (mem_trim_last_fails array full_heap [] MEM_SIZE_ALIGNED 100 full_heap_rep). Defined.
