(* ===== verification/PbufThm.v ===== *)
(** The reference counts of packet buffers, and that the functions of [PbufMem] keep
    them right and account for every piece of memory. *)
From stdpp Require Import base tactics numbers list gmap.
From S2P Require Import Prelude Words Memp PbufMem.

(** * References

    Reference counts of packet buffers: every [pbuf] is referenced as often as its
    count says, by the clients and by the chains, and is back in its pool or the
    heap when nothing refers to it any more.  The lemmas here are about the store. *)

(** ** Counting *)

Definition occ (p : Z) (l : list Z) : Z := Z.of_nat (length (filter (p =.) l)).

#[export] Instance occ_perm p : Proper (Permutation ==> eq) (occ p).
Proof. intros l l' E. unfold occ. by rewrite E. Qed.

Lemma occ_nonneg p l : 0 ≤ occ p l.
Proof. unfold occ. lia. Qed.

Lemma occ_cons p x l : occ p (x :: l) = (if decide (p = x) then 1 else 0) + occ p l.
Proof. unfold occ. rewrite filter_cons. destruct (decide (p = x)); cbn [length]; lia. Qed.

Lemma occ_app p l l' : occ p (l ++ l') = occ p l + occ p l'.
Proof. unfold occ. rewrite filter_app, length_app. lia. Qed.

Lemma occ_pos p l : 0 < occ p l ↔ p ∈ l.
Proof.
  induction l as [|x l IH].
  - split; [done|]. by intros ?%elem_of_nil.
  - rewrite occ_cons, elem_of_cons, <-IH. pose proof (occ_nonneg p l). destruct (decide (p = x)); naive_solver lia.
Qed.

Lemma occ_zero p l : occ p l = 0 ↔ p ∉ l.
Proof. rewrite <-occ_pos. pose proof (occ_nonneg p l). lia. Qed.

(** ** The pointers in the store *)

Definition pointers (σ : bufs) : list Z := (λ kv, b_next kv.2) <$> map_to_list σ.

Lemma pointers_insert σ p b : σ !! p = None → pointers (<[p := b]> σ) ≡ₚ b_next b :: pointers σ.
Proof. intros Hp. unfold pointers. by rewrite (map_to_list_insert σ p b Hp). Qed.

Lemma pointers_delete σ p b : σ !! p = Some b → pointers σ ≡ₚ b_next b :: pointers (delete p σ).
Proof. intros Hp. unfold pointers. by rewrite <-(map_to_list_delete σ p b Hp). Qed.

Lemma pointers_update σ p b b' :
  σ !! p = Some b → pointers (<[p := b']> σ) ≡ₚ b_next b' :: pointers (delete p σ).
Proof.
  intros Hp. rewrite <-insert_delete_eq. apply pointers_insert, lookup_delete_eq.
Qed.

Lemma pointers_same σ p b b' : σ !! p = Some b → b_next b' = b_next b → pointers (<[p := b']> σ) ≡ₚ pointers σ.
Proof. intros Hp E. rewrite (pointers_update σ p b b' Hp), (pointers_delete σ p b Hp). by rewrite E. Qed.

Lemma elem_pointers σ q : q ∈ pointers σ ↔ ∃ p b, σ !! p = Some b ∧ b_next b = q.
Proof.
  unfold pointers. rewrite list_elem_of_fmap. split.
  - intros ([p b] & -> & Hin%elem_of_map_to_list). by exists p, b.
  - intros (p & b & Hp & <-). exists (p, b). split; [done|]. by apply elem_of_map_to_list.
Qed.

(** ** Chains *)

Fixpoint chain (σ : bufs) (p : Z) (l : list Z) : Prop :=
  match l with
  | [] => p = NULL
  | x :: l => p = x ∧ ∃ b, σ !! x = Some b ∧ chain σ (b_next b) l
  end.

Lemma chain_frame σ σ' p l :
  (∀ x b, x ∈ l → σ !! x = Some b → ∃ b', σ' !! x = Some b' ∧ b_next b' = b_next b) →
  chain σ p l → chain σ' p l.
Proof.
  revert p. induction l as [|x l IH]; intros p Hsame; simpl; [done|].
  intros (-> & b & Hb & Hl). split; [done|]. destruct (Hsame x b) as (b' & Hb' & E); [by left|done|].
  exists b'. split; [done|]. rewrite E. apply IH; [|done]. intros y c Hy. apply Hsame. by right.
Qed.

Lemma chain_alloc σ p l x : chain σ p l → x ∈ l → is_Some (σ !! x).
Proof.
  revert p. induction l as [|y l IH]; intros p; simpl; [by intros _ ?%elem_of_nil|].
  intros (_ & b & Hb & Hl) [->|Hx]%elem_of_cons; [by exists b|]. by apply (IH _ Hl).
Qed.

Lemma chain_split σ p l1 x l2 : chain σ p (l1 ++ x :: l2) → chain σ x (x :: l2).
Proof.
  revert p. induction l1 as [|y l1 IH]; intros p; simpl.
  - intros (-> & b & Hb & Hl). split; [done|]. by exists b.
  - intros (_ & b & _ & Hl). by apply IH in Hl.
Qed.

Section no_null.
Context (σ : bufs) (Hnull : σ !! NULL = None).

Lemma chain_det p l l' : chain σ p l → chain σ p l' → l = l'.
Proof using Hnull.
  revert p l'. induction l as [|x l IH]; intros p [|y l']; simpl; try done.
  - intros -> (<- & b & Hb & _). by rewrite Hnull in Hb.
  - intros (-> & b & Hb & _) E. rewrite E in Hb. by rewrite Hnull in Hb.
  - intros (-> & b & Hb & Hl) (-> & b' & Hb' & Hl'). f_equal. rewrite Hb in Hb'. injection Hb' as <-.
    by apply (IH (b_next b)).
Qed.

Lemma chain_nodup p l : chain σ p l → NoDup l.
Proof using Hnull.
  revert p. induction l as [|x l IH]; intros p; [constructor|]. intros Hc. pose proof Hc as (-> & b & Hb & Hl).
  constructor; [|by apply (IH (b_next b))]. intros (l1 & l2 & ->)%list_elem_of_split.
  apply chain_split in Hl as Hc'. pose proof (chain_det _ _ _ Hc Hc') as E.
  apply (f_equal length) in E. simpl in E. rewrite length_app in E. simpl in E. lia.
Qed.

Lemma chain_size p l : chain σ p l → (length l ≤ size σ)%nat.
Proof using Hnull.
  intros Hc. rewrite <-size_dom, <-(size_list_to_set (C := gset Z) l) by by eapply chain_nodup.
  apply subseteq_size. intros x Hx%elem_of_list_to_set. by apply elem_of_dom, (chain_alloc _ _ _ _ Hc).
Qed.

(** Inside a chain every pbuf but the first is pointed to by the one before. *)
Lemma chain_pointed p l x : chain σ p l → x ∈ l → x = p ∨ x ∈ pointers σ.
Proof using.
  revert p. induction l as [|y l IH]; intros p; simpl; [by intros _ ?%elem_of_nil|].
  intros (-> & b & Hb & Hl) [->|Hx]%elem_of_cons; [by left|]. right.
  destruct (IH _ Hl Hx) as [->|?]; [|done]. apply elem_pointers. by exists y, b.
Qed.
End no_null.

(** ** Every reference is counted *)

(** [owners]: the references the clients hold. *)
Record refs_ok (σ : bufs) (owners : list Z) : Prop := RefsOk {
  ro_null : σ !! NULL = None;
  ro_count p b : σ !! p = Some b → b_ref b = occ p (owners ++ pointers σ) ∧ 0 < b_ref b < 256;
  ro_alloc p : p ∈ owners ++ pointers σ → p ≠ NULL → is_Some (σ !! p);
  ro_chain p b : σ !! p = Some b → ∃ l, chain σ p l
}.

Lemma refs_ok_perm σ owners owners' : owners ≡ₚ owners' → refs_ok σ owners → refs_ok σ owners'.
Proof.
  intros E [H1 H2 H3 H4]. split; [done| | |done].
  - intros p b Hb. rewrite <-E. by apply H2.
  - intros p Hp. rewrite <-E in Hp. by apply H3.
Qed.

(** A reference to nothing. *)
Lemma refs_ok_null σ owners : refs_ok σ (NULL :: owners) ↔ refs_ok σ owners.
Proof.
  split; intros [H1 H2 H3 H4]; split; try done.
  - intros p b Hb. assert (p ≠ NULL) as Hp by (intros ->; by rewrite H1 in Hb).
    destruct (H2 p b Hb) as [E ?]. simpl in E. rewrite occ_cons, decide_False in E by done. done.
  - intros p Hp. apply H3. simpl. by right.
  - intros p b Hb. assert (p ≠ NULL) as Hp by (intros ->; by rewrite H1 in Hb).
    simpl. rewrite occ_cons, decide_False by done. by apply H2.
  - intros p Hp Hnull. simpl in Hp. apply elem_of_cons in Hp as [->|Hp]; [done|]. by apply H3.
Qed.

Lemma refs_ok_chain σ owners p : refs_ok σ owners → p = NULL ∨ is_Some (σ !! p) → ∃ l, chain σ p l.
Proof. intros Ho [->|[b Hb]]; [by exists []|by apply (ro_chain _ _ Ho p b)]. Qed.

(** Everything a chain points to is allocated. *)
Lemma refs_ok_next σ owners p b : refs_ok σ owners → σ !! p = Some b → b_next b = NULL ∨ is_Some (σ !! b_next b).
Proof.
  intros Ho Hb. destruct (decide (b_next b = NULL)) as [|Hn]; [by left|]. right.
  apply (ro_alloc _ _ Ho); [|done]. apply elem_of_app. right. apply elem_pointers. by exists p, b.
Qed.

Lemma chain_same_next σ p b b' q l :
  σ !! p = Some b → b_next b' = b_next b → chain σ q l → chain (<[p := b']> σ) q l.
Proof.
  intros Hb En. apply chain_frame. intros x e _ Hx. destruct (decide (x = p)) as [->|].
  - rewrite lookup_insert_eq. exists b'. split; [done|]. rewrite Hb in Hx. by injection Hx as <-.
  - rewrite lookup_insert_ne by done. by exists e.
Qed.

Lemma insert_alloc (σ : bufs) p (b b' : pbuf_s) q : σ !! p = Some b → is_Some (<[p := b']> σ !! q) ↔ is_Some (σ !! q).
Proof.
  intros Hb. destruct (decide (q = p)) as [->|].
  - rewrite lookup_insert_eq, Hb. split; by eexists.
  - by rewrite lookup_insert_ne by done.
Qed.

(** A change of the count of [p] that goes with one of the owners of [p]. *)
Lemma refs_ok_update σ owners owners' p b b' :
  refs_ok σ owners → σ !! p = Some b → b_next b' = b_next b → 0 < b_ref b' < 256 →
  (∀ q, occ q owners' = occ q owners + if decide (q = p) then b_ref b' - b_ref b else 0) →
  refs_ok (<[p := b']> σ) owners'.
Proof.
  intros [H1 H2 H3 H4] Hb En Hr Hocc. assert (p ≠ NULL) as Hp by (intros ->; by rewrite H1 in Hb).
  assert (pointers (<[p := b']> σ) ≡ₚ pointers σ) as E by by eapply pointers_same.
  split.
  - by rewrite lookup_insert_ne by done.
  - intros q c. rewrite E, occ_app, Hocc. destruct (decide (q = p)) as [->|].
    + rewrite lookup_insert_eq. intros [= <-]. destruct (H2 p b Hb) as [Er _]. rewrite occ_app in Er. lia.
    + rewrite lookup_insert_ne by done. intros Hc. apply H2 in Hc. rewrite occ_app in Hc. lia.
  - intros q Hq Hn. rewrite E in Hq. rewrite insert_alloc by done.
    destruct (decide (q = p)) as [->|]; [by eexists|]. apply H3; [|done].
    apply occ_pos. apply occ_pos in Hq. rewrite occ_app, Hocc, decide_False in Hq by done. rewrite occ_app. lia.
  - intros q c Hq. assert (is_Some (σ !! q)) as [d Hd] by (rewrite <-(insert_alloc σ p b b') by done; by eexists).
    destruct (H4 q d Hd) as [l Hl]. exists l. by eapply chain_same_next.
Qed.

(** A change that keeps [next] and the count. *)
Lemma refs_ok_same σ owners p b b' :
  refs_ok σ owners → σ !! p = Some b → b_next b' = b_next b → b_ref b' = b_ref b → refs_ok (<[p := b']> σ) owners.
Proof.
  intros Ho Hb En Er. apply (refs_ok_update σ owners _ p b); try done.
  - rewrite Er. by apply (ro_count _ _ Ho p).
  - intros q. destruct (decide (q = p)); lia.
Qed.

(** A further reference. *)
Lemma refs_ok_ref σ owners p b :
  refs_ok σ owners → σ !! p = Some b → b_ref b + 1 < 256 →
  refs_ok (<[p := set_ref (b_ref b + 1) b]> σ) (p :: owners).
Proof.
  intros Ho Hb Hlt. destruct (ro_count _ _ Ho p b Hb). apply (refs_ok_update σ owners _ p b); try done.
  - simpl. lia.
  - intros q. rewrite occ_cons. simpl. destruct (decide (q = p)); lia.
Qed.

(** One reference less, and others remain. *)
Lemma refs_ok_unref σ owners p b :
  refs_ok σ (p :: owners) → σ !! p = Some b → b_ref b ≠ 1 →
  refs_ok (<[p := set_ref (b_ref b - 1) b]> σ) owners.
Proof.
  intros Ho Hb Hne. destruct (ro_count _ _ Ho p b Hb). apply (refs_ok_update σ (p :: owners) _ p b); try done.
  - simpl. lia.
  - intros q. rewrite occ_cons. simpl. destruct (decide (q = p)); lia.
Qed.

(** A new pbuf, referenced by the one who asked for it. *)
Lemma refs_ok_new σ owners p b :
  refs_ok σ owners → σ !! p = None → p ≠ NULL → b_next b = NULL → b_ref b = 1 →
  refs_ok (<[p := b]> σ) (p :: owners).
Proof.
  intros Ho Hp Hnull En Er. pose proof Ho as [H1 H2 H3 H4].
  assert (occ p (owners ++ pointers σ) = 0) as E0.
  { apply occ_zero. intros Hin. apply H3 in Hin as [? ?]; [|done]. congruence. }
  assert (∀ q, q ≠ NULL → occ q ((p :: owners) ++ pointers (<[p := b]> σ)) = occ q (p :: owners ++ pointers σ)) as E.
  { intros q Hq. rewrite (pointers_insert σ p b Hp), En. simpl. rewrite occ_cons, (occ_cons q p), !occ_app, occ_cons.
    rewrite (decide_False (P := q = NULL)) by done. lia. }
  split.
  - by rewrite lookup_insert_ne by done.
  - intros q c Hc. destruct (decide (q = p)) as [->|Hne].
    + rewrite lookup_insert_eq in Hc. injection Hc as <-. rewrite E, occ_cons, E0, decide_True by done. lia.
    + rewrite lookup_insert_ne in Hc by done. assert (q ≠ NULL) as Hq by (intros ->; by rewrite H1 in Hc).
      rewrite E, occ_cons, decide_False by done. by apply H2.
  - intros q Hq Hn. destruct (decide (q = p)) as [->|Hne]; [rewrite lookup_insert_eq; by eexists|].
    rewrite lookup_insert_ne by done. apply H3; [|done]. apply occ_pos. apply occ_pos in Hq.
    rewrite E, occ_cons, decide_False in Hq by done. done.
  - intros q c Hq. destruct (decide (q = p)) as [->|Hne].
    + exists [p]. simpl. split; [done|]. exists b. rewrite lookup_insert_eq. by rewrite En.
    + rewrite lookup_insert_ne in Hq by done. destruct (H4 q c Hq) as [l Hl]. exists l.
      eapply chain_frame; [|exact Hl]. intros x d _ Hx. rewrite lookup_insert_ne by congruence. by exists d.
Qed.

(** The last reference goes: the pbuf is deallocated, and its reference to the
    next one is now ours. *)
Lemma refs_ok_dealloc σ owners p b :
  refs_ok σ (p :: owners) → σ !! p = Some b → b_ref b = 1 → refs_ok (delete p σ) (b_next b :: owners).
Proof.
  intros Ho Hb Her. pose proof Ho as [H1 H2 H3 H4]. assert (p ≠ NULL) as Hp by (intros ->; by rewrite H1 in Hb).
  assert ((b_next b :: owners) ++ pointers (delete p σ) ≡ₚ owners ++ pointers σ) as E.
  { rewrite (pointers_delete σ p b Hb). simpl. apply Permutation_middle. }
  assert (p ∉ owners ++ pointers σ) as Hout.
  { apply occ_zero. destruct (H2 p b Hb) as [Er _]. simpl in Er. rewrite occ_cons, decide_True in Er by done. lia. }
  split.
  - by rewrite lookup_delete_ne by done.
  - intros q c Hc. assert (q ≠ p) by (intros ->; by rewrite lookup_delete_eq in Hc).
    rewrite lookup_delete_ne in Hc by done. rewrite E. destruct (H2 q c Hc) as [Er ?].
    simpl in Er. rewrite occ_cons, decide_False in Er by done. lia.
  - intros q Hq Hn. rewrite E in Hq. assert (q ≠ p) by (intros ->; done). rewrite lookup_delete_ne by done.
    apply H3; [|done]. simpl. by right.
  - intros q c Hc. assert (q ≠ p) as Hqp by (intros ->; by rewrite lookup_delete_eq in Hc).
    rewrite lookup_delete_ne in Hc by done. destruct (H4 q c Hc) as [l Hl]. exists l.
    eapply chain_frame; [|exact Hl]. intros x d Hx Hd. assert (x ≠ p).
    { intros ->. destruct (chain_pointed σ _ _ _ Hl Hx) as [->|Hin]; [done|]. apply Hout, elem_of_app. by right. }
    rewrite lookup_delete_ne by done. by exists d.
Qed.

(** The reference to the next pbuf is taken out of the chain. *)
Lemma refs_ok_cut σ owners p b b' :
  refs_ok σ owners → σ !! p = Some b → b_next b' = NULL → b_ref b' = b_ref b →
  refs_ok (<[p := b']> σ) (b_next b :: owners).
Proof.
  intros Ho Hb En Er. pose proof Ho as [H1 H2 H3 H4]. assert (p ≠ NULL) as Hp by (intros ->; by rewrite H1 in Hb).
  assert (∀ q, q ≠ NULL → occ q ((b_next b :: owners) ++ pointers (<[p := b']> σ)) = occ q (owners ++ pointers σ)) as E.
  { intros q Hq. rewrite (pointers_update σ p b b' Hb), (pointers_delete σ p b Hb), En. simpl.
    rewrite occ_cons, !occ_app, !occ_cons, (decide_False (P := q = NULL)) by done. lia. }
  split.
  - by rewrite lookup_insert_ne by done.
  - intros q c Hc. destruct (decide (q = p)) as [->|].
    + rewrite lookup_insert_eq in Hc. injection Hc as <-. rewrite E, Er by done. by apply H2.
    + rewrite lookup_insert_ne in Hc by done. rewrite E by (intros ->; by rewrite H1 in Hc). by apply H2.
  - intros q Hq Hn. apply insert_alloc with b; [done|]. apply H3; [|done].
    apply occ_pos. apply occ_pos in Hq. by rewrite E in Hq.
  - intros q c Hq. assert (is_Some (σ !! q)) as [d Hd] by (rewrite <-(insert_alloc σ p b b') by done; by eexists).
    destruct (H4 q d Hd) as [l Hl]. clear -Hl Hb En. revert q Hl. induction l as [|x l IH]; intros q; [by exists []|].
    intros (-> & e & He & Hl). destruct (decide (x = p)) as [->|Hxp].
    + exists [p]. split; [done|]. exists b'. by rewrite lookup_insert_eq.
    + destruct (IH _ Hl) as [l' Hl']. exists (x :: l'). split; [done|]. exists e. by rewrite lookup_insert_ne.
Qed.

(** A reference of a client becomes that of the last pbuf of another chain. *)
Lemma refs_ok_link σ owners p b b' t lt :
  refs_ok σ (t :: owners) → σ !! p = Some b → b_next b = NULL → b_next b' = t → b_ref b' = b_ref b →
  chain σ t lt → p ∉ lt → refs_ok (<[p := b']> σ) owners.
Proof.
  intros Ho Hb En Et Er Ht Hplt. pose proof Ho as [H1 H2 H3 H4]. assert (p ≠ NULL) as Hp by (intros ->; by rewrite H1 in Hb).
  assert (∀ q, q ≠ NULL → occ q (owners ++ pointers (<[p := b']> σ)) = occ q ((t :: owners) ++ pointers σ)) as E.
  { intros q Hq. rewrite (pointers_update σ p b b' Hb), (pointers_delete σ p b Hb), En, Et. simpl.
    rewrite occ_cons, !occ_app, !occ_cons, (decide_False (P := q = NULL)) by done. lia. }
  assert (chain (<[p := b']> σ) t lt) as Ht'.
  { eapply chain_frame; [|exact Ht]. intros x e Hx He. rewrite lookup_insert_ne by (intros ->; done). by exists e. }
  split.
  - by rewrite lookup_insert_ne by done.
  - intros q c Hc. destruct (decide (q = p)) as [->|].
    + rewrite lookup_insert_eq in Hc. injection Hc as <-. rewrite E, Er by done. by apply H2.
    + rewrite lookup_insert_ne in Hc by done. rewrite E by (intros ->; by rewrite H1 in Hc). by apply H2.
  - intros q Hq Hn. apply insert_alloc with b; [done|]. apply H3; [|done].
    apply occ_pos. apply occ_pos in Hq. by rewrite E in Hq.
  - intros q c Hq. assert (is_Some (σ !! q)) as [d Hd] by (rewrite <-(insert_alloc σ p b b') by done; by eexists).
    destruct (H4 q d Hd) as [l Hl]. clear -Hl Hb En Et Ht'. revert q Hl. induction l as [|x l IH]; intros q; [by exists []|].
    intros (-> & e & He & Hl). destruct (decide (x = p)) as [->|Hxp].
    + exists (p :: lt). split; [done|]. exists b'. rewrite lookup_insert_eq. by rewrite Et.
    + destruct (IH _ Hl) as [l' Hl']. exists (x :: l'). split; [done|]. exists e. by rewrite lookup_insert_ne.
Qed.

(** ** Nothing is lost *)

(** With no references from outside there is no pbuf: otherwise one could follow
    the references backwards for ever. *)
Lemma refs_ok_empty σ : refs_ok σ [] → σ = ∅.
Proof.
  intros [H1 H2 H3 H4]. destruct (decide (σ = ∅)) as [|Hne]; [done|]. exfalso.
  apply map_choose in Hne as (p0 & b0 & Hb0).
  assert (∀ k, ∃ p l, chain σ p l ∧ (k < length l)%nat) as Hlong.
  { induction k as [|k (p & l & Hl & Hk)].
    - destruct (H4 p0 b0 Hb0) as [l Hl]. exists p0, l. split; [done|]. destruct l; [|simpl; lia].
      simpl in Hl. subst. by rewrite H1 in Hb0.
    - destruct l as [|x l]; [simpl in Hk; lia|]. pose proof Hl as (-> & b & Hb & _).
      assert (x ∈ pointers σ) as (q & c & Hq & En)%elem_pointers.
      { apply occ_pos. destruct (H2 x b Hb) as [Er ?]. simpl in Er. lia. }
      exists q, (q :: x :: l). split; [|simpl in *; lia]. split; [done|]. exists c. by rewrite En. }
  destruct (Hlong (size σ)) as (p & l & Hl & Hk). apply chain_size in Hl; [lia|done].
Qed.

(** * Functions

    The functions of [PbufMem] keep the reference counts right ([refs_ok]) and
    account for every piece of memory; what each of them does to a chain. *)

(** ** Where the structures come from *)

Definition addrs (src : Z) (σ : bufs) : list Z :=
  (filter (λ kv, pbuf_get_allocsrc kv.2 = src) (map_to_list σ)).*1.

Definition place (src p : Z) (b : pbuf_s) : list Z := if decide (pbuf_get_allocsrc b = src) then [p] else [].

Lemma addrs_insert src σ p b : σ !! p = None → addrs src (<[p := b]> σ) ≡ₚ place src p b ++ addrs src σ.
Proof.
  intros Hp. unfold addrs, place. rewrite (map_to_list_insert σ p b Hp), filter_cons. cbn [snd].
  by destruct (decide (pbuf_get_allocsrc b = src)).
Qed.

Lemma addrs_delete src σ p b : σ !! p = Some b → addrs src σ ≡ₚ place src p b ++ addrs src (delete p σ).
Proof.
  intros Hp. rewrite <-(insert_delete_id σ p b Hp) at 1. by rewrite addrs_insert by apply lookup_delete_eq.
Qed.

Lemma addrs_same src σ p b b' :
  σ !! p = Some b → b_type b' = b_type b → addrs src (<[p := b']> σ) ≡ₚ addrs src σ.
Proof.
  intros Hp Et. rewrite <-insert_delete_eq, addrs_insert, (addrs_delete src σ p b Hp) by apply lookup_delete_eq.
  unfold place, pbuf_get_allocsrc. by rewrite Et.
Qed.

Lemma elem_addrs src σ p : p ∈ addrs src σ ↔ ∃ b, σ !! p = Some b ∧ pbuf_get_allocsrc b = src.
Proof.
  unfold addrs. rewrite list_elem_of_fmap. split.
  - intros ([q b] & -> & [Hs Hin%elem_of_map_to_list]%list_elem_of_filter). by exists b.
  - intros (b & Hb & Hs). exists (p, b). split; [done|]. apply list_elem_of_filter. split; [done|].
    by apply elem_of_map_to_list.
Qed.

(** ** Releasing a reference *)

(** What [pbuf_free] does to the chain [l]: the pbufs that nobody else refers to
    go, up to the first that somebody does; and how many they are. *)
Fixpoint release (l : list Z) (σ : bufs) : bufs * Z :=
  match l with
  | [] => (σ, 0)
  | p :: l =>
      match σ !! p with
      | Some b =>
          if b_ref b =? 1 then let '(σ', k) := release l (delete p σ) in (σ', k + 1)
          else (<[p := set_ref (b_ref b - 1) b]> σ, 0)
      | None => (σ, 0)
      end
  end.

Lemma release_count l σ : 0 ≤ (release l σ).2 ≤ Z.of_nat (length l).
Proof.
  revert σ. induction l as [|p l IH]; intros σ; simpl; [lia|]. destruct (σ !! p) as [b|]; [|simpl; lia].
  destruct (b_ref b =? 1); [|simpl; lia]. specialize (IH (delete p σ)). destruct (release l (delete p σ)). simpl in *. lia.
Qed.

(** The lengths along a chain: [tot] bytes from here on, of which [rem] are still
    to come. *)
Fixpoint lens (σ : bufs) (l : list Z) (tot rem : Z) : Prop :=
  match l with
  | [] => tot = rem
  | x :: l => ∃ b, σ !! x = Some b ∧ b_tot_len b = tot ∧ 0 ≤ b_len b ≤ tot ∧ lens σ l (tot - b_len b) rem
  end.

(** A packet of [tot] bytes. *)
Definition packet (σ : bufs) (l : list Z) (tot : Z) : Prop := lens σ l tot 0.

Lemma lens_frame σ σ' l tot rem :
  (∀ x b, x ∈ l → σ !! x = Some b → ∃ b', σ' !! x = Some b' ∧ b_tot_len b' = b_tot_len b ∧ b_len b' = b_len b) →
  lens σ l tot rem → lens σ' l tot rem.
Proof.
  revert tot. induction l as [|x l IH]; intros tot Hsame; simpl; [done|].
  intros (b & Hb & Et & Hl & Hr). destruct (Hsame x b) as (b' & Hb' & Et' & El'); [by left|done|].
  exists b'. rewrite Et', El'. split_and!; try done; try lia. apply IH; [|done]. intros y c Hy. apply Hsame. by right.
Qed.

Lemma lens_snoc σ l x b tot rem :
  lens σ l tot rem → σ !! x = Some b → b_tot_len b = rem → 0 ≤ b_len b ≤ rem →
  lens σ (l ++ [x]) tot (rem - b_len b).
Proof.
  revert tot. induction l as [|y l IH]; intros tot; simpl.
  - intros -> Hb Et Hl. exists b. split_and!; (done || lia).
  - intros (c & Hc & Et & Hlc & Hr) Hb Ex Hl. exists c. split_and!; try done; try lia. by apply IH.
Qed.

Lemma lens_bound σ l tot rem : lens σ l tot rem → rem ≤ tot.
Proof.
  revert tot. induction l as [|x l IH]; intros tot; simpl; [lia|]. intros (b & _ & _ & Hl & Hr%IH). lia.
Qed.

(** The end of a chain is changed to go on with another one. *)
Lemma chain_link σ σ' p l1 x b' t lt :
  chain σ p (l1 ++ [x]) → NoDup (l1 ++ [x]) →
  (∀ y b, y ∈ l1 → σ !! y = Some b → ∃ b', σ' !! y = Some b' ∧ b_next b' = b_next b) →
  σ' !! x = Some b' → b_next b' = t → chain σ' t lt → chain σ' p (l1 ++ x :: lt).
Proof.
  revert p. induction l1 as [|y l1 IH]; intros p; simpl.
  - intros (-> & _) _ _ Hx <- Ht. split; [done|]. by exists b'.
  - intros (-> & b & Hb & Hl) [_ Hnd]%NoDup_cons Hsame Hx Et Ht. split; [done|].
    destruct (Hsame y b) as (c & Hc & En); [by left|done|]. exists c. split; [done|]. rewrite En.
    apply IH; try done. intros z d Hz. apply Hsame. by right.
Qed.

(** ** Alignment *)

Lemma align_size x : LWIP_MEM_ALIGN_SIZE x = (x + 3) / 4 * 4.
Proof. apply align_up. Qed.

Lemma align_payload q off :
  q mod MEM_ALIGNMENT = 0 → LWIP_MEM_ALIGN (q + SIZEOF_STRUCT_PBUF + off) = q + SIZEOF_STRUCT_PBUF + LWIP_MEM_ALIGN_SIZE off.
Proof.
  intros Hq. rewrite align_up, align_size. change SIZEOF_STRUCT_PBUF with 16. unfold MEM_ALIGNMENT in Hq.
  Z.div_mod_to_equations. lia.
Qed.

Lemma align_size_range off : 0 ≤ off ≤ 54 → off ≤ LWIP_MEM_ALIGN_SIZE off ≤ 56.
Proof. intros Ho. rewrite align_size. Z.div_mod_to_equations. lia. Qed.

Lemma align_size_bounds n : n ≤ LWIP_MEM_ALIGN_SIZE n < n + 4.
Proof. rewrite align_size. Z.div_mod_to_equations. lia. Qed.

Lemma layer_offset_range layer : 0 ≤ layer_offset layer ≤ 54.
Proof. by destruct layer. Qed.

Lemma align_aligned x : LWIP_MEM_ALIGN x mod MEM_ALIGNMENT = 0.
Proof. rewrite align_up. by rewrite Z.mod_mul. Qed.

(** The block for PBUF_RAM has room for the structure, the headers and the data,
    or there is none. *)
Lemma ram_alloc_len_exact layer n :
  0 ≤ n < 65536 →
  let want := SIZEOF_STRUCT_PBUF + LWIP_MEM_ALIGN_SIZE (layer_offset layer) + LWIP_MEM_ALIGN_SIZE n in
  ram_alloc_len layer n = if want <? 65536 then Some want else None.
Proof.
  intros Hn want. unfold ram_alloc_len.
  assert (0 ≤ layer_offset layer ≤ 54) as Ho by (by destruct layer).
  rewrite (u16_id (layer_offset layer)) by lia. pose proof (align_size_range _ Ho) as Ha.
  set (a := LWIP_MEM_ALIGN_SIZE (layer_offset layer)) in *. set (b := LWIP_MEM_ALIGN_SIZE n) in *.
  assert (n ≤ b < n + 4) as Hb by (unfold b; rewrite align_size; Z.div_mod_to_equations; lia).
  change (LWIP_MEM_ALIGN_SIZE SIZEOF_STRUCT_PBUF) with 16. change SIZEOF_STRUCT_PBUF with 16 in want.
  assert (∀ x, 0 ≤ x < 131072 → u16 x = if x <? 65536 then x else x - 65536) as Hu.
  { intros x Hx. unfold u16. destruct (Z.ltb_spec x 65536); [apply Z.mod_small; lia|].
    symmetry. apply (Z.mod_unique_pos _ _ 1); lia. }
  rewrite (Hu (a + b)) by lia. unfold want. destruct (Z.ltb_spec (a + b) 65536).
  - rewrite (Hu (16 + _)) by lia. destruct (Z.ltb_spec (16 + (a + b)) 65536), (Z.ltb_spec (16 + a + b) 65536); try lia.
    + destruct (Z.ltb_spec (a + b) b), (Z.ltb_spec (16 + (a + b)) b); try lia. simpl. f_equal. lia.
    + destruct (Z.ltb_spec (16 + (a + b) - 65536) b); [by rewrite orb_true_r|lia].
  - destruct (Z.ltb_spec (a + b - 65536) b); [|lia]. simpl. by destruct (Z.ltb_spec (16 + a + b) 65536); [lia|].
Qed.

(** The structure at [p] and its data lie in the [room] bytes from [p] on. *)
Definition in_block (p room : Z) (b : pbuf_s) : Prop :=
  Z.land (b_type b) PBUF_TYPE_FLAG_STRUCT_DATA_CONTIGUOUS ≠ 0 ∧
  p + SIZEOF_STRUCT_PBUF ≤ b_payload b ∧ 0 ≤ b_len b ∧ b_payload b + b_len b ≤ p + room.

(** The size of an element of MEMP_PBUF_POOL. *)
Notation ELEMENT_SIZE := (SIZEOF_STRUCT_PBUF + PBUF_POOL_BUFSIZE_ALIGNED).

Section pbuf_thm.
Context {PP PR H : Type} `{PoolLaws PP, PoolLaws PR, HeapLaws H}.
Context (custom_free : Z → M (pmem PP PR H) unit).
(** The elements of MEMP_PBUF_POOL and of MEMP_PBUF. *)
Context (EP ER : list Z).

Class Layout : Prop := {
  layout_pool : NoDup EP ∧ ∀ x, x ∈ EP → pool_elem (P := PP) x;
  layout_ref : NoDup ER ∧ ∀ x, x ∈ ER → pool_elem (P := PR) x;
  layout_apart x : x ∈ EP → x ∉ ER;
  layout_heap x : x ∈ EP ++ ER → ¬ heap_addr x;
  layout_aligned x : x ∈ EP → x mod MEM_ALIGNMENT = 0;
  layout_pool_apart x y : x ∈ EP → y ∈ EP → x ≠ y → x + ELEMENT_SIZE ≤ y ∨ y + ELEMENT_SIZE ≤ x;
  layout_heap_apart x y (h : H) l :
    x ∈ EP → heap_addr y → heap_holds h l → y ∈ l → x + ELEMENT_SIZE ≤ y ∨ y + heap_room h y ≤ x
}.

Definition plain (b : pbuf_s) : Prop :=
  Z.land (b_flags b) PBUF_FLAG_IS_CUSTOM = 0 ∧
  (pbuf_get_allocsrc b = 0 ∨ pbuf_get_allocsrc b = 1 ∨ pbuf_get_allocsrc b = 2).

(** The bytes of the element or block of [p], with the structure. *)
Definition room_of (h : H) (p : Z) (b : pbuf_s) : Z :=
  if decide (pbuf_get_allocsrc b = 0) then heap_room h p else ELEMENT_SIZE.

(** Every element of a pool is a pbuf or free, the heap's blocks are pbufs; the
    data of a pbuf with data of its own are inside its element or block. *)
Record mem_ok (s : pmem PP PR H) : Prop := MemOk {
  mo_pool : ∃ free, pool_holds (pool_pool s) free ∧ addrs 2 (store s) ++ free ≡ₚ EP;
  mo_ref : ∃ free, pool_holds (ref_pool s) free ∧ addrs 1 (store s) ++ free ≡ₚ ER;
  mo_heap : heap_holds (heap s) (addrs 0 (store s)) ∧ ∀ x, x ∈ addrs 0 (store s) → heap_addr x;
  mo_plain p b : store s !! p = Some b → plain b;
  mo_data p b : store s !! p = Some b → pbuf_get_allocsrc b ≠ 1 → in_block p (room_of (heap s) p b) b
}.

(** ** Reading and writing structures *)

Lemma wp_rd p b (s : pmem PP PR H) (Q : pbuf_s → pmem PP PR H → Prop) :
  store s !! p = Some b → Q b s → wp (rd p) Q s.
Proof. intros Hb HQ. unfold rd. wp_go. by apply wp_of_option with b. Qed.

Lemma wp_wr p f b (s : pmem PP PR H) (Q : unit → pmem PP PR H → Prop) :
  store s !! p = Some b →
  Q tt (PMem (<[p := f b]> (store s)) (pool_pool s) (ref_pool s) (heap s)) → wp (wr p f) Q s.
Proof. intros Hb HQ. unfold wr. apply wp_bind, (wp_rd p b); [done|]. unfold mod_store. by wp_go. Qed.

Lemma mem_ok_same (s : pmem PP PR H) p b b' :
  mem_ok s → store s !! p = Some b → b_type b' = b_type b → Z.land (b_flags b') PBUF_FLAG_IS_CUSTOM = Z.land (b_flags b) PBUF_FLAG_IS_CUSTOM →
  (∀ room, in_block p room b → in_block p room b') →
  mem_ok (PMem (<[p := b']> (store s)) (pool_pool s) (ref_pool s) (heap s)).
Proof.
  intros [(fp & Hp & Ep) (fr & Hr & Er) [Hh Hha] Hpl Hdt] Hb Et Ef Hin. split; simpl.
  - exists fp. by rewrite (addrs_same _ _ p b).
  - exists fr. by rewrite (addrs_same _ _ p b).
  - split.
    + eapply heap_holds_perm; [|exact Hh]. symmetry. by eapply addrs_same.
    + intros x. rewrite (addrs_same _ _ p b) by done. apply Hha.
  - intros q c. destruct (decide (q = p)) as [->|].
    + rewrite lookup_insert_eq. intros [= <-]. unfold plain, pbuf_get_allocsrc. rewrite Et, Ef. by apply (Hpl p).
    + rewrite lookup_insert_ne by done. apply Hpl.
  - intros q c. destruct (decide (q = p)) as [->|].
    + rewrite lookup_insert_eq. intros [= <-]. unfold room_of, pbuf_get_allocsrc. rewrite Et. intros Hs. by apply Hin, (Hdt p).
    + rewrite lookup_insert_ne by done. apply Hdt.
Qed.

Lemma NoDup_sub (l1 l2 E : list Z) x : NoDup E → l1 ++ l2 ≡ₚ E → x ∈ l1 → x ∉ l2.
Proof. intros Hn Hp Hx. rewrite <-Hp in Hn. apply NoDup_app in Hn as (_ & Hd & _). by apply Hd. Qed.

(** The other blocks of the heap are as large as before. *)
Lemma rooms_kept (h h' : H) (σ : bufs) :
  (∀ x, x ∈ addrs 0 σ → heap_room h' x = heap_room h x) →
  (∀ p b, σ !! p = Some b → pbuf_get_allocsrc b ≠ 1 → in_block p (room_of h p b) b) →
  ∀ p b, σ !! p = Some b → pbuf_get_allocsrc b ≠ 1 → in_block p (room_of h' p b) b.
Proof.
  intros Hr Hd p b Hb Hs. pose proof (Hd p b Hb Hs) as Hin. unfold room_of in *.
  destruct (decide (pbuf_get_allocsrc b = 0)) as [E|]; [|done]. rewrite Hr; [done|]. apply elem_addrs. by exists b.
Qed.

Context `{!Layout}.

(** The memory of a pbuf with data of its own is apart from that of any other. *)
Lemma blocks_apart (s : pmem PP PR H) p q b c :
  mem_ok s → store s !! p = Some b → store s !! q = Some c → pbuf_get_allocsrc b ≠ 1 → pbuf_get_allocsrc c ≠ 1 → p ≠ q →
  p + room_of (heap s) p b ≤ q ∨ q + room_of (heap s) q c ≤ p.
Proof.
  clear custom_free. intros [(fp & _ & Ep) _ [Hh Hha] Hpl _] Hb Hc Hb1 Hc1 Hne.
  assert (∀ x d, store s !! x = Some d → pbuf_get_allocsrc d = 2 → x ∈ EP) as Hpool.
  { intros x d Hd Ed. rewrite <-Ep. apply elem_of_app. left. apply elem_addrs. by exists d. }
  assert (∀ x d, store s !! x = Some d → pbuf_get_allocsrc d = 0 → x ∈ addrs 0 (store s)) as Hheap.
  { intros x d Hd Ed. apply elem_addrs. by exists d. }
  destruct (Hpl p b Hb) as [_ Sb], (Hpl q c Hc) as [_ Sc].
  assert (pbuf_get_allocsrc b = 0 ∨ pbuf_get_allocsrc b = 2) as Sb' by tauto.
  assert (pbuf_get_allocsrc c = 0 ∨ pbuf_get_allocsrc c = 2) as Sc' by tauto.
  unfold room_of. destruct Sb' as [Eb|Eb], Sc' as [Ec|Ec]; rewrite ?Eb, ?Ec; cbn [decide]; simpl.
  - eapply heap_apart; eauto.
  - destruct (layout_heap_apart q p (heap s) (addrs 0 (store s))) as [?|?]; eauto.
  - eapply layout_heap_apart; eauto.
  - eapply layout_pool_apart; eauto.
Qed.

Lemma wp_dealloc p b b' (s : pmem PP PR H) (Q : unit → pmem PP PR H → Prop) :
  mem_ok s → store s !! p = Some b' → b_type b = b_type b' → b_flags b = b_flags b' →
  (∀ s', store s' = delete p (store s) → mem_ok s' → Q tt s') → wp (dealloc custom_free p b) Q s.
Proof.
  intros Hs Hb Et Ef HQ. pose proof Hs as [(fp & Hp & Ep) (fr & Hr & Er) [Hh Hha] Hpl Hdt].
  pose proof (Hpl p b' Hb) as [Hcust Hsrc]. unfold pbuf_get_allocsrc in Hsrc.
  rewrite <-Ef in Hcust. rewrite <-Et in Hsrc. fold (pbuf_get_allocsrc b) in Hsrc.
  assert (∀ q c, delete p (store s) !! q = Some c → plain c) as Hpl'.
  { intros q c [_ Hq]%lookup_delete_Some. by apply (Hpl q). }
  assert (∀ q c, delete p (store s) !! q = Some c → pbuf_get_allocsrc c ≠ 1 → in_block q (room_of (heap s) q c) c) as Hdt'.
  { intros q c [_ Hq]%lookup_delete_Some. by apply (Hdt q). }
  pose proof (λ i, addrs_delete i _ _ _ Hb) as Ed. unfold place, pbuf_get_allocsrc in Ed.
  rewrite <-Et in Ed. fold (pbuf_get_allocsrc b) in Ed. unfold dealloc, mod_store, with_pool_pool, with_ref_pool, with_heap. rewrite Hcust. cbn [Z.eqb negb].
  destruct Hsrc as [E|[E|E]]; rewrite E; cbn [Z.eqb Pos.eqb PBUF_TYPE_ALLOC_SRC_MASK_STD_MEMP_PBUF_POOL PBUF_TYPE_ALLOC_SRC_MASK_STD_MEMP_PBUF PBUF_TYPE_ALLOC_SRC_MASK_STD_HEAP]; rewrite E in Ed.
  all: pose proof (Ed 0) as E0; pose proof (Ed 1) as E1; pose proof (Ed 2) as E2; simpl in E0, E1, E2; clear Ed; wp_go; simpl.
  - eapply wp_mono; [apply (wp_mem_free _ (addrs 0 (delete p (store s)))); by eapply heap_holds_perm|].
    intros [] h' [Hh' Hroom]. apply HQ; [done|]. split; simpl; [| | |done|].
    + exists fp. by rewrite <-E2.
    + exists fr. by rewrite <-E1.
    + split; [done|]. intros x Hx. apply Hha. rewrite E0. by right.
    + by apply (rooms_kept (heap s)).
  - assert (p ∈ addrs 1 (store s)) as Hin by (rewrite E1; by left).
    eapply wp_mono; [apply (wp_pool_free _ p fr Hr)|].
    + apply layout_ref. rewrite <-Er. apply elem_of_app. by left.
    + apply (NoDup_sub _ _ _ _ (proj1 layout_ref) Er Hin).
    + intros [] r' Hr'. apply HQ; [done|]. split; simpl; [| | |done|done].
      * exists fp. by rewrite <-E2.
      * exists (p :: fr). split; [done|]. rewrite <-Er, E1. symmetry. apply Permutation_middle.
      * split; [by eapply heap_holds_perm|]. intros x. rewrite <-E0. apply Hha.
  - assert (p ∈ addrs 2 (store s)) as Hin by (rewrite E2; by left).
    eapply wp_mono; [apply (wp_pool_free _ p fp Hp)|].
    + apply layout_pool. rewrite <-Ep. apply elem_of_app. by left.
    + apply (NoDup_sub _ _ _ _ (proj1 layout_pool) Ep Hin).
    + intros [] r' Hr'. apply HQ; [done|]. split; simpl; [| | |done|done].
      * exists (p :: fp). split; [done|]. rewrite <-Ep, E2. symmetry. apply Permutation_middle.
      * exists fr. by rewrite <-E1.
      * split; [by eapply heap_holds_perm|]. intros x. rewrite <-E0. apply Hha.
Qed.

(** The counts along a chain are those of allocated pbufs. *)
Definition counted (σ : bufs) (l : list Z) : Prop := ∀ x, x ∈ l → ∃ b, σ !! x = Some b ∧ 0 < b_ref b < 256.

Lemma wp_free_loop n p c l (s : pmem PP PR H) (Q : Z → pmem PP PR H → Prop) :
  mem_ok s → chain (store s) p l → NoDup l → NULL ∉ l → counted (store s) l → (length l < n)%nat → 0 ≤ c < 256 →
  (∀ s', mem_ok s' → store s' = (release l (store s)).1 → Q (u8 (c + (release l (store s)).2)) s') →
  wp (free_loop custom_free n p c) Q s.
Proof.
  revert n p c s. induction l as [|x l IH]; intros n p c s Hs Hl Hnd Hnull Hcnt Hn Hc HQ; (destruct n as [|n]; [lia|]).
  - simpl in Hl. subst p. apply wp_ret. specialize (HQ s Hs eq_refl).
    simpl in HQ. rewrite Z.add_0_r, u8_id in HQ by done. exact HQ.
  - pose proof Hl as (-> & b & Hb & Hl'). apply NoDup_cons in Hnd as [Hxl Hnd].
    apply not_elem_of_cons in Hnull as [Hx Hnull]. destruct (Hcnt x) as (b' & Hb' & Hr); [by left|].
    rewrite Hb in Hb'. injection Hb' as <-. cbn [free_loop release] in HQ |- *. rewrite Hb in HQ.
    rewrite (proj2 (Z.eqb_neq x NULL)) by done. apply wp_bind, (wp_rd x b); [done|].
    apply wp_bind, wp_assert; [apply Z.ltb_lt; lia|]. apply wp_bind, (wp_wr x _ b); [done|].
    rewrite (u8_id (b_ref b - 1)) by lia. destruct (Z.eqb_spec (b_ref b) 1) as [E1|Ne].
    + rewrite E1. cbn [Z.eqb Z.sub Z.add Z.opp Z.pos_sub Pos.eqb]. apply wp_bind.
      eapply (wp_dealloc x b); [by apply (mem_ok_same s x b)|apply lookup_insert_eq|done|done|].
      intros s' Es' Hs'. simpl in Es'. rewrite delete_insert_eq in Es'.
      destruct (release l (delete x (store s))) as [σ' k] eqn:Erl. cbn [fst snd] in HQ.
      apply (IH n (b_next b)); try done.
      * rewrite Es'. eapply chain_frame; [|exact Hl']. intros y d Hy Hd. exists d. split; [|done].
        apply lookup_delete_Some. split; [|done]. by intros <-.
      * rewrite Es'. intros y Hy. destruct (Hcnt y) as (d & Hd & ?); [by right|]. exists d.
        by rewrite lookup_delete_ne by (intros <-; done).
      * simpl in Hn. lia.
      * apply u8_range.
      * intros s2 Hs2 Es2. rewrite Es', Erl in Es2 |- *. cbn [fst snd] in *.
        replace (u8 (u8 (c + 1) + k)) with (u8 (c + (k + 1))); [by apply HQ|].
        unfold u8. rewrite Zplus_mod_idemp_l. f_equal. lia.
    + rewrite (proj2 (Z.eqb_neq (b_ref b - 1) 0)) by lia. destruct n as [|n]; [simpl in Hn; lia|].
      apply wp_ret. cbn [fst snd] in HQ. rewrite Z.add_0_r, u8_id in HQ by done. apply HQ; [by apply (mem_ok_same s x b)|done].
Qed.

Lemma refs_ok_counted σ owners p l : refs_ok σ owners → chain σ p l → NoDup l ∧ NULL ∉ l ∧ counted σ l.
Proof.
  intros Ho Hl. split_and!; [by apply (chain_nodup σ (ro_null _ _ Ho) p)| |].
  - intros Hin. apply (chain_alloc _ _ _ _ Hl) in Hin as [b Hb]. by rewrite (ro_null _ _ Ho) in Hb.
  - intros x Hx. apply (chain_alloc _ _ _ _ Hl) in Hx as [b Hb]. exists b. split; [done|]. by apply (ro_count _ _ Ho x b).
Qed.

(** Releasing keeps the counts right. *)
Lemma refs_ok_release σ p l owners : refs_ok σ (p :: owners) → chain σ p l → refs_ok (release l σ).1 owners.
Proof.
  revert σ p. induction l as [|x l IH]; intros σ p Ho Hl.
  - simpl in Hl. subst p. by apply (proj1 (refs_ok_null _ _)) in Ho.
  - pose proof Hl as (-> & b & Hb & Hl'). cbn [release]. rewrite Hb. destruct (Z.eqb_spec (b_ref b) 1) as [E1|Ne].
    + specialize (IH (delete x σ) (b_next b)). destruct (release l (delete x σ)) as [σ' k]. apply IH; [by apply refs_ok_dealloc|].
      eapply chain_frame; [|exact Hl']. intros y d Hy Hd. exists d. split; [|done].
      apply lookup_delete_Some. split; [|done]. intros <-.
      destruct (refs_ok_counted _ _ _ _ Ho Hl) as [Hnd _]. by apply NoDup_cons in Hnd as [? _].
    + by apply refs_ok_unref.
Qed.

Lemma release_insert l σ x b : x ∉ l → release l (<[x := b]> σ) = (<[x := b]> (release l σ).1, (release l σ).2).
Proof.
  revert σ. induction l as [|y l IH]; intros σ Hx; simpl; [done|]. apply not_elem_of_cons in Hx as [Hxy Hx].
  rewrite lookup_insert_ne by done. destruct (σ !! y) as [c|]; [|done]. destruct (b_ref c =? 1).
  - rewrite delete_insert_ne, IH by done. by destruct (release l (delete y σ)).
  - simpl. f_equal. by rewrite insert_insert_ne.
Qed.

Lemma release_other l σ x : x ∉ l → (release l σ).1 !! x = σ !! x.
Proof.
  revert σ. induction l as [|y l IH]; intros σ Hx; simpl; [done|]. apply not_elem_of_cons in Hx as [Hxy Hx].
  destruct (σ !! y) as [c|]; [|done]. destruct (b_ref c =? 1).
  - specialize (IH (delete y σ) Hx). destruct (release l (delete y σ)). simpl in *. rewrite IH. by rewrite lookup_delete_ne.
  - simpl. by rewrite lookup_insert_ne.
Qed.

Lemma wp_pbuf_free_raw p l (s : pmem PP PR H) (Q : Z → pmem PP PR H → Prop) :
  mem_ok s → p ≠ NULL → store s !! NULL = None → chain (store s) p l → counted (store s) l →
  (∀ s', mem_ok s' → store s' = (release l (store s)).1 → Q (u8 (release l (store s)).2) s') →
  wp (pbuf_free custom_free p) Q s.
Proof.
  intros Hs Hp Hnull Hl Hcnt HQ. unfold pbuf_free. apply wp_bind, wp_assert; [by apply negb_true_iff, Z.eqb_neq|].
  apply wp_bind, wp_gets. apply (wp_free_loop _ p 0 l); try done.
  - by apply (chain_nodup _ Hnull p).
  - intros Hin. apply (chain_alloc _ _ _ _ Hl) in Hin as [b Hb]. by rewrite Hnull in Hb.
  - apply chain_size in Hl; [lia|done].
Qed.

Lemma wp_pbuf_free p l owners (s : pmem PP PR H) (Q : Z → pmem PP PR H → Prop) :
  refs_ok (store s) (p :: owners) → mem_ok s → p ≠ NULL → chain (store s) p l →
  (∀ s', refs_ok (store s') owners → mem_ok s' → store s' = (release l (store s)).1 →
    Q (u8 (release l (store s)).2) s') →
  wp (pbuf_free custom_free p) Q s.
Proof.
  intros Ho Hs Hp Hl HQ. apply (wp_pbuf_free_raw p l); try done; [apply (ro_null _ _ Ho)|apply (refs_ok_counted _ _ _ _ Ho Hl)|].
  intros s' Hs' Es'. apply HQ; [|done|done]. rewrite Es'. by apply (refs_ok_release _ p).
Qed.

Lemma owner_chain σ p owners : refs_ok σ (p :: owners) → ∃ l, chain σ p l.
Proof.
  intros Ho. apply (refs_ok_chain _ _ _ Ho). destruct (decide (p = NULL)); [by left|right].
  apply (ro_alloc _ _ Ho); [by left|done].
Qed.

(** ** Allocating *)

Lemma pool_unused src E (s : pmem PP PR H) free x :
  mem_ok s → NoDup E → addrs src (store s) ++ free ≡ₚ E → x ∈ free →
  (∀ i, (i = 0 ∨ i = 1 ∨ i = 2) → i ≠ src → x ∉ addrs i (store s)) → store s !! x = None.
Proof.
  intros Hs Hnd Hp Hx Hother. destruct (store s !! x) as [b|] eqn:Hb; [|done]. exfalso.
  destruct (mo_plain _ Hs x b Hb) as [_ Hsrc].
  assert (x ∈ addrs (pbuf_get_allocsrc b) (store s)) as Hin by (apply elem_addrs; by exists b).
  destruct (decide (pbuf_get_allocsrc b = src)) as [E'|Ne]; [|by apply (Hother _ Hsrc Ne)].
  rewrite E' in Hin. by apply (NoDup_sub _ _ _ _ Hnd Hp Hin).
Qed.

Lemma heap_not_pool (s : pmem PP PR H) x : mem_ok s → x ∈ EP ++ ER → x ∉ addrs 0 (store s).
Proof. intros Hs Hx Hin. by apply (layout_heap x Hx), (mo_heap _ Hs). Qed.

Lemma in_pool src (s : pmem PP PR H) E free x : addrs src (store s) ++ free ≡ₚ E → x ∈ addrs src (store s) ++ free → x ∈ E.
Proof. by intros <-. Qed.

(** A new pbuf of the pool. *)
Lemma wp_pool_pbuf (s : pmem PP PR H) (Q : Z → pmem PP PR H → Prop) :
  mem_ok s →
  (∀ s', store s' = store s → mem_ok s' → Q NULL s') →
  (∀ q pp, q ∈ EP → q ≠ NULL → store s !! q = None →
    (∀ b, plain b → pbuf_get_allocsrc b = 2 → in_block q (ELEMENT_SIZE) b →
      mem_ok (PMem (<[q := b]> (store s)) pp (ref_pool s) (heap s))) →
    Q q (PMem (store s) pp (ref_pool s) (heap s))) →
  wp (with_pool_pool pool_malloc) Q s.
Proof.
  intros Hs Hno Hyes. pose proof Hs as [(fp & Hp & Ep) (fr & Hr & Er) [Hh Hha] Hpl Hdt].
  apply wp_zoom. destruct fp as [|q fp].
  - eapply wp_mono; [by apply wp_pool_malloc_none|]. intros a pp [-> ->]. by apply Hno; destruct s.
  - eapply wp_mono; [by apply (wp_pool_malloc_some _ q fp)|]. intros a pp [-> Hp'].
    assert (q ∈ EP) as HqE by (rewrite <-Ep; apply elem_of_app; right; by left).
    assert (store s !! q = None) as Hnone.
    { apply (pool_unused 2 EP s (q :: fp)); try done; [apply layout_pool|by left|].
      intros i Hi Hne Hin. destruct Hi as [-> | [-> | ->]]; [|apply (layout_apart q HqE)|done].
      - by apply (heap_not_pool s q Hs); [apply elem_of_app; left|].
      - apply (in_pool 1 s ER fr); [done|]. apply elem_of_app. by left. }
    apply Hyes; try done; [by apply (pool_elem_nonnull (P:=PP)), (proj2 layout_pool)|].
    intros b Hb Hsrc Hblk. split; simpl.
    + exists fp. split; [done|]. rewrite addrs_insert by done. unfold place. rewrite decide_True by done.
      rewrite <-Ep. simpl. by rewrite Permutation_middle.
    + exists fr. split; [done|]. rewrite addrs_insert by done. unfold place. by rewrite decide_False by lia.
    + assert (addrs 0 (<[q := b]> (store s)) ≡ₚ addrs 0 (store s)) as E.
      { rewrite addrs_insert by done. unfold place. by rewrite decide_False by lia. }
      split; [by eapply heap_holds_perm|]. intros x. rewrite E. apply Hha.
    + intros x c [[_ <-]|[_ Hx]]%lookup_insert_Some; [done|by apply (Hpl x)].
    + intros x c [[<- <-]|[_ Hx]]%lookup_insert_Some; [|by apply (Hdt x)]. intros _. unfold room_of. by rewrite decide_False by lia.
Qed.

Lemma wp_ref_pbuf (s : pmem PP PR H) (Q : Z → pmem PP PR H → Prop) :
  mem_ok s →
  (∀ s', store s' = store s → mem_ok s' → Q NULL s') →
  (∀ q rp, q ∈ ER → q ≠ NULL → store s !! q = None →
    (∀ b, plain b → pbuf_get_allocsrc b = 1 →
      mem_ok (PMem (<[q := b]> (store s)) (pool_pool s) rp (heap s))) →
    Q q (PMem (store s) (pool_pool s) rp (heap s))) →
  wp (with_ref_pool pool_malloc) Q s.
Proof.
  intros Hs Hno Hyes. pose proof Hs as [(fp & Hp & Ep) (fr & Hr & Er) [Hh Hha] Hpl Hdt].
  apply wp_zoom. destruct fr as [|q fr].
  - eapply wp_mono; [by apply wp_pool_malloc_none|]. intros a pp [-> ->]. by apply Hno; destruct s.
  - eapply wp_mono; [by apply (wp_pool_malloc_some _ q fr)|]. intros a pp [-> Hr'].
    assert (q ∈ ER) as HqE by (rewrite <-Er; apply elem_of_app; right; by left).
    assert (store s !! q = None) as Hnone.
    { apply (pool_unused 1 ER s (q :: fr)); try done; [apply layout_ref|by left|].
      intros i Hi Hne Hin. destruct Hi as [-> | [-> | ->]]; [|done|].
      - by apply (heap_not_pool s q Hs); [apply elem_of_app; right|].
      - apply (layout_apart q); [|done]. apply (in_pool 2 s EP fp); [done|]. apply elem_of_app. by left. }
    apply Hyes; try done; [by apply (pool_elem_nonnull (P:=PR)), (proj2 layout_ref)|].
    intros b Hb Hsrc. split; simpl.
    + exists fp. split; [done|]. rewrite addrs_insert by done. unfold place. by rewrite decide_False by lia.
    + exists fr. split; [done|]. rewrite addrs_insert by done. unfold place. rewrite decide_True by done.
      rewrite <-Er. simpl. by rewrite Permutation_middle.
    + assert (addrs 0 (<[q := b]> (store s)) ≡ₚ addrs 0 (store s)) as E.
      { rewrite addrs_insert by done. unfold place. by rewrite decide_False by lia. }
      split; [by eapply heap_holds_perm|]. intros x. rewrite E. apply Hha.
    + intros x c [[_ <-]|[_ Hx]]%lookup_insert_Some; [done|by apply (Hpl x)].
    + intros x c [[<- <-]|[_ Hx]]%lookup_insert_Some; [done|by apply (Hdt x)].
Qed.

Lemma wp_heap_pbuf n (s : pmem PP PR H) (Q : Z → pmem PP PR H → Prop) :
  mem_ok s → 0 ≤ n < 65536 →
  (∀ s', store s' = store s → mem_ok s' → Q NULL s') →
  (∀ q h, heap_addr q → store s !! q = None →
    (∀ b, plain b → pbuf_get_allocsrc b = 0 → in_block q n b →
      mem_ok (PMem (<[q := b]> (store s)) (pool_pool s) (ref_pool s) h)) →
    Q q (PMem (store s) (pool_pool s) (ref_pool s) h)) →
  wp (with_heap (mem_malloc n)) Q s.
Proof.
  intros Hs Hn Hno Hyes. pose proof Hs as [(fp & Hp & Ep) (fr & Hr & Er) [Hh Hha] Hpl Hdt].
  apply wp_zoom. eapply wp_mono; [by apply wp_mem_malloc|]. intros q h [Hroom [[-> Hh']|(Hq & Hnew & Hbig & Hh')]].
  - apply Hno; [done|]. split; simpl; [by exists fp|by exists fr|done|done|by apply (rooms_kept (heap s))].
  - assert (store s !! q = None) as Hnone.
    { destruct (store s !! q) as [b|] eqn:Hb; [|done]. exfalso. destruct (Hpl q b Hb) as [_ Hsrc].
      assert (q ∈ addrs (pbuf_get_allocsrc b) (store s)) as Hin by (apply elem_addrs; by exists b).
      destruct Hsrc as [E|[E|E]]; rewrite E in Hin; [done| |]; apply (layout_heap q); try done; apply elem_of_app.
      - right. apply (in_pool 1 s ER fr); [done|]. apply elem_of_app. by left.
      - left. apply (in_pool 2 s EP fp); [done|]. apply elem_of_app. by left. }
    apply Hyes; [done|done|]. intros b Hb Hsrc (Hc & Hlow & Hlen & Hup). split; simpl.
    + exists fp. split; [done|]. rewrite addrs_insert by done. unfold place. by rewrite decide_False by lia.
    + exists fr. split; [done|]. rewrite addrs_insert by done. unfold place. by rewrite decide_False by lia.
    + assert (addrs 0 (<[q := b]> (store s)) ≡ₚ q :: addrs 0 (store s)) as E.
      { rewrite addrs_insert by done. unfold place. by rewrite decide_True by lia. }
      split; [by eapply heap_holds_perm; [symmetry|]|]. intros x. rewrite E. intros [->|?]%elem_of_cons; [done|by apply Hha].
    + intros x c [[_ <-]|[_ Hx]]%lookup_insert_Some; [done|by apply (Hpl x)].
    + intros x c [[<- <-]|[_ Hx]]%lookup_insert_Some; [|by apply (rooms_kept (heap s) h (store s) Hroom Hdt)].
      intros _. unfold room_of. rewrite decide_True by done. split_and!; (done || lia).
Qed.

(** The data of a pbuf of the pool are inside its element. *)
Definition inside (q : Z) (b : pbuf_s) : Prop :=
  q ∈ EP ∧ q + SIZEOF_STRUCT_PBUF ≤ b_payload b ∧
  b_payload b + b_len b ≤ q + ELEMENT_SIZE.

(** A new chain, beside what was there before. *)
Record new_chain (σ0 σ : bufs) (p : Z) (l : list Z) : Prop := NewChain {
  nc_chain : chain σ p l;
  nc_nodup : NoDup l;
  nc_other x : x ∉ l → σ !! x = σ0 !! x;
  nc_fresh x : x ∈ l → σ0 !! x = None;
  nc_refs x : x ∈ l → ∃ b, σ !! x = Some b ∧ b_ref b = 1 ∧ inside x b
}.

Lemma release_new l σ0 σ :
  NoDup l → (∀ x, x ∉ l → σ !! x = σ0 !! x) → (∀ x, x ∈ l → σ0 !! x = None) →
  (∀ x, x ∈ l → ∃ b, σ !! x = Some b ∧ b_ref b = 1) → (release l σ).1 = σ0.
Proof.
  revert σ. induction l as [|x l IH]; intros σ Hnd Hother Hfresh Hrefs.
  - apply map_eq. intros y. apply Hother. by intros ?%elem_of_nil.
  - apply NoDup_cons in Hnd as [Hx Hnd]. cbn [release]. destruct (Hrefs x) as (b & Hb & Er); [by left|].
    rewrite Hb, Er. cbn [Z.eqb Pos.eqb]. specialize (IH (delete x σ) Hnd).
    destruct (release l (delete x σ)) as [σ' k]. apply IH.
    + intros y Hy. destruct (decide (y = x)) as [->|Hne].
      * rewrite lookup_delete_eq. symmetry. apply Hfresh. by left.
      * rewrite lookup_delete_ne by done. apply Hother. by apply not_elem_of_cons.
    + intros y Hy. apply Hfresh. by right.
    + intros y Hy. rewrite lookup_delete_ne by (intros ->; done). apply Hrefs. by right.
Qed.

Lemma plain_pool r p t l : plain (PbufS r p t l (u8 (pbuf_type_value PBUF_POOL)) 0 1 0).
Proof. split; [done|]. right. by right. Qed.

(** The chain [l] from [p], which ends at [last], gets [q] as its new end. *)
Definition ends_at (p last : Z) (l : list Z) : Prop :=
  match l with [] => p = NULL | _ => p ≠ NULL ∧ ∃ l1, l = l1 ++ [last] end.

Lemma ends_at_snoc p last l : p ≠ NULL → ends_at p last (l ++ [last]).
Proof. intros Hp. destruct l as [|x l]; (split; [done|]); [by exists []|by exists (x :: l)]. Qed.

Lemma refs_ok_first σ p owners q b :
  refs_ok σ (p :: owners) → σ !! q = None → q ≠ NULL → b_next b = NULL → b_ref b = 1 → p = NULL →
  refs_ok (<[q := b]> σ) (q :: owners).
Proof.
  intros Ho Hq Hn En Er ->. apply (proj1 (refs_ok_null _ _)) in Ho. by apply refs_ok_new.
Qed.

Lemma new_chain_first σ0 q b :
  σ0 !! q = None → q ≠ NULL → b_next b = NULL → b_ref b = 1 → inside q b → new_chain σ0 (<[q := b]> σ0) q [q].
Proof.
  intros Hq Hn En Er Hin. split.
  - split; [done|]. exists b. by rewrite lookup_insert_eq.
  - apply NoDup_singleton.
  - intros x Hx. rewrite lookup_insert_ne by (intros <-; apply Hx; by left). done.
  - intros x ->%list_elem_of_singleton. done.
  - intros x ->%list_elem_of_singleton. exists b. by rewrite lookup_insert_eq.
Qed.

Lemma new_chain_snoc σ0 σ p l1 last c q b :
  new_chain σ0 σ p (l1 ++ [last]) → σ !! NULL = None → σ !! q = None → q ≠ NULL → b_next b = NULL → b_ref b = 1 →
  inside q b → σ !! last = Some c →
  new_chain σ0 (<[last := set_next q c]> (<[q := b]> σ)) p ((l1 ++ [last]) ++ [q]).
Proof.
  intros [Hc Hnd Hother Hfresh Hrefs] Hnull Hq Hn En Er Hin Hlast.
  assert (q ∉ l1 ++ [last]) as Hql. { intros Hx. by destruct (Hrefs q Hx) as (d & Hd & _); rewrite Hq in Hd. }
  assert (last ≠ q) as Hlq by (intros ->; congruence).
  assert (last ∉ l1) as Hl1.
  { apply NoDup_app in Hnd as (_ & Hd & _). intros Hx. apply (Hd _ Hx). by left. }
  split.
  - rewrite <-app_assoc. eapply (chain_link σ); [exact Hc|done| |apply lookup_insert_eq|done|].
    + intros y d Hy Hd. rewrite !lookup_insert_ne by (intros <-; (done || congruence)). by exists d.
    + split; [done|]. exists b. rewrite lookup_insert_ne, lookup_insert_eq by done. by rewrite En.
  - apply NoDup_app. split_and!; [done| |apply NoDup_singleton]. intros x Hx ->%list_elem_of_singleton. done.
  - intros x Hx. rewrite !lookup_insert_ne; [|intros <-; apply Hx, elem_of_app; right; by left|intros <-; apply Hx, elem_of_app; left; apply elem_of_app; right; by left].
    apply Hother. intros Hx'. apply Hx, elem_of_app. by left.
  - intros x [Hx|Hx]%elem_of_app; [by apply Hfresh|]. apply list_elem_of_singleton in Hx as ->.
    rewrite <-Hother by done. done.
  - intros x [Hx|Hx]%elem_of_app.
    + destruct (Hrefs x Hx) as (d & Hd & Hr & Hi). destruct (decide (x = last)) as [->|Hxl].
      * rewrite lookup_insert_eq. exists (set_next q c). rewrite Hlast in Hd. injection Hd as <-. done.
      * rewrite !lookup_insert_ne by (intros <-; (done || congruence)). by exists d.
    + apply list_elem_of_singleton in Hx as ->. exists b. by rewrite lookup_insert_ne, lookup_insert_eq.
Qed.

(** The pbuf [pbuf_alloc] makes for [rem] bytes. *)
Definition pool_pbuf (q rem off : Z) : pbuf_s :=
  PbufS NULL (q + SIZEOF_STRUCT_PBUF + LWIP_MEM_ALIGN_SIZE off) rem
    (Z.min rem (PBUF_POOL_BUFSIZE_ALIGNED - LWIP_MEM_ALIGN_SIZE off)) 0x82 0 1 0.

Lemma pool_pbuf_ok q rem off :
  q ∈ EP → 0 ≤ rem → 0 ≤ off ≤ 54 → inside q (pool_pbuf q rem off) ∧ 0 ≤ b_len (pool_pbuf q rem off) ≤ rem.
Proof.
  intros Hq Hr Ho. pose proof (align_size_range off Ho). change PBUF_POOL_BUFSIZE_ALIGNED with 1536 in *.
  unfold inside, pool_pbuf. simpl. change PBUF_POOL_BUFSIZE_ALIGNED with 1536. split_and!; (done || lia).
Qed.

Lemma wp_alloc_pool_loop n p last l rem off tot σ0 owners (s : pmem PP PR H) (Q : Z → pmem PP PR H → Prop) :
  mem_ok s → refs_ok (store s) (p :: owners) → ends_at p last l →
  (l = [] → store s = σ0) → (l ≠ [] → new_chain σ0 (store s) p l ∧ 0 < rem) →
  lens (store s) l tot rem → 0 ≤ rem < 65536 → 0 ≤ off ≤ 54 → (Z.to_nat rem < n)%nat →
  (∀ s', store s' = σ0 → mem_ok s' → refs_ok σ0 owners → Q NULL s') →
  (∀ r l' s', r ≠ NULL → mem_ok s' → refs_ok (store s') (r :: owners) →
    new_chain σ0 (store s') r l' → packet (store s') l' tot → Q r s') →
  wp (alloc_pool_loop custom_free n p last rem off) Q s.
Proof.
  revert p last l rem off s. induction n as [|n IH]; intros p last l rem off s Hs Ho Hend Hnil Hnew Hlens Hrem Hoff Hn Hno Hyes; [lia|].
  cbn [alloc_pool_loop]. apply wp_bind, wp_pool_pbuf; [done| |].
  - intros s' Es' Hs'. cbn [Z.eqb NULL]. destruct l as [|x l].
    + simpl in Hend. subst p. cbn [Z.eqb NULL negb]. apply wp_bind, wp_ret, wp_ret. rewrite Hnil in * by done.
      apply Hno; [by rewrite Es'|done|]. by apply (proj1 (refs_ok_null _ _)).
    + destruct Hend as [Hp _]. apply Z.eqb_neq in Hp as Hp'. rewrite Hp'. destruct Hnew as [[Hc Hnd Hother Hfresh Hrefs] _]; [done|].
      apply wp_bind, wp_when; [intros _|done]. apply wp_bind. rewrite <-Es' in *.
      apply (wp_pbuf_free p (x :: l) owners); try done. intros s2 Ho2 Hs2 Es2. apply wp_ret, wp_ret.
      rewrite (release_new _ σ0) in Es2; [|done|done|done|].
      * apply Hno; [done|done|by rewrite <-Es2].
      * intros y Hy. destruct (Hrefs y Hy) as (b & Hb & Hr & _). by exists b.
  - intros q pp HqE Hqn Hq Hmem. apply Z.eqb_neq in Hqn as Hqn'. rewrite Hqn'.
    pose proof (layout_aligned q HqE) as Hal. pose proof (align_size_range off Hoff) as Hao.
    change (u8 (pbuf_type_value PBUF_POOL)) with 0x82 || idtac.
    rewrite (u16_id (PBUF_POOL_BUFSIZE_ALIGNED - _)) by (change PBUF_POOL_BUFSIZE_ALIGNED with 1536; lia).
    rewrite align_payload by done.
    set (b := pool_pbuf q rem off). destruct (pool_pbuf_ok q rem off HqE) as [Hin Hlen]; [lia|done|]. fold b in Hin, Hlen.
    apply wp_bind. unfold pbuf_init_alloced_pbuf, mod_store. wp_go.
    change (PbufS NULL _ rem _ _ 0 1 0) with b.
    apply wp_assert; [rewrite <-align_payload by done; by rewrite align_aligned|].
    apply wp_bind, wp_assert; [apply Z.ltb_lt; change PBUF_POOL_BUFSIZE_ALIGNED with 1536; lia|].
    assert (mem_ok (PMem (<[q:=b]> (store s)) pp (ref_pool s) (heap s))) as Hmem'.
    { apply Hmem; [|done|].
      - split; [done|]. right. by right.
      - destruct Hin as (_ & Hi1 & Hi2). split_and!; [done|done|lia|lia]. }
    assert (∀ p1 s1, p1 ≠ NULL → mem_ok s1 → refs_ok (store s1) (p1 :: owners) → ends_at p1 q (l ++ [q]) →
      new_chain σ0 (store s1) p1 (l ++ [q]) → lens (store s1) (l ++ [q]) tot (rem - b_len b) →
      wp (if 0 <? u16 (rem - b_len b) then alloc_pool_loop custom_free n p1 q (u16 (rem - b_len b)) 0 else mret p1) Q s1) as Hgo.
    { intros p1 s1 Hp1 Hs1 Ho1 Hend1 Hc1 Hlens1. rewrite u16_id by lia. destruct (Z.ltb_spec 0 (rem - b_len b)) as [Hmore|Hdone].
      - apply (IH p1 q (l ++ [q]) (rem - b_len b) 0); try done; try lia.
        + by intros [_ ?]%app_nil.
        + assert (0 < b_len b) by (unfold b, pool_pbuf; simpl; change PBUF_POOL_BUFSIZE_ALIGNED with 1536; lia). lia.
      - apply wp_ret, (Hyes p1 (l ++ [q])); try done. unfold packet. by replace 0 with (rem - b_len b) by lia. }
    destruct l as [|x0 l0].
    + simpl in Hend. subst p. cbn [Z.eqb NULL]. apply wp_bind, wp_ret. simpl in Hlens. subst tot.
      rewrite Hnil in Hq, Ho, Hmem' |- * by done. apply Hgo; try done.
      * by apply (refs_ok_first _ NULL).
      * split; [done|]. by exists [].
      * by apply new_chain_first.
      * simpl. exists b. rewrite lookup_insert_eq. split_and!; (done || lia).
    + destruct Hend as [Hp [l1 El]]. destruct (Hnew ltac:(done)) as [Hc Hpos].
      apply Z.eqb_neq in Hp as Hp'. rewrite Hp'. rewrite El in *.
      assert (∃ c, store s !! last = Some c ∧ b_next c = NULL) as (c & Hc' & Ec).
      { destruct (chain_split _ _ l1 last [] (nc_chain _ _ _ _ Hc)) as (_ & c & Hlc & E). by exists c. }
      assert (last ≠ q) as Hlq by (intros ->; congruence).
      apply wp_bind, (wp_wr last _ c); [simpl; by rewrite lookup_insert_ne|].
      apply Hgo; try done.
      * apply (mem_ok_same _ last c); [done|simpl; by rewrite lookup_insert_ne|done|done|done].
      * simpl. eapply (refs_ok_link _ _ last c _ q [q]); try done.
        -- by apply refs_ok_new.
        -- by rewrite lookup_insert_ne.
        -- split; [done|]. exists b. by rewrite lookup_insert_eq.
        -- by intros ->%list_elem_of_singleton.
      * by apply ends_at_snoc.
      * simpl. apply new_chain_snoc; try done. apply (ro_null _ _ Ho).
      * apply (lens_snoc _ _ q b); try done; cbn [store].
        -- eapply lens_frame; [|exact Hlens]. intros y d Hy Hd. destruct (decide (y = last)) as [->|Hyl].
           ++ rewrite lookup_insert_eq. exists (set_next q c). rewrite Hc' in Hd. by injection Hd as <-.
           ++ rewrite !lookup_insert_ne by (intros <-; (done || congruence)). by exists d.
        -- by rewrite lookup_insert_ne, lookup_insert_eq.
Qed.

(** ** [pbuf_alloc] *)

Record fresh_chain (σ0 σ : bufs) (p : Z) (l : list Z) : Prop := FreshChain {
  fc_chain : chain σ p l;
  fc_nodup : NoDup l;
  fc_other x : x ∉ l → σ !! x = σ0 !! x;
  fc_fresh x : x ∈ l → σ0 !! x = None;
  fc_refs x : x ∈ l → ∃ b, σ !! x = Some b ∧ b_ref b = 1
}.

Lemma new_chain_fresh σ0 σ p l : new_chain σ0 σ p l → fresh_chain σ0 σ p l.
Proof. intros [C1 C2 C3 C4 C5]. split; try done. intros x Hx. destruct (C5 x Hx) as (b & ? & ? & _). by exists b. Qed.

Lemma fresh_chain_one σ0 q b :
  σ0 !! q = None → b_next b = NULL → b_ref b = 1 → fresh_chain σ0 (<[q := b]> σ0) q [q].
Proof.
  intros Hq En Er. split.
  - split; [done|]. exists b. by rewrite lookup_insert_eq.
  - apply NoDup_singleton.
  - intros x Hx. rewrite lookup_insert_ne by (intros <-; apply Hx; by left). done.
  - intros x ->%list_elem_of_singleton. done.
  - intros x ->%list_elem_of_singleton. exists b. by rewrite lookup_insert_eq.
Qed.

Lemma packet_one (σ : bufs) q b n : 0 ≤ n → b_tot_len b = n → b_len b = n → packet (<[q := b]> σ) [q] n.
Proof. intros Hn Et El. exists b. rewrite lookup_insert_eq, El. split_and!; try done; simpl; lia. Qed.

(** A pbuf of the heap, with [n] bytes of data behind the headers. *)
Definition ram_pbuf (layer : pbuf_layer) (q n : Z) : pbuf_s :=
  PbufS NULL (q + SIZEOF_STRUCT_PBUF + LWIP_MEM_ALIGN_SIZE (layer_offset layer)) n n (u8 (pbuf_type_value PBUF_RAM)) 0 1 0.

Lemma wp_alloc_ram layer n (s : pmem PP PR H) (Q : Z → pmem PP PR H → Prop) :
  mem_ok s → 0 ≤ n < 65536 →
  (∀ s', store s' = store s → mem_ok s' → Q NULL s') →
  (∀ q s', q ≠ NULL → store s !! q = None → mem_ok s' → store s' = <[q := ram_pbuf layer q n]> (store s) → Q q s') →
  wp (pbuf_alloc custom_free layer n PBUF_RAM) Q s.
Proof.
  intros Hs Hn Hno Hyes. unfold pbuf_alloc. rewrite ram_alloc_len_exact by done.
  destruct (Z.ltb_spec (SIZEOF_STRUCT_PBUF + LWIP_MEM_ALIGN_SIZE (layer_offset layer) + LWIP_MEM_ALIGN_SIZE n) 65536) as [Hfit|]; [|by apply wp_ret, Hno].
  pose proof (layer_offset_range layer) as Hoff. pose proof (align_size_range _ Hoff) as Hao. pose proof (align_size_bounds n) as Han.
  change SIZEOF_STRUCT_PBUF with 16 in *. apply wp_bind, wp_heap_pbuf; [done|lia| |].
  - intros s' Es' Hs'. cbn [Z.eqb NULL]. by apply wp_ret, Hno.
  - intros q h Hq Hnone Hmem. destruct (heap_addr_ok q Hq) as [Hqn Hal]. apply Z.eqb_neq in Hqn as Hqn'. rewrite Hqn'.
    rewrite (u16_id (layer_offset layer)) by lia. change 16 with SIZEOF_STRUCT_PBUF. rewrite align_payload by done.
    unfold pbuf_init_alloced_pbuf, mod_store. wp_go. apply wp_assert; [rewrite <-align_payload by done; by rewrite align_aligned|]. wp_go.
    apply Hyes; try done. apply Hmem; [split; [done|by left]|done|].
    split_and!; [done| | |]; simpl; change SIZEOF_STRUCT_PBUF with 16; lia.
Qed.

Lemma wp_pbuf_alloc layer n type owners (s : pmem PP PR H) (Q : Z → pmem PP PR H → Prop) :
  mem_ok s → refs_ok (store s) owners → 0 ≤ n < 65536 →
  (∀ s', store s' = store s → mem_ok s' → Q NULL s') →
  (∀ r l s', r ≠ NULL → mem_ok s' → refs_ok (store s') (r :: owners) →
    fresh_chain (store s) (store s') r l → packet (store s') l n →
    (type = PBUF_POOL → ∀ x, x ∈ l → ∃ b, store s' !! x = Some b ∧ inside x b) → Q r s') →
  wp (pbuf_alloc custom_free layer n type) Q s.
Proof.
  intros Hs Ho Hn Hno Hyes. unfold pbuf_alloc.
  assert (∀ t, t = PBUF_REF ∨ t = PBUF_ROM → t ≠ PBUF_POOL → (t = PBUF_REF ∨ t = PBUF_ROM → type = t) →
    wp (pbuf_alloc_reference NULL n t) Q s) as Href.
  { intros t Ht Hnp Et. unfold pbuf_alloc_reference. apply wp_bind, wp_assert; [by apply bool_decide_eq_true|].
    apply wp_bind, wp_ref_pbuf; [done| |].
    - intros s' Es' Hs'. cbn [Z.eqb NULL]. by apply wp_ret, Hno.
    - intros q rp Hq Hqn Hnone Hmem. apply Z.eqb_neq in Hqn as Hqn'. rewrite Hqn'.
      unfold pbuf_init_alloced_pbuf, mod_store. wp_go. rewrite (Et Ht) in *.
      apply (Hyes q [q]); cbn [store]; try done.
      + apply Hmem; [|by destruct Ht as [->| ->]]. split; [done|]. right. left. by destruct Ht as [->| ->].
      + by apply refs_ok_new.
      + by apply fresh_chain_one.
      + apply packet_one; [lia|done|done]. }
  destruct type; [|apply Href; naive_solver..|].
  - apply wp_alloc_ram; [done|done|done|]. intros q s' Hq Hnone Hs' Es'.
    apply (Hyes q [q]); rewrite ?Es'; try done; [by apply refs_ok_new|by apply fresh_chain_one|apply packet_one; [lia|done|done]].
  - apply (wp_alloc_pool_loop _ NULL NULL [] n _ n (store s) owners); try done; try lia.
    + by apply refs_ok_null.
    + by destruct layer.
    + intros s' Es' Hs' _. by apply Hno.
    + intros r l s' Hr Hs' Ho' Hnew Hpk. apply (Hyes r l); try done; [by apply new_chain_fresh|].
      intros _ x Hx. destruct (nc_refs _ _ _ _ Hnew x Hx) as (b & Hb & _ & Hin). by exists b.
Qed.
End pbuf_thm.
