(* ===== verification/PbufOps.v ===== *)
(** Joining, splitting and shrinking chains of packet buffers, and moving their
    payload pointers: the functions of [PbufMem] other than allocation and
    deallocation, with the same accounting as in [PbufThm]. *)
From stdpp Require Import base tactics numbers list gmap.
From S2P Require Import Prelude Words Memp PbufMem PbufThm.

(** ** Changing structures in place *)

(** A change of the lengths or of the payload pointer of [p], inside its memory. *)
Definition kept (p : Z) (b b' : pbuf_s) : Prop :=
  b_next b' = b_next b ∧ b_ref b' = b_ref b ∧ b_type b' = b_type b ∧ b_flags b' = b_flags b ∧
  ∀ room, in_block p room b → in_block p room b'.

Definition keeps (f : pbuf_s → pbuf_s) : Prop := ∀ p b, kept p b (f b).

Lemma kept_refl p b : kept p b b.
Proof. by split_and!. Qed.

Lemma kept_trans p b1 b2 b3 : kept p b1 b2 → kept p b2 b3 → kept p b1 b3.
Proof. intros (E1 & E2 & E3 & E4 & E5) (F1 & F2 & F3 & F4 & F5). split_and!; try congruence. intros room Hb. by apply F5, E5. Qed.

Lemma insert_as_alter (σ : bufs) p b f : σ !! p = Some b → <[p := f b]> σ = alter f p σ.
Proof.
  intros Hb. apply map_eq. intros q. destruct (decide (q = p)) as [->|Hne].
  - by rewrite lookup_insert_eq, lookup_alter_eq, Hb.
  - by rewrite lookup_insert_ne, lookup_alter_ne by done.
Qed.

Lemma alter_at (σ : bufs) p b f g : σ !! p = Some b → f b = g b → alter f p σ = alter g p σ.
Proof. intros Hb E. by rewrite <-!(insert_as_alter σ p b) by done; rewrite E. Qed.

Fixpoint alter_all (f : pbuf_s → pbuf_s) (l : list Z) (σ : bufs) : bufs :=
  match l with
  | [] => σ
  | x :: l => alter_all f l (alter f x σ)
  end.

Lemma alter_all_other f l σ x : x ∉ l → alter_all f l σ !! x = σ !! x.
Proof.
  revert σ. induction l as [|y l IH]; intros σ; simpl; [done|]. intros [Hxy Hx]%not_elem_of_cons.
  rewrite IH by done. by apply lookup_alter_ne.
Qed.

Lemma alter_all_in f l σ x b : NoDup l → x ∈ l → σ !! x = Some b → alter_all f l σ !! x = Some (f b).
Proof.
  revert σ. induction l as [|y l IH]; intros σ Hnd; simpl; [by intros ?%elem_of_nil|].
  apply NoDup_cons in Hnd as [Hy Hnd]. intros [->|Hx]%elem_of_cons Hb.
  - rewrite alter_all_other by done. by rewrite lookup_alter_eq, Hb.
  - apply IH; [done|done|]. by rewrite lookup_alter_ne by (intros ->; done).
Qed.

(** The same links: what the accounting depends on. *)
Definition linked_as (σ σ' : bufs) : Prop :=
  ∀ x, match σ !! x, σ' !! x with
       | Some b, Some b' => kept x b b'
       | None, None => True
       | _, _ => False
       end.

Lemma linked_as_refl σ : linked_as σ σ.
Proof. intros x. destruct (σ !! x); [apply kept_refl|done]. Qed.

Lemma linked_as_trans σ1 σ2 σ3 : linked_as σ1 σ2 → linked_as σ2 σ3 → linked_as σ1 σ3.
Proof.
  intros H1 H2 x. specialize (H1 x). specialize (H2 x). destruct (σ1 !! x), (σ2 !! x), (σ3 !! x); try done. by eapply kept_trans.
Qed.

Lemma linked_as_at f x b σ : σ !! x = Some b → kept x b (f b) → linked_as σ (alter f x σ).
Proof.
  intros Hb Hf y. destruct (decide (y = x)) as [->|Hne].
  - by rewrite lookup_alter_eq, Hb.
  - rewrite lookup_alter_ne by done. destruct (σ !! y); [apply kept_refl|done].
Qed.

Lemma linked_as_alter f x σ : keeps f → linked_as σ (alter f x σ).
Proof.
  intros Hf. destruct (σ !! x) as [b|] eqn:Hb; [by eapply linked_as_at|].
  rewrite alter_id; [apply linked_as_refl|]. congruence.
Qed.

Lemma linked_as_all f l σ : keeps f → linked_as σ (alter_all f l σ).
Proof.
  intros Hf. revert σ. induction l as [|x l IH]; intros σ; simpl; [apply linked_as_refl|].
  eapply linked_as_trans; [by apply linked_as_alter|apply IH].
Qed.

Lemma linked_as_fwd σ σ' x b : linked_as σ σ' → σ !! x = Some b →
  ∃ b', σ' !! x = Some b' ∧ b_next b' = b_next b ∧ b_ref b' = b_ref b.
Proof. intros Hl Hb. specialize (Hl x). rewrite Hb in Hl. destruct (σ' !! x) as [b'|]; [|done]. exists b'. by destruct Hl as (? & ? & _). Qed.

Lemma linked_as_bwd σ σ' x b' : linked_as σ σ' → σ' !! x = Some b' →
  ∃ b, σ !! x = Some b ∧ kept x b b'.
Proof. intros Hl Hb. specialize (Hl x). rewrite Hb in Hl. destruct (σ !! x) as [b|]; [|done]. by exists b. Qed.

Lemma chain_linked_as σ σ' p l : linked_as σ σ' → chain σ p l → chain σ' p l.
Proof.
  intros Hs. apply chain_frame. intros x b _ Hb. destruct (linked_as_fwd σ σ' x b Hs Hb) as (b' & Hb' & En & _). by exists b'.
Qed.

Lemma fmap_map_to_list {A} (g : pbuf_s → A) (σ : bufs) :
  (λ kv, (kv.1, g kv.2)) <$> map_to_list σ ≡ₚ map_to_list (g <$> σ).
Proof. by rewrite map_to_list_fmap. Qed.

Lemma linked_as_fmap {A} (g : pbuf_s → A) σ σ' :
  (∀ b b', b_next b' = b_next b → b_type b' = b_type b → g b' = g b) → linked_as σ σ' → g <$> σ' = g <$> σ.
Proof.
  intros Hg Hs. apply map_eq. intros x. rewrite !lookup_fmap. specialize (Hs x).
  destruct (σ !! x), (σ' !! x); try done. simpl. f_equal. apply Hg; apply Hs.
Qed.

Lemma pointers_linked_as σ σ' : linked_as σ σ' → pointers σ' ≡ₚ pointers σ.
Proof.
  intros Hs. unfold pointers.
  assert (∀ τ : bufs, (λ kv, b_next kv.2) <$> map_to_list τ = snd <$> ((λ kv, (kv.1, b_next kv.2)) <$> map_to_list τ)) as E.
  { intros τ. by rewrite <-list_fmap_compose. }
  rewrite !E, !fmap_map_to_list. by rewrite (linked_as_fmap b_next σ σ').
Qed.

Lemma addrs_linked_as src σ σ' : linked_as σ σ' → addrs src σ' ≡ₚ addrs src σ.
Proof.
  intros Hs. unfold addrs.
  assert (∀ τ : bufs, (filter (λ kv, pbuf_get_allocsrc kv.2 = src) (map_to_list τ)).*1 =
    (filter (λ kv, kv.2 = src) ((λ kv, (kv.1, pbuf_get_allocsrc kv.2)) <$> map_to_list τ)).*1) as E.
  { intros τ. induction (map_to_list τ) as [|kv l IH]; [done|]. cbn [fmap list_fmap]. rewrite !filter_cons. cbn [snd].
    destruct (decide (pbuf_get_allocsrc kv.2 = src)); [|done]. cbn [fmap list_fmap]. by f_equal. }
  rewrite !E, !fmap_map_to_list. rewrite (linked_as_fmap pbuf_get_allocsrc σ σ'); [done| |done].
  intros b b' _ Et. unfold pbuf_get_allocsrc. by rewrite Et.
Qed.

Lemma refs_ok_linked_as σ σ' owners : linked_as σ σ' → refs_ok σ owners → refs_ok σ' owners.
Proof.
  intros Hs [H1 H2 H3 H4]. assert (pointers σ' ≡ₚ pointers σ) as E by by apply pointers_linked_as. split.
  - specialize (Hs NULL). rewrite H1 in Hs. by destruct (σ' !! NULL).
  - intros p b' Hb'. destruct (linked_as_bwd σ σ' p b' Hs Hb') as (b & Hb & (_ & Er & _)). rewrite E, Er. by apply H2.
  - intros p. rewrite E. intros Hp Hn. destruct (H3 p Hp Hn) as [b Hb].
    destruct (linked_as_fwd σ σ' p b Hs Hb) as (b' & Hb' & _). by exists b'.
  - intros p b' Hb'. destruct (linked_as_bwd σ σ' p b' Hs Hb') as (b & Hb & _). destruct (H4 p b Hb) as [l Hl].
    exists l. by eapply chain_linked_as.
Qed.

Section pbuf_ops.
Context {PP PR H : Type} `{PoolLaws PP, PoolLaws PR, HeapLaws H}.
Context (custom_free : Z → M (pmem PP PR H) unit).
Context (EP ER : list Z) `{!Layout (PP := PP) (PR := PR) (H := H) EP ER}.

Lemma mem_ok_linked_as (s : pmem PP PR H) σ' :
  linked_as (store s) σ' → mem_ok EP ER s → mem_ok EP ER (PMem σ' (pool_pool s) (ref_pool s) (heap s)).
Proof.
  intros Hs [(fp & Hp & Ep) (fr & Hr & Er) [Hh Hha] Hpl Hdt]. split; simpl.
  - exists fp. by rewrite (addrs_linked_as 2 (store s) σ').
  - exists fr. by rewrite (addrs_linked_as 1 (store s) σ').
  - split; [eapply heap_holds_perm; [|exact Hh]; symmetry; by apply addrs_linked_as|].
    intros x. rewrite (addrs_linked_as 0 (store s) σ') by done. apply Hha.
  - intros p b' Hb'. destruct (linked_as_bwd _ _ _ _ Hs Hb') as (b & Hb & (_ & _ & Et & Ef & _)).
    unfold plain, pbuf_get_allocsrc. rewrite Et, Ef. by apply (Hpl p).
  - intros p b' Hb'. destruct (linked_as_bwd _ _ _ _ Hs Hb') as (b & Hb & (_ & _ & Et & _ & Hin)).
    unfold room_of, pbuf_get_allocsrc. rewrite Et. intros Hsrc. by apply Hin, (Hdt p).
Qed.

Definition with_store (s : pmem PP PR H) (σ : bufs) : pmem PP PR H := PMem σ (pool_pool s) (ref_pool s) (heap s).

Lemma wp_wr_alter p f b (s : pmem PP PR H) (Q : unit → pmem PP PR H → Prop) :
  store s !! p = Some b → Q tt (with_store s (alter f p (store s))) → wp (wr p f) Q s.
Proof. intros Hb HQ. apply (wp_wr p f b); [done|]. by rewrite (insert_as_alter _ _ _ f Hb). Qed.

(** ** References *)

Lemma wp_pbuf_ref p b (s : pmem PP PR H) (Q : unit → pmem PP PR H → Prop) :
  store s !! p = Some b → p ≠ NULL → 0 ≤ b_ref b < 255 →
  Q tt (with_store s (<[p := set_ref (b_ref b + 1) b]> (store s))) → wp (pbuf_ref p) Q s.
Proof.
  intros Hb Hp Hr HQ. unfold pbuf_ref. rewrite (proj2 (Z.eqb_neq p NULL)) by done.
  apply wp_bind, (wp_wr p _ b); [done|]. rewrite u8_id by lia.
  apply wp_bind, (wp_rd p (set_ref (b_ref b + 1) b)); [apply lookup_insert_eq|].
  apply wp_assert; [apply Z.ltb_lt; simpl; lia|]. exact HQ.
Qed.

(** ** Joining *)

Lemma add_tot_keeps k : keeps (add_tot k).
Proof. by intros p b. Qed.

Lemma wp_to_last l1 x n t tb p (s : pmem PP PR H) (Q : Z → pmem PP PR H → Prop) :
  chain (store s) p (l1 ++ [x]) → NoDup (l1 ++ [x]) → NULL ∉ l1 ++ [x] → store s !! t = Some tb → t ∉ l1 ++ [x] →
  (length l1 < n)%nat → Q x (with_store s (alter_all (add_tot (b_tot_len tb)) l1 (store s))) →
  wp (to_last n t p) Q s.
Proof.
  revert n p s. induction l1 as [|y l1 IH]; intros n p s Hl Hnd Hnull Ht Htl Hn HQ; (destruct n as [|n]; [lia|]).
  - destruct Hl as (-> & b & Hb & En). cbn [to_last]. apply wp_bind, (wp_rd x b); [done|].
    rewrite En. apply wp_ret. by destruct s.
  - destruct Hl as (-> & b & Hb & Hl). cbn [to_last]. apply wp_bind, (wp_rd y b); [done|].
    apply NoDup_cons in Hnd as [Hy Hnd]. apply not_elem_of_cons in Hnull as [_ Hnull]. apply not_elem_of_cons in Htl as [Hty Htl].
    assert (b_next b ≠ NULL) as Hn0.
    { destruct l1 as [|z l1]; destruct Hl as [-> _]; intros E; apply Hnull; rewrite E; by left. }
    rewrite (proj2 (Z.eqb_neq _ _) Hn0). apply wp_bind, (wp_rd t tb); [done|].
    apply wp_bind, (wp_wr_alter y _ b); [done|]. apply (IH n); try done.
    + eapply chain_linked_as; [|exact Hl]. apply linked_as_alter, add_tot_keeps.
    + simpl. by rewrite lookup_alter_ne.
    + simpl in Hn. lia.
Qed.

(** What is asked of the chains [l1 ++ [x]] of [h] and [lt] of [t]: they have
    nothing in common, and [x] is the end of a packet. *)
Record joinable (σ : bufs) (h t : Z) (l1 : list Z) (x : Z) (lt : list Z) (b tb : pbuf_s) : Prop := Joinable {
  jn_null : σ !! NULL = None;
  jn_head : chain σ h (l1 ++ [x]);
  jn_tail : chain σ t lt;
  jn_disj y : y ∈ l1 ++ [x] → y ∉ lt;
  jn_last : σ !! x = Some b;
  jn_end : b_tot_len b = b_len b;
  jn_first : σ !! t = Some tb
}.

Definition joined (σ : bufs) (t : Z) (l1 : list Z) (x : Z) (b tb : pbuf_s) : bufs :=
  <[x := set_next t (add_tot (b_tot_len tb) b)]> (alter_all (add_tot (b_tot_len tb)) l1 σ).

Section joinable.
Context {σ : bufs} {h t : Z} {l1 : list Z} {x : Z} {lt : list Z} {b tb : pbuf_s} (Hj : joinable σ h t l1 x lt b tb).

Lemma joinable_facts :
  NoDup (l1 ++ [x]) ∧ NULL ∉ l1 ++ [x] ∧ x ∉ l1 ∧ t ∈ lt ∧ t ∉ l1 ++ [x] ∧ x ≠ t ∧ x ∉ lt ∧ h ≠ NULL ∧ t ≠ NULL ∧ h ≠ t ∧ b_next b = NULL.
Proof.
  destruct Hj as [Hnull Hl Ht Hdisj Hb Hlen Htb].
  assert (NoDup (l1 ++ [x])) as Hnd by by eapply chain_nodup.
  assert (NULL ∉ l1 ++ [x]) as Hn. { intros Hin. apply (chain_alloc _ _ _ _ Hl) in Hin as [c Hc]. congruence. }
  assert (h ∈ l1 ++ [x]) as Hh by (destruct l1; destruct Hl as [-> _]; by left).
  assert (t ≠ NULL) as Htn by congruence.
  assert (t ∈ lt) as Htl by (destruct lt; [done|]; destruct Ht as [-> _]; by left).
  assert (t ∉ l1 ++ [x]) as Hth by (intros Hin; by apply (Hdisj t)).
  assert (x ∈ l1 ++ [x]) as Hx by (apply elem_of_app; right; by left).
  split_and!; try done; try (intros ->; done).
  - apply NoDup_app in Hnd as (_ & Hd & _). intros Hin. apply (Hd x Hin). by left.
  - by apply Hdisj.
  - apply chain_split in Hl as (_ & c & Hc & E). rewrite Hb in Hc. by injection Hc as <-.
Qed.

Lemma joined_chain : chain (joined σ t l1 x b tb) h (l1 ++ x :: lt).
Proof.
  destruct joinable_facts as (Hnd & _ & Hxl & _ & Hth & _ & Hxt & _). destruct Hj as [Hnull Hl Ht Hdisj Hb Hlen Htb].
  assert (linked_as σ (alter_all (add_tot (b_tot_len tb)) l1 σ)) as Hlk by apply linked_as_all, add_tot_keeps.
  unfold joined. eapply (chain_link (alter_all (add_tot (b_tot_len tb)) l1 σ)); [by eapply chain_linked_as|done| |apply lookup_insert_eq|done|].
  - intros y c Hy Hc. rewrite lookup_insert_ne by (intros ->; done). by exists c.
  - eapply chain_frame; [|by eapply chain_linked_as]. intros y c Hy Hc. rewrite lookup_insert_ne by (intros ->; done). by exists c.
Qed.

(** The reference of an owner of [t] is now that of [x]. *)
Lemma joined_refs owners tb' :
  refs_ok (<[t := tb']> σ) (t :: owners) → b_next tb' = b_next tb → refs_ok (<[t := tb']> (joined σ t l1 x b tb)) owners.
Proof.
  destruct joinable_facts as (Hnd & _ & Hxl & Htl & Hth & Hxt & Hxlt & _ & _ & _ & En). destruct Hj as [Hnull Hl Ht Hdisj Hb Hlen Htb].
  intros Ho Et. assert (linked_as (<[t := tb']> σ) (alter_all (add_tot (b_tot_len tb)) l1 (<[t := tb']> σ))) as Hlk
    by apply linked_as_all, add_tot_keeps.
  assert (t ∉ l1) as Htl1 by (intros Hin; apply Hth, elem_of_app; by left).
  assert (alter_all (add_tot (b_tot_len tb)) l1 (<[t := tb']> σ) = <[t := tb']> (alter_all (add_tot (b_tot_len tb)) l1 σ)) as Ea.
  { clear -Htl1. revert σ. induction l1 as [|y l IH]; intros σ; simpl; [done|]. apply not_elem_of_cons in Htl1 as [Hty Htl].
    rewrite <-IH by done. f_equal. apply map_eq. intros z. destruct (decide (z = y)) as [->|].
    - rewrite lookup_alter_eq, !lookup_insert_ne by done. by rewrite lookup_alter_eq.
    - rewrite lookup_alter_ne by done. destruct (decide (z = t)) as [->|]; [by rewrite !lookup_insert_eq|].
      rewrite !lookup_insert_ne by done. by rewrite lookup_alter_ne. }
  rewrite Ea in Hlk. unfold joined. rewrite insert_insert_ne by done.
  set (σ1 := alter_all (add_tot (b_tot_len tb)) l1 σ) in *.
  apply (refs_ok_linked_as _ _ _ Hlk) in Ho.
  assert (linked_as σ σ1) as Hlk1 by apply linked_as_all, add_tot_keeps.
  eapply (refs_ok_link _ _ x b _ t lt); try done.
  - rewrite lookup_insert_ne by done. unfold σ1. by rewrite alter_all_other.
  - eapply (chain_same_next σ1 t tb); [|done|by eapply chain_linked_as]. unfold σ1. by rewrite alter_all_other.
Qed.

Lemma wp_pbuf_cat (s : pmem PP PR H) (Q : unit → pmem PP PR H → Prop) :
  store s = σ → Q tt (with_store s (joined σ t l1 x b tb)) → wp (pbuf_cat h t) Q s.
Proof.
  destruct joinable_facts as (Hnd & Hn & Hxl & Htl & Hth & Hxt & Hxlt & Hhn & Htn & Hht & En).
  intros <- HQ. destruct Hj as [Hnull Hl Ht Hdisj Hb Hlen Htb]. unfold pbuf_cat.
  rewrite (proj2 (Z.eqb_neq h NULL)), (proj2 (Z.eqb_neq t NULL)) by done. cbn [orb].
  apply wp_bind, wp_assert; [by apply negb_true_iff, Z.eqb_neq|]. apply wp_bind, wp_gets, wp_bind.
  apply (wp_to_last l1 x _ t tb); try done.
  { apply chain_size in Hl; [|done]. rewrite length_app in Hl. simpl in Hl. lia. }
  apply wp_bind, (wp_rd x b); [simpl; by rewrite alter_all_other|]. apply wp_bind, wp_assert; [by apply Z.eqb_eq|].
  apply wp_bind, (wp_rd t tb); [|apply (wp_wr x _ b); [simpl; by rewrite alter_all_other|done]].
  simpl. rewrite alter_all_other; [done|]. intros Hin. apply Hth, elem_of_app. by left.
Qed.

Lemma joined_mem (s : pmem PP PR H) : store s = σ → mem_ok EP ER s → mem_ok EP ER (with_store s (joined σ t l1 x b tb)).
Proof.
  destruct joinable_facts as (_ & _ & Hxl & _). intros <- Hs. unfold joined.
  apply (mem_ok_same EP ER (with_store s _) x b); [apply mem_ok_linked_as; [apply linked_as_all, add_tot_keeps|done]| |done|done|done].
  simpl. rewrite alter_all_other by done. by destruct Hj.
Qed.

Lemma joined_first : joined σ t l1 x b tb !! t = Some tb.
Proof.
  destruct joinable_facts as (_ & _ & _ & _ & Hth & Hxt & _). unfold joined. rewrite lookup_insert_ne by done.
  rewrite alter_all_other; [by destruct Hj|]. intros Hin. apply Hth, elem_of_app. by left.
Qed.
End joinable.

Lemma wp_pbuf_cat_owned h t l1 x lt b tb owners (s : pmem PP PR H) (Q : unit → pmem PP PR H → Prop) :
  refs_ok (store s) (t :: owners) → mem_ok EP ER s → joinable (store s) h t l1 x lt b tb →
  (refs_ok (joined (store s) t l1 x b tb) owners → mem_ok EP ER (with_store s (joined (store s) t l1 x b tb)) →
    Q tt (with_store s (joined (store s) t l1 x b tb))) →
  wp (pbuf_cat h t) Q s.
Proof.
  intros Ho Hs Hj HQ. apply (wp_pbuf_cat Hj); [done|]. apply HQ; [|by apply (joined_mem Hj)].
  rewrite <-(insert_id _ t tb (joined_first Hj)). apply (joined_refs Hj); [|done].
  rewrite insert_id; [done|apply Hj].
Qed.

Lemma wp_pbuf_chain h t l1 x lt b tb owners (s : pmem PP PR H) (Q : unit → pmem PP PR H → Prop) :
  refs_ok (store s) owners → mem_ok EP ER s → joinable (store s) h t l1 x lt b tb → b_ref tb < 255 →
  (let σ' := <[t := set_ref (b_ref tb + 1) tb]> (joined (store s) t l1 x b tb) in
   refs_ok σ' owners → mem_ok EP ER (with_store s σ') → Q tt (with_store s σ')) →
  wp (pbuf_chain h t) Q s.
Proof.
  intros Ho Hs Hj Hr HQ. pose proof (jn_first _ _ _ _ _ _ _ _ Hj) as Htb. destruct (ro_count _ _ Ho t tb Htb) as [_ Hpos].
  apply wp_bind, (wp_pbuf_cat Hj); [done|].
  apply (wp_pbuf_ref t tb); [apply (joined_first Hj)|apply (joinable_facts Hj)|lia|].
  apply HQ.
  - apply (joined_refs Hj); [|done]. apply refs_ok_ref; [done|done|lia].
  - apply (mem_ok_same EP ER (with_store s (joined (store s) t l1 x b tb)) t tb); [by apply (joined_mem Hj)|apply (joined_first Hj)|done|done|done].
Qed.

(** ** Splitting *)

(** [pbuf_dechain]: [p] stands alone, and its reference to the rest is released. *)
Lemma wp_pbuf_dechain p b lq owners (s : pmem PP PR H) (Q : Z → pmem PP PR H → Prop) :
  refs_ok (store s) owners → mem_ok EP ER s → p ∈ owners → store s !! p = Some b → chain (store s) (b_next b) lq →
  Z.of_nat (length lq) < 256 →
  match store s !! b_next b with Some qb => b_tot_len qb = b_tot_len b - b_len b ∧ b_tot_len b < 65536 | None => b_tot_len b = b_len b end →
  (∀ r s', refs_ok (store s') owners → mem_ok EP ER s' →
    (∃ b', store s' !! p = Some b' ∧ b_next b' = NULL ∧ b_tot_len b' = b_len b ∧ b_len b' = b_len b ∧ b_payload b' = b_payload b) →
    (r = NULL ∨ r = b_next b ∧ is_Some (store s' !! r)) → Q r s') →
  wp (pbuf_dechain custom_free p) Q s.
Proof.
  intros Ho Hs Hp Hb Hlq Hsmall Hlen HQ. unfold pbuf_dechain. apply wp_bind, (wp_rd p b); [done|].
  assert (chain (store s) p (p :: lq)) as Hl by (split; [done|by exists b]).
  destruct (refs_ok_counted _ _ _ _ Ho Hl) as ([Hplq Hndq]%NoDup_cons & [_ Hnullq]%not_elem_of_cons & _).
  apply wp_bind. destruct (refs_ok_next _ _ _ _ Ho Hb) as [En|[qb Hq]].
  - rewrite En in Hlen |- *. rewrite (ro_null _ _ Ho) in Hlen. cbn [Z.eqb NULL negb]. apply wp_ret.
    apply wp_bind, (wp_rd p b); [done|]. apply wp_bind, wp_assert; [by apply Z.eqb_eq|]. apply wp_ret.
    apply HQ; [done|done| |by left]. exists b. by split_and!.
  - assert (b_next b ≠ NULL) as Hn by (intros E; rewrite E in Hq; by rewrite (ro_null _ _ Ho) in Hq).
    assert (b_next b ∈ lq) as Hqin by (destruct lq; [done|]; destruct Hlq as [-> _]; by left).
    assert (b_next b ≠ p) as Hqp by (intros E; rewrite E in Hqin; done).
    rewrite Hq in Hlen. destruct Hlen as [Elen Htot]. rewrite (proj2 (Z.eqb_neq _ NULL)) by done. cbn [negb].
    apply wp_bind, (wp_rd _ qb); [done|]. apply wp_bind, wp_assert; [by apply Z.eqb_eq|].
    apply wp_bind, (wp_wr_alter _ _ qb); [done|]. set (f := set_lens _ _).
    assert (linked_as (store s) (alter f (b_next b) (store s))) as Hlk by by eapply linked_as_at.
    set (s1 := with_store s (alter f (b_next b) (store s))).
    assert (store s1 !! p = Some b) as Hb1 by (simpl; by rewrite lookup_alter_ne).
    apply wp_bind, (wp_wr p _ b); [done|]. set (b1 := set_next NULL (set_lens (b_len b) (b_len b) b)).
    assert (refs_ok (<[p := b1]> (store s1)) (b_next b :: owners)) as Ho1.
    { apply refs_ok_cut; [by eapply refs_ok_linked_as|done|done|done]. }
    assert (mem_ok EP ER (with_store s1 (<[p := b1]> (store s1)))) as Hs1.
    { apply (mem_ok_same EP ER s1 p b); [by apply mem_ok_linked_as|done|done|done|done]. }
    assert (chain (<[p := b1]> (store s1)) (b_next b) lq) as Hlq1.
    { eapply chain_frame; [|by eapply chain_linked_as]. intros y c Hy Hc. exists c. by rewrite lookup_insert_ne by (intros ->; done). }
    apply (wp_pbuf_free custom_free EP ER (b_next b) lq owners (with_store s1 (<[p := b1]> (store s1)))); try done.
    intros s2 Ho2 Hs2 Es2. change (store (with_store s1 (<[p := b1]> (store s1)))) with (<[p := b1]> (store s1)) in Es2.
    assert (store s2 !! p = Some b1) as Hb2.
    { rewrite Es2, release_other by done. apply lookup_insert_eq. }
    apply wp_bind, (wp_rd p b1); [done|]. apply wp_bind, wp_assert; [by apply Z.eqb_eq|]. apply wp_ret.
    apply HQ; [done|done|by exists b1|].
    change (store (with_store s1 (<[p := b1]> (store s1)))) with (<[p := b1]> (store s1)).
    pose proof (release_count lq (<[p := b1]> (store s1))) as Hk. rewrite u8_id by lia.
    destruct (Z.ltb_spec 0 (release lq (<[p := b1]> (store s1))).2) as [|Hzero]; [by left|right]. split; [done|].
    rewrite Es2. destruct lq as [|y lq]; [done|]. destruct Hlq1 as (<- & c & Hc & _). cbn [release] in Hzero |- *.
    rewrite Hc in Hzero |- *. destruct (b_ref c =? 1).
    + pose proof (release_count lq (delete (b_next b) (<[p := b1]> (store s1)))) as Hk'.
      destruct (release lq _). simpl in Hzero, Hk'. lia.
    + cbn [fst]. rewrite lookup_insert_eq. by eexists.
Qed.

(** ** Shrinking *)

Lemma chain_cut σ p l1 x l2 c : chain σ p (l1 ++ x :: l2) → x ∉ l1 → b_next c = NULL → chain (<[x := c]> σ) p (l1 ++ [x]).
Proof.
  intros Hl Hx En. revert p Hl. induction l1 as [|y l1 IH]; intros p; simpl.
  - intros (-> & _). split; [done|]. exists c. by rewrite lookup_insert_eq.
  - apply not_elem_of_cons in Hx as [Hxy Hx]. intros (-> & d & Hd & Hl). split; [done|]. exists d.
    rewrite lookup_insert_ne by done. split; [done|]. by apply IH.
Qed.

Definition sub_tot (k : Z) (b : pbuf_s) : pbuf_s := set_lens (u16 (b_tot_len b - k)) (b_len b) b.

Lemma sub_tot_keeps k : keeps (sub_tot k).
Proof. by intros p b. Qed.

Lemma lens_alter f x σ l tot rem : x ∉ l → lens σ l tot rem → lens (alter f x σ) l tot rem.
Proof.
  intros Hx. apply lens_frame. intros y b Hy Hb. exists b. by rewrite lookup_alter_ne by (intros ->; done).
Qed.

(** The loop stops at the pbuf [x] in which the new length ends. *)
Lemma wp_shrink_loop l n q rem tot (s : pmem PP PR H) (Q : Z * Z → pmem PP PR H → Prop) :
  chain (store s) q l → packet (store s) l tot → 0 ≤ rem < tot → tot < 65536 → NoDup l → NULL ∉ l → (length l ≤ n)%nat →
  (∀ l1 x l2 b rem', l = l1 ++ x :: l2 → store s !! x = Some b → 0 ≤ rem' ≤ b_len b →
    lens (alter_all (sub_tot (tot - rem)) l1 (store s)) l1 rem rem' →
    Q (x, rem') (with_store s (alter_all (sub_tot (tot - rem)) l1 (store s)))) →
  wp (shrink_loop n (tot - rem) q rem) Q s.
Proof.
  revert n q rem tot s. induction l as [|x l IH]; intros n q rem tot s Hl Hpk Hrem Htot Hnd Hnull Hn HQ.
  { unfold packet in Hpk. simpl in Hpk. lia. }
  destruct n as [|n]; [simpl in Hn; lia|]. destruct Hl as (-> & b & Hb & Hl).
  destruct Hpk as (b' & Hb' & Et & Hlen & Hpk). rewrite Hb in Hb'. injection Hb' as <-.
  apply NoDup_cons in Hnd as [Hx Hnd]. apply not_elem_of_cons in Hnull as [Hxn Hnull].
  cbn [shrink_loop]. apply wp_bind, (wp_rd x b); [done|]. destruct (Z.ltb_spec (b_len b) rem) as [Hlt|Hge].
  - apply wp_bind, (wp_wr_alter x _ b); [done|].
    change (λ b0, set_lens (u16 (b_tot_len b0 - (tot - rem))) (b_len b0) b0) with (sub_tot (tot - rem)).
    assert (b_next b ≠ NULL) as Hn0.
    { intros E. rewrite E in Hl. destruct l as [|y l]; [simpl in Hpk; lia|]. destruct Hl as [<- _]. apply Hnull. by left. }
    apply wp_bind, wp_assert; [by apply negb_true_iff, Z.eqb_neq|]. rewrite u16_id by lia.
    replace (tot - rem) with (tot - b_len b - (rem - b_len b)) by lia.
    apply (IH n (b_next b)); try done; try lia.
    + eapply chain_linked_as; [|exact Hl]. apply linked_as_alter, sub_tot_keeps.
    + by apply lens_alter.
    + simpl in Hn. lia.
    + intros l1 y l2 c rem' -> Hc Hr Hlens. assert (x ≠ y) by (intros ->; apply Hx, elem_of_app; right; by left).
      simpl in Hc, Hlens. rewrite lookup_alter_ne in Hc by done.
      replace (tot - b_len b - (rem - b_len b)) with (tot - rem) in * by lia.
      apply (HQ (x :: l1) y l2 c rem'); try done. cbn [alter_all lens].
      exists (sub_tot (tot - rem) b). rewrite alter_all_other by (intros Hin; apply Hx, elem_of_app; by left).
      rewrite lookup_alter_eq, Hb. split_and!; try done; simpl; [|lia|lia].
      rewrite Et, u16_id by lia. lia.
  - apply wp_ret. destruct s. apply (HQ [] x l b rem); (done || lia).
Qed.

(** The block of a pbuf of the heap is cut to the [rem] bytes of data it keeps. *)
Lemma wp_trim_block x b rem (s : pmem PP PR H) (Q : unit → pmem PP PR H → Prop) :
  mem_ok EP ER s → store s !! x = Some b → 0 ≤ rem ≤ b_len b → (pbuf_get_allocsrc b = 0 → heap_trims (heap s) x) →
  (∀ s', store s' = store s → mem_ok EP ER (with_store s' (<[x := set_lens rem rem b]> (store s))) → Q tt s') →
  wp (when_
    (pbuf_match_allocsrc b PBUF_TYPE_ALLOC_SRC_MASK_STD_HEAP && negb (rem =? b_len b) && (Z.land (b_flags b) PBUF_FLAG_IS_CUSTOM =? 0))
    (r ← with_heap (mem_trim x (u16 (b_payload b - x + rem)));
     assert_that (negb (r =? NULL));; assert_that (r =? x))) Q s.
Proof.
  intros Hs Hb Hrem Htrim HQ. apply wp_when.
  - intros [[Hsrc%Z.eqb_eq _]%andb_true_iff _]%andb_true_iff.
    pose proof Hs as [Hp Hr [Hh Hha] Hpl Hdt]. destruct (Hdt x b Hb) as (Hc & Hlow & Hlen & Hup); [by rewrite Hsrc|].
    unfold room_of in Hup. rewrite decide_True in Hup by done. change SIZEOF_STRUCT_PBUF with 16 in Hlow.
    assert (x ∈ addrs 0 (store s)) as Hin by (apply elem_addrs; by exists b).
    pose proof (heap_room_small _ _ _ Hh Hin) as Hroom. destruct (heap_addr_ok x (Hha x Hin)) as [Hxn _].
    rewrite u16_id by lia. pose proof (addrs_delete 0 _ _ _ Hb) as Ed. unfold place in Ed. rewrite decide_True in Ed by done.
    apply wp_bind, wp_zoom. eapply wp_mono; [apply (wp_mem_trim _ (addrs 0 (delete x (store s)))); [by eapply heap_holds_perm|by apply Htrim|lia]|].
    intros r h (-> & Hbig & Hh' & Hrooms).
    apply wp_bind, wp_assert; [by apply negb_true_iff, Z.eqb_neq|]. apply wp_assert; [by apply Z.eqb_eq|].
    apply HQ; [done|]. split; simpl.
    + destruct Hp as (fp & Hp & Ep). exists fp. by rewrite (addrs_same _ _ x b).
    + destruct Hr as (fr & Hr & Er). exists fr. by rewrite (addrs_same _ _ x b).
    + split; [|intros y; rewrite (addrs_same _ _ x b) by done; apply Hha].
      eapply heap_holds_perm; [|exact Hh']. symmetry. by rewrite (addrs_same _ _ x b).
    + intros y c [[<- <-]|[_ Hy]]%lookup_insert_Some; [by apply (Hpl x b)|by apply (Hpl y)].
    + intros y c [[<- <-]|[Hxy Hy]]%lookup_insert_Some Hs1.
      * unfold room_of. rewrite decide_True by done. split_and!; simpl; change SIZEOF_STRUCT_PBUF with 16; (done || lia).
      * pose proof (Hdt y c Hy Hs1) as Hold. unfold room_of in *. case_decide; [|done].
        rewrite Hrooms; [done|]. apply elem_addrs. exists c. by rewrite lookup_delete_ne.
  - intros _. apply HQ; [done|]. apply (mem_ok_same EP ER s x b); [done|done|done|done|].
    intros room (Hc & Hlow & Hlen & Hup). split_and!; simpl; (done || lia).
Qed.

(** [pbuf_realloc]: the packet is its first [new_len] bytes, in the pbufs up to
    [x]; the reference to the rest is released. *)
Lemma wp_pbuf_realloc p l tot new_len owners (s : pmem PP PR H) (Q : unit → pmem PP PR H → Prop) :
  refs_ok (store s) owners → mem_ok EP ER s → p ≠ NULL → chain (store s) p l → packet (store s) l tot →
  0 ≤ new_len < tot → tot < 65536 →
  (∀ x b, x ∈ l → store s !! x = Some b → pbuf_get_allocsrc b = 0 → heap_trims (heap s) x) →
  (∀ s' l1 x l2, refs_ok (store s') owners → mem_ok EP ER s' → l = l1 ++ x :: l2 →
    chain (store s') p (l1 ++ [x]) → packet (store s') (l1 ++ [x]) new_len →
    (∀ y b, y ∈ l1 ++ [x] → store s !! y = Some b → ∃ b', store s' !! y = Some b' ∧ b_payload b' = b_payload b ∧ b_len b' ≤ b_len b) →
    Q tt s') →
  wp (pbuf_realloc custom_free p new_len) Q s.
Proof.
  intros Ho Hs Hp Hl Hpk Hnew Htot Htrim HQ. destruct (refs_ok_counted _ _ _ _ Ho Hl) as (Hnd & Hnull & Hcnt).
  unfold pbuf_realloc. apply wp_bind, wp_assert; [by apply negb_true_iff, Z.eqb_neq|].
  assert (∃ pb, store s !! p = Some pb ∧ b_tot_len pb = tot) as (pb & Hpb & Et).
  { destruct l as [|x l]; [done|]. destruct Hl as (-> & _), Hpk as (b & Hb & Et & _). by exists b. }
  apply wp_bind, (wp_rd p pb); [done|]. rewrite Et. rewrite (proj2 (Z.leb_gt tot new_len)) by lia.
  apply wp_bind, wp_gets, wp_bind. rewrite u16_id by lia.
  apply (wp_shrink_loop l _ p new_len tot); try done.
  { apply chain_size in Hl; [lia|apply (ro_null _ _ Ho)]. }
  intros l1 x l2 b rem El Hb Hrem Hlens. set (σ1 := alter_all _ _ _) in *. set (s1 := with_store s σ1).
  assert (linked_as (store s) σ1) as Hlk by apply linked_as_all, sub_tot_keeps.
  assert (x ∉ l1 ∧ x ∉ l2 ∧ NoDup (l1 ++ [x])) as (Hx1 & Hx2 & Hnd1).
  { rewrite El in Hnd. apply NoDup_app in Hnd as (Hn1 & Hd & [Hx Hn2]%NoDup_cons). split_and!; [|done|].
    - intros Hin. apply (Hd x Hin). by left.
    - apply NoDup_app. split_and!; [done| |apply NoDup_singleton]. intros y Hy ->%list_elem_of_singleton.
      apply (Hd x Hy). by left. }
  assert (store s1 !! x = Some b) as Hb1 by (simpl; unfold σ1; by rewrite alter_all_other).
  assert (refs_ok (store s1) owners) as Ho1 by by eapply refs_ok_linked_as.
  assert (mem_ok EP ER s1) as Hs1 by by apply mem_ok_linked_as.
  assert (chain (store s1) p (l1 ++ x :: l2)) as Hl1 by (rewrite <-El; by eapply chain_linked_as).
  assert (chain (store s1) (b_next b) l2) as Hl2.
  { apply chain_split in Hl1 as (_ & b' & Hb' & Hl2). rewrite Hb1 in Hb'. by injection Hb' as <-. }
  apply wp_bind, (wp_rd x b); [done|].
  apply wp_bind, wp_trim_block; [done|done|done| |].
  { intros Hsrc. apply (Htrim x b); [|done|done]. rewrite El. apply elem_of_app. right. by left. } intros s2 E2 Hs3. apply wp_bind, (wp_wr x _ b); [by rewrite E2|].
  set (bx := set_lens rem rem b) in *. rewrite <-E2 in Hs3. set (s3 := PMem _ _ _ _). fold s3 in Hs3.
  assert (store s3 = <[x := bx]> (store s1)) as E3 by (simpl; by rewrite E2).
  assert (refs_ok (<[x := set_next NULL bx]> (store s1)) (b_next b :: owners)) as Hcut by by apply refs_ok_cut.
  assert (∀ σ, (∀ y, y ∉ l2 → σ !! y = store s1 !! y) →
    let σ' := <[x := set_next NULL bx]> σ in
    chain σ' p (l1 ++ [x]) ∧ packet σ' (l1 ++ [x]) new_len ∧
    ∀ y c, y ∈ l1 ++ [x] → store s !! y = Some c → ∃ c', σ' !! y = Some c' ∧ b_payload c' = b_payload c ∧ b_len c' ≤ b_len c) as Hres.
  { intros σ Hσ σ'. assert (∀ y, y ∈ l1 → σ' !! y = store s1 !! y) as Hl1'.
    { intros y Hy. unfold σ'. rewrite lookup_insert_ne by (intros ->; done). apply Hσ. intros Hy2.
      rewrite El in Hnd. apply NoDup_app in Hnd as (_ & Hd & _). apply (Hd y Hy). by right. }
    split_and!.
    - eapply (chain_link (<[x := set_next NULL bx]> (store s1)) _ p l1 x); [|done| |apply lookup_insert_eq|done|done].
      + by eapply chain_cut.
      + intros y c Hy. rewrite lookup_insert_ne by (intros ->; done). rewrite Hl1' by done. intros Hc. by exists c.
    - unfold packet. replace 0 with (rem - b_len (set_next NULL bx)) by (simpl; lia).
      apply (lens_snoc _ _ x (set_next NULL bx)); [|apply lookup_insert_eq|done|simpl; lia].
      eapply lens_frame; [|exact Hlens]. intros y c Hy Hc. exists c. by rewrite Hl1'.
    - intros y c [Hy|Hy]%elem_of_app Hc.
      + rewrite Hl1' by done. simpl. unfold σ1. apply NoDup_app in Hnd1 as (Hn1 & _).
        rewrite (alter_all_in _ _ _ y c) by done. eexists. split; [done|]. simpl. split; [done|lia].
      + apply list_elem_of_singleton in Hy as ->. rewrite Hb in Hc. injection Hc as <-.
        exists (set_next NULL bx). unfold σ'. rewrite lookup_insert_eq. split; [done|]. simpl. split; [done|lia]. }
  destruct (decide (b_next b = NULL)) as [En|Hn].
  - rewrite En. cbn [Z.eqb NULL negb]. apply wp_bind, wp_ret.
    apply (wp_wr x _ bx); [rewrite E3; apply lookup_insert_eq|].
    assert (mem_ok EP ER (with_store s3 (<[x := set_next NULL bx]> (store s3)))) as Hs5.
    { apply (mem_ok_same EP ER s3 x bx); [done|rewrite E3; apply lookup_insert_eq|done|done|done]. }
    rewrite E3, insert_insert_eq in Hs5 |- *. rewrite En in Hcut. apply (proj1 (refs_ok_null _ _)) in Hcut.
    destruct (Hres (store s1)) as (C1 & C2 & C3); [done|].
    by apply (HQ _ l1 x l2).
  - rewrite (proj2 (Z.eqb_neq _ NULL)) by done. apply wp_bind. cbn [negb when_]. apply wp_bind.
    assert (chain (<[x := bx]> (store s1)) (b_next b) l2) as Hl3.
    { eapply chain_frame; [|exact Hl2]. intros y c Hy Hc. exists c. by rewrite lookup_insert_ne by (intros ->; done). }
    apply (wp_pbuf_free_raw custom_free EP ER (b_next b) l2); try done.
    + rewrite E3, lookup_insert_ne; [apply (ro_null _ _ Ho1)|]. intros ->. by rewrite (ro_null _ _ Ho1) in Hb1.
    + by rewrite E3.
    + rewrite E3. intros y Hy. destruct (refs_ok_counted _ _ _ _ Ho1 Hl2) as (_ & _ & Hc). destruct (Hc y Hy) as (c & Hc' & ?).
      exists c. by rewrite lookup_insert_ne by (intros ->; done).
    + intros s4 Hs4 E4. rewrite E3, release_insert in E4 by done. cbn [fst] in E4. apply wp_ret.
      apply (wp_wr x _ bx); [rewrite E4; apply lookup_insert_eq|].
      assert (mem_ok EP ER (with_store s4 (<[x := set_next NULL bx]> (store s4)))) as Hs5.
      { apply (mem_ok_same EP ER s4 x bx); [done|rewrite E4; apply lookup_insert_eq|done|done|done]. }
      destruct (Hres (release l2 (store s1)).1) as (C1 & C2 & C3); [intros y Hy; by apply release_other|].
      rewrite E4, insert_insert_eq in Hs5 |- *. apply (HQ _ l1 x l2); try done.
      pose proof (refs_ok_release _ _ l2 _ Hcut) as Hr. rewrite release_insert in Hr by done. cbn [fst] in Hr. apply Hr.
        eapply chain_frame; [|exact Hl2]. intros y c Hy Hc. exists c. by rewrite lookup_insert_ne by (intros ->; done).
Qed.

(** ** Headers *)

(** The payload pointer and the lengths moved by [n] bytes to the front. *)
Definition grow (n : Z) (b : pbuf_s) : pbuf_s :=
  set_payload (b_payload b - n) (set_lens (u16 (b_tot_len b + n)) (u16 (b_len b + n)) b).

Lemma shrunk_kept p b n : 0 ≤ n ≤ b_len b → b_len b < 65536 → kept p b (grow (- n) b).
Proof.
  intros Hn Hl. split_and!; try done. intros room (Hc & Hlow & _ & Hup). unfold in_block, grow. cbn [b_payload b_len set_payload set_lens b_type].
  rewrite (u16_id (b_len b + - n)) by lia. split_and!; (done || lia).
Qed.

Lemma grow_back n b :
  0 ≤ b_len b < 65536 → 0 ≤ b_tot_len b < 65536 → grow (- n) (grow n b) = b.
Proof.
  intros Hl Ht. assert (∀ x, 0 ≤ x < 65536 → u16 (u16 (x + n) + - n) = x) as E.
  { intros x Hx. unfold u16. rewrite Zplus_mod_idemp_l. replace (x + n + - n) with x by lia. by apply Z.mod_small. }
  destruct b as [nx pl tl ln ty fl rf ix]. unfold grow, set_payload, set_lens. simpl in *. rewrite !E by done.
  by replace (pl - n - - n) with pl by lia.
Qed.

(** Whether [n] more bytes can be had in front of the data of [p]. *)
Definition can_grow (p : Z) (b : pbuf_s) (n : Z) (force : bool) : bool :=
  (n <=? 0xFFFF) && (b_tot_len b + n <? 65536) &&
  (if negb (Z.land (b_type b) PBUF_TYPE_FLAG_STRUCT_DATA_CONTIGUOUS =? 0) then p + SIZEOF_STRUCT_PBUF <=? b_payload b - n else force).

Lemma grown_kept p b n force : 0 < n → can_grow p b n force = true → kept p b (grow n b).
Proof.
  intros Hn [[_ Hfit%Z.ltb_lt]%andb_true_iff Hroom]%andb_true_iff. split_and!; try done.
  intros room (Hc & Hlow & Hlen & Hup). rewrite (proj2 (Z.eqb_neq _ 0) Hc) in Hroom. cbn [negb] in Hroom. apply Z.leb_le in Hroom.
  unfold in_block, grow. cbn [b_payload b_len set_payload set_lens b_type].
  pose proof (u16_range (b_len b + n)). assert (u16 (b_len b + n) ≤ b_len b + n) by (apply Z.mod_le; lia).
  split_and!; (done || lia).
Qed.

Lemma wp_pbuf_add_header_impl p b n force (s : pmem PP PR H) (Q : Z → pmem PP PR H → Prop) :
  store s !! p = Some b → p ≠ NULL → 0 < n → 0 ≤ b_tot_len b < 65536 →
  (if can_grow p b n force then Q 0 (with_store s (alter (grow n) p (store s))) else Q 1 s) →
  wp (pbuf_add_header_impl p n force) Q s.
Proof.
  intros Hb Hp Hn Ht HQ. unfold pbuf_add_header_impl, can_grow in *.
  apply wp_bind, wp_assert; [by apply negb_true_iff, Z.eqb_neq|].
  rewrite Z.leb_antisym in HQ. destruct (Z.ltb_spec 0xFFFF n) as [|Hsmall]; cbn [negb andb] in HQ; [by apply wp_ret|].
  rewrite (proj2 (Z.eqb_neq n 0)) by lia. apply wp_bind, (wp_rd p b); [done|]. rewrite (u16_id n) by lia.
  destruct (Z.ltb_spec (b_tot_len b + n) 65536) as [Hfit|Hwrap]; cbn [andb] in HQ.
  - rewrite (u16_id (n + _)), (proj2 (Z.ltb_ge _ _)) by lia. rewrite Z.leb_antisym in HQ.
    destruct (negb (Z.land (b_type b) _ =? 0)).
    + destruct (_ <? _); cbn [negb] in HQ; [by apply wp_ret|].
      apply wp_bind, (wp_wr_alter p _ b); [done|]. apply wp_ret. by rewrite (alter_at _ p b _ (grow n)).
    + destruct force; [|by apply wp_ret].
      apply wp_bind, (wp_wr_alter p _ b); [done|]. apply wp_ret. by rewrite (alter_at _ p b _ (grow n)).
  - assert (u16 (n + b_tot_len b) = n + b_tot_len b - 65536) as ->.
    { unfold u16. symmetry. apply (Z.mod_unique_pos _ _ 1); lia. }
    rewrite (proj2 (Z.ltb_lt _ _)) by lia. by apply wp_ret.
Qed.

Lemma wp_pbuf_remove_header p b n (s : pmem PP PR H) (Q : Z → pmem PP PR H → Prop) :
  store s !! p = Some b → p ≠ NULL → 0 < n → 0 ≤ b_len b < 65536 →
  (if n <=? b_len b then Q 0 (with_store s (alter (grow (- n)) p (store s))) else Q 1 s) →
  wp (pbuf_remove_header p n) Q s.
Proof.
  intros Hb Hp Hn Hl HQ. unfold pbuf_remove_header. apply wp_bind, wp_assert; [by apply negb_true_iff, Z.eqb_neq|].
  destruct (Z.ltb_spec 0xFFFF n) as [|Hsmall].
  { rewrite (proj2 (Z.leb_gt _ _)) in HQ by lia. by apply wp_ret. }
  rewrite (proj2 (Z.eqb_neq n 0)) by lia. apply wp_bind, (wp_rd p b); [done|]. rewrite (u16_id n) by lia.
  destruct (n <=? b_len b); [|by apply wp_ret]. cbn [negb].
  apply wp_bind, (wp_wr_alter p _ b); [done|]. apply wp_ret.
  rewrite (alter_at _ p b _ (grow (- n))); [done|done|]. unfold grow. by rewrite Z.sub_opp_r.
Qed.

(** [pbuf_free_header]: the references to the pbufs that are taken off are
    released; the caller has one to the rest instead. *)
Lemma wp_free_header_loop n p l left owners (s : pmem PP PR H) (Q : Z → pmem PP PR H → Prop) :
  refs_ok (store s) (p :: owners) → mem_ok EP ER s → chain (store s) p l → (S (length l) < n)%nat → 0 ≤ left < 65536 →
  (∀ x b, x ∈ l → store s !! x = Some b → 0 ≤ b_len b < 65536) →
  (∀ r s', refs_ok (store s') (r :: owners) → mem_ok EP ER s' → r = NULL ∨ r ∈ l → Q r s') →
  wp (free_header_loop custom_free n p left) Q s.
Proof.
  revert n p left s. induction l as [|x l IH]; intros n p left s Ho Hs Hl Hn Hleft Hlens HQ; (destruct n as [|n]; [lia|]).
  - simpl in Hl. subst p. cbn [free_header_loop]. rewrite orb_true_r. apply wp_ret, HQ; try done. by left.
  - destruct (refs_ok_counted _ _ _ _ Ho Hl) as ([Hx Hnd]%NoDup_cons & [Hxn Hnull]%not_elem_of_cons & _).
    pose proof Hl as (-> & b & Hb & Hl'). cbn [free_header_loop].
    destruct (Z.eqb_spec left 0) as [->|Hne]; [apply wp_ret, HQ; try done; right; by left|].
    rewrite (proj2 (Z.eqb_neq x NULL)) by done. cbn [orb]. apply wp_bind, (wp_rd x b); [done|].
    pose proof (Hlens x b ltac:(by left) Hb) as Hlb. destruct (Z.leb_spec (b_len b) left) as [Hle|Hgt].
    + apply wp_bind, (wp_wr x _ b); [done|]. set (b1 := set_next NULL b). set (s1 := PMem _ _ _ _).
      assert (refs_ok (store s1) (x :: b_next b :: owners)) as Ho1.
      { eapply refs_ok_perm; [apply Permutation_swap|]. by apply refs_ok_cut. }
      assert (mem_ok EP ER s1) as Hs1 by by apply (mem_ok_same EP ER s x b).
      assert (chain (store s1) x [x]) as Hc1.
      { split; [done|]. exists b1. simpl. by rewrite lookup_insert_eq. }
      apply wp_bind, (wp_pbuf_free custom_free EP ER x [x] (b_next b :: owners) s1); try done.
      intros s2 Ho2 Hs2 E2. rewrite u16_id by lia.
      assert (∀ y, y ≠ x → store s2 !! y = store s !! y) as Hother.
      { intros y Hy. rewrite E2, release_other by (by intros ->%list_elem_of_singleton). simpl. by rewrite lookup_insert_ne. }
      assert (∀ y, y ∈ l → store s2 !! y = store s !! y) as Hsame by (intros y Hy; apply Hother; by intros ->).
      apply (IH n (b_next b)); try done; try lia.
      * eapply chain_frame; [|exact Hl']. intros y c Hy Hc. exists c. by rewrite Hsame.
      * simpl in Hn. lia.
      * intros y c Hy. rewrite Hsame by done. apply Hlens. by right.
      * intros r s' R1 R2 R3. apply HQ; [done|done|]. destruct R3 as [?|?]; [by left|right; by right].
    + apply wp_bind, (wp_pbuf_remove_header x b); try done; [lia|]. rewrite (proj2 (Z.leb_le _ _)) by lia.
      assert (linked_as (store s) (alter (grow (- left)) x (store s))) as Hlk by (eapply linked_as_at; [done|]; apply shrunk_kept; lia).
      destruct n as [|n]; [simpl in Hn; lia|]. cbn [free_header_loop]. apply wp_ret, HQ.
      * by eapply refs_ok_linked_as.
      * by apply mem_ok_linked_as.
      * right. by left.
Qed.

Lemma wp_pbuf_free_header p l n owners (s : pmem PP PR H) (Q : Z → pmem PP PR H → Prop) :
  refs_ok (store s) (p :: owners) → mem_ok EP ER s → chain (store s) p l → 0 ≤ n < 65536 →
  (∀ x b, x ∈ l → store s !! x = Some b → 0 ≤ b_len b < 65536) →
  (∀ r s', refs_ok (store s') (r :: owners) → mem_ok EP ER s' → r = NULL ∨ r ∈ l → Q r s') →
  wp (pbuf_free_header custom_free p n) Q s.
Proof.
  intros Ho Hs Hl Hn Hlens HQ. apply wp_bind, wp_gets. eapply wp_free_header_loop; try done.
  apply chain_size in Hl; [lia|apply (ro_null _ _ Ho)].
Qed.

Lemma wp_pbuf_clen p l (s : pmem PP PR H) (Q : Z → pmem PP PR H → Prop) :
  store s !! NULL = None → chain (store s) p l → Z.of_nat (length l) < 65536 → Q (Z.of_nat (length l)) s → wp (pbuf_clen p) Q s.
Proof.
  intros Hnull Hl Hlen HQ. apply wp_bind, wp_gets. pose proof (chain_size _ Hnull _ _ Hl) as Hsz.
  assert (∀ n k, (length l < n)%nat → 0 ≤ k → k + Z.of_nat (length l) < 65536 → Q (k + Z.of_nat (length l)) s → wp (clen_loop n p k) Q s) as Hloop.
  { clear HQ Hsz Hlen. revert p Hl. induction l as [|x l IH]; intros p Hl n k Hn Hk Hb HQ; (destruct n as [|n]; [lia|]).
    - simpl in Hl. subst p. apply wp_ret. by rewrite Z.add_0_r in HQ.
    - destruct Hl as (-> & b & Hbx & Hl). cbn [clen_loop]. rewrite (proj2 (Z.eqb_neq x NULL)) by (intros ->; congruence).
      apply wp_bind, (wp_rd x b); [done|]. cbn [length] in *. rewrite u16_id by lia. apply IH; try done; try lia.
      by replace (k + 1 + Z.of_nat (length l)) with (k + Z.of_nat (S (length l))) by lia. }
  apply Hloop; [lia|lia|lia|]. by rewrite Z.add_0_l.
Qed.
End pbuf_ops.
