(* ===== verification/PbufSafe.v ===== *)
(** What the packet buffer functions promise their callers: references are
    counted and nothing is lost, whatever sequence of calls is made; and what
    allocation, release, joining, shrinking and header moves do exactly. *)
From stdpp Require Import base tactics numbers list gmap.
From S2P Require Import Prelude Words Memp PbufMem PbufThm PbufOps.

(** ** Sequences of calls *)

Inductive bcall :=
  | BAlloc (layer : pbuf_layer) (n : Z) (type : pbuf_type)
  | BFree (p : Z)
  | BRef (p : Z)
  | BCat (h t : Z)
  | BChain (h t : Z)
  | BDechain (p : Z)
  | BRealloc (p n : Z)
  | BAddHeader (p n : Z) (force : bool)
  | BRemoveHeader (p n : Z)
  | BFreeHeader (p n : Z).

Fixpoint drop_one (p : Z) (l : list Z) : list Z :=
  match l with
  | [] => []
  | x :: l => if decide (x = p) then l else x :: drop_one p l
  end.

Lemma drop_one_perm p l : p ∈ l → l ≡ₚ p :: drop_one p l.
Proof.
  induction l as [|x l IH]; [by intros ?%elem_of_nil|]. simpl. destruct (decide (x = p)) as [->|Hne]; [done|].
  intros [->|Hp]%elem_of_cons; [done|]. rewrite (IH Hp) at 1. apply Permutation_swap.
Qed.

(** The references of the clients after a call that returned [r]. *)
Definition owners_after (c : bcall) (r : Z) (owners : list Z) : list Z :=
  match c with
  | BAlloc _ _ _ => if r =? NULL then owners else r :: owners
  | BFree p => drop_one p owners
  | BRef p => p :: owners
  | BCat _ t => drop_one t owners
  | BFreeHeader p _ => if r =? NULL then drop_one p owners else r :: drop_one p owners
  | _ => owners
  end.

Section pbuf_safe.
Context {PP PR H : Type} `{PoolLaws PP, PoolLaws PR, HeapLaws H}.
Context (custom_free : Z → M (pmem PP PR H) unit).
Context (EP ER : list Z) `{!Layout (PP := PP) (PR := PR) (H := H) EP ER}.

(** What the functions ask of their callers; a block the heap cannot trim must not
    be shrunk. *)
Definition call_ok (c : bcall) (s : pmem PP PR H) (owners : list Z) : Prop :=
  let σ := store s in
  match c with
  | BAlloc _ n _ => 0 ≤ n < 65536
  | BFree p => p ∈ owners ∧ p ≠ NULL
  | BRef p => ∃ b, σ !! p = Some b ∧ b_ref b < 255
  | BCat h t => t ∈ owners ∧ ∃ l1 x lt b tb, joinable σ h t l1 x lt b tb
  | BChain h t => ∃ l1 x lt b tb, joinable σ h t l1 x lt b tb ∧ b_ref tb < 255
  | BDechain p => p ∈ owners ∧ ∃ b lq, σ !! p = Some b ∧ chain σ (b_next b) lq ∧ Z.of_nat (length lq) < 256 ∧
      match σ !! b_next b with Some qb => b_tot_len qb = b_tot_len b - b_len b ∧ b_tot_len b < 65536 | None => b_tot_len b = b_len b end
  | BRealloc p n => p ≠ NULL ∧ 0 ≤ n ∧ ∃ l tot, chain σ p l ∧ packet σ l tot ∧ tot < 65536 ∧
      ∀ x b, x ∈ l → σ !! x = Some b → pbuf_get_allocsrc b = 0 → heap_trims (heap s) x
  | BAddHeader p n _ => 0 ≤ n ∧ ∃ b, σ !! p = Some b ∧ 0 ≤ b_tot_len b < 65536
  | BRemoveHeader p n => 0 ≤ n ∧ ∃ b, σ !! p = Some b ∧ 0 ≤ b_len b < 65536
  | BFreeHeader p n => p ∈ owners ∧ 0 ≤ n < 65536 ∧ ∃ l, chain σ p l ∧ ∀ x b, x ∈ l → σ !! x = Some b → 0 ≤ b_len b < 65536
  end.

Definition do_bcall (c : bcall) : M (pmem PP PR H) Z :=
  match c with
  | BAlloc layer n type => pbuf_alloc custom_free layer n type
  | BFree p => pbuf_free custom_free p
  | BRef p => pbuf_ref p;; mret 0
  | BCat h t => pbuf_cat h t;; mret 0
  | BChain h t => pbuf_chain h t;; mret 0
  | BDechain p => pbuf_dechain custom_free p
  | BRealloc p n => pbuf_realloc custom_free p n;; mret 0
  | BAddHeader p n force => pbuf_add_header_impl p n force
  | BRemoveHeader p n => pbuf_remove_header p n
  | BFreeHeader p n => pbuf_free_header custom_free p n
  end.

Fixpoint run_bcalls (cs : list bcall) (owners : list Z) : M (pmem PP PR H) (list Z) :=
  match cs with
  | [] => mret owners
  | c :: cs => r ← do_bcall c; run_bcalls cs (owners_after c r owners)
  end.

(** Each call is made as the functions ask. *)
Fixpoint calls_legal (cs : list bcall) (owners : list Z) (s : pmem PP PR H) : Prop :=
  match cs with
  | [] => True
  | c :: cs => call_ok c s owners ∧
      ∀ r s', do_bcall c s = (inl r, s') → calls_legal cs (owners_after c r owners) s'
  end.

Lemma owner_alloc σ owners p : refs_ok σ owners → p ∈ owners → p ≠ NULL → ∃ l, chain σ p l.
Proof.
  intros Ho Hp Hn. apply (refs_ok_chain _ _ _ Ho). right. apply (ro_alloc _ _ Ho); [|done]. apply elem_of_app. by left.
Qed.

Lemma refs_ok_maybe σ r owners : refs_ok σ (r :: owners) → refs_ok σ (if r =? NULL then owners else r :: owners).
Proof. destruct (Z.eqb_spec r NULL) as [->|]; [|done]. apply refs_ok_null. Qed.

Lemma wp_do_bcall c owners (s : pmem PP PR H) :
  refs_ok (store s) owners → mem_ok EP ER s → call_ok c s owners →
  wp (do_bcall c) (λ r s', refs_ok (store s') (owners_after c r owners) ∧ mem_ok EP ER s') s.
Proof.
  intros Ho Hs Hok. destruct c as [layer n type|p|p|h t|h t|p|p n|p n force|p n|p n]; simpl in Hok |- *.
  - eapply wp_pbuf_alloc; try done.
    + intros s' Es' Hs'. cbn [Z.eqb NULL]. by rewrite Es'.
    + intros r l s' Hr Hs' Ho' _ _ _. by rewrite (proj2 (Z.eqb_neq r NULL)).
  - destruct Hok as [Hp Hn]. destruct (owner_alloc _ _ _ Ho Hp Hn) as [l Hl].
    apply (wp_pbuf_free custom_free EP ER p l (drop_one p owners)); try done.
    by eapply refs_ok_perm; [apply drop_one_perm|].
  - destruct Hok as (b & Hb & Hr). destruct (ro_count _ _ Ho p b Hb) as [_ Hpos].
    assert (p ≠ NULL) as Hn by (intros ->; by rewrite (ro_null _ _ Ho) in Hb).
    apply wp_bind, (wp_pbuf_ref p b); [done|done|lia|]. apply wp_ret. split; [apply refs_ok_ref; (done || lia)|].
    by apply (mem_ok_same EP ER s p b).
  - destruct Hok as (Ht & l1 & x & lt & b & tb & Hj).
    apply wp_bind, (wp_pbuf_cat_owned EP ER h t l1 x lt b tb (drop_one t owners)); [|done|done|].
    + by eapply refs_ok_perm; [apply drop_one_perm|].
    + intros Ho' Hs'. by apply wp_ret.
  - destruct Hok as (l1 & x & lt & b & tb & Hj & Hr).
    apply wp_bind, (wp_pbuf_chain EP ER h t l1 x lt b tb owners); [done|done|done|done|]. intros σ' Ho' Hs'. by apply wp_ret.
  - destruct Hok as (Hp & b & lq & Hb & Hlq & Hlen & Htot).
    apply (wp_pbuf_dechain custom_free EP ER p b lq owners); done.
  - destruct Hok as (Hp & Hn & l & tot & Hl & Hpk & Htot & Htrim). apply wp_bind. destruct (Z.le_gt_cases tot n) as [Hle|Hgt].
    + unfold pbuf_realloc. apply wp_bind, wp_assert; [by apply negb_true_iff, Z.eqb_neq|].
      assert (∃ pb, store s !! p = Some pb ∧ b_tot_len pb = tot) as (pb & Hpb & Et).
      { destruct l as [|x l]; [done|]. destruct Hl as (-> & _), Hpk as (b & Hb & Et & _). by exists b. }
      apply wp_bind, (wp_rd p pb); [done|]. rewrite Et, (proj2 (Z.leb_le _ _)) by done. by apply wp_ret, wp_ret.
    + by apply (wp_pbuf_realloc custom_free EP ER p l tot n owners).
  - destruct Hok as (Hn & b & Hb & Htot).
    assert (p ≠ NULL) as Hp by (intros ->; by rewrite (ro_null _ _ Ho) in Hb).
    destruct (decide (n = 0)) as [->|Hne].
    + unfold pbuf_add_header_impl. apply wp_bind, wp_assert; [by apply negb_true_iff, Z.eqb_neq|]. by apply wp_ret.
    + apply (wp_pbuf_add_header_impl p b); try done; [lia|]. destruct (can_grow p b n force) eqn:Hg; [|done].
      assert (linked_as (store s) (alter (grow n) p (store s))) as Hlk by (eapply linked_as_at; [done|]; eapply grown_kept; [lia|done]).
      split; [by eapply refs_ok_linked_as|by apply mem_ok_linked_as].
  - destruct Hok as (Hn & b & Hb & Hlen).
    assert (p ≠ NULL) as Hp by (intros ->; by rewrite (ro_null _ _ Ho) in Hb).
    destruct (decide (n = 0)) as [->|Hne].
    + unfold pbuf_remove_header. apply wp_bind, wp_assert; [by apply negb_true_iff, Z.eqb_neq|]. by apply wp_ret.
    + apply (wp_pbuf_remove_header p b); try done; [lia|]. destruct (Z.leb_spec n (b_len b)) as [Hle|]; [|done].
      assert (linked_as (store s) (alter (grow (- n)) p (store s))) as Hlk by (eapply linked_as_at; [done|]; apply shrunk_kept; lia).
      split; [by eapply refs_ok_linked_as|by apply mem_ok_linked_as].
  - destruct Hok as (Hp & Hn & l & Hl & Hlens).
    apply (wp_pbuf_free_header custom_free EP ER p l n (drop_one p owners)); try done.
    + by eapply refs_ok_perm; [apply drop_one_perm|].
    + intros r s' Ho' Hs' _. split; [|done]. by apply refs_ok_maybe.
Qed.

(** C34: whatever sequence of allocations, releases, further references, joins,
    splits, shrinkings and header moves the clients make, each as the functions
    ask, none of them fails, the count of every pbuf stays the number of
    references the clients and the chains have to it, every pool element and
    heap block is either a pbuf or free, and the data of a pbuf stay inside its
    memory; when the clients have given back all
    their references, there is no pbuf left and all the memory is free again. *)
Theorem bufs_accounted cs owners (s : pmem PP PR H) :
  refs_ok (store s) owners → mem_ok EP ER s → calls_legal cs owners s →
  wp (run_bcalls cs owners) (λ owners' s',
    refs_ok (store s') owners' ∧ mem_ok EP ER s' ∧
    (owners' = [] → store s' = ∅ ∧
      (∃ free, pool_holds (pool_pool s') free ∧ free ≡ₚ EP) ∧
      (∃ free, pool_holds (ref_pool s') free ∧ free ≡ₚ ER) ∧ heap_holds (heap s') [])) s.
Proof.
  revert owners s. induction cs as [|c cs IH]; intros owners s Ho Hs Hok.
  - apply wp_ret. split; [done|]. split; [done|]. intros ->. apply refs_ok_empty in Ho. split; [done|].
    destruct Hs as [(fp & Hp & Ep) (fr & Hr & Er) [Hh _] _]. rewrite Ho in Ep, Er, Hh.
    split_and!; [by exists fp|by exists fr|done].
  - destruct Hok as [Hc Hok]. apply wp_bind.
    destruct (wp_inv _ _ _ (wp_do_bcall c owners s Ho Hs Hc)) as (r & s' & E & Ho' & Hs').
    apply (wp_run _ _ _ r s' E). by apply IH, (Hok r s').
Qed.

(** Released along a chain: the pbufs with one reference up to the first with
    more. *)
Lemma release_exact gone rest σ :
  NoDup (gone ++ rest) → (∀ x, x ∈ gone → ∃ b, σ !! x = Some b ∧ b_ref b = 1) →
  match rest with [] => True | y :: _ => ∃ b, σ !! y = Some b ∧ b_ref b ≠ 1 end →
  let σ' := (release (gone ++ rest) σ).1 in
  (release (gone ++ rest) σ).2 = Z.of_nat (length gone) ∧
  (∀ x, x ∈ gone → σ' !! x = None) ∧
  (∀ y rest', rest = y :: rest' → σ' !! y = (λ b, set_ref (b_ref b - 1) b) <$> σ !! y) ∧
  (∀ x, x ∉ gone → head rest ≠ Some x → σ' !! x = σ !! x).
Proof.
  revert σ. induction gone as [|x gone IH]; intros σ Hnd Hg Hr.
  - destruct rest as [|y rest]; [split_and!; try done; by intros ? ?%elem_of_nil|].
    destruct Hr as (b & Hb & Hne). cbn [app release]. rewrite Hb, (proj2 (Z.eqb_neq _ 1)) by done. cbn [fst snd].
    split_and!; [done|by intros ? ?%elem_of_nil| |].
    + intros z rest' [= <- <-]. rewrite lookup_insert_eq. by rewrite Hb.
    + intros z _ Hz. rewrite lookup_insert_ne by (intros ->; done). done.
  - cbn [app] in Hnd |- *. apply NoDup_cons in Hnd as [Hx Hnd]. destruct (Hg x) as (b & Hb & Er); [by left|].
    cbn [release]. rewrite Hb, Er. cbn [Z.eqb Pos.eqb].
    specialize (IH (delete x σ) Hnd). destruct (release (gone ++ rest) (delete x σ)) as [σ' k]. cbn [fst snd] in *.
    destruct IH as (I1 & I2 & I3 & I4).
    + intros y Hy. destruct (Hg y) as (c & Hc & ?); [by right|]. exists c. split; [|done].
      rewrite lookup_delete_ne; [done|]. intros ->. apply Hx, elem_of_app. by left.
    + destruct rest as [|y rest]; [done|]. destruct Hr as (c & Hc & ?). exists c. split; [|done].
      rewrite lookup_delete_ne; [done|]. intros ->. apply Hx, elem_of_app. right. by left.
    + assert (x ∉ gone) as Hxg by (intros Hin; apply Hx, elem_of_app; by left). split_and!.
      * rewrite I1. simpl. lia.
      * intros y [->|Hy]%elem_of_cons; [|by apply I2]. rewrite I4; [by rewrite lookup_delete_eq|done|].
        destruct rest as [|z rest]; [done|]. intros [= ->]. apply Hx, elem_of_app. right. by left.
      * intros y rest' E. rewrite (I3 y rest' E). rewrite lookup_delete_ne; [done|]. intros ->. apply Hx, elem_of_app.
        right. rewrite E. by left.
      * intros y [Hyx Hy]%not_elem_of_cons Hh. rewrite I4 by done. by rewrite lookup_delete_ne.
Qed.

(** C34: [pbuf_free] gives up one reference to a chain: the pbufs in front that
    had no other are deallocated, the first that had is referenced once less, and
    every other pbuf is untouched; it returns how many were deallocated. *)
Theorem pbuf_free_exact p gone rest owners (s : pmem PP PR H) :
  refs_ok (store s) (p :: owners) → mem_ok EP ER s → p ≠ NULL → chain (store s) p (gone ++ rest) →
  (∀ x, x ∈ gone → ∃ b, store s !! x = Some b ∧ b_ref b = 1) →
  match rest with [] => True | y :: _ => ∃ b, store s !! y = Some b ∧ b_ref b ≠ 1 end →
  Z.of_nat (length gone) < 256 →
  wp (pbuf_free custom_free p) (λ r s', r = Z.of_nat (length gone) ∧
    (∀ x, x ∈ gone → store s' !! x = None) ∧
    (∀ y rest', rest = y :: rest' → store s' !! y = (λ b, set_ref (b_ref b - 1) b) <$> store s !! y) ∧
    (∀ x, x ∉ gone → head rest ≠ Some x → store s' !! x = store s !! x)) s.
Proof.
  intros Ho Hs Hp Hl Hg Hr Hlen. destruct (refs_ok_counted _ _ _ _ Ho Hl) as (Hnd & _).
  destruct (release_exact gone rest (store s) Hnd Hg Hr) as (R1 & R2 & R3 & R4).
  apply (wp_pbuf_free custom_free EP ER p (gone ++ rest) owners); try done.
  intros s' Ho' Hs' Es'. rewrite R1, u8_id, Es' by lia. by split_and!.
Qed.

(** C35: [pbuf_alloc] returns a chain of new pbufs, each referenced once, that is
    a packet of exactly the length asked for and disturbs no other pbuf; those of
    the pool keep their data inside their elements, and the block asked of the
    heap has room for the structure, the headers and the data.  Otherwise it
    returns NULL and everything is as before. *)
Theorem pbuf_alloc_exact layer n type owners (s : pmem PP PR H) :
  refs_ok (store s) owners → mem_ok EP ER s → 0 ≤ n < 65536 →
  wp (pbuf_alloc custom_free layer n type) (λ r s', mem_ok EP ER s' ∧
    (r = NULL ∧ store s' = store s ∨
     r ≠ NULL ∧ refs_ok (store s') (r :: owners) ∧ ∃ l, fresh_chain (store s) (store s') r l ∧ packet (store s') l n ∧
       (type = PBUF_POOL → ∀ x, x ∈ l → ∃ b, store s' !! x = Some b ∧ inside EP x b))) s ∧
  (let want := SIZEOF_STRUCT_PBUF + LWIP_MEM_ALIGN_SIZE (layer_offset layer) + LWIP_MEM_ALIGN_SIZE n in
   ram_alloc_len layer n = if want <? 65536 then Some want else None).
Proof.
  intros Ho Hs Hn. split; [|by apply ram_alloc_len_exact]. eapply wp_pbuf_alloc; try done.
  - intros s' Es' Hs'. split; [done|]. by left.
  - intros r l s' Hr Hs' Ho' Hf Hpk Hin. split; [done|]. right. split_and!; [done|done|]. exists l. by split_and!.
Qed.

(** [pbuf_add_header] succeeds exactly if the length stays below 2^16 and the
    data can grow into the pbuf's own memory (or the caller forces it, for data
    elsewhere): then [pbuf_remove_header] of as much restores the pbuf; and it
    never moves the payload of a pbuf with data of its own into the structure. *)
Theorem header_moves p b n force (s : pmem PP PR H) :
  store s !! p = Some b → p ≠ NULL → 0 < n → 0 ≤ b_len b ≤ b_tot_len b → b_tot_len b < 65536 →
  wp (r ← pbuf_add_header_impl p n force;
      r' ← (if r =? 0 then pbuf_remove_header p n else mret r); mret (r, r'))
    (λ '(r, r') s', (r = 0 ↔ can_grow p b n force = true) ∧ r' = r ∧ s' = s) s ∧
  wp (pbuf_add_header_impl p n force) (λ r s',
    if r =? 0 then ∃ b', store s' !! p = Some b' ∧ b_len b' = b_len b + n ∧ b_tot_len b' = b_tot_len b + n ∧
      b_payload b' = b_payload b - n ∧
      (Z.land (b_type b) PBUF_TYPE_FLAG_STRUCT_DATA_CONTIGUOUS ≠ 0 → p + SIZEOF_STRUCT_PBUF ≤ b_payload b')
    else s' = s) s.
Proof.
  intros Hb Hp Hn Hl Ht. assert (∀ c, can_grow p b n force = c → c = true →
    b_tot_len b + n < 65536 ∧ (Z.land (b_type b) PBUF_TYPE_FLAG_STRUCT_DATA_CONTIGUOUS ≠ 0 → p + SIZEOF_STRUCT_PBUF ≤ b_payload b - n)) as Hgrow.
  { intros c E ->. unfold can_grow in E. apply andb_true_iff in E as [[_ E1%Z.ltb_lt]%andb_true_iff E2].
    split; [done|]. intros Hc. apply Z.eqb_neq in Hc. rewrite Hc in E2. by apply Z.leb_le in E2. }
  split.
  - apply wp_bind, (wp_pbuf_add_header_impl p b); try done; [lia|]. destruct (can_grow p b n force) eqn:E.
    + destruct (Hgrow true eq_refl eq_refl) as [Htot _]. cbn [Z.eqb]. apply wp_bind.
      assert (alter (grow n) p (store s) !! p = Some (grow n b)) as Hb' by (by rewrite lookup_alter_eq, Hb).
      assert (b_len (grow n b) = b_len b + n) as El by (simpl; by rewrite u16_id by lia).
      apply (wp_pbuf_remove_header p (grow n b)); try done; [rewrite El; lia|].
      rewrite El, (proj2 (Z.leb_le _ _)) by lia. apply wp_ret. split_and!; [done|done|].
      unfold with_store. cbn [store pool_pool ref_pool heap].
      enough (alter (grow (- n)) p (alter (grow n) p (store s)) = store s) as -> by by destruct s.
      apply map_eq. intros x. destruct (decide (x = p)) as [->|]; [|by rewrite !lookup_alter_ne].
      rewrite !lookup_alter_eq, Hb. simpl. by rewrite grow_back by lia.
    + cbn [Z.eqb]. apply wp_bind, wp_ret, wp_ret. split_and!; [done|done|done].
  - apply (wp_pbuf_add_header_impl p b); try done; [lia|]. destruct (can_grow p b n force) eqn:E; [|done].
    destruct (Hgrow true eq_refl eq_refl) as [Htot Hin]. cbn [Z.eqb]. exists (grow n b).
    split_and!; [simpl; by rewrite lookup_alter_eq, Hb|simpl; by rewrite u16_id by lia..|done|done].
Qed.
End pbuf_safe.
