(* ===== verification/PbufDemo.v ===== *)
(** The packet buffers of [PbufMem] on the pools of [Memp] and the heap of [Mem],
    and the theorems of [PbufSafe] at concrete inputs. *)
From stdpp Require Import base tactics numbers list gmap.
From S2P Require Import Prelude Words Memp Mem PbufMem MemThm MemRefine PbufThm PbufOps PbufSafe.

(** ** The memory *)

Definition pool_desc : memp_desc := MempDesc (SIZEOF_STRUCT_PBUF + PBUF_POOL_BUFSIZE_ALIGNED) 4 0x20010000.
Definition ref_desc : memp_desc := MempDesc SIZEOF_STRUCT_PBUF 4 0x20020000.
Definition pool_memp : Type := memp.
Definition ref_memp : Type := memp.
#[global] Typeclasses Opaque pool_memp ref_memp.

#[export] Instance pool_desc_ok : DescOk pool_desc.
Proof. by split. Qed.
#[export] Instance ref_desc_ok : DescOk ref_desc.
Proof. by split. Qed.
#[export] Instance pool_memp_pool : Pool pool_memp := memp_pool pool_desc.
#[export] Instance pool_memp_laws : PoolLaws pool_memp := memp_pool_laws pool_desc.
#[export] Instance ref_memp_pool : Pool ref_memp := memp_pool ref_desc.
#[export] Instance ref_memp_laws : PoolLaws ref_memp := memp_pool_laws ref_desc.

(** The heap of [Mem]. *)
#[export] Instance demo_heap : Heap mem_heap := mem_heap_heap array.
#[export] Instance demo_heap_laws : HeapLaws mem_heap := mem_heap_laws array _.

(** Where its first block has its data. *)
Definition heap_base : Z := 0x2003000C.

Notation demo_mem := (pmem pool_memp ref_memp mem_heap).
Definition no_custom (p : Z) : M demo_mem unit := fail AssertFailed.

(** After [lwip_init]. *)
Definition start_mem : demo_mem :=
  PMem ∅ (memp_init_pool pool_desc (MempState 0 ∅)).2 (memp_init_pool ref_desc (MempState 0 ∅)).2
    (mem_init array (MemHeap 0 0 0 ∅)).2.

Notation EP := (elements pool_desc).
Notation ER := (elements ref_desc).

#[export] Instance demo_layout : Layout (PP := pool_memp) (PR := ref_memp) (H := mem_heap) EP ER.
Proof.
  assert (Forall (λ x, x ∉ ER ∧ x mod MEM_ALIGNMENT = 0) EP) as Hap by (apply (bool_decide_unpack _); by vm_compute).
  assert (Forall (λ x, x < heap_base) (EP ++ ER)) as Hlow by (apply (bool_decide_unpack _); by vm_compute).
  rewrite Forall_forall in Hap. rewrite Forall_forall in Hlow. split.
  - split; [by apply elements_nodup|done].
  - split; [by apply elements_nodup|done].
  - intros x Hx. by apply Hap.
  - intros x Hx (q & Hq & _ & ->). apply Hlow in Hx. unfold heap_base in Hx. change (LWIP_MEM_ALIGN array) with 0x20030004 in Hx.
    change SIZEOF_STRUCT_MEM with 8 in Hx. lia.
  - intros x Hx. by apply Hap.
  - assert (∀ i j, (i < 4)%nat → (j < 4)%nat → (i ≠ j) →
      element pool_desc i + ELEMENT_SIZE ≤ element pool_desc j ∨ element pool_desc j + ELEMENT_SIZE ≤ element pool_desc i) as Hij.
    { intros i j ???. unfold element. change (desc_size pool_desc) with 1552. change ELEMENT_SIZE with 1552. lia. }
    intros x y (i & -> & Hi%elem_of_seq)%list_elem_of_fmap (j & -> & Hj%elem_of_seq)%list_elem_of_fmap Hne.
    change (desc_num pool_desc) with 4%nat in Hi, Hj. apply Hij; [lia..|by intros ->].
  - intros x y h l Hx (q & Hq & _ & ->) _ _. left. change (LWIP_MEM_ALIGN array) with 0x20030004.
    assert (Forall (λ x, x + ELEMENT_SIZE ≤ 0x20030004) EP) as Hend by (apply (bool_decide_unpack _); by vm_compute).
    rewrite Forall_forall in Hend. apply Hend in Hx. change SIZEOF_STRUCT_MEM with 8. lia.
Qed.

Lemma start_refs : refs_ok (store start_mem) [].
Proof. split; [done| | |]; intros p; [by intros b ?|by intros ?%elem_of_nil|by intros b ?]. Qed.

Lemma start_mem_ok : mem_ok EP ER start_mem.
Proof.
  destruct (wp_inv _ _ _ (wp_memp_init_pool pool_desc (MempState 0 ∅))) as (u & s & E & Hs).
  destruct (wp_inv _ _ _ (wp_memp_init_pool ref_desc (MempState 0 ∅))) as (u' & s' & E' & Hs').
  destruct (wp_inv (mem_init array) (λ _ h', heap_rep array h' [Blk MEM_SIZE_ALIGNED false]) (MemHeap 0 0 0 ∅)) as (u'' & h & Eh & Hh);
    [by apply wp_mem_init|].
  unfold start_mem. rewrite E, E', Eh. split; simpl; [| | |by intros|by intros].
  - exists (reverse EP). split; [exact Hs|]. apply reverse_Permutation.
  - exists (reverse ER). split; [exact Hs'|]. apply reverse_Permutation.
  - split; [|by intros x ?%elem_of_nil]. by exists [Blk MEM_SIZE_ALIGNED false].
Qed.

(** ** Witnesses *)

Lemma legal_step c cs owners (s : demo_mem) :
  call_ok c s owners →
  calls_legal no_custom cs (owners_after c (match (do_bcall no_custom c s).1 with inl r => r | inr _ => 0 end) owners)
    (do_bcall no_custom c s).2 →
  calls_legal no_custom (c :: cs) owners s.
Proof. intros Hc Hcs. split; [done|]. intros r s' E. by rewrite E in Hcs. Qed.

Definition demo_calls : list bcall :=
  [BAlloc PBUF_TRANSPORT 48 PBUF_RAM; BAddHeader heap_base 8 false; BRef heap_base; BFree heap_base;
   BRealloc heap_base 20; BFree heap_base].

Lemma bufs_accounted_witness :
  (∃ s', run_bcalls no_custom demo_calls [] start_mem = (inl [], s')) ∧
  wp (run_bcalls no_custom demo_calls []) (λ owners' s',
    refs_ok (store s') owners' ∧ mem_ok EP ER s' ∧
    (owners' = [] → store s' = ∅ ∧
      (∃ free, pool_holds (pool_pool s') free ∧ free ≡ₚ EP) ∧
      (∃ free, pool_holds (ref_pool s') free ∧ free ≡ₚ ER) ∧ heap_holds (heap s') [])) start_mem.
Proof.
  split; [eexists; by vm_compute|]. apply (bufs_accounted no_custom EP ER); [apply start_refs|apply start_mem_ok|].
  apply legal_step; [by vm_compute|].
  apply legal_step; [split; [done|]; eexists; split; [by vm_compute|by vm_compute]|].
  apply legal_step; [eexists; split; [by vm_compute|by vm_compute]|].
  apply legal_step; [split; [by vm_compute; left|done]|].
  apply legal_step.
  { split; [done|]. split; [done|]. exists [heap_base], 56. split_and!.
    - split; [done|]. eexists. split; by vm_compute.
    - eexists; by vm_compute.
    - done.
    - intros x b ->%list_elem_of_singleton _ _. by vm_compute. }
  apply legal_step; [split; [by vm_compute; left|done]|done].
Defined.

(** Calls made one after the other, as long as none fails. *)
Fixpoint after (cs : list bcall) (owners : list Z) (s : demo_mem) : list Z * demo_mem :=
  match cs with
  | [] => (owners, s)
  | c :: cs =>
      match do_bcall no_custom c s with
      | (inl r, s') => after cs (owners_after c r owners) s'
      | (inr _, s') => (owners, s')
      end
  end.

Fixpoint after_ok (cs : list bcall) (owners : list Z) (s : demo_mem) : Prop :=
  match cs with
  | [] => True
  | c :: cs => call_ok c s owners ∧
      match do_bcall no_custom c s with
      | (inl r, s') => after_ok cs (owners_after c r owners) s'
      | (inr _, s') => True
      end
  end.

Lemma after_keeps cs owners s :
  refs_ok (store s) owners → mem_ok EP ER s → after_ok cs owners s →
  let '(owners', s') := after cs owners s in refs_ok (store s') owners' ∧ mem_ok EP ER s'.
Proof.
  revert owners s. induction cs as [|c cs IH]; intros owners s Ho Hs Hok; [done|]. destruct Hok as [Hc Hok]. simpl.
  destruct (wp_inv _ _ _ (wp_do_bcall no_custom EP ER c owners s Ho Hs Hc)) as (r & s' & E & Ho' & Hs').
  rewrite E in Hok |- *. by apply IH.
Qed.

(** Two pbufs from the heap, then the first holding a reference to the second. *)
Definition second : Z := heap_base + 80.
Definition two_state : demo_mem := (after [BAlloc PBUF_RAW 56 PBUF_RAM; BAlloc PBUF_RAW 4 PBUF_RAM] [] start_mem).2.
Definition pair_state : demo_mem := (do_bcall no_custom (BChain heap_base second) two_state).2.

Lemma two_ok : refs_ok (store two_state) [second; heap_base] ∧ mem_ok EP ER two_state.
Proof.
  pose proof (after_keeps [BAlloc PBUF_RAW 56 PBUF_RAM; BAlloc PBUF_RAW 4 PBUF_RAM] [] start_mem start_refs start_mem_ok) as Hk.
  unfold two_state. destruct (after _ _ _) as [owners s] eqn:E.
  assert (owners = [second; heap_base]) as -> by (by rewrite <-(f_equal fst E : _ = owners)).
  apply Hk. split; [done|]. destruct (do_bcall _ _ _) as [[r|e] s']; [|done]. split; [done|]. by destruct (do_bcall _ _ _) as [[?|?] ?].
Qed.

Lemma pair_ok : refs_ok (store pair_state) [second; heap_base] ∧ mem_ok EP ER pair_state.
Proof.
  destruct two_ok as [Ho Hs].
  assert (call_ok (BChain heap_base second) two_state [second; heap_base]) as Hc.
  { eexists [], heap_base, [second], _, _. split; [split|].
    - done.
    - split; [done|]. eexists. by split; vm_compute.
    - split; [done|]. eexists. by split; vm_compute.
    - intros y ->%list_elem_of_singleton. by intros [=]%list_elem_of_singleton.
    - by vm_compute.
    - done.
    - by vm_compute.
    - done. }
  destruct (wp_inv _ _ _ (wp_do_bcall no_custom EP ER _ _ _ Ho Hs Hc)) as (r & s' & E & Hk).
  unfold pair_state. by rewrite E.
Qed.

Lemma pbuf_free_exact_witness :
  (pbuf_free no_custom heap_base pair_state).1 = inl 1 ∧
  wp (pbuf_free no_custom heap_base) (λ r s', r = 1 ∧
    (∀ x, x ∈ [heap_base] → store s' !! x = None) ∧
    (∀ y rest', [second] = y :: rest' → store s' !! y = (λ b, set_ref (b_ref b - 1) b) <$> store pair_state !! y) ∧
    (∀ x, x ∉ [heap_base] → head [second] ≠ Some x → store s' !! x = store pair_state !! x)) pair_state.
Proof.
  split; [by vm_compute|].
  apply (pbuf_free_exact no_custom EP ER heap_base [heap_base] [second] [second]).
  - eapply refs_ok_perm; [apply Permutation_swap|apply pair_ok].
  - apply pair_ok.
  - done.
  - split; [done|]. eexists. split; [by vm_compute|]. split; [done|]. eexists. by split; vm_compute.
  - intros x ->%list_elem_of_singleton. eexists. by split; vm_compute.
  - eexists. by split; [vm_compute|].
  - done.
Defined.

(** A packet that takes two elements of the pool. *)
Lemma pbuf_alloc_exact_witness :
  (∃ r, (pbuf_alloc no_custom PBUF_RAW 3000 PBUF_POOL start_mem).1 = inl r ∧ r ≠ NULL) ∧
  (wp (pbuf_alloc no_custom PBUF_RAW 3000 PBUF_POOL) (λ r s', mem_ok EP ER s' ∧
    (r = NULL ∧ store s' = store start_mem ∨
     r ≠ NULL ∧ refs_ok (store s') [r] ∧ ∃ l, fresh_chain (store start_mem) (store s') r l ∧ packet (store s') l 3000 ∧
       (PBUF_POOL = PBUF_POOL → ∀ x, x ∈ l → ∃ b, store s' !! x = Some b ∧ inside EP x b))) start_mem ∧
  ram_alloc_len PBUF_RAW 3000 = Some 3016).
Proof.
  split; [eexists; split; [by vm_compute|done]|].
  apply (pbuf_alloc_exact no_custom EP ER PBUF_RAW 3000 PBUF_POOL []); [apply start_refs|apply start_mem_ok|lia].
Defined.

Lemma header_moves_witness :
  ∃ b, store two_state !! heap_base = Some b ∧
  wp (r ← pbuf_add_header_impl heap_base 8 false;
      r' ← (if r =? 0 then pbuf_remove_header heap_base 8 else mret r); mret (r, r'))
    (λ '(r, r') s', (r = 0 ↔ can_grow heap_base b 8 false = true) ∧ r' = r ∧ s' = two_state) two_state.
Proof.
  eexists. split; [by vm_compute|]. apply header_moves; [by vm_compute|done|lia|by vm_compute|by vm_compute].
Defined.
