(* ===== verification/Ip4Addr.v ===== *)
(** IPv4 addresses, [lwip/src/core/ipv4/ip4_addr.c]: printing in dotted
    notation, reading it back, netmasks and broadcast addresses.  An address is
    a 32-bit word in network byte order, so its first byte is the lowest. *)
From Stdlib Require Import Ascii.
From stdpp Require Import base tactics numbers list strings.
From S2P Require Import Prelude Words Printf Def.

Definition IPADDR_NONE : Z := 0xffffffff.
Definition IPADDR_ANY : Z := 0.
Definition IPADDR_BROADCAST : Z := 0xffffffff.
Definition IP4ADDR_STRLEN_MAX : Z := 16.

(** [IP4_ADDR( &a, b0, b1, b2, b3)]. *)
Definition LWIP_MAKEU32 (a b c d : Z) : Z :=
  Z.lor (Z.lor (Z.lor (u32 (Z.shiftl (Z.land a 0xff) 24)) (u32 (Z.shiftl (Z.land b 0xff) 16)))
    (u32 (Z.shiftl (Z.land c 0xff) 8))) (Z.land d 0xff).
Definition IP4_ADDR (a b c d : Z) : Z := PP_HTONL (LWIP_MAKEU32 a b c d).

(** ** Printing *)

(** The digits of a byte, last first, as the do-while loop leaves them in
    [inv], which has 3 places. *)
Fixpoint inv_digits (places : nat) (ap : Z) : option (list ascii) :=
  match places with
  | O => None
  | S places =>
      let c := digit_char (ap mod 10) in
      let ap := ap / 10 in
      if ap =? 0 then Some [c]
      else l ← inv_digits places ap; Some (c :: l)
  end.

(** [if (len++ >= buflen) return NULL; *rp++ = c;] for the characters [l]. *)
Fixpoint put_chars (buflen : Z) (out l : list ascii) : option (list ascii) :=
  match l with
  | [] => Some out
  | c :: l =>
      if buflen <=? Z.of_nat (length out) then None
      else put_chars buflen (out ++ [c]) l
  end.

Fixpoint put_octets (buflen : Z) (out : list ascii) (aps : list Z) : option (list ascii) :=
  match aps with
  | [] => Some out
  | ap :: aps =>
      inv ← inv_digits 3 ap;
      out ← put_chars buflen out (rev inv ++ ["."%char]);
      put_octets buflen out aps
  end.

(** The text in [buf], before its NUL; [None] is NULL. *)
Definition ip4addr_ntoa_r (addr buflen : Z) : option (list ascii) :=
  out ← put_octets buflen [] [byte_at addr 0; byte_at addr 1; byte_at addr 2; byte_at addr 3];
  Some (removelast out).

Definition ip4addr_ntoa (addr : Z) : option (list ascii) :=
  ip4addr_ntoa_r addr IP4ADDR_STRLEN_MAX.

(** ** Reading *)

Definition in_range (c : ascii) (lo up : Z) : bool := (lo <=? chr c) && (chr c <=? up).
Definition lwip_isdigit (c : ascii) : bool := in_range c 48 57.
Definition lwip_isxdigit (c : ascii) : bool :=
  lwip_isdigit c || in_range c 97 102 || in_range c 65 70.
Definition lwip_islower (c : ascii) : bool := in_range c 97 122.
Definition lwip_isspace (c : ascii) : bool :=
  (chr c =? 32) || (chr c =? 12) || (chr c =? 10) || (chr c =? 13) || (chr c =? 9) || (chr c =? 11).

(** The character at the pointer; the string's NUL at the end. *)
Definition at_cp (l : list ascii) : ascii := match l with [] => nul | c :: _ => c end.

(** The inner [for (;;)]: the value and where it ends. *)
Fixpoint read_number (base val : Z) (l : list ascii) : Z * list ascii :=
  match l with
  | [] => (val, [])
  | c :: l' =>
      if lwip_isdigit c then
        if (base =? 8) && (8 <=? chr c - 48) then (val, l)
        else read_number base (u32 (val * base + (chr c - 48))) l'
      else if (base =? 16) && lwip_isxdigit c then
        read_number base
          (Z.lor (u32 (Z.shiftl val 4)) (u32 (chr c + 10 - (if lwip_islower c then 97 else 65)))) l'
      else (val, l)
  end.

(** The number at the pointer, with its prefix: 0x is hexadecimal, 0 octal. *)
Definition read_part (l : list ascii) : Z * list ascii :=
  if decide (at_cp l = "0"%char) then
    let l := tail l in
    if decide (at_cp l = "x"%char ∨ at_cp l = "X"%char) then read_number 16 0 (tail l)
    else read_number 8 0 l
  else read_number 10 0 l.

(** The outer [for (;;)]: the parts before the last dot, the last value, and
    the rest.  There are at most four parts, so [4] passes are enough. *)
Fixpoint read_parts (passes : nat) (parts : list Z) (l : list ascii)
    : option (list Z * Z * list ascii) :=
  match passes with
  | O => None
  | S passes =>
      if negb (lwip_isdigit (at_cp l)) then None
      else
        let '(val, l) := read_part l in
        if decide (at_cp l = "."%char) then
          if (3 <=? Z.of_nat (length parts)) then None
          else read_parts passes (parts ++ [val]) (tail l)
        else Some (parts, val, l)
  end.

Definition ip4addr_aton (cp : list ascii) : option Z :=
  '(parts, val, l) ← read_parts 4 [] cp;
  let c := at_cp l in
  if bool_decide (c ≠ nul) && negb (lwip_isspace c) then None
  else
    val ← (match parts with
           | [] => Some val
           | [p0] =>
               if (0xffffff <? val) || (0xff <? p0) then None
               else Some (Z.lor val (u32 (Z.shiftl p0 24)))
           | [p0; p1] =>
               if (0xffff <? val) || ((0xff <? p0) || (0xff <? p1)) then None
               else Some (Z.lor val (Z.lor (u32 (Z.shiftl p0 24)) (u32 (Z.shiftl p1 16))))
           | [p0; p1; p2] =>
               if (0xff <? val) || ((0xff <? p0) || (0xff <? p1) || (0xff <? p2)) then None
               else Some (Z.lor val (Z.lor (Z.lor (u32 (Z.shiftl p0 24)) (u32 (Z.shiftl p1 16)))
                      (u32 (Z.shiftl p2 8))))
           | _ => None
           end);
    Some (lwip_htonl val).

Definition ipaddr_addr (cp : list ascii) : Z := default IPADDR_NONE (ip4addr_aton cp).

Example aton_forms :
  ip4addr_aton (string_chars "162.159.200.1") = Some (IP4_ADDR 162 159 200 1) ∧
  ip4addr_aton (string_chars "0x7f.1") = Some (IP4_ADDR 127 0 0 1) ∧
  ip4addr_aton (string_chars "010.1.2.3 x") = Some (IP4_ADDR 8 1 2 3) ∧
  ip4addr_aton (string_chars "1.2.3.4.5") = None ∧
  ip4addr_aton (string_chars "256.1.1.1") = None ∧
  ip4addr_aton (string_chars "1.2.3.4x") = None.
Proof. vm_compute. repeat split. Qed.

Example ntoa_server :
  ip4addr_ntoa (IP4_ADDR 162 159 200 1) = Some (string_chars "162.159.200.1").
Proof. vm_compute. reflexivity. Qed.

(** ** Dotted notation *)

Definition dotted (b0 b1 b2 b3 : Z) : list ascii :=
  print_uint 10 b0 ++ "."%char :: print_uint 10 b1 ++ "."%char ::
  print_uint 10 b2 ++ "."%char :: print_uint 10 b3.

(** A fact about every byte, checked one by one. *)
Lemma every_byte (P : Z → bool) v : forallb P (seqZ 0 256) = true → byte_ok v → P v = true.
Proof.
  intros Hall Hv. rewrite forallb_forall in Hall. apply Hall.
  rewrite <-list_elem_of_In. apply elem_of_seqZ. unfold byte_ok in Hv. lia.
Qed.

Definition octet_check (v : Z) : bool :=
  match inv_digits 3 v with
  | Some inv => bool_decide (rev inv = print_uint 10 v) && bool_decide (0 < length inv ≤ 3)%nat
  | None => false
  end.

Lemma octet_text v :
  byte_ok v → ∃ inv, inv_digits 3 v = Some inv ∧ rev inv = print_uint 10 v ∧
    (0 < length inv ≤ 3)%nat.
Proof.
  intros Hv. assert (Hc : octet_check v = true)
    by (apply every_byte; [vm_compute; reflexivity|done]).
  unfold octet_check in Hc. destruct (inv_digits 3 v) as [inv|]; [|done].
  apply andb_true_iff in Hc as [?%bool_decide_eq_true ?%bool_decide_eq_true]. eauto.
Qed.

Lemma put_chars_spec buflen l : ∀ out,
  Z.of_nat (length out) ≤ buflen →
  put_chars buflen out l =
  if bool_decide (Z.of_nat (length out + length l) ≤ buflen) then Some (out ++ l) else None.
Proof.
  induction l as [|c l IH]; intros out Ho; cbn [put_chars].
  { rewrite bool_decide_true by (simpl; lia). by rewrite app_nil_r. }
  destruct (Z.leb_spec buflen (Z.of_nat (length out))).
  { rewrite bool_decide_false by (simpl; lia). done. }
  rewrite IH by (rewrite length_app; simpl; lia). rewrite length_app. simpl.
  rewrite <-app_assoc. simpl. do 2 (case_bool_decide; try lia); done.
Qed.

Definition octets_text (aps : list Z) : list ascii :=
  concat ((λ ap, print_uint 10 ap ++ ["."%char]) <$> aps).

Lemma put_octets_spec buflen aps : ∀ out,
  Forall byte_ok aps → Z.of_nat (length out) ≤ buflen →
  put_octets buflen out aps =
  if bool_decide (Z.of_nat (length out + length (octets_text aps)) ≤ buflen)
  then Some (out ++ octets_text aps) else None.
Proof.
  induction aps as [|ap aps IH]; intros out Hok Ho; cbn [put_octets].
  { rewrite bool_decide_true by (simpl; lia). by rewrite app_nil_r. }
  apply Forall_cons in Hok as [Hap Hok].
  destruct (octet_text ap Hap) as (inv & -> & Hinv & _). simpl. rewrite Hinv.
  rewrite put_chars_spec by done.
  change (octets_text (ap :: aps)) with ((print_uint 10 ap ++ ["."%char]) ++ octets_text aps).
  rewrite (length_app (_ ++ _)). case_bool_decide as H1; simpl.
  - rewrite IH by (done || rewrite length_app; lia). rewrite !length_app in *. simpl in *.
    rewrite !app_assoc. do 2 (case_bool_decide; try lia); done.
  - rewrite bool_decide_false by lia. done.
Qed.

Lemma octets_dotted b0 b1 b2 b3 :
  octets_text [b0; b1; b2; b3] = dotted b0 b1 b2 b3 ++ ["."%char].
Proof.
  unfold octets_text, dotted. cbn [fmap list_fmap concat]. rewrite app_nil_r.
  by rewrite <-!app_assoc; simpl; rewrite <-!app_assoc; simpl; rewrite <-!app_assoc.
Qed.

Lemma print_byte_length v : byte_ok v → (0 < length (print_uint 10 v) ≤ 3)%nat.
Proof.
  intros Hv. destruct (octet_text v Hv) as (inv & _ & <- & Hl). by rewrite length_rev.
Qed.

Lemma ntoa_r_text addr buflen :
  0 ≤ buflen →
  let txt := dotted (byte_at addr 0) (byte_at addr 1) (byte_at addr 2) (byte_at addr 3) in
  ip4addr_ntoa_r addr buflen =
    (if bool_decide (Z.of_nat (length txt) + 1 ≤ buflen) then Some txt else None) ∧
  (7 ≤ length txt ≤ 15)%nat.
Proof.
  intros Hb txt. unfold ip4addr_ntoa_r. rewrite put_octets_spec; [|by repeat constructor;
    try apply byte_at_ok|done].
  rewrite octets_dotted. fold txt. rewrite length_app. split.
  - cbn [length]. do 2 (case_bool_decide; try lia); [|done]. cbn [mbind option_bind app].
    by rewrite removelast_last.
  - subst txt. unfold dotted. repeat (rewrite length_app; cbn [length]).
    pose proof (print_byte_length _ (byte_at_ok addr 0)).
    pose proof (print_byte_length _ (byte_at_ok addr 1)).
    pose proof (print_byte_length _ (byte_at_ok addr 2)).
    pose proof (print_byte_length _ (byte_at_ok addr 3)). lia.
Qed.

(** An address prints as its four bytes in decimal, with dots between, and
    nothing is written past the buffer: NULL is returned exactly when the text
    with its NUL does not fit.  Sixteen bytes are enough for any address. *)
Theorem ip4addr_ntoa_r_text addr buflen :
  0 ≤ buflen →
  let txt := dotted (byte_at addr 0) (byte_at addr 1) (byte_at addr 2) (byte_at addr 3) in
  ip4addr_ntoa_r addr buflen =
    (if bool_decide (Z.of_nat (length txt) + 1 ≤ buflen) then Some txt else None) ∧
  (7 ≤ length txt ≤ 15)%nat.
Proof. apply ntoa_r_text. Qed.

Lemma ip4addr_ntoa_r_text_witness :
  let txt := dotted (byte_at 0xC8A80A0A 0) (byte_at 0xC8A80A0A 1) (byte_at 0xC8A80A0A 2)
    (byte_at 0xC8A80A0A 3) in
  ip4addr_ntoa_r 0xC8A80A0A 10 =
    (if bool_decide (Z.of_nat (length txt) + 1 ≤ 10) then Some txt else None) ∧
  (7 ≤ length txt ≤ 15)%nat.
Proof. apply (ip4addr_ntoa_r_text 0xC8A80A0A 10). lia. Defined.

(** The static buffer of [ip4addr_ntoa] is large enough. *)
Lemma ip4addr_ntoa_dotted addr :
  ip4addr_ntoa addr =
  Some (dotted (byte_at addr 0) (byte_at addr 1) (byte_at addr 2) (byte_at addr 3)).
Proof.
  unfold ip4addr_ntoa. destruct (ntoa_r_text addr IP4ADDR_STRLEN_MAX) as [-> Hl]; [done|].
  by rewrite bool_decide_true by (unfold IP4ADDR_STRLEN_MAX; lia).
Qed.

(** ** Reading it back *)

(** Reading a part that was printed, before a dot and at the end. *)
Lemma read_part_dot v r :
  byte_ok v → read_part (print_uint 10 v ++ "."%char :: r) = (v, "."%char :: r).
Proof.
  intros Hv. assert (Hin : v ∈ seqZ 0 256) by (apply elem_of_seqZ; unfold byte_ok in Hv; lia).
  clear Hv. revert v Hin. apply Forall_forall.
  change (seqZ 0 256) with ltac:(let t := eval vm_compute in (seqZ 0 256) in exact t).
  repeat (constructor; [vm_compute; reflexivity|]). constructor.
Qed.

Definition end_check (v : Z) : bool :=
  let '(n, l) := read_part (print_uint 10 v) in (n =? v) && bool_decide (l = []).

Lemma read_part_end v : byte_ok v → read_part (print_uint 10 v) = (v, []).
Proof.
  intros Hv. assert (Hc : end_check v = true)
    by (apply every_byte; [vm_compute; reflexivity|done]).
  unfold end_check in Hc. destruct (read_part (print_uint 10 v)) as [n l].
  by apply andb_true_iff in Hc as [->%Z.eqb_eq ->%bool_decide_eq_true].
Qed.

Lemma print_byte_digit v l : byte_ok v → lwip_isdigit (at_cp (print_uint 10 v ++ l)) = true.
Proof.
  intros Hv. destruct (print_uint 10 v) as [|c t] eqn:E.
  - pose proof (print_byte_length v Hv) as Hl. rewrite E in Hl. simpl in Hl. lia.
  - assert (Hd : lwip_isdigit (at_cp (print_uint 10 v)) = true).
    { revert Hv. apply (every_byte (λ v, lwip_isdigit (at_cp (print_uint 10 v)))).
      vm_compute. reflexivity. }
    by rewrite E in Hd.
Qed.

(** C33: reading what was printed gives the address back. *)
Theorem ip4addr_aton_ntoa addr txt :
  0 ≤ addr < 4294967296 → ip4addr_ntoa addr = Some txt → ip4addr_aton txt = Some addr.
Proof.
  intros Ha. rewrite ip4addr_ntoa_dotted. intros [= <-].
  pose proof (byte_at_ok addr 0) as H0. pose proof (byte_at_ok addr 1) as H1.
  pose proof (byte_at_ok addr 2) as H2. pose proof (byte_at_ok addr 3) as H3.
  rewrite <-(le32_bytes addr Ha) at 5.
  set (b0 := byte_at addr 0) in *. set (b1 := byte_at addr 1) in *.
  set (b2 := byte_at addr 2) in *. set (b3 := byte_at addr 3) in *. clearbody b0 b1 b2 b3.
  unfold ip4addr_aton, dotted. cbn [read_parts].
  rewrite print_byte_digit, read_part_dot by done. simpl negb. cbv iota. simpl at_cp.
  rewrite decide_True by done. cbn [length tail app]. simpl (3 <=? _). cbv iota.
  rewrite print_byte_digit, read_part_dot by done. simpl negb. cbv iota. simpl at_cp.
  rewrite decide_True by done. cbn [length tail app]. simpl (3 <=? _). cbv iota.
  rewrite print_byte_digit, read_part_dot by done. simpl negb. cbv iota. simpl at_cp.
  rewrite decide_True by done. cbn [length tail app]. simpl (3 <=? _). cbv iota.
  rewrite <-(app_nil_r (print_uint 10 b3)) at 1.
  rewrite print_byte_digit, read_part_end by done. simpl negb. cbv iota. simpl at_cp.
  rewrite decide_False by done.
  change (3 <=? Z.of_nat 0) with false. change (3 <=? Z.of_nat 1) with false.
  change (3 <=? Z.of_nat 2) with false. cbv iota. cbn [mbind option_bind at_cp].
  rewrite (bool_decide_false (nul ≠ nul)) by naive_solver. rewrite andb_false_l.
  unfold byte_ok in *. rewrite !(proj2 (Z.ltb_ge 255 _)) by lia. cbn [orb mbind option_bind].
  f_equal. rewrite Z.lor_comm. change (Z.lor _ b3) with (be32 b0 b1 b2 b3).
  rewrite <-le32_be32, lwip_htonl_bytes.
  destruct (byte_at_le32 b3 b2 b1 b0) as (-> & -> & -> & ->); [done..|].
  by rewrite le32_be32.
Qed.

Lemma ip4addr_aton_ntoa_witness :
  ip4addr_aton (string_chars "10.0.2.15") = Some 0x0F02000A.
Proof. apply (ip4addr_aton_ntoa 0x0F02000A (string_chars "10.0.2.15")); [lia|reflexivity]. Defined.

(** ** Netmasks *)

(** The bits from [n] down: the first loop, until the first zero, and the
    second one, which looks for a one after it. *)
Fixpoint no_ones (n : nat) (nm : Z) : bool :=
  match n with
  | O => true
  | S n => if negb (Z.land nm (Z.shiftl 1 (Z.of_nat n)) =? 0) then false else no_ones n nm
  end.

Fixpoint first_zero (n : nat) (nm : Z) : bool :=
  match n with
  | O => true
  | S n' =>
      if Z.land nm (Z.shiftl 1 (Z.of_nat n')) =? 0 then no_ones n nm else first_zero n' nm
  end.

Definition ip4_addr_netmask_valid (netmask : Z) : bool := first_zero 32 (lwip_htonl netmask).

Lemma land_bit x n : 0 ≤ n → (Z.land x (Z.shiftl 1 n) =? 0) = negb (Z.testbit x n).
Proof.
  intros Hn. rewrite Z.shiftl_1_l. destruct (Z.testbit x n) eqn:E; simpl.
  - apply Z.eqb_neq. intros E'. apply (f_equal (λ z, Z.testbit z n)) in E'.
    by rewrite Z.land_spec, E, Z.pow2_bits_true, Z.bits_0 in E'.
  - apply Z.eqb_eq, Z.bits_inj'. intros i Hi. rewrite Z.land_spec, Z.bits_0.
    destruct (decide (i = n)) as [->|]; [by rewrite E|].
    by rewrite Z.pow2_bits_false, andb_false_r.
Qed.

Lemma no_ones_spec n nm :
  no_ones n nm = true ↔ ∀ i, 0 ≤ i < Z.of_nat n → Z.testbit nm i = false.
Proof.
  induction n as [|n IH]; cbn [no_ones]; [split; [lia|done]|].
  rewrite land_bit, negb_involutive by lia. destruct (Z.testbit nm (Z.of_nat n)) eqn:E.
  - split; [done|]. intros Hb. rewrite Hb in E by lia. done.
  - rewrite IH. split; intros Hb i Hi; [|apply Hb; lia].
    destruct (decide (i = Z.of_nat n)) as [->|]; [done|]. apply Hb. lia.
Qed.

Lemma first_zero_spec n nm :
  first_zero n nm = true ↔ ∃ k, 0 ≤ k ≤ Z.of_nat n ∧
    ∀ i, 0 ≤ i < Z.of_nat n → Z.testbit nm i = (k <=? i).
Proof.
  induction n as [|n IH]; cbn [first_zero].
  { split; [|done]. intros _. exists 0. split; [lia|]. intros; lia. }
  rewrite land_bit by lia. destruct (Z.testbit nm (Z.of_nat n)) eqn:E; simpl negb; cbv iota.
  - rewrite IH. split; intros (k & Hk & Hb).
    + exists k. split; [lia|]. intros i Hi.
      destruct (decide (i = Z.of_nat n)) as [->|]; [|apply Hb; lia].
      rewrite E. symmetry. apply Z.leb_le. lia.
    + exists (Z.min k (Z.of_nat n)). split; [lia|]. intros i Hi. rewrite Hb by lia.
      rewrite Hb in E by lia. apply Z.leb_le in E. f_equal. lia.
  - rewrite no_ones_spec. split.
    + intros Hz. exists (Z.of_nat (S n)). split; [lia|]. intros i Hi. rewrite Hz by done.
      symmetry. apply Z.leb_gt. lia.
    + intros (k & Hk & Hb) i Hi. rewrite Hb by done. rewrite Hb in E by lia.
      apply Z.leb_gt in E. apply Z.leb_gt. lia.
Qed.

(** A netmask is valid exactly when, in host order, it is ones followed by
    zeros. *)
Theorem ip4_addr_netmask_valid_spec netmask :
  0 ≤ netmask < 4294967296 →
  ip4_addr_netmask_valid netmask = true ↔
  ∃ k, 0 ≤ k ≤ 32 ∧ lwip_htonl netmask = 2 ^ 32 - 2 ^ k.
Proof.
  intros Hm. unfold ip4_addr_netmask_valid. rewrite first_zero_spec.
  change (Z.of_nat 32) with 32. set (nm := lwip_htonl netmask).
  assert (Hnm : 0 ≤ nm < 2 ^ 32).
  { subst nm. rewrite lwip_htonl_bytes. apply be32_range; apply byte_at_ok. }
  assert (Hbits : ∀ k i, 0 ≤ k ≤ 32 → 0 ≤ i → Z.testbit (2 ^ 32 - 2 ^ k) i = (k <=? i) && (i <? 32)).
  { intros k i Hk Hi. replace (2 ^ 32 - 2 ^ k) with (Z.shiftl (Z.ones (32 - k)) k).
    - rewrite Z.shiftl_spec by lia. destruct (Z.leb_spec k i).
      + rewrite Z.testbit_ones_nonneg by lia. simpl.
        destruct (Z.ltb_spec (i - k) (32 - k)), (Z.ltb_spec i 32); lia.
      + by rewrite Z.testbit_neg_r by lia.
    - rewrite Z.shiftl_mul_pow2, Z.ones_equiv by lia.
      rewrite Z.mul_pred_l, <-Z.pow_add_r by lia. f_equal. f_equal. lia. }
  split; intros (k & Hk & Hb); exists k; (split; [done|]).
  - apply Z.bits_inj'. intros i Hi. rewrite Hbits by lia. destruct (Z.ltb_spec i 32).
    + rewrite andb_true_r. apply Hb. lia.
    + rewrite andb_false_r. apply (testbit_high nm 32); lia.
  - intros i Hi. rewrite Hb, Hbits by lia. by rewrite (proj2 (Z.ltb_lt i 32)), andb_true_r by lia.
Qed.

Lemma ip4_addr_netmask_valid_spec_witness :
  ip4_addr_netmask_valid 0x00FFFFFF = true ↔
  ∃ k, 0 ≤ k ≤ 32 ∧ lwip_htonl 0x00FFFFFF = 2 ^ 32 - 2 ^ k.
Proof. apply (ip4_addr_netmask_valid_spec 0x00FFFFFF). lia. Defined.
