(* ===== verification/Net.v ===== *)
(** The state of lwIP between the packet buffers and the driver, and
    [lwip/src/netif/ethernet.c] for outgoing packets: the structures and pools of
    [PbufMem], the memory the payloads are in, byte by byte, the network
    interfaces, the ARP table with its queues, and the frames handed to the
    driver.  [pbuf_copy] and [pbuf_clone] of [lwip/src/core/pbuf.c], which move
    bytes, are here too. *)
From stdpp Require Import base tactics numbers list gmap.
From S2P Require Import Prelude Words Def Ip4Addr Memp PbufMem.

(** ** Bytes in memory *)

Notation memory := (Z → Z).

Definition mem_read (a : Z) (n : nat) (m : memory) : list Z := (λ i, m (a + Z.of_nat i)) <$> seq 0 n.
Definition mem_write (a : Z) (l : list Z) (m : memory) : memory :=
  λ x, if x <? a then m x else default (m x) (l !! Z.to_nat (x - a)).

(** ** Constants *)

Definition ERR_OK : Z := 0.
Definition ERR_MEM : Z := -1.
Definition ERR_BUF : Z := -2.
Definition ERR_RTE : Z := -4.
Definition ERR_VAL : Z := -6.
Definition ERR_ARG : Z := -16.

Definition ETH_HWADDR_LEN : Z := 6.
Definition SIZEOF_ETH_HDR : Z := 14.
Definition ETHTYPE_IP : Z := 0x0800.
Definition ETHTYPE_ARP : Z := 0x0806.
Definition ethbroadcast : list Z := [0xff; 0xff; 0xff; 0xff; 0xff; 0xff].
Definition ethzero : list Z := [0; 0; 0; 0; 0; 0].

(** ** Data *)

Record netif := Netif {
  ip_addr : Z;
  netmask : Z;
  gw : Z;
  n_hwaddr : list Z;
  n_hwaddr_len : Z;
  n_flags : Z;
  n_mtu : Z;
  n_num : Z
}.

Definition NETIF_FLAG_BROADCAST : Z := 0x02.

(** Tests on addresses, in network byte order. *)
Definition ip4_addr_net_eq (addr1 addr2 mask : Z) : bool := Z.land addr1 mask =? Z.land addr2 mask.
Definition ip4_addr_ismulticast (addr : Z) : bool := Z.land addr (PP_HTONL 0xf0000000) =? PP_HTONL 0xe0000000.
Definition ip4_addr_islinklocal (addr : Z) : bool := Z.land addr (PP_HTONL 0xffff0000) =? PP_HTONL 0xa9fe0000.
Definition ip4_addr_isany_val (addr : Z) : bool := addr =? IPADDR_ANY.

Definition ip4_addr_isbroadcast_u32 (addr : Z) (n : netif) : bool :=
  if (u32 (Z.lnot addr) =? IPADDR_ANY) || (addr =? IPADDR_ANY) then true
  else if Z.land (n_flags n) NETIF_FLAG_BROADCAST =? 0 then false
  else if addr =? ip_addr n then false
  else ip4_addr_net_eq addr (ip_addr n) (netmask n) &&
       (Z.land addr (u32 (Z.lnot (netmask n))) =? Z.land IPADDR_BROADCAST (u32 (Z.lnot (netmask n)))).

Record etharp_entry := EtharpEntry {
  e_q : Z;
  e_ipaddr : Z;
  e_netif : Z;
  e_ethaddr : list Z;
  e_ctime : Z;
  e_state : Z
}.

Record etharp_q_entry := EtharpQEntry { q_next : Z; q_p : Z }.

(** A frame as the driver sees it: the data of its pbufs. *)
Notation frame := (list (list Z)).

Section net.
Context {PP PR H PQ : Type} `{Pool PP, Pool PR, Heap H, Pool PQ}.

(** [arp_queue] has the allocated elements of the pool MEMP_ARP_QUEUE, [wire] the
    frames handed to the driver, the oldest first. *)
Record net := Net {
  pm : pmem PP PR H;
  bytes : memory;
  netifs : gmap Z netif;
  wire : list frame;
  arp_table : list etharp_entry;
  etharp_cached_entry : Z;
  arp_queue : gmap Z etharp_q_entry;
  arp_pool : PQ
}.

Definition set_pm (f : pmem PP PR H → pmem PP PR H) (s : net) : net :=
  Net (f (pm s)) (bytes s) (netifs s) (wire s) (arp_table s) (etharp_cached_entry s) (arp_queue s) (arp_pool s).
Definition set_bytes (f : memory → memory) (s : net) : net :=
  Net (pm s) (f (bytes s)) (netifs s) (wire s) (arp_table s) (etharp_cached_entry s) (arp_queue s) (arp_pool s).
Definition set_wire (f : list frame → list frame) (s : net) : net :=
  Net (pm s) (bytes s) (netifs s) (f (wire s)) (arp_table s) (etharp_cached_entry s) (arp_queue s) (arp_pool s).
Definition set_table (f : list etharp_entry → list etharp_entry) (s : net) : net :=
  Net (pm s) (bytes s) (netifs s) (wire s) (f (arp_table s)) (etharp_cached_entry s) (arp_queue s) (arp_pool s).
Definition set_cached (i : Z) (s : net) : net :=
  Net (pm s) (bytes s) (netifs s) (wire s) (arp_table s) i (arp_queue s) (arp_pool s).
Definition set_queue (f : gmap Z etharp_q_entry → gmap Z etharp_q_entry) (s : net) : net :=
  Net (pm s) (bytes s) (netifs s) (wire s) (arp_table s) (etharp_cached_entry s) (f (arp_queue s)) (arp_pool s).
Definition set_pool (p : PQ) (s : net) : net :=
  Net (pm s) (bytes s) (netifs s) (wire s) (arp_table s) (etharp_cached_entry s) (arp_queue s) p.

(** ** Access *)

Definition on_pm {A} (m : M (pmem PP PR H) A) : M net A := zoom pm (λ p, set_pm (λ _, p)) m.
Definition on_pool {A} (m : M PQ A) : M net A := zoom arp_pool set_pool m.

Definition rd_pbuf (p : Z) : M net pbuf_s := on_pm (rd p).
Definition rd_netif (nif : Z) : M net netif := gets (λ s, netifs s !! nif) ≫= of_option.

Definition rd_bytes (a : Z) (n : nat) : M net (list Z) := gets (λ s, mem_read a n (bytes s)).
Definition wr_bytes (a : Z) (l : list Z) : M net unit := modify (set_bytes (mem_write a l)).

(** A [u8_t], [u16_t] and [u32_t] in memory; the processor is little-endian. *)
Definition le_bytes (n : nat) (x : Z) : list Z := (λ i, byte_at x (Z.of_nat i)) <$> seq 0 n.
Fixpoint le_value (l : list Z) : Z := match l with [] => 0 | b :: l => b + 256 * le_value l end.
Definition rd8 (a : Z) : M net Z := le_value <$> rd_bytes a 1.
Definition rd16 (a : Z) : M net Z := le_value <$> rd_bytes a 2.
Definition rd32 (a : Z) : M net Z := le_value <$> rd_bytes a 4.
Definition wr8 (a x : Z) : M net unit := wr_bytes a (le_bytes 1 x).
Definition wr16 (a x : Z) : M net unit := wr_bytes a (le_bytes 2 x).
Definition wr32 (a x : Z) : M net unit := wr_bytes a (le_bytes 4 x).

(** A pointer to an Ethernet address, as what it points to when it is read. *)
Definition eth_addr : Type := M net (list Z).
Definition hwaddr (nif : Z) : eth_addr := n_hwaddr <$> rd_netif nif.
Definition at_addr (a : Z) : eth_addr := rd_bytes a 6.
Definition to_const (l : list Z) : eth_addr := mret l.

Section code.
(** The release function of custom pbufs, and what the driver answers, which may
    depend on all the frames it was given. *)
Context (custom_free : Z → M (pmem PP PR H) unit) (link_err : list frame → Z).

(** ** Packets *)

(** The data of the pbufs of a chain, from the first to the last. *)
Fixpoint chain_data (n : nat) (p : Z) : M net frame :=
  match n with
  | O => fail OutOfFuel
  | S n =>
      if p =? NULL then mret []
      else
        b ← rd_pbuf p;
        d ← rd_bytes (b_payload b) (Z.to_nat (b_len b));
        ds ← chain_data n (b_next b);
        mret (d :: ds)
  end.

(** [netif->linkoutput(netif, p)]. *)
Definition linkoutput (p : Z) : M net Z :=
  n ← gets (λ s, size (store (pm s)));
  f ← chain_data (S n) p;
  modify (set_wire (λ w, w ++ [f]));;
  w ← gets wire;
  mret (link_err w).

Definition ethernet_output (nif p : Z) (src dst : eth_addr) (eth_type : Z) : M net Z :=
  r ← on_pm (pbuf_add_header p SIZEOF_ETH_HDR);
  if negb (r =? 0) then mret ERR_BUF
  else
    b ← rd_pbuf p;
    let ethhdr := b_payload b in
    wr16 (ethhdr + 12) (lwip_htons eth_type);;
    d ← dst; wr_bytes ethhdr d;;
    a ← src; wr_bytes (ethhdr + 6) a;;
    n ← rd_netif nif;
    assert_that (n_hwaddr_len n =? ETH_HWADDR_LEN);;
    linkoutput p.

(** ** Copies of packets *)

(** [(p != NULL) && (p->len == p->tot_len)] and [p->next != NULL]: another packet
    follows. *)
Definition queue_follows (p : Z) : M net bool :=
  if p =? NULL then mret false
  else b ← rd_pbuf p; mret ((b_len b =? b_tot_len b) && negb (b_next b =? NULL)).

Fixpoint copy_loop (n : nat) (p_to p_from offset_to offset_from copy_len : Z) : M net Z :=
  match n with
  | O => fail OutOfFuel
  | S n =>
      t ← rd_pbuf p_to;
      f ← rd_pbuf p_from;
      let room := u32 (b_len t - offset_to) in
      let have := u32 (b_len f - offset_from) in
      let len := Z.min copy_len (if have <=? room then have else room) in
      d ← rd_bytes (b_payload f + offset_from) (Z.to_nat len);
      wr_bytes (b_payload t + offset_to) d;;
      let offset_to := offset_to + len in
      let offset_from := offset_from + len in
      let copy_len := u16 (copy_len - len) in
      assert_that (offset_to <=? b_len t);;
      assert_that (offset_from <=? b_len f);;
      let from_done := b_len f <=? offset_from in
      let p_from := if from_done then b_next f else p_from in
      let offset_from := if from_done then 0 else offset_from in
      if from_done && (p_from =? NULL) && negb (copy_len =? 0) then mret ERR_ARG
      else
        let to_done := offset_to =? b_len t in
        let p_to := if to_done then b_next t else p_to in
        let offset_to := if to_done then 0 else offset_to in
        if to_done && (p_to =? NULL) && negb (copy_len =? 0) then mret ERR_ARG
        else
          qf ← queue_follows p_from;
          if qf : bool then mret ERR_VAL
          else
            qt ← queue_follows p_to;
            if qt : bool then mret ERR_VAL
            else if copy_len =? 0 then mret ERR_OK
            else copy_loop n p_to p_from offset_to offset_from copy_len
  end.

(** Each turn goes on to the next pbuf of one of the chains or is the last. *)
Definition pbuf_copy_partial_pbuf (p_to p_from copy_len offset : Z) : M net Z :=
  if p_from =? NULL then mret ERR_ARG
  else
    f ← rd_pbuf p_from;
    if b_tot_len f <? copy_len then mret ERR_ARG
    else if p_to =? NULL then mret ERR_ARG
    else
      t ← rd_pbuf p_to;
      if b_tot_len t <? offset + copy_len then mret ERR_ARG
      else
        n ← gets (λ s, size (store (pm s)));
        copy_loop (S (n + n)) p_to p_from offset 0 copy_len.

Definition pbuf_copy (p_to p_from : Z) : M net Z :=
  if p_from =? NULL then mret ERR_ARG
  else f ← rd_pbuf p_from; pbuf_copy_partial_pbuf p_to p_from (b_tot_len f) 0.

Definition pbuf_clone (layer : pbuf_layer) (type : pbuf_type) (p : Z) : M net Z :=
  b ← rd_pbuf p;
  q ← on_pm (pbuf_alloc custom_free layer (b_tot_len b) type);
  if q =? NULL then mret NULL
  else
    err ← pbuf_copy q p;
    assert_that (err =? ERR_OK);;
    mret q.
End code.
End net.

Arguments net : clear implicits.
