(* ===== verification/NetThm.v ===== *)
(** What the functions of [Net] do: memory byte by byte, the packets of the pools
    and the heap with their contents, and the frame [ethernet_output] hands to the
    driver. *)
From stdpp Require Import base tactics numbers list gmap.
From S2P Require Import Prelude Words Def Checksum Memp PbufMem PbufThm PbufOps Net.

(** ** Memory *)

Lemma length_mem_read a n m : length (mem_read a n m) = n.
Proof. unfold mem_read. by rewrite length_fmap, length_seq. Qed.

Lemma mem_read_lookup a n m i : (i < n)%nat → mem_read a n m !! i = Some (m (a + Z.of_nat i)).
Proof. intros Hi. unfold mem_read. by rewrite list_lookup_fmap, lookup_seq_lt. Qed.

(** The memories agree but for the bytes from [lo] to below [hi]. *)
Definition off (lo hi : Z) (m m' : memory) : Prop := ∀ x, x < lo ∨ hi ≤ x → m' x = m x.

Lemma off_refl lo hi m : off lo hi m m.
Proof. by intros x Hx. Qed.

Lemma off_trans lo hi m1 m2 m3 : off lo hi m1 m2 → off lo hi m2 m3 → off lo hi m1 m3.
Proof. intros H1 H2 x Hx. by rewrite H2, H1. Qed.

Lemma off_wider lo hi lo' hi' m m' : off lo hi m m' → lo' ≤ lo → hi ≤ hi' → off lo' hi' m m'.
Proof. intros Ho ?? x Hx. apply Ho. lia. Qed.

Lemma mem_write_off a l m : off a (a + Z.of_nat (length l)) m (mem_write a l m).
Proof.
  intros x Hx. unfold mem_write. destruct (Z.ltb_spec x a); [done|].
  by rewrite lookup_ge_None_2 by lia.
Qed.

Lemma off_write a l lo hi m m' :
  off lo hi m m' → lo ≤ a → a + Z.of_nat (length l) ≤ hi → off lo hi m (mem_write a l m').
Proof. intros Ho ??. eapply off_trans; [done|]. eapply off_wider; [apply mem_write_off|done..]. Qed.

Lemma mem_read_off a n lo hi m m' : off lo hi m m' → a + Z.of_nat n ≤ lo ∨ hi ≤ a → mem_read a n m' = mem_read a n m.
Proof.
  intros Ho Hd. apply list_fmap_ext. intros i x Hx. apply lookup_seq in Hx as [-> Hi]. apply Ho. lia.
Qed.

Lemma mem_read_write a l m : mem_read a (length l) (mem_write a l m) = l.
Proof.
  apply list_eq_same_length with (length l); [done|by rewrite length_mem_read|]. intros i x y Hi Hx Hy.
  rewrite mem_read_lookup in Hx by done. injection Hx as <-. unfold mem_write.
  rewrite (proj2 (Z.ltb_ge _ _)) by lia. replace (Z.to_nat (a + Z.of_nat i - a)) with i by lia. by rewrite Hy.
Qed.

Lemma mem_read_written a n l m : length l = n → mem_read a n (mem_write a l m) = l.
Proof. intros <-. apply mem_read_write. Qed.

Lemma mem_read_app a n k m : mem_read a (n + k) m = mem_read a n m ++ mem_read (a + Z.of_nat n) k m.
Proof.
  unfold mem_read. rewrite seq_app, fmap_app. f_equal. simpl.
  replace (seq n k) with (Nat.add n <$> seq 0 k) by (rewrite fmap_add_seq; f_equal; lia). rewrite <-list_fmap_compose.
  apply list_fmap_ext. intros i x _. simpl. f_equal. lia.
Qed.

Lemma length_le_bytes n x : length (le_bytes n x) = n.
Proof. unfold le_bytes. by rewrite length_fmap, length_seq. Qed.

(** A 16-bit number in network order. *)
Definition be16 (x : Z) : list Z := [byte_at x 1; byte_at x 0].

Lemma le_bytes_htons x : 0 ≤ x < 65536 → le_bytes 2 (lwip_htons x) = be16 x.
Proof.
  intros Hx. rewrite htons_bytes by done. pose proof (byte_at_ok x 0). pose proof (byte_at_ok x 1). unfold byte_ok in *.
  unfold be16, le_bytes. cbn [seq fmap list_fmap]. rewrite !(byte_at_div (_ + _)) by lia.
  change (2 ^ (8 * Z.of_nat 0)) with 1. change (2 ^ (8 * Z.of_nat 1)) with 256. rewrite Z.div_1_r.
  f_equal; [|f_equal]; Z.div_mod_to_equations; lia.
Qed.

(** Writing keeps what was written elsewhere. *)
Lemma mem_read_write_other a n b l m :
  a + Z.of_nat n ≤ b ∨ b + Z.of_nat (length l) ≤ a → mem_read a n (mem_write b l m) = mem_read a n m.
Proof. intros Hd. eapply mem_read_off; [apply mem_write_off|lia]. Qed.

(** ** Packets *)

(** Lengths fit, and pbufs of MEMP_PBUF have their data elsewhere. *)
Definition shape (b : pbuf_s) : Prop :=
  0 ≤ b_tot_len b < 65536 ∧ (pbuf_get_allocsrc b = 1 → Z.land (b_type b) PBUF_TYPE_FLAG_STRUCT_DATA_CONTIGUOUS = 0).
Definition shaped (σ : bufs) : Prop := ∀ p b, σ !! p = Some b → shape b.

(** Pbufs with their data in their own memory. *)
Definition solid (σ : bufs) (l : list Z) : Prop := ∀ x b, x ∈ l → σ !! x = Some b → pbuf_get_allocsrc b ≠ 1.

Lemma shaped_insert σ p b : shaped σ → shape b → shaped (<[p := b]> σ).
Proof.
  intros Hw Hb q c. destruct (decide (q = p)) as [->|].
  - rewrite lookup_insert_eq. by intros [= <-].
  - rewrite lookup_insert_ne by done. apply Hw.
Qed.

Lemma shaped_release l σ : shaped σ → shaped (release l σ).1.
Proof.
  revert σ. induction l as [|x l IH]; intros σ Hw; simpl; [done|]. destruct (σ !! x) as [b|] eqn:Hb; [|done].
  destruct (b_ref b =? 1).
  - specialize (IH (delete x σ)). destruct (release l (delete x σ)) as [σ' k]. apply IH.
    intros p c [_ Hp]%lookup_delete_Some. by apply Hw in Hp.
  - apply shaped_insert; [done|]. by apply (Hw x b).
Qed.

Lemma shaped_grow n p σ : shaped σ → shaped (alter (grow n) p σ).
Proof.
  intros Hw q c. destruct (decide (q = p)) as [->|]; [|rewrite lookup_alter_ne by done; apply Hw].
  rewrite lookup_alter_eq. destruct (σ !! p) as [b|] eqn:Hb; [|done]. intros [= <-]. destruct (Hw p b Hb) as [_ Ht].
  split; [apply u16_range|exact Ht].
Qed.

Lemma lens_len_pos σ l tot rem x b : lens σ l tot rem → x ∈ l → σ !! x = Some b → 0 ≤ b_len b.
Proof.
  revert tot. induction l as [|y l IH]; intros tot; simpl; [by intros _ ?%elem_of_nil|].
  intros (c & Hc & _ & Hl & Hr) [->|Hx]%elem_of_cons Hb; [rewrite Hb in Hc; injection Hc as <-; lia|by eapply IH].
Qed.

(** A part of what was read. *)
Lemma mem_read_part a n m m' a' n' :
  mem_read a n m' = mem_read a n m → a ≤ a' → a' + Z.of_nat n' ≤ a + Z.of_nat n → mem_read a' n' m' = mem_read a' n' m.
Proof.
  intros E Hlo Hhi. apply list_fmap_ext. intros i x Hx. apply lookup_seq in Hx as [-> Hi]. simpl.
  assert (mem_read a n m' !! Z.to_nat (a' - a + Z.of_nat i) = mem_read a n m !! Z.to_nat (a' - a + Z.of_nat i)) as El by (by rewrite E).
  rewrite !mem_read_lookup in El by lia. injection El as El. by replace (a + Z.of_nat (Z.to_nat (a' - a + Z.of_nat i))) with (a' + Z.of_nat i) in El by lia.
Qed.

(** ** What releasing a packet leaves *)

(** The pbufs that are left are as they were, with at most as many references. *)
Definition fewer (σ σ' : bufs) : Prop :=
  ∀ x b', σ' !! x = Some b' → ∃ b r, σ !! x = Some b ∧ b' = set_ref r b ∧ r ≤ b_ref b.

Lemma fewer_refl σ : fewer σ σ.
Proof. intros x b Hb. exists b, (b_ref b). split_and!; [done|by destruct b|done]. Qed.

Lemma fewer_trans σ1 σ2 σ3 : fewer σ1 σ2 → fewer σ2 σ3 → fewer σ1 σ3.
Proof.
  intros H12 H23 x b3 (b2 & r & Hb2 & -> & Hr)%H23. destruct (H12 x b2 Hb2) as (b1 & r' & Hb1 & -> & Hr'). exists b1, r. simpl in Hr.
  split_and!; [done|done|lia].
Qed.

Lemma release_back l σ : fewer σ (release l σ).1.
Proof.
  revert σ. induction l as [|y l IH]; intros σ; simpl; [apply fewer_refl|].
  destruct (σ !! y) as [c|] eqn:Hc; [|apply fewer_refl]. destruct (b_ref c =? 1).
  - specialize (IH (delete y σ)). destruct (release l (delete y σ)) as [σ' k]. cbn [fst] in *.
    intros x b' (b & r & [_ Hb]%lookup_delete_Some & ? & ?)%IH. by exists b, r.
  - cbn [fst]. intros x b'. destruct (decide (x = y)) as [->|].
    + rewrite lookup_insert_eq. intros [= <-]. exists c, (b_ref c - 1). split_and!; [done|done|lia].
    + rewrite lookup_insert_ne by done. apply fewer_refl.
Qed.

Section net_thm.
Context {PP PR H PQ : Type} `{PoolLaws PP, PoolLaws PR, HeapLaws H, PoolLaws PQ}.
Context (custom_free : Z → M (pmem PP PR H) unit) (link_err : list frame → Z).
Context (EP ER : list Z) `{!Layout (PP := PP) (PR := PR) (H := H) EP ER}.

Notation net := (net PP PR H PQ).

(** The references of the clients are right, the memory is accounted for and the
    lengths fit. *)
Record pkt_ok (s : pmem PP PR H) (owners : list Z) : Prop := PktOk {
  po_refs : refs_ok (store s) owners;
  po_mem : mem_ok EP ER s;
  po_shaped : shaped (store s)
}.

Lemma pkt_ok_perm s owners owners' : owners ≡ₚ owners' → pkt_ok s owners → pkt_ok s owners'.
Proof. intros E [Hr Hm Hw]. split; [by eapply refs_ok_perm|done|done]. Qed.

Lemma pkt_null s owners : pkt_ok s owners → store s !! NULL = None.
Proof. intros [Hr _ _]. apply (ro_null _ _ Hr). Qed.

Lemma pkt_alloc s owners p : pkt_ok s owners → p ∈ owners → p ≠ NULL → is_Some (store s !! p).
Proof. intros [Hr _ _] Hp Hn. apply (ro_alloc _ _ Hr); [|done]. apply elem_of_app. by left. Qed.

Lemma pkt_chain s owners p : pkt_ok s owners → p ∈ owners → ∃ l, chain (store s) p l.
Proof.
  intros Ho Hp. destruct (decide (p = NULL)) as [->|Hn]; [by exists []|].
  apply (refs_ok_chain _ _ _ (po_refs _ _ Ho)). right. by eapply pkt_alloc.
Qed.

Lemma wp_free_pkt p owners s (Q : Z → pmem PP PR H → Prop) :
  pkt_ok s (p :: owners) → p ≠ NULL →
  (∀ r l s', chain (store s) p l → store s' = (release l (store s)).1 → pkt_ok s' owners → Q r s') →
  wp (pbuf_free custom_free p) Q s.
Proof.
  intros Ho Hp HQ. destruct (pkt_chain s _ p Ho) as [l Hl]; [by left|]. destruct Ho as [Hr Hm Hw].
  apply (wp_pbuf_free custom_free EP ER p l owners); [done..|]. intros s' Hr' Hm' Es'. apply (HQ _ l); [done|done|].
  split; [done|done|]. rewrite Es'. by apply shaped_release.
Qed.

Lemma wp_ref_pkt p b owners s (Q : unit → pmem PP PR H → Prop) :
  pkt_ok s owners → store s !! p = Some b → b_ref b < 255 →
  (pkt_ok (with_store s (<[p := set_ref (b_ref b + 1) b]> (store s))) (p :: owners) →
    Q tt (with_store s (<[p := set_ref (b_ref b + 1) b]> (store s)))) →
  wp (pbuf_ref p) Q s.
Proof.
  intros Ho Hb Hr HQ. assert (p ≠ NULL) as Hn by (intros ->; by rewrite (pkt_null _ _ Ho) in Hb).
  destruct Ho as [Ho Hm Hw]. destruct (ro_count _ _ Ho p b Hb) as [_ Hpos].
  apply (wp_pbuf_ref p b); [done|done|lia|]. apply HQ. split.
  - apply refs_ok_ref; [done|done|lia].
  - by apply (mem_ok_same EP ER s p b).
  - apply shaped_insert; [done|]. by apply (Hw p b).
Qed.

(** The heap has no block for a packet of [n] bytes. *)
Definition no_memory (layer : pbuf_layer) (n : Z) (s : pmem PP PR H) : Prop :=
  ∃ s', pbuf_alloc custom_free layer n PBUF_RAM s = (inl NULL, s').

Lemma wp_alloc_pkt layer n owners s (Q : Z → pmem PP PR H → Prop) :
  pkt_ok s owners → 0 ≤ n < 65536 →
  (∀ s', no_memory layer n s → store s' = store s → pkt_ok s' owners → Q NULL s') →
  (∀ q s', q ≠ NULL → store s !! q = None → store s' = <[q := ram_pbuf layer q n]> (store s) → pkt_ok s' (q :: owners) → Q q s') →
  wp (pbuf_alloc custom_free layer n PBUF_RAM) Q s.
Proof.
  intros [Hr Hm Hw] Hn Hno Hyes. apply wp_self, (wp_alloc_ram custom_free EP ER); [done|done| |].
  - intros s' Es' Hm' E. apply Hno; [by exists s'|done|]. split; [by rewrite Es'|done|by rewrite Es'].
  - intros q s' Hq Hnone Hm' Es' _. apply Hyes; [done..|]. split; [|done|]; rewrite Es'.
    + by apply refs_ok_new.
    + apply shaped_insert; [done|]. by split.
Qed.

Lemma grow_pkt p b n owners s :
  pkt_ok s owners → store s !! p = Some b → 0 < n → can_grow p b n false = true →
  pkt_ok (with_store s (alter (grow n) p (store s))) owners.
Proof.
  intros [Hr Hm Hw] Hb Hn Hg. assert (linked_as (store s) (alter (grow n) p (store s))) as Hlk.
  { eapply linked_as_at; [done|]. by eapply grown_kept. }
  split; [by eapply refs_ok_linked_as|by apply mem_ok_linked_as|by apply shaped_grow].
Qed.

(** ** Contents *)

Definition data_of (s : net) (x : Z) : list Z :=
  match store (pm s) !! x with Some b => mem_read (b_payload b) (Z.to_nat (b_len b)) (bytes s) | None => [] end.
Definition frame_of (s : net) (l : list Z) : frame := data_of s <$> l.

Lemma data_same s s' x :
  store (pm s') !! x = store (pm s) !! x → bytes s' = bytes s → data_of s' x = data_of s x.
Proof. intros E1 E2. unfold data_of. by rewrite E1, E2. Qed.

(** Writing in the block of one pbuf, in front of its data, leaves the data of the
    others as they are. *)
Lemma data_apart s owners lo hi m x y b c :
  pkt_ok (pm s) owners → store (pm s) !! x = Some b → store (pm s) !! y = Some c →
  pbuf_get_allocsrc b ≠ 1 → pbuf_get_allocsrc c ≠ 1 → x ≠ y →
  off lo hi (bytes s) m → x + SIZEOF_STRUCT_PBUF ≤ lo → hi ≤ b_payload b + b_len b →
  mem_read (b_payload c) (Z.to_nat (b_len c)) m = data_of s y.
Proof.
  intros [_ Hm _] Hb Hc Hsb Hsc Hne Hoff Hlo Hhi. unfold data_of. rewrite Hc.
  destruct (mo_data _ _ _ Hm x b Hb Hsb) as (_ & _ & Hlb & Hub).
  destruct (mo_data _ _ _ Hm y c Hc Hsc) as (_ & Hpc & Hlc & Huc). change SIZEOF_STRUCT_PBUF with 16 in *.
  eapply mem_read_off; [done|]. destruct (blocks_apart EP ER (pm s) x y b c Hm Hb Hc Hsb Hsc Hne); lia.
Qed.

Lemma wp_rd_pbuf p b (s : net) (Q : pbuf_s → net → Prop) : store (pm s) !! p = Some b → Q b s → wp (rd_pbuf p) Q s.
Proof. intros Hb HQ. apply wp_zoom, (wp_rd p b); [done|]. by destruct s. Qed.

Lemma wp_rd_netif nif n (s : net) (Q : netif → net → Prop) : netifs s !! nif = Some n → Q n s → wp (rd_netif nif) Q s.
Proof. intros Hn HQ. apply wp_bind, wp_gets. by apply wp_of_option with n. Qed.

Lemma wp_chain_data n p l (s : net) (Q : frame → net → Prop) :
  store (pm s) !! NULL = None → chain (store (pm s)) p l → (length l < n)%nat → Q (frame_of s l) s → wp (chain_data n p) Q s.
Proof.
  intros Hnull. revert p n Q. induction l as [|x l IH]; intros p [|n] Q Hl Hn HQ; simpl in *; try lia.
  - subst p. by apply wp_ret.
  - destruct Hl as (-> & b & Hb & Hl). rewrite (proj2 (Z.eqb_neq x NULL)) by (intros ->; by rewrite Hnull in Hb).
    apply wp_bind, (wp_rd_pbuf x b); [done|]. unfold rd_bytes. apply wp_bind, wp_gets, wp_bind. apply IH; [done|lia|].
    apply wp_ret. unfold frame_of, data_of in HQ. simpl in HQ. by rewrite Hb in HQ.
Qed.

(** [a] points to [d], wherever the bytes from [lo] to [hi] change. *)
Definition points (s : net) (lo hi : Z) (a : M net (list Z)) (d : list Z) : Prop :=
  length d = 6%nat ∧
  ∀ s', netifs s' = netifs s → arp_table s' = arp_table s → off lo hi (bytes s) (bytes s') → a s' = (inl d, s').

Lemma points_hwaddr s lo hi nif n : netifs s !! nif = Some n → length (n_hwaddr n) = 6%nat → points s lo hi (hwaddr nif) (n_hwaddr n).
Proof.
  intros Hn Hl. split; [done|]. intros s' En _ _. unfold hwaddr, rd_netif, fmap, M_fmap, mbind, M_bind, gets.
  by rewrite En, Hn.
Qed.

Lemma points_const s lo hi d : length d = 6%nat → points s lo hi (to_const d) d.
Proof. by intros Hl. Qed.

Lemma points_at s lo hi a : a + 6 ≤ lo ∨ hi ≤ a → points s lo hi (at_addr a) (mem_read a 6 (bytes s)).
Proof.
  intros Hd. split; [by rewrite length_mem_read|]. intros s' _ _ Hoff. unfold at_addr, rd_bytes, gets. do 2 f_equal.
  eapply mem_read_off; [done|]. lia.
Qed.

Lemma points_weaken s s' lo hi lo' hi' a d :
  points s lo hi a d → netifs s' = netifs s → arp_table s' = arp_table s → off lo hi (bytes s) (bytes s') →
  lo ≤ lo' → hi' ≤ hi → points s' lo' hi' a d.
Proof.
  intros [Hl Ha] En Et Hoff Hlo Hhi. split; [done|]. intros s2 En2 Et2 Hoff2. apply Ha; [congruence|congruence|].
  eapply off_trans; [exact Hoff|by eapply off_wider].
Qed.

Definition eth_header (dst src : list Z) (type : Z) : list Z := dst ++ src ++ be16 type.

(** With the header in front of its data, and [m] in memory. *)
Definition with_header (s : net) (p : Z) (m : memory) : net :=
  set_bytes (λ _, m) (set_pm (λ _, with_store (pm s) (alter (grow SIZEOF_ETH_HDR) p (store (pm s)))) s).

Lemma wp_ethernet_output nif n p l b src dst a d type owners (s : net) (Q : Z → net → Prop) :
  0 ≤ type < 65536 →   pkt_ok (pm s) owners → chain (store (pm s)) p l → store (pm s) !! p = Some b →
  netifs s !! nif = Some n → n_hwaddr_len n = ETH_HWADDR_LEN →
  points s (b_payload b - SIZEOF_ETH_HDR) (b_payload b) src a → points s (b_payload b - SIZEOF_ETH_HDR) (b_payload b) dst d →
  (if can_grow p b SIZEOF_ETH_HDR false then
     ∀ m, off (b_payload b - SIZEOF_ETH_HDR) (b_payload b) (bytes s) m →
       mem_read (b_payload b - SIZEOF_ETH_HDR) 14 m = eth_header d a type →
       let s' := with_header s p m in
       Q (link_err (wire s ++ [frame_of s' l])) (set_wire (λ w, w ++ [frame_of s' l]) s')
   else Q ERR_BUF s) →
  wp (ethernet_output link_err nif p src dst type) Q s.
Proof.
  intros Htype Ho Hl Hb Hn Hlen [La Ha] [Ld Hd] HQ. pose proof (pkt_null _ _ Ho) as Hnull.
  assert (p ≠ NULL) as Hp by (intros ->; by rewrite Hnull in Hb).
  unfold ethernet_output. apply wp_bind, wp_zoom. apply (wp_pbuf_add_header_impl p b); [done|done|done|by eapply po_shaped|].
  destruct (can_grow p b SIZEOF_ETH_HDR false) eqn:Hg; [|by destruct s].
  cbn [Z.eqb negb]. change SIZEOF_ETH_HDR with 14 in *. apply wp_bind, (wp_rd_pbuf p (grow 14 b)).
  { cbn. by rewrite lookup_alter_eq, Hb. }
  cbn [grow set_payload b_payload]. set (e := b_payload b - 14) in *.
  unfold wr16, wr_bytes. apply wp_bind, wp_modify, wp_bind.
  eapply wp_run; [apply Hd; [done|done|apply off_write; [apply off_refl|lia|rewrite length_le_bytes; lia]]|].
  apply wp_bind, wp_modify, wp_bind.
  eapply wp_run; [apply Ha; [done|done|]; cbn [bytes set_bytes]; apply off_write; [apply off_write; [apply off_refl|lia|rewrite length_le_bytes; lia]|lia|lia]|].
  apply wp_bind, wp_modify, wp_bind, (wp_rd_netif nif n); [done|].
  apply wp_bind, wp_assert; [by apply Z.eqb_eq|].
  set (m := mem_write (e + 6) a (mem_write e d (mem_write (e + 12) (le_bytes 2 (lwip_htons type)) (bytes s)))).
  assert (off e (b_payload b) (bytes s) m) as Hoff.
  { unfold m. apply off_write; [apply off_write; [apply off_write; [apply off_refl|..]|..]|..]; rewrite ?length_le_bytes; lia. }
  assert (mem_read e 14 m = eth_header d a type) as Hread.
  { change 14%nat with (6 + (6 + 2))%nat. rewrite !mem_read_app. unfold eth_header, m. f_equal; [|f_equal].
    - rewrite mem_read_write_other by lia. by apply mem_read_written.
    - by apply mem_read_written.
    - rewrite !mem_read_write_other by (rewrite ?La, ?Ld; lia). replace (e + Z.of_nat 6 + Z.of_nat 6) with (e + 12) by lia.
      rewrite mem_read_written by apply length_le_bytes. by apply le_bytes_htons. }
  specialize (HQ m Hoff Hread). cbv zeta in HQ. unfold linkoutput. apply wp_bind, wp_gets, wp_bind.
  assert (chain (alter (grow 14) p (store (pm s))) p l) as Hl'.
  { eapply chain_linked_as; [|done]. eapply linked_as_at; [done|]. by eapply grown_kept. }
  assert (alter (grow 14) p (store (pm s)) !! NULL = None) as Hnull' by (by rewrite lookup_alter_ne by done).
  apply (wp_chain_data _ p l); [done|done| |].
  { cbn. rewrite Nat.lt_succ_r. by eapply chain_size. }
  apply wp_bind, wp_modify, wp_bind, wp_gets, wp_ret. exact HQ.
Qed.

(** The bytes of a pbuf fit into 16 bits, with those in front of them. *)
Lemma data_len_small s owners p b :
  pkt_ok s owners → store s !! p = Some b → pbuf_get_allocsrc b ≠ 1 →
  p + SIZEOF_STRUCT_PBUF ≤ b_payload b ∧ 0 ≤ b_len b ∧ b_payload b + b_len b < p + 65536.
Proof.
  intros [_ Hm _] Hb Hs. destruct (mo_data _ _ _ Hm p b Hb Hs) as (_ & Hp & Hl & Hu). split_and!; [done|done|].
  enough (room_of (heap s) p b < 65536) by lia. unfold room_of. destruct (decide _) as [E|].
  - eapply heap_room_small; [apply (mo_heap _ _ _ Hm)|]. apply elem_addrs. by exists b.
  - by change (ELEMENT_SIZE < 65536).
Qed.

Lemma can_grow_room p b n :
  can_grow p b n false = true →
  Z.land (b_type b) PBUF_TYPE_FLAG_STRUCT_DATA_CONTIGUOUS ≠ 0 ∧ p + SIZEOF_STRUCT_PBUF ≤ b_payload b - n ∧ b_tot_len b + n < 65536.
Proof.
  unfold can_grow. intros [[_ Ht%Z.ltb_lt]%andb_true_iff Hc]%andb_true_iff. destruct (Z.eqb_spec (Z.land (b_type b) PBUF_TYPE_FLAG_STRUCT_DATA_CONTIGUOUS) 0); [done|].
  cbn [negb] in Hc. by apply Z.leb_le in Hc.
Qed.

(** The other packets keep their data when a header is written. *)
Lemma frame_other s owners p b l m :
  pkt_ok (pm s) owners → store (pm s) !! p = Some b → pbuf_get_allocsrc b ≠ 1 → can_grow p b SIZEOF_ETH_HDR false = true →
  off (b_payload b - SIZEOF_ETH_HDR) (b_payload b) (bytes s) m → p ∉ l → solid (store (pm s)) l →
  frame_of (with_header s p m) l = frame_of s l.
Proof.
  intros Ho Hb Hsb Hg Hoff Hp Hsol. apply list_fmap_ext. intros i x Hx. apply list_elem_of_lookup_2 in Hx.
  assert (x ≠ p) as Hxp by (intros ->; done). unfold data_of at 1. cbn. rewrite lookup_alter_ne by done.
  destruct (store (pm s) !! x) as [c|] eqn:Hc; [|by unfold data_of; rewrite Hc].
  destruct (data_len_small _ _ _ _ Ho Hb Hsb) as (_ & Hl & _). apply can_grow_room in Hg as (_ & Hlo & _).
  eapply (data_apart s owners _ _ _ p x b c); try done; [by eapply Hsol|lia].
Qed.

Lemma frame_with_header s owners p b l m d a type :
  pkt_ok (pm s) owners → store (pm s) !! p = Some b → solid (store (pm s)) (p :: l) → p ∉ l →
  can_grow p b SIZEOF_ETH_HDR false = true →
  off (b_payload b - SIZEOF_ETH_HDR) (b_payload b) (bytes s) m →
  mem_read (b_payload b - SIZEOF_ETH_HDR) 14 m = eth_header d a type →
  frame_of (with_header s p m) (p :: l) = (eth_header d a type ++ data_of s p) :: frame_of s l.
Proof.
  intros Ho Hb Hsol Hp Hg Hoff Hread. assert (pbuf_get_allocsrc b ≠ 1) as Hsb by (apply (Hsol p b); [by left|done]).
  cbn [frame_of fmap list_fmap]. f_equal.
  - assert (store (pm (with_header s p m)) !! p = Some (grow SIZEOF_ETH_HDR b)) as Hb' by (cbn; by rewrite lookup_alter_eq, Hb).
    unfold data_of at 1. rewrite Hb'. unfold grow. cbn [with_header set_bytes bytes].
    destruct (data_len_small _ _ _ _ Ho Hb Hsb) as (_ & Hl & Hu). apply can_grow_room in Hg as (_ & Hlo & _).
    change SIZEOF_ETH_HDR with 14 in *. change SIZEOF_STRUCT_PBUF with 16 in *. cbn [b_payload b_len set_payload set_lens].
    rewrite u16_id by lia. replace (Z.to_nat (b_len b + 14)) with (14 + Z.to_nat (b_len b))%nat by lia.
    rewrite mem_read_app, Hread. f_equal. unfold data_of. rewrite Hb.
    replace (b_payload b - 14 + Z.of_nat 14) with (b_payload b) by lia. eapply mem_read_off; [done|lia].
  - eapply (frame_other s owners p b l); try done. intros x c Hx. apply Hsol. by right.
Qed.

(** The rest of the state is not touched. *)
Record same_arp (s s' : net) : Prop := SameArp {
  sa_netifs : netifs s' = netifs s;
  sa_table : arp_table s' = arp_table s;
  sa_cached : etharp_cached_entry s' = etharp_cached_entry s;
  sa_queue : arp_queue s' = arp_queue s;
  sa_pool : arp_pool s' = arp_pool s
}.

(** A pbuf that may have got a header in front. *)
Definition headed (b b' : pbuf_s) : Prop :=
  b_next b' = b_next b ∧ b_ref b' = b_ref b ∧ b_type b' = b_type b ∧ b_payload b' ≤ b_payload b ∧
  (pbuf_get_allocsrc b ≠ 1 → b_payload b' + b_len b' = b_payload b + b_len b).

(** The frames that come of sending the packet [p] with a header. *)
Definition sent (s : net) (p : Z) (l : list Z) (header : list Z) : list frame :=
  match store (pm s) !! p with
  | Some b => if can_grow p b SIZEOF_ETH_HDR false then [(header ++ data_of s p) :: frame_of s (tail l)] else []
  | None => []
  end.

(** The data of every pbuf stay as they are. *)
Definition data_stays (s s' : net) : Prop :=
  ∀ y b, store (pm s) !! y = Some b → pbuf_get_allocsrc b ≠ 1 → mem_read (b_payload b) (Z.to_nat (b_len b)) (bytes s') = data_of s y.

Record sends (owners : list Z) (p : Z) (l header : list Z) (s s' : net) : Prop := Sends {
  sn_arp : same_arp s s';
  sn_pkt : pkt_ok (pm s') owners;
  sn_other y : y ≠ p → store (pm s') !! y = store (pm s) !! y;
  sn_self b : store (pm s) !! p = Some b → ∃ b', store (pm s') !! p = Some b' ∧ headed b b';
  sn_data : data_stays s s';
  sn_wire : ∃ fs, wire s' = wire s ++ fs ∧ (solid (store (pm s)) l → fs = sent s p l header)
}.

Lemma headed_refl b : headed b b.
Proof. by split_and!. Qed.

Lemma data_of_read s x b : store (pm s) !! x = Some b → data_of s x = mem_read (b_payload b) (Z.to_nat (b_len b)) (bytes s).
Proof. unfold data_of. by intros ->. Qed.

Lemma data_stays_refl s : data_stays s s.
Proof. intros y b Hb _. by rewrite (data_of_read _ _ _ Hb). Qed.

Lemma wp_ethernet_sends nif n p l src dst a d type owners (s : net) (Q : Z → net → Prop) :
  0 ≤ type < 65536 →  pkt_ok (pm s) owners → chain (store (pm s)) p l → p ≠ NULL →
  netifs s !! nif = Some n → n_hwaddr_len n = ETH_HWADDR_LEN →
  (∀ b, store (pm s) !! p = Some b → can_grow p b SIZEOF_ETH_HDR false = true → pbuf_get_allocsrc b ≠ 1 →
    points s (b_payload b - SIZEOF_ETH_HDR) (b_payload b) src a ∧ points s (b_payload b - SIZEOF_ETH_HDR) (b_payload b) dst d) →
  (∀ r s', sends owners p l (eth_header d a type) s s' → Q r s') →
  wp (ethernet_output link_err nif p src dst type) Q s.
Proof.
  intros Htype Ho Hl Hp Hn Hlen Hpt HQ. pose proof Hl as Hl'. destruct l as [|p' l]; [done|]. destruct Hl' as (<- & b & Hb & Hl').
  assert (can_grow p b SIZEOF_ETH_HDR false = true → pbuf_get_allocsrc b ≠ 1) as Hgs.
  { intros (Hc & _ & _)%can_grow_room E. destruct (po_shaped _ _ Ho p b Hb) as [_ Ht]. auto. }
  destruct (can_grow p b SIZEOF_ETH_HDR false) eqn:Hg.
  - specialize (Hgs eq_refl). destruct (Hpt b Hb Hg Hgs) as [Ha Hd].
    eapply (wp_ethernet_output nif n p (p :: l) b); try done. rewrite Hg. intros m Hoff Hread s'. apply HQ. unfold s'.
    assert (p ∉ l) as Hpl by (pose proof (chain_nodup _ (pkt_null _ _ Ho) _ _ Hl) as Hnd; by apply NoDup_cons in Hnd as [? _]).
    destruct (data_len_small _ _ _ _ Ho Hb Hgs) as (_ & Hl0 & Hu). pose proof (can_grow_room _ _ _ Hg) as (_ & Hlo & _).
    change SIZEOF_ETH_HDR with 14 in *. change SIZEOF_STRUCT_PBUF with 16 in *. split.
    + done.
    + by eapply grow_pkt.
    + intros y Hy. cbn. by rewrite lookup_alter_ne by done.
    + intros c Hc. rewrite Hb in Hc. injection Hc as <-. exists (grow 14 b). split; [cbn; by rewrite lookup_alter_eq, Hb|].
      split_and!; [done|done|done|simpl; lia|]. intros _. simpl. rewrite u16_id by lia. lia.
    + intros y c Hc Hsc. cbn [with_header set_bytes set_wire bytes]. destruct (decide (p = y)) as [<-|Hne].
      * rewrite Hb in Hc. injection Hc as <-. rewrite (data_of_read _ _ _ Hb). eapply mem_read_off; [done|lia].
      * eapply (data_apart s owners _ _ _ p y b c); try done; change SIZEOF_STRUCT_PBUF with 16; lia.
    + eexists. split; [done|]. intros Hsol. unfold sent. rewrite Hb. change SIZEOF_ETH_HDR with 14. rewrite Hg. f_equal.
      by apply (frame_with_header s owners p b l m d a type).
  - unfold ethernet_output. apply wp_bind, wp_zoom.
    apply (wp_pbuf_add_header_impl p b); [done|done|done|by apply (po_shaped _ _ Ho p b)|]. rewrite Hg. cbn [Z.eqb negb].
    apply wp_ret, HQ. destruct s. split; try done.
    + intros c Hc. cbn in *. exists c. split; [done|apply headed_refl].
    + apply data_stays_refl.
    + exists []. split; [by rewrite app_nil_r|]. intros _. unfold sent. cbn in *. by rewrite Hb, Hg.
Qed.

(** ** What the clients see of a run *)

(** A pbuf of a client: more headers in front, other references to it. *)
Definition extends (b b' : pbuf_s) : Prop :=
  b_next b' = b_next b ∧ b_type b' = b_type b ∧ b_payload b' ≤ b_payload b ∧
  (pbuf_get_allocsrc b ≠ 1 → b_payload b' + b_len b' = b_payload b + b_len b).

(** The packets of [owners] keep their chains and their data, the interfaces do
    not change and frames are only added. *)
Record steady (owners : list Z) (s s' : net) : Prop := Steady {
  st_netifs : netifs s' = netifs s;
  st_wire : ∃ fs, wire s' = wire s ++ fs;
  st_chain p l : p ∈ owners → chain (store (pm s)) p l → chain (store (pm s')) p l;
  st_pbuf p l x b : p ∈ owners → chain (store (pm s)) p l → x ∈ l → store (pm s) !! x = Some b →
    ∃ b', store (pm s') !! x = Some b' ∧ extends b b' ∧
      (pbuf_get_allocsrc b ≠ 1 → mem_read (b_payload b) (Z.to_nat (b_len b)) (bytes s') = mem_read (b_payload b) (Z.to_nat (b_len b)) (bytes s))
}.

Lemma extends_refl b : extends b b.
Proof. by split_and!. Qed.

Lemma extends_src b b' : extends b b' → pbuf_get_allocsrc b' = pbuf_get_allocsrc b.
Proof. intros (_ & E & _). unfold pbuf_get_allocsrc. by rewrite E. Qed.

Lemma extends_trans b1 b2 b3 : extends b1 b2 → extends b2 b3 → extends b1 b3.
Proof.
  intros E1 E2. pose proof (extends_src _ _ E1) as Es. destruct E1 as (N1 & T1 & P1 & L1), E2 as (N2 & T2 & P2 & L2).
  split_and!; [congruence|congruence|lia|]. intros Hs. rewrite L2, L1; [done|done|by rewrite Es].
Qed.

Lemma steady_refl owners s : steady owners s s.
Proof.
  split; [done|exists []; by rewrite app_nil_r|done|]. intros p l x b _ _ _ Hb. exists b. split; [done|]. split; [apply extends_refl|done].
Qed.

Lemma steady_trans owners s1 s2 s3 :
  (∀ p b, store (pm s2) !! p = Some b → pbuf_get_allocsrc b ≠ 1 → 0 ≤ b_len b) →
  steady owners s1 s2 → steady owners s2 s3 → steady owners s1 s3.
Proof.
  intros Hlen [N1 [f1 W1] C1 B1] [N2 [f2 W2] C2 B2]. split.
  - congruence.
  - exists (f1 ++ f2). by rewrite W2, W1, app_assoc.
  - intros p l Hp Hl. by apply C2, C1.
  - intros p l x b Hp Hl Hx Hb. destruct (B1 p l x b Hp Hl Hx Hb) as (b2 & Hb2 & E1 & R1).
    destruct (B2 p l x b2 Hp (C1 p l Hp Hl) Hx Hb2) as (b3 & Hb3 & E2 & R2). exists b3. split; [done|]. split; [by eapply extends_trans|].
    intros Hs. rewrite <-R1 by done. assert (pbuf_get_allocsrc b2 ≠ 1) as Hs2 by (by rewrite (extends_src _ _ E1)).
    pose proof (Hlen x b2 Hb2 Hs2). destruct E1 as (_ & _ & P1 & L1). specialize (L1 Hs).
    destruct (decide (0 ≤ b_len b)) as [Hb0|Hneg]; [eapply mem_read_part; [by apply R2|lia|lia]|].
    by replace (Z.to_nat (b_len b)) with 0%nat by lia.
Qed.

Lemma pkt_len s owners p b : pkt_ok s owners → store s !! p = Some b → pbuf_get_allocsrc b ≠ 1 → 0 ≤ b_len b.
Proof. intros Ho Hb Hs. apply (data_len_small _ _ _ _ Ho Hb Hs). Qed.

Lemma steady_sub owners owners' s s' : owners ⊆ owners' → steady owners' s s' → steady owners s s'.
Proof. intros Hsub [N W C B]. split; [done|done|intros p l Hp; apply C; auto|intros p l x b Hp; apply B; auto]. Qed.

Lemma steady_same owners s s' :
  netifs s' = netifs s → wire s' = wire s → store (pm s') = store (pm s) → bytes s' = bytes s → steady owners s s'.
Proof.
  intros En Ew Es Eb. split; [done|exists []; by rewrite app_nil_r|by rewrite Es|]. intros p l x b _ _ _ Hb. exists b.
  rewrite Es, Eb. split; [done|]. split; [apply extends_refl|done].
Qed.

(** Two runs with changes between them that the clients do not see. *)
Lemma steady_then owners o s1 s2 s2' s3 :
  steady owners s1 s2 → steady owners s2' s3 → pkt_ok (pm s2) o →
  netifs s2' = netifs s2 → wire s2' = wire s2 → store (pm s2') = store (pm s2) → bytes s2' = bytes s2 → steady owners s1 s3.
Proof.
  intros H12 H23 Ho En Ew Es Eb. assert (steady owners s2 s2') as Hs by by apply steady_same.
  assert (∀ p b, store (pm s2) !! p = Some b → pbuf_get_allocsrc b ≠ 1 → 0 ≤ b_len b) as Hlen by (intros p b; by eapply pkt_len).
  eapply steady_trans; [|exact H12|eapply steady_trans; [|exact Hs|exact H23]]; [done|by rewrite Es].
Qed.

Lemma steady_sends owners owners' p l h s s' : pkt_ok (pm s) owners' → sends owners' p l h s s' → steady owners s s'.
Proof.
  intros Ho Hsn. assert (∀ x b, store (pm s) !! x = Some b → ∃ b', store (pm s') !! x = Some b' ∧ headed b b') as Hall.
  { intros x b Hb. destruct (decide (x = p)) as [->|Hne]; [by apply (sn_self _ _ _ _ _ _ Hsn)|]. exists b.
    rewrite (sn_other _ _ _ _ _ _ Hsn x Hne). split; [done|apply headed_refl]. }
  destruct (sn_wire _ _ _ _ _ _ Hsn) as (fs & Ew & _). split.
  - apply (sn_arp _ _ _ _ _ _ Hsn).
  - by exists fs.
  - intros q k _. apply chain_frame. intros x b _ Hb. destruct (Hall x b Hb) as (b' & Hb' & En & _). by exists b'.
  - intros q k x b _ _ _ Hb. destruct (Hall x b Hb) as (b' & Hb' & En & _ & Et & Ep & El). exists b'. split; [done|].
    split; [by split_and!|]. intros Hs. rewrite (sn_data _ _ _ _ _ _ Hsn x b Hb Hs). by apply data_of_read.
Qed.

(** Another packet is released. *)
Lemma steady_release owners q l p' (s : net) :
  pkt_ok (pm s) (q :: owners) → store p' = (release l (store (pm s))).1 → pkt_ok p' owners → steady owners s (set_pm (λ _, p') s).
Proof.
  intros Ho Es Ho'.
  assert (∀ p k, p ∈ owners → chain (store (pm s)) p k → chain (store p') p k) as Hch.
  { intros p k Hp Hk. destruct (pkt_chain _ _ p Ho' Hp) as [k' Hk'].
    assert (chain (store (pm s)) p k') as Hk2.
    { eapply chain_frame; [|exact Hk']. intros x b' _ Hb'. rewrite Es in Hb'. destruct (release_back _ _ _ _ Hb') as (b & r & Hb & -> & _). by exists b. }
    by rewrite (chain_det _ (pkt_null _ _ Ho) _ _ _ Hk Hk2). }
  split; [done|exists []; by rewrite app_nil_r|by apply Hch|].
  intros p k x b Hp Hk Hx Hb. destruct (chain_alloc _ _ _ _ (Hch p k Hp Hk) Hx) as [b' Hb']. exists b'. split; [done|].
  rewrite Es in Hb'. destruct (release_back _ _ _ _ Hb') as (b2 & r & Hb2 & -> & _). rewrite Hb in Hb2. injection Hb2 as <-. done.
Qed.

Lemma wp_release p owners (s : net) (Q : Z → net → Prop) :
  pkt_ok (pm s) (p :: owners) → p ≠ NULL →
  (∀ r l p', chain (store (pm s)) p l → store p' = (release l (store (pm s))).1 → pkt_ok p' owners →
    steady owners s (set_pm (λ _, p') s) → Q r (set_pm (λ _, p') s)) →
  wp (on_pm (pbuf_free custom_free p)) Q s.
Proof.
  intros Ho Hp HQ. apply wp_zoom, (wp_free_pkt p owners); [done|done|]. intros r l p' Hl Es Ho'. apply (HQ r l); [done..|].
  by eapply steady_release.
Qed.

(** Only references go. *)
Definition left_over (s s' : net) : Prop := bytes s' = bytes s ∧ fewer (store (pm s)) (store (pm s')).

Lemma left_over_same s s' : bytes s' = bytes s → store (pm s') = store (pm s) → left_over s s'.
Proof. intros Eb Es. split; [done|]. rewrite Es. apply fewer_refl. Qed.

Lemma left_over_trans s1 s2 s3 : left_over s1 s2 → left_over s2 s3 → left_over s1 s3.
Proof. intros [E1 F1] [E2 F2]. split; [congruence|by eapply fewer_trans]. Qed.

(** ** Copies *)

(** No packet follows in the chain. *)
Definition one_packet (σ : bufs) (l : list Z) : Prop :=
  ∀ x b, x ∈ l → σ !! x = Some b → b_len b = b_tot_len b → b_next b = NULL.

Lemma wp_queue_follows p (s : net) (Q : bool → net → Prop) :
  (p ≠ NULL → ∃ b, store (pm s) !! p = Some b ∧ (b_len b = b_tot_len b → b_next b = NULL)) → Q false s →
  wp (queue_follows p) Q s.
Proof.
  intros Hp HQ. unfold queue_follows. destruct (Z.eqb_spec p NULL) as [|Hn]; [by apply wp_ret|].
  destruct (Hp Hn) as (b & Hb & Hone). apply wp_bind, (wp_rd_pbuf p b); [done|]. apply wp_ret.
  destruct (Z.eqb_spec (b_len b) (b_tot_len b)) as [E|]; [|done]. by rewrite (Hone E).
Qed.

(** The data of a chain are apart from those of [t]. *)
Definition clear_of (σ : bufs) (t : pbuf_s) (l : list Z) : Prop :=
  ∀ y c, y ∈ l → σ !! y = Some c → b_payload c + b_len c ≤ b_payload t ∨ b_payload t + b_len t ≤ b_payload c.

Lemma solid_clear s owners r t l :
  pkt_ok s owners → store s !! r = Some t → pbuf_get_allocsrc t ≠ 1 → r ∉ l → solid (store s) l → clear_of (store s) t l.
Proof.
  intros [_ Hm _] Ht Hst Hr Hsol y c Hy Hc. assert (pbuf_get_allocsrc c ≠ 1) as Hsc by by eapply Hsol.
  destruct (mo_data _ _ _ Hm r t Ht Hst) as (_ & Hpt & Hlt & Hut).
  destruct (mo_data _ _ _ Hm y c Hc Hsc) as (_ & Hpc & Hlc & Huc). change SIZEOF_STRUCT_PBUF with 16 in *.
  assert (r ≠ y) as Hne by (intros ->; done). destruct (blocks_apart EP ER s r y t c Hm Ht Hc Hst Hsc Hne); lia.
Qed.

(** Writing to [t] leaves the data of a chain apart from it as they are. *)
Lemma frame_clear (s : net) t l lo hi m :
  clear_of (store (pm s)) t l → off lo hi (bytes s) m → b_payload t ≤ lo → hi ≤ b_payload t + b_len t →
  (∀ y c, y ∈ l → store (pm s) !! y = Some c → 0 ≤ b_len c) →
  frame_of (set_bytes (λ _, m) s) l = frame_of s l.
Proof.
  intros Hcl Hoff Hlo Hhi Hpos. apply list_fmap_ext. intros i z Hz. apply list_elem_of_lookup_2 in Hz. unfold data_of. cbn [set_bytes pm bytes].
  destruct (store (pm s) !! z) as [c|] eqn:Hc; [|done]. pose proof (Hpos z c Hz Hc). destruct (Hcl z c Hz Hc); eapply mem_read_off; (done || lia).
Qed.

(** A chain into a pbuf of its own, as large as what is left of it. *)
Lemma wp_copy_loop owners r t x l n to (s : net) (Q : Z → net → Prop) :
  pkt_ok (pm s) owners → store (pm s) !! r = Some t → b_next t = NULL → b_len t = b_tot_len t →
  chain (store (pm s)) x l → l ≠ [] → packet (store (pm s)) l (b_len t - to) → one_packet (store (pm s)) l →
  0 ≤ to ≤ b_len t → (length l < n)%nat →
  (∀ m, off (b_payload t + to) (b_payload t + b_len t) (bytes s) m →
    (clear_of (store (pm s)) t l → mem_read (b_payload t + to) (Z.to_nat (b_len t - to)) m = concat (frame_of s l)) →
    Q ERR_OK (set_bytes (λ _, m) s)) →
  wp (copy_loop n r x to 0 (b_len t - to)) Q s.
Proof.
  intros Ho Ht Htn Htl Hl Hne Hpk Hone Hto Hn HQ. pose proof (pkt_null _ _ Ho) as Hnull.
  destruct (po_shaped _ _ Ho r t Ht) as [Htw _]. revert x n to s Q Ho Ht Hl Hne Hpk Hone Hto Hn HQ Hnull.
  induction l as [|y l IH]; intros x n to s Q Ho Ht Hl Hne Hpk Hone Hto Hn HQ Hnull; [done|]. destruct n as [|n]; [simpl in Hn; lia|].
  destruct Hl as (-> & f & Hf & Hl). destruct Hpk as (f' & Hf' & Ef & Hfl & Hpk). rewrite Hf in Hf'. injection Hf' as <-.
  cbn [copy_loop]. apply wp_bind, (wp_rd_pbuf r t); [done|]. apply wp_bind, (wp_rd_pbuf y f); [done|].
  rewrite !u32_id by lia. rewrite Z.sub_0_r. rewrite (proj2 (Z.leb_le (b_len f) (b_len t - to))) by lia. rewrite Z.min_r by lia.
  unfold rd_bytes, wr_bytes. apply wp_bind, wp_gets, wp_bind, wp_modify. rewrite Z.add_0_r.
  apply wp_bind, wp_assert; [apply Z.leb_le; lia|]. apply wp_bind, wp_assert; [apply Z.leb_le; lia|].
  rewrite Z.add_0_l, (proj2 (Z.leb_le (b_len f) (b_len f))) by lia. rewrite u16_id by lia.
  set (d := mem_read (b_payload f) (Z.to_nat (b_len f)) (bytes s)).
  assert (length d = Z.to_nat (b_len f)) as Hd by apply length_mem_read.
  set (s1 := set_bytes (mem_write (b_payload t + to) d) s).
  assert (off (b_payload t + to) (b_payload t + (to + b_len f)) (bytes s) (bytes s1)) as Hoff1.
  { eapply off_wider; [apply mem_write_off|lia|rewrite Hd; lia]. }
  assert (∀ m, off (b_payload t + (to + b_len f)) (b_payload t + b_len t) (bytes s1) m →
    (clear_of (store (pm s)) t (y :: l) →
      mem_read (b_payload t + (to + b_len f)) (Z.to_nat (b_len t - (to + b_len f))) m = concat (frame_of s l)) →
    Q ERR_OK (set_bytes (λ _, m) s)) as HQ'.
  { intros m Hoff Hm. apply HQ.
    - eapply off_trans; [eapply off_wider; [exact Hoff1|lia|lia]|eapply off_wider; [exact Hoff|lia|lia]].
    - intros Hcl. replace (Z.to_nat (b_len t - to)) with (Z.to_nat (b_len f) + Z.to_nat (b_len t - (to + b_len f)))%nat by lia.
      rewrite mem_read_app. replace (b_payload t + to + Z.of_nat (Z.to_nat (b_len f))) with (b_payload t + (to + b_len f)) by lia.
      rewrite Hm by done. cbn [frame_of fmap list_fmap concat]. f_equal. transitivity d; [|by unfold data_of; rewrite Hf].
      rewrite (mem_read_off _ _ _ _ (bytes s1) m Hoff) by lia. by apply mem_read_written. }
  assert (b_len t - to - b_len f = b_len t - (to + b_len f)) as Ecl by lia. rewrite Ecl in Hpk.
  replace (b_len t - to - b_len f) with (b_len t - (to + b_len f)) by lia.
  destruct l as [|z l].
  - simpl in Hpk. simpl in Hl. rewrite Hl. cbn [andb Z.eqb NULL]. rewrite Hpk. cbn [andb Z.eqb negb].
    rewrite (proj2 (Z.eqb_eq (to + b_len f) (b_len t))) by lia. rewrite Htn. cbn [andb Z.eqb negb NULL].
    apply wp_bind, wp_queue_follows; [done|]. apply wp_bind, wp_queue_follows; [done|]. apply wp_ret.
    apply HQ'; [by apply off_refl|]. by rewrite Hpk.
  - pose proof Hl as (Ez & c & Hc & _). assert (b_next f ≠ NULL) as Hnn by (intros E; rewrite E in Ez; subst z; by rewrite Hnull in Hc).
    assert (0 < b_len t - (to + b_len f)) as Hpos.
    { destruct (decide (b_len f = b_tot_len f)) as [E|]; [|lia]. by apply (Hone y f) in E; [|left|]. }
    rewrite (proj2 (Z.eqb_neq (b_next f) NULL)) by done. cbn [andb].
    rewrite (proj2 (Z.eqb_neq (to + b_len f) (b_len t))) by lia. cbn [andb].
    apply wp_bind, wp_queue_follows; [intros _; exists c; rewrite Ez; split; [done|]; intros E; by apply (Hone z c); [right; left|..]|].
    apply wp_bind, wp_queue_follows; [intros _; by exists t|]. rewrite (proj2 (Z.eqb_neq (_ - _) 0)) by lia.
    apply (IH _ n (to + b_len f) s1); try done; [..|lia|simpl in *; lia|].
    + intros w e Hw. apply Hone. by right.
    + intros m Hoff Hm. apply (HQ' m); [done|]. intros Hcl.
      rewrite Hm by (intros w e Hw; apply Hcl; by right). f_equal.
      apply (frame_clear s t (z :: l) _ _ _ (λ w e Hw, Hcl w e (list_elem_of_further _ _ _ Hw)) Hoff1); [lia|lia|].
      intros w e Hw He. by eapply lens_len_pos.
Qed.

(** [pbuf_clone] to the heap: a new pbuf with the bytes of the chain, or NULL. *)
Lemma wp_pbuf_clone layer p b l owners (s : net) (Q : Z → net → Prop) :
  pkt_ok (pm s) owners → p ≠ NULL → store (pm s) !! p = Some b → chain (store (pm s)) p l →
  packet (store (pm s)) l (b_tot_len b) → one_packet (store (pm s)) l →
  (∀ p', no_memory layer (b_tot_len b) (pm s) → store p' = store (pm s) → pkt_ok p' owners → Q NULL (set_pm (λ _, p') s)) →
  (∀ r p' m, let t := ram_pbuf layer r (b_tot_len b) in
    r ≠ NULL → store (pm s) !! r = None → store p' = <[r := t]> (store (pm s)) → pkt_ok p' (r :: owners) →
    off (b_payload t) (b_payload t + b_len t) (bytes s) m →
    (clear_of (store (pm s)) t l → mem_read (b_payload t) (Z.to_nat (b_len t)) m = concat (frame_of s l)) →
    Q r (set_bytes (λ _, m) (set_pm (λ _, p') s))) →
  wp (pbuf_clone custom_free layer PBUF_RAM p) Q s.
Proof.
  intros Ho Hp Hb Hl Hpk Hone Hno Hyes. destruct (po_shaped _ _ Ho p b Hb) as [Hw _].
  unfold pbuf_clone. apply wp_bind, (wp_rd_pbuf p b); [done|]. apply wp_bind, wp_zoom, (wp_alloc_pkt layer _ owners); [done|done| |].
  { intros p' Hm Es' Ho'. cbn [Z.eqb NULL]. by apply wp_ret, Hno. }
  intros r p' Hr Hnone Es' Ho'. rewrite (proj2 (Z.eqb_neq r NULL)) by done. set (t := ram_pbuf layer r (b_tot_len b)) in *.
  set (s1 := set_pm (λ _, p') s). assert (r ∉ l) as Hrl by (intros Hin; by destruct (chain_alloc _ _ _ _ Hl Hin) as [? ?]; simplify_eq).
  assert (∀ y c, y ∈ l → store (pm s) !! y = Some c → store p' !! y = Some c) as Hkeep.
  { intros y c Hy Hc. rewrite Es', lookup_insert_ne; [done|]. by intros ->. }
  assert (∀ y c, y ∈ l → store p' !! y = Some c → store (pm s) !! y = Some c) as Hback.
  { intros y c Hy. rewrite Es', lookup_insert_ne; [done|]. by intros ->. }
  assert (chain p'.(store) p l) as Hl' by (eapply chain_frame; [|done]; intros y c Hy Hc; exists c; by split; [apply Hkeep|]).
  assert (packet p'.(store) l (b_tot_len b)) as Hpk' by (eapply lens_frame; [|done]; intros y c Hy Hc; exists c; by split; [apply Hkeep|]).
  assert (store p' !! r = Some t) as Ht by (rewrite Es'; apply lookup_insert_eq).
  assert (store p' !! p = Some b) as Hb' by (destruct l; [done|]; destruct Hl as [-> _]; apply Hkeep; [by left|done]).
  apply wp_bind. unfold pbuf_copy. rewrite (proj2 (Z.eqb_neq p NULL)) by done. apply wp_bind, (wp_rd_pbuf p b); [done|].
  unfold pbuf_copy_partial_pbuf. rewrite (proj2 (Z.eqb_neq p NULL)), (proj2 (Z.eqb_neq r NULL)) by done.
  apply wp_bind, (wp_rd_pbuf p b); [done|]. rewrite Z.ltb_irrefl. apply wp_bind, (wp_rd_pbuf r t); [done|].
  rewrite (proj2 (Z.ltb_ge (b_tot_len t) _)) by (simpl; lia). apply wp_bind, wp_gets.
  replace (b_tot_len b) with (b_len t - 0) by (simpl; lia).
  eapply (wp_copy_loop (r :: owners) r t p l _ 0 s1); try done.
  - intros ->. by simpl in Hl'.
  - simpl. by rewrite Z.sub_0_r.
  - intros y c Hy Hc. by eapply Hone; [|apply Hback].
  - simpl. lia.
  - pose proof (chain_size _ (pkt_null _ _ Ho') _ _ Hl'). simpl. lia.
  - intros m Hoff Hm. apply wp_bind, wp_assert; [done|]. apply wp_ret. rewrite !Z.add_0_r, Z.sub_0_r in *. apply Hyes; [done..|].
    intros Hcl. change (ram_pbuf layer r (b_tot_len b)) with t. rewrite Hm by (intros y c Hy Hc; by eapply Hcl; [|apply Hback]). f_equal.
    apply list_fmap_ext. intros i y Hy. apply list_elem_of_lookup_2 in Hy. unfold data_of. cbn [s1 set_pm pm bytes].
    by rewrite Es', lookup_insert_ne by (by intros ->).
Qed.

(** A copy of a packet on the heap is one pbuf with the bytes of its pbufs, one
    after the other, wherever they are cut; the packet and all others stay as they
    are. Without memory nothing changes. *)
Theorem pbuf_clone_copies layer p b l owners s :
  pkt_ok (pm s) owners → p ≠ NULL → store (pm s) !! p = Some b → chain (store (pm s)) p l →
  packet (store (pm s)) l (b_tot_len b) → one_packet (store (pm s)) l → solid (store (pm s)) l →
  wp (pbuf_clone custom_free layer PBUF_RAM p) (λ r s',
    (r = NULL ∧ store (pm s') = store (pm s) ∧ bytes s' = bytes s ∧ pkt_ok (pm s') owners) ∨
    (r ≠ NULL ∧ store (pm s) !! r = None ∧ chain (store (pm s')) r [r] ∧ pkt_ok (pm s') (r :: owners) ∧
      data_of s' r = concat (frame_of s l) ∧
      ∀ x c, store (pm s) !! x = Some c → store (pm s') !! x = Some c ∧ (pbuf_get_allocsrc c ≠ 1 → data_of s' x = data_of s x))) s.
Proof.
  intros Ho Hp Hb Hl Hpk Hone Hsol. apply (wp_pbuf_clone layer p b l owners); [done..| |].
  - intros p' _ Es Ho'. by left.
  - intros r p' m t Hr Hnone Es Ho' Hoff Hm. right. set (s' := set_bytes _ _).
    assert (store p' !! r = Some t) as Ht by (by rewrite Es, lookup_insert_eq).
    assert (∀ x c, store (pm s) !! x = Some c → x ≠ r ∧ store p' !! x = Some c) as Hold.
    { intros x c Hc. assert (x ≠ r) as Hne by congruence. by rewrite Es, lookup_insert_ne. }
    split_and!; [done|done|split; [done|]; by exists t|done| |].
    + unfold data_of. cbn [s' set_bytes set_pm pm bytes]. rewrite Ht. apply Hm.
      assert (r ∉ l) as Hrl by (intros Hin; by destruct (chain_alloc _ _ _ _ Hl Hin) as [? ?]; simplify_eq).
      intros y c Hy Hc. apply (solid_clear p' (r :: owners) r t l Ho' Ht) with (y := y); [done|done| |done|by apply Hold].
      intros z d Hz Hd. apply (Hsol z d Hz). rewrite <-Hd, Es, lookup_insert_ne; [done|]. by intros ->.
    + intros x c Hc. destruct (Hold x c Hc) as [Hne Hc']. split; [done|]. intros Hs.
      destruct (mo_data _ _ _ (po_mem _ _ Ho') r t Ht ltac:(done)) as (_ & Hlo & _).
      unfold data_of at 1. cbn [s' set_bytes set_pm pm bytes]. rewrite Hc'.
      rewrite (data_apart (set_pm (λ _, p') s) (r :: owners) (b_payload t) (b_payload t + b_len t) m r x t c); try done.
      unfold data_of. cbn [set_pm pm bytes]. by rewrite Hc', Hc.
Qed.
End net_thm.
