(* ===== verification/Etharp.v ===== *)
(** ARP, [lwip/src/core/ipv4/etharp.c]: a table of addresses with their age and
    state, the packets that wait for an address in a linked queue per entry, and
    the ARP packets themselves, byte by byte.  In the configuration of the
    firmware packets are queued (ARP_QUEUEING), there is one interface and there
    are no static entries; as lwipopts.h defines LWIP_DEBUG (as 0), entries are
    cleaned when they are freed. *)
From stdpp Require Import base tactics numbers list gmap.
From S2P Require Import Prelude Words Def Ip4Addr Memp PbufMem Net.

(** ** Constants *)

Definition ARP_TABLE_SIZE : Z := 10.
Definition ARP_MAXAGE : Z := 300.
Definition ARP_QUEUE_LEN : Z := 3.
Definition ARP_AGE_REREQUEST_USED_UNICAST : Z := ARP_MAXAGE - 30.
Definition ARP_AGE_REREQUEST_USED_BROADCAST : Z := ARP_MAXAGE - 15.
Definition ARP_MAXPENDING : Z := 5.

Definition ETHARP_STATE_EMPTY : Z := 0.
Definition ETHARP_STATE_PENDING : Z := 1.
Definition ETHARP_STATE_STABLE : Z := 2.
Definition ETHARP_STATE_STABLE_REREQUESTING_1 : Z := 3.
Definition ETHARP_STATE_STABLE_REREQUESTING_2 : Z := 4.

Definition ETHARP_FLAG_TRY_HARD : Z := 1.
Definition ETHARP_FLAG_FIND_ONLY : Z := 2.

Definition SIZEOF_ETHARP_HDR : Z := 28.
Definition ARP_REQUEST : Z := 1.
Definition ARP_REPLY : Z := 2.
Definition LWIP_IANA_HWTYPE_ETHERNET : Z := 1.

Definition set_e_q (x : Z) (e : etharp_entry) : etharp_entry :=
  EtharpEntry x (e_ipaddr e) (e_netif e) (e_ethaddr e) (e_ctime e) (e_state e).
Definition set_e_ipaddr (x : Z) (e : etharp_entry) : etharp_entry :=
  EtharpEntry (e_q e) x (e_netif e) (e_ethaddr e) (e_ctime e) (e_state e).
Definition set_e_netif (x : Z) (e : etharp_entry) : etharp_entry :=
  EtharpEntry (e_q e) (e_ipaddr e) x (e_ethaddr e) (e_ctime e) (e_state e).
Definition set_e_ethaddr (x : list Z) (e : etharp_entry) : etharp_entry :=
  EtharpEntry (e_q e) (e_ipaddr e) (e_netif e) x (e_ctime e) (e_state e).
Definition set_e_ctime (x : Z) (e : etharp_entry) : etharp_entry :=
  EtharpEntry (e_q e) (e_ipaddr e) (e_netif e) (e_ethaddr e) x (e_state e).
Definition set_e_state (x : Z) (e : etharp_entry) : etharp_entry :=
  EtharpEntry (e_q e) (e_ipaddr e) (e_netif e) (e_ethaddr e) (e_ctime e) x.

Section code.
Context {PP PR H PQ : Type} `{Pool PP, Pool PR, Heap H, Pool PQ}.
Context (custom_free : Z → M (pmem PP PR H) unit) (link_err : list frame → Z).

Notation net := (net PP PR H PQ).
Notation eth_addr := (M net (list Z)).
Notation ethernet_output := (ethernet_output link_err).
Notation pbuf_free p := (on_pm (pbuf_free custom_free p)).

(** ** Access to the table and the queues *)

Definition rd_entry (i : Z) : M net etharp_entry :=
  if i <? 0 then fail BadAccess else gets (λ s, arp_table s !! Z.to_nat i) ≫= of_option.
Definition wr_entry (i : Z) (f : etharp_entry → etharp_entry) : M net unit :=
  e ← rd_entry i; modify (set_table <[Z.to_nat i := f e]>).
Definition rd_q (q : Z) : M net etharp_q_entry := gets (λ s, arp_queue s !! q) ≫= of_option.
Definition wr_q (q : Z) (f : etharp_q_entry → etharp_q_entry) : M net unit :=
  r ← rd_q q; modify (set_queue <[q := f r]>).

(** [memp_free(MEMP_ARP_QUEUE, r)]: the structure is gone. *)
Definition free_q_entry (r : Z) : M net unit := modify (set_queue (delete r));; on_pool (pool_free r).

Definition entry_ethaddr (i : Z) : eth_addr := e_ethaddr <$> rd_entry i.
Definition netif_ip4_addr (nif : Z) : M net Z := ip_addr <$> rd_netif nif.

(** ** Freeing entries *)

Fixpoint free_etharp_loop (n : nat) (q : Z) : M net unit :=
  match n with
  | O => fail OutOfFuel
  | S n =>
      if q =? NULL then mret tt
      else
        r ← rd_q q;
        assert_that (negb (q_p r =? NULL));;
        pbuf_free (q_p r);;
        free_q_entry q;;
        free_etharp_loop n (q_next r)
  end.

Definition free_etharp_q (q : Z) : M net unit :=
  assert_that (negb (q =? NULL));;
  n ← gets (λ s, size (arp_queue s));
  free_etharp_loop (S n) q.

Definition etharp_free_entry (i : Z) : M net unit :=
  e ← rd_entry i;
  when_ (negb (e_q e =? NULL)) (free_etharp_q (e_q e);; wr_entry i (set_e_q NULL));;
  wr_entry i (set_e_state ETHARP_STATE_EMPTY);;
  wr_entry i (set_e_ctime 0);;
  wr_entry i (set_e_netif NULL);;
  wr_entry i (set_e_ipaddr 0);;
  wr_entry i (set_e_ethaddr ethzero).

(** ** ARP packets *)

(** [ethsrc_addr] and the like point to Ethernet addresses, [ipsrc_addr] to an
    IP address. *)
Definition etharp_raw (nif : Z) (ethsrc_addr ethdst_addr hwsrc_addr : eth_addr) (ipsrc_addr : M net Z)
    (hwdst_addr : eth_addr) (ipdst_addr opcode : Z) : M net Z :=
  assert_that (negb (nif =? NULL));;
  p ← on_pm (pbuf_alloc custom_free PBUF_LINK SIZEOF_ETHARP_HDR PBUF_RAM);
  if p =? NULL then mret ERR_MEM
  else
    b ← rd_pbuf p;
    assert_that (SIZEOF_ETHARP_HDR <=? b_len b);;
    let hdr := b_payload b in
    wr16 (hdr + 6) (lwip_htons opcode);;
    n ← rd_netif nif;
    assert_that (n_hwaddr_len n =? ETH_HWADDR_LEN);;
    shw ← hwsrc_addr; wr_bytes (hdr + 8) shw;;
    dhw ← hwdst_addr; wr_bytes (hdr + 18) dhw;;
    sip ← ipsrc_addr; wr32 (hdr + 14) sip;;
    wr32 (hdr + 24) ipdst_addr;;
    wr16 hdr (PP_HTONS LWIP_IANA_HWTYPE_ETHERNET);;
    wr16 (hdr + 2) (PP_HTONS ETHTYPE_IP);;
    wr8 (hdr + 4) ETH_HWADDR_LEN;;
    wr8 (hdr + 5) 4;;
    ethernet_output nif p ethsrc_addr ethdst_addr ETHTYPE_ARP;;
    pbuf_free p;;
    mret ERR_OK.

Definition etharp_request_dst (nif ipaddr : Z) (hw_dst_addr : eth_addr) : M net Z :=
  etharp_raw nif (hwaddr nif) hw_dst_addr (hwaddr nif) (netif_ip4_addr nif) (to_const ethzero) ipaddr ARP_REQUEST.

Definition etharp_request (nif ipaddr : Z) : M net Z := etharp_request_dst nif ipaddr (to_const ethbroadcast).

(** ** Ageing *)

Definition tmr_entry (i : Z) : M net unit :=
  e ← rd_entry i;
  when_ (negb (e_state e =? ETHARP_STATE_EMPTY))
    (wr_entry i (λ e, set_e_ctime (u16 (e_ctime e + 1)) e);;
     e ← rd_entry i;
     if (ARP_MAXAGE <=? e_ctime e) || ((e_state e =? ETHARP_STATE_PENDING) && (ARP_MAXPENDING <=? e_ctime e)) then
       etharp_free_entry i
     else if e_state e =? ETHARP_STATE_STABLE_REREQUESTING_1 then
       wr_entry i (set_e_state ETHARP_STATE_STABLE_REREQUESTING_2)
     else if e_state e =? ETHARP_STATE_STABLE_REREQUESTING_2 then wr_entry i (set_e_state ETHARP_STATE_STABLE)
     else when_ (e_state e =? ETHARP_STATE_PENDING) (etharp_request (e_netif e) (e_ipaddr e);; mret tt)).

(** [for (i = from; i < ARP_TABLE_SIZE; ++i) body(i);] *)
Fixpoint for_entries (n : nat) (i : Z) (body : Z → M net unit) : M net unit :=
  match n with
  | O => mret tt
  | S n => body i;; for_entries n (i + 1) body
  end.

Definition etharp_tmr : M net unit := for_entries (Z.to_nat ARP_TABLE_SIZE) 0 tmr_entry.

(** ** Finding entries *)

(** The candidates of the search, and the ages of the oldest. *)
Record candidates := Candidates {
  old_pending : Z;
  old_stable : Z;
  empty : Z;
  old_queue : Z;
  age_queue : Z;
  age_pending : Z;
  age_stable : Z
}.

(** What entry [i] makes of the candidates. *)
Definition consider (i : Z) (e : etharp_entry) (c : candidates) : candidates :=
  if (empty c =? ARP_TABLE_SIZE) && (e_state e =? ETHARP_STATE_EMPTY) then
    Candidates (old_pending c) (old_stable c) i (old_queue c) (age_queue c) (age_pending c) (age_stable c)
  else if e_state e =? ETHARP_STATE_EMPTY then c
  else if e_state e =? ETHARP_STATE_PENDING then
    if negb (e_q e =? NULL) then
      if age_queue c <=? e_ctime e then
        Candidates (old_pending c) (old_stable c) (empty c) i (e_ctime e) (age_pending c) (age_stable c)
      else c
    else if age_pending c <=? e_ctime e then
      Candidates i (old_stable c) (empty c) (old_queue c) (age_queue c) (e_ctime e) (age_stable c)
    else c
  else if ETHARP_STATE_STABLE <=? e_state e then
    if age_stable c <=? e_ctime e then
      Candidates (old_pending c) i (empty c) (old_queue c) (age_queue c) (age_pending c) (e_ctime e)
    else c
  else c.

(** The sweep, which ends at the entry of [ipaddr], if it is not NULL. *)
Fixpoint sweep (n : nat) (i : Z) (ipaddr : option Z) (c : candidates) : M net (Z + candidates) :=
  match n with
  | O => mret (inr c)
  | S n =>
      e ← rd_entry i;
      when_ (negb (e_state e =? ETHARP_STATE_EMPTY))
        (assert_that ((e_state e =? ETHARP_STATE_PENDING) || (ETHARP_STATE_STABLE <=? e_state e)));;
      if negb (e_state e =? ETHARP_STATE_EMPTY) && bool_decide (ipaddr = Some (e_ipaddr e)) then mret (inl i)
      else sweep n (i + 1) ipaddr (consider i e c)
  end.

(** The entry to recycle, or [ERR_MEM]. *)
Definition select_entry (c : candidates) : M net Z :=
  if empty c <? ARP_TABLE_SIZE then mret (empty c)
  else
    i ← (if old_stable c <? ARP_TABLE_SIZE then
           e ← rd_entry (old_stable c); assert_that (e_q e =? NULL);; mret (old_stable c)
         else if old_pending c <? ARP_TABLE_SIZE then mret (old_pending c)
         else if old_queue c <? ARP_TABLE_SIZE then mret (old_queue c)
         else mret ERR_MEM);
    if i =? ERR_MEM then mret ERR_MEM
    else assert_that (i <? ARP_TABLE_SIZE);; etharp_free_entry i;; mret i.

Definition etharp_find_entry (ipaddr : option Z) (flags nif : Z) : M net Z :=
  let T := ARP_TABLE_SIZE in
  r ← sweep (Z.to_nat T) 0 ipaddr (Candidates T T T T 0 0 0);
  match r with
  | inl i => mret i
  | inr c =>
      if negb (Z.land flags ETHARP_FLAG_FIND_ONLY =? 0) ||
         ((empty c =? T) && (Z.land flags ETHARP_FLAG_TRY_HARD =? 0)) then mret ERR_MEM
      else
        i ← select_entry c;
        if i =? ERR_MEM then mret ERR_MEM
        else
          assert_that (i <? T);;
          e ← rd_entry i;
          assert_that (e_state e =? ETHARP_STATE_EMPTY);;
          (if ipaddr is Some a then wr_entry i (set_e_ipaddr a) else mret tt);;
          wr_entry i (set_e_ctime 0);;
          mret i
  end.

(** ** Learning addresses *)

(** [while (arp_table[i].q != NULL)]: the packets that waited are sent. *)
Fixpoint send_queue (n : nat) (nif i : Z) (ethaddr : eth_addr) : M net unit :=
  match n with
  | O => fail OutOfFuel
  | S n =>
      e ← rd_entry i;
      if e_q e =? NULL then mret tt
      else
        q ← rd_q (e_q e);
        wr_entry i (set_e_q (q_next q));;
        free_q_entry (e_q e);;
        ethernet_output nif (q_p q) (hwaddr nif) ethaddr ETHTYPE_IP;;
        pbuf_free (q_p q);;
        send_queue n nif i ethaddr
  end.

(** The tests on addresses that must not get into the table. *)
Definition not_unicast (nif ipaddr : Z) : M net bool :=
  if ip4_addr_isany_val ipaddr then mret true
  else n ← rd_netif nif; mret (ip4_addr_isbroadcast_u32 ipaddr n || ip4_addr_ismulticast ipaddr).

Definition etharp_update_arp_entry (nif ipaddr : Z) (ethaddr : eth_addr) (flags : Z) : M net Z :=
  n ← rd_netif nif;
  assert_that (n_hwaddr_len n =? ETH_HWADDR_LEN);;
  bad ← not_unicast nif ipaddr;
  if bad : bool then mret ERR_ARG
  else
    i ← etharp_find_entry (Some ipaddr) flags nif;
    if i <? 0 then mret i
    else
      wr_entry i (set_e_state ETHARP_STATE_STABLE);;
      wr_entry i (set_e_netif nif);;
      a ← ethaddr;
      wr_entry i (set_e_ethaddr a);;
      wr_entry i (set_e_ctime 0);;
      k ← gets (λ s, size (arp_queue s));
      send_queue (S k) nif i ethaddr;;
      mret ERR_OK.

Definition etharp_cleanup_netif (nif : Z) : M net unit :=
  for_entries (Z.to_nat ARP_TABLE_SIZE) 0 (λ i,
    e ← rd_entry i;
    when_ (negb (e_state e =? ETHARP_STATE_EMPTY) && (e_netif e =? nif)) (etharp_free_entry i)).

(** The index, or -1; [*eth_ret] and [*ip_ret] point into the entry. *)
Definition etharp_find_addr (nif ipaddr : Z) : M net Z :=
  i ← etharp_find_entry (Some ipaddr) ETHARP_FLAG_FIND_ONLY nif;
  if 0 <=? i then
    e ← rd_entry i;
    if ETHARP_STATE_STABLE <=? e_state e then mret i else mret (-1)
  else mret (-1).

(** [*ipaddr], [*netif] and [*eth_ret] point into the entry, or it returns 0. *)
Definition etharp_get_entry (i : Z) : M net (option (Z * Z * list Z)) :=
  if i <? ARP_TABLE_SIZE then
    e ← rd_entry i;
    if ETHARP_STATE_STABLE <=? e_state e then mret (Some (e_ipaddr e, e_netif e, e_ethaddr e)) else mret None
  else mret None.

(** ** Incoming packets *)

Definition etharp_input (p nif : Z) : M net unit :=
  if nif =? NULL then mret tt
  else
    b ← rd_pbuf p;
    let hdr := b_payload b in
    hwtype ← rd16 hdr;
    hwlen ← rd8 (hdr + 4);
    protolen ← rd8 (hdr + 5);
    proto ← rd16 (hdr + 2);
    if negb (hwtype =? PP_HTONS LWIP_IANA_HWTYPE_ETHERNET) || negb (hwlen =? ETH_HWADDR_LEN) ||
       negb (protolen =? 4) || negb (proto =? PP_HTONS ETHTYPE_IP) then pbuf_free p;; mret tt
    else
      sipaddr ← rd32 (hdr + 14);
      dipaddr ← rd32 (hdr + 24);
      ip ← netif_ip4_addr nif;
      let for_us := if ip4_addr_isany_val ip then false else dipaddr =? ip in
      let from_us := if ip4_addr_isany_val ip then false else sipaddr =? ip in
      etharp_update_arp_entry nif sipaddr (at_addr (hdr + 8)) (if for_us then ETHARP_FLAG_TRY_HARD else ETHARP_FLAG_FIND_ONLY);;
      opcode ← rd16 (hdr + 6);
      (if opcode =? PP_HTONS ARP_REQUEST then
         if for_us && negb from_us then
           etharp_raw nif (hwaddr nif) (at_addr (hdr + 8)) (hwaddr nif) (netif_ip4_addr nif) (at_addr (hdr + 8)) sipaddr ARP_REPLY;;
           mret tt
         else mret tt
       else mret tt);;
      pbuf_free p;;
      mret tt.

(** ** Outgoing packets *)

Definition etharp_output_to_arp_index (nif q arp_idx : Z) : M net Z :=
  e ← rd_entry arp_idx;
  assert_that (ETHARP_STATE_STABLE <=? e_state e);;
  when_ (e_state e =? ETHARP_STATE_STABLE)
    (if ARP_AGE_REREQUEST_USED_BROADCAST <=? e_ctime e then
       r ← etharp_request nif (e_ipaddr e);
       when_ (r =? ERR_OK) (wr_entry arp_idx (set_e_state ETHARP_STATE_STABLE_REREQUESTING_1))
     else if ARP_AGE_REREQUEST_USED_UNICAST <=? e_ctime e then
       r ← etharp_request_dst nif (e_ipaddr e) (entry_ethaddr arp_idx);
       when_ (r =? ERR_OK) (wr_entry arp_idx (set_e_state ETHARP_STATE_STABLE_REREQUESTING_1))
     else mret tt);;
  ethernet_output nif q (hwaddr nif) (entry_ethaddr arp_idx) ETHTYPE_IP.

(** [while (p)] of [etharp_query]: does one of the pbufs have to be copied? *)
Fixpoint copy_needed (n : nat) (p : Z) : M net bool :=
  match n with
  | O => fail OutOfFuel
  | S n =>
      if p =? NULL then mret false
      else
        b ← rd_pbuf p;
        assert_that (negb (b_len b =? b_tot_len b) || (b_next b =? NULL));;
        if negb (Z.land (b_type b) PBUF_TYPE_FLAG_DATA_VOLATILE =? 0) then mret true
        else copy_needed n (b_next b)
  end.

(** The last element of a queue, and [qlen]. *)
Fixpoint queue_end (n : nat) (r qlen : Z) : M net (Z * Z) :=
  match n with
  | O => fail OutOfFuel
  | S n =>
      e ← rd_q r;
      if negb (q_next e =? NULL) then queue_end n (q_next e) (qlen + 1) else mret (r, qlen)
  end.

(** The packet [p], of which the queue has a reference now, goes to the end of
    the queue of entry [i]; a full queue loses its first. *)
Definition enqueue (i p : Z) : M net Z :=
  new_entry ← on_pool pool_malloc;
  if negb (new_entry =? NULL) then
    modify (set_queue <[new_entry := EtharpQEntry NULL p]>);;
    e ← rd_entry i;
    qlen ← (if negb (e_q e =? NULL) then
              n ← gets (λ s, size (arp_queue s));
              '(r, qlen) ← queue_end (S n) (e_q e) 1;
              wr_q r (λ r, EtharpQEntry new_entry (q_p r));;
              mret qlen
            else wr_entry i (set_e_q new_entry);; mret 0);
    when_ (ARP_QUEUE_LEN <=? qlen)
      (e ← rd_entry i;
       o ← rd_q (e_q e);
       wr_entry i (set_e_q (q_next o));;
       pbuf_free (q_p o);;
       free_q_entry (e_q e));;
    mret ERR_OK
  else pbuf_free p;; mret ERR_MEM.

Definition queue_packet (i q : Z) : M net Z :=
  n ← gets (λ s, size (store (pm s)));
  c ← copy_needed (S n) q;
  p ← (if c : bool then pbuf_clone custom_free PBUF_LINK PBUF_RAM q else on_pm (pbuf_ref q);; mret q);
  if negb (p =? NULL) then enqueue i p else mret ERR_MEM.

Definition etharp_query (nif ipaddr q : Z) : M net Z :=
  bad ← not_unicast nif ipaddr;
  if bad : bool then mret ERR_ARG
  else
    i ← etharp_find_entry (Some ipaddr) ETHARP_FLAG_TRY_HARD nif;
    if i <? 0 then mret i
    else
      assert_that (i <? 127);;
      e ← rd_entry i;
      let is_new_entry := e_state e =? ETHARP_STATE_EMPTY in
      when_ is_new_entry (wr_entry i (set_e_state ETHARP_STATE_PENDING);; wr_entry i (set_e_netif nif));;
      e ← rd_entry i;
      assert_that ((e_state e =? ETHARP_STATE_PENDING) || (ETHARP_STATE_STABLE <=? e_state e));;
      result ← (if is_new_entry || (q =? NULL) then
        result ← etharp_request nif ipaddr;
        (if negb (result =? ERR_OK) then mret tt
         else
           e ← rd_entry i;
           when_ ((e_state e =? ETHARP_STATE_PENDING) && negb is_new_entry) (wr_entry i (set_e_ctime 0)));;
        mret result
      else mret ERR_MEM);
      if q =? NULL then mret result
      else
        e ← rd_entry i;
        if ETHARP_STATE_STABLE <=? e_state e then
          modify (set_cached i);;
          ethernet_output nif q (hwaddr nif) (entry_ethaddr i) ETHTYPE_IP
        else if e_state e =? ETHARP_STATE_PENDING then queue_packet i q
        else mret result.

Definition stable_match (dst_addr : Z) (e : etharp_entry) : bool :=
  (ETHARP_STATE_STABLE <=? e_state e) && (dst_addr =? e_ipaddr e).

(** The first stable entry for an address. *)
Fixpoint find_stable (n : nat) (i dst_addr : Z) : M net (option Z) :=
  match n with
  | O => mret None
  | S n => e ← rd_entry i; if stable_match dst_addr e then mret (Some i) else find_stable n (i + 1) dst_addr
  end.

Definition unicast_output (nif q dst_addr : Z) : M net Z :=
  cached ← gets etharp_cached_entry;
  e ← rd_entry cached;
  if stable_match dst_addr e then etharp_output_to_arp_index nif q cached
  else
    r ← find_stable (Z.to_nat ARP_TABLE_SIZE) 0 dst_addr;
    match r with
    | Some i => modify (set_cached i);; etharp_output_to_arp_index nif q i
    | None => etharp_query nif dst_addr q
    end.

Definition multicast_mac (ipaddr : Z) : list Z :=
  [0x01; 0x00; 0x5e; Z.land (byte_at ipaddr 1) 0x7f; byte_at ipaddr 2; byte_at ipaddr 3].

Definition etharp_output (nif q ipaddr : Z) : M net Z :=
  assert_that (negb (nif =? NULL));;
  assert_that (negb (q =? NULL));;
  n ← rd_netif nif;
  if ip4_addr_isbroadcast_u32 ipaddr n then ethernet_output nif q (hwaddr nif) (to_const ethbroadcast) ETHTYPE_IP
  else if ip4_addr_ismulticast ipaddr then ethernet_output nif q (hwaddr nif) (to_const (multicast_mac ipaddr)) ETHTYPE_IP
  else if negb (ip4_addr_net_eq ipaddr (ip_addr n) (netmask n)) && negb (ip4_addr_islinklocal ipaddr) then
    if negb (ip4_addr_isany_val (gw n)) then unicast_output nif q (gw n) else mret ERR_RTE
  else unicast_output nif q ipaddr.
End code.
