(* ===== verification/EtharpThm.v ===== *)
(** The ARP table with its queues of packets ([arp_rep]), and what the functions of
    [Etharp] make of it: every packet that waits is referenced once by its queue,
    every element of MEMP_ARP_QUEUE is in one queue or free. *)
From stdpp Require Import base tactics numbers list gmap.
From S2P Require Import Prelude Words Def Memp PbufMem PbufThm PbufOps Ip4Addr Net NetThm Etharp.

(** ** Queues *)

(** A queue by its elements, each with its packet. *)
Notation queue := (list (Z * Z)).

Fixpoint qlinked (m : gmap Z etharp_q_entry) (q : Z) (l : queue) : Prop :=
  match l with
  | [] => q = NULL
  | (x, p) :: l => q = x ∧ x ≠ NULL ∧ p ≠ NULL ∧ ∃ n, m !! x = Some (EtharpQEntry n p) ∧ qlinked m n l
  end.

Definition nodes (cs : list (Z * queue)) : list Z := (cs ≫= snd).*1.
Definition queued (cs : list (Z * queue)) : list Z := (cs ≫= snd).*2.

#[export] Instance nodes_proper : Proper ((≡ₚ) ==> (≡ₚ)) nodes.
Proof. intros cs cs' E. unfold nodes. by rewrite E. Qed.
#[export] Instance queued_proper : Proper ((≡ₚ) ==> (≡ₚ)) queued.
Proof. intros cs cs' E. unfold queued. by rewrite E. Qed.

Lemma nodes_cons c cs : nodes (c :: cs) = c.2.*1 ++ nodes cs.
Proof. unfold nodes. simpl. by rewrite fmap_app. Qed.
Lemma queued_cons c cs : queued (c :: cs) = c.2.*2 ++ queued cs.
Proof. unfold queued. simpl. by rewrite fmap_app. Qed.

Lemma qlinked_frame m m' q l :
  (∀ x, x ∈ l.*1 → m' !! x = m !! x) → qlinked m q l → qlinked m' q l.
Proof.
  revert q. induction l as [|[x p] l IH]; intros q Hsame; simpl; [done|].
  intros (-> & Hx & Hp & n & Hn & Hl). split_and!; [done..|]. exists n. rewrite Hsame by (left; done). split; [done|].
  apply IH; [|done]. intros y Hy. apply Hsame. by right.
Qed.

Lemma qlinked_size m q l : qlinked m q l → NoDup l.*1 → (length l ≤ size m)%nat.
Proof.
  intros Hl Hnd. rewrite <-(length_fmap fst), <-size_dom, <-(size_list_to_set (C := gset Z) (l.*1)) by done.
  apply subseteq_size. intros x Hx%elem_of_list_to_set. apply elem_of_dom. revert q Hl Hx.
  induction l as [|[y p] l IH]; intros q; simpl; [by intros _ ?%elem_of_nil|].
  intros (_ & _ & _ & n & Hn & Hl) [->|Hx]%elem_of_cons; [by eexists|]. simpl in Hnd. apply NoDup_cons in Hnd as [_ Hnd]. by eapply IH.
Qed.

(** One element is put behind the last. *)
Lemma qlinked_snoc m q l y p r x :
  qlinked m q (l ++ [(y, p)]) → NoDup (l ++ [(y, p)]).*1 → x ∉ (l ++ [(y, p)]).*1 → x ≠ NULL → r ≠ NULL →
  qlinked (<[y := EtharpQEntry x p]> (<[x := EtharpQEntry NULL r]> m)) q (l ++ [(y, p); (x, r)]).
Proof.
  revert q. induction l as [|[z o] l IH]; intros q; simpl.
  - intros (-> & Hy & Hp & _) _ Hx Hxn Hr. split_and!; [done..|]. exists x. rewrite lookup_insert_eq. split; [done|].
    split_and!; [done..|]. exists NULL. rewrite lookup_insert_ne by set_solver. by rewrite lookup_insert_eq.
  - intros (-> & Hz & Ho & n & Hn & Hl) [Hzl Hnd]%NoDup_cons [Hxz Hx]%not_elem_of_cons Hxn Hr. split_and!; [done..|]. exists n.
    rewrite !lookup_insert_ne.
    + split; [done|]. by apply IH.
    + done.
    + intros ->. apply Hzl. rewrite fmap_app. apply elem_of_app. right. by left.
Qed.

(** ** ARP packets *)

(** As RFC 826 has them. *)
Definition arp_packet (opcode : Z) (sha : list Z) (sip : Z) (tha : list Z) (tip : Z) : list Z :=
  be16 1 ++ be16 ETHTYPE_IP ++ [6] ++ [4] ++ be16 opcode ++ sha ++ le_bytes 4 sip ++ tha ++ le_bytes 4 tip.

Lemma arp_written hdr opcode sha sip tha tip m :
  length sha = 6%nat → length tha = 6%nat → 0 ≤ opcode < 65536 →
  mem_read hdr 28 (mem_write (hdr + 5) (le_bytes 1 4) (mem_write (hdr + 4) (le_bytes 1 ETH_HWADDR_LEN)
    (mem_write (hdr + 2) (le_bytes 2 (PP_HTONS ETHTYPE_IP)) (mem_write hdr (le_bytes 2 (PP_HTONS LWIP_IANA_HWTYPE_ETHERNET))
    (mem_write (hdr + 24) (le_bytes 4 tip) (mem_write (hdr + 14) (le_bytes 4 sip) (mem_write (hdr + 18) tha
    (mem_write (hdr + 8) sha (mem_write (hdr + 6) (le_bytes 2 (lwip_htons opcode)) m))))))))) =
  arp_packet opcode sha sip tha tip.
Proof.
  intros Ls Lt Ho. change 28%nat with (2 + (2 + (1 + (1 + (2 + (6 + (4 + (6 + 4))))))))%nat. rewrite !mem_read_app.
  pose proof (length_le_bytes 1). pose proof (length_le_bytes 2). pose proof (length_le_bytes 4).
  assert (∀ a b n l m l', a = b → length l = n → l = l' → mem_read a n (mem_write b l m) = l') as Hhit.
  { intros a b k l m' l' -> Hl <-. by apply mem_read_written. }
  unfold arp_packet. repeat apply (f_equal2 app).
  all: repeat (rewrite mem_read_write_other by (rewrite ?Ls, ?Lt, ?length_le_bytes; lia)).
  all: apply Hhit; [lia|by rewrite ?length_le_bytes|].
  all: first [done|by apply le_bytes_htons|by vm_compute].
Qed.

(** ** The search *)

Definition used (e : etharp_entry) : Prop := e_state e ≠ ETHARP_STATE_EMPTY.
Definition stable (e : etharp_entry) : Prop := ETHARP_STATE_STABLE ≤ e_state e.
Definition pending_with (e : etharp_entry) : Prop := e_state e = ETHARP_STATE_PENDING ∧ e_q e ≠ NULL.
Definition pending_without (e : etharp_entry) : Prop := e_state e = ETHARP_STATE_PENDING ∧ e_q e = NULL.

#[export] Instance used_dec e : Decision (used e).
Proof. unfold used. apply _. Defined.
#[export] Instance stable_dec e : Decision (stable e).
Proof. unfold stable. apply _. Defined.
#[export] Instance pending_with_dec e : Decision (pending_with e).
Proof. unfold pending_with. apply _. Defined.
#[export] Instance pending_without_dec e : Decision (pending_without e).
Proof. unfold pending_without. apply _. Defined.

Definition holds (ipaddr : Z) (e : etharp_entry) : Prop := used e ∧ e_ipaddr e = ipaddr.
Definition no_entry (ipaddr : Z) (es : list etharp_entry) : Prop := ∀ i e, es !! i = Some e → ¬ holds ipaddr e.

(** The last of the oldest of a kind. *)
Definition oldest (P : etharp_entry → Prop) (es : list etharp_entry) (i : nat) : Prop :=
  ∃ e, es !! i = Some e ∧ P e ∧ ∀ j e', es !! j = Some e' → P e' → e_ctime e' ≤ e_ctime e ∧ ((i < j)%nat → e_ctime e' < e_ctime e).

Definition none (P : etharp_entry → Prop) (es : list etharp_entry) : Prop := ∀ i e, es !! i = Some e → ¬ P e.

(** The entry for a new address: the first that is free, else the oldest stable
    one, else the oldest that waits for an answer, rather without packets. *)
Inductive choice (es : list etharp_entry) (i : nat) : Prop :=
  | choose_empty e : es !! i = Some e → ¬ used e → (∀ j e', (j < i)%nat → es !! j = Some e' → used e') → choice es i
  | choose_stable : none (λ e, ¬ used e) es → oldest stable es i → choice es i
  | choose_pending : none (λ e, ¬ used e) es → none stable es → oldest pending_without es i → choice es i
  | choose_queue : none (λ e, ¬ used e) es → none stable es → none pending_without es → oldest pending_with es i → choice es i.

(** What a candidate of the search stands for. *)
Definition candidate (P : etharp_entry → Prop) (es : list etharp_entry) (old age : Z) : Prop :=
  old = ARP_TABLE_SIZE ∧ age = 0 ∧ none P es ∨
  0 ≤ old < ARP_TABLE_SIZE ∧ oldest P es (Z.to_nat old) ∧ ∃ e, es !! Z.to_nat old = Some e ∧ age = e_ctime e.

Definition first_empty (es : list etharp_entry) (k : Z) : Prop :=
  k = ARP_TABLE_SIZE ∧ none (λ e, ¬ used e) es ∨
  0 ≤ k < ARP_TABLE_SIZE ∧ ∃ e, es !! Z.to_nat k = Some e ∧ ¬ used e ∧ ∀ j e', (j < Z.to_nat k)%nat → es !! j = Some e' → used e'.

Record scanned (es : list etharp_entry) (c : candidates) : Prop := Scanned {
  sc_empty : first_empty es (empty c);
  sc_stable : candidate stable es (old_stable c) (age_stable c);
  sc_pending : candidate pending_without es (old_pending c) (age_pending c);
  sc_queue : candidate pending_with es (old_queue c) (age_queue c)
}.

Lemma lookup_snoc_cases {A} (l : list A) (x : A) i y : (l ++ [x]) !! i = Some y → l !! i = Some y ∨ i = length l ∧ y = x.
Proof. rewrite lookup_app_Some. intros [?|[Hi Hx]]; [by left|]. right. apply list_lookup_singleton_Some in Hx as [Hx ->]. split; [lia|done]. Qed.

Lemma none_snoc P es e : none P es → ¬ P e → none P (es ++ [e]).
Proof. intros Hn He i e' [Hi|[_ ->]]%lookup_snoc_cases; [by eapply Hn|done]. Qed.

Lemma candidate_skip P es e old age : candidate P es old age → ¬ P e → candidate P (es ++ [e]) old age.
Proof.
  intros [(-> & -> & Hn)|(Hr & (o & Ho & HP & Hmax) & o' & Ho' & ->)] He.
  - left. split_and!; [done|done|by apply none_snoc].
  - right. rewrite Ho in Ho'. injection Ho' as <-. split; [done|].
    assert ((es ++ [e]) !! Z.to_nat old = Some o) as Ho2 by (by apply lookup_app_l_Some).
    split; [|by exists o]. exists o. split_and!; [done|done|]. intros j e' [Hj|[_ ->]]%lookup_snoc_cases; [by apply Hmax|done].
Qed.

Lemma candidate_take P es e old age :
  candidate P es old age → P e → Z.of_nat (length es) < ARP_TABLE_SIZE → 0 ≤ e_ctime e →
  candidate P (es ++ [e]) (if age <=? e_ctime e then Z.of_nat (length es) else old) (if age <=? e_ctime e then e_ctime e else age).
Proof.
  intros Hc He Hlen Hpos. right. assert ((es ++ [e]) !! length es = Some e) as Hlast by (by rewrite lookup_app_r, Nat.sub_diag by lia).
  destruct (Z.leb_spec age (e_ctime e)) as [Hle|Hlt].
  - split; [lia|]. rewrite Nat2Z.id. split; [|by exists e]. exists e. split_and!; [done|done|].
    intros j e' [Hj|[-> ->]]%lookup_snoc_cases HP'; [|split; lia]. apply lookup_lt_Some in Hj as Hjl.
    destruct Hc as [(_ & _ & Hn)|(_ & (o & Ho & _ & Hmax) & o' & Ho' & ->)]; [by destruct (Hn j e')|].
    rewrite Ho in Ho'. injection Ho' as <-. destruct (Hmax j e' Hj HP') as [? _]. split; lia.
  - destruct Hc as [(-> & -> & Hn)|(Hr & (o & Ho & HPo & Hmax) & o' & Ho' & ->)]; [lia|]. rewrite Ho in Ho'. injection Ho' as <-.
    assert ((es ++ [e]) !! Z.to_nat old = Some o) as Ho2 by (by apply lookup_app_l_Some). split; [done|]. split; [|by exists o].
    exists o. split_and!; [done|done|]. intros j e' [Hj|[-> ->]]%lookup_snoc_cases HP'; [by apply Hmax|split; lia].
Qed.

Lemma first_empty_skip es e k : first_empty es k → used e ∨ k < ARP_TABLE_SIZE → first_empty (es ++ [e]) k.
Proof.
  intros [(-> & Hn)|(Hk & o & Ho & Hu & Hmin)] He.
  - left. split; [done|]. apply none_snoc; [done|]. destruct He as [He|He]; [tauto|lia].
  - right. split; [done|]. exists o. split_and!; [by apply lookup_app_l_Some|done|]. apply lookup_lt_Some in Ho.
    intros j e' Hj. rewrite lookup_app_l by lia. by apply Hmin.
Qed.

Lemma consider_scanned es e c :
  scanned es c → Z.of_nat (length es) < ARP_TABLE_SIZE → 0 ≤ e_ctime e → 0 ≤ e_state e →
  scanned (es ++ [e]) (consider (Z.of_nat (length es)) e c).
Proof.
  intros [He Hs Hp Hq] Hlen Hpos Hst. unfold consider.
  assert (used e ↔ e_state e ≠ ETHARP_STATE_EMPTY) as Hu by done.
  destruct (Z.eqb_spec (e_state e) ETHARP_STATE_EMPTY) as [E0|E0].
  - assert (¬ stable e ∧ ¬ pending_with e ∧ ¬ pending_without e) as (N1 & N2 & N3).
    { unfold stable, pending_with, pending_without. rewrite E0. split_and!; [by intros ?|by intros [? _]..]. }
    rewrite andb_true_r. destruct (Z.eqb_spec (empty c) ARP_TABLE_SIZE) as [E1|E1].
    + split; cbn; try by apply candidate_skip. right. split; [lia|]. exists e. rewrite Nat2Z.id, lookup_app_r, Nat.sub_diag by lia.
      split_and!; [done|tauto|]. intros j e' Hj. rewrite lookup_app_l by lia.
      destruct He as [[_ Hn]|[? _]]; [|lia]. intros Hj'. specialize (Hn j e' Hj'). destruct (decide (used e')); tauto.
    + split; try by apply candidate_skip. apply first_empty_skip; [done|]. right. destruct He as [[? _]|[? _]]; lia.
  - rewrite andb_false_r.
    assert (first_empty (es ++ [e]) (empty c)) as He' by (apply first_empty_skip; [done|by left]).
    destruct (Z.eqb_spec (e_state e) ETHARP_STATE_PENDING) as [E1|E1].
    + assert (¬ stable e) as N1 by (unfold stable; rewrite E1; by intros ?).
      destruct (Z.eqb_spec (e_q e) NULL) as [Eq|Eq]; cbn [negb].
      * assert (¬ pending_with e) as N2 by (by intros [_ ?]). assert (pending_without e) as Y by done.
        pose proof (candidate_take _ _ _ _ _ Hp Y Hlen Hpos) as Ht.
        destruct (_ <=? _); split; cbn; try done; by apply candidate_skip.
      * assert (¬ pending_without e) as N2 by (by intros [_ ?]). assert (pending_with e) as Y by done.
        pose proof (candidate_take _ _ _ _ _ Hq Y Hlen Hpos) as Ht.
        destruct (_ <=? _); split; cbn; try done; by apply candidate_skip.
    + assert (¬ pending_with e ∧ ¬ pending_without e) as [N2 N3] by (split; by intros [? _]).
      assert (stable e) as Y by (unfold stable, ETHARP_STATE_STABLE, ETHARP_STATE_PENDING, ETHARP_STATE_EMPTY in *; lia).
      rewrite (proj2 (Z.leb_le ETHARP_STATE_STABLE (e_state e))) by done. pose proof (candidate_take _ _ _ _ _ Hs Y Hlen Hpos) as Ht.
      destruct (_ <=? _); split; cbn; try done; by apply candidate_skip.
Qed.

(** The sweep over the entries. *)
Fixpoint scan (i : Z) (ipaddr : option Z) (es : list etharp_entry) (c : candidates) : Z + candidates :=
  match es with
  | [] => inr c
  | e :: es =>
      if negb (e_state e =? ETHARP_STATE_EMPTY) && bool_decide (ipaddr = Some (e_ipaddr e)) then inl i
      else scan (i + 1) ipaddr es (consider i e c)
  end.

Lemma scan_found i a es c r : scan i (Some a) es c = inl r → ∃ j e, es !! j = Some e ∧ holds a e ∧ r = i + Z.of_nat j.
Proof.
  revert i c. induction es as [|e es IH]; intros i c; simpl; [done|]. destruct (_ && _) eqn:E.
  - intros [= <-]. apply andb_true_iff in E as [Hu%negb_true_iff%Z.eqb_neq Ha%bool_decide_eq_true]. injection Ha as ->.
    exists 0%nat, e. split_and!; [done|done|lia].
  - intros (j & e' & Hj & Hh & ->)%IH. exists (S j), e'. split_and!; [done|done|lia].
Qed.

Lemma scan_none pre a es c c' :
  scan (Z.of_nat (length pre)) (Some a) es c = inr c' → scanned pre c → no_entry a pre →
  Z.of_nat (length pre + length es) ≤ ARP_TABLE_SIZE → Forall (λ e, 0 ≤ e_ctime e ∧ 0 ≤ e_state e) es →
  scanned (pre ++ es) c' ∧ no_entry a (pre ++ es).
Proof.
  revert pre c. induction es as [|e es IH]; intros pre c; simpl.
  - intros [= <-] Hs Hn _ _. by rewrite app_nil_r.
  - destruct (_ && _) eqn:E; [done|]. intros Hscan Hs Hn Hlen [[Hc Hst] Hall]%Forall_cons.
    replace (pre ++ e :: es) with ((pre ++ [e]) ++ es) by (by rewrite <-app_assoc).
    apply (IH _ (consider (Z.of_nat (length pre)) e c)); [|by apply consider_scanned; [|lia|..]| |rewrite length_app; simpl; lia|done].
    + rewrite length_app. simpl. by replace (Z.of_nat (length pre + 1)) with (Z.of_nat (length pre) + 1) by lia.
    + intros i e' [Hi|[-> ->]]%lookup_snoc_cases; [by eapply Hn|]. intros [Hu <-].
      rewrite (proj2 (Z.eqb_neq _ _)) in E by done. cbn [negb andb] in E. by rewrite bool_decide_true in E by done.
Qed.

Definition store_same_but (q : Z) (σ σ' : bufs) : Prop := ∀ y, y ≠ q → σ' !! y = σ !! y.

Section etharp_thm.
Context {PP PR H PQ : Type} `{PoolLaws PP, PoolLaws PR, HeapLaws H, PoolLaws PQ}.
Context (custom_free : Z → M (pmem PP PR H) unit) (link_err : list frame → Z).
Context (EP ER EQ : list Z) `{!Layout (PP := PP) (PR := PR) (H := H) EP ER}.

(** [EQ]: the elements of MEMP_ARP_QUEUE. *)
Class QueueLayout : Prop := {
  queue_nodup : NoDup EQ;
  queue_elem x : x ∈ EQ → pool_elem (P := PQ) x
}.
Context `{!QueueLayout}.

Notation net := (net PP PR H PQ).
Notation pkt_ok := (pkt_ok EP ER).

(** The queues [cs], each with the address it starts at. *)
Record queues (m : gmap Z etharp_q_entry) (pool : PQ) (cs : list (Z * queue)) : Prop := Queues {
  qs_link c : c ∈ cs → qlinked m c.1 c.2;
  qs_pool : ∃ free, pool_holds pool free ∧ nodes cs ++ free ≡ₚ EQ
}.

Lemma queues_perm m pool cs cs' : cs ≡ₚ cs' → queues m pool cs → queues m pool cs'.
Proof. intros E [Hl (free & Hf & Hn)]. split; [intros c; rewrite <-E; apply Hl|exists free; by rewrite <-E]. Qed.

Lemma queues_nodup m pool cs : queues m pool cs → NoDup (nodes cs).
Proof.
  intros [_ (free & _ & E)]. pose proof queue_nodup as Hnd. rewrite <-E in Hnd. by apply NoDup_app in Hnd as (? & _).
Qed.

Lemma queues_empty m pool q cs : queues m pool ((q, []) :: cs) ↔ q = NULL ∧ queues m pool cs.
Proof.
  split.
  - intros [Hl Hp]. split; [apply (Hl (q, [])); by left|]. split; [intros c Hc; apply Hl; by right|done].
  - intros [-> [Hl Hp]]. split; [|done]. intros c [->|Hc]%elem_of_cons; [done|by apply Hl].
Qed.

(** The first element of a queue is taken out and given back to the pool. *)
Lemma queues_pop m pool x p l cs (Q : unit → PQ → Prop) :
  queues m pool ((x, (x, p) :: l) :: cs) →
  (∀ n pool', m !! x = Some (EtharpQEntry n p) → queues (delete x m) pool' ((n, l) :: cs) → Q tt pool') →
  wp (pool_free x) Q pool.
Proof.
  intros Hq HQ. pose proof (queues_nodup _ _ _ Hq) as Hnd. destruct Hq as [Hl (free & Hf & E)].
  destruct (Hl (x, (x, p) :: l)) as (_ & Hx & Hp & n & Hn & Hln); [by left|].
  rewrite nodes_cons in Hnd, E. simpl in Hnd, E. apply NoDup_cons in Hnd as [Hxn Hnd].
  assert (x ∈ EQ) as Hxe by (rewrite <-E; by left).
  assert (x ∉ free) as Hxf.
  { pose proof queue_nodup as Hnd'. rewrite <-E in Hnd'. apply NoDup_cons in Hnd' as [Hni _]. intros Hin. apply Hni, elem_of_app. by right. }
  eapply wp_mono; [apply (wp_pool_free pool x free); [done|by apply queue_elem|done]|]. intros [] pool' Hf'. apply (HQ n); [done|]. split.
  - intros c [->|Hc]%elem_of_cons.
    + eapply qlinked_frame; [|exact Hln]. intros y Hy. rewrite lookup_delete_ne; [done|]. intros ->. apply Hxn, elem_of_app. by left.
    + eapply qlinked_frame; [|apply Hl; by right]. intros y Hy. rewrite lookup_delete_ne; [done|]. intros ->. apply Hxn, elem_of_app. right.
      apply list_elem_of_split in Hc as (c1 & c2 & ->). unfold nodes. rewrite bind_app. simpl. rewrite !fmap_app. set_solver.
  - exists (x :: free). split; [done|]. rewrite nodes_cons. cbn [snd]. rewrite <-E. by rewrite Permutation_middle.
Qed.

(** ** The table *)

(** The entries [es] with their queues [cs]; [owners] are the references of the
    others. *)
Record arp_rep (s : net) (owners : list Z) (es : list etharp_entry) (cs : list (Z * queue)) : Prop := ArpRep {
  ar_table : arp_table s = es;
  ar_heads : cs.*1 = e_q <$> es;
  ar_queues : queues (arp_queue s) (arp_pool s) cs;
  ar_pkt : pkt_ok (pm s) (owners ++ queued cs)
}.

Lemma wp_rd_entry i e (s : net) (Q : etharp_entry → net → Prop) :
  0 ≤ i → arp_table s !! Z.to_nat i = Some e → Q e s → wp (rd_entry i) Q s.
Proof.
  intros Hi He HQ. unfold rd_entry. rewrite (proj2 (Z.ltb_ge i 0)) by done. apply wp_bind, wp_gets. by apply wp_of_option with e.
Qed.

Lemma wp_wr_entry i f e (s : net) (Q : unit → net → Prop) :
  0 ≤ i → arp_table s !! Z.to_nat i = Some e → Q tt (set_table <[Z.to_nat i := f e]> s) → wp (wr_entry i f) Q s.
Proof. intros Hi He HQ. unfold wr_entry. apply wp_bind, (wp_rd_entry i e); [done|done|]. by apply wp_modify. Qed.

Lemma wp_rd_q x r (s : net) (Q : etharp_q_entry → net → Prop) : arp_queue s !! x = Some r → Q r s → wp (rd_q x) Q s.
Proof. intros Hr HQ. apply wp_bind, wp_gets. by apply wp_of_option with r. Qed.

(** A change of an entry that leaves its queue. *)
Lemma arp_rep_entry s owners es cs i e f :
  arp_rep s owners es cs → es !! i = Some e → e_q (f e) = e_q e →
  arp_rep (set_table <[i := f e]> s) owners (<[i := f e]> es) cs.
Proof.
  intros [Ht Hh Hq Hp] He Ef. split; [by cbn; rewrite Ht| |done|done].
  rewrite Hh. symmetry. rewrite list_fmap_insert, Ef. apply list_insert_id. by rewrite list_lookup_fmap, He.
Qed.

Lemma arp_rep_queue s owners es cs i e :
  arp_rep s owners es cs → es !! i = Some e → ∃ l, cs !! i = Some (e_q e, l).
Proof.
  intros [_ Hh _ _] He. assert (cs.*1 !! i = Some (e_q e)) as Hc by (by rewrite Hh, list_lookup_fmap, He).
  apply list_lookup_fmap_Some in Hc as ([q l] & E & Hc). simpl in E. subst q. by exists l.
Qed.

(** The queue of an entry in front of the others. *)
Lemma queues_at {cs : list (Z * queue)} {i c} : cs !! i = Some c → cs ≡ₚ c :: delete i cs.
Proof. apply delete_Permutation. Qed.

Lemma queues_set {cs : list (Z * queue)} {i c} c' : cs !! i = Some c → <[i := c']> cs ≡ₚ c' :: delete i cs.
Proof.
  intros Hc. apply take_drop_middle in Hc as E. assert (length (take i cs) = i) as Hi.
  { apply length_take_le. apply lookup_lt_Some in Hc. lia. }
  rewrite delete_take_drop. rewrite <-E at 1. rewrite (insert_app_r_alt _ _ i), Hi by lia. rewrite Nat.sub_diag. simpl.
  by rewrite Permutation_middle.
Qed.

(** ** Freeing entries *)

(** Only packets, queues and their pool change. *)
Record only_queues (s s' : net) : Prop := OnlyQueues {
  oq_table : arp_table s' = arp_table s;
  oq_cached : etharp_cached_entry s' = etharp_cached_entry s;
  oq_bytes : bytes s' = bytes s;
  oq_wire : wire s' = wire s
}.

Lemma wp_free_q_entry x p l cs (s : net) (Q : unit → net → Prop) :
  queues (arp_queue s) (arp_pool s) ((x, (x, p) :: l) :: cs) →
  (∀ n pool', arp_queue s !! x = Some (EtharpQEntry n p) → queues (delete x (arp_queue s)) pool' ((n, l) :: cs) →
    Q tt (set_pool pool' (set_queue (delete x) s))) →
  wp (free_q_entry x) Q s.
Proof.
  intros Hq HQ. unfold free_q_entry. apply wp_bind, wp_modify, wp_zoom. eapply queues_pop; [exact Hq|].
  intros n pool' Hn Hq'. by apply (HQ n).
Qed.

Lemma wp_free_etharp_loop l n q cs owners (s : net) (Q : unit → net → Prop) :
  queues (arp_queue s) (arp_pool s) ((q, l) :: cs) → pkt_ok (pm s) (owners ++ queued ((q, l) :: cs)) → (length l < n)%nat →
  (∀ s', queues (arp_queue s') (arp_pool s') cs → pkt_ok (pm s') (owners ++ queued cs) →
    only_queues s s' → left_over s s' → steady (owners ++ queued cs) s s' → Q tt s') →
  wp (free_etharp_loop custom_free n q) Q s.
Proof.
  revert n q s. induction l as [|[x p] l IH]; intros n q s Hq Ho Hn HQ; (destruct n as [|n]; [simpl in Hn; lia|]); simpl.
  - apply queues_empty in Hq as [-> Hq]. apply wp_ret, HQ; [done|done|done|by apply left_over_same|apply steady_refl].
  - destruct (qs_link _ _ _ Hq (q, (x, p) :: l)) as (E & Hx & Hp & m & Hm & _); [by left|]. simpl in E. subst q.
    rewrite (proj2 (Z.eqb_neq x NULL)) by done. apply wp_bind, (wp_rd_q x (EtharpQEntry m p)); [exact Hm|]. cbn [q_p q_next].
    apply wp_bind, wp_assert; [by apply negb_true_iff, Z.eqb_neq|].
    assert (pkt_ok (pm s) (p :: owners ++ queued ((m, l) :: cs))) as Ho1.
    { eapply pkt_ok_perm; [|exact Ho]. rewrite !queued_cons. symmetry. apply Permutation_middle. }
    apply wp_bind, (wp_release custom_free EP ER p (owners ++ queued ((m, l) :: cs))); [done|done|].
    intros r k p' _ Es Ho2 Hst1. apply wp_bind, (wp_free_q_entry x p l cs); [done|].
    intros n' pool' Hn' Hq'. cbn [set_pm arp_queue] in Hn'. rewrite Hm in Hn'. injection Hn' as <-.
    apply IH; [exact Hq'|exact Ho2|simpl in Hn; lia|]. intros s' Hq2 Ho3 Hoq Hlo Hst2. apply HQ; [done|done| | |].
    + by destruct Hoq.
    + eapply left_over_trans; [|exact Hlo]. split; [done|]. change (fewer (store (pm s)) (store p')). rewrite Es. apply release_back.
    + apply (steady_sub (owners ++ queued cs)) in Hst1; [|rewrite queued_cons; set_solver].
      eapply (steady_then EP ER); [exact Hst1|exact Hst2|exact Ho2|done..].
Qed.

Definition clean_entry : etharp_entry := EtharpEntry NULL 0 NULL ethzero 0 ETHARP_STATE_EMPTY.

Lemma wp_etharp_free_entry i e l owners es cs (s : net) (Q : unit → net → Prop) :
  arp_rep s owners es cs → 0 ≤ i → es !! Z.to_nat i = Some e → cs !! Z.to_nat i = Some (e_q e, l) →
  (∀ s' cs', cs' = <[Z.to_nat i := (NULL, [])]> cs → arp_rep s' owners (<[Z.to_nat i := clean_entry]> es) cs' →
    etharp_cached_entry s' = etharp_cached_entry s → left_over s s' → wire s' = wire s →
    steady (owners ++ queued cs') s s' → Q tt s') →
  wp (etharp_free_entry custom_free i) Q s.
Proof.
  intros [Ht Hh Hq Ho] Hi He Hc HQ. set (k := Z.to_nat i) in *. set (cs' := <[k := (NULL, [])]> cs).
  assert (cs' ≡ₚ (NULL, []) :: delete k cs) as Ecs' by (by eapply queues_set).
  pose proof (queues_at Hc) as Ecs. pose proof (queued_proper _ _ Ecs) as Eqd. rewrite queued_cons in Eqd. cbn [snd] in Eqd.
  assert (k < length es)%nat as Hk by by eapply lookup_lt_Some.
  unfold etharp_free_entry. apply wp_bind, (wp_rd_entry i e); [done|by rewrite Ht|].
  apply wp_bind. eapply wp_mono with (P := λ _ s', arp_table s' = <[k := set_e_q NULL e]> es ∧
    queues (arp_queue s') (arp_pool s') (delete k cs) ∧ pkt_ok (pm s') (owners ++ queued (delete k cs)) ∧
    etharp_cached_entry s' = etharp_cached_entry s ∧ left_over s s' ∧ wire s' = wire s ∧ steady (owners ++ queued (delete k cs)) s s').
  { apply wp_when; intros Hn.
    - apply negb_true_iff, Z.eqb_neq in Hn. apply wp_bind. unfold free_etharp_q.
      apply wp_bind, wp_assert; [by apply negb_true_iff, Z.eqb_neq|]. apply wp_bind, wp_gets.
      assert (queues (arp_queue s) (arp_pool s) ((e_q e, l) :: delete k cs)) as Hq1 by by eapply queues_perm.
      apply (wp_free_etharp_loop l _ _ (delete k cs) owners); [done|eapply pkt_ok_perm; [|exact Ho]; by rewrite queued_cons, <-Eqd| |].
      { rewrite Nat.lt_succ_r. eapply qlinked_size; [apply (qs_link _ _ _ Hq1 (e_q e, l)); by left|].
        pose proof (queues_nodup _ _ _ Hq1) as Hnd. rewrite nodes_cons in Hnd. by apply NoDup_app in Hnd as (? & _). }
      intros s' Hq' Ho' [T C B W] Hlo Hst. apply (wp_wr_entry i _ e); [done|by rewrite T, Ht|]. cbn. rewrite T, Ht. split_and!; try done.
      eapply (steady_then EP ER); [exact Hst|apply steady_refl|exact Ho'|done..].
    - apply negb_false_iff, Z.eqb_eq in Hn. assert (l = []) as ->.
      { destruct l as [|[x p] l]; [done|]. destruct (qs_link _ _ _ Hq (e_q e, (x, p) :: l)) as (E & Hx & _); [by eapply list_elem_of_lookup_2|].
        simpl in E. congruence. }
      split_and!; try done.
      + rewrite Ht. symmetry. apply list_insert_id. rewrite He. f_equal. destruct e; simpl in *. by subst.
      + eapply queues_perm in Hq; [|exact Ecs]. by apply queues_empty in Hq as [_ Hq].
      + eapply pkt_ok_perm; [|exact Ho]. by rewrite Eqd.
      + by apply left_over_same.
      + apply steady_refl. }
  intros [] s1 (Ht1 & Hq1 & Ho1 & Ec1 & Eb1 & Ew1 & Hst1).
  assert (∀ e' s2 f (Q' : unit → net → Prop), arp_table s2 = <[k := e']> es → Q' tt (set_table (λ _, <[k := f e']> es) s2) → wp (wr_entry i f) Q' s2) as Hwr.
  { intros e' s2 f Q' Hs2 HQ'. apply (wp_wr_entry i f e'); [done|rewrite Hs2; by apply list_lookup_insert_eq|].
    unfold set_table in *. rewrite Hs2, list_insert_insert_eq. exact HQ'. }
  do 4 (apply wp_bind; eapply Hwr; [(exact Ht1 || done)|]). eapply Hwr; [done|]. apply (HQ _ cs'); try done.
  - split; cbn.
    + done.
    + unfold cs'. rewrite !list_fmap_insert, Hh. done.
    + eapply queues_perm; [symmetry; exact Ecs'|]. by apply queues_empty.
    + eapply pkt_ok_perm; [|exact Ho1]. by rewrite Ecs', queued_cons.
  - apply (steady_sub _ (owners ++ queued (delete k cs))); [by rewrite Ecs', queued_cons|].
    eapply (steady_then EP ER); [exact Hst1|apply steady_refl|exact Ho1|done..].
Qed.

(** ** Sending ARP packets *)

(** The interface is there and has an Ethernet address. *)
Record nif_ok (s : net) (nif : Z) (n : netif) : Prop := NifOk {
  ni_ptr : nif ≠ NULL;
  ni_netif : netifs s !! nif = Some n;
  ni_len : n_hwaddr_len n = ETH_HWADDR_LEN;
  ni_hwaddr : length (n_hwaddr n) = 6%nat
}.

Lemma nif_ok_same s s' nif n : netifs s' = netifs s → nif_ok s nif n → nif_ok s' nif n.
Proof. intros E [Hp Hn Hl Hh]. split; [done|by rewrite E|done|done]. Qed.

(** [a] points to [d], and not into a block the heap gives out. *)
Definition fixed (s : net) (owners : list Z) (a : M net (list Z)) (d : list Z) : Prop :=
  ∀ q p', q ≠ NULL → store (pm s) !! q = None → store p' = <[q := ram_pbuf PBUF_LINK q SIZEOF_ETHARP_HDR]> (store (pm s)) → pkt_ok p' (q :: owners) →
    points (set_pm (λ _, p') s) (q + 16) (q + 60) a d.

Lemma fixed_hwaddr s owners nif n : nif_ok s nif n → fixed s owners (hwaddr nif) (n_hwaddr n).
Proof. intros [_ Hn _ Hh] q p' _ _ _ _. by apply points_hwaddr. Qed.

Lemma fixed_const s owners d : length d = 6%nat → fixed s owners (to_const d) d.
Proof. intros Hd q p' _ _ _ _. by apply points_const. Qed.

Lemma fixed_entry s owners i e :
  0 ≤ i → arp_table s !! Z.to_nat i = Some e → length (e_ethaddr e) = 6%nat → fixed s owners (entry_ethaddr i) (e_ethaddr e).
Proof.
  intros Hi He Hl q p' _ _ _ _. split; [done|]. intros s' _ Et _. unfold entry_ethaddr, rd_entry.
  rewrite (proj2 (Z.ltb_ge i 0)) by done. unfold fmap, M_fmap, mbind, M_bind, gets. rewrite Et. cbn [set_pm arp_table]. by rewrite He.
Qed.

(** Inside the data of a packet. *)
Lemma fixed_at s owners p b k :
  store (pm s) !! p = Some b → pbuf_get_allocsrc b ≠ 1 → 0 ≤ k → k + 6 ≤ b_len b →
  fixed s owners (at_addr (b_payload b + k)) (mem_read (b_payload b + k) 6 (bytes s)).
Proof.
  intros Hb Hs Hk Hlen q p' Hq Hnone Es Ho. apply (points_at (set_pm (λ _, p') s)).
  assert (q ≠ p) as Hne by (intros ->; congruence).
  assert (store p' !! p = Some b) as Hb' by (by rewrite Es, lookup_insert_ne by done).
  assert (store p' !! q = Some (ram_pbuf PBUF_LINK q SIZEOF_ETHARP_HDR)) as Hq' by (by rewrite Es, lookup_insert_eq).
  destruct (mo_data _ _ _ (po_mem _ _ _ _ Ho) p b Hb' Hs) as (_ & Hp1 & _ & Hp2).
  destruct (mo_data _ _ _ (po_mem _ _ _ _ Ho) q _ Hq' ltac:(done)) as (_ & Hq1 & _ & Hq2). change SIZEOF_STRUCT_PBUF with 16 in *.
  change (b_payload (ram_pbuf PBUF_LINK q SIZEOF_ETHARP_HDR)) with (q + 16 + 16) in *.
  change (b_len (ram_pbuf PBUF_LINK q SIZEOF_ETHARP_HDR)) with 28 in *.
  destruct (blocks_apart EP ER p' q p _ b (po_mem _ _ _ _ Ho) Hq' Hb' ltac:(done) Hs Hne); lia.
Qed.

Lemma wp_hwaddr nif n (s : net) (Q : list Z → net → Prop) : nif_ok s nif n → Q (n_hwaddr n) s → wp (hwaddr nif) Q s.
Proof. intros [_ Hn _ _] HQ. apply wp_bind, (wp_rd_netif nif n); [done|]. by apply wp_ret. Qed.

Lemma sent_alone (s : net) q b h :
  store (pm s) !! q = Some b → can_grow q b SIZEOF_ETH_HDR false = true → sent s q [q] h = [[h ++ data_of s q]].
Proof. intros Hb Hg. unfold sent. by rewrite Hb, Hg. Qed.

(** A new pbuf is made and is gone again. *)
Lemma release_alone (σ σ' : bufs) q b b' l :
  σ !! q = None → store_same_but q (<[q := b]> σ) σ' → σ' !! q = Some b' → b_ref b' = 1 → b_next b' = NULL →
  σ !! NULL = None → chain σ' q l → q ≠ NULL → (release l σ').1 = σ.
Proof.
  intros Hq Hsame Hb' Hr Hn Hnull Hl Hqn. destruct l as [|x l]; [by simpl in Hl|]. destruct Hl as (<- & c & Hc & Hl). rewrite Hb' in Hc. injection Hc as <-.
  assert (l = []) as ->.
  { destruct l as [|y l]; [done|]. destruct Hl as (E & c & Hc & _). rewrite Hn in E. subst y.
    rewrite (Hsame NULL) in Hc by done. by rewrite lookup_insert_ne in Hc by done; rewrite Hnull in Hc. }
  simpl. rewrite Hb', Hr. simpl. apply map_eq. intros x. destruct (decide (x = q)) as [->|Hne]; [by rewrite lookup_delete_eq|].
  rewrite lookup_delete_ne by done. rewrite Hsame by done. by rewrite lookup_insert_ne by done.
Qed.

(** The frame of an ARP packet. *)
Definition arp_frame (n : netif) (dst : list Z) (opcode : Z) (tha : list Z) (tip : Z) : frame :=
  [eth_header dst (n_hwaddr n) ETHTYPE_ARP ++ arp_packet opcode (n_hwaddr n) (ip_addr n) tha tip].

(** What sending an ARP packet does: no memory, or one more frame. *)
Record raw_sent (owners : list Z) (f : frame) (s s' : net) : Prop := RawSent {
  rs_arp : same_arp s s';
  rs_store : store (pm s') = store (pm s);
  rs_pkt : pkt_ok (pm s') owners;
  rs_data : data_stays s s';
  rs_wire : wire s' = wire s ++ [f]
}.

Lemma fill_raw {A} nif n hwsrc hwdst sha tha ipdst opcode owners q p' (s : net) (Q : A → net → Prop) (k : M net A) :
  let s1 := set_pm (λ _, p') s in let hdr := q + 32 in
  pkt_ok p' (q :: owners) → store (pm s) !! q = None → store p' = <[q := ram_pbuf PBUF_LINK q SIZEOF_ETHARP_HDR]> (store (pm s)) → q ≠ NULL →
  nif_ok s nif n → fixed s owners hwsrc sha → fixed s owners hwdst tha → 0 ≤ opcode < 65536 →
  (∀ m, off hdr (hdr + 28) (bytes s) m → mem_read hdr 28 m = arp_packet opcode sha (ip_addr n) tha ipdst → wp k Q (set_bytes (λ _, m) s1)) →
  wp (wr16 (hdr + 6) (lwip_htons opcode);;
      n ← rd_netif nif;
      assert_that (n_hwaddr_len n =? ETH_HWADDR_LEN);;
      shw ← hwsrc; wr_bytes (hdr + 8) shw;;
      dhw ← hwdst; wr_bytes (hdr + 18) dhw;;
      sip ← netif_ip4_addr nif; wr32 (hdr + 14) sip;;
      wr32 (hdr + 24) ipdst;;
      wr16 hdr (PP_HTONS LWIP_IANA_HWTYPE_ETHERNET);;
      wr16 (hdr + 2) (PP_HTONS ETHTYPE_IP);;
      wr8 (hdr + 4) ETH_HWADDR_LEN;;
      wr8 (hdr + 5) 4;; k) Q s1.
Proof.
  intros s1 hdr Ho Hnone Es Hq Hnif Hsrc Hdst Hop HQ. destruct Hnif as [Hp Hn Hnl Hh].
  destruct (Hsrc q p' Hq Hnone Es Ho) as [Ls Hs]. destruct (Hdst q p' Hq Hnone Es Ho) as [Lt Ht]. fold s1 in Hs, Ht.
  pose proof (length_le_bytes 2) as L2. pose proof (length_le_bytes 4) as L4. pose proof (length_le_bytes 1) as L1.
  unfold wr16, wr32, wr8, wr_bytes. apply wp_bind, wp_modify. apply wp_bind, (wp_rd_netif nif n); [done|].
  apply wp_bind, wp_assert; [by apply Z.eqb_eq|].
  apply wp_bind. eapply wp_run; [apply Hs; [done|done|]; cbn [bytes set_bytes]; apply off_write; [apply off_refl|lia|rewrite L2; lia]|].
  apply wp_bind, wp_modify, wp_bind.
  eapply wp_run; [apply Ht; [done|done|]; cbn [bytes set_bytes]; apply off_write; [apply off_write; [apply off_refl|lia|rewrite L2; lia]|lia|rewrite Ls; lia]|].
  apply wp_bind, wp_modify, wp_bind. unfold netif_ip4_addr. apply wp_fmap, (wp_rd_netif nif n); [done|].
  do 6 apply wp_bind, wp_modify. eapply HQ.
  - cbn [bytes set_bytes]. repeat (apply off_write; [|lia|rewrite ?L1, ?L2, ?L4, ?Ls, ?Lt; lia]). apply off_refl.
  - cbn [bytes set_bytes]. by apply arp_written.
Qed.

Lemma wp_etharp_raw nif n ethdst hwdst dst tha ipdst opcode owners (s : net) (Q : Z → net → Prop) :
  pkt_ok (pm s) owners → nif_ok s nif n → fixed s owners ethdst dst → fixed s owners hwdst tha → 0 ≤ opcode < 65536 →
  (∀ p', no_memory custom_free PBUF_LINK SIZEOF_ETHARP_HDR (pm s) → store p' = store (pm s) → pkt_ok p' owners → Q ERR_MEM (set_pm (λ _, p') s)) →
  (∀ s', raw_sent owners (arp_frame n dst opcode tha ipdst) s s' → Q ERR_OK s') →
  wp (etharp_raw custom_free link_err nif (hwaddr nif) ethdst (hwaddr nif) (netif_ip4_addr nif) hwdst ipdst opcode) Q s.
Proof.
  intros Ho Hnif Heth Hhw Hop Hno Hyes. unfold etharp_raw.
  apply wp_bind, wp_assert; [by apply negb_true_iff, Z.eqb_neq; destruct Hnif|].
  apply wp_bind, wp_zoom, (wp_alloc_pkt custom_free EP ER PBUF_LINK SIZEOF_ETHARP_HDR owners); [done|done| |].
  { intros p' Hm Es Ho'. cbn [Z.eqb NULL]. by apply wp_ret, Hno. }
  intros q p' Hq Hnone Es Ho'. rewrite (proj2 (Z.eqb_neq q NULL)) by done.
  set (t := ram_pbuf PBUF_LINK q SIZEOF_ETHARP_HDR) in *. set (s1 := set_pm (λ _, p') s).
  assert (store p' !! q = Some t) as Ht by (by rewrite Es, lookup_insert_eq).
  apply wp_bind, (wp_rd_pbuf q t); [done|]. apply wp_bind, wp_assert; [done|].
  assert (b_payload t = q + 32) as Ehdr by (change (b_payload t) with (q + 16 + 16); lia). rewrite Ehdr.
  apply (fill_raw nif n (hwaddr nif) hwdst (n_hwaddr n) tha ipdst opcode owners q p' s); try done; [by apply fixed_hwaddr|].
  intros m Hoff Hm. set (s2 := set_bytes (λ _, m) s1).
  assert (chain (store p') q [q]) as Hl by (split; [done|]; by exists t).
  apply wp_bind, (wp_ethernet_sends link_err EP ER nif n q [q] _ _ (n_hwaddr n) dst ETHTYPE_ARP (q :: owners) s2); try done.
  { by destruct Hnif. }
  { by destruct Hnif. }
  { intros b Hb _ _. change (store p' !! q = Some b) in Hb. rewrite Ht in Hb. injection Hb as <-. rewrite Ehdr. change SIZEOF_ETH_HDR with 14.
    assert (off (q + 16) (q + 60) (bytes s1) (bytes s2)) as Hoff' by (eapply off_wider; [exact Hoff|lia|lia]).
    split; [by apply points_hwaddr; destruct Hnif|]. eapply points_weaken; [by apply (Heth q p')|done|done|exact Hoff'|lia|lia]. }
  intros r s3 Hsn. destruct (sn_self _ _ _ _ _ _ _ _ Hsn t Ht) as (t' & Ht' & N' & R' & _).
  apply wp_bind, (wp_release custom_free EP ER q owners s3); [by apply (sn_pkt _ _ _ _ _ _ _ _ Hsn)|done|].
  intros _ l p4 Hl4 Es4 Ho4 Hst4. apply wp_ret, Hyes.
  assert (store p4 = store (pm s)) as Estore.
  { rewrite Es4. eapply (release_alone (store (pm s)) _ q t t' l Hnone); [|exact Ht'|by rewrite R'|by rewrite N'|apply (pkt_null _ _ _ _ Ho)|exact Hl4|done].
    intros y Hy. rewrite (sn_other _ _ _ _ _ _ _ _ Hsn y Hy). cbn [s2 s1 set_bytes set_pm pm]. by rewrite Es. }
  split.
  - destruct (sn_arp _ _ _ _ _ _ _ _ Hsn) as [? ? ? ? ?]. done.
  - done.
  - done.
  - intros y b Hb Hs. assert (q ≠ y) as Hqy by congruence. assert (store p' !! y = Some b) as Hb' by (by rewrite Es, lookup_insert_ne by done).
    change (bytes (set_pm (λ _, p4) s3)) with (bytes s3). rewrite (sn_data _ _ _ _ _ _ _ _ Hsn y b Hb' Hs), (data_of_read s2 y b Hb').
    assert (data_of s1 y = data_of s y) as <- by (unfold data_of; cbn [s1 set_pm pm bytes]; by rewrite Hb', Hb).
    apply (data_apart EP ER s1 (q :: owners) (q + 32) (q + 32 + 28) m q y t b); try done; rewrite ?Ehdr; change SIZEOF_STRUCT_PBUF with 16; change (b_len t) with 28; lia.
  - destruct (sn_wire _ _ _ _ _ _ _ _ Hsn) as (fs & Ew & Hfs). change (wire (set_pm (λ _, p4) s3)) with (wire s3). rewrite Ew. change (wire s2) with (wire s). f_equal.
    rewrite Hfs by (intros x b ->%list_elem_of_singleton Hb; change (store p' !! q = Some b) in Hb; rewrite Ht in Hb; by injection Hb as <-).
    rewrite (sent_alone s2 q t); [|done|]. { unfold arp_frame. do 3 f_equal. rewrite (data_of_read s2 q t Ht). rewrite Ehdr. exact Hm. }
    unfold can_grow. cbn [t ram_pbuf b_tot_len]. rewrite Ehdr. change SIZEOF_STRUCT_PBUF with 16. change SIZEOF_ETH_HDR with 14.
    change (14 <=? 0xFFFF) with true. change (28 + 14 <? 65536) with true. cbn [andb].
    change (negb (Z.land (b_type (ram_pbuf PBUF_LINK q SIZEOF_ETHARP_HDR)) PBUF_TYPE_FLAG_STRUCT_DATA_CONTIGUOUS =? 0)) with true. apply Z.leb_le. lia.
Qed.
End etharp_thm.
