(* ===== verification/EtharpOps.v ===== *)
(** The invariant of the ARP table ([arp_ok]) and the specifications of the
    functions of [Etharp] that find, age and free entries. *)
From stdpp Require Import base tactics numbers list gmap.
From S2P Require Import Prelude Words Def Memp PbufMem PbufThm PbufOps Ip4Addr Net NetThm Etharp EtharpThm.

(** ** The table *)

(** An entry and the packets in its queue; all entries are for the interface [nif]. *)
Record entry_ok (nif : Z) (e : etharp_entry) (l : queue) : Prop := EntryOk {
  eo_state : ETHARP_STATE_EMPTY ≤ e_state e ≤ ETHARP_STATE_STABLE_REREQUESTING_2;
  eo_ctime : 0 ≤ e_ctime e < ARP_MAXAGE;
  eo_young : e_state e = ETHARP_STATE_PENDING → e_ctime e < ARP_MAXPENDING;
  eo_mac : length (e_ethaddr e) = 6%nat;
  eo_queue : Z.of_nat (length l) ≤ ARP_QUEUE_LEN;
  eo_waits : l ≠ [] → e_state e = ETHARP_STATE_PENDING;
  eo_netif : used e → e_netif e = nif
}.

(** At most one entry for an address. *)
Definition distinct (es : list etharp_entry) : Prop :=
  ∀ i j e e', es !! i = Some e → es !! j = Some e' → used e → used e' → e_ipaddr e = e_ipaddr e' → i = j.

Record table_ok (nif : Z) (es : list etharp_entry) (cs : list (Z * queue)) : Prop := TableOk {
  to_len : length es = Z.to_nat ARP_TABLE_SIZE;
  to_entry i e q l : es !! i = Some e → cs !! i = Some (q, l) → entry_ok nif e l;
  to_distinct : distinct es
}.

(** What an entry is for [etharp_find_entry] to give it a new address. *)
Definition clean_if_used (e : etharp_entry) : etharp_entry := if decide (used e) then clean_entry else e.
Definition new_entry (a : Z) (e : etharp_entry) : etharp_entry := set_e_ctime 0 (set_e_ipaddr a (clean_if_used e)).

Lemma clean_entry_ok nif : entry_ok nif clean_entry [].
Proof. by split. Qed.

Lemma clean_entry_unused : ¬ used clean_entry.
Proof. intros Hu. by apply Hu. Qed.

Lemma clean_if_used_unused e : ¬ used (clean_if_used e).
Proof. unfold clean_if_used. destruct (decide (used e)); [by apply clean_entry_unused|done]. Qed.

Lemma new_entry_unused a e : ¬ used (new_entry a e).
Proof. exact (clean_if_used_unused e). Qed.

Lemma new_entry_ok nif a e l : entry_ok nif e l → entry_ok nif (new_entry a e) [].
Proof.
  intros [Hs Hc Hy Hm Hl Hw Hn]. pose proof (clean_if_used_unused e) as Hu. unfold new_entry in *. unfold clean_if_used in *. destruct (decide (used e)); by split.
Qed.

Lemma entry_ok_unused nif e l : entry_ok nif e l → ¬ used e → l = [].
Proof. intros [_ _ _ _ _ Hw _] Hu. destruct l; [done|]. destruct Hu. unfold used. by rewrite Hw. Qed.

Lemma kinds nif e l : entry_ok nif e l → used e → stable e ∨ e_state e = ETHARP_STATE_PENDING.
Proof.
  intros [Hs _ _ _ _ _ _] Hu. unfold used, stable, ETHARP_STATE_EMPTY, ETHARP_STATE_STABLE, ETHARP_STATE_PENDING in *. lia.
Qed.

Lemma distinct_insert es i e :
  distinct es → (used e → ∀ j e', j ≠ i → es !! j = Some e' → used e' → e_ipaddr e' ≠ e_ipaddr e) → distinct (<[i := e]> es).
Proof.
  intros Hd Hn j k e1 e2 Hj Hk Hu1 Hu2 Ea. apply list_lookup_insert_Some in Hj as [(<- & -> & _)|[Hij Hj]];
  apply list_lookup_insert_Some in Hk as [(<- & -> & _)|[Hik Hk]]; [done| | |by eapply Hd].
  - destruct (Hn Hu1 k e2); done.
  - destruct (Hn Hu2 j e1); done.
Qed.

Lemma table_ok_insert nif es cs i e q l :
  table_ok nif es cs → entry_ok nif e l → (used e → ∀ j e', j ≠ i → es !! j = Some e' → used e' → e_ipaddr e' ≠ e_ipaddr e) →
  table_ok nif (<[i := e]> es) (<[i := (q, l)]> cs).
Proof.
  intros [Hl He Hd] Hok Hn. split; [by rewrite length_insert| |by apply distinct_insert].
  intros j e' q' l' Hj Hc. apply list_lookup_insert_Some in Hj as [(<- & -> & Hlt)|[Hij Hj]].
  - apply list_lookup_insert_Some in Hc as [(_ & [= -> ->] & _)|[? _]]; done.
  - rewrite list_lookup_insert_ne in Hc by done. by eapply He.
Qed.

(** A change of an entry that leaves its address and its queue. *)
Lemma table_ok_change nif es cs i e e' q l :
  table_ok nif es cs → es !! i = Some e → cs !! i = Some (q, l) → entry_ok nif e' l → e_ipaddr e' = e_ipaddr e → used e →
  table_ok nif (<[i := e']> es) cs.
Proof.
  intros Ht He Hc Hok Ea Hu. replace cs with (<[i := (q, l)]> cs) by by apply list_insert_id. apply table_ok_insert; [done|done|].
  intros _ j e2 Hj He2 Hu2. rewrite Ea. intros E. apply Hj. by apply (to_distinct _ _ _ Ht j i e2 e).
Qed.

Section etharp_ops.
Context {PP PR H PQ : Type} `{PoolLaws PP, PoolLaws PR, HeapLaws H, PoolLaws PQ}.
Context (custom_free : Z → M (pmem PP PR H) unit) (link_err : list frame → Z).
Context (EP ER EQ : list Z) `{!Layout (PP := PP) (PR := PR) (H := H) EP ER} `{!QueueLayout (PQ := PQ) EQ}.

Notation net := (net PP PR H PQ).
Notation pkt_ok := (pkt_ok EP ER).
Notation arp_rep := (arp_rep EP ER EQ).

(** The ARP module between two calls: the table [es], the queues [cs], the
    references [owners] of the others, one interface. *)
Record arp_ok (nif : Z) (n : netif) (s : net) (owners : list Z) (es : list etharp_entry) (cs : list (Z * queue)) : Prop := ArpOk {
  ao_rep : arp_rep s owners es cs;
  ao_nif : nif_ok s nif n;
  ao_table : table_ok nif es cs;
  ao_cached : 0 ≤ etharp_cached_entry s < ARP_TABLE_SIZE
}.

(** ** The search *)

Lemma wp_sweep a es pre n (c : candidates) (s : net) (Q : Z + candidates → net → Prop) :
  arp_table s = pre ++ es → n = length es → Forall (λ e, 0 ≤ e_state e) es → Q (scan (Z.of_nat (length pre)) a es c) s →
  wp (sweep n (Z.of_nat (length pre)) a c) Q s.
Proof.
  revert pre n c. induction es as [|e es IH]; intros pre n c Ht -> Hst HQ; [by apply wp_ret|]. apply Forall_cons in Hst as [He Hst].
  cbn [sweep length]. apply wp_bind, (wp_rd_entry _ e); [lia| |].
  { by rewrite Nat2Z.id, Ht, lookup_app_r, Nat.sub_diag by lia. }
  apply wp_bind, wp_when; [intros Hu%negb_true_iff%Z.eqb_neq; apply wp_assert|intros _].
  { unfold ETHARP_STATE_EMPTY, ETHARP_STATE_PENDING, ETHARP_STATE_STABLE in *. apply orb_true_iff. rewrite Z.eqb_eq, Z.leb_le. lia. }
  all: cbn [scan] in HQ; destruct (_ && _); [by apply wp_ret|].
  all: replace (Z.of_nat (length pre) + 1) with (Z.of_nat (length (pre ++ [e]))) in * by (rewrite length_app; simpl; lia).
  all: apply IH; [by rewrite <-app_assoc|done|done|done].
Qed.

Lemma scan_all_used nif es cs c :
  table_ok nif es cs → scanned es c → (∀ i, is_Some (es !! i) → is_Some (cs !! i)) → empty c = ARP_TABLE_SIZE →
  old_stable c < ARP_TABLE_SIZE ∨ old_pending c < ARP_TABLE_SIZE ∨ old_queue c < ARP_TABLE_SIZE.
Proof.
  intros Ht [[[_ Hu]|[? _]] Hs Hp Hq] Hcs He; [|lia]. pose proof (to_len _ _ _ Ht) as Hl. change (Z.to_nat ARP_TABLE_SIZE) with 10%nat in Hl.
  destruct (es !! 0%nat) as [e|] eqn:E0; [|by apply lookup_ge_None_1 in E0; lia].
  assert (used e) as Hue by (specialize (Hu 0%nat e E0); simpl in Hu; destruct (decide (used e)); tauto).
  destruct (Hcs 0%nat) as [[q l] Hc]; [by eexists|].
  destruct (kinds nif e l (to_entry _ _ _ Ht _ _ _ _ E0 Hc) Hue) as [Hst|Hpe].
  - left. destruct Hs as [(_ & _ & Hn)|(? & _)]; [by destruct (Hn 0%nat e)|lia].
  - right. destruct (decide (e_q e = NULL)) as [Eq|Eq].
    + left. destruct Hp as [(_ & _ & Hn)|(? & _)]; [by destruct (Hn 0%nat e)|lia].
    + right. destruct Hq as [(_ & _ & Hn)|(? & _)]; [by destruct (Hn 0%nat e)|lia].
Qed.

(** What a candidate below the size of the table is. *)
Lemma candidate_at P es old age : candidate P es old age → old < ARP_TABLE_SIZE → 0 ≤ old ∧ oldest P es (Z.to_nat old).
Proof. intros [(? & _)|([? ?] & ? & _)] Ho; [lia|done]. Qed.

Lemma candidate_none P es old age : candidate P es old age → ¬ old < ARP_TABLE_SIZE → none P es.
Proof. intros [(_ & _ & ?)|(? & _)] Ho; [done|lia]. Qed.

Lemma oldest_at P es i : oldest P es i → ∃ e, es !! i = Some e ∧ P e.
Proof. intros (e & ? & ? & _). by exists e. Qed.

(** The entry to recycle: [etharp_free_entry] runs on it. *)
Lemma select_choice nif n s owners es cs c (Q : Z → net → Prop) :
  arp_ok nif n s owners es cs → scanned es c →
  (∀ i e, empty c = Z.of_nat i → choice es i → es !! i = Some e → ¬ used e → Q (Z.of_nat i) s) →
  (∀ i e, empty c = ARP_TABLE_SIZE → choice es i → es !! i = Some e → used e →
    wp (etharp_free_entry custom_free (Z.of_nat i)) (λ _ s', Q (Z.of_nat i) s') s) →
  wp (select_entry custom_free c) Q s.
Proof.
  intros Hok Hsc Hfree Hrec. pose proof (ao_table _ _ _ _ _ _ Hok) as Htab. pose proof (ao_rep _ _ _ _ _ _ Hok) as Hrep.
  assert (∀ i, is_Some (es !! i) → is_Some (cs !! i)) as Hcs.
  { intros i [e He]. destruct (arp_rep_queue _ _ _ _ _ _ _ _ _ Hrep He) as [l Hl]. by eexists. }
  pose proof (scan_all_used _ _ _ _ Htab Hsc Hcs) as Hany. destruct Hsc as [He Hs Hp Hq]. unfold select_entry.
  destruct (Z.ltb_spec (empty c) ARP_TABLE_SIZE) as [Hlt|Hge].
  { destruct He as [[? _]|(Hr & e & Hi & Hu & Hmin)]; [lia|]. apply wp_ret.
    rewrite <-(Z2Nat.id (empty c)) by lia. apply (Hfree _ e); [lia| |done|done]. by apply choose_empty with e. }
  destruct He as [[Ee Hall]|[? _]]; [|lia]. specialize (Hany Ee).
  assert (∀ i e, es !! i = Some e → used e) as Hused.
  { intros i e Hi. specialize (Hall i e Hi). simpl in Hall. destruct (decide (used e)); tauto. }
  assert (∀ old, 0 ≤ old < ARP_TABLE_SIZE → choice es (Z.to_nat old) → (∃ e, es !! Z.to_nat old = Some e) →
    wp (if old =? ERR_MEM then mret ERR_MEM else assert_that (old <? ARP_TABLE_SIZE);; etharp_free_entry custom_free old;; mret old) Q s) as Hgo.
  { intros old Hold Hch [e He]. unfold ERR_MEM. rewrite (proj2 (Z.eqb_neq old (-1))) by lia. apply wp_bind, wp_assert; [apply Z.ltb_lt; lia|].
    apply wp_bind. rewrite <-(Z2Nat.id old) by lia. eapply wp_mono; [exact (Hrec _ e Ee Hch He (Hused _ _ He))|]. intros [] s' HQ. cbv beta in HQ. apply wp_ret, HQ. }
  apply wp_bind. destruct (Z.ltb_spec (old_stable c) ARP_TABLE_SIZE) as [Hst|Hst].
  { destruct (candidate_at _ _ _ _ Hs Hst) as [Hpos Ho]. destruct (oldest_at _ _ _ Ho) as (e & He & HP).
    apply wp_bind, (wp_rd_entry _ e); [done|by rewrite (ar_table _ _ _ _ _ _ _ Hrep)|].
    destruct (Hcs _ (mk_is_Some _ _ He)) as [[q l] Hc]. destruct (arp_rep_queue _ _ _ _ _ _ _ _ _ Hrep He) as [l' Hl']. rewrite Hc in Hl'. injection Hl' as -> ->.
    assert (l' = []) as ->.
    { destruct (to_entry _ _ _ Htab _ _ _ _ He Hc) as [_ _ _ _ _ Hw _]. destruct l'; [done|]. unfold stable, ETHARP_STATE_STABLE in HP. rewrite Hw in HP; done. }
    pose proof (qs_link _ _ _ _ (ar_queues _ _ _ _ _ _ _ Hrep) _ (list_elem_of_lookup_2 _ _ _ Hc)) as Hq0. simpl in Hq0.
    apply wp_bind, wp_assert; [by rewrite Hq0|]. apply wp_ret, Hgo; [done| |by eexists]. by apply choose_stable. }
  pose proof (candidate_none _ _ _ _ Hs ltac:(lia)) as Ns.
  destruct (Z.ltb_spec (old_pending c) ARP_TABLE_SIZE) as [Hpe|Hpe].
  { destruct (candidate_at _ _ _ _ Hp Hpe) as [Hpos Ho]. destruct (oldest_at _ _ _ Ho) as (e & He & _).
    apply wp_ret, Hgo; [done| |by eexists]. by apply choose_pending. }
  pose proof (candidate_none _ _ _ _ Hp ltac:(lia)) as Np.
  destruct (Z.ltb_spec (old_queue c) ARP_TABLE_SIZE) as [Hqu|Hqu]; [|lia].
  destruct (candidate_at _ _ _ _ Hq Hqu) as [Hpos Ho]. destruct (oldest_at _ _ _ Ho) as (e & He & _).
  apply wp_ret, Hgo; [done| |by eexists]. by apply choose_queue.
Qed.

(** What [etharp_find_entry] must not do: create an entry for a search, or
    recycle one without [ETHARP_FLAG_TRY_HARD]. *)
Definition refused (es : list etharp_entry) (flags : Z) : Prop :=
  Z.land flags ETHARP_FLAG_FIND_ONLY ≠ 0 ∨ none (λ e, ¬ used e) es ∧ Z.land flags ETHARP_FLAG_TRY_HARD = 0.

(** Only packets, queues and the table change. *)
Record quiet (s s' : net) : Prop := Quiet {
  qt_netifs : netifs s' = netifs s;
  qt_cached : etharp_cached_entry s' = etharp_cached_entry s;
  qt_left : left_over s s';
  qt_wire : wire s' = wire s
}.

Lemma scanned_start : scanned [] (Candidates ARP_TABLE_SIZE ARP_TABLE_SIZE ARP_TABLE_SIZE ARP_TABLE_SIZE 0 0 0).
Proof. split; left; split_and?; try done; by intros i e [=]. Qed.

Lemma scan_table nif n s owners es cs a c :
  arp_ok nif n s owners es cs → scan 0 (Some a) es (Candidates ARP_TABLE_SIZE ARP_TABLE_SIZE ARP_TABLE_SIZE ARP_TABLE_SIZE 0 0 0) = inr c →
  scanned es c ∧ no_entry a es.
Proof.
  intros Hok Hs. pose proof (ao_table _ _ _ _ _ _ Hok) as Ht. apply (scan_none [] a es _ c) in Hs; [done|apply scanned_start|by intros i e [=]| |].
  - rewrite (to_len _ _ _ Ht). done.
  - apply Forall_lookup_2. intros i e He. destruct (arp_rep_queue _ _ _ _ _ _ _ _ _ (ao_rep _ _ _ _ _ _ Hok) He) as [l Hl].
    destruct (to_entry _ _ _ Ht _ _ _ _ He Hl) as [Hst Hc _ _ _ _ _]. unfold ETHARP_STATE_EMPTY in Hst. lia.
Qed.

(** The entry [i] gets the new address. *)
Lemma wp_new_entry a i e f owners es cs (s : net) (Q : Z → net → Prop) :
  arp_rep s owners es cs → es !! i = Some e → e_state e = ETHARP_STATE_EMPTY → (i < 10)%nat →
  f = (λ e, set_e_ctime 0 (set_e_ipaddr a e)) →
  Q (Z.of_nat i) (set_table (λ _, <[i := f e]> es) s) →
  wp (assert_that (Z.of_nat i <? ARP_TABLE_SIZE);;
      e ← rd_entry (Z.of_nat i);
      assert_that (e_state e =? ETHARP_STATE_EMPTY);;
      wr_entry (Z.of_nat i) (set_e_ipaddr a);;
      wr_entry (Z.of_nat i) (set_e_ctime 0);;
      mret (Z.of_nat i)) Q s.
Proof.
  intros Hrep He Hst Hi -> HQ. pose proof (ar_table _ _ _ _ _ _ _ Hrep) as Ht. pose proof (lookup_lt_Some _ _ _ He) as Hlt.
  apply wp_bind, wp_assert; [unfold ARP_TABLE_SIZE; apply Z.ltb_lt; lia|].
  apply wp_bind, (wp_rd_entry _ e); [lia|by rewrite Nat2Z.id, Ht|]. apply wp_bind, wp_assert; [by apply Z.eqb_eq|].
  apply wp_bind, (wp_wr_entry _ _ e); [lia|by rewrite Nat2Z.id, Ht|]. rewrite Nat2Z.id.
  apply wp_bind, (wp_wr_entry _ _ (set_e_ipaddr a e)); [lia|cbn; rewrite Nat2Z.id, Ht; by apply list_lookup_insert_eq|].
  apply wp_ret. rewrite Nat2Z.id. unfold set_table in *. cbn. by rewrite Ht, list_insert_insert_eq.
Qed.

Lemma wp_find_entry nif n a flags owners es cs (s : net) (Q : Z → net → Prop) :
  arp_ok nif n s owners es cs →
  (∀ i e, es !! i = Some e → holds a e → Q (Z.of_nat i) s) →
  (no_entry a es → refused es flags → Q ERR_MEM s) →
  (∀ i e (l : queue) s' es' cs', no_entry a es → ¬ refused es flags → choice es i → es !! i = Some e → cs !! i = Some (e_q e, l) →
    es' = <[i := new_entry a e]> es → cs' = <[i := (NULL, [])]> cs → arp_ok nif n s' owners es' cs' →
    quiet s s' → steady (owners ++ queued cs') s s' → Q (Z.of_nat i) s') →
  wp (etharp_find_entry custom_free (Some a) flags nif) Q s.
Proof.
  intros Hok Hfound Hno Hnew. pose proof (ao_rep _ _ _ _ _ _ Hok) as Hrep. pose proof (ao_table _ _ _ _ _ _ Hok) as Htab.
  pose proof (to_len _ _ _ Htab) as Hlen. change (Z.to_nat ARP_TABLE_SIZE) with 10%nat in Hlen.
  unfold etharp_find_entry. apply wp_bind, (wp_sweep (Some a) es []); [by rewrite (ar_table _ _ _ _ _ _ _ Hrep)|by rewrite Hlen| |].
  { apply Forall_lookup_2. intros i e He. destruct (arp_rep_queue _ _ _ _ _ _ _ _ _ Hrep He) as [l Hl].
    destruct (to_entry _ _ _ Htab _ _ _ _ He Hl) as [Hst _ _ _ _ _ _]. unfold ETHARP_STATE_EMPTY in Hst. lia. }
  change (Z.of_nat (length [])) with 0. destruct (scan _ _ _ _) as [r|c] eqn:Hscan.
  { apply scan_found in Hscan as (j & e & He & Hh & ->). apply wp_ret. rewrite Z.add_0_l. by apply (Hfound j e). }
  destruct (scan_table _ _ _ _ _ _ _ _ Hok Hscan) as [Hsc Hnone].
  assert ((negb (Z.land flags ETHARP_FLAG_FIND_ONLY =? 0) || ((empty c =? ARP_TABLE_SIZE) && (Z.land flags ETHARP_FLAG_TRY_HARD =? 0))) = true ↔ refused es flags) as Href.
  { unfold refused. rewrite orb_true_iff, andb_true_iff, negb_true_iff, Z.eqb_neq, !Z.eqb_eq.
    destruct (sc_empty _ _ Hsc) as [[Ee Hn]|(? & e & He & Hu & _)]; [by rewrite Ee; naive_solver|]. split; [naive_solver lia|].
    intros [?|[Hn _]]; [by left|]. by destruct (Hn _ _ He). }
  destruct (_ || _) eqn:Er; [by apply wp_ret, Hno, Href|].
  assert (¬ refused es flags) as Hallow by (rewrite <-Href; congruence).
  assert (∀ i e l, choice es i → es !! i = Some e → cs !! i = Some (e_q e, l) →
    table_ok nif (<[i := new_entry a e]> es) (<[i := (NULL, [])]> cs)) as Htab'.
  { intros i e l Hch He Hl. apply table_ok_insert; [done|by eapply new_entry_ok, to_entry|]. intros Hu. by destruct (new_entry_unused a e). }
  apply wp_bind. eapply (select_choice nif n s owners es cs); [done|done| |].
  - intros i e Ei Hch He Hu. destruct (arp_rep_queue _ _ _ _ _ _ _ _ _ Hrep He) as [l Hl]. pose proof (lookup_lt_Some _ _ _ He).
    unfold ERR_MEM. rewrite (proj2 (Z.eqb_neq (Z.of_nat i) (-1))) by lia. eapply (wp_new_entry a i e _ owners es cs); [done|done| |lia|done|].
    { unfold used in Hu. destruct (decide (e_state e = ETHARP_STATE_EMPTY)); tauto. }
    assert (new_entry a e = set_e_ctime 0 (set_e_ipaddr a e)) as En by (unfold new_entry, clean_if_used; by rewrite decide_False).
    pose proof (entry_ok_unused _ _ _ (to_entry _ _ _ Htab _ _ _ _ He Hl) Hu) as ->.
    pose proof (qs_link _ _ _ _ (ar_queues _ _ _ _ _ _ _ Hrep) _ (list_elem_of_lookup_2 _ _ _ Hl)) as Hq0. simpl in Hq0. rewrite Hq0 in Hl.
    assert (<[i := (NULL, [])]> cs = cs) as Ecs by by apply list_insert_id. cbv beta.
    apply (Hnew i e [] _ (<[i := new_entry a e]> es) (<[i := (NULL, [])]> cs)); try done; [by rewrite Hq0| |split; try done; by apply left_over_same|by apply steady_same].
    destruct Hok as [_ Hnif _ Hcac]. split; [|by eapply nif_ok_same; [|done]|by apply (Htab' i e []); [..|by rewrite Hq0]|done].
    rewrite Ecs, <-En. pose proof (arp_rep_entry _ _ _ _ _ _ _ i e (λ e, set_e_ctime 0 (set_e_ipaddr a e)) Hrep He eq_refl) as Hr'. rewrite En.
    unfold set_table in *. by rewrite (ar_table _ _ _ _ _ _ _ Hrep) in Hr'.
  - intros i e Ei Hch He Hu. destruct (arp_rep_queue _ _ _ _ _ _ _ _ _ Hrep He) as [l Hl]. pose proof (lookup_lt_Some _ _ _ He) as Hlt.
    eapply (wp_etharp_free_entry custom_free EP ER EQ _ e l owners es cs); [done|lia|by rewrite Nat2Z.id|by rewrite Nat2Z.id|]. rewrite Nat2Z.id.
    intros s' cs' -> Hrep' Ec Hlo Ew Hst. unfold ERR_MEM. rewrite (proj2 (Z.eqb_neq (Z.of_nat i) (-1))) by lia.
    eapply (wp_new_entry a i clean_entry _ owners); [done|by apply list_lookup_insert_eq|done|lia|done|].
    assert (new_entry a e = set_e_ctime 0 (set_e_ipaddr a clean_entry)) as En by (unfold new_entry, clean_if_used; by rewrite decide_True).
    rewrite list_insert_insert_eq. cbv beta. rewrite <-En.
    apply (Hnew i e l _ (<[i := new_entry a e]> es) (<[i := (NULL, [])]> cs)); try done.
    + destruct Hok as [_ Hnif _ Hcac]. split; [|eapply nif_ok_same; [|done]; by apply (st_netifs _ _ _ Hst)|by eapply Htab'|by cbn; rewrite Ec].
      pose proof (arp_rep_entry _ _ _ _ _ _ _ i clean_entry (λ e, set_e_ctime 0 (set_e_ipaddr a e)) Hrep' ltac:(by apply list_lookup_insert_eq) eq_refl) as Hr'.
      unfold set_table in *. by rewrite (ar_table _ _ _ _ _ _ _ Hrep'), list_insert_insert_eq, <-En in Hr'.
    + split; try done; apply (st_netifs _ _ _ Hst).
    + eapply (steady_then EP ER); [exact Hst|apply steady_refl|exact (ar_pkt _ _ _ _ _ _ _ Hrep')|done..].
Qed.

(** ** Steps of the module *)

(** From [s] to [s']: the table and the queues are [es] and [cs] now, the packets of
    the others and those in the queues are as they were, and [fs] was sent. *)
Record turn (nif : Z) (n : netif) (owners : list Z) (es : list etharp_entry) (cs : list (Z * queue)) (fs : list frame) (s s' : net) : Prop := Turn {
  tn_ok : arp_ok nif n s' owners es cs;
  tn_steady : steady (owners ++ queued cs) s s';
  tn_wire : wire s' = wire s ++ fs
}.

Lemma turn_refl nif n owners es cs s : arp_ok nif n s owners es cs → turn nif n owners es cs [] s s.
Proof. intros Hok. split; [done|apply steady_refl|by rewrite app_nil_r]. Qed.

Lemma turn_trans nif n owners es1 cs1 fs1 es2 cs2 fs2 s1 s2 s3 :
  turn nif n owners es1 cs1 fs1 s1 s2 → turn nif n owners es2 cs2 fs2 s2 s3 → queued cs2 ⊆ queued cs1 →
  turn nif n owners es2 cs2 (fs1 ++ fs2) s1 s3.
Proof.
  clear custom_free link_err. intros [O1 S1 W1] [O2 S2 W2] Hsub. split; [done| |by rewrite W2, W1, app_assoc].
  eapply (steady_then EP ER); [eapply steady_sub; [|exact S1]; set_solver|exact S2|exact (ar_pkt _ _ _ _ _ _ _ (ao_rep _ _ _ _ _ _ O1))|done..].
Qed.

(** There is no memory for an ARP packet. *)
Definition no_arp_memory (p : pmem PP PR H) : Prop := no_memory custom_free PBUF_LINK SIZEOF_ETHARP_HDR p.

(** Sending an ARP packet. *)
Record asked (f : frame) (r : Z) (s s' : net) : Prop := Asked {
  as_arp : same_arp s s';
  as_store : store (pm s') = store (pm s);
  as_data : data_stays s s';
  as_wire : r = ERR_OK ∧ wire s' = wire s ++ [f] ∨ r = ERR_MEM ∧ wire s' = wire s ∧ no_arp_memory (pm s)
}.

Lemma steady_asked owners f r s s' : asked f r s s' → steady owners s s'.
Proof.
  intros [Ha Es Hd Hw]. split.
  - apply (sa_netifs _ _ Ha).
  - destruct Hw as [[_ ->]|(_ & -> & _)]; [by eexists|exists []; by rewrite app_nil_r].
  - by rewrite Es.
  - intros p l x b _ _ _ Hb. exists b. rewrite Es. split; [done|]. split; [apply extends_refl|]. intros Hs. rewrite (Hd x b Hb Hs). by apply data_of_read.
Qed.

Lemma arp_ok_same nif n s s' owners es cs :
  arp_ok nif n s owners es cs → same_arp s s' → pkt_ok (pm s') (owners ++ queued cs) → arp_ok nif n s' owners es cs.
Proof.
  intros [[Ht Hh Hq Ho] Hn Htab Hc] [En Et Ec Eq Ep] Ho'. split; [|by eapply nif_ok_same|done|by rewrite Ec].
  split; [by rewrite Et|done|by rewrite Eq, Ep|done].
Qed.

Lemma wp_raw nif n ethdst hwdst dst tha ipdst opcode owners es cs (s : net) (Q : Z → net → Prop) :
  arp_ok nif n s owners es cs → fixed EP ER s (owners ++ queued cs) ethdst dst → fixed EP ER s (owners ++ queued cs) hwdst tha → 0 ≤ opcode < 65536 →
  (∀ r s', asked (arp_frame n dst opcode tha ipdst) r s s' → arp_ok nif n s' owners es cs → Q r s') →
  wp (etharp_raw custom_free link_err nif (hwaddr nif) ethdst (hwaddr nif) (netif_ip4_addr nif) hwdst ipdst opcode) Q s.
Proof.
  intros Hok He Hh Hop HQ. pose proof (ar_pkt _ _ _ _ _ _ _ (ao_rep _ _ _ _ _ _ Hok)) as Ho.
  apply (wp_etharp_raw custom_free link_err EP ER nif n ethdst hwdst dst tha ipdst opcode (owners ++ queued cs)); try done; [apply Hok| |].
  - intros p' Hm Es Ho'. apply HQ; [|by eapply arp_ok_same; [done|by split|]]. split; [by split|done| |right; by split_and!].
    intros y b Hb _. by rewrite (data_of_read s y b Hb).
  - intros s' [Ha Es Ho' Hd Hw]. apply HQ; [|by eapply arp_ok_same]. split; [done..|by left].
Qed.

Definition request_frame (n : netif) (dst : list Z) (a : Z) : frame := arp_frame n dst ARP_REQUEST ethzero a.

Lemma wp_request_dst nif n dst d a owners es cs (s : net) (Q : Z → net → Prop) :
  arp_ok nif n s owners es cs → fixed EP ER s (owners ++ queued cs) dst d →
  (∀ r s', asked (request_frame n d a) r s s' → arp_ok nif n s' owners es cs → Q r s') →
  wp (etharp_request_dst custom_free link_err nif a dst) Q s.
Proof. intros Hok Hd HQ. by apply (wp_raw nif n dst _ d ethzero a ARP_REQUEST owners es cs); [| |apply fixed_const| |]. Qed.

Lemma wp_request nif n a owners es cs (s : net) (Q : Z → net → Prop) :
  arp_ok nif n s owners es cs → (∀ r s', asked (request_frame n ethbroadcast a) r s s' → arp_ok nif n s' owners es cs → Q r s') →
  wp (etharp_request custom_free link_err nif a) Q s.
Proof. intros Hok HQ. apply (wp_request_dst nif n _ ethbroadcast a owners es cs); [done|by apply fixed_const|done]. Qed.

(** The frames of an attempt to send one with the memory [p]: it is sent unless
    there is no memory for it. *)
Definition attempt (p : pmem PP PR H) (f : frame) (fs : list frame) : Prop := fs = [f] ∨ fs = [] ∧ no_arp_memory p.

Lemma attempt_sublist p f fs : attempt p f fs → fs `sublist_of` [f].
Proof. intros [->|[-> _]]; [done|apply sublist_nil_l]. Qed.

Lemma asked_frames f r s s' : asked f r s s' → ∃ fs, wire s' = wire s ++ fs ∧ attempt (pm s) f fs ∧ (r = ERR_OK ↔ fs = [f]).
Proof.
  intros [_ _ _ [[-> Hw]|(-> & Hw & Hm)]].
  - exists [f]. split_and!; [done|by left|done].
  - exists []. rewrite app_nil_r. split_and!; [done|by right|done].
Qed.

Lemma turn_asked nif n owners es cs f r s s' :
  asked f r s s' → arp_ok nif n s' owners es cs → ∃ fs, turn nif n owners es cs fs s s' ∧ attempt (pm s) f fs ∧ (r = ERR_OK ↔ fs = [f]).
Proof.
  intros Ha Hok. destruct (asked_frames _ _ _ _ Ha) as (fs & Hw & Hs). exists fs. split; [|done]. split; [done|by eapply steady_asked|done].
Qed.

(** ** Loops over the table *)

(** A step that makes [f e] of an entry [e] and [g e c] of its queue [c], and
    sends some of the frames [h e]. *)
Definition entry_step (nif : Z) (n : netif) (body : Z → M net unit) (f : etharp_entry → etharp_entry)
    (g : etharp_entry → Z * queue → Z * queue) (h : etharp_entry → list frame) : Prop :=
  ∀ i e c owners es cs s (Q : unit → net → Prop), arp_ok nif n s owners es cs → es !! i = Some e → cs !! i = Some c →
    (∀ s' fs, turn nif n owners (<[i := f e]> es) (<[i := g e c]> cs) fs s s' → etharp_cached_entry s' = etharp_cached_entry s →
      fs `sublist_of` h e → Q tt s') → wp (body (Z.of_nat i)) Q s.

Lemma insert_middle {A} (l1 l2 : list A) x y : <[length l1 := y]> (l1 ++ x :: l2) = l1 ++ y :: l2.
Proof. by rewrite (insert_app_r_alt _ _ (length l1)), Nat.sub_diag by lia. Qed.

Lemma queued_app cs1 cs2 : queued (cs1 ++ cs2) = queued cs1 ++ queued cs2.
Proof. unfold queued. by rewrite bind_app, fmap_app. Qed.

Lemma queued_zip (g : etharp_entry → Z * queue → Z * queue) es cs :
  (∀ e c, (g e c).2.*2 ⊆ c.2.*2) → queued (zip_with g es cs) ⊆ queued cs.
Proof.
  intros Hg. revert cs. induction es as [|e es IH]; intros [|c cs]; cbn [zip_with]; try set_solver.
Qed.

Lemma wp_for_entries_from nif n body f g h owners es0 cs0 es cs (s0 s : net) (Q : unit → net → Prop) :
  entry_step nif n body f g h → (∀ e c, (g e c).2.*2 ⊆ c.2.*2) → length es0 = length cs0 → length es = length cs →
  arp_ok nif n s owners (es0 ++ es) (cs0 ++ cs) → etharp_cached_entry s = etharp_cached_entry s0 →
  (∀ s' fs, turn nif n owners (es0 ++ (f <$> es)) (cs0 ++ zip_with g es cs) fs s s' → etharp_cached_entry s' = etharp_cached_entry s0 →
    fs `sublist_of` (es ≫= h) → Q tt s') →
  wp (for_entries (length es) (Z.of_nat (length es0)) body) Q s.
Proof.
  intros Hstep Hg. revert es0 cs0 cs s Q. induction es as [|e es IH]; intros es0 cs0 cs s Q El0 El Hok Hc HQ; (destruct cs as [|c cs]; [|try done]); try done.
  { apply wp_ret, (HQ _ []); [by apply turn_refl|done|done]. }
  cbn [length for_entries]. apply wp_bind, (Hstep _ e c owners _ _ _ _ Hok).
  { by rewrite lookup_app_r, Nat.sub_diag by lia. }
  { by rewrite El0, lookup_app_r, Nat.sub_diag by lia. }
  intros s1 fs1 Ht1 Hc1 Hs1. rewrite insert_middle in Ht1. rewrite El0, insert_middle in Ht1.
  replace (Z.of_nat (length es0) + 1) with (Z.of_nat (length (es0 ++ [f e]))) by (rewrite length_app; simpl; lia).
  simpl in El. injection El as El. pose proof (tn_ok _ _ _ _ _ _ _ _ Ht1) as Hok1.
  apply (IH _ (cs0 ++ [g e c]) cs); [rewrite !length_app; simpl; lia|done|by rewrite <-!app_assoc|congruence|].
  intros s2 fs2 Ht2 Hc2 Hs2. apply (HQ s2 (fs1 ++ fs2)); [|done|by apply sublist_app]. rewrite <-!app_assoc in Ht2.
  eapply turn_trans; [exact Ht1|exact Ht2|]. cbn [app]. rewrite !queued_app, !queued_cons. pose proof (queued_zip g es cs Hg). set_solver.
Qed.

Lemma wp_for_entries nif n body f g h owners es cs (s : net) (Q : unit → net → Prop) :
  entry_step nif n body f g h → (∀ e c, (g e c).2.*2 ⊆ c.2.*2) → arp_ok nif n s owners es cs →
  (∀ s' fs, turn nif n owners (f <$> es) (zip_with g es cs) fs s s' → etharp_cached_entry s' = etharp_cached_entry s →
    fs `sublist_of` (es ≫= h) → Q tt s') →
  wp (for_entries (Z.to_nat ARP_TABLE_SIZE) 0 body) Q s.
Proof.
  intros Hstep Hg Hok HQ. rewrite <-(to_len _ _ _ (ao_table _ _ _ _ _ _ Hok)).
  apply (wp_for_entries_from nif n body f g h owners [] [] es cs s s); try done.
  pose proof (ar_heads _ _ _ _ _ _ _ (ao_rep _ _ _ _ _ _ Hok)) as Hh. by rewrite <-(length_fmap fst), Hh, length_fmap.
Qed.

(** Freeing an entry, as a step of a loop. *)
Lemma wp_free_step nif n i e c owners es cs (s : net) (Q : unit → net → Prop) :
  arp_ok nif n s owners es cs → es !! i = Some e → cs !! i = Some c →
  (∀ s', turn nif n owners (<[i := clean_entry]> es) (<[i := (NULL, [])]> cs) [] s s' → etharp_cached_entry s' = etharp_cached_entry s → Q tt s') →
  wp (etharp_free_entry custom_free (Z.of_nat i)) Q s.
Proof.
  intros [Hrep Hnif Htab Hc] He Hci HQ. destruct (arp_rep_queue _ _ _ _ _ _ _ _ _ Hrep He) as [l Hl].
  apply (wp_etharp_free_entry custom_free EP ER EQ _ e l owners es cs); [done|lia|by rewrite Nat2Z.id|by rewrite Nat2Z.id|].
  rewrite Nat2Z.id. intros s' cs' -> Hrep' Ec Eb Ew Hst. apply HQ; [|done]. split; [|done|by rewrite app_nil_r].
  split; [done|eapply nif_ok_same; [|done]; apply (st_netifs _ _ _ Hst)| |by rewrite Ec].
  apply table_ok_insert; [done|apply clean_entry_ok|]. intros Hu. by destruct clean_entry_unused.
Qed.

(** ** Ageing *)

Definition expired (e : etharp_entry) : Prop :=
  used e ∧ (ARP_MAXAGE ≤ e_ctime e + 1 ∨ e_state e = ETHARP_STATE_PENDING ∧ ARP_MAXPENDING ≤ e_ctime e + 1).
#[export] Instance expired_dec e : Decision (expired e).
Proof. unfold expired. apply _. Defined.

Definition next_state (x : Z) : Z :=
  if decide (x = ETHARP_STATE_STABLE_REREQUESTING_1) then ETHARP_STATE_STABLE_REREQUESTING_2
  else if decide (x = ETHARP_STATE_STABLE_REREQUESTING_2) then ETHARP_STATE_STABLE else x.

(** An entry a second later. *)
Definition tick (e : etharp_entry) : etharp_entry :=
  if decide (used e) then
    if decide (expired e) then clean_entry else set_e_state (next_state (e_state e)) (set_e_ctime (e_ctime e + 1) e)
  else e.
Definition tick_queue (e : etharp_entry) (c : Z * queue) : Z * queue := if decide (expired e) then (NULL, []) else c.

(** The request for an address that is still pending. *)
Definition asks_again (n : netif) (e : etharp_entry) : list frame :=
  if decide (e_state e = ETHARP_STATE_PENDING ∧ ¬ expired e) then [request_frame n ethbroadcast (e_ipaddr e)] else [].

Lemma next_state_used x : ETHARP_STATE_EMPTY < x ≤ ETHARP_STATE_STABLE_REREQUESTING_2 →
  ETHARP_STATE_EMPTY < next_state x ≤ ETHARP_STATE_STABLE_REREQUESTING_2 ∧ (next_state x = ETHARP_STATE_PENDING ↔ x = ETHARP_STATE_PENDING).
Proof.
  unfold next_state, ETHARP_STATE_EMPTY, ETHARP_STATE_PENDING, ETHARP_STATE_STABLE, ETHARP_STATE_STABLE_REREQUESTING_1, ETHARP_STATE_STABLE_REREQUESTING_2.
  intros Hx. repeat case_decide; lia.
Qed.

(** A survivor. *)
Lemma tick_ok nif e l : entry_ok nif e l → used e → ¬ expired e → entry_ok nif (set_e_state (next_state (e_state e)) (set_e_ctime (e_ctime e + 1) e)) l.
Proof.
  intros [Hs Hc Hy Hm Hl Hw Hn] Hu Hx. unfold expired, used, ETHARP_STATE_EMPTY in *.
  destruct (next_state_used (e_state e)) as [Hr Hp]; [unfold ETHARP_STATE_EMPTY; lia|]. unfold ETHARP_STATE_EMPTY in *. split; cbn [set_e_state set_e_ctime e_state e_ctime e_ethaddr e_netif].
  - unfold ETHARP_STATE_EMPTY. lia.
  - lia.
  - intros E%Hp. lia.
  - done.
  - done.
  - intros Hne. by apply Hp, Hw.
  - intros _. by apply Hn.
Qed.

Lemma turn_change nif n owners es cs i e f (s : net) :
  arp_ok nif n s owners es cs → es !! i = Some e → e_q (f e) = e_q e → table_ok nif (<[i := f e]> es) cs →
  turn nif n owners (<[i := f e]> es) cs [] s (set_table <[i := f e]> s).
Proof.
  intros [Hrep Hnif Htab Hc] He Hq Htab'. split; [|by apply steady_same|by rewrite app_nil_r].
  split; [by eapply arp_rep_entry|by apply (nif_ok_same s)|done|done].
Qed.

Lemma tmr_step nif n : entry_step nif n (tmr_entry custom_free link_err) tick tick_queue (asks_again n).
Proof.
  intros i e c owners es cs s Q Hok He Hc HQ. pose proof Hok as [Hrep Hnif Htab Hcac]. pose proof (ar_table _ _ _ _ _ _ _ Hrep) as Ht.
  destruct (arp_rep_queue _ _ _ _ _ _ _ _ _ Hrep He) as [l Hl]. rewrite Hc in Hl. injection Hl as ->.
  pose proof (to_entry _ _ _ Htab _ _ _ _ He Hc) as Heok. assert (i < length es)%nat as Hlt by by eapply lookup_lt_Some.
  unfold tmr_entry. apply wp_bind, (wp_rd_entry _ e); [lia|by rewrite Nat2Z.id, Ht|]. apply wp_when.
  2: { intros Hu%negb_false_iff%Z.eqb_eq. assert (¬ used e) as Nu by (intros Hue; by apply Hue). assert (¬ expired e) as Nx by (by intros [? _]).
    apply (HQ _ []); [|done|apply sublist_nil_l]. unfold tick, tick_queue. rewrite !decide_False by done.
    rewrite !list_insert_id by done. by apply turn_refl. }
  intros Hu%negb_true_iff%Z.eqb_neq. assert (used e) as Hue by done.
  assert (u16 (e_ctime e + 1) = e_ctime e + 1) as Eu.
  { destruct (eo_ctime _ _ _ Heok). unfold ARP_MAXAGE in *. apply u16_id. lia. }
  set (e1 := set_e_ctime (e_ctime e + 1) e).
  apply wp_bind, (wp_wr_entry _ _ e); [lia|by rewrite Nat2Z.id, Ht|]. rewrite Nat2Z.id, Eu. fold e1.
  set (s1 := set_table <[i := e1]> s).
  assert (arp_table s1 !! i = Some e1) as He1 by (cbn; rewrite Ht; by apply list_lookup_insert_eq).
  apply wp_bind, (wp_rd_entry _ e1); [lia|by rewrite Nat2Z.id|].
  assert ((ARP_MAXAGE <=? e_ctime e1) || ((e_state e1 =? ETHARP_STATE_PENDING) && (ARP_MAXPENDING <=? e_ctime e1)) = true ↔ expired e) as Hex.
  { rewrite orb_true_iff, andb_true_iff, Z.eqb_eq, !Z.leb_le. unfold expired. cbn. naive_solver. }
  destruct (decide (expired e)) as [Hx|Hx].
  - rewrite (proj2 Hex) by done.
    apply (wp_etharp_free_entry custom_free EP ER EQ _ e1 l owners (<[i := e1]> es) cs).
    { by apply (arp_rep_entry _ _ _ _ _ _ _ i e (set_e_ctime (e_ctime e + 1))) in Hrep. }
    { lia. } { rewrite Nat2Z.id. by apply list_lookup_insert_eq. } { by rewrite Nat2Z.id. }
    rewrite Nat2Z.id, list_insert_insert_eq. intros s' cs' -> Hrep' Ec Eb Ew Hst.
    assert (steady (owners ++ queued (<[i := (NULL, [])]> cs)) s s') as Hst' by (eapply (steady_then EP ER); [apply steady_refl|exact Hst|apply Hrep|done..]).
    apply (HQ s' []); [|done|apply sublist_nil_l]. unfold tick, tick_queue. rewrite !decide_True by done. split; [|done|by rewrite app_nil_r].
    split; [done|eapply nif_ok_same; [|done]; apply (st_netifs _ _ _ Hst')| |by rewrite Ec].
    apply table_ok_insert; [done|apply clean_entry_ok|]. intros Hu'. by destruct clean_entry_unused.
  - destruct (_ || _); [by destruct Hx; apply Hex|].
    pose proof (tick_ok _ _ _ Heok Hue Hx) as Hok'. set (e2 := set_e_state (next_state (e_state e)) e1) in *.
    assert (tick e = e2 ∧ tick_queue e (e_q e, l) = (e_q e, l)) as [Et Etq].
    { unfold tick, tick_queue. by rewrite (decide_True (P := used e)), !(decide_False (P := expired e)) by done. }
    rewrite Et, Etq, (list_insert_id cs) in HQ by done.
    assert (turn nif n owners (<[i := e2]> es) cs [] s (set_table <[i := e2]> s)) as Hturn.
    { apply (turn_change _ _ _ _ _ i e (λ _, e2)); try done. by eapply table_ok_change. }
    assert (∀ f (Q' : unit → net → Prop), f e1 = e2 → Q' tt (set_table <[i := e2]> s) → wp (wr_entry (Z.of_nat i) f) Q' s1) as Hwr.
    { intros f Q' Ef HQ'. apply (wp_wr_entry _ _ e1); [lia|by rewrite Nat2Z.id|]. rewrite Nat2Z.id, Ef. unfold s1, set_table in *. cbn.
      by rewrite list_insert_insert_eq. }
    assert (∀ x, e_state e = x → x ≠ ETHARP_STATE_PENDING → asks_again n e = []) as Hno.
    { intros x Ex Hne. unfold asks_again. rewrite decide_False; [done|]. intros [? _]. congruence. }
    change (e_state e1) with (e_state e).
    destruct (Z.eqb_spec (e_state e) ETHARP_STATE_STABLE_REREQUESTING_1) as [E1|N1].
    { apply Hwr; [unfold e2; by rewrite E1|]. by apply (HQ _ []); [done|done|apply sublist_nil_l]. }
    destruct (Z.eqb_spec (e_state e) ETHARP_STATE_STABLE_REREQUESTING_2) as [E2|N2].
    { apply Hwr; [unfold e2; by rewrite E2|]. by apply (HQ _ []); [done|done|apply sublist_nil_l]. }
    assert (e2 = e1) as E12 by (unfold e2, next_state; rewrite !decide_False by done; by destruct e).
    rewrite E12 in *. fold s1 in Hturn. apply wp_when.
    + intros E3%Z.eqb_eq. apply wp_bind. change (e_netif e1) with (e_netif e). change (e_ipaddr e1) with (e_ipaddr e).
      rewrite (eo_netif _ _ _ Heok) by done. apply (wp_request nif n _ owners (<[i := e1]> es) cs); [apply Hturn|].
      intros r s' Has Hok2. apply wp_ret. destruct (turn_asked _ _ _ _ _ _ _ _ _ Has Hok2) as (fs & Htn & Hsub & _).
      apply (HQ s' fs); [|by rewrite (sa_cached _ _ (as_arp _ _ _ _ Has))|].
      * change fs with ([] ++ fs). by eapply turn_trans.
      * unfold asks_again. rewrite decide_True by done. by eapply attempt_sublist.
    + intros E3%Z.eqb_neq. apply (HQ _ []); [done|done|apply sublist_nil_l].
Qed.

Lemma wp_tmr nif n owners es cs (s : net) (Q : unit → net → Prop) :
  arp_ok nif n s owners es cs →
  (∀ s' fs, turn nif n owners (tick <$> es) (zip_with tick_queue es cs) fs s s' → etharp_cached_entry s' = etharp_cached_entry s →
    fs `sublist_of` (es ≫= asks_again n) → Q tt s') →
  wp (etharp_tmr custom_free link_err) Q s.
Proof.
  apply wp_for_entries; [apply tmr_step|]. intros e [q l]. unfold tick_queue. destruct (decide _); [apply list_subseteq_nil|done].
Qed.

(** ** An interface goes *)

Definition is_of (nif : Z) (e : etharp_entry) : Prop := used e ∧ e_netif e = nif.
#[export] Instance is_of_dec nif e : Decision (is_of nif e).
Proof. unfold is_of. apply _. Defined.

Lemma cleanup_step nif n gone : entry_step nif n
  (λ i, e ← rd_entry i; when_ (negb (e_state e =? ETHARP_STATE_EMPTY) && (e_netif e =? gone)) (etharp_free_entry custom_free i))
  (λ e, if decide (is_of gone e) then clean_entry else e) (λ e c, if decide (is_of gone e) then (NULL, []) else c) (λ _, []).
Proof.
  intros i e c owners es cs s Q Hok He Hc HQ. apply wp_bind, (wp_rd_entry _ e); [lia|by rewrite Nat2Z.id, (ar_table _ _ _ _ _ _ _ (ao_rep _ _ _ _ _ _ Hok))|].
  assert (negb (e_state e =? ETHARP_STATE_EMPTY) && (e_netif e =? gone) = true ↔ is_of gone e) as Hb.
  { unfold is_of, used. by rewrite andb_true_iff, negb_true_iff, Z.eqb_neq, Z.eqb_eq. }
  apply wp_when.
  - intros Hx%Hb. rewrite !decide_True in HQ by done. eapply wp_free_step; [done..|]. intros s' Ht Ec. by apply (HQ s' []).
  - intros Hx. assert (¬ is_of gone e) as Nx by (rewrite <-Hb; congruence). rewrite !decide_False, !list_insert_id in HQ by done.
    apply (HQ s []); [by apply turn_refl|done|done].
Qed.

Lemma wp_cleanup nif n gone owners es cs (s : net) (Q : unit → net → Prop) :
  arp_ok nif n s owners es cs →
  (∀ s', let keep {A} (none : A) e (x : A) := if decide (is_of gone e) then none else x in
    turn nif n owners ((λ e, keep clean_entry e e) <$> es) (zip_with (keep (NULL, [])) es cs) [] s s' →
    etharp_cached_entry s' = etharp_cached_entry s → Q tt s') →
  wp (etharp_cleanup_netif custom_free gone) Q s.
Proof.
  intros Hok HQ. eapply wp_for_entries; [apply cleanup_step| |done|].
  - intros e [q l]. destruct (decide _); [apply list_subseteq_nil|done].
  - intros s' fs Ht Ec Hs. apply HQ; [|done]. replace fs with (@nil frame) in Ht; [done|]. symmetry. apply sublist_nil_r.
    replace (es ≫= (λ _, [])) with (@nil frame) in Hs; [done|]. clear. induction es; done.
Qed.
End etharp_ops.
