(* ===== verification/EtharpSend.v ===== *)
(** The functions of [Etharp] that send: the queue of an address that is learnt,
    the answer to a request, packets to a known or an unknown address. *)
From stdpp Require Import base tactics numbers list gmap.
From S2P Require Import Prelude Words Def Memp PbufMem PbufThm PbufOps Ip4Addr Net NetThm Etharp EtharpThm EtharpOps.

Section etharp_send.
Context {PP PR H PQ : Type} `{PoolLaws PP, PoolLaws PR, HeapLaws H, PoolLaws PQ}.
Context (custom_free : Z → M (pmem PP PR H) unit) (link_err : list frame → Z).
Context (EP ER EQ : list Z) `{!Layout (PP := PP) (PR := PR) (H := H) EP ER} `{!QueueLayout (PQ := PQ) EQ}.

Notation net := (net PP PR H PQ).
Notation pkt_ok := (pkt_ok EP ER).
Notation arp_rep := (arp_rep EP ER EQ).
Notation arp_ok := (arp_ok EP ER EQ).
Notation turn := (turn EP ER EQ).

(** ** An address in a packet *)

(** Six bytes of the data of a packet of the clients. *)
Definition source (owners : list Z) (s : net) (a : Z) : Prop :=
  ∃ p l x b, p ∈ owners ∧ chain (store (pm s)) p l ∧ x ∈ l ∧ store (pm s) !! x = Some b ∧ pbuf_get_allocsrc b ≠ 1 ∧
    b_payload b ≤ a ∧ a + 6 ≤ b_payload b + b_len b.

Lemma source_steady owners (s s' : net) a :
  steady owners s s' → source owners s a → source owners s' a ∧ mem_read a 6 (bytes s') = mem_read a 6 (bytes s).
Proof.
  intros Hst (p & l & x & b & Hp & Hl & Hx & Hb & Hs & Hlo & Hhi).
  destruct (st_pbuf _ _ _ Hst p l x b Hp Hl Hx Hb) as (b' & Hb' & Hext & Hread). pose proof (extends_src _ _ Hext) as Es.
  destruct Hext as (_ & _ & Hpay & Hend). specialize (Hend Hs). split.
  - exists p, l, x, b'. rewrite Es. split_and!; try done; [by apply (st_chain _ _ _ Hst)|lia|lia].
  - eapply mem_read_part; [by apply Hread|lia|lia].
Qed.

Lemma source_sub owners owners' s a : owners ⊆ owners' → source owners s a → source owners' s a.
Proof. intros Hsub (p & l & x & b & Hp & Hr). exists p, l, x, b. split; [by apply Hsub|done]. Qed.

(** A header in front of any packet leaves it as it is. *)
Lemma source_points owners o s a q b :
  pkt_ok (pm s) o → source owners s a → store (pm s) !! q = Some b → can_grow q b SIZEOF_ETH_HDR false = true → pbuf_get_allocsrc b ≠ 1 →
  points s (b_payload b - SIZEOF_ETH_HDR) (b_payload b) (at_addr a) (mem_read a 6 (bytes s)).
Proof.
  intros Ho (p & l & x & c & _ & _ & _ & Hc & Hsc & Hlo & Hhi) Hb Hg Hsb. apply points_at.
  destruct (can_grow_room _ _ _ Hg) as (_ & Hroom & _). change SIZEOF_STRUCT_PBUF with 16 in *. change SIZEOF_ETH_HDR with 14 in *.
  destruct (decide (q = x)) as [->|Hne]; [rewrite Hb in Hc; injection Hc as <-; lia|].
  destruct (mo_data _ _ _ (po_mem _ _ _ _ Ho) q b Hb Hsb) as (_ & ? & ? & ?). destruct (mo_data _ _ _ (po_mem _ _ _ _ Ho) x c Hc Hsc) as (_ & ? & ? & ?).
  change SIZEOF_STRUCT_PBUF with 16 in *. destruct (blocks_apart EP ER (pm s) q x b c (po_mem _ _ _ _ Ho) Hb Hc Hsb Hsc Hne); lia.
Qed.

(** ** The packets that waited *)

Definition ip_header (n : netif) (dst : list Z) : list Z := eth_header dst (n_hwaddr n) ETHTYPE_IP.

(** The frames for the packets [ps] with the chains [ls]. *)
Definition flushed (s : net) (h : list Z) (ps : list Z) (ls : list (list Z)) : list frame :=
  concat (zip_with (λ p l, sent s p l h) ps ls).

(** [fs] are these frames, if the packets have no pbuf in common and their data with them. *)
Definition flushes (s : net) (h : list Z) (ps : list Z) (fs : list frame) : Prop :=
  ∀ ls, Forall2 (chain (store (pm s))) ps ls → NoDup (concat ls) → solid (store (pm s)) (concat ls) → fs = flushed s h ps ls.

Lemma sent_same (s s' : net) p l h :
  (∀ x, x ∈ l → store (pm s') !! x = store (pm s) !! x ∧ data_of s' x = data_of s x) → chain (store (pm s)) p l → p ≠ NULL →
  sent s' p l h = sent s p l h.
Proof.
  intros Hx Hl Hp. destruct l as [|y l]; [done|]. destruct Hl as [<- _]. destruct (Hx p) as [E1 E2]; [by left|].
  unfold sent. rewrite E1, E2. destruct (store (pm s) !! p) as [b|]; [|done]. destruct (can_grow _ _ _ _); [|done]. do 2 f_equal.
  apply list_fmap_ext. intros i x Hi%list_elem_of_lookup_2. apply Hx. by right.
Qed.

Lemma flushed_same (s s' : net) h ps ls :
  (∀ x, x ∈ concat ls → store (pm s') !! x = store (pm s) !! x ∧ data_of s' x = data_of s x) →
  Forall2 (chain (store (pm s))) ps ls → Forall (λ p, p ≠ NULL) ps → flushed s' h ps ls = flushed s h ps ls.
Proof.
  unfold flushed. intros Hx Hch. induction Hch as [|p l ps ls Hl Hch IH]; intros Hn; [done|]. apply Forall_cons in Hn as [Hp Hn]. cbn. f_equal.
  - apply sent_same; [|done|done]. intros x Hin. apply Hx. cbn. apply elem_of_app. by left.
  - apply IH; [|done]. intros x Hin. apply Hx. cbn. apply elem_of_app. by right.
Qed.

Lemma qlinked_packets m q l : qlinked m q l → Forall (λ p, p ≠ NULL) l.*2.
Proof. revert q. induction l as [|[x p] l IH]; intros q; simpl; [done|]. intros (_ & _ & Hp & k & _ & Hl). constructor; [done|by eapply IH]. Qed.

(** A packet is sent and its reference given up. *)
Record sent_off (owners : list Z) (p : Z) (h : list Z) (s s' : net) : Prop := SentOff {
  so_arp : same_arp s s';
  so_pkt : pkt_ok (pm s') owners;
  so_steady : steady owners s s';
  so_frames : ∃ l fs, chain (store (pm s)) p l ∧ wire s' = wire s ++ fs ∧ (solid (store (pm s)) l → fs = sent s p l h) ∧
    ∀ x, x ∉ l → store (pm s') !! x = store (pm s) !! x ∧ (solid (store (pm s)) [x] → data_of s' x = data_of s x)
}.

Lemma wp_send_off nif n p a owners (s : net) (k : M net unit) (Q : unit → net → Prop) :
  pkt_ok (pm s) (p :: owners) → p ≠ NULL → nif_ok s nif n → source owners s a →
  (∀ s', sent_off owners p (ip_header n (mem_read a 6 (bytes s))) s s' → wp k Q s') →
  wp (ethernet_output link_err nif p (hwaddr nif) (at_addr a) ETHTYPE_IP;; on_pm (pbuf_free custom_free p);; k) Q s.
Proof.
  intros Ho Hp Hnif Hsrc HQ. destruct (pkt_chain _ _ _ _ p Ho) as [l Hl]; [by left|].
  apply wp_bind, (wp_ethernet_sends link_err EP ER nif n p l _ _ (n_hwaddr n) (mem_read a 6 (bytes s)) _ (p :: owners)); try done; [by destruct Hnif..| |].
  { intros b Hb Hg Hs. split; [by apply points_hwaddr; destruct Hnif|]. by eapply source_points. }
  intros r s1 Hsn. pose proof (steady_sends _ _ owners _ _ _ _ _ _ Ho Hsn) as Hst1. pose proof (sn_pkt _ _ _ _ _ _ _ _ Hsn) as Ho1.
  apply wp_bind, (wp_release custom_free EP ER p owners); [done|done|]. intros _ l' p' Hl' Es Ho' Hst2. apply HQ.
  assert (l' = l) as ->.
  { eapply chain_det; [apply (pkt_null _ _ _ _ Ho1)|exact Hl'|].
    apply (st_chain _ _ _ (steady_sends _ _ [p] _ _ _ _ _ _ Ho Hsn)); [by left|done]. }
  destruct (sn_wire _ _ _ _ _ _ _ _ Hsn) as (fs & Ew & Hfs). split.
  - destruct (sn_arp _ _ _ _ _ _ _ _ Hsn). by split.
  - done.
  - eapply (steady_then EP ER); [exact Hst1|exact Hst2|exact Ho1|done..].
  - exists l, fs. split_and!; [done|done|done|]. intros x Hx. assert (x ≠ p) as Hxp.
    { intros ->. apply Hx. destruct l; [done|]. destruct Hl as [-> _]. by left. }
    assert (store p' !! x = store (pm s) !! x) as Esx by (rewrite Es, release_other by done; by apply (sn_other _ _ _ _ _ _ _ _ Hsn)).
    split; [done|]. intros Hsol. unfold data_of at 1. cbn [set_pm pm bytes]. rewrite Esx.
    destruct (store (pm s) !! x) as [b|] eqn:Hb; [|unfold data_of; by rewrite Hb].
    apply (sn_data _ _ _ _ _ _ _ _ Hsn x b Hb). eapply Hsol; [by left|done].
Qed.

Lemma so_flushes owners p h ps fs2 (s s' : net) :
  store (pm s) !! NULL = None → sent_off owners p h s s' → Forall (λ p, p ≠ NULL) ps → flushes s' h ps fs2 →
  ∃ fs1, wire s' = wire s ++ fs1 ∧ flushes s h (p :: ps) (fs1 ++ fs2).
Proof.
  intros Hnull [_ _ _ (l & fs1 & Hl & Ew & Hfs & Hoff)] Hps Hfl. exists fs1. split; [done|].
  intros ls Hch Hnd Hsol. apply Forall2_cons_inv_l in Hch as (l' & ls' & Hl' & Hch & ->). cbn [concat] in Hnd, Hsol.
  apply NoDup_app in Hnd as (_ & Hdis & Hnd). assert (l' = l) as -> by by eapply chain_det.
  assert (∀ x, x ∈ concat ls' → store (pm s') !! x = store (pm s) !! x ∧ data_of s' x = data_of s x) as Hsame.
  { intros x Hx. destruct (Hoff x) as [E1 E2]; [by intros ?%Hdis|]. split; [done|]. apply E2. intros y b ->%list_elem_of_singleton. apply Hsol.
    apply elem_of_app. by right. }
  unfold flushed. cbn [zip_with concat]. f_equal.
  - apply Hfs. intros x b Hx. apply Hsol. apply elem_of_app. by left.
  - rewrite (Hfl ls'); [by apply flushed_same| |done|].
    + assert (∀ x, x ∈ concat ls' → store (pm s') !! x = store (pm s) !! x) as Hst by (intros x Hx; by apply Hsame).
      clear -Hch Hst. induction Hch as [|q k ps ls Hk Hch IH]; constructor.
      * eapply chain_frame; [|exact Hk]. intros x b Hx Hb. exists b. rewrite Hst; [done|]. cbn. apply elem_of_app. by left.
      * apply IH. intros x Hx. apply Hst. cbn. apply elem_of_app. by right.
    + intros x b Hx Hb. eapply Hsol; [apply elem_of_app; by right|]. rewrite <-Hb. symmetry. by apply Hsame.
Qed.

Lemma wp_send_queue l k nif n i e a owners es cs (s : net) (Q : unit → net → Prop) :
  arp_rep s owners es cs → nif_ok s nif n → es !! i = Some e → cs !! i = Some (e_q e, l) → (length l < k)%nat → source owners s a →
  (∀ s' fs cs', cs' = <[i := (NULL, [])]> cs → arp_rep s' owners (<[i := set_e_q NULL e]> es) cs' → steady (owners ++ queued cs') s s' →
    etharp_cached_entry s' = etharp_cached_entry s → wire s' = wire s ++ fs →
    flushes s (ip_header n (mem_read a 6 (bytes s))) l.*2 fs → Q tt s') →
  wp (send_queue custom_free link_err k nif (Z.of_nat i) (at_addr a)) Q s.
Proof.
  revert k e es cs s Q. induction l as [|[x p] l IH]; intros k e es cs s Q Hrep Hnif He Hc Hk Hsrc HQ; (destruct k as [|k]; [simpl in Hk; lia|]);
  pose proof Hrep as [Ht Hh Hq Ho]; pose proof (qs_link _ _ _ _ Hq _ (list_elem_of_lookup_2 _ _ _ Hc)) as Hlink; cbn [fst snd qlinked] in Hlink;
  cbn [send_queue]; (apply wp_bind, (wp_rd_entry _ e); [lia|by rewrite Nat2Z.id, Ht|]).
  - rewrite Hlink in *. apply wp_ret, (HQ s [] _ eq_refl); rewrite ?(list_insert_id cs) by done; [|apply steady_refl|done|by rewrite app_nil_r|].
    + replace (<[i := set_e_q NULL e]> es) with es; [done|]. symmetry. apply list_insert_id. rewrite He. destruct e; simpl in *. by subst.
    + intros ls Hch _ _. by apply Forall2_nil_inv_l in Hch as ->.
  - destruct Hlink as (Ex & Hx & Hp & m & Hm & Hlink). rewrite Ex in *. rewrite (proj2 (Z.eqb_neq x NULL)) by done.
    apply wp_bind, (wp_rd_q x (EtharpQEntry m p)); [done|]. cbn [q_p q_next].
    set (e2 := set_e_q m e). set (es2 := <[i := e2]> es). set (cs2 := <[i := (m, l)]> cs).
    apply wp_bind, (wp_wr_entry _ _ e); [lia|by rewrite Nat2Z.id, Ht|]. rewrite Nat2Z.id. fold e2.
    apply wp_bind, (wp_free_q_entry custom_free EP ER EQ x p l (delete i cs)). { eapply queues_perm; [apply (queues_at Hc)|done]. }
    cbn [set_table arp_queue]. intros m' pool' Hm' Hq2. rewrite Hm in Hm'. injection Hm' as <-. set (s2 := set_pool _ _).
    assert (cs2 ≡ₚ (m, l) :: delete i cs) as Ecs2 by by eapply queues_set.
    pose proof (queued_proper _ _ Ecs2) as Eqd2. pose proof (queued_proper _ _ (queues_at Hc)) as Eqd. rewrite queued_cons in Eqd, Eqd2. cbn [snd] in Eqd, Eqd2.
    pose proof (queued_proper _ _ (queues_set (NULL, []) Hc)) as Eqd3. rewrite queued_cons in Eqd3. cbn in Eqd3.
    assert (pkt_ok (pm s) (p :: owners ++ queued cs2)) as Ho2.
    { eapply pkt_ok_perm; [|exact Ho]. rewrite Eqd2, Eqd. cbn. symmetry. apply Permutation_middle. }
    assert (source (owners ++ queued cs2) s2 a) as Hsrc2 by (eapply source_sub; [|exact Hsrc]; set_solver).
    apply (wp_send_off nif n p a (owners ++ queued cs2)); [done|done|by apply (nif_ok_same s)|done|].
    intros s3 Hso. pose proof (so_arp _ _ _ _ _ Hso) as Harp. pose proof (so_steady _ _ _ _ _ Hso) as Hst.
    assert (steady (owners ++ queued cs2) s s3) as Hst3.
    { eapply (steady_then EP ER); [apply steady_refl|exact Hst|exact Ho2|done..]. }
    assert (steady owners s s3) as Hst3' by (eapply steady_sub; [|exact Hst3]; set_solver).
    destruct (source_steady _ _ _ _ Hst3' Hsrc) as [Hsrc3 Emac]. apply (IH k e2 es2 cs2 s3).
    + split; [by rewrite (sa_table _ _ Harp); cbn; rewrite Ht| | |by apply (so_pkt _ _ _ _ _ Hso)].
      * unfold cs2, es2. by rewrite !list_fmap_insert, Hh.
      * rewrite (sa_queue _ _ Harp), (sa_pool _ _ Harp). eapply queues_perm; [symmetry; exact Ecs2|exact Hq2].
    + eapply nif_ok_same; [|exact Hnif]. by rewrite (sa_netifs _ _ Harp).
    + apply list_lookup_insert_eq. by eapply lookup_lt_Some.
    + apply list_lookup_insert_eq. by eapply lookup_lt_Some.
    + simpl in Hk. lia.
    + done.
    + intros s' fs cs' -> Hrep' Hst' Ec' Ew' Hfl. unfold es2, cs2, e2 in Hrep', Hst'. rewrite !list_insert_insert_eq in Hrep'. rewrite list_insert_insert_eq in Hst'.
      rewrite Emac in Hfl. destruct (so_flushes _ p _ l.*2 fs s2 s3 (pkt_null _ _ _ _ Ho2) Hso) as (fs1 & Ew1 & Hfl1); [by eapply qlinked_packets|exact Hfl|].
      apply (HQ s' (fs1 ++ fs) _ eq_refl); [exact Hrep'| | | |exact Hfl1].
      * eapply (steady_then EP ER); [eapply steady_sub; [|exact Hst3]|exact Hst'|exact (so_pkt _ _ _ _ _ Hso)|done..].
        rewrite Eqd2, Eqd3. set_solver.
      * by rewrite Ec', (sa_cached _ _ Harp).
      * by rewrite Ew', Ew1, <-app_assoc.
Qed.

(** ** Learning an address *)

Definition unicast (n : netif) (ip : Z) : bool :=
  negb (ip4_addr_isany_val ip || ip4_addr_isbroadcast_u32 ip n || ip4_addr_ismulticast ip).

Lemma wp_not_unicast nif n ip (s : net) (Q : bool → net → Prop) :
  nif_ok s nif n → Q (negb (unicast n ip)) s → wp (not_unicast nif ip) Q s.
Proof.
  intros [_ Hn _ _] HQ. unfold not_unicast, unicast in *. rewrite negb_involutive in HQ. destruct (ip4_addr_isany_val ip); [by apply wp_ret|].
  apply wp_bind, (wp_rd_netif nif n); [done|]. by apply wp_ret.
Qed.

Definition learnt (nif ip : Z) (d : list Z) : etharp_entry := EtharpEntry NULL ip nif d 0 ETHARP_STATE_STABLE.

Lemma learnt_ok nif ip d : length d = 6%nat → entry_ok nif (learnt nif ip d) [].
Proof. by split. Qed.

(** The entry for [ip] and its packets, an entry that was there or a new one. *)
Inductive place (es : list etharp_entry) (cs : list (Z * queue)) (flags ip : Z) (i : nat) : queue → Prop :=
  | place_found e l : es !! i = Some e → holds ip e → cs !! i = Some (e_q e, l) → place es cs flags ip i l
  | place_new : no_entry ip es → ¬ refused es flags → choice es i → place es cs flags ip i [].

Lemma place_other nif es cs flags ip i l e e' j :
  table_ok nif es cs → place es cs flags ip i l → es !! i = Some e → es !! j = Some e' → used e' → j ≠ i → e_ipaddr e' ≠ ip.
Proof.
  intros Ht [e0 l0 He0 [Hu Ha] _|Hno _ _] He Hj Hu' Hne E.
  - apply Hne. apply (to_distinct _ _ _ Ht j i e' e0); [done|done|done|done|congruence].
  - by apply (Hno j e' Hj).
Qed.

Lemma wp_when_ret {S} (b : bool) (m : M S unit) (Q : unit → S → Prop) s : b = false → Q tt s → wp (when_ b m) Q s.
Proof. by intros ->. Qed.

(** The second half of [etharp_update_arp_entry]. *)
Lemma wp_learn nif n ip a i e l owners es cs (s : net) (Q : Z → net → Prop) :
  arp_ok nif n s owners es cs → es !! i = Some e → cs !! i = Some (e_q e, l) → e_ipaddr e = ip → source owners s a →
  (∀ j e', es !! j = Some e' → used e' → j ≠ i → e_ipaddr e' ≠ ip) →
  (∀ s' fs, turn nif n owners (<[i := learnt nif ip (mem_read a 6 (bytes s))]> es) (<[i := (NULL, [])]> cs) fs s s' →
    etharp_cached_entry s' = etharp_cached_entry s → flushes s (ip_header n (mem_read a 6 (bytes s))) l.*2 fs → Q ERR_OK s') →
  wp (wr_entry (Z.of_nat i) (set_e_state ETHARP_STATE_STABLE);;
      wr_entry (Z.of_nat i) (set_e_netif nif);;
      d ← at_addr a;
      wr_entry (Z.of_nat i) (set_e_ethaddr d);;
      wr_entry (Z.of_nat i) (set_e_ctime 0);;
      k ← gets (λ s, size (arp_queue s));
      send_queue custom_free link_err (S k) nif (Z.of_nat i) (at_addr a);;
      mret ERR_OK) Q s.
Proof.
  intros [Hrep Hnif Htab Hcac] He Hc Ea Hsrc Hother HQ. pose proof (ar_table _ _ _ _ _ _ _ Hrep) as Ht. set (d := mem_read a 6 (bytes s)) in *.
  set (e1 := set_e_ctime 0 (set_e_ethaddr d (set_e_netif nif (set_e_state ETHARP_STATE_STABLE e)))).
  assert (∀ e' s2 f (Q' : unit → net → Prop), arp_table s2 = <[i := e']> es → Q' tt (set_table (λ _, <[i := f e']> es) s2) → wp (wr_entry (Z.of_nat i) f) Q' s2) as Hwr.
  { intros e' s2 f Q' Hs2 HQ'. apply (wp_wr_entry _ f e'); [lia|rewrite Nat2Z.id, Hs2; apply list_lookup_insert_eq; by eapply lookup_lt_Some|].
    rewrite Nat2Z.id. unfold set_table in *. rewrite Hs2, list_insert_insert_eq. exact HQ'. }
  assert (<[i := e]> es = es) as Eid by by apply list_insert_id.
  do 2 (apply wp_bind; eapply Hwr; [(by rewrite Ht, Eid || done)|]).
  unfold at_addr at 1, rd_bytes. apply wp_bind, wp_gets. cbn [set_table bytes]. fold d. do 2 (apply wp_bind; eapply Hwr; [done|]). fold e1.
  set (s2 := set_table _ _). apply wp_bind, wp_gets, wp_bind.
  assert (arp_rep s2 owners (<[i := e1]> es) cs) as Hrep2.
  { pose proof (arp_rep_entry _ _ _ _ _ _ _ i e (λ _, e1) Hrep He eq_refl) as Hr. unfold set_table in *. rewrite Ht in Hr. exact Hr. }
  assert (qlinked (arp_queue s) (e_q e) l ∧ NoDup l.*1) as [Hlk Hnd].
  { pose proof (ar_queues _ _ _ _ _ _ _ Hrep) as Hq. split; [apply (qs_link _ _ _ _ Hq (e_q e, l)); by eapply list_elem_of_lookup_2|].
    pose proof (queues_nodup EQ _ _ _ Hq) as Hnd. rewrite (queues_at Hc), nodes_cons in Hnd. by apply NoDup_app in Hnd as (? & _). }
  apply (wp_send_queue l _ nif n i e1 a owners (<[i := e1]> es) cs); [done|by apply (nif_ok_same s)|by apply list_lookup_insert_eq; eapply lookup_lt_Some|done| |done|].
  { rewrite Nat.lt_succ_r. by eapply qlinked_size. }
  intros s' fs cs' -> Hrep' Hst Ec Ew Hfl. rewrite list_insert_insert_eq in Hrep'. apply wp_ret.
  assert (set_e_q NULL e1 = learnt nif ip d) as El by (unfold learnt, e1; rewrite <-Ea; done). rewrite El in Hrep'.
  apply (HQ s' fs); [|done|exact Hfl]. split; [|by eapply (steady_then EP ER); [apply steady_refl|exact Hst|apply Hrep|..]|exact Ew].
  split; [done|apply (nif_ok_same s); [exact (st_netifs _ _ _ Hst)|done]| |by rewrite Ec]. apply table_ok_insert; [done|apply learnt_ok, length_mem_read|].
  intros _ j e' Hj Hj' Hu. by apply (Hother j).
Qed.

Lemma wp_update nif n ip a flags owners es cs (s : net) (Q : Z → net → Prop) :
  arp_ok nif n s owners es cs → source owners s a →
  (unicast n ip = false → Q ERR_ARG s) →
  (unicast n ip = true → no_entry ip es → refused es flags → Q ERR_MEM s) →
  (∀ i l s' fs, unicast n ip = true → place es cs flags ip i l →
    turn nif n owners (<[i := learnt nif ip (mem_read a 6 (bytes s))]> es) (<[i := (NULL, [])]> cs) fs s s' →
    etharp_cached_entry s' = etharp_cached_entry s → flushes s (ip_header n (mem_read a 6 (bytes s))) l.*2 fs → Q ERR_OK s') →
  wp (etharp_update_arp_entry custom_free link_err nif ip (at_addr a) flags) Q s.
Proof.
  intros Hok Hsrc Hbad Hno Hyes. pose proof (ao_nif _ _ _ _ _ _ _ _ _ Hok) as Hnif. pose proof (ao_rep _ _ _ _ _ _ _ _ _ Hok) as Hrep. unfold etharp_update_arp_entry.
  apply wp_bind, (wp_rd_netif nif n); [by destruct Hnif|]. apply wp_bind, wp_assert; [apply Z.eqb_eq; by destruct Hnif|].
  apply wp_bind, (wp_not_unicast nif n); [done|]. destruct (unicast n ip); cbn [negb]; [|by apply wp_ret, Hbad].
  apply wp_bind, (wp_find_entry custom_free EP ER EQ nif n ip flags owners es cs); [done| | |].
  - intros i e He Hh. rewrite (proj2 (Z.ltb_ge (Z.of_nat i) 0)) by lia. destruct (arp_rep_queue _ _ _ _ _ _ _ _ _ Hrep He) as [l Hl].
    pose proof (place_found es cs flags ip i e l He Hh Hl) as Hpl.
    eapply (wp_learn nif n ip a i e l); [done|done|done|by destruct Hh|done| |].
    + intros j e' Hj Hu Hne. by eapply place_other; [apply Hok|exact Hpl|..].
    + intros s' fs Ht Ec Hfl. by apply (Hyes i l s' fs).
  - intros Hn Hr. by apply wp_ret, Hno.
  - intros i e l s1 es' cs' Hn Hr Hch He Hl -> -> Hok1 Hqt Hst. rewrite (proj2 (Z.ltb_ge (Z.of_nat i) 0)) by lia.
    pose proof (place_new es cs flags ip i Hn Hr Hch) as Hpl. assert (i < length es)%nat by by eapply lookup_lt_Some.
    assert (i < length cs)%nat by by eapply lookup_lt_Some.
    assert (steady owners s s1) as Hst' by (eapply steady_sub; [|exact Hst]; set_solver).
    destruct (source_steady _ _ _ _ Hst' Hsrc) as [Hsrc1 Em].
    assert (e_q (new_entry ip e) = NULL) as Eq.
    { pose proof (ar_heads _ _ _ _ _ _ _ (ao_rep _ _ _ _ _ _ _ _ _ Hok1)) as Hh. rewrite !list_fmap_insert in Hh.
      apply (f_equal (lookup i)) in Hh. rewrite !list_lookup_insert_eq in Hh by (by rewrite length_fmap). by injection Hh. }
    eapply (wp_learn nif n ip a i (new_entry ip e) []); [done|by apply list_lookup_insert_eq|rewrite Eq; by apply list_lookup_insert_eq|done|done| |].
    + intros j e' Hj Hu Hne. rewrite list_lookup_insert_ne in Hj by done. intros E. by apply (Hn j e').
    + intros s' fs Ht Ec Hfl. rewrite !list_insert_insert_eq, Em in Ht.
      assert (fs = []) as -> by (apply (Hfl []); [done|apply NoDup_nil_2|by intros ? ? ?%elem_of_nil]).
      eapply (Hyes i [] s' []); [done|exact Hpl| |by rewrite Ec, (qt_cached _ _ Hqt)|].
      * destruct Ht as [O St W]. split; [done| |by rewrite W, (qt_wire _ _ Hqt)].
        eapply (steady_then EP ER); [exact Hst|exact St|exact (ar_pkt _ _ _ _ _ _ _ (ao_rep _ _ _ _ _ _ _ _ _ Hok1))|done..].
      * intros ls Hch' _ _. by apply Forall2_nil_inv_l in Hch' as ->.
Qed.

(** What learning [ip] makes of the table; [ps] are the packets that waited. *)
Inductive learns (nif : Z) (n : netif) (ip : Z) (d : list Z) (flags : Z) (es : list etharp_entry) (cs : list (Z * queue)) :
    list etharp_entry → list (Z * queue) → list Z → Prop :=
  | learns_not_unicast : unicast n ip = false → learns nif n ip d flags es cs es cs []
  | learns_refused : unicast n ip = true → no_entry ip es → refused es flags → learns nif n ip d flags es cs es cs []
  | learns_at i l : unicast n ip = true → place es cs flags ip i l →
      learns nif n ip d flags es cs (<[i := learnt nif ip d]> es) (<[i := (NULL, [])]> cs) l.*2.

Lemma flushes_nil h (s : net) : flushes s h [] [].
Proof. intros ls Hch _ _. by apply Forall2_nil_inv_l in Hch as ->. Qed.

Lemma wp_update_learns nif n ip a flags owners es cs (s : net) (Q : Z → net → Prop) :
  arp_ok nif n s owners es cs → source owners s a →
  (∀ r s' es' cs' ps fs, learns nif n ip (mem_read a 6 (bytes s)) flags es cs es' cs' ps → turn nif n owners es' cs' fs s s' →
    etharp_cached_entry s' = etharp_cached_entry s → flushes s (ip_header n (mem_read a 6 (bytes s))) ps fs → Q r s') →
  wp (etharp_update_arp_entry custom_free link_err nif ip (at_addr a) flags) Q s.
Proof.
  intros Hok Hsrc HQ. pose proof (turn_refl _ _ _ _ _ _ _ _ _ Hok) as Ht.
  apply (wp_update nif n ip a flags owners es cs); [done|done| | |].
  - intros Hu. by apply (HQ _ s es cs [] []); [apply learns_not_unicast|..|apply flushes_nil].
  - intros Hu Hn Hr. by apply (HQ _ s es cs [] []); [apply learns_refused|..|apply flushes_nil].
  - intros i l s' fs Hu Hpl Ht' Ec Hfl. eapply HQ; [by apply learns_at|done|done|done].
Qed.

(** ** Incoming packets *)

(** The fields of the ARP packet at [hdr]. *)
Definition field (m : memory) (a : Z) (n : nat) : Z := le_value (mem_read a n m).
Definition well_formed (m : memory) (hdr : Z) : bool :=
  (field m hdr 2 =? PP_HTONS LWIP_IANA_HWTYPE_ETHERNET) && (field m (hdr + 4) 1 =? ETH_HWADDR_LEN) &&
  (field m (hdr + 5) 1 =? 4) && (field m (hdr + 2) 2 =? PP_HTONS ETHTYPE_IP).
Definition our_ip (n : netif) (ip : Z) : bool := negb (ip4_addr_isany_val (ip_addr n)) && (ip =? ip_addr n).
Definition sender_ip (m : memory) (hdr : Z) : Z := field m (hdr + 14) 4.
Definition target_ip (m : memory) (hdr : Z) : Z := field m (hdr + 24) 4.
Definition sender_mac (m : memory) (hdr : Z) : list Z := mem_read (hdr + 8) 6 m.
Definition input_flags (n : netif) (m : memory) (hdr : Z) : Z :=
  if our_ip n (target_ip m hdr) then ETHARP_FLAG_TRY_HARD else ETHARP_FLAG_FIND_ONLY.

(** Requests of others for the address of the interface are answered. *)
Definition to_answer (n : netif) (m : memory) (hdr : Z) : bool :=
  (field m (hdr + 6) 2 =? PP_HTONS ARP_REQUEST) && (our_ip n (target_ip m hdr) && negb (our_ip n (sender_ip m hdr))).
Definition answer (n : netif) (m : memory) (hdr : Z) : frame :=
  arp_frame n (sender_mac m hdr) ARP_REPLY (sender_mac m hdr) (sender_ip m hdr).

(** What the packet at [hdr] makes of the table and sends: the answer, if it asks for
    one, unless there is no memory for it when the address is learnt. *)
Inductive inputs (nif : Z) (n : netif) (hdr : Z) (es : list etharp_entry) (cs : list (Z * queue)) (s : net) :
    list etharp_entry → list (Z * queue) → list frame → Prop :=
  | input_ignored : well_formed (bytes s) hdr = false → inputs nif n hdr es cs s es cs []
  | input_taken r s1 es' cs' ps fs fs' : well_formed (bytes s) hdr = true →
      etharp_update_arp_entry custom_free link_err nif (sender_ip (bytes s) hdr) (at_addr (hdr + 8)) (input_flags n (bytes s) hdr) s = (inl r, s1) →
      learns nif n (sender_ip (bytes s) hdr) (sender_mac (bytes s) hdr) (input_flags n (bytes s) hdr) es cs es' cs' ps →
      flushes s (ip_header n (sender_mac (bytes s) hdr)) ps fs →
      (if to_answer n (bytes s) hdr then attempt custom_free (pm s1) (answer n (bytes s) hdr) fs' else fs' = []) →
      inputs nif n hdr es cs s es' cs' (fs ++ fs').

Lemma wp_free_turn nif n p owners es cs fs (s0 s : net) (Q : unit → net → Prop) :
  turn nif n (p :: owners) es cs fs s0 s → p ≠ NULL →
  (∀ s', turn nif n owners es cs fs s0 s' → etharp_cached_entry s' = etharp_cached_entry s → Q tt s') →
  wp (on_pm (pbuf_free custom_free p);; mret tt) Q s.
Proof.
  intros [[Hrep Hnif Htab Hc] Hst Hw] Hp HQ. destruct Hrep as [Ht Hh Hq Ho].
  apply wp_bind, (wp_release custom_free EP ER p (owners ++ queued cs)); [done|done|]. intros _ l p' Hl Es Ho' Hst'. apply wp_ret, HQ; [|done]. split.
  - by split; [split|apply (nif_ok_same s)|..].
  - eapply (steady_then EP ER); [eapply steady_sub; [|exact Hst]; set_solver|exact Hst'|exact Ho|done..].
  - done.
Qed.

Lemma source_fixed owners o (s : net) a : source owners s a → fixed EP ER s o (at_addr a) (mem_read a 6 (bytes s)).
Proof.
  intros (p & l & x & b & _ & _ & _ & Hb & Hs & Hlo & Hhi).
  pose proof (fixed_at EP ER s o x b (a - b_payload b) Hb Hs) as Hf. replace (b_payload b + (a - b_payload b)) with a in Hf by lia. apply Hf; lia.
Qed.

Lemma our_ip_if n ip : (if ip4_addr_isany_val (ip_addr n) then false else ip =? ip_addr n) = our_ip n ip.
Proof. unfold our_ip. by destruct (ip4_addr_isany_val _). Qed.

Lemma wp_input nif n p b owners es cs (s : net) (Q : unit → net → Prop) :
  arp_ok nif n s (p :: owners) es cs → store (pm s) !! p = Some b → pbuf_get_allocsrc b ≠ 1 → SIZEOF_ETHARP_HDR ≤ b_len b →
  (∀ s' es' cs' fs, inputs nif n (b_payload b) es cs s es' cs' fs → turn nif n owners es' cs' fs s s' →
    etharp_cached_entry s' = etharp_cached_entry s → Q tt s') →
  wp (etharp_input custom_free link_err p nif) Q s.
Proof.
  intros Hok Hb Hsb Hlen HQ. pose proof (ao_nif _ _ _ _ _ _ _ _ _ Hok) as Hnif. pose proof (ar_pkt _ _ _ _ _ _ _ (ao_rep _ _ _ _ _ _ _ _ _ Hok)) as Ho.
  assert (p ≠ NULL) as Hp by (intros ->; by rewrite (pkt_null _ _ _ _ Ho) in Hb). set (hdr := b_payload b) in *. set (m := bytes s).
  change SIZEOF_ETHARP_HDR with 28 in Hlen.
  unfold etharp_input. rewrite (proj2 (Z.eqb_neq nif NULL)) by by destruct Hnif. apply wp_bind, (wp_rd_pbuf p b); [done|]. fold hdr.
  unfold rd16, rd32, rd8, rd_bytes. do 4 (apply wp_bind, wp_fmap, wp_gets). fold m.
  assert (negb (field m hdr 2 =? PP_HTONS LWIP_IANA_HWTYPE_ETHERNET) || negb (field m (hdr + 4) 1 =? ETH_HWADDR_LEN) ||
    negb (field m (hdr + 5) 1 =? 4) || negb (field m (hdr + 2) 2 =? PP_HTONS ETHTYPE_IP) = negb (well_formed m hdr)) as Hwf.
  { unfold well_formed. by rewrite !negb_andb. }
  unfold field in Hwf. rewrite Hwf. clear Hwf. destruct (well_formed m hdr) eqn:Hw; cbn [negb].
  2: { apply (wp_free_turn nif n p owners es cs [] s s); [by apply turn_refl|done|]. intros s' Ht Ec. eapply HQ; [by apply input_ignored|done|done]. }
  do 2 (apply wp_bind, wp_fmap, wp_gets). fold m. fold (field m (hdr + 14) 4) (field m (hdr + 24) 4). fold (sender_ip m hdr) (target_ip m hdr).
  unfold netif_ip4_addr at 1. apply wp_bind, wp_fmap, (wp_rd_netif nif n); [by destruct Hnif|].
  cbv zeta. rewrite !our_ip_if. fold (input_flags n m hdr).
  assert (source (p :: owners) s (hdr + 8)) as Hsrc.
  { destruct (pkt_chain _ _ _ _ p Ho) as [l Hl]; [by left|]. exists p, l, p, b. unfold hdr. split_and!; try done; [by left| |lia|lia].
    destruct l; [done|]. destruct Hl as [-> _]. by left. }
  apply wp_bind, wp_self, (wp_update_learns nif n _ (hdr + 8) _ (p :: owners) es cs); [done|done|]. intros r0 s1 es' cs' ps fs Hlearn Ht1 Ec1 Hfl Erun.
  assert (steady (p :: owners) s s1) as Hst1 by (eapply steady_sub; [|exact (tn_steady _ _ _ _ _ _ _ _ _ _ _ Ht1)]; set_solver).
  destruct (source_steady _ _ _ _ Hst1 Hsrc) as [Hsrc1 Em]. fold m in Em.
  assert (mem_read (hdr + 6) 2 (bytes s1) = mem_read (hdr + 6) 2 m) as Eop.
  { destruct (pkt_chain _ _ _ _ p Ho) as [l Hl]; [by left|]. destruct (st_pbuf _ _ _ Hst1 p l p b) as (b' & _ & _ & Hread); [by left|done| |done|].
    - destruct l; [done|]. destruct Hl as [-> _]. by left.
    - eapply mem_read_part; [by apply Hread|unfold hdr; lia|unfold hdr; lia]. }
  apply wp_bind, wp_fmap, wp_gets. rewrite Eop. fold (field m (hdr + 6) 2).
  assert (∀ s2 fs', turn nif n (p :: owners) es' cs' (fs ++ fs') s s2 → etharp_cached_entry s2 = etharp_cached_entry s1 →
    (if to_answer n m hdr then attempt custom_free (pm s1) (answer n m hdr) fs' else fs' = []) → wp (on_pm (pbuf_free custom_free p);; mret tt) Q s2) as Hend.
  { intros s2 fs' Ht2 Ec2 Hans. eapply wp_free_turn; [exact Ht2|done|]. intros s3 Ht3 Ec3.
    eapply HQ; [by eapply input_taken|exact Ht3|congruence]. }
  apply wp_bind. assert (∀ Q', (to_answer n m hdr = false → Q' tt s1) → to_answer n m hdr = false → wp (mret tt) Q' s1) as Hskip by (intros Q' HQ' Hf; by apply wp_ret, HQ').
  assert (to_answer n m hdr = false → wp (on_pm (pbuf_free custom_free p);; mret tt) Q s1) as Hquiet.
  { intros Hf. apply (Hend s1 []); [by rewrite app_nil_r|done|by rewrite Hf]. }
  unfold to_answer in *. destruct (field m (hdr + 6) 2 =? _) eqn:Eo; [|by apply Hskip]. cbn [andb] in *.
  destruct (our_ip n (target_ip m hdr) && negb (our_ip n (sender_ip m hdr))) eqn:Efor; [|by apply Hskip].
  apply wp_bind, (wp_raw custom_free link_err EP ER EQ nif n _ _ (sender_mac m hdr) (sender_mac m hdr) _ _ (p :: owners) es' cs').
  { apply Ht1. }
  1,2: unfold sender_mac; rewrite <-Em; by eapply source_fixed.
  { done. }
  intros r s2 Has Hok2. apply wp_ret. destruct (turn_asked _ _ _ _ _ _ _ _ _ _ _ _ _ Has Hok2) as (fs' & Ht2 & Hat & _).
  apply (Hend s2 fs'); [by eapply turn_trans|by rewrite (sa_cached _ _ (as_arp _ _ _ _ _ Has))|done].
Qed.

(** ** Queueing a packet *)

(** At most three packets wait, the oldest goes first. *)
Definition queue_in (l : queue) (c : Z * Z) : queue :=
  if decide (ARP_QUEUE_LEN ≤ Z.of_nat (length l)) then tail l ++ [c] else l ++ [c].

Lemma wp_queue_end l k y p x qlen (s : net) (Q : Z * Z → net → Prop) :
  qlinked (arp_queue s) x (l ++ [(y, p)]) → (length l < k)%nat → Q (y, qlen + Z.of_nat (length l)) s →
  wp (queue_end k x qlen) Q s.
Proof.
  revert k x qlen. induction l as [|[z o] l IH]; intros k x qlen Hl Hk HQ; (destruct k as [|k]; [simpl in Hk; lia|]); cbn [app qlinked queue_end] in *.
  - destruct Hl as (-> & Hy & Hp & m & Hm & ->). apply wp_bind, (wp_rd_q y (EtharpQEntry NULL p)); [done|]. cbn. apply wp_ret. by rewrite Z.add_0_r in HQ.
  - destruct Hl as (-> & Hz & Ho & m & Hm & Hl). apply wp_bind, (wp_rd_q z (EtharpQEntry m o)); [done|]. cbn [q_next].
    assert (m ≠ NULL) as Hmn.
    { destruct l as [|[w v] l]; cbn [app qlinked] in Hl; destruct Hl as (-> & ? & _); done. }
    rewrite (proj2 (Z.eqb_neq m NULL)) by done. apply IH; [done|simpl in Hk; lia|]. simpl in HQ. by replace (qlen + 1 + Z.of_nat (length l)) with (qlen + Z.of_nat (S (length l))) by lia.
Qed.

(** All elements of the pool are in queues. *)
Definition queues_full (cs : list (Z * queue)) : Prop := nodes cs ≡ₚ EQ.

(** The pool gives an element, which no queue has, or none, if the queues have all. *)
Lemma wp_new_q cs (s : net) (Q : Z → net → Prop) :
  queues EQ (arp_queue s) (arp_pool s) cs → (queues_full cs → Q NULL s) →
  (∀ x pool', x ≠ NULL → x ∉ nodes cs →
    (∀ m cs', (∀ c, c ∈ cs' → qlinked m c.1 c.2) → nodes cs' ≡ₚ x :: nodes cs → queues EQ m pool' cs') → Q x (set_pool pool' s)) →
  wp (on_pool pool_malloc) Q s.
Proof.
  intros [Hl (free & Hf & E)] Hno Hyes. destruct free as [|x free]; apply wp_zoom.
  - eapply wp_mono; [by apply wp_pool_malloc_none|]. intros a p' [-> ->]. rewrite app_nil_r in E. destruct s. by apply Hno.
  - eapply wp_mono; [by apply wp_pool_malloc_some|]. intros a p' [-> Hf'].
    assert (x ∈ EQ) as Hx by (rewrite <-E; apply elem_of_app; right; by left). apply Hyes.
    + by apply pool_elem_nonnull, queue_elem with EQ.
    + pose proof (queue_nodup (PQ := PQ) EQ) as Hnd. rewrite <-E in Hnd. apply NoDup_app in Hnd as (_ & Hd & _). intros Hin. apply (Hd x Hin). by left.
    + intros m cs' Hl' E'. split; [done|]. exists free. split; [done|]. rewrite E', <-E. cbn. apply Permutation_middle.
Qed.

Definition queue_head (l : queue) : Z := match l with [] => NULL | (x, _) :: _ => x end.

Lemma qlinked_head m q l : qlinked m q l → q = queue_head l.
Proof. destruct l as [|[x p] l]; simpl; [done|]. by intros [-> _]. Qed.

Lemma nodes_at {cs : list (Z * queue)} {i c} : cs !! i = Some c → nodes cs ≡ₚ c.2.*1 ++ nodes (delete i cs).
Proof. intros Hc. rewrite (nodes_proper _ _ (queues_at Hc)). by rewrite nodes_cons. Qed.

Lemma queued_at {cs : list (Z * queue)} {i c} : cs !! i = Some c → queued cs ≡ₚ c.2.*2 ++ queued (delete i cs).
Proof. intros Hc. rewrite (queued_proper _ _ (queues_at Hc)). by rewrite queued_cons. Qed.

Lemma nodes_set {cs : list (Z * queue)} {i c} c' : cs !! i = Some c → nodes (<[i := c']> cs) ≡ₚ c'.2.*1 ++ nodes (delete i cs).
Proof. intros Hc. rewrite (nodes_proper _ _ (queues_set c' Hc)). by rewrite nodes_cons. Qed.

Lemma queued_set {cs : list (Z * queue)} {i c} c' : cs !! i = Some c → queued (<[i := c']> cs) ≡ₚ c'.2.*2 ++ queued (delete i cs).
Proof. intros Hc. rewrite (queued_proper _ _ (queues_set c' Hc)). by rewrite queued_cons. Qed.

Lemma links_other (m m' : gmap Z etharp_q_entry) cs i c :
  cs !! i = Some c → NoDup (nodes cs) → (∀ z, z ∈ nodes (delete i cs) → m' !! z = m !! z) → (∀ c, c ∈ cs → qlinked m c.1 c.2) →
  ∀ c, c ∈ delete i cs → qlinked m' c.1 c.2.
Proof.
  intros Hc Hnd Hsame Hl c' Hc'. eapply qlinked_frame; [|apply Hl; rewrite (queues_at Hc); by right]. intros z Hz. apply Hsame.
  apply list_elem_of_split in Hc' as (c1 & c2 & ->). unfold nodes. rewrite bind_app. simpl. rewrite !fmap_app. set_solver.
Qed.

(** The element [x] with the packet [p] is put behind the queue [l]. *)
Lemma links_snoc (m : gmap Z etharp_q_entry) q l x p m' :
  qlinked m q l → NoDup l.*1 → x ∉ l.*1 → x ≠ NULL → p ≠ NULL →
  m' = match last l with Some (y, o) => <[y := EtharpQEntry x o]> (<[x := EtharpQEntry NULL p]> m) | None => <[x := EtharpQEntry NULL p]> m end →
  qlinked m' (if decide (l = []) then x else q) (l ++ [(x, p)]).
Proof.
  intros Hl Hnd Hx Hxn Hp ->. destruct l as [|c l0] eqn:El; [|rewrite <-El in *; assert (l ≠ []) as Hne by (by subst)].
  - simpl. split_and!; [done..|]. exists NULL. by rewrite lookup_insert_eq.
  - clear El c l0. rewrite decide_False by done. destruct (exists_last Hne) as (l1 & [y o] & ->). rewrite last_snoc, <-app_assoc. by apply qlinked_snoc.
Qed.

Lemma wp_append nif n p i e l owners es cs (s : net) (Q : Z → net → Prop) (k : M net Z) :
  arp_rep s (p :: owners) es cs → p ≠ NULL → nif_ok s nif n → es !! i = Some e → cs !! i = Some (e_q e, l) →
  (queues_full cs → wp k Q s) →
  (∀ s' x hd es' cs', x ≠ NULL → hd = queue_head (l ++ [(x, p)]) → es' = <[i := set_e_q hd e]> es → cs' = <[i := (hd, l ++ [(x, p)])]> cs →
    arp_rep s' owners es' cs' → quiet s s' → pm s' = pm s → wp (
      (when_ (ARP_QUEUE_LEN <=? Z.of_nat (length l))
        (e ← rd_entry (Z.of_nat i);
         o ← rd_q (e_q e);
         wr_entry (Z.of_nat i) (set_e_q (q_next o));;
         on_pm (pbuf_free custom_free (q_p o));;
         free_q_entry (e_q e)));;
      mret ERR_OK) Q s') →
  wp (new_entry ← on_pool pool_malloc;
      if negb (new_entry =? NULL) then
        modify (set_queue <[new_entry := EtharpQEntry NULL p]>);;
        e ← rd_entry (Z.of_nat i);
        qlen ← (if negb (e_q e =? NULL) then
                  n ← gets (λ s, size (arp_queue s));
                  '(r, qlen) ← queue_end (S n) (e_q e) 1;
                  wr_q r (λ r, EtharpQEntry new_entry (q_p r));;
                  mret qlen
                else wr_entry (Z.of_nat i) (set_e_q new_entry);; mret 0);
        when_ (ARP_QUEUE_LEN <=? qlen)
          (e ← rd_entry (Z.of_nat i);
           o ← rd_q (e_q e);
           wr_entry (Z.of_nat i) (set_e_q (q_next o));;
           on_pm (pbuf_free custom_free (q_p o));;
           free_q_entry (e_q e));;
        mret ERR_OK
      else k) Q s.
Proof.
  intros [Ht Hh Hq Ho] Hp Hnif He Hc Hno Hyes. pose proof (queues_nodup EQ _ _ _ Hq) as Hnd.
  assert (qlinked (arp_queue s) (e_q e) l) as Hlk by (apply (qs_link _ _ _ _ Hq (e_q e, l)); by eapply list_elem_of_lookup_2).
  apply wp_bind, (wp_new_q cs); [done|done|]. intros x pool' Hx Hxn Hnew. rewrite (proj2 (Z.eqb_neq x NULL)) by done. cbn [negb].
  pose proof (nodes_at Hc) as En. cbn [snd] in En. assert (x ∉ l.*1 ∧ x ∉ nodes (delete i cs)) as [Hxl Hxo] by (rewrite En in Hxn; set_solver).
  assert (NoDup l.*1 ∧ (∀ z, z ∈ l.*1 → z ∉ nodes (delete i cs))) as [Hndl Hndo] by (rewrite En in Hnd; by apply NoDup_app in Hnd as (? & ? & _)).
  apply wp_bind, wp_modify. set (m1 := <[x := EtharpQEntry NULL p]> (arp_queue s)). set (s1 := set_queue _ _).
  set (hd := if decide (l = []) then x else e_q e).
  assert (hd = queue_head (l ++ [(x, p)])) as Ehd.
  { unfold hd. apply qlinked_head in Hlk. rewrite Hlk. destruct l as [|[y o] l]; [done|]. by rewrite decide_False. }
  assert (∀ m' s', m' = match last l with Some (y, o) => <[y := EtharpQEntry x o]> m1 | None => m1 end →
    arp_table s' = <[i := set_e_q hd e]> es → arp_queue s' = m' → arp_pool s' = pool' → pm s' = pm s →
    arp_rep s' owners (<[i := set_e_q hd e]> es) (<[i := (hd, l ++ [(x, p)])]> cs)) as Hrep'.
  { intros m' s' Em Et' Em' Ep' Epm. pose proof (links_snoc _ _ _ x p m' Hlk Hndl Hxl Hx Hp Em) as Hlk'. fold hd in Hlk'. split.
    - done.
    - by rewrite !list_fmap_insert, Hh.
    - rewrite Em', Ep'. apply Hnew.
      + assert (∀ z, z ∈ nodes (delete i cs) → m' !! z = arp_queue s !! z) as Hsame.
        { intros z Hz. rewrite Em. assert (z ≠ x) as Hzx by congruence. unfold m1. destruct (last l) as [[y o]|] eqn:El; [|by rewrite lookup_insert_ne].
          rewrite lookup_insert_ne; [by rewrite lookup_insert_ne|]. intros ->. apply (Hndo z); [|done]. apply last_Some in El as [l' ->]. rewrite fmap_app. set_solver. }
        intros c Hc'. rewrite (queues_set _ Hc) in Hc'. apply elem_of_cons in Hc' as [->|Hc']; [exact Hlk'|].
        eapply (links_other (arp_queue s)); [exact Hc|exact Hnd|exact Hsame|apply (qs_link _ _ _ _ Hq)|done].
      + rewrite (nodes_set _ Hc), En. cbn [snd]. rewrite fmap_app. cbn. rewrite <-app_assoc. symmetry. apply Permutation_middle.
    - rewrite Epm. eapply pkt_ok_perm; [|exact Ho]. rewrite (queued_set _ Hc), (queued_at Hc). cbn [snd]. rewrite fmap_app, <-app_assoc. cbn. solve_Permutation. }
  apply wp_bind, (wp_rd_entry _ e); [lia|by rewrite Nat2Z.id; cbn; rewrite Ht|]. apply wp_bind.
  destruct (Z.eqb_spec (e_q e) NULL) as [Eq|Eq]; cbn [negb].
  - assert (l = []) as -> by (destruct l as [|[y o] l]; [done|]; simpl in Hlk; destruct Hlk as (? & ? & _); congruence).
    apply wp_bind, (wp_wr_entry _ _ e); [lia|by rewrite Nat2Z.id; cbn; rewrite Ht|]. rewrite Nat2Z.id. apply wp_ret.
    apply (Hyes _ x hd _ _ Hx Ehd eq_refl eq_refl); [|by split; try done; apply left_over_same|done]. apply (Hrep' m1); [done| |done|done|done]. cbn. by rewrite Ht.
  - assert (l ≠ []) as Hne by (intros ->; by simpl in Hlk). destruct (exists_last Hne) as (l1 & [y o] & El). subst l.
    apply wp_bind, wp_gets. assert (qlinked (arp_queue s1) (e_q e) (l1 ++ [(y, o)])) as Hlk1.
    { eapply qlinked_frame; [|exact Hlk]. intros z Hz. cbn. unfold m1. rewrite lookup_insert_ne; [done|]. by intros ->. }
    apply wp_bind, (wp_queue_end l1 _ y o); [done| |].
    { pose proof (qlinked_size _ _ _ Hlk1 Hndl) as Hsz. rewrite length_app in Hsz. simpl in Hsz. rewrite Nat.lt_succ_r. etransitivity; [|exact Hsz]. lia. }
    apply wp_bind. unfold wr_q. assert (∃ r, arp_queue s1 !! y = Some (EtharpQEntry r o)) as [r Hr].
    { clear -Hlk1. revert Hlk1. generalize (e_q e). induction l1 as [|[z v] l1 IH]; intros q; simpl.
      - intros (_ & _ & _ & r & Hr & _). by exists r.
      - intros (_ & _ & _ & r & _ & Hl). by apply IH in Hl. }
    apply wp_bind, (wp_rd_q y (EtharpQEntry r o)); [exact Hr|]. cbn [q_p]. apply wp_modify, wp_ret.
    replace (1 + Z.of_nat (length l1)) with (Z.of_nat (length (l1 ++ [(y, o)]))) by (rewrite length_app; simpl; lia).
    assert (set_e_q hd e = e) as Ese by (unfold hd; rewrite decide_False by done; by destruct e).
    apply (Hyes _ x hd _ _ Hx Ehd eq_refl eq_refl); [|by split; try done; apply left_over_same|done]. eapply (Hrep' (<[y := EtharpQEntry x o]> m1)); [by rewrite last_snoc| |done|done|done].
    rewrite Ese. cbn. rewrite Ht. symmetry. by apply list_insert_id.
Qed.

(** The first packet of a queue is dropped. *)
Lemma wp_drop_first nif n z o i e l owners es cs (s : net) (Q : unit → net → Prop) :
  arp_rep s owners es cs → nif_ok s nif n → es !! i = Some e → cs !! i = Some (e_q e, (z, o) :: l) →
  (∀ s' hd es' cs', hd = queue_head l → es' = <[i := set_e_q hd e]> es → cs' = <[i := (hd, l)]> cs → arp_rep s' owners es' cs' →
    quiet s s' → steady (owners ++ queued cs') s s' → Q tt s') →
  wp (e ← rd_entry (Z.of_nat i);
      o ← rd_q (e_q e);
      wr_entry (Z.of_nat i) (set_e_q (q_next o));;
      on_pm (pbuf_free custom_free (q_p o));;
      free_q_entry (e_q e)) Q s.
Proof.
  intros [Ht Hh Hq Ho] Hnif He Hc HQ.
  destruct (qs_link _ _ _ _ Hq _ (list_elem_of_lookup_2 _ _ _ Hc)) as (Ez & Hz & Hp & m & Hm & Hlk). cbn [fst] in Ez.
  apply wp_bind, (wp_rd_entry _ e); [lia|by rewrite Nat2Z.id, Ht|]. rewrite Ez in *. apply wp_bind, (wp_rd_q z (EtharpQEntry m o)); [done|]. cbn [q_p q_next].
  apply wp_bind, (wp_wr_entry _ _ e); [lia|by rewrite Nat2Z.id, Ht|]. rewrite Nat2Z.id. set (s1 := set_table _ s).
  set (cs' := <[i := (m, l)]> cs). pose proof (queued_at Hc) as Eqd. pose proof (queued_set (m, l) Hc) as Eqd'. cbn [snd] in Eqd, Eqd'. cbn [fmap list_fmap snd app] in Eqd.
  assert (pkt_ok (pm s) (o :: owners ++ queued cs')) as Ho1.
  { eapply pkt_ok_perm; [|exact Ho]. unfold cs'. rewrite Eqd, Eqd'. symmetry. apply Permutation_middle. }
  apply wp_bind, (wp_release custom_free EP ER o (owners ++ queued cs')); [done|done|]. intros r k p' _ Es Ho2 Hst.
  apply (wp_free_q_entry custom_free EP ER EQ z o l (delete i cs)); [eapply queues_perm; [apply (queues_at Hc)|exact Hq]|].
  cbn [set_pm arp_queue s1 set_table]. intros m' pool' Hm' Hq'. rewrite Hm in Hm'. injection Hm' as <-.
  apply (HQ _ m (<[i := set_e_q m e]> es) cs'); [by apply qlinked_head in Hlk|done|done| | |].
  - split; [by cbn; rewrite Ht|unfold cs'; by rewrite !list_fmap_insert, Hh| |exact Ho2]. eapply queues_perm; [symmetry; apply (queues_set _ Hc)|exact Hq'].
  - split; try done. split; [done|]. change (fewer (store (pm s)) (store p')). rewrite Es. apply release_back.
  - eapply (steady_then EP ER); [apply steady_refl|eapply (steady_then EP ER); [exact Hst|apply steady_refl|exact Ho2|done..]|exact Ho1|done..].
Qed.

Lemma wp_enqueue nif n p i e l owners es cs (s : net) (Q : Z → net → Prop) :
  arp_ok nif n s (p :: owners) es cs → p ≠ NULL → es !! i = Some e → cs !! i = Some (e_q e, l) → e_state e = ETHARP_STATE_PENDING →
  (∀ s', queues_full cs → turn nif n owners es cs [] s s' → etharp_cached_entry s' = etharp_cached_entry s → Q ERR_MEM s') →
  (∀ s' x hd l' es' cs', l' = queue_in l (x, p) → hd = queue_head l' → es' = <[i := set_e_q hd e]> es → cs' = <[i := (hd, l')]> cs →
    turn nif n owners es' cs' [] s s' → etharp_cached_entry s' = etharp_cached_entry s → left_over s s' → Q ERR_OK s') →
  wp (enqueue custom_free (Z.of_nat i) p) Q s.
Proof.
  intros [Hrep Hnif Htab Hcac] Hp He Hc Hpe Hno Hyes. pose proof (to_entry _ _ _ Htab _ _ _ _ He Hc) as Heok.
  assert (used e) as Hu by (unfold used; by rewrite Hpe).
  assert (∀ hd l', Z.of_nat (length l') ≤ ARP_QUEUE_LEN → table_ok nif (<[i := set_e_q hd e]> es) (<[i := (hd, l')]> cs)) as Htab'.
  { intros hd l' Hl'. apply table_ok_insert; [done|destruct Heok; by split|]. intros _ j e' Hj Hj' Hu' E. apply Hj.
    by apply (to_distinct _ _ _ Htab j i e' e). }
  unfold enqueue. eapply (wp_append nif n p i e l owners es cs s Q); [exact Hrep|exact Hp|exact Hnif|exact He|exact Hc| |].
  - intros Hfull. apply wp_bind, (wp_release custom_free EP ER p (owners ++ queued cs)); [apply Hrep|done|]. intros _ k p' _ Es Ho' Hst. apply wp_ret, Hno; [done| |done].
    destruct Hrep. split; [by split; [split|apply (nif_ok_same s)|..]|done|by rewrite app_nil_r].
  - intros s1 x hd es1 cs1 Hx Ehd -> -> Hrep1 Hqt Epm. assert (i < length es)%nat by by eapply lookup_lt_Some. assert (i < length cs)%nat by by eapply lookup_lt_Some.
    assert (∀ o, steady o s s1) as Hst1 by (intros o; destruct Hqt as [? ? [? _] ?]; apply steady_same; [done|done|by rewrite Epm|done]).
    assert (queued (<[i := (hd, l ++ [(x, p)])]> cs) ≡ₚ p :: queued cs) as Eqd1.
    { rewrite (queued_set _ Hc), (queued_at Hc). cbn [snd]. rewrite fmap_app, <-app_assoc. cbn. symmetry. apply Permutation_middle. }
    apply wp_bind, wp_when.
    + intros Hlen%Z.leb_le. destruct l as [|[z o] l]; [done|].
      eapply (wp_drop_first nif n z o i (set_e_q hd e) (l ++ [(x, p)])); [exact Hrep1|destruct Hqt; by apply (nif_ok_same s)|by apply list_lookup_insert_eq|by apply list_lookup_insert_eq|].
      intros s2 hd' es' cs' Ehd' -> -> Hrep2 Hqt2 Hst2. rewrite !list_insert_insert_eq in *. change (set_e_q hd' (set_e_q hd e)) with (set_e_q hd' e) in *.
      apply wp_ret, (Hyes s2 x hd' (l ++ [(x, p)]) (<[i := set_e_q hd' e]> es) (<[i := (hd', l ++ [(x, p)])]> cs)); try done; [unfold queue_in; by rewrite decide_True| |by rewrite (qt_cached _ _ Hqt2), (qt_cached _ _ Hqt)|eapply left_over_trans; [apply Hqt|apply Hqt2]].
      split; [|by eapply (steady_then EP ER); [apply Hst1|exact Hst2|apply Hrep1|..]|by rewrite (qt_wire _ _ Hqt2), (qt_wire _ _ Hqt), app_nil_r].
      split; [done|destruct Hqt, Hqt2; apply (nif_ok_same s); [congruence|done]| |by rewrite (qt_cached _ _ Hqt2), (qt_cached _ _ Hqt)].
      apply Htab'. pose proof (eo_queue _ _ _ Heok). simpl in *. rewrite length_app. simpl. lia.
    + intros Hlen%Z.leb_gt. apply wp_ret, (Hyes s1 x hd (l ++ [(x, p)]) (<[i := set_e_q hd e]> es) (<[i := (hd, l ++ [(x, p)])]> cs)); try done; [unfold queue_in; rewrite decide_False; [done|lia]| |by rewrite (qt_cached _ _ Hqt)|apply Hqt].
      split; [|apply Hst1|by rewrite (qt_wire _ _ Hqt), app_nil_r]. split; [done|destruct Hqt; by apply (nif_ok_same s)| |by rewrite (qt_cached _ _ Hqt)].
      apply Htab'. rewrite length_app. simpl. lia.
Qed.
End etharp_send.
