(* ===== verification/EtharpQuery.v ===== *)
(** The functions of [Etharp] that clients call with a packet: [etharp_query] and
    [etharp_output]. *)
From stdpp Require Import base tactics numbers list gmap.
From S2P Require Import Prelude Words Def Memp PbufMem PbufThm PbufOps Ip4Addr Net NetThm Etharp EtharpThm EtharpOps EtharpSend.

Section etharp_query.
Context {PP PR H PQ : Type} `{PoolLaws PP, PoolLaws PR, HeapLaws H, PoolLaws PQ}.
Context (custom_free : Z → M (pmem PP PR H) unit) (link_err : list frame → Z).
Context (EP ER EQ : list Z) `{!Layout (PP := PP) (PR := PR) (H := H) EP ER} `{!QueueLayout (PQ := PQ) EQ}.

Notation net := (net PP PR H PQ).
Notation pkt_ok := (pkt_ok EP ER).
Notation arp_rep := (arp_rep EP ER EQ).
Notation arp_ok := (arp_ok EP ER EQ).
Notation turn := (turn EP ER EQ).
Notation asked := (asked custom_free).
Notation no_arp_memory := (no_arp_memory custom_free).

(** ** A packet of a client *)

(** One whole packet, to which another reference can be taken. *)
Definition sendable (s : net) (q : Z) (l : list Z) : Prop :=
  ∃ b, store (pm s) !! q = Some b ∧ b_ref b < 255 ∧ chain (store (pm s)) q l ∧ packet (store (pm s)) l (b_tot_len b) ∧ one_packet (store (pm s)) l.

Definition volatile (b : pbuf_s) : bool := negb (Z.land (b_type b) PBUF_TYPE_FLAG_DATA_VOLATILE =? 0).

Lemma sendable_same (s s' : net) q l : store (pm s') = store (pm s) → sendable s q l → sendable s' q l.
Proof. intros E. unfold sendable. by rewrite E. Qed.

(** A packet is copied if its sender may change the data of one of its pbufs. *)
Definition must_copy (σ : bufs) (l : list Z) : bool :=
  existsb (λ x, match σ !! x with Some b => volatile b | None => false end) l.

Lemma must_copy_ext (σ σ' : bufs) l :
  (∀ x, x ∈ l → ∃ b r, σ !! x = Some b ∧ σ' !! x = Some (set_ref r b)) → must_copy σ' l = must_copy σ l.
Proof.
  induction l as [|x l IH]; intros Hall; [done|]. cbn [must_copy existsb]. destruct (Hall x) as (b & r & -> & ->); [by left|]. f_equal.
  apply IH. intros y Hy. apply Hall. by right.
Qed.

Lemma wp_copy_needed n q l (s : net) (Q : bool → net → Prop) :
  store (pm s) !! NULL = None → chain (store (pm s)) q l → one_packet (store (pm s)) l → (length l < n)%nat → Q (must_copy (store (pm s)) l) s →
  wp (copy_needed n q) Q s.
Proof.
  intros Hnull. revert n q. induction l as [|x l IH]; intros [|n] q Hl Hone Hn HQ; simpl in Hn; try lia; cbn [copy_needed].
  - simpl in Hl. subst q. by apply wp_ret.
  - destruct Hl as (-> & b & Hb & Hl). assert (x ≠ NULL) as Hx by (intros ->; congruence). rewrite (proj2 (Z.eqb_neq x NULL)) by done.
    apply wp_bind, (wp_rd_pbuf x b); [done|]. apply wp_bind, wp_assert.
    { destruct (Z.eqb_spec (b_len b) (b_tot_len b)) as [E|]; [|done]. rewrite (Hone x b) by (done || by left). done. }
    cbn [must_copy existsb] in HQ. rewrite Hb in HQ. unfold volatile in HQ at 1.
    destruct (negb _); [by apply wp_ret|]. apply IH; [done| |lia|done]. intros y c Hy. apply Hone. by right.
Qed.

(** What is in the queue for the packet [q]: [q] itself, or a copy. *)
Definition taken (s : net) (q : Z) (l : list Z) (s' : net) (p : Z) : Prop :=
  if must_copy (store (pm s)) l then chain (store (pm s')) p [p] ∧ (solid (store (pm s)) l → data_of s' p = concat (frame_of s l))
  else p = q.

Lemma taken_same (s0 s s' : net) q l p : store (pm s) = store (pm s0) → bytes s = bytes s0 → taken s q l s' p → taken s0 q l s' p.
Proof.
  intros Es Eb. unfold taken. rewrite Es. destruct (must_copy _ _); [|done]. intros [Hc Hd]. split; [done|]. intros Hs. rewrite Hd by done. f_equal.
  apply list_fmap_ext. intros i x _. by apply data_same; [rewrite Es|].
Qed.

(** One more reference. *)
Lemma steady_ref owners (s : net) p b r : store (pm s) !! p = Some b →
  steady owners s (set_pm (λ _, with_store (pm s) (<[p := set_ref r b]> (store (pm s)))) s).
Proof.
  intros Hb. assert (∀ x c, store (pm s) !! x = Some c → ∃ c', <[p := set_ref r b]> (store (pm s)) !! x = Some c' ∧ b_next c' = b_next c ∧ extends c c') as Hall.
  { intros x c Hc. destruct (decide (x = p)) as [->|Hne].
    - rewrite Hb in Hc. injection Hc as <-. rewrite lookup_insert_eq. by exists (set_ref r b).
    - rewrite lookup_insert_ne by done. exists c. split_and!; [done..|apply extends_refl]. }
  split; [done|exists []; by rewrite app_nil_r| |].
  - intros q l _. apply chain_frame. intros x c _ Hc. destruct (Hall x c Hc) as (c' & ? & ? & _). by exists c'.
  - intros q l x c _ _ _ Hc. destruct (Hall x c Hc) as (c' & ? & _ & ?). by exists c'.
Qed.

(** A new packet, whose data are written. *)
Lemma steady_copy owners o (s : net) r p' m layer n :
  let t := ram_pbuf layer r n in
  pkt_ok p' o → store (pm s) !! r = None → store p' = <[r := t]> (store (pm s)) → off (b_payload t) (b_payload t + b_len t) (bytes s) m →
  steady owners s (set_bytes (λ _, m) (set_pm (λ _, p') s)).
Proof.
  intros t Ho Hnone Es Hoff. assert (∀ x c, store (pm s) !! x = Some c → x ≠ r ∧ store p' !! x = Some c) as Hall.
  { intros x c Hc. assert (x ≠ r) as Hne by congruence. split; [done|]. by rewrite Es, lookup_insert_ne. }
  assert (store p' !! r = Some t) as Ht by (by rewrite Es, lookup_insert_eq).
  split; [done|exists []; by rewrite app_nil_r| |].
  - intros q l _. apply chain_frame. intros x c _ Hc. exists c. split; [|done]. by apply Hall.
  - intros q l x c _ _ _ Hc. destruct (Hall x c Hc) as [Hne Hc']. exists c. split; [done|]. split; [apply extends_refl|]. intros Hs.
    pose proof (data_apart EP ER (set_pm (λ _, p') s) o (b_payload t) (b_payload t + b_len t) m r x t c Ho Ht Hc' ltac:(done) Hs ltac:(done) Hoff) as Hd.
    cbn [set_bytes bytes]. rewrite Hd; [unfold data_of; cbn [set_pm pm bytes]; by rewrite Hc'| |lia].
    destruct (mo_data _ _ _ (po_mem _ _ _ _ Ho) r t Ht ltac:(done)) as (_ & ? & _). lia.
Qed.

Lemma arp_ok_more nif n owners es cs (s s' : net) p :
  arp_ok nif n s owners es cs → same_arp s s' → pkt_ok (pm s') (p :: owners ++ queued cs) → arp_ok nif n s' (p :: owners) es cs.
Proof.
  intros [[Ht Hh Hq Ho] Hn Htab Hc] [En Et Ec Eq Ep] Ho'. split; [|by apply (nif_ok_same s)|done|by rewrite Ec].
  split; [by rewrite Et|done|by rewrite Eq, Ep|done].
Qed.

(** From the point where the queue has its reference. *)
Lemma turn_from nif n p owners es cs es' cs' (s s1 s' : net) :
  arp_ok nif n s1 (p :: owners) es cs → (∀ o, steady o s s1) → wire s1 = wire s → turn nif n owners es' cs' [] s1 s' → turn nif n owners es' cs' [] s s'.
Proof.
  intros Hok Hst Ew [O S W]. split; [done| |by rewrite W, Ew].
  eapply (steady_then EP ER); [apply Hst|exact S|exact (ar_pkt _ _ _ _ _ _ _ (ao_rep _ _ _ _ _ _ _ _ _ Hok))|done..].
Qed.

(** A memory in order, with no more packets than [p0] has. *)
Definition no_more (p0 p : pmem PP PR H) : Prop := (∃ owners, pkt_ok p owners) ∧ fewer (store p0) (store p).

(** Why a packet cannot wait: all elements of queues are in use, or it must be copied
    and, with no more packets than before, there is no memory for the copy. *)
Definition lost (s : net) (q : Z) (l : list Z) (cs : list (Z * queue)) : Prop :=
  queues_full EQ cs ∨
  must_copy (store (pm s)) l = true ∧ ∃ b p, store (pm s) !! q = Some b ∧ no_more (pm s) p ∧
    no_memory custom_free PBUF_LINK (b_tot_len b) p.

Lemma queue_in_last l c : c ∈ queue_in l c.
Proof. unfold queue_in. destruct (decide _); apply elem_of_app; right; by left. Qed.

Lemma wp_queue_packet nif n q lq i e l owners es cs (s : net) (Q : Z → net → Prop) :
  arp_ok nif n s owners es cs → sendable s q lq → es !! i = Some e → cs !! i = Some (e_q e, l) → e_state e = ETHARP_STATE_PENDING →
  (∀ s', lost s q lq cs → turn nif n owners es cs [] s s' → etharp_cached_entry s' = etharp_cached_entry s → Q ERR_MEM s') →
  (∀ s' x p hd l' es' cs', taken s q lq s' p → l' = queue_in l (x, p) → hd = queue_head l' → es' = <[i := set_e_q hd e]> es → cs' = <[i := (hd, l')]> cs →
    turn nif n owners es' cs' [] s s' → etharp_cached_entry s' = etharp_cached_entry s → Q ERR_OK s') →
  wp (queue_packet custom_free (Z.of_nat i) q) Q s.
Proof.
  intros Hok (b & Hb & Href & Hl & Hpk & Hone) He Hc Hpe Hno Hyes. pose proof (ar_pkt _ _ _ _ _ _ _ (ao_rep _ _ _ _ _ _ _ _ _ Hok)) as Ho.
  pose proof (pkt_null _ _ _ _ Ho) as Hnull. assert (q ≠ NULL) as Hq by (intros ->; congruence).
  assert (∀ s1 p, arp_ok nif n s1 (p :: owners) es cs → p ≠ NULL → (∀ o, steady o s s1) → wire s1 = wire s → etharp_cached_entry s1 = etharp_cached_entry s →
    (∀ s', left_over s1 s' → is_Some (store (pm s') !! p) → taken s q lq s' p) →
    wp (if negb (p =? NULL) then enqueue custom_free (Z.of_nat i) p else mret ERR_MEM) Q s1) as Hgo.
  { intros s1 p Hok1 Hp Hst Ew Ec Htk. rewrite (proj2 (Z.eqb_neq p NULL)) by done. cbn [negb].
    apply (wp_enqueue custom_free EP ER EQ nif n p i e l owners es cs); [done..| |].
    - intros s' Hfull Ht Ec'. apply Hno; [by left|by eapply turn_from|congruence].
    - intros s' x hd l' es' cs' El' Ehd Ees Ecs Ht Ec' Hlo. eapply (Hyes s' x p); [|done..|by eapply turn_from|congruence]. apply Htk; [done|].
      pose proof (ar_pkt _ _ _ _ _ _ _ (ao_rep _ _ _ _ _ _ _ _ _ (tn_ok _ _ _ _ _ _ _ _ _ _ _ Ht))) as Ho'.
      apply (pkt_alloc _ _ _ _ p Ho'); [|done]. apply elem_of_app. right. rewrite Ecs, (queued_set _ Hc). apply elem_of_app. left. cbn [snd]. rewrite El'.
      apply list_elem_of_fmap. exists (x, p). split; [done|apply queue_in_last]. }
  unfold queue_packet. apply wp_bind, wp_gets, wp_bind, (wp_copy_needed _ q lq); [done|done|done| |].
  { rewrite Nat.lt_succ_r. by apply (chain_size _ Hnull q). }
  unfold taken in Hgo. destruct (must_copy (store (pm s)) lq) eqn:Emc; apply wp_bind.
  - apply (wp_pbuf_clone custom_free EP ER PBUF_LINK q b lq (owners ++ queued cs)); try done.
    + intros p' Hmem Es Ho'. cbn [Z.eqb NULL negb]. apply wp_ret, Hno; [| |done].
      { right. split; [done|]. exists b, (pm s). split_and!; [done|by split; [eexists|apply fewer_refl]|done]. }
      split; [by apply (arp_ok_same EP ER EQ nif n s)|by apply steady_same|by rewrite app_nil_r].
    + intros r p' m t Hr Hnone Es Ho' Hoff Hm. apply Hgo; try done.
      * by apply (arp_ok_more nif n owners es cs s).
      * intros o. by eapply steady_copy.
      * intros s' [Eb Hlo] [t' Ht']. destruct (Hlo _ _ Ht') as (t2 & k & Ht2 & -> & _). cbn [set_bytes set_pm pm] in Ht2. rewrite Es, lookup_insert_eq in Ht2. injection Ht2 as <-.
        split; [simpl; split; [done|]; eexists; split; [exact Ht'|done]|]. intros Hsol. unfold data_of. rewrite Ht', Eb. apply Hm.
        assert (r ∉ lq) as Hrl by (intros Hin; by destruct (chain_alloc _ _ _ _ Hl Hin) as [? ?]; simplify_eq).
        assert (∀ y, y ∈ lq → store p' !! y = store (pm s) !! y) as Ekeep by (intros y Hy; rewrite Es, lookup_insert_ne; [done|]; by intros ->).
        assert (clear_of (store p') t lq) as Hcl.
        { eapply (solid_clear EP ER); [exact Ho'|by rewrite Es, lookup_insert_eq|done|done|]. intros y c Hy. rewrite Ekeep by done. by apply Hsol. }
        intros y c Hy Hc'. apply (Hcl y c Hy). by rewrite Ekeep.
  - apply wp_bind, wp_zoom, (wp_ref_pkt EP ER q b (owners ++ queued cs)); [done|done|done|]. intros Ho'. apply wp_ret, Hgo; try done.
    + by apply (arp_ok_more nif n owners es cs s).
    + intros o. by apply steady_ref.
Qed.

(** ** Sending to a known address *)

Lemma points_entry (s : net) i e :
  arp_table s !! i = Some e → length (e_ethaddr e) = 6%nat → ∀ lo hi, points s lo hi (entry_ethaddr (Z.of_nat i)) (e_ethaddr e).
Proof.
  intros He Hl lo hi. split; [done|]. intros s' _ Et _. unfold entry_ethaddr, rd_entry.
  rewrite (proj2 (Z.ltb_ge (Z.of_nat i) 0)) by lia. unfold fmap, M_fmap, mbind, M_bind, gets. rewrite Et, Nat2Z.id. by rewrite He.
Qed.

(** The frame of a packet whose data is with its pbufs. *)
Definition packet_frames (s : net) (q : Z) (lq h : list Z) (fs : list frame) : Prop := solid (store (pm s)) lq → fs = sent s q lq h.

Lemma packet_frames_asked (s s' : net) f r q lq h fs :
  asked f r s s' → chain (store (pm s)) q lq → q ≠ NULL → packet_frames s' q lq h fs → packet_frames s q lq h fs.
Proof.
  intros [_ Es Hd _] Hl Hq Hfs Hsol. unfold packet_frames in Hfs. rewrite Es in Hfs. rewrite Hfs by done. apply sent_same; [|done..].
  intros x Hx. rewrite Es. split; [done|]. destruct (chain_alloc _ _ _ _ Hl Hx) as [b Hb]. unfold data_of at 1. rewrite Es, Hb. apply Hd; [done|]. by eapply Hsol.
Qed.

Lemma wp_send_turn nif n q lq dst d owners es cs (s : net) (Q : Z → net → Prop) :
  arp_ok nif n s owners es cs → chain (store (pm s)) q lq → q ≠ NULL → (∀ lo hi, points s lo hi dst d) →
  (∀ r s' fs, turn nif n owners es cs fs s s' → etharp_cached_entry s' = etharp_cached_entry s → packet_frames s q lq (ip_header n d) fs → Q r s') →
  wp (ethernet_output link_err nif q (hwaddr nif) dst ETHTYPE_IP) Q s.
Proof.
  intros Hok Hl Hq Hdst HQ. pose proof (ar_pkt _ _ _ _ _ _ _ (ao_rep _ _ _ _ _ _ _ _ _ Hok)) as Ho. pose proof (ao_nif _ _ _ _ _ _ _ _ _ Hok) as Hnif.
  apply (wp_ethernet_sends link_err EP ER nif n q lq _ _ (n_hwaddr n) d _ (owners ++ queued cs)); try done; [by destruct Hnif..| |].
  { intros b _ _ _. split; [by apply points_hwaddr; destruct Hnif|apply Hdst]. }
  intros r s' Hsn. destruct (sn_wire _ _ _ _ _ _ _ _ Hsn) as (fs & Ew & Hfs). pose proof (sn_arp _ _ _ _ _ _ _ _ Hsn) as Ha. apply (HQ r s' fs); [|by rewrite (sa_cached _ _ Ha)|exact Hfs].
  split; [|by eapply steady_sends|done]. apply (arp_ok_same EP ER EQ nif n s); [done|done|apply (sn_pkt _ _ _ _ _ _ _ _ Hsn)].
Qed.

(** An entry that is used gets asked for again when it is about to expire. *)
Definition request_due (e : etharp_entry) : Prop := e_state e = ETHARP_STATE_STABLE ∧ ARP_AGE_REREQUEST_USED_UNICAST ≤ e_ctime e.
Definition refreshes (n : netif) (e e' : etharp_entry) (fs : list frame) : Prop :=
  e' = e ∧ fs = [] ∨
  request_due e ∧ e' = set_e_state ETHARP_STATE_STABLE_REREQUESTING_1 e ∧
  fs = [request_frame n (if decide (ARP_AGE_REREQUEST_USED_BROADCAST ≤ e_ctime e) then ethbroadcast else e_ethaddr e) (e_ipaddr e)].

(** ... unless there is no memory for it. *)
Definition renews (s : net) (n : netif) (e e' : etharp_entry) (fs : list frame) : Prop :=
  refreshes n e e' fs ∧ (request_due e → fs = [] → no_arp_memory (pm s)).

Lemma wp_refresh nif n i e l owners es cs (s : net) (m : M net Z) d (Q : unit → net → Prop) :
  arp_ok nif n s owners es cs → es !! i = Some e → cs !! i = Some (e_q e, l) → e_state e = ETHARP_STATE_STABLE →
  (∀ Q', (∀ r s', asked (request_frame n d (e_ipaddr e)) r s s' → arp_ok nif n s' owners es cs → Q' r s') → wp m Q' s) →
  (∀ s' e' fs, e' = e ∧ fs = [] ∧ no_arp_memory (pm s) ∨ e' = set_e_state ETHARP_STATE_STABLE_REREQUESTING_1 e ∧ fs = [request_frame n d (e_ipaddr e)] →
    turn nif n owners (<[i := e']> es) cs fs s s' → etharp_cached_entry s' = etharp_cached_entry s →
    (∀ q lq h fs2, chain (store (pm s)) q lq → q ≠ NULL → packet_frames s' q lq h fs2 → packet_frames s q lq h fs2) → store (pm s') = store (pm s) → Q tt s') →
  wp (r ← m; when_ (r =? ERR_OK) (wr_entry (Z.of_nat i) (set_e_state ETHARP_STATE_STABLE_REREQUESTING_1))) Q s.
Proof.
  intros Hok He Hc Hst Hm HQ. apply wp_bind, Hm. intros r s1 Has Hok1. destruct (turn_asked _ _ _ _ _ _ _ _ _ _ _ _ _ Has Hok1) as (fs & Ht1 & Hat & Hfs).
  assert (∀ q lq h fs2, chain (store (pm s)) q lq → q ≠ NULL → packet_frames s1 q lq h fs2 → packet_frames s q lq h fs2) as Hpf by (intros; by eapply packet_frames_asked).
  assert (etharp_cached_entry s1 = etharp_cached_entry s) as Ec by apply (sa_cached _ _ (as_arp _ _ _ _ _ Has)).
  apply wp_when.
  - intros Er%Z.eqb_eq. rewrite (proj1 Hfs Er) in Ht1. set (e1 := set_e_state ETHARP_STATE_STABLE_REREQUESTING_1 e).
    assert (turn nif n owners (<[i := e1]> es) cs [] s1 (set_table <[i := e1]> s1)) as Ht2.
    { apply (turn_change EP ER EQ nif n owners es cs i e (λ _, e1)); try done. eapply table_ok_change; [apply Hok1|exact He|exact Hc| |done|].
      - pose proof (to_entry _ _ _ (ao_table _ _ _ _ _ _ _ _ _ Hok) _ _ _ _ He Hc) as [H1' H2' H3' H4' H5' H6' H7']. split; try done.
        + intros Hl. specialize (H6' Hl). rewrite Hst in H6'. done.
        + intros _. apply H7'. unfold used. by rewrite Hst.
      - unfold used. by rewrite Hst. }
    apply (wp_wr_entry _ _ e); [lia|by rewrite Nat2Z.id, (ar_table _ _ _ _ _ _ _ (ao_rep _ _ _ _ _ _ _ _ _ Hok1))|]. rewrite Nat2Z.id.
    apply (HQ _ e1 _ (or_intror (conj eq_refl eq_refl))); [|done|done|exact (as_store _ _ _ _ _ Has)].
    change [request_frame n d (e_ipaddr e)] with ([request_frame n d (e_ipaddr e)] ++ []). by eapply turn_trans.
  - intros Er%Z.eqb_neq. destruct Hat as [Efs|[-> Hmem]]; [by apply Hfs in Efs|].
    apply (HQ _ e [] (or_introl (conj eq_refl (conj eq_refl Hmem)))); [by rewrite list_insert_id|done|done|exact (as_store _ _ _ _ _ Has)].
Qed.

Lemma wp_output_to_index nif n q lq i e owners es cs (s : net) (Q : Z → net → Prop) :
  arp_ok nif n s owners es cs → chain (store (pm s)) q lq → q ≠ NULL → es !! i = Some e → stable e →
  (∀ r s' e' fs1 fs2, renews s n e e' fs1 → turn nif n owners (<[i := e']> es) cs (fs1 ++ fs2) s s' → etharp_cached_entry s' = etharp_cached_entry s →
    packet_frames s q lq (ip_header n (e_ethaddr e)) fs2 → Q r s') →
  wp (etharp_output_to_arp_index custom_free link_err nif q (Z.of_nat i)) Q s.
Proof.
  intros Hok Hl Hq He Hst HQ. destruct (arp_rep_queue _ _ _ _ _ _ _ _ _ (ao_rep _ _ _ _ _ _ _ _ _ Hok) He) as [l Hc].
  pose proof (to_entry _ _ _ (ao_table _ _ _ _ _ _ _ _ _ Hok) _ _ _ _ He Hc) as Heok. pose proof (lookup_lt_Some _ _ _ He) as Hlt.
  pose proof (ar_table _ _ _ _ _ _ _ (ao_rep _ _ _ _ _ _ _ _ _ Hok)) as Htab.
  unfold etharp_output_to_arp_index. apply wp_bind, (wp_rd_entry _ e); [lia|by rewrite Nat2Z.id, Htab|]. apply wp_bind, wp_assert; [by apply Z.leb_le|]. apply wp_bind.
  assert (∀ s1 e' fs1, renews s n e e' fs1 → turn nif n owners (<[i := e']> es) cs fs1 s s1 → etharp_cached_entry s1 = etharp_cached_entry s →
    (∀ h fs2, packet_frames s1 q lq h fs2 → packet_frames s q lq h fs2) → store (pm s1) = store (pm s) →
    wp (ethernet_output link_err nif q (hwaddr nif) (entry_ethaddr (Z.of_nat i)) ETHTYPE_IP) Q s1) as Hgo.
  { intros s1 e' fs1 Hr Ht Ec Hpf Es. assert (e_ethaddr e' = e_ethaddr e) as Em by (destruct Hr as [[[-> _]|(_ & -> & _)] _]; done).
    apply (wp_send_turn nif n q lq _ (e_ethaddr e) owners (<[i := e']> es) cs); [by apply Ht|by rewrite Es|done| |].
    - rewrite <-Em. apply points_entry; [|rewrite Em; apply Heok]. rewrite (ar_table _ _ _ _ _ _ _ (ao_rep _ _ _ _ _ _ _ _ _ (tn_ok _ _ _ _ _ _ _ _ _ _ _ Ht))).
      by apply list_lookup_insert_eq.
    - intros r s2 fs2 Ht2 Ec2 Hfs. apply (HQ r s2 e' fs1 fs2); [done|by eapply turn_trans|congruence|by apply Hpf]. }
  assert (¬ request_due e → wp (ethernet_output link_err nif q (hwaddr nif) (entry_ethaddr (Z.of_nat i)) ETHTYPE_IP) Q s) as Hplain.
  { intros Hdue. apply (Hgo s e []); [split; [by left|done]|rewrite list_insert_id by done; by apply turn_refl|done|done|done]. }
  apply wp_when; [intros Es%Z.eqb_eq|intros Es%Z.eqb_neq; apply Hplain; by intros [? _]].
  destruct (Z.leb_spec ARP_AGE_REREQUEST_USED_BROADCAST (e_ctime e)) as [Hb|Hb].
  - apply (wp_refresh nif n i e l owners es cs s _ ethbroadcast); [done..| |].
    + intros Q' HQ'. by apply (wp_request custom_free link_err EP ER EQ nif n _ owners es cs).
    + intros s1 e' fs1 Hr Ht Ec Hpf Est. eapply Hgo; [|exact Ht|done|by intros; eapply Hpf|done]. destruct Hr as [(-> & -> & Hmem)|[-> ->]]; [by split; [left|]|].
      split; [right|done]. rewrite decide_True by done. split; [|done]. split; [done|]. unfold ARP_AGE_REREQUEST_USED_UNICAST, ARP_AGE_REREQUEST_USED_BROADCAST in *. lia.
  - destruct (Z.leb_spec ARP_AGE_REREQUEST_USED_UNICAST (e_ctime e)) as [Hu|Hu]; [|apply Hplain; intros [_ ?]; lia].
    apply (wp_refresh nif n i e l owners es cs s _ (e_ethaddr e)); [done..| |].
    + intros Q' HQ'. apply (wp_request_dst custom_free link_err EP ER EQ nif n _ (e_ethaddr e) _ owners es cs); [done| |done].
      apply fixed_entry; [lia|by rewrite Nat2Z.id, Htab|apply Heok].
    + intros s1 e' fs1 Hr Ht Ec Hpf Est. eapply Hgo; [|exact Ht|done|by intros; eapply Hpf|done]. destruct Hr as [(-> & -> & Hmem)|[-> ->]]; [by split; [left|]|].
      split; [right|done]. rewrite decide_False by lia. by split.
Qed.

(** ** Asking for an address *)

Definition pending_entry (nif ip : Z) (e : etharp_entry) : etharp_entry :=
  set_e_netif nif (set_e_state ETHARP_STATE_PENDING (new_entry ip e)).

(** The pending entry [i] for [ip], one that was there or a new one, for which a
    request is sent, unless there is no memory for it with no more packets than
    before. *)
Inductive waits (nif : Z) (n : netif) (ip : Z) (es : list etharp_entry) (cs : list (Z * queue)) (s : net) (i : nat) :
    list etharp_entry → list (Z * queue) → list frame → Prop :=
  | waits_found e : es !! i = Some e → holds ip e → e_state e = ETHARP_STATE_PENDING → waits nif n ip es cs s i es cs []
  | waits_new e p fs : no_entry ip es → choice es i → es !! i = Some e → no_more (pm s) p →
      attempt custom_free p (request_frame n ethbroadcast ip) fs →
      waits nif n ip es cs s i (<[i := pending_entry nif ip e]> es) (<[i := (NULL, [])]> cs) fs.

(** As [turn], where the packets [kept] stay in the queues. *)
Record moves (nif : Z) (n : netif) (owners kept : list Z) (es : list etharp_entry) (cs : list (Z * queue)) (fs : list frame) (s s' : net) : Prop := Moves {
  mv_ok : arp_ok nif n s' owners es cs;
  mv_steady : steady (owners ++ kept) s s';
  mv_wire : wire s' = wire s ++ fs
}.

Lemma turn_moves nif n owners kept es cs fs (s s' : net) : turn nif n owners es cs fs s s' → kept ⊆ queued cs → moves nif n owners kept es cs fs s s'.
Proof. clear custom_free link_err. intros [O S W] Hk. split; [done| |done]. eapply steady_sub; [|exact S]. set_solver. Qed.

Lemma moves_trans nif n owners kept es1 cs1 fs1 es2 cs2 fs2 (s1 s2 s3 : net) :
  moves nif n owners kept es1 cs1 fs1 s1 s2 → moves nif n owners kept es2 cs2 fs2 s2 s3 → moves nif n owners kept es2 cs2 (fs1 ++ fs2) s1 s3.
Proof.
  clear custom_free link_err. intros [O1 S1 W1] [O2 S2 W2]. split; [done| |by rewrite W2, W1, app_assoc].
  eapply (steady_then EP ER); [exact S1|exact S2|exact (ar_pkt _ _ _ _ _ _ _ (ao_rep _ _ _ _ _ _ _ _ _ O1))|done..].
Qed.

Lemma queued_delete cs i : queued (delete i cs) ⊆ queued cs.
Proof.
  destruct (cs !! i) as [c|] eqn:Hc; [|apply lookup_ge_None_1 in Hc; rewrite delete_take_drop, take_ge, drop_ge, app_nil_r by lia; done].
  intros x Hx. rewrite (queued_at Hc). apply elem_of_app. by right.
Qed.

Lemma queued_delete_set cs i c : queued (delete i cs) ⊆ queued (<[i := c]> cs).
Proof.
  destruct (cs !! i) as [c'|] eqn:Hc; [|rewrite list_insert_ge by (by apply lookup_ge_None_1); apply queued_delete].
  intros x Hx. rewrite (queued_set c Hc). apply elem_of_app. by right.
Qed.

(** What [etharp_query] makes of the packet [q] with the pbufs [lq]; [kept] are the
    packets that stay in their queues. *)
Inductive queries (nif : Z) (n : netif) (ip q : Z) (lq : list Z) (es : list etharp_entry) (cs : list (Z * queue)) (s s' : net) :
    Z → list Z → list etharp_entry → list (Z * queue) → list frame → Prop :=
  | query_bad : unicast n ip = false → queries nif n ip q lq es cs s s' ERR_ARG (queued cs) es cs []
  | query_known i e r fs : unicast n ip = true → es !! i = Some e → holds ip e → stable e → etharp_cached_entry s' = Z.of_nat i →
      packet_frames s q lq (ip_header n (e_ethaddr e)) fs → queries nif n ip q lq es cs s s' r (queued cs) es cs fs
  | query_lost i es' cs' fs : unicast n ip = true → waits nif n ip es cs s i es' cs' fs → lost s q lq cs' →
      queries nif n ip q lq es cs s s' ERR_MEM (queued (delete i cs)) es' cs' fs
  | query_queued i es1 cs1 fs e l x p hd l' : unicast n ip = true → waits nif n ip es cs s i es1 cs1 fs →
      es1 !! i = Some e → cs1 !! i = Some (e_q e, l) → taken s q lq s' p → l' = queue_in l (x, p) → hd = queue_head l' →
      queries nif n ip q lq es cs s s' ERR_OK (queued (delete i cs)) (<[i := set_e_q hd e]> es1) (<[i := (hd, l')]> cs1) fs.

Lemma waits_delete nif n ip es cs (s : net) i es1 cs1 fs : waits nif n ip es cs s i es1 cs1 fs → delete i cs1 = delete i cs.
Proof. intros [|]; [done|]. apply list_eq. intros k. rewrite !list_lookup_delete. apply list_lookup_insert_ne. destruct (decide _); lia. Qed.

(** The end of [etharp_query], the entry is pending. *)
Lemma wp_query_wait nif n ip q lq i e owners es cs es1 cs1 fs (s s1 : net) (Q : Z → net → Prop) :
  unicast n ip = true → waits nif n ip es cs s i es1 cs1 fs → moves nif n owners (queued (delete i cs)) es1 cs1 fs s s1 →
  es1 !! i = Some e → e_state e = ETHARP_STATE_PENDING → sendable s1 q lq → (∀ s' p, taken s1 q lq s' p → taken s q lq s' p) →
  (lost s1 q lq cs1 → lost s q lq cs1) →
  (∀ r s' kept es' cs' fs, queries nif n ip q lq es cs s s' r kept es' cs' fs → moves nif n owners kept es' cs' fs s s' → Q r s') →
  wp (queue_packet custom_free (Z.of_nat i) q) Q s1.
Proof.
  intros Hu Hw Hm He Hpe Hsend Htk Hlost HQ. pose proof (mv_ok _ _ _ _ _ _ _ _ _ Hm) as Hok1.
  destruct (arp_rep_queue _ _ _ _ _ _ _ _ _ (ao_rep _ _ _ _ _ _ _ _ _ Hok1) He) as [l Hc]. pose proof (waits_delete _ _ _ _ _ _ _ _ _ _ Hw) as Ed.
  apply (wp_queue_packet nif n q lq i e l owners es1 cs1); [done..| |].
  - intros s2 Hl2 Ht2 _. eapply (HQ ERR_MEM s2); [by eapply query_lost; eauto|]. rewrite <-(app_nil_r fs).
    eapply moves_trans; [exact Hm|eapply turn_moves; [exact Ht2|]]. rewrite <-Ed. apply queued_delete.
  - intros s2 x p hd l' es' cs' Htk2 El' Ehd -> -> Ht2 _. eapply (HQ ERR_OK s2); [by eapply query_queued; eauto|]. rewrite <-(app_nil_r fs).
    eapply moves_trans; [exact Hm|eapply turn_moves; [exact Ht2|]]. rewrite <-Ed. apply queued_delete_set.
Qed.

Lemma arp_ok_cached nif n (s : net) owners es cs i :
  arp_ok nif n s owners es cs → (i < length es)%nat → arp_ok nif n (set_cached (Z.of_nat i) s) owners es cs.
Proof.
  intros [Hrep Hnif Htab _] Hi. split; [by destruct Hrep|by apply (nif_ok_same s)|done|]. cbn.
  pose proof (to_len _ _ _ Htab) as Hl. unfold ARP_TABLE_SIZE in *. lia.
Qed.

(** The entry that gets the state pending. *)
Lemma wp_make_pending nif n ip i e owners es cs (s : net) (Q : unit → net → Prop) :
  arp_ok nif n s owners (<[i := new_entry ip e]> es) (<[i := (NULL, [])]> cs) → (i < length es)%nat → (i < length cs)%nat → no_entry ip es →
  (∀ s', turn nif n owners (<[i := pending_entry nif ip e]> es) (<[i := (NULL, [])]> cs) [] s s' → etharp_cached_entry s' = etharp_cached_entry s →
    pm s' = pm s → bytes s' = bytes s → Q tt s') →
  wp (wr_entry (Z.of_nat i) (set_e_state ETHARP_STATE_PENDING);; wr_entry (Z.of_nat i) (set_e_netif nif)) Q s.
Proof.
  intros Hok Hi Hic Hno HQ. pose proof (ar_table _ _ _ _ _ _ _ (ao_rep _ _ _ _ _ _ _ _ _ Hok)) as Ht.
  apply wp_bind, (wp_wr_entry _ _ (new_entry ip e)); [lia|rewrite Nat2Z.id, Ht; by apply list_lookup_insert_eq|]. rewrite Nat2Z.id.
  set (e1 := set_e_state _ _). apply (wp_wr_entry _ _ e1); [lia|cbn; rewrite Nat2Z.id, Ht, list_insert_insert_eq; by apply list_lookup_insert_eq|]. rewrite Nat2Z.id.
  pose proof (turn_change EP ER EQ nif n owners _ _ i (new_entry ip e) (λ _, pending_entry nif ip e) s Hok) as Htc. rewrite list_insert_insert_eq in Htc.
  apply HQ; [|done..]. unfold set_table in *. cbn. rewrite Ht, !list_insert_insert_eq in *. apply Htc; [by apply list_lookup_insert_eq|done|].
  pose proof (ao_table _ _ _ _ _ _ _ _ _ Hok) as Htab. rewrite <-(list_insert_insert_eq es i _ (new_entry ip e)).
  rewrite <-(list_insert_insert_eq cs i (NULL, []) (NULL, [])). apply table_ok_insert; [done| |].
  - destruct (to_entry _ _ _ Htab i (new_entry ip e) NULL []) as [Hs Hc Hy Hm Hl Hw Hn]; [by apply list_lookup_insert_eq..|]. split; try done.
  - intros _ j e' Hne Hj Hu E. rewrite list_lookup_insert_ne in Hj by done. by apply (Hno j e').
Qed.

(** What is left of a packet of a client is the packet. *)
Lemma left_packet owners (s s' : net) q lq x :
  left_over s s' → steady owners s s' → q ∈ owners → chain (store (pm s)) q lq → x ∈ lq →
  ∃ b r, store (pm s) !! x = Some b ∧ store (pm s') !! x = Some (set_ref r b) ∧ r ≤ b_ref b.
Proof.
  intros [_ Hf] Hst Hq Hl Hx. destruct (chain_alloc _ _ _ _ (st_chain _ _ _ Hst q lq Hq Hl) Hx) as [b' Hb'].
  destruct (Hf x b' Hb') as (b & r & Hb & -> & Hr). by exists b, r.
Qed.

Lemma left_refs owners (s s' : net) q lq :
  left_over s s' → steady owners s s' → q ∈ owners → chain (store (pm s)) q lq →
  ∀ x, x ∈ lq → ∃ b r, store (pm s) !! x = Some b ∧ store (pm s') !! x = Some (set_ref r b).
Proof. intros Hlo Hst Hq Hl x Hx. destruct (left_packet owners s s' q lq x) as (b & r & ? & ? & _); [done..|]. by exists b, r. Qed.

Lemma chain_head (σ : bufs) q l : chain σ q l → q ≠ NULL → q ∈ l.
Proof. destruct l as [|x l]; [by intros Hl ?|]. intros [-> _] _. by left. Qed.

(** A reason that was found when packets had gone. *)
Lemma lost_left (s s1 : net) q lq cs :
  (∀ x, x ∈ lq → ∃ b r, store (pm s) !! x = Some b ∧ store (pm s1) !! x = Some (set_ref r b)) → q ∈ lq →
  fewer (store (pm s)) (store (pm s1)) → lost s1 q lq cs → lost s q lq cs.
Proof.
  intros Hall Hq Hf [Hfull|(Hmc & b1 & p & Hb1 & [Hpk Hfp] & Hmem)]; [by left|]. right. rewrite (must_copy_ext _ _ _ Hall) in Hmc. split; [done|].
  destruct (Hall q Hq) as (b & r & Hb & Hb2). rewrite Hb1 in Hb2. injection Hb2 as ->. exists b, p. split_and!; [done|by split; [|eapply fewer_trans]|done].
Qed.

Lemma sendable_left owners (s s' : net) q lq :
  left_over s s' → steady owners s s' → q ∈ owners → q ≠ NULL → sendable s q lq → sendable s' q lq.
Proof.
  intros Hlo Hst Hq Hqn (b & Hb & Href & Hl & Hpk & Hone). pose proof (st_chain _ _ _ Hst q lq Hq Hl) as Hl'.
  assert (∀ x c, x ∈ lq → store (pm s) !! x = Some c → ∃ r, store (pm s') !! x = Some (set_ref r c) ∧ r ≤ b_ref c) as Hall.
  { intros x c Hx Hc. destruct (left_packet owners s s' q lq x) as (c' & r & Hc' & Hs' & Hr); [done..|]. rewrite Hc in Hc'. injection Hc' as <-. by exists r. }
  destruct lq as [|y lq]; [by simpl in Hl|].
  destruct Hl as [<- Hl]. destruct (Hall q b) as (r & Hb' & Hr); [by left|done|]. exists (set_ref r b). split_and!; [done|simpl; lia|done| |].
  - simpl. eapply lens_frame; [|exact Hpk]. intros x c Hx Hc. destruct (Hall x c Hx Hc) as (k & Hk & _). by exists (set_ref k c).
  - intros x c Hx Hc. destruct (left_packet owners s s' q (q :: lq) x) as (c' & k & Hc' & Hs' & _); [done|done|done|by split|done|]. rewrite Hc in Hs'. injection Hs' as ->.
    exact (Hone x c' Hx Hc').
Qed.

Lemma taken_left owners (s s1 s' : net) q lq p :
  left_over s s1 → steady owners s s1 → q ∈ owners → chain (store (pm s)) q lq → taken s1 q lq s' p → taken s q lq s' p.
Proof.
  intros Hlo Hst Hq Hl. pose proof (left_refs owners s s1 q lq Hlo Hst Hq Hl) as Hall. unfold taken. rewrite (must_copy_ext _ _ _ Hall).
  destruct (must_copy _ _); [|done]. intros [Hc Hd]. split; [done|]. intros Hsol.
  rewrite Hd.
  - f_equal. apply list_fmap_ext. intros i x Hx%list_elem_of_lookup_2. destruct (Hall x Hx) as (b & r & Hb & Hb1). unfold data_of. rewrite Hb, Hb1.
    by rewrite (proj1 Hlo).
  - intros x b1 Hx Hb1. destruct (Hall x Hx) as (b & r & Hb & Hb2). rewrite Hb1 in Hb2. injection Hb2 as ->. exact (Hsol x b Hx Hb).
Qed.

Lemma try_hard_allowed es : ¬ refused es ETHARP_FLAG_TRY_HARD.
Proof. intros [Hr|[_ Hr]]; by apply Hr || discriminate Hr. Qed.

Lemma taken_asked (s s1 s' : net) f r q lq p :
  asked f r s s1 → chain (store (pm s)) q lq → taken s1 q lq s' p → taken s q lq s' p.
Proof.
  intros Has Hl. unfold taken. rewrite (as_store _ _ _ _ _ Has). destruct (must_copy _ _); [|done]. intros [Hc Hd]. split; [done|]. intros Hsol. rewrite Hd by done.
  f_equal. apply list_fmap_ext. intros k x Hx%list_elem_of_lookup_2. destruct (chain_alloc _ _ _ _ Hl Hx) as [c Hc2].
  unfold data_of at 1. rewrite (as_store _ _ _ _ _ Has), Hc2. apply (as_data _ _ _ _ _ Has x c Hc2). by apply (Hsol x).
Qed.

(** Up to the point where the entry for [ip] is there. *)
Lemma wp_located nif n ip owners es cs (s : net) (k : Z → bool → M net Z) (Q : Z → net → Prop) :
  arp_ok nif n s owners es cs →
  (∀ i e, es !! i = Some e → holds ip e → stable e ∨ e_state e = ETHARP_STATE_PENDING → wp (k (Z.of_nat i) false) Q s) →
  (∀ i e s1, no_entry ip es → choice es i → es !! i = Some e → (i < length cs)%nat →
    turn nif n owners (<[i := pending_entry nif ip e]> es) (<[i := (NULL, [])]> cs) [] s s1 → left_over s s1 → wp (k (Z.of_nat i) true) Q s1) →
  wp (i ← etharp_find_entry custom_free (Some ip) ETHARP_FLAG_TRY_HARD nif;
      if i <? 0 then mret i
      else
        assert_that (i <? 127);;
        e ← rd_entry i;
        let is_new_entry := e_state e =? ETHARP_STATE_EMPTY in
        when_ is_new_entry (wr_entry i (set_e_state ETHARP_STATE_PENDING);; wr_entry i (set_e_netif nif));;
        e ← rd_entry i;
        assert_that ((e_state e =? ETHARP_STATE_PENDING) || (ETHARP_STATE_STABLE <=? e_state e));;
        k i is_new_entry) Q s.
Proof.
  intros Hok Hfound Hnew. pose proof (ao_rep _ _ _ _ _ _ _ _ _ Hok) as Hrep.
  pose proof (to_len _ _ _ (ao_table _ _ _ _ _ _ _ _ _ Hok)) as Hlen. change (Z.to_nat ARP_TABLE_SIZE) with 10%nat in Hlen.
  apply wp_bind, (wp_find_entry custom_free EP ER EQ nif n ip _ owners es cs); [done| | |].
  - intros i e He [Hue Ha]. pose proof (lookup_lt_Some _ _ _ He) as Hlt. rewrite (proj2 (Z.ltb_ge (Z.of_nat i) 0)) by lia.
    apply wp_bind, wp_assert; [apply Z.ltb_lt; lia|]. assert (∀ Q', Q' e s → wp (rd_entry (Z.of_nat i)) Q' s) as Hrd.
    { intros Q' HQ'. apply (wp_rd_entry _ e); [lia|by rewrite Nat2Z.id, (ar_table _ _ _ _ _ _ _ Hrep)|done]. }
    apply wp_bind, Hrd. rewrite (proj2 (Z.eqb_neq (e_state e) ETHARP_STATE_EMPTY)) by done. cbv zeta. cbn [when_].
    apply wp_bind, wp_ret, wp_bind, Hrd. destruct (arp_rep_queue _ _ _ _ _ _ _ _ _ Hrep He) as [l Hc].
    pose proof (kinds _ _ _ (to_entry _ _ _ (ao_table _ _ _ _ _ _ _ _ _ Hok) _ _ _ _ He Hc) Hue) as Hk.
    apply wp_bind, wp_assert; [|by eapply Hfound]. rewrite orb_true_iff, Z.eqb_eq, Z.leb_le. unfold stable in Hk. tauto.
  - intros _ Hr. by destruct (try_hard_allowed es).
  - intros i e l s1 es1 cs1 Hno _ Hch He Hc -> -> Hok1 Hqt Hst. pose proof (lookup_lt_Some _ _ _ He) as Hlt. pose proof (lookup_lt_Some _ _ _ Hc) as Hltc.
    rewrite (proj2 (Z.ltb_ge (Z.of_nat i) 0)) by lia. apply wp_bind, wp_assert; [apply Z.ltb_lt; lia|].
    pose proof (ar_table _ _ _ _ _ _ _ (ao_rep _ _ _ _ _ _ _ _ _ Hok1)) as Ht1.
    apply wp_bind, (wp_rd_entry _ (new_entry ip e)); [lia|rewrite Nat2Z.id, Ht1; by apply list_lookup_insert_eq|].
    assert (e_state (new_entry ip e) = ETHARP_STATE_EMPTY) as Es by (pose proof (new_entry_unused ip e) as Hn; unfold used in Hn; destruct (decide (e_state (new_entry ip e) = ETHARP_STATE_EMPTY)); tauto).
    rewrite Es. cbv zeta. cbn [Z.eqb ETHARP_STATE_EMPTY when_].
    apply wp_bind, (wp_make_pending nif n ip i e owners es cs); [done..|]. intros s2 Ht2 Ec2 Epm Eb.
    pose proof (ar_table _ _ _ _ _ _ _ (ao_rep _ _ _ _ _ _ _ _ _ (tn_ok _ _ _ _ _ _ _ _ _ _ _ Ht2))) as Htb2.
    apply wp_bind, (wp_rd_entry _ (pending_entry nif ip e)); [lia|rewrite Nat2Z.id, Htb2; by apply list_lookup_insert_eq|]. apply wp_bind, wp_assert; [done|].
    eapply (Hnew i e s2); [done..| |eapply left_over_trans; [apply Hqt|apply left_over_same; [done|by rewrite Epm]]].
    change (@nil frame) with (@nil frame ++ @nil frame). eapply (turn_trans EP ER EQ); [|exact Ht2|done].
    split; [exact Hok1|exact Hst|by rewrite (qt_wire _ _ Hqt), app_nil_r].
Qed.

(** The request of [etharp_query], and the age of a pending entry. *)
Definition query_request (nif ip : Z) (i : Z) (new : bool) : M net Z :=
  result ← etharp_request custom_free link_err nif ip;
  (if negb (result =? ERR_OK) then mret tt
   else
     e ← rd_entry i;
     when_ ((e_state e =? ETHARP_STATE_PENDING) && negb new) (wr_entry i (set_e_ctime 0)));;
  mret result.

Definition query_rest (nif ip q : Z) (i : Z) (new : bool) : M net Z :=
  result ← (if new || (q =? NULL) then query_request nif ip i new else mret ERR_MEM);
  if q =? NULL then mret result
  else
    e ← rd_entry i;
    if ETHARP_STATE_STABLE <=? e_state e then
      modify (set_cached i);; ethernet_output link_err nif q (hwaddr nif) (entry_ethaddr i) ETHTYPE_IP
    else if e_state e =? ETHARP_STATE_PENDING then queue_packet custom_free i q
    else mret result.

Lemma wp_query_start nif n ip q owners es cs (s : net) (Q : Z → net → Prop) :
  arp_ok nif n s owners es cs → (unicast n ip = false → Q ERR_ARG s) →
  (∀ i e, unicast n ip = true → es !! i = Some e → holds ip e → stable e ∨ e_state e = ETHARP_STATE_PENDING → wp (query_rest nif ip q (Z.of_nat i) false) Q s) →
  (∀ i e s1, unicast n ip = true → no_entry ip es → choice es i → es !! i = Some e → (i < length cs)%nat →
    turn nif n owners (<[i := pending_entry nif ip e]> es) (<[i := (NULL, [])]> cs) [] s s1 → left_over s s1 → wp (query_rest nif ip q (Z.of_nat i) true) Q s1) →
  wp (etharp_query custom_free link_err nif ip q) Q s.
Proof.
  intros Hok Hbad Hfound Hnew. unfold etharp_query. apply wp_bind, (wp_not_unicast nif n); [apply Hok|].
  destruct (unicast n ip); cbn [negb]; [|by apply wp_ret, Hbad].
  apply (wp_located nif n ip owners es cs s (query_rest nif ip q)); [done| |]; intros; [by eapply Hfound|by eapply Hnew].
Qed.

Lemma wp_query nif n ip q lq owners es cs (s : net) (Q : Z → net → Prop) :
  arp_ok nif n s owners es cs → q ∈ owners → sendable s q lq →
  (∀ r s' kept es' cs' fs, queries nif n ip q lq es cs s s' r kept es' cs' fs → moves nif n owners kept es' cs' fs s s' → Q r s') →
  wp (etharp_query custom_free link_err nif ip q) Q s.
Proof.
  intros Hok Hq Hsend HQ. pose proof Hsend as (b & Hb & _ & Hl & _). pose proof (ao_rep _ _ _ _ _ _ _ _ _ Hok) as Hrep.
  pose proof (pkt_null _ _ _ _ (ar_pkt _ _ _ _ _ _ _ Hrep)) as Hnull. assert (q ≠ NULL) as Hqn by (intros ->; congruence).
  apply (wp_query_start nif n ip q owners es cs); [done| | |].
  - intros Hu. eapply HQ; [by apply query_bad|]. by eapply turn_moves; [apply turn_refl|].
  - intros i e Hu He Hh Hk. unfold query_rest. rewrite (proj2 (Z.eqb_neq q NULL)) by done. cbn [orb]. pose proof (lookup_lt_Some _ _ _ He) as Hlt.
    destruct (arp_rep_queue _ _ _ _ _ _ _ _ _ Hrep He) as [l Hc]. pose proof (to_entry _ _ _ (ao_table _ _ _ _ _ _ _ _ _ Hok) _ _ _ _ He Hc) as Heok.
    apply wp_bind, wp_ret, wp_bind, (wp_rd_entry _ e); [lia|by rewrite Nat2Z.id, (ar_table _ _ _ _ _ _ _ Hrep)|].
    destruct (Z.leb_spec ETHARP_STATE_STABLE (e_state e)) as [Hst|Hst].
    + apply wp_bind, wp_modify. apply (wp_send_turn nif n q lq _ (e_ethaddr e) owners es cs); [by apply arp_ok_cached|done|done| |].
      * apply points_entry; [cbn; by rewrite (ar_table _ _ _ _ _ _ _ Hrep)|apply Heok].
      * intros r s' fs Ht Ec Hfs. eapply (HQ r s'); [eapply query_known; [done|exact He|done|done|exact Ec|exact Hfs]|]. eapply turn_moves; [|done].
        destruct Ht as [O St W]. split; [done| |done]. eapply (steady_then EP ER); [apply steady_refl|exact St|apply Hrep|done..].
    + assert (e_state e = ETHARP_STATE_PENDING) as Ep by (destruct Hk as [Hk|?]; [unfold stable in Hk; lia|done]). rewrite Ep. cbn [Z.eqb Pos.eqb ETHARP_STATE_PENDING].
      apply (wp_query_wait nif n ip q lq i e owners es cs es cs [] s s); try done; [by eapply waits_found|].
      eapply turn_moves; [by apply turn_refl|apply queued_delete].
  - intros i e s2 Hu Hno Hch He Hltc Ht2 Hlo2. pose proof (lookup_lt_Some _ _ _ He) as Hlt. unfold query_rest, query_request. cbn [orb].
    set (e2 := pending_entry nif ip e) in *. set (es2 := <[i := e2]> es) in *. set (cs2 := <[i := (NULL, [])]> cs) in *.
    assert (es2 !! i = Some e2) as He2 by by apply list_lookup_insert_eq.
    apply wp_bind, wp_bind, (wp_request custom_free link_err EP ER EQ nif n ip owners es2 cs2); [apply Ht2|]. intros r s3 Has Hok3.
    pose proof (ar_table _ _ _ _ _ _ _ (ao_rep _ _ _ _ _ _ _ _ _ Hok3)) as Htb3. destruct (turn_asked _ _ _ _ _ _ _ _ _ _ _ _ _ Has Hok3) as (fs & Ht3 & Hat & _).
    assert (∀ Q', Q' e2 s3 → wp (rd_entry (Z.of_nat i)) Q' s3) as Hrd.
    { intros Q' HQ'. apply (wp_rd_entry _ e2); [lia|by rewrite Nat2Z.id, Htb3|done]. }
    apply wp_bind. assert (∀ Q' : unit → net → Prop, Q' tt s3 → wp (if negb (r =? ERR_OK) then mret tt else
      e ← rd_entry (Z.of_nat i); when_ ((e_state e =? ETHARP_STATE_PENDING) && negb true) (wr_entry (Z.of_nat i) (set_e_ctime 0))) Q' s3) as Hskip.
    { intros Q' HQ'. destruct (negb _); [by apply wp_ret|]. apply wp_bind, Hrd. by apply wp_ret. }
    apply Hskip, wp_ret. rewrite (proj2 (Z.eqb_neq q NULL)) by done. apply wp_bind, Hrd.
    cbn [e2 pending_entry set_e_netif set_e_state e_state]. cbn [Z.leb Z.compare Pos.compare Pos.compare_cont Z.eqb Pos.eqb ETHARP_STATE_STABLE ETHARP_STATE_PENDING].
    assert (steady owners s s2) as Hst2 by (eapply steady_sub; [|exact (tn_steady _ _ _ _ _ _ _ _ _ _ _ Ht2)]; set_solver).
    apply (wp_query_wait nif n ip q lq i e2 owners es cs es2 cs2 fs s s3); try done.
    + eapply waits_new; [done..|split; [eexists; exact (ar_pkt _ _ _ _ _ _ _ (ao_rep _ _ _ _ _ _ _ _ _ (tn_ok _ _ _ _ _ _ _ _ _ _ _ Ht2)))|exact (proj2 Hlo2)]|exact Hat].
    + eapply turn_moves; [|apply (queued_delete_set cs i (NULL, []))]. rewrite <-(app_nil_l fs). by eapply (turn_trans EP ER EQ); [exact Ht2|exact Ht3|].
    + apply (sendable_same s2); [apply (as_store _ _ _ _ _ Has)|]. by eapply sendable_left.
    + intros s' p Htk. eapply (taken_left owners s s2); [done..|]. by eapply taken_asked; [|eapply st_chain|].
    + apply lost_left; rewrite ?(as_store _ _ _ _ _ Has); [by apply (left_refs owners s s2 q)|by eapply chain_head; [exact Hl|]|exact (proj2 Hlo2)].
Qed.

(** The address of a packet that is not there, for [etharp_query]. *)
Lemma wp_query_null nif n ip owners es cs (s : net) (Q : Z → net → Prop) :
  arp_ok nif n s owners es cs →
  (∀ r s' es' cs' fs, moves nif n owners [] es' cs' fs s s' → Q r s') →
  wp (etharp_query custom_free link_err nif ip NULL) Q s.
Proof.
  intros Hok HQ. assert (∀ es1 cs1 fs (s1 s2 : net), turn nif n owners es1 cs1 fs s1 s2 → moves nif n owners [] es1 cs1 fs s1 s2) as Htm.
  { intros. eapply turn_moves; [done|by intros x ?%elem_of_nil]. }
  assert (∀ i e new es1 cs1 (s1 : net), es1 !! i = Some e → used e → moves nif n owners [] es1 cs1 [] s s1 →
    wp (query_rest nif ip NULL (Z.of_nat i) new) Q s1) as Hgo.
  { intros i e new es1 cs1 s1 He Hu Hm. pose proof (mv_ok _ _ _ _ _ _ _ _ _ Hm) as Hok1. unfold query_rest, query_request. rewrite Z.eqb_refl, orb_true_r.
    apply wp_bind, wp_bind, (wp_request custom_free link_err EP ER EQ nif n ip owners es1 cs1); [done|]. intros r s2 Has Hok2.
    destruct (turn_asked _ _ _ _ _ _ _ _ _ _ _ _ _ Has Hok2) as (fs & Ht & _ & _).
    assert (moves nif n owners [] es1 cs1 fs s s2) as Hm2 by (rewrite <-(app_nil_l fs); eapply moves_trans; [exact Hm|by apply Htm]).
    apply wp_bind. destruct (negb (r =? ERR_OK)); [by apply wp_ret, wp_ret, wp_ret, (HQ r s2 es1 cs1 fs)|].
    pose proof (ar_table _ _ _ _ _ _ _ (ao_rep _ _ _ _ _ _ _ _ _ Hok2)) as Htb.
    apply wp_bind, (wp_rd_entry _ e); [lia|by rewrite Nat2Z.id, Htb|]. apply wp_when; intros _; [|by apply wp_ret, wp_ret, (HQ r s2 es1 cs1 fs)].
    apply (wp_wr_entry _ _ e); [lia|by rewrite Nat2Z.id, Htb|]. rewrite Nat2Z.id. do 2 apply wp_ret.
    destruct (arp_rep_queue _ _ _ _ _ _ _ _ _ (ao_rep _ _ _ _ _ _ _ _ _ Hok2) He) as [l Hc].
    apply (HQ r _ (<[i := set_e_ctime 0 e]> es1) cs1 fs). rewrite <-(app_nil_r fs). eapply moves_trans; [exact Hm2|]. apply Htm.
    apply (turn_change EP ER EQ nif n owners es1 cs1 i e (set_e_ctime 0)); [done|done|done|].
    eapply table_ok_change; [apply Hok2|exact He|exact Hc| |done|done].
    destruct (to_entry _ _ _ (ao_table _ _ _ _ _ _ _ _ _ Hok2) _ _ _ _ He Hc). by split. }
  apply (wp_query_start nif n ip NULL owners es cs); [done| | |].
  - intros _. apply (HQ _ _ es cs []). by apply Htm, turn_refl.
  - intros i e _ He [Hu _] _. eapply (Hgo i e false es cs s); [done|done|by apply Htm, turn_refl].
  - intros i e s1 _ _ _ He Hltc Ht _. eapply (Hgo i (pending_entry nif ip e) true); [apply list_lookup_insert_eq; by eapply lookup_lt_Some|done|by apply Htm].
Qed.

(** ** Sending to any address *)

Lemma stable_match_spec ip e : stable_match ip e = true ↔ stable e ∧ e_ipaddr e = ip.
Proof. unfold stable_match, stable. rewrite andb_true_iff, Z.leb_le, Z.eqb_eq. naive_solver. Qed.

Lemma wp_find_stable k i ip (s : net) (Q : option Z → net → Prop) :
  (i + k = length (arp_table s))%nat →
  (∀ j e, arp_table s !! j = Some e → stable e → e_ipaddr e = ip → Q (Some (Z.of_nat j)) s) →
  ((∀ j e, (i ≤ j)%nat → arp_table s !! j = Some e → ¬ (stable e ∧ e_ipaddr e = ip)) → Q None s) →
  wp (find_stable k (Z.of_nat i) ip) Q s.
Proof.
  revert i. induction k as [|k IH]; intros i Hk Hfound Hno; cbn [find_stable].
  - apply wp_ret, Hno. intros j e Hj He. apply lookup_lt_Some in He. lia.
  - destruct (arp_table s !! i) as [e|] eqn:He; [|apply lookup_ge_None_1 in He; lia].
    apply wp_bind, (wp_rd_entry _ e); [lia|by rewrite Nat2Z.id|]. destruct (stable_match ip e) eqn:Em.
    + apply stable_match_spec in Em as [? ?]. by apply wp_ret, (Hfound i e).
    + replace (Z.of_nat i + 1) with (Z.of_nat (S i)) by lia. apply IH; [lia|done|]. intros Hrest. apply Hno. intros j e' Hj Hj'.
      destruct (decide (j = i)) as [->|Hne]; [|apply (Hrest j e'); [lia|done]]. rewrite He in Hj'. injection Hj' as <-. rewrite <-stable_match_spec. congruence.
Qed.

(** What [etharp_output_to_arp_index] or [etharp_query] make of a packet for the
    next hop [ip]. *)
Inductive unicasts (nif : Z) (n : netif) (ip q : Z) (lq : list Z) (es : list etharp_entry) (cs : list (Z * queue)) (s s' : net) :
    Z → list Z → list etharp_entry → list (Z * queue) → list frame → Prop :=
  | unicast_known i e e' r fs1 fs2 : es !! i = Some e → stable e → e_ipaddr e = ip → renews s n e e' fs1 →
      packet_frames s q lq (ip_header n (e_ethaddr e)) fs2 →
      unicasts nif n ip q lq es cs s s' r (queued cs) (<[i := e']> es) cs (fs1 ++ fs2)
  | unicast_asked r kept es' cs' fs : (∀ i e, es !! i = Some e → ¬ (stable e ∧ e_ipaddr e = ip)) →
      queries nif n ip q lq es cs s s' r kept es' cs' fs → unicasts nif n ip q lq es cs s s' r kept es' cs' fs.

Lemma wp_unicast nif n ip q lq owners es cs (s : net) (Q : Z → net → Prop) :
  arp_ok nif n s owners es cs → q ∈ owners → sendable s q lq →
  (∀ r s' kept es' cs' fs, unicasts nif n ip q lq es cs s s' r kept es' cs' fs → moves nif n owners kept es' cs' fs s s' → Q r s') →
  wp (unicast_output custom_free link_err nif q ip) Q s.
Proof.
  intros Hok Hq Hsend HQ. pose proof Hsend as (b & Hb & _ & Hl & _). pose proof (ao_rep _ _ _ _ _ _ _ _ _ Hok) as Hrep.
  pose proof (pkt_null _ _ _ _ (ar_pkt _ _ _ _ _ _ _ Hrep)) as Hnull. assert (q ≠ NULL) as Hqn by (intros ->; congruence).
  pose proof (to_len _ _ _ (ao_table _ _ _ _ _ _ _ _ _ Hok)) as Hlen. pose proof (ar_table _ _ _ _ _ _ _ Hrep) as Ht.
  assert (∀ i e (s1 : net), es !! i = Some e → stable e → e_ipaddr e = ip → s1 = s ∨ s1 = set_cached (Z.of_nat i) s →
    wp (etharp_output_to_arp_index custom_free link_err nif q (Z.of_nat i)) Q s1) as Hknown.
  { intros i e s1 He Hst Ha Hs1. assert (arp_ok nif n s1 owners es cs ∧ pm s1 = pm s ∧ bytes s1 = bytes s ∧ wire s1 = wire s ∧ netifs s1 = netifs s) as (Hok1 & Epm & Eb & Ew & En).
    { destruct Hs1 as [->| ->]; [done|]. split; [|done]. apply arp_ok_cached; [done|by eapply lookup_lt_Some]. }
    assert (store (pm s1) = store (pm s)) as Es by by rewrite Epm.
    apply (wp_output_to_index nif n q lq i e owners es cs); [done|by rewrite Es|done..|]. intros r s' e' fs1 fs2 Hr Ht' _ Hfs.
    eapply (HQ r s'); [eapply unicast_known; [exact He|done|done|unfold renews in *; rewrite <-Epm; exact Hr|]|].
    - unfold packet_frames, sent in *. rewrite Es in Hfs. intros Hsol. rewrite Hfs by done. destruct (store (pm s) !! q); [|done]. destruct (can_grow _ _ _ _); [|done].
      unfold frame_of. do 2 f_equal; [f_equal; by apply data_same; [rewrite Es|]|]. apply list_fmap_ext. intros k x _. by apply data_same; [rewrite Es|].
    - eapply turn_moves; [|done]. destruct Ht' as [O S W]. split; [done| |by rewrite W, Ew].
      eapply (steady_then EP ER); [apply steady_refl|exact S|apply Hrep|done..]. }
  unfold unicast_output. apply wp_bind, wp_gets. destruct (ao_cached _ _ _ _ _ _ _ _ _ Hok) as [Hc1 Hc2]. rewrite <-(Z2Nat.id (etharp_cached_entry s)) by done.
  set (c := Z.to_nat (etharp_cached_entry s)). destruct (es !! c) as [e|] eqn:He.
  2: { apply lookup_ge_None_1 in He. unfold c, ARP_TABLE_SIZE in *. lia. }
  apply wp_bind, (wp_rd_entry _ e); [lia|by rewrite Nat2Z.id, Ht|]. destruct (stable_match ip e) eqn:Em.
  { apply stable_match_spec in Em as [Hst Ha]. apply (Hknown c e); try done. by left. }
  apply wp_bind, (wp_find_stable _ 0); [by rewrite Ht, Hlen| |].
  - intros j e' Hj Hst Ha. rewrite Ht in Hj. apply wp_bind, wp_modify. apply (Hknown j e'); try done. by right.
  - intros Hno. rewrite Ht in Hno. apply (wp_query nif n ip q lq owners es cs); [done..|]. intros r s' kept es' cs' fs Hqr Hm.
    eapply (HQ r s'); [eapply unicast_asked; [|exact Hqr]|done]. intros i e' Hi. apply (Hno i e'); [lia|done].
Qed.

(** The address a packet is sent to on the link. *)
Inductive destination : Type := Group (mac : list Z) | Host (ip : Z) | NoRoute.
Definition next_hop (n : netif) (ip : Z) : destination :=
  if ip4_addr_isbroadcast_u32 ip n then Group ethbroadcast
  else if ip4_addr_ismulticast ip then Group (multicast_mac ip)
  else if ip4_addr_net_eq ip (ip_addr n) (netmask n) || ip4_addr_islinklocal ip then Host ip
  else if ip4_addr_isany_val (gw n) then NoRoute else Host (gw n).

Inductive outputs (nif : Z) (n : netif) (ip q : Z) (lq : list Z) (es : list etharp_entry) (cs : list (Z * queue)) (s s' : net) :
    Z → list Z → list etharp_entry → list (Z * queue) → list frame → Prop :=
  | output_group mac r fs : next_hop n ip = Group mac → packet_frames s q lq (ip_header n mac) fs →
      outputs nif n ip q lq es cs s s' r (queued cs) es cs fs
  | output_none : next_hop n ip = NoRoute → outputs nif n ip q lq es cs s s' ERR_RTE (queued cs) es cs []
  | output_host a r kept es' cs' fs : next_hop n ip = Host a → unicasts nif n a q lq es cs s s' r kept es' cs' fs →
      outputs nif n ip q lq es cs s s' r kept es' cs' fs.

Lemma wp_output nif n ip q lq owners es cs (s : net) (Q : Z → net → Prop) :
  arp_ok nif n s owners es cs → q ∈ owners → sendable s q lq →
  (∀ r s' kept es' cs' fs, outputs nif n ip q lq es cs s s' r kept es' cs' fs → moves nif n owners kept es' cs' fs s s' → Q r s') →
  wp (etharp_output custom_free link_err nif q ip) Q s.
Proof.
  intros Hok Hq Hsend HQ. pose proof Hsend as (b & Hb & _ & Hl & _). pose proof (ao_nif _ _ _ _ _ _ _ _ _ Hok) as Hnif.
  pose proof (pkt_null _ _ _ _ (ar_pkt _ _ _ _ _ _ _ (ao_rep _ _ _ _ _ _ _ _ _ Hok))) as Hnull. assert (q ≠ NULL) as Hqn by (intros ->; congruence).
  assert (∀ mac, next_hop n ip = Group mac → length mac = 6%nat →
    wp (ethernet_output link_err nif q (hwaddr nif) (to_const mac) ETHTYPE_IP) Q s) as Hgroup.
  { intros mac Hmac Hlen. apply (wp_send_turn nif n q lq _ mac owners es cs); [done..|by intros; apply points_const|]. intros r s' fs Ht _ Hfs.
    eapply (HQ r s'); [by eapply output_group|]. by eapply turn_moves. }
  assert (∀ a, next_hop n ip = Host a → wp (unicast_output custom_free link_err nif q a) Q s) as Hhost.
  { intros a Ha. apply (wp_unicast nif n a q lq owners es cs); [done..|]. intros r s' kept es' cs' fs Hr Hm. eapply (HQ r s'); [by eapply output_host|done]. }
  assert (next_hop n ip = NoRoute → wp (mret ERR_RTE) Q s) as Hnone.
  { intros Hn. apply wp_ret. eapply (HQ ERR_RTE s); [by apply output_none|]. by eapply turn_moves; [apply turn_refl|]. }
  unfold etharp_output. apply wp_bind, wp_assert; [apply negb_true_iff, Z.eqb_neq; by destruct Hnif|].
  apply wp_bind, wp_assert; [by apply negb_true_iff, Z.eqb_neq|]. apply wp_bind, (wp_rd_netif nif n); [by destruct Hnif|].
  unfold next_hop in *. destruct (ip4_addr_isbroadcast_u32 ip n); [by apply Hgroup|]. destruct (ip4_addr_ismulticast ip); [by apply Hgroup|].
  rewrite <-negb_orb. destruct (_ || _); cbn [negb]; [by apply Hhost|]. destruct (ip4_addr_isany_val (gw n)) eqn:Eg; cbn [negb]; [|by apply Hhost].
  by apply Hnone.
Qed.
End etharp_query.
