(* ===== verification/EtharpSafe.v ===== *)
(** ARP as its clients see it: any sequence of calls keeps the table, the queues
    and the packets in order, and what each call does. *)
From stdpp Require Import base tactics numbers list gmap.
From S2P Require Import Prelude Words Def Memp PbufMem PbufThm PbufOps Ip4Addr Net NetThm Etharp EtharpThm EtharpOps EtharpSend EtharpQuery.

Section etharp_safe.
Context {PP PR H PQ : Type} `{PoolLaws PP, PoolLaws PR, HeapLaws H, PoolLaws PQ}.
Context (custom_free : Z → M (pmem PP PR H) unit) (link_err : list frame → Z).
Context (EP ER EQ : list Z) `{!Layout (PP := PP) (PR := PR) (H := H) EP ER} `{!QueueLayout (PQ := PQ) EQ}.

Notation net := (net PP PR H PQ).
Notation pkt_ok := (pkt_ok EP ER).
Notation arp_ok := (arp_ok EP ER EQ).
Notation moves := (moves EP ER EQ).
Notation inputs := (inputs custom_free link_err).
Notation outputs := (outputs custom_free EP ER EQ).

(** ** Sequences of calls *)

Inductive arp_call : Type :=
  | CallTmr
  | CallInput (p : Z)
  | CallOutput (q ip : Z)
  | CallQuery (ip q : Z)
  | CallRequest (ip : Z)
  | CallFindAddr (ip : Z)
  | CallGetEntry (i : Z)
  | CallCleanup (gone : Z).

Definition run_call (nif : Z) (c : arp_call) : M net unit :=
  match c with
  | CallTmr => etharp_tmr custom_free link_err
  | CallInput p => etharp_input custom_free link_err p nif
  | CallOutput q ip => etharp_output custom_free link_err nif q ip;; mret tt
  | CallQuery ip q => etharp_query custom_free link_err nif ip q;; mret tt
  | CallRequest ip => etharp_request custom_free link_err nif ip;; mret tt
  | CallFindAddr ip => etharp_find_addr custom_free nif ip;; mret tt
  | CallGetEntry i => etharp_get_entry i;; mret tt
  | CallCleanup gone => etharp_cleanup_netif custom_free gone
  end.

(** What the callers see to: a received packet is handed over and has room for an
    ARP packet, a packet to send is one of theirs and whole. *)
Definition legal (s : net) (owners : list Z) (c : arp_call) (owners' : list Z) : Prop :=
  match c with
  | CallInput p => owners = p :: owners' ∧
      ∃ b, store (pm s) !! p = Some b ∧ pbuf_get_allocsrc b ≠ 1 ∧ SIZEOF_ETHARP_HDR ≤ b_len b
  | CallOutput q _ => owners' = owners ∧ q ∈ owners ∧ ∃ l, sendable s q l
  | CallQuery _ q => owners' = owners ∧ (q = NULL ∨ q ∈ owners ∧ ∃ l, sendable s q l)
  | CallGetEntry i => owners' = owners ∧ 0 ≤ i
  | _ => owners' = owners
  end.

(** Between the calls the others work on packets and set the addresses of the
    interface. *)
Definition others (nif : Z) (s : net) (owners : list Z) (s' : net) (owners' : list Z) : Prop :=
  arp_table s' = arp_table s ∧ etharp_cached_entry s' = etharp_cached_entry s ∧ arp_queue s' = arp_queue s ∧ arp_pool s' = arp_pool s ∧
  (∃ n, nif_ok s' nif n) ∧ ∀ l, pkt_ok (pm s) (owners ++ l) → pkt_ok (pm s') (owners' ++ l).

(** After [lwip_init]: the table is zero, the pool of queue elements is full. *)
Record started (nif : Z) (s : net) (owners : list Z) : Prop := Started {
  sd_table : arp_table s = replicate (Z.to_nat ARP_TABLE_SIZE) clean_entry;
  sd_cached : etharp_cached_entry s = 0;
  sd_nif : ∃ n, nif_ok s nif n;
  sd_pool : ∃ free, pool_holds (arp_pool s) free ∧ free ≡ₚ EQ;
  sd_pkt : pkt_ok (pm s) owners
}.

Inductive reach (nif : Z) : net → list Z → Prop :=
  | reach_start s owners : started nif s owners → reach nif s owners
  | reach_call s owners c owners' s' :
      reach nif s owners → legal s owners c owners' → run_call nif c s = (inl tt, s') → reach nif s' owners'
  | reach_others s owners s' owners' : reach nif s owners → others nif s owners s' owners' → reach nif s' owners'.

Lemma started_ok nif s owners : started nif s owners → ∃ n es cs, arp_ok nif n s owners es cs.
Proof.
  intros [Ht Hc [n Hn] (free & Hf & E) Ho]. exists n, (arp_table s), (replicate (Z.to_nat ARP_TABLE_SIZE) (NULL, [])).
  assert (∀ i e, arp_table s !! i = Some e → e = clean_entry) as Hall by (intros i e; rewrite Ht; by intros [-> _]%lookup_replicate).
  split; [|done| |by rewrite Hc]. 
  - split; [done| | |].
    + rewrite Ht. done.
    + split; [|by exists free]. intros c Hin. apply elem_of_replicate in Hin as [-> _]. done.
    + rewrite app_nil_r. exact Ho.
  - split; [by rewrite Ht| |].
    + intros i e q l He [[= -> ->] _]%lookup_replicate. rewrite (Hall i e He). apply clean_entry_ok.
    + intros i j e e' He _ Hu. rewrite (Hall i e He) in Hu. by destruct clean_entry_unused.
Qed.

Lemma wp_run_call nif n c owners owners' es cs (s : net) (Q : unit → net → Prop) :
  arp_ok nif n s owners es cs → legal s owners c owners' →
  (∀ s' es' cs' fs, arp_ok nif n s' owners' es' cs' → steady owners' s s' → wire s' = wire s ++ fs → Q tt s') → wp (run_call nif c) Q s.
Proof.
  intros Hok Hc HQ. assert (∀ s' kept es' cs' fs, moves nif n owners' kept es' cs' fs s s' → Q tt s') as Hm.
  { intros s' kept es' cs' fs [O S W]. eapply HQ; [exact O| |exact W]. eapply steady_sub; [|exact S]. set_solver. }
  assert (∀ s' es' cs' fs, turn EP ER EQ nif n owners' es' cs' fs s s' → Q tt s') as Ht.
  { intros s' es' cs' fs Ht. by eapply Hm, turn_moves. }
  destruct c as [|p|q ip|ip q|ip|ip|i|gone]; cbn [run_call legal] in *.
  - subst. apply (wp_tmr custom_free link_err EP ER EQ nif n owners es cs); [done|]. intros s' fs Htn _ _. by eapply Ht.
  - destruct Hc as [-> (b & Hb & Hs & Hl)]. apply (wp_input custom_free link_err EP ER EQ nif n p b owners' es cs); [done..|]. intros. by eapply Ht.
  - destruct Hc as (-> & Hq & l & Hsend). apply wp_bind, (wp_output custom_free link_err EP ER EQ nif n ip q l owners es cs); [done..|]. intros. apply wp_ret. by eapply Hm.
  - destruct Hc as (-> & [->|(Hq & l & Hsend)]); apply wp_bind.
    + apply (wp_query_null custom_free link_err EP ER EQ nif n ip owners es cs); [done|]. intros. apply wp_ret. by eapply Hm.
    + apply (wp_query custom_free link_err EP ER EQ nif n ip q l owners es cs); [done..|]. intros. apply wp_ret. by eapply Hm.
  - subst. apply wp_bind, (wp_request custom_free link_err EP ER EQ nif n ip owners es cs); [done|]. intros r s' Has Hok'. apply wp_ret.
    destruct (turn_asked custom_free EP ER EQ nif n owners es cs _ r s s' Has Hok') as (fs & Htn & _). by eapply Ht.
  - subst. apply wp_bind. unfold etharp_find_addr. apply wp_bind, (wp_find_entry custom_free EP ER EQ nif n ip _ owners es cs); [done| | |].
    + intros i e He _. rewrite (proj2 (Z.leb_le 0 (Z.of_nat i))) by lia.
      apply wp_bind, (wp_rd_entry _ e); [lia|by rewrite Nat2Z.id, (ar_table _ _ _ _ _ _ _ (ao_rep _ _ _ _ _ _ _ _ _ Hok))|].
      destruct (_ <=? _); apply wp_ret, wp_ret; by eapply Ht, turn_refl.
    + intros _ _. do 2 apply wp_ret. by eapply Ht, turn_refl.
    + intros i e l s' es' cs' _ Hr. destruct Hr. by left.
  - destruct Hc as [-> Hi]. apply wp_bind. unfold etharp_get_entry. destruct (Z.ltb_spec i ARP_TABLE_SIZE) as [Hlt|Hge]; [|do 2 apply wp_ret; by eapply Ht, turn_refl].
    pose proof (to_len _ _ _ (ao_table _ _ _ _ _ _ _ _ _ Hok)) as Hlen. destruct (lookup_lt_is_Some_2 es (Z.to_nat i)) as [e He]; [lia|].
    apply wp_bind, (wp_rd_entry _ e); [done|by rewrite (ar_table _ _ _ _ _ _ _ (ao_rep _ _ _ _ _ _ _ _ _ Hok))|].
    destruct (_ <=? _); apply wp_ret, wp_ret; by eapply Ht, turn_refl.
  - subst. apply (wp_cleanup custom_free link_err EP ER EQ nif n gone owners es cs); [done|]. intros s' keep Htn _. by eapply Ht.
Qed.

Lemma reach_ok nif s owners : reach nif s owners → ∃ n es cs, arp_ok nif n s owners es cs.
Proof.
  induction 1 as [s owners Hs|s owners c owners' s' _ (n & es & cs & Hok) Hc E|s owners s' owners' _ (n & es & cs & Hok) Ho]; [by eapply started_ok| |].
  - assert (wp (run_call nif c) (λ _ s', ∃ es' cs', arp_ok nif n s' owners' es' cs') s) as Hw.
    { apply (wp_run_call nif n c owners owners' es cs); [done..|]. intros s2 es' cs' _ Hok' _ _. by exists es', cs'. }
    apply wp_inv in Hw as (u & s2 & E' & es' & cs' & Hok'). rewrite E in E'. injection E' as _ <-. by exists n, es', cs'.
  - destruct Ho as (Et & Ec & Eq & Ep & [n' Hn'] & Hp). destruct Hok as [[Ht Hh Hq Hpk] Hn Htab Hc]. exists n', es, cs.
    split; [split; [by rewrite Et|done|by rewrite Eq, Ep|by apply Hp]|done|done|by rewrite Ec].
Qed.

(** C11: Whatever is called in whatever order, with packets handed over, sent, queued
    and dropped and the others working on packets in between, ARP stays in order
    (at most one entry for an address, at most three packets for a pending entry and
    none for others, every packet in a queue referenced once by it, every queue
    element in one queue or free), no call fails an assertion or reads outside of its
    structures, and the packets of the callers stay as they are. *)
Theorem arp_stays_in_order nif s owners :
  reach nif s owners →
  (∃ n es cs, arp_ok nif n s owners es cs) ∧
  ∀ c owners', legal s owners c owners' → ∃ s', run_call nif c s = (inl tt, s') ∧ steady owners' s s' ∧ ∃ fs, wire s' = wire s ++ fs.
Proof.
  intros Hr. destruct (reach_ok nif s owners Hr) as (n & es & cs & Hok). split; [by exists n, es, cs|]. intros c owners' Hc.
  assert (wp (run_call nif c) (λ _ s', steady owners' s s' ∧ ∃ fs, wire s' = wire s ++ fs) s) as Hw.
  { apply (wp_run_call nif n c owners owners' es cs); [done..|]. intros s' es' cs' fs _ Hst Hw. by split; [|exists fs]. }
  apply wp_inv in Hw as ([] & s' & E & Hst & Hfs). by exists s'.
Qed.

(** ** Each call *)

(** The search finds the entry of the address; else it is refused exactly when it
    must not create entries, or must not recycle them and none is free; else the
    first free entry gets the address, or the oldest stable one, or the oldest
    pending one without packets, or the oldest pending one, whose packets are given
    up. *)
Theorem find_entry_exact nif n ip flags owners es cs s :
  arp_ok nif n s owners es cs →
  wp (etharp_find_entry custom_free (Some ip) flags nif) (λ r s',
    (∃ i e, r = Z.of_nat i ∧ es !! i = Some e ∧ holds ip e ∧ s' = s) ∨
    (no_entry ip es ∧ refused es flags ∧ r = ERR_MEM ∧ s' = s) ∨
    (∃ i e, no_entry ip es ∧ ¬ refused es flags ∧ choice es i ∧ es !! i = Some e ∧ r = Z.of_nat i ∧
      arp_ok nif n s' owners (<[i := new_entry ip e]> es) (<[i := (NULL, [])]> cs) ∧ left_over s s' ∧ wire s' = wire s)) s.
Proof.
  intros Hok. apply (wp_find_entry custom_free EP ER EQ nif n ip flags owners es cs); [done| | |].
  - intros i e He Hh. left. by exists i, e.
  - intros Hn Hr. right; left. done.
  - intros i e l s' es' cs' Hn Hr Hch He _ -> -> Hok' Hqt _. right; right. exists i, e. split_and!; try done; apply Hqt.
Qed.

(** How many seconds an entry lives that nothing renews. *)
Definition lifetime (e : etharp_entry) : Z := if decide (e_state e = ETHARP_STATE_PENDING) then ARP_MAXPENDING else ARP_MAXAGE.

(** What [k] seconds make of an entry. *)
Definition aged (k : nat) (e e' : etharp_entry) : Prop :=
  (used e' ↔ used e ∧ e_ctime e + Z.of_nat k < lifetime e) ∧
  (used e' → e_ctime e' = e_ctime e + Z.of_nat k ∧ e_ipaddr e' = e_ipaddr e ∧ e_ethaddr e' = e_ethaddr e ∧ lifetime e' = lifetime e) ∧
  (¬ used e' → used e → e' = clean_entry).

Lemma aged_refl nif e l : entry_ok nif e l → aged 0 e e.
Proof.
  intros [Hs Hc Hy _ _ _ _]. split_and!; [|intros _; split_and!; try done; lia|done]. split; [|tauto]. intros Hu. split; [done|].
  unfold lifetime. destruct (decide _) as [Hp|]; [specialize (Hy Hp)|]; lia.
Qed.

Lemma tick_used nif e l : entry_ok nif e l → (used (tick e) ↔ used e ∧ e_ctime e + 1 < lifetime e) ∧
  (used (tick e) → e_ctime (tick e) = e_ctime e + 1 ∧ e_ipaddr (tick e) = e_ipaddr e ∧ e_ethaddr (tick e) = e_ethaddr e ∧ lifetime (tick e) = lifetime e) ∧
  (¬ used (tick e) → used e → tick e = clean_entry) ∧ (¬ used e → tick e = e).
Proof.
  intros Hok. unfold tick. destruct (decide (used e)) as [Hu|Hu]; [|tauto].
  assert (expired e ↔ ¬ e_ctime e + 1 < lifetime e) as Hx.
  { unfold expired, lifetime, ARP_MAXAGE, ARP_MAXPENDING. destruct (decide (e_state e = _)); [|naive_solver lia]. split; [|naive_solver lia]. intros [_ Hx]. lia. }
  destruct (decide (expired e)) as [Hxe|Hxe].
  - pose proof clean_entry_unused. tauto.
  - pose proof (eo_state _ _ _ Hok) as Hs. unfold used in *. cbn [set_e_state set_e_ctime e_state].
    destruct (next_state_used (e_state e)) as [Hr Hp]; [unfold ETHARP_STATE_EMPTY in *; lia|]. split_and!.
    + split; [|unfold ETHARP_STATE_EMPTY in *; lia]. intros _. split; [done|]. destruct (decide (e_ctime e + 1 < lifetime e)); [done|tauto].
    + intros _. split_and!; [done..|]. unfold lifetime. cbn [set_e_state set_e_ctime e_state]. destruct (decide (next_state _ = _)), (decide (e_state e = _)); tauto.
    + intros Hn. destruct Hn. unfold ETHARP_STATE_EMPTY in *. lia.
    + done.
Qed.

Lemma aged_tick nif k e0 e l : aged k e0 e → entry_ok nif e l → aged (S k) e0 (tick e).
Proof.
  intros (H1' & H2' & H3') Hok. destruct (tick_used nif e l Hok) as (T1 & T2 & T3 & T4). unfold aged.
  replace (Z.of_nat (S k)) with (Z.of_nat k + 1) by lia. destruct (decide (used e)) as [Hu|Hu].
  - destruct (H2' Hu) as (Ec & Ei & Em & El). destruct (proj1 H1' Hu) as [Hu0 Hlt]. split_and!.
    + rewrite T1, Ec, El. split; intros [? ?]; (split; [done|lia]).
    + intros Ht. destruct (T2 Ht) as (-> & -> & -> & ->). rewrite Ec, Ei, Em, El. split_and!; try done. lia.
    + intros Hn _. by apply T3.
  - rewrite (T4 Hu). split_and!; [|done|by intros _; apply H3']. split; [done|]. intros [Hu0 Hlt]. apply H1'. split; [done|lia].
Qed.

(** C18: An entry that nothing renews is there exactly for its lifetime, 300 seconds,
    or five when no answer comes, with the address it has, and is clean then. *)
Theorem arp_entries_expire k nif n owners es cs s :
  arp_ok nif n s owners es cs →
  wp (repeat_ k (etharp_tmr custom_free link_err)) (λ _ s', length (arp_table s') = length es ∧
    ∀ i e e', es !! i = Some e → arp_table s' !! i = Some e' → aged k e e') s.
Proof.
  intros Hok0. assert (∀ j s1 es1 cs1, arp_ok nif n s1 owners es1 cs1 → length es1 = length es →
    (∀ i e e', es !! i = Some e → es1 !! i = Some e' → aged j e e') →
    wp (repeat_ k (etharp_tmr custom_free link_err)) (λ _ s', length (arp_table s') = length es ∧
      ∀ i e e', es !! i = Some e → arp_table s' !! i = Some e' → aged (j + k) e e') s1) as Hgen.
  { clear Hok0. induction k as [|k IH]; intros j s1 es1 cs1 Hok Hlen Hag; cbn [repeat_].
    - apply wp_ret. rewrite Nat.add_0_r, (ar_table _ _ _ _ _ _ _ (ao_rep _ _ _ _ _ _ _ _ _ Hok)). done.
    - apply wp_bind, (wp_tmr custom_free link_err EP ER EQ nif n owners es1 cs1); [done|]. intros s2 fs Ht _ _.
      rewrite <-Nat.add_succ_comm. apply (IH (S j) s2 (tick <$> es1) (zip_with tick_queue es1 cs1)); [apply Ht|by rewrite length_fmap|].
      intros i e e' He (e1 & -> & He1)%list_lookup_fmap_Some. destruct (arp_rep_queue _ _ _ _ _ _ _ _ _ (ao_rep _ _ _ _ _ _ _ _ _ Hok) He1) as [l Hl].
      eapply aged_tick; [by eapply Hag|]. by eapply (to_entry _ _ _ (ao_table _ _ _ _ _ _ _ _ _ Hok)). }
  apply (Hgen 0%nat s es cs); [done|done|]. intros i e e' He He'. rewrite He in He'. injection He' as <-.
  destruct (arp_rep_queue _ _ _ _ _ _ _ _ _ (ao_rep _ _ _ _ _ _ _ _ _ Hok0) He) as [l Hl]. eapply aged_refl. by eapply (to_entry _ _ _ (ao_table _ _ _ _ _ _ _ _ _ Hok0)).
Qed.

(** C19: A received ARP packet that is not for Ethernet and IP is dropped. From any
    other the sender's address is learnt, if the packet is for us or an entry is
    there, and the packets that waited for it leave in their order; then a request
    for our address from another is answered with the reply of RFC 826, which is not
    sent only if the heap has no block for it once the address is learnt, and nothing
    else is answered. The packet is released. *)
Theorem etharp_input_exact nif n p b owners es cs s :
  arp_ok nif n s (p :: owners) es cs → store (pm s) !! p = Some b → pbuf_get_allocsrc b ≠ 1 → SIZEOF_ETHARP_HDR ≤ b_len b →
  wp (etharp_input custom_free link_err p nif) (λ _ s', ∃ es' cs' fs,
    inputs nif n (b_payload b) es cs s es' cs' fs ∧ arp_ok nif n s' owners es' cs' ∧ wire s' = wire s ++ fs) s.
Proof.
  intros Hok Hb Hs Hl. apply (wp_input custom_free link_err EP ER EQ nif n p b owners es cs); [done..|].
  intros s' es' cs' fs Hin [O _ W] _. by exists es', cs', fs.
Qed.

(** C20: A packet goes to its next hop: to a group directly, to a host whose address
    is known with the address of its entry, with a request before if the entry is
    about to expire; else it waits in the queue of the address, as a copy if its
    sender may change it and else itself, and a queue of three loses its first. A
    request is sent if the entry is new, none if it was pending before. A request
    that is due is left out only if the heap has no block for it, and a packet is
    lost only if there is none for the copy or all queue elements are in use. *)
Theorem etharp_output_exact nif n ip q lq owners es cs s :
  arp_ok nif n s owners es cs → q ∈ owners → sendable s q lq →
  wp (etharp_output custom_free link_err nif q ip) (λ r s', ∃ kept es' cs' fs,
    outputs nif n ip q lq es cs s s' r kept es' cs' fs ∧ arp_ok nif n s' owners es' cs' ∧ steady (owners ++ kept) s s' ∧ wire s' = wire s ++ fs) s.
Proof.
  intros Hok Hq Hsend. apply (wp_output custom_free link_err EP ER EQ nif n ip q lq owners es cs); [done..|].
  intros r s' kept es' cs' fs Hout [O S W]. by exists kept, es', cs', fs.
Qed.

(** C21: When an answer comes for an address, all packets that waited for it leave at
    once, each in one frame to the address learnt, in the order they came. *)
Theorem arp_resolves nif n p b i e l ls owners es cs s :
  arp_ok nif n s (p :: owners) es cs → store (pm s) !! p = Some b → pbuf_get_allocsrc b ≠ 1 → SIZEOF_ETHARP_HDR ≤ b_len b →
  let hdr := b_payload b in let mac := sender_mac (bytes s) hdr in
  well_formed (bytes s) hdr = true → unicast n (sender_ip (bytes s) hdr) = true →
  es !! i = Some e → holds (sender_ip (bytes s) hdr) e → cs !! i = Some (e_q e, l) →
  Forall2 (chain (store (pm s))) l.*2 ls → NoDup (concat ls) → solid (store (pm s)) (concat ls) →
  wp (etharp_input custom_free link_err p nif) (λ _ s',
    arp_ok nif n s' owners (<[i := learnt nif (sender_ip (bytes s) hdr) mac]> es) (<[i := (NULL, [])]> cs) ∧
    ∃ fs', wire s' = wire s ++ flushed s (ip_header n mac) l.*2 ls ++ fs' ∧
      fs' `sublist_of` (if to_answer n (bytes s) hdr then [answer n (bytes s) hdr] else [])) s.
Proof.
  intros Hok Hb Hs Hl hdr mac Hwf Hu He Hh Hc Hch Hnd Hsol. subst hdr mac.
  apply (wp_input custom_free link_err EP ER EQ nif n p b owners es cs); [done..|]. intros s' es' cs' fs Hin [O _ W] _.
  destruct Hin as [Hwf'|r s1 es' cs' ps fs fs' _ _ Hlearn Hfl Hans]; [congruence|].
  inversion Hlearn as [Hu'|_ Hno _|j l' _ Hpl]; subst; [congruence|by destruct (Hno i e)|].
  destruct Hpl as [e' l' He' Hh' Hc'|Hno _ _]; [|by destruct (Hno i e)].
  assert (j = i) as -> by (destruct Hh, Hh'; apply (to_distinct _ _ _ (ao_table _ _ _ _ _ _ _ _ _ Hok) j i e' e); congruence).
  rewrite He in He'. injection He' as <-. rewrite Hc in Hc'. injection Hc' as <-. split; [exact O|]. exists fs'.
  rewrite <-(Hfl ls Hch Hnd Hsol), W. split; [done|]. destruct (to_answer _ _ _); [exact (attempt_sublist custom_free _ _ _ Hans)|by subst].
Qed.
End etharp_safe.
