(* ===== verification/EtharpDemo.v ===== *)
(** The theorems of [NetThm] and [EtharpSafe] at concrete inputs, on the memory of
    [PbufDemo]: the clock asks for the address of a server, is answered, and its
    packet leaves. *)
From stdpp Require Import base tactics numbers list gmap.
From S2P Require Import Prelude Words Def Memp Mem PbufMem PbufThm PbufOps PbufDemo Net NetThm Etharp EtharpThm EtharpOps EtharpSend EtharpQuery EtharpSafe.

(** ** The state *)

Definition q_desc : memp_desc := MempDesc 8 8 0x20028000.
Definition q_memp : Type := memp.
#[global] Typeclasses Opaque q_memp.
#[export] Instance q_desc_ok : DescOk q_desc.
Proof. by split. Qed.
#[export] Instance q_memp_pool : Pool q_memp := memp_pool q_desc.
#[export] Instance q_memp_laws : PoolLaws q_memp := memp_pool_laws q_desc.

Notation EQ := (elements q_desc).
#[export] Instance demo_queue_layout : QueueLayout (PQ := q_memp) EQ.
Proof. split; [by apply elements_nodup|done]. Qed.

Notation demo_net := (net pool_memp ref_memp mem_heap q_memp).

Definition nif : Z := 0x20000100.
Definition eth0 : netif := Netif 0x3201A8C0 0x00FFFFFF 0x0101A8C0 [2; 0; 0; 0; 0; 1] ETH_HWADDR_LEN 15 1500 0.
Definition server_ip : Z := 0x0A01A8C0.
Definition server_mac : list Z := [2; 0; 0; 0; 0; 9].
Definition link_ok (w : list frame) : Z := ERR_OK.

Definition start_net : demo_net :=
  Net start_mem (λ _, 0) {[nif := eth0]} [] (replicate (Z.to_nat ARP_TABLE_SIZE) clean_entry) 0 ∅ (memp_init_pool q_desc (MempState 0 ∅)).2.

Lemma eth0_ok (s : demo_net) : netifs s = {[nif := eth0]} → nif_ok s nif eth0.
Proof. intros E. split; [done|by rewrite E|done|done]. Qed.

Lemma start_ok : started EP ER EQ nif start_net [].
Proof.
  split; [done|done|exists eth0; by apply eth0_ok| |].
  - destruct (wp_inv _ _ _ (wp_memp_init_pool q_desc (MempState 0 ∅))) as (u & s & E & Hs). exists (reverse EQ).
    cbn [start_net arp_pool]. rewrite E. split; [exact Hs|apply reverse_Permutation].
  - split; [apply start_refs|apply start_mem_ok|by intros p b ?].
Qed.

Notation reached := (reach no_custom link_ok EP ER EQ nif).
Notation call := (run_call no_custom link_ok nif).

(** A packet of the clients from the heap, with bytes in it. *)
Definition with_packet (layer : pbuf_layer) (n : Z) (l : list Z) (s : demo_net) : demo_net :=
  let '(r, p) := pbuf_alloc no_custom layer n PBUF_RAM (pm s) in
  set_bytes (match r with inl q => mem_write (q + SIZEOF_STRUCT_PBUF + LWIP_MEM_ALIGN_SIZE (layer_offset layer)) l | inr _ => id end) (set_pm (λ _, p) s).

Lemma packet_others layer n l owners (s : demo_net) q :
  (pbuf_alloc no_custom layer n PBUF_RAM (pm s)).1 = inl q → q ≠ NULL → 0 ≤ n < 65536 → nif_ok s nif eth0 →
  others EP ER nif s owners (with_packet layer n l s) (q :: owners).
Proof.
  intros E Hq Hn Hnif. unfold with_packet. destruct (pbuf_alloc _ _ _ _ _) as [r p] eqn:Ea. simpl in E. subst r.
  split_and!; [done|done|done|done|exists eth0; by apply (nif_ok_same s)|]. intros k Ho.
  assert (wp (pbuf_alloc no_custom layer n PBUF_RAM) (λ r p', r = q → NetThm.pkt_ok EP ER p' (q :: owners ++ k)) (pm s)) as Hw.
  { apply (wp_alloc_pkt no_custom EP ER layer n (owners ++ k)); [done|done|intros p' _ _ _ E; congruence|by intros r p' _ _ _ Hp <-]. }
  unfold wp in Hw. rewrite Ea in Hw. by apply Hw.
Qed.

Definition asking : demo_net := with_packet PBUF_TRANSPORT 20 (Z.of_nat <$> seq 1 20) start_net.
Definition waiting : demo_net := (call (CallOutput heap_base server_ip) asking).2.
Definition reply : list Z := arp_packet ARP_REPLY server_mac server_ip (n_hwaddr eth0) (ip_addr eth0).
Definition answered : demo_net := with_packet PBUF_RAW 28 reply waiting.

Notation client := heap_base.
Definition received : Z := heap_base + 100.

Lemma call_runs c (s : demo_net) : (call c s).1 = inl tt → call c s = (inl tt, (call c s).2).
Proof. destruct (call c s) as [r s']. simpl. by intros ->. Qed.

Lemma asking_reached : reached asking [client].
Proof.
  eapply reach_others; [apply reach_start, start_ok|]. apply packet_others; [by vm_compute|done|done|by apply eth0_ok].
Qed.

Lemma sendable_one (s : demo_net) q b : store (pm s) !! q = Some b → b_ref b < 255 → b_next b = NULL → b_len b = b_tot_len b → 0 ≤ b_len b → sendable s q [q].
Proof.
  intros Hb Hr Hn Hl Hpos. exists b. split_and!; [done|done|split; [done|]; exists b; by rewrite Hn| |].
  - exists b. split_and!; [done|done|lia|lia|]. by rewrite Hl, Z.sub_diag.
  - intros x c ->%list_elem_of_singleton Hc _. by rewrite Hb in Hc; injection Hc as <-.
Qed.

Lemma asking_sendable : sendable asking client [client].
Proof. eapply sendable_one; by vm_compute. Qed.

Lemma waiting_reached : reached waiting [client].
Proof.
  eapply (reach_call _ _ _ _ _ _ asking [client] (CallOutput client server_ip)); [apply asking_reached| |].
  - split; [done|]. split; [by left|]. exists [client]. apply asking_sendable.
  - apply call_runs. by vm_compute.
Qed.

Lemma answered_reached : reached answered [received; client].
Proof.
  eapply reach_others; [apply waiting_reached|]. apply packet_others; [by vm_compute|done|done|]. apply eth0_ok. by vm_compute.
Qed.

Lemma reached_ok (s : demo_net) owners : reached s owners → netifs s = {[nif := eth0]} → ∃ cs, arp_ok EP ER EQ nif eth0 s owners (arp_table s) cs.
Proof.
  intros Hr En. destruct (reach_ok no_custom link_ok EP ER EQ nif s owners Hr) as (n & es & cs & Hok). exists cs.
  assert (n = eth0) as -> by (pose proof (ni_netif _ _ _ (ao_nif _ _ _ _ _ _ _ _ _ Hok)) as Hn; rewrite En in Hn; by injection Hn as <-).
  by rewrite (ar_table _ _ _ _ _ _ _ (ao_rep _ _ _ _ _ _ _ _ _ Hok)).
Qed.

Lemma answered_ok : ∃ cs, arp_ok EP ER EQ nif eth0 answered [received; client] (arp_table answered) cs.
Proof. apply reached_ok; [apply answered_reached|by vm_compute]. Qed.

Lemma received_ok : ∃ b, store (pm answered) !! received = Some b ∧ pbuf_get_allocsrc b ≠ 1 ∧ SIZEOF_ETHARP_HDR ≤ b_len b ∧
  b_payload b = received + 16 ∧ mem_read (b_payload b) 28 (bytes answered) = reply.
Proof. eexists. split; [by vm_compute|]. do 3 (split; [by vm_compute|]). by vm_compute. Qed.

(** ** Witnesses *)

Lemma arp_stays_in_order_witness :
  legal answered [received; client] (CallInput received) [client] ∧
  ((∃ n es cs, arp_ok EP ER EQ nif n answered [received; client] es cs) ∧
   ∀ c owners', legal answered [received; client] c owners' →
     ∃ s', call c answered = (inl tt, s') ∧ steady owners' answered s' ∧ ∃ fs, wire s' = wire answered ++ fs).
Proof.
  split.
  - split; [reflexivity|]. destruct received_ok as (b & Hb & Hs & Hl & _). exists b. exact (conj Hb (conj Hs Hl)).
  - apply (arp_stays_in_order no_custom link_ok EP ER EQ nif answered [received; client]), answered_reached.
Defined.

Lemma find_entry_exact_witness : ∃ cs,
  arp_ok EP ER EQ nif eth0 answered [received; client] (arp_table answered) cs ∧
  wp (etharp_find_entry no_custom (Some 0x0B01A8C0) ETHARP_FLAG_TRY_HARD nif) (λ r s',
    (∃ i e, r = Z.of_nat i ∧ arp_table answered !! i = Some e ∧ holds 0x0B01A8C0 e ∧ s' = answered) ∨
    (no_entry 0x0B01A8C0 (arp_table answered) ∧ refused (arp_table answered) ETHARP_FLAG_TRY_HARD ∧ r = ERR_MEM ∧ s' = answered) ∨
    (∃ i e, no_entry 0x0B01A8C0 (arp_table answered) ∧ ¬ refused (arp_table answered) ETHARP_FLAG_TRY_HARD ∧ choice (arp_table answered) i ∧
      arp_table answered !! i = Some e ∧ r = Z.of_nat i ∧
      arp_ok EP ER EQ nif eth0 s' [received; client] (<[i := new_entry 0x0B01A8C0 e]> (arp_table answered)) (<[i := (NULL, [])]> cs) ∧
      left_over answered s' ∧ wire s' = wire answered)) answered.
Proof.
  destruct answered_ok as [cs Hok]. exists cs. split; [exact Hok|].
  apply (find_entry_exact no_custom EP ER EQ nif eth0 0x0B01A8C0 ETHARP_FLAG_TRY_HARD [received; client] (arp_table answered) cs answered Hok).
Defined.

Lemma arp_entries_expire_witness : ∃ cs,
  arp_ok EP ER EQ nif eth0 answered [received; client] (arp_table answered) cs ∧
  wp (repeat_ 5 (etharp_tmr no_custom link_ok)) (λ _ s', length (arp_table s') = length (arp_table answered) ∧
    ∀ i e e', arp_table answered !! i = Some e → arp_table s' !! i = Some e' → aged 5 e e') answered.
Proof.
  destruct answered_ok as [cs Hok]. exists cs. split; [exact Hok|].
  apply (arp_entries_expire no_custom link_ok EP ER EQ 5 nif eth0 [received; client] (arp_table answered) cs answered Hok).
Defined.

(** The server asks for our address while a packet waits for its own. *)
Definition question : list Z := arp_packet ARP_REQUEST server_mac server_ip ethzero (ip_addr eth0).
Definition questioned : demo_net := with_packet PBUF_RAW 28 question waiting.

Lemma questioned_ok : ∃ cs, arp_ok EP ER EQ nif eth0 questioned [received; client] (arp_table questioned) cs.
Proof.
  apply reached_ok; [|by vm_compute]. eapply reach_others; [apply waiting_reached|]. apply packet_others; [by vm_compute|done|done|].
  apply eth0_ok. by vm_compute.
Qed.

Lemma question_received : ∃ b, store (pm questioned) !! received = Some b ∧ pbuf_get_allocsrc b ≠ 1 ∧ SIZEOF_ETHARP_HDR ≤ b_len b ∧ b_payload b = received + 16.
Proof. eexists. split; [by vm_compute|]. split; [by vm_compute|]. split; [by vm_compute|]. by vm_compute. Qed.

Lemma etharp_input_exact_witness : ∃ cs b,
  store (pm questioned) !! received = Some b ∧ well_formed (bytes questioned) (b_payload b) = true ∧ to_answer eth0 (bytes questioned) (b_payload b) = true ∧
  wp (etharp_input no_custom link_ok received nif) (λ _ s', ∃ es' cs' fs,
    inputs no_custom link_ok nif eth0 (b_payload b) (arp_table questioned) cs questioned es' cs' fs ∧ arp_ok EP ER EQ nif eth0 s' [client] es' cs' ∧
    wire s' = wire questioned ++ fs) questioned.
Proof.
  destruct questioned_ok as [cs Hok]. destruct question_received as (b & Hb & Hs & Hl & Ep). exists cs, b. split; [exact Hb|].
  split; [rewrite Ep; by vm_compute|]. split; [rewrite Ep; by vm_compute|].
  exact (etharp_input_exact no_custom link_ok EP ER EQ nif eth0 received b [client] (arp_table questioned) cs questioned Hok Hb Hs Hl).
Defined.

Lemma etharp_output_exact_witness : ∃ cs,
  sendable asking client [client] ∧
  wp (etharp_output no_custom link_ok nif client server_ip) (λ r s', ∃ kept es' cs' fs,
    outputs no_custom EP ER EQ nif eth0 server_ip client [client] (arp_table asking) cs asking s' r kept es' cs' fs ∧
    arp_ok EP ER EQ nif eth0 s' [client] es' cs' ∧ steady ([client] ++ kept) asking s' ∧ wire s' = wire asking ++ fs) asking.
Proof.
  destruct (reached_ok asking [client]) as [cs Hok]; [apply asking_reached|done|]. exists cs. split; [apply asking_sendable|].
  apply (etharp_output_exact no_custom link_ok EP ER EQ nif eth0 server_ip client [client] [client] (arp_table asking) cs asking Hok); [by left|apply asking_sendable].
Defined.

(** The queue of the pending entry. *)
Definition element0 : Z := 0x20028038.

Lemma qlinked_one m q l p : qlinked m q l → m !! q = Some (EtharpQEntry NULL p) → q ≠ NULL → l = [(q, p)].
Proof.
  intros Hl Hm Hq. destruct l as [|[x o] l]; [by destruct Hq|]. destruct Hl as (<- & _ & _ & n & Hn & Hl). rewrite Hm in Hn. injection Hn as <- <-.
  destruct l as [|[y o] l]; [done|]. destruct Hl as (Ey & Hy & _). by destruct Hy.
Qed.

Lemma answered_queue cs : arp_ok EP ER EQ nif eth0 answered [received; client] (arp_table answered) cs →
  ∃ e, arp_table answered !! 0%nat = Some e ∧ holds server_ip e ∧ cs !! 0%nat = Some (e_q e, [(element0, client)]).
Proof.
  intros Hok. pose proof (ao_rep _ _ _ _ _ _ _ _ _ Hok) as Hrep.
  assert (∃ e, arp_table answered !! 0%nat = Some e ∧ e_q e = element0 ∧ e_state e = ETHARP_STATE_PENDING ∧ e_ipaddr e = server_ip) as (e & He & Eq & Es & Ea).
  { eexists. split; [by vm_compute|]. by split_and!. }
  exists e. split; [done|]. split; [split; [unfold used; by rewrite Es|done]|].
  destruct (arp_rep_queue _ _ _ _ _ _ _ _ _ Hrep He) as [l Hl]. rewrite Hl. do 2 f_equal.
  pose proof (qs_link _ _ _ _ (ar_queues _ _ _ _ _ _ _ Hrep) _ (list_elem_of_lookup_2 _ _ _ Hl)) as Hlk. cbn [fst snd] in Hlk. rewrite Eq in Hlk.
  apply (qlinked_one _ _ _ _ Hlk); [by vm_compute|done].
Qed.

Lemma received_fields : well_formed (bytes answered) (received + 16) = true ∧ unicast eth0 (sender_ip (bytes answered) (received + 16)) = true ∧
  sender_ip (bytes answered) (received + 16) = server_ip.
Proof. split; [by vm_compute|]. split; [by vm_compute|]. by vm_compute. Qed.

Lemma answered_chains : Forall2 (chain (store (pm answered))) [(element0, client)].*2 [[client]].
Proof. constructor; [|constructor]. split; [reflexivity|]. eexists. split; [by vm_compute|]. by vm_compute. Qed.

Lemma client_solid (s : demo_net) : match store (pm s) !! client with Some b => pbuf_get_allocsrc b ≠ 1 | None => True end → solid (store (pm s)) [client].
Proof. intros Hs x c ->%list_elem_of_singleton Hc. by rewrite Hc in Hs. Qed.

Lemma arp_resolves_witness : ∃ cs b, store (pm answered) !! received = Some b ∧
  let hdr := b_payload b in let mac := sender_mac (bytes answered) hdr in
  wp (etharp_input no_custom link_ok received nif) (λ _ s',
    arp_ok EP ER EQ nif eth0 s' [client] (<[0%nat := learnt nif (sender_ip (bytes answered) hdr) mac]> (arp_table answered)) (<[0%nat := (NULL, [])]> cs) ∧
    ∃ fs', wire s' = wire answered ++ flushed answered (ip_header eth0 mac) [(element0, client)].*2 [[client]] ++ fs' ∧
      fs' `sublist_of` (if to_answer eth0 (bytes answered) hdr then [answer eth0 (bytes answered) hdr] else [])) answered.
Proof.
  destruct answered_ok as [cs Hok]. destruct received_ok as (b & Hb & Hs & Hl & Ep & _). destruct (answered_queue cs Hok) as (e & He & Hh & Hc).
  destruct received_fields as (Hw & Hu & Ei). rewrite <-Ep in Hw, Hu, Ei. rewrite <-Ei in Hh.
  assert (solid (store (pm answered)) [client]) as Hsol by (apply client_solid; by vm_compute).
  exists cs, b. split; [exact Hb|].
  exact (arp_resolves no_custom link_ok EP ER EQ nif eth0 received b 0 e [(element0, client)] [[client]] [client] (arp_table answered) cs answered
    Hok Hb Hs Hl Hw Hu He Hh Hc answered_chains (NoDup_singleton client) Hsol).
Defined.

Lemma asking_pkt : NetThm.pkt_ok EP ER (pm asking) [client].
Proof.
  assert (others EP ER nif start_net [] asking [client]) as (_ & _ & _ & _ & _ & Ho) by (apply packet_others; [by vm_compute|done|done|by apply eth0_ok]).
  apply (Ho []). split; [apply start_refs|apply start_mem_ok|by intros p b ?].
Qed.

Lemma pbuf_clone_copies_witness : ∃ b, store (pm asking) !! client = Some b ∧
  wp (pbuf_clone no_custom PBUF_LINK PBUF_RAM client) (λ r s',
    (r = NULL ∧ store (pm s') = store (pm asking) ∧ bytes s' = bytes asking ∧ NetThm.pkt_ok EP ER (pm s') [client]) ∨
    (r ≠ NULL ∧ store (pm asking) !! r = None ∧ chain (store (pm s')) r [r] ∧ NetThm.pkt_ok EP ER (pm s') [r; client] ∧
      data_of s' r = concat (frame_of asking [client]) ∧
      ∀ x c, store (pm asking) !! x = Some c → store (pm s') !! x = Some c ∧ (pbuf_get_allocsrc c ≠ 1 → data_of s' x = data_of asking x))) asking.
Proof.
  destruct asking_sendable as (b & Hb & _ & Hl & Hpk & Hone). exists b. split; [exact Hb|].
  assert (solid (store (pm asking)) [client]) as Hsol by (apply client_solid; by vm_compute).
  exact (pbuf_clone_copies no_custom EP ER PBUF_LINK client b [client] [client] asking asking_pkt ltac:(done) Hb Hl Hpk Hone Hsol).
Defined.

(** What it comes to: the request, and after the answer the packet to the server. *)
Example resolved : wire (call (CallInput received) answered).2 =
  [[eth_header ethbroadcast (n_hwaddr eth0) ETHTYPE_ARP ++ arp_packet ARP_REQUEST (n_hwaddr eth0) (ip_addr eth0) ethzero server_ip];
   [eth_header server_mac (n_hwaddr eth0) ETHTYPE_IP ++ (Z.of_nat <$> seq 1 20)]].
Proof. by vm_compute. Qed.

(** A question teaches the address too: the packet that waited goes, then the answer. *)
Example question_answered : wire (call (CallInput received) questioned).2 =
  [[eth_header ethbroadcast (n_hwaddr eth0) ETHTYPE_ARP ++ arp_packet ARP_REQUEST (n_hwaddr eth0) (ip_addr eth0) ethzero server_ip];
   [eth_header server_mac (n_hwaddr eth0) ETHTYPE_IP ++ (Z.of_nat <$> seq 1 20)];
   [eth_header server_mac (n_hwaddr eth0) ETHTYPE_ARP ++ arp_packet ARP_REPLY (n_hwaddr eth0) (ip_addr eth0) server_mac server_ip]].
Proof. by vm_compute. Qed.
