(* ===== verification/UdpPcb.v ===== *)
(** The control blocks of UDP, [lwip/src/core/udp.c]: the list of those that have a
    local port, the choice of ports, and the search for the block an incoming
    datagram is for.  In the configuration of the firmware there is IPv4 only, and
    no SO_REUSE, UDP-Lite or multicast options. *)
From stdpp Require Import base tactics numbers list gmap.
From S2P Require Import Prelude Words Def Ip4Addr Memp PbufMem Net.

Definition ERR_USE : Z := -8.
Definition UDP_FLAGS_NOCHKSUM : Z := 0x01.
Definition UDP_FLAGS_CONNECTED : Z := 0x04.
Definition UDP_TTL : Z := 255.
Definition NETIF_NO_INDEX : Z := 0.
Definition UDP_LOCAL_PORT_RANGE_START : Z := 0xc000.
Definition UDP_LOCAL_PORT_RANGE_END : Z := 0xffff.
Definition UDP_ENSURE_LOCAL_PORT_RANGE (port : Z) : Z :=
  u16 (Z.land port (u16 (Z.lnot UDP_LOCAL_PORT_RANGE_START)) + UDP_LOCAL_PORT_RANGE_START).

(** [struct udp_pcb]; [u_recv] is the address of the callback. *)
Record udp_pcb := UdpPcb {
  u_local_ip : Z;
  u_remote_ip : Z;
  u_netif_idx : Z;
  u_so_options : Z;
  u_tos : Z;
  u_ttl : Z;
  u_next : Z;
  u_flags : Z;
  u_local_port : Z;
  u_remote_port : Z;
  u_recv : Z;
  u_recv_arg : Z
}.

Definition set_u_local (ip port : Z) (p : udp_pcb) : udp_pcb :=
  UdpPcb ip (u_remote_ip p) (u_netif_idx p) (u_so_options p) (u_tos p) (u_ttl p) (u_next p) (u_flags p) port (u_remote_port p) (u_recv p) (u_recv_arg p).
Definition set_u_remote (ip port : Z) (p : udp_pcb) : udp_pcb :=
  UdpPcb (u_local_ip p) ip (u_netif_idx p) (u_so_options p) (u_tos p) (u_ttl p) (u_next p) (u_flags p) (u_local_port p) port (u_recv p) (u_recv_arg p).
Definition set_u_netif_idx (i : Z) (p : udp_pcb) : udp_pcb :=
  UdpPcb (u_local_ip p) (u_remote_ip p) i (u_so_options p) (u_tos p) (u_ttl p) (u_next p) (u_flags p) (u_local_port p) (u_remote_port p) (u_recv p) (u_recv_arg p).
Definition set_u_next (q : Z) (p : udp_pcb) : udp_pcb :=
  UdpPcb (u_local_ip p) (u_remote_ip p) (u_netif_idx p) (u_so_options p) (u_tos p) (u_ttl p) q (u_flags p) (u_local_port p) (u_remote_port p) (u_recv p) (u_recv_arg p).
Definition set_u_flags (f : Z) (p : udp_pcb) : udp_pcb :=
  UdpPcb (u_local_ip p) (u_remote_ip p) (u_netif_idx p) (u_so_options p) (u_tos p) (u_ttl p) (u_next p) f (u_local_port p) (u_remote_port p) (u_recv p) (u_recv_arg p).
Definition set_u_recv (f arg : Z) (p : udp_pcb) : udp_pcb :=
  UdpPcb (u_local_ip p) (u_remote_ip p) (u_netif_idx p) (u_so_options p) (u_tos p) (u_ttl p) (u_next p) (u_flags p) (u_local_port p) (u_remote_port p) f arg.

(** [memset(pcb, 0, sizeof(struct udp_pcb))], and the time to live. *)
Definition new_pcb : udp_pcb := UdpPcb 0 0 0 0 0 UDP_TTL NULL 0 0 0 NULL NULL.

Section udp.
Context {PU : Type} `{Pool PU}.

(** The module's variables; [pcbs] has the allocated blocks. *)
Record udp_mod := UdpMod {
  udp_port : Z;
  udp_pcbs : Z;
  pcbs : gmap Z udp_pcb;
  pcb_pool : PU
}.

Definition set_port (x : Z) (s : udp_mod) : udp_mod := UdpMod x (udp_pcbs s) (pcbs s) (pcb_pool s).
Definition set_first (x : Z) (s : udp_mod) : udp_mod := UdpMod (udp_port s) x (pcbs s) (pcb_pool s).
Definition set_pcbs (f : gmap Z udp_pcb → gmap Z udp_pcb) (s : udp_mod) : udp_mod :=
  UdpMod (udp_port s) (udp_pcbs s) (f (pcbs s)) (pcb_pool s).
Definition set_pcb_pool (p : PU) (s : udp_mod) : udp_mod := UdpMod (udp_port s) (udp_pcbs s) (pcbs s) p.

Definition rd_pcb (pcb : Z) : M udp_mod udp_pcb := gets (λ s, pcbs s !! pcb) ≫= of_option.
Definition wr_pcb (pcb : Z) (f : udp_pcb → udp_pcb) : M udp_mod unit :=
  p ← rd_pcb pcb; modify (set_pcbs <[pcb := f p]>).
(** Enough for a walk of the list. *)
Definition pcb_fuel : M udp_mod nat := gets (λ s, S (size (pcbs s))).

Definition udp_init (rand : Z) : M udp_mod unit := modify (set_port (UDP_ENSURE_LOCAL_PORT_RANGE rand)).

(** [for (pcb = udp_pcbs; pcb != NULL; pcb = pcb->next)] with a body that only looks
    whether a block is as wanted, and leaves the loop if it is. *)
Fixpoint any_pcb (n : nat) (wanted : Z → udp_pcb → bool) (pcb : Z) : M udp_mod bool :=
  match n with
  | O => fail OutOfFuel
  | S n =>
      if pcb =? NULL then mret false
      else p ← rd_pcb pcb; if wanted pcb p then mret true else any_pcb n wanted (u_next p)
  end.

(** From the first block on. *)
Definition any_listed (wanted : Z → udp_pcb → bool) : M udp_mod bool :=
  n ← pcb_fuel; first ← gets udp_pcbs; any_pcb n wanted first.

(** ** Ports *)

(** Is the port taken? *)
Definition port_taken (port : Z) (_ : Z) (p : udp_pcb) : bool := u_local_port p =? port.

(** From the label [again]; [k] is [n]. *)
Fixpoint again (fuel : nat) (k : Z) : M udp_mod Z :=
  match fuel with
  | O => fail OutOfFuel
  | S fuel =>
      port ← gets udp_port;
      modify (set_port (u16 (port + 1)));;
      when_ (port =? UDP_LOCAL_PORT_RANGE_END) (modify (set_port UDP_LOCAL_PORT_RANGE_START));;
      port ← gets udp_port;
      taken ← any_listed (port_taken port);
      if taken : bool then
        if UDP_LOCAL_PORT_RANGE_END - UDP_LOCAL_PORT_RANGE_START <? u16 (k + 1) then mret 0 else again fuel (u16 (k + 1))
      else mret port
  end.

(** [n] is counted up to one more than the size of the range. *)
Definition udp_new_port : M udp_mod Z :=
  again (Z.to_nat (UDP_LOCAL_PORT_RANGE_END - UDP_LOCAL_PORT_RANGE_START + 1)) 0.

(** ** Binding and connecting *)

(** Is [pcb] on the list? *)
Definition is_pcb (pcb ipcb : Z) (_ : udp_pcb) : bool := pcb =? ipcb.

(** Has another block the port, and the address or any? *)
Definition bound_already (pcb ipaddr port : Z) (ipcb : Z) (p : udp_pcb) : bool :=
  negb (pcb =? ipcb) && (u_local_port p =? port) &&
  ((u_local_ip p =? ipaddr) || ip4_addr_isany_val ipaddr || ip4_addr_isany_val (u_local_ip p)).

(** [pcb->next = udp_pcbs; udp_pcbs = pcb;] *)
Definition put_first (pcb : Z) : M udp_mod unit :=
  first ← gets udp_pcbs; wr_pcb pcb (set_u_next first);; modify (set_first pcb).

(** [ipaddr] is a pointer, which may be NULL. *)
Definition udp_bind (pcb : Z) (ipaddr : option Z) (port : Z) : M udp_mod Z :=
  let ipaddr := default IPADDR_ANY ipaddr in
  if pcb =? NULL then mret ERR_ARG
  else
    rebind ← any_listed (is_pcb pcb);
    port' ← (if port =? 0 then
               port ← udp_new_port;
               if port =? 0 then mret None else mret (Some port)
             else
               b ← any_listed (bound_already pcb ipaddr port);
               if b : bool then mret None else mret (Some port));
    match port' with
    | None => mret ERR_USE
    | Some port =>
        wr_pcb pcb (set_u_local ipaddr port);;
        when_ (negb rebind) (put_first pcb);;
        mret ERR_OK
    end.

(** [netif] by its index, if it is not NULL. *)
Definition udp_bind_netif (pcb : Z) (netif_index : option Z) : M udp_mod unit :=
  wr_pcb pcb (set_u_netif_idx (default NETIF_NO_INDEX netif_index)).

Definition udp_connect (pcb : Z) (ipaddr : option Z) (port : Z) : M udp_mod Z :=
  if pcb =? NULL then mret ERR_ARG
  else
    match ipaddr with
    | None => mret ERR_ARG
    | Some ip =>
        p ← rd_pcb pcb;
        err ← (if u_local_port p =? 0 then udp_bind pcb (Some (u_local_ip p)) (u_local_port p) else mret ERR_OK);
        if negb (err =? ERR_OK) then mret err
        else
          wr_pcb pcb (set_u_remote ip port);;
          wr_pcb pcb (λ p, set_u_flags (Z.lor (u_flags p) UDP_FLAGS_CONNECTED) p);;
          b ← any_listed (is_pcb pcb);
          when_ (negb b) (put_first pcb);;
          mret ERR_OK
    end.

Definition udp_disconnect (pcb : Z) : M udp_mod unit :=
  if pcb =? NULL then mret tt
  else
    wr_pcb pcb (set_u_remote IPADDR_ANY 0);;
    wr_pcb pcb (set_u_netif_idx NETIF_NO_INDEX);;
    wr_pcb pcb (λ p, set_u_flags (Z.land (u_flags p) (Z.land (Z.lnot UDP_FLAGS_CONNECTED) 0xff)) p).

Definition udp_recv (pcb recv recv_arg : Z) : M udp_mod unit :=
  if pcb =? NULL then mret tt else wr_pcb pcb (set_u_recv recv recv_arg).

(** ** Removing and creating *)

(** [for (pcb2 = udp_pcbs; pcb2 != NULL; pcb2 = pcb2->next)] of [udp_remove]. *)
Fixpoint unlink_pcb (n : nat) (pcb2 pcb : Z) : M udp_mod unit :=
  match n with
  | O => fail OutOfFuel
  | S n =>
      if pcb2 =? NULL then mret tt
      else
        p ← rd_pcb pcb2;
        if negb (u_next p =? NULL) && (u_next p =? pcb) then q ← rd_pcb pcb; wr_pcb pcb2 (set_u_next (u_next q))
        else unlink_pcb n (u_next p) pcb
  end.

Definition udp_remove (pcb : Z) : M udp_mod unit :=
  if pcb =? NULL then mret tt
  else
    first ← gets udp_pcbs;
    (if first =? pcb then p ← rd_pcb first; modify (set_first (u_next p))
     else n ← pcb_fuel; unlink_pcb n first pcb);;
    modify (set_pcbs (delete pcb));;
    zoom pcb_pool set_pcb_pool (pool_free pcb).

Definition udp_new : M udp_mod Z :=
  pcb ← zoom pcb_pool set_pcb_pool pool_malloc;
  when_ (negb (pcb =? NULL)) (modify (set_pcbs <[pcb := new_pcb]>));;
  mret pcb.

Definition udp_new_ip_type (type : Z) : M udp_mod Z := udp_new.

(** The loop of [udp_netif_ip_addr_changed]. *)
Fixpoint change_loop (n : nat) (upcb old_addr new_addr : Z) : M udp_mod unit :=
  match n with
  | O => fail OutOfFuel
  | S n =>
      if upcb =? NULL then mret tt
      else
        p ← rd_pcb upcb;
        when_ (u_local_ip p =? old_addr) (wr_pcb upcb (λ p, set_u_local new_addr (u_local_port p) p));;
        p ← rd_pcb upcb;
        change_loop n (u_next p) old_addr new_addr
  end.

Definition udp_netif_ip_addr_changed (old_addr new_addr : Z) : M udp_mod unit :=
  when_ (negb (ip4_addr_isany_val old_addr) && negb (ip4_addr_isany_val new_addr))
    (n ← pcb_fuel; first ← gets udp_pcbs; change_loop n first old_addr new_addr).

(** ** Who gets a datagram *)

(** What the search looks at: the interface [inp], the index of the one the
    datagram came in by, its addresses, and whether it is a broadcast. *)
Record arrival := Arrival {
  a_inp : netif;
  a_input_idx : Z;
  a_src : Z;
  a_dest : Z;
  a_broadcast : bool
}.

Definition udp_input_local_match (a : arrival) (p : udp_pcb) : bool :=
  if negb (u_netif_idx p =? NETIF_NO_INDEX) && negb (u_netif_idx p =? a_input_idx a) then false
  else if a_broadcast a then
    ip4_addr_isany_val (u_local_ip p) || (a_dest a =? IPADDR_BROADCAST) ||
    ip4_addr_net_eq (u_local_ip p) (a_dest a) (netmask (a_inp a))
  else ip4_addr_isany_val (u_local_ip p) || (u_local_ip p =? a_dest a).

(** The remote end of a block is the sender, or not set. *)
Definition remote_match (a : arrival) (src : Z) (p : udp_pcb) : bool :=
  (u_remote_port p =? src) && (ip4_addr_isany_val (u_remote_ip p) || (u_remote_ip p =? a_src a)).

(** The loop of [udp_input] over the blocks; [src] and [dest] are the ports.  It
    gives the block that matches fully, which goes to the front, or NULL, and
    the best that is not connected. *)
Fixpoint find_pcb (n : nat) (a : arrival) (src dest : Z) (pcb prev uncon_pcb : Z) : M udp_mod (Z * Z) :=
  match n with
  | O => fail OutOfFuel
  | S n =>
      if pcb =? NULL then mret (NULL, uncon_pcb)
      else
        p ← rd_pcb pcb;
        if (u_local_port p =? dest) && udp_input_local_match a p then
          uncon_pcb ← (if Z.land (u_flags p) UDP_FLAGS_CONNECTED =? 0 then
            if uncon_pcb =? NULL then mret pcb
            else if a_broadcast a && (a_dest a =? IPADDR_BROADCAST) then
              u ← rd_pcb uncon_pcb;
              if negb (u_local_ip u =? ip_addr (a_inp a)) && (u_local_ip p =? ip_addr (a_inp a)) then mret pcb
              else mret uncon_pcb
            else mret uncon_pcb
          else mret uncon_pcb);
          if remote_match a src p then
            when_ (negb (prev =? NULL)) (wr_pcb prev (set_u_next (u_next p));; put_first pcb);;
            mret (pcb, uncon_pcb)
          else find_pcb n a src dest (u_next p) pcb uncon_pcb
        else find_pcb n a src dest (u_next p) pcb uncon_pcb
  end.

(** The block the datagram is for, or NULL. *)
Definition udp_demux (a : arrival) (src dest : Z) : M udp_mod Z :=
  n ← pcb_fuel;
  first ← gets udp_pcbs;
  '(pcb, uncon_pcb) ← find_pcb n a src dest first NULL NULL;
  mret (if pcb =? NULL then uncon_pcb else pcb).
End udp.

Arguments udp_mod : clear implicits.
