(* ===== verification/UdpPcbThm.v ===== *)
(** The blocks of UDP as their users see them: the list of bound blocks and the pool
    stay in order, no two blocks answer to the same address and port, and a
    datagram goes to the block it is for. *)
From stdpp Require Import base tactics numbers list gmap.
From S2P Require Import Prelude Words Def Ip4Addr Memp PbufMem Net UdpPcb.

#[export] Instance udp_pcb_inhabited : Inhabited udp_pcb := populate new_pcb.

(** ** The list *)

Fixpoint linked (m : gmap Z udp_pcb) (q : Z) (l : list Z) : Prop :=
  match l with
  | [] => q = NULL
  | x :: l => q = x ∧ x ≠ NULL ∧ is_Some (m !! x) ∧ linked m (u_next (m !!! x)) l
  end.

Lemma linked_frame m m' q l :
  (∀ x, x ∈ l → is_Some (m !! x) → is_Some (m' !! x) ∧ u_next (m' !!! x) = u_next (m !!! x)) → linked m q l → linked m' q l.
Proof.
  revert q. induction l as [|x l IH]; intros q Hsame; simpl; [done|]. intros (-> & Hx & Hm & Hl).
  destruct (Hsame x) as [Hm' En]; [by left|done|]. split_and!; [done..|]. rewrite En. apply IH; [|done]. intros y Hy. apply Hsame. by right.
Qed.

Lemma linked_some m q l x : linked m q l → x ∈ l → is_Some (m !! x) ∧ x ≠ NULL.
Proof.
  revert q. induction l as [|y l IH]; intros q; simpl; [by intros _ ?%elem_of_nil|].
  intros (_ & Hy & Hm & Hl) [->|Hx]%elem_of_cons; [done|by eapply IH].
Qed.

Lemma linked_size m q l : linked m q l → NoDup l → (length l ≤ size m)%nat.
Proof.
  intros Hl Hnd. rewrite <-size_dom, <-(size_list_to_set (C := gset Z) l) by done.
  apply subseteq_size. intros x Hx%elem_of_list_to_set. apply elem_of_dom. by eapply linked_some.
Qed.

Lemma linked_app m q l1 x l2 : linked m q (l1 ++ x :: l2) → linked m x (x :: l2).
Proof. revert q. induction l1 as [|y l1 IH]; intros q; simpl; [by intros (-> & ? & ? & ?)|]. intros (_ & _ & _ & Hl). by eapply IH. Qed.

Lemma insert_total (m : gmap Z udp_pcb) x p : <[x := p]> m !!! x = p.
Proof. apply lookup_total_insert_eq. Qed.
Lemma insert_total_ne (m : gmap Z udp_pcb) x y p : x ≠ y → <[x := p]> m !!! y = m !!! y.
Proof. apply lookup_total_insert_ne. Qed.

(** The block after [y] is taken out. *)
Lemma linked_unlink m q l1 y x l2 :
  linked m q (l1 ++ y :: x :: l2) → NoDup (l1 ++ y :: x :: l2) →
  linked (<[y := set_u_next (u_next (m !!! x)) (m !!! y)]> m) q (l1 ++ y :: l2).
Proof.
  revert q. induction l1 as [|z l1 IH]; intros q; simpl.
  - intros (-> & Hy & Hm & <- & Hx & Hmx & Hl) Hnd. split_and!; [done|done|by rewrite lookup_insert_eq|]. rewrite insert_total. simpl.
    eapply linked_frame; [|exact Hl]. intros w Hw Hmw. assert (y ≠ w) as Hne by (intros ->; apply NoDup_cons in Hnd as [Hni _]; set_solver).
    by rewrite lookup_insert_ne, insert_total_ne.
  - intros (-> & Hz & Hm & Hl) [Hni Hnd]%NoDup_cons. assert (y ≠ z) as Hne by (intros ->; set_solver).
    rewrite lookup_insert_ne, insert_total_ne by done. split_and!; [done..|]. by apply IH.
Qed.

Lemma filter_ne (x : Z) (l : list Z) : x ∉ l → filter (λ y, y ≠ x) l = l.
Proof.
  induction l as [|y l IH]; [done|]. intros [Hy Hl]%not_elem_of_cons. rewrite filter_cons_True by auto. by rewrite IH.
Qed.

(** The addresses of the blocks. *)
Definition allocated (m : gmap Z udp_pcb) : list Z := base.elements (dom m).

Lemma allocated_update m x p : is_Some (m !! x) → allocated (<[x := p]> m) = allocated m.
Proof. intros [q Hq]. unfold allocated. rewrite dom_insert_lookup_L by done. done. Qed.

Lemma allocated_insert m x p : m !! x = None → allocated (<[x := p]> m) ≡ₚ x :: allocated m.
Proof. intros Hn. unfold allocated. rewrite dom_insert_L. apply elements_union_singleton. by apply not_elem_of_dom. Qed.

Lemma allocated_delete m x p : m !! x = Some p → allocated m ≡ₚ x :: allocated (delete x m).
Proof. intros Hp. rewrite <-(insert_delete_id m x p Hp) at 1. by rewrite allocated_insert by apply lookup_delete_eq. Qed.

Lemma elem_allocated m x : x ∈ allocated m ↔ is_Some (m !! x).
Proof. unfold allocated. by rewrite elem_of_elements, elem_of_dom. Qed.

Section udp_thm.
Context {PU : Type} `{PoolLaws PU}.
(** [EU]: the elements of MEMP_UDP_PCB. *)
Context (EU : list Z).
Class UdpLayout : Prop := {
  udp_nodup : NoDup EU;
  udp_elem x : x ∈ EU → pool_elem (P := PU) x;
  udp_few : Z.of_nat (length EU) ≤ UDP_LOCAL_PORT_RANGE_END - UDP_LOCAL_PORT_RANGE_START
}.
Context `{!UdpLayout}.

Notation udp_mod := (udp_mod PU).

(** Two blocks on the same port have addresses of their own. *)
Definition apart (p q : udp_pcb) : Prop :=
  u_local_port p = u_local_port q → u_local_ip p ≠ IPADDR_ANY ∧ u_local_ip q ≠ IPADDR_ANY ∧ u_local_ip p ≠ u_local_ip q.

(** [l]: the bound blocks, in the order of the list. *)
Record udp_ok (s : udp_mod) (l : list Z) : Prop := UdpOk {
  uo_link : linked (pcbs s) (udp_pcbs s) l;
  uo_nodup : NoDup l;
  uo_pool : ∃ free, pool_holds (pcb_pool s) free ∧ allocated (pcbs s) ++ free ≡ₚ EU;
  uo_bound x p : pcbs s !! x = Some p → (x ∈ l ↔ u_local_port p ≠ 0);
  uo_port x p : pcbs s !! x = Some p → 0 ≤ u_local_port p < 65536;
  uo_apart x y : x ∈ l → y ∈ l → x ≠ y → apart (pcbs s !!! x) (pcbs s !!! y);
  uo_last : UDP_LOCAL_PORT_RANGE_START ≤ udp_port s ≤ UDP_LOCAL_PORT_RANGE_END
}.

Lemma wp_rd_pcb x p (s : udp_mod) (Q : udp_pcb → udp_mod → Prop) : pcbs s !! x = Some p → Q p s → wp (rd_pcb x) Q s.
Proof. intros Hp HQ. apply wp_bind, wp_gets. by apply wp_of_option with p. Qed.

Lemma wp_wr_pcb x f p (s : udp_mod) (Q : unit → udp_mod → Prop) :
  pcbs s !! x = Some p → Q tt (set_pcbs <[x := f p]> s) → wp (wr_pcb x f) Q s.
Proof. intros Hp HQ. apply wp_bind, (wp_rd_pcb x p); [done|]. by apply wp_modify. Qed.

Lemma wp_any_pcb n f q l (s : udp_mod) (Q : bool → udp_mod → Prop) :
  linked (pcbs s) q l → (length l < n)%nat → Q (existsb (λ x, f x (pcbs s !!! x)) l) s → wp (any_pcb n f q) Q s.
Proof.
  revert n q. induction l as [|x l IH]; intros [|n] q Hl Hn HQ; simpl in Hn; try lia; cbn [any_pcb].
  - simpl in Hl. subst q. by apply wp_ret.
  - destruct Hl as (-> & Hx & [p Hp] & Hl). rewrite (proj2 (Z.eqb_neq x NULL)) by done.
    apply wp_bind, (wp_rd_pcb x p); [done|]. simpl in HQ. rewrite (lookup_total_correct _ _ _ Hp) in HQ, Hl.
    destruct (f x p); [by apply wp_ret|]. apply IH; [done|lia|done].
Qed.

Lemma pcb_nodup_size s l : udp_ok s l → (length l < S (size (pcbs s)))%nat.
Proof. intros [Hl Hn _ _ _ _ _]. rewrite Nat.lt_succ_r. by eapply linked_size. Qed.

Lemma wp_any_listed f l (s : udp_mod) (Q : bool → udp_mod → Prop) :
  udp_ok s l → Q (existsb (λ x, f x (pcbs s !!! x)) l) s → wp (any_listed f) Q s.
Proof.
  intros Ho HQ. apply wp_bind, wp_gets, wp_bind, wp_gets. apply (wp_any_pcb _ f _ l); [apply Ho|by apply pcb_nodup_size|done].
Qed.

Lemma existsb_false {A} (f : A → bool) l : existsb f l = false ↔ ∀ x, x ∈ l → f x = false.
Proof.
  induction l as [|y l IH]; simpl; [split; [by intros _ x ?%elem_of_nil|done]|]. rewrite orb_false_iff, IH. split.
  - intros [Hy Hl] x [->|Hx]%elem_of_cons; [done|by apply Hl].
  - intros Hl. split; [apply Hl; by left|]. intros x Hx. apply Hl. by right.
Qed.

Lemma existsb_true {A} (f : A → bool) l : existsb f l = true ↔ ∃ x, x ∈ l ∧ f x = true.
Proof. rewrite List.existsb_exists. split; intros (x & Hx & Hf); exists x; (split; [|done]); by apply list_elem_of_In. Qed.

Lemma is_pcb_listed pcb (s : udp_mod) l : existsb (λ x, is_pcb pcb x (pcbs s !!! x)) l = bool_decide (pcb ∈ l).
Proof.
  unfold is_pcb. case_bool_decide as Hin.
  - apply existsb_true. exists pcb. split; [done|apply Z.eqb_refl].
  - apply existsb_false. intros x Hx. apply Z.eqb_neq. by intros ->.
Qed.

(** ** Ports *)

(** The port [k] turns after [p]. *)
Definition cyc (p : Z) (k : nat) : Z :=
  UDP_LOCAL_PORT_RANGE_START + (p - UDP_LOCAL_PORT_RANGE_START + Z.of_nat k) mod 16384.

Lemma cyc_range p k : UDP_LOCAL_PORT_RANGE_START ≤ cyc p k ≤ UDP_LOCAL_PORT_RANGE_END.
Proof. unfold cyc, UDP_LOCAL_PORT_RANGE_END, UDP_LOCAL_PORT_RANGE_START. pose proof (Z.mod_pos_bound (p - 0xc000 + Z.of_nat k) 16384). lia. Qed.

Lemma cyc_inj p i j : Z.abs (Z.of_nat i - Z.of_nat j) < 16384 → cyc p i = cyc p j → i = j.
Proof.
  unfold cyc. generalize (p - UDP_LOCAL_PORT_RANGE_START). intros a Hij E%Z.add_cancel_l.
  pose proof (Z_div_mod_eq_full (a + Z.of_nat i) 16384). pose proof (Z_div_mod_eq_full (a + Z.of_nat j) 16384). lia.
Qed.

Lemma cyc_next p k :
  (if cyc p k =? UDP_LOCAL_PORT_RANGE_END then UDP_LOCAL_PORT_RANGE_START else u16 (cyc p k + 1)) = cyc p (S k).
Proof.
  pose proof (cyc_range p k) as Hr. unfold cyc, UDP_LOCAL_PORT_RANGE_END, UDP_LOCAL_PORT_RANGE_START, u16 in *.
  destruct (Z.eqb_spec (0xc000 + (p - 0xc000 + Z.of_nat k) mod 16384) 0xffff); Z.div_mod_to_equations; lia.
Qed.

(** At most as many turns as there are blocks on the list, and one. *)
Lemma wp_again p0 l (s0 : udp_mod) (Q : Z → udp_mod → Prop) :
  udp_ok s0 l → (Z.of_nat (length l) < 16384) →
  (∀ port, UDP_LOCAL_PORT_RANGE_START ≤ port ≤ UDP_LOCAL_PORT_RANGE_END → (∀ x, x ∈ l → u_local_port (pcbs s0 !!! x) ≠ port) →
    Q port (set_port port s0)) →
  ∀ k fuel (s : udp_mod), s = set_port (cyc p0 k) s0 → 16384 ≤ Z.of_nat (fuel + k) → (k ≤ length l)%nat →
    (∀ i, (1 ≤ i ≤ k)%nat → ∃ x, x ∈ l ∧ u_local_port (pcbs s0 !!! x) = cyc p0 i) →
    wp (again fuel (Z.of_nat k)) Q s.
Proof.
  intros Ho Hfew HQ k fuel. revert k. induction fuel as [|fuel IH]; intros k s -> Hfuel Hk Htried; [lia|]. cbn [again].
  apply wp_bind, wp_gets, wp_bind, wp_modify. cbn [set_port udp_port]. apply wp_bind.
  assert (∀ Q' : unit → udp_mod → Prop, Q' tt (set_port (cyc p0 (S k)) s0) →
    wp (when_ (cyc p0 k =? UDP_LOCAL_PORT_RANGE_END) (modify (set_port UDP_LOCAL_PORT_RANGE_START))) Q'
      (set_port (u16 (cyc p0 k + 1)) (set_port (cyc p0 k) s0))) as Hstep.
  { intros Q' HQ'. rewrite <-cyc_next in HQ'. destruct (_ =? _); cbn [when_]; [by apply wp_modify|by apply wp_ret]. }
  apply Hstep. clear Hstep. apply wp_bind, wp_gets. cbn [set_port udp_port]. set (port := cyc p0 (S k)).
  assert (udp_ok (set_port port s0) l) as Ho1.
  { destruct Ho as [? ? ? ? ? ? _]. split; try done. apply cyc_range. }
  apply wp_bind, (wp_any_listed _ l); [done|]. cbn [set_port pcbs]. unfold port_taken.
  destruct (existsb _ l) eqn:E.
  - apply existsb_true in E as (x & Hx & Ex%Z.eqb_eq).
    assert (S k ≤ length l)%nat as Hk'.
    { assert (NoDup (cyc p0 <$> seq 1 (S k))) as Hnd.
      { apply NoDup_fmap_2_strong; [|apply NoDup_seq]. intros i j Hi%elem_of_seq Hj%elem_of_seq. apply cyc_inj; lia. }
      rewrite <-(length_fmap (λ x, u_local_port (pcbs s0 !!! x)) l). rewrite <-(length_seq (S k) 1), <-(length_fmap (cyc p0)).
      apply submseteq_length, NoDup_submseteq; [done|]. intros c (i & -> & Hi%elem_of_seq)%list_elem_of_fmap.
      apply list_elem_of_fmap. destruct (decide (i = S k)) as [->|]; [by exists x|]. destruct (Htried i) as (y & Hy & Ey); [lia|]. by exists y. }
    unfold UDP_LOCAL_PORT_RANGE_END, UDP_LOCAL_PORT_RANGE_START. rewrite u16_id by lia. rewrite (proj2 (Z.ltb_ge _ _)) by lia.
    replace (Z.of_nat k + 1) with (Z.of_nat (S k)) by lia. apply IH; [done|lia|done|].
    intros i Hi. destruct (decide (i = S k)) as [->|]; [|apply Htried; lia]. by exists x.
  - apply wp_ret. apply HQ; [apply cyc_range|]. intros x Hx Ex. apply (proj1 (existsb_false _ _) E) in Hx. apply Z.eqb_neq in Hx. done.
Qed.
Lemma wp_udp_new_port l (s : udp_mod) (Q : Z → udp_mod → Prop) :
  udp_ok s l → Z.of_nat (length l) < 16384 →
  (∀ port, UDP_LOCAL_PORT_RANGE_START ≤ port ≤ UDP_LOCAL_PORT_RANGE_END → (∀ x, x ∈ l → u_local_port (pcbs s !!! x) ≠ port) →
    Q port (set_port port s)) →
  wp udp_new_port Q s.
Proof.
  intros Ho Hfew HQ. unfold udp_new_port. change 0 with (Z.of_nat 0). apply (wp_again (udp_port s) l s); try done.
  - destruct (uo_last _ _ Ho) as [Hlo Hhi]. unfold cyc. rewrite Z.add_0_r.
    unfold UDP_LOCAL_PORT_RANGE_START, UDP_LOCAL_PORT_RANGE_END in *. rewrite Z.mod_small by lia.
    rewrite Z.add_comm, Z.sub_add. by destruct s.
  - lia.
  - lia.
Qed.

Lemma pcb_nonnull s l x : udp_ok s l → is_Some (pcbs s !! x) → x ≠ NULL ∧ x ∈ EU.
Proof.
  intros Ho Hx. destruct (uo_pool _ _ Ho) as (free & _ & E). assert (x ∈ EU) as Hin by (rewrite <-E; apply elem_of_app; left; by apply elem_allocated).
  split; [|done]. apply pool_elem_nonnull. by apply udp_elem.
Qed.

Lemma listed_few s l : udp_ok s l → Z.of_nat (length l) < 16384.
Proof.
  intros Ho. pose proof udp_few as Hf. unfold UDP_LOCAL_PORT_RANGE_END, UDP_LOCAL_PORT_RANGE_START in Hf.
  enough (length l ≤ length EU)%nat by lia. apply submseteq_length, NoDup_submseteq; [apply Ho|]. intros x Hx.
  apply (pcb_nonnull s l); [done|]. eapply linked_some; [apply Ho|done].
Qed.

(** ** Changes of one block *)

(** A block that keeps its place and its local end. *)
Lemma udp_ok_update x f p s l :
  udp_ok s l → pcbs s !! x = Some p → u_next (f p) = u_next p → u_local_ip (f p) = u_local_ip p → u_local_port (f p) = u_local_port p →
  udp_ok (set_pcbs <[x := f p]> s) l.
Proof.
  intros [Hl Hn Hp Hb Hr Ha Hu] Hx En Ei Ep. pose proof (lookup_total_correct _ _ _ Hx) as Et.
  assert (∀ y, u_local_ip (<[x := f p]> (pcbs s) !!! y) = u_local_ip (pcbs s !!! y) ∧ u_local_port (<[x := f p]> (pcbs s) !!! y) = u_local_port (pcbs s !!! y)) as Hsame.
  { intros y. destruct (decide (x = y)) as [->|Hne]; [by rewrite insert_total, Et|by rewrite insert_total_ne]. }
  split; cbn [set_pcbs pcbs udp_pcbs pcb_pool udp_port]; try done.
  - eapply linked_frame; [|exact Hl]. intros y _ Hy. destruct (decide (x = y)) as [->|Hne].
    + by rewrite lookup_insert_eq, insert_total, Et.
    + by rewrite lookup_insert_ne, insert_total_ne.
  - rewrite allocated_update by done. done.
  - intros y q. destruct (decide (x = y)) as [->|Hne]; [rewrite lookup_insert_eq; intros [= <-]; rewrite Ep|rewrite lookup_insert_ne by done]; by apply Hb.
  - intros y q. destruct (decide (x = y)) as [->|Hne]; [rewrite lookup_insert_eq; intros [= <-]; rewrite Ep; by apply (Hr y)|rewrite lookup_insert_ne by done; by apply Hr].
  - intros y z Hy Hz Hne. unfold apart. destruct (Hsame y) as [-> ->], (Hsame z) as [-> ->]. by apply Ha.
Qed.

Lemma apart_sym p q : apart p q → apart q p.
Proof. unfold apart. intros Ha E. destruct (Ha (eq_sym E)) as (? & ? & ?). split_and!; congruence. Qed.

(** A block with a local end goes to the list, if it is not there. *)
Definition enlist (x : Z) (l : list Z) : list Z := if decide (x ∈ l) then l else x :: l.
Definition enlisted (x : Z) (l : list Z) (q : udp_pcb) (s : udp_mod) : udp_mod :=
  if decide (x ∈ l) then set_pcbs <[x := q]> s else set_first x (set_pcbs <[x := set_u_next (udp_pcbs s) q]> s).

Lemma elem_enlist x y l : y ∈ enlist x l ↔ y = x ∨ y ∈ l.
Proof. unfold enlist. destruct (decide (x ∈ l)); set_solver. Qed.

Lemma enlisted_lookup x l q s y : y ≠ x → pcbs (enlisted x l q s) !! y = pcbs s !! y.
Proof. intros Hne. unfold enlisted. destruct (decide (x ∈ l)); cbn [set_first set_pcbs pcbs]; by rewrite lookup_insert_ne. Qed.

Lemma enlisted_self x l q s :
  ∃ q', pcbs (enlisted x l q s) !! x = Some q' ∧ u_local_ip q' = u_local_ip q ∧ u_local_port q' = u_local_port q ∧
    u_remote_ip q' = u_remote_ip q ∧ u_remote_port q' = u_remote_port q ∧ u_flags q' = u_flags q ∧ u_recv q' = u_recv q ∧ u_recv_arg q' = u_recv_arg q.
Proof. unfold enlisted. destruct (decide (x ∈ l)); cbn [set_first set_pcbs pcbs]; rewrite lookup_insert_eq; by eexists. Qed.

Lemma udp_ok_enlisted x p q s l :
  udp_ok s l → pcbs s !! x = Some p → u_next q = u_next p → 0 < u_local_port q < 65536 →
  (∀ y, y ∈ l → y ≠ x → apart q (pcbs s !!! y)) → udp_ok (enlisted x l q s) (enlist x l).
Proof.
  intros Ho Hx En Hport Hap. destruct (pcb_nonnull s l x Ho) as [Hnn _]; [done|].
  destruct (enlisted_self x l q s) as (q' & Hq' & Ei & Ep & _). pose proof (lookup_total_correct _ _ _ Hq') as Et'.
  assert (∀ y, y ≠ x → pcbs (enlisted x l q s) !!! y = pcbs s !!! y) as Hother.
  { intros y Hne. rewrite !lookup_total_alt. by rewrite enlisted_lookup. }
  assert (pcb_pool (enlisted x l q s) = pcb_pool s ∧ udp_port (enlisted x l q s) = udp_port s ∧ allocated (pcbs (enlisted x l q s)) = allocated (pcbs s)) as (Epool & Eport & Ealloc).
  { unfold enlisted. destruct (decide (x ∈ l)); cbn [set_first set_pcbs pcbs pcb_pool udp_port]; by rewrite allocated_update. }
  destruct Ho as [Hl Hn Hp Hb Hr Ha Hu]. split.
  - unfold enlisted, enlist. destruct (decide (x ∈ l)) as [Hin|Hni]; cbn [set_first set_pcbs pcbs udp_pcbs].
    + eapply linked_frame; [|exact Hl]. intros y _ Hy. destruct (decide (x = y)) as [->|Hne].
      * by rewrite lookup_insert_eq, insert_total, (lookup_total_correct _ _ _ Hx).
      * by rewrite lookup_insert_ne, insert_total_ne.
    + split_and!; [done|done|by rewrite lookup_insert_eq|]. rewrite insert_total. cbn [set_u_next u_next].
      eapply linked_frame; [|exact Hl]. intros y Hy Hy'. assert (x ≠ y) as Hne by (intros ->; done). by rewrite lookup_insert_ne, insert_total_ne.
  - unfold enlist. destruct (decide (x ∈ l)); [done|by apply NoDup_cons].
  - rewrite Epool, Ealloc. done.
  - intros y r. rewrite elem_enlist. destruct (decide (y = x)) as [->|Hne].
    + rewrite Hq'. intros [= <-]. rewrite Ep. split; [lia|by left].
    + rewrite enlisted_lookup by done. intros Hy. rewrite <-(Hb y r Hy). split; [by intros [->|Hin]|by right].
  - intros y r. destruct (decide (y = x)) as [->|Hne]; [rewrite Hq'; intros [= <-]; rewrite Ep; lia|rewrite enlisted_lookup by done; by apply Hr].
  - assert (∀ y, y ∈ l → y ≠ x → apart q' (pcbs s !!! y)) as Hap'.
    { intros y Hy Hne. unfold apart. rewrite Ei, Ep. by apply Hap. }
    intros y z [->|Hy]%elem_enlist [->|Hz]%elem_enlist Hne; [done|..].
    + rewrite Et', Hother by done. by apply Hap'.
    + rewrite Et', Hother by done. by apply apart_sym, Hap'.
    + destruct (decide (y = x)) as [->|Hyx]; [rewrite Et', Hother by done; by apply Hap'|].
      destruct (decide (z = x)) as [->|Hzx]; [rewrite Et', Hother by done; by apply apart_sym, Hap'|]. rewrite !Hother by done. by apply Ha.
  - by rewrite Eport.
Qed.

Lemma wp_put_unless x l q (s : udp_mod) (Q : unit → udp_mod → Prop) :
  pcbs s !! x = Some q → Q tt (enlisted x l q s) → wp (when_ (negb (bool_decide (x ∈ l))) (put_first x)) Q s.
Proof.
  intros Hx HQ. unfold enlisted in HQ. case_bool_decide as Hin; cbn [negb when_].
  - rewrite decide_True in HQ by done. apply wp_ret. unfold set_pcbs in HQ. rewrite insert_id in HQ by done. by destruct s.
  - rewrite decide_False in HQ by done. apply wp_bind, wp_gets, wp_bind, (wp_wr_pcb x _ q); [done|]. by apply wp_modify.
Qed.
Lemma enlisted_again x l q q' s : enlisted x l q (set_pcbs <[x := q']> s) = enlisted x l q s.
Proof. unfold enlisted, set_first, set_pcbs. destruct (decide (x ∈ l)); cbn; by rewrite insert_insert_eq. Qed.

(** ** Binding *)

(** Another block has the port, for the address or for all. *)
Definition port_in_use (s : udp_mod) (l : list Z) (x ip port : Z) : Prop :=
  ∃ y, y ∈ l ∧ y ≠ x ∧ u_local_port (pcbs s !!! y) = port ∧
    (u_local_ip (pcbs s !!! y) = ip ∨ ip = IPADDR_ANY ∨ u_local_ip (pcbs s !!! y) = IPADDR_ANY).

Lemma port_in_use_spec s l x ip port :
  existsb (λ y, bound_already x ip port y (pcbs s !!! y)) l = true ↔ port_in_use s l x ip port.
Proof.
  rewrite existsb_true. unfold port_in_use, bound_already, ip4_addr_isany_val. split; intros (y & Hy & Hb); exists y; (split; [done|]).
  - apply andb_true_iff in Hb as [[Hne%negb_true_iff%Z.eqb_neq Hp%Z.eqb_eq]%andb_true_iff Ha]. split_and!; [done|done|].
    apply orb_true_iff in Ha as [[Ha|Ha]%orb_true_iff|Ha]; apply Z.eqb_eq in Ha; tauto.
  - destruct Hb as (Hne & Hp & Ha). rewrite !andb_true_iff, negb_true_iff, Z.eqb_neq, Z.eqb_eq, !orb_true_iff, !Z.eqb_eq. split; [done|tauto].
Qed.

Lemma free_apart s l x ip port p :
  ¬ port_in_use s l x ip port → ∀ y, y ∈ l → y ≠ x → apart (set_u_local ip port p) (pcbs s !!! y).
Proof.
  intros Hn y Hy Hne Ep. cbn [set_u_local u_local_port u_local_ip] in *. destruct (decide (ip = IPADDR_ANY)) as [|Hi].
  { destruct Hn. exists y. split_and!; auto. }
  destruct (decide (u_local_ip (pcbs s !!! y) = IPADDR_ANY)) as [|Hj].
  { destruct Hn. exists y. split_and!; auto. }
  split_and!; [done|done|]. intros E. destruct Hn. exists y. split_and!; auto.
Qed.

(** What port a block gets, and in which state. *)
Definition bound_to (s : udp_mod) (l : list Z) (x ip port port' : Z) (s1 : udp_mod) : Prop :=
  (port ≠ 0 ∧ port' = port ∧ s1 = s ∧ ¬ port_in_use s l x ip port) ∨
  (port = 0 ∧ UDP_LOCAL_PORT_RANGE_START ≤ port' ≤ UDP_LOCAL_PORT_RANGE_END ∧ s1 = set_port port' s ∧
    ∀ y, y ∈ l → u_local_port (pcbs s !!! y) ≠ port').

Lemma udp_ok_port s l port : udp_ok s l → UDP_LOCAL_PORT_RANGE_START ≤ port ≤ UDP_LOCAL_PORT_RANGE_END → udp_ok (set_port port s) l.
Proof. intros [? ? ? ? ? ? ?] Hp. by split. Qed.

Lemma wp_udp_bind x ipaddr port p l (s : udp_mod) (Q : Z → udp_mod → Prop) :
  let ip := default IPADDR_ANY ipaddr in
  udp_ok s l → pcbs s !! x = Some p → 0 ≤ port < 65536 →
  (port ≠ 0 → port_in_use s l x ip port → Q ERR_USE s) →
  (∀ port' s1, bound_to s l x ip port port' s1 → udp_ok (enlisted x l (set_u_local ip port' p) s1) (enlist x l) →
    Q ERR_OK (enlisted x l (set_u_local ip port' p) s1)) →
  wp (udp_bind x ipaddr port) Q s.
Proof.
  intros ip Ho Hx Hport Hno Hyes. destruct (pcb_nonnull s l x Ho) as [Hnn _]; [done|].
  unfold udp_bind. fold ip. rewrite (proj2 (Z.eqb_neq x NULL)) by done.
  apply wp_bind, (wp_any_listed _ l); [done|]. rewrite is_pcb_listed.
  assert (∀ port' s1, bound_to s l x ip port port' s1 →
    wp (wr_pcb x (set_u_local ip port');; when_ (negb (bool_decide (x ∈ l))) (put_first x);; mret ERR_OK) Q s1) as Hgo.
  { intros port' s1 Hb.
    assert (udp_ok s1 l ∧ pcbs s1 = pcbs s ∧ 0 < port' < 65536 ∧ ¬ port_in_use s l x ip port') as (Ho1 & Epcbs & Hr & Hfree).
    { destruct Hb as [(Hp0 & -> & -> & Hf)|(-> & Hr & -> & Hf)].
      - split_and!; (done || lia).
      - split; [by apply udp_ok_port|]. split; [done|]. unfold UDP_LOCAL_PORT_RANGE_START, UDP_LOCAL_PORT_RANGE_END in Hr. split; [lia|]. intros (y & Hy & _ & Ey & _). by apply (Hf y). }
    apply wp_bind, (wp_wr_pcb x _ p); [by rewrite Epcbs|].
    apply wp_bind, (wp_put_unless x l (set_u_local ip port' p)); [cbn; apply lookup_insert_eq|]. apply wp_ret. rewrite enlisted_again.
    apply (Hyes port' s1); [done|]. apply udp_ok_enlisted with p; [done|by rewrite Epcbs|done|done|]. rewrite Epcbs. by apply free_apart. }
  apply wp_bind. destruct (Z.eqb_spec port 0) as [E0|Hp0].
  - apply wp_bind, (wp_udp_new_port l); [done|by eapply listed_few|]. intros port' Hr Hfree.
    rewrite (proj2 (Z.eqb_neq port' 0)) by (unfold UDP_LOCAL_PORT_RANGE_START in Hr; lia).
    apply wp_ret, Hgo. right. done.
  - apply wp_bind, (wp_any_listed _ l); [done|]. destruct (existsb _ l) eqn:E.
    + apply wp_ret, wp_ret, Hno; [done|]. by apply port_in_use_spec.
    + apply wp_ret, Hgo. left. split_and!; [done..|]. intros Hu%port_in_use_spec. congruence.
Qed.
(** ** The other calls *)

Lemma wp_udp_connect x ipaddr port p l (s : udp_mod) (Q : Z → udp_mod → Prop) :
  udp_ok s l → pcbs s !! x = Some p →
  (∀ s' l', (l' = l ∧ x ∈ l ∧ s' = set_pcbs <[x := set_u_flags (Z.lor (u_flags p) UDP_FLAGS_CONNECTED) (set_u_remote ipaddr port p)]> s) ∨
      (∃ port' s1 q, l' = x :: l ∧ x ∉ l ∧ bound_to s l x (u_local_ip p) 0 port' s1 ∧
        pcbs (enlisted x l (set_u_local (u_local_ip p) port' p) s1) !! x = Some q ∧
        s' = set_pcbs <[x := set_u_flags (Z.lor (u_flags q) UDP_FLAGS_CONNECTED) (set_u_remote ipaddr port q)]>
               (enlisted x l (set_u_local (u_local_ip p) port' p) s1)) →
    udp_ok s' l' → Q ERR_OK s') →
  wp (udp_connect x (Some ipaddr) port) Q s.
Proof.
  intros Ho Hx HQ. destruct (pcb_nonnull s l x Ho) as [Hnn _]; [done|]. unfold udp_connect. rewrite (proj2 (Z.eqb_neq x NULL)) by done.
  apply wp_bind, (wp_rd_pcb x p); [done|]. apply wp_bind.
  assert (∀ q l2 (s2 : udp_mod), udp_ok s2 l2 → x ∈ l2 → pcbs s2 !! x = Some q →
    (let s3 := set_pcbs <[x := set_u_flags (Z.lor (u_flags q) UDP_FLAGS_CONNECTED) (set_u_remote ipaddr port q)]> s2 in
     udp_ok s3 l2 → Q ERR_OK s3) →
    wp (if negb (ERR_OK =? ERR_OK) then mret ERR_OK
        else wr_pcb x (set_u_remote ipaddr port);; wr_pcb x (λ p, set_u_flags (Z.lor (u_flags p) UDP_FLAGS_CONNECTED) p);;
          b ← any_listed (is_pcb x); when_ (negb b) (put_first x);; mret ERR_OK) Q s2) as Hrest.
  { intros q l2 s2 Ho2 Hin Hq Hend. cbn [negb Z.eqb ERR_OK]. apply wp_bind, (wp_wr_pcb x _ q); [done|].
    apply wp_bind, (wp_wr_pcb x _ (set_u_remote ipaddr port q)); [cbn; apply lookup_insert_eq|].
    set (r := set_u_flags _ _). assert (set_pcbs <[x := r]> (set_pcbs <[x := set_u_remote ipaddr port q]> s2) = set_pcbs <[x := r]> s2) as ->.
    { unfold set_pcbs. cbn. by rewrite insert_insert_eq. }
    assert (udp_ok (set_pcbs <[x := r]> s2) l2) as Ho3.
    { apply (udp_ok_update x (λ p, set_u_flags (Z.lor (u_flags p) UDP_FLAGS_CONNECTED) (set_u_remote ipaddr port p)) q); done. }
    apply wp_bind, (wp_any_listed _ l2); [done|]. rewrite is_pcb_listed, bool_decide_true by done. cbn [negb when_].
    apply wp_bind, wp_ret, wp_ret. by apply Hend. }
  destruct (Z.eqb_spec (u_local_port p) 0) as [E|E].
  - apply (wp_udp_bind x (Some (u_local_ip p)) _ p l); [done|done|lia|by rewrite E|]. rewrite E. cbn [default]. intros port' s1 Hb Ho1.
    assert (x ∉ l) as Hni by (intros Hin; by apply (uo_bound _ _ Ho x p Hx) in Hin).
    destruct (enlisted_self x l (set_u_local (u_local_ip p) port' p) s1) as (q & Hq & _).
    apply (Hrest q (enlist x l)); [done|apply elem_enlist; by left|done|]. intros s3 Ho3. apply (HQ s3 (enlist x l)); [right|done].
    exists port', s1, q. unfold enlist. rewrite decide_False by done. done.
  - apply wp_ret, (Hrest p l); [done|by apply (uo_bound _ _ Ho x p)|done|]. intros s3 Ho3. apply (HQ s3 l); [left|done].
    split_and!; [done| |done]. by apply (uo_bound _ _ Ho x p).
Qed.

Lemma wp_udp_disconnect x p l (s : udp_mod) (Q : unit → udp_mod → Prop) :
  udp_ok s l → pcbs s !! x = Some p →
  (let s' := set_pcbs <[x := set_u_flags (Z.land (u_flags p) 0xfb) (set_u_netif_idx NETIF_NO_INDEX (set_u_remote IPADDR_ANY 0 p))]> s in
   udp_ok s' l → Q tt s') →
  wp (udp_disconnect x) Q s.
Proof.
  intros Ho Hx HQ. destruct (pcb_nonnull s l x Ho) as [Hnn _]; [done|]. unfold udp_disconnect. rewrite (proj2 (Z.eqb_neq x NULL)) by done.
  apply wp_bind, (wp_wr_pcb x _ p); [done|]. apply wp_bind, (wp_wr_pcb x _ (set_u_remote IPADDR_ANY 0 p)); [cbn; apply lookup_insert_eq|].
  eapply wp_wr_pcb; [cbn; apply lookup_insert_eq|]. unfold set_pcbs in *. cbn [pcbs udp_port udp_pcbs pcb_pool] in *. rewrite !insert_insert_eq.
  apply HQ. by apply (udp_ok_update x (λ p, set_u_flags (Z.land (u_flags p) 0xfb) (set_u_netif_idx NETIF_NO_INDEX (set_u_remote IPADDR_ANY 0 p))) p).
Qed.

Lemma wp_udp_recv x f arg p l (s : udp_mod) (Q : unit → udp_mod → Prop) :
  udp_ok s l → pcbs s !! x = Some p → (udp_ok (set_pcbs <[x := set_u_recv f arg p]> s) l → Q tt (set_pcbs <[x := set_u_recv f arg p]> s)) →
  wp (udp_recv x f arg) Q s.
Proof.
  intros Ho Hx HQ. destruct (pcb_nonnull s l x Ho) as [Hnn _]; [done|]. unfold udp_recv. rewrite (proj2 (Z.eqb_neq x NULL)) by done.
  apply (wp_wr_pcb x _ p); [done|]. apply HQ. by apply udp_ok_update.
Qed.

Lemma wp_udp_bind_netif x i p l (s : udp_mod) (Q : unit → udp_mod → Prop) :
  udp_ok s l → pcbs s !! x = Some p →
  (let s' := set_pcbs <[x := set_u_netif_idx (default NETIF_NO_INDEX i) p]> s in udp_ok s' l → Q tt s') → wp (udp_bind_netif x i) Q s.
Proof. intros Ho Hx HQ. apply (wp_wr_pcb x _ p); [done|]. apply HQ. by apply udp_ok_update. Qed.

(** ** Links *)

(** The blocks are the same but for the links. *)
Definition relinked (m m' : gmap Z udp_pcb) : Prop :=
  dom m' = dom m ∧ ∀ y, m' !!! y = set_u_next (u_next (m' !!! y)) (m !!! y).

Lemma relinked_refl m : relinked m m.
Proof. split; [done|]. intros y. by destruct (m !!! y). Qed.

Lemma relinked_insert m m' x q : relinked m m' → is_Some (m' !! x) → relinked m (<[x := set_u_next q (m' !!! x)]> m').
Proof.
  intros [Hd Hm] [p Hp]. split; [by rewrite dom_insert_lookup_L|]. intros y. destruct (decide (x = y)) as [->|Hne].
  - rewrite insert_total. by rewrite (Hm y) at 1.
  - rewrite insert_total_ne by done. apply Hm.
Qed.

Lemma relinked_some m m' y p : relinked m m' → m' !! y = Some p → ∃ p0, m !! y = Some p0 ∧ p = set_u_next (u_next p) p0.
Proof.
  intros [Hd Hm] Hp. assert (is_Some (m !! y)) as [p0 Hp0] by (apply elem_of_dom; rewrite <-Hd; apply elem_of_dom; by exists p).
  exists p0. split; [done|]. specialize (Hm y). by rewrite (lookup_total_correct _ _ _ Hp), (lookup_total_correct _ _ _ Hp0) in Hm.
Qed.

Lemma relinked_apart m m' y z : relinked m m' → apart (m !!! y) (m !!! z) → apart (m' !!! y) (m' !!! z).
Proof. intros [_ Hm]. rewrite (Hm y), (Hm z). done. Qed.

Lemma udp_ok_relinked s l q' m' l' :
  udp_ok s l → relinked (pcbs s) m' → linked m' q' l' → l' ≡ₚ l → udp_ok (set_first q' (set_pcbs (λ _, m') s)) l'.
Proof.
  intros [Hl Hn Hp Hb Hr Ha Hu] Hrel Hl' El. split; cbn [set_first set_pcbs pcbs udp_pcbs pcb_pool udp_port]; try done.
  - by rewrite El.
  - unfold allocated. by rewrite (proj1 Hrel).
  - intros y p' Hy. destruct (relinked_some _ _ _ _ Hrel Hy) as (p0 & Hp0 & ->). cbn. rewrite <-(Hb y p0 Hp0). by rewrite El.
  - intros y p' Hy. destruct (relinked_some _ _ _ _ Hrel Hy) as (p0 & Hp0 & ->). cbn. by apply (Hr y p0).
  - intros y z Hy Hz Hne. eapply relinked_apart; [done|]. by apply Ha; [rewrite <-El..|].
Qed.

(** ** Removing and creating *)

Lemma wp_unlink_pcb x n q k (s : udp_mod) (Q : unit → udp_mod → Prop) :
  linked (pcbs s) q k → (length k < n)%nat → q ≠ x → x ≠ NULL → is_Some (pcbs s !! x) →
  (∀ k1 y k2, k = k1 ++ y :: x :: k2 → Q tt (set_pcbs <[y := set_u_next (u_next (pcbs s !!! x)) (pcbs s !!! y)]> s)) → (x ∉ k → Q tt s) →
  wp (unlink_pcb n q x) Q s.
Proof.
  revert n q. induction k as [|z k IH]; intros [|n] q Hl Hn Hq Hx [p Hp] Hin Hout; simpl in Hn; try lia; cbn [unlink_pcb].
  - simpl in Hl. subst q. apply wp_ret, Hout. by apply not_elem_of_nil.
  - destruct Hl as (-> & Hz & [pz Hpz] & Hl). rewrite (proj2 (Z.eqb_neq z NULL)) by done. apply wp_bind, (wp_rd_pcb z pz); [done|].
    rewrite (lookup_total_correct _ _ _ Hpz) in Hl. destruct (Z.eqb_spec (u_next pz) x) as [E|E].
    + rewrite E, (proj2 (Z.eqb_neq x NULL)) by done. cbn [negb andb]. apply wp_bind, (wp_rd_pcb x p); [done|]. apply (wp_wr_pcb z _ pz); [done|].
      destruct k as [|w k]; [simpl in Hl; congruence|]. destruct Hl as [Ew _]. assert (w = x) as -> by congruence.
      specialize (Hin [] z k eq_refl). by rewrite (lookup_total_correct _ _ _ Hpz), (lookup_total_correct _ _ _ Hp) in Hin.
    + rewrite andb_false_r. apply IH; [done|lia|done|done|by exists p| |].
      * intros k1 y k2 ->. by apply (Hin (z :: k1) y k2).
      * intros Hni. apply Hout. intros [->|?]%elem_of_cons; done.
Qed.

Lemma udp_ok_removed x p s l q' m' l' pool' free :
  udp_ok s l → pcbs s !! x = Some p → relinked (pcbs s) m' → linked m' q' l' → NoDup l' → (∀ y, y ∈ l' ↔ y ∈ l ∧ y ≠ x) →
  pool_holds (pcb_pool s) free → allocated (pcbs s) ++ free ≡ₚ EU → pool_holds pool' (x :: free) →
  udp_ok (UdpMod (udp_port s) q' (delete x m') pool') l'.
Proof.
  intros [Hl Hn _ Hb Hr Ha Hu] Hx Hrel Hl' Hnd Hel _ E Hf'.
  assert (∀ y, y ≠ x → delete x m' !!! y = m' !!! y) as Htot by (intros y Hne; by rewrite lookup_total_delete_ne).
  split; cbn [pcbs udp_pcbs pcb_pool udp_port]; try done.
  - eapply linked_frame; [|exact Hl']. intros y [_ Hne]%Hel Hy. rewrite lookup_delete_ne, Htot by done. done.
  - exists (x :: free). split; [done|]. rewrite <-E.
    assert (is_Some (m' !! x)) as [p' Hp'] by (apply elem_of_dom; rewrite (proj1 Hrel); apply elem_of_dom; by exists p).
    assert (allocated (pcbs s) = allocated m') as -> by (unfold allocated; by rewrite (proj1 Hrel)).
    rewrite (allocated_delete m' x p' Hp'). simpl. by rewrite Permutation_middle.
  - intros y p' [Hne Hy]%lookup_delete_Some. destruct (relinked_some _ _ _ _ Hrel Hy) as (p0 & Hp0 & ->). cbn. rewrite <-(Hb y p0 Hp0), Hel. naive_solver.
  - intros y p' [_ Hy]%lookup_delete_Some. destruct (relinked_some _ _ _ _ Hrel Hy) as (p0 & Hp0 & ->). cbn. by apply (Hr y p0).
  - intros y z [Hy Hyx]%Hel [Hz Hzx]%Hel Hne. rewrite !Htot by done. eapply relinked_apart; [done|]. by apply Ha.
Qed.

Lemma wp_udp_remove x p l (s : udp_mod) (Q : unit → udp_mod → Prop) :
  udp_ok s l → pcbs s !! x = Some p →
  (∀ s' m' l', pcbs s' = delete x m' → relinked (pcbs s) m' → l' = filter (λ y, y ≠ x) l → udp_ok s' l' → Q tt s') →
  wp (udp_remove x) Q s.
Proof.
  intros Ho Hx HQ. destruct (pcb_nonnull s l x Ho) as [Hnn Hxe]; [done|]. unfold udp_remove. rewrite (proj2 (Z.eqb_neq x NULL)) by done.
  apply wp_bind, wp_gets. apply wp_bind. destruct (uo_pool _ _ Ho) as (free & Hf & E).
  assert (∀ q' m', relinked (pcbs s) m' → linked m' q' (filter (λ y, y ≠ x) l) →
    wp (modify (set_pcbs (delete x));; zoom pcb_pool set_pcb_pool (pool_free x)) Q (set_first q' (set_pcbs (λ _, m') s))) as Hend.
  { intros q' m' Hrel Hl'. apply wp_bind, wp_modify, wp_zoom. cbn [set_pcbs set_first pcb_pool].
    assert (x ∉ free) as Hxf.
    { pose proof udp_nodup as Hnd. rewrite <-E in Hnd. apply NoDup_app in Hnd as (_ & Hd & _). apply Hd, elem_allocated. by exists p. }
    eapply wp_mono; [apply (wp_pool_free _ x free); [done|by apply udp_elem|done]|]. intros [] pool' Hf'.
    apply (HQ _ m' (filter (λ y, y ≠ x) l)); [done|done|done|].
    apply (udp_ok_removed x p s l q' m' _ pool' free); try done; [apply NoDup_filter, Ho|].
    intros y. rewrite list_elem_of_filter. tauto. }
  assert (NoDup l) as Hnd by apply Ho. pose proof (uo_link _ _ Ho) as Hl.
  destruct (Z.eqb_spec (udp_pcbs s) x) as [Efst|Efst].
  - apply wp_bind, (wp_rd_pcb _ p); [by rewrite Efst|]. apply wp_modify. specialize (Hend (u_next p) (pcbs s)).
    replace (set_first (u_next p) s) with (set_first (u_next p) (set_pcbs (λ _, pcbs s) s)) by (by destruct s).
    apply Hend; [apply relinked_refl|]. destruct l as [|z l]; [simpl in Hl; congruence|]. destruct Hl as (Ez & _ & _ & Hl).
    assert (z = x) as -> by congruence. rewrite (lookup_total_correct _ _ _ Hx) in Hl. apply NoDup_cons in Hnd as [Hni _].
    rewrite filter_cons_False by auto. by rewrite filter_ne.
  - apply wp_bind, wp_gets. apply (wp_unlink_pcb x _ _ l); [done|by apply pcb_nodup_size|done|done|by exists p| |].
    + intros k1 y k2 ->. specialize (Hend (udp_pcbs s) (<[y := set_u_next (u_next (pcbs s !!! x)) (pcbs s !!! y)]> (pcbs s))).
      apply NoDup_app in Hnd as Hnd'. destruct Hnd' as (_ & Hd & Hnd2). apply NoDup_cons in Hnd2 as [Hyx Hnd2]. apply NoDup_cons in Hnd2 as [Hxk _].
      assert (y ≠ x) as Hyne by set_solver. assert (x ∉ k1) as Hxk1 by (intros Hin; apply (Hd x Hin); set_solver).
      assert (filter (λ y, y ≠ x) (k1 ++ y :: x :: k2) = k1 ++ y :: k2) as Efil.
      { rewrite filter_app, filter_cons_True, filter_cons_False by auto. by rewrite !filter_ne. }
      rewrite Efil in Hend. apply Hend.
      * apply relinked_insert; [apply relinked_refl|]. eapply linked_some; [exact Hl|]. set_solver.
      * by apply linked_unlink.
    + intros Hni. specialize (Hend (udp_pcbs s) (pcbs s)). replace s with (set_first (udp_pcbs s) (set_pcbs (λ _, pcbs s) s)) at 1 by (by destruct s).
      apply Hend; [apply relinked_refl|]. by rewrite filter_ne.
Qed.

Lemma wp_udp_new l (s : udp_mod) (Q : Z → udp_mod → Prop) :
  udp_ok s l → (pool_holds (pcb_pool s) [] → Q NULL s) →
  (∀ x s', x ≠ NULL → pcbs s !! x = None → pcbs s' = <[x := new_pcb]> (pcbs s) → udp_ok s' l → Q x s') →
  wp udp_new Q s.
Proof.
  intros Ho Hno Hyes. destruct (uo_pool _ _ Ho) as (free & Hf & E). unfold udp_new. apply wp_bind, wp_zoom. destruct free as [|x free].
  - eapply wp_mono; [by apply wp_pool_malloc_none|]. intros a p' [-> ->]. cbn [Z.eqb NULL negb when_]. apply wp_bind, wp_ret, wp_ret.
    replace (set_pcb_pool (pcb_pool s) s) with s by (by destruct s). by apply Hno.
  - eapply wp_mono; [by apply (wp_pool_malloc_some _ x free)|]. intros a p' [-> Hf'].
    assert (x ∈ EU) as Hxe by (rewrite <-E; set_solver). assert (x ≠ NULL) as Hnn by (apply pool_elem_nonnull; by apply udp_elem).
    assert (pcbs s !! x = None) as Hnone.
    { apply eq_None_not_Some. intros Hs%elem_allocated. pose proof udp_nodup as Hnd. rewrite <-E in Hnd. apply NoDup_app in Hnd as (_ & Hd & _). apply (Hd x Hs). by left. }
    rewrite (proj2 (Z.eqb_neq x NULL)) by done. cbn [negb when_]. apply wp_bind, wp_modify, wp_ret. apply (Hyes x); [done..|].
    destruct Ho as [Hl Hn _ Hb Hr Ha Hu]. assert (x ∉ l) as Hxl by (intros Hin; destruct (linked_some _ _ _ _ Hl Hin) as [[? ?] _]; congruence).
    split; cbn [set_pcbs set_pcb_pool pcbs udp_pcbs pcb_pool udp_port]; try done.
    + eapply linked_frame; [|exact Hl]. intros y Hy _. assert (x ≠ y) by (intros ->; done). rewrite lookup_insert_ne, insert_total_ne by done.
      split; [|done]. by eapply linked_some.
    + exists free. split; [done|]. rewrite allocated_insert by done. simpl. by rewrite Permutation_middle.
    + intros y q. destruct (decide (x = y)) as [->|Hne]; [rewrite lookup_insert_eq; intros [= <-]; simpl; tauto|rewrite lookup_insert_ne by done; apply Hb].
    + intros y q. destruct (decide (x = y)) as [->|Hne]; [rewrite lookup_insert_eq; intros [= <-]; simpl; lia|rewrite lookup_insert_ne by done; apply Hr].
    + intros y z Hy Hz Hne. rewrite !insert_total_ne by (by intros ->). by apply Ha.
Qed.
(** ** The address of the interface changes *)

Definition readdress (old new : Z) (p : udp_pcb) : udp_pcb :=
  if u_local_ip p =? old then set_u_local new (u_local_port p) p else p.
Definition readdressed (old new : Z) (k : list Z) (s s' : udp_mod) : Prop :=
  udp_pcbs s' = udp_pcbs s ∧ udp_port s' = udp_port s ∧ pcb_pool s' = pcb_pool s ∧
  ∀ y, pcbs s' !! y = if decide (y ∈ k) then readdress old new <$> pcbs s !! y else pcbs s !! y.

Lemma wp_change_loop old new n q k (s : udp_mod) (Q : unit → udp_mod → Prop) :
  linked (pcbs s) q k → NoDup k → (length k < n)%nat → (∀ s', readdressed old new k s s' → Q tt s') → wp (change_loop n q old new) Q s.
Proof.
  revert n q s. induction k as [|x k IH]; intros [|n] q s Hl Hnd Hn HQ; simpl in Hn; try lia; cbn [change_loop].
  - simpl in Hl. subst q. apply wp_ret, HQ. split_and!; [done..|]. intros y. by rewrite decide_False by (by apply not_elem_of_nil).
  - destruct Hl as (-> & Hx & [p Hp] & Hl). apply NoDup_cons in Hnd as [Hxk Hnd]. rewrite (proj2 (Z.eqb_neq x NULL)) by done.
    apply wp_bind, (wp_rd_pcb x p); [done|]. rewrite (lookup_total_correct _ _ _ Hp) in Hl. apply wp_bind.
    eapply wp_mono with (P := λ _ s1, s1 = set_pcbs <[x := readdress old new p]> s).
    { unfold readdress. destruct (_ =? _); cbn [when_]; [by eapply wp_wr_pcb|]. apply wp_ret. unfold set_pcbs. rewrite insert_id by done. by destruct s. }
    intros [] s1 ->. apply wp_bind. eapply wp_rd_pcb; [cbn; apply lookup_insert_eq|].
    replace (u_next (readdress old new p)) with (u_next p) by (by unfold readdress; destruct (_ =? _)).
    apply IH; [|done|lia|].
    + eapply linked_frame; [|exact Hl]. intros y Hy Hm. assert (x ≠ y) by (intros ->; done). cbn. by rewrite lookup_insert_ne, insert_total_ne.
    + intros s' (E1 & E2 & E3 & Hs'). apply HQ. split_and!; [done..|]. intros y. rewrite Hs'. cbn. destruct (decide (x = y)) as [->|Hne].
      * rewrite decide_False by done. by rewrite (decide_True) by (by left); rewrite lookup_insert_eq, Hp.
      * rewrite lookup_insert_ne by done. destruct (decide (y ∈ k)); [by rewrite decide_True by (by right)|by rewrite decide_False by set_solver].
Qed.

(** No bound block has the new address already. *)
Definition address_new (s : udp_mod) (l : list Z) (new : Z) : Prop := ∀ x, x ∈ l → u_local_ip (pcbs s !!! x) ≠ new.

Lemma udp_ok_readdressed old new s s' l :
  udp_ok s l → old ≠ IPADDR_ANY → new ≠ IPADDR_ANY → address_new s l new → readdressed old new l s s' → udp_ok s' l.
Proof.
  intros [Hl Hn Hp Hb Hr Ha Hu] Hold Hnew Haddr (E1 & E2 & E3 & Hs').
  assert (∀ y, is_Some (pcbs s' !! y) ↔ is_Some (pcbs s !! y)) as Hsome by (intros y; rewrite Hs'; destruct (decide _); [apply fmap_is_Some|done]).
  assert (∀ y, pcbs s' !!! y = if decide (y ∈ l) then readdress old new (pcbs s !!! y) else pcbs s !!! y) as Htot.
  { intros y. rewrite !lookup_total_alt, Hs'. destruct (decide (y ∈ l)) as [Hy|]; [|done]. destruct (linked_some _ _ _ _ Hl Hy) as [[p ->] _]. done. }
  assert (∀ p, u_local_port (readdress old new p) = u_local_port p ∧ u_next (readdress old new p) = u_next p) as Hsame by (intros p; unfold readdress; by destruct (_ =? _)).
  split; [| |rewrite E3|..|by rewrite E2]; try done.
  - rewrite E1. eapply linked_frame; [|exact Hl]. intros y Hy Hm. split; [by apply Hsome|]. rewrite Htot, decide_True by done. apply Hsame.
  - assert (dom (pcbs s') = dom (pcbs s)) as Ed by (apply set_eq; intros y; rewrite !elem_of_dom; apply Hsome). unfold allocated. by rewrite Ed.
  - intros y p'. rewrite Hs'. destruct (decide (y ∈ l)) as [Hy|Hy].
    + intros (p & Hpy & ->)%fmap_Some. rewrite (proj1 (Hsame p)). by apply Hb.
    + by apply Hb.
  - intros y p'. rewrite Hs'. destruct (decide (y ∈ l)) as [Hy|Hy]; [|by apply Hr]. intros (p & Hpy & ->)%fmap_Some. rewrite (proj1 (Hsame p)). by apply (Hr y).
  - intros y z Hy Hz Hne. rewrite !Htot, !decide_True by done. unfold apart. rewrite !(proj1 (Hsame _)). intros Ep. destruct (Ha y z Hy Hz Hne Ep) as (Hya & Hza & Hyz).
    pose proof (Haddr y Hy). pose proof (Haddr z Hz). unfold readdress.
    destruct (Z.eqb_spec (u_local_ip (pcbs s !!! y)) old), (Z.eqb_spec (u_local_ip (pcbs s !!! z)) old); cbn [set_u_local u_local_ip]; split_and!; congruence.
Qed.

Lemma wp_addr_changed old new l (s : udp_mod) (Q : unit → udp_mod → Prop) :
  udp_ok s l → address_new s l new →
  ((old = IPADDR_ANY ∨ new = IPADDR_ANY) → Q tt s) →
  (∀ s', old ≠ IPADDR_ANY → new ≠ IPADDR_ANY → readdressed old new l s s' → udp_ok s' l → Q tt s') →
  wp (udp_netif_ip_addr_changed old new) Q s.
Proof.
  intros Ho Haddr Hsame HQ. unfold udp_netif_ip_addr_changed, ip4_addr_isany_val.
  destruct (Z.eqb_spec old IPADDR_ANY) as [|Ho']; cbn [negb andb when_]; [apply wp_ret, Hsame; by left|].
  destruct (Z.eqb_spec new IPADDR_ANY) as [|Hn']; cbn [negb andb when_]; [apply wp_ret, Hsame; by right|].
  apply wp_bind, wp_gets, wp_bind, wp_gets. apply (wp_change_loop old new _ _ l); [apply Ho|apply Ho|by apply pcb_nodup_size|].
  intros s' Hs'. apply HQ; [done..|]. apply (udp_ok_readdressed old new s s' l); assumption.
Qed.
(** ** Who gets a datagram *)

(** A block that takes datagrams to the address and the port; one that takes those
    of the sender; one that takes those of all. *)
Definition takes (a : arrival) (dest : Z) (p : udp_pcb) : bool := (u_local_port p =? dest) && udp_input_local_match a p.
Definition takes_from (a : arrival) (src dest : Z) (p : udp_pcb) : bool := takes a dest p && remote_match a src p.
Definition takes_all (a : arrival) (dest : Z) (p : udp_pcb) : bool := takes a dest p && (Z.land (u_flags p) UDP_FLAGS_CONNECTED =? 0).
Definition to_everyone (a : arrival) : bool := a_broadcast a && (a_dest a =? IPADDR_BROADCAST).

(** Of those [c] that take those of all the first; for a broadcast to everyone the
    first with the address of the interface, if there is one. *)
Definition best_of (a : arrival) (m : gmap Z udp_pcb) (c : list Z) : Z :=
  if to_everyone a then
    match filter (λ x, u_local_ip (m !!! x) = ip_addr (a_inp a)) c with x :: _ => x | [] => List.hd NULL c end
  else List.hd NULL c.
Definition open_blocks (a : arrival) (dest : Z) (m : gmap Z udp_pcb) (l : list Z) : list Z := filter (λ x, takes_all a dest (m !!! x) = true) l.
Definition best (a : arrival) (dest : Z) (m : gmap Z udp_pcb) (l : list Z) : Z := best_of a m (open_blocks a dest m l).
Definition perfect (a : arrival) (src dest : Z) (m : gmap Z udp_pcb) (l : list Z) : list Z := filter (λ x, takes_from a src dest (m !!! x) = true) l.

Definition addressee (a : arrival) (src dest : Z) (m : gmap Z udp_pcb) (l : list Z) : Z :=
  match perfect a src dest m l with x :: _ => x | [] => best a dest m l end.
(** The block that matches the sender goes to the front. *)
Definition reordered (a : arrival) (src dest : Z) (m : gmap Z udp_pcb) (l : list Z) : list Z :=
  match perfect a src dest m l with x :: _ => x :: filter (λ y, y ≠ x) l | [] => l end.

Lemma best_of_elem a m c : c ≠ [] → best_of a m c ∈ c.
Proof.
  intros Hc. assert (List.hd NULL c ∈ c) as Hhd by (destruct c; [done|by left]). unfold best_of. destruct (to_everyone a); [|done].
  destruct (filter _ c) as [|x f] eqn:E; [done|]. assert (x ∈ x :: f) as Hx by by left. rewrite <-E in Hx. by apply list_elem_of_filter in Hx as [_ ?].
Qed.

(** What one more block makes of the best. *)
Lemma best_of_snoc a m c x :
  best_of a m (c ++ [x]) =
    if decide (c = []) then x
    else if to_everyone a then
      if negb (u_local_ip (m !!! best_of a m c) =? ip_addr (a_inp a)) && (u_local_ip (m !!! x) =? ip_addr (a_inp a)) then x else best_of a m c
    else best_of a m c.
Proof.
  unfold best_of. destruct (decide (c = [])) as [->|Hc].
  - destruct (to_everyone a); [|done]. simpl. destruct (filter _ [x]) as [|y f] eqn:E; [done|].
    assert (y ∈ y :: f) as Hy by by left. rewrite <-E in Hy. by apply list_elem_of_filter in Hy as [_ ->%list_elem_of_singleton].
  - assert (List.hd NULL (c ++ [x]) = List.hd NULL c) as -> by by destruct c. destruct (to_everyone a); [|done]. rewrite filter_app.
    destruct (filter _ c) as [|y f] eqn:E.
    + assert (u_local_ip (m !!! List.hd NULL c) ≠ ip_addr (a_inp a)) as Hne.
      { intros Heq. assert (List.hd NULL c ∈ ([] : list Z)) as []%elem_of_nil. rewrite <-E. apply list_elem_of_filter. split; [done|]. destruct c; [done|by left]. }
      rewrite (proj2 (Z.eqb_neq _ _) Hne). cbn [app negb andb]. destruct (Z.eqb_spec (u_local_ip (m !!! x)) (ip_addr (a_inp a))) as [Ex|Ex].
      * by rewrite filter_cons_True.
      * by rewrite filter_cons_False.
    + assert (y ∈ y :: f) as Hy by by left. rewrite <-E in Hy. apply list_elem_of_filter in Hy as [Hy _].
      by rewrite (proj2 (Z.eqb_eq _ _) Hy).
Qed.

Lemma best_snoc a dest m l x :
  best a dest m (l ++ [x]) =
    if takes_all a dest (m !!! x) then best_of a m (open_blocks a dest m l ++ [x]) else best a dest m l.
Proof.
  unfold best, open_blocks. rewrite filter_app. destruct (takes_all a dest (m !!! x)) eqn:E.
  - by rewrite filter_cons_True.
  - rewrite filter_cons_False by congruence. by rewrite app_nil_r.
Qed.

(** The block goes to the front of the list. *)
Definition fronted (s : udp_mod) (l1 : list Z) (x : Z) (k : list Z) (s' : udp_mod) : Prop :=
  udp_ok s' (x :: l1 ++ k) ∧ relinked (pcbs s) (pcbs s') ∧ udp_port s' = udp_port s ∧ pcb_pool s' = pcb_pool s.

Lemma wp_to_front l1 x k p (s : udp_mod) (Q : unit → udp_mod → Prop) :
  udp_ok s (l1 ++ x :: k) → pcbs s !! x = Some p → (∀ s', fronted s l1 x k s' → Q tt s') →
  wp (when_ (negb (default NULL (last l1) =? NULL)) (wr_pcb (default NULL (last l1)) (set_u_next (u_next p));; put_first x)) Q s.
Proof.
  intros Ho Hx HQ. destruct (last l1) as [y|] eqn:E.
  - apply last_Some in E as [l0 ->]. change (default NULL (Some y)) with y. rewrite <-app_assoc in *. cbn [app] in *. pose proof (uo_nodup _ _ Ho) as Hnd. pose proof (uo_link _ _ Ho) as Hl.
    assert (is_Some (pcbs s !! y) ∧ y ≠ NULL) as [[py Hy] Hyn] by (eapply linked_some; [exact Hl|set_solver]).
    rewrite (proj2 (Z.eqb_neq y NULL)) by done. cbn [negb when_]. apply wp_bind, (wp_wr_pcb y _ py); [done|].
    assert (NoDup (y :: x :: k)) as Hnd2 by (by apply NoDup_app in Hnd as (_ & _ & ?)). apply NoDup_cons in Hnd2 as [Hyx _].
    assert (y ≠ x) as Hne by set_solver. apply wp_bind, wp_gets, wp_bind, (wp_wr_pcb x _ p); [cbn; by rewrite lookup_insert_ne|]. apply wp_modify. apply HQ.
    set (m1 := <[y := set_u_next (u_next p) py]> (pcbs s)). set (m2 := <[x := set_u_next (udp_pcbs s) p]> m1).
    assert (relinked (pcbs s) m2) as Hrel.
    { assert (p = m1 !!! x) as Ep by (unfold m1; rewrite insert_total_ne by done; by rewrite (lookup_total_correct _ _ _ Hx)).
      unfold m2. rewrite Ep at 1. apply relinked_insert; [|unfold m1; by rewrite lookup_insert_ne].
      unfold m1. rewrite <-(lookup_total_correct _ _ _ Hy). apply relinked_insert; [apply relinked_refl|by exists py]. }
    split_and!; [|exact Hrel|done|done].
    apply (udp_ok_relinked s (l0 ++ y :: x :: k) x m2); [done|done| |].
    + pose proof (linked_unlink _ _ l0 y x k Hl Hnd) as Hl'. rewrite (lookup_total_correct _ _ _ Hx), (lookup_total_correct _ _ _ Hy) in Hl'.
      assert (x ∉ l0 ++ y :: k) as Hni.
      { intros [Hin|[->|Hin]%elem_of_cons]%elem_of_app; [|done|]; apply NoDup_app in Hnd as (_ & Hd & Hnd3); [apply (Hd x Hin); set_solver|].
        apply NoDup_cons in Hnd3 as [_ [Hxk _]%NoDup_cons]. done. }
      split_and!; [done| |by unfold m2; rewrite lookup_insert_eq|].
      { by destruct (linked_some _ _ _ x Hl ltac:(set_solver)). }
      unfold m2 at 2. rewrite insert_total. cbn [set_u_next u_next]. rewrite <-app_assoc. cbn [app].
      eapply linked_frame; [|exact Hl']. intros z Hz Hmz. assert (x ≠ z) by (intros ->; done). unfold m2. by rewrite lookup_insert_ne, insert_total_ne.
    + rewrite (Permutation_middle (l0 ++ [y]) k x), <-app_assoc. done.
  - apply last_None in E. subst l1. change (default NULL None =? NULL) with true. cbn [negb when_ app] in *. apply wp_ret, HQ. split_and!; [done|apply relinked_refl|done|done].
Qed.

Lemma wp_find_pcb a src dest n l1 k q (s : udp_mod) (Q : Z * Z → udp_mod → Prop) :
  udp_ok s (l1 ++ k) → linked (pcbs s) q k → (length k < n)%nat →
  (∀ x, x ∈ l1 → takes_from a src dest (pcbs s !!! x) = false) →
  (∀ k1 x k2 u s', k = k1 ++ x :: k2 → (∀ y, y ∈ l1 ++ k1 → takes_from a src dest (pcbs s !!! y) = false) →
    takes_from a src dest (pcbs s !!! x) = true → fronted s (l1 ++ k1) x k2 s' → Q (x, u) s') →
  ((∀ x, x ∈ l1 ++ k → takes_from a src dest (pcbs s !!! x) = false) → Q (NULL, best a dest (pcbs s) (l1 ++ k)) s) →
  wp (find_pcb n a src dest q (default NULL (last l1)) (best a dest (pcbs s) l1)) Q s.
Proof.
  intros Ho. revert n l1 q Ho. induction k as [|x k IH]; intros [|n] l1 q Ho Hl Hn Hno Hyes Hnone; simpl in Hn; try lia; cbn [find_pcb].
  - simpl in Hl. subst q. rewrite app_nil_r in Hnone. by apply wp_ret, Hnone.
  - destruct Hl as (-> & Hx & [p Hp] & Hl). rewrite (proj2 (Z.eqb_neq x NULL)) by done. apply wp_bind, (wp_rd_pcb x p); [done|].
    pose proof (lookup_total_correct _ _ _ Hp) as Et. rewrite Et in Hl.
    assert (takes_from a src dest p = false → wp (find_pcb n a src dest (u_next p) x (best a dest (pcbs s) (l1 ++ [x]))) Q s) as Hnext.
    { intros Hf. replace x with (default NULL (last (l1 ++ [x]))) at 1 by (by rewrite last_snoc). apply IH.
      - by rewrite <-app_assoc.
      - done.
      - lia.
      - intros y [Hy| ->%list_elem_of_singleton]%elem_of_app; [by apply Hno|by rewrite Et].
      - intros k1 y k2 u s' -> Hb Hy Hfr. rewrite <-!app_assoc in *. by apply (Hyes (x :: k1) y k2 u).
      - intros Hb. rewrite <-!app_assoc in *. by apply Hnone. }
    assert (∀ u, takes_from a src dest p = true →
      wp (when_ (negb (default NULL (last l1) =? NULL)) (wr_pcb (default NULL (last l1)) (set_u_next (u_next p));; put_first x);; mret (x, u)) Q s) as Hfound.
    { intros u Hf. apply wp_bind, (wp_to_front l1 x k p); [done|done|]. intros s' Hs'. apply wp_ret. apply (Hyes [] x k u s'); [done| |by rewrite Et|].
      - rewrite app_nil_r. done.
      - by rewrite app_nil_r. }
    rewrite best_snoc, Et in Hnext. unfold takes_all, takes_from, takes in Hnext, Hfound.
    destruct ((u_local_port p =? dest) && udp_input_local_match a p); cbn [andb] in *; [|by apply Hnext].
    apply wp_bind. eapply wp_mono with (P := λ u s1, s1 = s ∧ u = if Z.land (u_flags p) UDP_FLAGS_CONNECTED =? 0 then
        best_of a (pcbs s) (open_blocks a dest (pcbs s) l1 ++ [x]) else best a dest (pcbs s) l1).
    { destruct (Z.land _ _ =? 0); [|by apply wp_ret]. rewrite best_of_snoc. unfold best. set (c := open_blocks a dest (pcbs s) l1).
      destruct (decide (c = [])) as [->|Hc].
      - assert (best_of a (pcbs s) [] = NULL) as -> by (unfold best_of; by destruct (to_everyone a)). by apply wp_ret.
      - pose proof (best_of_elem a (pcbs s) c Hc) as Hin. apply list_elem_of_filter in Hin as [_ Hin].
        destruct (linked_some _ _ _ (best_of a (pcbs s) c) (uo_link _ _ Ho)) as [[pu Hpu] Hun]; [apply elem_of_app; by left|].
        rewrite (proj2 (Z.eqb_neq _ NULL)) by done. fold (to_everyone a). destruct (to_everyone a); [|by apply wp_ret].
        apply wp_bind, (wp_rd_pcb _ pu); [done|]. rewrite (lookup_total_correct _ _ _ Hpu), Et. destruct (_ && _); by apply wp_ret. }
    intros u s1 [-> ->]. destruct (remote_match a src p); [by apply Hfound|by apply Hnext].
Qed.

Lemma perfect_split a src dest m k1 x k2 :
  (∀ y, y ∈ k1 → takes_from a src dest (m !!! y) = false) → takes_from a src dest (m !!! x) = true →
  ∃ r, perfect a src dest m (k1 ++ x :: k2) = x :: r.
Proof.
  intros Hk Hx. unfold perfect. rewrite filter_app, filter_cons_True by done.
  assert (filter (λ y, takes_from a src dest (m !!! y) = true) k1 = []) as ->; [|by eexists].
  induction k1 as [|y k1 IH]; [done|]. rewrite filter_cons_False; [apply IH; intros z Hz; apply Hk; by right|]. rewrite Hk by left. done.
Qed.

Lemma wp_udp_demux a src dest l s :
  udp_ok s l →
  wp (udp_demux a src dest) (λ r s', r = addressee a src dest (pcbs s) l ∧ udp_ok s' (reordered a src dest (pcbs s) l) ∧ relinked (pcbs s) (pcbs s')) s.
Proof.
  intros Ho. unfold udp_demux. apply wp_bind, wp_gets, wp_bind, wp_gets, wp_bind.
  assert (best a dest (pcbs s) [] = NULL) as Hb by (unfold best, best_of; by destruct (to_everyone a)).
  pose proof (wp_find_pcb a src dest (S (size (pcbs s))) [] l (udp_pcbs s) s) as Hw. rewrite Hb in Hw.
  apply Hw; clear Hw; [done|apply Ho|by apply pcb_nodup_size|by intros x ?%elem_of_nil| |].
  - intros k1 x k2 u s' -> Hno Hx (Ho' & Hrel & _ & _). cbn [app] in *. apply wp_ret.
    destruct (perfect_split a src dest (pcbs s) k1 x k2 Hno Hx) as [r Er]. unfold addressee, reordered. rewrite Er.
    assert (is_Some (pcbs s !! x) ∧ x ≠ NULL) as [_ Hxn] by (eapply linked_some; [apply Ho|set_solver]).
    rewrite (proj2 (Z.eqb_neq x NULL)) by done. split_and!; [done| |done].
    pose proof (uo_nodup _ _ Ho) as Hnd. apply NoDup_app in Hnd as (_ & Hd & Hnd). apply NoDup_cons in Hnd as [Hxk _].
    rewrite filter_app, filter_cons_False by auto. rewrite !filter_ne; [done|done|]. intros Hin. apply (Hd x Hin). by left.
  - cbn [app]. intros Hno. apply wp_ret. cbn [Z.eqb NULL]. unfold addressee, reordered.
    assert (perfect a src dest (pcbs s) l = []) as ->.
    { destruct (perfect a src dest (pcbs s) l) as [|x r] eqn:E; [done|]. assert (x ∈ x :: r) as Hx by by left. rewrite <-E in Hx.
      apply list_elem_of_filter in Hx as [Hx Hin]. rewrite Hno in Hx by done. done. }
    split_and!; [done|done|apply relinked_refl].
Qed.

End udp_thm.
