(* ===== verification/UdpPcbSafe.v ===== *)
(** UDP's blocks under any sequence of calls: the theorems, and an instance. *)
From stdpp Require Import base tactics numbers list gmap.
From S2P Require Import Prelude Words Def Memp PbufMem Ip4Addr Net UdpPcb UdpPcbThm.

(** * Theorems

    UDP's blocks under any sequence of calls: the list and the pool stay in order,
    no two blocks get the same datagrams, and a bound block gets its own. *)

Section udp_safe.
Context {PU : Type} `{PoolLaws PU}.
Context (EU : list Z) `{!UdpLayout (PU := PU) EU}.

Notation udp_mod := (udp_mod PU).
Notation udp_ok := (udp_ok EU).

(** ** Sequences of calls *)

Inductive udp_call : Type :=
  | CallUdpNew
  | CallUdpBind (pcb : Z) (ipaddr : option Z) (port : Z)
  | CallUdpBindNetif (pcb : Z) (netif_index : option Z)
  | CallUdpConnect (pcb : Z) (ipaddr : option Z) (port : Z)
  | CallUdpDisconnect (pcb : Z)
  | CallUdpRecv (pcb recv recv_arg : Z)
  | CallUdpRemove (pcb : Z)
  | CallUdpAddrChanged (old_addr new_addr : Z)
  | CallUdpDemux (a : arrival) (src dest : Z).

Definition run_udp (c : udp_call) : M udp_mod unit :=
  match c with
  | CallUdpNew => udp_new;; mret tt
  | CallUdpBind pcb ipaddr port => udp_bind pcb ipaddr port;; mret tt
  | CallUdpBindNetif pcb i => udp_bind_netif pcb i
  | CallUdpConnect pcb ipaddr port => udp_connect pcb ipaddr port;; mret tt
  | CallUdpDisconnect pcb => udp_disconnect pcb
  | CallUdpRecv pcb recv recv_arg => udp_recv pcb recv recv_arg
  | CallUdpRemove pcb => udp_remove pcb
  | CallUdpAddrChanged old new => udp_netif_ip_addr_changed old new
  | CallUdpDemux a src dest => udp_demux a src dest;; mret tt
  end.

(** What the callers see to: a block is one that they were given and have not
    removed, or NULL where the code looks for that; a port has sixteen bits; the
    new address of the interface is not in use. *)
Definition live (s : udp_mod) (pcb : Z) : Prop := is_Some (pcbs s !! pcb).
Definition udp_legal (s : udp_mod) (l : list Z) (c : udp_call) : Prop :=
  match c with
  | CallUdpNew | CallUdpDemux _ _ _ => True
  | CallUdpBind pcb _ port => (pcb = NULL ∨ live s pcb) ∧ 0 ≤ port < 65536
  | CallUdpBindNetif pcb _ => live s pcb
  | CallUdpConnect pcb _ _ | CallUdpDisconnect pcb | CallUdpRecv pcb _ _ | CallUdpRemove pcb => pcb = NULL ∨ live s pcb
  | CallUdpAddrChanged _ new => address_new s l new
  end.

(** Before [udp_init]: no block, and the pool full. *)
Record no_blocks (s : udp_mod) : Prop := NoBlocks {
  nb_first : udp_pcbs s = NULL;
  nb_pcbs : pcbs s = ∅;
  nb_pool : ∃ free, pool_holds (pcb_pool s) free ∧ free ≡ₚ EU
}.

(** [l] follows the list as the calls change it. *)
Inductive udp_reach : udp_mod → list Z → Prop :=
  | udp_reach_init s rand s' : no_blocks s → udp_init rand s = (inl tt, s') → udp_reach s' []
  | udp_reach_call s l c s' l' :
      udp_reach s l → udp_legal s l c → run_udp c s = (inl tt, s') → linked (pcbs s') (udp_pcbs s') l' → udp_reach s' l'.

Lemma ensured_range port : UDP_LOCAL_PORT_RANGE_START ≤ UDP_ENSURE_LOCAL_PORT_RANGE port ≤ UDP_LOCAL_PORT_RANGE_END.
Proof.
  unfold UDP_ENSURE_LOCAL_PORT_RANGE, UDP_LOCAL_PORT_RANGE_START, UDP_LOCAL_PORT_RANGE_END.
  change (u16 (Z.lnot 0xc000)) with (Z.ones 14). rewrite Z.land_ones by lia. pose proof (Z.mod_pos_bound port (2 ^ 14)). rewrite u16_id; lia.
Qed.

Lemma wp_udp_init rand (s : udp_mod) (Q : unit → udp_mod → Prop) :
  no_blocks s → (∀ s', udp_ok s' [] → pcbs s' = ∅ → Q tt s') → wp (udp_init rand) Q s.
Proof.
  intros [Hf Hp (free & Hfree & E)] HQ. apply wp_modify, HQ; [|done]. split; cbn [set_port pcbs udp_pcbs pcb_pool udp_port]; rewrite ?Hp, ?Hf.
  - done.
  - apply NoDup_nil_2.
  - exists free. split; [done|]. unfold allocated. rewrite dom_empty_L, elements_empty. done.
  - intros x p. by rewrite lookup_empty.
  - intros x p. by rewrite lookup_empty.
  - by intros x y ?%elem_of_nil.
  - apply ensured_range.
Qed.

Lemma wp_run_udp c l (s : udp_mod) (Q : unit → udp_mod → Prop) :
  udp_ok s l → udp_legal s l c → (∀ s' l', udp_ok s' l' → Q tt s') → wp (run_udp c) Q s.
Proof.
  intros Ho Hc HQ. destruct c as [|x ip port|x i|x ip port|x|x f arg|x|old new|a src dest]; cbn [run_udp udp_legal] in *.
  - apply wp_bind, (wp_udp_new EU l); [done| |]; intros; apply wp_ret; by eapply HQ.
  - destruct Hc as [[->|[p Hp]] Hport]; [by apply wp_ret, (HQ s l)|].
    apply wp_bind, (wp_udp_bind EU x ip port p l); [done..| |]; intros; apply wp_ret; by eapply HQ.
  - destruct Hc as [p Hp]. apply (wp_udp_bind_netif EU x i p l); [done..|]. intros s' Ho'. by eapply HQ.
  - destruct Hc as [->|[p Hp]]; [by apply wp_ret, (HQ s l)|]. destruct ip as [ip|].
    + apply wp_bind, (wp_udp_connect EU x ip port p l); [done..|]. intros s' l' _ Ho'. apply wp_ret. by eapply HQ.
    + unfold udp_connect. destruct (x =? NULL); by apply wp_ret, (HQ s l).
  - destruct Hc as [->|[p Hp]]; [by apply wp_ret, (HQ s l)|]. apply (wp_udp_disconnect EU x p l); [done..|]. intros s' Ho'. by eapply HQ.
  - destruct Hc as [->|[p Hp]]; [by apply wp_ret, (HQ s l)|]. apply (wp_udp_recv EU x f arg p l); [done..|]. intros Ho'. by eapply HQ.
  - destruct Hc as [->|[p Hp]]; [by apply wp_ret, (HQ s l)|]. apply (wp_udp_remove EU x p l); [done..|]. intros. by eapply HQ.
  - apply (wp_addr_changed EU old new l); [done..| |]; intros; by eapply HQ.
  - apply wp_bind. eapply wp_mono; [by apply (wp_udp_demux EU a src dest l)|]. intros r s' (_ & Ho' & _). apply wp_ret. by eapply HQ.
Qed.

Lemma linked_unique m q l l' : linked m q l → linked m q l' → l = l'.
Proof.
  revert q l'. induction l as [|x l IH]; intros q [|y l']; simpl; [done| | |].
  - intros -> (E & Hn & _). done.
  - intros (-> & Hn & _) ?. done.
  - intros (-> & _ & _ & Hl) (-> & _ & _ & Hl'). f_equal. by eapply IH.
Qed.

Lemma udp_reach_ok s l : udp_reach s l → udp_ok s l.
Proof.
  induction 1 as [s rand s' Hs E|s l c s' l' _ Ho Hc E Hl].
  - assert (wp (udp_init rand) (λ _ s', udp_ok s' []) s) as Hw by (by apply wp_udp_init).
    unfold wp in Hw. by rewrite E in Hw.
  - assert (wp (run_udp c) (λ _ s', ∃ k, udp_ok s' k) s) as Hw by (apply (wp_run_udp c l); [done..|]; by eauto).
    unfold wp in Hw. rewrite E in Hw. destruct Hw as [k Hk]. by rewrite (linked_unique _ _ _ _ Hl (uo_link _ _ _ Hk)).
Qed.

(** ** What the callers rely on *)

(** C24: Whatever calls were made since [udp_init], in any order: the list has exactly
    the blocks with a local port, each once, and ends; every block is in use or in
    the pool, none in both; two blocks on one port have addresses of their own;
    and the next call returns, without an assertion of the code failing. *)
Theorem udp_blocks_stay_in_order s l :
  udp_reach s l →
  udp_ok s l ∧ ∀ c, udp_legal s l c → ∃ s' l', run_udp c s = (inl tt, s') ∧ udp_reach s' l'.
Proof.
  intros Hr. pose proof (udp_reach_ok s l Hr) as Ho. split; [done|]. intros c Hc.
  assert (wp (run_udp c) (λ _ s', ∃ l', udp_ok s' l') s) as Hw by (apply (wp_run_udp c l); [done..|]; by eauto).
  destruct (wp_inv _ _ _ Hw) as ([] & s' & E & l' & Ho'). exists s', l'. split; [done|]. eapply udp_reach_call; [done..|apply Ho'].
Qed.

(** C26: [udp_bind] refuses, and changes nothing, exactly if another block has the port
    asked for, for that address or for all; otherwise the block is bound to the
    address and that port, or to one of the dynamic range that no block has if none
    was asked for, and is on the list. *)
Theorem udp_bind_exact x p ipaddr port l s :
  udp_ok s l → pcbs s !! x = Some p → 0 ≤ port < 65536 →
  let ip := default IPADDR_ANY ipaddr in
  wp (udp_bind x ipaddr port) (λ r s',
    (r = ERR_USE ∧ s' = s ∧ port ≠ 0 ∧ port_in_use s l x ip port) ∨
    (r = ERR_OK ∧ udp_ok s' (enlist x l) ∧ (∀ y, y ≠ x → pcbs s' !! y = pcbs s !! y) ∧
     ∃ p', pcbs s' !! x = Some p' ∧ u_local_ip p' = ip ∧
       ((port ≠ 0 ∧ ¬ port_in_use s l x ip port ∧ u_local_port p' = port) ∨
        (port = 0 ∧ UDP_LOCAL_PORT_RANGE_START ≤ u_local_port p' ≤ UDP_LOCAL_PORT_RANGE_END ∧
         ∀ y, y ∈ l → u_local_port (pcbs s !!! y) ≠ u_local_port p')))) s.
Proof.
  intros Ho Hp Hport ip. apply (wp_udp_bind EU x ipaddr port p l); [done..| |]; fold ip.
  - intros Hne Hu. by left.
  - intros port' s1 Hb Ho'. right. assert (pcbs s1 = pcbs s) as Es by (destruct Hb as [(_ & _ & -> & _)|(_ & _ & -> & _)]; done).
    split; [done|]. split; [done|]. split; [intros y Hy; by rewrite enlisted_lookup, Es|].
    destruct (enlisted_self x l (set_u_local ip port' p) s1) as (p' & Hp' & Ei & Ep & _). exists p'. rewrite Ei, Ep. split_and!; [done|done|].
    destruct Hb as [(Hne & -> & _ & Hf)|(-> & Hr & _ & Hf)]; [by left|by right].
Qed.

(** A datagram is for the first block on the list that takes those of its sender,
    which goes to the front; if there is none, for the first that takes those of
    all (for a broadcast to everyone rather one with the address of the
    interface), and else for none.  Nothing else of the blocks changes. *)
Theorem udp_demux_exact a src dest l s :
  udp_ok s l →
  wp (udp_demux a src dest) (λ r s', r = addressee a src dest (pcbs s) l ∧
    udp_ok s' (reordered a src dest (pcbs s) l) ∧ relinked (pcbs s) (pcbs s')) s.
Proof. intros Ho. by apply wp_udp_demux. Qed.

Lemma takes_once a dest l (s : udp_mod) x y :
  udp_ok s l → a_broadcast a = false → x ∈ l → y ∈ l →
  takes a dest (pcbs s !!! x) = true → takes a dest (pcbs s !!! y) = true → x = y.
Proof.
  intros Ho Hb Hx Hy Htx Hty. destruct (decide (x = y)) as [|Hne]; [done|]. exfalso.
  unfold takes, udp_input_local_match, ip4_addr_isany_val in Htx, Hty. rewrite Hb in Htx, Hty.
  apply andb_true_iff in Htx as [Epx%Z.eqb_eq Hmx], Hty as [Epy%Z.eqb_eq Hmy].
  destruct (uo_apart _ _ _ Ho x y Hx Hy Hne) as (Hax & Hay & Hxy); [congruence|].
  rewrite (proj2 (Z.eqb_neq _ _) Hax) in Hmx. rewrite (proj2 (Z.eqb_neq _ _) Hay) in Hmy.
  destruct (negb _ && negb _); [done|]. destruct (negb _ && negb _) in Hmy; [done|].
  cbn [orb] in *. apply Z.eqb_eq in Hmx, Hmy. congruence.
Qed.

Lemma filter_singleton (P : Z → Prop) `{!∀ y, Decision (P y)} l x :
  NoDup l → x ∈ l → P x → (∀ y, y ∈ l → P y → y = x) → filter P l = [x].
Proof.
  intros Hnd Hx HP Honly. apply Permutation_singleton_r, NoDup_Permutation; [by apply NoDup_filter|apply NoDup_singleton|].
  intros y. rewrite list_elem_of_filter, list_elem_of_singleton. split; [intros [? ?]; by apply Honly|by intros ->].
Qed.

Lemma filter_none (P : Z → Prop) `{!∀ y, Decision (P y)} l : (∀ y, y ∈ l → ¬ P y) → filter P l = [].
Proof.
  intros Hno. destruct (filter P l) as [|y k] eqn:E; [done|]. assert (y ∈ y :: k) as Hy by by left.
  rewrite <-E in Hy. apply list_elem_of_filter in Hy as [HP Hy]. by destruct (Hno y Hy).
Qed.

(** Only the block bound to the address and the port can get the datagram. *)
Lemma addressee_bound a src dest x l (s : udp_mod) :
  udp_ok s l → x ∈ l → a_broadcast a = false → takes a dest (pcbs s !!! x) = true →
  addressee a src dest (pcbs s) l = if remote_match a src (pcbs s !!! x) || (Z.land (u_flags (pcbs s !!! x)) UDP_FLAGS_CONNECTED =? 0) then x else NULL.
Proof.
  intros Ho Hx Hb Ht.
  assert (∀ y, y ∈ l → takes a dest (pcbs s !!! y) = true → y = x) as Honly by (intros y Hy Hty; by eapply takes_once).
  assert (NoDup l) as Hnd by apply Ho. unfold addressee, perfect, best, best_of, open_blocks, to_everyone, takes_from, takes_all. rewrite Hb. cbn [andb].
  destruct (remote_match a src (pcbs s !!! x)) eqn:Em; cbn [orb].
  - rewrite (filter_singleton _ l x); [done..|by rewrite Ht, Em|]. intros y Hy [Hty _]%andb_true_iff. by apply Honly.
  - rewrite filter_none; last first.
    { intros y Hy [Hty Hm]%andb_true_iff. rewrite (Honly y Hy Hty) in Hm. congruence. }
    destruct (Z.land (u_flags (pcbs s !!! x)) UDP_FLAGS_CONNECTED =? 0) eqn:Ef.
    + rewrite (filter_singleton _ l x); [done..|by rewrite Ht, Ef|]. intros y Hy [Hty _]%andb_true_iff. by apply Honly.
    + rewrite filter_none; [done|]. intros y Hy [Hty Hm]%andb_true_iff. rewrite (Honly y Hy Hty) in Hm. congruence.
Qed.

(** C25: A datagram that is no broadcast, to the port and an address of a bound block:
    the block gets it if it is not connected, or is to the sender, whatever other
    blocks there are; and if it is connected to another, no block does. *)
Theorem bound_block_gets_its_datagrams a src dest x l s :
  udp_reach s l → x ∈ l → a_broadcast a = false → takes a dest (pcbs s !!! x) = true →
  wp (udp_demux a src dest) (λ r s',
    r = (if remote_match a src (pcbs s !!! x) || (Z.land (u_flags (pcbs s !!! x)) UDP_FLAGS_CONNECTED =? 0) then x else NULL) ∧
    u_recv (pcbs s' !!! x) = u_recv (pcbs s !!! x) ∧ u_recv_arg (pcbs s' !!! x) = u_recv_arg (pcbs s !!! x)) s.
Proof.
  intros Hr Hx Hb Ht. pose proof (udp_reach_ok s l Hr) as Ho. eapply wp_mono; [by apply (wp_udp_demux EU a src dest l)|].
  intros r s' (-> & _ & _ & Hsame). split; [by apply addressee_bound|by rewrite (Hsame x)].
Qed.
End udp_safe.

(** * The pool of the firmware

    The theorems at concrete inputs: the four blocks of the
    firmware's pool, two of them in use, by the NTP client and by DHCP. *)

Definition u_desc : memp_desc := MempDesc 40 4 0x20029000.
Definition u_memp : Type := memp.
#[global] Typeclasses Opaque u_memp.
#[export] Instance u_desc_ok : DescOk u_desc.
Proof. by split. Qed.
#[export] Instance u_memp_pool : Pool u_memp := memp_pool u_desc.
#[export] Instance u_memp_laws : PoolLaws u_memp := memp_pool_laws u_desc.

Notation EU := (elements u_desc).
#[export] Instance demo_udp_layout : UdpLayout (PU := u_memp) EU.
Proof. split; [by apply elements_nodup|done|done]. Qed.

Notation demo_udp := (udp_mod u_memp).
Notation udp_reached := (udp_reach EU).

Definition fresh_udp : demo_udp := UdpMod 0 NULL ∅ (memp_init_pool u_desc (MempState 0 ∅)).2.
Definition udp_runs (c : udp_call) (s : demo_udp) : demo_udp := (run_udp c s).2.

Definition demo_if : netif := Netif 0x3201A8C0 0x00FFFFFF 0x0101A8C0 [2; 0; 0; 0; 0; 1] ETH_HWADDR_LEN 15 1500 0.
Definition ntp_server : Z := 0x0A01A8C0.

Definition dhcp_pcb : Z := 0x20029078.
Definition ntp_pcb : Z := 0x20029050.
Definition dhcp_recv : Z := 0x08004001.
Definition ntp_recv_callback : Z := 0x08002001.

(** What [dhcp_inc_pcb_refcount] and then [ntp_client_get_time] do to the blocks. *)
Definition udp_0 : demo_udp := (udp_init 4660 fresh_udp).2.
Definition udp_1 : demo_udp := udp_runs CallUdpNew udp_0.
Definition udp_2 : demo_udp := udp_runs (CallUdpBind dhcp_pcb (Some IPADDR_ANY) 68) udp_1.
Definition udp_3 : demo_udp := udp_runs (CallUdpConnect dhcp_pcb (Some IPADDR_ANY) 67) udp_2.
Definition udp_4 : demo_udp := udp_runs (CallUdpRecv dhcp_pcb dhcp_recv NULL) udp_3.
Definition udp_5 : demo_udp := udp_runs CallUdpNew udp_4.
Definition udp_6 : demo_udp := udp_runs (CallUdpBind ntp_pcb (Some IPADDR_ANY) 0) udp_5.
Definition udp_7 : demo_udp := udp_runs (CallUdpRecv ntp_pcb ntp_recv_callback NULL) udp_6.

Lemma udp_step (s : demo_udp) l c s' l' :
  udp_reached s l → udp_legal s l c → run_udp c s = (inl tt, s') → linked (pcbs s') (udp_pcbs s') l' → udp_reached s' l'.
Proof. apply udp_reach_call. Qed.

Lemma fresh_udp_ok : no_blocks EU fresh_udp.
Proof.
  split; [done|done|]. destruct (wp_inv _ _ _ (wp_memp_init_pool u_desc (MempState 0 ∅))) as (u & s & E & Hs).
  exists (reverse EU). cbn [fresh_udp pcb_pool]. rewrite E. split; [exact Hs|apply reverse_Permutation].
Qed.

(** A list of at most two blocks. *)
Ltac links := repeat split; first [reflexivity | discriminate | eexists; vm_compute; reflexivity | vm_compute; reflexivity].

Lemma udp_4_reached : udp_reached udp_4 [dhcp_pcb].
Proof.
  assert (udp_reached udp_0 []) as H0 by (eapply udp_reach_init; [apply fresh_udp_ok|reflexivity]).
  assert (udp_reached udp_1 []) as H1 by (apply (udp_step udp_0 [] CallUdpNew); [exact H0|done|by vm_compute|by vm_compute]).
  assert (udp_reached udp_2 [dhcp_pcb]) as H2.
  { apply (udp_step udp_1 [] (CallUdpBind dhcp_pcb (Some IPADDR_ANY) 68)); [exact H1| |by vm_compute|links]. split; [right; by eexists; vm_compute|done]. }
  assert (udp_reached udp_3 [dhcp_pcb]) as H3.
  { apply (udp_step udp_2 [dhcp_pcb] (CallUdpConnect dhcp_pcb (Some IPADDR_ANY) 67)); [exact H2| |by vm_compute|links]. right; by eexists; vm_compute. }
  apply (udp_step udp_3 [dhcp_pcb] (CallUdpRecv dhcp_pcb dhcp_recv NULL)); [exact H3| |by vm_compute|links]. right; by eexists; vm_compute.
Qed.

Lemma udp_7_reached : udp_reached udp_7 [ntp_pcb; dhcp_pcb].
Proof.
  assert (udp_reached udp_5 [dhcp_pcb]) as H5 by (apply (udp_step udp_4 [dhcp_pcb] CallUdpNew); [apply udp_4_reached|done|by vm_compute|links]).
  assert (udp_reached udp_6 [ntp_pcb; dhcp_pcb]) as H6.
  { apply (udp_step udp_5 [dhcp_pcb] (CallUdpBind ntp_pcb (Some IPADDR_ANY) 0)); [exact H5| |by vm_compute|links]. split; [right; by eexists; vm_compute|done]. }
  apply (udp_step udp_6 [ntp_pcb; dhcp_pcb] (CallUdpRecv ntp_pcb ntp_recv_callback NULL)); [exact H6| |by vm_compute|links]. right; by eexists; vm_compute.
Qed.

(** The server's answer to the client, at the port that it got. *)
Definition ntp_port : Z := u_local_port (pcbs udp_7 !!! ntp_pcb).
Definition ntp_answer : arrival := Arrival demo_if 1 ntp_server (ip_addr demo_if) false.

(** ** Witnesses *)

Lemma udp_blocks_stay_in_order_witness :
  udp_legal udp_7 [ntp_pcb; dhcp_pcb] (CallUdpRemove ntp_pcb) ∧
  (udp_ok EU udp_7 [ntp_pcb; dhcp_pcb] ∧
   ∀ c, udp_legal udp_7 [ntp_pcb; dhcp_pcb] c → ∃ s' l', run_udp c udp_7 = (inl tt, s') ∧ udp_reached s' l').
Proof.
  split.
  - right. eexists. vm_compute. reflexivity.
  - exact (udp_blocks_stay_in_order EU udp_7 [ntp_pcb; dhcp_pcb] udp_7_reached).
Defined.

Lemma udp_bind_exact_witness : ∃ p,
  pcbs udp_7 !! ntp_pcb = Some p ∧ port_in_use udp_7 [ntp_pcb; dhcp_pcb] ntp_pcb IPADDR_ANY 68 ∧
  wp (udp_bind ntp_pcb None 68) (λ r s',
    (r = ERR_USE ∧ s' = udp_7 ∧ 68 ≠ 0 ∧ port_in_use udp_7 [ntp_pcb; dhcp_pcb] ntp_pcb IPADDR_ANY 68) ∨
    (r = ERR_OK ∧ udp_ok EU s' (enlist ntp_pcb [ntp_pcb; dhcp_pcb]) ∧ (∀ y, y ≠ ntp_pcb → pcbs s' !! y = pcbs udp_7 !! y) ∧
     ∃ p', pcbs s' !! ntp_pcb = Some p' ∧ u_local_ip p' = IPADDR_ANY ∧
       ((68 ≠ 0 ∧ ¬ port_in_use udp_7 [ntp_pcb; dhcp_pcb] ntp_pcb IPADDR_ANY 68 ∧ u_local_port p' = 68) ∨
        (68 = 0 ∧ UDP_LOCAL_PORT_RANGE_START ≤ u_local_port p' ≤ UDP_LOCAL_PORT_RANGE_END ∧
         ∀ y, y ∈ [ntp_pcb; dhcp_pcb] → u_local_port (pcbs udp_7 !!! y) ≠ u_local_port p')))) udp_7.
Proof.
  eexists. split; [vm_compute; reflexivity|]. split.
  - exists dhcp_pcb. split_and!; [right; left|discriminate|vm_compute; reflexivity|right; left; reflexivity].
  - eapply (udp_bind_exact EU ntp_pcb _ None 68 [ntp_pcb; dhcp_pcb] udp_7 (udp_reach_ok EU _ _ udp_7_reached)); [vm_compute; reflexivity|lia].
Defined.

Lemma udp_demux_exact_witness :
  addressee ntp_answer 123 ntp_port (pcbs udp_7) [ntp_pcb; dhcp_pcb] = ntp_pcb ∧
  wp (udp_demux ntp_answer 123 ntp_port) (λ r s', r = addressee ntp_answer 123 ntp_port (pcbs udp_7) [ntp_pcb; dhcp_pcb] ∧
    udp_ok EU s' (reordered ntp_answer 123 ntp_port (pcbs udp_7) [ntp_pcb; dhcp_pcb]) ∧ relinked (pcbs udp_7) (pcbs s')) udp_7.
Proof.
  split; [vm_compute; reflexivity|].
  exact (udp_demux_exact EU ntp_answer 123 ntp_port [ntp_pcb; dhcp_pcb] udp_7 (udp_reach_ok EU _ _ udp_7_reached)).
Defined.

Lemma bound_block_gets_its_datagrams_witness :
  takes ntp_answer ntp_port (pcbs udp_7 !!! ntp_pcb) = true ∧
  wp (udp_demux ntp_answer 123 ntp_port) (λ r s',
    r = (if remote_match ntp_answer 123 (pcbs udp_7 !!! ntp_pcb) || (Z.land (u_flags (pcbs udp_7 !!! ntp_pcb)) UDP_FLAGS_CONNECTED =? 0) then ntp_pcb else NULL) ∧
    u_recv (pcbs s' !!! ntp_pcb) = u_recv (pcbs udp_7 !!! ntp_pcb) ∧ u_recv_arg (pcbs s' !!! ntp_pcb) = u_recv_arg (pcbs udp_7 !!! ntp_pcb)) udp_7.
Proof.
  split; [vm_compute; reflexivity|].
  apply (bound_block_gets_its_datagrams EU ntp_answer 123 ntp_port ntp_pcb [ntp_pcb; dhcp_pcb] udp_7 udp_7_reached); [by left|reflexivity|vm_compute; reflexivity].
Defined.
