(* ===== verification/Ip4.v ===== *)
(** The state of the protocols over the link, and [lwip/src/core/ipv4/ip4.c] for
    outgoing packets: routing with one interface, the header of a packet with its
    checksum.  Fragmentation is a parameter. *)
From stdpp Require Import base tactics numbers list gmap.
From S2P Require Import Prelude Words Def Checksum Ip4Addr Pbuf Memp PbufMem Net Etharp UdpPcb.

(** ** Constants *)

Definition IP_HLEN : Z := 20.
Definition UDP_HLEN : Z := 8.
Definition IP_PROTO_ICMP : Z := 1.
Definition IP_PROTO_UDP : Z := 17.
Definition NETIF_FLAG_UP : Z := 0x01.
Definition NETIF_FLAG_LINK_UP : Z := 0x04.
Definition NETIF_FLAG_ETHARP : Z := 0x08.

Definition netif_is_up (n : netif) : bool := negb (Z.land (n_flags n) NETIF_FLAG_UP =? 0).
Definition netif_is_link_up (n : netif) : bool := negb (Z.land (n_flags n) NETIF_FLAG_LINK_UP =? 0).
Definition netif_get_index (n : netif) : Z := u8 (n_num n + 1).
Definition ip4_addr_isloopback (addr : Z) : bool := Z.land addr (PP_HTONL 0xff000000) =? PP_HTONL 0x7f000000.

Definition set_if_idx (i : Z) (b : pbuf_s) : pbuf_s :=
  PbufS (b_next b) (b_payload b) (b_tot_len b) (b_len b) (b_type b) (b_flags b) (b_ref b) i.
Definition set_flags (f : Z) (b : pbuf_s) : pbuf_s :=
  PbufS (b_next b) (b_payload b) (b_tot_len b) (b_len b) (b_type b) f (b_ref b) (b_if_idx b).

(** ** State *)

(** [ip_data]: the packet that is being received. *)
Record ip_globals := IpGlobals {
  current_netif : Z;
  current_input_netif : Z;
  current_ip4_header : Z;
  current_ip_header_tot_len : Z;
  current_iphdr_src : Z;
  current_iphdr_dest : Z
}.

Section ip4.
Context {PP PR H PQ PU X : Type} `{Pool PP, Pool PR, Heap H, Pool PQ, Pool PU}.

(** The link and the packets, the UDP blocks, [ip_id], [ip_data], [netif_default],
    and what the users of UDP keep. *)
Record stack := Stack {
  st_net : net PP PR H PQ;
  st_udp : udp_mod PU;
  ip_id : Z;
  ip_data : ip_globals;
  netif_default : Z;
  clients : X
}.

Definition set_net (n : net PP PR H PQ) (s : stack) : stack :=
  Stack n (st_udp s) (ip_id s) (ip_data s) (netif_default s) (clients s).
Definition set_udp (u : udp_mod PU) (s : stack) : stack :=
  Stack (st_net s) u (ip_id s) (ip_data s) (netif_default s) (clients s).
Definition set_ip_id (i : Z) (s : stack) : stack :=
  Stack (st_net s) (st_udp s) i (ip_data s) (netif_default s) (clients s).
Definition set_ip_data (d : ip_globals) (s : stack) : stack :=
  Stack (st_net s) (st_udp s) (ip_id s) d (netif_default s) (clients s).
Definition set_clients (x : X) (s : stack) : stack :=
  Stack (st_net s) (st_udp s) (ip_id s) (ip_data s) (netif_default s) x.

Definition on_net {A} (m : M (net PP PR H PQ) A) : M stack A := zoom st_net set_net m.
Definition on_udp {A} (m : M (udp_mod PU) A) : M stack A := zoom st_udp set_udp m.
Definition on_bufs {A} (m : M (pmem PP PR H) A) : M stack A := on_net (on_pm m).

(** A chain of pbufs as the checksum functions walk it. *)
Fixpoint read_chain (n : nat) (p : Z) : M (net PP PR H PQ) placed :=
  match n with
  | O => fail OutOfFuel
  | S n =>
      if p =? NULL then mret []
      else
        b ← rd_pbuf p;
        d ← rd_bytes (b_payload b) (Z.to_nat (b_len b));
        c ← read_chain n (b_next b);
        mret ((b_payload b, Pbuf d (b_len b) (b_tot_len b)) :: c)
  end.

Definition placed_chain (p : Z) : M stack placed :=
  on_net (n ← gets (λ s, size (store (pm s))); read_chain (S n) p).

(** The release function of custom pbufs, the answers of the driver, and
    [ip4_frag]. *)
Context (custom_free : Z → M (pmem PP PR H) unit) (link_err : list frame → Z).
Context (ip4_frag : Z → Z → Z → M stack Z).

(** ** Routing *)

Definition ip4_route (dest : Z) : M stack Z :=
  d ← gets netif_default;
  if d =? NULL then mret NULL
  else
    n ← on_net (rd_netif d);
    if negb (netif_is_up n) || negb (netif_is_link_up n) || ip4_addr_isany_val (ip_addr n) || ip4_addr_isloopback dest
    then mret NULL else mret d.

Definition netif_get_by_index (idx : Z) : M stack Z :=
  if negb (idx =? NETIF_NO_INDEX) then
    d ← gets netif_default;
    if d =? NULL then mret NULL
    else n ← on_net (rd_netif d); mret (if idx =? netif_get_index n then d else NULL)
  else mret NULL.

(** ** Output *)

(** The header in front of the data of [p], from [u32_t chk_sum = 0] on. *)
Definition ip4_header (p src dest ttl tos proto : Z) : M stack unit :=
  b ← on_net (rd_pbuf p);
  let iphdr := b_payload b in
  assert_that (IP_HLEN <=? b_len b);;
  on_net (wr8 (iphdr + 8) ttl);;
  on_net (wr8 (iphdr + 9) proto);;
  let chk_sum := PP_HTONS (Z.lor proto (Z.shiftl ttl 8)) in
  on_net (wr32 (iphdr + 16) dest);;
  let chk_sum := u32 (chk_sum + Z.land dest 0xffff) in
  let chk_sum := u32 (chk_sum + Z.shiftr dest 16) in
  on_net (wr8 iphdr (u8 (Z.lor (Z.shiftl 4 4) (IP_HLEN / 4))));;
  on_net (wr8 (iphdr + 1) tos);;
  v_hl ← on_net (rd8 iphdr);
  let chk_sum := u32 (chk_sum + PP_HTONS (Z.lor tos (Z.shiftl v_hl 8))) in
  on_net (wr16 (iphdr + 2) (lwip_htons (b_tot_len b)));;
  len ← on_net (rd16 (iphdr + 2));
  let chk_sum := u32 (chk_sum + len) in
  on_net (wr16 (iphdr + 6) 0);;
  id ← gets ip_id;
  on_net (wr16 (iphdr + 4) (lwip_htons id));;
  id' ← on_net (rd16 (iphdr + 4));
  let chk_sum := u32 (chk_sum + id') in
  modify (set_ip_id (u16 (id + 1)));;
  on_net (wr32 (iphdr + 12) src);;
  let chk_sum := u32 (chk_sum + Z.land src 0xffff) in
  let chk_sum := u32 (chk_sum + Z.shiftr src 16) in
  let chk_sum := u32 (Z.shiftr chk_sum 16 + Z.land chk_sum 0xffff) in
  let chk_sum := u32 (Z.shiftr chk_sum 16 + chk_sum) in
  on_net (wr16 (iphdr + 10) (u16 (u32 (Z.lnot chk_sum)))).

(** [netif->output] is [etharp_output].  [dest] is NULL, [LWIP_IP_HDRINCL], if the
    packet has its header; a [src] that is NULL is the address 0. *)
Definition ip4_output_if_src (p : Z) (src dest : option Z) (ttl tos proto nif : Z) : M stack Z :=
  b ← on_net (rd_pbuf p);
  assert_that (b_ref b =? 1);;
  to ← match dest with
    | Some dest =>
        r ← on_bufs (pbuf_add_header p IP_HLEN);
        if negb (r =? 0) then mret None
        else ip4_header p (default IPADDR_ANY src) dest ttl tos proto;; mret (Some dest)
    | None =>
        if b_len b <? IP_HLEN then mret None
        else dest_addr ← on_net (rd32 (b_payload b + 16)); mret (Some dest_addr)
    end;
  match to with
  | None => mret ERR_BUF
  | Some dest =>
      n ← on_net (rd_netif nif);
      b ← on_net (rd_pbuf p);
      if negb (n_mtu n =? 0) && (n_mtu n <? b_tot_len b) then ip4_frag p nif dest
      else on_net (etharp_output custom_free link_err nif p dest)
  end.

Definition ip4_output_if (p : Z) (src dest : option Z) (ttl tos proto nif : Z) : M stack Z :=
  n ← on_net (rd_netif nif);
  let src_used :=
    match dest with
    | Some _ => match src with
                | None => Some (ip_addr n)
                | Some a => if ip4_addr_isany_val a then Some (ip_addr n) else src
                end
    | None => src
    end in
  ip4_output_if_src p src_used dest ttl tos proto nif.

Definition ip4_output (p : Z) (src : option Z) (dest ttl tos proto : Z) : M stack Z :=
  b ← on_net (rd_pbuf p);
  assert_that (b_ref b =? 1);;
  nif ← ip4_route dest;
  if nif =? NULL then mret ERR_RTE else ip4_output_if p src (Some dest) ttl tos proto nif.
End ip4.

Arguments stack : clear implicits.
