(* ===== verification/Icmp.v ===== *)
(** [lwip/src/core/ipv4/icmp.c]: the answer to an echo request, and the messages
    that say that a packet could not be delivered. *)
From stdpp Require Import base tactics numbers list gmap.
From S2P Require Import Prelude Words Def Checksum Ip4Addr Memp PbufMem Net Etharp UdpPcb Ip4.

Definition ICMP_ER : Z := 0.
Definition ICMP_DUR : Z := 3.
Definition ICMP_ECHO : Z := 8.
Definition ICMP_TE : Z := 11.
Definition ICMP_DUR_PROTO : Z := 2.
Definition ICMP_DUR_PORT : Z := 3.
Definition ICMP_TTL : Z := 255.
Definition ICMP_DEST_UNREACH_DATASIZE : Z := 8.
(** [sizeof(struct icmp_hdr)] and [sizeof(struct icmp_echo_hdr)]. *)
Definition SIZEOF_ICMP_HDR : Z := 8.

(** [IPH_HL_BYTES], of the first byte of a header. *)
Definition IPH_HL_BYTES (v_hl : Z) : Z := u8 (Z.land v_hl 0x0f * 4).

(** The checksum of a message whose type changes from [ICMP_ECHO] to [ICMP_ER]. *)
Definition adjust_chksum (chksum : Z) : Z :=
  if PP_HTONS (0xffff - Z.shiftl ICMP_ECHO 8) <? chksum then u16 (chksum + PP_HTONS (Z.shiftl ICMP_ECHO 8) + 1)
  else u16 (chksum + PP_HTONS (Z.shiftl ICMP_ECHO 8)).

Section icmp.
Context {PP PR H PQ PU X : Type} `{Pool PP, Pool PR, Heap H, Pool PQ, Pool PU}.
Context (custom_free : Z → M (pmem PP PR H) unit) (link_err : list frame → Z).
Context (ip4_frag : Z → Z → Z → M (stack PP PR H PQ PU X) Z).

Notation stack := (stack PP PR H PQ PU X).
Notation ip4_output_if := (ip4_output_if custom_free link_err ip4_frag).

Definition free_packet (p : Z) : M stack unit := on_bufs (pbuf_free custom_free p);; mret tt.

(** ** Errors *)

Definition icmp_send_response (p type code : Z) : M stack unit :=
  b ← on_net (rd_pbuf p);
  let response_pkt_len := IP_HLEN + ICMP_DEST_UNREACH_DATASIZE in
  let response_pkt_len := if b_tot_len b <? response_pkt_len then b_tot_len b else response_pkt_len in
  q ← on_bufs (pbuf_alloc custom_free PBUF_IP (SIZEOF_ICMP_HDR + response_pkt_len) PBUF_RAM);
  if q =? NULL then mret tt
  else
    qb ← on_net (rd_pbuf q);
    assert_that (SIZEOF_ICMP_HDR + response_pkt_len <=? b_len qb);;
    let iphdr := b_payload b in
    let icmphdr := b_payload qb in
    on_net (wr8 icmphdr type);;
    on_net (wr8 (icmphdr + 1) code);;
    on_net (wr32 (icmphdr + 4) 0);;
    on_net (pbuf_copy_partial_pbuf q p response_pkt_len SIZEOF_ICMP_HDR);;
    iphdr_src ← on_net (rd32 (iphdr + 12));
    netif ← ip4_route iphdr_src;
    when_ (negb (netif =? NULL))
      (on_net (wr16 (icmphdr + 2) 0);;
       d ← on_net (rd_bytes icmphdr (Z.to_nat (b_len qb)));
       on_net (wr16 (icmphdr + 2) (inet_chksum icmphdr d));;
       ip4_output_if q None (Some iphdr_src) ICMP_TTL 0 IP_PROTO_ICMP netif;;
       mret tt);;
    free_packet q.

Definition icmp_dest_unreach (p t : Z) : M stack unit := icmp_send_response p ICMP_DUR t.
Definition icmp_time_exceeded (p t : Z) : M stack unit := icmp_send_response p ICMP_TE t.

(** ** Echo *)

(** Room for the headers in front of [p], or in front of a copy that takes its
    place; [None]: to [icmperr]. *)
Definition echo_room (p hlen iphdr_in : Z) : M stack (option Z) :=
  e ← on_bufs (pbuf_add_header p (hlen + PBUF_LINK_HLEN));
  if negb (e =? 0) then
    b ← on_net (rd_pbuf p);
    let alloc_len := u16 (b_tot_len b + hlen) in
    if alloc_len <? b_tot_len b then mret None
    else
      r ← on_bufs (pbuf_alloc custom_free PBUF_LINK alloc_len PBUF_RAM);
      if r =? NULL then mret None
      else
        rb ← on_net (rd_pbuf r);
        if b_len rb <? hlen + SIZEOF_ICMP_HDR then free_packet r;; mret None
        else
          d ← on_net (rd_bytes iphdr_in (Z.to_nat hlen));
          on_net (wr_bytes (b_payload rb) d);;
          e ← on_bufs (pbuf_remove_header r hlen);
          assert_that (e =? 0);;
          e ← on_net (pbuf_copy r p);
          if negb (e =? ERR_OK) then free_packet r;; mret None
          else free_packet p;; mret (Some r)
  else
    e ← on_bufs (pbuf_remove_header p (hlen + PBUF_LINK_HLEN));
    assert_that (e =? 0);;
    mret (Some p).

(** The request becomes the answer: addresses exchanged, type and checksums
    changed.  [src] is the address it was sent to. *)
Definition echo_reply (p src hlen inp : Z) : M stack unit :=
  b ← on_net (rd_pbuf p);
  let iecho := b_payload b in
  e ← on_bufs (pbuf_add_header p hlen);
  if negb (e =? 0) then mret tt
  else
    b ← on_net (rd_pbuf p);
    let iphdr := b_payload b in
    on_net (wr32 (iphdr + 12) src);;
    dest ← gets (λ s, current_iphdr_src (ip_data s));
    on_net (wr32 (iphdr + 16) dest);;
    on_net (wr8 iecho ICMP_ER);;
    on_bufs (wr p (set_if_idx NETIF_NO_INDEX));;
    chksum ← on_net (rd16 (iecho + 2));
    on_net (wr16 (iecho + 2) (adjust_chksum chksum));;
    on_net (wr8 (iphdr + 8) ICMP_TTL);;
    on_net (wr16 (iphdr + 10) 0);;
    d ← on_net (rd_bytes iphdr (Z.to_nat hlen));
    on_net (wr16 (iphdr + 10) (inet_chksum iphdr d));;
    ip4_output_if p (Some src) None ICMP_TTL 0 IP_PROTO_ICMP inp;;
    mret tt.

(** The case [ICMP_ECHO]. *)
Definition icmp_echo (p inp hlen iphdr_in : Z) : M stack unit :=
  src ← gets (λ s, current_iphdr_dest (ip_data s));
  if ip4_addr_ismulticast src then free_packet p
  else
    nif ← gets (λ s, current_netif (ip_data s));
    n ← on_net (rd_netif nif);
    if ip4_addr_isbroadcast_u32 src n then free_packet p
    else
      b ← on_net (rd_pbuf p);
      if b_tot_len b <? SIZEOF_ICMP_HDR then free_packet p
      else
        c ← placed_chain p;
        if negb (inet_chksum_pbuf c =? 0) then free_packet p
        else
          r ← echo_room p hlen iphdr_in;
          match r with
          | None => free_packet p
          | Some p => echo_reply p src hlen inp;; free_packet p
          end.

Definition icmp_input (p inp : Z) : M stack unit :=
  iphdr_in ← gets (λ s, current_ip4_header (ip_data s));
  v_hl ← on_net (rd8 iphdr_in);
  let hlen := IPH_HL_BYTES v_hl in
  if hlen <? IP_HLEN then free_packet p
  else
    b ← on_net (rd_pbuf p);
    if b_len b <? 2 * 2 then free_packet p
    else
      type ← on_net (rd8 (b_payload b));
      if type =? ICMP_ECHO then icmp_echo p inp hlen iphdr_in else free_packet p.
End icmp.
