(* ===== verification/UdpIo.v ===== *)
(** Sending and receiving of [lwip/src/core/udp.c], on the blocks of [UdpPcb].  The
    functions that the users registered for what they receive are a parameter. *)
From stdpp Require Import base tactics numbers list gmap.
From S2P Require Import Prelude Words Def Checksum Ip4Addr Memp PbufMem Net Etharp UdpPcb Ip4 Icmp.

Section udp_io.
Context {PP PR H PQ PU X : Type} `{Pool PP, Pool PR, Heap H, Pool PQ, Pool PU}.
Context (custom_free : Z → M (pmem PP PR H) unit) (link_err : list frame → Z).
Context (ip4_frag : Z → Z → Z → M (stack PP PR H PQ PU X) Z).
(** [pcb->recv(pcb->recv_arg, pcb, p, addr, port)]. *)
Context (call_recv : Z → Z → Z → Z → Z → Z → M (stack PP PR H PQ PU X) unit).

Notation stack := (stack PP PR H PQ PU X).
Notation ip4_output_if_src := (ip4_output_if_src custom_free link_err ip4_frag).
Notation icmp_dest_unreach := (icmp_dest_unreach custom_free link_err ip4_frag).

(** ** Sending *)

(** The header in [p], or in a pbuf of its own in front of it. *)
Definition udp_header_room (p : Z) : M stack (option Z) :=
  b ← on_net (rd_pbuf p);
  e ← on_bufs (pbuf_add_header p UDP_HLEN);
  if negb (e =? 0) then
    q ← on_bufs (pbuf_alloc custom_free PBUF_IP UDP_HLEN PBUF_RAM);
    if q =? NULL then mret None
    else when_ (negb (b_tot_len b =? 0)) (on_bufs (pbuf_chain q p));; mret (Some q)
  else mret (Some p).

(** From [udphdr->src = ...] to the checksum. *)
Definition udp_fill (pcb q src_ip dst_ip dst_port : Z) : M stack unit :=
  qb ← on_net (rd_pbuf q);
  assert_that (UDP_HLEN <=? b_len qb);;
  let udphdr := b_payload qb in
  u ← on_udp (rd_pcb pcb);
  on_net (wr16 udphdr (lwip_htons (u_local_port u)));;
  on_net (wr16 (udphdr + 2) (lwip_htons dst_port));;
  on_net (wr16 (udphdr + 6) 0);;
  on_net (wr16 (udphdr + 4) (lwip_htons (b_tot_len qb)));;
  when_ (Z.land (u_flags u) UDP_FLAGS_NOCHKSUM =? 0)
    (c ← placed_chain q;
     let udpchksum := ip_chksum_pseudo c IP_PROTO_UDP (b_tot_len qb) src_ip dst_ip in
     on_net (wr16 (udphdr + 6) (if udpchksum =? 0 then 0xffff else udpchksum))).

Definition udp_sendto_if_src (pcb p : Z) (dst_ip : option Z) (dst_port netif : Z) (src_ip : option Z) : M stack Z :=
  if (pcb =? NULL) || (p =? NULL) then mret ERR_ARG
  else
    match dst_ip, src_ip with
    | Some dst_ip, Some src_ip =>
        if netif =? NULL then mret ERR_ARG
        else
          u ← on_udp (rd_pcb pcb);
          err ← (if u_local_port u =? 0 then on_udp (udp_bind pcb (Some (u_local_ip u)) (u_local_port u)) else mret ERR_OK);
          if negb (err =? ERR_OK) then mret err
          else
            b ← on_net (rd_pbuf p);
            if u16 (b_tot_len b + UDP_HLEN) <? b_tot_len b then mret ERR_MEM
            else
              r ← udp_header_room p;
              match r with
              | None => mret ERR_MEM
              | Some q =>
                  udp_fill pcb q src_ip dst_ip dst_port;;
                  u ← on_udp (rd_pcb pcb);
                  err ← ip4_output_if_src q (Some src_ip) (Some dst_ip) (u_ttl u) (u_tos u) IP_PROTO_UDP netif;
                  when_ (negb (q =? p)) (free_packet custom_free q);;
                  mret err
              end
    | _, _ => mret ERR_ARG
    end.

Definition udp_sendto_if (pcb p : Z) (dst_ip : option Z) (dst_port netif : Z) : M stack Z :=
  if (pcb =? NULL) || (p =? NULL) || bool_decide (dst_ip = None) || (netif =? NULL) then mret ERR_ARG
  else
    u ← on_udp (rd_pcb pcb);
    n ← on_net (rd_netif netif);
    if ip4_addr_isany_val (u_local_ip u) || ip4_addr_ismulticast (u_local_ip u) then
      udp_sendto_if_src pcb p dst_ip dst_port netif (Some (ip_addr n))
    else if negb (u_local_ip u =? ip_addr n) then mret ERR_RTE
    else udp_sendto_if_src pcb p dst_ip dst_port netif (Some (u_local_ip u)).

Definition udp_sendto (pcb p : Z) (dst_ip : option Z) (dst_port : Z) : M stack Z :=
  if (pcb =? NULL) || (p =? NULL) then mret ERR_ARG
  else
    match dst_ip with
    | None => mret ERR_ARG
    | Some dst =>
        u ← on_udp (rd_pcb pcb);
        netif ← (if negb (u_netif_idx u =? NETIF_NO_INDEX) then netif_get_by_index (u_netif_idx u) else ip4_route dst);
        if netif =? NULL then mret ERR_RTE else udp_sendto_if pcb p dst_ip dst_port netif
    end.

Definition udp_send (pcb p : Z) : M stack Z :=
  if (pcb =? NULL) || (p =? NULL) then mret ERR_ARG
  else u ← on_udp (rd_pcb pcb); udp_sendto pcb p (Some (u_remote_ip u)) (u_remote_port u).

(** ** Receiving *)

(** A datagram whose checksum is right, after its header. *)
Definition udp_deliver (p pcb src : Z) (a : arrival) : M stack unit :=
  e ← on_bufs (pbuf_remove_header p UDP_HLEN);
  assert_that (e =? 0);;
  if negb (pcb =? NULL) then
    u ← on_udp (rd_pcb pcb);
    if negb (u_recv u =? NULL) then call_recv (u_recv u) (u_recv_arg u) pcb p (a_src a) src
    else free_packet custom_free p
  else
    when_ (negb (a_broadcast a) && negb (ip4_addr_ismulticast (a_dest a)))
      (hlen ← gets (λ s, current_ip_header_tot_len (ip_data s));
       on_bufs (pbuf_header_force p (hlen + UDP_HLEN));;
       icmp_dest_unreach p ICMP_DUR_PORT);;
    free_packet custom_free p.

(** What [udp_input] knows of the packet from [ip_data]. *)
Definition this_arrival (inp : Z) : M stack arrival :=
  d ← gets ip_data;
  n ← on_net (rd_netif (current_netif d));
  i ← on_net (rd_netif (current_input_netif d));
  m ← on_net (rd_netif inp);
  mret (Arrival m (netif_get_index i) (current_iphdr_src d) (current_iphdr_dest d)
          (ip4_addr_isbroadcast_u32 (current_iphdr_dest d) n)).

Definition udp_input (p inp : Z) : M stack unit :=
  assert_that (negb (p =? NULL));;
  assert_that (negb (inp =? NULL));;
  b ← on_net (rd_pbuf p);
  if b_len b <? UDP_HLEN then free_packet custom_free p
  else
    let udphdr := b_payload b in
    a ← this_arrival inp;
    src ← on_net (rd16 udphdr);
    dest ← on_net (rd16 (udphdr + 2));
    let src := lwip_htons src in
    let dest := lwip_htons dest in
    pcb ← on_udp (udp_demux a src dest);
    if negb (pcb =? NULL) || (ip_addr (a_inp a) =? a_dest a) then
      chksum ← on_net (rd16 (udphdr + 6));
      bad ← (if negb (chksum =? 0) then
               c ← placed_chain p;
               mret (negb (ip_chksum_pseudo c IP_PROTO_UDP (b_tot_len b) (a_src a) (a_dest a) =? 0))
             else mret false);
      if bad : bool then free_packet custom_free p else udp_deliver p pcb src a
    else free_packet custom_free p.
End udp_io.
