(* ===== verification/Ip4In.v ===== *)
(** A frame from the driver: [ethernet_input] of [lwip/src/netif/ethernet.c] and
    [ip4_input] of [lwip/src/core/ipv4/ip4.c].  Reassembly is a parameter. *)
From stdpp Require Import base tactics numbers list gmap.
From S2P Require Import Prelude Words Def Checksum Ip4Addr Memp PbufMem Net Etharp UdpPcb Ip4 Icmp UdpIo.

Definition IP_MF : Z := 0x2000.
Definition IP_OFFMASK : Z := 0x1fff.
Definition LWIP_IANA_PORT_DHCP_CLIENT : Z := 68.
Definition LL_IP4_MULTICAST_ADDR_0 : Z := 0x01.
Definition LL_IP4_MULTICAST_ADDR_1 : Z := 0x00.
Definition LL_IP4_MULTICAST_ADDR_2 : Z := 0x5e.
Definition PBUF_FLAG_LLBCAST : Z := 0x08.
Definition PBUF_FLAG_LLMCAST : Z := 0x10.
Definition no_packet : ip_globals := IpGlobals NULL NULL NULL 0 0 0.

Definition IP_ACCEPT_LINK_LAYER_ADDRESSED_PORT (port : Z) : bool := port =? PP_HTONS LWIP_IANA_PORT_DHCP_CLIENT.

(** The flags for a destination address on the link. *)
Definition link_flags (dest : list Z) : Z :=
  if Z.land (nth 0 dest 0) 1 =? 0 then 0
  else if nth 0 dest 0 =? LL_IP4_MULTICAST_ADDR_0 then
    if (nth 1 dest 0 =? LL_IP4_MULTICAST_ADDR_1) && (nth 2 dest 0 =? LL_IP4_MULTICAST_ADDR_2) then PBUF_FLAG_LLMCAST else 0
  else if bool_decide (dest = ethbroadcast) then PBUF_FLAG_LLBCAST
  else 0.

Section ip4_in.
Context {PP PR H PQ PU X : Type} `{Pool PP, Pool PR, Heap H, Pool PQ, Pool PU}.
Context (custom_free : Z → M (pmem PP PR H) unit) (link_err : list frame → Z).
Context (ip4_frag : Z → Z → Z → M (stack PP PR H PQ PU X) Z) (ip4_reass : Z → M (stack PP PR H PQ PU X) Z).
Context (call_recv : Z → Z → Z → Z → Z → Z → M (stack PP PR H PQ PU X) unit).

Notation stack := (stack PP PR H PQ PU X).
Notation free_packet := (free_packet custom_free).

Definition ip4_input_accept (netif : Z) : M stack bool :=
  n ← on_net (rd_netif netif);
  dest ← gets (λ s, current_iphdr_dest (ip_data s));
  mret (netif_is_up n && negb (ip4_addr_isany_val (ip_addr n)) && ((dest =? ip_addr n) || ip4_addr_isbroadcast_u32 dest n)).

(** The interface that takes the packet, or NULL, and whether its source is to be
    looked at. *)
Definition accepting_netif (inp iphdr hlen : Z) : M stack (Z * bool) :=
  dest ← gets (λ s, current_iphdr_dest (ip_data s));
  n ← on_net (rd_netif inp);
  netif ← (if ip4_addr_ismulticast dest then
             mret (if netif_is_up n && negb (ip4_addr_isany_val (ip_addr n)) then inp else NULL)
           else acc ← ip4_input_accept inp; mret (if acc : bool then inp else NULL));
  if netif =? NULL then
    proto ← on_net (rd8 (iphdr + 9));
    if proto =? IP_PROTO_UDP then
      port ← on_net (rd16 (iphdr + hlen + 2));
      if IP_ACCEPT_LINK_LAYER_ADDRESSED_PORT port then mret (inp, false) else mret (netif, true)
    else mret (netif, true)
  else mret (netif, true).

(** The switch on the protocol. *)
Definition to_protocol (p inp netif iphdr hlen : Z) : M stack unit :=
  proto ← on_net (rd8 (iphdr + 9));
  if proto =? IP_PROTO_UDP then udp_input custom_free link_err ip4_frag call_recv p inp
  else if proto =? IP_PROTO_ICMP then icmp_input custom_free link_err ip4_frag p inp
  else
    n ← on_net (rd_netif netif);
    dest ← gets (λ s, current_iphdr_dest (ip_data s));
    when_ (negb (ip4_addr_isbroadcast_u32 dest n) && negb (ip4_addr_ismulticast dest))
      (on_bufs (pbuf_header_force p hlen);; icmp_dest_unreach custom_free link_err ip4_frag p ICMP_DUR_PROTO);;
    free_packet p.

(** From [ip_data.current_netif = netif] on. *)
Definition pass_up (p inp netif iphdr hlen : Z) : M stack Z :=
  v_hl ← on_net (rd8 iphdr);
  modify (λ s, set_ip_data (IpGlobals netif inp iphdr (IPH_HL_BYTES v_hl)
                              (current_iphdr_src (ip_data s)) (current_iphdr_dest (ip_data s))) s);;
  on_bufs (pbuf_remove_header p hlen);;
  to_protocol p inp netif iphdr hlen;;
  modify (set_ip_data no_packet);;
  mret ERR_OK.

Definition ip4_input (p inp : Z) : M stack Z :=
  let drop := free_packet p;; mret ERR_OK in
  b ← on_net (rd_pbuf p);
  let iphdr := b_payload b in
  v_hl ← on_net (rd8 iphdr);
  if negb (Z.shiftr v_hl 4 =? 4) then drop
  else
    let iphdr_hlen := IPH_HL_BYTES v_hl in
    len ← on_net (rd16 (iphdr + 2));
    let iphdr_len := lwip_htons len in
    when_ (iphdr_len <? b_tot_len b) (on_bufs (pbuf_realloc custom_free p iphdr_len));;
    b ← on_net (rd_pbuf p);
    if (b_len b <? iphdr_hlen) || (b_tot_len b <? iphdr_len) || (iphdr_hlen <? IP_HLEN) then drop
    else
      d ← on_net (rd_bytes iphdr (Z.to_nat iphdr_hlen));
      if negb (inet_chksum iphdr d =? 0) then drop
      else
        dest ← on_net (rd32 (iphdr + 16));
        src ← on_net (rd32 (iphdr + 12));
        modify (λ s, set_ip_data (IpGlobals (current_netif (ip_data s)) (current_input_netif (ip_data s)) (current_ip4_header (ip_data s))
                                    (current_ip_header_tot_len (ip_data s)) src dest) s);;
        '(netif, check_ip_src) ← accepting_netif inp iphdr iphdr_hlen;
        n ← on_net (rd_netif inp);
        if check_ip_src && negb (ip4_addr_isany_val src) && (ip4_addr_isbroadcast_u32 src n || ip4_addr_ismulticast src) then drop
        else if netif =? NULL then drop
        else
          offset ← on_net (rd16 (iphdr + 6));
          if negb (Z.land offset (PP_HTONS (Z.lor IP_OFFMASK IP_MF)) =? 0) then
            p ← ip4_reass p;
            if p =? NULL then mret ERR_OK
            else b ← on_net (rd_pbuf p); pass_up p inp netif (b_payload b) iphdr_hlen
          else pass_up p inp netif iphdr iphdr_hlen.

Definition ethernet_input (p netif : Z) : M stack Z :=
  let free_and_return := free_packet p;; mret ERR_OK in
  b ← on_net (rd_pbuf p);
  if b_len b <=? SIZEOF_ETH_HDR then free_and_return
  else
    let ethhdr := b_payload b in
    type ← on_net (rd16 (ethhdr + 12));
    n ← on_net (rd_netif netif);
    when_ (b_if_idx b =? NETIF_NO_INDEX) (on_bufs (wr p (set_if_idx (netif_get_index n))));;
    dest ← on_net (rd_bytes ethhdr 6);
    on_bufs (wr p (λ b, set_flags (Z.lor (b_flags b) (link_flags dest)) b));;
    if type =? PP_HTONS ETHTYPE_IP then
      if Z.land (n_flags n) NETIF_FLAG_ETHARP =? 0 then free_and_return
      else
        e ← on_bufs (pbuf_remove_header p SIZEOF_ETH_HDR);
        if negb (e =? 0) then free_and_return else ip4_input p netif;; mret ERR_OK
    else if type =? PP_HTONS ETHTYPE_ARP then
      if Z.land (n_flags n) NETIF_FLAG_ETHARP =? 0 then free_and_return
      else
        e ← on_bufs (pbuf_remove_header p SIZEOF_ETH_HDR);
        if negb (e =? 0) then free_and_return else on_net (etharp_input custom_free link_err p netif);; mret ERR_OK
    else free_and_return.
End ip4_in.
