(* ===== verification/StackThm.v ===== *)
(** The packets on the wire, the state of the protocols above the link, and what
    [Ip4] sends. *)
From stdpp Require Import base tactics numbers list gmap.
From S2P Require Import Prelude Words Pbuf Def Checksum Memp PbufMem PbufThm PbufOps Ip4Addr Net NetThm Etharp EtharpThm EtharpOps EtharpSend EtharpQuery UdpPcb UdpPcbThm UdpPcbSafe Ip4 Icmp UdpIo.

(** * Headers

    The bytes of IP and UDP headers, and that the checksums in them are right. *)

(** ** Formats *)

Definition addr_bytes (a : Z) : list Z := [byte_at a 0; byte_at a 1; byte_at a 2; byte_at a 3].

(** [struct ip_hdr] without options; [chk] as it is in memory. *)
Definition ip4_fields (tos len id ttl proto chk src dest : Z) : list Z :=
  [0x45; tos] ++ be16 len ++ be16 id ++ [0; 0] ++ [ttl; proto] ++ word_bytes chk ++ addr_bytes src ++ addr_bytes dest.
Definition ip4_chksum (tos len id ttl proto src dest : Z) : Z := complement (le_num (ip4_fields tos len id ttl proto 0 src dest)).
Definition ip4_hdr (tos len id ttl proto src dest : Z) : list Z :=
  ip4_fields tos len id ttl proto (ip4_chksum tos len id ttl proto src dest) src dest.

(** [struct udp_hdr]. *)
Definition udp_fields (src dest len chk : Z) : list Z := be16 src ++ be16 dest ++ be16 len ++ word_bytes chk.
Definition udp_sum (sip dip src dest len chk : Z) (data : list Z) : Z :=
  complement (le_num (pseudo_header sip dip 17 len ++ udp_fields src dest len chk ++ data)).
(** A sum of 0 is sent as 0xffff, as 0 stands for no checksum. *)
Definition udp_chksum (sip dip src dest len : Z) (data : list Z) : Z :=
  let c := udp_sum sip dip src dest len 0 data in if c =? 0 then 0xffff else c.
Definition udp_hdr (sip dip src dest : Z) (data : list Z) : list Z :=
  let len := 8 + Z.of_nat (length data) in udp_fields src dest len (udp_chksum sip dip src dest len data).

(** ** Bytes *)

Lemma addr_le a : le_bytes 4 a = addr_bytes a.
Proof. done. Qed.
Lemma word_le w : le_bytes 2 w = word_bytes w.
Proof. done. Qed.

Lemma be16_ok x : Forall byte_ok (be16 x).
Proof. repeat constructor; apply byte_at_ok. Qed.
Lemma word_ok w : Forall byte_ok (word_bytes w).
Proof. repeat constructor; apply byte_at_ok. Qed.
Lemma addr_ok a : Forall byte_ok (addr_bytes a).
Proof. repeat constructor; apply byte_at_ok. Qed.

(** All bytes of a list made of these are bytes. *)
Ltac bytes_ok := repeat first [done | apply be16_ok | apply word_ok | apply addr_ok | apply byte_at_ok | apply Forall_app; split
  | apply List.Forall_nil | apply List.Forall_cons].

Lemma ip4_fields_ok tos len id ttl proto chk src dest :
  byte_ok tos → byte_ok ttl → byte_ok proto → Forall byte_ok (ip4_fields tos len id ttl proto chk src dest).
Proof. intros. unfold ip4_fields. bytes_ok. Qed.

Lemma udp_fields_ok src dest len chk : Forall byte_ok (udp_fields src dest len chk).
Proof. unfold udp_fields. bytes_ok. Qed.

Lemma le_value_word w : 0 ≤ w < 65536 → le_value (word_bytes w) = w.
Proof. intros Hw. pose proof (word_bytes_value w Hw). simpl. lia. Qed.

Lemma le_value_be16 x : 0 ≤ x < 65536 → le_value (be16 x) = lwip_htons x.
Proof. intros Hx. rewrite htons_bytes by done. simpl. lia. Qed.

Lemma le_value_addr a : 0 ≤ a < 4294967296 → le_value (addr_bytes a) = a.
Proof.
  intros Ha. unfold addr_bytes, le_value. rewrite !byte_at_div by lia.
  change (2 ^ (8 * 0)) with 1. change (2 ^ (8 * 1)) with 256. change (2 ^ (8 * 2)) with 65536. change (2 ^ (8 * 3)) with 16777216.
  rewrite Z.div_1_r. Z.div_mod_to_equations. lia.
Qed.

(** ** Checksums *)

(** A checksum put at an even place makes the sum right. *)
Lemma sum_right d1 d2 w :
  Nat.even (length d1) = true → Forall byte_ok d1 → Forall byte_ok d2 → 
  let c := complement (le_num (d1 ++ [0; 0] ++ d2)) in w = c ∨ c = 0 ∧ w = 0xffff →
  complement (le_num (d1 ++ word_bytes w ++ d2)) = 0.
Proof.
  intros He H1 H2 c Hw. pose proof (complement_range (le_num (d1 ++ [0; 0] ++ d2))) as Hr. fold c in Hr.
  assert (0 ≤ w < 65536) as Hwr by (destruct Hw as [->|[_ ->]]; lia).
  pose proof (aligned_word d1 (byte_at w 0) (byte_at w 1) d2 He (byte_at_ok _ _) (byte_at_ok _ _) H1 H2) as Hs.
  rewrite word_bytes_value in Hs by done.
  set (S := le_num (d1 ++ [0; 0] ++ d2)) in *. assert (0 ≤ S) as HS.
  { apply le_num_pos. rewrite !Forall_app. split; [done|]. split; [|done]. repeat constructor; done. }
  unfold complement. change ([byte_at w 0; byte_at w 1] ++ d2) with (word_bytes w ++ d2) in Hs. rewrite (ones_same _ _ Hs).
  enough (65535 = ones (S + w)) by lia. apply ones_unique; [done|].
  pose proof (ones_sum S HS) as (_ & _ & Hz & [k Hk]). pose proof (ones_range S) as Ho. unfold c, complement in *. split_and!; [done|lia|lia|].
  destruct Hw as [->|[Ec ->]]; [exists (k)|exists (k - 1)]; lia.
Qed.

Lemma ip4_hdr_sum tos len id ttl proto src dest :
  byte_ok tos → byte_ok ttl → byte_ok proto → complement (le_num (ip4_hdr tos len id ttl proto src dest)) = 0.
Proof.
  intros Ht Hl Hp. unfold ip4_hdr, ip4_fields. set (w := ip4_chksum _ _ _ _ _ _ _).
  apply (sum_right ([0x45; tos] ++ be16 len ++ be16 id ++ [0; 0] ++ [ttl; proto]) (addr_bytes src ++ addr_bytes dest) w); [done|bytes_ok|bytes_ok|by left].
Qed.

Lemma udp_chksum_range sip dip src dest len data : 0 < udp_chksum sip dip src dest len data < 65536.
Proof. unfold udp_chksum. pose proof (complement_range (le_num (pseudo_header sip dip 17 len ++ udp_fields src dest len 0 ++ data))) as Hr. unfold udp_sum. destruct (Z.eqb_spec (complement (le_num (pseudo_header sip dip 17 len ++ udp_fields src dest len 0 ++ data))) 0); lia. Qed.

Lemma udp_sum_right sip dip src dest len data :
  Forall byte_ok data → udp_sum sip dip src dest len (udp_chksum sip dip src dest len data) data = 0.
Proof.
  intros Hd. unfold udp_sum, udp_fields. set (d1 := pseudo_header sip dip 17 len ++ be16 src ++ be16 dest ++ be16 len).
  set (c := udp_chksum sip dip src dest len data).
  replace (pseudo_header sip dip 17 len ++ (be16 src ++ be16 dest ++ be16 len ++ word_bytes c) ++ data) with (d1 ++ word_bytes c ++ data)
    by (unfold d1; by rewrite <-!app_assoc).
  apply sum_right; [done| |done|].
  - unfold d1, pseudo_header. bytes_ok.
  - change (complement (le_num (d1 ++ [0; 0] ++ data))) with (udp_sum sip dip src dest len 0 data).
    unfold c, udp_chksum. destruct (Z.eqb_spec (udp_sum sip dip src dest len 0 data) 0); [by right|by left].
Qed.

(** ** The sum [ip4_output_if_src] makes as it writes the header *)

(** The sum of the words of the header, folded as the code does it. *)
Lemma folded_sum n : 0 ≤ n < 1048576 →
  let c := u32 (Z.shiftr n 16 + Z.land n 0xffff) in let c := u32 (Z.shiftr c 16 + c) in u16 (u32 (Z.lnot c)) = complement n.
Proof.
  intros Hn. destruct (halves n) as (E & Hh & Hl); [lia|]. set (h := Z.shiftr n 16) in *. set (l := Z.land n 0xffff) in *.
  assert (h ≤ 15) by lia. cbv zeta. rewrite (u32_id (h + l)) by lia. clearbody h l. remember (h + l) as c eqn:Ec.
  destruct (halves c) as (E' & Hh' & Hl'); [lia|]. set (h' := Z.shiftr c 16) in *. set (l' := Z.land c 0xffff) in *. clearbody h' l'. assert (h' ≤ 1) by lia.
  rewrite (u32_id (h' + c)) by lia. assert (u16 (u32 (Z.lnot (h' + c))) = 65535 - (h' + l')) as ->.
  { unfold u16, u32, Z.lnot. rewrite Z.mod_mod_divide by (exists 65536; done). rewrite <-Z.sub_1_r.
    symmetry. apply (Z.mod_unique_pos _ _ (- 1 - h')); lia. }
  unfold complement. f_equal. apply ones_unique; [lia|]. split_and!; [lia|lia|lia|]. exists (- (h + h')). lia.
Qed.

Lemma lor_bytes x y : byte_ok x → byte_ok y → PP_HTONS (Z.lor x (Z.shiftl y 8)) = y + 256 * x.
Proof.
  intros Hx Hy. assert (Z.lor x (Z.shiftl y 8) = y * 256 + x) as -> by (unfold byte_ok in Hx; by rewrite Z.lor_comm, lor_shiftl_add by (try done; lia)).
  change (PP_HTONS (y * 256 + x)) with (lwip_htons (y * 256 + x)). unfold byte_ok in *. rewrite lwip_htons_value by lia. Z.div_mod_to_equations. lia.
Qed.

Lemma inline_chksum tos len id ttl proto src dest :
  byte_ok tos → byte_ok ttl → byte_ok proto → 0 ≤ len < 65536 → 0 ≤ id < 65536 → 0 ≤ src < 4294967296 → 0 ≤ dest < 4294967296 →
  let c := PP_HTONS (Z.lor proto (Z.shiftl ttl 8)) in
  let c := u32 (c + Z.land dest 0xffff) in let c := u32 (c + Z.shiftr dest 16) in
  let c := u32 (c + PP_HTONS (Z.lor tos (Z.shiftl 0x45 8))) in
  let c := u32 (c + lwip_htons len) in let c := u32 (c + lwip_htons id) in
  let c := u32 (c + Z.land src 0xffff) in let c := u32 (c + Z.shiftr src 16) in
  let c := u32 (Z.shiftr c 16 + Z.land c 0xffff) in let c := u32 (Z.shiftr c 16 + c) in
  u16 (u32 (Z.lnot c)) = ip4_chksum tos len id ttl proto src dest.
Proof.
  intros Ht Hl Hp Hlen Hid Hs Hd. cbv zeta. rewrite !lor_bytes by done. destruct (half_words src Hs) as [E1 E2], (half_words dest Hd) as [E3 E4].
  assert (∀ x, 0 ≤ x < 4294967296 → Z.shiftr x 16 = Z.land (Z.shiftr x 16) 0xffff) as Hhi.
  { intros x Hx. change 0xffff with (Z.ones 16). rewrite land_mask, Z.shiftr_div_pow2 by lia. change (2 ^ 16) with 65536. rewrite Z.mod_small; [done|].
    split; [by apply Z.div_pos; lia|apply Z.div_lt_upper_bound; lia]. }
  rewrite (Hhi src Hs), (Hhi dest Hd), E1, E2, E3, E4, !htons_bytes by done.
  assert (byte_ok (byte_at src 0) ∧ byte_ok (byte_at src 1) ∧ byte_ok (byte_at src 2) ∧ byte_ok (byte_at src 3) ∧
    byte_ok (byte_at dest 0) ∧ byte_ok (byte_at dest 1) ∧ byte_ok (byte_at dest 2) ∧ byte_ok (byte_at dest 3) ∧
    byte_ok (byte_at len 0) ∧ byte_ok (byte_at len 1) ∧ byte_ok (byte_at id 0) ∧ byte_ok (byte_at id 1)) as Hb by (split_and!; apply byte_at_ok).
  unfold ip4_chksum, ip4_fields, be16, addr_bytes, word_bytes.
  set (s0 := byte_at src 0) in *. set (s1 := byte_at src 1) in *. set (s2 := byte_at src 2) in *. set (s3 := byte_at src 3) in *.
  set (d0 := byte_at dest 0) in *. set (d1 := byte_at dest 1) in *. set (d2 := byte_at dest 2) in *. set (d3 := byte_at dest 3) in *.
  set (l0 := byte_at len 0) in *. set (l1 := byte_at len 1) in *. set (i0 := byte_at id 0) in *. set (i1 := byte_at id 1) in *.
  clearbody s0 s1 s2 s3 d0 d1 d2 d3 l0 l1 i0 i1. unfold byte_ok in *.
  rewrite (u32_id (_ + (d0 + _))) by lia. rewrite (u32_id (_ + (d2 + _))) by lia. rewrite (u32_id (_ + (0x45 + _))) by lia.
  rewrite (u32_id (_ + (l1 + _))) by lia. rewrite (u32_id (_ + (i1 + _))) by lia. rewrite (u32_id (_ + (s0 + _))) by lia. rewrite (u32_id (_ + (s2 + _))) by lia.
  rewrite folded_sum by lia. unfold complement. f_equal. apply ones_same.
  change (byte_at 0 0) with 0. change (byte_at 0 1) with 0. cbn [app le_num]. split_and!; [lia|lia|lia|].
  exists (- (1 * (l1 + 256 * l0) + 65537 * (i1 + 256 * i0) + 281479271743489 * (ttl + 256 * proto) + 1208944266640182156001281 * (s0 + 256 * s1) + 79229371458530977775699951617 * (s2 + 256 * s3) + 5192376087906286159508272029171713 * (d0 + 256 * d1) + 340287559297026369749534115703797383169 * (d2 + 256 * d3))). lia.
Qed.

(** * The state and one packet

    The protocols above the link: the invariant of their state, and the rules for
    what they do to a packet that is one pbuf of the pool, as the driver hands it
    over: it becomes shorter at both ends, and its bytes stay. *)

(** ** A part of a packet *)

(** The bytes of [b] from [k] up to below [t]. *)
Definition part (b : pbuf_s) (k t : Z) : pbuf_s := set_payload (b_payload b + k) (set_lens (t - k) (t - k) b).

Lemma part_all b : b_len b = b_tot_len b → part b 0 (b_len b) = b.
Proof. intros El. unfold part. rewrite Z.add_0_r, Z.sub_0_r. destruct b. simpl in *. by subst. Qed.

Lemma grow_part b k t n : 0 ≤ t - k + n < 65536 → grow n (part b k t) = part b (k - n) t.
Proof.
  intros Hr. unfold grow, part. cbn [b_payload b_tot_len b_len set_payload set_lens]. rewrite u16_id by done.
  replace (t - k + n) with (t - (k - n)) by lia. by replace (b_payload b + k - n) with (b_payload b + (k - n)) by lia.
Qed.

(** The state of a goal, written another way. *)
Ltac state_is t := match goal with |- wp _ _ ?s => change s with t end.

(** A pbuf by itself with its data in its own memory, which nobody else uses. *)
Record lone (σ : bufs) (p : Z) (b : pbuf_s) : Prop := Lone {
  lo_at : σ !! p = Some b;
  lo_next : b_next b = NULL;
  lo_len : b_len b = b_tot_len b;
  lo_ref : b_ref b = 1;
  lo_src : pbuf_get_allocsrc b ≠ 1
}.

Section stack_thm.
Context {PP PR H PQ PU X : Type} `{PoolLaws PP, PoolLaws PR, HeapLaws H, PoolLaws PQ, PoolLaws PU}.
Context (custom_free : Z → M (pmem PP PR H) unit) (link_err : list frame → Z).
Context (EP ER EQ EU : list Z) `{!Layout (PP := PP) (PR := PR) (H := H) EP ER} `{!QueueLayout (PQ := PQ) EQ} `{!UdpLayout (PU := PU) EU}.

Notation stack := (stack PP PR H PQ PU X).
Notation pkt_ok := (pkt_ok EP ER).
Notation arp_ok := (arp_ok EP ER EQ).

(** ** The invariant *)

(** The packets, the ARP table and the UDP blocks are in order; [n] is the
    interface at [nif], [owners] the references to packets the users have. *)
Record stack_ok (nif : Z) (n : netif) (s : stack) (owners : list Z) : Prop := StackOk {
  so_arp : ∃ es cs, arp_ok nif n (st_net s) owners es cs;
  so_udp : ∃ l, udp_ok EU (st_udp s) l;
  so_default : netif_default s = nif;
  so_id : 0 ≤ ip_id s < 65536
}.

Definition store_of (s : stack) : bufs := store (pm (st_net s)).
Definition mem_of (s : stack) : memory := bytes (st_net s).
Definition change_bufs (p' : pmem PP PR H) (s : stack) : stack := set_net (set_pm (λ _, p') (st_net s)) s.
Definition change_bytes (m : memory) (s : stack) : stack := set_net (set_bytes (λ _, m) (st_net s)) s.
Definition with_p (p : Z) (b : pbuf_s) (s : stack) : stack := change_bufs (with_store (pm (st_net s)) (<[p := b]> (store_of s))) s.

Lemma set_net_same (s : stack) : set_net (st_net s) s = s.
Proof. by destruct s. Qed.
Lemma set_udp_same (s : stack) : set_udp (st_udp s) s = s.
Proof. by destruct s. Qed.

Lemma with_p_twice p b b' s : with_p p b' (with_p p b s) = with_p p b' s.
Proof. unfold with_p, change_bufs, with_store, store_of, set_net, set_pm. simpl. by rewrite insert_insert_eq. Qed.

Lemma with_p_same p b s : store_of s !! p = Some b → with_p p b s = s.
Proof.
  intros Hb. unfold with_p, change_bufs. rewrite insert_id by done. unfold store_of. destruct s as [[[] ? ? ? ? ? ? ?] ? ? ? ? ?]. done.
Qed.

Lemma with_p_at p b s : store_of (with_p p b s) !! p = Some b.
Proof. apply lookup_insert_eq. Qed.

Lemma stack_nif nif n s owners : stack_ok nif n s owners → nif_ok (st_net s) nif n.
Proof. intros [(es & cs & Ha) _ _ _]. apply (ao_nif _ _ _ _ _ _ _ _ _ Ha). Qed.

Lemma stack_pkt nif n s owners : stack_ok nif n s owners → ∃ k, pkt_ok (pm (st_net s)) (owners ++ k).
Proof. intros [(es & cs & Ha) _ _ _]. exists (queued cs). apply (ao_rep _ _ _ _ _ _ _ _ _ Ha). Qed.

Lemma stack_ok_net nif n s owners owners' n' es cs :
  stack_ok nif n s owners → arp_ok nif n n' owners' es cs → stack_ok nif n (set_net n' s) owners'.
Proof. intros [_ Hu Hd Hi] Ha. split; [by exists es, cs|done|done|done]. Qed.

(** A change of the packets that keeps the references in the queues. *)
Lemma stack_ok_bufs nif n s owners owners' p' :
  stack_ok nif n s owners → (∀ k, pkt_ok (pm (st_net s)) (owners ++ k) → pkt_ok p' (owners' ++ k)) → stack_ok nif n (change_bufs p' s) owners'.
Proof.
  intros Hok Hp. destruct Hok as [(es & cs & Ha) Hu Hd Hi]. split; [|done|done|done]. exists es, cs.
  destruct Ha as [[Ht Hh Hq Ho] Hn Htab Hc]. split; [split; [done|done|done|by apply Hp]|by eapply nif_ok_same; [|done]|done|done].
Qed.

Lemma stack_ok_bytes nif n s owners m : stack_ok nif n s owners → stack_ok nif n (change_bytes m s) owners.
Proof.
  intros [(es & cs & [[Ht Hh Hq Ho] Hn Htab Hc]) Hu Hd Hi]. split; [|done|done|done]. exists es, cs.
  split; [by split|by eapply nif_ok_same; [|done]|done|done].
Qed.

Lemma stack_ok_data nif n s owners d : stack_ok nif n s owners → stack_ok nif n (set_ip_data d s) owners.
Proof. intros [Ha Hu Hd Hi]. by split. Qed.

Lemma stack_ok_next_id nif n s owners i : stack_ok nif n s owners → stack_ok nif n (set_ip_id (u16 i) s) owners.
Proof. intros [Ha Hu Hd Hi]. split; [done|done|done|apply u16_range]. Qed.

Lemma stack_ok_udp nif n s owners u l : stack_ok nif n s owners → udp_ok EU u l → stack_ok nif n (set_udp u s) owners.
Proof. intros [Ha _ Hd Hi] Hu. split; [done|by exists l|done|done]. Qed.

Lemma stack_owner nif n s owners p : stack_ok nif n s owners → p ∈ owners → p ≠ NULL → is_Some (store_of s !! p).
Proof. intros Hok Hp Hn. destruct (stack_pkt _ _ _ _ Hok) as [k Ho]. eapply pkt_alloc; [exact Ho|apply elem_of_app; by left|done]. Qed.

Lemma stack_null nif n s owners : stack_ok nif n s owners → store_of s !! NULL = None.
Proof. intros Hok. destruct (stack_pkt _ _ _ _ Hok) as [k Ho]. apply (pkt_null _ _ _ _ Ho). Qed.

(** A pbuf that keeps its place in the chains and stays inside its memory. *)
Lemma pkt_ok_insert (s : pmem PP PR H) owners p b b' :
  pkt_ok s owners → store s !! p = Some b → b_next b' = b_next b → b_ref b' = b_ref b → b_type b' = b_type b →
  Z.land (b_flags b') PBUF_FLAG_IS_CUSTOM = Z.land (b_flags b) PBUF_FLAG_IS_CUSTOM → 0 ≤ b_tot_len b' < 65536 →
  (∀ room, in_block p room b → in_block p room b') → pkt_ok (with_store s (<[p := b']> (store s))) owners.
Proof.
  intros [Hr Hm Hw] Hb En Er Et Ef Hl Hin. split.
  - by apply (refs_ok_same _ _ _ b).
  - by apply (mem_ok_same EP ER s p b).
  - apply shaped_insert; [done|]. split; [done|]. unfold pbuf_get_allocsrc. rewrite Et. by apply (Hw p b).
Qed.

Lemma stack_ok_insert nif n s owners p b b' :
  stack_ok nif n s owners → store_of s !! p = Some b → b_next b' = b_next b → b_ref b' = b_ref b → b_type b' = b_type b →
  Z.land (b_flags b') PBUF_FLAG_IS_CUSTOM = Z.land (b_flags b) PBUF_FLAG_IS_CUSTOM → 0 ≤ b_tot_len b' < 65536 →
  (∀ room, in_block p room b → in_block p room b') → stack_ok nif n (with_p p b' s) owners.
Proof. intros Hok Hb En Er Et Ef Hl Hin. eapply stack_ok_bufs; [done|]. intros k Ho. by apply (pkt_ok_insert (pm (st_net s)) _ p b). Qed.

(** ** Access *)

Lemma wp_on_bufs {A} (m : M (pmem PP PR H) A) s (Q : A → stack → Prop) :
  wp m (λ a p', Q a (change_bufs p' s)) (pm (st_net s)) → wp (on_bufs m) Q s.
Proof. intros Hm. apply wp_zoom, wp_zoom. exact Hm. Qed.

Lemma wp_on_net {A} (m : M (net PP PR H PQ) A) s (Q : A → stack → Prop) :
  wp m (λ a n', Q a (set_net n' s)) (st_net s) → wp (on_net m) Q s.
Proof. apply wp_zoom. Qed.

Lemma wp_on_udp {A} (m : M (udp_mod PU) A) s (Q : A → stack → Prop) :
  wp m (λ a u, Q a (set_udp u s)) (st_udp s) → wp (on_udp m) Q s.
Proof. apply wp_zoom. Qed.

Lemma wp_the_pbuf p b s (Q : pbuf_s → stack → Prop) : store_of s !! p = Some b → Q b s → wp (on_net (rd_pbuf p)) Q s.
Proof. intros Hb HQ. apply wp_on_net, (wp_rd_pbuf p b); [done|]. by rewrite set_net_same. Qed.

Lemma wp_the_netif nif n s (Q : netif → stack → Prop) : nif_ok (st_net s) nif n → Q n s → wp (on_net (rd_netif nif)) Q s.
Proof. intros Hn HQ. apply wp_on_net, (wp_rd_netif nif n); [by destruct Hn|]. by rewrite set_net_same. Qed.

Lemma wp_read a n s (Q : list Z → stack → Prop) : Q (mem_read a n (mem_of s)) s → wp (on_net (rd_bytes a n)) Q s.
Proof. intros HQ. apply wp_on_net, wp_gets. by rewrite set_net_same. Qed.

Lemma wp_read8 a s (Q : Z → stack → Prop) : Q (field (mem_of s) a 1) s → wp (on_net (rd8 a)) Q s.
Proof. intros HQ. apply wp_on_net, wp_fmap, wp_gets. by rewrite set_net_same. Qed.
Lemma wp_read16 a s (Q : Z → stack → Prop) : Q (field (mem_of s) a 2) s → wp (on_net (rd16 a)) Q s.
Proof. intros HQ. apply wp_on_net, wp_fmap, wp_gets. by rewrite set_net_same. Qed.
Lemma wp_read32 a s (Q : Z → stack → Prop) : Q (field (mem_of s) a 4) s → wp (on_net (rd32 a)) Q s.
Proof. intros HQ. apply wp_on_net, wp_fmap, wp_gets. by rewrite set_net_same. Qed.

Lemma wp_write a l s (Q : unit → stack → Prop) : Q tt (change_bytes (mem_write a l (mem_of s)) s) → wp (on_net (wr_bytes a l)) Q s.
Proof. intros HQ. by apply wp_on_net, wp_modify. Qed.

Lemma wp_write_pbuf p f b s (Q : unit → stack → Prop) : store_of s !! p = Some b → Q tt (with_p p (f b) s) → wp (on_bufs (wr p f)) Q s.
Proof. intros Hb HQ. by apply wp_on_bufs, (wp_wr p f b). Qed.

(** ** One pbuf *)

(** What [lone] gives in a state that is in order. *)
Lemma lone_inside nif n s owners p b :
  stack_ok nif n s owners → lone (store_of s) p b →
  p ≠ NULL ∧ p + SIZEOF_STRUCT_PBUF ≤ b_payload b ∧ 0 ≤ b_len b < 65536 ∧ Z.land (b_type b) PBUF_TYPE_FLAG_STRUCT_DATA_CONTIGUOUS ≠ 0 ∧
  0 ≤ b_tot_len b < 65536.
Proof.
  intros Hok [Hb Hnx Hl Hr Hs]. pose proof (stack_null _ _ _ _ Hok) as Hnull. destruct (stack_pkt _ _ _ _ Hok) as [k Ho].
  destruct (mo_data _ _ _ (po_mem _ _ _ _ Ho) p b Hb Hs) as (Hc & Hp & Hl0 & _). destruct (po_shaped _ _ _ _ Ho p b Hb) as [Hw _].
  split_and!; try (done || lia). intros ->. congruence.
Qed.

Lemma part_ok nif n s owners p b k t :
  stack_ok nif n s owners → lone (store_of s) p b → p + SIZEOF_STRUCT_PBUF ≤ b_payload b + k → k ≤ t ≤ b_len b → t - k < 65536 →
  stack_ok nif n (with_p p (part b k t) s) owners.
Proof.
  intros Hok Hlo Hk Ht Hs. apply (stack_ok_insert _ _ _ _ p b); try done.
  - apply Hlo.
  - simpl. lia.
  - intros room (Hc & Hlo' & _ & Hup). split_and!; simpl; (done || lia).
Qed.

Lemma part_lone s p b k t : lone (store_of s) p b → lone (store_of (with_p p (part b k t) s)) p (part b k t).
Proof. intros [Hb Hnx Hl Hr Hs]. split; [apply with_p_at|done..]. Qed.

Lemma wp_remove_part n p b k t s (Q : Z → stack → Prop) :
  p ≠ NULL → 0 < n → 0 ≤ t - k < 65536 →
  (if n <=? t - k then Q 0 (with_p p (part b (k + n) t) s) else Q 1 (with_p p (part b k t) s)) →
  wp (on_bufs (pbuf_remove_header p n)) Q (with_p p (part b k t) s).
Proof.
  intros Hp Hn Ht HQ. apply wp_on_bufs, (wp_pbuf_remove_header p (part b k t)); [apply with_p_at|done|done|done|].
  cbn [part b_len set_payload set_lens]. destruct (Z.leb_spec n (t - k)) as [Hle|Hgt].
  - rewrite <-(insert_as_alter _ p (part b k t)) by apply with_p_at. rewrite grow_part by lia.
    replace (k - - n) with (k + n) by lia. rewrite <-(with_p_twice p (part b k t)) in HQ. exact HQ.
  - exact HQ.
Qed.

Lemma wp_add_part n force p b k t s (Q : Z → stack → Prop) :
  p ≠ NULL → 0 < n → 0 ≤ t - k → t - k + n < 65536 →
  Z.land (b_type b) PBUF_TYPE_FLAG_STRUCT_DATA_CONTIGUOUS ≠ 0 → p + SIZEOF_STRUCT_PBUF ≤ b_payload b + k - n →
  Q 0 (with_p p (part b (k - n) t) s) → wp (on_bufs (pbuf_add_header_impl p n force)) Q (with_p p (part b k t) s).
Proof.
  intros Hp Hn Hk Ht Hty Hpay HQ. apply wp_on_bufs, (wp_pbuf_add_header_impl p (part b k t)); [apply with_p_at|done|lia|simpl; lia|].
  assert (can_grow p (part b k t) n force = true) as ->.
  { unfold can_grow. cbn [part b_tot_len b_type b_payload set_payload set_lens]. rewrite !andb_true_iff, Z.leb_le, Z.ltb_lt.
    rewrite (proj2 (Z.eqb_neq _ 0) Hty). cbn [negb]. rewrite Z.leb_le. split_and!; lia. }
  rewrite <-(insert_as_alter _ p (part b k t)) by apply with_p_at. rewrite grow_part by lia.
  rewrite <-(with_p_twice p (part b k t)) in HQ. exact HQ.
Qed.

Lemma wp_realloc_part len p b k t s (Q : unit → stack → Prop) :
  p ≠ NULL → b_next b = NULL → pbuf_get_allocsrc b = 2 → 0 ≤ len < t - k → t - k < 65536 →
  Q tt (with_p p (part b k (k + len)) s) → wp (on_bufs (pbuf_realloc custom_free p len)) Q (with_p p (part b k t) s).
Proof.
  intros Hp Hnx Hs Hlen Ht HQ. apply wp_on_bufs. unfold pbuf_realloc. apply wp_bind, wp_assert; [by apply negb_true_iff, Z.eqb_neq|].
  apply wp_bind, (wp_rd p (part b k t)); [apply with_p_at|]. cbn [part b_tot_len set_payload set_lens].
  rewrite (proj2 (Z.leb_gt (t - k) len)) by lia. apply wp_bind, wp_gets. apply wp_bind. cbn [shrink_loop].
  apply wp_bind, (wp_rd p (part b k t)); [apply with_p_at|]. cbn [part b_len set_payload set_lens]. rewrite (proj2 (Z.ltb_ge (t - k) len)) by lia.
  apply wp_ret. apply wp_bind, (wp_rd p (part b k t)); [apply with_p_at|].
  assert (pbuf_match_allocsrc (part b k t) PBUF_TYPE_ALLOC_SRC_MASK_STD_HEAP = false) as ->.
  { unfold pbuf_match_allocsrc. change (pbuf_get_allocsrc (part b k t)) with (pbuf_get_allocsrc b). by rewrite Hs. }
  cbn [andb when_]. apply wp_bind, wp_ret. apply wp_bind, (wp_wr p _ (part b k t)); [apply with_p_at|].
  cbn [part b_next set_payload set_lens]. rewrite Hnx. cbn [Z.eqb NULL negb when_]. apply wp_bind, wp_ret.
  assert (set_next NULL (set_lens len len (part b k t)) = part b k (k + len)) as E.
  { unfold part, set_next, set_lens, set_payload. cbn. replace (k + len - k) with len by lia. by rewrite Hnx. }
  rewrite <-E in HQ. eapply wp_wr; [cbn; apply lookup_insert_eq|].
  unfold with_p, change_bufs, with_store, store_of, set_net, set_pm in *. cbn [store pm st_net pool_pool ref_pool heap] in *.
  rewrite !insert_insert_eq. exact HQ.
Qed.

(** The chain of one pbuf, for its checksum. *)
Lemma wp_placed_one p b s (Q : placed → stack → Prop) :
  p ≠ NULL → store_of s !! p = Some b → b_next b = NULL →
  Q [(b_payload b, Pbuf (mem_read (b_payload b) (Z.to_nat (b_len b)) (mem_of s)) (b_len b) (b_tot_len b))] s →
  wp (placed_chain p) Q s.
Proof.
  intros Hp Hb Hnx HQ. apply wp_on_net, wp_bind, wp_gets.
  assert (∃ k, size (store (pm (st_net s))) = S k) as [k ->].
  { unfold store_of in Hb. destruct (size (store (pm (st_net s)))) eqn:E; [|by eexists]. apply map_size_empty_inv in E. rewrite E in Hb. by rewrite lookup_empty in Hb. }
  cbn [read_chain]. rewrite (proj2 (Z.eqb_neq p NULL)) by done. apply wp_bind, (wp_rd_pbuf p b); [done|].
  apply wp_bind, wp_gets, wp_bind. rewrite Hnx. cbn [Z.eqb NULL]. apply wp_ret, wp_ret. by rewrite set_net_same.
Qed.

(** A packet is released. *)
Lemma wp_free_packet nif n p owners s (Q : unit → stack → Prop) :
  stack_ok nif n s (p :: owners) → p ≠ NULL →
  (∀ p', stack_ok nif n (change_bufs p' s) owners → Q tt (change_bufs p' s)) → wp (free_packet custom_free p) Q s.
Proof.
  intros Hok Hp HQ. pose proof Hok as [(es & cs & Ha) Hu Hd Hi]. unfold free_packet. apply wp_bind, wp_on_bufs.
  pose proof (ao_rep _ _ _ _ _ _ _ _ _ Ha) as Hrep. apply (wp_free_pkt custom_free EP ER p (owners ++ queued cs)); [exact (ar_pkt _ _ _ _ _ _ _ Hrep)|done|].
  intros r l p' _ _ Ho'. apply wp_ret, HQ. eapply stack_ok_net; [exact Hok|]. destruct Ha as [[Ht Hh Hq _] Hn Htab Hc].
  split; [by split|by eapply nif_ok_same; [|done]|done|done].
Qed.

(** The search for a block: which it is, and that it is there. *)
Lemma wp_demux nif n a src dest owners s (Q : Z → stack → Prop) :
  stack_ok nif n s owners →
  (∀ l, udp_ok EU (st_udp s) l → ∀ u, udp_ok EU u (reordered a src dest (pcbs (st_udp s)) l) → relinked (pcbs (st_udp s)) (pcbs u) →
    stack_ok nif n (set_udp u s) owners →
    let r := addressee a src dest (pcbs (st_udp s)) l in
    (r ≠ NULL → r ∈ l ∧ is_Some (pcbs u !! r)) → Q r (set_udp u s)) →
  wp (on_udp (udp_demux a src dest)) Q s.
Proof.
  intros Hok HQ. pose proof (so_udp _ _ _ _ Hok) as [l Hl]. apply wp_on_udp. eapply wp_mono; [by apply (wp_udp_demux EU a src dest l)|].
  intros r u (-> & Hu & Hrel). apply (HQ l Hl u Hu Hrel); [by eapply stack_ok_udp|]. intros Hr.
  assert (addressee a src dest (pcbs (st_udp s)) l ∈ l) as Hin.
  { unfold addressee in *. destruct (perfect a src dest _ l) as [|x k] eqn:E.
    - unfold best in *. destruct (decide (open_blocks a dest (pcbs (st_udp s)) l = [])) as [Ec|Ec].
      + rewrite Ec in Hr. unfold best_of in Hr. simpl in Hr. destruct (to_everyone a); done.
      + apply best_of_elem with (a := a) (m := pcbs (st_udp s)) in Ec. by apply list_elem_of_filter in Ec as [_ ?].
    - assert (x ∈ x :: k) as Hx by by left. rewrite <-E in Hx. by apply list_elem_of_filter in Hx as [_ ?]. }
  split; [done|]. apply elem_of_dom. rewrite (proj1 Hrel). apply elem_of_dom. by destruct (linked_some _ _ _ _ (uo_link _ _ _ Hl) Hin).
Qed.
End stack_thm.

(** * Sending

    What [Ip4] does to a packet that is one pbuf: the header in front of it, with
    its checksum, and the frame that leaves. *)

(** ** The header in memory *)

Lemma field_write a n x m : field (mem_write a (le_bytes n x) m) a n = le_value (le_bytes n x).
Proof. unfold field. by rewrite mem_read_written by apply length_le_bytes. Qed.

Lemma field_other b l a n m : a + Z.of_nat n ≤ b ∨ b + Z.of_nat (length l) ≤ a → field (mem_write b l m) a n = field m a n.
Proof. intros Hd. unfold field. by rewrite mem_read_write_other. Qed.

Lemma mem_read_hit a b n l m l' : a = b → length l = n → l = l' → mem_read a n (mem_write b l m) = l'.
Proof. intros -> Hl <-. by apply mem_read_written. Qed.

Lemma le_bytes_one x : byte_ok x → le_bytes 1 x = [x].
Proof.
  intros Hx. unfold byte_ok in Hx. unfold le_bytes. cbn [seq fmap list_fmap]. rewrite byte_at_div by lia. change (2 ^ (8 * Z.of_nat 0)) with 1.
  by rewrite Z.div_1_r, Z.mod_small by lia.
Qed.

(** Fields that were written in some order, read in one piece. *)
Ltac fields_written :=
  rewrite !mem_read_app; repeat apply (f_equal2 app);
  repeat (rewrite mem_read_write_other by (rewrite ?length_le_bytes; lia));
  (apply mem_read_hit; [lia|by rewrite ?length_le_bytes|first [by apply le_bytes_one|by apply le_bytes_htons|done]]).

Lemma ip4_written h tos len id ttl proto chk src dest m :
  byte_ok tos → byte_ok ttl → byte_ok proto → 0 ≤ len < 65536 → 0 ≤ id < 65536 →
  mem_read h 20 (mem_write (h + 10) (le_bytes 2 chk) (mem_write (h + 12) (le_bytes 4 src)
    (mem_write (h + 4) (le_bytes 2 (lwip_htons id)) (mem_write (h + 6) (le_bytes 2 0) (mem_write (h + 2) (le_bytes 2 (lwip_htons len))
    (mem_write (h + 1) (le_bytes 1 tos) (mem_write h (le_bytes 1 (u8 (Z.lor (Z.shiftl 4 4) (IP_HLEN / 4))))
    (mem_write (h + 16) (le_bytes 4 dest) (mem_write (h + 9) (le_bytes 1 proto) (mem_write (h + 8) (le_bytes 1 ttl) m)))))))))) =
  ip4_fields tos len id ttl proto chk src dest.
Proof.
  intros Htos Httl Hpr Hlen Hid.
  assert (ip4_fields tos len id ttl proto chk src dest =
    [0x45] ++ [tos] ++ be16 len ++ be16 id ++ [0; 0] ++ [ttl] ++ [proto] ++ word_bytes chk ++ addr_bytes src ++ addr_bytes dest) as -> by done.
  change 20%nat with (1 + (1 + (2 + (2 + (2 + (1 + (1 + (2 + (4 + 4)))))))))%nat. fields_written.
Qed.

Section ip4_thm.
Context {PP PR H PQ PU X : Type} `{PoolLaws PP, PoolLaws PR, HeapLaws H, PoolLaws PQ, PoolLaws PU}.
Context (custom_free : Z → M (pmem PP PR H) unit) (link_err : list frame → Z).
Context (ip4_frag : Z → Z → Z → M (stack PP PR H PQ PU X) Z).
Context (EP ER EQ EU : list Z) `{!Layout (PP := PP) (PR := PR) (H := H) EP ER} `{!QueueLayout (PQ := PQ) EQ} `{!UdpLayout (PU := PU) EU}.

Notation stack := (stack PP PR H PQ PU X).
Notation stack_ok := (stack_ok EP ER EQ EU).
Notation arp_ok := (arp_ok EP ER EQ).

Lemma wp_write8 a x (s : stack) (Q : unit → stack → Prop) : Q tt (change_bytes (mem_write a (le_bytes 1 x) (mem_of s)) s) → wp (on_net (wr8 a x)) Q s.
Proof. apply wp_write. Qed.
Lemma wp_write16 a x (s : stack) (Q : unit → stack → Prop) : Q tt (change_bytes (mem_write a (le_bytes 2 x) (mem_of s)) s) → wp (on_net (wr16 a x)) Q s.
Proof. apply wp_write. Qed.
Lemma wp_write32 a x (s : stack) (Q : unit → stack → Prop) : Q tt (change_bytes (mem_write a (le_bytes 4 x) (mem_of s)) s) → wp (on_net (wr32 a x)) Q s.
Proof. apply wp_write. Qed.

(** The fields fit into their places. *)
Definition fields_fit (tos len ttl proto src dest : Z) : Prop :=
  byte_ok tos ∧ byte_ok ttl ∧ byte_ok proto ∧ 0 ≤ len < 65536 ∧ 0 ≤ src < 4294967296 ∧ 0 ≤ dest < 4294967296.

Lemma wp_ip4_header p b src dest ttl tos proto (s : stack) (Q : unit → stack → Prop) :
  store_of s !! p = Some b → IP_HLEN ≤ b_len b → 0 ≤ ip_id s < 65536 →
  (∀ m, off (b_payload b) (b_payload b + 20) (mem_of s) m →
    (fields_fit tos (b_tot_len b) ttl proto src dest → mem_read (b_payload b) 20 m = ip4_hdr tos (b_tot_len b) (ip_id s) ttl proto src dest) →
    Q tt (set_ip_id (u16 (ip_id s + 1)) (change_bytes m s))) →
  wp (ip4_header p src dest ttl tos proto) Q s.
Proof.
  intros Hb Hlen Hid HQ. set (h := b_payload b) in *. unfold ip4_header. apply wp_bind, (wp_the_pbuf p b); [done|]. fold h.
  apply wp_bind, wp_assert; [by apply Z.leb_le|]. apply wp_bind, wp_write8, wp_bind, wp_write8, wp_bind, wp_write32, wp_bind, wp_write8, wp_bind, wp_write8.
  apply wp_bind, wp_read8, wp_bind, wp_write16, wp_bind, wp_read16, wp_bind, wp_write16, wp_bind, wp_gets, wp_bind, wp_write16.
  apply wp_bind, wp_read16, wp_bind, wp_modify, wp_bind, wp_write32, wp_write16. cbn [ip_id change_bytes set_net mem_of bytes set_bytes st_net set_ip_id].
  apply HQ; clear HQ.
  - repeat (apply off_write; [|lia|rewrite length_le_bytes; lia]). apply off_refl.
  - intros (Htos & Httl & Hpr & Htot & Hs & Hd). rewrite ip4_written by done. unfold ip4_hdr. f_equal.
    rewrite (field_other (h + 1)), !field_write, !le_value_word by (try apply lwip_htons_range; try done; rewrite ?length_le_bytes; lia).
    by apply inline_chksum.
Qed.

(** ** The frame *)

Lemma lone_chain (s : stack) q b : lone (store_of s) q b → chain (store (pm (st_net s))) q [q].
Proof. intros [Hb Hn _ _ _]. split; [done|]. exists b. by rewrite Hn. Qed.

Lemma lone_solid (s : stack) q b : lone (store_of s) q b → solid (store (pm (st_net s))) [q].
Proof. intros [Hb _ _ _ Hs] x c ->%list_elem_of_singleton Hc. unfold store_of in Hb. congruence. Qed.

Lemma lone_sendable nif n owners q b (s : stack) : stack_ok nif n s owners → lone (store_of s) q b → sendable (st_net s) q [q].
Proof.
  intros Hok Hlo. destruct (lone_inside EP ER EQ EU _ _ _ _ _ _ Hok Hlo) as (_ & _ & Hl & _). pose proof (lone_chain _ _ _ Hlo) as Hch.
  destruct Hlo as [Hb Hn He Hr Hs]. exists b. split_and!; [done|lia|done| |].
  - exists b. split_and!; [done|done|lia|lia|]. simpl. lia.
  - intros x c ->%list_elem_of_singleton Hc _. unfold store_of in Hb. congruence.
Qed.

(** What [etharp_output] makes of the packet [q], and that all is in order then. *)
Record emits (nif : Z) (n : netif) (q dest : Z) (owners : list Z) (s : stack) (r : Z) (n' : net PP PR H PQ) : Prop := Emits {
  em_ok : stack_ok nif n (set_net n' s) owners;
  em_steady : steady owners (st_net s) n';
  em_out : ∃ es cs kept es' cs' fs, arp_ok nif n (st_net s) owners es cs ∧
    outputs custom_free EP ER EQ nif n dest q [q] es cs (st_net s) n' r kept es' cs' fs ∧ wire n' = wire (st_net s) ++ fs
}.

Lemma wp_emit nif n q b dest owners (s : stack) (Q : Z → stack → Prop) :
  stack_ok nif n s owners → q ∈ owners → lone (store_of s) q b →
  (∀ r n', emits nif n q dest owners s r n' → Q r (set_net n' s)) →
  wp (on_net (etharp_output custom_free link_err nif q dest)) Q s.
Proof.
  intros Hok Hq Hlo HQ. pose proof (so_arp _ _ _ _ _ _ _ _ Hok) as (es & cs & Ha).
  apply wp_on_net, (wp_output custom_free link_err EP ER EQ nif n dest q [q] owners es cs); [done|done|by eapply lone_sendable|].
  intros r n' kept es' cs' fs Hout [O St W]. apply HQ. split; [by eapply (stack_ok_net EP ER EQ EU)| |by exists es, cs, kept, es', cs', fs].
  eapply steady_sub; [|exact St]. set_solver.
Qed.

(** ** Packets *)

(** The packet is no larger than the link takes. *)
Definition mtu_fits (n : netif) (len : Z) : Prop := n_mtu n = 0 ∨ len ≤ n_mtu n.

Lemma wp_fits {A} n len (m1 m2 : M stack A) (Q : A → stack → Prop) s :
  mtu_fits n len → wp m2 Q s → wp (if negb (n_mtu n =? 0) && (n_mtu n <? len) then m1 else m2) Q s.
Proof.
  intros Hf Hm. assert (negb (n_mtu n =? 0) && (n_mtu n <? len) = false) as ->; [|done].
  destruct Hf as [->|Hf]; [done|]. rewrite (proj2 (Z.ltb_ge (n_mtu n) len)) by done. apply andb_false_r.
Qed.

(** A packet that gets its header. *)
Lemma wp_output_new nif n q b k t src dest ttl tos proto owners (s : stack) (Q : Z → stack → Prop) :
  stack_ok nif n s owners → q ∈ owners → lone (store_of s) q b →
  q + SIZEOF_STRUCT_PBUF ≤ b_payload b + k - IP_HLEN → k ≤ t ≤ b_len b → t - k + IP_HLEN < 65536 → mtu_fits n (t - k + IP_HLEN) →
  (∀ m r n', let h := b_payload b + (k - IP_HLEN) in
    let s1 := set_ip_id (u16 (ip_id s + 1)) (change_bytes m (with_p q (part b (k - IP_HLEN) t) s)) in
    off h (h + 20) (mem_of s) m →
    (fields_fit tos (t - (k - IP_HLEN)) ttl proto (default IPADDR_ANY src) dest →
      mem_read h 20 m = ip4_hdr tos (t - (k - IP_HLEN)) (ip_id s) ttl proto (default IPADDR_ANY src) dest) →
    emits nif n q dest owners s1 r n' → Q r (set_net n' s1)) →
  wp (ip4_output_if_src custom_free link_err ip4_frag q src (Some dest) ttl tos proto nif) Q (with_p q (part b k t) s).
Proof.
  intros Hok Hq Hlo Hroom Hkt Hlen Hmtu HQ. change IP_HLEN with 20 in *.
  destruct (lone_inside EP ER EQ EU _ _ _ _ _ _ Hok Hlo) as (Hqn & _ & Hl & Hty & _).
  assert (lone (store_of (with_p q (part b k t) s)) q (part b k t)) as Hlo1 by by apply part_lone.
  unfold ip4_output_if_src. apply wp_bind, (wp_the_pbuf q (part b k t)); [apply Hlo1|]. apply wp_bind, wp_assert; [apply Z.eqb_eq, Hlo1|].
  change IP_HLEN with 20. apply wp_bind, wp_bind, wp_add_part; [done|done|lia|lia|done|lia|]. cbn [Z.eqb negb].
  set (s0 := with_p q (part b (k - 20) t) s). assert (lone (store_of s0) q (part b (k - 20) t)) as Hlo0 by by apply part_lone.
  assert (stack_ok nif n s0 owners) as Hok0 by (apply part_ok; done || lia).
  apply wp_bind, (wp_ip4_header q (part b (k - 20) t)); [apply Hlo0|simpl; change IP_HLEN with 20; lia|by apply Hok0|].
  intros m Hoff Hm. apply wp_ret. set (s1 := set_ip_id _ _).
  assert (stack_ok nif n s1 owners) as Hok1 by by apply stack_ok_next_id, stack_ok_bytes.
  apply wp_bind, (wp_the_netif nif n); [by eapply stack_nif|]. apply wp_bind, (wp_the_pbuf q (part b (k - 20) t)); [apply Hlo0|].
  apply wp_fits; [simpl; by replace (t - (k - 20)) with (t - k + 20) by lia|].
  apply (wp_emit nif n q (part b (k - 20) t) dest owners); [done|done|done|]. intros r n' He. by apply HQ.
Qed.

(** A packet that has its header. *)
Lemma wp_output_old nif n q b src ttl tos proto owners (s : stack) (Q : Z → stack → Prop) :
  stack_ok nif n s owners → q ∈ owners → lone (store_of s) q b → mtu_fits n (b_len b) →
  (b_len b < IP_HLEN → Q ERR_BUF s) →
  (∀ r n', emits nif n q (field (mem_of s) (b_payload b + 16) 4) owners s r n' → Q r (set_net n' s)) →
  wp (ip4_output_if_src custom_free link_err ip4_frag q src None ttl tos proto nif) Q s.
Proof.
  intros Hok Hq Hlo Hmtu Hshort HQ. unfold ip4_output_if_src. apply wp_bind, (wp_the_pbuf q b); [apply Hlo|]. apply wp_bind, wp_assert; [apply Z.eqb_eq, Hlo|].
  apply wp_bind. destruct (Z.ltb_spec (b_len b) IP_HLEN); [by apply wp_ret, wp_ret, Hshort|]. apply wp_bind, wp_read32, wp_ret.
  apply wp_bind, (wp_the_netif nif n); [by eapply stack_nif|]. apply wp_bind, (wp_the_pbuf q b); [apply Hlo|].
  rewrite <-(lo_len _ _ _ Hlo). apply wp_fits; [done|]. by apply (wp_emit nif n q b _ owners).
Qed.
End ip4_thm.
