(* ===== verification/IcmpThm.v ===== *)
(** What [Icmp] does to a received packet that is one pbuf: every path gives the
    packet back, and an answer that fits the link leaves. *)
From stdpp Require Import base tactics numbers list gmap.
From S2P Require Import Prelude Words Pbuf Def Checksum Memp PbufMem PbufThm PbufOps Ip4Addr Net NetThm Etharp EtharpThm EtharpOps EtharpSend EtharpQuery UdpPcb UdpPcbThm UdpPcbSafe Ip4 Icmp UdpIo StackThm.

Lemma IPH_HL_range v : 0 ≤ IPH_HL_BYTES v ≤ 60.
Proof.
  unfold IPH_HL_BYTES. change 0x0f with (Z.ones 4). rewrite Z.land_ones by lia. pose proof (Z.mod_pos_bound v (2 ^ 4)).
  unfold u8. rewrite Z.mod_small; lia.
Qed.

Section icmp_thm.
Context {PP PR H PQ PU X : Type} `{PoolLaws PP, PoolLaws PR, HeapLaws H, PoolLaws PQ, PoolLaws PU}.
Context (custom_free : Z → M (pmem PP PR H) unit) (link_err : list frame → Z).
Context (ip4_frag : Z → Z → Z → M (stack PP PR H PQ PU X) Z).
Context (EP ER EQ EU : list Z) `{!Layout (PP := PP) (PR := PR) (H := H) EP ER} `{!QueueLayout (PQ := PQ) EQ} `{!UdpLayout (PU := PU) EU}.

Notation stack := (stack PP PR H PQ PU X).
Notation stack_ok := (stack_ok EP ER EQ EU).

(** A new pbuf on the heap. *)
Lemma wp_alloc_packet nif n layer len owners (s : stack) (Q : Z → stack → Prop) :
  stack_ok nif n s owners → 0 ≤ len < 65536 →
  (∀ p', store p' = store_of s → stack_ok nif n (change_bufs p' s) owners → Q NULL (change_bufs p' s)) →
  (∀ q p', q ≠ NULL → store_of s !! q = None → store p' = <[q := ram_pbuf layer q len]> (store_of s) →
    stack_ok nif n (change_bufs p' s) (q :: owners) → Q q (change_bufs p' s)) →
  wp (on_bufs (pbuf_alloc custom_free layer len PBUF_RAM)) Q s.
Proof.
  intros Hok Hlen Hno Hyes. pose proof Hok as [(es & cs & Ha) Hu Hd Hi]. apply wp_on_bufs.
  assert (∀ p' owners', pkt_ok EP ER p' (owners' ++ queued cs) → stack_ok nif n (change_bufs p' s) owners') as Hnew.
  { intros p' owners' Ho'. eapply stack_ok_net; [exact Hok|]. destruct Ha as [[Ht Hh Hq _] Hn Htab Hc]. split; [by split|by eapply nif_ok_same; [|done]|done|done]. }
  apply (wp_alloc_pkt custom_free EP ER layer len (owners ++ queued cs)); [exact (ar_pkt _ _ _ _ _ _ _ (ao_rep _ _ _ _ _ _ _ _ _ Ha))|done| |].
  - intros p' _ Es Ho'. apply Hno; [done|by apply Hnew].
  - intros q p' Hq Hnone Es Ho'. apply Hyes; [done..|by apply Hnew].
Qed.

Lemma lone_ram (σ : bufs) layer q len : lone (<[q := ram_pbuf layer q len]> σ) q (ram_pbuf layer q len).
Proof. split; [apply lookup_insert_eq|done..]. Qed.

Lemma lone_other (σ : bufs) q c p b : σ !! q = None → lone σ p b → lone (<[q := c]> σ) p b.
Proof. intros Hq [Hb Hn Hl Hr Hs]. split; [rewrite lookup_insert_ne; [done|congruence]|done..]. Qed.

(** The start of one packet into the rest of another. *)
Lemma wp_copy_prefix q c p b len at_ (s : stack) (Q : Z → stack → Prop) :
  lone (store_of s) q c → lone (store_of s) p b → q ≠ NULL → p ≠ NULL →
  0 ≤ at_ → at_ + len = b_len c → b_len c < 65536 → 0 ≤ len ≤ b_len b → b_len b < 65536 →
  Q ERR_OK (change_bytes (mem_write (b_payload c + at_) (mem_read (b_payload b) (Z.to_nat len) (mem_of s)) (mem_of s)) s) →
  wp (on_net (pbuf_copy_partial_pbuf q p len at_)) Q s.
Proof.
  intros [Hc Hcn Hcl _ _] [Hb Hbn Hbl _ _] Hq Hp Hat Hfit Hcs Hlen Hbs HQ. apply wp_on_net. unfold pbuf_copy_partial_pbuf.
  rewrite (proj2 (Z.eqb_neq p NULL)), (proj2 (Z.eqb_neq q NULL)) by done. unfold store_of in *.
  apply wp_bind, (wp_rd_pbuf p b); [done|]. rewrite (proj2 (Z.ltb_ge (b_tot_len b) len)) by lia.
  apply wp_bind, (wp_rd_pbuf q c); [done|]. rewrite (proj2 (Z.ltb_ge (b_tot_len c) (at_ + len))) by lia.
  apply wp_bind, wp_gets. cbn [copy_loop]. apply wp_bind, (wp_rd_pbuf q c); [done|]. apply wp_bind, (wp_rd_pbuf p b); [done|].
  rewrite !u32_id by lia. rewrite Z.sub_0_r, Z.add_0_r.
  assert (Z.min len (if b_len b <=? b_len c - at_ then b_len b else b_len c - at_) = len) as ->.
  { destruct (Z.leb_spec (b_len b) (b_len c - at_)); lia. }
  unfold rd_bytes, wr_bytes. apply wp_bind, wp_gets, wp_bind, wp_modify. rewrite Z.sub_diag, u16_id by lia.
  apply wp_bind, wp_assert; [apply Z.leb_le; lia|]. apply wp_bind, wp_assert; [apply Z.leb_le; lia|]. cbn [Z.eqb negb]. rewrite !andb_false_r.
  assert (∀ r r' e (s' : net PP PR H PQ) Q', store (pm s') !! r' = Some e → (b_next e = NULL) → (r = r' ∨ r = NULL) → Q' false s' → wp (queue_follows r) Q' s') as Hqf.
  { intros r r' e s' Q' He Hn Hr HQ'. apply wp_queue_follows; [|done]. intros Hrn. destruct Hr as [->|]; [|done]. by exists e. }
  apply wp_bind, (Hqf _ p b); [done|done| |].
  { rewrite Hbn. destruct (_ <=? _); [by right|by left]. }
  apply wp_bind, (Hqf _ q c); [done|done| |].
  { rewrite Hcn. destruct (_ =? _); [by right|by left]. }
  by apply wp_ret.
Qed.

Lemma wp_route nif n dest owners (s : stack) (Q : Z → stack → Prop) :
  stack_ok nif n s owners → (∀ r, r = NULL ∨ r = nif → Q r s) → wp (ip4_route dest) Q s.
Proof.
  intros Hok HQ. unfold ip4_route. apply wp_bind, wp_gets. rewrite (so_default _ _ _ _ _ _ _ _ Hok).
  destruct (Z.eqb_spec nif NULL) as [->|Hn]; [apply wp_ret, HQ; by left|].
  apply wp_bind, (wp_the_netif nif n); [by eapply stack_nif|]. destruct (_ || _); apply wp_ret, HQ; [by left|by right].
Qed.

(** ** Errors *)

(** The length of the largest error message, with the headers of IP. *)
Definition ERROR_LEN : Z := IP_HLEN + SIZEOF_ICMP_HDR + IP_HLEN + ICMP_DEST_UNREACH_DATASIZE.

Lemma wp_icmp_send_response nif n p b type code owners (s : stack) (Q : unit → stack → Prop) :
  stack_ok nif n s owners → lone (store_of s) p b → mtu_fits n ERROR_LEN →
  (∀ s', stack_ok nif n s' owners → Q tt s') →
  wp (icmp_send_response custom_free link_err ip4_frag p type code) Q s.
Proof.
  intros Hok Hlo Hmtu HQ. destruct (lone_inside EP ER EQ EU _ _ _ _ _ _ Hok Hlo) as (Hp & _ & Hl & _ & _). pose proof (lo_len _ _ _ Hlo) as El.
  unfold icmp_send_response. apply wp_bind, (wp_the_pbuf p b); [apply Hlo|].
  change (IP_HLEN + ICMP_DEST_UNREACH_DATASIZE) with 28. change SIZEOF_ICMP_HDR with 8. set (len := if b_tot_len b <? 28 then b_tot_len b else 28).
  assert (0 ≤ len ≤ b_len b ∧ len ≤ 28) as [Hlen Hlen28] by (unfold len; destruct (Z.ltb_spec (b_tot_len b) 28); lia).
  apply wp_bind, (wp_alloc_packet nif n PBUF_IP _ owners); [done|lia|intros p' _ Hok'; cbn [Z.eqb NULL]; by apply wp_ret, HQ|].
  intros q p' Hq Hnone Es Hok1. rewrite (proj2 (Z.eqb_neq q NULL)) by done. set (s1 := change_bufs p' s) in *. set (c := ram_pbuf PBUF_IP q (8 + len)) in *.
  assert (lone (store_of s1) q c) as Hq1 by (unfold s1, store_of; simpl; rewrite Es; apply lone_ram).
  assert (lone (store_of s1) p b) as Hp1 by (unfold s1, store_of; simpl; rewrite Es; by apply lone_other).
  apply wp_bind, (wp_the_pbuf q c); [apply Hq1|]. apply wp_bind, wp_assert; [apply Z.leb_le; simpl; lia|].
  apply wp_bind, wp_write8, wp_bind, wp_write8, wp_bind, wp_write32, wp_bind.
  apply (wp_copy_prefix q c p b); [done..|simpl; lia|simpl; lia|done|lia|]. set (m := mem_write _ _ _). clearbody m.
  apply wp_bind, wp_read32. state_is (change_bytes m s1).
  apply wp_bind, (wp_route nif n _ (q :: owners)); [by apply stack_ok_bytes|]. intros r Hr. apply wp_bind, wp_when.
  - intros Hn. destruct Hr as [->| ->]; [done|]. apply wp_bind, wp_write16, wp_bind, wp_read, wp_bind, wp_write16, wp_bind.
    set (m' := mem_write _ _ _). clearbody m'. state_is (change_bytes m' s1). set (s2 := change_bytes m' s1).
    assert (stack_ok nif n s2 (q :: owners)) as Hok2 by by apply stack_ok_bytes.
    unfold ip4_output_if. apply wp_bind, (wp_the_netif nif n); [by eapply stack_nif|].
    rewrite <-(with_p_same q c s2), <-(part_all c) by (done || apply Hq1).
    eapply (wp_output_new custom_free link_err ip4_frag EP ER EQ EU nif n q c 0 _ _ _ _ _ _ (q :: owners)); [exact Hok2|by left|exact Hq1| |simpl; lia|change IP_HLEN with 20; simpl; lia| |].
    { change (b_payload c) with (q + SIZEOF_STRUCT_PBUF + 36). change IP_HLEN with 20. lia. }
    { replace (b_len c - 0 + IP_HLEN) with (28 + len) by (change IP_HLEN with 20; simpl; lia). destruct Hmtu as [?|Hm]; [by left|right]. change ERROR_LEN with 56 in Hm. lia. }
    intros m2 r n' h s3 _ _ He. do 2 apply wp_ret. eapply (wp_free_packet custom_free EP ER EQ EU nif n q owners); [apply He|done|]. intros p3 Hok3. by apply HQ.
  - intros _. eapply (wp_free_packet custom_free EP ER EQ EU nif n q owners); [by apply stack_ok_bytes|done|]. intros p3 Hok3. by apply HQ.
Qed.

(** ** Echo *)

(** The memory with the answer: the header at [h] has the addresses [src] and
    [dest], the message behind it another type, both another checksum. *)
Definition echo_memory (m : memory) (h hlen src dest : Z) : memory :=
  let m := mem_write (h + 16) (le_bytes 4 dest) (mem_write (h + 12) (le_bytes 4 src) m) in
  let m := mem_write (h + hlen) (le_bytes 1 ICMP_ER) m in
  let m := mem_write (h + hlen + 2) (le_bytes 2 (adjust_chksum (field m (h + hlen + 2) 2))) m in
  let m := mem_write (h + 10) (le_bytes 2 0) (mem_write (h + 8) (le_bytes 1 ICMP_TTL) m) in
  mem_write (h + 10) (le_bytes 2 (inet_chksum h (mem_read h (Z.to_nat hlen) m))) m.

(** The request at [a], [len] bytes, to [dest], is answered. *)
Definition echo_valid (n : netif) (m : memory) (dest a len : Z) : bool :=
  negb (ip4_addr_ismulticast dest) && negb (ip4_addr_isbroadcast_u32 dest n) && (SIZEOF_ICMP_HDR <=? len) &&
  (inet_chksum_pbuf [(a, Pbuf (mem_read a (Z.to_nat len) m) len len)] =? 0).

Lemma wp_echo_reply nif n p b k t src hlen owners (s : stack) (Q : unit → stack → Prop) :
  stack_ok nif n s owners → p ∈ owners → lone (store_of s) p b → 0 < hlen →
  p + SIZEOF_STRUCT_PBUF ≤ b_payload b + (k - hlen) → k ≤ t ≤ b_len b → t - k + hlen < 65536 → mtu_fits n (t - k + hlen) →
  let h := b_payload b + (k - hlen) in
  let m := echo_memory (mem_of s) h hlen src (current_iphdr_src (ip_data s)) in
  let s1 := change_bytes m (with_p p (set_if_idx NETIF_NO_INDEX (part b (k - hlen) t)) s) in
  (stack_ok nif n s1 owners → t - k + hlen < IP_HLEN → Q tt s1) →
  (∀ r n', emits custom_free EP ER EQ EU nif n p (field m (h + 16) 4) owners s1 r n' → Q tt (set_net n' s1)) →
  wp (echo_reply custom_free link_err ip4_frag p src hlen nif) Q (with_p p (part b k t) s).
Proof.
  intros Hok Hp Hlo Hh Hroom Hkt Hlen Hmtu h m s1 Hshort HQ.
  destruct (lone_inside EP ER EQ EU _ _ _ _ _ _ Hok Hlo) as (Hpn & _ & Hl & Hty & _).
  unfold echo_reply. apply wp_bind, (wp_the_pbuf p (part b k t)); [apply with_p_at|].
  apply wp_bind, wp_add_part; [done|done|lia|lia|done|lia|]. cbn [Z.eqb negb].
  apply wp_bind, (wp_the_pbuf p (part b (k - hlen) t)); [apply with_p_at|].
  change (b_payload (part b (k - hlen) t)) with h. assert (b_payload (part b k t) = h + hlen) as -> by (unfold h; simpl; lia).
  apply wp_bind, wp_write32, wp_bind, wp_gets, wp_bind, wp_write32, wp_bind, wp_write8.
  apply wp_bind, (wp_write_pbuf _ _ (part b (k - hlen) t)); [apply with_p_at|].
  set (b1 := set_if_idx NETIF_NO_INDEX (part b (k - hlen) t)) in *.
  set (m1 := mem_write (h + hlen) (le_bytes 1 ICMP_ER) (mem_write (h + 16) (le_bytes 4 (current_iphdr_src (ip_data s))) (mem_write (h + 12) (le_bytes 4 src) (mem_of s)))).
  state_is (change_bytes m1 (with_p p b1 (with_p p (part b (k - hlen) t) s))). rewrite with_p_twice.
  apply wp_bind, wp_read16, wp_bind, wp_write16, wp_bind, wp_write8, wp_bind, wp_write16, wp_bind, wp_read, wp_bind, wp_write16. state_is s1.
  assert (lone (store_of s1) p b1) as Hlo1 by (destruct Hlo; split; [apply with_p_at|done..]).
  assert (stack_ok nif n s1 owners) as Hok1.
  { apply stack_ok_bytes. apply (stack_ok_insert EP ER EQ EU nif n s owners p b b1); try done; [apply Hlo|simpl; lia|].
    intros room (Hc & Hlo' & _ & Hup). split_and!; simpl; (done || lia). }
  apply wp_bind. unfold ip4_output_if. apply wp_bind, (wp_the_netif nif n); [by eapply stack_nif|].
  apply (wp_output_old custom_free link_err ip4_frag EP ER EQ EU nif n p b1 _ _ _ _ owners); [done..| | |].
  - simpl. by replace (t - (k - hlen)) with (t - k + hlen) by lia.
  - simpl. intros Hlt. apply wp_ret, Hshort; [done|lia].
  - intros r n' He. apply wp_ret. by apply (HQ r).
Qed.

(** The headers are still in front of a received packet. *)
Lemma wp_echo_room p b k t hlen iphdr_in (s : stack) (Q : option Z → stack → Prop) :
  p ≠ NULL → 0 < hlen → Z.land (b_type b) PBUF_TYPE_FLAG_STRUCT_DATA_CONTIGUOUS ≠ 0 →
  p + SIZEOF_STRUCT_PBUF ≤ b_payload b + (k - (hlen + PBUF_LINK_HLEN)) → 0 ≤ t - k → t - k + hlen + PBUF_LINK_HLEN < 65536 →
  Q (Some p) (with_p p (part b k t) s) → wp (echo_room custom_free p hlen iphdr_in) Q (with_p p (part b k t) s).
Proof.
  intros Hp Hh Hty Hroom Htk Hlen HQ. change PBUF_LINK_HLEN with 14 in *. unfold echo_room. change PBUF_LINK_HLEN with 14.
  apply wp_bind, wp_add_part; [done|lia|done|lia|done|lia|]. cbn [Z.eqb negb].
  apply wp_bind, wp_remove_part; [done|lia|lia|]. rewrite (proj2 (Z.leb_le (hlen + 14) (t - (k - (hlen + 14))))) by lia.
  replace (k - (hlen + 14) + (hlen + 14)) with k by lia. apply wp_bind, wp_assert; [done|]. by apply wp_ret.
Qed.

(** The answer leaves, and the packet is given back. *)
Lemma wp_icmp_echo nif n p b k t hlen iphdr_in owners (s : stack) (Q : unit → stack → Prop) :
  stack_ok nif n s (p :: owners) → lone (store_of s) p b → current_netif (ip_data s) = nif → IP_HLEN ≤ hlen →
  p + SIZEOF_STRUCT_PBUF ≤ b_payload b + (k - (hlen + PBUF_LINK_HLEN)) → k ≤ t ≤ b_len b → t - k + hlen + PBUF_LINK_HLEN < 65536 →
  mtu_fits n (t - k + hlen) →
  let h := b_payload b + (k - hlen) in
  let src := current_iphdr_dest (ip_data s) in
  let valid := echo_valid n (mem_of s) src (b_payload b + k) (t - k) in
  let m := echo_memory (mem_of s) h hlen src (current_iphdr_src (ip_data s)) in
  let s1 := change_bytes m (with_p p (set_if_idx NETIF_NO_INDEX (part b (k - hlen) t)) s) in
  (∀ p', valid = false → let s' := change_bufs p' (with_p p (part b k t) s) in stack_ok nif n s' owners → Q tt s') →
  (∀ r n' p', valid = true → emits custom_free EP ER EQ EU nif n p (field m (h + 16) 4) (p :: owners) s1 r n' →
    let s' := change_bufs p' (set_net n' s1) in stack_ok nif n s' owners → Q tt s') →
  wp (icmp_echo custom_free link_err ip4_frag p nif hlen iphdr_in) Q (with_p p (part b k t) s).
Proof.
  intros Hok Hlo Hcur Hh Hroom Hkt Hlen Hmtu h src valid m s1 Hdrop HQ.
  destruct (lone_inside EP ER EQ EU _ _ _ _ _ _ Hok Hlo) as (Hpn & _ & Hl & Hty & _). change IP_HLEN with 20 in *. change PBUF_LINK_HLEN with 14 in *.
  assert (stack_ok nif n (with_p p (part b k t) s) (p :: owners)) as Hok0 by (apply part_ok; done || lia).
  assert (valid = false → wp (free_packet custom_free p) Q (with_p p (part b k t) s)) as Hfree.
  { intros Hv. apply (wp_free_packet custom_free EP ER EQ EU nif n p owners); [done|done|]. intros p' Hok'. by apply (Hdrop p'). }
  unfold icmp_echo. apply wp_bind, wp_gets. change (current_iphdr_dest (ip_data (with_p p (part b k t) s))) with src.
  assert (valid = echo_valid n (mem_of s) src (b_payload b + k) (t - k)) as Ev by done. clearbody valid. unfold echo_valid in Ev.
  destruct (ip4_addr_ismulticast src); [by apply Hfree|]. apply wp_bind, wp_gets.
  change (current_netif (ip_data (with_p p (part b k t) s))) with (current_netif (ip_data s)). rewrite Hcur.
  apply wp_bind, (wp_the_netif nif n); [by eapply stack_nif|]. destruct (ip4_addr_isbroadcast_u32 src n); [by apply Hfree|].
  apply wp_bind, (wp_the_pbuf p (part b k t)); [apply with_p_at|]. change (b_tot_len (part b k t)) with (t - k).
  destruct (Z.ltb_spec (t - k) SIZEOF_ICMP_HDR) as [Hs|Hs]; [apply Hfree; by rewrite Ev, (proj2 (Z.leb_gt _ _)) by done|].
  apply wp_bind, (wp_placed_one p (part b k t)); [done|apply with_p_at|apply Hlo|].
  cbn [b_payload b_len b_tot_len part set_payload set_lens]. change (mem_of (with_p p (part b k t) s)) with (mem_of s).
  rewrite (proj2 (Z.leb_le _ _)) in Ev by done. cbn [negb andb] in Ev.
  destruct (inet_chksum_pbuf _ =? 0) eqn:Ec in Ev |- *; cbn [negb]; [|by apply Hfree].
  apply wp_bind, wp_echo_room; [done|lia|done|change PBUF_LINK_HLEN with 14; lia|lia|change PBUF_LINK_HLEN with 14; lia|].
  apply wp_bind, (wp_echo_reply nif n p b k t src hlen (p :: owners)); [done|by left|done|lia|lia|lia|lia|done|change IP_HLEN with 20; lia|].
  intros r n' He. apply (wp_free_packet custom_free EP ER EQ EU nif n p owners); [apply He|done|]. intros p' Hok'. by apply (HQ r n' p').
Qed.

(** ** Receiving *)

Lemma wp_icmp_input nif n p b k t owners (s : stack) (Q : unit → stack → Prop) :
  let h := b_payload b + (k - IPH_HL_BYTES (field (mem_of s) (current_ip4_header (ip_data s)) 1)) in
  let hlen := IPH_HL_BYTES (field (mem_of s) (current_ip4_header (ip_data s)) 1) in
  stack_ok nif n s (p :: owners) → lone (store_of s) p b → current_netif (ip_data s) = nif →
  p + SIZEOF_STRUCT_PBUF ≤ b_payload b + (k - (hlen + PBUF_LINK_HLEN)) → k ≤ t ≤ b_len b → t - k + hlen + PBUF_LINK_HLEN < 65536 →
  mtu_fits n (t - k + hlen) →
  let src := current_iphdr_dest (ip_data s) in
  let valid := (IP_HLEN <=? hlen) && (4 <=? t - k) && (field (mem_of s) (b_payload b + k) 1 =? ICMP_ECHO) &&
    echo_valid n (mem_of s) src (b_payload b + k) (t - k) in
  let m := echo_memory (mem_of s) h hlen src (current_iphdr_src (ip_data s)) in
  let s1 := change_bytes m (with_p p (set_if_idx NETIF_NO_INDEX (part b (k - hlen) t)) s) in
  (∀ p', valid = false → let s' := change_bufs p' (with_p p (part b k t) s) in stack_ok nif n s' owners → Q tt s') →
  (∀ r n' p', valid = true → emits custom_free EP ER EQ EU nif n p (field m (h + 16) 4) (p :: owners) s1 r n' →
    let s' := change_bufs p' (set_net n' s1) in stack_ok nif n s' owners → Q tt s') →
  wp (icmp_input custom_free link_err ip4_frag p nif) Q (with_p p (part b k t) s).
Proof.
  intros h hlen Hok Hlo Hcur Hroom Hkt Hlen Hmtu src valid m s1 Hdrop HQ.
  destruct (lone_inside EP ER EQ EU _ _ _ _ _ _ Hok Hlo) as (Hpn & _ & Hl & Hty & _). pose proof (IPH_HL_range (field (mem_of s) (current_ip4_header (ip_data s)) 1)) as Hhr.
  fold hlen in Hhr, h. change IP_HLEN with 20 in *. change PBUF_LINK_HLEN with 14 in *.
  assert (stack_ok nif n (with_p p (part b k t) s) (p :: owners)) as Hok0 by (apply part_ok; done || lia).
  assert (valid = false → wp (free_packet custom_free p) Q (with_p p (part b k t) s)) as Hfree.
  { intros Hv. apply (wp_free_packet custom_free EP ER EQ EU nif n p owners); [done|done|]. intros p' Hok'. by apply (Hdrop p'). }
  assert (valid = (20 <=? hlen) && (4 <=? t - k) && (field (mem_of s) (b_payload b + k) 1 =? ICMP_ECHO) && echo_valid n (mem_of s) src (b_payload b + k) (t - k)) as Ev by done.
  clearbody valid. unfold icmp_input. apply wp_bind, wp_gets, wp_bind, wp_read8.
  change (IPH_HL_BYTES (field (mem_of (with_p p (part b k t) s)) (current_ip4_header (ip_data (with_p p (part b k t) s))) 1)) with hlen.
  change IP_HLEN with 20. destruct (Z.ltb_spec hlen 20) as [Hh|Hh]; [apply Hfree; by rewrite Ev, (proj2 (Z.leb_gt _ _)) by done|].
  apply wp_bind, (wp_the_pbuf p (part b k t)); [apply with_p_at|]. cbn [b_payload b_len part set_payload set_lens]. change (2 * 2) with 4.
  rewrite (proj2 (Z.leb_le _ _)) in Ev by done. cbn [andb] in Ev.
  destruct (Z.ltb_spec (t - k) 4) as [Hs|Hs]; [apply Hfree; by rewrite Ev, (proj2 (Z.leb_gt _ _)) by done|].
  rewrite (proj2 (Z.leb_le _ _)) in Ev by done. cbn [andb] in Ev.
  apply wp_bind, wp_read8. change (mem_of (with_p p (part b k t) s)) with (mem_of s).
  destruct (field (mem_of s) (b_payload b + k) 1 =? ICMP_ECHO); [|by apply Hfree]. cbn [andb] in Ev. subst valid.
  apply (wp_icmp_echo nif n p b k t hlen _ owners); [done|done|done|done|change PBUF_LINK_HLEN with 14; lia|done|change PBUF_LINK_HLEN with 14; lia|done|exact Hdrop|exact HQ].
Qed.
End icmp_thm.
