(* ===== verification/Ip4InThm.v ===== *)
(** What the protocols do with a frame that is one pbuf of the pool: [UdpIo], [Ip4In],
    and all together. *)
From stdpp Require Import base tactics numbers list gmap.
From S2P Require Import Prelude Words Pbuf Def Checksum Memp PbufMem PbufThm PbufOps Ip4Addr Net NetThm Etharp EtharpThm EtharpOps EtharpSend EtharpQuery UdpPcb UdpPcbThm UdpPcbSafe Ip4 Icmp UdpIo Ip4In StackThm IcmpThm.

(** * Datagrams

    What [UdpIo] does: a datagram that is one pbuf goes to the user of the block it
    is for, without its headers, or is given back; and what is sent is one frame. *)

Section udp_io_thm.
Context {PP PR H PQ PU X : Type} `{PoolLaws PP, PoolLaws PR, HeapLaws H, PoolLaws PQ, PoolLaws PU}.
Context (custom_free : Z → M (pmem PP PR H) unit) (link_err : list frame → Z).
Context (ip4_frag : Z → Z → Z → M (stack PP PR H PQ PU X) Z).
Context (call_recv : Z → Z → Z → Z → Z → Z → M (stack PP PR H PQ PU X) unit).
Context (EP ER EQ EU : list Z) `{!Layout (PP := PP) (PR := PR) (H := H) EP ER} `{!QueueLayout (PQ := PQ) EQ} `{!UdpLayout (PU := PU) EU}.

Notation stack := (stack PP PR H PQ PU X).
Notation stack_ok := (stack_ok EP ER EQ EU).

(** ** Receiving *)

Definition arrival_of (n : netif) (d : ip_globals) : arrival :=
  Arrival n (netif_get_index n) (current_iphdr_src d) (current_iphdr_dest d) (ip4_addr_isbroadcast_u32 (current_iphdr_dest d) n).

(** The datagram of [len] bytes at [h] is whole. *)
Definition udp_valid (m : memory) (a : arrival) (h len : Z) : bool :=
  (UDP_HLEN <=? len) && ((field m (h + 6) 2 =? 0) ||
    (ip_chksum_pseudo [(h, Pbuf (mem_read h (Z.to_nat len) m) len len)] IP_PROTO_UDP len (a_src a) (a_dest a) =? 0)).

(** The block that the datagram at [h] is for, or NULL; [l] is the list. *)
Definition for_block (s : stack) (a : arrival) (h : Z) (l : list Z) : Z :=
  addressee a (lwip_htons (field (mem_of s) h 2)) (lwip_htons (field (mem_of s) (h + 2) 2)) (pcbs (st_udp s)) l.
Definition block_at (s : stack) (x : Z) : udp_pcb := pcbs (st_udp s) !!! x.

(** Nobody takes the datagram. *)
Definition unwanted (s : stack) (a : arrival) (h len : Z) : Prop :=
  udp_valid (mem_of s) a h len = false ∨
  ∃ l, udp_ok EU (st_udp s) l ∧ (for_block s a h l = NULL ∨ u_recv (block_at s (for_block s a h l)) = NULL).

(** It goes to a block on the list whose user takes datagrams. *)
Record wanted (s : stack) (a : arrival) (h len : Z) (l : list Z) (u : udp_mod PU) : Prop := Wanted {
  wa_list : udp_ok EU (st_udp s) l;
  wa_list' : udp_ok EU u (reordered a (lwip_htons (field (mem_of s) h 2)) (lwip_htons (field (mem_of s) (h + 2) 2)) (pcbs (st_udp s)) l);
  wa_same : relinked (pcbs (st_udp s)) (pcbs u);
  wa_valid : udp_valid (mem_of s) a h len = true;
  wa_block : for_block s a h l ∈ l;
  wa_recv : u_recv (block_at s (for_block s a h l)) ≠ NULL
}.

Lemma wp_the_pcb x p (s : stack) (Q : udp_pcb → stack → Prop) : pcbs (st_udp s) !! x = Some p → Q p s → wp (on_udp (rd_pcb x)) Q s.
Proof. intros Hp HQ. apply wp_on_udp, (wp_rd_pcb x p); [done|]. by rewrite set_udp_same. Qed.

Lemma wp_udp_deliver nif n p b k t x src a hl owners (s : stack) (Q : unit → stack → Prop) :
  stack_ok nif n s (p :: owners) → lone (store_of s) p b → current_ip_header_tot_len (ip_data s) = hl → 0 ≤ hl →
  p + SIZEOF_STRUCT_PBUF ≤ b_payload b + (k - hl) → k ≤ t ≤ b_len b → UDP_HLEN ≤ t - k → t - k + hl < 65536 → mtu_fits n ERROR_LEN →
  (x ≠ NULL → is_Some (pcbs (st_udp s) !! x)) →
  (∀ s', stack_ok nif n s' owners → x = NULL ∨ u_recv (block_at s x) = NULL → Q tt s') →
  (let s2 := with_p p (part b (k + UDP_HLEN) t) s in
    x ≠ NULL → u_recv (block_at s x) ≠ NULL → stack_ok nif n s2 (p :: owners) →
    wp (call_recv (u_recv (block_at s x)) (u_recv_arg (block_at s x)) x p (a_src a) src) Q s2) →
  wp (udp_deliver custom_free link_err ip4_frag call_recv p x src a) Q (with_p p (part b k t) s).
Proof.
  intros Hok Hlo Hhl Hhl0 Hroom Hkt Hlen Hsmall Hmtu Hx Hno Hyes. change UDP_HLEN with 8 in *.
  destruct (lone_inside EP ER EQ EU _ _ _ _ _ _ Hok Hlo) as (Hpn & _ & Hl & Hty & _).
  unfold udp_deliver. change UDP_HLEN with 8. apply wp_bind, wp_remove_part; [done|done|lia|]. rewrite (proj2 (Z.leb_le _ _)) by done.
  apply wp_bind, wp_assert; [done|]. set (s2 := with_p p (part b (k + 8) t) s) in *.
  assert (stack_ok nif n s2 (p :: owners)) as Hok2 by (apply part_ok; done || lia).
  assert (∀ s', stack_ok nif n s' (p :: owners) → x = NULL ∨ u_recv (block_at s x) = NULL → wp (free_packet custom_free p) Q s') as Hfree.
  { intros s' Hok' Hc. apply (wp_free_packet custom_free EP ER EQ EU nif n p owners); [done|done|]. intros p' Hok3. by apply Hno. }
  destruct (Z.eqb_spec x NULL) as [->|Hxn]; cbn [negb].
  - apply wp_bind, wp_when; [intros _|intros _; apply Hfree; [done|by left]]. apply wp_bind, wp_gets.
    change (current_ip_header_tot_len (ip_data s2)) with (current_ip_header_tot_len (ip_data s)). rewrite Hhl. apply wp_bind.
    unfold pbuf_header_force, pbuf_header_impl. rewrite (proj2 (Z.ltb_ge (hl + 8) 0)) by lia.
    unfold s2. apply wp_add_part; [done|lia|lia|lia|done|lia|].
    replace (k + 8 - (hl + 8)) with (k - hl) by lia. set (s3 := with_p p (part b (k - hl) t) s).
    assert (stack_ok nif n s3 (p :: owners)) as Hok3 by (apply part_ok; done || lia).
    unfold icmp_dest_unreach. apply (wp_icmp_send_response custom_free link_err ip4_frag EP ER EQ EU nif n p (part b (k - hl) t) _ _ (p :: owners)); [done|by apply part_lone|done|].
    intros s' Hok'. apply Hfree; [done|by left].
  - destruct (Hx Hxn) as [u Hu]. apply wp_bind, (wp_the_pcb x u); [done|]. assert (block_at s x = u) as Eu by by apply lookup_total_correct.
    rewrite Eu in *. destruct (Z.eqb_spec (u_recv u) NULL) as [Er|Er]; cbn [negb]; [by apply Hfree; [|right]|by apply Hyes].
Qed.

Lemma wp_udp_input nif n p b k t hl owners (s : stack) (Q : unit → stack → Prop) :
  stack_ok nif n s (p :: owners) → lone (store_of s) p b →
  current_netif (ip_data s) = nif → current_input_netif (ip_data s) = nif → current_ip_header_tot_len (ip_data s) = hl → 0 ≤ hl →
  p + SIZEOF_STRUCT_PBUF ≤ b_payload b + (k - hl) → k ≤ t ≤ b_len b → t - k + hl < 65536 → mtu_fits n ERROR_LEN →
  let h := b_payload b + k in let a := arrival_of n (ip_data s) in
  (∀ s', stack_ok nif n s' owners → unwanted s a h (t - k) → Q tt s') →
  (∀ l u, wanted s a h (t - k) l u → let x := for_block s a h l in
    let s2 := set_udp u (with_p p (part b (k + UDP_HLEN) t) s) in
    stack_ok nif n s2 (p :: owners) →
    wp (call_recv (u_recv (block_at s x)) (u_recv_arg (block_at s x)) x p (a_src a) (lwip_htons (field (mem_of s) h 2))) Q s2) →
  wp (udp_input custom_free link_err ip4_frag call_recv p nif) Q (with_p p (part b k t) s).
Proof.
  intros Hok Hlo Hcur Hcur' Hhl Hhl0 Hroom Hkt Hsmall Hmtu h a Hno Hyes. change UDP_HLEN with 8 in *.
  destruct (lone_inside EP ER EQ EU _ _ _ _ _ _ Hok Hlo) as (Hpn & _ & Hl & Hty & _). pose proof (stack_nif EP ER EQ EU _ _ _ _ Hok) as Hnif.
  set (s0 := with_p p (part b k t) s). assert (stack_ok nif n s0 (p :: owners)) as Hok0 by (apply part_ok; done || lia).
  assert (∀ s', stack_ok nif n s' (p :: owners) → unwanted s a h (t - k) → wp (free_packet custom_free p) Q s') as Hfree.
  { intros s' Hok' Hc. apply (wp_free_packet custom_free EP ER EQ EU nif n p owners); [done|done|]. intros p' Hok3. by apply Hno. }
  unfold udp_input. apply wp_bind, wp_assert; [by apply negb_true_iff, Z.eqb_neq|]. apply wp_bind, wp_assert; [apply negb_true_iff, Z.eqb_neq; by destruct Hnif|].
  apply wp_bind, (wp_the_pbuf p (part b k t)); [apply with_p_at|]. cbn [b_payload b_len b_tot_len part set_payload set_lens]. fold h.
  change UDP_HLEN with 8. destruct (Z.ltb_spec (t - k) 8) as [Hs|Hs].
  { apply Hfree; [done|]. left. unfold udp_valid. change UDP_HLEN with 8. by rewrite (proj2 (Z.leb_gt _ _)) by done. }
  apply wp_bind. unfold this_arrival. apply wp_bind, wp_gets. change (ip_data s0) with (ip_data s). rewrite Hcur, Hcur'.
  do 3 (apply wp_bind, (wp_the_netif nif n); [by eapply (stack_nif EP ER EQ EU)|]). apply wp_ret. fold (arrival_of n (ip_data s)). fold a.
  apply wp_bind, wp_read16, wp_bind, wp_read16. change (mem_of s0) with (mem_of s).
  set (src := lwip_htons (field (mem_of s) h 2)). set (dest := lwip_htons (field (mem_of s) (h + 2) 2)).
  apply wp_bind, (wp_demux EP ER EQ EU nif n a src dest (p :: owners)); [done|]. intros l Hudp u Hu Hrel Hok1 x Hx.
  change (pcbs (st_udp s0)) with (pcbs (st_udp s)) in x. change (for_block s a h l) with x in *. change (st_udp s0) with (st_udp s) in Hudp, Hrel, Hu.
  set (s1 := set_udp u s0) in *.
  destruct (negb (x =? NULL) || (ip_addr (a_inp a) =? a_dest a)) eqn:Efor.
  2: { apply orb_false_iff in Efor as [Ex%negb_false_iff%Z.eqb_eq _]. apply Hfree; [done|]. right. exists l. split; [done|]. by left. }
  apply wp_bind, wp_read16. change (mem_of s1) with (mem_of s).
  assert (∀ Q' : bool → stack → Prop, Q' (negb (udp_valid (mem_of s) a h (t - k))) s1 →
    wp (if negb (field (mem_of s) (h + 6) 2 =? 0) then
          c ← placed_chain p; mret (negb (ip_chksum_pseudo c IP_PROTO_UDP (t - k) (a_src a) (a_dest a) =? 0))
        else mret false) Q' s1) as Hbad.
  { intros Q' HQ'. unfold udp_valid in HQ'. change UDP_HLEN with 8 in HQ'. rewrite (proj2 (Z.leb_le _ _)) in HQ' by done.
    destruct (field (mem_of s) (h + 6) 2 =? 0); cbn [negb andb orb] in *; [by apply wp_ret|].
    apply wp_bind, (wp_placed_one p (part b k t)); [done|apply with_p_at|apply Hlo|]. by apply wp_ret. }
  apply wp_bind, Hbad. clear Hbad. destruct (udp_valid (mem_of s) a h (t - k)) eqn:Ev; cbn [negb]; [|by apply Hfree; [|left]].
  assert (block_at (set_udp u s) x = set_u_next (u_next (pcbs u !!! x)) (block_at s x)) as Eb by apply (proj2 Hrel x).
  apply (wp_udp_deliver nif n p b k t x src a hl owners (set_udp u s)); try done.
  - eapply (stack_ok_udp EP ER EQ EU); [exact Hok|exact Hu].
  - intros Hxn. by apply Hx.
  - intros s' Hok' Hc. apply Hno; [done|]. right. exists l. split; [done|]. rewrite Eb in Hc. exact Hc.
  - intros s2 Hxn Hr Hok2. rewrite Eb in *. apply (Hyes l u); [|done]. split; [done..|by apply Hx|done].
Qed.
End udp_io_thm.

(** * Packets

    What [Ip4In] does with a frame that is one pbuf of the pool: which packets are
    for this host, and what of them the protocols above get. *)

(** ** Which packets are taken *)

(** The header of the packet at [h], of [len] bytes with what follows it. *)
Definition ip4_hlen (m : memory) (h : Z) : Z := IPH_HL_BYTES (field m h 1).
Definition ip4_len (m : memory) (h : Z) : Z := lwip_htons (field m (h + 2) 2).
Definition ip4_src (m : memory) (h : Z) : Z := field m (h + 12) 4.
Definition ip4_dest (m : memory) (h : Z) : Z := field m (h + 16) 4.
Definition ip4_proto (m : memory) (h : Z) : Z := field m (h + 9) 1.

Definition header_valid (m : memory) (h len : Z) : bool :=
  (Z.shiftr (field m h 1) 4 =? 4) && (IP_HLEN <=? ip4_hlen m h) && (ip4_hlen m h <=? ip4_len m h) && (ip4_len m h <=? len) &&
  (inet_chksum h (mem_read h (Z.to_nat (ip4_hlen m h)) m) =? 0).

(** For the address of the interface, a group or everyone; datagrams to DHCP's
    client always. *)
Definition addressed (n : netif) (dest : Z) : bool :=
  netif_is_up n && negb (ip4_addr_isany_val (ip_addr n)) &&
  (ip4_addr_ismulticast dest || (dest =? ip_addr n) || ip4_addr_isbroadcast_u32 dest n).
Definition to_dhcp (m : memory) (h : Z) : bool :=
  (ip4_proto m h =? IP_PROTO_UDP) && IP_ACCEPT_LINK_LAYER_ADDRESSED_PORT (field m (h + ip4_hlen m h + 2) 2).
Definition source_bad (n : netif) (src : Z) : bool :=
  negb (ip4_addr_isany_val src) && (ip4_addr_isbroadcast_u32 src n || ip4_addr_ismulticast src).

Definition ip4_accepts (n : netif) (m : memory) (h len : Z) : bool :=
  header_valid m h len &&
  (if addressed n (ip4_dest m h) then negb (source_bad n (ip4_src m h)) else to_dhcp m h).

Definition is_fragment (m : memory) (h : Z) : bool := negb (Z.land (field m (h + 6) 2) (PP_HTONS (Z.lor IP_OFFMASK IP_MF)) =? 0).

(** [ip_data] for the protocols above. *)
Definition packet_data (nif : Z) (m : memory) (h : Z) : ip_globals := IpGlobals nif nif h (ip4_hlen m h) (ip4_src m h) (ip4_dest m h).

Section ip4_in_thm.
Context {PP PR H PQ PU X : Type} `{PoolLaws PP, PoolLaws PR, HeapLaws H, PoolLaws PQ, PoolLaws PU}.
Context (custom_free : Z → M (pmem PP PR H) unit) (link_err : list frame → Z).
Context (ip4_frag : Z → Z → Z → M (stack PP PR H PQ PU X) Z) (ip4_reass : Z → M (stack PP PR H PQ PU X) Z).
Context (call_recv : Z → Z → Z → Z → Z → Z → M (stack PP PR H PQ PU X) unit).
Context (EP ER EQ EU : list Z) `{!Layout (PP := PP) (PR := PR) (H := H) EP ER} `{!QueueLayout (PQ := PQ) EQ} `{!UdpLayout (PU := PU) EU}.

Notation stack := (stack PP PR H PQ PU X).
Notation stack_ok := (stack_ok EP ER EQ EU).

Lemma wp_accepting nif n h hlen (s : stack) (Q : Z * bool → stack → Prop) :
  nif_ok (st_net s) nif n → hlen = ip4_hlen (mem_of s) h →
  (let dest := current_iphdr_dest (ip_data s) in
    Q (if addressed n dest then (nif, true) else if to_dhcp (mem_of s) h then (nif, false) else (NULL, true)) s) →
  wp (accepting_netif nif h hlen) Q s.
Proof.
  intros Hn -> HQ. cbv zeta in HQ. set (dest := current_iphdr_dest (ip_data s)) in *. unfold accepting_netif. apply wp_bind, wp_gets. fold dest.
  apply wp_bind, (wp_the_netif nif n); [done|]. apply wp_bind.
  assert (∀ Q' : Z → stack → Prop, Q' (if addressed n dest then nif else NULL) s →
    wp (if ip4_addr_ismulticast dest then mret (if netif_is_up n && negb (ip4_addr_isany_val (ip_addr n)) then nif else NULL)
        else acc ← ip4_input_accept nif; mret (if acc : bool then nif else NULL)) Q' s) as Hacc.
  { intros Q' HQ'. unfold addressed in HQ'. destruct (ip4_addr_ismulticast dest); cbn [orb] in HQ'.
    - rewrite andb_true_r in HQ'. by apply wp_ret.
    - apply wp_bind. unfold ip4_input_accept. apply wp_bind, (wp_the_netif nif n); [done|]. apply wp_bind, wp_gets. fold dest. by do 2 apply wp_ret. }
  apply Hacc. clear Hacc. destruct (addressed n dest).
  - rewrite (proj2 (Z.eqb_neq nif NULL)) by by destruct Hn. by apply wp_ret.
  - rewrite Z.eqb_refl. apply wp_bind, wp_read8. fold (ip4_proto (mem_of s) h). unfold to_dhcp in HQ.
    destruct (ip4_proto (mem_of s) h =? IP_PROTO_UDP); [|by apply wp_ret]. apply wp_bind, wp_read16. cbn [andb] in HQ.
    destruct (IP_ACCEPT_LINK_LAYER_ADDRESSED_PORT _); by apply wp_ret.
Qed.

(** A packet for this host goes up without its header; others are given back. *)
Lemma wp_ip4_input nif n p b k t owners (s : stack) (Q : Z → stack → Prop) :
  stack_ok nif n s (p :: owners) → lone (store_of s) p b → pbuf_get_allocsrc b = 2 →
  p + SIZEOF_STRUCT_PBUF ≤ b_payload b + k → k ≤ t ≤ b_len b → t - k < 65536 →
  let h := b_payload b + k in let m := mem_of s in
  is_fragment m h = false →
  (∀ s', stack_ok nif n s' owners → ip4_accepts n m h (t - k) = false → Q ERR_OK s') →
  (ip4_accepts n m h (t - k) = true →
    wp (to_protocol custom_free link_err ip4_frag call_recv p nif nif h (ip4_hlen m h)) (λ _ s', Q ERR_OK (set_ip_data no_packet s'))
      (set_ip_data (packet_data nif m h) (with_p p (part b (k + ip4_hlen m h) (k + ip4_len m h)) s))) →
  wp (ip4_input custom_free link_err ip4_frag ip4_reass call_recv p nif) Q (with_p p (part b k t) s).
Proof.
  intros Hok Hlo Hpool Hroom Hkt Hlen h m Hnf Hdrop Hup. set (L := t - k) in *.
  destruct (lone_inside EP ER EQ EU _ _ _ _ _ _ Hok Hlo) as (Hpn & _ & Hl & Hty & _). pose proof (stack_nif EP ER EQ EU _ _ _ _ Hok) as Hnif.
  assert (∀ e d, k ≤ e ≤ t → ip4_accepts n m h L = false →
    wp (free_packet custom_free p;; mret ERR_OK) Q (set_ip_data d (with_p p (part b k e) s))) as Hfree.
  { intros e d He Hf. apply wp_bind, (wp_free_packet custom_free EP ER EQ EU nif n p owners); [|done|intros p' Hok'; by apply wp_ret, Hdrop].
    apply (stack_ok_data EP ER EQ EU). apply part_ok; done || lia. }
  assert (∀ e, k ≤ e ≤ t → ip4_accepts n m h L = false → wp (free_packet custom_free p;; mret ERR_OK) Q (with_p p (part b k e) s)) as Hfree'.
  { intros e He Hf. apply (Hfree e (ip_data s)) in Hf; [|done]. by destruct s. }
  unfold ip4_input. apply wp_bind, (wp_the_pbuf p (part b k t)); [apply with_p_at|]. cbn [b_payload b_len b_tot_len part set_payload set_lens]. fold h.
  apply wp_bind, wp_read8. change (mem_of (with_p p (part b k t) s)) with m.
  assert (∀ c, header_valid m h L = c → c = false → ip4_accepts n m h L = false) as Hbad by (intros c Hc ->; unfold ip4_accepts; by rewrite Hc).
  unfold header_valid in Hbad.
  destruct (Z.shiftr (field m h 1) 4 =? 4) eqn:Ev; cbn [negb]; [|by apply Hfree'; [lia|eapply Hbad]].
  apply wp_bind, wp_read16. change (mem_of (with_p p (part b k t) s)) with m. fold (ip4_len m h) (ip4_hlen m h).
  assert (0 ≤ ip4_len m h) as Hlen0 by (unfold ip4_len, lwip_htons; apply u16_range).
  pose proof (IPH_HL_range (field m h 1)) as Hhr. fold (ip4_hlen m h) in Hhr.
  set (e := if ip4_len m h <? L then k + ip4_len m h else t).
  assert (k ≤ e ≤ t) as He by (unfold e; destruct (Z.ltb_spec (ip4_len m h) L); lia).
  apply wp_bind. fold L. assert (∀ Q' : unit → stack → Prop, Q' tt (with_p p (part b k e) s) →
    wp (when_ (ip4_len m h <? L) (on_bufs (pbuf_realloc custom_free p (ip4_len m h)))) Q' (with_p p (part b k t) s)) as Hre.
  { intros Q' HQ'. unfold e in HQ'. destruct (Z.ltb_spec (ip4_len m h) L); cbn [when_]; [|by apply wp_ret].
    apply wp_realloc_part; [done|apply Hlo|done|lia|done|done]. }
  apply Hre. clear Hre. apply wp_bind, (wp_the_pbuf p (part b k e)); [apply with_p_at|]. cbn [b_payload b_len b_tot_len part set_payload set_lens].
  change IP_HLEN with 20 in Hbad. change IP_HLEN with 20.
  destruct (Z.ltb_spec (e - k) (ip4_hlen m h)) as [H1'|H1']; cbn [orb].
  { apply Hfree'; [done|]. eapply Hbad; [done|]. unfold e in H1'. destruct (Z.ltb_spec (ip4_len m h) L).
    - rewrite (proj2 (Z.leb_gt (ip4_hlen m h) (ip4_len m h))) by lia. by rewrite andb_false_r.
    - destruct (Z.leb_spec (ip4_hlen m h) (ip4_len m h)); [|by rewrite andb_false_r]. rewrite (proj2 (Z.leb_gt (ip4_len m h) L)) by lia. by rewrite andb_false_r. }
  destruct (Z.ltb_spec (e - k) (ip4_len m h)) as [H2'|H2']; cbn [orb].
  { apply Hfree'; [done|]. eapply Hbad; [done|]. unfold e in H2'. destruct (Z.ltb_spec (ip4_len m h) L); [lia|].
    rewrite (proj2 (Z.leb_gt (ip4_len m h) L)) by lia. by rewrite andb_false_r. }
  assert (e = k + ip4_len m h ∧ ip4_len m h ≤ L) as [Ee Hfit] by (unfold e in *; destruct (Z.ltb_spec (ip4_len m h) L); lia).
  destruct (Z.ltb_spec (ip4_hlen m h) 20) as [H3'|H3'].
  { apply Hfree'; [done|]. eapply Hbad; [done|]. by rewrite (proj2 (Z.leb_gt 20 (ip4_hlen m h))) by lia. }
  rewrite (proj2 (Z.leb_le 20 (ip4_hlen m h))), (proj2 (Z.leb_le (ip4_hlen m h) (ip4_len m h))), (proj2 (Z.leb_le (ip4_len m h) L)) in Hbad by lia. cbn [andb] in Hbad.
  apply wp_bind, wp_read. change (mem_of (with_p p (part b k e) s)) with m.
  destruct (inet_chksum h (mem_read h (Z.to_nat (ip4_hlen m h)) m) =? 0) eqn:Ec; cbn [negb]; [|by apply Hfree'; [lia|eapply Hbad]]. clear Hbad.
  assert (header_valid m h L = true) as Hval.
  { unfold header_valid. change IP_HLEN with 20. rewrite Ev, Ec, (proj2 (Z.leb_le 20 (ip4_hlen m h))), (proj2 (Z.leb_le (ip4_hlen m h) (ip4_len m h))), (proj2 (Z.leb_le (ip4_len m h) L)) by lia. done. }
  apply wp_bind, wp_read32, wp_bind, wp_read32. change (mem_of (with_p p (part b k e) s)) with m. fold (ip4_src m h) (ip4_dest m h).
  apply wp_bind, wp_modify. set (d := IpGlobals _ _ _ _ _ _). state_is (set_ip_data d (with_p p (part b k e) s)). set (s1 := set_ip_data d _).
  assert (stack_ok nif n s1 (p :: owners)) as Hok1 by (apply (stack_ok_data EP ER EQ EU); apply part_ok; done || lia).
  pose proof (stack_nif EP ER EQ EU _ _ _ _ Hok1) as Hnif1.
  apply wp_bind, (wp_accepting nif n); [done|done|]. change (current_iphdr_dest (ip_data s1)) with (ip4_dest m h). change (mem_of s1) with m. cbv zeta.
  assert (ip4_accepts n m h L = if addressed n (ip4_dest m h) then negb (source_bad n (ip4_src m h)) else to_dhcp m h) as Ea by (unfold ip4_accepts; by rewrite Hval).
  assert (∀ Q', Q' n s1 → wp (on_net (rd_netif nif)) Q' s1) as Hrd by (intros Q' HQ'; by apply (wp_the_netif nif n)).
  assert (ip4_accepts n m h L = true → wp (pass_up custom_free link_err ip4_frag call_recv p nif nif h (ip4_hlen m h)) Q s1) as Hpass.
  { intros Ht. unfold pass_up. apply wp_bind, wp_read8, wp_bind, wp_modify.
    state_is (with_p p (part b k e) (set_ip_data (packet_data nif m h) s)).
    apply wp_bind, wp_remove_part; [done|lia|lia|]. rewrite (proj2 (Z.leb_le (ip4_hlen m h) (e - k))) by lia.
    apply wp_bind. eapply wp_mono; [|intros u s' HQ'; apply wp_bind, wp_modify, wp_ret; exact HQ']. rewrite Ee. by apply Hup. }
  assert (∀ c, ip4_accepts n m h L = true → c && source_bad n (ip4_src m h) = false →
    wp (if c && negb (ip4_addr_isany_val (ip4_src m h)) && (ip4_addr_isbroadcast_u32 (ip4_src m h) n || ip4_addr_ismulticast (ip4_src m h))
        then free_packet custom_free p;; mret ERR_OK
        else if nif =? NULL then free_packet custom_free p;; mret ERR_OK
        else
          offset ← on_net (rd16 (h + 6));
          if negb (Z.land offset (PP_HTONS (Z.lor IP_OFFMASK IP_MF)) =? 0) then
            p ← ip4_reass p;
            if p =? NULL then mret ERR_OK
            else b ← on_net (rd_pbuf p); pass_up custom_free link_err ip4_frag call_recv p nif nif (b_payload b) (ip4_hlen m h)
          else pass_up custom_free link_err ip4_frag call_recv p nif nif h (ip4_hlen m h)) Q s1) as Hgo.
  { intros c Ht Hc. unfold source_bad in Hc. rewrite <-andb_assoc, Hc. rewrite (proj2 (Z.eqb_neq nif NULL)) by by destruct Hnif.
    apply wp_bind, wp_read16. change (mem_of s1) with m. unfold is_fragment in Hnf. rewrite Hnf. by apply Hpass. }
  destruct (addressed n (ip4_dest m h)).
  - apply wp_bind, Hrd. destruct (source_bad n (ip4_src m h)) eqn:Es; [|apply (Hgo true); [by rewrite Ea|done]].
    unfold source_bad in Es. cbn [andb]. rewrite Es. by apply Hfree.
  - destruct (to_dhcp m h); [apply wp_bind, Hrd, (Hgo false); [by rewrite Ea|done]|].
    apply wp_bind, Hrd. destruct (_ && _); by apply Hfree.
Qed.

(** ** Frames *)

(** The pbuf of a frame with what [ethernet_input] notes in it. *)
Definition marked (b b1 : pbuf_s) : Prop :=
  ∃ f i, b1 = set_flags f (set_if_idx i b) ∧ Z.land f PBUF_FLAG_IS_CUSTOM = Z.land (b_flags b) PBUF_FLAG_IS_CUSTOM.

Lemma link_flags_custom dest : Z.land (link_flags dest) PBUF_FLAG_IS_CUSTOM = 0.
Proof. unfold link_flags. repeat case_match; done. Qed.

Lemma marked_ok nif n p b b1 owners (s : stack) :
  stack_ok nif n s owners → lone (store_of s) p b → marked b b1 → stack_ok nif n (with_p p b1 s) owners ∧ lone (store_of (with_p p b1 s)) p b1.
Proof.
  intros Hok Hlo (f & i & -> & Hf). destruct (lone_inside EP ER EQ EU _ _ _ _ _ _ Hok Hlo) as (_ & _ & _ & _ & Ht). split.
  - apply (stack_ok_insert EP ER EQ EU nif n s owners p b); try done. by apply Hlo.
  - destruct Hlo as [Hb Hn Hl Hr Hs]. split; [apply with_p_at|done..].
Qed.

(** The type of the frame at [a]. *)
Definition eth_type (m : memory) (a : Z) : Z := field m (a + 12) 2.
Definition takes_arp (n : netif) : Prop := Z.land (n_flags n) NETIF_FLAG_ETHARP ≠ 0.

Lemma wp_ethernet_input nif n p b owners (s : stack) (Q : Z → stack → Prop) :
  stack_ok nif n s (p :: owners) → lone (store_of s) p b →
  let ty := eth_type (mem_of s) (b_payload b) in
  (∀ s', stack_ok nif n s' owners →
    b_len b ≤ SIZEOF_ETH_HDR ∨ (ty ≠ PP_HTONS ETHTYPE_IP ∧ ty ≠ PP_HTONS ETHTYPE_ARP) ∨ ¬ takes_arp n → Q ERR_OK s') →
  (∀ b1, marked b b1 → SIZEOF_ETH_HDR < b_len b → ty = PP_HTONS ETHTYPE_IP →
    wp (ip4_input custom_free link_err ip4_frag ip4_reass call_recv p nif) (λ _ s', Q ERR_OK s')
      (with_p p (part b1 SIZEOF_ETH_HDR (b_len b)) (with_p p b1 s))) →
  (∀ b1, marked b b1 → SIZEOF_ETH_HDR < b_len b → ty = PP_HTONS ETHTYPE_ARP →
    wp (on_net (etharp_input custom_free link_err p nif)) (λ _ s', Q ERR_OK s')
      (with_p p (part b1 SIZEOF_ETH_HDR (b_len b)) (with_p p b1 s))) →
  wp (ethernet_input custom_free link_err ip4_frag ip4_reass call_recv p nif) Q s.
Proof.
  intros Hok Hlo ty Hdrop Hip Harp. destruct (lone_inside EP ER EQ EU _ _ _ _ _ _ Hok Hlo) as (Hpn & _ & Hl & _ & _).
  pose proof (stack_nif EP ER EQ EU _ _ _ _ Hok) as Hnif.
  assert (∀ s', stack_ok nif n s' (p :: owners) →
    b_len b ≤ SIZEOF_ETH_HDR ∨ (ty ≠ PP_HTONS ETHTYPE_IP ∧ ty ≠ PP_HTONS ETHTYPE_ARP) ∨ ¬ takes_arp n →
    wp (free_packet custom_free p;; mret ERR_OK) Q s') as Hfree.
  { intros s' Hok' Hc. apply wp_bind, (wp_free_packet custom_free EP ER EQ EU nif n p owners); [done|done|]. intros p' Hok2. by apply wp_ret, Hdrop. }
  unfold ethernet_input. apply wp_bind, (wp_the_pbuf p b); [apply Hlo|].
  destruct (Z.leb_spec (b_len b) SIZEOF_ETH_HDR) as [Hs|Hs]; [apply Hfree; [done|by left]|].
  apply wp_bind, wp_read16. fold (eth_type (mem_of s) (b_payload b)). fold ty. apply wp_bind, (wp_the_netif nif n); [done|].
  set (i := if b_if_idx b =? NETIF_NO_INDEX then netif_get_index n else b_if_idx b).
  apply wp_bind. assert (∀ Q' : unit → stack → Prop, Q' tt (with_p p (set_if_idx i b) s) →
    wp (when_ (b_if_idx b =? NETIF_NO_INDEX) (on_bufs (wr p (set_if_idx (netif_get_index n))))) Q' s) as Hidx.
  { intros Q' HQ'. unfold i in HQ'. destruct (b_if_idx b =? NETIF_NO_INDEX); cbn [when_].
    - by apply (wp_write_pbuf p _ b); [apply Hlo|].
    - apply wp_ret. assert (set_if_idx (b_if_idx b) b = b) as E by by destruct b. rewrite E, with_p_same in HQ'; [done|apply Hlo]. }
  apply Hidx. clear Hidx. apply wp_bind, wp_read. change (mem_of (with_p p (set_if_idx i b) s)) with (mem_of s).
  set (fl := link_flags (mem_read (b_payload b) 6 (mem_of s))). apply wp_bind, (wp_write_pbuf p _ (set_if_idx i b)); [apply with_p_at|]. rewrite with_p_twice.
  set (b1 := set_flags _ _). assert (marked b b1) as Hm.
  { eexists _, i. split; [reflexivity|]. cbn [b_flags set_if_idx]. rewrite Z.land_lor_distr_l. unfold fl. by rewrite link_flags_custom, Z.lor_0_r. }
  destruct (marked_ok nif n p b b1 _ s Hok Hlo Hm) as [Hok1 Hlo1]. set (s1 := with_p p b1 s) in *.
  assert (b_len b1 = b_len b) as El by (destruct Hm as (? & ? & -> & _); done).
  assert (∀ Q' : Z → stack → Prop, Q' 0 (with_p p (part b1 SIZEOF_ETH_HDR (b_len b)) s1) → wp (on_bufs (pbuf_remove_header p SIZEOF_ETH_HDR)) Q' s1) as Hrm.
  { intros Q' HQ'. rewrite <-(with_p_same p b1 s1), <-(part_all b1) by apply Hlo1. apply wp_remove_part; [done|done|lia|].
    rewrite (proj2 (Z.leb_le SIZEOF_ETH_HDR (b_len b1 - 0))) by lia. by rewrite El. }
  destruct (Z.eqb_spec ty (PP_HTONS ETHTYPE_IP)) as [Et|Et].
  { destruct (Z.eqb_spec (Z.land (n_flags n) NETIF_FLAG_ETHARP) 0) as [Ef|Ef]; [apply Hfree; [done|]; right; right; by intros ?|].
    apply wp_bind, Hrm. cbn [Z.eqb negb]. apply wp_bind. eapply wp_mono; [by apply (Hip b1)|]. intros r s' HQ'. by apply wp_ret. }
  destruct (Z.eqb_spec ty (PP_HTONS ETHTYPE_ARP)) as [Ea|Ea]; [|apply Hfree; [done|]; by right; left].
  destruct (Z.eqb_spec (Z.land (n_flags n) NETIF_FLAG_ETHARP) 0) as [Ef|Ef]; [apply Hfree; [done|]; right; right; by intros ?|].
  apply wp_bind, Hrm. cbn [Z.eqb negb]. apply wp_bind. eapply wp_mono; [by apply (Harp b1)|]. intros r s' HQ'. by apply wp_ret.
Qed.
End ip4_in_thm.

(** * All together

    The protocols together: whatever frame comes nothing fails and no packet is
    lost. *)

Section stack_safe.
Context {PP PR H PQ PU X : Type} `{PoolLaws PP, PoolLaws PR, HeapLaws H, PoolLaws PQ, PoolLaws PU}.
Context (custom_free : Z → M (pmem PP PR H) unit) (link_err : list frame → Z).
Context (ip4_frag : Z → Z → Z → M (stack PP PR H PQ PU X) Z) (ip4_reass : Z → M (stack PP PR H PQ PU X) Z).
Context (call_recv : Z → Z → Z → Z → Z → Z → M (stack PP PR H PQ PU X) unit).
Context (EP ER EQ EU : list Z) `{!Layout (PP := PP) (PR := PR) (H := H) EP ER} `{!QueueLayout (PQ := PQ) EQ} `{!UdpLayout (PU := PU) EU}.

Notation stack := (stack PP PR H PQ PU X).
Notation stack_ok := (stack_ok EP ER EQ EU).

(** ** Any frame *)

(** What the functions that users register keep to: they release the packet they
    are given and leave the rest in order. *)
Definition receives (nif : Z) (n : netif) : Prop :=
  ∀ f arg pcb p addr port owners s, f ≠ NULL → p ≠ NULL → stack_ok nif n s (p :: owners) →
  wp (call_recv f arg pcb p addr port) (λ _ s', stack_ok nif n s' owners) s.

(** A frame in a pbuf of the pool, as the driver gives it to [ethernet_input]. *)
Record framed (n : netif) (s : stack) (p : Z) (b : pbuf_s) : Prop := Framed {
  fr_lone : lone (store_of s) p b;
  fr_pool : pbuf_get_allocsrc b = 2;
  fr_mtu : mtu_fits n (b_len b - SIZEOF_ETH_HDR);
  fr_error : mtu_fits n ERROR_LEN
}.

Lemma wp_to_protocol_safe nif n p b k t h hl owners (s : stack) :
  receives nif n → stack_ok nif n s (p :: owners) → lone (store_of s) p b → mtu_fits n ERROR_LEN →
  ip_data s = packet_data nif (mem_of s) h → hl = ip4_hlen (mem_of s) h → IP_HLEN ≤ hl →
  p + SIZEOF_STRUCT_PBUF ≤ b_payload b + (k - (hl + SIZEOF_ETH_HDR)) → k ≤ t ≤ b_len b → t - k + hl + SIZEOF_ETH_HDR < 65536 → mtu_fits n (t - k + hl) →
  wp (to_protocol custom_free link_err ip4_frag call_recv p nif nif h hl) (λ _ s', stack_ok nif n s' owners) (with_p p (part b k t) s).
Proof.
  intros Hrecv Hok Hlo Hmtu Hd Hhl Hmin Hroom Hkt Hlen Hfit. pose proof (IPH_HL_range (field (mem_of s) h 1)) as Hhr. fold (ip4_hlen (mem_of s) h) in Hhr. rewrite <-Hhl in Hhr.
  destruct (lone_inside EP ER EQ EU _ _ _ _ _ _ Hok Hlo) as (Hpn & _ & Hl & Hty & _). change SIZEOF_ETH_HDR with 14 in *. change IP_HLEN with 20 in *.
  assert (stack_ok nif n (with_p p (part b k t) s) (p :: owners)) as Hok0 by (apply part_ok; done || lia).
  assert (∀ s' : stack, stack_ok nif n s' (p :: owners) → wp (free_packet custom_free p) (λ _ s', stack_ok nif n s' owners) s') as Hfree.
  { intros s' Hok'. by apply (wp_free_packet custom_free EP ER EQ EU nif n p owners). }
  unfold to_protocol. apply wp_bind, wp_read8. destruct (_ =? IP_PROTO_UDP).
  { apply (wp_udp_input custom_free link_err ip4_frag call_recv EP ER EQ EU nif n p b k t hl owners); try done; try (by rewrite Hd); try lia.
    intros l u Hw x s2 Hok2. apply Hrecv; [apply Hw|done|done]. }
  destruct (_ =? IP_PROTO_ICMP).
  { assert (IPH_HL_BYTES (field (mem_of s) (current_ip4_header (ip_data s)) 1) = hl) as Ehl by by rewrite Hd, Hhl.
    apply (wp_icmp_input custom_free link_err ip4_frag EP ER EQ EU nif n p b k t owners); rewrite ?Ehl; change PBUF_LINK_HLEN with 14; try done; try lia.
    by rewrite Hd. }
  apply wp_bind, (wp_the_netif nif n); [by eapply (stack_nif EP ER EQ EU)|]. apply wp_bind, wp_gets. apply wp_bind, wp_when; intros _; [|by apply Hfree].
  apply wp_bind. unfold pbuf_header_force, pbuf_header_impl. rewrite (proj2 (Z.ltb_ge hl 0)) by lia.
  apply wp_add_part; [done|lia|lia|lia|done|lia|]. unfold icmp_dest_unreach.
  assert (stack_ok nif n (with_p p (part b (k - hl) t) s) (p :: owners)) as Hok1 by (apply part_ok; done || lia).
  apply (wp_icmp_send_response custom_free link_err ip4_frag EP ER EQ EU nif n p (part b (k - hl) t) _ _ (p :: owners)); [done|by apply part_lone|done|].
  intros s' Hok'. by apply Hfree.
Qed.

(** Whatever bytes a frame has, it is released and all is in order, unless it has a
    fragment, or less than an ARP packet where there should be one. *)
Lemma wp_any_frame nif n p b owners (s : stack) :
  receives nif n → stack_ok nif n s (p :: owners) → framed n s p b →
  let ty := eth_type (mem_of s) (b_payload b) in
  (ty = PP_HTONS ETHTYPE_IP → is_fragment (mem_of s) (b_payload b + SIZEOF_ETH_HDR) = false) →
  (ty = PP_HTONS ETHTYPE_ARP → SIZEOF_ETH_HDR + SIZEOF_ETHARP_HDR ≤ b_len b) →
  wp (ethernet_input custom_free link_err ip4_frag ip4_reass call_recv p nif) (λ r s', r = ERR_OK ∧ stack_ok nif n s' owners) s.
Proof.
  intros Hrecv Hok [Hlo Hpool Hmtu Herr] ty Hip Harp. destruct (lone_inside EP ER EQ EU _ _ _ _ _ _ Hok Hlo) as (Hpn & Hlow & Hl & _ & _).
  assert (∀ b1, marked b b1 → b_payload b1 = b_payload b ∧ b_len b1 = b_len b ∧ pbuf_get_allocsrc b1 = 2) as Hsame by (by intros b1 (f & i & -> & _)).
  apply (wp_ethernet_input custom_free link_err ip4_frag ip4_reass call_recv EP ER EQ EU nif n p b owners); [done|done|done| |].
  - intros b1 Hm Hs Ht. destruct (marked_ok EP ER EQ EU _ _ _ _ _ _ _ Hok Hlo Hm) as [Hok1 Hlo1]. destruct (Hsame b1 Hm) as (Ep & El & Es). rewrite <-El in *.
    change SIZEOF_ETH_HDR with 14 in *.
    apply (wp_ip4_input custom_free link_err ip4_frag ip4_reass call_recv EP ER EQ EU nif n p b1 14 (b_len b1) owners); [done|done|done|lia|lia|lia| |done|].
    { rewrite Ep. by apply Hip. }
    set (m := mem_of (with_p p b1 s)). set (h := b_payload b1 + 14). unfold ip4_accepts, header_valid. intros Ha.
    repeat match goal with H : _ && _ = true |- _ => apply andb_true_iff in H as [H ?] end.
    repeat match goal with H : (_ <=? _) = true |- _ => apply Z.leb_le in H end.
    pose proof (IPH_HL_range (field m h 1)) as Hhr. fold (ip4_hlen m h) in Hhr.
    set (hl := ip4_hlen m h) in *. set (len := ip4_len m h) in *. set (s1 := set_ip_data (packet_data nif m h) (with_p p b1 s)).
    state_is (with_p p (part b1 (14 + hl) (14 + len)) s1).
    eapply wp_mono; [apply (wp_to_protocol_safe nif n p b1 (14 + hl) (14 + len) h hl owners s1); try done|].
    + by apply (stack_ok_data EP ER EQ EU).
    + change SIZEOF_ETH_HDR with 14. lia.
    + lia.
    + change SIZEOF_ETH_HDR with 14. lia.
    + destruct Hmtu as [?|Hmtu]; [by left|right]. lia.
    + intros u s' Hok'. split; [done|]. by apply (stack_ok_data EP ER EQ EU).
  - intros b1 Hm Hs Ht. destruct (marked_ok EP ER EQ EU _ _ _ _ _ _ _ Hok Hlo Hm) as [Hok1 Hlo1]. destruct (Hsame b1 Hm) as (Ep & El & Es).
    specialize (Harp Ht). change SIZEOF_ETH_HDR with 14 in *. change SIZEOF_ETHARP_HDR with 28 in *. rewrite <-El in *.
    assert (stack_ok nif n (with_p p (part b1 14 (b_len b1)) (with_p p b1 s)) (p :: owners)) as Hok2 by (apply part_ok; done || lia).
    pose proof (so_arp _ _ _ _ _ _ _ _ Hok2) as (es & cs & Ha).
    apply wp_on_net, (wp_input custom_free link_err EP ER EQ nif n p (part b1 14 (b_len b1)) owners es cs); [done|apply with_p_at|by apply Hlo1|simpl; change SIZEOF_ETHARP_HDR with 28; lia|].
    intros s' es' cs' fs _ [O _ _] _. split; [done|]. by eapply (stack_ok_net EP ER EQ EU).
Qed.
End stack_safe.
