(* ===== verification/Datagram.v ===== *)
(** A datagram in memory: what [Ip4In] and [UdpIo] read of it, and that it arrives. *)
From stdpp Require Import base tactics numbers list gmap.
From S2P Require Import Prelude Words Pbuf Def Checksum Memp PbufMem PbufThm PbufOps Ip4Addr Net NetThm Etharp EtharpThm EtharpOps EtharpSend EtharpQuery UdpPcb UdpPcbThm UdpPcbSafe Ip4 Icmp UdpIo Ip4In StackThm IcmpThm Ip4InThm.

(** ** Bytes in memory *)

(** The bytes [l] are at [a]. *)
Definition bytes_at (m : memory) (a : Z) (l : list Z) : Prop := mem_read a (length l) m = l.

Lemma bytes_at_app m a l1 l2 : bytes_at m a (l1 ++ l2) ↔ bytes_at m a l1 ∧ bytes_at m (a + Z.of_nat (length l1)) l2.
Proof.
  unfold bytes_at. rewrite length_app, mem_read_app. split; [|by intros [-> ->]].
  intros E. apply app_inj_1 in E; [done|]. by rewrite length_mem_read.
Qed.

Lemma bytes_at_cons m a x l : bytes_at m a (x :: l) ↔ bytes_at m a [x] ∧ bytes_at m (a + 1) l.
Proof. change (x :: l) with ([x] ++ l). by rewrite bytes_at_app. Qed.

Lemma field_at m a l n : bytes_at m a l → n = length l → field m a n = le_value l.
Proof. unfold field, bytes_at. intros Hl ->. by rewrite Hl. Qed.

Lemma bytes_read m a l n : bytes_at m a l → n = Z.of_nat (length l) → mem_read a (Z.to_nat n) m = l.
Proof. unfold bytes_at. intros Hl ->. by rewrite Nat2Z.id. Qed.

(** The parts of a frame. *)
Lemma frame_parts dmac smac type l m a :
  length dmac = 6%nat → length smac = 6%nat → bytes_at m a (eth_header dmac smac type ++ l) → 0 ≤ type < 65536 →
  eth_type m a = lwip_htons type ∧ bytes_at m (a + 14) l ∧ Z.of_nat (length (eth_header dmac smac type ++ l)) = 14 + Z.of_nat (length l).
Proof.
  intros Hd Hs [He Hl]%bytes_at_app Ht. assert (length (eth_header dmac smac type) = 14%nat) as El by (unfold eth_header; rewrite !length_app, Hd, Hs; done).
  rewrite El in Hl. split; [|split; [done|rewrite length_app, El; lia]].
  unfold eth_header in He. rewrite app_assoc in He. apply bytes_at_app in He as [_ He]. rewrite length_app, Hd, Hs in He.
  unfold eth_type. rewrite (field_at _ _ _ _ He) by done. by apply le_value_be16.
Qed.

(** ** The header of IP *)

Record ip_fields_at (m : memory) (h len proto src dest : Z) : Prop := IpFieldsAt {
  if_vhl : field m h 1 = 0x45;
  if_len : ip4_len m h = len;
  if_offset : field m (h + 6) 2 = 0;
  if_proto : ip4_proto m h = proto;
  if_src : ip4_src m h = src;
  if_dest : ip4_dest m h = dest;
  if_sum : inet_chksum h (mem_read h 20 m) = 0
}.

Lemma ip4_hdr_at m h tos len id ttl proto src dest :
  bytes_at m h (ip4_hdr tos len id ttl proto src dest) → byte_ok tos → byte_ok ttl → byte_ok proto →
  0 ≤ len < 65536 → 0 ≤ src < 4294967296 → 0 ≤ dest < 4294967296 → ip_fields_at m h len proto src dest.
Proof.
  intros Hm Ht Hl Hp Hlen Hs Hd. pose proof Hm as Hall. unfold ip4_hdr, ip4_fields in Hm.
  apply bytes_at_app in Hm as [H0 Hm]. apply bytes_at_cons in H0 as [H0 _].
  apply bytes_at_app in Hm as [H2 Hm]. apply bytes_at_app in Hm as [_ Hm]. apply bytes_at_app in Hm as [H6 Hm].
  apply bytes_at_app in Hm as [H8 Hm]. apply bytes_at_cons in H8 as [_ H9]. apply bytes_at_app in Hm as [_ Hm]. apply bytes_at_app in Hm as [H12 H16].
  cbn [length be16 word_bytes addr_bytes] in *. rewrite <-!Z.add_assoc in *. cbn in H2, H6, H9, H12, H16.
  split.
  - by rewrite (field_at _ _ _ _ H0).
  - unfold ip4_len. rewrite (field_at _ _ _ _ H2), le_value_be16, lwip_htons_involutive by done. done.
  - by rewrite (field_at _ _ _ _ H6).
  - unfold ip4_proto. rewrite (field_at _ _ _ _ H9) by done. simpl. lia.
  - unfold ip4_src. by rewrite (field_at _ _ _ _ H12), le_value_addr by done.
  - unfold ip4_dest. by rewrite (field_at _ _ _ _ H16), le_value_addr by done.
  - unfold bytes_at in Hall. change (length _) with 20%nat in Hall. rewrite Hall.
    rewrite inet_chksum_num; [by apply ip4_hdr_sum|by apply ip4_fields_ok|done].
Qed.

(** The interface takes packets from [sip] to its own address. *)
Record reachable (n : netif) (sip : Z) : Prop := Reachable {
  rc_up : netif_is_up n = true;
  rc_arp : takes_arp n;
  rc_own : ip4_addr_isbroadcast_u32 (ip_addr n) n = false;
  rc_any : ip4_addr_isany_val (ip_addr n) = false;
  rc_source : source_bad n sip = false
}.

(** A packet with this header is taken. *)
Lemma accepts_own n m h len proto sip avail :
  ip_fields_at m h len proto sip (ip_addr n) → reachable n sip → 20 ≤ len ≤ avail →
  ip4_hlen m h = 20 ∧ ip4_accepts n m h avail = true ∧ is_fragment m h = false.
Proof.
  intros [Hvhl Hlen Hoff _ Hs Hd Hsum] [Hup _ _ Hany Hsrc] Hr. assert (ip4_hlen m h = 20) as Hhl by (unfold ip4_hlen; by rewrite Hvhl).
  split; [done|]. split; [|unfold is_fragment; by rewrite Hoff]. unfold ip4_accepts, header_valid.
  rewrite Hvhl, Hhl, Hlen. change (Z.to_nat 20) with 20%nat. rewrite Hsum, Hs, Hd, Hsrc. change IP_HLEN with 20.
  rewrite (proj2 (Z.leb_le 20 len)), (proj2 (Z.leb_le len avail)) by lia. unfold addressed. rewrite Hup, Hany, (Z.eqb_refl (ip_addr n)).
  destruct (ip4_addr_ismulticast (ip_addr n)); done.
Qed.

(** ** A datagram *)

(** The packet of a datagram, and the frame it is in. *)
Definition udp_packet (tos id ttl sip dip sport dport : Z) (data : list Z) : list Z :=
  ip4_hdr tos (28 + Z.of_nat (length data)) id ttl IP_PROTO_UDP sip dip ++ udp_hdr sip dip sport dport data ++ data.
Definition udp_frame (dmac smac : list Z) (tos id ttl sip dip sport dport : Z) (data : list Z) : list Z :=
  eth_header dmac smac ETHTYPE_IP ++ udp_packet tos id ttl sip dip sport dport data.

Record udp_numbers (tos ttl sip dip sport dport : Z) (data : list Z) : Prop := UdpNumbers {
  un_tos : byte_ok tos;
  un_ttl : byte_ok ttl;
  un_sip : 0 ≤ sip < 4294967296;
  un_dip : 0 ≤ dip < 4294967296;
  un_sport : 0 ≤ sport < 65536;
  un_dport : 0 ≤ dport < 65536;
  un_data : Forall byte_ok data;
  un_len : 28 + Z.of_nat (length data) < 65536
}.

Lemma length_ip4_hdr tos len id ttl proto src dest : length (ip4_hdr tos len id ttl proto src dest) = 20%nat.
Proof. done. Qed.
Lemma length_udp_hdr sip dip sport dport data : length (udp_hdr sip dip sport dport data) = 8%nat.
Proof. done. Qed.

Lemma udp_hdr_at m g a data sport dport :
  bytes_at m g (udp_hdr (a_src a) (a_dest a) sport dport data ++ data) → 0 ≤ sport < 65536 → 0 ≤ dport < 65536 → Forall byte_ok data →
  0 ≤ a_src a < 4294967296 → 0 ≤ a_dest a < 4294967296 → 28 + Z.of_nat (length data) < 65536 →
  lwip_htons (field m g 2) = sport ∧ lwip_htons (field m (g + 2) 2) = dport ∧ udp_valid m a g (8 + Z.of_nat (length data)) = true.
Proof.
  intros Hm Hsp Hdp Hd Hs Hde Hlen. pose proof Hm as Hall. apply bytes_at_app in Hm as [Hm _]. unfold udp_hdr, udp_fields in Hm.
  apply bytes_at_app in Hm as [H0 Hm]. apply bytes_at_app in Hm as [H2 _]. cbn in H2.
  split_and!; [by rewrite (field_at _ _ _ _ H0), le_value_be16, lwip_htons_involutive|by rewrite (field_at _ _ _ _ H2), le_value_be16, lwip_htons_involutive|].
  unfold udp_valid. change UDP_HLEN with 8. rewrite (proj2 (Z.leb_le _ _)) by lia. cbn [andb]. apply orb_true_iff. right. apply Z.eqb_eq.
  rewrite (bytes_read _ _ _ _ Hall) by (rewrite length_app, length_udp_hdr; lia). unfold ip_chksum_pseudo.
  rewrite inet_chksum_pseudo_num; [|..|done|lia|done|done].
  - unfold IP_PROTO_UDP.
    transitivity (udp_sum (a_src a) (a_dest a) sport dport (8 + Z.of_nat (length data)) (udp_chksum (a_src a) (a_dest a) sport dport (8 + Z.of_nat (length data)) data) data);
      [|by apply udp_sum_right].
    unfold udp_sum, udp_hdr, placed_bytes, Pbuf.bytes. cbn [fmap list_fmap snd payload concat]. by rewrite app_nil_r.
  - constructor; [|done]. cbn [snd p_len payload]. rewrite length_app, length_udp_hdr. split_and!; [lia|lia|]. apply Forall_app. split; [|done]. apply udp_fields_ok.
Qed.

Section datagram.
Context {PP PR H PQ PU X : Type} `{PoolLaws PP, PoolLaws PR, HeapLaws H, PoolLaws PQ, PoolLaws PU}.
Context (custom_free : Z → M (pmem PP PR H) unit) (link_err : list frame → Z).
Context (ip4_frag : Z → Z → Z → M (stack PP PR H PQ PU X) Z) (ip4_reass : Z → M (stack PP PR H PQ PU X) Z).
Context (call_recv : Z → Z → Z → Z → Z → Z → M (stack PP PR H PQ PU X) unit).
Context (EP ER EQ EU : list Z) `{!Layout (PP := PP) (PR := PR) (H := H) EP ER} `{!QueueLayout (PQ := PQ) EQ} `{!UdpLayout (PU := PU) EU}.

Notation stack := (stack PP PR H PQ PU X).
Notation stack_ok := (stack_ok EP ER EQ EU).

(** The block [x] takes what comes from the sender, and has a user. *)
Record listens (n : netif) (s : stack) (l : list Z) (x sip sport dport : Z) : Prop := Listens {
  ls_list : udp_ok EU (st_udp s) l;
  ls_block : x ∈ l;
  ls_takes : takes (Arrival n (netif_get_index n) sip (ip_addr n) false) dport (block_at s x) = true;
  ls_open : remote_match (Arrival n (netif_get_index n) sip (ip_addr n) false) sport (block_at s x) = true ∨
    Z.land (u_flags (block_at s x)) UDP_FLAGS_CONNECTED = 0;
  ls_recv : u_recv (block_at s x) ≠ NULL
}.

Lemma listens_same n (s s' : stack) l x sip sport dport : st_udp s' = st_udp s → listens n s l x sip sport dport → listens n s' l x sip sport dport.
Proof. intros E [Hl Hx Ht Ho Hr]. unfold block_at in *. rewrite <-E in *. by split. Qed.

Lemma listens_block n (s : stack) l l' x sip sport dport :
  listens n s l x sip sport dport → udp_ok EU (st_udp s) l' →
  addressee (Arrival n (netif_get_index n) sip (ip_addr n) false) sport dport (pcbs (st_udp s)) l' = x.
Proof.
  intros [Hl Hx Ht Hopen _] Hl'. rewrite (linked_unique _ _ _ _ (uo_link _ _ _ Hl') (uo_link _ _ _ Hl)).
  rewrite (addressee_bound EU _ _ _ x l (st_udp s)) by done. unfold block_at in *. destruct Hopen as [-> | ->]; [done|]. by rewrite orb_true_r.
Qed.

Lemma wp_datagram nif n p b k t owners l x tos id ttl sip sport dport data (s : stack) (Q : Z → stack → Prop) :
  stack_ok nif n s (p :: owners) → lone (store_of s) p b → pbuf_get_allocsrc b = 2 → mtu_fits n ERROR_LEN →
  p + SIZEOF_STRUCT_PBUF ≤ b_payload b + k → k ≤ t ≤ b_len b → 
  udp_numbers tos ttl sip (ip_addr n) sport dport data → reachable n sip → listens n s l x sip sport dport →
  bytes_at (mem_of s) (b_payload b + k) (udp_packet tos id ttl sip (ip_addr n) sport dport data) → 28 + Z.of_nat (length data) ≤ t - k < 65536 →
  (∀ s2, stack_ok nif n s2 (p :: owners) → data_of (st_net s2) p = data → clients s2 = clients s →
    wp (call_recv (u_recv (block_at s x)) (u_recv_arg (block_at s x)) x p sip sport) (λ _ s', Q ERR_OK (set_ip_data no_packet s')) s2) →
  wp (ip4_input custom_free link_err ip4_frag ip4_reass call_recv p nif) Q (with_p p (part b k t) s).
Proof.
  intros Hok Hlo Hpool Herr Hroom Hkt Hnum Hreach Hlis Hbytes Hlen HQ. destruct (lone_inside EP ER EQ EU _ _ _ _ _ _ Hok Hlo) as (Hpn & _ & Hl & _ & _).
  pose proof Hnum as [Htos Httl Hsip Hdip Hsp Hdp Hdata Hfit]. pose proof (rc_own _ _ Hreach) as Hown.
  set (h := b_payload b + k) in *. set (m := mem_of s) in *. set (dip := ip_addr n) in *. set (len := Z.of_nat (length data)) in *.
  apply bytes_at_app in Hbytes as [Hih Huh]. change (Z.of_nat (length (ip4_hdr _ _ _ _ _ _ _))) with 20 in Huh.
  apply ip4_hdr_at in Hih; [|done|done|done|lia|done|done]. fold len in Hih. destruct (accepts_own n m h _ _ sip (t - k) Hih Hreach) as (Hhl & Hacc & Hnf); [lia|].
  destruct Hih as [_ Hiplen _ Hproto Hs Hd _].
  apply (wp_ip4_input custom_free link_err ip4_frag ip4_reass call_recv EP ER EQ EU nif n p b k t owners); try done; [lia|fold h m; congruence|].
  intros _. fold h m. rewrite Hhl, Hiplen. set (d := packet_data nif m h). set (s1 := set_ip_data d s). state_is (with_p p (part b (k + 20) (k + (28 + len))) s1).
  unfold to_protocol. apply wp_bind, wp_read8. change (mem_of (with_p _ _ _)) with m. fold (ip4_proto m h). rewrite Hproto. cbn [Z.eqb Pos.eqb IP_PROTO_UDP].
  assert (arrival_of n (ip_data s1) = Arrival n (netif_get_index n) sip dip false) as Earr.
  { unfold arrival_of. cbn [s1 set_ip_data ip_data d packet_data current_iphdr_src current_iphdr_dest]. rewrite Hs, Hd. by rewrite Hown. }
  destruct (udp_hdr_at m (h + 20) (Arrival n (netif_get_index n) sip dip false) data sport dport Huh Hsp Hdp Hdata Hsip Hdip Hfit) as (Esp & Edp & Hval). fold len in Hval.
  apply (wp_udp_input custom_free link_err ip4_frag call_recv EP ER EQ EU nif n p b (k + 20) (k + (28 + len)) 20 owners s1).
  - by apply (stack_ok_data EP ER EQ EU).
  - done.
  - done.
  - done.
  - exact Hhl.
  - done.
  - lia.
  - lia.
  - lia.
  - done.
  - rewrite Earr. replace (b_payload b + (k + 20)) with (h + 20) by (unfold h; lia). replace (k + (28 + len) - (k + 20)) with (8 + len) by lia.
    intros s' _ Hun. exfalso. change (mem_of s1) with m in Hun. destruct Hun as [Hun|(l' & Hl' & Hno)]; [change (mem_of s1) with m in Hun; congruence|].
    unfold for_block in Hno. change (mem_of s1) with m in Hno. rewrite Esp, Edp in Hno.
    rewrite (listens_block n s l l' x) in Hno by done. destruct Hno as [->|Hno]; [|by destruct Hlis].
    destruct Hlis as [Hll Hx _ _ _]. by destruct (linked_some _ _ _ _ (uo_link _ _ _ Hll) Hx).
  - rewrite Earr. replace (b_payload b + (k + 20)) with (h + 20) by (unfold h; lia). replace (k + (28 + len) - (k + 20)) with (8 + len) by lia.
    intros l' u [Hl' _ _ _ _ _] x' s2 Hok2. unfold x', for_block. change (mem_of s1) with m. rewrite Esp, Edp.
    rewrite (listens_block n s l l' x) by done. apply HQ; [done| |done].
    unfold data_of, s2. change (store (pm (st_net (set_udp u (with_p p ?b s1))))) with (store_of (with_p p b s1)). rewrite with_p_at.
    apply bytes_at_app in Huh as [_ Hda]. rewrite length_udp_hdr in Hda. cbn [part b_payload b_len set_payload set_lens]. change UDP_HLEN with 8.
    apply bytes_read; [|lia]. by replace (b_payload b + (k + 20 + 8)) with (h + 20 + Z.of_nat 8) by (unfold h; lia).
Qed.

Lemma wp_udp_frame nif n p b owners l x dmac smac tos id ttl sip sport dport data (s : stack) (Q : Z → stack → Prop) :
  stack_ok nif n s (p :: owners) → framed n s p b → udp_numbers tos ttl sip (ip_addr n) sport dport data →
  reachable n sip → listens n s l x sip sport dport → length dmac = 6%nat → length smac = 6%nat →
  let f := udp_frame dmac smac tos id ttl sip (ip_addr n) sport dport data in
  bytes_at (mem_of s) (b_payload b) f → Z.of_nat (length f) ≤ b_len b →
  (∀ s2, stack_ok nif n s2 (p :: owners) → data_of (st_net s2) p = data → clients s2 = clients s →
    wp (call_recv (u_recv (block_at s x)) (u_recv_arg (block_at s x)) x p sip sport) (λ _ s', Q ERR_OK (set_ip_data no_packet s')) s2) →
  wp (ethernet_input custom_free link_err ip4_frag ip4_reass call_recv p nif) Q s.
Proof.
  intros Hok [Hlo Hpool _ Herr] Hnum Hreach Hlis Hdm Hsm f Hf Hlen HQ. destruct (lone_inside EP ER EQ EU _ _ _ _ _ _ Hok Hlo) as (_ & Hlow & Hl & _ & _).
  destruct (frame_parts dmac smac ETHTYPE_IP _ _ _ Hdm Hsm Hf) as (Hty & Hip & Ef); [done|].
  assert (Z.of_nat (length f) = 14 + (28 + Z.of_nat (length data))) as El.
  { unfold f, udp_frame. rewrite Ef. unfold udp_packet. rewrite !length_app, length_ip4_hdr, length_udp_hdr. lia. }
  apply (wp_ethernet_input custom_free link_err ip4_frag ip4_reass call_recv EP ER EQ EU nif n p b owners); [done|done|..]; rewrite Hty.
  - intros s' _ [Hs|[[? _]|Hs]]; [change SIZEOF_ETH_HDR with 14 in Hs; lia|done|by destruct Hreach].
  - intros b1 Hm Hs _. destruct (marked_ok EP ER EQ EU _ _ _ _ _ _ _ Hok Hlo Hm) as [Hok1 Hlo1].
    assert (b_payload b1 = b_payload b ∧ b_len b1 = b_len b ∧ pbuf_get_allocsrc b1 = 2) as (Ep & Eln & Es) by (by destruct Hm as (? & ? & -> & _)).
    change SIZEOF_ETH_HDR with 14. apply (wp_datagram nif n p b1 14 (b_len b) owners l x tos id ttl sip sport dport data); try done; rewrite ?Ep, ?Eln; try lia; try done. by apply (listens_same n s).
  - done.
Qed.

(** C13: A frame with a datagram for the address of the interface, with whatever
    padding behind it, to a block that takes what comes from the sender: the function
    its user registered is called with the data of the datagram and nothing else in
    the packet, with the address and the port of the sender, and the packet is the
    user's; what the function achieves, [ethernet_input] does. *)
Theorem datagram_received nif n p b owners l x dmac smac tos id ttl sip sport dport data s Q :
  stack_ok nif n s (p :: owners) → framed n s p b → udp_numbers tos ttl sip (ip_addr n) sport dport data →
  reachable n sip → listens n s l x sip sport dport → length dmac = 6%nat → length smac = 6%nat →
  let f := udp_frame dmac smac tos id ttl sip (ip_addr n) sport dport data in
  bytes_at (mem_of s) (b_payload b) f → Z.of_nat (length f) ≤ b_len b →
  (∀ s2, stack_ok nif n s2 (p :: owners) → data_of (st_net s2) p = data → clients s2 = clients s →
    wp (call_recv (u_recv (block_at s x)) (u_recv_arg (block_at s x)) x p sip sport) (λ _ s', Q ERR_OK (set_ip_data no_packet s')) s2) →
  wp (ethernet_input custom_free link_err ip4_frag ip4_reass call_recv p nif) Q s.
Proof. by apply wp_udp_frame. Qed.
End datagram.
