(* ===== verification/UdpSend.v ===== *)
(** What [UdpIo] sends: a packet of one pbuf leaves as one frame with the headers of
    UDP, IP and Ethernet, their checksums right. *)
From stdpp Require Import base tactics numbers list gmap.
From S2P Require Import Prelude Words Pbuf Def Checksum Memp PbufMem PbufThm PbufOps Ip4Addr Net NetThm Etharp EtharpThm EtharpOps EtharpSend EtharpQuery UdpPcb UdpPcbThm UdpPcbSafe Ip4 Icmp UdpIo Ip4In StackThm IcmpThm Ip4InThm Datagram.

(** ** The header in memory *)

Lemma udp_written g sport dport len chk m :
  0 ≤ sport < 65536 → 0 ≤ dport < 65536 → 0 ≤ len < 65536 →
  mem_read g 8 (mem_write (g + 6) (le_bytes 2 chk) (mem_write (g + 4) (le_bytes 2 (lwip_htons len)) (mem_write (g + 6) (le_bytes 2 0)
    (mem_write (g + 2) (le_bytes 2 (lwip_htons dport)) (mem_write g (le_bytes 2 (lwip_htons sport)) m))))) = udp_fields sport dport len chk.
Proof. intros Hs Hd Hl. change 8%nat with (2 + (2 + (2 + 2)))%nat. unfold udp_fields. fields_written. Qed.

Lemma udp_cleared g sport dport len m :
  0 ≤ sport < 65536 → 0 ≤ dport < 65536 → 0 ≤ len < 65536 →
  mem_read g 8 (mem_write (g + 4) (le_bytes 2 (lwip_htons len)) (mem_write (g + 6) (le_bytes 2 0)
    (mem_write (g + 2) (le_bytes 2 (lwip_htons dport)) (mem_write g (le_bytes 2 (lwip_htons sport)) m)))) = udp_fields sport dport len 0.
Proof. intros Hs Hd Hl. change 8%nat with (2 + (2 + (2 + 2)))%nat. unfold udp_fields. fields_written. Qed.

Section udp_send.
Context {PP PR H PQ PU X : Type} `{PoolLaws PP, PoolLaws PR, HeapLaws H, PoolLaws PQ, PoolLaws PU}.
Context (custom_free : Z → M (pmem PP PR H) unit) (link_err : list frame → Z).
Context (ip4_frag : Z → Z → Z → M (stack PP PR H PQ PU X) Z).
Context (EP ER EQ EU : list Z) `{!Layout (PP := PP) (PR := PR) (H := H) EP ER} `{!QueueLayout (PQ := PQ) EQ} `{!UdpLayout (PU := PU) EU}.

Notation stack := (stack PP PR H PQ PU X).
Notation stack_ok := (stack_ok EP ER EQ EU).

(** The header in front of [data], which is in memory. *)
Lemma wp_udp_fill x u p b k t src dst dport (s : stack) (Q : unit → stack → Prop) :
  pcbs (st_udp s) !! x = Some u → lone (store_of s) p b → p ≠ NULL → UDP_HLEN ≤ t - k < 65536 →
  let g := b_payload b + k in let data := mem_read (g + 8) (Z.to_nat (t - k - 8)) (mem_of s) in
  (∀ m, off g (g + 8) (mem_of s) m →
    (Z.land (u_flags u) UDP_FLAGS_NOCHKSUM = 0 → 0 ≤ u_local_port u < 65536 → 0 ≤ dport < 65536 → 0 ≤ src < 4294967296 → 0 ≤ dst < 4294967296 →
      Forall byte_ok data → mem_read g 8 m = udp_hdr src dst (u_local_port u) dport data) →
    Q tt (change_bytes m (with_p p (part b k t) s))) →
  wp (udp_fill x p src dst dport) Q (with_p p (part b k t) s).
Proof.
  intros Hu Hlo Hp Hlen g data HQ. change UDP_HLEN with 8 in *. set (len := t - k) in *. set (s0 := with_p p (part b k t) s).
  unfold udp_fill. apply wp_bind, (wp_the_pbuf p (part b k t)); [apply with_p_at|]. cbn [b_payload b_len b_tot_len part set_payload set_lens]. fold g len.
  apply wp_bind, wp_assert; [apply Z.leb_le; change UDP_HLEN with 8; lia|]. apply wp_bind, (wp_the_pcb x u); [done|].
  apply wp_bind, wp_write16, wp_bind, wp_write16, wp_bind, wp_write16, wp_bind, wp_write16.
  set (m1 := mem_write (g + 4) (le_bytes 2 (lwip_htons len)) (mem_write (g + 6) (le_bytes 2 0)
    (mem_write (g + 2) (le_bytes 2 (lwip_htons dport)) (mem_write g (le_bytes 2 (lwip_htons (u_local_port u))) (mem_of s))))).
  state_is (change_bytes m1 s0). assert (off g (g + 8) (mem_of s) m1) as Hoff1.
  { unfold m1. repeat (apply off_write; [|lia|rewrite length_le_bytes; lia]). apply off_refl. }
  apply wp_when; intros Hf; [|apply Z.eqb_neq in Hf; by apply HQ].
  apply Z.eqb_eq in Hf. apply wp_bind, (wp_placed_one p (part b k t)); [done|apply with_p_at|apply Hlo|].
  cbn [b_payload b_len b_tot_len part set_payload set_lens]. fold g len. change (mem_of (change_bytes m1 s0)) with m1.
  apply wp_write16. set (c := ip_chksum_pseudo _ _ _ _ _). set (w := if c =? 0 then 65535 else c).
  apply (HQ (mem_write (g + 6) (le_bytes 2 w) m1)).
  { apply off_write; [done|lia|rewrite length_le_bytes; lia]. }
  intros _ Hsp Hdp Hs Hd Hbytes. unfold m1. rewrite udp_written by (done || lia).
  assert (8 + Z.of_nat (length data) = len) as El by (unfold data; rewrite length_mem_read; lia).
  unfold udp_hdr. rewrite El. f_equal. unfold udp_chksum. assert (c = udp_sum src dst (u_local_port u) dport len 0 data) as Ec; [|unfold w; by rewrite Ec].
  unfold c, ip_chksum_pseudo. assert (mem_read g (Z.to_nat len) m1 = udp_fields (u_local_port u) dport len 0 ++ data) as ->.
  { replace (Z.to_nat len) with (8 + Z.to_nat (len - 8))%nat by lia. rewrite mem_read_app. f_equal.
    - unfold m1. by rewrite udp_cleared by (done || lia).
    - change (Z.of_nat 8) with 8. by rewrite (mem_read_off _ _ _ _ _ _ Hoff1) by lia. }
  rewrite inet_chksum_pseudo_num; [|..|done|lia|done|done].
  - unfold udp_sum, placed_bytes, Pbuf.bytes. cbn [fmap list_fmap snd payload concat]. by rewrite app_nil_r.
  - constructor; [|done]. cbn [snd p_len payload]. rewrite length_app. change (length (udp_fields _ _ _ _)) with 8%nat. split_and!; [lia|lia|].
    apply Forall_app. split; [apply udp_fields_ok|done].
Qed.

(** The block [x], bound to a port, may send to [dst]. *)
Record sender (n : netif) (s : stack) (x dst : Z) (u : udp_pcb) : Prop := Sender {
  sd_block : pcbs (st_udp s) !! x = Some u;
  sd_ptr : x ≠ NULL;
  sd_bound : u_local_port u ≠ 0;
  sd_local : ip4_addr_isany_val (u_local_ip u) || ip4_addr_ismulticast (u_local_ip u) || (u_local_ip u =? ip_addr n) = true;
  sd_netif : u_netif_idx u ≠ NETIF_NO_INDEX ∧ u_netif_idx u = netif_get_index n ∨
    u_netif_idx u = NETIF_NO_INDEX ∧ netif_is_up n = true ∧ netif_is_link_up n = true ∧ ip4_addr_isany_val (ip_addr n) = false ∧ ip4_addr_isloopback dst = false
}.

(** A packet with room for the headers of all layers. *)
Record packed (n : netif) (s : stack) (q : Z) (b : pbuf_s) : Prop := Packed {
  pk_lone : lone (store_of s) q b;
  pk_room : q + SIZEOF_STRUCT_PBUF + (SIZEOF_ETH_HDR + IP_HLEN + UDP_HLEN) ≤ b_payload b;
  pk_len : b_len b + (IP_HLEN + UDP_HLEN) < 65536;
  pk_mtu : mtu_fits n (b_len b + (IP_HLEN + UDP_HLEN))
}.

(** The state when the packet is handed to ARP: [m] is the memory with the headers. *)
Definition with_headers (s : stack) (q : Z) (b : pbuf_s) (m : memory) : stack :=
  set_ip_id (u16 (ip_id s + 1)) (change_bytes m (with_p q (part b (- (IP_HLEN + UDP_HLEN)) (b_len b)) s)).
Definition headers_written (n : netif) (s : stack) (q : Z) (b : pbuf_s) (u : udp_pcb) (dst dport : Z) (m : memory) : Prop :=
  off (b_payload b - 28) (b_payload b) (mem_of s) m ∧
  (Z.land (u_flags u) UDP_FLAGS_NOCHKSUM = 0 →
    udp_numbers (u_tos u) (u_ttl u) (ip_addr n) dst (u_local_port u) dport (data_of (st_net s) q) →
    bytes_at m (b_payload b - 28) (udp_packet (u_tos u) (ip_id s) (u_ttl u) (ip_addr n) dst (u_local_port u) dport (data_of (st_net s) q))).

Lemma wp_sendto_if_src nif n q b x u dst dport owners (s : stack) (Q : Z → stack → Prop) :
  stack_ok nif n s owners → q ∈ owners → packed n s q b → sender n s x dst u →
  (∀ m r n', headers_written n s q b u dst dport m → emits custom_free EP ER EQ EU nif n q dst owners (with_headers s q b m) r n' → Q r (set_net n' (with_headers s q b m))) →
  wp (udp_sendto_if_src custom_free link_err ip4_frag x q (Some dst) dport nif (Some (ip_addr n))) Q s.
Proof.
  intros Hok Hq [Hlo Hroom Hlen Hmtu] [Hu Hx Hbound _ _] HQ. change IP_HLEN with 20 in *. change UDP_HLEN with 8 in *. change SIZEOF_ETH_HDR with 14 in *.
  destruct (lone_inside EP ER EQ EU _ _ _ _ _ _ Hok Hlo) as (Hqn & _ & Hl & Hty & _). pose proof (stack_nif EP ER EQ EU _ _ _ _ Hok) as Hnif.
  unfold udp_sendto_if_src. rewrite (proj2 (Z.eqb_neq x NULL)), (proj2 (Z.eqb_neq q NULL)) by done. cbn [orb]. rewrite (proj2 (Z.eqb_neq nif NULL)) by by destruct Hnif.
  apply wp_bind, (wp_the_pcb x u); [done|]. rewrite (proj2 (Z.eqb_neq (u_local_port u) 0)) by done. apply wp_bind, wp_ret. cbn [Z.eqb negb ERR_OK].
  apply wp_bind, (wp_the_pbuf q b); [apply Hlo|]. rewrite <-(lo_len _ _ _ Hlo). change UDP_HLEN with 8. rewrite u16_id by lia.
  rewrite (proj2 (Z.ltb_ge (b_len b + 8) (b_len b))) by lia. apply wp_bind. unfold udp_header_room. apply wp_bind, (wp_the_pbuf q b); [apply Hlo|].
  change UDP_HLEN with 8. set (L := b_len b) in *.
  assert (∀ Q' : Z → stack → Prop, Q' 0 (with_p q (part b (-8) L) s) → wp (on_bufs (pbuf_add_header q 8)) Q' s) as Hadd.
  { intros Q' HQ'. rewrite <-(with_p_same q b s), <-(part_all b) by apply Hlo. apply wp_add_part; [done|done|lia|lia|done|change SIZEOF_STRUCT_PBUF with 16 in *; lia|done]. }
  apply wp_bind, Hadd. clear Hadd. cbn [Z.eqb negb]. apply wp_ret.
  apply wp_bind, (wp_udp_fill x u q b (-8) L); [done|done|done|change UDP_HLEN with 8; lia|].
  set (g := b_payload b + -8). replace (L - -8 - 8) with L by lia. replace (g + 8) with (b_payload b) by (unfold g; lia). intros m1 Hoff1 Hhdr.
  set (s1 := change_bytes m1 s). state_is (with_p q (part b (-8) L) s1). assert (stack_ok nif n s1 owners) as Hok1 by by apply (stack_ok_bytes EP ER EQ EU).
  assert (data_of (st_net s) q = mem_read (b_payload b) (Z.to_nat L) (mem_of s)) as Edata by apply (data_of_read (st_net s) q b (lo_at _ _ _ Hlo)).
  apply wp_bind, (wp_the_pcb x u); [done|]. apply wp_bind.
  apply (wp_output_new custom_free link_err ip4_frag EP ER EQ EU nif n q b (-8) L _ _ _ _ _ owners s1); [done|done|exact Hlo|change IP_HLEN with 20; change SIZEOF_STRUCT_PBUF with 16 in *; lia|lia|change IP_HLEN with 20; lia| |].
  { change IP_HLEN with 20. by replace (L - -8 + 20) with (L + 28) by lia. }
  change IP_HLEN with 20. change (-8 - 20) with (-28). intros m r n' h s2 Hoff Hm He. change (default IPADDR_ANY (Some (ip_addr n))) with (ip_addr n) in Hm. rewrite Z.eqb_refl. cbn [negb when_]. apply wp_bind, wp_ret, wp_ret.
  apply (HQ m r n'); [|exact He]. unfold headers_written. replace (b_payload b - 28) with h by (unfold h; lia). change (mem_of s1) with m1 in Hoff. replace (h + 20) with g in Hoff by (unfold h, g; lia). split.
  - eapply off_trans; [eapply off_wider; [exact Hoff1|unfold h, g; lia|unfold g; lia]|eapply off_wider; [exact Hoff|lia|unfold g; lia]].
  - rewrite Edata. set (data := mem_read _ _ _) in *. intros Hnc [Htos Httl Hsip Hdip Hsp Hdp Hdata Hfit].
    assert (Z.of_nat (length data) = L) as El by (unfold data; rewrite length_mem_read; lia).
    unfold udp_packet. rewrite El. apply bytes_at_app. rewrite length_ip4_hdr. split.
    + unfold bytes_at. rewrite length_ip4_hdr. replace (28 + L) with (L - -28) by lia. apply Hm. split_and!; (done || lia).
    + replace (h + Z.of_nat 20) with g by (unfold h, g; lia). apply bytes_at_app. rewrite length_udp_hdr. split.
      * unfold bytes_at. rewrite length_udp_hdr, (mem_read_off _ _ _ _ _ _ Hoff) by lia. by apply Hhdr.
      * unfold bytes_at. rewrite (mem_read_off _ _ _ _ _ _ Hoff), (mem_read_off _ _ _ _ _ _ Hoff1) by (unfold g; lia).
        unfold data. rewrite length_mem_read. f_equal. unfold g. lia.
Qed.

Lemma wp_sendto nif n q b x u dst dport owners (s : stack) (Q : Z → stack → Prop) :
  stack_ok nif n s owners → q ∈ owners → packed n s q b → sender n s x dst u →
  (∀ m r n', headers_written n s q b u dst dport m → emits custom_free EP ER EQ EU nif n q dst owners (with_headers s q b m) r n' → Q r (set_net n' (with_headers s q b m))) →
  wp (udp_sendto custom_free link_err ip4_frag x q (Some dst) dport) Q s.
Proof.
  intros Hok Hq Hpk Hsd HQ. pose proof Hsd as [Hu Hx Hbound Hlocal Hnetif]. pose proof (pk_lone _ _ _ _ Hpk) as Hlo.
  destruct (lone_inside EP ER EQ EU _ _ _ _ _ _ Hok Hlo) as (Hqn & _). pose proof (stack_nif EP ER EQ EU _ _ _ _ Hok) as Hnif.
  assert (nif ≠ NULL) as Hnn by by destruct Hnif. assert ((x =? NULL) || (q =? NULL) = false) as Hargs by by rewrite (proj2 (Z.eqb_neq x NULL)), (proj2 (Z.eqb_neq q NULL)).
  unfold udp_sendto. rewrite Hargs. apply wp_bind, (wp_the_pcb x u); [done|]. apply wp_bind.
  assert (∀ Q' : Z → stack → Prop, Q' nif s →
    wp (if negb (u_netif_idx u =? NETIF_NO_INDEX) then netif_get_by_index (u_netif_idx u) else ip4_route dst) Q' s) as Hroute.
  { intros Q' HQ'. pose proof (so_default _ _ _ _ _ _ _ _ Hok) as Hd. destruct (Z.eqb_spec (u_netif_idx u) NETIF_NO_INDEX) as [E|E]; cbn [negb].
    - unfold ip4_route. apply wp_bind, wp_gets. rewrite Hd, (proj2 (Z.eqb_neq nif NULL)) by done. apply wp_bind, (wp_the_netif nif n); [done|].
      destruct Hnetif as [[Ei _]|(_ & -> & -> & -> & ->)]; [done|by apply wp_ret].
    - destruct Hnetif as [[_ Ei]|[Ei _]]; [|done]. unfold netif_get_by_index. rewrite (proj2 (Z.eqb_neq _ _) E). cbn [negb].
      apply wp_bind, wp_gets. rewrite Hd, (proj2 (Z.eqb_neq nif NULL)) by done. apply wp_bind, (wp_the_netif nif n); [done|]. apply wp_ret. by rewrite Ei, Z.eqb_refl. }
  apply Hroute. clear Hroute. rewrite (proj2 (Z.eqb_neq nif NULL)) by done. unfold udp_sendto_if. rewrite Hargs.
  rewrite bool_decide_eq_false_2 by done. rewrite (proj2 (Z.eqb_neq nif NULL)) by done. cbn [orb].
  apply wp_bind, (wp_the_pcb x u); [done|]. apply wp_bind, (wp_the_netif nif n); [done|].
  destruct (ip4_addr_isany_val (u_local_ip u) || ip4_addr_ismulticast (u_local_ip u)); cbn [orb] in Hlocal.
  - by apply (wp_sendto_if_src nif n q b x u dst dport owners).
  - rewrite Hlocal. apply Z.eqb_eq in Hlocal. rewrite Hlocal. cbn [negb]. by apply (wp_sendto_if_src nif n q b x u dst dport owners).
Qed.

(** A packet for a host whose address is known leaves at once. *)
Lemma emits_known nif n q b dst a i e owners (s : stack) r n' :
  emits custom_free EP ER EQ EU nif n q dst owners s r n' → lone (store_of s) q b → can_grow q b SIZEOF_ETH_HDR false = true →
  next_hop n dst = Host a → arp_table (st_net s) !! i = Some e → stable e → e_ipaddr e = a →
  ∃ e' fs, refreshes n e e' fs ∧ wire n' = wire (st_net s) ++ fs ++ [[ip_header n (e_ethaddr e) ++ data_of (st_net s) q]].
Proof.
  intros [_ _ (es & cs & kept & es' & cs' & fs & Hok & Hout & Hw)] Hlo Hg Hhop Ht Hst Ha.
  rewrite (ar_table _ _ _ _ _ _ _ (ao_rep _ _ _ _ _ _ _ _ _ Hok)) in Ht.
  inversion Hout as [mac r' fs' Hgrp|Hnone|a' r' k' e1 c1 fs' Hhost Huni]; subst; [congruence|congruence|]. rewrite Hhop in Hhost. injection Hhost as <-.
  inversion Huni as [j e1 e' r1 fs1 fs2 He1 Hst1 Ha1 Hr Hfs|r1 k1 e1 c1 fs1 Hno _]; subst; [|by destruct (Hno i e)].
  assert (∀ e, stable e → used e) as Hused by (unfold stable, used, ETHARP_STATE_STABLE, ETHARP_STATE_EMPTY; intros ? ?; lia).
  assert (j = i) as -> by (apply (to_distinct _ _ _ (ao_table _ _ _ _ _ _ _ _ _ Hok) j i e1 e); auto). rewrite He1 in Ht. injection Ht as <-.
  exists e', fs1. split; [apply Hr|]. rewrite Hw, Hfs by by eapply lone_solid. do 3 f_equal. unfold sent. pose proof (lo_at _ _ _ Hlo) as Hb. unfold store_of in Hb. by rewrite Hb, Hg.
Qed.

Lemma wp_sent nif n q b x u dst dport a i e owners (s : stack) (Q : Z → stack → Prop) :
  stack_ok nif n s owners → q ∈ owners → packed n s q b → sender n s x dst u →
  Z.land (u_flags u) UDP_FLAGS_NOCHKSUM = 0 → udp_numbers (u_tos u) (u_ttl u) (ip_addr n) dst (u_local_port u) dport (data_of (st_net s) q) →
  next_hop n dst = Host a → arp_table (st_net s) !! i = Some e → stable e → e_ipaddr e = a →
  (∀ r s' e' fs, stack_ok nif n s' owners → refreshes n e e' fs →
    wire (st_net s') = wire (st_net s) ++ fs ++ [[udp_frame (e_ethaddr e) (n_hwaddr n) (u_tos u) (ip_id s) (u_ttl u) (ip_addr n) dst (u_local_port u) dport (data_of (st_net s) q)]] →
    Q r s') →
  wp (udp_sendto custom_free link_err ip4_frag x q (Some dst) dport) Q s.
Proof.
  intros Hok Hq Hpk Hsd Hnc Hnum Hhop Ht Hst Ha HQ. apply (wp_sendto nif n q b x u dst dport owners); [done..|]. intros m r n' [Hoff Hm] He.
  specialize (Hm Hnc Hnum). pose proof Hpk as [Hlo Hroom Hlen _]. destruct (lone_inside EP ER EQ EU _ _ _ _ _ _ Hok Hlo) as (_ & _ & Hl & Hty & _).
  change IP_HLEN with 20 in *. change UDP_HLEN with 8 in *. change SIZEOF_ETH_HDR with 14 in *. set (s1 := with_headers s q b m) in *.
  assert (lone (store_of s1) q (part b (-28) (b_len b))) as Hlo1 by (apply (part_lone s); exact Hlo).
  destruct (emits_known nif n q _ dst a i e owners s1 r n' He Hlo1) as (e' & fs & Hr & Hw); [|done..|].
  { destruct (stack_pkt _ _ _ _ _ _ _ _ Hok) as [k Ho]. destruct (data_len_small _ _ _ _ _ _ Ho (lo_at _ _ _ Hlo) (lo_src _ _ _ Hlo)) as (_ & _ & Hup).
    change SIZEOF_STRUCT_PBUF with 16 in *. unfold can_grow. cbn [part b_tot_len b_type b_payload set_payload set_lens]. change SIZEOF_ETH_HDR with 14.
    change SIZEOF_STRUCT_PBUF with 16. rewrite (proj2 (Z.eqb_neq _ 0) Hty), (proj2 (Z.ltb_lt _ _)), (proj2 (Z.leb_le _ _)) by lia. cbn [negb andb]. apply Z.leb_le. lia. }
  apply (HQ r (set_net n' s1) e' fs); [apply He|done|]. cbn [set_net st_net]. rewrite Hw. do 3 f_equal. unfold udp_frame, ip_header. do 2 f_equal.
  rewrite (data_of_read _ _ _ (lo_at _ _ _ Hlo1)). cbn [part b_payload b_len set_payload set_lens]. replace (b_payload b + -28) with (b_payload b - 28) by lia.
  assert (Z.of_nat (length (data_of (st_net s) q)) = b_len b) as El.
  { rewrite (data_of_read _ _ _ (lo_at _ _ _ Hlo)), length_mem_read. lia. }
  apply bytes_read; [exact Hm|]. unfold udp_packet. rewrite !length_app, length_ip4_hdr, length_udp_hdr. lia.
Qed.

(** C14: A packet of a bound block to a host whose address ARP knows leaves at once, in
    one frame: the headers of Ethernet, IP and UDP in front of its data, with the
    addresses, the ports, the lengths and both checksums right; before it at most
    ARP's request that renews the entry. *)
Theorem datagram_sent nif n q b x u dst dport a i e owners s :
  stack_ok nif n s owners → q ∈ owners → packed n s q b → sender n s x dst u →
  Z.land (u_flags u) UDP_FLAGS_NOCHKSUM = 0 → udp_numbers (u_tos u) (u_ttl u) (ip_addr n) dst (u_local_port u) dport (data_of (st_net s) q) →
  next_hop n dst = Host a → arp_table (st_net s) !! i = Some e → stable e → e_ipaddr e = a →
  wp (udp_sendto custom_free link_err ip4_frag x q (Some dst) dport) (λ _ s', stack_ok nif n s' owners ∧
    ∃ e' fs, refreshes n e e' fs ∧ wire (st_net s') = wire (st_net s) ++ fs ++
      [[udp_frame (e_ethaddr e) (n_hwaddr n) (u_tos u) (ip_id s) (u_ttl u) (ip_addr n) dst (u_local_port u) dport (data_of (st_net s) q)]]) s.
Proof.
  intros. apply (wp_sent nif n q b x u dst dport a i e owners); [done..|]. intros r s' e' fs Hok' Hr Hw. split; [done|]. by exists e', fs.
Qed.

(** C17: To whatever host, known or not, in the network or behind the gateway, or
    to a group: [udp_sendto] returns without an assertion failing, the packet stays
    the caller's, and the packets, ARP and the blocks are in order. *)
Theorem udp_sendto_keeps_order nif n q b x u dst dport owners s :
  stack_ok nif n s owners → q ∈ owners → packed n s q b → sender n s x dst u →
  wp (udp_sendto custom_free link_err ip4_frag x q (Some dst) dport) (λ _ s', stack_ok nif n s' owners) s.
Proof. intros. apply (wp_sendto nif n q b x u dst dport owners); [done..|]. intros m r n' _ He. apply He. Qed.
End udp_send.

(** ** From one host to another *)

Section udp_round.
Context {PP PR H PQ PU X : Type} `{PoolLaws PP, PoolLaws PR, HeapLaws H, PoolLaws PQ, PoolLaws PU}.
Context (custom_free : Z → M (pmem PP PR H) unit) (link_err : list frame → Z).
Context (ip4_frag : Z → Z → Z → M (stack PP PR H PQ PU X) Z) (ip4_reass : Z → M (stack PP PR H PQ PU X) Z).
Context (call_recv : Z → Z → Z → Z → Z → Z → M (stack PP PR H PQ PU X) unit).
Context (EP ER EQ EU : list Z) `{!Layout (PP := PP) (PR := PR) (H := H) EP ER} `{!QueueLayout (PQ := PQ) EQ} `{!UdpLayout (PU := PU) EU}.

Notation stack := (stack PP PR H PQ PU X).
Notation stack_ok := (stack_ok EP ER EQ EU).

(** C15: What one host sends arrives at another: the last frame that [udp_sendto] gives
    the driver, put into a packet of the other host by its driver, makes its
    [ethernet_input] call the function registered for the port with the data that
    was sent, the address of the first host and the port of the block. *)
Theorem datagram_arrives_as_sent nif n q b x u n' dport a i e owners s :
  stack_ok nif n s owners → q ∈ owners → packed n s q b → sender n s x (ip_addr n') u →
  Z.land (u_flags u) UDP_FLAGS_NOCHKSUM = 0 → udp_numbers (u_tos u) (u_ttl u) (ip_addr n) (ip_addr n') (u_local_port u) dport (data_of (st_net s) q) →
  next_hop n (ip_addr n') = Host a → arp_table (st_net s) !! i = Some e → stable e → e_ipaddr e = a →
  wp (udp_sendto custom_free link_err ip4_frag x q (Some (ip_addr n')) dport) (λ _ s1, ∃ w f, wire (st_net s1) = w ++ [[f]] ∧
    ∀ nif' p b' owners' l y (s' : stack) Q,
      stack_ok nif' n' s' (p :: owners') → framed n' s' p b' → bytes_at (mem_of s') (b_payload b') f → Z.of_nat (length f) ≤ b_len b' →
      reachable n' (ip_addr n) → listens EU n' s' l y (ip_addr n) (u_local_port u) dport →
      (∀ s2, stack_ok nif' n' s2 (p :: owners') → data_of (st_net s2) p = data_of (st_net s) q → clients s2 = clients s' →
        wp (call_recv (u_recv (block_at s' y)) (u_recv_arg (block_at s' y)) y p (ip_addr n) (u_local_port u)) (λ _ s3, Q ERR_OK (set_ip_data no_packet s3)) s2) →
      wp (ethernet_input custom_free link_err ip4_frag ip4_reass call_recv p nif') Q s') s.
Proof.
  intros Hok Hq Hpk Hsd Hnc Hnum Hhop Ht Hst Ha. apply (wp_sent custom_free link_err ip4_frag EP ER EQ EU nif n q b x u (ip_addr n') dport a i e owners); [done..|].
  intros r s1 e' fs Hok1 _ Hw. eexists _, _. split; [rewrite Hw, app_assoc; reflexivity|].
  intros nif' p b' owners' l y s' Q Hok' Hfr Hbytes Hlen Hreach Hlis HQ.
  eapply (wp_udp_frame custom_free link_err ip4_frag ip4_reass call_recv EP ER EQ EU nif' n' p b' owners' l y); [done..| | |exact Hbytes|done|done].
    { destruct (so_arp _ _ _ _ _ _ _ _ Hok) as (es & cs & Harp). pose proof (ao_rep _ _ _ _ _ _ _ _ _ Harp) as Hrep. rewrite (ar_table _ _ _ _ _ _ _ Hrep) in Ht.
    destruct (arp_rep_queue _ _ _ _ _ _ _ _ _ Hrep Ht) as [k Hk]. by apply (to_entry _ _ _ (ao_table _ _ _ _ _ _ _ _ _ Harp) _ _ _ _ Ht Hk). }
  pose proof (stack_nif EP ER EQ EU _ _ _ _ Hok) as Hnif. by destruct Hnif.
Qed.
End udp_round.
