(* ===== verification/Ping.v ===== *)
(** An echo request is answered with the data that it brought, and the checksums of
    the answer are right. *)
From stdpp Require Import base tactics numbers list gmap.
From S2P Require Import Prelude Words Pbuf Def Checksum Memp PbufMem PbufThm PbufOps Ip4Addr Net NetThm Etharp EtharpThm EtharpOps EtharpSend EtharpQuery UdpPcb UdpPcbThm UdpPcbSafe Ip4 Icmp UdpIo Ip4In StackThm IcmpThm Ip4InThm Datagram UdpSend.

(** ** The message *)

(** A message of ICMP; [rest] is what follows the checksum. *)
Definition icmp_message (type code chk : Z) (rest : list Z) : list Z := [type; code] ++ word_bytes chk ++ rest.

(** Its checksum is right. *)
Definition message_right (l : list Z) : Prop := complement (le_num l) = 0.

Lemma adjust_range c : 0 ≤ c < 65536 → 0 < adjust_chksum c < 65536.
Proof.
  intros Hc. unfold adjust_chksum. change (PP_HTONS (0xffff - Z.shiftl ICMP_ECHO 8)) with 65527. change (PP_HTONS (Z.shiftl ICMP_ECHO 8)) with 8.
  destruct (Z.ltb_spec 65527 c); unfold u16.
  - rewrite <-(Z.mod_unique_pos (c + 8 + 1) 65536 1 (c + 9 - 65536)) by lia. lia.
  - rewrite Z.mod_small; lia.
Qed.

Lemma adjust_same c : 0 ≤ c < 65536 → (65535 | adjust_chksum c - (c + 8)).
Proof.
  intros Hc. unfold adjust_chksum. change (PP_HTONS (0xffff - Z.shiftl ICMP_ECHO 8)) with 65527. change (PP_HTONS (Z.shiftl ICMP_ECHO 8)) with 8.
  destruct (Z.ltb_spec 65527 c); unfold u16.
  - rewrite <-(Z.mod_unique_pos (c + 8 + 1) 65536 1 (c + 9 - 65536)) by lia. exists (-1). lia.
  - rewrite Z.mod_small by lia. exists 0. lia.
Qed.

(** The checksum stays right when the type changes. *)
Lemma adjust_right code c rest :
  byte_ok code → 0 ≤ c < 65536 → Forall byte_ok rest →
  message_right (icmp_message ICMP_ECHO code c rest) → message_right (icmp_message ICMP_ER code (adjust_chksum c) rest).
Proof.
  intros Hcode Hc Hrest. pose proof (adjust_range c Hc) as Hr. destruct (adjust_same c Hc) as [k Hk]. pose proof (le_num_pos rest Hrest) as Hpos.
  unfold message_right, icmp_message, word_bytes. cbn [app le_num]. unfold byte_ok in *.
  pose proof (word_bytes_value c Hc) as E. pose proof (word_bytes_value (adjust_chksum c) ltac:(lia)) as E'.
  unfold complement, ICMP_ECHO, ICMP_ER. intros HS. etransitivity; [|exact HS]. f_equal. apply ones_same. split_and!; [lia|lia|lia|].
  exists (8 + 65536 * k). lia.
Qed.

(** ** The answer in memory *)

Lemma echo_memory_header m h tos len id ttl chk src dst :
  byte_ok tos → 0 ≤ len < 65536 → 0 ≤ id < 65536 →
  bytes_at m h (ip4_fields tos len id ttl IP_PROTO_ICMP chk src dst) →
  bytes_at (echo_memory m h 20 dst src) h (ip4_hdr tos len id ICMP_TTL IP_PROTO_ICMP dst src).
Proof.
  intros Htos Hlen Hid Hm. unfold ip4_fields in Hm.
  apply bytes_at_app in Hm as [H0 Hm]. apply bytes_at_cons in H0 as [H0 H1].
  apply bytes_at_app in Hm as [H2 Hm]. apply bytes_at_app in Hm as [H4 Hm]. apply bytes_at_app in Hm as [H6 Hm].
  apply bytes_at_app in Hm as [H8 Hm]. apply bytes_at_cons in H8 as [_ H9]. clear Hm.
  rewrite <-!Z.add_assoc in *. cbn in H2, H4, H6, H9. unfold bytes_at in *.
  set (F := λ c, ip4_fields tos len id ICMP_TTL IP_PROTO_ICMP c dst src).
  assert (∀ c, F c = [0x45] ++ [tos] ++ be16 len ++ be16 id ++ [0; 0] ++ [ICMP_TTL] ++ [IP_PROTO_ICMP] ++ word_bytes c ++ addr_bytes dst ++ addr_bytes src) as EF by done.
  set (m1 := mem_write (h + 16) (le_bytes 4 src) (mem_write (h + 12) (le_bytes 4 dst) m)).
  set (m2 := mem_write (h + 20) (le_bytes 1 ICMP_ER) m1).
  set (m3 := mem_write (h + 8) (le_bytes 1 ICMP_TTL) (mem_write (h + 20 + 2) (le_bytes 2 (adjust_chksum (field m2 (h + 20 + 2) 2))) m2)).
  assert (∀ a a' n l, mem_read a n m = l → a' = a → mem_read a' n m = l) as Horig by by intros a ? n l <- ->.
  assert (∀ c M, off (h + 10) (h + 12) m3 M → mem_read h 20 (mem_write (h + 10) (le_bytes 2 c) M) = F c) as Hput.
  { intros c M Hoff. rewrite EF. change 20%nat with (1 + (1 + (2 + (2 + (2 + (1 + (1 + (2 + (4 + 4)))))))))%nat. rewrite !mem_read_app. repeat apply (f_equal2 app).
    all: try (apply mem_read_hit; [lia|done|done]).
    all: rewrite mem_read_write_other by (rewrite length_le_bytes; lia); rewrite (mem_read_off _ _ _ _ _ _ Hoff) by lia; unfold m3, m2, m1.
    all: repeat (rewrite mem_read_write_other by (rewrite length_le_bytes; lia)).
    all: first [apply mem_read_hit; [lia|done|done] | eapply Horig; [first [exact H0|exact H1|exact H2|exact H4|exact H6|exact H9]|lia]]. }
  assert (off (h + 10) (h + 12) m3 (mem_write (h + 10) (le_bytes 2 0) m3)) as Hoff.
  { apply off_write; [apply off_refl|lia|rewrite length_le_bytes; lia]. }
  change (echo_memory m h 20 dst src) with (mem_write (h + 10) (le_bytes 2 (inet_chksum h (mem_read h 20 (mem_write (h + 10) (le_bytes 2 0) m3)))) (mem_write (h + 10) (le_bytes 2 0) m3)).
  change (length (ip4_hdr tos len id ICMP_TTL IP_PROTO_ICMP dst src)) with 20%nat. rewrite Hput by done. unfold ip4_hdr. rewrite Hput by apply off_refl.
  unfold F. f_equal. rewrite inet_chksum_num; [done| |done]. by apply ip4_fields_ok.
Qed.

Lemma echo_memory_message m h code chk rest src dst :
  0 ≤ chk < 65536 → bytes_at m (h + 20) (icmp_message ICMP_ECHO code chk rest) →
  bytes_at (echo_memory m h 20 dst src) (h + 20) (icmp_message ICMP_ER code (adjust_chksum chk) rest).
Proof.
  intros Hchk Hm. unfold icmp_message in *. apply bytes_at_app in Hm as [H0 Hm]. apply bytes_at_cons in H0 as [_ H1]. apply bytes_at_app in Hm as [H2 H4].
  rewrite <-!Z.add_assoc in *. cbn in H2, H4. cbn [length word_bytes] in H4. change (Z.of_nat 2 + Z.of_nat 2) with 4 in H4.
  set (m2 := mem_write (h + 20) (le_bytes 1 ICMP_ER) (mem_write (h + 16) (le_bytes 4 src) (mem_write (h + 12) (le_bytes 4 dst) m))).
  assert (field m2 (h + 20 + 2) 2 = chk) as Ef.
  { unfold m2. rewrite !field_other by (rewrite length_le_bytes; lia). replace (h + 20 + 2) with (h + (20 + 2)) by lia. rewrite (field_at _ _ _ _ H2) by done. by apply le_value_word. }
  unfold echo_memory. fold m2. rewrite Ef. set (z := inet_chksum h _). clearbody z.
  apply bytes_at_app. split; [apply bytes_at_cons; split|apply bytes_at_app; split]; unfold bytes_at in *.
  all: cbn [length word_bytes]; repeat (rewrite mem_read_write_other by (rewrite ?length_le_bytes; cbn [length]; lia)).
  - by apply mem_read_hit.
  - unfold m2. repeat (rewrite mem_read_write_other by (rewrite ?length_le_bytes; cbn [length]; lia)). by replace (h + 20 + 1) with (h + (20 + 1)) by lia.
  - apply mem_read_hit; [cbn [length]; lia|done|done].
  - unfold m2. repeat (rewrite mem_read_write_other by (rewrite ?length_le_bytes; cbn [length]; lia)).
    etransitivity; [|exact H4]. f_equal. cbn [length]. lia.
Qed.

(** ** The packet *)

Definition icmp_packet (tos id ttl sip dip : Z) (msg : list Z) : list Z :=
  ip4_hdr tos (20 + Z.of_nat (length msg)) id ttl IP_PROTO_ICMP sip dip ++ msg.

(** The request [icmp_message ICMP_ECHO code chk rest] from [sip]. *)
Record request (tos id ttl sip code chk : Z) (rest : list Z) : Prop := Request {
  rq_tos : byte_ok tos;
  rq_id : 0 ≤ id < 65536;
  rq_ttl : byte_ok ttl;
  rq_sip : 0 ≤ sip < 4294967296;
  rq_code : byte_ok code;
  rq_chk : 0 ≤ chk < 65536;
  rq_rest : Forall byte_ok rest;
  rq_len : 4 ≤ Z.of_nat (length rest) < 65000;
  rq_right : message_right (icmp_message ICMP_ECHO code chk rest)
}.

Lemma icmp_message_ok type code chk rest : byte_ok type → byte_ok code → Forall byte_ok rest → Forall byte_ok (icmp_message type code chk rest).
Proof. intros. unfold icmp_message. bytes_ok. Qed.

Section ping.
Context {PP PR H PQ PU X : Type} `{PoolLaws PP, PoolLaws PR, HeapLaws H, PoolLaws PQ, PoolLaws PU}.
Context (custom_free : Z → M (pmem PP PR H) unit) (link_err : list frame → Z).
Context (ip4_frag : Z → Z → Z → M (stack PP PR H PQ PU X) Z) (ip4_reass : Z → M (stack PP PR H PQ PU X) Z).
Context (call_recv : Z → Z → Z → Z → Z → Z → M (stack PP PR H PQ PU X) unit).
Context (EP ER EQ EU : list Z) `{!Layout (PP := PP) (PR := PR) (H := H) EP ER} `{!QueueLayout (PQ := PQ) EQ} `{!UdpLayout (PU := PU) EU}.

Notation stack := (stack PP PR H PQ PU X).
Notation stack_ok := (stack_ok EP ER EQ EU).

Lemma echo_valid_request n m g tos id ttl sip code chk rest :
  request tos id ttl sip code chk rest → ip4_addr_ismulticast (ip_addr n) = false → ip4_addr_isbroadcast_u32 (ip_addr n) n = false →
  bytes_at m g (icmp_message ICMP_ECHO code chk rest) → echo_valid n m (ip_addr n) g (4 + Z.of_nat (length rest)) = true.
Proof.
  intros [_ _ _ _ Hcode _ Hrest Hlen Hright] Hmc Hbc Hm. unfold echo_valid. rewrite Hmc, Hbc. change SIZEOF_ICMP_HDR with 8.
  rewrite (proj2 (Z.leb_le _ _)) by lia. cbn [negb andb]. apply Z.eqb_eq.
  rewrite (bytes_read _ _ _ _ Hm) by (unfold icmp_message; rewrite !length_app; simpl; lia). rewrite inet_chksum_pbuf_num.
  - unfold placed_bytes, Pbuf.bytes. cbn [fmap list_fmap snd payload concat]. by rewrite app_nil_r.
  - constructor; [|done]. cbn [snd p_len payload]. split_and!; [unfold icmp_message; rewrite !length_app; simpl; lia|lia|by apply icmp_message_ok].
Qed.

Lemma length_icmp_message type code chk rest : Z.of_nat (length (icmp_message type code chk rest)) = 4 + Z.of_nat (length rest).
Proof. unfold icmp_message. rewrite !length_app. simpl. lia. Qed.

(** What leaves, when the answer is in memory and is given to ARP. *)
Lemma answer_leaves nif n p b owners a i e tos id ttl dip sip code chk rest (s : stack) r n' :
  stack_ok nif n s owners → lone (store_of s) p b → request tos id ttl sip code chk rest → 0 ≤ dip < 4294967296 →
  let h := b_payload b + 14 in let len := 24 + Z.of_nat (length rest) in 14 + len ≤ b_len b →
  bytes_at (mem_of s) h (ip4_hdr tos len id ttl IP_PROTO_ICMP sip dip) → bytes_at (mem_of s) (h + 20) (icmp_message ICMP_ECHO code chk rest) →
  next_hop n sip = Host a → arp_table (st_net s) !! i = Some e → stable e → e_ipaddr e = a →
  let m := echo_memory (mem_of s) h 20 dip sip in
  let s2 := change_bytes m (with_p p (set_if_idx NETIF_NO_INDEX (part b 14 (14 + len))) s) in
  emits custom_free EP ER EQ EU nif n p (field m (h + 16) 4) owners s2 r n' →
  ∃ e' fs, refreshes n e e' fs ∧ wire n' = wire (st_net s) ++ fs ++
    [[ip_header n (e_ethaddr e) ++ icmp_packet tos id ICMP_TTL dip sip (icmp_message ICMP_ER code (adjust_chksum chk) rest)]].
Proof.
  intros Hok Hlo [Htos Hid Httl Hsip Hcode Hchk Hrest Hrl Hright] Hdip h len Hlen Hhdr Hmsg Hhop Harp Hst Ha m s2 He.
  destruct (lone_inside EP ER EQ EU _ _ _ _ _ _ Hok Hlo) as (Hpn & Hlow & Hl & Hty & _). change SIZEOF_STRUCT_PBUF with 16 in *.
  set (b2 := set_if_idx NETIF_NO_INDEX (part b 14 (14 + len))) in *.
  assert (lone (store_of s2) p b2) as Hlo2 by (destruct Hlo; split; [apply with_p_at|done..]).
  assert (bytes_at m h (ip4_hdr tos len id ICMP_TTL IP_PROTO_ICMP dip sip)) as Hh' by (by eapply echo_memory_header; [done|lia|done|exact Hhdr]).
  assert (bytes_at m (h + 20) (icmp_message ICMP_ER code (adjust_chksum chk) rest)) as Hm' by by apply echo_memory_message.
  assert (field m (h + 16) 4 = sip) as Edst.
  { pose proof Hh' as Hx. apply ip4_hdr_at in Hx; [by apply Hx|done|done|done|lia|done|done]. }
  rewrite Edst in He. destruct (emits_known custom_free EP ER EQ EU nif n p b2 sip a i e owners s2 r n' He Hlo2) as (e' & fs & Hr & Hw); [|done..|].
  { unfold can_grow, b2. cbn [set_if_idx part b_tot_len b_type b_payload set_payload set_lens]. change SIZEOF_ETH_HDR with 14. change SIZEOF_STRUCT_PBUF with 16.
    rewrite (proj2 (Z.eqb_neq _ 0) Hty), (proj2 (Z.ltb_lt _ _)), (proj2 (Z.leb_le _ _)) by lia. cbn [negb andb]. apply Z.leb_le. lia. }
  exists e', fs. split; [done|]. rewrite Hw. do 5 f_equal. rewrite (data_of_read _ _ _ (lo_at _ _ _ Hlo2)). unfold b2. cbn [set_if_idx part b_payload b_len set_payload set_lens]. fold h.
  apply bytes_read; [|unfold icmp_packet; rewrite length_app, length_ip4_hdr, Nat2Z.inj_add, length_icmp_message; lia].
  unfold icmp_packet. rewrite length_icmp_message. replace (20 + (4 + Z.of_nat (length rest))) with len by lia.
  apply bytes_at_app. split; [exact Hh'|]. rewrite length_ip4_hdr. exact Hm'.
Qed.

Lemma wp_ping nif n p b t owners a i e tos id ttl sip code chk rest (s : stack) (Q : Z → stack → Prop) :
  stack_ok nif n s (p :: owners) → lone (store_of s) p b → pbuf_get_allocsrc b = 2 → mtu_fits n (t - 14) → 14 ≤ t ≤ b_len b →
  request tos id ttl sip code chk rest → reachable n sip → ip4_addr_ismulticast (ip_addr n) = false → 0 ≤ ip_addr n < 4294967296 →
  bytes_at (mem_of s) (b_payload b + 14) (icmp_packet tos id ttl sip (ip_addr n) (icmp_message ICMP_ECHO code chk rest)) →
  24 + Z.of_nat (length rest) ≤ t - 14 →
  next_hop n sip = Host a → arp_table (st_net s) !! i = Some e → stable e → e_ipaddr e = a →
  (∀ s' e' fs, stack_ok nif n s' owners → refreshes n e e' fs →
    wire (st_net s') = wire (st_net s) ++ fs ++
      [[ip_header n (e_ethaddr e) ++ icmp_packet tos id ICMP_TTL (ip_addr n) sip (icmp_message ICMP_ER code (adjust_chksum chk) rest)]] → Q ERR_OK s') →
  wp (ip4_input custom_free link_err ip4_frag ip4_reass call_recv p nif) Q (with_p p (part b 14 t) s).
Proof.
  intros Hok Hlo Hpool Hmtu Hkt Hrq Hreach Hmc Hdip Hbytes Hlen Hhop Harp Hst Ha HQ.
  destruct (lone_inside EP ER EQ EU _ _ _ _ _ _ Hok Hlo) as (Hpn & Hlow & Hl & Hty & _). change SIZEOF_STRUCT_PBUF with 16 in *.
  pose proof Hrq as [Htos Hid Httl Hsip Hcode Hchk Hrest Hrl Hright]. pose proof (rc_own _ _ Hreach) as Hown.
  set (h := b_payload b + 14) in *. set (m := mem_of s) in *. set (dip := ip_addr n) in *. set (L := Z.of_nat (length rest)) in *.
  unfold icmp_packet in Hbytes. apply bytes_at_app in Hbytes as [Hih Hmsg]. rewrite length_ip4_hdr in Hmsg. change (Z.of_nat 20) with 20 in Hmsg.
  replace (20 + Z.of_nat (length (icmp_message ICMP_ECHO code chk rest))) with (24 + L) in Hih by (unfold icmp_message; rewrite !length_app; simpl; lia).
  pose proof Hih as Hhdr. apply ip4_hdr_at in Hih; [|done|done|done|lia|done|done].
  destruct (accepts_own n m h _ _ sip (t - 14) Hih Hreach) as (Hhl & Hacc & Hnf); [lia|]. destruct Hih as [_ Hiplen _ Hproto Hs Hd _].
  apply (wp_ip4_input custom_free link_err ip4_frag ip4_reass call_recv EP ER EQ EU nif n p b 14 t owners); try done; [change SIZEOF_STRUCT_PBUF with 16; lia|lia|fold h m; congruence|].
  intros _. fold h m. rewrite Hhl, Hiplen. set (d := packet_data nif m h). set (s1 := set_ip_data d s). state_is (with_p p (part b (14 + 20) (14 + (24 + L))) s1).
  unfold to_protocol. apply wp_bind, wp_read8. change (mem_of (with_p _ _ _)) with m. fold (ip4_proto m h). rewrite Hproto. cbn [Z.eqb Pos.eqb IP_PROTO_UDP IP_PROTO_ICMP].
  assert (IPH_HL_BYTES (field (mem_of s1) (current_ip4_header (ip_data s1)) 1) = 20) as Ehl by exact Hhl.
  assert (bytes_at m (h + 20) (icmp_message ICMP_ECHO code chk rest)) as Hmsg' by exact Hmsg.
  apply (wp_icmp_input custom_free link_err ip4_frag EP ER EQ EU nif n p b (14 + 20) (14 + (24 + L)) owners s1); rewrite ?Ehl; change PBUF_LINK_HLEN with 14; change SIZEOF_STRUCT_PBUF with 16;
    [by apply (stack_ok_data EP ER EQ EU)|done|done|lia|lia|lia| | |].
  - destruct Hmtu as [?|?]; [by left|right; lia].
  - intros p' Hf. exfalso. apply not_true_iff_false in Hf. apply Hf. change (current_iphdr_dest (ip_data s1)) with (ip4_dest m h). rewrite Hd.
    change (mem_of s1) with m. replace (b_payload b + (14 + 20)) with (h + 20) by (unfold h; lia). replace (14 + (24 + L) - (14 + 20)) with (4 + L) by lia.
    rewrite (proj2 (Z.leb_le 4 (4 + L))) by lia. apply bytes_at_app in Hmsg' as [Hmt _]. apply bytes_at_cons in Hmt as [Hmt _]. rewrite (field_at _ _ _ _ Hmt) by done.
    by eapply (echo_valid_request n m (h + 20) tos id ttl sip code chk rest).
  - intros r n' p' _ He s'. change (current_iphdr_dest (ip_data s1)) with (ip4_dest m h) in *. change (current_iphdr_src (ip_data s1)) with (ip4_src m h) in *.
    change (mem_of s1) with m in *. rewrite Hs, Hd in *. change (14 + 20 - 20) with 14 in *. intros Hok'. subst s'.
    destruct (answer_leaves nif n p b (p :: owners) a i e tos id ttl dip sip code chk rest s1 r n') as (e' & fs & Hr & Hw); try done; [by apply (stack_ok_data EP ER EQ EU)|lia|].
    by apply (HQ _ e' fs); [apply (stack_ok_data EP ER EQ EU)| |].
Qed.

(** C16: An echo request for the address of the interface, from a host whose address
    ARP knows, is answered at once: the packet that brought it goes back with the
    addresses exchanged and the type of a reply, the code, the identifier, the number
    and all data as they were, and the checksums of both headers right; nothing is
    allocated for it. *)
Theorem ping_is_answered nif n p b owners a i e dmac smac tos id ttl sip code chk rest s :
  stack_ok nif n s (p :: owners) → framed n s p b → request tos id ttl sip code chk rest → reachable n sip →
  ip4_addr_ismulticast (ip_addr n) = false → 0 ≤ ip_addr n < 4294967296 → length dmac = 6%nat → length smac = 6%nat →
  let f := eth_header dmac smac ETHTYPE_IP ++ icmp_packet tos id ttl sip (ip_addr n) (icmp_message ICMP_ECHO code chk rest) in
  bytes_at (mem_of s) (b_payload b) f → Z.of_nat (length f) ≤ b_len b →
  next_hop n sip = Host a → arp_table (st_net s) !! i = Some e → stable e → e_ipaddr e = a →
  let answer := icmp_message ICMP_ER code (adjust_chksum chk) rest in
  message_right answer ∧
  wp (ethernet_input custom_free link_err ip4_frag ip4_reass call_recv p nif) (λ r s', r = ERR_OK ∧ stack_ok nif n s' owners ∧
    ∃ e' fs, refreshes n e e' fs ∧
      wire (st_net s') = wire (st_net s) ++ fs ++ [[eth_header (e_ethaddr e) (n_hwaddr n) ETHTYPE_IP ++ icmp_packet tos id ICMP_TTL (ip_addr n) sip answer]]) s.
Proof.
  intros Hok [Hlo Hpool Hmtu _] Hrq Hreach Hmc Hdip Hdm Hsm f Hf Hlen Hhop Harp Hst Ha answer. split; [by apply adjust_right; apply Hrq|].
  destruct (lone_inside EP ER EQ EU _ _ _ _ _ _ Hok Hlo) as (_ & _ & Hl & _ & _).
  destruct (frame_parts dmac smac ETHTYPE_IP _ _ _ Hdm Hsm Hf) as (Hty & Hip & Ef); [done|]. fold f in Ef.
  assert (Z.of_nat (length f) = 14 + (24 + Z.of_nat (length rest))) as El.
  { rewrite Ef. unfold icmp_packet. rewrite length_app, length_ip4_hdr, Nat2Z.inj_add, length_icmp_message. lia. }
  apply (wp_ethernet_input custom_free link_err ip4_frag ip4_reass call_recv EP ER EQ EU nif n p b owners); [done|done|..]; rewrite Hty.
  - intros s' _ [Hs|[[? _]|Hs]]; [change SIZEOF_ETH_HDR with 14 in Hs; lia|done|by destruct Hreach].
  - intros b1 Hm Hs _. destruct (marked_ok EP ER EQ EU _ _ _ _ _ _ _ Hok Hlo Hm) as [Hok1 Hlo1].
    assert (b_payload b1 = b_payload b ∧ b_len b1 = b_len b ∧ pbuf_get_allocsrc b1 = 2) as (Ep & Eln & Es) by (by destruct Hm as (? & ? & -> & _)).
    change SIZEOF_ETH_HDR with 14 in *. apply (wp_ping nif n p b1 (b_len b) owners a i e tos id ttl sip code chk rest); try done; rewrite ?Ep, ?Eln; try lia; try done.
    intros s' e' fs Hok' Hr Hw. split; [done|]. split; [done|]. by exists e', fs.
  - done.
Qed.
End ping.
