(* ===== verification/Frames.v ===== *)
(** Frames from the driver, in any number: each gets a packet of the pool, if there
    is one, and everything is as it should be after each. *)
From stdpp Require Import base tactics numbers list gmap.
From S2P Require Import Prelude Words Pbuf Def Checksum Memp PbufMem PbufThm PbufOps Ip4Addr Net NetThm Etharp EtharpThm EtharpOps EtharpSend EtharpQuery UdpPcb UdpPcbThm UdpPcbSafe Ip4 Icmp UdpIo Ip4In StackThm IcmpThm Ip4InThm Datagram.

(** ** Frames as lists of bytes *)

(** The number in [n] bytes from [i] on. *)
Definition number_at (l : list Z) (i n : nat) : Z := le_value (take n (drop i l)).

Lemma number_field m a l i n : bytes_at m a l → (i + n ≤ length l)%nat → field m (a + Z.of_nat i) n = number_at l i n.
Proof.
  intros Hl Hi. rewrite <-(take_drop i l) in Hl. apply bytes_at_app in Hl as [_ Hl]. rewrite length_take_le in Hl by lia.
  rewrite <-(take_drop n (drop i l)) in Hl. apply bytes_at_app in Hl as [Hl _]. unfold number_at. apply field_at; [done|].
  rewrite length_take_le; [done|]. rewrite length_drop. lia.
Qed.

(** A frame that Ethernet carries: at least a header, at most 1500 bytes behind it; not
    with a fragment of an IP packet, and if with an ARP packet with a whole one. *)
Record carried (l : list Z) : Prop := Carried {
  ca_min : 34 ≤ Z.of_nat (length l);
  ca_max : Z.of_nat (length l) ≤ 1514;
  ca_ip : number_at l 12 2 = PP_HTONS ETHTYPE_IP → Z.land (number_at l 20 2) (PP_HTONS (Z.lor IP_OFFMASK IP_MF)) = 0;
  ca_arp : number_at l 12 2 = PP_HTONS ETHTYPE_ARP → 42 ≤ Z.of_nat (length l)
}.

Section frames.
Context {PP PR H PQ PU X : Type} `{PoolLaws PP, PoolLaws PR, HeapLaws H, PoolLaws PQ, PoolLaws PU}.
Context (custom_free : Z → M (pmem PP PR H) unit) (link_err : list frame → Z).
Context (ip4_frag : Z → Z → Z → M (stack PP PR H PQ PU X) Z) (ip4_reass : Z → M (stack PP PR H PQ PU X) Z).
Context (call_recv : Z → Z → Z → Z → Z → Z → M (stack PP PR H PQ PU X) unit).
Context (EP ER EQ EU : list Z) `{!Layout (PP := PP) (PR := PR) (H := H) EP ER} `{!QueueLayout (PQ := PQ) EQ} `{!UdpLayout (PU := PU) EU}.

Notation stack := (stack PP PR H PQ PU X).
Notation stack_ok := (stack_ok EP ER EQ EU).

(** ** The driver's packet *)

(** One pbuf, if the data fit into an element of the pool. *)
Lemma wp_alloc_pool_one n (s : pmem PP PR H) (Q : Z → pmem PP PR H → Prop) :
  mem_ok EP ER s → 0 ≤ n ≤ PBUF_POOL_BUFSIZE_ALIGNED →
  (∀ s', store s' = store s → mem_ok EP ER s' → Q NULL s') →
  (∀ q s', q ≠ NULL → store s !! q = None → mem_ok EP ER s' → store s' = <[q := pool_pbuf q n 0]> (store s) → Q q s') →
  wp (pbuf_alloc custom_free PBUF_RAW n PBUF_POOL) Q s.
Proof.
  intros Hs Hn Hno Hyes. change PBUF_POOL_BUFSIZE_ALIGNED with 1536 in *. unfold pbuf_alloc. cbn [alloc_pool_loop layer_offset].
  apply wp_bind, (wp_pool_pbuf EP ER); [done| |].
  - intros s' Es' Hs'. cbn [Z.eqb NULL negb when_]. apply wp_bind, wp_ret, wp_ret. by apply Hno.
  - intros q pp HqE Hqn Hq Hmem. rewrite (proj2 (Z.eqb_neq q NULL)) by done.
    pose proof (layout_aligned EP ER q HqE) as Hal. change (u16 0) with 0. rewrite align_payload by done.
    change (u16 (PBUF_POOL_BUFSIZE_ALIGNED - LWIP_MEM_ALIGN_SIZE 0)) with 1536. rewrite Z.min_l by lia.
    destruct (pool_pbuf_ok EP q n 0 HqE) as [Hin Hlen]; [lia|done|].
    assert (pool_pbuf q n 0 = PbufS NULL (q + SIZEOF_STRUCT_PBUF + LWIP_MEM_ALIGN_SIZE 0) n n (u8 (pbuf_type_value PBUF_POOL)) 0 1 0) as Eb.
    { unfold pool_pbuf. change (PBUF_POOL_BUFSIZE_ALIGNED - LWIP_MEM_ALIGN_SIZE 0) with 1536. by rewrite Z.min_l by lia. }
    apply wp_bind. unfold pbuf_init_alloced_pbuf, mod_store. wp_go. rewrite <-Eb.
    apply wp_assert; [rewrite <-align_payload by done; by rewrite align_aligned|]. apply wp_bind, wp_assert; [done|]. cbn [Z.eqb NULL].
    apply wp_bind, wp_ret. rewrite Z.sub_diag. cbn [Z.ltb Z.compare u16]. change (0 <? u16 0) with false. apply wp_ret.
    apply Hyes; [done|done| |done]. apply Hmem; [|done|].
    + split; [done|]. right. by right.
    + destruct Hin as (_ & Hi1 & Hi2). split_and!; [done|done|lia|lia].
Qed.

Lemma wp_alloc_frame nif n len owners (s : stack) (Q : Z → stack → Prop) :
  stack_ok nif n s owners → 0 ≤ len ≤ PBUF_POOL_BUFSIZE_ALIGNED →
  (∀ p', stack_ok nif n (change_bufs p' s) owners → Q NULL (change_bufs p' s)) →
  (∀ q p', q ≠ NULL → store p' !! q = Some (pool_pbuf q len 0) → stack_ok nif n (change_bufs p' s) (q :: owners) → Q q (change_bufs p' s)) →
  wp (on_bufs (pbuf_alloc custom_free PBUF_RAW len PBUF_POOL)) Q s.
Proof.
  intros Hok Hlen Hno Hyes. pose proof Hok as [(es & cs & Ha) Hu Hd Hi]. apply wp_on_bufs.
  assert (∀ p' owners', pkt_ok EP ER p' (owners' ++ queued cs) → stack_ok nif n (change_bufs p' s) owners') as Hnew.
  { intros p' owners' Ho'. eapply stack_ok_net; [exact Hok|]. destruct Ha as [[Ht Hh Hq _] Hn Htab Hc]. split; [by split|by eapply nif_ok_same; [|done]|done|done]. }
  destruct (ar_pkt _ _ _ _ _ _ _ (ao_rep _ _ _ _ _ _ _ _ _ Ha)) as [Hr Hm Hw].
  apply wp_alloc_pool_one; [done|done| |].
  - intros p' Es Hm'. apply Hno, Hnew. split; [by rewrite Es|done|by rewrite Es].
  - intros q p' Hq Hnone Hm' Es. apply Hyes; [done|by rewrite Es, lookup_insert_eq|]. apply Hnew. split; [|done|]; rewrite Es.
    + by apply refs_ok_new.
    + apply shaped_insert; [done|]. split; [|done]. change PBUF_POOL_BUFSIZE_ALIGNED with 1536 in Hlen. simpl. lia.
Qed.

(** What a turn of the driver's loop comes to: a packet for the frame, its bytes in
    it, and [netif->input]. *)
Definition receive (nif : Z) (l : list Z) : M stack Z :=
  p ← on_bufs (pbuf_alloc custom_free PBUF_RAW (Z.of_nat (length l)) PBUF_POOL);
  if p =? NULL then mret ERR_MEM
  else
    b ← on_net (rd_pbuf p);
    on_net (wr_bytes (b_payload b) l);;
    ethernet_input custom_free link_err ip4_frag ip4_reass call_recv p nif.

Fixpoint receive_all (nif : Z) (ls : list (list Z)) : M stack unit :=
  match ls with [] => mret tt | l :: ls => receive nif l;; receive_all nif ls end.

Lemma wp_receive nif n l owners (s : stack) :
  receives call_recv EP ER EQ EU nif n → mtu_fits n 1500 → carried l → stack_ok nif n s owners →
  wp (receive nif l) (λ _ s', stack_ok nif n s' owners) s.
Proof.
  intros Hrecv Hmtu [Hmin Hmax Hip Harp] Hok. unfold receive. apply wp_bind, (wp_alloc_frame nif n _ owners); [done|change PBUF_POOL_BUFSIZE_ALIGNED with 1536; lia|by intros; apply wp_ret|].
  intros q p' Hq Hb Hok1. rewrite (proj2 (Z.eqb_neq q NULL)) by done. set (b := pool_pbuf q (Z.of_nat (length l)) 0) in *. set (s1 := change_bufs p' s) in *.
  assert (b_len b = Z.of_nat (length l)) as El by (unfold b, pool_pbuf; cbn [b_len]; change (PBUF_POOL_BUFSIZE_ALIGNED - LWIP_MEM_ALIGN_SIZE 0) with 1536; lia).
  apply wp_bind, (wp_the_pbuf q b); [done|]. apply wp_bind, wp_write. set (s2 := change_bytes _ _).
  assert (bytes_at (mem_of s2) (b_payload b) l) as Hl by apply mem_read_write.
  eapply wp_mono; [apply (wp_any_frame custom_free link_err ip4_frag ip4_reass call_recv EP ER EQ EU nif n q b owners s2)|by intros r s' [_ ?]].
  - done.
  - by apply (stack_ok_bytes EP ER EQ EU).
  - split; [by split|done|destruct Hmtu; [by left|right; change SIZEOF_ETH_HDR with 14; lia]|destruct Hmtu; [by left|right; change ERROR_LEN with 56; lia]].
  - unfold eth_type. change (b_payload b + 12) with (b_payload b + Z.of_nat 12). rewrite (number_field _ _ _ 12 2 Hl) by lia. intros Ht. unfold is_fragment.
    change SIZEOF_ETH_HDR with 14. replace (b_payload b + 14 + 6) with (b_payload b + Z.of_nat 20) by lia. rewrite (number_field _ _ _ 20 2 Hl) by lia. by rewrite Hip.
  - unfold eth_type. change (b_payload b + 12) with (b_payload b + Z.of_nat 12). rewrite (number_field _ _ _ 12 2 Hl) by lia. intros Ht. change SIZEOF_ETH_HDR with 14. change SIZEOF_ETHARP_HDR with 28. rewrite El. by apply Harp.
Qed.

(** C12: However many frames come, with whatever bytes in them that Ethernet carries,
    none a fragment and no ARP packet cut short: the stack takes each and returns, no
    assertion of the code fails, and at the end the packets, ARP's table with its
    queues and the UDP blocks are in order and no packet is lost, whatever the users
    of UDP do who release what they get. *)
Theorem any_frames_are_safe nif n fs owners s :
  receives call_recv EP ER EQ EU nif n → mtu_fits n 1500 → Forall carried fs → stack_ok nif n s owners →
  wp (receive_all nif fs) (λ _ s', stack_ok nif n s' owners) s.
Proof.
  intros Hrecv Hmtu Hfs. revert s. induction Hfs as [|l fs Hl _ IH]; intros s Hok; cbn [receive_all]; [by apply wp_ret|].
  apply wp_bind. eapply wp_mono; [by apply (wp_receive nif n l owners)|]. intros r s' Hok'. by apply IH.
Qed.
End frames.
