(* ===== verification/StackDemo.v ===== *)
(** The theorems on packets at concrete inputs, on the states of [EtharpDemo] and
    [UdpPcbSafe]: the clock asks a time server, whose address ARP knows, is answered
    and is pinged. *)
From stdpp Require Import base tactics numbers list gmap.
From S2P Require Import Prelude Words Pbuf Def Checksum Memp Mem PbufMem PbufThm PbufOps PbufDemo Ip4Addr Net NetThm Etharp EtharpThm EtharpOps EtharpSend EtharpQuery EtharpSafe EtharpDemo UdpPcb UdpPcbThm UdpPcbSafe Ip4 Icmp UdpIo Ip4In StackThm IcmpThm Ip4InThm Datagram UdpSend Ping Frames.

(** ** The state *)

(** The user keeps the data, the address and the port of what it got. *)
Notation heard := (list (list Z * Z * Z)).
Notation demo_stack := (stack pool_memp ref_memp mem_heap q_memp u_memp heard).
Notation demo_ok := (stack_ok EP ER EQ EU (X := heard)).

Definition no_frag (p netif dest : Z) : M demo_stack Z := fail AssertFailed.
Definition no_reass (p : Z) : M demo_stack Z := fail AssertFailed.
Definition keep (f arg pcb p addr port : Z) : M demo_stack unit :=
  b ← on_net (rd_pbuf p);
  d ← on_net (rd_bytes (b_payload b) (Z.to_nat (b_len b)));
  modify (λ s, set_clients ((d, addr, port) :: clients s) s);;
  free_packet no_custom p.

Definition known_net : demo_net := (call (CallInput received) answered).2.
Definition ntp_request : list Z := 0x1B :: replicate 47 0.
Definition ready_net : demo_net := with_packet PBUF_TRANSPORT 48 ntp_request known_net.
Definition to_server : Z := match (pbuf_alloc no_custom PBUF_TRANSPORT 48 PBUF_RAM (pm known_net)).1 with inl q => q | _ => 0 end.

Definition here : demo_stack := Stack ready_net udp_7 7 no_packet nif [].

Lemma known_reached : reached known_net [client].
Proof.
  eapply (reach_call _ _ _ _ _ _ answered [received; client] (CallInput received)); [apply answered_reached| |].
  - split; [reflexivity|]. destruct received_ok as (b & Hb & Hs & Hl & _). exists b. exact (conj Hb (conj Hs Hl)).
  - apply call_runs. by vm_compute.
Qed.

Lemma ready_reached : reached ready_net [to_server; client].
Proof. eapply reach_others; [apply known_reached|]. apply packet_others; [by vm_compute|by vm_compute|done|]. apply eth0_ok. by vm_compute. Qed.

Lemma here_ok : demo_ok nif eth0 here [to_server; client].
Proof.
  destruct (reached_ok ready_net _ ready_reached) as [cs Hok]; [by vm_compute|]. split; [by eexists _, cs| |done|done].
  exists [ntp_pcb; dhcp_pcb]. apply (udp_reach_ok EU), udp_7_reached.
Qed.

Lemma keep_receives : receives keep EP ER EQ EU nif eth0.
Proof.
  intros f arg pcb p addr port owners s _ Hp Hok. destruct (stack_owner EP ER EQ EU _ _ _ _ p Hok) as [b Hb]; [by left|done|].
  unfold keep. apply wp_bind, (wp_the_pbuf p b); [done|]. apply wp_bind, wp_read, wp_bind, wp_modify.
  apply (wp_free_packet no_custom EP ER EQ EU nif eth0 p owners); [|done|done]. destruct Hok. by split.
Qed.

(** A frame in a packet of the pool. *)
Definition frame_in (l : list Z) (s : demo_stack) : Z * demo_stack :=
  match on_bufs (pbuf_alloc no_custom PBUF_RAW (Z.of_nat (length l)) PBUF_POOL) s with
  | (inl q, s1) => (q, change_bytes (mem_write (q + 16) l (mem_of s1)) s1)
  | (inr _, s1) => (NULL, s1)
  end.

Lemma frame_in_ok l (s : demo_stack) owners :
  demo_ok nif eth0 s owners → (frame_in l s).1 ≠ NULL → Z.of_nat (length l) ≤ 1514 →
  let q := (frame_in l s).1 in let s' := (frame_in l s).2 in
  demo_ok nif eth0 s' (q :: owners) ∧ framed eth0 s' q (pool_pbuf q (Z.of_nat (length l)) 0) ∧ bytes_at (mem_of s') (q + 16) l.
Proof.
  intros Hok Hq Hl. unfold frame_in in *.
  assert (wp (on_bufs (pbuf_alloc no_custom PBUF_RAW (Z.of_nat (length l)) PBUF_POOL)) (λ r s1, r = NULL ∨
    demo_ok nif eth0 s1 (r :: owners) ∧ store_of s1 !! r = Some (pool_pbuf r (Z.of_nat (length l)) 0)) s) as Hw.
  { apply (wp_alloc_frame no_custom EP ER EQ EU nif eth0 _ owners); [done|change PBUF_POOL_BUFSIZE_ALIGNED with 1536; lia|by left|].
    intros r p' Hr Hb Hok'. by right. }
  unfold wp in Hw. destruct (on_bufs _ s) as [[q|] s1]; [|done]. cbn [fst snd] in *. destruct Hw as [?|[Hok' Hb]]; [done|].
  assert (b_len (pool_pbuf q (Z.of_nat (length l)) 0) = Z.of_nat (length l)) as El.
  { unfold pool_pbuf. cbn [b_len]. change (PBUF_POOL_BUFSIZE_ALIGNED - LWIP_MEM_ALIGN_SIZE 0) with 1536. lia. }
  split; [by apply (stack_ok_bytes EP ER EQ EU)|]. split; [|apply mem_read_write].
  split; [split; [exact Hb|done|exact El|done|done]|done|right; rewrite El; change SIZEOF_ETH_HDR with 14; change (n_mtu eth0) with 1500; lia|by right].
Qed.

Lemma frame_in_rest l (s : demo_stack) :
  st_udp (frame_in l s).2 = st_udp s ∧ clients (frame_in l s).2 = clients s ∧ arp_table (st_net (frame_in l s).2) = arp_table (st_net s).
Proof.
  unfold frame_in, on_bufs, on_net, on_pm, zoom. destruct (pbuf_alloc _ _ _ _ _) as [[q|] p']; done.
Qed.

(** The entry for the server. *)
Lemma here_knows : ∃ e, arp_table (st_net here) !! 0%nat = Some e ∧ stable e ∧ e_ipaddr e = server_ip ∧ e_ethaddr e = server_mac.
Proof. eexists. split; [by vm_compute|]. by vm_compute. Qed.

Lemma server_near : next_hop eth0 server_ip = Host server_ip.
Proof. by vm_compute. Qed.

Lemma eth0_reachable : reachable eth0 server_ip.
Proof. split; by vm_compute. Qed.

(** ** A datagram *)

Definition ntp_data : list Z := 0x24 :: replicate 47 7.
Definition ntp_frame : list Z := udp_frame (n_hwaddr eth0) server_mac 0 99 64 server_ip (ip_addr eth0) 123 ntp_port ntp_data.
Definition in_ntp : demo_stack := (frame_in ntp_frame here).2.
Definition at_ntp : Z := (frame_in ntp_frame here).1.

Lemma here_listens : listens EU eth0 here [ntp_pcb; dhcp_pcb] ntp_pcb server_ip 123 ntp_port.
Proof.
  split; [apply (udp_reach_ok EU), udp_7_reached|by left|by vm_compute|right; by vm_compute|by vm_compute].
Qed.

Lemma ntp_numbers : udp_numbers 0 64 server_ip (ip_addr eth0) 123 ntp_port ntp_data.
Proof. split; [done|done|done|done|done|by vm_compute|repeat constructor; done|done]. Qed.

Lemma in_ntp_ok : demo_ok nif eth0 in_ntp [at_ntp; to_server; client] ∧ framed eth0 in_ntp at_ntp (pool_pbuf at_ntp 90 0) ∧ bytes_at (mem_of in_ntp) (at_ntp + 16) ntp_frame.
Proof. apply (frame_in_ok ntp_frame here [to_server; client]); [apply here_ok|by vm_compute|done]. Qed.

Lemma keep_keeps p b d addr port f arg pcb owners (s : demo_stack) :
  demo_ok nif eth0 s (p :: owners) → store_of s !! p = Some b → p ≠ NULL → data_of (st_net s) p = d → 
  wp (keep f arg pcb p addr port) (λ _ s', clients s' = (d, addr, port) :: clients s) s.
Proof.
  intros Hok Hb Hp Hd. unfold keep. apply wp_bind, (wp_the_pbuf p b); [done|]. apply wp_bind, wp_read, wp_bind, wp_modify.
  rewrite (data_of_read _ _ _ Hb) in Hd. rewrite <-Hd.
  apply (wp_free_packet no_custom EP ER EQ EU nif eth0 p owners); [destruct Hok; by split|done|done].
Qed.

(** The user hears the server's answer. *)
Lemma datagram_received_witness :
  wp (ethernet_input no_custom link_ok no_frag no_reass keep at_ntp nif) (λ r s', r = ERR_OK ∧ clients s' = [(ntp_data, server_ip, 123)]) in_ntp.
Proof.
  destruct in_ntp_ok as (Hok & Hfr & Hbytes). destruct (frame_in_rest ntp_frame here) as (Eu & Ec & _).
  apply (datagram_received no_custom link_ok no_frag no_reass keep EP ER EQ EU nif eth0 at_ntp (pool_pbuf at_ntp 90 0) [to_server; client] [ntp_pcb; dhcp_pcb] ntp_pcb
    (n_hwaddr eth0) server_mac 0 99 64 server_ip 123 ntp_port ntp_data in_ntp _
    Hok Hfr ntp_numbers eth0_reachable (listens_same EU eth0 here in_ntp _ _ _ _ _ Eu here_listens) eq_refl eq_refl Hbytes).
  - done.
  - intros s2 Hok2 Hd Hc. assert (at_ntp ≠ NULL) as Hn by by vm_compute.
    destruct (stack_owner EP ER EQ EU _ _ _ _ at_ntp Hok2) as [b Hb]; [by left|done|].
    eapply wp_mono; [apply (keep_keeps at_ntp b ntp_data server_ip 123 _ _ _ [to_server; client] s2 Hok2 Hb Hn Hd)|]. intros u s' E. split; [done|].
    cbn [set_ip_data clients]. rewrite E, Hc. reflexivity.
Defined.

(** ** A request *)

Lemma here_packet : ∃ b, packed eth0 here to_server b ∧ b_len b = 48 ∧ Forall byte_ok (data_of (st_net here) to_server).
Proof.
  eexists. split; [split; [split; [by vm_compute|by vm_compute|by vm_compute|by vm_compute|by vm_compute]|by vm_compute|by vm_compute|right; by vm_compute]|].
  split; [by vm_compute|]. assert (data_of (st_net here) to_server = ntp_request) as -> by by vm_compute. repeat constructor; done.
Qed.

Lemma here_sender dst : ip4_addr_isloopback dst = false →
  ∃ u, sender eth0 here ntp_pcb dst u ∧ u_tos u = 0 ∧ u_ttl u = UDP_TTL ∧ u_local_port u = ntp_port ∧ Z.land (u_flags u) UDP_FLAGS_NOCHKSUM = 0.
Proof.
  intros Hd. eexists. split; [split; [by vm_compute|done|by vm_compute|by vm_compute|]|by vm_compute].
  right. split_and!; [by vm_compute|by vm_compute|by vm_compute|by vm_compute|exact Hd].
Qed.

Lemma here_numbers u : u_tos u = 0 → u_ttl u = UDP_TTL → u_local_port u = ntp_port → Forall byte_ok (data_of (st_net here) to_server) →
  udp_numbers (u_tos u) (u_ttl u) (ip_addr eth0) server_ip (u_local_port u) 123 (data_of (st_net here) to_server).
Proof.
  intros -> -> -> Hd. split; [done|done|done|done|by vm_compute|done|done|]. assert (length (data_of (st_net here) to_server) = 48%nat) as -> by by vm_compute. done.
Qed.

Lemma datagram_sent_witness : ∃ u e, u_local_port u = ntp_port ∧ e_ethaddr e = server_mac ∧
  wp (udp_sendto no_custom link_ok no_frag ntp_pcb to_server (Some server_ip) 123) (λ _ s', demo_ok nif eth0 s' [to_server; client] ∧
    ∃ e' fs, refreshes eth0 e e' fs ∧ wire (st_net s') = wire (st_net here) ++ fs ++
      [[udp_frame (e_ethaddr e) (n_hwaddr eth0) (u_tos u) (ip_id here) (u_ttl u) (ip_addr eth0) server_ip (u_local_port u) 123 (data_of (st_net here) to_server)]]) here.
Proof.
  destruct here_packet as (b & Hb & _ & Hd). destruct (here_sender server_ip eq_refl) as (u & Hu & Et & El & Ep & Ef). destruct here_knows as (e & He & Hs & Ha & Em).
  exists u, e. split; [exact Ep|]. split; [exact Em|].
  exact (datagram_sent no_custom link_ok no_frag EP ER EQ EU nif eth0 to_server b ntp_pcb u server_ip 123 server_ip 0 e [to_server; client] here
    here_ok (list_elem_of_here _ _) Hb Hu Ef (here_numbers u Et El Ep Hd) server_near He Hs Ha).
Defined.

(** Into another network, behind the gateway, whose address is not known. *)
Lemma udp_sendto_keeps_order_witness : ∃ b u, packed eth0 here to_server b ∧ sender eth0 here ntp_pcb 0x08080808 u ∧ next_hop eth0 0x08080808 = Host (gw eth0) ∧
  wp (udp_sendto no_custom link_ok no_frag ntp_pcb to_server (Some 0x08080808) 123) (λ _ s', demo_ok nif eth0 s' [to_server; client]) here.
Proof.
  destruct here_packet as (b & Hb & _). destruct (here_sender 0x08080808 eq_refl) as (u & Hu & _).
  exists b, u. split; [exact Hb|]. split; [exact Hu|]. split; [by vm_compute|].
  exact (udp_sendto_keeps_order no_custom link_ok no_frag EP ER EQ EU nif eth0 to_server b ntp_pcb u 0x08080808 123 [to_server; client] here
    here_ok (list_elem_of_here _ _) Hb Hu).
Defined.

(** ** From the clock to the server *)

Definition server_if : netif := Netif server_ip 0x00FFFFFF 0x0101A8C0 server_mac ETH_HWADDR_LEN 15 1500 0.

Lemma datagram_arrives_as_sent_witness :
  wp (udp_sendto no_custom link_ok no_frag ntp_pcb to_server (Some (ip_addr server_if)) 123) (λ _ s1, ∃ w f, wire (st_net s1) = w ++ [[f]] ∧
    ∀ nif' p b' owners' l y (s' : demo_stack) Q,
      demo_ok nif' server_if s' (p :: owners') → framed server_if s' p b' → bytes_at (mem_of s') (b_payload b') f → Z.of_nat (length f) ≤ b_len b' →
      reachable server_if (ip_addr eth0) → listens EU server_if s' l y (ip_addr eth0) ntp_port 123 →
      (∀ s2, demo_ok nif' server_if s2 (p :: owners') → data_of (st_net s2) p = data_of (st_net here) to_server → clients s2 = clients s' →
        wp (keep (u_recv (block_at s' y)) (u_recv_arg (block_at s' y)) y p (ip_addr eth0) ntp_port) (λ _ s3, Q ERR_OK (set_ip_data no_packet s3)) s2) →
      wp (ethernet_input no_custom link_ok no_frag no_reass keep p nif') Q s') here.
Proof.
  destruct here_packet as (b & Hb & _ & Hd). destruct (here_sender server_ip eq_refl) as (u & Hu & Et & El & Ep & Ef). destruct here_knows as (e & He & Hs & Ha & Em).
  rewrite <-Ep.
  exact (datagram_arrives_as_sent no_custom link_ok no_frag no_reass keep EP ER EQ EU nif eth0 to_server b ntp_pcb u server_if 123 server_ip 0 e [to_server; client] here
    here_ok (list_elem_of_here _ _) Hb Hu Ef (here_numbers u Et El Ep Hd) server_near He Hs Ha).
Defined.

(** ** A ping *)

Definition ping_rest : list Z := [0; 1; 0; 7] ++ (Z.of_nat <$> seq 97 32).
Definition ping_chk : Z := complement (le_num (icmp_message ICMP_ECHO 0 0 ping_rest)).
Definition ping_frame : list Z :=
  eth_header (n_hwaddr eth0) server_mac ETHTYPE_IP ++ icmp_packet 0 5 64 server_ip (ip_addr eth0) (icmp_message ICMP_ECHO 0 ping_chk ping_rest).
Definition in_ping : demo_stack := (frame_in ping_frame here).2.
Definition at_ping : Z := (frame_in ping_frame here).1.

Lemma ping_request : request 0 5 64 server_ip 0 ping_chk ping_rest.
Proof. split; [done|done|done|done|done|by vm_compute|repeat constructor; done|done|by vm_compute]. Qed.

Lemma in_ping_ok : demo_ok nif eth0 in_ping [at_ping; to_server; client] ∧ framed eth0 in_ping at_ping (pool_pbuf at_ping 74 0) ∧ bytes_at (mem_of in_ping) (at_ping + 16) ping_frame.
Proof. apply (frame_in_ok ping_frame here [to_server; client]); [apply here_ok|by vm_compute|done]. Qed.

Lemma ping_fits : Z.of_nat (length ping_frame) ≤ b_len (pool_pbuf at_ping 74 0).
Proof. by vm_compute. Qed.
Lemma eth0_single : ip4_addr_ismulticast (ip_addr eth0) = false.
Proof. done. Qed.
Lemma eth0_address : 0 ≤ ip_addr eth0 < 4294967296.
Proof. done. Qed.

Lemma ping_is_answered_witness : ∃ e, e_ethaddr e = server_mac ∧
  let answer := icmp_message ICMP_ER 0 (adjust_chksum ping_chk) ping_rest in
  message_right answer ∧
  wp (ethernet_input no_custom link_ok no_frag no_reass keep at_ping nif) (λ r s', r = ERR_OK ∧ demo_ok nif eth0 s' [to_server; client] ∧
    ∃ e' fs, refreshes eth0 e e' fs ∧
      wire (st_net s') = wire (st_net in_ping) ++ fs ++ [[eth_header (e_ethaddr e) (n_hwaddr eth0) ETHTYPE_IP ++ icmp_packet 0 5 ICMP_TTL (ip_addr eth0) server_ip answer]]) in_ping.
Proof.
  destruct in_ping_ok as (Hok & Hfr & Hbytes). destruct (frame_in_rest ping_frame here) as (_ & _ & Et). destruct here_knows as (e & He & Hs & Ha & Em).
  rewrite <-Et in He. exists e. split; [exact Em|].
  exact (ping_is_answered no_custom link_ok no_frag no_reass keep EP ER EQ EU nif eth0 at_ping (pool_pbuf at_ping 74 0) [to_server; client] server_ip 0 e
    (n_hwaddr eth0) server_mac 0 5 64 server_ip 0 ping_chk ping_rest in_ping
    Hok Hfr ping_request eth0_reachable eth0_single eth0_address eq_refl eq_refl Hbytes ping_fits server_near He Hs Ha).
Defined.

(** ** Any frames *)

(** The datagram, the ping, and a frame of nonsense. *)
Definition some_frames : list (list Z) := [ntp_frame; ping_frame; replicate 60 0xff].

Lemma any_frames_are_safe_witness : Forall carried some_frames ∧
  wp (receive_all no_custom link_ok no_frag no_reass keep nif some_frames) (λ _ s', demo_ok nif eth0 s' [to_server; client]) here.
Proof.
  assert (Forall carried some_frames) as Hc.
  { repeat constructor; try (by vm_compute); try (intros _; by vm_compute). }
  split; [exact Hc|]. assert (mtu_fits eth0 1500) as Hm by (right; by vm_compute).
  exact (any_frames_are_safe no_custom link_ok no_frag no_reass keep EP ER EQ EU nif eth0 some_frames [to_server; client] here keep_receives Hm Hc here_ok).
Defined.
