(* ===== verification/Ntp.v ===== *)
(** The NTP client, [network/ntp_client.c]: the time conversion, the receive
    callback and [ntp_get_time], against the interface of the UDP and packet
    buffer functions of lwIP that it calls.

    [lwip_periodic_handle] runs inside the network; what matters here is which
    datagrams it delivers to the callback, which is what [net_poll] returns. *)
From Stdlib Require Import Ascii.
From stdpp Require Import base tactics numbers list strings.
From S2P Require Import Prelude Words Printf Console Pbuf Def Ip4Addr.

(** ** Data *)

(** [time_msg] of [include/time_msg.h]. *)
Record time_msg := TimeMsg { hour : Z; minute : Z; second : Z }.
#[export] Instance time_msg_eq_dec : EqDecision time_msg.
Proof. solve_decision. Defined.

Definition NTP_PORT : Z := 123.
Definition NTP_PACKET_SIZE : Z := 48.
Definition NTP_UNIX_EPOCH_DIFF : Z := 2208988800.
Definition IST_OFFSET_SECONDS : Z := 19800.
Definition NTP_TIMEOUT_CYCLES : nat := Z.to_nat 5000.

(** The static variables. *)
Record ntp_client := NtpClient {
  ntp_response_received : Z;
  ntp_timestamp : Z
}.

(** ** What the client calls *)

Class Udp (W : Type) := {
  udp_new : M W (option Z);
  (** A port of any kind on IP_ADDR_ANY. *)
  udp_bind : Z → Z → M W Z;
  udp_recv : Z → M W unit;
  (** [pbuf_alloc(PBUF_TRANSPORT, len, PBUF_RAM)]. *)
  pbuf_alloc_ram : Z → M W (option chain);
  udp_sendto : Z → chain → Z → Z → M W Z;
  pbuf_free : chain → M W unit;
  udp_remove : Z → M W unit;
  (** [lwip_periodic_handle], and what it hands to the callback. *)
  net_poll : M W (list chain)
}.

(** ** Operations *)

(** From the received timestamp to the time of day. *)
Definition ntp_to_ist (ntp_timestamp : Z) : time_msg :=
  let unix_time := u32 (ntp_timestamp - NTP_UNIX_EPOCH_DIFF) in
  let ist_time := u32 (unix_time + IST_OFFSET_SECONDS) in
  let seconds_of_day := ist_time mod 86400 in
  TimeMsg (u8 (seconds_of_day / 3600)) (u8 ((seconds_of_day mod 3600) / 60))
    (u8 (seconds_of_day mod 60)).

(** The request: LI 0, version 4, mode 3 (client), and zeros. *)
Definition ntp_request : list Z := <[0%nat := 0x23]> (replicate (Z.to_nat NTP_PACKET_SIZE) 0).

Section client.
Context {W : Type} `{Console W} `{Udp W}.
Definition nstate : Type := ntp_client * W.
Definition world {A} (m : M W A) : M nstate A := zoom snd (λ w s, (s.1, w)) m.
Definition client (f : ntp_client → ntp_client) : M nstate unit := modify (λ s, (f s.1, s.2)).

(** [None] is the NULL pbuf. *)
Definition ntp_recv_callback (p : option chain) : M nstate unit :=
  match p with
  | None => mret tt
  | Some c =>
      when_ (NTP_PACKET_SIZE <=? match c with q :: _ => tot_len q | [] => 0 end)
        (let buf := pbuf_copy_partial c NTP_PACKET_SIZE 0 in
         let at_ i := nth i buf 0 in
         client (λ n, NtpClient (ntp_response_received n)
           (be32 (at_ 40%nat) (at_ 41%nat) (at_ 42%nat) (at_ 43%nat)));;
         client (λ n, NtpClient 1 (ntp_timestamp n)));;
      world (pbuf_free c)
  end.

Fixpoint deliver (ps : list chain) : M nstate unit :=
  match ps with
  | [] => mret tt
  | p :: ps => ntp_recv_callback (Some p);; deliver ps
  end.

(** [lwip_periodic_handle], with the callback run on what arrived. *)
Definition periodic : M nstate unit :=
  ps ← world net_poll; deliver ps.

(** [while (!ntp_response_received && timeout > 0)]; the busy-wait between two
    polls has no effect. *)
Fixpoint wait_response (timeout : nat) : M nstate unit :=
  match timeout with
  | O => mret tt
  | S timeout =>
      r ← gets (λ s : nstate, ntp_response_received s.1);
      if r =? 0 then periodic;; wait_response timeout else mret tt
  end.

(** [memcpy(p->payload, ntp_request, NTP_PACKET_SIZE)]. *)
Definition fill_payload (c : chain) (data : list Z) : option chain :=
  match c with
  | q :: r =>
      if (length data <=? length (payload q))%nat
      then Some (Pbuf (list_inserts 0 data (payload q)) (p_len q) (tot_len q) :: r)
      else None
  | [] => None
  end.

(** The result, and [*msg] afterwards. *)
Definition ntp_get_time (msg : time_msg) : M nstate (Z * time_msg) :=
  world (uart_puts ("NTP: Sending time request..." +:+ crlf));;
  client (λ _, NtpClient 0 0);;
  pcb ← world udp_new;
  match pcb with
  | None =>
      world (uart_puts ("NTP: Failed to create UDP PCB" +:+ crlf));;
      mret (-1, msg)
  | Some pcb =>
      world (udp_bind pcb 0);;
      world (udp_recv pcb);;
      p ← world (pbuf_alloc_ram NTP_PACKET_SIZE);
      match p with
      | None =>
          world (uart_puts ("NTP: Failed to allocate pbuf" +:+ crlf));;
          world (udp_remove pcb);;
          mret (-1, msg)
      | Some p =>
          p ← of_option (fill_payload p ntp_request);
          let server_addr := IP4_ADDR 162 159 200 1 in
          txt ← of_option (ip4addr_ntoa server_addr);
          world (uart_printf ("NTP: Sending to %s:%d" +:+ crlf) [PStr txt; PInt NTP_PORT]);;
          err ← world (udp_sendto pcb p server_addr NTP_PORT);
          world (pbuf_free p);;
          if negb (err =? ERR_OK) then
            world (uart_printf ("NTP: Send failed (err=%d)" +:+ crlf) [PInt err]);;
            world (udp_remove pcb);;
            mret (-1, msg)
          else
            world (uart_puts ("NTP: Request sent, waiting for response..." +:+ crlf));;
            wait_response NTP_TIMEOUT_CYCLES;;
            world (udp_remove pcb);;
            r ← gets (λ s : nstate, ntp_response_received s.1);
            if r =? 0 then
              world (uart_puts ("NTP: Response timeout!" +:+ crlf));;
              mret (-1, msg)
            else
              ts ← gets (λ s : nstate, ntp_timestamp s.1);
              world (uart_printf ("NTP: Received timestamp = %u (NTP epoch)" +:+ crlf) [PUint ts]);;
              let t := ntp_to_ist ts in
              world (uart_printf ("NTP: IST time = %02d:%02d:%02d" +:+ crlf)
                [PInt (hour t); PInt (minute t); PInt (second t)]);;
              mret (0, t)
      end
  end.
End client.

(** ** The conversion *)

Definition valid_time (t : time_msg) : Prop :=
  0 ≤ hour t < 24 ∧ 0 ≤ minute t < 60 ∧ 0 ≤ second t < 60.

#[export] Instance valid_time_dec t : Decision (valid_time t).
Proof. unfold valid_time. apply _. Defined.

Definition seconds_of (t : time_msg) : Z := hour t * 3600 + minute t * 60 + second t.

(** The time of day is always a valid one. *)
Lemma ntp_to_ist_valid ts : valid_time (ntp_to_ist ts).
Proof.
  unfold ntp_to_ist, valid_time. simpl.
  set (d := u32 (u32 (ts - NTP_UNIX_EPOCH_DIFF) + IST_OFFSET_SECONDS) mod 86400).
  assert (Hd : 0 ≤ d < 86400) by (apply Z.mod_pos_bound; lia). clearbody d.
  assert (0 ≤ d / 3600 < 24) by (split; [apply Z.div_pos; lia|apply Z.div_lt_upper_bound; lia]).
  pose proof (Z.mod_pos_bound d 3600 ltac:(lia)).
  assert (0 ≤ d mod 3600 / 60 < 60)
    by (split; [apply Z.div_pos; lia|apply Z.div_lt_upper_bound; lia]).
  pose proof (Z.mod_pos_bound d 60 ltac:(lia)). rewrite !u8_id by lia. done.
Qed.

Lemma seconds_of_day d :
  0 ≤ d < 86400 →
  seconds_of (TimeMsg (u8 (d / 3600)) (u8 (d mod 3600 / 60)) (u8 (d mod 60))) = d.
Proof.
  intros Hd. unfold seconds_of. simpl.
  assert (0 ≤ d / 3600 < 24) by (split; [apply Z.div_pos; lia|apply Z.div_lt_upper_bound; lia]).
  pose proof (Z.mod_pos_bound d 3600 ltac:(lia)).
  assert (0 ≤ d mod 3600 / 60 < 60)
    by (split; [apply Z.div_pos; lia|apply Z.div_lt_upper_bound; lia]).
  pose proof (Z.mod_pos_bound d 60 ltac:(lia)). rewrite !u8_id by lia.
  assert (E : d mod 60 = (d mod 3600) mod 60).
  { symmetry. apply Z.mod_mod_divide. by exists 60. }
  rewrite E. pose proof (Z_div_mod_eq_full d 3600).
  pose proof (Z_div_mod_eq_full (d mod 3600) 60). lia.
Qed.

(** What a 32-bit server sends for the Unix time [t]: seconds since 1900,
    which wrap around in 2036. *)
Definition ntp_of_unix (t : Z) : Z := u32 (t + NTP_UNIX_EPOCH_DIFF).

(** C6: the local time computed from a timestamp is the time of day in India,
    before and after the 2036 rollover of NTP's 32-bit seconds. *)
Theorem ntp_to_ist_correct t :
  0 ≤ t → t + IST_OFFSET_SECONDS < 2 ^ 32 →
  seconds_of (ntp_to_ist (ntp_of_unix t)) = (t + IST_OFFSET_SECONDS) mod 86400.
Proof.
  intros H0 H1. unfold ntp_to_ist, ntp_of_unix, IST_OFFSET_SECONDS, NTP_UNIX_EPOCH_DIFF in *.
  rewrite seconds_of_day by (apply Z.mod_pos_bound; lia).
  assert (E : u32 (u32 (t + 2208988800) - 2208988800) = t).
  { unfold u32. rewrite Zminus_mod_idemp_l, Z.add_simpl_r. apply Z.mod_small. lia. }
  rewrite E. by rewrite u32_id by lia.
Qed.

Lemma ntp_to_ist_correct_witness :
  seconds_of (ntp_to_ist (ntp_of_unix 2085978500)) = (2085978500 + IST_OFFSET_SECONDS) mod 86400.
Proof. apply (ntp_to_ist_correct 2085978500); [lia|unfold IST_OFFSET_SECONDS; lia]. Defined.
