(* ===== verification/NtpThm.v ===== *)
(** [ntp_get_time] against a network: what the UDP and packet buffer functions
    promise ([NetLaws]), what a query then does, whichever way it ends, and a
    scripted network to run it on. *)
From Stdlib Require Import Ascii.
From stdpp Require Import base tactics numbers list strings.
From S2P Require Import Prelude Words Printf Console Pbuf Def Ip4Addr Ntp.

(** ** The network, as its caller sees it *)

(** The PCBs the caller has not removed, the number of packet buffers it has
    not freed, the datagrams it sent (bytes, address, port) and the bytes of
    those its callback was handed. *)
Record net_view := NetView {
  v_pcbs : list Z;
  v_pbufs : Z;
  v_sent : list (list Z * Z * Z);
  v_heard : list (list Z)
}.

Class NetLaws (W : Type) `{Console W, Udp W} := {
  w_ok : W → Prop;
  view : W → net_view;
  sees (v : net_view) (w : W) : Prop := w_ok w ∧ view w = v;
  putc_law c v w : sees v w → wp (putc c) (λ _, sees v) w;
  udp_new_law v w : sees v w →
    wp udp_new (λ r, match r with
      | None => sees v
      | Some p => sees (NetView (p :: v_pcbs v) (v_pbufs v) (v_sent v) (v_heard v))
      end) w;
  udp_bind_law p port v w : p ∈ v_pcbs v → sees v w → wp (udp_bind p port) (λ _, sees v) w;
  udp_recv_law p v w : p ∈ v_pcbs v → sees v w → wp (udp_recv p) (λ _, sees v) w;
  (** A PBUF_RAM buffer is one contiguous piece. *)
  pbuf_alloc_law len v w : 0 ≤ len < 65536 → sees v w →
    wp (pbuf_alloc_ram len) (λ r w', match r with
      | None => sees v w'
      | Some c => sees (NetView (v_pcbs v) (v_pbufs v + 1) (v_sent v) (v_heard v)) w' ∧
          chain_ok c ∧ ∃ q, c = [q] ∧ tot_len q = len
      end) w;
  udp_sendto_law p c addr port v w : p ∈ v_pcbs v → chain_ok c → sees v w →
    wp (udp_sendto p c addr port) (λ err,
      sees (NetView (v_pcbs v) (v_pbufs v)
        (if err =? ERR_OK then v_sent v ++ [(bytes c, addr, port)] else v_sent v) (v_heard v))) w;
  pbuf_free_law c v w : 0 < v_pbufs v → sees v w →
    wp (pbuf_free c) (λ _, sees (NetView (v_pcbs v) (v_pbufs v - 1) (v_sent v) (v_heard v))) w;
  udp_remove_law p l b se h w : sees (NetView (p :: l) b se h) w →
    wp (udp_remove p) (λ _, sees (NetView l b se h)) w;
  (** What is handed over belongs to the callback; without a PCB there is
      nothing to hand over. *)
  net_poll_law v w : sees v w →
    wp net_poll (λ ps w', sees (NetView (v_pcbs v) (v_pbufs v + Z.of_nat (length ps))
        (v_sent v) (v_heard v ++ (bytes <$> ps))) w' ∧
      Forall (λ c, c ≠ [] ∧ chain_ok c) ps ∧ (v_pcbs v = [] → ps = [])) w
}.

(** The timestamp in a datagram: bytes 40 to 43, if it is long enough. *)
Definition stamp (b : list Z) : option Z :=
  if bool_decide (NTP_PACKET_SIZE ≤ Z.of_nat (length b))
  then Some (be32 (nth 40 b 0) (nth 41 b 0) (nth 42 b 0) (nth 43 b 0))
  else None.

(** What a query takes as the answer among the datagrams heard. *)
Definition answer (heard : list (list Z)) : option Z := last (omap stamp heard).

Lemma answer_app l1 l2 :
  answer (l1 ++ l2) = match answer l2 with Some ts => Some ts | None => answer l1 end.
Proof. unfold answer. by rewrite omap_app, last_app. Qed.

Section laws.
Context {W : Type} `{NetLaws W}.
Implicit Types (v : net_view) (w : W) (s : ntp_client * W).

(** The client at [n], the network showing [v]. *)
Definition at_ (n : ntp_client) v s : Prop := s.1 = n ∧ sees v s.2.

Lemma world_wp {A} (m : M W A) (P : A → W → Prop) n v s :
  at_ n v s → (∀ w, sees v w → wp m P w) → wp (world m) (λ a s', s'.1 = n ∧ P a s'.2) s.
Proof.
  intros [Hn Hv] Hm. apply wp_zoom. eapply wp_mono; [by apply Hm|]. intros a w' ?. by split.
Qed.

Lemma puts_at str n v s : at_ n v s → wp (world (uart_puts str)) (λ _, at_ n v) s.
Proof.
  intros Hs. apply (world_wp _ (λ _, sees v) n v s Hs). intros w Hw.
  by apply puts_keeps; [intros; apply putc_law|].
Qed.

Lemma printf_at fmt args n v s :
  is_Some (vformat FText fmt args) → at_ n v s →
  wp (world (uart_printf fmt args)) (λ _, at_ n v) s.
Proof.
  intros Hf Hs. apply (world_wp _ (λ _, sees v) n v s Hs). intros w Hw.
  by apply printf_keeps; [intros; apply putc_law| |].
Qed.

(** The state of the client after it has been handed [b]. *)
Definition hear (n : ntp_client) (b : list Z) : ntp_client :=
  match stamp b with Some ts => NtpClient 1 ts | None => n end.

Lemma ntp_recv_callback_spec c n v s :
  c ≠ [] → chain_ok c → 0 < v_pbufs v → at_ n v s →
  wp (ntp_recv_callback (Some c))
    (λ _, at_ (hear n (bytes c)) (NetView (v_pcbs v) (v_pbufs v - 1) (v_sent v) (v_heard v))) s.
Proof.
  intros Hne Hc Hp Hs. destruct c as [|q r]; [done|]. unfold ntp_recv_callback.
  pose proof Hc as (_ & Ht & Hb & _). apply wp_bind.
  apply (wp_mono _ (λ _, at_ (hear n (bytes (q :: r))) v)).
  - unfold hear, stamp. rewrite Ht. apply wp_when.
    + intros ?%Z.leb_le. rewrite bool_decide_true by done. wp_go. destruct s as [n' w].
      destruct Hs as [E Hv]. cbn in E, Hv. subst n'. split; [|done].
      cbn [fst snd ntp_timestamp]. rewrite copy_partial_bytes by (done || unfold NTP_PACKET_SIZE; lia).
      change (drop (Z.to_nat 0) ?l) with l.
      change (Z.to_nat NTP_PACKET_SIZE) with 48%nat.
      assert (Hnth : ∀ i, (i < 48)%nat →
        nth i (take 48 (bytes (q :: r))) 0 = nth i (bytes (q :: r)) 0).
      { intros i Hi. rewrite !nth_lookup. by rewrite lookup_take_lt. }
      by rewrite !Hnth by lia.
    + intros Hlt%Z.leb_gt. by rewrite bool_decide_false by lia.
  - intros [] s' Hs'. apply (world_wp _ (λ _, sees (NetView (v_pcbs v) (v_pbufs v - 1) _ _)) _ _ _ Hs').
    intros. by apply pbuf_free_law.
Qed.

Lemma deliver_spec ps n v s :
  Forall (λ c, c ≠ [] ∧ chain_ok c) ps → Z.of_nat (length ps) ≤ v_pbufs v → at_ n v s →
  wp (deliver ps) (λ _, at_ (foldl hear n (bytes <$> ps))
    (NetView (v_pcbs v) (v_pbufs v - Z.of_nat (length ps)) (v_sent v) (v_heard v))) s.
Proof.
  intros Hps. revert n v s. induction Hps as [|c ps [Hne Hc] _ IH]; intros n v s Hl Hs.
  - apply wp_ret. rewrite Z.sub_0_r. by destruct v.
  - cbn [deliver length] in *. apply wp_bind.
    eapply wp_mono; [apply (ntp_recv_callback_spec c n v); [done|done|lia|done]|].
    intros [] s' Hs'. eapply wp_mono; [eapply IH, Hs'; simpl; lia|].
    intros [] s''. simpl. replace (v_pbufs v - 1 - Z.of_nat (length ps))
      with (v_pbufs v - Z.of_nat (S (length ps))) by lia. done.
Qed.

Lemma hear_answer n heard :
  foldl hear n heard = match answer heard with Some ts => NtpClient 1 ts | None => n end.
Proof.
  induction heard as [|b heard IH] using rev_ind; [done|].
  rewrite foldl_snoc, IH, answer_app. unfold answer at 2, hear. simpl.
  by destruct (stamp b).
Qed.

(** After hearing [heard] on top of [v]. *)
Definition heard_on v (heard : list (list Z)) : net_view :=
  NetView (v_pcbs v) (v_pbufs v) (v_sent v) (v_heard v ++ heard).

Lemma periodic_spec n v s :
  0 ≤ v_pbufs v → at_ n v s →
  wp periodic (λ _ s', ∃ heard, at_ (foldl hear n heard) (heard_on v heard) s' ∧
    (v_pcbs v = [] → heard = [])) s.
Proof.
  intros Hp Hs. unfold periodic. apply wp_bind.
  eapply wp_mono; [eapply (world_wp _ _ _ _ _ Hs); intros; by apply net_poll_law|].
  intros ps s' (Hn & Hv & Hps & He). cbn beta.
  eapply wp_mono; [eapply (deliver_spec ps n (NetView (v_pcbs v) (v_pbufs v + Z.of_nat (length ps))
    (v_sent v) (v_heard v ++ (bytes <$> ps)))); [done|cbn [v_pbufs]; unfold chain; lia|by split]|].
  intros [] s'' Hs''. exists (bytes <$> ps). split; [|by intros ->%He].
  unfold heard_on. simpl in Hs''.
  unfold chain in Hs''. by rewrite Z.add_simpl_r in Hs''.
Qed.

(** Waiting ends with an answer, or after all the polls without one. *)
Lemma wait_response_spec polls ts0 v s :
  0 ≤ v_pbufs v → at_ (NtpClient 0 ts0) v s →
  wp (wait_response polls) (λ _ s', ∃ heard,
    at_ (foldl hear (NtpClient 0 ts0) heard) (heard_on v heard) s') s.
Proof.
  revert v s. induction polls as [|polls IH]; intros v s Hp Hs.
  { apply wp_ret. exists []. unfold heard_on. rewrite app_nil_r. by destruct v. }
  cbn [wait_response]. apply wp_bind, wp_gets. rewrite (proj1 Hs). simpl.
  apply wp_bind. eapply wp_mono; [by eapply periodic_spec|]. cbn beta.
  intros [] s' (heard & Hs' & _). rewrite hear_answer in Hs'.
  destruct (answer heard) as [ts|] eqn:Ea.
  - (* the answer is there: the loop ends at its next test *)
    apply (wp_mono _ (λ _ s'', s'' = s')).
    + destruct polls as [|polls]; [by apply wp_ret|]. cbn [wait_response].
      apply wp_bind, wp_gets. rewrite (proj1 Hs'). by apply wp_ret.
    + intros [] s'' ->. exists heard. by rewrite hear_answer, Ea.
  - eapply wp_mono; [by apply (IH (heard_on v heard))|]. cbn beta. intros [] s'' (heard' & Hs'').
    exists (heard ++ heard'). rewrite foldl_app, (hear_answer _ heard), Ea.
    unfold heard_on in *. simpl in Hs''. by rewrite app_assoc.
Qed.
End laws.

(** ** A query *)

Section query.
Context {W : Type} `{NetLaws W}.

Definition NTP_SERVER : Z := IP4_ADDR 162 159 200 1.

(** One step of the proof: the client keeps its state, the network goes on to
    show a new view. *)
Lemma at_bind {A B} (m : M W A) (k : A → M (ntp_client * W) B) (P : A → W → Prop) Q n v s :
  at_ n v s → (∀ w, sees v w → wp m P w) →
  (∀ a s', s'.1 = n → P a s'.2 → wp (k a) Q s') → wp (world m ≫= k) Q s.
Proof.
  intros Hs Hm Hk. apply wp_bind. eapply wp_mono; [eapply world_wp; eauto|].
  intros a s' [? ?]. auto.
Qed.

Lemma at_puts {B} str (k : M (ntp_client * W) B) Q n v s :
  at_ n v s → (∀ s', at_ n v s' → wp k Q s') → wp (world (uart_puts str);; k) Q s.
Proof.
  intros Hs Hk. apply wp_bind. eapply wp_mono; [by apply puts_at|]. intros ? s'. apply Hk.
Qed.

Lemma at_printf {B} fmt args (k : M (ntp_client * W) B) Q n v s :
  is_Some (vformat FText fmt args) → at_ n v s → (∀ s', at_ n v s' → wp k Q s') →
  wp (world (uart_printf fmt args);; k) Q s.
Proof.
  intros Hf Hs Hk. apply wp_bind. eapply wp_mono; [by apply printf_at|]. intros ? s'. apply Hk.
Qed.

(** What a query leaves behind: no PCB and no packet buffer more than before,
    at most one request sent, and the answer, if there was one. *)
Definition queried (msg : time_msg) (v : net_view) (r : Z * time_msg) (w : W) : Prop :=
  ∃ sent heard,
    sees (NetView (v_pcbs v) (v_pbufs v) (v_sent v ++ sent) (v_heard v ++ heard)) w ∧
    ((r = (-1, msg) ∧ (sent = [] ∨ sent = [(ntp_request, NTP_SERVER, NTP_PORT)]) ∧
        answer heard = None) ∨
     (r.1 = 0 ∧ sent = [(ntp_request, NTP_SERVER, NTP_PORT)] ∧
        ∃ ts, answer heard = Some ts ∧ r.2 = ntp_to_ist ts)).

Lemma queried_nothing msg v w : sees v w → queried msg v (-1, msg) w.
Proof.
  intros Hw. exists [], []. rewrite !app_nil_r. destruct v. split; [done|]. left. auto.
Qed.

Lemma fill_payload_request c :
  chain_ok c → (∃ q, c = [q] ∧ tot_len q = NTP_PACKET_SIZE) →
  ∃ c', fill_payload c ntp_request = Some c' ∧ chain_ok c' ∧ bytes c' = ntp_request.
Proof.
  intros Hc (q & -> & Ht). destruct Hc as (Hl & Ht' & Hb & _).
  rewrite bytes_cons, app_nil_r in Ht'. unfold NTP_PACKET_SIZE in Ht.
  assert (Hlen : length (payload q) = 48%nat) by lia.
  unfold fill_payload. change (length ntp_request) with 48%nat. rewrite Hlen. simpl Nat.leb.
  cbv iota. assert (Hw : list_inserts 0 ntp_request (payload q) = ntp_request).
  { rewrite inserts_as_app, drop_ge, app_nil_r; [done|..];
      change (length ntp_request) with 48%nat; lia. }
  eexists. split; [done|]. rewrite Hw, bytes_cons, app_nil_r. simpl. rewrite Hl, Hlen, Ht.
  split; [|done]. by split_and!.
Qed.

Lemma wait_and_answer msg pcb v s :
  0 ≤ v_pbufs v → at_ (NtpClient 0 0) (NetView (pcb :: v_pcbs v) (v_pbufs v)
    (v_sent v ++ [(ntp_request, NTP_SERVER, NTP_PORT)]) (v_heard v)) s →
  wp (wait_response NTP_TIMEOUT_CYCLES;;
      world (udp_remove pcb);;
      r ← gets (λ s : nstate, ntp_response_received s.1);
      if r =? 0 then
        world (uart_puts ("NTP: Response timeout!" +:+ crlf));;
        mret (-1, msg)
      else
        ts ← gets (λ s : nstate, ntp_timestamp s.1);
        world (uart_printf ("NTP: Received timestamp = %u (NTP epoch)" +:+ crlf) [PUint ts]);;
        let t := ntp_to_ist ts in
        world (uart_printf ("NTP: IST time = %02d:%02d:%02d" +:+ crlf)
          [PInt (hour t); PInt (minute t); PInt (second t)]);;
        mret (0, t)) (λ r s', queried msg v r s'.2) s.
Proof.
  intros Hp Hs. apply wp_bind. eapply wp_mono; [by eapply wait_response_spec, Hs|]. cbn beta.
  intros [] s1 (heard & Hs1). rewrite hear_answer in Hs1. unfold heard_on in Hs1. cbn in Hs1.
  set (v' := NetView (v_pcbs v) (v_pbufs v) (v_sent v ++ [(ntp_request, NTP_SERVER, NTP_PORT)])
    (v_heard v ++ heard)).
  eapply (at_bind _ _ (λ _, sees v') _ _ _ _ Hs1); [intros; by apply (udp_remove_law pcb)|].
  intros [] s2 Hn Hv. apply wp_bind, wp_gets. rewrite Hn.
  assert (Hq : ∀ r, (r = (-1, msg) ∧ answer heard = None ∨
      r.1 = 0 ∧ ∃ ts, answer heard = Some ts ∧ r.2 = ntp_to_ist ts) →
    ∀ s' : ntp_client * W, sees v' s'.2 → queried msg v r s'.2).
  { intros r Hr s' Hs'. exists [(ntp_request, NTP_SERVER, NTP_PORT)], heard.
    split; [done|]. destruct Hr as [[-> Ha]|[? Ha]]; [left|right]; auto. }
  destruct (answer heard) as [ts|]; cbn [ntp_response_received Z.eqb].
  - apply wp_bind, wp_gets. rewrite Hn. cbn [ntp_timestamp].
    eapply at_printf; [by eexists|by split|]. intros s3 Hs3.
    eapply at_printf; [by eexists|done|]. intros s4 Hs4.
    apply wp_ret, Hq; [|apply Hs4]. right. split; [done|]. by exists ts.
  - eapply at_puts; [by split|]. intros s3 Hs3. apply wp_ret, Hq; [by left|apply Hs3].
Qed.

(** C5: whichever way it ends, a query returns after at most 5000 polls with
    its PCB removed and every packet buffer freed.  It sends the 48-byte
    client request once at most, and it reports the time in the last long
    enough datagram it was handed, or -1 with the caller's time untouched. *)
Theorem ntp_get_time_outcome msg n v w :
  0 ≤ v_pbufs v → sees v w →
  wp (ntp_get_time msg) (λ r s', queried msg v r s'.2) (n, w).
Proof.
  intros Hp Hw. unfold ntp_get_time. eapply (at_puts _ _ _ n v); [by split|]. intros s1 [_ Hs1].
  apply wp_bind, wp_modify. cbn beta.
  eapply (at_bind _ _ _ _ (NtpClient 0 0) v); [by split|intros; by apply udp_new_law|].
  intros [pcb|] s2 Hn2 Hs2.
  2: { eapply at_puts; [by split|]. intros s3 Hs3. by apply wp_ret, queried_nothing, Hs3. }
  set (v1 := NetView _ _ _ _) in Hs2. assert (Hin : pcb ∈ v_pcbs v1) by left.
  eapply (at_bind _ _ _ _ _ v1); [by split|intros; by apply udp_bind_law|]. intros ? s3 Hn3 Hs3.
  eapply (at_bind _ _ _ _ _ v1); [by split|intros; by apply udp_recv_law|]. intros ? s4 Hn4 Hs4.
  assert (Hrm : ∀ s, at_ (NtpClient 0 0) v1 s →
    wp (world (udp_remove pcb);; mret (-1, msg)) (λ r s', queried msg v r s'.2) s).
  { intros s Hs. eapply (at_bind _ _ _ _ _ v1 _ Hs); [intros; by apply (udp_remove_law pcb)|].
    intros ? s' Hn' Hs'. apply wp_ret, queried_nothing. by destruct v. }
  eapply (at_bind _ _ _ _ _ v1); [by split|intros; apply (pbuf_alloc_law _ v1); [unfold NTP_PACKET_SIZE; lia|done]|].
  intros [c|] s5 Hn5 Hs5.
  2: { eapply at_puts; [by split|]. apply Hrm. }
  destruct Hs5 as (Hs5 & Hc & Hone).
  destruct (fill_payload_request c Hc Hone) as (c' & Hf & Hc' & Hb).
  apply wp_bind. eapply wp_of_option; [exact Hf|]. cbv zeta.
  apply wp_bind. eapply wp_of_option; [reflexivity|].
  eapply at_printf; [by eexists|by split|]. intros s6 Hs6.
  eapply (at_bind _ _ _ _ _ _ _ Hs6); [intros; eapply udp_sendto_law; [|exact Hc'|eassumption]; exact Hin|].
  intros err s7 Hn7 Hs7. rewrite Hb in Hs7.
  eapply (at_bind _ _ (λ _, sees (NetView (pcb :: v_pcbs v) (v_pbufs v)
    (if err =? ERR_OK then v_sent v ++ [(ntp_request, NTP_SERVER, NTP_PORT)] else v_sent v)
    (v_heard v)))); [by split| |].
  { intros w' Hw'. eapply wp_mono; [apply pbuf_free_law; [|done]; simpl; lia|].
    intros ? w''. simpl. by rewrite Z.add_simpl_r. }
  intros ? s8 Hn8 Hs8. destruct (Z.eqb_spec err ERR_OK) as [->|Hne]; cbn [negb].
  - eapply at_puts; [by split|]. intros s9 Hs9. by apply (wait_and_answer msg pcb v).
  - eapply at_printf; [by eexists|by split|]. apply Hrm.
Qed.

End query.

(** ** A scripted network *)

(** Which datagrams arrive at which poll, and whether PCBs and buffers can be
    had and the request can be sent. *)
Record script_net := ScriptNet {
  sn_view : net_view;
  sn_next : Z;
  sn_script : list (list (list Z));
  sn_works : bool;
  sn_out : list ascii
}.

Definition one_pbuf (b : list Z) : Pbuf.chain :=
  let b := take 1500 b in [Pbuf b (Z.of_nat (length b)) (Z.of_nat (length b))].

Lemma one_pbuf_ok b : one_pbuf b ≠ [] ∧ chain_ok (one_pbuf b).
Proof.
  split; [done|]. unfold one_pbuf. split; [done|]. rewrite bytes_cons, app_nil_r. simpl.
  split_and!; [done| |done]. rewrite length_take. lia.
Qed.

Definition set_view (v : net_view) (w : script_net) : script_net :=
  ScriptNet v (sn_next w + 1) (sn_script w) (sn_works w) (sn_out w).

#[export] Instance script_console : Console script_net := λ c,
  modify (λ w, ScriptNet (sn_view w) (sn_next w) (sn_script w) (sn_works w) (sn_out w ++ [c])).

#[export] Instance script_udp : Udp script_net := {|
  udp_new := w ← get; let v := sn_view w in
    if sn_works w then
      put (set_view (NetView (sn_next w :: v_pcbs v) (v_pbufs v) (v_sent v) (v_heard v)) w);;
      mret (Some (sn_next w))
    else mret None;
  udp_bind _ _ := mret ERR_OK;
  udp_recv _ := mret tt;
  pbuf_alloc_ram len := w ← get; let v := sn_view w in
    if len <=? 1500 then
      put (set_view (NetView (v_pcbs v) (v_pbufs v + 1) (v_sent v) (v_heard v)) w);;
      mret (Some (one_pbuf (replicate (Z.to_nat len) 0)))
    else mret None;
  udp_sendto _ c addr port := w ← get; let v := sn_view w in
    put (set_view (NetView (v_pcbs v) (v_pbufs v) (v_sent v ++ [(bytes c, addr, port)])
      (v_heard v)) w);; mret ERR_OK;
  pbuf_free _ := w ← get; let v := sn_view w in
    put (set_view (NetView (v_pcbs v) (v_pbufs v - 1) (v_sent v) (v_heard v)) w);; mret tt;
  udp_remove _ := w ← get; let v := sn_view w in
    put (set_view (NetView (tail (v_pcbs v)) (v_pbufs v) (v_sent v) (v_heard v)) w);; mret tt;
  net_poll := w ← get; let v := sn_view w in
    match v_pcbs v, sn_script w with
    | _ :: _, ds :: rest =>
        let ps := one_pbuf <$> ds in
        put (ScriptNet (NetView (v_pcbs v) (v_pbufs v + Z.of_nat (length ps)) (v_sent v)
          (v_heard v ++ (bytes <$> ps))) (sn_next w) rest (sn_works w) (sn_out w));;
        mret ps
    | _, _ => mret []
    end
|}.

#[export] Instance script_laws : NetLaws script_net.
Proof.
  refine {| w_ok _ := True; view := sn_view |}.
  - intros c v w [_ <-]. by split.
  - intros v w [_ <-]. unfold udp_new, script_udp. apply wp_bind, wp_get.
    destruct (sn_works w); wp_go; by split.
  - intros p port v w _ Hv. by apply wp_ret.
  - intros p v w _ Hv. by apply wp_ret.
  - intros len v w Hl [_ <-]. unfold pbuf_alloc_ram, script_udp. apply wp_bind, wp_get.
    destruct (Z.leb_spec len 1500); [|apply wp_ret; by split]. wp_go. split; [by split|].
    split; [apply one_pbuf_ok|]. eexists. split; [done|]. simpl.
    rewrite length_take, length_replicate. lia.
  - intros p c addr port v w _ _ [_ <-]. by split.
  - intros c v w _ [_ <-]. by split.
  - intros p l b se h w [_ E]. unfold udp_remove, script_udp. wp_go. split; [done|]. simpl.
    by rewrite E.
  - intros v w [_ <-]. unfold net_poll, script_udp. apply wp_bind, wp_get.
    destruct (v_pcbs (sn_view w)) as [|p l] eqn:E; destruct (sn_script w) as [|ds rest]; wp_go.
    1-3: rewrite <-E, Z.add_0_r, app_nil_r; split; [split; [done|by destruct (sn_view w)]|done].
    rewrite <-E. split; [by split|]. split; [|by rewrite E].
    apply Forall_fmap, Forall_forall. intros b _. apply one_pbuf_ok.
Defined.

(** An answer of 48 bytes with the timestamp of 2021-01-01 00:00:00 UTC, after
    a datagram that is too short. *)
Definition reply_2021 : list Z := replicate 40 0 ++ [0xe3; 0x98; 0xe4; 0x80] ++ replicate 4 0.
Definition demo_net : script_net :=
  ScriptNet (NetView [] 0 [] []) 1 [[]; [[1; 2; 3]]; []; [reply_2021]] true [].

Example demo_query :
  match ntp_get_time (TimeMsg 0 0 0) (NtpClient 0 0, demo_net) with
  | (inl r, s) => r = (0, TimeMsg 5 30 0) ∧ v_heard (sn_view s.2) = [[1; 2; 3]; reply_2021]
  | _ => False
  end.
Proof. vm_compute. done. Qed.

Lemma ntp_get_time_outcome_witness :
  wp (ntp_get_time (TimeMsg 0 0 0)) (λ r s', queried (TimeMsg 0 0 0) (sn_view demo_net) r s'.2)
    (NtpClient 0 0, demo_net).
Proof. apply (ntp_get_time_outcome (TimeMsg 0 0 0)); [done|split; done]. Defined.
