(* ===== verification/Tasks.v ===== *)
(** The three application tasks: [src/key_task.c], [src/ntp_task.c] and
    [src/speech_task.c], as programs over the operations that other tasks can
    observe or run in between.  Text goes out one character at a time, and
    [uart_printf] goes through its static buffer, as in [src/main.c]. *)
From Stdlib Require Import Ascii.
From stdpp Require Import base tactics numbers list strings.
From S2P Require Import Prelude Words Printf Console Speech Ntp.

(** ** Programs *)

(** [OKeyFull] and [OKeyData] are the reads of UART0_STATE and UART0_DATA;
    [OFormat] is [vsnprintf] into the buffer of [uart_printf], [ORead] reads
    the buffer back.  Waits are in ticks. *)
Inductive op : Set → Type :=
  | OPutc (c : ascii) : op unit
  | OFormat (fmt : string) (args : list parg) : op unit
  | ORead (i : nat) : op ascii
  | OKeyFull : op bool
  | OKeyData : op ascii
  | OGive : op Z
  | OTake (ticks : Z) : op Z
  | OSend (msg : time_msg) (ticks : Z) : op Z
  | OReceive (ticks : Z) : op (Z * time_msg)
  | ODelay (ticks : Z) : op unit
  | ONtp (msg : time_msg) : op (Z * time_msg)
  | ONetInit : op unit
  | ONetUp : op bool
  | OPoll : op unit.

Inductive prog (A : Type) : Type :=
  | Done (a : A)
  | Step (R : Set) (o : op R) (k : R → prog A).
Arguments Done {_}.
Arguments Step {_ _}.

Fixpoint prog_bind {A B} (f : A → prog B) (p : prog A) : prog B :=
  match p with
  | Done a => f a
  | Step o k => Step o (λ r, prog_bind f (k r))
  end.

#[export] Instance prog_ret : MRet prog := λ A, Done.
#[export] Instance prog_mbind : MBind prog := λ A B, prog_bind.

Definition do {R : Set} (o : op R) : prog R := Step o Done.

(** ** Output *)

(** What a console function prints, found by running it on a console that
    collects the characters. *)
Definition printed (m : M (list ascii) unit) : list ascii := (m []).2.

Fixpoint say (l : list ascii) : prog unit :=
  match l with
  | [] => mret tt
  | c :: l => do (OPutc c);; say l
  end.

Definition puts (s : string) : prog unit := say (printed (uart_puts s)).

(** [uart_puts(buf)], from index [i] on. *)
Fixpoint puts_buf (n : nat) (i : nat) : prog unit :=
  match n with
  | O => mret tt
  | S n => c ← do (ORead i); if decide (c = nul) then mret tt else do (OPutc c);; puts_buf n (S i)
  end.

Definition printf (fmt : string) (args : list parg) : prog unit :=
  do (OFormat fmt args);; puts_buf 256 0.

(** ** The tasks *)

Definition configTICK_RATE_HZ : Z := 1000.
Definition pdMS_TO_TICKS (ms : Z) : Z := u32 (ms * configTICK_RATE_HZ / 1000).
Definition queue_MAX_DELAY : Z := 4294967295.

(** Where a task is in its own loop; [NtpLoop] keeps the local [msg]. *)
Inductive label :=
  | KeyLoop
  | NtpWait (msg : time_msg)
  | NtpLoop (msg : time_msg)
  | SpeechLoop.

Definition key_task : prog label :=
  puts (crlf +:+ "========================================" +:+ crlf);;
  puts ("  Network-Synchronised Speaking Clock" +:+ crlf);;
  puts ("  Press 't' to announce the time" +:+ crlf);;
  puts ("========================================" +:+ crlf +:+ crlf);;
  mret KeyLoop.

(** One turn of its [while (1)]. *)
Definition key_loop : prog label :=
  full ← do OKeyFull;
  (if full : bool then
     c ← do OKeyData;
     if decide (c = "t"%char ∨ c = "T"%char) then
       puts ("Key: Time request received!" +:+ crlf);;
       do OGive;;
       mret tt
     else mret tt
   else mret tt);;
  do (ODelay (pdMS_TO_TICKS 50));;
  mret KeyLoop.

Definition ntp_task (msg : time_msg) : prog label :=
  puts ("NTP Task: Initializing network stack..." +:+ crlf);;
  do ONetInit;;
  puts ("NTP Task: Network stack initialized." +:+ crlf);;
  puts ("NTP Task: Waiting for DHCP..." +:+ crlf);;
  mret (NtpWait msg).

(** One turn of [while (!network_is_up())]. *)
Definition ntp_wait (msg : time_msg) : prog label :=
  up ← do ONetUp;
  if (up : bool) then
    puts ("NTP Task: Network is ready!" +:+ crlf);;
    puts ("NTP Task: Waiting for time requests..." +:+ crlf);;
    mret (NtpLoop msg)
  else
    do OPoll;;
    do (ODelay (pdMS_TO_TICKS 10));;
    mret (NtpWait msg).

(** [while (retries > 0)]; the result is [retries] and [msg] afterwards. *)
Fixpoint ntp_retries (retries : nat) (msg : time_msg) : prog (nat * time_msg) :=
  match retries with
  | O => mret (O, msg)
  | S n =>
      '(r, msg) ← do (ONtp msg);
      if r =? 0 then
        printf ("NTP Task: Time = %02d:%02d:%02d IST" +:+ crlf)
          [PInt (hour msg); PInt (minute msg); PInt (second msg)];;
        sent ← do (OSend msg (pdMS_TO_TICKS 1000));
        (if sent =? 1 then mret tt
         else puts ("NTP Task: Failed to send to queue!" +:+ crlf));;
        mret (S n, msg)
      else
        (if (0 <? n)%nat then
           printf ("NTP Task: Retry (%d remaining)..." +:+ crlf) [PInt (Z.of_nat n)];;
           do (ODelay (pdMS_TO_TICKS 1000))
         else mret tt);;
        ntp_retries n msg
  end.

Definition ntp_loop (msg : time_msg) : prog label :=
  taken ← do (OTake (pdMS_TO_TICKS 100));
  msg ← (if taken =? 1 then
           puts ("NTP Task: Processing time request..." +:+ crlf);;
           '(retries, msg) ← ntp_retries 3 msg;
           (if (retries =? 0)%nat then puts ("NTP Task: All retries failed!" +:+ crlf)
            else mret tt);;
           mret msg
         else mret msg);
  do OPoll;;
  mret (NtpLoop msg).

Definition speech_task : prog label :=
  puts ("Speech Task: Started, waiting for time messages..." +:+ crlf);;
  mret SpeechLoop.

(** What [speak_time] prints. *)
Definition speech (msg : time_msg) : list ascii :=
  printed (speak_time (hour msg) (minute msg) (second msg)).

Definition speech_loop : prog label :=
  '(r, msg) ← do (OReceive queue_MAX_DELAY);
  (if r =? 1 then
     printf ("Speech Task: Announcing %02d:%02d:%02d" +:+ crlf)
       [PInt (hour msg); PInt (minute msg); PInt (second msg)];;
     say (speech msg)
   else mret tt);;
  mret SpeechLoop.

(** The next turn of a task. *)
Definition turn (l : label) : prog label :=
  match l with
  | KeyLoop => key_loop
  | NtpWait msg => ntp_wait msg
  | NtpLoop msg => ntp_loop msg
  | SpeechLoop => speech_loop
  end.

(** ** Reasoning about programs *)

(** A program follows a protocol, whose states are [P]: [may a o] says
    whether the operation [o] is allowed in state [a], and the state that each
    result leads to. *)
Section protocol.
Context {P : Type} (may : ∀ R : Set, P → op R → option (R → option P)).

(** [obeys Q p a]: from state [a], [p] performs only allowed operations and
    ends with a result and a state that satisfy [Q].  A result that leads to
    no state is one that cannot come back. *)
Fixpoint obeys {A} (Q : A → P → Prop) (p : prog A) (a : P) : Prop :=
  match p with
  | Done x => Q x a
  | @Step _ R o k =>
      match may R a o with
      | Some f => ∀ r, match f r with Some a' => obeys Q (k r) a' | None => True end
      | None => False
      end
  end.

Lemma obeys_bind {A B} (Q : B → P → Prop) (p : prog A) (f : A → prog B) a :
  obeys (λ x a', obeys Q (f x) a') p a → obeys Q (p ≫= f) a.
Proof.
  revert a. induction p as [x|R o k IH]; intros a Hp; [done|]. simpl in *.
  destruct (may R a o) as [g|]; [|done]. intros r. specialize (Hp r).
  destruct (g r); [by apply IH|done].
Qed.

Lemma obeys_mono {A} (Q Q' : A → P → Prop) (p : prog A) a :
  (∀ x a', Q x a' → Q' x a') → obeys Q p a → obeys Q' p a.
Proof.
  intros HQ. revert a. induction p as [x|R o k IH]; intros a Hp; [by apply HQ|]. simpl in *.
  destruct (may R a o) as [g|]; [|done]. intros r. specialize (Hp r).
  destruct (g r); [by apply IH|done].
Qed.

(** Operations that change nothing for the protocol. *)
Definition idle {R : Set} (a : P) (o : op R) : Prop :=
  match may R a o with Some f => ∀ r, f r = Some a | None => False end.

Lemma obeys_do {R : Set} {B} (Q : B → P → Prop) (o : op R) (f : R → prog B) a g :
  may R a o = Some g → (∀ r a', g r = Some a' → obeys Q (f r) a') → obeys Q (do o ≫= f) a.
Proof.
  intros Hg Hf. simpl. rewrite Hg. intros r. specialize (Hf r). destruct (g r); auto.
Qed.

Lemma obeys_do_only {R : Set} (Q : R → P → Prop) (o : op R) a g :
  may R a o = Some g → (∀ r a', g r = Some a' → Q r a') → obeys Q (do o) a.
Proof.
  intros Hg Hf. simpl. rewrite Hg. intros r. specialize (Hf r). destruct (g r); auto.
Qed.

Lemma obeys_idle {R : Set} {B} (Q : B → P → Prop) (o : op R) (f : R → prog B) a :
  idle a o → (∀ r, obeys Q (f r) a) → obeys Q (do o ≫= f) a.
Proof.
  unfold idle. intros Hi Hf. destruct (may R a o) as [g|] eqn:Hg; [|done].
  apply (obeys_do _ _ _ _ g Hg). intros r a'. rewrite Hi. intros [= <-]. apply Hf.
Qed.

Lemma obeys_say_only (Q : unit → P → Prop) l a :
  (∀ c, idle a (OPutc c)) → Q tt a → obeys Q (say l) a.
Proof.
  intros Hi HQ. induction l as [|c l IH]; [done|]. by apply (obeys_idle (R := unit)).
Qed.

Lemma obeys_say {B} (Q : B → P → Prop) l (p : prog B) a :
  (∀ c, idle a (OPutc c)) → obeys Q p a → obeys Q (say l;; p) a.
Proof. intros Hi Hp. by apply obeys_bind, obeys_say_only. Qed.

Lemma obeys_puts {B} (Q : B → P → Prop) s (p : prog B) a :
  (∀ c, idle a (OPutc c)) → obeys Q p a → obeys Q (puts s;; p) a.
Proof. apply obeys_say. Qed.

Lemma obeys_puts_buf (Q : unit → P → Prop) a n i :
  (∀ c, idle a (OPutc c)) → (∀ i, idle a (ORead i)) → Q tt a → obeys Q (puts_buf n i) a.
Proof.
  intros Hc Hr HQ. revert i. induction n as [|n IH]; intros i; [exact HQ|]. cbn [puts_buf].
  apply (obeys_idle (R := ascii)); [done|]. intros c. case_decide; [exact HQ|].
  by apply (obeys_idle (R := unit)).
Qed.

Lemma obeys_printf {B} (Q : B → P → Prop) fmt args (p : prog B) a :
  (∀ c, idle a (OPutc c)) → (∀ i, idle a (ORead i)) → idle a (OFormat fmt args) →
  obeys Q p a → obeys Q (printf fmt args;; p) a.
Proof.
  intros Hc Hr Hf Hp. apply obeys_bind. unfold printf.
  apply (obeys_idle (R := unit)); [done|]. intros _. by apply obeys_puts_buf.
Qed.
End protocol.
