(* ===== verification/System.v ===== *)
(** The application as a whole: the three tasks of [Tasks], interleaved in any
    order at the operations where another task can run, over the semaphore and
    the queue of [src/main.c], the console and the network.

    The semaphore and the queue behave as the bounded FIFO of [QueueRefine],
    which [freertos/queue.c] is proved to implement; a call that has to wait
    goes on when it can or when its time is up.  A query of the NTP server
    answers as [NtpThm] proves of [ntp_get_time].  Priorities are left out:
    every schedule of the real system is one of these. *)
From Stdlib Require Import Ascii.
From stdpp Require Import base tactics numbers list strings.
From S2P Require Import Prelude Words Printf Console Speech Bridge Announce Sched Queue QueueRefine Ntp Tasks.

(** ** State *)

Inductive task_id := Key | Net | Speaker.
#[export] Instance task_id_eq_dec : EqDecision task_id.
Proof. solve_decision. Defined.

(** What has happened, for the statements only: keys pressed that ask for the
    time, requests given and merged with one already pending, requests taken,
    queries and the timestamps they brought, times handed to the queue with
    the outcome, times received. *)
Record ledger := Ledger {
  l_presses : nat;
  l_gives : nat;
  l_merged : nat;
  l_takes : nat;
  l_queries : nat;
  l_answers : list Z;
  l_handed : list (time_msg * bool);
  l_received : list time_msg
}.

Record shared := Shared {
  time_request_sem : list (list Z);   (* the items of the semaphore, each empty *)
  time_queue : list (list Z);
  printf_buf : list ascii;            (* the static buffer of uart_printf *)
  typed : list ascii;                 (* characters waiting at UART0 *)
  dhcp_done : bool;
  console : list (task_id * ascii);   (* characters sent, and by whom *)
  book : ledger
}.

Record sys := Sys { world_of : shared; key_p : prog label; net_p : prog label; speaker_p : prog label }.

(** ** Operations *)

(** [sizeof(time_msg)] bytes. *)
Definition encode (m : time_msg) : list Z := [hour m; minute m; second m].
Definition decode (b : list Z) : time_msg := TimeMsg (nth 0 b 0) (nth 1 b 0) (nth 2 b 0).
Definition sizeof_time_msg : Z := 3.

(** What the environment decides: whether a wait that cannot go on runs out of
    time, what a query is answered with, and whether polling the network
    finds an address. *)
Record env := Env { e_expired : bool; e_answer : option Z; e_lease : bool }.

Definition set_console c (σ : shared) : shared :=
  Shared (time_request_sem σ) (time_queue σ) (printf_buf σ) (typed σ) (dhcp_done σ) c (book σ).
Definition set_buf b (σ : shared) : shared :=
  Shared (time_request_sem σ) (time_queue σ) b (typed σ) (dhcp_done σ) (console σ) (book σ).
Definition set_sem s b (σ : shared) : shared :=
  Shared s (time_queue σ) (printf_buf σ) (typed σ) (dhcp_done σ) (console σ) b.
Definition set_queue q b (σ : shared) : shared :=
  Shared (time_request_sem σ) q (printf_buf σ) (typed σ) (dhcp_done σ) (console σ) b.
Definition set_typed t b (σ : shared) : shared :=
  Shared (time_request_sem σ) (time_queue σ) (printf_buf σ) t (dhcp_done σ) (console σ) b.
Definition set_dhcp d (σ : shared) : shared :=
  Shared (time_request_sem σ) (time_queue σ) (printf_buf σ) (typed σ) d (console σ) (book σ).
Definition set_book b (σ : shared) : shared :=
  Shared (time_request_sem σ) (time_queue σ) (printf_buf σ) (typed σ) (dhcp_done σ) (console σ) b.

Definition is_request (c : ascii) : bool := bool_decide (c = "t"%char ∨ c = "T"%char).

Definition book_press (b : ledger) : ledger :=
  Ledger (S (l_presses b)) (l_gives b) (l_merged b) (l_takes b) (l_queries b) (l_answers b)
    (l_handed b) (l_received b).
Definition book_give (ok : bool) (b : ledger) : ledger :=
  Ledger (l_presses b) (if ok then S (l_gives b) else l_gives b)
    (if ok then l_merged b else S (l_merged b)) (l_takes b) (l_queries b) (l_answers b)
    (l_handed b) (l_received b).
Definition book_take (b : ledger) : ledger :=
  Ledger (l_presses b) (l_gives b) (l_merged b) (S (l_takes b)) (l_queries b) (l_answers b)
    (l_handed b) (l_received b).
Definition book_query (a : option Z) (b : ledger) : ledger :=
  Ledger (l_presses b) (l_gives b) (l_merged b) (l_takes b) (S (l_queries b))
    (l_answers b ++ option_list a) (l_handed b) (l_received b).
Definition book_handed (m : time_msg) (ok : bool) (b : ledger) : ledger :=
  Ledger (l_presses b) (l_gives b) (l_merged b) (l_takes b) (l_queries b) (l_answers b)
    (l_handed b ++ [(m, ok)]) (l_received b).
Definition book_received (m : time_msg) (b : ledger) : ledger :=
  Ledger (l_presses b) (l_gives b) (l_merged b) (l_takes b) (l_queries b) (l_answers b)
    (l_handed b) (l_received b ++ [m]).

(** The buffer after [vsnprintf(buf, 256, ...)]. *)
Definition overwrite (txt old : list ascii) : list ascii :=
  txt ++ nul :: drop (S (length txt)) old.

(** An operation of task [who]; [None] when it has to go on waiting. *)
Definition exec_op {R : Set} (who : task_id) (e : env) (o : op R) (σ : shared)
    : option (R * shared) :=
  match o in op R return option (R * shared) with
  | OPutc c => Some (tt, set_console (console σ ++ [(who, c)]) σ)
  | OFormat fmt args =>
      '(txt, _) ← vsnprintf 256 fmt args;
      Some (tt, set_buf (overwrite txt (printf_buf σ)) σ)
  | ORead i => Some (nth i (printf_buf σ) nul, σ)
  | OKeyFull => Some (bool_decide (typed σ ≠ []), σ)
  | OKeyData =>
      match typed σ with
      | c :: rest =>
          Some (c, set_typed rest (if is_request c then book_press (book σ) else book σ) σ)
      | [] => Some (nul, σ)
      end
  | OGive =>
      match abs_call 1 0 (CSend None queueSEND_TO_BACK) (time_request_sem σ) with
      | (RCode r, items) => Some (r, set_sem items (book_give (r =? pdPASS) (book σ)) σ)
      | _ => None
      end
  | OTake ticks =>
      match abs_call 1 0 CTake (time_request_sem σ) with
      | (RCode r, items) =>
          if r =? pdPASS then Some (r, set_sem items (book_take (book σ)) σ)
          else if e_expired e then Some (r, σ) else None
      | _ => None
      end
  | OSend msg ticks =>
      match abs_call 1 sizeof_time_msg (CSend (Some (encode msg)) queueSEND_TO_BACK)
              (time_queue σ) with
      | (RCode r, items) =>
          if r =? pdPASS then Some (r, set_queue items (book_handed msg true (book σ)) σ)
          else if e_expired e then Some (r, set_book (book_handed msg false (book σ)) σ)
          else None
      | _ => None
      end
  | OReceive ticks =>
      match abs_call 1 sizeof_time_msg CReceive (time_queue σ) with
      | (RItem r (Some b), items) =>
          Some ((r, decode b), set_queue items (book_received (decode b) (book σ)) σ)
      | _ => None   (* portMAX_DELAY: the wait never ends by itself *)
      end
  | ODelay ticks => Some (tt, σ)
  | ONtp msg =>
      let r := match e_answer e with Some ts => (0, ntp_to_ist ts) | None => (-1, msg) end in
      Some (r, set_book (book_query (e_answer e) (book σ)) σ)
  | ONetInit => Some (tt, σ)
  | ONetUp => Some (dhcp_done σ, σ)
  | OPoll => Some (tt, set_dhcp (dhcp_done σ || e_lease e) σ)
  end.

(** ** Steps *)

Definition prog_of (who : task_id) (s : sys) : prog label :=
  match who with Key => key_p s | Net => net_p s | Speaker => speaker_p s end.

Definition with_prog (who : task_id) (σ : shared) (p : prog label) (s : sys) : sys :=
  match who with
  | Key => Sys σ p (net_p s) (speaker_p s)
  | Net => Sys σ (key_p s) p (speaker_p s)
  | Speaker => Sys σ (key_p s) (net_p s) p
  end.

(** One operation of a task, or the start of its next turn. *)
Definition task_step (who : task_id) (e : env) (s : sys) : option sys :=
  match prog_of who s with
  | Done l => Some (with_prog who (world_of s) (turn l) s)
  | Step o k => '(r, σ) ← exec_op who e o (world_of s); Some (with_prog who σ (k r) s)
  end.

Inductive move :=
  | MTask (who : task_id) (e : env)
  | MType (c : ascii).

Definition move_step (m : move) (s : sys) : option sys :=
  match m with
  | MTask who e => task_step who e s
  | MType c =>
      let σ := world_of s in
      Some (Sys (set_typed (typed σ ++ [c]) (book σ) σ) (key_p s) (net_p s) (speaker_p s))
  end.

Fixpoint run (ms : list move) (s : sys) : option sys :=
  match ms with
  | [] => Some s
  | m :: ms => s ← move_step m s; run ms s
  end.

(** The state in which the scheduler starts: the objects [main] created, the
    buffers in zeroed memory, and the local [msg] of [ntp_task], which holds
    anything. *)
Definition boot (msg : time_msg) : sys :=
  Sys (Shared [] [] (replicate 256 nul) [] false [] (Ledger 0 0 0 0 0 [] [] []))
    key_task (ntp_task msg) speech_task.

Inductive reachable : sys → Prop :=
  | reach_boot msg : reachable (boot msg)
  | reach_move m s s' : reachable s → move_step m s = Some s' → reachable s'.

Lemma run_reachable ms s s' : reachable s → run ms s = Some s' → reachable s'.
Proof.
  revert s. induction ms as [|m ms IH]; intros s Hs Hr; simpl in Hr; [by simplify_eq|].
  apply bind_Some in Hr as (s1 & H1 & Hr). apply (IH s1); [by eapply reach_move|done].
Qed.
