(* ===== verification/SystemThm.v ===== *)
(** What the application does under every schedule: the protocol each task
    follows, the invariant that ties them together, and the theorems on
    requests, on the times that flow to the speaker and on what it says. *)
From Stdlib Require Import Ascii.
From stdpp Require Import base tactics numbers list strings.
From S2P Require Import Prelude Words Printf Console Speech Bridge Announce Sched Queue QueueRefine Ntp Tasks System.

(** ** Protocols *)

(** The key task gives the semaphore once after each request key. *)
Inductive key_pc := KQuiet | KPressed.

Definition key_may (R : Set) (a : key_pc) (o : op R) : option (R → option key_pc) :=
  match o in op R return option (R → option key_pc) with
  | OPutc _ => Some (λ _, Some a)
  | OKeyFull => Some (λ _, Some a)
  | ODelay _ => Some (λ _, Some a)
  | OKeyData =>
      match a with
      | KQuiet => Some (λ c, Some (if is_request c then KPressed else KQuiet))
      | KPressed => None
      end
  | OGive => match a with KPressed => Some (λ _, Some KQuiet) | KQuiet => None end
  | _ => None
  end.

(** A format string that fits its arguments. *)
Definition formats (fmt : string) (args : list parg) : bool :=
  match vformat FText fmt args with Some _ => true | None => false end.

(** In a turn the network task looks for a request once; it queries only after
    it has taken one, three times at most, hands over the time it is given,
    and is then over with the request. *)
Inductive net_pc := NIdle | NAsk (left : nat) | NHave (m : time_msg) | NOver.

Definition net_may (R : Set) (a : net_pc) (o : op R) : option (R → option net_pc) :=
  match o in op R return option (R → option net_pc) with
  | OPutc _ => Some (λ _, Some a)
  | OFormat fmt args => if formats fmt args then Some (λ _, Some a) else None
  | ORead _ => Some (λ _, Some a)
  | ODelay _ => Some (λ _, Some a)
  | OPoll => Some (λ _, Some a)
  | ONetUp => Some (λ _, Some a)
  | ONetInit => Some (λ _, Some a)
  | OTake _ =>
      match a with
      | NIdle => Some (λ r, Some (if r =? pdPASS then NAsk 3 else NOver))
      | _ => None
      end
  | ONtp _ =>
      match a with
      | NAsk (S n) => Some (λ r, Some (if r.1 =? 0 then NHave r.2 else NAsk n))
      | _ => None
      end
  | OSend m _ =>
      match a with
      | NHave m' => if bool_decide (m = m') then Some (λ _, Some NOver) else None
      | _ => None
      end
  | _ => None
  end.

(** The speaker says the announcement of each time it receives; before it, it
    only prints what it reads from the buffer. *)
Inductive speaker_pc :=
  | SIdle
  | SHave (m : time_msg)
  | SEcho (m : time_msg) (c : ascii)
  | SSay (m : time_msg) (rest : list ascii).

Definition saying (m : time_msg) (l : list ascii) : speaker_pc :=
  match l with [] => SIdle | _ => SSay m l end.

Definition speaker_may (R : Set) (a : speaker_pc) (o : op R) : option (R → option speaker_pc) :=
  match o in op R return option (R → option speaker_pc) with
  | OPutc c =>
      match a with
      | SIdle => Some (λ _, Some SIdle)
      | SEcho m d => if bool_decide (c = d) then Some (λ _, Some (SHave m)) else None
      | SHave m =>
          match speech m with
          | d :: l => if bool_decide (c = d) then Some (λ _, Some (saying m l)) else None
          | [] => None
          end
      | SSay m (d :: l) => if bool_decide (c = d) then Some (λ _, Some (saying m l)) else None
      | SSay _ [] => None
      end
  | OFormat fmt args =>
      match a with SHave m => if formats fmt args then Some (λ _, Some a) else None | _ => None end
  | ORead _ =>
      match a with
      | SHave m => Some (λ c, Some (if bool_decide (c = nul) then SHave m else SEcho m c))
      | _ => None
      end
  | OReceive _ =>
      match a with
      | SIdle => Some (λ r,
                      if bool_decide (r.1 = pdPASS ∧ valid_time r.2) then Some (SHave r.2) else None)
      | _ => None
      end
  | _ => None
  end.

(** ** The tasks follow them *)

Definition key_at (l : label) (a : key_pc) : Prop := l = KeyLoop ∧ a = KQuiet.
Definition net_at (l : label) (a : net_pc) : Prop :=
  (∃ msg, l = NtpWait msg ∨ l = NtpLoop msg) ∧ (a = NIdle ∨ a = NAsk 0 ∨ a = NOver).
Definition speaker_at (l : label) (a : speaker_pc) : Prop := l = SpeechLoop ∧ a = SIdle.

Ltac idles := intros; unfold idle; simpl; try done.

Lemma key_task_obeys : obeys key_may key_at key_task KQuiet.
Proof. unfold key_task. repeat (apply obeys_puts; [idles|]). done. Qed.

Lemma key_loop_obeys : obeys key_may key_at key_loop KQuiet.
Proof.
  unfold key_loop. apply obeys_idle; [idles|]. intros full. apply obeys_bind.
  apply obeys_mono with (Q := λ _ a, a = KQuiet); [intros ? a' ->; simpl; done|].
  destruct full; [|done]. eapply obeys_do; [reflexivity|]. intros c a' [= <-].
  unfold is_request. case_decide as Hc;
    [rewrite bool_decide_true by done|by rewrite bool_decide_false].
  apply obeys_puts; [idles|]. eapply obeys_do; [reflexivity|]. by intros r a' [= <-].
Qed.

Lemma ntp_task_obeys msg : obeys net_may net_at (ntp_task msg) NIdle.
Proof.
  unfold ntp_task. apply obeys_puts; [idles|]. apply obeys_idle; [idles|]. intros _.
  repeat (apply obeys_puts; [idles|]). split; [eauto|by left].
Qed.

(** Once the network is up, the waiting is over. *)
Lemma ntp_wait_up_obeys msg :
  obeys net_may (λ l a, l = NtpLoop msg ∧ a = NIdle)
    (puts ("NTP Task: Network is ready!" +:+ crlf);;
     puts ("NTP Task: Waiting for time requests..." +:+ crlf);;
     mret (NtpLoop msg)) NIdle.
Proof. by repeat (apply obeys_puts; [idles|]). Qed.

Lemma ntp_wait_obeys msg : obeys net_may net_at (ntp_wait msg) NIdle.
Proof.
  unfold ntp_wait. apply obeys_idle; [idles|]. intros [].
  - eapply obeys_mono; [|apply ntp_wait_up_obeys]. intros l a [-> ->]. split; [eauto|by left].
  - apply obeys_idle; [idles|]. intros _. apply obeys_idle; [idles|]. intros _.
    split; [eauto|by left].
Qed.

Lemma ntp_retries_obeys n msg :
  obeys net_may (λ _ a, a = NOver ∨ a = NAsk 0) (ntp_retries n msg) (NAsk n).
Proof.
  revert msg. induction n as [|n IH]; intros msg; [by right|]. cbn [ntp_retries].
  eapply obeys_do; [reflexivity|]. intros [r m] a'. cbn [fst snd].
  destruct (r =? 0); intros [= <-].
  - apply obeys_printf; [idles..|]. eapply obeys_do; [cbn; by rewrite bool_decide_true|].
    intros sent a' [= <-]. apply obeys_bind.
    destruct (sent =? 1); [by left|]. unfold puts.
    apply obeys_say_only; [idles|by left].
  - apply obeys_bind. destruct (0 <? n)%nat; [|apply IH]. apply obeys_printf; [idles..|].
    eapply obeys_do; [reflexivity|]. intros ? a' [= <-]. apply IH.
Qed.

(** In a turn it always looks for a request, and is over with it at the end. *)
Lemma ntp_loop_over msg :
  obeys net_may (λ l a, (∃ msg, l = NtpLoop msg) ∧ (a = NAsk 0 ∨ a = NOver)) (ntp_loop msg) NIdle.
Proof.
  unfold ntp_loop. eapply obeys_do; [reflexivity|]. intros r a' [= <-]. apply obeys_bind.
  apply obeys_mono with (Q := λ _ a, a = NAsk 0 ∨ a = NOver).
  { intros m a H. apply obeys_idle; [destruct H as [-> | ->]; idles|]. intros _.
    split; eauto. }
  change (r =? 1) with (r =? pdPASS). destruct (r =? pdPASS); [|by right].
  apply obeys_puts; [idles|]. apply obeys_bind.
  eapply obeys_mono; [|apply ntp_retries_obeys]. intros [n m] a Ha. cbn beta iota.
  apply obeys_bind. apply obeys_mono with (Q := λ _ a', a' = a).
  { intros ? ? ->. simpl. tauto. }
  destruct (n =? 0)%nat; [|done]. apply obeys_say_only; [|done].
  destruct Ha as [-> | ->]; idles.
Qed.

Lemma ntp_loop_obeys msg : obeys net_may net_at (ntp_loop msg) NIdle.
Proof.
  eapply obeys_mono; [|apply ntp_loop_over]. intros l a [[m ->] Ha]. split; [eauto|by right].
Qed.

Lemma speech_text m :
  valid_time m → speech m = announcement (time_tokens (hour m) (minute m) (second m)).
Proof.
  intros (Hh & Hm & Hs). unfold speech, printed.
  pose proof (sends_speak_time (S := list ascii) (hour m) (minute m) (second m)
    ltac:(lia) ltac:(lia) ltac:(lia) []) as Hw.
  destruct (wp_inv _ _ _ (Hw I)) as (? & l & -> & _ & Hl). exact Hl.
Qed.

Lemma speech_nonempty m : valid_time m → speech m ≠ [].
Proof. intros Hm. by rewrite speech_text. Qed.

Lemma speech_task_obeys : obeys speaker_may speaker_at speech_task SIdle.
Proof. unfold speech_task. apply obeys_puts; [idles|]. done. Qed.

Lemma puts_buf_obeys m n i :
  valid_time m → obeys speaker_may (λ _ a, a = SHave m) (puts_buf n i) (SHave m).
Proof.
  intros Hm. revert i. induction n as [|n IH]; intros i; [done|]. cbn [puts_buf].
  eapply obeys_do; [reflexivity|]. intros c a' [= <-].
  case_decide; [by rewrite bool_decide_true|]. rewrite bool_decide_false by done.
  eapply obeys_do; [simpl; by rewrite bool_decide_true|]. intros ? a' [= <-]. apply IH.
Qed.

Lemma say_rest_obeys m l : l ≠ [] → obeys speaker_may (λ _ a, a = SIdle) (say l) (SSay m l).
Proof.
  induction l as [|c l IH]; [done|]. intros _. cbn [say].
  eapply obeys_do; [simpl; by rewrite bool_decide_true|]. intros ? a' [= <-].
  destruct l; [done|]. by apply IH.
Qed.

Lemma say_obeys m :
  valid_time m → obeys speaker_may (λ _ a, a = SIdle) (say (speech m)) (SHave m).
Proof.
  intros Hm. pose proof (speech_nonempty m Hm). destruct (speech m) as [|c l] eqn:E; [done|].
  cbn [say]. eapply obeys_do; [cbn [speaker_may]; by rewrite E, bool_decide_true|].
  intros ? a' [= <-]. destruct l; [done|]. by apply say_rest_obeys.
Qed.

Lemma speech_loop_obeys : obeys speaker_may speaker_at speech_loop SIdle.
Proof.
  unfold speech_loop. eapply obeys_do; [reflexivity|]. intros [r m] a'. cbn [fst snd].
  case_bool_decide as H; [|done]. destruct H as [-> Hm]. intros [= <-].
  change (pdPASS =? 1) with true. cbv iota. apply obeys_bind.
  apply obeys_mono with (Q := λ _ a, a = SIdle); [by intros ? ? ->|].
  apply obeys_bind. unfold printf. eapply obeys_do; [reflexivity|]. intros ? a' [= <-].
  eapply obeys_mono; [|by apply puts_buf_obeys]. intros ? ? ->. by apply say_obeys.
Qed.

(** ** The invariant *)

Definition pressed (a : key_pc) : nat := match a with KPressed => 1 | KQuiet => 0 end.
Definition queries_left (a : net_pc) : nat := match a with NAsk n => n | _ => 0 end.
Definition asking (a : net_pc) : nat := match a with NAsk _ => 1 | _ => 0 end.
Definition holding (a : net_pc) : list time_msg := match a with NHave m => [m] | _ => [] end.

(** Every request key gives the semaphore or finds it given; what was given is
    taken or still there; and each request taken is worth three queries and
    one answer at most. *)
Definition requests_inv (ka : key_pc) (na : net_pc) (σ : shared) : Prop :=
  let b := book σ in
  l_presses b = (l_gives b + l_merged b + pressed ka)%nat ∧
  l_gives b = (l_takes b + length (time_request_sem σ))%nat ∧
  (length (time_request_sem σ) ≤ 1)%nat ∧
  (l_queries b + queries_left na ≤ 3 * l_takes b)%nat ∧
  (length (l_answers b) + asking na ≤ l_takes b)%nat.

(** The times the queue accepted. *)
Definition sent (b : ledger) : list time_msg :=
  omap (λ x : time_msg * bool, if x.2 then Some x.1 else None) (l_handed b).

(** Every answer is converted and handed over once, and what the queue accepts
    comes out of it in order. *)
Definition times_inv (na : net_pc) (σ : shared) : Prop :=
  let b := book σ in
  ntp_to_ist <$> l_answers b = (fst <$> l_handed b) ++ holding na ∧
  ∃ ms, time_queue σ = encode <$> ms ∧ (length ms ≤ 1)%nat ∧ sent b = l_received b ++ ms.

(** What the speaker task has sent. *)
Definition said (σ : shared) : list ascii :=
  snd <$> filter (λ x, x.1 = Speaker) (console σ).

(** [l] holds the announcements of [ms], in order and each of them whole, with
    other lines around them. *)
Inductive tells : list time_msg → list ascii → Prop :=
  | tells_nil j : tells [] j
  | tells_snoc ms l m j : tells ms l → tells (ms ++ [m]) (l ++ speech m ++ j).

Lemma tells_more ms l j : tells ms l → tells ms (l ++ j).
Proof.
  intros Ht. revert j. induction Ht as [j0|ms l m j0 Ht IH]; intros j; [constructor|].
  rewrite <-!app_assoc. by constructor.
Qed.

Lemma tells_one ms l m : tells ms l → tells (ms ++ [m]) (l ++ speech m).
Proof. intros Ht. rewrite <-(app_nil_r (speech m)). by constructor. Qed.

Definition speech_inv (sa : speaker_pc) (σ : shared) : Prop :=
  let r := l_received (book σ) in
  match sa with
  | SIdle => tells r (said σ)
  | SHave m | SEcho m _ => ∃ ms, r = ms ++ [m] ∧ tells ms (said σ)
  | SSay m rest => rest ≠ [] ∧
      ∃ ms l d, r = ms ++ [m] ∧ tells ms l ∧ said σ = l ++ d ∧ d ++ rest = speech m
  end.

Definition books_inv (ka : key_pc) (na : net_pc) (sa : speaker_pc) (σ : shared) : Prop :=
  requests_inv ka na σ ∧ times_inv na σ ∧ speech_inv sa σ.

Definition inv (s : sys) : Prop := ∃ ka na sa,
  obeys key_may key_at (key_p s) ka ∧ obeys net_may net_at (net_p s) na ∧
  obeys speaker_may speaker_at (speaker_p s) sa ∧ books_inv ka na sa (world_of s).

Lemma said_other σ who c :
  who ≠ Speaker → said (set_console (console σ ++ [(who, c)]) σ) = said σ.
Proof.
  intros Hw. unfold said. simpl. rewrite filter_app, filter_cons_False, filter_nil by done.
  by rewrite app_nil_r.
Qed.

Lemma said_speaker σ c :
  said (set_console (console σ ++ [(Speaker, c)]) σ) = said σ ++ [c].
Proof. unfold said. simpl. by rewrite filter_app, fmap_app. Qed.

Ltac books := unfold requests_inv; simpl in *; rewrite ?length_app; simpl; split_and!; lia.

(** An operation keeps the books, if its task may do it. *)
Lemma key_exec (R : Set) (o : op R) g e σ r σ' ka na sa :
  key_may R ka o = Some g → exec_op Key e o σ = Some (r, σ') → books_inv ka na sa σ →
  ∃ ka', g r = Some ka' ∧ books_inv ka' na sa σ'.
Proof.
  intros Hg He (HR & HT & HS). destruct o; simpl in Hg; simplify_eq.
  - (* OPutc *) injection He as <- <-. exists ka. split; [done|]. split; [done|]. split; [done|].
    unfold speech_inv. by rewrite !said_other.
  - (* OKeyFull *) injection He as <- <-. by exists ka.
  - (* OKeyData *) destruct ka; simplify_eq. simpl in He.
    destruct (typed σ) as [|c rest] eqn:Et; simplify_eq; [by exists KQuiet|].
    eexists. split; [done|]. destruct (is_request r); [|by split_and!].
    destruct HR as (H1 & H2 & H3 & H4 & H5). split; [books|by split].
  - (* OGive *) destruct ka; simplify_eq. exists KQuiet. split; [done|].
    destruct HR as (H1 & H2 & H3 & H4 & H5). unfold exec_op in He.
    destruct (time_request_sem σ) as [|x [|y l]] eqn:Es; simpl in H2, H3; [| |lia].
    + change (abs_call 1 0 _ []) with (RCode pdPASS, [@nil Z]) in He.
      change (pdPASS =? pdPASS) with true in He. injection He as <- <-.
      split; [books|by split].
    + change (abs_call 1 0 _ [x]) with (RCode errQUEUE_FULL, [x]) in He.
      change (errQUEUE_FULL =? pdPASS) with false in He. injection He as <- <-.
      split; [books|by split].
  - (* ODelay *) injection He as <- <-. by exists ka.
Qed.

Lemma net_exec (R : Set) (o : op R) g e σ r σ' ka na sa :
  net_may R na o = Some g → exec_op Net e o σ = Some (r, σ') → books_inv ka na sa σ →
  ∃ na', g r = Some na' ∧ books_inv ka na' sa σ'.
Proof.
  intros Hg He (HR & HT & HS). pose proof HR as (H1 & H2 & H3 & H4 & H5).
  pose proof HT as (HT1 & ms & HT2 & HT3 & HT4).
  destruct o; simpl in Hg; simplify_eq.
  - (* OPutc *) injection He as <- <-. exists na. split; [done|]. split; [done|]. split; [done|].
    unfold speech_inv. by rewrite !said_other.
  - (* OFormat *) destruct (formats fmt args); simplify_eq. unfold exec_op in He.
    destruct (vsnprintf 256 fmt args) as [[txt n]|]; [injection He as <- <-|done].
    by exists na.
  - (* ORead *) injection He as <- <-. by exists na.
  - (* OTake *) destruct na; simplify_eq. unfold exec_op in He. cbn [holding] in HT1.
    destruct (time_request_sem σ) as [|x [|y l]] eqn:Es; simpl in H2, H3; [| |lia].
    + cbn [abs_call] in He. change (errQUEUE_EMPTY =? pdPASS) with false in He.
      destruct (e_expired e); [injection He as <- <-|done]. exists NOver. split; [done|].
      split; [|split; [|done]].
      * unfold requests_inv. rewrite Es. books.
      * split; [by rewrite HT1|by exists ms].
    + cbn [abs_call] in He. change (pdPASS =? pdPASS) with true in He. injection He as <- <-.
      exists (NAsk 3). split; [done|]. split; [|split; [|done]].
      * books.
      * split; [by simpl; rewrite HT1|by exists ms].
  - (* OSend *) destruct na as [| |m|]; simplify_eq. case_bool_decide; simplify_eq.
    exists NOver. split; [done|].
    unfold exec_op in He. destruct ms as [|m1 [|]]; simpl in HT3; [| |lia]; rewrite HT2 in He.
    + change (abs_call 1 sizeof_time_msg (CSend (Some (encode m)) queueSEND_TO_BACK) _)
        with (RCode pdPASS, [encode m]) in He. change (pdPASS =? pdPASS) with true in He.
      injection He as <- <-. split; [books|split; [|done]]. split.
      * simpl. rewrite fmap_app, HT1. simpl. by rewrite app_nil_r.
      * exists [m]. unfold sent in *. simpl. rewrite omap_app, HT4, app_nil_r. split_and!; [done|simpl; lia|done].
    + change (abs_call 1 sizeof_time_msg (CSend (Some (encode m)) queueSEND_TO_BACK) _)
        with (RCode errQUEUE_FULL, [encode m1]) in He.
      change (errQUEUE_FULL =? pdPASS) with false in He.
      destruct (e_expired e); [injection He as <- <-|done]. split; [books|split; [|done]]. split.
      * simpl. rewrite fmap_app, HT1. simpl. by rewrite app_nil_r.
      * exists [m1]. unfold sent in *. simpl. rewrite omap_app, HT4. simpl. by rewrite app_nil_r.
  - (* ODelay *) injection He as <- <-. by exists na.
  - (* ONtp *) destruct na as [|[|n]| |]; simplify_eq. injection He as <- <-.
    destruct (e_answer e) as [ts|]; simpl.
    + exists (NHave (ntp_to_ist ts)). split; [done|]. split; [|split; [|done]].
      * books.
      * split; [|by exists ms]. simpl. rewrite fmap_app, HT1. simpl. by rewrite app_nil_r.
    + exists (NAsk n). split; [done|]. split; [|split; [|done]].
      * books.
      * split; [|by exists ms]. simpl. by rewrite app_nil_r, HT1.
  - (* ONetInit *) injection He as <- <-. by exists na.
  - (* ONetUp *) injection He as <- <-. by exists na.
  - (* OPoll *) injection He as <- <-. by exists na.
Qed.

Lemma decode_encode m : decode (encode m) = m.
Proof. by destruct m. Qed.

Lemma sent_handed b m : m ∈ sent b → m ∈ fst <$> l_handed b.
Proof.
  unfold sent. intros ([x ok] & Hx & E)%list_elem_of_omap. simpl in E. destruct ok; simplify_eq.
  apply list_elem_of_fmap. by exists (m, true).
Qed.

(** Every time handed over is a valid one, made from an answer. *)
Lemma handed_from_answer na σ m :
  times_inv na σ → m ∈ fst <$> l_handed (book σ) →
  ∃ ts, ts ∈ l_answers (book σ) ∧ m = ntp_to_ist ts.
Proof.
  intros [HT _] Hm. assert (Hin : m ∈ ntp_to_ist <$> l_answers (book σ)).
  { rewrite HT. apply elem_of_app. by left. }
  apply list_elem_of_fmap in Hin as (ts & ? & ?). by exists ts.
Qed.

Lemma handed_valid na σ m :
  times_inv na σ → m ∈ fst <$> l_handed (book σ) → valid_time m.
Proof. intros HT Hm. destruct (handed_from_answer na σ m HT Hm) as (ts & _ & ->).
  apply ntp_to_ist_valid.
Qed.

Lemma speaker_putc c σ r sa g :
  speaker_may unit sa (OPutc c) = Some g → speech_inv sa σ →
  ∃ sa', g r = Some sa' ∧ speech_inv sa' (set_console (console σ ++ [(Speaker, c)]) σ).
Proof.
  intros Hg HS. assert (Hsay : ∀ m d l ms l0, l_received (book σ) = ms ++ [m] → tells ms l0 →
    said σ ++ [c] = l0 ++ d → d ++ l = speech m →
    speech_inv (saying m l) (set_console (console σ ++ [(Speaker, c)]) σ)).
  { intros m d l ms l0 Hr Ht Hs Hd. destruct l as [|c' l]; simpl.
    - rewrite said_speaker, Hr, Hs. rewrite app_nil_r in Hd. rewrite Hd. by apply tells_one.
    - split; [done|]. exists ms, l0, d. by rewrite said_speaker. }
  destruct sa as [|m|m d|m rest]; simpl in Hg, HS.
  - simplify_eq. exists SIdle. split; [done|]. simpl. rewrite said_speaker. by apply tells_more.
  - destruct HS as (ms & Hr & Ht). destruct (speech m) as [|d l] eqn:Em; [done|].
    case_bool_decide; simplify_eq. eexists. split; [done|].
    by apply (Hsay m [d] l ms (said σ)).
  - case_bool_decide; simplify_eq. exists (SHave m). split; [done|].
    destruct HS as (ms & Hr & Ht). exists ms. split; [done|].
    rewrite said_speaker. by apply tells_more.
  - destruct HS as (Hne & ms & l & d & Hr & Ht & Hs & Hd). destruct rest as [|c' rest]; [done|].
    case_bool_decide; simplify_eq. eexists. split; [done|].
    apply (Hsay m (d ++ [c']) rest ms l); [done|done| |].
    + by rewrite Hs, app_assoc.
    + by rewrite <-app_assoc.
Qed.

Lemma speaker_exec (R : Set) (o : op R) g e σ r σ' ka na sa :
  speaker_may R sa o = Some g → exec_op Speaker e o σ = Some (r, σ') → books_inv ka na sa σ →
  ∃ sa', g r = Some sa' ∧ books_inv ka na sa' σ'.
Proof.
  intros Hg He (HR & HT & HS). pose proof HT as (HT1 & ms & HT2 & HT3 & HT4).
  destruct o; try (simpl in Hg; discriminate Hg).
  - (* OPutc *) injection He as <- <-.
    destruct (speaker_putc c σ tt sa g Hg HS) as (sa' & ? & ?). by exists sa'.
  - (* OFormat *) unfold exec_op in He.
    destruct (vsnprintf 256 fmt args) as [[txt n]|]; [injection He as <- <-|done].
    simpl in Hg. destruct sa; simplify_eq. destruct (formats fmt args); simplify_eq. by eexists.
  - (* ORead *) injection He as <- <-. simpl in Hg. destruct sa; simplify_eq. eexists. split; [done|].
    by case_bool_decide.
  - (* OReceive *) simpl in Hg. destruct sa; simplify_eq. unfold exec_op in He. rewrite HT2 in He.
    destruct ms as [|m [|]]; simpl in HT3; [done| |lia].
    change (abs_call 1 sizeof_time_msg CReceive (encode <$> [m]))
      with (RItem pdPASS (Some (encode m)), @nil (list Z)) in He.
    cbv beta iota in He. rewrite decode_encode in He. injection He as <- <-. cbn [fst snd].
    assert (Hv : valid_time m).
    { apply (handed_valid na σ m HT), sent_handed. rewrite HT4. apply elem_of_app. right.
      by left. }
    rewrite bool_decide_true by done. exists (SHave m). split; [done|].
    split; [done|]. split.
    + split; [done|]. exists []. split_and!; [done|simpl; lia|]. by rewrite app_nil_r.
    + exists (l_received (book σ)). done.
Qed.

(** Between turns the network task is idle. *)
Lemma net_turn_over ka na sa σ :
  na = NIdle ∨ na = NAsk 0 ∨ na = NOver → books_inv ka na sa σ → books_inv ka NIdle sa σ.
Proof.
  intros Hna ((H1 & H2 & H3 & H4 & H5) & (HT1 & HT2) & HS). split; [|split; [|done]].
  - split_and!; try done; destruct Hna as [->|[->| ->]]; simpl in *; lia.
  - split; [|done]. destruct Hna as [->|[->| ->]]; done.
Qed.

(** Every step keeps the invariant. *)
Lemma task_step_inv who e s s' : inv s → task_step who e s = Some s' → inv s'.
Proof.
  intros (ka & na & sa & Hk & Hn & Hs & HB) Hst. unfold task_step in Hst.
  destruct who; cbn [prog_of with_prog] in Hst.
  - destruct (key_p s) as [l|R o k]; simpl in Hk.
    + injection Hst as <-. destruct Hk as [-> ->]. exists KQuiet, na, sa.
      split; [apply key_loop_obeys|done].
    + apply bind_Some in Hst as ([r σ] & He & [= <-]).
      destruct (key_may R ka o) as [g|] eqn:Hg; [|done].
      destruct (key_exec R o g e _ r σ ka na sa Hg He HB) as (ka' & Hr & HB').
      exists ka', na, sa. specialize (Hk r). rewrite Hr in Hk. done.
  - destruct (net_p s) as [l|R o k]; simpl in Hn.
    + injection Hst as <-. destruct Hn as [[msg Hl] Ha]. exists ka, NIdle, sa.
      split; [done|]. split; [|split; [done|by apply (net_turn_over _ na)]].
      destruct Hl as [-> | ->]; [apply ntp_wait_obeys|apply ntp_loop_obeys].
    + apply bind_Some in Hst as ([r σ] & He & [= <-]).
      destruct (net_may R na o) as [g|] eqn:Hg; [|done].
      destruct (net_exec R o g e _ r σ ka na sa Hg He HB) as (na' & Hr & HB').
      exists ka, na', sa. specialize (Hn r). rewrite Hr in Hn. done.
  - destruct (speaker_p s) as [l|R o k]; simpl in Hs.
    + injection Hst as <-. destruct Hs as [-> ->]. exists ka, na, SIdle.
      split; [done|]. split; [done|]. split; [apply speech_loop_obeys|done].
    + apply bind_Some in Hst as ([r σ] & He & [= <-]).
      destruct (speaker_may R sa o) as [g|] eqn:Hg; [|done].
      destruct (speaker_exec R o g e _ r σ ka na sa Hg He HB) as (sa' & Hr & HB').
      exists ka, na, sa'. specialize (Hs r). rewrite Hr in Hs. done.
Qed.

Lemma reachable_inv s : reachable s → inv s.
Proof.
  induction 1 as [msg|m s s' _ IH Hm].
  - exists KQuiet, NIdle, SIdle. split; [apply key_task_obeys|].
    split; [apply ntp_task_obeys|]. split; [apply speech_task_obeys|].
    split; [|split]; [books| |constructor]. split; [done|]. exists [].
    split_and!; [done|simpl; lia|done].
  - destruct m as [who e|c]; [by eapply task_step_inv|].
    injection Hm as <-. destruct IH as (ka & na & sa & Hk & Hn & Hs & HB). by exists ka, na, sa.
Qed.

(** ** Theorems *)

(** C1: every request key is accounted for, under every schedule: it gives the
    semaphore or merges with a request that is still pending; a request given
    is taken or still pending; and a request taken leads to three queries and
    to one time at most. *)
Theorem requests_accounted s :
  reachable s →
  let b := book (world_of s) in
  (l_gives b + l_merged b ≤ l_presses b ≤ l_gives b + l_merged b + 1)%nat ∧
  l_gives b = (l_takes b + length (time_request_sem (world_of s)))%nat ∧
  (length (time_request_sem (world_of s)) ≤ 1)%nat ∧
  (l_queries b ≤ 3 * l_takes b)%nat ∧ (length (l_answers b) ≤ l_takes b)%nat.
Proof.
  intros (ka & na & sa & _ & _ & _ & (H1 & H2 & H3 & H4 & H5) & _)%reachable_inv.
  simpl. destruct ka; simpl in H1; split_and!; lia.
Qed.

(** C2: the times that reach the speaker are, in order and without one made up
    or repeated, those converted from the answers, except those the full queue
    refused; all of them are valid times of day, and there are no more of them
    than request keys. *)
Theorem times_flow s :
  reachable s →
  let b := book (world_of s) in
  ∃ waiting held,
    time_queue (world_of s) = encode <$> waiting ∧ (length waiting ≤ 1)%nat ∧
    sent b = l_received b ++ waiting ∧
    ntp_to_ist <$> l_answers b = (fst <$> l_handed b) ++ held ∧ (length held ≤ 1)%nat ∧
    Forall valid_time (l_received b) ∧ (length (l_received b) ≤ l_presses b)%nat.
Proof.
  intros (ka & na & sa & _ & _ & _ & HR & HT & _)%reachable_inv.
  pose proof HT as (HT1 & ms & HT2 & HT3 & HT4). pose proof HR as (H1 & H2 & H3 & H4 & H5).
  exists ms, (holding na). split_and!; try done.
  - destruct na; simpl; lia.
  - apply Forall_forall. intros m Hm. apply (handed_valid na _ m HT), sent_handed.
    rewrite HT4. apply elem_of_app. by left.
  - apply (f_equal length) in HT1, HT4. rewrite length_app, !length_fmap in HT1.
    rewrite length_app in HT4.
    assert (length (sent (book (world_of s))) ≤ length (l_handed (book (world_of s))))%nat.
    { unfold sent. generalize (l_handed (book (world_of s))). clear. intros l.
      induction l as [|[m []] l IH]; csimpl; lia. }
    lia.
Qed.

(** C3: what the speaker task sends holds the announcements of the times it has
    received, each of them whole and in order; it is at most in the middle of
    the last one. *)
Theorem speaker_says s :
  reachable s →
  ∃ ms rest l d,
    l_received (book (world_of s)) = ms ++ rest ∧ (length rest ≤ 1)%nat ∧
    said (world_of s) = l ++ d ∧ tells ms l ∧ d `prefix_of` concat (speech <$> rest).
Proof.
  intros (ka & na & sa & _ & _ & _ & _ & _ & HS)%reachable_inv.
  destruct sa as [|m|m c|m rest]; simpl in HS.
  - eexists _, [], _, []. rewrite !app_nil_r. split_and!; [done|simpl; lia|done|done|apply prefix_nil].
  - destruct HS as (ms & -> & Ht). exists ms, [m], (said (world_of s)), [].
    rewrite app_nil_r. split_and!; [done|simpl; lia|done|done|apply prefix_nil].
  - destruct HS as (ms & -> & Ht). exists ms, [m], (said (world_of s)), [].
    rewrite app_nil_r. split_and!; [done|simpl; lia|done|done|apply prefix_nil].
  - destruct HS as (_ & ms & l & d & -> & Ht & Hs & Hd). exists ms, [m], l, d.
    split_and!; [done|simpl; lia|done|done|]. simpl. rewrite app_nil_r, <-Hd. by apply prefix_app_r.
Qed.
