(* ===== verification/SystemLive.v ===== *)
(** What the application can always still do, and runs of the whole of it. *)
From Stdlib Require Import Ascii.
From stdpp Require Import base tactics numbers list strings.
From S2P Require Import Prelude Words Printf Console Speech Bridge Announce Sched Queue QueueRefine Ntp Tasks System SystemThm.

(** * Serving a request

    What the application can always still do: whatever state it has reached, a
    request that is pending can be served by the network and the speaker tasks
    alone, without the key task and without further input. *)

(** ** Running one task *)

Section service.
Context (ts : Z).

(** Waits run out, the server answers [ts], and the DHCP server answers. *)
Definition obliging : env := Env true (Some ts) true.

Definition by_task (who : task_id) (ms : list move) : Prop :=
  Forall (λ m, m = MTask who obliging) ms.

(** The other tasks stay where they are. *)
Definition alone (who : task_id) (s s' : sys) : Prop :=
  ∀ w, w ≠ who → prog_of w s' = prog_of w s.

(** [who] leads from [s] to [s'] by itself. *)
Definition leads (who : task_id) (s s' : sys) : Prop :=
  (∃ ms, by_task who ms ∧ run ms s = Some s') ∧ alone who s s'.

Lemma leads_refl who s : leads who s s.
Proof. split; [|done]. exists []. by split; [constructor|]. Qed.

Lemma run_app ms1 ms2 s : run (ms1 ++ ms2) s = run ms1 s ≫= run ms2.
Proof. revert s. induction ms1 as [|m l IH]; intros s; [done|]. simpl. by destruct (move_step m s); simpl. Qed.

Lemma leads_trans who s1 s2 s3 : leads who s1 s2 → leads who s2 s3 → leads who s1 s3.
Proof.
  intros [(m1 & B1 & R1) A1] [(m2 & B2 & R2) A2]. split.
  - exists (m1 ++ m2). split; [by apply Forall_app|]. by rewrite run_app, R1.
  - intros w Hw. by rewrite A2, A1.
Qed.

Lemma prog_of_with who σ p s : prog_of who (with_prog who σ p s) = p.
Proof. by destruct who. Qed.
Lemma world_of_with who σ p s : world_of (with_prog who σ p s) = σ.
Proof. by destruct who. Qed.

Lemma leads_step who s s' : task_step who obliging s = Some s' → leads who s s'.
Proof.
  intros Hs. split.
  - exists [MTask who obliging]. split; [by repeat constructor|]. simpl. by rewrite Hs.
  - intros w Hw. unfold task_step in Hs.
    destruct (prog_of who s) as [l|R o k]; [simplify_eq; by destruct who, w|].
    destruct (exec_op who obliging o (world_of s)) as [[r σ]|]; simpl in Hs; simplify_eq.
    by destruct who, w.
Qed.

Lemma leads_op who s (R : Set) (o : op R) k r σ :
  prog_of who s = Step o k → exec_op who obliging o (world_of s) = Some (r, σ) →
  leads who s (with_prog who σ (k r) s).
Proof. intros Hp He. apply leads_step. unfold task_step. by rewrite Hp, He. Qed.

Lemma leads_turn who s l :
  prog_of who s = Done l → leads who s (with_prog who (world_of s) (turn l) s).
Proof. intros Hp. apply leads_step. unfold task_step. by rewrite Hp. Qed.

Lemma leads_speaker_net s s' : leads Speaker s s' → net_p s' = net_p s.
Proof. intros [_ HA]. by apply (HA Net). Qed.
Lemma leads_net_speaker s s' : leads Net s s' → speaker_p s' = speaker_p s.
Proof. intros [_ HA]. by apply (HA Speaker). Qed.

(** A task that follows a protocol runs to the end of its turn, when [J] holds
    all along and lets every allowed operation go on, unless it is [stuck]. *)
Section to_end.
Context {P : Type} (may : ∀ R : Set, P → op R → option (R → option P)) (who : task_id).
Context (J : P → shared → Prop) (stuck : P → shared → Prop).
Context (progress : ∀ (R : Set) a (o : op R) g σ,
  may R a o = Some g → J a σ →
  stuck a σ ∨ ∃ r σ' a', exec_op who obliging o σ = Some (r, σ') ∧ g r = Some a' ∧ J a' σ').

Lemma leads_to_end Q s a :
  obeys may Q (prog_of who s) a → J a (world_of s) →
  ∃ s' a', leads who s s' ∧ J a' (world_of s') ∧ obeys may Q (prog_of who s') a' ∧
    (stuck a' (world_of s') ∨ ∃ l, prog_of who s' = Done l).
Proof.
  remember (prog_of who s) as p eqn:Hp. revert s a Hp.
  induction p as [l|R o k IH]; intros s a Hp Ho HJ.
  - exists s, a. rewrite <-Hp. split; [apply leads_refl|]. eauto.
  - pose proof Ho as Ho'. simpl in Ho'. destruct (may R a o) as [g|] eqn:Hg; [|done].
    destruct (progress R a o g (world_of s) Hg HJ) as [Hst|(r & σ' & a' & He & Ha & HJ')].
    { exists s, a. rewrite <-Hp. split; [apply leads_refl|]. eauto. }
    specialize (Ho' r). rewrite Ha in Ho'.
    destruct (IH r (with_prog who σ' (k r) s) a') as (s' & a2 & Hl & H);
      [by rewrite prog_of_with|done|by rewrite world_of_with|].
    exists s', a2. split; [|done]. eapply leads_trans; [|exact Hl]. by eapply leads_op.
Qed.
End to_end.

(** ** The speaker empties the queue *)

Section speaker.
Context (ka : key_pc) (na : net_pc) (sem0 : list (list Z)) (h0 : list (time_msg * bool)).

(** It leaves the semaphore and what was handed over alone. *)
Definition speaking (emptied : bool) (a : speaker_pc) (σ : shared) : Prop :=
  books_inv ka na a σ ∧ time_request_sem σ = sem0 ∧ l_handed (book σ) = h0 ∧
  (emptied = true → time_queue σ = []).

(** It waits for a time. *)
Definition waiting (a : speaker_pc) (σ : shared) : Prop := a = SIdle ∧ time_queue σ = [].

Lemma receive_some tk σ m :
  time_queue σ = [encode m] →
  exec_op Speaker obliging (OReceive tk) σ =
    Some ((pdPASS, m), set_queue [] (book_received m (book σ)) σ).
Proof. intros Hq. unfold exec_op. rewrite Hq. by destruct m. Qed.

Lemma speaking_progress emptied (R : Set) a (o : op R) g σ :
  speaker_may R a o = Some g → speaking emptied a σ →
  waiting a σ ∨ ∃ r σ' a', exec_op Speaker obliging o σ = Some (r, σ') ∧ g r = Some a' ∧
    speaking emptied a' σ'.
Proof.
  intros Hg (HB & Hsem & Hh & Hq). pose proof HB as (HR & (HT1 & ms & HT2 & HT3 & HT4) & HS).
  assert (Hgo : ∀ r σ', exec_op Speaker obliging o σ = Some (r, σ') →
    time_request_sem σ' = sem0 → l_handed (book σ') = h0 →
    (emptied = true → time_queue σ' = []) →
    ∃ r σ' a', exec_op Speaker obliging o σ = Some (r, σ') ∧ g r = Some a' ∧
      speaking emptied a' σ').
  { intros r σ' He ? ? ?. destruct (speaker_exec R o g _ _ _ _ _ _ _ Hg He HB) as (a' & ? & ?).
    by exists r, σ', a'. }
  destruct o; simpl in Hg; try done.
  - right. by eapply Hgo.
  - right. destruct a as [|m| |]; try done. destruct (formats fmt args) eqn:Ef; [|done].
    unfold formats in Ef. destruct (vformat FText fmt args) eqn:Ev; [|done].
    eapply Hgo; [simpl; unfold vsnprintf; by rewrite Ev|done..].
  - right. by eapply Hgo.
  - destruct a; try done. destruct ms as [|m [|]]; simpl in HT3; [by left|right|lia].
    by eapply Hgo; [by apply (receive_some _ _ m)|..].
Qed.

(** The speaker has nothing left to do: it has received all that was sent. *)
Definition drained (s : sys) : Prop :=
  obeys speaker_may speaker_at (speaker_p s) SIdle ∧
  books_inv ka na SIdle (world_of s) ∧ time_request_sem (world_of s) = sem0 ∧
  l_handed (book (world_of s)) = h0 ∧ time_queue (world_of s) = [].

Lemma speaking_run emptied s a :
  obeys speaker_may speaker_at (speaker_p s) a → speaking emptied a (world_of s) →
  ∃ s', leads Speaker s s' ∧
    (drained s' ∨ speaker_p s' = Done SpeechLoop ∧ speaking emptied SIdle (world_of s')).
Proof.
  intros Ho HJ.
  destruct (leads_to_end speaker_may Speaker (speaking emptied) waiting
    (speaking_progress emptied) speaker_at s a Ho HJ) as (s' & a' & Hl & HJ' & Ho' & Hend).
  exists s'. split; [done|]. simpl in Ho', Hend. destruct Hend as [[-> Hw]|[l Hl']].
  - left. by destruct HJ' as (? & ? & ? & ?).
  - right. rewrite Hl' in Ho'. destruct Ho' as [-> ->]. by split.
Qed.

Lemma speaker_drains s a :
  obeys speaker_may speaker_at (speaker_p s) a → speaking false a (world_of s) →
  ∃ s', leads Speaker s s' ∧ drained s'.
Proof.
  intros Ho HJ. destruct (speaking_run false s a Ho HJ) as (s1 & L1 & [Hd|[Hp HJ1]]); [by exists s1|].
  pose proof HJ1 as (HB & Hsem & Hh & _). pose proof HB as (HR & (HT1 & ms & HT2 & HT3 & HT4) & HS).
  destruct ms as [|m [|]]; simpl in HT3; [| |lia].
  { exists s1. split; [done|]. split; [by rewrite Hp|done]. }
  pose proof speech_loop_obeys as Ho2.
  assert (∃ k, turn SpeechLoop = Step (OReceive queue_MAX_DELAY) k) as [k Hk] by by eexists.
  change speech_loop with (turn SpeechLoop) in Ho2. rewrite Hk in Ho2.
  pose proof (leads_turn Speaker s1 _ Hp) as L2. rewrite Hk in L2.
  match type of L2 with leads _ _ ?x => set (s2 := x) in L2 end.
  pose proof (receive_some queue_MAX_DELAY _ m HT2) as He.
  destruct (speaker_exec _ (OReceive queue_MAX_DELAY) _ _ _ _ _ _ _ SIdle eq_refl He HB) as (a' & Ha & HB').
  pose proof (leads_op Speaker s2 _ _ k _ _ eq_refl He) as L3.
  match type of L3 with leads _ _ ?x => set (s3 := x) in L3 end.
  pose proof (Ho2 (pdPASS, m)) as Ho3. cbn [fst snd] in Ha, Ho3. rewrite Ha in Ho3.
  destruct (speaking_run true s3 a') as (s4 & L4 & Hend); [exact Ho3|by split|].
  exists s4. split.
  - eapply leads_trans; [exact L1|]. eapply leads_trans; [|exact L4].
    by eapply leads_trans.
  - destruct Hend as [?|[Hp4 (? & ? & ? & Hq4)]]; [done|].
    split; [by rewrite Hp4|]. by rewrite Hq4.
Qed.
End speaker.

(** ** The network task takes the request *)

(** What one operation of the network task changes. *)
Inductive moved (σ σ' : shared) : net_pc → net_pc → Prop :=
  | moved_not a :
      time_request_sem σ' = time_request_sem σ → time_queue σ' = time_queue σ → moved σ σ' a a
  | moved_take :
      time_request_sem σ ≠ [] → time_request_sem σ' = [] → time_queue σ' = time_queue σ →
      moved σ σ' NIdle (NAsk 3)
  | moved_pass : time_request_sem σ = [] → moved σ σ' NIdle NOver
  | moved_query n :
      time_request_sem σ' = time_request_sem σ → time_queue σ' = time_queue σ →
      moved σ σ' (NAsk (S n)) (NHave (ntp_to_ist ts))
  | moved_send m :
      time_request_sem σ' = time_request_sem σ →
      (time_queue σ = [] → time_queue σ' = [encode m]) → moved σ σ' (NHave m) NOver.

Lemma send_some tk σ m :
  (length (time_queue σ) ≤ 1)%nat →
  ∃ r σ', exec_op Net obliging (OSend m tk) σ = Some (r, σ') ∧
    time_request_sem σ' = time_request_sem σ ∧ (time_queue σ = [] → time_queue σ' = [encode m]).
Proof.
  intros Hq. unfold exec_op. destruct (time_queue σ) as [|x [|]] eqn:E; simpl in Hq; [| |lia].
  - by eexists _, _.
  - eexists _, (set_book _ σ). split; [reflexivity|]. done.
Qed.

Lemma take_some tk σ :
  (length (time_request_sem σ) ≤ 1)%nat →
  ∃ r σ', exec_op Net obliging (OTake tk) σ = Some (r, σ') ∧
    time_queue σ' = time_queue σ ∧
    (r = errQUEUE_EMPTY ∧ time_request_sem σ = [] ∨
     r = pdPASS ∧ time_request_sem σ ≠ [] ∧ time_request_sem σ' = []).
Proof.
  intros Hq. unfold exec_op. destruct (time_request_sem σ) as [|x [|]] eqn:E; simpl in Hq; [| |lia].
  - eexists _, σ. split; [reflexivity|]. split; [done|]. by left.
  - eexists _, _. split; [reflexivity|]. split; [done|]. by right.
Qed.

Lemma net_goes (R : Set) a (o : op R) g ka sa σ :
  net_may R a o = Some g → books_inv ka a sa σ →
  ∃ r σ' a', exec_op Net obliging o σ = Some (r, σ') ∧ g r = Some a' ∧
    books_inv ka a' sa σ' ∧ moved σ σ' a a'.
Proof.
  intros Hg HB. pose proof HB as ((_ & _ & Hs & _) & (_ & ms & HT2 & HT3 & _) & _).
  assert (Hgo : ∀ r σ' a', exec_op Net obliging o σ = Some (r, σ') → g r = Some a' →
    moved σ σ' a a' →
    ∃ r σ' a', exec_op Net obliging o σ = Some (r, σ') ∧ g r = Some a' ∧
      books_inv ka a' sa σ' ∧ moved σ σ' a a').
  { intros r σ' a' He Ha ?.
    destruct (net_exec R o g _ _ _ _ _ _ _ Hg He HB) as (? & ? & ?). simplify_eq. by eexists _, _, _. }
  destruct o; simpl in Hg; try discriminate Hg.
  - simplify_eq. by eapply Hgo; [..|constructor].
  - destruct (formats fmt args) eqn:Ef; simplify_eq. unfold formats in Ef.
    destruct (vformat FText fmt args) eqn:Ev; [|done].
    by eapply Hgo; [simpl; unfold vsnprintf; by rewrite Ev|..|constructor].
  - simplify_eq. by eapply Hgo; [..|constructor].
  - destruct a; simplify_eq.
    destruct (take_some ticks σ Hs) as (r & σ' & He & ? & [(-> & ?)|(-> & ? & ?)]).
    + by eapply Hgo; [exact He|..|constructor].
    + by eapply Hgo; [exact He|..|constructor].
  - destruct a as [| |m|]; simplify_eq. case_bool_decide; simplify_eq.
    destruct (send_some ticks σ m) as (r & σ' & He & ? & ?); [by rewrite HT2, length_fmap|].
    by eapply Hgo; [exact He|..|constructor].
  - simplify_eq. by eapply Hgo; [..|constructor].
  - destruct a as [|[|n]| |]; simplify_eq. by eapply Hgo; [..|constructor].
  - simplify_eq. by eapply Hgo; [..|constructor].
  - simplify_eq. by eapply Hgo; [..|constructor].
  - simplify_eq. by eapply Hgo; [..|constructor].
Qed.

Section net.
Context (ka : key_pc) (sa : speaker_pc).

(** The request is still there. *)
Definition pending (a : net_pc) (σ : shared) : Prop := a ≠ NIdle ∧ time_request_sem σ ≠ [].

(** The request is on its way to an empty queue, or already in it. *)
Definition serving (a : net_pc) (σ : shared) : Prop :=
  match a with
  | NIdle => time_request_sem σ ≠ [] ∧ time_queue σ = []
  | NAsk n => n ≠ O ∧ time_queue σ = []
  | NHave m => m = ntp_to_ist ts ∧ time_queue σ = []
  | NOver => time_queue σ = [encode (ntp_to_ist ts)]
  end.

Lemma moved_pending σ σ' a a' : moved σ σ' a a' → pending a σ → pending a' σ'.
Proof. intros Hm [Ha Hs]. destruct Hm; try done; split; try done; congruence. Qed.

Lemma moved_serving σ σ' a a' : moved σ σ' a a' → serving a σ → serving a' σ'.
Proof.
  intros Hm Hs. destruct Hm as [a E1 E2|E0 E1 E2|E0|n E1 E2|m E1 E2]; simpl in *.
  - by destruct a; simpl in *; rewrite ?E1, E2.
  - destruct Hs. by rewrite E2.
  - by destruct Hs.
  - destruct Hs. by rewrite E2.
  - destruct Hs as [-> ?]. auto.
Qed.

(** A run of the network task, and what holds along it. *)
Definition netting (K : net_pc → shared → Prop) (a : net_pc) (σ : shared) : Prop :=
  books_inv ka a sa σ ∧ K a σ.

Lemma net_run K Q s a :
  (∀ σ σ' a a', moved σ σ' a a' → K a σ → K a' σ') →
  obeys net_may Q (net_p s) a → netting K a (world_of s) →
  ∃ s' a' l, leads Net s s' ∧ netting K a' (world_of s') ∧ net_p s' = Done l ∧ Q l a'.
Proof.
  intros HK Ho HJ. destruct (leads_to_end net_may Net (netting K) (λ _ _, False)) with
    (Q := Q) (s := s) (a := a) as (s' & a' & Hl & HJ' & Ho' & [[]|[l Hl']]); [|done..|].
  - intros R b o g σ Hg (HB & Hk). right.
    destruct (net_goes R b o g ka sa σ Hg HB) as (r & σ' & b' & ? & ? & ? & ?).
    exists r, σ', b'. unfold netting. eauto.
  - simpl in Ho', Hl'. rewrite Hl' in Ho'. by exists s', a', l.
Qed.

(** With an address, the wait for the network ends. *)
Lemma wait_over_up s msg :
  net_p s = Done (NtpWait msg) → dhcp_done (world_of s) = true →
  netting serving NIdle (world_of s) →
  ∃ s', leads Net s s' ∧ netting serving NIdle (world_of s') ∧ net_p s' = Done (NtpLoop msg).
Proof.
  intros Hp Hd HJ. pose proof (leads_turn Net s _ Hp) as L1.
  pose proof (leads_op Net (with_prog Net (world_of s) (turn (NtpWait msg)) s) _ ONetUp _ true
    (world_of s) eq_refl ltac:(simpl; by rewrite Hd)) as L2.
  match type of L2 with leads _ _ ?x => set (s2 := x) in L2 end.
  destruct (net_run serving (λ l a, l = NtpLoop msg ∧ a = NIdle) s2 NIdle moved_serving)
    as (s' & a' & l & L3 & HJ' & Hl & -> & ->); [apply ntp_wait_up_obeys|done|].
  exists s'. split; [|done]. eapply leads_trans; [exact L1|]. by eapply leads_trans.
Qed.

Lemma wait_over s msg :
  net_p s = Done (NtpWait msg) → netting serving NIdle (world_of s) →
  ∃ s', leads Net s s' ∧ netting serving NIdle (world_of s') ∧ net_p s' = Done (NtpLoop msg).
Proof.
  intros Hp HJ. destruct (dhcp_done (world_of s)) eqn:Hd; [by apply wait_over_up|].
  set (σ1 := set_dhcp true (world_of s)).
  set (s1 := with_prog Net σ1 (Done (NtpWait msg)) s).
  assert (leads Net s s1) as L1.
  { eapply leads_trans; [by apply (leads_turn Net s (NtpWait msg))|]. cbn [turn].
    eapply leads_trans; [eapply (leads_op Net _ _ ONetUp _ false); [reflexivity|simpl; by rewrite Hd]|].
    eapply leads_trans; [by eapply (leads_op Net _ _ OPoll)|].
    eapply leads_trans; [by eapply (leads_op Net _ _ (ODelay _))|].
    simpl. rewrite Hd. apply leads_refl. }
  destruct (wait_over_up s1 msg) as (s' & L2 & H); [done..|].
  exists s'. split; [by eapply leads_trans|done].
Qed.

(** A turn serves the request. *)
Lemma serve_turn s msg :
  net_p s = Done (NtpLoop msg) → netting serving NIdle (world_of s) →
  ∃ s' l, leads Net s s' ∧ netting serving NOver (world_of s') ∧ net_p s' = Done l.
Proof.
  intros Hp HJ. pose proof (leads_turn Net s _ Hp) as L1.
  match type of L1 with leads _ _ ?x => set (s1 := x) in L1 end.
  destruct (net_run serving _ s1 NIdle moved_serving (ntp_loop_over msg) HJ)
    as (s' & a' & l & L2 & HJ' & Hl & _ & [-> | ->]).
  - by destruct HJ' as (_ & ? & _).
  - exists s', l. split; [by eapply leads_trans|done].
Qed.
End net.

(** ** The request is served *)

(** A run of the network and the speaker tasks. *)
Definition by_both (ms : list move) : Prop :=
  Forall (λ m, m = MTask Net obliging ∨ m = MTask Speaker obliging) ms.

Definition helps (s s' : sys) : Prop := ∃ ms, by_both ms ∧ run ms s = Some s'.

Lemma helps_trans s1 s2 s3 : helps s1 s2 → helps s2 s3 → helps s1 s3.
Proof.
  intros (m1 & B1 & R1) (m2 & B2 & R2). exists (m1 ++ m2). split; [by apply Forall_app|].
  by rewrite run_app, R1.
Qed.

Lemma leads_net s s' : leads Net s s' → helps s s'.
Proof. intros [(ms & B & R) _]. exists ms. split; [|done]. eapply Forall_impl; [exact B|]. auto. Qed.

Lemma leads_speaker s s' : leads Speaker s s' → helps s s'.
Proof. intros [(ms & B & R) _]. exists ms. split; [|done]. eapply Forall_impl; [exact B|]. auto. Qed.

(** What the speaker has received is never taken back. *)
Lemma received_grows_op who (R : Set) (o : op R) e σ r σ' :
  exec_op who e o σ = Some (r, σ') → l_received (book σ) `prefix_of` l_received (book σ').
Proof.
  intros He. destruct o; unfold exec_op in He; try by injection He as <- <-.
  - destruct (vsnprintf 256 fmt args) as [[]|]; [by injection He as <- <-|done].
  - destruct (typed σ); injection He as <- <-; [done|]. simpl. by case_match.
  - destruct (abs_call _ _ _ _) as [[] ?]; try done. by injection He as <- <-.
  - destruct (abs_call _ _ _ _) as [[] ?]; try done.
    repeat case_match; try done; by injection He as <- <-.
  - destruct (abs_call _ _ _ _) as [[] ?]; try done.
    repeat case_match; try done; by injection He as <- <-.
  - destruct (abs_call _ _ _ _) as [res ?]. repeat case_match; try done. injection He as <- <-.
    simpl. by apply prefix_app_r.
Qed.

Lemma received_grows s s' :
  helps s s' → l_received (book (world_of s)) `prefix_of` l_received (book (world_of s')).
Proof.
  intros (ms & _ & Hr). revert s Hr. induction ms as [|m ms IH]; intros s Hr; [by simplify_eq/=|].
  apply bind_Some in Hr as (s1 & H1 & Hr). trans (l_received (book (world_of s1))); [|by apply IH].
  destruct m as [who e|c]; simpl in H1; [|by simplify_eq]. unfold task_step in H1.
  destruct (prog_of who s) as [l|R o k].
  - injection H1 as <-. by rewrite world_of_with.
  - apply bind_Some in H1 as ([r σ] & He & [= <-]). rewrite world_of_with.
    by eapply received_grows_op.
Qed.

(** The answer waits in the queue, and the speaker takes it. *)
Lemma deliver ka s a :
  obeys speaker_may speaker_at (speaker_p s) a →
  netting ka a serving NOver (world_of s) →
  ∃ s', helps s s' ∧
    l_received (book (world_of s')) = l_received (book (world_of s)) ++ [ntp_to_ist ts] ∧
    tells (l_received (book (world_of s'))) (said (world_of s')).
Proof.
  intros Ho [HB Hq]. simpl in Hq.
  destruct (speaker_drains ka NOver (time_request_sem (world_of s)) (l_handed (book (world_of s)))
    s a Ho) as (s' & Hl & Ho' & HB' & _ & Hh & Hq'); [by split|].
  exists s'. split; [by apply leads_speaker|].
  pose proof HB as (_ & (_ & ms & HT2 & _ & HT4) & _).
  pose proof HB' as (_ & (_ & ms' & HT2' & _ & HT4') & HS'). split; [|exact HS'].
  rewrite Hq' in HT2'. destruct ms'; [|done]. rewrite app_nil_r in HT4'. rewrite <-HT4'.
  unfold sent in *. rewrite Hh, HT4. f_equal. rewrite Hq in HT2.
  destruct ms as [|m [|]]; try done. f_equal.
  change (encode <$> [m]) with [encode m] in HT2.
  rewrite <-(decode_encode m), <-(decode_encode (ntp_to_ist ts)). congruence.
Qed.

(** Between turns, with the speaker idle, the queue empty and a request. *)
Lemma serve_ready ka s l :
  obeys speaker_may speaker_at (speaker_p s) SIdle → net_p s = Done l → net_at l NIdle →
  netting ka SIdle serving NIdle (world_of s) →
  ∃ s' l', helps s s' ∧ net_p s' = Done l' ∧
    obeys speaker_may speaker_at (speaker_p s') SIdle ∧ netting ka SIdle serving NOver (world_of s').
Proof.
  intros Ho Hp [[msg Hl] _] HJ.
  assert (∃ s1, leads Net s s1 ∧ netting ka SIdle serving NIdle (world_of s1) ∧
    net_p s1 = Done (NtpLoop msg)) as (s1 & L1 & HJ1 & Hp1).
  { destruct Hl as [-> | ->]; [by eapply wait_over|]. exists s. split; [apply leads_refl|done]. }
  destruct (serve_turn ka SIdle s1 msg Hp1 HJ1) as (s2 & l' & L2 & HJ2 & Hp2).
  pose proof (leads_trans _ _ _ _ L1 L2) as L. exists s2, l'.
  split; [by apply leads_net|]. split; [done|]. split; [|done].
  by rewrite (leads_net_speaker _ _ L).
Qed.

(** A request pending while the network task is in the middle of an earlier
    one waits for the end of that turn; the speaker then empties the queue. *)
Lemma make_ready ka na s :
  obeys net_may net_at (net_p s) na → na ≠ NIdle →
  obeys speaker_may speaker_at (speaker_p s) SIdle →
  books_inv ka na SIdle (world_of s) → time_request_sem (world_of s) ≠ [] →
  ∃ s' l, helps s s' ∧ obeys speaker_may speaker_at (speaker_p s') SIdle ∧
    net_p s' = Done l ∧ net_at l NIdle ∧ netting ka SIdle serving NIdle (world_of s').
Proof.
  intros Hn Hna Ho HB Hs.
  destruct (net_run ka SIdle pending net_at s na moved_pending Hn) as
    (s1 & a1 & l & L1 & (HB1 & _ & Hs1) & Hp1 & Hl & Ha1); [by split|].
  apply net_turn_over in HB1; [|done].
  destruct (speaker_drains ka NIdle (time_request_sem (world_of s1))
    (l_handed (book (world_of s1))) s1 SIdle) as (s2 & L2 & Ho2 & HB2 & Hs2 & _ & Hq2).
  - by rewrite (leads_net_speaker _ _ L1).
  - by split.
  - exists s2, l. split; [by eapply helps_trans; [apply leads_net|apply leads_speaker]|].
    split; [done|]. split; [by rewrite (leads_speaker_net _ _ L2)|]. split; [split; [done|by left]|].
    split; [done|]. split; [by rewrite Hs2|done].
Qed.

Lemma serve_pending s :
  inv s → time_request_sem (world_of s) ≠ [] →
  ∃ s' ka a, helps s s' ∧ obeys speaker_may speaker_at (speaker_p s') a ∧
    netting ka a serving NOver (world_of s').
Proof.
  intros (ka & na & sa & _ & Hn & Ho & HB) Hs.
  destruct (speaker_drains ka na (time_request_sem (world_of s)) (l_handed (book (world_of s))) s sa)
    as (s1 & L1 & Ho1 & HB1 & Hs1 & _ & Hq1); [done|by split|].
  rewrite <-Hs1 in Hs. rewrite <-(leads_speaker_net _ _ L1) in Hn.
  assert ((∃ s2 a, helps s1 s2 ∧ obeys speaker_may speaker_at (speaker_p s2) a ∧
      netting ka a serving NOver (world_of s2)) ∨
    ∃ s2 l, helps s1 s2 ∧ obeys speaker_may speaker_at (speaker_p s2) SIdle ∧
      net_p s2 = Done l ∧ net_at l NIdle ∧ netting ka SIdle serving NIdle (world_of s2))
    as [(s2 & a & H2 & Ho2 & HJ2)|(s2 & l & H2 & Ho2 & Hp2 & Hl & HJ2)].
  - assert (na = NIdle ∨ na ≠ NIdle) as [->|Hna] by (destruct na; auto); [|right; by eapply make_ready].
    destruct (net_run ka SIdle serving net_at s1 NIdle moved_serving Hn) as
      (s2 & a2 & l & L2 & HJ2 & Hp2 & Hl & Ha2); [by split|].
    rewrite <-(leads_net_speaker _ _ L2) in Ho1.
    destruct Ha2 as [->|[->| ->]].
    + right. exists s2, l. split; [by apply leads_net|]. split; [done|]. split; [done|].
      split; [split; [done|by left]|done].
    + by destruct HJ2 as (_ & ? & _).
    + left. exists s2, SIdle. split; [by apply leads_net|done].
  - exists s2, ka, a. split; [|done]. eapply helps_trans; [by apply leads_speaker|done].
  - destruct (serve_ready ka s2 l Ho2 Hp2 Hl HJ2) as (s3 & l' & H3 & _ & Ho3 & HJ3).
    exists s3, ka, SIdle. split; [|done].
    eapply helps_trans; [by apply leads_speaker|]. by eapply helps_trans.
Qed.

(** C4: from every state the application can reach, a request that is pending
    can be served by the network and the speaker tasks alone: whatever time
    the server then answers reaches the speaker, converted, after the times
    already on their way, and the announcements of all of them have been
    sent, each of them whole. *)
Theorem pending_can_be_served s :
  reachable s → time_request_sem (world_of s) ≠ [] →
  ∃ s' mid, helps s s' ∧
    l_received (book (world_of s')) =
      l_received (book (world_of s)) ++ mid ++ [ntp_to_ist ts] ∧
    tells (l_received (book (world_of s'))) (said (world_of s')).
Proof.
  intros Hr Hs. destruct (serve_pending s) as (s1 & ka & a & H1 & Ho & HJ);
    [by apply reachable_inv|done|].
  destruct (deliver ka s1 a Ho HJ) as (s2 & H2 & Hrec & Ht).
  destruct (received_grows _ _ H1) as [mid Hmid].
  exists s2, mid. split; [by eapply helps_trans|]. split; [|done].
  by rewrite Hrec, Hmid, <-app_assoc.
Qed.
End service.

(** * Runs

    Runs of the whole application: a request served from the key press to the
    spoken sentence, on which the theorems of [SystemThm] are instantiated,
    and two schedules that show what the tasks do not protect: the buffer of
    [uart_printf] and the lines of an announcement. *)

(** ** Driving the system *)

(** Every wait is over, every query is answered with the same timestamp, and
    the network has an address. *)
Definition waits_over : env := Env true (Some 3818448000) true.

(** Run one task until [stop]. *)
Fixpoint drive (fuel : nat) (who : task_id) (stop : sys → bool) (s : sys) : option sys :=
  match fuel with
  | O => None
  | S fuel => if stop s then Some s else s ← task_step who waits_over s; drive fuel who stop s
  end.

Definition at_end (who : task_id) (s : sys) : bool :=
  match prog_of who s with Done _ => true | Step _ _ => false end.

(** 5000 operations are more than any turn takes. *)
Definition until (who : task_id) (stop : sys → bool) : sys → option sys :=
  drive (Z.to_nat 5000) who stop.
Definition a_turn (who : task_id) (s : sys) : option sys :=
  s ← task_step who waits_over s; until who (at_end who) s.
Definition press (c : ascii) (s : sys) : option sys := move_step (MType c) s.

(** [f] leads from reachable states to reachable ones. *)
Definition sound (f : sys → option sys) : Prop :=
  ∀ s s', reachable s → f s = Some s' → reachable s'.

Lemma sound_step who e : sound (task_step who e).
Proof. intros s s' Hs E. by apply (reach_move (MTask who e) s). Qed.

Lemma sound_press c : sound (press c).
Proof. intros s s' Hs E. by apply (reach_move (MType c) s). Qed.

Lemma sound_bind f g : sound f → sound g → sound (λ s, s' ← f s; g s').
Proof. intros Hf Hg s s' Hs (s1 & H1 & H2)%bind_Some. eauto. Qed.

Lemma sound_until who stop : sound (until who stop).
Proof.
  unfold until. generalize (Z.to_nat 5000). intros fuel.
  induction fuel as [|fuel IH]; intros s s' Hs E; [done|]. simpl in E.
  destruct (stop s); [by simplify_eq|]. apply bind_Some in E as (s1 & H1 & H2).
  by apply (IH s1); [eapply sound_step|].
Qed.

Lemma sound_turn who : sound (a_turn who).
Proof. apply sound_bind; [apply sound_step|apply sound_until]. Qed.

(** A sequence of such moves. *)
Fixpoint script (fs : list (sys → option sys)) (s : sys) : option sys :=
  match fs with
  | [] => Some s
  | f :: fs => s' ← f s; script fs s'
  end.

Lemma script_reachable fs (check : sys → bool) :
  Forall sound fs →
  match script fs (boot (TimeMsg 0 0 0)) with Some s => check s | None => false end = true →
  ∃ s, reachable s ∧ check s = true.
Proof.
  intros Hfs. assert (Hs : sound (script fs)).
  { induction Hfs as [|f fs Hf _ IH]; [by intros s s' ? [= <-]|]. by apply sound_bind. }
  destruct (script fs _) as [s|] eqn:E; [|done]. intros Hc. exists s. split; [|done].
  by apply (Hs (boot (TimeMsg 0 0 0))); [constructor|].
Qed.

Create HintDb sound discriminated.
#[export] Hint Resolve sound_press sound_until sound_turn Forall_nil_2 Forall_cons_2 : sound.

(** All tasks started, the network up, the speaker waiting. *)
Definition start_up : list (sys → option sys) :=
  [until Key (at_end Key); until Speaker (at_end Speaker); until Net (at_end Net);
   a_turn Net; a_turn Net].

(** A key pressed and handled, and the request served. *)
Definition serve : list (sys → option sys) := [press "t"; a_turn Key; a_turn Net].

Definition console_text (s : sys) : list ascii := snd <$> console (world_of s).
Definition heard_by_host (s : sys) : list (list ascii) :=
  b_spoken (read_output bridge_init (console_text s)).

(** ** A request served *)

Definition served : sys → bool := λ s,
  bool_decide (heard_by_host s = [sentence 5 30 0]) &&
  bool_decide (l_received (book (world_of s)) = [TimeMsg 5 30 0]).

Lemma request_served : ∃ s, reachable s ∧ served s = true.
Proof.
  apply (script_reachable (start_up ++ serve ++ [a_turn Speaker])).
  - unfold start_up, serve. simpl. auto 20 with sound.
  - vm_compute. reflexivity.
Qed.

Lemma requests_accounted_witness :
  ∃ s, reachable s ∧ served s = true ∧ (length (l_answers (book (world_of s))) ≤ l_takes (book (world_of s)))%nat.
Proof.
  destruct request_served as (s & Hs & Hc). exists s. split; [exact Hs|]. split; [exact Hc|].
  apply (requests_accounted s Hs).
Defined.

Lemma times_flow_witness :
  ∃ s, reachable s ∧ served s = true ∧ ∃ waiting held,
    time_queue (world_of s) = encode <$> waiting ∧ (length waiting ≤ 1)%nat ∧
    sent (book (world_of s)) = l_received (book (world_of s)) ++ waiting ∧
    ntp_to_ist <$> l_answers (book (world_of s)) = (fst <$> l_handed (book (world_of s))) ++ held ∧
    (length held ≤ 1)%nat ∧ Forall valid_time (l_received (book (world_of s))) ∧
    (length (l_received (book (world_of s))) ≤ l_presses (book (world_of s)))%nat.
Proof.
  destruct request_served as (s & Hs & Hc). exists s. split; [exact Hs|]. split; [exact Hc|].
  apply (times_flow s Hs).
Defined.

Lemma speaker_says_witness :
  ∃ s, reachable s ∧ served s = true ∧ ∃ ms rest l d,
    l_received (book (world_of s)) = ms ++ rest ∧ (length rest ≤ 1)%nat ∧
    said (world_of s) = l ++ d ∧ tells ms l ∧ d `prefix_of` concat (speech <$> rest).
Proof.
  destruct request_served as (s & Hs & Hc). exists s. split; [exact Hs|]. split; [exact Hc|].
  apply (speaker_says s Hs).
Defined.

(** A request made while the network task has already started is pending. *)
Definition requested : sys → bool := λ s, bool_decide (time_request_sem (world_of s) = [[]]).

Lemma request_pending : ∃ s, reachable s ∧ requested s = true.
Proof.
  apply (script_reachable (start_up ++ [press "t"; a_turn Key])).
  - unfold start_up. simpl. auto 20 with sound.
  - vm_compute. reflexivity.
Qed.

Lemma pending_can_be_served_witness :
  ∃ s, reachable s ∧ requested s = true ∧
  ∃ s' mid, helps 3818448000 s s' ∧
    l_received (book (world_of s')) =
      l_received (book (world_of s)) ++ mid ++ [ntp_to_ist 3818448000] ∧
    tells (l_received (book (world_of s'))) (said (world_of s')).
Proof.
  destruct request_pending as (s & Hs & Hc). exists s. split; [exact Hs|]. split; [exact Hc|].
  apply (pending_can_be_served 3818448000 s Hs).
  apply bool_decide_eq_true in Hc. rewrite Hc. discriminate.
Defined.

(** ** What is not protected *)

(** The speaker has formatted its line and is about to print it. *)
Definition formatted (s : sys) : bool :=
  match speaker_p s with Step (ORead O) _ => true | _ => false end.

Definition speaker_said (txt : string) (s : sys) : bool :=
  bool_decide (string_chars txt `suffix_of` said (world_of s)).

Definition NTP_LINE : string := "NTP Task: Time = 05:30:00 IST".

(** The static buffer of [uart_printf] is shared by tasks that preempt each
    other: a schedule makes the speaker task print the line that the network
    task formatted in place of its own. *)
Theorem printf_buffer_race :
  ∃ s, reachable s ∧ string_chars NTP_LINE `suffix_of` said (world_of s).
Proof.
  destruct (script_reachable
    (start_up ++ serve ++ [until Speaker formatted] ++ serve ++
     [until Speaker (speaker_said NTP_LINE)]) (speaker_said NTP_LINE)) as (s & Hs & Hc).
  - unfold start_up, serve. simpl. auto 20 with sound.
  - vm_compute. reflexivity.
  - exists s. split; [done|]. by apply bool_decide_eq_true in Hc.
Qed.

(** The sentence the host speaks when the key task prints in the middle of the
    first token. *)
Definition broken_sentence : list ascii :=
  string_chars "thkey: time request received! time is five hours thirty minutes and zero seconds".

Lemma broken_is_no_time h m s :
  0 ≤ h < 60 → 0 ≤ m < 60 → 0 ≤ s < 60 → sentence h m s ≠ broken_sentence.
Proof. intros. rewrite sentence_text by done. intros E%(f_equal (take 3)). discriminate E. Qed.

(** C32: the tasks share the console without a lock, so that a key pressed while
    an announcement is being sent can break a token: a schedule makes the host
    speak a sentence that is not the sentence of any time. *)
Theorem announcement_can_break :
  ∃ s x, reachable s ∧ heard_by_host s = [x] ∧
    ∀ h m sec, 0 ≤ h < 60 → 0 ≤ m < 60 → 0 ≤ sec < 60 → x ≠ sentence h m sec.
Proof.
  destruct (script_reachable
    (start_up ++ serve ++ [until Speaker (speaker_said "TOKEN TH"); press "t"; a_turn Key;
       until Speaker (at_end Speaker)])
    (λ s, bool_decide (heard_by_host s = [broken_sentence]))) as (s & Hs & Hc).
  - unfold start_up, serve. simpl. auto 20 with sound.
  - vm_compute. reflexivity.
  - exists s, broken_sentence. apply bool_decide_eq_true in Hc. split; [done|]. split; [done|].
    intros h m sec ? ? ? E. by apply (broken_is_no_time h m sec).
Qed.
