(* ===== verification/Main.v ===== *)
(** [main] of [src/main.c]: the start of the console, the creation of the
    semaphore and the queue out of the heap of [Heap4], the creation of the
    tasks, and the hand-over to the scheduler. *)
From Stdlib Require Import Ascii.
From stdpp Require Import base tactics numbers list strings gmap.
From S2P Require Import Prelude Words Printf Console Sched Queue QueueSpec QueueApi QueueRefine Heap4 Heap4Thm System.

(** What [main] calls of [freertos/tasks.c]: the result of [xTaskCreate], and
    whether the scheduler took over, from which there is no return. *)
Class Kernel (K : Type) := {
  xTaskCreate : string → Z → Z → M (heap * K) Z;
  vTaskStartScheduler : M (heap * K) bool
}.

Section main.
Context {D : Type} `{Mmio D} `{!Console D} {K : Type} `{TaskOps K} `{!Kernel K}.
Context (ucHeap xStart : Z) (ram : Z → Z).

Definition mstate : Type := D * (heap * K).
Definition con {A} (m : M D A) : M mstate A := zoom fst (λ d s, (d, s.2)) m.
Definition ker {A} (m : M (heap * K) A) : M mstate A := zoom snd (λ h s, (s.1, h)) m.

(** The two objects, with [while (1);] where one cannot be created. *)
Definition create_ipc : M mstate (queue * queue) :=
  k ← gets (λ s : mstate, s.2.2);
  time_request_sem ← ker (xSemaphoreCreateBinary (pvPortMalloc ucHeap xStart) ram k);
  match time_request_sem with
  | None =>
      con (uart_puts ("FATAL: Failed to create semaphore!" +:+ crlf));; fail Hang
  | Some (_, sem) =>
      k ← gets (λ s : mstate, s.2.2);
      time_queue ← ker (xQueueCreate (pvPortMalloc ucHeap xStart) ram 1 sizeof_time_msg k);
      match time_queue with
      | None => con (uart_puts ("FATAL: Failed to create queue!" +:+ crlf));; fail Hang
      | Some (_, q) => mret (sem, q)
      end
  end.

(** The result is what the tasks find when they start to run. *)
Definition main : M mstate (queue * queue) :=
  con system_init;;
  con (uart_puts ("Creating IPC primitives..." +:+ crlf));;
  objects ← create_ipc;
  con (uart_puts ("Creating tasks..." +:+ crlf));;
  ker (xTaskCreate "KEY" 256 1);;
  ker (xTaskCreate "NTP" 1024 2);;
  ker (xTaskCreate "SPEECH" 512 1);;
  con (uart_puts ("Starting FreeRTOS scheduler..." +:+ crlf +:+ crlf));;
  started ← ker vTaskStartScheduler;
  if (started : bool) then mret objects
  else con (uart_puts ("FATAL: Scheduler returned!" +:+ crlf));; fail Hang.
End main.

(** ** What it leads to *)

Section start_up.
Context {D : Type} `{Mmio D} `{ConsoleLaws D}.

(** Configuring the UART does not disturb what it sends. *)
Definition uart_configurable : Prop := ∀ a v d, a = UART0_CTRL ∨ a = UART0_BAUDDIV → con_ok d →
  con_ok (mmio_write a v d) ∧ con_out (mmio_write a v d) = con_out d.

Lemma puts_ok str d : con_ok d → wp (uart_puts str) (λ _ d', con_ok d') d.
Proof. intros Hd. eapply wp_mono; [by apply uart_puts_spec|]. intros ? d' He. apply He. Qed.

Lemma system_init_ok d : uart_configurable → con_ok d → wp system_init (λ _ d', con_ok d') d.
Proof.
  intros uart_config Hd. unfold system_init.
  do 3 (apply wp_bind, wp_modify; cbv beta).
  set (d3 := mmio_write _ _ _). assert (Hc : con_ok d3).
  { subst d3. do 3 (apply uart_config; [tauto|]). exact Hd. }
  clearbody d3. revert d3 Hc.
  assert (Hnext : ∀ str (m : M D unit) d, (∀ d, con_ok d → wp m (λ _ d', con_ok d') d) →
    con_ok d → wp (uart_puts str;; m) (λ _ d', con_ok d') d).
  { intros str m d' Hm Hd'. apply wp_bind. eapply wp_mono; [by apply puts_ok|]. by intros ? ? ?; apply Hm. }
  do 5 (intros ? ?; apply Hnext; [|done]). intros ? ?. by apply puts_ok.
Qed.

End start_up.

Section spec.
Context {D : Type} `{Mmio D} `{ConsoleLaws D} {K : Type} `{TaskLaws K} `{!Kernel K}.
Context (ucHeap xStart : Z) (Hlay : heap_layout ucHeap xStart) (ram : Z → Z).

Local Abbreviation A := (start_address ucHeap).
Local Abbreviation E := (end_address ucHeap).

(** The blocks of the two objects, at the start of the heap. *)
Definition ipc_segs : list seg := [(true, 80); (true, 88); (false, E - A - 168)].

Lemma wanted_72 : wanted_size 72 = 80. Proof. reflexivity. Qed.
Lemma wanted_75 : wanted_size 75 = 88. Proof. reflexivity. Qed.

(** The whole heap is larger than the two objects. *)
Lemma heap_big : 65000 ≤ E - A.
Proof.
  pose proof (start_address_spec _ _ Hlay) as [_ HA].
  pose proof (end_address_spec _ _ Hlay) as [_ HE]. unfold configTOTAL_HEAP_SIZE in *. lia.
Qed.

Definition empty_object (size : Z) (q : queue) : Prop :=
  q_rep q [] ∧ uxLength q = 1 ∧ uxItemSize q = size.

Lemma create_object n size x want segs segs' h k b :
  0 < n < 4294967296 → 0 ≤ size → n * size + sizeof_Queue_t ≤ SIZE_MAX →
  x = sizeof_Queue_t + n * size → wanted_size x = want → want ≠ 0 →
  abs_take want A segs = Some (b, segs') → 0 ≤ b → heap_state ucHeap xStart h segs → k_live k →
  wp (xQueueGenericCreate (pvPortMalloc ucHeap xStart) ram n size k) (λ r s',
    (∃ a q, r = Some (a, q) ∧ q_rep q [] ∧ uxLength q = n ∧ uxItemSize q = size) ∧
    heap_rep ucHeap xStart s'.1 segs' ∧ k_live s'.2) (h, k).
Proof using Hlay.
  intros Hn Hs Hsz -> Hw Hw0 Ht Hb Hh Hk.
  pose proof (pvPortMalloc_ok _ _ Hlay (sizeof_Queue_t + n * size) segs h k) as Hm.
  destruct (wp_inv _ _ _ (Hm ltac:(unfold sizeof_Queue_t in *; lia) Hh Hk))
    as (a & s' & Hrun & Ha & Hr & Hk').
  unfold abs_malloc in Ha, Hr. rewrite Hw, Ht in Ha, Hr. rewrite (proj2 (Z.eqb_neq want 0)) in Ha, Hr by done.
  cbn [fst snd] in Ha, Hr.
  eapply wp_mono; [eapply create_ok; [done|done|done| |exact Hrun]|cbv beta].
  { subst a. change xHeapStructSize with 8. lia. }
  intros r s'' [-> Hq]. split; [|split; [done|apply Hk']]. destruct r as [[a' q]|].
  - destruct Hq as (_ & _ & ? & _ & ? & ?). by exists a', q.
  - exfalso. subst a. change xHeapStructSize with 8 in Hq. unfold NULL in Hq. lia.
Qed.

(** The console works and the kernel is alive. *)
Definition running (s : D * (heap * K)) : Prop := con_ok s.1 ∧ k_live s.2.2.

Lemma con_puts str (s : D * (heap * K)) :
  con_ok s.1 → wp (con (uart_puts str)) (λ _ s', con_ok s'.1 ∧ s'.2 = s.2) s.
Proof. intros Hs. apply wp_zoom. eapply wp_mono; [by apply puts_ok|]. done. Qed.

Lemma con_puts_running {B} str (k : M (D * (heap * K)) B) Q s :
  running s → (∀ s', running s' → wp k Q s') → wp (con (uart_puts str);; k) Q s.
Proof.
  intros [Hd Hk] HQ. apply wp_bind. eapply wp_mono; [by apply con_puts|].
  intros ? s' [? E']. apply HQ. split; [done|by rewrite E'].
Qed.

(** The two objects are created out of a heap that nothing has used. *)
Lemma create_ipc_spec s :
  s.2.1 = heap_reset → k_live s.2.2 →
  wp (create_ipc ucHeap xStart ram) (λ r s', s'.1 = s.1 ∧
    empty_object 0 r.1 ∧ empty_object sizeof_time_msg r.2 ∧
    heap_rep ucHeap xStart s'.2.1 ipc_segs ∧ k_live s'.2.2) s.
Proof using Hlay.
  destruct s as [d [h k]]. cbn [fst snd]. intros -> Hk. pose proof heap_big as Hbig.
  pose proof (start_address_spec _ _ Hlay) as [_ HA]. destruct (lay_heap _ _ Hlay) as [Hpos _].
  unfold create_ipc. apply wp_bind, wp_gets, wp_bind, wp_zoom. cbn [fst snd].
  eapply wp_mono; [eapply (create_object 1 0 72 80 [(false, E - A)]
    [(true, 80); (false, E - A - 80)] _ _ A); try done; try lia|].
  { cbn [abs_take negb andb]. rewrite (proj2 (Z.leb_le _ _)) by lia. unfold split_block.
    change heapMINIMUM_BLOCK_SIZE with 16. by rewrite (proj2 (Z.ltb_lt _ _)) by lia. }
  { by right. }
  cbv beta. intros r [h1 k1] ((a & sem & -> & Hsem & Hs1 & Hs2) & Hh1 & Hk1).
  apply wp_bind, wp_gets, wp_bind, wp_zoom. cbn [fst snd] in *.
  eapply wp_mono; [eapply (create_object 1 sizeof_time_msg 75 88 _ ipc_segs _ _ (A + 80));
    [lia|done|done|reflexivity|reflexivity|lia| |lia|left; exact Hh1|exact Hk1]|].
  { cbn [abs_take negb andb]. rewrite (proj2 (Z.leb_le _ _)) by lia. unfold split_block.
    change heapMINIMUM_BLOCK_SIZE with 16. rewrite (proj2 (Z.ltb_lt _ _)) by lia.
    unfold ipc_segs. by replace (E - A - 80 - 88) with (E - A - 168) by lia. }
  cbv beta. intros r [h2 k2] ((a' & q & -> & Hq & Hq1 & Hq2) & Hh2 & Hk2).
  apply wp_ret. by split_and!.
Qed.

(** What the UART and the scheduler promise to [main]. *)
Context (uart_config : uart_configurable (D := D)).
Context (kernel_create : ∀ name stack prio s, k_live s.2 →
  wp (xTaskCreate name stack prio) (λ _ s', k_live s'.2) s).
Context (kernel_start : ∀ s, k_live s.2 → wp vTaskStartScheduler (λ b _, b = true) s).

(** From reset, [main] reaches the scheduler with an empty semaphore of one
    place and an empty queue of one [time_msg]; neither creation can fail. *)
Theorem main_starts d k :
  con_ok d → k_live k →
  wp (main ucHeap xStart ram)
    (λ r _, empty_object 0 r.1 ∧ empty_object sizeof_time_msg r.2) (d, (heap_reset, k)).
Proof using Hlay uart_config kernel_create kernel_start.
  intros Hd Hk. unfold main. apply wp_bind, wp_zoom.
  eapply wp_mono; [by apply system_init_ok|]. cbv beta. cbn [snd]. intros _ d1 Hd1.
  apply wp_bind. eapply wp_mono; [by apply con_puts|]. cbv beta. cbn [snd].
  intros _ s1 [Hd2 Hs1]. apply wp_bind.
  eapply wp_mono; [by apply create_ipc_spec; rewrite Hs1|]. cbv beta.
  intros r s2 (Hd3 & Hsem & Hq & _ & Hk2).
  assert (Hr : running s2) by (split; [by rewrite Hd3|done]).
  assert (Hcreate : ∀ B name stack prio (k : M (D * (heap * K)) B) Q s,
    running s → (∀ s', running s' → wp k Q s') → wp (ker (xTaskCreate name stack prio);; k) Q s).
  { intros B name stack prio k' Q s [? ?] HQ. apply wp_bind, wp_zoom.
    eapply wp_mono; [by apply kernel_create|]. intros ? h ?. by apply HQ. }
  apply con_puts_running; [done|]. intros s3 Hr3.
  do 3 (apply Hcreate; [done|]; intros ? ?).
  apply con_puts_running; [done|]. intros s4 Hr4.
  apply wp_bind, wp_zoom. eapply wp_mono; [apply kernel_start, Hr4|].
  cbv beta. intros b ? ->. by apply wp_ret.
Qed.

End spec.

(** ** On a machine *)

(** A kernel that accepts every task and takes over when asked. *)
#[export] Instance clock_kernel : Kernel clock := {|
  xTaskCreate _ _ _ := mret pdPASS;
  vTaskStartScheduler := mret true
|}.

#[local] Instance dev_console : Console uart_dev := UartConsole 4.
#[local] Instance dev_console_laws : ConsoleLaws uart_dev :=
  UartConsoleLaws (bound := 3) 4 ltac:(lia).

Lemma dev_configurable : uart_configurable (D := uart_dev).
Proof.
  intros a v d Ha [H1 H2]. unfold mmio_write, uart_dev_mmio.
  assert ((a =? UART0_DATA) = false) as -> by (destruct Ha as [-> | ->]; done).
  done.
Qed.

Definition reset_uart : uart_dev := UartDev [] 0 3 [].

Lemma main_starts_witness :
  wp (main (D := uart_dev) (K := clock) demo_ucHeap demo_xStart (λ _, 0))
    (λ r _, empty_object 0 r.1 ∧ empty_object sizeof_time_msg r.2)
    (reset_uart, (heap_reset, Clock 0)).
Proof.
  apply (main_starts demo_ucHeap demo_xStart demo_layout (λ _, 0) dev_configurable
    ltac:(intros; exact I) ltac:(intros; reflexivity)); [|exact I].
  simpl. lia.
Defined.
