(* ===== verification/Lan9118.v ===== *)
(** The LAN9118 Ethernet driver, [network/netif_qemu.c]: the registers are
    reached through [Mmio], and the driver polls.  The rest of lwIP is the
    interface [Stack]: packet buffers to receive into, and [netif->input]. *)
From Stdlib Require Import Ascii.
From stdpp Require Import base tactics numbers list strings.
From S2P Require Import Prelude Words Printf Console Pbuf Def.

(** ** Registers *)

Definition LAN9118_BASE : Z := 0x40200000.
Definition REG (off : Z) : Z := LAN9118_BASE + off.
Definition RX_DATA_FIFO : Z := REG 0x00.
Definition TX_DATA_FIFO : Z := REG 0x20.
Definition RX_STATUS_FIFO : Z := REG 0x40.
Definition ID_REV : Z := REG 0x50.
Definition INT_STS : Z := REG 0x58.
Definition INT_EN : Z := REG 0x5C.
Definition BYTE_TEST : Z := REG 0x64.
Definition RX_CFG : Z := REG 0x6C.
Definition TX_CFG : Z := REG 0x70.
Definition HW_CFG : Z := REG 0x74.
Definition RX_FIFO_INF : Z := REG 0x7C.
Definition MAC_CSR_CMD : Z := REG 0xA4.
Definition MAC_CSR_DATA : Z := REG 0xA8.

Definition MAC_CR : Z := 1.
Definition MAC_ADDRH : Z := 2.
Definition MAC_ADDRL : Z := 3.
Definition MAC_CSR_CMD_BUSY : Z := Z.shiftl 1 31.
Definition MAC_CSR_CMD_READ : Z := Z.shiftl 1 30.
Definition TX_CMD_A_FIRST_SEG : Z := Z.shiftl 1 13.
Definition TX_CMD_A_LAST_SEG : Z := Z.shiftl 1 12.
Definition TX_CFG_TX_ON : Z := Z.shiftl 1 1.
Definition TX_CFG_TXSAO : Z := Z.shiftl 1 2.
Definition HW_CFG_SRST : Z := Z.shiftl 1 0.
Definition HW_CFG_MBO : Z := Z.shiftl 1 20.
Definition MAC_CR_RXEN : Z := Z.shiftl 1 2.
Definition MAC_CR_TXEN : Z := Z.shiftl 1 3.
Definition MAC_CR_FDPX : Z := Z.shiftl 1 20.

Definition mac_addr : list Z := [0x00; 0x02; 0xF7; 0xF0; 0x00; 0x01].

(** ** Words and bytes *)

(** The first [n] words of a byte string in memory. *)
Fixpoint le_words (n : nat) (l : list Z) : list Z :=
  match n with
  | O => []
  | S n => le32 (nth 0 l 0) (nth 1 l 0) (nth 2 l 0) (nth 3 l 0) :: le_words n (drop 4 l)
  end.

Definition word_bytes (w : Z) : list Z := [byte_at w 0; byte_at w 1; byte_at w 2; byte_at w 3].
Definition unwords (ws : list Z) : list Z := concat (word_bytes <$> ws).

(** The words that hold [len] bytes: [(len + 3) / 4]. *)
Definition word_count (len : Z) : Z := (len + 3) / 4.

(** ** The driver *)

(** [struct netif], the fields the driver sets; its two output functions are
    always [etharp_output] and [lan9118_linkoutput] and have no field. *)
Record netif := Netif {
  nif_name : list Z;
  nif_hwaddr : list Z;
  nif_mtu : Z;
  nif_flags : Z
}.

Definition NETIF_FLAG_UP : Z := 0x01.
Definition NETIF_FLAG_BROADCAST : Z := 0x02.
Definition NETIF_FLAG_LINK_UP : Z := 0x04.
Definition NETIF_FLAG_ETHARP : Z := 0x08.

(** [pbuf_alloc(PBUF_RAW, len, PBUF_POOL)], [netif->input] and [pbuf_free]. *)
Class Stack (D : Type) := {
  pbuf_alloc_pool : Z → M D (option Pbuf.chain);
  netif_input : Pbuf.chain → M D Z;
  rx_pbuf_free : Pbuf.chain → M D unit
}.

Section driver.
Context {D : Type} `{Mmio D}.

(** [while ((reg & mask) && --timeout) body;]: the value of [timeout] when the
    loop ends. *)
Fixpoint wait_clear (timeout : nat) (reg mask : Z) (body : M D unit) : M D nat :=
  match timeout with
  | O => mret O
  | S n =>
      v ← read_reg reg;
      if Z.land v mask =? 0 then mret (S n)
      else if (n =? 0)%nat then mret O
      else body;; wait_clear n reg mask body
  end.

Definition mac_wait_busy : M D bool :=
  timeout ← wait_clear (Z.to_nat 10000) MAC_CSR_CMD MAC_CSR_CMD_BUSY (mret tt);
  mret (0 <? timeout)%nat.

Definition mac_read (reg : Z) : M D Z :=
  mac_wait_busy;;
  write_reg MAC_CSR_CMD (Z.lor (Z.lor MAC_CSR_CMD_BUSY MAC_CSR_CMD_READ) reg);;
  mac_wait_busy;;
  read_reg MAC_CSR_DATA.

Definition mac_write (reg val : Z) : M D unit :=
  mac_wait_busy;;
  write_reg MAC_CSR_DATA val;;
  write_reg MAC_CSR_CMD (Z.lor MAC_CSR_CMD_BUSY reg);;
  mac_wait_busy;;
  mret tt.

Definition mac_byte (i : nat) : Z := nth i mac_addr 0.
Definition MAC_LOW : Z := le32 (mac_byte 0) (mac_byte 1) (mac_byte 2) (mac_byte 3).
Definition MAC_HIGH : Z := Z.lor (mac_byte 4) (u32 (Z.shiftl (mac_byte 5) 8)).

Definition lan9118_hw_init `{!Console D} : M D unit :=
  uart_puts ("LAN9118: Initializing..." +:+ crlf);;
  id_rev ← read_reg ID_REV;
  uart_printf ("LAN9118: ID_REV = 0x%08x" +:+ crlf) [PUint id_rev];;
  byte_test ← read_reg BYTE_TEST;
  uart_printf ("LAN9118: BYTE_TEST = 0x%08x" +:+ crlf) [PUint byte_test];;
  hw ← read_reg HW_CFG;
  write_reg HW_CFG (Z.lor hw HW_CFG_SRST);;
  timeout ← wait_clear (Z.to_nat 100000) HW_CFG HW_CFG_SRST (mret tt);
  (if (timeout =? 0)%nat then
     uart_puts ("LAN9118: WARNING - soft reset timeout (continuing)" +:+ crlf)
   else uart_puts ("LAN9118: Soft reset complete" +:+ crlf));;
  write_reg HW_CFG HW_CFG_MBO;;
  write_reg TX_CFG TX_CFG_TXSAO;;
  write_reg RX_CFG 0;;
  wait_clear 100 RX_FIFO_INF 0x00FF0000 (read_reg RX_STATUS_FIFO;; mret tt);;
  uart_puts ("LAN9118: Setting MAC address..." +:+ crlf);;
  mac_write MAC_ADDRL MAC_LOW;;
  mac_write MAC_ADDRH MAC_HIGH;;
  mac_write MAC_CR (Z.lor (Z.lor MAC_CR_TXEN MAC_CR_RXEN) MAC_CR_FDPX);;
  write_reg TX_CFG TX_CFG_TX_ON;;
  write_reg INT_STS 0xFFFFFFFF;;
  write_reg INT_EN 0;;
  uart_printf ("LAN9118: MAC = %02x:%02x:%02x:%02x:%02x:%02x" +:+ crlf) (PInt <$> mac_addr);;
  uart_puts ("LAN9118: Initialization complete" +:+ crlf).

Definition lan9118_netif_init `{!Console D} (n : netif) : M D (Z * netif) :=
  lan9118_hw_init;;
  mret (ERR_OK, Netif [101; 110] mac_addr 1500
    (Z.lor (Z.lor (Z.lor NETIF_FLAG_BROADCAST NETIF_FLAG_ETHARP) NETIF_FLAG_LINK_UP) NETIF_FLAG_UP)).

Fixpoint write_words (ws : list Z) : M D unit :=
  match ws with
  | [] => mret tt
  | w :: ws => write_reg TX_DATA_FIFO w;; write_words ws
  end.

(** What memory holds after the payload of a pbuf; the last word of a pbuf
    takes in up to three bytes of it. *)
Context (after : pbuf → list Z).

Definition pbuf_words (q : pbuf) : list Z :=
  le_words (Z.to_nat (word_count (p_len q))) (payload q ++ after q).

Fixpoint write_chain (c : Pbuf.chain) : M D unit :=
  match c with
  | [] => mret tt
  | q :: c => write_words (pbuf_words q);; write_chain c
  end.

Definition lan9118_linkoutput (p : Pbuf.chain) : M D Z :=
  match p with
  | [] => fail BadAccess
  | q :: _ =>
      let total_len := tot_len q in
      write_reg TX_DATA_FIFO
        (Z.lor (Z.lor TX_CMD_A_FIRST_SEG TX_CMD_A_LAST_SEG) (Z.land total_len 0x7FF));;
      write_reg TX_DATA_FIFO (Z.land total_len 0x7FF);;
      write_chain p;;
      mret ERR_OK
  end.

(** [n] reads of the receive data FIFO. *)
Fixpoint read_words (n : nat) : M D (list Z) :=
  match n with
  | O => mret []
  | S n => w ← read_reg RX_DATA_FIFO; ws ← read_words n; mret (w :: ws)
  end.

(** Words stored from the start of a pbuf on; those that do not fill it leave
    the rest as it was, and bytes past its length are not part of it. *)
Definition store_words (q : pbuf) (ws : list Z) : pbuf :=
  Pbuf (take (length (payload q)) (unwords ws ++ drop (4 * length ws) (payload q)))
    (p_len q) (tot_len q).

(** The pbufs of a chain, filled with at most [words] words; the words that
    are left. *)
Fixpoint read_chain (c : Pbuf.chain) (words : Z) : M D (Pbuf.chain * Z) :=
  match c with
  | [] => mret ([], words)
  | q :: c =>
      let n := Z.min (word_count (p_len q)) words in
      ws ← read_words (Z.to_nat n);
      '(c', unread) ← read_chain c (words - n);
      mret (store_words q ws :: c', unread)
  end.

Context `{!Stack D}.

(** One turn of [while ((RX_FIFO_INF & 0x00FF0000) != 0)]. *)
Definition poll_packet : M D unit :=
  rx_status ← read_reg RX_STATUS_FIFO;
  let raw_len := Z.land (Z.shiftr rx_status 16) 0x3FFF in
  if raw_len =? 0 then mret tt
  else
    let pkt_len := if 4 <? raw_len then raw_len - 4 else raw_len in
    let words := word_count raw_len in
    p ← pbuf_alloc_pool pkt_len;
    match p with
    | Some p =>
        '(p, unread) ← read_chain p words;
        read_words (Z.to_nat unread);;
        r ← netif_input p;
        when_ (negb (r =? ERR_OK)) (rx_pbuf_free p)
    | None => read_words (Z.to_nat words);; mret tt
    end.

Definition lan9118_poll (fuel : nat) : M D unit :=
  while_ fuel (v ← read_reg RX_FIFO_INF; mret (negb (Z.land v 0x00FF0000 =? 0))) poll_packet.
End driver.
