(* ===== verification/Lan9118Thm.v ===== *)
(** What the LAN9118 driver does: the words of a transmitted frame, the frames
    a poll hands to the stack, and the register writes of the initialisation. *)
From Stdlib Require Import Ascii.
From stdpp Require Import base tactics numbers list strings.
From S2P Require Import Prelude Words Printf Console Pbuf Def Lan9118.

(** ** Words and bytes *)

Abbreviation all_bytes := (Forall byte_ok).

Lemma unwords_app w1 w2 : unwords (w1 ++ w2) = unwords w1 ++ unwords w2.
Proof. unfold unwords. by rewrite fmap_app, concat_app. Qed.

Lemma length_unwords ws : length (unwords ws) = (4 * length ws)%nat.
Proof.
  induction ws as [|w ws IH]; [done|]. change (unwords (w :: ws)) with (word_bytes w ++ unwords ws).
  rewrite length_app, IH. simpl. lia.
Qed.

Lemma length_le_words n l : length (le_words n l) = n.
Proof. revert l. induction n as [|n IH]; intros l; [done|]. simpl. by rewrite IH. Qed.

Lemma word_bytes_le32 a b c d :
  byte_ok a → byte_ok b → byte_ok c → byte_ok d → word_bytes (le32 a b c d) = [a; b; c; d].
Proof.
  intros. unfold word_bytes.
  by destruct (byte_at_le32 a b c d) as (-> & -> & -> & ->).
Qed.

(** The words of a byte string are its bytes, for as long as it lasts. *)
Lemma unwords_le_words n l :
  all_bytes l → (4 * n ≤ length l)%nat → unwords (le_words n l) = take (4 * n) l.
Proof.
  revert l. induction n as [|n IH]; intros l Hl Hn; [done|].
  destruct l as [|a [|b [|c [|d l]]]]; simpl in Hn; try lia.
  rewrite !Forall_cons in Hl. destruct Hl as (? & ? & ? & ? & Hl).
  replace (4 * S n)%nat with (S (S (S (S (4 * n))))) by lia. cbn [le_words nth take].
  change (unwords (?w :: ?ws)) with (word_bytes w ++ unwords ws).
  cbn [drop]. rewrite word_bytes_le32, IH by (done || rewrite skipn_O; lia). done.
Qed.

Lemma word_count_bounds len : 0 ≤ len → len ≤ 4 * word_count len < len + 4.
Proof. intros. unfold word_count. pose proof (Z.div_mod (len + 3) 4). pose proof (Z.mod_pos_bound (len + 3) 4). lia. Qed.

Lemma word_count_add a b : a mod 4 = 0 → word_count (a + b) = word_count a + word_count b.
Proof.
  intros Ha. apply Z.mod_divide in Ha as [q ->]; [|done]. unfold word_count.
  replace (q * 4 + b + 3) with (b + 3 + q * 4) by lia.
  replace (q * 4 + 3) with (3 + q * 4) by lia.
  rewrite !Z.div_add by done. change (3 / 4) with 0. lia.
Qed.

(** A chain in which only the last pbuf may end inside a word. *)
Fixpoint word_aligned (c : Pbuf.chain) : Prop :=
  match c with
  | [] => True
  | [_] => True
  | q :: c => p_len q mod 4 = 0 ∧ word_aligned c
  end.

(** ** Transmitting *)

Section transmit.
Context {D : Type} `{Mmio D} (after : pbuf → list Z).
(** The words written to the transmit FIFO. *)
Context (tx_words : D → list Z).
Context (tx_fifo_law : ∀ v d, tx_words (mmio_write TX_DATA_FIFO v d) = tx_words d ++ [v]).
Context (after_law : ∀ q, (3 ≤ length (after q))%nat ∧ all_bytes (after q)).

Definition chain_words (c : Pbuf.chain) : list Z := c ≫= pbuf_words after.

Lemma write_words_spec ws d :
  wp (write_words ws) (λ _ d', tx_words d' = tx_words d ++ (u32 <$> ws)) d.
Proof using tx_fifo_law.
  revert d. induction ws as [|w ws IH]; intros d.
  { apply wp_ret. by rewrite app_nil_r. }
  cbn [write_words]. apply wp_bind, wp_modify. eapply wp_mono; [apply IH|]. cbv beta.
  intros ? d' ->. by rewrite tx_fifo_law, <-app_assoc.
Qed.

Lemma le32_u32 a b c d :
  byte_ok a → byte_ok b → byte_ok c → byte_ok d → u32 (le32 a b c d) = le32 a b c d.
Proof. intros. apply u32_id. rewrite le32_be32. by apply be32_range. Qed.

Lemma nth_byte i l : all_bytes l → byte_ok (nth i l 0).
Proof.
  intros Hl. destruct (lt_dec i (length l)) as [Hi|Hi].
  - rewrite Forall_nth in Hl. by apply Hl.
  - rewrite nth_overflow by lia. by unfold byte_ok.
Qed.

Lemma le_words_u32 n l : all_bytes l → u32 <$> le_words n l = le_words n l.
Proof.
  revert l. induction n as [|n IH]; intros l Hl; [done|]. cbn [le_words fmap list_fmap].
  rewrite le32_u32 by (by apply nth_byte). f_equal. apply IH. by apply Forall_drop.
Qed.

Lemma write_chain_spec c d :
  all_bytes (bytes c) →
  wp (write_chain after c) (λ _ d', tx_words d' = tx_words d ++ chain_words c) d.
Proof using tx_fifo_law after_law.
  revert d. induction c as [|q c IH]; intros d Hb.
  { apply wp_ret. by rewrite app_nil_r. }
  rewrite bytes_cons, Forall_app in Hb. destruct Hb as [Hq Hc].
  cbn [write_chain]. apply wp_bind. eapply wp_mono; [apply write_words_spec|]. cbv beta.
  intros ? d' Hd'. eapply wp_mono; [by apply IH|]. cbv beta. intros ? d'' ->.
  rewrite Hd', <-app_assoc. f_equal. unfold chain_words. cbn [mbind list_bind]. f_equal.
  unfold pbuf_words. rewrite le_words_u32; [done|]. apply Forall_app. split; [done|apply after_law].
Qed.

(** The words of an aligned chain are those of its bytes. *)
Lemma chain_words_bytes c :
  chain_ok c → all_bytes (bytes c) → word_aligned c →
  Z.of_nat (length (chain_words c)) = word_count (chain_len c) ∧
  ∃ pad, unwords (chain_words c) = bytes c ++ pad.
Proof using after_law.
  induction c as [|q c IH]; intros Hc Hb Ha; [split; [done|by exists []]|].
  pose proof (chain_ok_len q c Hc) as (Hq & Ht & _). apply chain_ok_tail in Hc.
  rewrite bytes_cons, Forall_app in Hb. destruct Hb as [Hbq Hbc].
  destruct (after_law q) as [Hla Hba]. pose proof (word_count_bounds (p_len q) ltac:(lia)) as Hw.
  assert (Hall : all_bytes (payload q ++ after q)) by (by apply Forall_app).
  assert (Hu : unwords (pbuf_words after q) =
    take (4 * Z.to_nat (word_count (p_len q))) (payload q ++ after q)).
  { apply unwords_le_words; [done|]. rewrite length_app. lia. }
  unfold chain_words, chain_len in *. cbn [mbind list_bind].
  rewrite bytes_cons, !length_app, unwords_app, Hu.
  destruct c as [|q' c].
  - simpl. rewrite !app_nil_r, !Nat.add_0_r. unfold pbuf_words. rewrite length_le_words.
    rewrite <-Hq. split; [lia|]. rewrite take_app_ge by lia. by eexists.
  - destruct Ha as [Ha0 Ha]. destruct (IH Hc Hbc Ha) as [Hl [pad Hp]].
    rewrite Nat2Z.inj_add, Hl, Nat2Z.inj_add, <-Hq, word_count_add by done.
    unfold pbuf_words at 1. rewrite length_le_words. split; [lia|].
    exists pad. rewrite Hp.
    assert (E : (4 * Z.to_nat (word_count (p_len q)))%nat = length (payload q)).
    { pose proof (Z.div_mod (p_len q) 4). lia. }
    rewrite E, take_app_length, app_assoc. done.
Qed.

(** C31: transmitting a frame writes its length twice, in the two commands, and
    then exactly the words the controller expects for that length, which hold
    the bytes of the frame in order, provided that only the last pbuf of the
    chain ends inside a word. *)
Theorem lan9118_linkoutput_frame c d :
  c ≠ [] → chain_ok c → all_bytes (bytes c) → word_aligned c → chain_len c < 2048 →
  wp (lan9118_linkoutput after c) (λ r d', r = ERR_OK ∧ ∃ ws pad,
    tx_words d' = tx_words d ++ [0x3000 + chain_len c; chain_len c] ++ ws ∧
    Z.of_nat (length ws) = word_count (chain_len c) ∧
    unwords ws = bytes c ++ pad) d.
Proof using tx_fifo_law after_law.
  intros Hne Hc Hb Ha Hlen. destruct c as [|q c]; [done|]. unfold lan9118_linkoutput.
  pose proof Hc as (_ & Ht & _ & _). fold (chain_len (q :: c)) in Ht.
  pose proof (chain_len_bound _ Hc) as H0. rewrite Ht.
  assert (Hland : Z.land (chain_len (q :: c)) 0x7FF = chain_len (q :: c)).
  { change 0x7FF with (Z.ones 11). rewrite land_mask by lia. apply Z.mod_small. lia. }
  assert (Hcmd : Z.lor (Z.lor TX_CMD_A_FIRST_SEG TX_CMD_A_LAST_SEG) (chain_len (q :: c)) =
    0x3000 + chain_len (q :: c)).
  { change (Z.lor TX_CMD_A_FIRST_SEG TX_CMD_A_LAST_SEG) with (Z.shiftl 3 12).
    rewrite lor_shiftl_add by lia. lia. }
  rewrite Hland, Hcmd. apply wp_bind, wp_modify, wp_bind, wp_modify, wp_bind.
  eapply wp_mono; [by apply write_chain_spec|]. cbv beta. intros ? d' Hd'. apply wp_ret.
  split; [done|]. destruct (chain_words_bytes (q :: c) Hc Hb Ha) as [Hl [pad Hp]].
  exists (chain_words (q :: c)), pad. split; [|done].
  rewrite Hd', !tx_fifo_law, <-!app_assoc. rewrite !u32_id by lia. done.
Qed.
End transmit.

(** A controller that records the words written to its transmit FIFO. *)
Record tx_log := TxLog { tl_words : list Z }.
#[local] Instance tx_log_mmio : Mmio tx_log := {|
  mmio_read _ d := (0, d);
  mmio_write a v d := if a =? TX_DATA_FIFO then TxLog (tl_words d ++ [v]) else d
|}.

Definition slack (q : pbuf) : list Z := [0; 0; 0].
Definition two_pbufs : Pbuf.chain := [Pbuf [1; 2; 3; 4] 4 6; Pbuf [5; 6] 2 2].

Lemma lan9118_linkoutput_frame_witness :
  wp (lan9118_linkoutput slack two_pbufs) (λ r d', r = ERR_OK ∧ ∃ ws pad,
    tl_words d' = tl_words (TxLog []) ++ [0x3000 + chain_len two_pbufs; chain_len two_pbufs] ++ ws ∧
    Z.of_nat (length ws) = word_count (chain_len two_pbufs) ∧
    unwords ws = bytes two_pbufs ++ pad) (TxLog []).
Proof.
  apply (lan9118_linkoutput_frame slack tl_words).
  - done.
  - intros q. split; [simpl; lia|by repeat constructor].
  - done.
  - by repeat split.
  - by repeat constructor.
  - by split.
  - reflexivity.
Defined.

(** Without that provision a frame is sent wrong.  The words of each pbuf
    are written apart, so a frame of four bytes in a pbuf of three and one of
    one takes two words where the controller expects one, and the first of
    them does not hold the frame. *)
Theorem linkoutput_split_word :
  let c := [Pbuf [1; 2; 3] 3 4; Pbuf [4] 1 1] in
  chain_ok c ∧
  wp (lan9118_linkoutput slack c) (λ r d', ∃ ws,
    tl_words d' = [0x3004; 4] ++ ws ∧ length ws = 2%nat ∧ word_count (chain_len c) = 1 ∧
    take 4 (unwords ws) ≠ bytes c) (TxLog []).
Proof.
  split; [by repeat split|]. vm_compute. eexists. split_and!; try reflexivity. discriminate.
Qed.

(** ** Receiving *)

(** A received frame in the controller: its status word, and its data words,
    the checksum included. *)
Record frame := Frame { f_status : Z; f_words : list Z }.

Definition raw_len (f : frame) : Z := Z.land (Z.shiftr (f_status f) 16) 0x3FFF.
Definition frame_ok (f : frame) : Prop :=
  Z.of_nat (length (f_words f)) = word_count (raw_len f).
(** The bytes of the frame: those of its words, without the checksum. *)
Definition frame_bytes (f : frame) : list Z :=
  take (Z.to_nat (if 4 <? raw_len f then raw_len f - 4 else raw_len f)) (unwords (f_words f)).

(** What happens to the pool and the stack: the stack is given a packet, or the pool
    is asked for a buffer and has none. *)
Inductive rx_event : Type := Given (l : list Z) | NoBuffer.

(** What the driver sees: the status words and the data words the controller
    still holds, what happened, and the number of packet buffers the driver has
    to give away. *)
Record rx_view := RxView {
  r_status : list Z;
  r_data : list Z;
  r_log : list rx_event;
  r_held : Z
}.

Class RxLaws (D : Type) `{Mmio D, Stack D} := {
  rx_view_of : D → rx_view;
  rx_inf_law d : let '(v, d') := mmio_read RX_FIFO_INF d in
    rx_view_of d' = rx_view_of d ∧
    (Z.land v 0x00FF0000 = 0 ↔ r_status (rx_view_of d) = []);
  rx_status_law st sts ws g n d : rx_view_of d = RxView (st :: sts) ws g n →
    let '(v, d') := mmio_read RX_STATUS_FIFO d in v = st ∧ rx_view_of d' = RxView sts ws g n;
  rx_data_law sts w ws g n d : rx_view_of d = RxView sts (w :: ws) g n →
    let '(v, d') := mmio_read RX_DATA_FIFO d in v = w ∧ rx_view_of d' = RxView sts ws g n;
  (** A chain from the pool: of the length asked for, each pbuf but the last a
      whole number of words. *)
  pbuf_alloc_pool_law len sts ws g n d : 0 ≤ len < 65536 → rx_view_of d = RxView sts ws g n →
    wp (pbuf_alloc_pool len) (λ r d', match r with
      | None => rx_view_of d' = RxView sts ws (g ++ [NoBuffer]) n
      | Some c => rx_view_of d' = RxView sts ws g (n + 1) ∧
          c ≠ [] ∧ chain_ok c ∧ word_aligned c ∧ chain_len c = len
      end) d;
  (** The stack owns the chain when it accepts it. *)
  netif_input_law c sts ws g n d : chain_ok c → rx_view_of d = RxView sts ws g n →
    wp (netif_input c) (λ r d',
      rx_view_of d' = RxView sts ws (g ++ [Given (bytes c)]) (if r =? ERR_OK then n - 1 else n)) d;
  rx_pbuf_free_law c sts ws g n d : 0 < n → rx_view_of d = RxView sts ws g n →
    wp (rx_pbuf_free c) (λ _ d', rx_view_of d' = RxView sts ws g (n - 1)) d
}.

Section receive.
Context {D : Type} `{RxLaws D}.
Implicit Types d : D.

Lemma read_words_spec ws1 ws2 sts g n d :
  rx_view_of d = RxView sts (ws1 ++ ws2) g n →
  wp (read_words (length ws1)) (λ r d', r = ws1 ∧ rx_view_of d' = RxView sts ws2 g n) d.
Proof.
  revert d. induction ws1 as [|w ws1 IH]; intros d Hd; [by apply wp_ret|].
  cbn [read_words length]. apply wp_bind, wp_read_reg.
  pose proof (rx_data_law _ _ _ _ _ _ Hd) as Hl. destruct (mmio_read RX_DATA_FIFO d) as [v d'].
  destruct Hl as [-> Hd']. apply wp_bind. eapply wp_mono; [by apply IH|]. cbv beta.
  intros r d'' [-> ?]. by apply wp_ret.
Qed.

(** Filling a chain with more words than it has room for. *)
Lemma read_chain_spec c ws sts ws2 g n d :
  chain_ok c → word_aligned c → word_count (chain_len c) ≤ Z.of_nat (length ws) →
  rx_view_of d = RxView sts (ws ++ ws2) g n →
  wp (read_chain c (Z.of_nat (length ws))) (λ r d',
    chain_ok r.1 ∧ bytes r.1 = take (Z.to_nat (chain_len c)) (unwords ws) ∧
    ∃ ws1 rest, ws = ws1 ++ rest ∧ r.2 = Z.of_nat (length rest) ∧
      rx_view_of d' = RxView sts (rest ++ ws2) g n) d.
Proof.
  revert ws d. induction c as [|q c IH]; intros ws d Hc Ha Hw Hd.
  { apply wp_ret. split; [done|]. split; [done|]. exists [], ws. done. }
  pose proof (chain_ok_len q c Hc) as (Hq & Ht & Hb). pose proof Hc as (Hl1 & Hl2 & Hl3 & Hok).
  unfold chain_len in Hw. rewrite bytes_cons, length_app in Hw.
  pose proof (word_count_bounds (p_len q) ltac:(lia)) as Hwq.
  pose proof (word_count_bounds (Z.of_nat (length (payload q) + length (bytes c))) ltac:(lia)) as Hwa.
  assert (Hn : word_count (p_len q) ≤ Z.of_nat (length ws)).
  { unfold word_count in *. pose proof (Z.div_le_mono (p_len q + 3)
      (Z.of_nat (length (payload q) + length (bytes c)) + 3) 4). lia. }
  cbn [read_chain]. rewrite Z.min_l by done.
  set (k := Z.to_nat (word_count (p_len q))).
  assert (Hk : length (take k ws) = k) by (rewrite length_take; lia).
  rewrite <-(take_drop k ws), <-app_assoc in Hd.
  apply wp_bind. rewrite <-Hk at 1. eapply wp_mono; [by eapply read_words_spec|]. cbv beta.
  intros r d1 [-> Hd1]. apply wp_bind.
  assert (Hstore : ∀ l, bytes (store_words q (take k ws) :: l) =
    take (length (payload q)) (unwords ws) ++ bytes l).
  { intros l. rewrite bytes_cons. f_equal. unfold store_words. simpl.
    rewrite take_app_le by (rewrite length_unwords, Hk; lia).
    rewrite <-(take_drop k ws) at 2. rewrite unwords_app, take_app_le; [done|].
    rewrite length_unwords, Hk. lia. }
  assert (Hlen : length (take (length (payload q)) (unwords ws)) = length (payload q)).
  { rewrite length_take, length_unwords. lia. }
  replace (Z.of_nat (length ws) - word_count (p_len q)) with (Z.of_nat (length (drop k ws)))
    by (rewrite length_drop; lia).
  assert (Hrest : word_aligned c ∧ word_count (chain_len c) ≤ Z.of_nat (length (drop k ws)) ∧
    (c = [] ∨ (4 * k = length (payload q))%nat)).
  { rewrite length_drop. destruct c as [|q' c]; [split_and!; [done|change (word_count (chain_len [])) with 0; lia|by left]|].
    destruct Ha as [Ha0 Ha]. split; [done|].
    rewrite Nat2Z.inj_add, <-Hq, word_count_add in Hw by done. unfold chain_len.
    split; [lia|]. right. apply Z.mod_divide in Ha0 as [z Hz]; [|done]. lia. }
  destruct Hrest as (Hac & Hwc & Hcase).
  eapply wp_mono; [by apply IH|]. cbv beta. intros [c' unread] d2 (Hc' & Hbc & ws1 & rest & Hdr & Hu & Hd2).
  apply wp_ret. cbn [fst snd] in *. rewrite Hstore, Hbc.
  assert (Hbytes : take (length (payload q)) (unwords ws) ++
    take (Z.to_nat (chain_len c)) (unwords (drop k ws)) =
    take (Z.to_nat (chain_len (q :: c))) (unwords ws)).
  { unfold chain_len. rewrite bytes_cons, length_app.
    destruct Hcase as [->|Hk4]; [simpl; by rewrite app_nil_r, Nat.add_0_r, Nat2Z.id|].
    rewrite <-(take_drop k ws) at 1 3. rewrite !unwords_app.
    assert (Hu4 : length (unwords (take k ws)) = length (payload q)).
    { rewrite length_unwords, Hk. lia. }
    rewrite <-Hu4, take_app_length, !Nat2Z.id, take_app_add. done. }
  split; [|split; [exact Hbytes|]].
  - split; [simpl; rewrite length_take, length_app, length_unwords, length_drop, Hk; lia|].
    split; [|split; [done|done]]. rewrite Hstore, Hbc, Hbytes.
    simpl. rewrite length_take, length_unwords. unfold chain_len. lia.
  - exists (take k ws ++ ws1), rest. rewrite <-app_assoc, <-Hdr, take_drop. done.
Qed.
(** The controller holds [fs]. *)
Definition holds (fs : list frame) (g : list rx_event) (n : Z) d : Prop :=
  rx_view_of d = RxView (f_status <$> fs) (concat (f_words <$> fs)) g n.

Lemma raw_len_range f : 0 ≤ raw_len f < 16384.
Proof.
  unfold raw_len. change 0x3FFF with (Z.ones 14). rewrite land_mask by lia.
  apply Z.mod_pos_bound. lia.
Qed.

(** What becomes of a frame: the stack is given its bytes, once, unless the pool has
    no buffer for them; an empty one is passed over. *)
Definition handled (f : frame) (evs : list rx_event) : Prop :=
  if raw_len f =? 0 then evs = [] else evs = [Given (frame_bytes f)] ∨ evs = [NoBuffer].

(** One turn takes one frame off the controller, all of its words. *)
Lemma poll_packet_spec f fs g n d :
  frame_ok f → 0 ≤ n → holds (f :: fs) g n d →
  wp poll_packet (λ _ d', ∃ evs, handled f evs ∧ holds fs (g ++ evs) n d') d.
Proof.
  intros Hf Hn0 Hd. unfold holds in *. cbn [fmap list_fmap concat] in Hd.
  pose proof (raw_len_range f) as Hr. unfold poll_packet, handled. apply wp_bind, wp_read_reg.
  pose proof (rx_status_law _ _ _ _ _ _ Hd) as Hl. destruct (mmio_read RX_STATUS_FIFO d) as [v d1].
  destruct Hl as [-> Hd1]. fold (raw_len f). unfold frame_ok in Hf.
  destruct (Z.eqb_spec (raw_len f) 0) as [E0|E0].
  { apply wp_ret. exists []. split; [done|]. rewrite app_nil_r.
    rewrite E0 in Hf. change (word_count 0) with 0 in Hf.
    destruct (f_words f); [done|simpl in Hf; lia]. }
  set (len := if 4 <? raw_len f then raw_len f - 4 else raw_len f).
  assert (Hlen : 0 ≤ len ≤ raw_len f) by (subst len; destruct (Z.ltb_spec 4 (raw_len f)); lia).
  assert (Hwl : word_count len ≤ word_count (raw_len f)).
  { unfold word_count. apply Z.div_le_mono; lia. }
  apply wp_bind. eapply wp_mono; [eapply pbuf_alloc_pool_law; [lia|done]|]. cbv beta.
  intros [c|] d2 Hd2.
  - destruct Hd2 as (Hd2 & Hne & Hc & Ha & Hcl). rewrite <-Hf. apply wp_bind.
    eapply wp_mono; [eapply (read_chain_spec c _ _ _ _ _ d2 Hc Ha); [|exact Hd2]; rewrite Hcl, Hf; exact Hwl|]. cbv beta.
    intros [p unread] d3 (Hp & Hb & ws1 & rest & _ & Hu & Hd3). cbn [fst snd] in *.
    rewrite Hu, Nat2Z.id. apply wp_bind. eapply wp_mono; [by eapply read_words_spec|]. cbv beta.
    intros ? d4 [_ Hd4]. apply wp_bind.
    eapply wp_mono; [by eapply (netif_input_law _ _ _ _ _ d4 Hp Hd4)|]. cbv beta.
    intros r d5 Hd5. rewrite Hb, Hcl in Hd5. change (take (Z.to_nat len) (unwords (f_words f))) with (frame_bytes f) in Hd5.
    apply (wp_mono _ (λ _ d', rx_view_of d' = RxView (f_status <$> fs) (concat (f_words <$> fs))
      (g ++ [Given (frame_bytes f)]) n)).
    + apply wp_when; intros Hr'; destruct (r =? ERR_OK); try done.
      * eapply wp_mono; [eapply rx_pbuf_free_law; [|exact Hd5]; lia|]. cbv beta.
        intros ? d' ->. by rewrite Z.add_simpl_r.
      * by rewrite Z.add_simpl_r in Hd5.
    + intros ? d' ?. exists [Given (frame_bytes f)]. split; [by left|done].
  - rewrite <-Hf, Nat2Z.id. apply wp_bind. eapply wp_mono; [by eapply read_words_spec|]. cbv beta.
    intros ? d3 [_ Hd3]. apply wp_ret. exists [NoBuffer]. split; [by right|done].
Qed.

(** C30: a poll empties the controller and stays in step with it: every frame is
    read to its last word; the stack is given the bytes of each, in order, once
    and without their checksum, but of those for which the pool had no buffer
    when it was asked and of empty ones; and no buffer stays with the driver. *)
Theorem lan9118_poll_drains fs g n d fuel :
  Forall frame_ok fs → 0 ≤ n → holds fs g n d → (length fs < fuel)%nat →
  wp (lan9118_poll fuel) (λ _ d', ∃ evs,
    Forall2 handled fs evs ∧ holds [] (g ++ concat evs) n d') d.
Proof.
  intros Hfs Hn0 Hd Hfuel. unfold lan9118_poll.
  apply (wp_while (λ k d', ∃ fs1 fs2 evs, fs = fs1 ++ fs2 ∧ k = length fs2 ∧
    Forall2 handled fs1 evs ∧ holds fs2 (g ++ concat evs) n d') _ _ _ _ _ (length fs));
    [|done|].
  { exists [], fs, []. cbn [concat]. rewrite app_nil_r. by split_and!. }
  intros k d1 (fs1 & fs2 & evs & E & -> & Hevs & Hd1). apply wp_bind, wp_read_reg.
  pose proof (rx_inf_law d1) as Hl. destruct (mmio_read RX_FIFO_INF d1) as [v d2].
  destruct Hl as [Hv Hz]. unfold holds in Hd1. rewrite Hd1 in Hv, Hz. cbn [r_status] in Hz.
  apply wp_ret. destruct (Z.eqb_spec (Z.land v 0x00FF0000) 0) as [Ev|Ev]; cbn [negb].
  - apply Hz in Ev. destruct fs2; [|done]. rewrite app_nil_r in E. subst fs1. by exists evs.
  - destruct fs2 as [|f fs2]; [naive_solver|]. split; [simpl; lia|].
    assert (Hf : frame_ok f).
    { rewrite Forall_forall in Hfs. apply Hfs. rewrite E. apply elem_of_app. right. by left. }
    eapply wp_mono; [by apply (poll_packet_spec f fs2 (g ++ concat evs) n d2)|]. cbv beta.
    intros _ d3 (ev & Hev & Hd3). exists (length fs2). split; [simpl; lia|].
    exists (fs1 ++ [f]), fs2, (evs ++ [ev]). rewrite <-app_assoc in Hd3 |- *.
    split_and!; [done|done|apply Forall2_app; [done|by constructor]|]. by rewrite concat_app, (app_nil_r ev : concat [ev] = ev).
Qed.
End receive.

(** A controller with frames in it, and a stack that accepts every frame. *)
Record rx_dev := RxDev { rd_view : rx_view }.

#[local] Instance rx_dev_mmio : Mmio rx_dev := {|
  mmio_read a d :=
    let v := rd_view d in
    if a =? RX_FIFO_INF then (match r_status v with [] => 0 | _ => 0x10000 end, d)
    else if a =? RX_STATUS_FIFO then
      match r_status v with
      | st :: sts => (st, RxDev (RxView sts (r_data v) (r_log v) (r_held v)))
      | [] => (0, d)
      end
    else if a =? RX_DATA_FIFO then
      match r_data v with
      | w :: ws => (w, RxDev (RxView (r_status v) ws (r_log v) (r_held v)))
      | [] => (0, d)
      end
    else (0, d);
  mmio_write _ _ d := d
|}.

Definition pool_chain (len : Z) : Pbuf.chain := [Pbuf (replicate (Z.to_nat len) 0) len len].

#[local] Instance rx_dev_stack : Stack rx_dev := {|
  pbuf_alloc_pool len := v ← gets rd_view;
    put (RxDev (RxView (r_status v) (r_data v) (r_log v) (r_held v + 1)));;
    mret (Some (pool_chain len));
  netif_input c := v ← gets rd_view;
    put (RxDev (RxView (r_status v) (r_data v) (r_log v ++ [Given (bytes c)]) (r_held v - 1)));;
    mret ERR_OK;
  rx_pbuf_free _ := v ← gets rd_view;
    put (RxDev (RxView (r_status v) (r_data v) (r_log v) (r_held v - 1)))
|}.

#[local] Instance rx_dev_laws : RxLaws rx_dev.
Proof.
  refine {| rx_view_of := rd_view |}.
  - intros d. cbn. split; [done|]. by destruct (r_status (rd_view d)).
  - intros st sts ws g n d Hd. cbn. by rewrite Hd.
  - intros sts w ws g n d Hd. cbn. by rewrite Hd.
  - intros len sts ws g n d Hl Hd. unfold pbuf_alloc_pool, rx_dev_stack. wp_go. simpl. rewrite Hd.
    split; [done|]. split; [done|]. unfold chain_len, bytes. simpl.
    rewrite app_nil_r, length_replicate. split_and!; try done; lia.
  - intros c sts ws g n d _ Hd. unfold netif_input, rx_dev_stack. wp_go. simpl. by rewrite Hd.
  - intros c sts ws g n d _ Hd. unfold rx_pbuf_free, rx_dev_stack. wp_go. simpl. by rewrite Hd.
Defined.

(** Two frames of 9 and 12 bytes with their checksums. *)
Definition demo_frames : list frame :=
  [Frame 0x90000 [0x04030201; 0xAAAA0605; 0xAA]; Frame 0xC0000 [1; 2; 3]].

Lemma lan9118_poll_drains_witness :
  wp (lan9118_poll 3) (λ _ d', ∃ evs, Forall2 handled demo_frames evs ∧
    holds [] ([] ++ concat evs) 0 d')
    (RxDev (RxView (f_status <$> demo_frames) (concat (f_words <$> demo_frames)) [] 0)).
Proof.
  apply (lan9118_poll_drains demo_frames [] 0 _ 3); [|done|done|simpl; lia].
  by repeat constructor.
Defined.

(** Both are given to the stack, without their checksums. *)
Example demo_frames_given :
  r_log (rd_view (lan9118_poll 3
    (RxDev (RxView (f_status <$> demo_frames) (concat (f_words <$> demo_frames)) [] 0))).2) =
  [Given [1; 2; 3; 4; 5]; Given [1; 0; 0; 0; 2; 0; 0; 0]].
Proof. by vm_compute. Qed.

(** ** Initialisation *)

Section init.
Context {D : Type} `{Mmio D, !Console D}.
(** The writes to the controller. *)
Context (log : D → list (Z * Z)).
Context (read_law : ∀ a d, log (mmio_read a d).2 = log d).
Context (write_law : ∀ a v d, LAN9118_BASE ≤ a → log (mmio_write a v d) = log d ++ [(a, v)]).
Context (putc_log : ∀ c l d, log d = l → wp (putc c) (λ _ d', log d' = l) d).

Lemma read_log {B} a (k : Z → M D B) Q l d :
  log d = l → (∀ v d', log d' = l → wp (k v) Q d') → wp (read_reg a ≫= k) Q d.
Proof using read_law.
  intros Hd Hk. apply wp_bind, wp_read_reg. pose proof (read_law a d).
  destruct (mmio_read a d) as [v d']. simpl in *. apply Hk. congruence.
Qed.

Lemma write_log {B} a v (k : M D B) Q l d :
  LAN9118_BASE ≤ a → log d = l → (∀ d', log d' = l ++ [(a, u32 v)] → wp k Q d') →
  wp (write_reg a v;; k) Q d.
Proof using write_law.
  intros Ha Hd Hk. apply wp_bind, wp_modify, Hk. by rewrite write_law, Hd.
Qed.

Lemma puts_log {B} str (k : M D B) Q l d :
  log d = l → (∀ d', log d' = l → wp k Q d') → wp (uart_puts str;; k) Q d.
Proof using putc_log.
  intros Hd Hk. apply wp_bind. eapply wp_mono; [by apply (puts_keeps (λ d, log d = l)); [intros; apply putc_log|]|].
  intros ? d'. apply Hk.
Qed.

Lemma printf_log {B} fmt args (k : M D B) Q l d :
  is_Some (vformat FText fmt args) → log d = l → (∀ d', log d' = l → wp k Q d') →
  wp (uart_printf fmt args;; k) Q d.
Proof using putc_log.
  intros Hf Hd Hk. apply wp_bind. eapply wp_mono; [by apply (printf_keeps (λ d, log d = l)); [intros; apply putc_log| |]|].
  intros ? d'. apply Hk.
Qed.

(** Waiting ends, whatever the controller answers, and writes nothing. *)
Lemma wait_log timeout reg mask body l d :
  log d = l → (∀ d, log d = l → wp body (λ _ d', log d' = l) d) →
  wp (wait_clear timeout reg mask body) (λ _ d', log d' = l) d.
Proof using read_law.
  revert d. induction timeout as [|n IH]; intros d Hd Hb; [by apply wp_ret|].
  cbn [wait_clear]. apply (read_log _ _ _ l); [done|]. intros v d' Hd'.
  destruct (Z.land v mask =? 0); [by apply wp_ret|]. destruct (n =? 0)%nat; [by apply wp_ret|].
  apply wp_bind. eapply wp_mono; [by apply Hb|]. intros ? d'' ?. by apply IH.
Qed.

Lemma mac_wait_log l d : log d = l → wp mac_wait_busy (λ _ d', log d' = l) d.
Proof using read_law.
  intros Hd. unfold mac_wait_busy. apply wp_bind.
  eapply wp_mono; [apply (wait_log _ _ _ _ l _ Hd); intros; by apply wp_ret|].
  intros ? d' ?. by apply wp_ret.
Qed.

Lemma mac_write_log {B} reg val (k : M D B) Q l d :
  log d = l →
  (∀ d', log d' = l ++ [(MAC_CSR_DATA, u32 val);
                        (MAC_CSR_CMD, u32 (Z.lor MAC_CSR_CMD_BUSY reg))] → wp k Q d') →
  wp (mac_write reg val;; k) Q d.
Proof using read_law write_law.
  intros Hd Hk. apply wp_bind. unfold mac_write. apply wp_bind.
  eapply wp_mono; [apply (mac_wait_log _ _ Hd)|]. intros ? d1 Hd1.
  eapply write_log; [done|exact Hd1|]. intros d2 Hd2.
  eapply write_log; [done|exact Hd2|]. intros d3 Hd3.
  apply wp_bind. eapply wp_mono; [apply (mac_wait_log _ _ Hd3)|]. intros ? d4 Hd4.
  apply wp_ret, Hk. by rewrite Hd4, <-app_assoc.
Qed.

(** Reset, configuration, the MAC address, the receiver and transmitter on,
    and the interrupts off. *)
Definition init_writes (hw : Z) : list (Z * Z) :=
  [(HW_CFG, u32 (Z.lor hw HW_CFG_SRST)); (HW_CFG, HW_CFG_MBO); (TX_CFG, TX_CFG_TXSAO); (RX_CFG, 0);
   (MAC_CSR_DATA, 0xF0F70200); (MAC_CSR_CMD, 0x80000003);
   (MAC_CSR_DATA, 0x0100); (MAC_CSR_CMD, 0x80000002);
   (MAC_CSR_DATA, 0x10000C); (MAC_CSR_CMD, 0x80000001);
   (TX_CFG, TX_CFG_TX_ON); (INT_STS, 0xFFFFFFFF); (INT_EN, 0)].

(** The initialisation returns whatever the controller answers, also when
    it never leaves reset or stays busy, and it always performs the same
    writes: among them the MAC address 00:02:f7:f0:00:01, receiver and
    transmitter on in full duplex, and all interrupts off. *)
Theorem lan9118_netif_init_writes n l d :
  log d = l →
  wp (lan9118_netif_init n) (λ r d', r = (ERR_OK, Netif [101; 110] mac_addr 1500 0x0F) ∧
    ∃ hw, log d' = l ++ init_writes hw) d.
Proof using read_law write_law putc_log.
  intros Hd. unfold lan9118_netif_init. apply wp_bind.
  apply (wp_mono _ (λ _ d', ∃ hw, log d' = l ++ init_writes hw)).
  2: { intros ? d' ?. by apply wp_ret. }
  unfold lan9118_hw_init.
  eapply puts_log; [exact Hd|]. intros d1 Hd1. eapply read_log; [exact Hd1|]. intros id d2 Hd2.
  eapply printf_log; [by eexists|exact Hd2|]. intros d3 Hd3.
  eapply read_log; [exact Hd3|]. intros bt d4 Hd4.
  eapply printf_log; [by eexists|exact Hd4|]. intros d5 Hd5.
  eapply read_log; [exact Hd5|]. intros hw d6 Hd6. eapply write_log; [done|exact Hd6|]. intros d7 Hd7.
  apply wp_bind. eapply wp_mono; [apply (wait_log _ _ _ _ _ _ Hd7); intros; by apply wp_ret|].
  cbv beta. clear dependent d. intros timeout d Hd. apply wp_bind.
  apply (wp_mono _ (λ _ d', log d' = l ++ [(HW_CFG, u32 (Z.lor hw HW_CFG_SRST))])).
  { destruct (timeout =? 0)%nat;
      (apply (puts_keeps (λ d', log d' = l ++ [(HW_CFG, u32 (Z.lor hw HW_CFG_SRST))]));
       [intros; by apply putc_log|exact Hd]). }
  clear d Hd timeout. intros ? d Hd.
  do 3 (eapply write_log; [done|exact Hd|]; clear d Hd; intros d Hd).
  apply wp_bind. eapply wp_mono; [apply (wait_log _ _ _ _ _ _ Hd)|].
  { intros d' Hd'. eapply read_log; [exact Hd'|]. intros. by apply wp_ret. }
  cbv beta. clear d Hd. intros ? d Hd.
  eapply puts_log; [exact Hd|]. clear d Hd. intros d Hd.
  do 3 (eapply mac_write_log; [exact Hd|]; clear d Hd; intros d Hd).
  do 3 (eapply write_log; [done|exact Hd|]; clear d Hd; intros d Hd).
  eapply printf_log; [by eexists|exact Hd|]. clear d Hd. intros d Hd.
  eapply wp_mono; [apply (puts_keeps (λ d', log d' = log d)); [intros; by apply putc_log|done]|].
  cbv beta. intros ? d' Hd'. exists hw. rewrite Hd', Hd, <-!app_assoc. reflexivity.
Qed.
End init.

(** A controller that answers every read with ones, so that every wait runs
    out, and logs the writes. *)
Record stuck_dev := StuckDev { sd_log : list (Z * Z); sd_out : list ascii }.

#[local] Instance stuck_mmio : Mmio stuck_dev := {|
  mmio_read _ d := (0xFFFFFFFF, d);
  mmio_write a v d := StuckDev (sd_log d ++ [(a, v)]) (sd_out d)
|}.
#[local] Instance stuck_console : Console stuck_dev := λ c,
  modify (λ d, StuckDev (sd_log d) (sd_out d ++ [c])).

Lemma lan9118_netif_init_writes_witness :
  wp (lan9118_netif_init (Netif [] [] 0 0)) (λ r d',
    r = (ERR_OK, Netif [101; 110] mac_addr 1500 0x0F) ∧ ∃ hw, sd_log d' = [] ++ init_writes hw)
    (StuckDev [] []).
Proof.
  apply (lan9118_netif_init_writes sd_log); [done|done| |done].
  intros c l d Hd. by apply wp_modify.
Defined.
