(* ===== verification/NetInit.v ===== *)
(** Starting the network, [network/lwip_init.c]: [network_init], the status
    callback, and the polling entry point.  The lwIP functions it calls are
    the interface [LwipCore]; the driver is that of [Lan9118]. *)
From Stdlib Require Import Ascii.
From stdpp Require Import base tactics numbers list strings.
From S2P Require Import Prelude Words Printf Console Pbuf Def Ip4Addr Lan9118.

(** The functions of lwIP; [netif_add] is given the driver's initialisation,
    which it calls, and the addresses the interface starts with. *)
Class LwipCore (D : Type) := {
  lwip_init : M D unit;
  netif_add : Z → Z → Z → M D (Z * netif) → M D unit;
  netif_set_default : M D unit;
  netif_set_up : M D unit;
  dhcp_start : M D unit;
  sys_check_timeouts : M D unit;
  netif_ip4_addr : D → Z;
  netif_ip4_netmask : D → Z;
  netif_ip4_gw : D → Z
}.

Section lwip.
Context {D : Type} `{Mmio D, !Console D, !Stack D, !LwipCore D}.

(** The state: the static [dhcp_done], and whether the status callback is
    registered, beside the rest of the machine. *)
Record net_static := NetStatic { dhcp_done : Z; callback_set : bool }.
Definition lstate : Type := net_static * D.
Definition lift {A} (m : M D A) : M lstate A := zoom snd (λ d s, (s.1, d)) m.

(** [uart_printf("  ...: %s\r\n", ip4addr_ntoa(addr))] *)
Definition print_addr (fmt : string) (addr : Z) : M lstate unit :=
  txt ← of_option (ip4addr_ntoa addr);
  lift (uart_printf fmt [PStr txt]);; mret tt.

Definition netif_status_callback : M lstate unit :=
  ip ← gets (λ s : lstate, netif_ip4_addr s.2);
  if negb (ip =? IPADDR_ANY) then
    modify (λ s, (NetStatic 1 (callback_set s.1), s.2));;
    lift (uart_printf ("Network: IP address obtained via DHCP" +:+ crlf) []);;
    ip ← gets (λ s : lstate, netif_ip4_addr s.2);
    print_addr ("  IP:      %s" +:+ crlf) ip;;
    mask ← gets (λ s : lstate, netif_ip4_netmask s.2);
    print_addr ("  Netmask: %s" +:+ crlf) mask;;
    gw ← gets (λ s : lstate, netif_ip4_gw s.2);
    print_addr ("  Gateway: %s" +:+ crlf) gw
  else mret tt.

Definition network_init (n : netif) : M lstate unit :=
  lift (uart_puts ("Initializing lwIP stack..." +:+ crlf));;
  lift lwip_init;;
  lift (uart_puts ("lwIP init done." +:+ crlf));;
  lift (uart_puts ("Adding network interface..." +:+ crlf));;
  lift (netif_add 0 0 0 (lan9118_netif_init n));;
  lift (uart_puts ("Network interface added." +:+ crlf));;
  lift netif_set_default;;
  modify (λ s, (NetStatic (dhcp_done s.1) true, s.2));;
  lift netif_set_up;;
  lift (uart_puts ("Starting DHCP..." +:+ crlf));;
  lift dhcp_start.

Definition lwip_periodic_handle (fuel : nat) : M lstate unit :=
  lift (lan9118_poll fuel);;
  lift sys_check_timeouts.

Definition network_is_up : M lstate Z := gets (λ s : lstate, dhcp_done s.1).
End lwip.

(** ** The status callback *)

Section callback.
Context {D : Type} `{ConsoleLaws D, !LwipCore D}.
(** Printing does not touch the addresses of the interface. *)
Context (putc_addrs : ∀ c d, con_ok d → wp (putc c) (λ _ d',
  netif_ip4_addr d' = netif_ip4_addr d ∧ netif_ip4_netmask d' = netif_ip4_netmask d ∧
  netif_ip4_gw d' = netif_ip4_gw d) d).

Definition addrs (d : D) : Z * Z * Z := (netif_ip4_addr d, netif_ip4_netmask d, netif_ip4_gw d).

Definition dotted_of (addr : Z) : list ascii :=
  dotted (byte_at addr 0) (byte_at addr 1) (byte_at addr 2) (byte_at addr 3).

(** What the callback prints for an address. *)
Definition report (ip mask gw : Z) : list ascii :=
  string_chars ("Network: IP address obtained via DHCP" +:+ crlf) ++
  string_chars "  IP:      " ++ dotted_of ip ++ string_chars crlf ++
  string_chars "  Netmask: " ++ dotted_of mask ++ string_chars crlf ++
  string_chars "  Gateway: " ++ dotted_of gw ++ string_chars crlf.

Lemma dotted_ok addr : no_nul (dotted_of addr) ∧ (length (dotted_of addr) ≤ 15)%nat.
Proof.
  split; [|apply (ntoa_r_text addr 16 ltac:(lia))].
  assert (Hd : ∀ i, no_nul (print_uint 10 (byte_at addr i))).
  { intros i. apply digits_Forall; [lia| |apply byte_at_ok].
    intros d Hd. apply digit_char_not_nul. lia. }
  unfold dotted_of, dotted, no_nul.
  do 3 (apply Forall_app_2; [apply Hd|apply Forall_cons_2; [discriminate|]]). apply Hd.
Qed.

(** A printed line, with the addresses kept. *)
Lemma printf_line fmt args txt d :
  con_ok d → vformat FText fmt args = Some txt → no_nul txt → (length txt ≤ 255)%nat →
  wp (uart_printf fmt args) (λ _ d', emits txt d d' ∧ addrs d' = addrs d) d.
Proof using putc_addrs.
  intros Hok Hf Hn Hl.
  eapply wp_mono; [apply wp_conj; [exact (uart_printf_spec _ _ _ d Hok Hf)|]|].
  - apply (printf_keeps (λ d', con_ok d' ∧ addrs d' = addrs d)); [|by eexists|done].
    intros c d' [Hd Ha].
    eapply wp_mono; [apply wp_conj; [by apply putc_spec|by apply putc_addrs]|].
    intros ? d'' ([? _] & ? & ? & ?). split; [done|]. unfold addrs in *. congruence.
  - cbv beta. intros len d' [[He _] [_ Ha]]. rewrite take_ge in He by done.
    by rewrite cstr_buf_no_nul in He.
Qed.

(** A line with an address in it. *)
Definition addr_line (label : string) (addr : Z) : list ascii :=
  string_chars label ++ dotted_of addr ++ string_chars crlf.

Lemma print_addr_spec label addr (s : net_static * D) :
  label ∈ ["  IP:      "; "  Netmask: "; "  Gateway: "]%string → con_ok s.2 →
  wp (print_addr (label +:+ "%s" +:+ crlf) addr) (λ _ s', s'.1 = s.1 ∧ addrs s'.2 = addrs s.2 ∧
    emits (addr_line label addr) s.2 s'.2) s.
Proof using putc_addrs.
  intros Hl Hok. unfold print_addr, addr_line. apply wp_bind.
  eapply wp_of_option; [apply ip4addr_ntoa_dotted|]. fold (dotted_of addr).
  destruct (dotted_ok addr) as [Hn Hlen]. set (txt := dotted_of addr) in *. clearbody txt.
  assert (Hp : pad false 0 [] txt = txt).
  { unfold pad. by replace (Z.to_nat _) with 0%nat by (simpl; lia). }
  apply wp_bind, wp_zoom. cbn [snd].
  eapply wp_mono; [apply (printf_line _ _ (string_chars label ++ txt ++ string_chars crlf)); [done| | |]|].
  - rewrite <-Hp at 2. rewrite !elem_of_cons in Hl.
    by destruct Hl as [->|[->|[->|Hl]]]; [..|apply elem_of_nil in Hl].
  - rewrite !elem_of_cons in Hl.
    apply Forall_app_2; [|apply Forall_app_2; [done|by repeat constructor]].
    destruct Hl as [->|[->|[->|Hl]]]; [by repeat constructor..|by apply elem_of_nil in Hl].
  - rewrite !elem_of_cons in Hl. rewrite !length_app.
    destruct Hl as [->|[->|[->|Hl]]]; [simpl; lia..|by apply elem_of_nil in Hl].
  - cbv beta. intros len d [He Ha]. by apply wp_ret.
Qed.

(** The status callback takes note of an address and reports it with its
    netmask and gateway in dotted notation; without an address it does
    nothing. *)
Theorem netif_status_callback_reports (s : net_static * D) :
  con_ok s.2 →
  wp netif_status_callback (λ _ s',
    if netif_ip4_addr s.2 =? 0 then s' = s
    else dhcp_done s'.1 = 1 ∧ callback_set s'.1 = callback_set s.1 ∧
         emits (report (netif_ip4_addr s.2) (netif_ip4_netmask s.2) (netif_ip4_gw s.2))
           s.2 s'.2) s.
Proof using putc_addrs.
  intros Hok. unfold netif_status_callback. apply wp_bind, wp_gets. unfold IPADDR_ANY.
  destruct (netif_ip4_addr s.2 =? 0); cbn [negb]; [by apply wp_ret|].
  apply wp_bind, wp_modify, wp_bind, wp_zoom. cbn [snd].
  eapply wp_mono; [apply (printf_line _ _
    (string_chars ("Network: IP address obtained via DHCP" +:+ crlf))); [done|done| |simpl; lia]|].
  { by repeat constructor. }
  cbv beta. intros ? d1 [He1 Ha1]. cbn [fst snd].
  apply wp_bind, wp_gets. apply wp_bind. cbn [snd].
  eapply wp_mono; [apply (print_addr_spec "  IP:      "); [rewrite !elem_of_cons; by auto|apply He1]|]. cbv beta. cbn [fst snd].
  intros ? [n2 d2] (E2 & Ha2 & He2). cbn [fst snd] in *. subst n2.
  apply wp_bind, wp_gets. apply wp_bind. cbn [snd].
  eapply wp_mono; [apply (print_addr_spec "  Netmask: "); [rewrite !elem_of_cons; by auto|apply He2]|]. cbv beta. cbn [fst snd].
  intros ? [n3 d3] (E3 & Ha3 & He3). cbn [fst snd] in *. subst n3.
  apply wp_bind, wp_gets. cbn [snd].
  eapply wp_mono; [apply (print_addr_spec "  Gateway: "); [rewrite !elem_of_cons; by auto|apply He3]|]. cbv beta. cbn [fst snd].
  intros ? [n4 d4] (E4 & Ha4 & He4). cbn [fst snd] in *. subst n4. cbn [fst snd dhcp_done callback_set].
  split; [done|]. split; [done|]. unfold addrs in *. simplify_eq.
  pose proof (emits_trans _ _ _ _ _ (emits_trans _ _ _ _ _ (emits_trans _ _ _ _ _ He1 He2) He3) He4)
    as He. unfold addr_line in He. unfold report.
  rewrite <-!app_assoc in He. replace (netif_ip4_addr s.2) with (netif_ip4_addr d1) by congruence.
  replace (netif_ip4_netmask s.2) with (netif_ip4_netmask d2) by congruence.
  by replace (netif_ip4_gw s.2) with (netif_ip4_gw d3) by congruence.
Qed.
End callback.

(** An interface with a lease, on a console that keeps what it prints. *)
Record lease_dev := LeaseDev { le_out : list ascii; le_ip : Z; le_mask : Z; le_gw : Z }.

#[local] Instance lease_console : Console lease_dev := λ c,
  modify (λ d, LeaseDev (le_out d ++ [c]) (le_ip d) (le_mask d) (le_gw d)).
#[local] Instance lease_console_laws : ConsoleLaws lease_dev.
Proof. refine {| con_ok _ := True; con_out := le_out |}. intros c d _. by apply wp_modify. Defined.
#[local] Instance lease_core : LwipCore lease_dev := {|
  lwip_init := mret tt;
  netif_add _ _ _ _ := mret tt;
  netif_set_default := mret tt;
  netif_set_up := mret tt;
  dhcp_start := mret tt;
  sys_check_timeouts := mret tt;
  netif_ip4_addr := le_ip;
  netif_ip4_netmask := le_mask;
  netif_ip4_gw := le_gw
|}.

Definition demo_lease : net_static * lease_dev :=
  (NetStatic 0 true, LeaseDev [] 0x0F02000A 0x00FFFFFF 0x0202000A).

Example demo_lease_text :
  le_out (netif_status_callback demo_lease).2.2 =
  string_chars ("Network: IP address obtained via DHCP" +:+ crlf +:+ "  IP:      10.0.2.15" +:+ crlf
    +:+ "  Netmask: 255.255.255.0" +:+ crlf +:+ "  Gateway: 10.0.2.2" +:+ crlf).
Proof. vm_compute. reflexivity. Qed.

Lemma netif_status_callback_reports_witness :
  wp netif_status_callback (λ _ s',
    if netif_ip4_addr demo_lease.2 =? 0 then s' = demo_lease
    else dhcp_done s'.1 = 1 ∧ callback_set s'.1 = callback_set demo_lease.1 ∧
         emits (report (netif_ip4_addr demo_lease.2) (netif_ip4_netmask demo_lease.2)
           (netif_ip4_gw demo_lease.2)) demo_lease.2 s'.2) demo_lease.
Proof.
  apply netif_status_callback_reports; [|exact I].
  intros c d _. apply wp_modify. repeat split.
Defined.
