(* ===== verification/KernelInv.v ===== *)
(** What the scheduler needs of the list code, and the invariant of its data. *)
From stdpp Require Import base tactics numbers list gmap sorting.
From S2P Require Import Prelude Words Sched KList KListThm KListRefine Kernel KernelApi.

(** * Laws

    Reasoning about the scheduler: what it needs of the list code, as laws over
    the tables of [KListRefine], which the list memory of [KList] keeps; and
    [kwp], specifications of scheduler functions by what they do to the kernel
    with its lists as tables, with one rule per construct and list operation. *)

(** ** The laws of the list operations *)

Record table_ok (T : ktable) : Prop := {
  to_null L k : kt_lists T !! L = Some k → L ≠ NULL;
  to_nodup L k : kt_lists T !! L = Some k → NoDup (nodes L k);
  to_index L k : kt_lists T !! L = Some k → k_index k ∈ nodes L k;
  to_home x i L k : kt_items T !! x = Some i → kt_lists T !! L = Some k →
    (ki_home i = L ↔ x ∈ k_items k);
  to_known L k x : kt_lists T !! L = Some k → x ∈ k_items k → is_Some (kt_items T !! x);
  to_value x i : kt_items T !! x = Some i → tick_value (ki_value i)
}.

Definition op_of {S} `{ListOps S} (c : lcall) : M S Z :=
  match c with
  | CInsertEnd L x => list_insert_end L x;; mret 0
  | CInsert L x => list_insert L x;; mret 0
  | CRemove x => list_remove x
  | CNext L => list_next_owner L
  | CSetValue x v => item_set_value x v;; mret 0
  | CGetValue x => item_value x
  | CLength L => list_length L
  | CContained L x => c ← item_container x; mret (if c =? L then 1 else 0)
  | CHeadOwner L => list_head_owner L
  | CHeadValue L => list_head_value L
  | COwner x => item_owner x
  | CContainer x => item_container x
  | CSetOwner x o => item_set_owner x o;; mret 0
  | CInitItem x => item_initialise x;; mret 0
  | CZero x => item_zero x;; mret 0
  end.

Class ListLaws (S : Type) `{ListOps S} := {
  shows : S → ktable → Prop;
  table_law s T : shows s T → table_ok T;
  list_law c s T : shows s T → legal c T →
    wp (op_of c) (λ r s', (lspec c T).1 = r ∧ shows s' (lspec c T).2) s
}.

(** ** The list memory keeps them *)

#[export] Instance lmem_ops : ListOps lmem := {|
  list_initialise := vListInitialise;
  list_insert_end := vListInsertEnd;
  list_insert := vListInsert;
  list_remove := uxListRemove;
  list_next_owner := listGET_OWNER_OF_NEXT_ENTRY;
  list_head_owner := listGET_OWNER_OF_HEAD_ENTRY;
  list_head_value := listGET_ITEM_VALUE_OF_HEAD_ENTRY;
  list_length := listCURRENT_LIST_LENGTH;
  item_value := listGET_LIST_ITEM_VALUE;
  item_set_value := listSET_LIST_ITEM_VALUE;
  item_owner := listGET_LIST_ITEM_OWNER;
  item_container := listLIST_ITEM_CONTAINER;
  item_set_owner := listSET_LIST_ITEM_OWNER;
  item_initialise := vListInitialiseItem;
  item_zero := zero_item
|}.

Lemma represents_table σ T : represents σ T → table_ok T.
Proof.
  intros R. split.
  - intros L k HL. by apply (il_null _ _ _ (rp_lists _ _ R L k HL)).
  - intros L k HL. apply (nodes_nodup σ), (rp_lists _ _ R L k HL).
  - intros L k HL. apply (il_index _ _ _ (rp_lists _ _ R L k HL)).
  - apply (rp_home _ _ R).
  - apply (rp_known _ _ R).
  - intros x i Hi. by destruct (rp_items _ _ R x i Hi) as (_ & ? & _).
Qed.

#[export] Instance lmem_laws : ListLaws lmem.
Proof.
  refine {| shows := represents |}; [apply represents_table|].
  intros c σ T R Hc. pose proof (call_refines c σ T R Hc) as H.
  destruct c as [| | | | | | |L x| | | | | | |]; try exact H.
  apply wp_bind. eapply wp_mono; [apply (call_refines (CContainer x) σ T R Hc)|].
  intros r σ' [<- ?]. apply wp_ret. done.
Defined.

(** ** The kernel with its lists as tables *)

Definition itm (K : kernel ktable) (x : Z) : option kitem := kt_items (kmem K) !! x.
Definition has_list (K : kernel ktable) (L : Z) : Prop := is_Some (kt_lists (kmem K) !! L).
(** The items of a list, in order. *)
Definition members (K : kernel ktable) (L : Z) : list Z :=
  default [] (k_items <$> kt_lists (kmem K) !! L).
Definition position (K : kernel ktable) (L : Z) : Z :=
  default NULL (k_index <$> kt_lists (kmem K) !! L).
Definition value_of (K : kernel ktable) (x : Z) : Z := value_in (kmem K) x.
Definition home_of (K : kernel ktable) (x : Z) : Z := default NULL (ki_home <$> itm K x).
Definition owner_of (K : kernel ktable) (x : Z) : Z := default 0 (ki_owner <$> itm K x).

Definition with_table (T : ktable) (K : kernel ktable) : kernel ktable :=
  Kernel T (tcbs K) (var K).
Definition with_tcb t c (K : kernel ktable) : kernel ktable :=
  Kernel (kmem K) (<[t := c]> (tcbs K)) (var K).
(** The kernel after a list operation. *)
Definition act (c : lcall) (K : kernel ktable) : kernel ktable :=
  with_table (lspec c (kmem K)).2 K.

(** ** Specifications *)

Section kwp.
Context {S : Type} `{ListLaws S}.

Definition rep (k : kernel S) (K : kernel ktable) : Prop :=
  shows (kmem k) (kmem K) ∧ tcbs k = tcbs K ∧ var k = var K.

(** From every kernel that [K] describes, [m] returns, in a kernel described by
    one that satisfies [Q]. *)
Definition kwp {A} (m : M (kernel S) A) (Q : A → kernel ktable → Prop) (K : kernel ktable) : Prop :=
  ∀ k, rep k K → wp m (λ a k', ∃ K', rep k' K' ∧ Q a K') k.

Implicit Types K : kernel ktable.

Lemma kwp_ok {A} (m : M (kernel S) A) Q K : (table_ok (kmem K) → kwp m Q K) → kwp m Q K.
Proof. intros Hm k R. apply Hm; [|done]. destruct R as [R _]. by eapply table_law. Qed.

Lemma kwp_ret {A} (a : A) (Q : A → kernel ktable → Prop) K : Q a K → kwp (mret a) Q K.
Proof. intros HQ k R. apply wp_ret. eauto. Qed.

(** The table of the final kernel is in order too. *)
Lemma kwp_post {A} (m : M (kernel S) A) (Q : A → kernel ktable → Prop) K :
  kwp m (λ a K', table_ok (kmem K') → Q a K') K → kwp m Q K.
Proof.
  intros Hm k R. eapply wp_mono; [by apply Hm|]. intros a k' (K' & R' & HQ).
  exists K'. split; [done|]. apply HQ. destruct R' as [R' _]. by eapply table_law.
Qed.

Lemma kwp_and_ok {A} (m : M (kernel S) A) (Q : A → kernel ktable → Prop) K :
  kwp m Q K → kwp m (λ a K', Q a K' ∧ table_ok (kmem K')) K.
Proof.
  intros Hm k R. eapply wp_mono; [by apply Hm|]. intros a k' (K' & R' & HQ).
  exists K'. do 2 (split; [done|]). destruct R' as [R' _]. by eapply table_law.
Qed.

Lemma kwp_bind {A B} (m : M (kernel S) A) (f : A → M (kernel S) B) Q K :
  kwp m (λ a K', kwp (f a) Q K') K → kwp (m ≫= f) Q K.
Proof.
  intros Hm k R. apply wp_bind. eapply wp_mono; [by apply Hm|].
  intros a k' (K' & R' & Hf). by apply Hf.
Qed.

Lemma kwp_assoc {A B C} (m : M (kernel S) A) (f : A → M (kernel S) B) (g : B → M (kernel S) C) Q K :
  kwp ((m ≫= f) ≫= g) Q K → kwp (m ≫= λ x, f x ≫= g) Q K.
Proof.
  intros Hm k R. specialize (Hm k R). revert Hm. unfold wp, mbind, M_bind.
  by destruct (m k) as [[a|e] k'].
Qed.

Lemma kwp_fmap {A B} (f : A → B) (m : M (kernel S) A) (Q : B → kernel ktable → Prop) K :
  kwp m (λ a K', Q (f a) K') K → kwp (f <$> m) Q K.
Proof. intros Hm k R. apply wp_fmap. by apply Hm. Qed.

Lemma kwp_mono {A} (m : M (kernel S) A) (P Q : A → kernel ktable → Prop) K :
  kwp m P K → (∀ a K', P a K' → Q a K') → kwp m Q K.
Proof.
  intros Hm HPQ k R. eapply wp_mono; [by apply Hm|]. intros a k' (K' & ? & ?). eauto.
Qed.

Lemma kwp_if {A} (b : bool) (m1 m2 : M (kernel S) A) Q K :
  (b = true → kwp m1 Q K) → (b = false → kwp m2 Q K) → kwp (if b then m1 else m2) Q K.
Proof. destruct b; auto. Qed.

Lemma kwp_when (b : bool) (m : M (kernel S) unit) (Q : unit → kernel ktable → Prop) K :
  (b = true → kwp m Q K) → (b = false → Q tt K) → kwp (when_ b m) Q K.
Proof. destruct b; simpl; [auto|]. intros _ ?. apply kwp_ret. auto. Qed.

Lemma kwp_assert b (Q : unit → kernel ktable → Prop) K :
  b = true → Q tt K → kwp (assert_that b) Q K.
Proof. intros -> ?. by apply kwp_ret. Qed.

Lemma kwp_of_option {A} (o : option A) a (Q : A → kernel ktable → Prop) K :
  o = Some a → Q a K → kwp (of_option o) Q K.
Proof. intros -> ?. by apply kwp_ret. Qed.

Lemma kwp_rd x (Q : Z → kernel ktable → Prop) K : Q (var K x) K → kwp (rd x) Q K.
Proof. intros HQ k R. apply wp_gets. exists K. split; [done|]. destruct R as (_ & _ & ->). done. Qed.

Lemma kwp_wr x v (Q : unit → kernel ktable → Prop) K : Q tt (set_var x v K) → kwp (wr x v) Q K.
Proof.
  intros HQ k (R & Et & Ev). apply wp_modify. exists (set_var x v K). split; [|done].
  unfold rep, set_var. simpl. by rewrite Ev.
Qed.

Lemma kwp_task_fuel (Q : nat → kernel ktable → Prop) K :
  Q (Datatypes.S (size (tcbs K))) K → kwp task_fuel Q K.
Proof. intros HQ k R. apply wp_gets. exists K. split; [done|]. by destruct R as (_ & -> & _). Qed.

Lemma kwp_rd_tcb t c (Q : tcb → kernel ktable → Prop) K :
  tcbs K !! t = Some c → Q c K → kwp (rd_tcb t) Q K.
Proof.
  intros Hc HQ k R. apply wp_bind, wp_gets. pose proof R as (_ & -> & _).
  rewrite Hc. apply wp_ret. eauto.
Qed.

Lemma kwp_wr_tcb t c f (Q : unit → kernel ktable → Prop) K :
  tcbs K !! t = Some c → Q tt (with_tcb t (f c) K) → kwp (wr_tcb t f) Q K.
Proof.
  intros Hc HQ. apply kwp_bind. eapply kwp_rd_tcb; [done|].
  intros k (R & Et & Ev). apply wp_modify. exists (with_tcb t (f c) K). split; [|done].
  unfold rep, with_tcb. simpl. by rewrite Et, Ev.
Qed.

Lemma kwp_new_tcb t c (Q : unit → kernel ktable → Prop) K :
  Q tt (with_tcb t c K) → kwp (modify (λ k, Kernel (kmem k) (<[t := c]> (tcbs k)) (var k))) Q K.
Proof.
  intros HQ k (R & Et & Ev). apply wp_modify. exists (with_tcb t c K). split; [|done].
  unfold rep, with_tcb. simpl. by rewrite Et, Ev.
Qed.

(** ** The list operations *)

Lemma kwp_op c (Q : Z → kernel ktable → Prop) K :
  legal c (kmem K) → Q (lspec c (kmem K)).1 (act c K) → kwp (lst (op_of c)) Q K.
Proof.
  intros Hc HQ k (R & Et & Ev). apply wp_zoom.
  eapply wp_mono; [by apply (list_law c _ (kmem K))|]. intros r s [<- R']. simpl.
  exists (act c K). done.
Qed.

Lemma kwp_unit c (m : M S unit) (Q : unit → kernel ktable → Prop) K :
  op_of c = (m;; mret 0) → legal c (kmem K) → Q tt (act c K) → kwp (lst m) Q K.
Proof.
  intros Em Hc HQ k R. pose proof (kwp_op c (λ _, Q tt) K Hc HQ k R) as Hk.
  rewrite Em in Hk. unfold wp, lst, zoom, mbind, M_bind, mret, M_ret in *.
  destruct (m (kmem k)) as [[[]|e] s]; done.
Qed.

Lemma kwp_insert_end L x (Q : unit → kernel ktable → Prop) K :
  legal (CInsertEnd L x) (kmem K) → Q tt (act (CInsertEnd L x) K) →
  kwp (lst (list_insert_end L x)) Q K.
Proof. by apply kwp_unit. Qed.

Lemma kwp_insert L x (Q : unit → kernel ktable → Prop) K :
  legal (CInsert L x) (kmem K) → Q tt (act (CInsert L x) K) → kwp (lst (list_insert L x)) Q K.
Proof. by apply kwp_unit. Qed.

Lemma kwp_set_value x v (Q : unit → kernel ktable → Prop) K :
  is_Some (itm K x) → tick_value v → Q tt (act (CSetValue x v) K) →
  kwp (lst (item_set_value x v)) Q K.
Proof. intros ? ?. by apply kwp_unit. Qed.

Lemma kwp_set_owner x o (Q : unit → kernel ktable → Prop) K :
  is_Some (itm K x) → Q tt (act (CSetOwner x o) K) → kwp (lst (item_set_owner x o)) Q K.
Proof. intros ?. by apply kwp_unit. Qed.

Lemma kwp_initialise_item x i (Q : unit → kernel ktable → Prop) K :
  itm K x = Some i → ki_home i = NULL → Q tt K → kwp (lst (item_initialise x)) Q K.
Proof.
  intros Hi Hh HQ. apply (kwp_unit (CInitItem x)); [done| |].
  - unfold itm in Hi. simpl. by rewrite Hi, <-Hh.
  - unfold act, with_table. simpl. by destruct K.
Qed.

Lemma kwp_zero x (Q : unit → kernel ktable → Prop) K :
  legal (CZero x) (kmem K) → Q tt (act (CZero x) K) → kwp (lst (item_zero x)) Q K.
Proof. by apply kwp_unit. Qed.

Lemma act_look c K : (lspec c (kmem K)).2 = kmem K → act c K = K.
Proof. unfold act, with_table. intros ->. by destruct K. Qed.

Lemma kwp_look c (Q : Z → kernel ktable → Prop) K :
  legal c (kmem K) → (lspec c (kmem K)).2 = kmem K → Q (lspec c (kmem K)).1 K →
  kwp (lst (op_of c)) Q K.
Proof. intros Hc E HQ. apply kwp_op; [done|]. by rewrite act_look. Qed.

Lemma kwp_value x i (Q : Z → kernel ktable → Prop) K :
  itm K x = Some i → Q (ki_value i) K → kwp (lst (item_value x)) Q K.
Proof.
  unfold itm. intros Hi HQ. apply (kwp_look (CGetValue x)); simpl; [by eexists|done|].
  unfold value_in. by rewrite Hi.
Qed.

Lemma kwp_container x i (Q : Z → kernel ktable → Prop) K :
  itm K x = Some i → Q (ki_home i) K → kwp (lst (item_container x)) Q K.
Proof.
  unfold itm. intros Hi HQ. apply (kwp_look (CContainer x)); simpl; [by eexists|done|].
  by rewrite Hi.
Qed.

Lemma kwp_owner x i (Q : Z → kernel ktable → Prop) K :
  itm K x = Some i → Q (ki_owner i) K → kwp (lst (item_owner x)) Q K.
Proof.
  unfold itm. intros Hi HQ. apply (kwp_look (COwner x)); simpl; [by eexists|done|].
  by rewrite Hi.
Qed.

Lemma kwp_length L (Q : Z → kernel ktable → Prop) K :
  has_list K L → Q (Z.of_nat (length (members K L))) K → kwp (lst (list_length L)) Q K.
Proof.
  unfold members. intros [k HL] HQ. apply (kwp_look (CLength L)); simpl; [by eexists|done|].
  rewrite HL in HQ |- *. done.
Qed.

Lemma kwp_head_owner L x l i (Q : Z → kernel ktable → Prop) K :
  members K L = x :: l → itm K x = Some i → Q (ki_owner i) K → kwp (lst (list_head_owner L)) Q K.
Proof.
  unfold members, itm. intros El Hi HQ. destruct (kt_lists (kmem K) !! L) as [k|] eqn:HL; [|done].
  simpl in El. apply (kwp_look (CHeadOwner L)); simpl; [|done|].
  - exists k. split; [done|]. by rewrite El.
  - rewrite HL. simpl. rewrite El. simpl. by rewrite Hi.
Qed.

Lemma kwp_head_value L x l i (Q : Z → kernel ktable → Prop) K :
  members K L = x :: l → itm K x = Some i → Q (ki_value i) K → kwp (lst (list_head_value L)) Q K.
Proof.
  unfold members, itm. intros El Hi HQ. destruct (kt_lists (kmem K) !! L) as [k|] eqn:HL; [|done].
  simpl in El. apply (kwp_look (CHeadValue L)); simpl; [by eexists|done|].
  rewrite HL. simpl. rewrite El. simpl. unfold value_in. by rewrite Hi.
Qed.

Lemma kwp_next_owner L x l i (Q : Z → kernel ktable → Prop) K :
  has_list K L → upcoming (position K L) (members K L) = x :: l → itm K x = Some i →
  Q (ki_owner i) (act (CNext L) K) → kwp (lst (list_next_owner L)) Q K.
Proof.
  unfold members, position, itm. intros [k HL]. rewrite HL. simpl. intros El Hi HQ.
  apply (kwp_op (CNext L)); simpl.
  - exists k. split; [done|]. intros E. rewrite E in El. simpl in El. by unfold upcoming in El.
  - rewrite HL. simpl. rewrite El. simpl. by rewrite Hi.
Qed.
End kwp.

(** ** What an operation changes *)

Lemma itm_insert L x f K y :
  itm (with_table (insert_item f L x (kmem K)) K) y =
  if decide (y = x) then set_home L <$> itm K x else itm K y.
Proof.
  unfold itm, insert_item. simpl. case_decide as E; [subst; by rewrite lookup_alter_eq|].
  by rewrite lookup_alter_ne.
Qed.

Lemma members_insert L x f K L' k :
  kt_lists (kmem K) !! L = Some k →
  members (with_table (insert_item f L x (kmem K)) K) L' =
  if decide (L' = L) then f k else members K L'.
Proof.
  intros HL. unfold members, insert_item. simpl. case_decide as E.
  - subst. by rewrite lookup_alter_eq, HL.
  - by rewrite lookup_alter_ne.
Qed.

Lemma has_list_act c K L : has_list (act c K) L ↔ has_list K L.
Proof.
  unfold has_list, act. destruct c; simpl; try done; by rewrite lookup_alter_is_Some.
Qed.

(** * The invariant

    The invariant of the scheduler, over the kernel with its lists as tables:
    where the items of every task are ([core]), the bit map of ready priorities
    ([bits]) and the wake-up times ([wakes]); and what each list operation and
    assignment does to it. *)

(** ** What list operations change *)

Lemma itm_insert_end L x K y :
  itm (act (CInsertEnd L x) K) y = if decide (y = x) then set_home L <$> itm K x else itm K y.
Proof. apply itm_insert. Qed.
Lemma itm_insert_sorted L x K y :
  itm (act (CInsert L x) K) y = if decide (y = x) then set_home L <$> itm K x else itm K y.
Proof. apply itm_insert. Qed.
Lemma itm_remove x K y :
  itm (act (CRemove x) K) y = if decide (y = x) then set_home NULL <$> itm K x else itm K y.
Proof.
  unfold itm. simpl. case_decide as E; [subst; by rewrite lookup_alter_eq|].
  by rewrite lookup_alter_ne.
Qed.
Lemma itm_set_value x v K y :
  itm (act (CSetValue x v) K) y = if decide (y = x) then set_kvalue v <$> itm K x else itm K y.
Proof.
  unfold itm. simpl. case_decide as E; [subst; by rewrite lookup_alter_eq|].
  by rewrite lookup_alter_ne.
Qed.

Lemma members_insert_end L x K L' :
  has_list K L →
  members (act (CInsertEnd L x) K) L' =
  if decide (L' = L) then put_before (position K L) x (members K L) else members K L'.
Proof.
  intros [k HL]. unfold act. cbn [lspec snd]. erewrite members_insert by done.
  unfold members, position. by rewrite HL.
Qed.
Lemma members_insert_sorted L x K L' :
  has_list K L →
  members (act (CInsert L x) K) L' =
  if decide (L' = L) then put_sorted (value_of K) (value_of K x) x (members K L) else members K L'.
Proof.
  intros [k HL]. unfold act. cbn [lspec snd]. erewrite members_insert by done.
  unfold members, value_of. by rewrite HL.
Qed.
Lemma members_remove x i K L' :
  itm K x = Some i → has_list K (ki_home i) →
  members (act (CRemove x) K) L' =
  if decide (L' = ki_home i) then take_out x (members K L') else members K L'.
Proof.
  unfold itm, members. intros Hi [k HL]. unfold act. simpl. rewrite Hi. simpl.
  case_decide as E; [subst; by rewrite lookup_alter_eq, HL|]. by rewrite lookup_alter_ne.
Qed.
Lemma members_set_value x v K L : members (act (CSetValue x v) K) L = members K L.
Proof. done. Qed.

(** ** Items of lists *)

Section table.
Context (K : kernel ktable) (Htab : table_ok (kmem K)).

Lemma in_members x i L :
  itm K x = Some i → has_list K L → (x ∈ members K L ↔ ki_home i = L).
Proof.
  intros Hi [k HL]. unfold members. rewrite HL. simpl. symmetry. by apply (to_home _ Htab).
Qed.
Lemma member_item x L : x ∈ members K L → ∃ i, itm K x = Some i ∧ ki_home i = L ∧ has_list K L.
Proof.
  unfold members. destruct (kt_lists (kmem K) !! L) as [k|] eqn:HL; [|simpl; set_solver].
  simpl. intros Hx. destruct (to_known _ Htab L k x HL Hx) as [i Hi]. exists i.
  split; [done|]. split; [by apply (to_home _ Htab x i L k)|by exists k].
Qed.
Lemma members_nodup L : NoDup (members K L).
Proof.
  unfold members. destruct (kt_lists (kmem K) !! L) as [k|] eqn:HL; [|apply NoDup_nil_2].
  pose proof (to_nodup _ Htab L k HL) as Hn. by apply NoDup_cons in Hn as [_ Hn].
Qed.
Lemma list_not_null L : has_list K L → L ≠ NULL.
Proof. intros [k HL]. by eapply to_null. Qed.
Lemma empty_homes L :
  has_list K L → (members K L = [] ↔ ∀ x i, itm K x = Some i → ki_home i ≠ L).
Proof.
  intros HL. split.
  - intros E x i Hi Hh. pose proof (proj2 (in_members x i L Hi HL) Hh) as Hx.
    rewrite E in Hx. set_solver.
  - intros Hno. destruct (members K L) as [|x l] eqn:E; [done|].
    destruct (member_item x L) as (i & Hi & Hh & _); [rewrite E; set_solver|].
    by destruct (Hno x i).
Qed.
End table.

(** Sequences that stay in order. *)
Definition in_order (f : Z → Z) (l : list Z) : Prop := StronglySorted (λ x y, f x ≤ f y) l.

Lemma in_order_ext f g l : (∀ x, x ∈ l → f x = g x) → in_order f l → in_order g l.
Proof.
  intros E Hs. unfold in_order in *. induction Hs as [|x l Hs IH Hf]; constructor.
  - apply IH. set_solver.
  - rewrite Forall_forall in Hf |- *. intros y Hy. rewrite <-!E by set_solver. by apply Hf.
Qed.

Lemma elem_of_put_sorted f v x l z : z ∈ put_sorted f v x l ↔ z = x ∨ z ∈ l.
Proof.
  induction l as [|y l IH]; simpl; [set_solver|].
  case_match; rewrite !elem_of_cons, ?IH; tauto.
Qed.

Lemma in_order_put_sorted f v x l :
  v = f x → in_order f l → in_order f (put_sorted f v x l).
Proof.
  intros -> Hs. unfold in_order in *. induction Hs as [|y l Hs IH Hf]; simpl.
  - repeat constructor.
  - destruct (Z.leb_spec (f y) (f x)).
    + constructor; [done|]. rewrite Forall_forall in Hf |- *. intros z Hz.
      apply elem_of_put_sorted in Hz as [->|Hz]; [done|by apply Hf].
    + constructor; [by constructor|]. rewrite Forall_forall in Hf |- *. intros z Hz.
      apply elem_of_cons in Hz as [->|Hz]; [lia|]. etrans; [|by apply Hf]. lia.
Qed.

Lemma in_order_take_out f x l : in_order f l → in_order f (take_out x l).
Proof.
  unfold in_order, take_out. induction 1 as [|y l Hs IH Hf]; [constructor|].
  rewrite filter_cons. case_decide; [|done]. constructor; [done|].
  rewrite Forall_forall in Hf |- *. intros z Hz. apply Hf. by apply list_elem_of_filter in Hz as [_ ?].
Qed.

(** ** The invariant *)

Section inv.
Context `{KernelLists}.

(** The scheduler's own lists; they are ten different objects. *)
Definition klists : list Z :=
  [ready 0; ready 1; ready 2; ready 3; ready 4; xDelayedTaskList1; xDelayedTaskList2;
   xPendingReadyList; xTasksWaitingTermination; xSuspendedTaskList].
Class Layout : Prop := layout : NoDup klists.

(** Where the state item of a task can be. *)
Definition stands (c : tcb) (L : Z) : Prop :=
  L = ready (uxPriority c) ∨ L = xDelayedTaskList1 ∨ L = xDelayedTaskList2 ∨
  L = xTasksWaitingTermination ∨ L = xSuspendedTaskList.

(** [o] is a task on its way from one list to another, whose state item can be
    anywhere. *)
Record core (o : option Z) (K : kernel ktable) : Prop := {
  co_lists L : L ∈ klists → has_list K L;
  co_delayed :
    var K pxDelayedTaskList = xDelayedTaskList1 ∧ var K pxOverflowDelayedTaskList = xDelayedTaskList2 ∨
    var K pxDelayedTaskList = xDelayedTaskList2 ∧ var K pxOverflowDelayedTaskList = xDelayedTaskList1;
  co_few : 2 * Z.of_nat (size (tcbs K)) < 4294967290;
  co_task t c : tcbs K !! t = Some c →
    t ≠ NULL ∧ 0 ≤ uxPriority c < 5 ∧ 0 ≤ uxBasePriority c < 5 ∧
    (∃ i, itm K (xStateListItem t) = Some i ∧ ki_owner i = t ∧ (o ≠ Some t → stands c (ki_home i))) ∧
    (∃ e, itm K (xEventListItem t) = Some e ∧ ki_owner e = t);
  co_item x i : itm K x = Some i → ki_home i ≠ NULL →
    has_list K (ki_home i) ∧ is_Some (tcbs K !! ki_owner i) ∧
    (x = xStateListItem (ki_owner i) ∧ ki_home i ∈ klists ∧ ki_home i ≠ xPendingReadyList ∨
     x = xEventListItem (ki_owner i) ∧ (ki_home i ∈ klists → ki_home i = xPendingReadyList));
  co_order L : L = xDelayedTaskList1 ∨ L = xDelayedTaskList2 → in_order (value_of K) (members K L);
  co_tick : 0 ≤ var K xTickCount < 4294967296;
  co_current : is_Some (tcbs K !! var K pxCurrentTCB)
}.

(** Bit [p] of the map tells whether a task of priority [p] is ready. *)
Record bits (K : kernel ktable) : Prop := {
  bi_range : 0 ≤ var K uxTopReadyPriority < 32;
  bi_ready p : 0 ≤ p < 5 →
    (Z.testbit (var K uxTopReadyPriority) p = true ↔ ∃ x i, itm K x = Some i ∧ ki_home i = ready p)
}.

(** No task of the delayed list is due before the tick [lo] or before
    [xNextTaskUnblockTime], and those of the overflow list are due only after
    the next overflow. *)
Definition wakes (lo : Z) (K : kernel ktable) : Prop :=
  ∀ x i, itm K x = Some i →
    (ki_home i = var K pxDelayedTaskList →
       lo ≤ ki_value i ∧ var K xNextTaskUnblockTime ≤ ki_value i) ∧
    (ki_home i = var K pxOverflowDelayedTaskList → ki_value i < var K xTickCount).

Record kinv_from (lo : Z) (o : option Z) (K : kernel ktable) : Prop := {
  kv_core : core o K;
  kv_bits : bits K;
  kv_wakes : wakes lo K
}.

(** Between ticks every task of the delayed list is due in the future. *)
Definition kinv (K : kernel ktable) : Prop := kinv_from (var K xTickCount + 1) None K.

(** ** Facts *)

Context `{Layout} {S : Type} `{ListLaws S}.
Implicit Types K : kernel ktable.

Lemma ready_inj p q : ready p = ready q → p = q.
Proof. unfold ready. lia. Qed.

(** The lists after the ready lists are different from each other and from
    every ready list. *)
Lemma layout_apart :
  xDelayedTaskList1 ≠ xDelayedTaskList2 ∧ xDelayedTaskList1 ≠ xPendingReadyList ∧
  xDelayedTaskList2 ≠ xPendingReadyList ∧ xDelayedTaskList1 ≠ xTasksWaitingTermination ∧
  xDelayedTaskList2 ≠ xTasksWaitingTermination ∧ xDelayedTaskList1 ≠ xSuspendedTaskList ∧
  xDelayedTaskList2 ≠ xSuspendedTaskList ∧ xPendingReadyList ≠ xTasksWaitingTermination ∧
  xPendingReadyList ≠ xSuspendedTaskList ∧ xTasksWaitingTermination ≠ xSuspendedTaskList.
Proof.
  pose proof layout as Hl. unfold klists in Hl.
  do 5 apply NoDup_cons in Hl as [_ Hl]. rewrite !NoDup_cons, !not_elem_of_cons in Hl. tauto.
Qed.

Lemma klists_nth n L m L' :
  klists !! n = Some L → klists !! m = Some L' → n ≠ m → L ≠ L'.
Proof. intros Hn Hm Hne ->. apply Hne. by eapply (NoDup_lookup klists). Qed.

Lemma ready_nth p : 0 ≤ p < 5 → klists !! Z.to_nat p = Some (ready p).
Proof.
  intros Hp. assert (p = 0 ∨ p = 1 ∨ p = 2 ∨ p = 3 ∨ p = 4) as Hc by lia.
  by destruct Hc as [->|[->|[->|[->| ->]]]].
Qed.

Lemma ready_in p : 0 ≤ p < 5 → ready p ∈ klists.
Proof. intros Hp. by eapply list_elem_of_lookup_2, ready_nth. Qed.

Lemma ready_apart p :
  0 ≤ p < 5 →
  ready p ≠ xDelayedTaskList1 ∧ ready p ≠ xDelayedTaskList2 ∧ ready p ≠ xPendingReadyList ∧
  ready p ≠ xTasksWaitingTermination ∧ ready p ≠ xSuspendedTaskList.
Proof.
  intros Hp. pose proof (ready_nth p Hp) as Hn.
  assert (∀ m L, klists !! m = Some L → (5 ≤ m)%nat → ready p ≠ L) as Hd
    by (intros m L Hm ?; eapply klists_nth; [exact Hn|exact Hm|lia]).
  split_and!; [apply (Hd 5%nat)|apply (Hd 6%nat)|apply (Hd 7%nat)|apply (Hd 8%nat)|
    apply (Hd 9%nat)]; (reflexivity || lia).
Qed.

Lemma stands_in c L : 0 ≤ uxPriority c < 5 → stands c L → L ∈ klists ∧ L ≠ xPendingReadyList.
Proof.
  intros Hp Hs. pose proof layout_apart. pose proof (ready_apart (uxPriority c) Hp).
  pose proof (ready_in (uxPriority c) Hp) as Hr.
  destruct Hs as [->|[->|[->|[->| ->]]]]; (split; [|naive_solver]); [done|..];
    unfold klists; rewrite !elem_of_cons; tauto.
Qed.

(** ** Changing an item *)

(** Item [x] becomes [j]; of the variables only the bit map may change. *)
Record moved (x : Z) (j : kitem) (K K' : kernel ktable) : Prop := {
  mv_tcbs : tcbs K' = tcbs K;
  mv_var v : v ≠ uxTopReadyPriority → var K' v = var K v;
  mv_lists L' : has_list K' L' ↔ has_list K L';
  mv_itm y : itm K' y = if decide (y = x) then Some j else itm K y;
  (** The lists that are not the scheduler's change only where [x] is concerned. *)
  mv_members L' : L' ∉ klists → L' ≠ NULL → ki_home j ≠ L' →
    (∀ i, itm K x = Some i → ki_home i ≠ L') → members K' L' = members K L'
}.

Lemma moved_trans x j j' K1 K2 K3 :
  ki_home j = NULL ∨ ki_home j ∈ klists → moved x j K1 K2 → moved x j' K2 K3 → moved x j' K1 K3.
Proof.
  intros Hj [T1 V1 L1 I1 M1] [T2 V2 L2 I2 M2]. split; [congruence|..].
  - intros v Hv. by rewrite V2, V1.
  - intros L'. by rewrite L2, L1.
  - intros y. rewrite I2. case_decide; [done|]. rewrite I1. by rewrite decide_False.
  - intros L' Hk Hn Hj' Hi. assert (ki_home j ≠ L') by (intros E; rewrite E in Hj; naive_solver).
    rewrite M2; [by apply M1|done|done|done|]. intros i. rewrite I1, decide_True by done. congruence.
Qed.

Lemma members_insert_other L x f K L' :
  L' ≠ L → members (with_table (insert_item f L x (kmem K)) K) L' = members K L'.
Proof. intros Hne. unfold members, insert_item. simpl. by rewrite lookup_alter_ne. Qed.

Lemma insert_end_moved L x i K : itm K x = Some i → moved x (set_home L i) K (act (CInsertEnd L x) K).
Proof.
  intros Hi. split; [done..| | |]; intros; [apply has_list_act|by rewrite itm_insert_end, Hi|].
  apply members_insert_other. by intros ->.
Qed.
Lemma insert_moved L x i K : itm K x = Some i → moved x (set_home L i) K (act (CInsert L x) K).
Proof.
  intros Hi. split; [done..| | |]; intros; [apply has_list_act|by rewrite itm_insert_sorted, Hi|].
  apply members_insert_other. by intros ->.
Qed.
Lemma remove_moved x i K : itm K x = Some i → moved x (set_home NULL i) K (act (CRemove x) K).
Proof.
  intros Hi. split; [done..| | |]; intros; [apply has_list_act|by rewrite itm_remove, Hi|].
  unfold members, act. unfold itm in Hi. simpl. rewrite Hi. simpl. rewrite lookup_alter_ne; [done|].
  by eauto.
Qed.
Lemma set_value_moved x v i K : itm K x = Some i → moved x (set_kvalue v i) K (act (CSetValue x v) K).
Proof. intros Hi. split; [done..| | |]; intros; [apply has_list_act|by rewrite itm_set_value, Hi|done]. Qed.

Lemma value_of_itm K y : value_of K y = default 0 (ki_value <$> itm K y).
Proof. done. Qed.

Lemma moved_some x j K K' : moved x j K K' → itm K' x = Some j.
Proof. intros Mv. by rewrite (mv_itm _ _ _ _ Mv), decide_True. Qed.

Lemma moved_other x j K K' y : moved x j K K' → y ≠ x → itm K' y = itm K y.
Proof. intros Mv Hy. by rewrite (mv_itm _ _ _ _ Mv), decide_False. Qed.

Lemma moved_value_other x j K K' y : moved x j K K' → y ≠ x → value_of K' y = value_of K y.
Proof. intros Mv Hy. rewrite !value_of_itm. by erewrite moved_other. Qed.

Lemma moved_value x i j K K' :
  moved x j K K' → itm K x = Some i → ki_value j = ki_value i → ∀ y, value_of K' y = value_of K y.
Proof.
  intros Mv Hi Hv y. destruct (decide (y = x)) as [->|]; [|by eapply moved_value_other].
  rewrite !value_of_itm, (moved_some _ _ _ _ Mv), Hi. done.
Qed.

(** An item that has not changed is where it was. *)
Lemma moved_inv x j K K' y j' :
  moved x j K K' → itm K' y = Some j' → y = x ∧ j' = j ∨ y ≠ x ∧ itm K y = Some j'.
Proof. intros Mv. rewrite (mv_itm _ _ _ _ Mv). case_decide; naive_solver. Qed.

(** Where items of a task can go. *)
Definition may_enter (o : option Z) (x t L : Z) : Prop :=
  x = xStateListItem t ∧ o = Some t ∧ L ∈ klists ∧ L ≠ xPendingReadyList ∨
  x = xEventListItem t ∧ (L ∈ klists → L = xPendingReadyList).

Lemma items_differ t : xStateListItem t ≠ xEventListItem t.
Proof. unfold xStateListItem, xEventListItem. lia. Qed.

Definition stays_in_order (K K' : kernel ktable) : Prop :=
  ∀ L, L = xDelayedTaskList1 ∨ L = xDelayedTaskList2 →
    in_order (value_of K) (members K L) → in_order (value_of K') (members K' L).

Lemma core_moved o x j K K' i :
  core o K → moved x j K K' → itm K x = Some i → ki_owner j = ki_owner i →
  (ki_home j ≠ NULL → has_list K (ki_home j) ∧ is_Some (tcbs K !! ki_owner i)) →
  (ki_home j = NULL ∨ may_enter o x (ki_owner i) (ki_home j)) →
  (∀ t, x = xStateListItem t → is_Some (tcbs K !! t) → o = Some t) →
  stays_in_order K K' → core o K'.
Proof.
  intros C Mv Hi Ho Ht Hx Hs Hord. destruct C as [C1 C2 C3 C4 C5 C6 C7 C8].
  split; rewrite ?(mv_tcbs _ _ _ _ Mv), ?(mv_var _ _ _ _ Mv) by done; try done.
  - intros L' HL'. by apply (mv_lists _ _ _ _ Mv), C1.
  - intros t c Hc. destruct (C4 t c Hc) as (? & ? & ? & (j0 & Hj & Hjo & Hjs) & (e & He & Heo)).
    do 3 (split; [done|]). split.
    + destruct (decide (xStateListItem t = x)) as [E|Hne].
      * rewrite E in Hj. assert (j0 = i) as -> by congruence. exists j.
        split; [rewrite E; by eapply moved_some|]. split; [congruence|]. intros Hot. exfalso. apply Hot.
        apply Hs; [done|by exists c].
      * exists j0. by erewrite moved_other.
    + destruct (decide (xEventListItem t = x)) as [E|Hne].
      * rewrite E in He |- *. assert (e = i) as -> by congruence. exists j.
        split; [by eapply moved_some|congruence].
      * exists e. by erewrite moved_other.
  - intros y j' Hj Hn. rewrite (mv_lists _ _ _ _ Mv).
    destruct (moved_inv _ _ _ _ _ _ Mv Hj) as [[-> ->]|[Hne Hj']]; [|by apply C5].
    rewrite Ho. destruct (Ht Hn) as [? ?]. split; [done|]. split; [done|].
    destruct Hx as [?|[(? & ? & ?)|?]]; [done|by left|by right].
  - intros L' HL'. apply Hord; [done|]. by apply C6.
Qed.

Lemma wakes_moved lo x j K K' :
  wakes lo K → moved x j K K' →
  (ki_home j = var K pxDelayedTaskList → lo ≤ ki_value j ∧ var K xNextTaskUnblockTime ≤ ki_value j) →
  (ki_home j = var K pxOverflowDelayedTaskList → ki_value j < var K xTickCount) →
  wakes lo K'.
Proof.
  intros W Mv HD HO y j' Hj. rewrite !(mv_var _ _ _ _ Mv) by done.
  destruct (moved_inv _ _ _ _ _ _ Mv Hj) as [[-> ->]|[Hne Hj']]; [done|by apply (W y)].
Qed.

(** The bit of a priority whose ready list is left or entered by [x] is looked
    at separately. *)
Lemma ready_moved x j K K' i p :
  moved x j K K' → itm K x = Some i → ki_home i ≠ ready p → ki_home j ≠ ready p →
  (∃ y j', itm K' y = Some j' ∧ ki_home j' = ready p) ↔ (∃ y j', itm K y = Some j' ∧ ki_home j' = ready p).
Proof.
  intros Mv Hi Hh HL. split; intros (y & j' & Hj & Hjh).
  - destruct (moved_inv _ _ _ _ _ _ Mv Hj) as [[-> ->]|[Hne Hj']]; [done|eauto].
  - exists y, j'. split; [|done]. assert (y ≠ x) by congruence. by erewrite moved_other.
Qed.

Lemma bits_moved x j K K' i :
  bits K → moved x j K K' → itm K x = Some i → var K' uxTopReadyPriority = var K uxTopReadyPriority →
  (∀ p, 0 ≤ p < 5 → ki_home i ≠ ready p ∧ ki_home j ≠ ready p) → bits K'.
Proof.
  intros [B1 B2] Mv Hi Ev Hno. split; rewrite Ev; [done|].
  intros p Hp. destruct (Hno p Hp). rewrite (B2 p Hp). symmetry. by eapply ready_moved.
Qed.

(** ** Orders *)

Lemma remove_order x i K :
  itm K x = Some i → has_list K (ki_home i) → stays_in_order K (act (CRemove x) K).
Proof.
  intros Hi Hl L _ Ho. apply (in_order_ext (value_of K)).
  - intros y _. symmetry. by eapply moved_value; [by apply remove_moved|..].
  - rewrite (members_remove x i) by done. case_decide; [by apply in_order_take_out|done].
Qed.

Lemma insert_order L x i K :
  itm K x = Some i → has_list K L → stays_in_order K (act (CInsert L x) K).
Proof.
  intros Hi Hl L' _ Ho. apply (in_order_ext (value_of K)).
  - intros y _. symmetry. by eapply moved_value; [by apply insert_moved|..].
  - rewrite members_insert_sorted by done. case_decide; [|done]. subst. by apply in_order_put_sorted.
Qed.

Lemma insert_end_order L x i K :
  itm K x = Some i → has_list K L → L ≠ xDelayedTaskList1 → L ≠ xDelayedTaskList2 →
  stays_in_order K (act (CInsertEnd L x) K).
Proof.
  intros Hi Hl ? ? L' HL' Ho. apply (in_order_ext (value_of K)).
  - intros y _. symmetry. by eapply moved_value; [by apply insert_end_moved|..].
  - rewrite members_insert_end by done. rewrite decide_False by naive_solver. done.
Qed.

Lemma set_value_order x v i K :
  table_ok (kmem K) → itm K x = Some i → ki_home i ≠ xDelayedTaskList1 → ki_home i ≠ xDelayedTaskList2 →
  stays_in_order K (act (CSetValue x v) K).
Proof.
  intros Htab Hi ? ? L' HL' Ho. apply (in_order_ext (value_of K)); [|done].
  intros y Hy. symmetry. eapply moved_value_other; [by apply set_value_moved|].
  intros ->. rewrite members_set_value in Hy. destruct (member_item K Htab x L' Hy) as (i' & Hi' & Hh & _).
  naive_solver.
Qed.

(** ** Rules for moving an item *)

Lemma core_room o K L :
  core o K → table_ok (kmem K) → has_list K L →
  Z.of_nat (length (members K L)) + 1 < 4294967296.
Proof.
  intros C Htab HL. set (ts := (map_to_list (tcbs K)).*1).
  assert (length (members K L) ≤ length ((xStateListItem <$> ts) ++ (xEventListItem <$> ts)))%nat as Hlen.
  { apply submseteq_length, NoDup_submseteq; [by apply members_nodup|].
    intros x Hx. destruct (member_item K Htab x L Hx) as (i & Hi & Hh & _).
    pose proof (list_not_null K Htab L HL).
    destruct (co_item _ _ C x i Hi) as (_ & [c Hc] & Hp); [congruence|].
    assert (ki_owner i ∈ ts) as Ht by (apply list_elem_of_fmap; exists (ki_owner i, c);
      split; [done|by apply elem_of_map_to_list]).
    apply elem_of_app. destruct Hp as [[-> _]|[-> _]]; [left|right]; by apply list_elem_of_fmap_2. }
  pose proof (co_few _ _ C). unfold ts in Hlen.
  rewrite length_app, !length_fmap, length_map_to_list in Hlen. lia.
Qed.

Lemma legal_insert o K L x i :
  core o K → table_ok (kmem K) → has_list K L → itm K x = Some i → ki_home i = NULL →
  legal (CInsertEnd L x) (kmem K).
Proof.
  intros C Htab HL Hi Hh. pose proof (core_room o K L C Htab HL) as Hr.
  destruct HL as [k HL]. unfold members in Hr. rewrite HL in Hr. split; [by exists k|].
  unfold itm in Hi. by rewrite Hi, <-Hh.
Qed.

(** Removal, with what is left of the list. *)
Lemma kwp_remove x i (Q : Z → kernel ktable → Prop) K :
  itm K x = Some i → has_list K (ki_home i) →
  (∀ K' n, table_ok (kmem K') → moved x (set_home NULL i) K K' → stays_in_order K K' →
     var K' uxTopReadyPriority = var K uxTopReadyPriority →
     n = Z.of_nat (length (members K' (ki_home i))) →
     (∀ L, members K' L = if decide (L = ki_home i) then take_out x (members K L) else members K L) →
     Q n K') →
  kwp (lst (list_remove x)) Q K.
Proof.
  intros Hi HL HQ. apply kwp_ok. intros Htab.
  assert (legal (CRemove x) (kmem K)) as Hlegal.
  { exists (ki_home i). split; [|by destruct HL as [k HL]; eexists]. unfold itm in Hi. by rewrite Hi. }
  assert (kwp (S := S) (lst (list_remove x)) (λ n K', n = (lspec (CRemove x) (kmem K)).1 ∧
    K' = act (CRemove x) K) K) as Hk by by apply (kwp_op (CRemove x)).
  intros k R. eapply wp_mono; [by apply (Hk k)|]. intros n k' (K' & R' & -> & HK').
  exists K'. split; [done|].
  assert (table_ok (kmem K')) as Htab' by (destruct R' as [R' _]; by eapply table_law).
  subst K'. apply HQ; try done; [by apply remove_moved|by eapply remove_order| |intros L; by apply members_remove].
  rewrite (members_remove x i) by done. rewrite decide_True by done.
  pose proof (proj2 (in_members K Htab x i _ Hi HL) eq_refl) as Hin.
  pose proof (members_nodup K Htab (ki_home i)) as Hnd.
  apply list_elem_of_split in Hin as (l1 & l2 & E). rewrite E in Hnd |- *.
  rewrite take_out_middle, length_app by done.
  unfold itm in Hi. simpl. rewrite Hi. simpl. destruct HL as [kl HL]. rewrite HL. simpl.
  unfold members in E. rewrite HL in E. simpl in E. rewrite E, length_app. simpl. lia.
Qed.
End inv.
