(* ===== verification/KernelMoves.v ===== *)
(** The steps tasks move by, and what each does to the invariant: into a ready
    list, out of one, out of an event list, and changes of variables and TCBs. *)
From stdpp Require Import base tactics numbers list gmap sorting.
From S2P Require Import Prelude Words Sched KList KListThm KListRefine Kernel KernelApi KernelInv.

(** ** The bit map *)

(** A property of the 32 bit maps and 5 priorities, by trying all. *)
Definition all_maps (f : Z → Z → bool) : bool :=
  forallb (λ top, forallb (f top) (seqZ 0 5)) (seqZ 0 32).

Lemma all_maps_use f : all_maps f = true → ∀ top p, 0 ≤ top < 32 → 0 ≤ p < 5 → f top p = true.
Proof.
  unfold all_maps. rewrite forallb_forall. intros Hf top p Ht Hp.
  specialize (Hf top). rewrite forallb_forall in Hf.
  apply Hf; apply list_elem_of_In, elem_of_seqZ; lia.
Qed.

Definition recorded (top p : Z) : Z := Z.lor top (Z.shiftl 1 p).
Definition cleared (top p : Z) : Z := Z.land top (u32 (Z.lnot (Z.shiftl 1 p))).

Definition in_map (top : Z) : bool := (0 <=? top) && (top <? 32).
Definition bits_agree (top top' p : Z) (b : bool) : bool :=
  in_map top' &&
  forallb (λ q, eqb (Z.testbit top' q) (if q =? p then b else Z.testbit top q)) (seqZ 0 5).

Lemma bits_agree_use top top' p b :
  bits_agree top top' p b = true →
  0 ≤ top' < 32 ∧ ∀ q, 0 ≤ q < 5 → Z.testbit top' q = if q =? p then b else Z.testbit top q.
Proof.
  intros [Hr Hb]%andb_true_iff. unfold in_map in Hr. split; [lia|]. intros q Hq.
  rewrite forallb_forall in Hb. apply eqb_prop, Hb, list_elem_of_In, elem_of_seqZ. lia.
Qed.

Lemma recorded_bits top p :
  0 ≤ top < 32 → 0 ≤ p < 5 → bits_agree top (recorded top p) p true = true.
Proof. apply (all_maps_use (λ top p, bits_agree top (recorded top p) p true)). by vm_compute. Qed.

Lemma cleared_bits top p :
  0 ≤ top < 32 → 0 ≤ p < 5 → bits_agree top (cleared top p) p false = true.
Proof. apply (all_maps_use (λ top p, bits_agree top (cleared top p) p false)). by vm_compute. Qed.

(** The priority the CLZ instruction finds is that of the highest bit set. *)
Definition highest_is (top : Z) : bool :=
  let h := portGET_HIGHEST_PRIORITY top in
  (top =? 0) || (0 <=? h) && (h <? 5) && Z.testbit top h &&
  forallb (λ q, (q <=? h) || negb (Z.testbit top q)) (seqZ 0 5).

Lemma portGET_HIGHEST_PRIORITY_bits top :
  0 < top < 32 →
  let h := portGET_HIGHEST_PRIORITY top in
  0 ≤ h < 5 ∧ Z.testbit top h = true ∧ ∀ q, h < q < 5 → Z.testbit top q = false.
Proof.
  intros Ht h. pose proof (all_maps_use (λ top _, highest_is top) ltac:(by vm_compute) top 0) as Hh.
  specialize (Hh ltac:(lia) ltac:(lia)). unfold highest_is in Hh. fold h in Hh.
  rewrite (proj2 (Z.eqb_neq top 0)) in Hh by lia. cbn [orb] in Hh.
  apply andb_true_iff in Hh as [[Hr Hb]%andb_true_iff Hq]. split; [lia|]. split; [done|].
  intros q Hqr. rewrite forallb_forall in Hq.
  specialize (Hq q ltac:(apply list_elem_of_In, elem_of_seqZ; lia)).
  destruct (Z.testbit top q); [|done]. rewrite orb_false_r in Hq. lia.
Qed.

Lemma set_var_same {S} x v (k : kernel S) : var (set_var x v k) x = v.
Proof. by destruct x. Qed.
Lemma set_var_other {S} x v (k : kernel S) y : x ≠ y → var (set_var x v k) y = var k y.
Proof. by destruct x, y. Qed.

Section moves.
Context `{Layout} {S : Type} `{ListLaws S}.
Implicit Types K : kernel ktable.

(** ** Variables and TCBs *)

(** The variables the invariant speaks of. *)
Definition tracked (v : kvar) : bool :=
  match v with
  | pxDelayedTaskList | pxOverflowDelayedTaskList | xTickCount | pxCurrentTCB
  | uxTopReadyPriority | xNextTaskUnblockTime => true
  | _ => false
  end.

Lemma core_var o v n K :
  v ≠ pxDelayedTaskList → v ≠ pxOverflowDelayedTaskList → v ≠ xTickCount → v ≠ pxCurrentTCB →
  core o K → core o (set_var v n K).
Proof. intros ? ? ? ? [C1 C2 C3 C4 C5 C6 C7 C8]. by split; rewrite ?set_var_other by done. Qed.

Lemma kinv_var lo o v n K : tracked v = false → kinv_from lo o K → kinv_from lo o (set_var v n K).
Proof.
  intros Hv [C [B1 B2] W].
  assert (∀ y, tracked y = true → v ≠ y) as Hne by (intros y Hy ->; congruence).
  split.
  - by apply core_var; auto.
  - split; by rewrite set_var_other by auto.
  - unfold wakes. by rewrite !set_var_other by auto.
Qed.

Lemma core_tcb t c K :
  core (Some t) K → is_Some (tcbs K !! t) → 0 ≤ uxPriority c < 5 → 0 ≤ uxBasePriority c < 5 →
  core (Some t) (with_tcb t c K).
Proof.
  intros [C1 C2 C3 C4 C5 C6 C7 C8] Ht Hp Hb.
  assert (∀ u, is_Some (<[t:=c]> (tcbs K) !! u) ↔ is_Some (tcbs K !! u)) as Hdom.
  { intros u. rewrite lookup_insert_is_Some. destruct (decide (t = u)) as [->|]; naive_solver. }
  split; unfold with_tcb; simpl; try done.
  - rewrite map_size_insert. destruct Ht as [c0 ->]. done.
  - intros u cu [[<- <-]|[Hne Hu]]%lookup_insert_Some; [|by apply C4].
    destruct Ht as [c0 Hc0]. destruct (C4 t c0 Hc0) as (? & _ & _ & (i & Hi & Ho & _) & He).
    do 3 (split; [done|]). split; [|done]. exists i. done.
  - intros x i Hi Hh. rewrite Hdom. by apply C5.
  - by apply Hdom.
Qed.

Lemma core_exempt t K : core None K → core (Some t) K.
Proof.
  intros [C1 C2 C3 C4 C5 C6 C7 C8]. split; try done. intros u c Hu.
  destruct (C4 u c Hu) as (? & ? & ? & (i & ? & ? & Hs) & ?).
  do 3 (split; [done|]). split; [|done]. exists i. split; [done|]. split; [done|]. intros _. by apply Hs.
Qed.

Lemma core_settled t c i K :
  core (Some t) K → tcbs K !! t = Some c → itm K (xStateListItem t) = Some i → stands c (ki_home i) →
  core None K.
Proof.
  intros [C1 C2 C3 C4 C5 C6 C7 C8] Hc Hi Hs. split; try done. intros u cu Hu.
  destruct (C4 u cu Hu) as (? & ? & ? & (j & Hj & ? & Hjs) & ?).
  do 3 (split; [done|]). split; [|done]. exists j. split; [done|]. split; [done|]. intros _.
  destruct (decide (u = t)) as [->|Hne]; [congruence|]. apply Hjs. congruence.
Qed.

(** The state item of a task and its list. *)
Lemma state_item o t c K :
  core o K → tcbs K !! t = Some c → o ≠ Some t →
  ∃ i, itm K (xStateListItem t) = Some i ∧ ki_owner i = t ∧ stands c (ki_home i) ∧
    has_list K (ki_home i) ∧ ki_home i ≠ xPendingReadyList.
Proof.
  intros C Hc Hot. destruct (co_task _ _ C t c Hc) as (? & Hp & ? & (i & Hi & ? & Hs) & ?).
  specialize (Hs Hot). exists i. destruct (stands_in c _ Hp Hs). do 3 (split; [done|]).
  split; [by apply (co_lists _ _ C)|done].
Qed.

Lemma event_item o t c K :
  core o K → tcbs K !! t = Some c →
  ∃ e, itm K (xEventListItem t) = Some e ∧ ki_owner e = t ∧
    (ki_home e ≠ NULL → has_list K (ki_home e)).
Proof.
  intros C Hc. destruct (co_task _ _ C t c Hc) as (_ & _ & _ & _ & (e & He & Ho)).
  exists e. do 2 (split; [done|]). intros Hh. by apply (co_item _ _ C _ _ He Hh).
Qed.

Lemma state_no_event t u c o K : core o K → tcbs K !! u = Some c → is_Some (tcbs K !! t) →
  xEventListItem t ≠ xStateListItem u.
Proof.
  intros C Hu [ct Ht] E. destruct (co_task _ _ C u c Hu) as (_ & _ & _ & (i & Hi & Ho & _) & _).
  destruct (co_task _ _ C t ct Ht) as (_ & _ & _ & _ & (e & He & Hoe)).
  rewrite E in He. assert (t = u) as -> by congruence. by apply (items_differ u).
Qed.

Lemma state_inj t u o K c c' :
  core o K → tcbs K !! t = Some c → tcbs K !! u = Some c' →
  xStateListItem t = xStateListItem u → t = u.
Proof. unfold xStateListItem. lia. Qed.

(** ** Into a ready list *)

(** The bit map, whatever it says about priority [p]. *)
Definition bits_but (p : Z) K : Prop :=
  0 ≤ var K uxTopReadyPriority < 32 ∧
  ∀ q, 0 ≤ q < 5 → q ≠ p →
    (Z.testbit (var K uxTopReadyPriority) q = true ↔ ∃ x i, itm K x = Some i ∧ ki_home i = ready q).

Lemma bits_but_of p K : bits K → bits_but p K.
Proof. intros [B1 B2]. split; [done|]. intros q Hq _. by apply B2. Qed.

Lemma ready_members K p :
  table_ok (kmem K) → has_list K (ready p) →
  (∃ x i, itm K x = Some i ∧ ki_home i = ready p) ↔ members K (ready p) ≠ [].
Proof.
  intros Htab HL. rewrite (empty_homes K Htab _ HL). split; [naive_solver|].
  intros Hn. destruct (members K (ready p)) as [|x l] eqn:E.
  - destruct Hn. by apply (empty_homes K Htab).
  - destruct (member_item K Htab x (ready p)) as (i & ? & ? & _); [rewrite E; set_solver|eauto].
Qed.

Lemma null_not_ready K o p : table_ok (kmem K) → core o K → 0 ≤ p < 5 → NULL ≠ ready p.
Proof.
  intros Htab C Hp E. by apply (list_not_null K Htab (ready p)); [apply (co_lists _ _ C), ready_in|].
Qed.

Lemma null_not_delayed K o :
  table_ok (kmem K) → core o K →
  NULL ≠ var K pxDelayedTaskList ∧ NULL ≠ var K pxOverflowDelayedTaskList.
Proof.
  intros Htab C. assert (∀ L, L ∈ klists → NULL ≠ L) as Hn.
  { intros L HL E. by apply (list_not_null K Htab L); [apply (co_lists _ _ C)|]. }
  assert (xDelayedTaskList1 ∈ klists ∧ xDelayedTaskList2 ∈ klists) as []
    by (unfold klists; rewrite !elem_of_cons; tauto).
  destruct (co_delayed _ _ C) as [[-> ->]|[-> ->]]; auto.
Qed.

Lemma ready_not_delayed K o p :
  core o K → 0 ≤ p < 5 →
  ready p ≠ var K pxDelayedTaskList ∧ ready p ≠ var K pxOverflowDelayedTaskList.
Proof.
  intros C Hp. destruct (ready_apart p Hp) as (? & ? & _).
  destruct (co_delayed _ _ C) as [[-> ->]|[-> ->]]; auto.
Qed.

Lemma wakes_elsewhere lo x j K K' :
  wakes lo K → moved x j K K' → ki_home j ≠ var K pxDelayedTaskList →
  ki_home j ≠ var K pxOverflowDelayedTaskList → wakes lo K'.
Proof. intros. by eapply wakes_moved. Qed.

Lemma set_var_moved x j v K K' : moved x j (set_var uxTopReadyPriority v K) K' → moved x j K K'.
Proof.
  intros [T V L I M]. split; [done| |done|done|done].
  intros y Hy. rewrite V by done. by apply set_var_other.
Qed.

Lemma kwp_add_ready t c i (Q : unit → kernel ktable → Prop) K :
  core (Some t) K → bits_but (uxPriority c) K → tcbs K !! t = Some c →
  itm K (xStateListItem t) = Some i → ki_home i = NULL →
  (∀ K', table_ok (kmem K') →
     moved (xStateListItem t) (set_home (ready (uxPriority c)) i) K K' →
     core None K' → bits K' → (∀ lo, wakes lo K → wakes lo K') → Q tt K') →
  kwp (prvAddTaskToReadyList t) Q K.
Proof.
  intros C [Br Bq] Hc Hi Hh HQ. apply kwp_ok. intros Htab.
  destruct (co_task _ _ C t c Hc) as (_ & Hp & _ & (i' & Hi' & Ho & _) & _).
  assert (i' = i) as -> by congruence. set (p := uxPriority c) in *.
  unfold prvAddTaskToReadyList, taskRECORD_READY_PRIORITY.
  apply kwp_bind, kwp_fmap. eapply kwp_rd_tcb; [exact Hc|].
  apply kwp_bind, kwp_bind, kwp_rd, kwp_wr, kwp_bind, kwp_fmap. eapply kwp_rd_tcb; [exact Hc|].
  fold p. fold (recorded (var K uxTopReadyPriority) p).
  set (K1 := set_var uxTopReadyPriority (recorded (var K uxTopReadyPriority) p) K).
  assert (core (Some t) K1) as C1 by by apply core_var.
  assert (has_list K1 (ready p)) as HL by by apply (co_lists _ _ C), ready_in.
  assert (table_ok (kmem K1)) as Htab1 by done.
  assert (itm K1 (xStateListItem t) = Some i) as Hi1 by done.
  apply kwp_post, kwp_insert_end; [by eapply legal_insert|].
  pose proof (insert_end_moved (ready p) _ i K1 Hi1) as Mv1.
  pose proof (set_var_moved _ _ _ _ _ Mv1) as Mv.
  set (K2 := act (CInsertEnd (ready p) (xStateListItem t)) K1) in *.
  destruct (ready_apart p Hp) as (HD1 & HD2 & HP & _).
  assert (core (Some t) K2) as C2.
  { eapply core_moved; [exact C1|exact Mv1|exact Hi1|done|..].
    - intros _. simpl. rewrite Ho. split; [done|by exists c].
    - right. left. rewrite Ho. split_and!; [done|done|by apply ready_in|done].
    - unfold xStateListItem. intros u ? _. f_equal. lia.
    - by eapply insert_end_order. }
  assert (itm K2 (xStateListItem t) = Some (set_home (ready p) i)) as Hi2 by by eapply moved_some.
  intros Htab2. apply HQ; [done|done|..].
  - eapply core_settled; [exact C2|exact Hc|exact Hi2|]. by left.
  - destruct (bits_agree_use _ _ _ _ (recorded_bits _ p Br Hp)) as [Br' Bq'].
    split; [done|]. intros q Hq. change (var K2 uxTopReadyPriority) with (recorded (var K uxTopReadyPriority) p).
    rewrite Bq' by done. destruct (Z.eqb_spec q p) as [->|Hne].
    + split; [intros _|done]. exists (xStateListItem t), (set_home (ready p) i). done.
    + rewrite (Bq q Hq Hne). symmetry. eapply ready_moved; [exact Mv|exact Hi|..].
      * rewrite Hh. by eapply null_not_ready.
      * simpl. intros E%ready_inj. done.
  - intros lo W. destruct (ready_not_delayed K _ p C Hp). by eapply wakes_elsewhere.
Qed.

(** ** Out of a list *)

Lemma kwp_remove_state t i (Q : Z → kernel ktable → Prop) K :
  core (Some t) K → itm K (xStateListItem t) = Some i → ki_home i ≠ NULL →
  (∀ K' n, table_ok (kmem K') → moved (xStateListItem t) (set_home NULL i) K K' →
     core (Some t) K' → (∀ lo, wakes lo K → wakes lo K') →
     var K' uxTopReadyPriority = var K uxTopReadyPriority →
     n = Z.of_nat (length (members K' (ki_home i))) → Q n K') →
  kwp (lst (list_remove (xStateListItem t))) Q K.
Proof.
  intros C Hi Hh HQ. apply kwp_ok. intros Htab.
  destruct (co_item _ _ C _ _ Hi Hh) as (HL & _).
  eapply kwp_remove; [exact Hi|exact HL|]. intros K' n Htab' Mv Hord Ev Hn _. apply HQ; try done.
  - eapply core_moved; [exact C|exact Mv|exact Hi|done|done|by left| |done].
    unfold xStateListItem. intros u ? _. f_equal. lia.
  - intros lo W. destruct (null_not_delayed K _ Htab C). by eapply wakes_elsewhere.
Qed.

(** The bit map after the item has left a list, with the bit of its priority as
    the code has left it. *)
Lemma bits_left t i p K K' :
  table_ok (kmem K) → core (Some t) K → bits K → moved (xStateListItem t) (set_home NULL i) K K' →
  itm K (xStateListItem t) = Some i →
  0 ≤ p < 5 → (∀ q, 0 ≤ q < 5 → ki_home i = ready q → q = p) →
  0 ≤ var K' uxTopReadyPriority < 32 →
  (∀ q, 0 ≤ q < 5 → q ≠ p →
     Z.testbit (var K' uxTopReadyPriority) q = Z.testbit (var K uxTopReadyPriority) q) →
  (Z.testbit (var K' uxTopReadyPriority) p = true ↔
     ∃ x i, itm K' x = Some i ∧ ki_home i = ready p) →
  bits K'.
Proof.
  intros Htab C B Mv Hi Hp Hhome Hr Hq Hbp. split; [done|]. intros q Hqr.
  destruct (decide (q = p)) as [->|Hne]; [done|]. rewrite Hq, (bi_ready _ B q Hqr) by done.
  symmetry. eapply ready_moved; [exact Mv|exact Hi|..].
  - intros E. by apply Hne, Hhome.
  - simpl. by eapply null_not_ready.
Qed.

Lemma kwp_portRESET p (Q : unit → kernel ktable → Prop) K :
  Q tt (set_var uxTopReadyPriority (cleared (var K uxTopReadyPriority) p) K) →
  kwp (portRESET_READY_PRIORITY p) Q K.
Proof. intros HQ. unfold portRESET_READY_PRIORITY. by apply kwp_bind, kwp_rd, kwp_wr. Qed.

(** The bit map is still right when the list left is not empty, or not a ready
    list. *)
Lemma bits_kept t i p K0 K :
  table_ok (kmem K0) → table_ok (kmem K) → core (Some t) K0 → bits K0 → core (Some t) K →
  moved (xStateListItem t) (set_home NULL i) K0 K → itm K0 (xStateListItem t) = Some i →
  0 ≤ p < 5 → (∀ q, 0 ≤ q < 5 → ki_home i = ready q → q = p) →
  var K uxTopReadyPriority = var K0 uxTopReadyPriority →
  members K (ready p) ≠ [] ∨ ki_home i ≠ ready p → bits K.
Proof.
  intros Htab0 Htab C0 B0 C Mv Hi Hp Hhome Ev Hb.
  assert (has_list K (ready p)) as HL by by apply (co_lists _ _ C), ready_in.
  eapply bits_left; [exact Htab0|exact C0|exact B0|exact Mv|exact Hi|exact Hp|exact Hhome|..]; rewrite Ev.
  - apply (bi_range _ B0).
  - done.
  - rewrite (bi_ready _ B0 p Hp). destruct Hb as [Hne|Hb].
    + rewrite (ready_members K p Htab HL).
      split; [done|]. intros _. apply (ready_members K p Htab HL) in Hne as (y & j & Hj & Hjh).
      destruct (moved_inv _ _ _ _ _ _ Mv Hj) as [[-> ->]|[_ Hj']]; [|eauto].
      exfalso. simpl in Hjh. by eapply (null_not_ready K _ p).
    + symmetry. eapply ready_moved; [exact Mv|exact Hi|done|]. simpl. by eapply null_not_ready.
Qed.

(** Resetting the bit of an empty ready list. *)
Lemma kwp_reset_empty t i p (b : bool) (Q : unit → kernel ktable → Prop) K0 K :
  table_ok (kmem K0) → table_ok (kmem K) → core (Some t) K0 → bits K0 → core (Some t) K →
  moved (xStateListItem t) (set_home NULL i) K0 K → itm K0 (xStateListItem t) = Some i →
  0 ≤ p < 5 → (∀ q, 0 ≤ q < 5 → ki_home i = ready q → q = p) →
  var K uxTopReadyPriority = var K0 uxTopReadyPriority →
  (b = true ↔ members K (ready p) = []) ∨ b = false ∧ ki_home i ≠ ready p →
  (∀ K', table_ok (kmem K') → moved (xStateListItem t) (set_home NULL i) K0 K' →
     core (Some t) K' → bits K' → (∀ lo, wakes lo K → wakes lo K') → Q tt K') →
  kwp (when_ b (portRESET_READY_PRIORITY p)) Q K.
Proof.
  intros Htab0 Htab C0 B0 C Mv Hi Hp Hhome Ev Hb HQ.
  assert (has_list K (ready p)) as HL by by apply (co_lists _ _ C), ready_in.
  pose proof (bi_range _ B0) as Hr.
  apply kwp_when; intros Eb.
  - apply kwp_portRESET.
    destruct (bits_agree_use _ _ _ _ (cleared_bits _ p Hr Hp)) as [Hr' Hq'].
    set (K' := set_var uxTopReadyPriority (cleared (var K uxTopReadyPriority) p) K).
    assert (moved (xStateListItem t) (set_home NULL i) K0 K') as Mv'.
    { destruct Mv as [M1 M2 M3 M4]. split; try done.
      intros v Hv. unfold K'. rewrite set_var_other by done. by apply M2. }
    apply HQ; [done|done|by apply core_var|..|done].
    assert (var K' uxTopReadyPriority = cleared (var K0 uxTopReadyPriority) p) as Ev'
      by (unfold K'; by rewrite set_var_same, Ev).
    eapply bits_left; [exact Htab0|exact C0|exact B0|exact Mv'|exact Hi|exact Hp|exact Hhome|..]; rewrite Ev'.
    + done.
    + intros q Hq Hne. rewrite Hq' by done. by rewrite (proj2 (Z.eqb_neq q p)).
    + rewrite Hq', Z.eqb_refl by done. split; [done|]. intros Hex.
      apply (ready_members K p Htab HL) in Hex. destruct Hb as [Hb|[Hb _]]; [|congruence].
      by destruct Hex; apply Hb.
  - apply HQ; [done|done|done| |done]. apply (bits_kept t i p K0 K); try done.
    destruct Hb as [Hb|[_ Hb]]; [left|by right]. rewrite <-Hb, Eb. done.
Qed.

Lemma length_zero (l : list Z) : Z.of_nat (length l) =? 0 = true ↔ l = [].
Proof. rewrite Z.eqb_eq. destruct l; simpl; split; (done || lia). Qed.

(** Out of the ready list of priority [p]. *)
Lemma kwp_leave_ready t i p (Q : unit → kernel ktable → Prop) K :
  core (Some t) K → bits K → itm K (xStateListItem t) = Some i → 0 ≤ p < 5 → ki_home i = ready p →
  (∀ K', table_ok (kmem K') → moved (xStateListItem t) (set_home NULL i) K K' →
     core (Some t) K' → bits K' → (∀ lo, wakes lo K → wakes lo K') → Q tt K') →
  kwp (leave_ready t p) Q K.
Proof.
  intros C B Hi Hp Hh HQ. apply kwp_ok. intros Htab.
  apply kwp_bind. eapply kwp_remove_state; [exact C|exact Hi| |].
  { rewrite Hh. intros E. by apply (null_not_ready K _ p Htab C Hp). }
  intros K' n Htab' Mv C' Hw Ev ->.
  apply (kwp_reset_empty t i p _ _ K K'); try done.
  - intros q Hq E. apply ready_inj. congruence.
  - left. rewrite Hh. apply length_zero.
  - intros K2 ? ? ? ? Hw2. apply HQ; auto.
Qed.

(** Out of the list it is in, whichever that is. *)
Lemma kwp_leave_state_list t c i (Q : unit → kernel ktable → Prop) K :
  core None K → bits K → tcbs K !! t = Some c → itm K (xStateListItem t) = Some i →
  (∀ K', table_ok (kmem K') → moved (xStateListItem t) (set_home NULL i) K K' →
     core (Some t) K' → bits K' → (∀ lo, wakes lo K → wakes lo K') → Q tt K') →
  kwp (leave_state_list t) Q K.
Proof.
  intros C B Hc Hi HQ. apply kwp_ok. intros Htab.
  destruct (state_item None t c K C Hc ltac:(done)) as (i' & Hi' & Ho & Hs & HL & _).
  assert (i' = i) as -> by congruence.
  destruct (co_task _ _ C t c Hc) as (_ & Hp & _).
  assert (∀ q, 0 ≤ q < 5 → ki_home i = ready q → q = uxPriority c) as Hq.
  { intros q Hq E. destruct (ready_apart q Hq) as (? & ? & ? & ? & ?).
    destruct Hs as [Hs|[Hs|[Hs|[Hs|Hs]]]]; try congruence. apply ready_inj. congruence. }
  pose proof (core_exempt t K C) as Ct.
  apply kwp_bind. eapply kwp_remove_state; [exact Ct|exact Hi| |].
  { by apply (list_not_null K Htab). }
  intros K1 n Htab1 Mv C1 Hw Ev ->.
  set (b := Z.of_nat (length (members K1 (ki_home i))) =? 0).
  assert (tcbs K1 !! t = Some c) as Hc1 by by rewrite (mv_tcbs _ _ _ _ Mv).
  apply kwp_when; intros Eb.
  - apply kwp_bind, kwp_fmap. eapply kwp_rd_tcb; [exact Hc1|]. apply kwp_bind, kwp_length.
    { by apply (co_lists _ _ C1), ready_in. }
    apply (kwp_reset_empty t i (uxPriority c) _ _ K K1); try done.
    + left. apply length_zero.
    + intros K2 ? ? ? ? Hw2. apply HQ; auto.
  - apply HQ; try done. apply (bits_kept t i (uxPriority c) K K1); try done.
    destruct (decide (ki_home i = ready (uxPriority c))) as [Hh|Hh]; [left|by right].
    rewrite <-Hh, <-length_zero. fold b. by rewrite Eb.
Qed.

(** ** Event items *)

Lemma moved_refl x j K : itm K x = Some j → moved x j K K.
Proof. intros Hj. split; try done. intros y. case_decide; congruence. Qed.

Lemma event_home o t c e K :
  core o K → tcbs K !! t = Some c → itm K (xEventListItem t) = Some e → ki_home e ≠ NULL →
  ki_home e ∈ klists → ki_home e = xPendingReadyList.
Proof.
  intros C Hc He Hn Hk. destruct (event_item o t c K C Hc) as (e' & He' & Ho & _).
  assert (e' = e) as -> by congruence.
  destruct (co_item _ _ C _ _ He Hn) as (_ & _ & [(E & _)|(_ & Hp)]); [|auto].
  rewrite Ho in E. by destruct (items_differ t).
Qed.

(** The event item of a task moves between lists that are not the scheduler's,
    the pending list, and nowhere. *)
Lemma event_moved lo o t c e j K K' :
  table_ok (kmem K) → kinv_from lo o K → tcbs K !! t = Some c → itm K (xEventListItem t) = Some e →
  moved (xEventListItem t) j K K' → ki_owner j = t →
  var K' uxTopReadyPriority = var K uxTopReadyPriority → stays_in_order K K' →
  (ki_home j ≠ NULL → has_list K (ki_home j)) →
  (ki_home j ∈ klists → ki_home j = xPendingReadyList) → kinv_from lo o K'.
Proof.
  intros Htab [C B W] Hc He Mv Hj Ev Hord HL Hk.
  destruct (event_item o t c K C Hc) as (e' & He' & Ho & _). assert (e' = e) as -> by congruence.
  assert (∀ p, 0 ≤ p < 5 → ki_home j ≠ ready p) as Hnr.
  { intros p Hp E. destruct (ready_apart p Hp) as (_ & _ & Hap & _).
    apply Hap. rewrite <-E. apply Hk. rewrite E. by apply ready_in. }
  assert (∀ L, L = xDelayedTaskList1 ∨ L = xDelayedTaskList2 → ki_home j ≠ L) as Hnd.
  { intros L HLd E. destruct layout_apart as (_ & ? & ? & _).
    assert (ki_home j = xPendingReadyList); [|destruct HLd; congruence].
    apply Hk. rewrite E. unfold klists. rewrite !elem_of_cons. tauto. }
  split.
  - eapply core_moved; [exact C|exact Mv|exact He|congruence|..|done].
    + intros Hn. split; [by apply HL|]. rewrite Ho. by exists c.
    + right. right. rewrite Ho. split; [done|]. intros Hin. by apply Hk.
    + intros u E [cu Hu]. exfalso. by apply (state_no_event t u cu o K C Hu); [exists c|].
  - eapply bits_moved; [exact B|exact Mv|exact He|done|]. intros p Hp. split; [|by apply Hnr].
    intros E. destruct (ready_apart p Hp) as (_ & _ & Hap & _). apply Hap. rewrite <-E.
    eapply event_home; [exact C|exact Hc|exact He|..]; rewrite E; [|by apply ready_in].
    intros E'. by apply (null_not_ready K o p).
  - eapply wakes_elsewhere; [exact W|exact Mv|..];
      apply Hnd; destruct (co_delayed _ _ C) as [[E1 E2]|[E1 E2]]; rewrite ?E1, ?E2; auto.
Qed.

Lemma kwp_remove_event lo o t c e (Q : unit → kernel ktable → Prop) K :
  kinv_from lo o K → tcbs K !! t = Some c → itm K (xEventListItem t) = Some e → ki_home e ≠ NULL →
  (∀ K', table_ok (kmem K') → moved (xEventListItem t) (set_home NULL e) K K' →
     kinv_from lo o K' → Q tt K') →
  kwp (listREMOVE_ITEM (xEventListItem t)) Q K.
Proof.
  intros I Hc He Hn HQ. apply kwp_ok. intros Htab. pose proof (kv_core _ _ _ I) as C.
  destruct (event_item o t c K C Hc) as (e' & He' & Ho & HL). assert (e' = e) as -> by congruence.
  apply kwp_bind. eapply kwp_remove; [exact He|by apply HL|]. intros K' n Htab' Mv Hord Ev _ _.
  apply kwp_ret. apply HQ; [done|done|].
  eapply event_moved; [exact Htab|exact I|exact Hc|exact He|exact Mv|done|done|done|done|].
  simpl. intros Hk. exfalso. by apply (list_not_null K Htab NULL); [by apply (co_lists _ _ C)|].
Qed.

Lemma kwp_leave_event_list lo o t c e (Q : unit → kernel ktable → Prop) K :
  kinv_from lo o K → tcbs K !! t = Some c → itm K (xEventListItem t) = Some e →
  (∀ K', table_ok (kmem K') → moved (xEventListItem t) (set_home NULL e) K K' →
     kinv_from lo o K' → Q tt K') →
  kwp (leave_event_list t) Q K.
Proof.
  intros I Hc He HQ. apply kwp_ok. intros Htab. apply kwp_bind. eapply kwp_container; [exact He|].
  apply kwp_when; intros Hb.
  - eapply kwp_remove_event; [exact I|exact Hc|exact He| |exact HQ].
    intros E. by rewrite E in Hb.
  - apply HQ; [done| |done]. apply moved_refl. rewrite He. f_equal.
    apply negb_false_iff, Z.eqb_eq in Hb. destruct e; simpl in *. by rewrite Hb.
Qed.

(** The value of an event item. *)
Lemma kwp_set_event_value lo o t c e v (Q : unit → kernel ktable → Prop) K :
  kinv_from lo o K → tcbs K !! t = Some c → itm K (xEventListItem t) = Some e → tick_value v →
  (∀ K', table_ok (kmem K') → moved (xEventListItem t) (set_kvalue v e) K K' →
     kinv_from lo o K' → Q tt K') →
  kwp (lst (item_set_value (xEventListItem t) v)) Q K.
Proof.
  intros I Hc He Hv HQ. apply kwp_ok. intros Htab. pose proof (kv_core _ _ _ I) as C.
  destruct (event_item o t c K C Hc) as (e' & He' & Ho & HL). assert (e' = e) as -> by congruence.
  pose proof (event_home o t c e K C Hc He) as Hhome.
  assert (∀ L, L ∈ klists → L ≠ NULL) as Hkn
    by (intros L HLk; apply (list_not_null K Htab), (co_lists _ _ C), HLk).
  apply kwp_post, kwp_set_value; [by exists e|done|]. intros Htab'.
  pose proof (set_value_moved _ v e K He) as Mv.
  apply HQ; [done|exact Mv|].
  assert (∀ L, L = xDelayedTaskList1 ∨ L = xDelayedTaskList2 → ki_home e ≠ L) as Hnd.
  { intros L HLd E. destruct layout_apart as (_ & ? & ? & _).
    assert (L ∈ klists) as HLk by (unfold klists; rewrite !elem_of_cons; tauto).
    assert (ki_home e = xPendingReadyList); [|destruct HLd; congruence].
    apply Hhome; rewrite E; auto. }
  eapply event_moved; [exact Htab|exact I|exact Hc|exact He|exact Mv|done|done| |done|].
  - eapply set_value_order; [done|done|apply Hnd; auto|apply Hnd; auto].
  - simpl. intros Hk. apply Hhome; auto.
Qed.

(** ** Waking a task *)

Lemma core_inner o K x i :
  core o K → itm K x = Some i → ki_home i ∈ klists → ki_home i ≠ NULL → ki_home i ≠ xPendingReadyList →
  x = xStateListItem (ki_owner i) ∧ is_Some (tcbs K !! ki_owner i).
Proof.
  intros C Hi Hk Hn Hp. destruct (co_item _ _ C x i Hi Hn) as (_ & Ht & [(E & _)|(_ & E)]); [done|].
  by destruct Hp; apply E.
Qed.

(** A waiting task out of its list. *)
Lemma kwp_remove_waiting lo t c i (Q : Z → kernel ktable → Prop) K :
  kinv_from lo None K → tcbs K !! t = Some c → itm K (xStateListItem t) = Some i →
  (∀ p, 0 ≤ p < 5 → ki_home i ≠ ready p) →
  (∀ K' n, table_ok (kmem K') → moved (xStateListItem t) (set_home NULL i) K K' →
     kinv_from lo (Some t) K' → Q n K') →
  kwp (lst (list_remove (xStateListItem t))) Q K.
Proof.
  intros [C B W] Hc Hi Hnr HQ. apply kwp_ok. intros Htab.
  destruct (state_item None t c K C Hc ltac:(done)) as (i' & Hi' & _ & _ & HL & _).
  assert (i' = i) as -> by congruence.
  eapply kwp_remove_state; [by apply core_exempt|exact Hi|by apply (list_not_null K Htab)|].
  intros K' n Htab' Mv C' Hw Ev _. apply HQ; [done|done|]. split; [done| |auto].
  eapply bits_moved; [exact B|exact Mv|exact Hi|done|]. intros p Hp. split; [auto|].
  simpl. by eapply null_not_ready.
Qed.

Lemma kwp_make_ready lo t c i (Q : unit → kernel ktable → Prop) K :
  kinv_from lo (Some t) K → tcbs K !! t = Some c →
  itm K (xStateListItem t) = Some i → ki_home i = NULL →
  (∀ K', table_ok (kmem K') →
     moved (xStateListItem t) (set_home (ready (uxPriority c)) i) K K' →
     kinv_from lo None K' → Q tt K') →
  kwp (prvAddTaskToReadyList t) Q K.
Proof.
  intros [C B W] Hc Hi Hh HQ. eapply kwp_add_ready; [done|by apply bits_but_of|done..|].
  intros K' ? ? ? ? Hw. apply HQ; [done|done|]. split; auto.
Qed.

(** From whichever list to the ready list of its priority. *)
Lemma kwp_to_ready lo t c i (Q : unit → kernel ktable → Prop) K :
  kinv_from lo None K → tcbs K !! t = Some c → itm K (xStateListItem t) = Some i →
  (∀ K', table_ok (kmem K') →
     moved (xStateListItem t) (set_home (ready (uxPriority c)) i) K K' →
     kinv_from lo None K' → Q tt K') →
  kwp (wake_task t) Q K.
Proof.
  intros [C B W] Hc Hi HQ. apply kwp_ok. intros Htab.
  destruct (state_item None t c K C Hc ltac:(done)) as (i' & Hi' & _ & Hs & HL & _).
  assert (i' = i) as -> by congruence. pose proof (core_exempt t K C) as Ct.
  destruct (co_task _ _ C t c Hc) as (_ & Hp & _).
  apply kwp_bind, kwp_bind.
  eapply kwp_remove_state; [done|exact Hi|by apply (list_not_null K Htab)|].
  intros K1 n Htab1 Mv C1 Hw Ev _. apply kwp_ret.
  eapply (kwp_add_ready t c (set_home NULL i)); [done| |by rewrite (mv_tcbs _ _ _ _ Mv)|
    by eapply moved_some|done|].
  - split; rewrite Ev; [apply (bi_range _ B)|]. intros q Hq Hne. rewrite (bi_ready _ B q Hq).
    symmetry. eapply ready_moved; [exact Mv|exact Hi|..].
    + destruct (ready_apart q Hq) as (? & ? & ? & ? & ?).
      destruct Hs as [Hs|[Hs|[Hs|[Hs|Hs]]]]; try congruence. rewrite Hs. by intros E%ready_inj.
    + simpl. by eapply null_not_ready.
  - intros K2 ? Mv2 ? ? Hw2. apply HQ; [done|by eapply (moved_trans _ (set_home NULL i)); [by left|..]|]. split; auto.
Qed.
End moves.
