(* ===== verification/KernelTick.v ===== *)
(** The tick, the choice of the task to run, and going to sleep. *)
From stdpp Require Import base tactics numbers list gmap sorting.
From S2P Require Import Prelude Words Sched KList KListThm KListRefine Kernel KernelApi KernelInv KernelMoves.

(** * The tick

    The tick: [xTaskIncrementTick] counts the wait of every delayed task down by
    one, also when the tick count overflows, and wakes exactly the tasks whose
    wait is over. *)

Section tick.
Context `{Layout} {S : Type} `{ListLaws S}.
Implicit Types K : kernel ktable.

(** ** The next time to look *)

Lemma delayed_list o K : core o K → has_list K (var K pxDelayedTaskList).
Proof.
  intros C. apply (co_lists _ _ C). unfold klists. rewrite !elem_of_cons.
  destruct (co_delayed _ _ C) as [[-> _]|[-> _]]; tauto.
Qed.

Lemma delayed_order o K : core o K → in_order (value_of K) (members K (var K pxDelayedTaskList)).
Proof. intros C. apply (co_order _ _ C). destruct (co_delayed _ _ C) as [[-> _]|[-> _]]; auto. Qed.

(** The first item of the delayed list has the least value. *)
Lemma delayed_head o K x l i :
  table_ok (kmem K) → core o K → members K (var K pxDelayedTaskList) = x :: l → itm K x = Some i →
  ki_home i = var K pxDelayedTaskList ∧
  ∀ y j, itm K y = Some j → ki_home j = var K pxDelayedTaskList → ki_value i ≤ ki_value j.
Proof.
  intros Htab C E Hi. pose proof (delayed_list o K C) as HL. split.
  - apply (in_members K Htab x i _ Hi HL). rewrite E. set_solver.
  - intros y j Hj Hh. apply (in_members K Htab y j _ Hj HL) in Hh.
    pose proof (delayed_order o K C) as Ho. rewrite E in Ho, Hh.
    apply StronglySorted_inv in Ho as [_ Ho]. rewrite Forall_forall in Ho.
    apply elem_of_cons in Hh as [->|Hy]; [simplify_eq; lia|].
    specialize (Ho y Hy). rewrite !value_of_itm, Hi, Hj in Ho. done.
Qed.

Lemma wakes_next lo K n :
  (∀ x i, itm K x = Some i →
     (ki_home i = var K pxDelayedTaskList → lo ≤ ki_value i ∧ n ≤ ki_value i) ∧
     (ki_home i = var K pxOverflowDelayedTaskList → ki_value i < var K xTickCount)) →
  wakes lo (set_var xNextTaskUnblockTime n K).
Proof. done. Qed.

(** [xNextTaskUnblockTime] is reset to the first wake-up time. *)
Lemma kwp_reset_next lo o (Q : unit → kernel ktable → Prop) K :
  core o K →
  (∀ x i, itm K x = Some i →
     (ki_home i = var K pxDelayedTaskList → lo ≤ ki_value i) ∧
     (ki_home i = var K pxOverflowDelayedTaskList → ki_value i < var K xTickCount)) →
  (∀ n, core o (set_var xNextTaskUnblockTime n K) → wakes lo (set_var xNextTaskUnblockTime n K) →
     Q tt (set_var xNextTaskUnblockTime n K)) →
  kwp prvResetNextTaskUnblockTime Q K.
Proof.
  intros C Hw HQ. apply kwp_ok. intros Htab. pose proof (delayed_list o K C) as HL.
  unfold prvResetNextTaskUnblockTime.
  apply kwp_bind, kwp_rd, kwp_bind, kwp_length; [done|]. apply kwp_if; intros Hn.
  - apply kwp_wr, HQ; [by apply core_var|]. apply wakes_next. intros x i Hi.
    split; [|by apply (Hw x i Hi)]. intros Hh.
    apply length_zero in Hn. exfalso. by apply (proj1 (empty_homes K Htab _ HL) Hn x i).
  - destruct (members K (var K pxDelayedTaskList)) as [|x l] eqn:E; [done|].
    destruct (member_item K Htab x (var K pxDelayedTaskList)) as (i & Hi & _); [rewrite E; set_solver|].
    destruct (delayed_head o K x l i Htab C E Hi) as [_ Hmin].
    apply kwp_bind, kwp_rd, kwp_bind. eapply kwp_head_value; [exact E|exact Hi|].
    apply kwp_wr, HQ; [by apply core_var|]. apply wakes_next. intros y j Hj.
    destruct (Hw y j Hj) as [HD HO]. split; [|done]. intros Hh. split; [auto|by eapply Hmin].
Qed.

(** ** The tasks that are woken *)

(** [i] is the state item of a task of the delayed list that is due. *)
Definition due (now : Z) K (i : kitem) : Prop :=
  ki_home i = var K pxDelayedTaskList ∧ ki_value i ≤ now.

(** Between [K0] and [K], some of the tasks with [P] of their items have been
    woken; the variables of [free] may have changed. *)
Record woken (P : kitem → kitem → Prop) (free : kvar → bool) K0 K : Prop := {
  wk_tcbs : tcbs K = tcbs K0;
  wk_var v : free v = false → var K v = var K0 v;
  wk_task t c i e : tcbs K0 !! t = Some c → itm K0 (xStateListItem t) = Some i →
    itm K0 (xEventListItem t) = Some e →
    itm K (xStateListItem t) = Some i ∧ itm K (xEventListItem t) = Some e ∨
    P i e ∧ itm K (xStateListItem t) = Some (set_home (ready (uxPriority c)) i) ∧
      itm K (xEventListItem t) = Some (set_home NULL e)
}.

Lemma woken_refl P free K : woken P free K K.
Proof. split; auto. Qed.

Definition items_of K (t : Z) : option kitem * option kitem :=
  (itm K (xStateListItem t), itm K (xEventListItem t)).

(** One of those woken has a higher priority than the running task. *)
Definition higher_woken K0 K : Prop :=
  ∃ t c cc, tcbs K0 !! t = Some c ∧ tcbs K0 !! var K0 pxCurrentTCB = Some cc ∧
    items_of K t ≠ items_of K0 t ∧ uxPriority cc < uxPriority c.

(** The items of other tasks are other items. *)
Lemma other_items o K t c u cu :
  core o K → tcbs K !! t = Some c → tcbs K !! u = Some cu → u ≠ t →
  xStateListItem u ≠ xStateListItem t ∧ xStateListItem u ≠ xEventListItem t ∧
  xEventListItem u ≠ xStateListItem t ∧ xEventListItem u ≠ xEventListItem t.
Proof.
  intros C Hc Hu Hne. split_and!.
  - unfold xStateListItem. lia.
  - intros E. symmetry in E. revert E. by eapply state_no_event; [exact C|exact Hu|exists c].
  - by eapply state_no_event; [exact C|exact Hc|exists cu].
  - unfold xEventListItem. lia.
Qed.

(** One task more. *)
Lemma woken_step P free K0 K K' t c i e :
  (∀ i e p, 0 ≤ p < 5 → ¬ P (set_home (ready p) i) (set_home NULL e)) →
  core None K0 → woken P free K0 K → tcbs K0 !! t = Some c →
  itm K (xStateListItem t) = Some i → itm K (xEventListItem t) = Some e → P i e →
  tcbs K' = tcbs K → (∀ v, free v = false → var K' v = var K v) →
  (∀ y, itm K' y = if decide (y = xStateListItem t) then Some (set_home (ready (uxPriority c)) i)
                   else if decide (y = xEventListItem t) then Some (set_home NULL e) else itm K y) →
  woken P free K0 K' ∧
  (higher_woken K0 K' ↔ higher_woken K0 K ∨
     ∃ cc, tcbs K0 !! var K0 pxCurrentTCB = Some cc ∧ uxPriority cc < uxPriority c).
Proof.
  intros HP C [T V W] Hc Hi He HPie T' V' I'.
  destruct (state_item None t c K0 C Hc ltac:(done)) as (i0 & Hi0 & _).
  destruct (event_item None t c K0 C Hc) as (e0 & He0 & _).
  destruct (co_task _ _ C t c Hc) as (_ & Hp & _).
  assert (i0 = i ∧ e0 = e) as [-> ->].
  { destruct (W t c i0 e0 Hc Hi0 He0) as [[E1 E2]|(_ & E1 & E2)]; [split; congruence|].
    exfalso. apply (HP i0 e0 _ Hp). congruence. }
  assert (itm K' (xStateListItem t) = Some (set_home (ready (uxPriority c)) i)) as Et
    by by rewrite I', decide_True.
  assert (itm K' (xEventListItem t) = Some (set_home NULL e)) as Ee.
  { rewrite I', decide_False, decide_True; [done..|]. intros E. symmetry in E. by apply (items_differ t). }
  assert (∀ u cu, tcbs K0 !! u = Some cu → u ≠ t → items_of K' u = items_of K u) as Hother.
  { intros u cu Hu Hne. unfold items_of. rewrite !I'.
    destruct (other_items None K0 t c u cu C Hc Hu Hne) as (? & ? & ? & ?).
    by rewrite !decide_False. }
  split.
  - split; [congruence|by intros v ?; rewrite V', V|].
    intros u cu iu eu Hcu Hiu Heu. destruct (decide (u = t)) as [->|Hne].
    + right. by simplify_eq.
    + pose proof (Hother u cu Hcu Hne) as [= -> ->]. by apply (W u).
  - split.
    + intros (u & cu & cc & Hcu & Hcc & Hch & Hlt). destruct (decide (u = t)) as [->|Hne].
      * right. simplify_eq. eauto.
      * left. exists u, cu, cc. by rewrite <-(Hother u cu).
    + intros [(u & cu & cc & Hcu & Hcc & Hch & Hlt)|(cc & Hcc & Hlt)].
      * exists u, cu, cc. do 2 (split; [done|]). split; [|done].
        destruct (decide (u = t)) as [->|Hne]; [|by rewrite (Hother u cu)].
        unfold items_of in Hch. congruence.
      * exists t, c, cc. do 2 (split; [done|]). split; [|done]. unfold items_of.
        rewrite Et, Ee, Hi0, He0. intros [= E1 E2]. apply (HP i e _ Hp). congruence.
Qed.

(** ** The loop *)

Lemma shrinks K K' L x :
  table_ok (kmem K) → table_ok (kmem K') → x ∈ members K L →
  (∀ y, y ∈ members K' L → y ∈ members K L ∧ y ≠ x) →
  (length (members K' L) < length (members K L))%nat.
Proof.
  intros Htab Htab' Hx Hsub.
  enough (length (x :: members K' L) ≤ length (members K L))%nat by (simpl in *; lia).
  apply submseteq_length, NoDup_submseteq.
  - apply NoDup_cons. split; [intros Hin; by apply Hsub in Hin as []|by apply members_nodup].
  - intros y [->|Hy]%elem_of_cons; [done|by apply Hsub].
Qed.

(** The variables the loop changes. *)
Definition tick_free (v : kvar) : bool :=
  match v with uxTopReadyPriority | xNextTaskUnblockTime => true | _ => false end.

(** What the loop leaves: nobody is due, and the flag tells whether one of the
    tasks woken is more important than the running task. *)
Definition unblocked (now : Z) K0 (b : bool) K : Prop :=
  kinv_from (now + 1) None K ∧ woken (λ i _, due now K0 i) tick_free K0 K ∧
  (∀ x i, itm K x = Some i → ki_home i = var K pxDelayedTaskList → now < ki_value i) ∧
  (b = true ↔ higher_woken K0 K).

Lemma set_next_unblocked now n b K0 K :
  kinv_from now None K → woken (λ i _, due now K0 i) tick_free K0 K → (b = true ↔ higher_woken K0 K) →
  (∀ x i, itm K x = Some i → ki_home i = var K pxDelayedTaskList → now < ki_value i ∧ n ≤ ki_value i) →
  unblocked now K0 b (set_var xNextTaskUnblockTime n K).
Proof.
  intros [C [B1 B2] W] [T V Wt] Hb Hn. split; [|split; [|split; [|done]]].
  - split; [by apply core_var|by split|]. apply wakes_next. intros x i Hi.
    destruct (W x i Hi) as [_ HO]. split; [|done]. intros Hh. destruct (Hn x i Hi Hh). lia.
  - split; [done| |done]. intros v Hv. rewrite set_var_other by (intros <-; done). auto.
  - intros x i Hi Hh. by apply (Hn x i Hi Hh).
Qed.

Lemma kwp_unblock now K0 fuel b K :
  core None K0 → (length (members K (var K pxDelayedTaskList)) < fuel)%nat →
  kinv_from now None K → woken (λ i _, due now K0 i) tick_free K0 K → (b = true ↔ higher_woken K0 K) →
  kwp (unblock_expired fuel now b) (unblocked now K0) K.
Proof.
  intros C0. revert b K. induction fuel as [|fuel IH]; intros b K Hf I Wk Hb; [lia|].
  apply kwp_ok. intros Htab. pose proof (kv_core _ _ _ I) as C.
  pose proof (delayed_list _ K C) as HL. cbn [unblock_expired].
  apply kwp_bind, kwp_rd, kwp_bind, kwp_length; [done|]. apply kwp_if; intros Hn.
  { apply kwp_bind, kwp_wr, kwp_ret. apply length_zero in Hn.
    apply set_next_unblocked; try done. intros x i Hi Hh. exfalso.
    by apply (proj1 (empty_homes K Htab _ HL) Hn x i). }
  destruct (members K (var K pxDelayedTaskList)) as [|x l] eqn:E; [done|].
  assert (x ∈ members K (var K pxDelayedTaskList)) as Hx by (rewrite E; set_solver).
  destruct (member_item K Htab x _ Hx) as (i & Hi & Hh & _).
  destruct (delayed_head _ K x l i Htab C E Hi) as [_ Hmin].
  assert (var K pxDelayedTaskList ∈ klists ∧ var K pxDelayedTaskList ≠ xPendingReadyList ∧
    ∀ p, 0 ≤ p < 5 → var K pxDelayedTaskList ≠ ready p) as (HDk & HDp & HDr).
  { destruct layout_apart as (_ & ? & ? & _). split_and!.
    - unfold klists. rewrite !elem_of_cons. destruct (co_delayed _ _ C) as [[-> _]|[-> _]]; tauto.
    - destruct (co_delayed _ _ C) as [[-> _]|[-> _]]; done.
    - intros p Hp E'. destruct (ready_not_delayed K _ p C Hp). congruence. }
  destruct (core_inner None K x i C Hi) as [Ex [c Hc]];
    [congruence|rewrite Hh; by apply (list_not_null K Htab)|congruence|].
  set (t := ki_owner i) in *. clearbody t. subst x.
  apply kwp_bind, kwp_rd, kwp_bind. eapply kwp_head_owner; [exact E|exact Hi|].
  replace (ki_owner i) with t.
  2: { destruct (co_task _ _ C t c Hc) as (_ & _ & _ & (i' & Hi' & Ho & _) & _). congruence. }
  apply kwp_bind. eapply kwp_value; [exact Hi|]. apply kwp_if; intros Hlt.
  { apply kwp_bind, kwp_wr, kwp_ret. apply Z.ltb_lt in Hlt.
    apply set_next_unblocked; try done. intros y j Hj Hjh. pose proof (Hmin y j Hj Hjh). lia. }
  apply Z.ltb_ge in Hlt.
  destruct (event_item None t c K C Hc) as (e & He & _).
  unfold listREMOVE_ITEM. apply kwp_bind, kwp_bind.
  eapply kwp_remove_waiting; [exact I|exact Hc|exact Hi|by rewrite Hh|].
  intros K1 n Htab1 Mv1 I1. apply kwp_ret, kwp_bind.
  assert (tcbs K1 !! t = Some c) as Hc1 by by rewrite (mv_tcbs _ _ _ _ Mv1).
  assert (itm K1 (xEventListItem t) = Some e) as He1.
  { erewrite moved_other; [exact He|exact Mv1|]. intros E'. symmetry in E'. by apply (items_differ t). }
  eapply kwp_leave_event_list; [exact I1|exact Hc1|exact He1|]. intros K2 Htab2 Mv2 I2.
  assert (tcbs K2 !! t = Some c) as Hc2 by by rewrite (mv_tcbs _ _ _ _ Mv2).
  assert (itm K2 (xStateListItem t) = Some (set_home NULL i)) as Hi2.
  { erewrite moved_other; [by eapply moved_some|exact Mv2|by apply items_differ]. }
  apply kwp_bind. eapply kwp_make_ready; [exact I2|exact Hc2|exact Hi2|done|].
  intros K3 Htab3 Mv3 I3.
  assert (tcbs K3 = tcbs K) as HT
    by by rewrite (mv_tcbs _ _ _ _ Mv3), (mv_tcbs _ _ _ _ Mv2), (mv_tcbs _ _ _ _ Mv1).
  assert (∀ v, v ≠ uxTopReadyPriority → var K3 v = var K v) as HV
    by (intros v Hv; by rewrite (mv_var _ _ _ _ Mv3), (mv_var _ _ _ _ Mv2), (mv_var _ _ _ _ Mv1)).
  destruct (woken_step (λ i _, due now K0 i) tick_free K0 K K3 t c i e) as [Wk3 Hb3]; try done.
  { intros j f p Hp [Hd _]. simpl in Hd. apply (HDr p Hp). by rewrite (wk_var _ _ _ _ Wk). }
  { by rewrite <-(wk_tcbs _ _ _ _ Wk). }
  { split; [by rewrite <-(wk_var _ _ _ _ Wk)|done]. }
  { intros v Hv. apply HV. by intros ->. }
  { intros y. rewrite (mv_itm _ _ _ _ Mv3), (mv_itm _ _ _ _ Mv2), (mv_itm _ _ _ _ Mv1).
    repeat case_decide; done. }
  apply kwp_bind, kwp_fmap. eapply kwp_rd_tcb; [by rewrite HT|].
  apply kwp_bind, kwp_rd, kwp_bind, kwp_fmap.
  pose proof (kv_core _ _ _ I3) as C3. destruct (co_current _ _ C3) as [cc Hcc].
  eapply kwp_rd_tcb; [exact Hcc|]. apply IH; [|done|done|].
  - rewrite HV by done.
    enough (length (members K3 (var K pxDelayedTaskList)) < length (members K (var K pxDelayedTaskList)))%nat
      by (rewrite E in *; simpl in *; lia).
    apply (shrinks K K3 _ (xStateListItem t)); [done|done|done|]. intros y Hy.
    destruct (member_item K3 Htab3 y _ Hy) as (j & Hj & Hjh & _).
    rewrite (mv_itm _ _ _ _ Mv3), (mv_itm _ _ _ _ Mv2), (mv_itm _ _ _ _ Mv1) in Hj.
    destruct (decide (y = xStateListItem t)) as [->|Hyt].
    { injection Hj as <-. simpl in Hjh. exfalso.
      apply (HDr (uxPriority c)); [by apply (co_task _ _ C t c Hc)|done]. }
    split; [|done]. destruct (decide (y = xEventListItem t)) as [->|Hye].
    { injection Hj as <-. simpl in Hjh. exfalso. by apply (list_not_null K Htab _ HL). }
    by apply (in_members K Htab y j).
  - rewrite HT, (wk_tcbs _ _ _ _ Wk), HV, (wk_var _ _ _ _ Wk) in Hcc by done. rewrite Hb3, <-Hb.
    destruct (uxPriority cc <? uxPriority c) eqn:Hp; [apply Z.ltb_lt in Hp|apply Z.ltb_ge in Hp].
    + split; [intros _; right; eauto|done].
    + split; [auto|]. intros [?|(cc' & ? & ?)]; [done|simplify_eq; lia].
Qed.

(** ** The clock *)

(** The ticks task [t] still has to wait, if it waits with a time-out. *)
Definition wait_left K (t : Z) : option Z :=
  i ← itm K (xStateListItem t);
  if ki_home i =? var K pxDelayedTaskList then Some (ki_value i - var K xTickCount)
  else if ki_home i =? var K pxOverflowDelayedTaskList then
    Some (ki_value i + 4294967296 - var K xTickCount)
  else None.

(** The tick count and the delayed lists, [K1] one tick after [K0]. *)
Record clocked K0 K1 : Prop := {
  ck_inv : kinv_from (var K1 xTickCount) None K1;
  ck_itm x : itm K1 x = itm K0 x;
  ck_tcbs : tcbs K1 = tcbs K0;
  ck_tick : var K1 xTickCount = u32 (var K0 xTickCount + 1);
  ck_var v : tracked v = false → v ≠ xNumOfOverflows → var K1 v = var K0 v;
  ck_current : var K1 pxCurrentTCB = var K0 pxCurrentTCB;
  ck_delayed :
    if var K1 xTickCount =? 0 then
      var K1 pxDelayedTaskList = var K0 pxOverflowDelayedTaskList ∧
      var K1 pxOverflowDelayedTaskList = var K0 pxDelayedTaskList ∧
      var K1 xNumOfOverflows = s32 (var K0 xNumOfOverflows + 1)
    else
      var K1 pxDelayedTaskList = var K0 pxDelayedTaskList ∧
      var K1 pxOverflowDelayedTaskList = var K0 pxOverflowDelayedTaskList ∧
      var K1 xNumOfOverflows = var K0 xNumOfOverflows
}.

Lemma u32_succ n : 0 ≤ n < 4294967296 → u32 (n + 1) = if n =? 4294967295 then 0 else n + 1.
Proof.
  intros Hn. unfold u32. destruct (Z.eqb_spec n 4294967295) as [->|]; [done|].
  apply Z.mod_small. lia.
Qed.

Lemma core_tick o n K : core o K → 0 ≤ n < 4294967296 → core o (set_var xTickCount n K).
Proof. intros [C1 C2 C3 C4 C5 C6 C7 C8] Hn. by split. Qed.

Lemma core_swap o K a b :
  core o K → a = var K pxOverflowDelayedTaskList → b = var K pxDelayedTaskList →
  core o (set_var pxOverflowDelayedTaskList b (set_var pxDelayedTaskList a K)).
Proof.
  intros [C1 C2 C3 C4 C5 C6 C7 C8] -> ->. split; try done. simpl. naive_solver.
Qed.

Lemma kwp_switch_lists K0 (Q : unit → kernel ktable → Prop) K :
  kinv K0 → K = set_var xTickCount 0 K0 → u32 (var K0 xTickCount + 1) = 0 →
  (∀ K1, clocked K0 K1 → var K1 xTickCount = 0 → Q tt K1) →
  kwp taskSWITCH_DELAYED_LISTS Q K.
Proof.
  intros [C B W] -> Hz HQ. apply kwp_ok. intros Htab. pose proof (co_tick _ _ C) as Ht.
  assert (core None (set_var xTickCount 0 K0)) as C' by by apply core_tick.
  pose proof (delayed_list None K0 C) as HL.
  assert (∀ x i, itm K0 x = Some i → ki_home i ≠ var K0 pxDelayedTaskList) as Hnone.
  { intros x i Hi Hh. destruct (W x i Hi) as [HD _]. specialize (HD Hh) as [HD _].
    pose proof (to_value _ Htab x i Hi) as [_ Hv]. unfold portMAX_DELAY in Hv.
    rewrite u32_succ in Hz by done. case_match; lia. }
  unfold taskSWITCH_DELAYED_LISTS. apply kwp_bind, kwp_rd, kwp_bind, kwp_length; [done|].
  apply kwp_bind, kwp_assert. { by apply length_zero, (empty_homes K0 Htab _ HL). }
  apply kwp_bind, kwp_rd, kwp_bind, kwp_rd, kwp_bind, kwp_wr, kwp_bind, kwp_wr.
  apply kwp_bind, kwp_rd, kwp_bind, kwp_wr.
  eapply (kwp_reset_next 0 None).
  - apply core_var; [done..|]. by apply core_swap.
  - intros x i Hi. split; intros Hh.
    + apply (to_value _ Htab x i Hi).
    + by destruct (Hnone x i Hi).
  - intros n Cn Wn. apply HQ; [|done]. split; try done.
    + split; [done| |done]. by destruct B as [B1 B2]; split.
    + intros v Hv1 Hv2. by rewrite !set_var_other by (intros <-; done).
Qed.

Lemma kwp_count_tick (Q : Z → kernel ktable → Prop) K0 :
  kinv K0 → (∀ K1, clocked K0 K1 → Q (var K1 xTickCount) K1) → kwp count_tick Q K0.
Proof.
  intros I HQ. pose proof I as [C B W]. pose proof (co_tick _ _ C) as Ht.
  apply kwp_bind, kwp_fmap, kwp_rd, kwp_bind, kwp_wr, kwp_bind.
  pose proof (u32_range (var K0 xTickCount + 1)) as Hr.
  set (n := u32 (var K0 xTickCount + 1)) in *. apply kwp_when; intros Hn.
  - apply Z.eqb_eq in Hn. eapply (kwp_switch_lists K0); [done|by rewrite Hn|done|].
    intros K1 Ck Hz. apply kwp_ret. rewrite Hn, <-Hz. by apply HQ.
  - apply kwp_ret. apply Z.eqb_neq in Hn.
    assert (n = var K0 xTickCount + 1) as En.
    { pose proof (u32_succ _ Ht) as Es. fold n in Es. case_match; lia. }
    apply (HQ (set_var xTickCount n K0)). split; try done.
    + split; [by apply core_tick|by destruct B as [B1 B2]; split|].
      intros x i Hi. simpl. destruct (W x i Hi) as [HD HO]. rewrite En. split; [done|].
      intros Hh. specialize (HO Hh). lia.
    + intros v Hv1 Hv2. by rewrite !set_var_other by (intros <-; done).
    + simpl. by rewrite (proj2 (Z.eqb_neq n 0)).
Qed.

(** Waits count down by one. *)
Lemma clocked_wait K0 K1 t :
  kinv K0 → clocked K0 K1 → table_ok (kmem K0) → wait_left K1 t = (λ n, n - 1) <$> wait_left K0 t.
Proof.
  intros [C _ W] Ck Htab. pose proof (co_tick _ _ C) as Ht. unfold wait_left. rewrite (ck_itm _ _ Ck).
  destruct (itm K0 (xStateListItem t)) as [i|] eqn:Hi; [simpl|done].
  pose proof (ck_tick _ _ Ck) as Et. pose proof (ck_delayed _ _ Ck) as Ed.
  destruct (W _ i Hi) as [HD HO]. pose proof (to_value _ Htab _ i Hi) as Hv.
  unfold tick_value, portMAX_DELAY in *. rewrite u32_succ in Et by done.
  assert (var K0 pxDelayedTaskList ≠ var K0 pxOverflowDelayedTaskList) as Hne.
  { destruct layout_apart as (? & _). destruct (co_delayed _ _ C) as [[-> ->]|[-> ->]]; congruence. }
  destruct (Z.eqb_spec (var K0 xTickCount) 4294967295) as [Hz|Hz]; rewrite Et in Ed |- *;
    [|rewrite (proj2 (Z.eqb_neq _ 0)) in Ed by lia]; destruct Ed as (-> & -> & _).
  - destruct (Z.eqb_spec (ki_home i) (var K0 pxDelayedTaskList)) as [Hd|Hd];
      destruct (Z.eqb_spec (ki_home i) (var K0 pxOverflowDelayedTaskList)) as [Ho|Ho];
      [congruence| | |done]; simpl; f_equal; [exfalso; specialize (HD Hd)|]; lia.
  - destruct (Z.eqb_spec (ki_home i) (var K0 pxDelayedTaskList)); [simpl; f_equal; lia|].
    destruct (Z.eqb_spec (ki_home i) (var K0 pxOverflowDelayedTaskList)); [simpl; f_equal; lia|done].
Qed.

(** ** The tick *)

(** [K'] is [K] one tick later; [b] asks for a switch of tasks. *)
Record ticked K (b : bool) K' : Prop := {
  tk_inv : kinv K';
  tk_tick : var K' xTickCount = u32 (var K xTickCount + 1);
  tk_overflows : var K' xNumOfOverflows =
    if var K' xTickCount =? 0 then s32 (var K xNumOfOverflows + 1) else var K xNumOfOverflows;
  tk_tcbs : tcbs K' = tcbs K;
  tk_var v : tracked v = false → v ≠ xNumOfOverflows → var K' v = var K v;
  tk_current : var K' pxCurrentTCB = var K pxCurrentTCB;
  tk_woken t c : tcbs K !! t = Some c → wait_left K t = Some 1 →
    home_of K' (xStateListItem t) = ready (uxPriority c) ∧ home_of K' (xEventListItem t) = NULL;
  tk_asleep t c n : tcbs K !! t = Some c → wait_left K t = Some n → n ≠ 1 →
    wait_left K' t = Some (n - 1) ∧ itm K' (xEventListItem t) = itm K (xEventListItem t);
  tk_others t c : tcbs K !! t = Some c → wait_left K t = None →
    itm K' (xStateListItem t) = itm K (xStateListItem t) ∧
    itm K' (xEventListItem t) = itm K (xEventListItem t);
  tk_switch c : tcbs K !! var K pxCurrentTCB = Some c →
    b = true ↔
    (∃ t ct, tcbs K !! t = Some ct ∧ wait_left K t = Some 1 ∧ uxPriority c < uxPriority ct) ∨
    1 < Z.of_nat (length (members K' (ready (uxPriority c)))) ∨ var K xYieldPending ≠ 0
}.

(** A list of the scheduler's holds one item of a task at most. *)
Lemma state_short o K L :
  table_ok (kmem K) → core o K → L ∈ klists → L ≠ xPendingReadyList →
  (length (members K L) ≤ size (tcbs K))%nat.
Proof.
  intros Htab C HLk HLp.
  enough (length (members K L) ≤ length (xStateListItem <$> (map_to_list (tcbs K)).*1))%nat as Hlen
    by by rewrite !length_fmap, length_map_to_list in Hlen.
  apply submseteq_length, NoDup_submseteq; [by apply members_nodup|]. intros x Hx.
  destruct (member_item K Htab x _ Hx) as (i & Hi & Hh & HL).
  destruct (core_inner o K x i C Hi) as [-> [c Hc]]; rewrite ?Hh;
    [done|by apply (list_not_null K Htab)|done|].
  apply list_elem_of_fmap_2, list_elem_of_fmap. exists (ki_owner i, c). split; [done|].
  by apply elem_of_map_to_list.
Qed.

Lemma kwp_maybe_unblock K0 K1 (Q : bool → kernel ktable → Prop) :
  clocked K0 K1 → (∀ b K2, unblocked (var K1 xTickCount) K1 b K2 → Q b K2) →
  kwp (next ← rd xNextTaskUnblockTime;
       if next <=? var K1 xTickCount then
         fuel ← task_fuel; unblock_expired fuel (var K1 xTickCount) false
       else mret false) Q K1.
Proof.
  intros Ck HQ. pose proof (ck_inv _ _ Ck) as I. pose proof (kv_core _ _ _ I) as C.
  assert (false = true ↔ higher_woken K1 K1) as Hb.
  { split; [done|]. by intros (t & c & cc & _ & _ & Hne & _). }
  apply kwp_ok. intros Htab. apply kwp_bind, kwp_rd, kwp_if; intros Hn.
  - apply kwp_bind, kwp_task_fuel. eapply kwp_mono; [|exact HQ].
    apply kwp_unblock; [done| |done|apply woken_refl|done].
    assert (length (members K1 (var K1 pxDelayedTaskList)) ≤ size (tcbs K1))%nat; [|lia].
    destruct layout_apart as (_ & ? & ? & _).
    apply (state_short None); [done|done|..]; destruct (co_delayed _ _ C) as [[-> _]|[-> _]]; try done;
      unfold klists; rewrite !elem_of_cons; tauto.
  - apply kwp_ret, HQ. apply Z.leb_gt in Hn. destruct I as [_ B W].
    assert (∀ x i, itm K1 x = Some i → ki_home i = var K1 pxDelayedTaskList →
      var K1 xTickCount < ki_value i) as Hw.
    { intros x i Hi Hh. destruct (W x i Hi) as [HD _]. specialize (HD Hh). lia. }
    split; [|split; [apply woken_refl|done]]. split; [done|done|]. intros x i Hi.
    destruct (W x i Hi) as [HD HO]. split; [|done]. intros Hh. specialize (HD Hh).
    specialize (Hw x i Hi Hh). lia.
Qed.

(** Whose wait is over. *)
Lemma wait_due K0 K1 t i :
  kinv K0 → clocked K0 K1 → table_ok (kmem K0) → itm K0 (xStateListItem t) = Some i →
  (∃ j, itm K1 (xStateListItem t) = Some j ∧ due (var K1 xTickCount) K1 j) ↔ wait_left K0 t = Some 1.
Proof.
  intros I Ck Htab Hi. pose proof (clocked_wait K0 K1 t I Ck Htab) as Hw.
  pose proof (ck_inv _ _ Ck) as [C1 _ W1]. rewrite (ck_itm _ _ Ck), Hi. unfold due.
  assert (wait_left K0 t = Some 1 ↔ wait_left K1 t = Some 0) as ->.
  { rewrite Hw. destruct (wait_left K0 t); simpl; split; intros; simplify_eq; f_equal; lia. }
  assert (itm K1 (xStateListItem t) = Some i) as Hi1 by by rewrite (ck_itm _ _ Ck).
  destruct (W1 _ i Hi1) as [HD HO]. pose proof (co_tick _ _ C1) as Ht.
  assert (tick_value (ki_value i)) as [Hv _] by by apply (to_value _ Htab (xStateListItem t)).
  unfold wait_left. rewrite Hi1. simpl.
  destruct (Z.eqb_spec (ki_home i) (var K1 pxDelayedTaskList)) as [Hd|Hd].
  - specialize (HD Hd). split; [intros (j & [= <-] & _ & ?)|intros [= ?]; exists i];
      [f_equal; lia|split; [done|split; [done|lia]]].
  - split; [by intros (j & [= <-] & ? & _)|].
    case_match; intros [= E]; lia.
Qed.

(** A task is woken exactly if its wait is over. *)
Lemma unblocked_task K0 K1 b K2 t c i e :
  kinv K0 → clocked K0 K1 → unblocked (var K1 xTickCount) K1 b K2 → table_ok (kmem K0) →
  tcbs K0 !! t = Some c → itm K0 (xStateListItem t) = Some i → itm K0 (xEventListItem t) = Some e →
  if decide (wait_left K0 t = Some 1) then
    itm K2 (xStateListItem t) = Some (set_home (ready (uxPriority c)) i) ∧
    itm K2 (xEventListItem t) = Some (set_home NULL e)
  else itm K2 (xStateListItem t) = Some i ∧ itm K2 (xEventListItem t) = Some e.
Proof.
  intros I Ck (_ & [T V W] & Hno & _) Htab Hc Hi He.
  pose proof (wait_due K0 K1 t i I Ck Htab Hi) as Hd.
  assert (itm K1 (xStateListItem t) = Some i ∧ itm K1 (xEventListItem t) = Some e) as [Hi1 He1]
    by by rewrite !(ck_itm _ _ Ck).
  assert (tcbs K1 !! t = Some c) as Hc1 by by rewrite (ck_tcbs _ _ Ck).
  specialize (W t c i e Hc1 Hi1 He1). case_decide as Hw; destruct W as [[E1 E2]|(D & E1 & E2)]; try done.
  - apply Hd in Hw as (j & Hj & Hh & Hv). assert (j = i) as -> by congruence.
    exfalso. specialize (Hno _ i E1). rewrite V in Hno by done. specialize (Hno Hh). lia.
  - exfalso. apply Hw, Hd. eauto.
Qed.

Lemma wait_left_same K K' t :
  itm K' (xStateListItem t) = itm K (xStateListItem t) →
  var K' pxDelayedTaskList = var K pxDelayedTaskList →
  var K' pxOverflowDelayedTaskList = var K pxOverflowDelayedTaskList →
  var K' xTickCount = var K xTickCount → wait_left K' t = wait_left K t.
Proof. unfold wait_left. by intros -> -> -> ->. Qed.

Lemma higher_woken_waits K0 K1 b K2 cc :
  kinv K0 → clocked K0 K1 → unblocked (var K1 xTickCount) K1 b K2 → table_ok (kmem K0) →
  tcbs K0 !! var K0 pxCurrentTCB = Some cc →
  higher_woken K1 K2 ↔
  ∃ t c, tcbs K0 !! t = Some c ∧ wait_left K0 t = Some 1 ∧ uxPriority cc < uxPriority c.
Proof.
  intros I Ck U Htab Hcc. unfold higher_woken. rewrite (ck_tcbs _ _ Ck), (ck_current _ _ Ck).
  assert (∀ t c, tcbs K0 !! t = Some c →
    items_of K2 t ≠ items_of K1 t ↔ wait_left K0 t = Some 1) as Hch.
  { intros t c Hc. pose proof I as [C _ _].
    destruct (state_item None t c K0 C Hc ltac:(done)) as (i & Hi & _).
    destruct (event_item None t c K0 C Hc) as (e & He & _).
    pose proof (unblocked_task K0 K1 b K2 t c i e I Ck U Htab Hc Hi He) as Hu.
    unfold items_of. rewrite !(ck_itm _ _ Ck), Hi, He.
    case_decide as Hw; destruct Hu as [-> ->]; [|done]. split; [done|]. intros _ [= E _].
    assert (∃ j, itm K1 (xStateListItem t) = Some j ∧ due (var K1 xTickCount) K1 j) as (j & Hj & Hd & _)
      by (by apply (wait_due K0 K1 t i)).
    rewrite (ck_itm _ _ Ck), Hi in Hj. injection Hj as <-.
    destruct (ready_not_delayed K1 None (uxPriority c)) as [Hn _];
      [apply (kv_core _ _ _ (ck_inv _ _ Ck))|by apply (co_task _ _ C t c Hc)|].
    apply Hn. rewrite <-Hd, <-E. done. }
  split.
  - intros (t & c & cc' & Hc & Hcc' & Hne & Hlt). simplify_eq. exists t, c.
    rewrite <-(Hch t c Hc). done.
  - intros (t & c & Hc & Hw & Hlt). exists t, c, cc. rewrite (Hch t c Hc). done.
Qed.

Lemma unblocked_ticked K0 K1 b K2 b' c :
  kinv K0 → clocked K0 K1 → unblocked (var K1 xTickCount) K1 b K2 → table_ok (kmem K0) →
  tcbs K0 !! var K0 pxCurrentTCB = Some c →
  b' = b || (1 <? Z.of_nat (length (members K2 (ready (uxPriority c))))) ||
       negb (var K2 xYieldPending =? 0) →
  ticked K0 b' K2.
Proof.
  intros I Ck U Htab Hcur Eb. pose proof I as [C _ _]. pose proof U as (I2 & [T V _] & _ & Hb).
  assert (∀ v, tracked v = false → v ≠ xNumOfOverflows → var K2 v = var K0 v) as Hvar.
  { intros v Hv1 Hv2. rewrite V by (by destruct v). by apply (ck_var _ _ Ck). }
  assert (∀ t ct, tcbs K0 !! t = Some ct → ∃ i e,
    itm K0 (xStateListItem t) = Some i ∧ itm K0 (xEventListItem t) = Some e) as Hitems.
  { intros t ct Hct. destruct (state_item None t ct K0 C Hct ltac:(done)) as (i & Hi & _).
    destruct (event_item None t ct K0 C Hct) as (e & He & _). eauto. }
  split; try done.
  - unfold kinv. by rewrite V.
  - rewrite V by done. apply (ck_tick _ _ Ck).
  - rewrite !V by done. pose proof (ck_delayed _ _ Ck) as Hd. case_match; apply Hd.
  - by rewrite T, (ck_tcbs _ _ Ck).
  - rewrite V by done. apply (ck_current _ _ Ck).
  - intros t ct Hct Hw. destruct (Hitems t ct Hct) as (i & e & Hi & He).
    pose proof (unblocked_task K0 K1 b K2 t ct i e I Ck U Htab Hct Hi He) as Hu.
    rewrite decide_True in Hu by done. destruct Hu as [Hu1 Hu2].
    unfold home_of. by rewrite Hu1, Hu2.
  - intros t ct n Hct Hw Hn. destruct (Hitems t ct Hct) as (i & e & Hi & He).
    pose proof (unblocked_task K0 K1 b K2 t ct i e I Ck U Htab Hct Hi He) as Hu.
    rewrite decide_False in Hu by congruence. destruct Hu as [Hu1 Hu2]. rewrite Hu2, He. split; [|done].
    rewrite (wait_left_same K1 K2), (clocked_wait K0 K1 t I Ck Htab), Hw; try done; try by apply V.
    by rewrite (ck_itm _ _ Ck), Hi.
  - intros t ct Hct Hw. destruct (Hitems t ct Hct) as (i & e & Hi & He).
    pose proof (unblocked_task K0 K1 b K2 t ct i e I Ck U Htab Hct Hi He) as Hu.
    rewrite decide_False in Hu by congruence. destruct Hu as [-> ->]. done.
  - intros c' Hc'. assert (c' = c) as -> by congruence.
    rewrite <-(higher_woken_waits K0 K1 b K2 c I Ck U Htab Hcur), <-Hb, Eb.
    rewrite !orb_true_iff, negb_true_iff, Z.ltb_lt, Z.eqb_neq, (Hvar xYieldPending) by done. tauto.
Qed.

Lemma kwp_tick K : kinv K → var K uxSchedulerSuspended = 0 → kwp xTaskIncrementTick (ticked K) K.
Proof.
  intros I Hs. apply kwp_ok. intros Htab. pose proof I as [C _ _].
  destruct (co_current _ _ C) as [c Hc]. destruct (co_task _ _ C _ c Hc) as (_ & Hp & _).
  unfold xTaskIncrementTick. apply kwp_bind, kwp_rd. rewrite Hs. simpl.
  apply kwp_bind, kwp_count_tick; [done|]. intros K1 Ck.
  apply kwp_bind, (kwp_maybe_unblock K K1); [done|]. intros b K2 U.
  pose proof U as (I2 & [T V _] & _). apply kwp_bind, kwp_rd, kwp_bind, kwp_fmap.
  assert (tcbs K2 !! var K2 pxCurrentTCB = Some c) as Hc2
    by by rewrite T, V, (ck_tcbs _ _ Ck), (ck_current _ _ Ck).
  eapply kwp_rd_tcb; [exact Hc2|]. apply kwp_bind, kwp_length.
  { by apply (co_lists _ _ (kv_core _ _ _ I2)), ready_in. }
  apply kwp_bind, kwp_rd, kwp_ret. by eapply unblocked_ticked.
Qed.
End tick.

(** * The next task, and sleeping

    Choosing the task to run and making the running task wait:
    [vTaskSwitchContext] runs a ready task of the highest priority, those of one
    priority in turn, and [prvAddCurrentTaskToDelayedList] puts the running task
    to sleep for exactly the ticks it asks for. *)

Section block.
Context `{Layout} {S : Type} `{ListLaws S}.
Implicit Types K : kernel ktable.

(** ** The next task to run *)

Definition is_ready K (t : Z) (c : tcb) : Prop :=
  tcbs K !! t = Some c ∧ home_of K (xStateListItem t) = ready (uxPriority c).

(** The task that follows, in its ready list, the one that ran last. *)
Record switched K K' : Prop := {
  sw_inv : kinv K';
  sw_itm x : itm K' x = itm K x;
  sw_members L : members K' L = members K L;
  sw_tcbs : tcbs K' = tcbs K;
  sw_var v : v ≠ pxCurrentTCB → v ≠ xYieldPending → var K' v = var K v;
  sw_yield : var K' xYieldPending = 0;
  sw_current : ∃ c, is_ready K' (var K' pxCurrentTCB) c ∧
    (∀ t ct, is_ready K t ct → uxPriority ct ≤ uxPriority c) ∧
    head (upcoming (position K (ready (uxPriority c))) (members K (ready (uxPriority c)))) =
      Some (xStateListItem (var K' pxCurrentTCB)) ∧
    position K' (ready (uxPriority c)) = xStateListItem (var K' pxCurrentTCB)
}.

Lemma members_next L K L' : members (act (CNext L) K) L' = members K L'.
Proof.
  unfold members, act. simpl. destruct (decide (L' = L)) as [->|].
  - rewrite lookup_alter_eq. by destruct (kt_lists (kmem K) !! L).
  - by rewrite lookup_alter_ne.
Qed.

Lemma core_next o L K : core o K → core o (act (CNext L) K).
Proof.
  intros [C1 C2 C3 C4 C5 C6 C7 C8]. split; try done.
  - intros L' HL'. by apply has_list_act, C1.
  - intros x i Hi Hh. rewrite has_list_act. by apply C5.
  - intros L' HL'. rewrite members_next. by apply C6.
Qed.

Lemma core_running o t K : core o K → is_Some (tcbs K !! t) → core o (set_var pxCurrentTCB t K).
Proof. intros [C1 C2 C3 C4 C5 C6 C7 C8] Ht. by split. Qed.

Lemma upcoming_nonempty i l : l ≠ [] → NoDup l → upcoming i l ≠ [].
Proof.
  intros Hne Hnd E. destruct (decide (i ∈ l)) as [Hi|Hi].
  - apply list_elem_of_split in Hi as (l1 & l2 & ->). rewrite upcoming_middle in E.
    + by destruct l2, l1.
    + apply NoDup_app in Hnd as (_ & Hd & _). set_solver.
  - by rewrite upcoming_marker in E.
Qed.

Lemma upcoming_member i l x : x ∈ upcoming i l → NoDup l → x ∈ l.
Proof.
  intros Hx Hnd. destruct (decide (i ∈ l)) as [Hi|Hi].
  - apply list_elem_of_split in Hi as (l1 & l2 & ->). rewrite upcoming_middle in Hx; [set_solver|].
    apply NoDup_app in Hnd as (_ & Hd & _). set_solver.
  - by rewrite upcoming_marker in Hx.
Qed.

Lemma is_ready_item K t c :
  core None K → is_ready K t c →
  ∃ i, itm K (xStateListItem t) = Some i ∧ ki_home i = ready (uxPriority c).
Proof.
  intros C [Hc Hh]. destruct (state_item None t c K C Hc ltac:(done)) as (i & Hi & _).
  exists i. split; [done|]. unfold home_of in Hh. by rewrite Hi in Hh.
Qed.

Lemma kwp_switch K :
  kinv K → var K uxSchedulerSuspended = 0 → (∃ t c, is_ready K t c) →
  kwp vTaskSwitchContext (λ _, switched K) K.
Proof.
  intros [C B W] Hs (t0 & c0 & Hr0). apply kwp_ok. intros Htab.
  assert (∀ t c, is_ready K t c → Z.testbit (var K uxTopReadyPriority) (uxPriority c) = true) as Hbit.
  { intros t c Hr. destruct (is_ready_item K t c C Hr) as (i & Hi & Hh).
    apply (bi_ready _ B); [|eauto]. destruct Hr as [Hc _]. by apply (co_task _ _ C t c Hc). }
  assert (0 < var K uxTopReadyPriority < 32) as Htop.
  { pose proof (bi_range _ B). specialize (Hbit t0 c0 Hr0).
    destruct (Z.eq_dec (var K uxTopReadyPriority) 0) as [E|]; [|lia].
    by rewrite E, Z.bits_0 in Hbit. }
  destruct (portGET_HIGHEST_PRIORITY_bits _ Htop) as (Hp & Hpb & Hhigh).
  unfold vTaskSwitchContext. apply kwp_bind, kwp_rd. rewrite Hs. simpl. apply kwp_bind, kwp_wr.
  apply kwp_bind, kwp_fmap, kwp_rd. rewrite set_var_other by done.
  set (p := portGET_HIGHEST_PRIORITY (var K uxTopReadyPriority)) in *.
  set (K1 := set_var xYieldPending 0 K).
  assert (kinv_from (var K xTickCount + 1) None K1) as I1 by by apply kinv_var.
  assert (has_list K (ready p)) as HL by by apply (co_lists _ _ C), ready_in.
  assert (members K (ready p) ≠ []) as Hne
    by by apply (ready_members K p Htab HL), (bi_ready _ B p Hp).
  apply kwp_bind, kwp_length; [done|]. apply kwp_bind, kwp_assert.
  { change (members K1 (ready p)) with (members K (ready p)).
    by destruct (members K (ready p)). }
  pose proof (members_nodup K Htab (ready p)) as Hnd.
  destruct (upcoming (position K (ready p)) (members K (ready p))) as [|x l] eqn:E.
  { exfalso. by apply (upcoming_nonempty _ _ Hne Hnd) in E. }
  assert (x ∈ members K (ready p)) as Hx
    by (eapply upcoming_member; [rewrite E; set_solver|done]).
  destruct (member_item K Htab x _ Hx) as (i & Hi & Hh & _).
  destruct (ready_apart p Hp) as (_ & _ & HapP & _).
  destruct (core_inner None K x i C Hi) as [Ex [c Hc]];
    [rewrite Hh; by apply ready_in|rewrite Hh; by apply (list_not_null K Htab)|congruence|].
  assert (uxPriority c = p) as Ep.
  { destruct (state_item None _ c K C Hc ltac:(done)) as (i' & Hi' & _ & Hs' & _).
    rewrite <-Ex in Hi'. assert (i' = i) as -> by congruence. rewrite Hh in Hs'.
    destruct (ready_apart p Hp) as (? & ? & ? & ? & ?).
    destruct Hs' as [Hs'|[Hs'|[Hs'|[Hs'|Hs']]]]; try congruence. symmetry. by apply ready_inj. }
  apply kwp_bind. eapply (kwp_next_owner _ x l i); [done|exact E|exact Hi|].
  apply kwp_wr. set (K2 := act (CNext (ready p)) K1). destruct I1 as [C1 B1 W1].
  split; try done.
  - split; [by apply core_running; [apply core_next|exists c]|by destruct B1; split|done].
  - intros L. etrans; [apply members_next|done].
  - intros v Hv1 Hv2. rewrite set_var_other by auto. change (var K2 v) with (var K1 v).
    unfold K1. by rewrite set_var_other by auto.
  - exists c. rewrite Ep. simpl. split_and!.
    + split; [done|]. rewrite <-Ex, Ep. unfold home_of. change (itm _ x) with (itm K x). by rewrite Hi.
    + intros t ct Hr. pose proof (Hbit t ct Hr) as Hb. destruct (Z.le_gt_cases (uxPriority ct) p); [done|].
      destruct Hr as [Hct _]. destruct (co_task _ _ C t ct Hct) as (_ & ? & _).
      rewrite (Hhigh (uxPriority ct)) in Hb by lia. done.
    + by rewrite E, <-Ex.
    + unfold position, K2. simpl. rewrite lookup_alter_eq. destruct HL as [k HL].
      unfold position, members in E. rewrite HL in E |- *. simpl in *. rewrite E. simpl. by rewrite <-Ex.
Qed.

(** ** Going to sleep *)

(** The running task now waits for [n] ticks, or for ever. *)
Record blocked (n : Z) (forever : bool) K K' : Prop := {
  bl_inv : kinv K';
  bl_tcbs : tcbs K' = tcbs K;
  bl_var v : v ≠ uxTopReadyPriority → v ≠ xNextTaskUnblockTime → var K' v = var K v;
  bl_lists L : has_list K' L ↔ has_list K L;
  bl_itm x : x ≠ xStateListItem (var K pxCurrentTCB) → itm K' x = itm K x;
  bl_members L : L ∉ klists → L ≠ NULL → members K' L = members K L;
  bl_wait :
    if (n =? portMAX_DELAY) && forever then
      home_of K' (xStateListItem (var K pxCurrentTCB)) = xSuspendedTaskList
    else wait_left K' (var K pxCurrentTCB) = Some n
}.

(** [f] may read the TCB only when it is needed. *)
Lemma kwp_when_tcb {A} t c (b : bool) (g : tcb → A) f (Q : unit → kernel ktable → Prop) K :
  tcbs K !! t = Some c → kwp (when_ b (f (g c))) Q K →
  kwp (when_ b (x ← g <$> rd_tcb t; f x)) Q K.
Proof.
  intros Hc. destruct b; [|done]. simpl. intros Hk. apply kwp_bind, kwp_fmap.
  by eapply kwp_rd_tcb.
Qed.

Lemma core_state_moved t j i K K' :
  core (Some t) K → is_Some (tcbs K !! t) → moved (xStateListItem t) j K K' →
  itm K (xStateListItem t) = Some i → ki_owner j = ki_owner i →
  (ki_home j = NULL ∨ ki_home j ∈ klists ∧ ki_home j ≠ xPendingReadyList) →
  stays_in_order K K' → core (Some t) K'.
Proof.
  intros C [c Hc] Mv Hi Ho Hj Hord.
  destruct (co_task _ _ C t c Hc) as (_ & _ & _ & (i' & Hi' & Hio & _) & _).
  assert (i' = i) as -> by congruence.
  eapply core_moved; [exact C|exact Mv|exact Hi|done|..|exact Hord]; rewrite ?Hio.
  - intros Hn. destruct Hj as [?|[Hk _]]; [done|]. split; [by apply (co_lists _ _ C)|by exists c].
  - destruct Hj as [?|[? ?]]; [by left|]. right. by left.
  - unfold xStateListItem. intros u ? _. f_equal. lia.
Qed.

Lemma kinv_set_next lo o K v :
  kinv_from lo o K → v ≤ var K xNextTaskUnblockTime →
  kinv_from lo o (set_var xNextTaskUnblockTime v K).
Proof.
  intros [C [B1 B2] W] Hv. split; [by apply core_var|by split|]. intros x i Hi. simpl.
  destruct (W x i Hi) as [HD HO]. split; [|done]. intros Hh. specialize (HD Hh). lia.
Qed.

Lemma delayed_in o K :
  core o K →
  (var K pxDelayedTaskList ∈ klists ∧ var K pxDelayedTaskList ≠ xPendingReadyList) ∧
  (var K pxOverflowDelayedTaskList ∈ klists ∧ var K pxOverflowDelayedTaskList ≠ xPendingReadyList) ∧
  var K pxDelayedTaskList ≠ var K pxOverflowDelayedTaskList.
Proof.
  intros C. destruct layout_apart as (? & ? & ? & _). unfold klists. rewrite !elem_of_cons.
  destruct (co_delayed _ _ C) as [[-> ->]|[-> ->]]; split_and!; try done; tauto.
Qed.

(** A state item leaves the lists that are not the scheduler's alone. *)
Lemma moved_elsewhere x j i K K' :
  moved x j K K' → itm K x = Some i → ki_home i = NULL ∨ ki_home i ∈ klists →
  ki_home j = NULL ∨ ki_home j ∈ klists →
  ∀ L, L ∉ klists → L ≠ NULL → members K' L = members K L.
Proof.
  intros Mv Hi Hhi Hhj L HL Hn. apply (mv_members _ _ _ _ Mv); [done|done|naive_solver|].
  intros i' Hi'. naive_solver.
Qed.

(** Into the list of the sleepers due at [v]. *)
Lemma kwp_sleep_until t c i v (Q : unit → kernel ktable → Prop) K :
  kinv_from (var K xTickCount + 1) (Some t) K → tcbs K !! t = Some c →
  itm K (xStateListItem t) = Some i → ki_home i = NULL → 0 ≤ v < 4294967296 →
  v ≠ var K xTickCount →
  (∀ K', table_ok (kmem K') → kinv K' → tcbs K' = tcbs K →
     (∀ w, w ≠ uxTopReadyPriority → w ≠ xNextTaskUnblockTime → var K' w = var K w) →
     (∀ L, has_list K' L ↔ has_list K L) →
     (∀ x, x ≠ xStateListItem t → itm K' x = itm K x) →
     (∀ L, L ∉ klists → L ≠ NULL → members K' L = members K L) →
     itm K' (xStateListItem t) = Some (KI v (ki_owner i)
       (if v <? var K xTickCount then var K pxOverflowDelayedTaskList else var K pxDelayedTaskList)) →
     Q tt K') →
  kwp (lst (item_set_value (xStateListItem t) v);;
       if v <? var K xTickCount then
         lst (list_insert (var K pxOverflowDelayedTaskList) (xStateListItem t))
       else
         lst (list_insert (var K pxDelayedTaskList) (xStateListItem t));;
         next ← rd xNextTaskUnblockTime;
         when_ (v <? next) (wr xNextTaskUnblockTime v)) Q K.
Proof.
  intros [C B W] Hc Hi Hh Hv Hvt HQ. apply kwp_ok. intros Htab.
  destruct (delayed_in _ K C) as ([HD1 HD2] & [HO1 HO2] & Hne).
  pose proof (null_not_delayed K _ Htab C) as [HnD HnO].
  apply kwp_bind, kwp_post, kwp_set_value; [by exists i|unfold tick_value, portMAX_DELAY; lia|].
  intros Htab1. pose proof (set_value_moved _ v i K Hi) as Mv1.
  set (K1 := act (CSetValue (xStateListItem t) v) K) in *.
  assert (core (Some t) K1) as C1.
  { eapply core_state_moved; [exact C|by exists c|exact Mv1|exact Hi|done|by left|].
    eapply set_value_order; [done|exact Hi|..]; rewrite Hh; intros E;
      by apply (list_not_null K Htab NULL); [rewrite E; apply (co_lists _ _ C); unfold klists; rewrite !elem_of_cons; tauto|]. }
  pose proof (moved_some _ _ _ _ Mv1) as Hi1.
  assert (∀ L, L ∈ klists → L ≠ xPendingReadyList → (∀ p, 0 ≤ p < 5 → L ≠ ready p) →
    (L = var K pxDelayedTaskList ∨ L = var K pxOverflowDelayedTaskList) →
    let K2 := act (CInsert L (xStateListItem t)) K1 in
    legal (CInsert L (xStateListItem t)) (kmem K1) ∧ stands c L ∧
    moved (xStateListItem t) (KI v (ki_owner i) L) K K2 ∧ core None K2 ∧ bits K2) as Hins.
  { intros L HL HLp HLr HLd K2. assert (has_list K1 L) as HL1 by by apply (co_lists _ _ C1).
    pose proof (insert_moved L _ _ K1 Hi1) as Mv2. fold K2 in Mv2.
    assert (stands c L) as Hst.
    { right. destruct (co_delayed _ _ C) as [[E1 E2]|[E1 E2]]; rewrite E1, E2 in HLd; tauto. }
    assert (moved (xStateListItem t) (KI v (ki_owner i) L) K K2) as Mv
      by by eapply (moved_trans _ (set_kvalue v i)); [left|..].
    split; [by eapply legal_insert|]. split; [done|]. split; [done|]. split.
    - eapply (core_settled t c); [|done|by eapply moved_some|done].
      eapply core_state_moved; [exact C1|by exists c|exact Mv2|exact Hi1|done|by right|].
      by eapply insert_order.
    - eapply bits_moved; [exact B|exact Mv|exact Hi|done|]. intros p Hp. rewrite Hh. split.
      + by eapply null_not_ready.
      + simpl. by apply HLr. }
  assert (∀ p, 0 ≤ p < 5 → var K pxDelayedTaskList ≠ ready p ∧
    var K pxOverflowDelayedTaskList ≠ ready p) as Hnr
    by (intros p Hp; destruct (ready_not_delayed K _ p C Hp); auto).
  apply kwp_if; intros Hlt.
  - destruct (Hins (var K pxOverflowDelayedTaskList)) as (Hl & _ & Mv & C2 & B2);
      [done..|intros p Hp; by apply Hnr|by right|].
    apply kwp_post, kwp_insert; [done|]. intros Htab2. rewrite Hlt in HQ. apply Z.ltb_lt in Hlt.
    apply HQ; [done| |done|done|apply (mv_lists _ _ _ _ Mv)|by intros; eapply moved_other|
      eapply moved_elsewhere; [exact Mv|exact Hi|by left|by right]|by eapply moved_some].
    split; [done|done|]. eapply wakes_moved; [exact W|exact Mv|done|done].
  - destruct (Hins (var K pxDelayedTaskList)) as (Hl & _ & Mv & C2 & B2);
      [done..|intros p Hp; by apply Hnr|by left|].
    rewrite Hlt in HQ. apply Z.ltb_ge in Hlt.
    apply kwp_bind, kwp_post, kwp_insert; [done|]. intros Htab2. apply kwp_bind, kwp_rd.
    set (K2 := act (CInsert (var K pxDelayedTaskList) (xStateListItem t)) K1) in *.
    assert (∀ n, n ≤ var K xNextTaskUnblockTime → n ≤ v → wakes (var K xTickCount + 1) (set_var xNextTaskUnblockTime n K2)) as Hw.
    { intros n Hn Hnv x j Hj. simpl.
      destruct (moved_inv _ _ _ _ _ _ Mv Hj) as [[-> ->]|[Hnx Hj']]; simpl; [split; [lia|done]|].
      destruct (W x j Hj') as [HD HO]. split; [|done]. intros Hjh. specialize (HD Hjh). lia. }
    apply kwp_when; intros Hn.
    + apply kwp_wr. apply Z.ltb_lt in Hn. change (var K2 xNextTaskUnblockTime) with (var K xNextTaskUnblockTime) in Hn.
      apply HQ; [done| |done| |apply (mv_lists _ _ _ _ Mv)|intros x Hx; exact (moved_other _ _ _ _ x Mv Hx)|
        exact (moved_elsewhere _ _ i _ _ Mv Hi (or_introl Hh) (or_intror HD1))|exact (moved_some _ _ _ _ Mv)].
      * split; [by apply core_var|by destruct B2; split|]. apply Hw; lia.
      * intros w ??. rewrite set_var_other by auto. done.
    + apply Z.ltb_ge in Hn. change (var K2 xNextTaskUnblockTime) with (var K xNextTaskUnblockTime) in Hn.
      apply HQ; [done| |done|done|apply (mv_lists _ _ _ _ Mv)|by intros; eapply moved_other|
      eapply moved_elsewhere; [exact Mv|exact Hi|by left|by right]|by eapply moved_some].
      split; [done|done|]. by apply (Hw (var K xNextTaskUnblockTime)).
Qed.

(** Into the list of the tasks that wait for ever, or that of the tasks deleted. *)
Lemma kwp_store_item lo t c i L (Q : unit → kernel ktable → Prop) K :
  kinv_from lo (Some t) K → tcbs K !! t = Some c → itm K (xStateListItem t) = Some i →
  ki_home i = NULL → L = xTasksWaitingTermination ∨ L = xSuspendedTaskList →
  (∀ K', table_ok (kmem K') → moved (xStateListItem t) (set_home L i) K K' →
     var K' uxTopReadyPriority = var K uxTopReadyPriority → kinv_from lo None K' → Q tt K') →
  kwp (lst (list_insert_end L (xStateListItem t))) Q K.
Proof.
  intros [C B W] Hc Hi Hh HLs HQ. apply kwp_ok. intros Htab.
  assert (xDelayedTaskList1 ≠ L ∧ xDelayedTaskList2 ≠ L ∧ xPendingReadyList ≠ L ∧ L ∈ klists ∧
    ∀ p, 0 ≤ p < 5 → ready p ≠ L) as (HD1 & HD2 & HP & Hk & Hr).
  { destruct layout_apart as (_ & _ & _ & ? & ? & ? & ? & ? & ? & _). unfold klists.
    rewrite !elem_of_cons.
    destruct HLs as [->| ->]; (split_and!; [done..|tauto|intros p Hp; apply (ready_apart p Hp)]). }
  assert (has_list K L) as HL by by apply (co_lists _ _ C).
  apply kwp_post, kwp_insert_end; [by eapply legal_insert|]. intros Htab'.
  pose proof (insert_end_moved L _ i K Hi) as Mv.
  apply HQ; [done|done|done|]. split.
  - eapply (core_settled t c); [|done|by eapply moved_some|unfold stands; simpl; tauto].
    eapply core_state_moved; [exact C|by exists c|exact Mv|exact Hi|done|right; simpl; auto|].
    eapply insert_end_order; [exact Hi|exact HL|congruence|congruence].
  - eapply bits_moved; [exact B|exact Mv|exact Hi|done|]. intros p Hp. rewrite Hh. split.
    + by apply (null_not_ready K (Some t)).
    + simpl. intros E. by apply (Hr p Hp).
  - eapply wakes_elsewhere; [exact W|exact Mv|..]; simpl; intros E;
      destruct (co_delayed _ _ C) as [[E1 E2]|[E1 E2]]; congruence.
Qed.

Lemma wake_time tick n :
  0 ≤ tick < 4294967296 → 0 < n < 4294967296 →
  let v := u32 (tick + n) in
  0 ≤ v < 4294967296 ∧ v ≠ tick ∧
  (if v <? tick then v + 4294967296 - tick else v - tick) = n.
Proof.
  intros Ht Hn v. pose proof (u32_range (tick + n)) as Hr. fold v in Hr.
  assert (v = if tick + n <? 4294967296 then tick + n else tick + n - 4294967296) as Ev.
  { unfold v, u32. destruct (Z.ltb_spec (tick + n) 4294967296) as [Hlt|Hlt].
    - apply Z.mod_small. lia.
    - symmetry. apply (Z.mod_unique _ _ 1); lia. }
  destruct (Z.ltb_spec (tick + n) 4294967296), (Z.ltb_spec v tick); lia.
Qed.

Lemma kwp_block n forever c K :
  kinv K → is_ready K (var K pxCurrentTCB) c → 0 < n ≤ portMAX_DELAY →
  kwp (prvAddCurrentTaskToDelayedList n forever) (λ _, blocked n forever K) K.
Proof.
  intros [C B W] Hr Hn. unfold portMAX_DELAY in Hn. pose proof Hr as [Hc _].
  destruct (is_ready_item K _ c C Hr) as (i & Hi & Hh).
  destruct (co_task _ _ C _ c Hc) as (_ & Hp & _). pose proof (co_tick _ _ C) as Htick.
  set (t := var K pxCurrentTCB) in *. pose proof (core_exempt t K C) as Ct.
  apply kwp_ok. intros Htab. unfold prvAddCurrentTaskToDelayedList.
  do 4 apply kwp_bind, kwp_rd. fold t. apply kwp_bind.
  eapply kwp_remove_state; [exact Ct|exact Hi| |].
  { rewrite Hh. intros E. by apply (null_not_ready K _ (uxPriority c) Htab C). }
  intros K1 m Htab1 Mv1 C1 Hw1 Ev1 ->. apply kwp_bind.
  eapply kwp_when_tcb; [by rewrite (mv_tcbs _ _ _ _ Mv1)|].
  apply (kwp_reset_empty t i (uxPriority c) _ _ K K1); try done.
  { intros q Hq E. apply ready_inj. congruence. }
  { left. rewrite Hh. apply length_zero. }
  intros K2 Htab2 Mv2 C2 B2 Hw2.
  assert (kinv_from (var K2 xTickCount + 1) (Some t) K2) as I2.
  { split; [done|done|]. rewrite (mv_var _ _ _ _ Mv2) by done. auto. }
  assert (tcbs K2 !! t = Some c) as Hc2 by by rewrite (mv_tcbs _ _ _ _ Mv2).
  pose proof (moved_some _ _ _ _ Mv2) as Hi2.
  apply kwp_if; intros Hfe.
  - eapply kwp_store_item; [exact I2|exact Hc2|exact Hi2|done|by right|].
    intros K3 Htab3 Mv3 Ev3 I3. pose proof (moved_trans _ (set_home NULL i) _ _ _ _ (or_introl eq_refl) Mv2 Mv3) as Mv. split.
    + unfold kinv. by rewrite (mv_var _ _ _ _ Mv3).
    + apply (mv_tcbs _ _ _ _ Mv).
    + intros v ??. by apply (mv_var _ _ _ _ Mv).
    + apply (mv_lists _ _ _ _ Mv).
    + intros x Hx. by eapply moved_other.
    + eapply moved_elsewhere; [exact Mv|exact Hi|right; rewrite Hh; by apply ready_in|right; simpl].
      unfold klists. rewrite !elem_of_cons. tauto.
    + rewrite Hfe. unfold home_of. fold t. by rewrite (moved_some _ _ _ _ Mv).
  - destruct (wake_time _ n Htick) as (Hv & Hvt & Hvn); [lia|].
    rewrite <-!(mv_var _ _ _ _ Mv2 pxDelayedTaskList), <-!(mv_var _ _ _ _ Mv2 pxOverflowDelayedTaskList),
      <-!(mv_var _ _ _ _ Mv2 xTickCount) in * by done.
    eapply kwp_sleep_until; [exact I2|exact Hc2|exact Hi2|done|done|done|].
    intros K3 Htab3 I3 T3 V3 L3 X3 M3 Hi3. split; try done.
    + by rewrite T3, (mv_tcbs _ _ _ _ Mv2).
    + intros v ??. rewrite V3 by done. by apply (mv_var _ _ _ _ Mv2).
    + intros L. rewrite L3. apply (mv_lists _ _ _ _ Mv2).
    + intros x Hx. rewrite X3 by done. by eapply moved_other.
    + intros L HL Hn'. rewrite M3 by done.
      eapply (moved_elsewhere _ _ _ _ _ Mv2 Hi); [right; rewrite Hh; by apply ready_in|by left|done|done].
    + rewrite Hfe. unfold wait_left. fold t. rewrite Hi3. simpl. rewrite !V3 by done.
      destruct (delayed_in _ K2 C2) as (_ & _ & Hne). revert Hvn.
      case_match; intros Hvn; [rewrite (proj2 (Z.eqb_neq _ _)) by auto|]; rewrite Z.eqb_refl; f_equal; lia.
Qed.
End block.
