(* ===== verification/KernelResume.v ===== *)
(** Resuming the scheduler, [xTaskResumeAll]: the tasks held pending become
    ready, the ticks that were missed are made up for, and a yield is asked for
    whenever one of the tasks woken is more important than the running one. *)
From stdpp Require Import base tactics numbers list gmap sorting.
From S2P Require Import Prelude Words Sched KList KListThm KListRefine Kernel KernelApi KernelInv KernelMoves KernelTick.

Section resume.
Context `{Layout} {S : Type} `{ListLaws S}.
Implicit Types K : kernel ktable.

(** ** The pending tasks *)

Definition pending_free (v : kvar) : bool :=
  match v with uxTopReadyPriority | xYieldPending | xNextTaskUnblockTime => true | _ => false end.

(** The event item is in the pending list. *)
Definition is_pending (e : kitem) : Prop := ki_home e = xPendingReadyList.

(** Nobody is pending any more, and a yield is pending if one of the tasks made
    ready is more important than the running task. *)
Definition unpended (lo : Z) K0 K : Prop :=
  kinv_from lo None K ∧ woken (λ _ e, is_pending e) pending_free K0 K ∧
  (∀ x i, itm K x = Some i → ki_home i ≠ xPendingReadyList) ∧
  (var K xYieldPending ≠ 0 ↔ var K0 xYieldPending ≠ 0 ∨ higher_woken K0 K).

Lemma pending_in o K : core o K → xPendingReadyList ∈ klists ∧ has_list K xPendingReadyList.
Proof.
  intros C. assert (xPendingReadyList ∈ klists) as Hk by (unfold klists; rewrite !elem_of_cons; tauto).
  split; [done|]. by apply (co_lists _ _ C).
Qed.

(** The members of the pending list are event items of tasks. *)
Lemma pending_member o K x i :
  table_ok (kmem K) → core o K → itm K x = Some i → ki_home i = xPendingReadyList →
  x = xEventListItem (ki_owner i) ∧ is_Some (tcbs K !! ki_owner i).
Proof.
  intros Htab C Hi Hh. destruct (pending_in o K C) as [_ HL].
  destruct (co_item _ _ C x i Hi) as (_ & Ht & [(_ & _ & Hp)|(E & _)]); try done.
  rewrite Hh. by apply (list_not_null K Htab).
Qed.

Lemma kwp_event_to_ready lo t c i e (Q : unit → kernel ktable → Prop) K :
  kinv_from lo None K → tcbs K !! t = Some c → itm K (xStateListItem t) = Some i →
  itm K (xEventListItem t) = Some e → ki_home e ≠ NULL →
  (∀ K', table_ok (kmem K') → kinv_from lo None K' → tcbs K' = tcbs K →
     (∀ v, v ≠ uxTopReadyPriority → var K' v = var K v) →
     (∀ y, itm K' y =
        if decide (y = xStateListItem t) then Some (set_home (ready (uxPriority c)) i)
        else if decide (y = xEventListItem t) then Some (set_home NULL e) else itm K y) →
     (∀ L, has_list K' L ↔ has_list K L) → Q tt K') →
  kwp (listREMOVE_ITEM (xEventListItem t);;
       wake_task t) Q K.
Proof.
  intros I Hc Hi He Hh HQ. apply kwp_bind.
  eapply kwp_remove_event; [exact I|exact Hc|exact He|done|]. intros K1 Htab1 Mv1 I1.
  eapply (kwp_to_ready lo t c i); [done|by rewrite (mv_tcbs _ _ _ _ Mv1)|..].
  { erewrite moved_other; [exact Hi|exact Mv1|apply items_differ]. }
  intros K2 Htab2 Mv2 I2. apply HQ; try done.
  - by rewrite (mv_tcbs _ _ _ _ Mv2), (mv_tcbs _ _ _ _ Mv1).
  - intros v Hv. by rewrite (mv_var _ _ _ _ Mv2), (mv_var _ _ _ _ Mv1).
  - intros y. rewrite (mv_itm _ _ _ _ Mv2), (mv_itm _ _ _ _ Mv1). done.
  - intros L. rewrite (mv_lists _ _ _ _ Mv2). apply (mv_lists _ _ _ _ Mv1).
Qed.

Lemma kwp_yield_if_higher lo t c cc (Q : bool → kernel ktable → Prop) K :
  kinv_from lo None K → tcbs K !! t = Some c → tcbs K !! var K pxCurrentTCB = Some cc →
  (∀ K' b, kinv_from lo None K' → b = (uxPriority cc <? uxPriority c) →
     K' = (if b then set_var xYieldPending 1 K else K) → Q b K') →
  kwp (yield_if_higher t) Q K.
Proof.
  intros I Hc Hcc HQ. apply kwp_bind, kwp_fmap. eapply kwp_rd_tcb; [exact Hc|].
  apply kwp_bind, kwp_rd, kwp_bind, kwp_fmap. eapply kwp_rd_tcb; [exact Hcc|].
  apply kwp_if; intros Hb; [apply kwp_bind, kwp_wr|]; apply kwp_ret, HQ; rewrite ?Hb; try done.
  by apply kinv_var.
Qed.

Lemma kwp_pending lo K0 fuel moved K :
  core None K0 → (length (members K xPendingReadyList) < fuel)%nat →
  kinv_from lo None K → woken (λ _ e, is_pending e) pending_free K0 K →
  (var K xYieldPending ≠ 0 ↔ var K0 xYieldPending ≠ 0 ∨ higher_woken K0 K) →
  kwp (move_pending fuel moved) (λ _, unpended lo K0) K.
Proof.
  intros C0. revert moved K. induction fuel as [|fuel IH]; intros moved K Hf I Wk Hy; [lia|].
  apply kwp_ok. intros Htab. pose proof (kv_core _ _ _ I) as C.
  destruct (pending_in _ K C) as [Hk HL]. cbn [move_pending].
  apply kwp_bind, kwp_length; [done|]. apply kwp_if; intros Hn.
  { apply kwp_ret. apply length_zero in Hn. split; [done|]. split; [done|]. split; [|done].
    by apply (empty_homes K Htab _ HL). }
  destruct (members K xPendingReadyList) as [|x l] eqn:E; [done|].
  assert (x ∈ members K xPendingReadyList) as Hx by (rewrite E; set_solver).
  destruct (member_item K Htab x _ Hx) as (e & He & Hh & _).
  destruct (pending_member _ K x e Htab C He Hh) as [Ex [c Hc]].
  set (t := ki_owner e) in *. assert (ki_owner e = t) as Ho by done. clearbody t. subst x.
  apply kwp_bind. eapply kwp_head_owner; [exact E|exact He|]. rewrite Ho.
  destruct (state_item None t c K C Hc ltac:(done)) as (i & Hi & _).
  apply kwp_assoc, kwp_bind. eapply kwp_event_to_ready; [exact I|exact Hc|exact Hi|exact He| |].
  { rewrite Hh. by apply (list_not_null K Htab). }
  intros K1 Htab1 I1 T1 V1 X1 L1.
  destruct (co_current _ _ (kv_core _ _ _ I1)) as [cc Hcc]. apply kwp_bind.
  eapply kwp_yield_if_higher; [exact I1|by rewrite T1|exact Hcc|]. intros K2 b I2 Eb EK2.
  assert (tcbs K2 = tcbs K ∧ (∀ v, pending_free v = false → var K2 v = var K v) ∧
    (∀ y, itm K2 y = itm K1 y) ∧ (var K2 xYieldPending ≠ 0 ↔ b = true ∨ var K xYieldPending ≠ 0) ∧
    ∀ L, members K2 L = members K1 L) as (T2 & V2 & X2 & Y2 & M2).
  { subst K2. destruct b; (split_and!; [done| |done| |done]).
    - intros v Hv. rewrite set_var_other by (by intros <-). apply V1. by intros ->.
    - rewrite set_var_same. split; [by left|done].
    - intros v Hv. apply V1. by intros ->.
    - rewrite V1 by done. split; [by right|by intros [?|?]]. }
  destruct (woken_step (λ _ e, is_pending e) pending_free K0 K K2 t c i e) as [Wk2 Hb2]; try done.
  { intros j f p Hp E'. unfold is_pending in E'. simpl in E'. by apply (list_not_null K Htab _ HL). }
  { by rewrite <-(wk_tcbs _ _ _ _ Wk). }
  { intros y. by rewrite X2, X1. }
  apply IH; [|done|done|].
  - enough (length (members K2 xPendingReadyList) < length (members K xPendingReadyList))%nat
      by (rewrite E in *; simpl in *; lia).
    rewrite M2. apply (shrinks K K1 _ (xEventListItem t)); [done|done|done|]. intros y Hin.
    destruct (member_item K1 Htab1 y _ Hin) as (j & Hj & Hjh & _). rewrite X1 in Hj.
    destruct (decide (y = xStateListItem t)) as [->|Hyt].
    { injection Hj as <-. simpl in Hjh. exfalso. destruct (co_task _ _ C t c Hc) as (_ & Hp & _).
      by destruct (ready_apart _ Hp) as (_ & _ & ? & _). }
    destruct (decide (y = xEventListItem t)) as [->|Hye].
    { injection Hj as <-. simpl in Hjh. exfalso. by apply (list_not_null K Htab _ HL). }
    split; [|done]. by apply (in_members K Htab y j).
  - rewrite Y2, Hb2, Hy. rewrite T1, (wk_tcbs _ _ _ _ Wk), V1, (wk_var _ _ _ _ Wk) in Hcc by done.
    subst b. rewrite Z.ltb_lt. split; [|intros [?|[?|(cc' & ? & ?)]]; simplify_eq; tauto].
    intros [?|[?|?]]; eauto.
Qed.

(** ** Ticks that were missed *)

Lemma kinv_yield v K : kinv K → kinv (set_var xYieldPending v K).
Proof. apply kinv_var. done. Qed.

(** What ticks leave alone. *)
Definition ticks_free (v : kvar) : bool :=
  tracked v || match v with xNumOfOverflows | xYieldPending => true | _ => false end.

(** A task that waits for [w] ticks after [n] ticks. *)
Definition after_ticks (n w : Z) (t : Z) (c : tcb) K K' : Prop :=
  if n <? w then
    wait_left K' t = Some (w - n) ∧ itm K' (xEventListItem t) = itm K (xEventListItem t)
  else home_of K' (xStateListItem t) = ready (uxPriority c) ∧ home_of K' (xEventListItem t) = NULL.

Record passed (n : Z) K K' : Prop := {
  ps_inv : kinv K';
  ps_tcbs : tcbs K' = tcbs K;
  ps_var v : ticks_free v = false → var K' v = var K v;
  ps_current : var K' pxCurrentTCB = var K pxCurrentTCB;
  ps_tick : var K' xTickCount = u32 (var K xTickCount + n);
  ps_wait t c w : tcbs K !! t = Some c → wait_left K t = Some w → after_ticks n w t c K K';
  ps_others t c : tcbs K !! t = Some c → wait_left K t = None → items_of K' t = items_of K t;
  ps_yield : var K xYieldPending ≠ 0 → var K' xYieldPending ≠ 0;
  ps_preempt t c cc w : tcbs K !! t = Some c → tcbs K !! var K pxCurrentTCB = Some cc →
    wait_left K t = Some w → w ≤ n → uxPriority cc < uxPriority c → var K' xYieldPending ≠ 0
}.

Lemma wait_positive K t w : kinv K → table_ok (kmem K) → wait_left K t = Some w → 0 < w.
Proof.
  intros [C _ W] Htab. unfold wait_left. destruct (itm K (xStateListItem t)) as [i|] eqn:Hi; [simpl|done].
  destruct (W _ i Hi) as [HD _]. pose proof (to_value _ Htab _ i Hi) as [? _].
  pose proof (co_tick _ _ C).
  destruct (Z.eqb_spec (ki_home i) (var K pxDelayedTaskList)) as [Hd|Hd]; [specialize (HD Hd)|case_match];
    intros [= <-]; lia.
Qed.

Lemma ready_no_wait K t c :
  kinv K → tcbs K !! t = Some c → home_of K (xStateListItem t) = ready (uxPriority c) →
  wait_left K t = None.
Proof.
  intros [C _ _] Hc Hh. destruct (is_ready_item K t c C) as (i & Hi & Hhi); [by split|].
  destruct (co_task _ _ C t c Hc) as (_ & Hp & _).
  destruct (ready_not_delayed K _ _ C Hp) as [? ?].
  unfold wait_left. rewrite Hi. simpl. rewrite Hhi.
  by rewrite !(proj2 (Z.eqb_neq _ _)).
Qed.

(** Who waits for ever, or not at all. *)
Lemma wait_none o K t i :
  core o K → itm K (xStateListItem t) = Some i →
  wait_left K t = None ↔ ki_home i ≠ xDelayedTaskList1 ∧ ki_home i ≠ xDelayedTaskList2.
Proof.
  intros C Hi. unfold wait_left. rewrite Hi. simpl.
  destruct (co_delayed _ _ C) as [[-> ->]|[-> ->]]; repeat case_match; naive_solver lia.
Qed.

Lemma u32_add a b : u32 (u32 a + b) = u32 (a + b).
Proof. unfold u32. by rewrite Zplus_mod_idemp_l. Qed.

Lemma passed_more n K b K1 K2 :
  kinv K → (∀ t w, wait_left K t = Some w → 0 < w) → ticked K b K1 → 0 ≤ n →
  passed n (if b then set_var xYieldPending 1 K1 else K1) K2 → passed (n + 1) K K2.
Proof.
  intros I Hpos T Hn P. set (K1' := if b then _ else K1) in P.
  assert (∀ x, itm K1' x = itm K1 x) as HX by (intros x; unfold K1'; by destruct b).
  assert (∀ t, wait_left K1' t = wait_left K1 t) as HW by (intros t; unfold K1'; by destruct b).
  assert (tcbs K1' = tcbs K) as HT by (rewrite <-(tk_tcbs _ _ _ T); unfold K1'; by destruct b).
  assert (∀ v, v ≠ xYieldPending → var K1' v = var K1 v) as HV
    by (intros v Hv; unfold K1'; destruct b; [apply set_var_other; auto|done]).
  assert (var K1' pxCurrentTCB = var K pxCurrentTCB) as Hcur
    by (rewrite HV by done; apply (tk_current _ _ _ T)).
  assert (∀ c, tcbs K !! var K pxCurrentTCB = Some c →
    b = true ∨ var K xYieldPending ≠ 0 → var K1' xYieldPending ≠ 0) as HY.
  { intros c Hc Hor. assert (b = true) as Eb.
    { destruct Hor as [?|?]; [done|]. apply (tk_switch _ _ _ T c Hc). auto. }
    unfold K1'. rewrite Eb. simpl. lia. }
  destruct (co_current _ _ (kv_core _ _ _ I)) as [cur Hc].
  assert (∀ t c w, tcbs K !! t = Some c → wait_left K t = Some w → w ≠ 1 →
    wait_left K1' t = Some (w - 1) ∧ itm K1' (xEventListItem t) = itm K (xEventListItem t)) as Hmore.
  { intros t c w Ht Hw Hne. rewrite HW, HX. by apply (tk_asleep _ _ _ T t c). }
  assert (∀ t c, tcbs K !! t = Some c → wait_left K t = Some 1 →
    home_of K1' (xStateListItem t) = ready (uxPriority c) ∧ home_of K1' (xEventListItem t) = NULL ∧
    wait_left K1' t = None) as Hdone.
  { intros t c Ht Hw. destruct (tk_woken _ _ _ T t c Ht Hw) as [E1 E2].
    unfold home_of. rewrite !HX. split; [done|]. split; [done|]. rewrite HW.
    apply (ready_no_wait K1 t c); [apply (tk_inv _ _ _ T)|by rewrite (tk_tcbs _ _ _ T)|done]. }
  split.
  - apply (ps_inv _ _ _ P).
  - by rewrite (ps_tcbs _ _ _ P), HT.
  - intros v Hv. rewrite (ps_var _ _ _ P) by done.
    rewrite HV by (by intros ->). apply (tk_var _ _ _ T); [by destruct v|by intros ->].
  - by rewrite (ps_current _ _ _ P), Hcur.
  - rewrite (ps_tick _ _ _ P), HV, (tk_tick _ _ _ T), u32_add by done. f_equal. lia.
  - intros t c w Ht Hw. pose proof (Hpos t w Hw). unfold after_ticks.
    destruct (decide (w = 1)) as [->|Hne].
    + rewrite (proj2 (Z.ltb_ge _ _)) by lia. destruct (Hdone t c Ht Hw) as (E1 & E2 & E3).
      pose proof (ps_others _ _ _ P t c ltac:(by rewrite HT) E3) as [= F1 F2].
      unfold home_of in *. by rewrite F1, F2.
    + destruct (Hmore t c w Ht Hw Hne) as [E1 E2].
      pose proof (ps_wait _ _ _ P t c (w - 1) ltac:(by rewrite HT) E1) as F. unfold after_ticks in F.
      replace (n + 1 <? w) with (n <? w - 1) by (destruct (Z.ltb_spec n (w - 1)), (Z.ltb_spec (n + 1) w); lia).
      case_match; [|done]. destruct F as [F1 F2]. split; [rewrite F1; f_equal; lia|congruence].
  - intros t c Ht Hw. destruct (tk_others _ _ _ T t c Ht Hw) as [E1 E2].
    assert (wait_left K1' t = None) as E3.
    { rewrite HW. destruct (state_item None t c K (kv_core _ _ _ I) Ht ltac:(done)) as (i & Hi & _).
      rewrite Hi in E1. apply (wait_none _ K1 t i (kv_core _ _ _ (tk_inv _ _ _ T)) E1).
      by apply (wait_none _ K t i (kv_core _ _ _ I) Hi). }
    rewrite (ps_others _ _ _ P t c) by (by rewrite ?HT). unfold items_of. by rewrite !HX, E1, E2.
  - intros Hy. apply (ps_yield _ _ _ P), (HY cur Hc). by right.
  - intros t c cc w Ht Hcc Hw Hle Hlt. destruct (decide (w = 1)) as [->|Hne].
    + apply (ps_yield _ _ _ P), (HY cur Hc). left. apply (tk_switch _ _ _ T cc Hcc). left. eauto.
    + destruct (Hmore t c w Ht Hw Hne) as [E1 _].
      apply (ps_preempt _ _ _ P t c cc (w - 1)); rewrite ?HT, ?Hcur; [done..|lia|done].
Qed.

Lemma passed_none K : kinv K → (∀ t w, wait_left K t = Some w → 0 < w) → passed 0 K K.
Proof.
  intros I Hpos. split; try done.
  - pose proof (co_tick _ _ (kv_core _ _ _ I)). rewrite Z.add_0_r. symmetry. by apply Z.mod_small.
  - intros t c w _ Hw. unfold after_ticks. rewrite (proj2 (Z.ltb_lt _ _)) by by eapply Hpos.
    by rewrite Z.sub_0_r.
  - intros t c cc w _ _ Hw Hle. specialize (Hpos t w Hw). lia.
Qed.

(** Ticks made up for, one after the other. *)
Lemma kwp_wind K n :
  kinv K → var K uxSchedulerSuspended = 0 →
  kwp (repeat_ n (b ← xTaskIncrementTick; when_ b (wr xYieldPending 1)))
    (λ _, passed (Z.of_nat n) K) K.
Proof.
  revert K. induction n as [|n IH]; intros K I Hs; apply kwp_ok; intros Htab;
    pose proof (wait_positive K) as Hpos.
  { apply kwp_ret, passed_none; [done|]. intros t w. by apply Hpos. }
  cbn [repeat_]. apply kwp_bind, kwp_bind. eapply kwp_mono; [by apply kwp_tick|].
  intros b K1 T. pose proof (tk_inv _ _ _ T) as I1.
  set (K2 := if b then set_var xYieldPending 1 K1 else K1).
  assert (kinv K2) as I2 by (unfold K2; destruct b; [by apply kinv_yield|done]).
  assert (var K2 uxSchedulerSuspended = 0) as Hs2.
  { rewrite <-Hs, <-(tk_var _ _ _ T) by done. unfold K2. by destruct b. }
  assert (kwp (S := S) (when_ b (wr xYieldPending 1)) (λ _ K', K' = K2) K1) as Hw
    by (unfold K2; destruct b; [by apply kwp_wr|by apply kwp_ret]).
  eapply kwp_mono; [exact Hw|]. intros [] K' ->.
  eapply kwp_mono; [by apply IH|]. intros ? K3 P3.
  rewrite Nat2Z.inj_succ. eapply passed_more; [done| |exact T|lia|exact P3].
  intros t w. by apply Hpos.
Qed.

(** ** [xTaskResumeAll] *)

(** The variables that resuming changes. *)
Definition resume_free (v : kvar) : bool :=
  ticks_free v || match v with uxSchedulerSuspended | xPendedTicks | pendsv => true | _ => false end.

(** Becomes ready when [n] ticks have been made up for. *)
Definition released (n : Z) K (t : Z) : Prop :=
  home_of K (xEventListItem t) = xPendingReadyList ∨ ∃ w, wait_left K t = Some w ∧ w ≤ n.

Record resumed K (b : bool) K' : Prop := {
  rs_inv : kinv K';
  rs_suspended : var K' uxSchedulerSuspended = 0;
  rs_pended : var K' xPendedTicks = 0;
  rs_tick : var K' xTickCount = u32 (var K xTickCount + var K xPendedTicks);
  rs_tcbs : tcbs K' = tcbs K;
  rs_current : var K' pxCurrentTCB = var K pxCurrentTCB;
  rs_var v : resume_free v = false → var K' v = var K v;
  rs_released t c : tcbs K !! t = Some c → released (var K xPendedTicks) K t →
    home_of K' (xStateListItem t) = ready (uxPriority c) ∧ home_of K' (xEventListItem t) = NULL;
  rs_waits t c w : tcbs K !! t = Some c → ¬ released (var K xPendedTicks) K t →
    wait_left K t = Some w →
    wait_left K' t = Some (w - var K xPendedTicks) ∧
    itm K' (xEventListItem t) = itm K (xEventListItem t);
  rs_others t c : tcbs K !! t = Some c → ¬ released (var K xPendedTicks) K t →
    wait_left K t = None → items_of K' t = items_of K t;
  rs_yield : b = true ↔ var K' xYieldPending ≠ 0;
  rs_pendsv : var K' pendsv = if b then 1 else var K pendsv;
  rs_kept : var K xYieldPending ≠ 0 → b = true;
  rs_preempt t c cc : tcbs K !! t = Some c → tcbs K !! var K pxCurrentTCB = Some cc →
    released (var K xPendedTicks) K t → uxPriority cc < uxPriority c → b = true
}.

(** A task when the pending tasks are ready. *)
Lemma unpended_task lo K K1 t c :
  core None K → unpended lo (set_var uxSchedulerSuspended 0 K) K1 → xPendingReadyList ≠ NULL →
  tcbs K !! t = Some c →
  if decide (home_of K (xEventListItem t) = xPendingReadyList) then
    home_of K1 (xStateListItem t) = ready (uxPriority c) ∧ home_of K1 (xEventListItem t) = NULL ∧
    wait_left K1 t = None ∧ items_of K1 t ≠ items_of K t
  else items_of K1 t = items_of K t ∧ wait_left K1 t = wait_left K t.
Proof.
  intros C (I1 & [T1 V1 W1] & Hno & _) HnP Hc.
  destruct (state_item None t c K C Hc ltac:(done)) as (i & Hi & _).
  destruct (event_item None t c K C Hc) as (e & He & _).
  assert (home_of K (xEventListItem t) = ki_home e) as -> by (unfold home_of; by rewrite He).
  unfold items_of, home_of. rewrite Hi, He.
  case_decide as Hh; destruct (W1 t c i e Hc Hi He) as [[E1 E2]|(Hp & E1 & E2)]; try done.
  - by destruct (Hno _ e E2).
  - rewrite E1, E2. simpl. split_and!; try done.
    + apply (wait_none _ K1 t _ (kv_core _ _ _ I1) E1). simpl.
      destruct (co_task _ _ C t c Hc) as (_ & Hpr & _). by destruct (ready_apart _ Hpr) as (? & ? & _).
    + intros [= _ F]. rewrite <-F in Hh. simpl in Hh. congruence.
  - rewrite E1, E2. split; [done|]. apply wait_left_same; [by rewrite E1, Hi|by apply V1..].
Qed.

(** The pending tasks, then the ticks. *)
Lemma unpended_passed_resumed K K1 K2 K3 b K' :
  kinv K → table_ok (kmem K) → unpended (var K xTickCount + 1) (set_var uxSchedulerSuspended 0 K) K1 →
  passed (var K xPendedTicks) K1 K2 → 0 ≤ var K xPendedTicks →
  K3 = set_var xPendedTicks 0 K2 ∨ K3 = K2 ∧ var K2 xPendedTicks = 0 →
  b = negb (var K3 xYieldPending =? 0) → K' = (if b then set_var pendsv 1 K3 else K3) →
  resumed K b K'.
Proof.
  intros I Htab U P Hn E3 Eb EK'. set (n := var K xPendedTicks) in *. pose proof I as [C _ _].
  assert (xPendingReadyList ≠ NULL) as HnP
    by (apply (list_not_null K Htab), (pending_in _ K C)).
  pose proof (λ t c, unpended_task _ K K1 t c C U HnP) as Htask.
  destruct U as (I1 & [T1 V1 W1] & _ & Y1).
  assert (∀ v, v ≠ pendsv → v ≠ xPendedTicks → var K' v = var K2 v) as HV
    by (intros v ??; subst K'; destruct E3 as [->|[-> _]], b; by rewrite ?set_var_other by auto).
  assert (∀ x, itm K' x = itm K2 x) as HX by (intros x; subst K'; destruct E3 as [->|[-> _]]; by destruct b).
  assert (∀ x, home_of K' x = home_of K2 x) as HH by (intros x; unfold home_of; by rewrite HX).
  assert (∀ t, wait_left K' t = wait_left K2 t) as HW
    by (intros t; subst K'; destruct E3 as [->|[-> _]]; by destruct b).
  assert (∀ t, items_of K' t = items_of K2 t) as HI by (intros t; unfold items_of; by rewrite !HX).
  assert (tcbs K' = tcbs K2) as HT by (subst K'; destruct E3 as [->|[-> _]]; by destruct b).
  assert (tcbs K1 = tcbs K) as HT1 by done.
  assert (b = true ↔ var K2 xYieldPending ≠ 0) as Hb
    by (rewrite Eb, negb_true_iff, Z.eqb_neq; by destruct E3 as [->|[-> _]]).
  split; rewrite ?HV by done.
  - pose proof (ps_inv _ _ _ P) as I2.
    assert (kinv K3) as I3 by (destruct E3 as [->|[-> _]]; [by apply kinv_var|done]).
    subst K'. destruct b; [by apply kinv_var|done].
  - rewrite (ps_var _ _ _ P), V1 by done. apply set_var_same.
  - subst K'. destruct E3 as [->|[-> ?]]; by destruct b.
  - rewrite (ps_tick _ _ _ P), V1 by done. done.
  - by rewrite HT, (ps_tcbs _ _ _ P).
  - rewrite (ps_current _ _ _ P), V1 by done. done.
  - intros v Hv. rewrite HV, (ps_var _ _ _ P), V1 by (by destruct v).
    apply set_var_other. by intros <-.
  - intros t c Hc Hr. rewrite !HH. specialize (Htask t c Hc). case_decide as Hh.
    + destruct Htask as (E1 & E2 & Ew & _).
      pose proof (ps_others _ _ _ P t c ltac:(by rewrite HT1) Ew) as [= F1 F2].
      unfold home_of in *. by rewrite F1, F2.
    + destruct Hr as [?|(w & Hw & Hle)]; [done|]. destruct Htask as [_ E]. rewrite <-E in Hw.
      pose proof (ps_wait _ _ _ P t c w ltac:(by rewrite HT1) Hw) as F. unfold after_ticks in F.
      by rewrite (proj2 (Z.ltb_ge _ _)) in F by lia.
  - intros t c w Hc Hr Hw. rewrite HW, HX. specialize (Htask t c Hc).
    rewrite decide_False in Htask by (intros E; apply Hr; by left). destruct Htask as [E1 E2].
    rewrite <-E2 in Hw. pose proof (ps_wait _ _ _ P t c w ltac:(by rewrite HT1) Hw) as F. unfold after_ticks in F.
    rewrite E2 in Hw. rewrite (proj2 (Z.ltb_lt _ _)) in F.
    2: { destruct (Z.le_gt_cases w n); [|lia]. destruct Hr. right. eauto. }
    destruct F as [F1 F2]. split; [done|]. rewrite F2. by injection E1.
  - intros t c Hc Hr Hw. rewrite HI. specialize (Htask t c Hc).
    rewrite decide_False in Htask by (intros E; apply Hr; by left). destruct Htask as [E1 E2].
    rewrite <-E1. apply (ps_others _ _ _ P t c); [by rewrite HT1|by rewrite E2].
  - done.
  - subst K'. destruct b; [done|].
    destruct E3 as [->|[-> _]]; by rewrite ?set_var_other, (ps_var _ _ _ P), V1 by done.
  - intros Hy. apply Hb, (ps_yield _ _ _ P), Y1. by left.
  - intros t c cc Hc Hcc Hr Hlt. apply Hb. specialize (Htask t c Hc). case_decide as Hh.
    + apply (ps_yield _ _ _ P), Y1. right. exists t, c, cc. split_and!; try done. apply Htask.
    + destruct Hr as [?|(w & Hw & Hle)]; [done|]. destruct Htask as [_ E]. rewrite <-E in Hw.
      apply (ps_preempt _ _ _ P t c cc w); try done; by rewrite ?HT1, ?V1 by done.
Qed.

Lemma unpended_next lo K0 K v :
  unpended lo K0 K → kinv_from lo None (set_var xNextTaskUnblockTime v K) →
  unpended lo K0 (set_var xNextTaskUnblockTime v K).
Proof.
  intros (_ & [T V W] & Hno & Hy) I. split; [done|]. split; [|done]. split; [done| |done].
  intros w Hw. rewrite set_var_other by (by intros <-). auto.
Qed.

(** From the pending tasks on. *)
Lemma kwp_resume_rest K moved K1 :
  kinv K → table_ok (kmem K) → unpended (var K xTickCount + 1) (set_var uxSchedulerSuspended 0 K) K1 →
  0 ≤ var K xPendedTicks →
  kwp (when_ moved prvResetNextTaskUnblockTime;;
       xPendedCounts ← rd xPendedTicks;
       when_ (0 <? xPendedCounts) (wind_ticks xPendedCounts;; wr xPendedTicks 0);;
       y ← rd xYieldPending;
       if negb (y =? 0) then portYIELD;; mret true else mret false) (resumed K) K1.
Proof.
  intros I Htab U Hn.
  assert (kwp (S := S) (when_ moved prvResetNextTaskUnblockTime)
    (λ _ K2, unpended (var K xTickCount + 1) (set_var uxSchedulerSuspended 0 K) K2) K1) as Hreset.
  { pose proof U as ([C B W] & _). apply kwp_when; intros _; [|done].
    eapply (kwp_reset_next (var K xTickCount + 1)); [exact C| |].
    - intros x i Hi. destruct (W x i Hi) as [HD HO]. split; [|done]. intros Hh. by apply HD.
    - intros v Cv Wv. apply unpended_next; [done|]. split; [done|by destruct B; split|done]. }
  apply kwp_bind. eapply kwp_mono; [exact Hreset|]. intros ? K1' U'. apply kwp_ok. intros Htab1.
  pose proof U' as (I1 & [T1 V1 _] & _).
  assert (kinv K1') as IK1 by (unfold kinv; by rewrite V1).
  assert (var K1' xPendedTicks = var K xPendedTicks) as En by (by rewrite V1).
  apply kwp_bind, kwp_rd, kwp_bind.
  assert (kwp (S := S) (when_ (0 <? var K1' xPendedTicks) (wind_ticks (var K1' xPendedTicks);; wr xPendedTicks 0))
    (λ _ K3, ∃ K2, passed (var K xPendedTicks) K1' K2 ∧
      (K3 = set_var xPendedTicks 0 K2 ∨ K3 = K2 ∧ var K2 xPendedTicks = 0)) K1') as Hw.
  { rewrite En. apply kwp_when; intros Hb.
    - apply kwp_bind. unfold wind_ticks. eapply kwp_mono; [apply kwp_wind; [done|by rewrite V1]|].
      intros ? K2 P. rewrite Z2Nat.id in P by done. apply kwp_wr. eauto.
    - apply Z.ltb_ge in Hb. assert (var K xPendedTicks = 0) as Hz by lia. exists K1'. split.
      + rewrite Hz. apply passed_none; [done|]. intros t w. by apply wait_positive.
      + right. split; [done|lia]. }
  eapply kwp_mono; [exact Hw|]. intros ? K3 (K2 & P & E3).
  apply kwp_bind, kwp_rd. apply kwp_if; intros Hb; [apply kwp_bind, kwp_wr|]; apply kwp_ret;
    (eapply (unpended_passed_resumed K K1' K2 K3); [done..| |]; [by rewrite Hb|done]).
Qed.

Lemma pending_short o K :
  table_ok (kmem K) → core o K → (length (members K xPendingReadyList) ≤ size (tcbs K))%nat.
Proof.
  intros Htab C.
  enough (length (members K xPendingReadyList) ≤ length (xEventListItem <$> (map_to_list (tcbs K)).*1))%nat
    as Hlen by by rewrite !length_fmap, length_map_to_list in Hlen.
  apply submseteq_length, NoDup_submseteq; [by apply members_nodup|]. intros x Hx.
  destruct (member_item K Htab x _ Hx) as (i & Hi & Hh & HL).
  destruct (pending_member o K x i Htab C Hi Hh) as [-> [c Hc]].
  apply list_elem_of_fmap_2, list_elem_of_fmap. exists (ki_owner i, c). split; [done|].
  by apply elem_of_map_to_list.
Qed.

(** The last of the nested suspensions ends. *)
Lemma kwp_resume_all K :
  kinv K → var K uxSchedulerSuspended = 1 → 0 < var K uxCurrentNumberOfTasks →
  0 ≤ var K xPendedTicks → kwp xTaskResumeAll (resumed K) K.
Proof.
  intros I Hs Ht Hn. apply kwp_ok. intros Htab. unfold xTaskResumeAll.
  apply kwp_bind, kwp_rd, kwp_bind, kwp_assert; [by rewrite Hs|]. unfold decr.
  apply kwp_bind, kwp_bind, kwp_rd, kwp_wr. rewrite Hs. change (u32 (1 - 1)) with 0.
  set (K0 := set_var uxSchedulerSuspended 0 K).
  assert (kinv K0) as I0 by by apply kinv_var. pose proof (kv_core _ _ _ I0) as C0.
  apply kwp_bind, kwp_rd. apply kwp_if; intros Hb; [|by simpl in Hb].
  apply kwp_bind, kwp_rd. apply kwp_if; intros Hb2; [|apply Z.ltb_ge in Hb2; simpl in Hb2; lia].
  apply kwp_bind, kwp_task_fuel, kwp_bind. eapply kwp_mono.
  { eapply (kwp_pending _ K0); [done| |exact I0|apply woken_refl|].
    - pose proof (pending_short None K0 Htab C0). lia.
    - split; [by left|]. intros [?|(t & c & cc & _ & _ & Hne & _)]; done. }
  intros moved K1 U. by apply kwp_resume_rest.
Qed.

(** One of several nested suspensions ends. *)
Lemma kwp_resume_nested K :
  1 < var K uxSchedulerSuspended < 4294967296 →
  kwp xTaskResumeAll (λ b K', b = false ∧
    K' = set_var uxSchedulerSuspended (var K uxSchedulerSuspended - 1) K) K.
Proof.
  intros Hs. unfold xTaskResumeAll. apply kwp_bind, kwp_rd, kwp_bind, kwp_assert.
  { apply negb_true_iff, Z.eqb_neq. lia. }
  unfold decr. apply kwp_bind, kwp_bind, kwp_rd, kwp_wr, kwp_bind, kwp_rd.
  rewrite u32_id by lia. apply kwp_if; rewrite set_var_same; intros Hb; [lia|]. by apply kwp_ret.
Qed.

Lemma kwp_suspend_all (Q : unit → kernel ktable → Prop) K :
  0 ≤ var K uxSchedulerSuspended < 4294967295 →
  Q tt (set_var uxSchedulerSuspended (var K uxSchedulerSuspended + 1) K) → kwp vTaskSuspendAll Q K.
Proof. intros Hs HQ. apply kwp_bind, kwp_rd, kwp_wr. by rewrite u32_id by lia. Qed.

(** ** Delays *)

(** The scheduler between two services: it is not suspended, so that nothing is
    held pending. *)
Record live K : Prop := {
  lv_inv : kinv K;
  lv_suspended : var K uxSchedulerSuspended = 0;
  lv_pended : var K xPendedTicks = 0;
  lv_pending x i : itm K x = Some i → ki_home i ≠ xPendingReadyList;
  lv_tasks : 0 < var K uxCurrentNumberOfTasks
}.

(** What a task waits for is the same. *)
Definition undisturbed K K' (t : Z) : Prop :=
  itm K' (xEventListItem t) = itm K (xEventListItem t) ∧ wait_left K' t = wait_left K t ∧
  (wait_left K t = None → items_of K' t = items_of K t).

Lemma undisturbed_trans K1 K2 K3 t : undisturbed K1 K2 t → undisturbed K2 K3 t → undisturbed K1 K3 t.
Proof.
  intros (E1 & W1 & I1) (E2 & W2 & I2). split; [congruence|]. split; [congruence|]. intros Hw.
  rewrite <-I1, I2 by congruence. done.
Qed.

(** The running task sleeps, or waits for ever, and all others are as they
    were; a switch is asked for. *)
Record asleep (n : Z) (forever : bool) K K' : Prop := {
  as_live : live K';
  as_current : var K' pxCurrentTCB = var K pxCurrentTCB;
  as_tick : var K' xTickCount = var K xTickCount;
  as_tcbs : tcbs K' = tcbs K;
  as_wait :
    if (n =? portMAX_DELAY) && forever then
      home_of K' (xStateListItem (var K pxCurrentTCB)) = xSuspendedTaskList
    else wait_left K' (var K pxCurrentTCB) = Some n;
  as_others t c : tcbs K !! t = Some c → t ≠ var K pxCurrentTCB → undisturbed K K' t
}.

Lemma not_released K t c :
  kinv K → table_ok (kmem K) → tcbs K !! t = Some c →
  (∀ x i, itm K x = Some i → ki_home i ≠ xPendingReadyList) → ¬ released 0 K t.
Proof.
  intros I Htab Hc Hno [Hh|(w & Hw & Hle)].
  - destruct (event_item None t c K (kv_core _ _ _ I) Hc) as (e & He & _).
    apply (Hno _ e He). unfold home_of in Hh. by rewrite He in Hh.
  - pose proof (wait_positive K t w I Htab Hw). lia.
Qed.

(** Resuming a scheduler with nothing pending changes no task. *)
Lemma resumed_calm K b K' t c :
  kinv K → table_ok (kmem K) → resumed K b K' → var K xPendedTicks = 0 →
  (∀ x i, itm K x = Some i → ki_home i ≠ xPendingReadyList) → tcbs K !! t = Some c →
  undisturbed K K' t.
Proof.
  intros I Htab R Hn Hno Hc. pose proof (not_released K t c I Htab Hc Hno) as Hr.
  rewrite <-Hn in Hr. unfold undisturbed. destruct (wait_left K t) as [w|] eqn:Hw.
  - destruct (rs_waits _ _ _ R t c w Hc Hr Hw) as [E1 E2]. rewrite E1, E2, Hn. split; [done|].
    split; [f_equal; lia|done].
  - pose proof (rs_others _ _ _ R t c Hc Hr Hw) as E. pose proof E as [= E1 E2]. split; [done|].
    split; [|done].
    destruct (state_item None t c K (kv_core _ _ _ I) Hc ltac:(done)) as (i & Hi & _).
    rewrite Hi in E1. apply (wait_none _ K' t i (kv_core _ _ _ (rs_inv _ _ _ R)) E1).
    by apply (wait_none _ K t i (kv_core _ _ _ I) Hi).
Qed.

(** Nothing is pending after resuming. *)
Lemma resumed_no_pending K b K' :
  kinv K → table_ok (kmem K) → resumed K b K' → var K xPendedTicks = 0 →
  (∀ x i, itm K x = Some i → ki_home i ≠ xPendingReadyList) →
  table_ok (kmem K') → ∀ x i, itm K' x = Some i → ki_home i ≠ xPendingReadyList.
Proof.
  intros I Htab R Hn Hno Htab' x i Hi Hh. pose proof (rs_inv _ _ _ R) as [C' _ _].
  destruct (pending_member None K' x i Htab' C' Hi Hh) as [-> [c Hc]].
  rewrite (rs_tcbs _ _ _ R) in Hc.
  destruct (resumed_calm K b K' _ c I Htab R Hn Hno Hc) as (E & _).
  rewrite E in Hi. by apply (Hno _ i Hi).
Qed.

Lemma resumed_live K b K' :
  kinv K → table_ok (kmem K) → table_ok (kmem K') → resumed K b K' → var K xPendedTicks = 0 →
  (∀ x i, itm K x = Some i → ki_home i ≠ xPendingReadyList) →
  0 < var K uxCurrentNumberOfTasks → live K'.
Proof.
  intros I Htab Htab' R Hp Hno Ht. split.
  - apply (rs_inv _ _ _ R).
  - apply (rs_suspended _ _ _ R).
  - apply (rs_pended _ _ _ R).
  - by apply (resumed_no_pending K b K').
  - by rewrite (rs_var _ _ _ R).
Qed.

Lemma live_pendsv v K : live K → live (set_var pendsv v K).
Proof. intros [I Hs Hp Hno Ht]. split; try done. by apply kinv_var. Qed.

Lemma asleep_pendsv n forever v K K' : asleep n forever K K' → asleep n forever K (set_var pendsv v K').
Proof. intros [L C T B W O]. split; try done. by apply live_pendsv. Qed.

(** The task put to sleep while the scheduler is suspended. *)
Lemma blocked_no_pending n forever K K1 :
  kinv K → table_ok (kmem K1) → blocked n forever K K1 →
  (∀ x i, itm K x = Some i → ki_home i ≠ xPendingReadyList) →
  ∀ x i, itm K1 x = Some i → ki_home i ≠ xPendingReadyList.
Proof.
  intros I Htab1 Bl Hno x i Hi Hh.
  destruct (pending_member None K1 x i Htab1 (kv_core _ _ _ (bl_inv _ _ _ _ Bl)) Hi Hh) as [-> [ct Hct]].
  destruct (co_current _ _ (kv_core _ _ _ I)) as [c Hc].
  rewrite (bl_itm _ _ _ _ Bl) in Hi; [by apply (Hno _ i Hi)|].
  rewrite (bl_tcbs _ _ _ _ Bl) in Hct.
  eapply (state_no_event _ _ c); [exact (kv_core _ _ _ I)|exact Hc|by exists ct].
Qed.

Lemma blocked_undisturbed n forever K K1 t c :
  kinv K → blocked n forever K K1 → tcbs K !! t = Some c → t ≠ var K pxCurrentTCB →
  undisturbed K K1 t.
Proof.
  intros I Bl Hct Hne. destruct (co_current _ _ (kv_core _ _ _ I)) as [cc Hc].
  destruct (other_items None K _ cc t c (kv_core _ _ _ I) Hc Hct Hne) as (N1 & _ & N3 & _).
  unfold undisturbed, items_of. rewrite !(bl_itm _ _ _ _ Bl) by done. split; [done|]. split; [|done].
  apply wait_left_same; [by rewrite (bl_itm _ _ _ _ Bl)|by apply (bl_var _ _ _ _ Bl)..].
Qed.

Lemma blocked_resumed n forever K K1 b K2 :
  live K → blocked n forever (set_var uxSchedulerSuspended 1 K) K1 → resumed K1 b K2 →
  table_ok (kmem K1) → table_ok (kmem K2) → asleep n forever K K2.
Proof.
  intros [I Hs Hp Hno Ht] Bl HR Htab1 Htab2. pose proof (bl_inv _ _ _ _ Bl) as I1.
  set (K0 := set_var uxSchedulerSuspended 1 K) in *. assert (kinv K0) as I0 by by apply kinv_var.
  assert (∀ v, v ≠ uxTopReadyPriority → v ≠ xNextTaskUnblockTime → var K1 v = var K0 v) as V1
    by apply (bl_var _ _ _ _ Bl).
  destruct (co_current _ _ (kv_core _ _ _ I)) as [c Hc].
  pose proof (blocked_no_pending n forever K0 K1 I0 Htab1 Bl Hno) as Hno1.
  assert (var K1 xPendedTicks = 0) as Hp1 by (rewrite V1 by done; exact Hp).
  assert (∀ t ct, tcbs K !! t = Some ct → undisturbed K1 K2 t) as U2
    by (intros t ct Hct; apply (resumed_calm K1 b K2 t ct); try done; by rewrite (bl_tcbs _ _ _ _ Bl)).
  split.
  - apply (resumed_live K1 b); try done. by rewrite V1.
  - rewrite (rs_current _ _ _ HR), V1 by done. done.
  - rewrite (rs_tick _ _ _ HR), Hp1, Z.add_0_r, V1 by done. apply Z.mod_small.
    apply (co_tick _ _ (kv_core _ _ _ I)).
  - by rewrite (rs_tcbs _ _ _ HR), (bl_tcbs _ _ _ _ Bl).
  - pose proof (bl_wait _ _ _ _ Bl) as Hwait. destruct (U2 _ c Hc) as (_ & E2 & E3).
    change (var K0 pxCurrentTCB) with (var K pxCurrentTCB) in Hwait. case_match; [|by rewrite E2].
    pose proof (kv_core _ _ _ I1) as C1.
    destruct (state_item None (var K pxCurrentTCB) c K1 C1) as (i & Hi & _);
      [by rewrite (bl_tcbs _ _ _ _ Bl)|done|].
    unfold home_of in Hwait |- *. rewrite Hi in Hwait. simpl in Hwait.
    assert (wait_left K1 (var K pxCurrentTCB) = None) as Hnone.
    { apply (wait_none _ K1 _ i C1 Hi). rewrite Hwait.
      destruct layout_apart as (_ & _ & _ & _ & _ & ? & ? & _). auto. }
    pose proof (E3 Hnone) as [= F _]. by rewrite F, Hi.
  - intros t ct Hct Hne. eapply undisturbed_trans; [|by eapply U2].
    by apply (blocked_undisturbed n forever K0 K1 t ct).
Qed.

(** The scheduler resumes after the running task was put to sleep. *)
Lemma kwp_resume_asleep n forever K K1 :
  live K → blocked n forever (set_var uxSchedulerSuspended 1 K) K1 →
  kwp xTaskResumeAll (λ b K2, asleep n forever K K2 ∧ (b = true → var K2 pendsv = 1)) K1.
Proof.
  intros L Bl. pose proof L as [I Hs Hp Hno Ht]. apply kwp_ok. intros Htab1.
  pose proof (bl_var _ _ _ _ Bl) as V1. eapply kwp_mono.
  { apply kwp_and_ok, kwp_resume_all; rewrite ?V1 by done; [apply (bl_inv _ _ _ _ Bl)|done|done|].
    change (0 ≤ var K xPendedTicks). lia. }
  intros b K2 [HR Htab2]. split; [by eapply blocked_resumed|].
  intros ->. apply (rs_pendsv _ _ _ HR).
Qed.

Lemma suspend_ready K c : is_ready K (var K pxCurrentTCB) c →
  is_ready (set_var uxSchedulerSuspended 1 K) (var (set_var uxSchedulerSuspended 1 K) pxCurrentTCB) c.
Proof. done. Qed.

Lemma kwp_yield_unless b n forever K0 K :
  asleep n forever K0 K → (b = true → var K pendsv = 1) →
  kwp (when_ (negb b) portYIELD) (λ _ K', asleep n forever K0 K' ∧ var K' pendsv = 1) K.
Proof.
  intros A Hb. apply kwp_when; intros E; [apply kwp_wr|]; split; auto; [by apply asleep_pendsv|].
  apply Hb. by destruct b.
Qed.

(** [vTaskSuspendAll], with the scheduler live before. *)
Lemma kwp_suspend_live (Q : unit → kernel ktable → Prop) K :
  live K → (kinv (set_var uxSchedulerSuspended 1 K) → Q tt (set_var uxSchedulerSuspended 1 K)) →
  kwp vTaskSuspendAll Q K.
Proof.
  intros [I Hs _ _ _] HQ. apply kwp_suspend_all; [lia|]. rewrite Hs. apply HQ. by apply kinv_var.
Qed.

Lemma kwp_delay n c K :
  live K → is_ready K (var K pxCurrentTCB) c → 0 < n ≤ portMAX_DELAY →
  kwp (vTaskDelay n) (λ _ K', asleep n false K K' ∧ var K' pendsv = 1) K.
Proof.
  intros L Hr Hn. unfold vTaskDelay. rewrite (proj2 (Z.ltb_lt 0 n)) by lia.
  apply kwp_bind, kwp_bind, kwp_suspend_live; [done|]. intros I0.
  apply kwp_bind, kwp_rd, kwp_bind, kwp_assert; [done|].
  apply kwp_bind. eapply kwp_mono; [by eapply kwp_block|]. intros ? K1 Bl.
  eapply kwp_mono; [by apply (kwp_resume_asleep n false K)|]. intros b K2 [A Hb].
  by apply kwp_yield_unless.
Qed.

(** Nothing but flags has changed. *)
Record calm K K' : Prop := {
  ca_live : live K';
  ca_current : var K' pxCurrentTCB = var K pxCurrentTCB;
  ca_tick : var K' xTickCount = var K xTickCount;
  ca_tcbs : tcbs K' = tcbs K;
  ca_tasks t c : tcbs K !! t = Some c → undisturbed K K' t
}.

Lemma calm_pendsv v K K' : calm K K' → calm K (set_var pendsv v K').
Proof. intros [L C T B U]. split; try done. by apply live_pendsv. Qed.

(** The scheduler resumes and nothing was pending. *)
Lemma kwp_resume_calm K :
  live K →
  kwp xTaskResumeAll (λ b K', calm K K' ∧ (b = true → var K' pendsv = 1)) (set_var uxSchedulerSuspended 1 K).
Proof.
  intros [I Hs Hp Hno Ht]. set (K0 := set_var uxSchedulerSuspended 1 K).
  assert (kinv K0) as I0 by by apply kinv_var.
  apply kwp_ok. intros Htab. eapply kwp_mono.
  { apply kwp_and_ok, kwp_resume_all; [done|done|done|]. change (0 ≤ var K xPendedTicks). lia. }
  intros b K2 [HR Htab2]. split.
  - split.
    + by apply (resumed_live K0 b).
    + apply (rs_current _ _ _ HR).
    + rewrite (rs_tick _ _ _ HR). change (u32 (var K xTickCount + var K xPendedTicks) = var K xTickCount).
      rewrite Hp, Z.add_0_r. apply Z.mod_small, (co_tick _ _ (kv_core _ _ _ I)).
    + apply (rs_tcbs _ _ _ HR).
    + intros t c Hc. by apply (resumed_calm K0 b K2 t c).
  - intros ->. apply (rs_pendsv _ _ _ HR).
Qed.
End resume.
