(* ===== verification/KernelPrio.v ===== *)
(** Waiting for events and for times, and priorities. *)
From stdpp Require Import base tactics numbers list gmap sorting.
From S2P Require Import Prelude Words Sched KList KListThm KListRefine Kernel KernelApi KernelInv KernelMoves KernelTick KernelResume.

(** * Events and times

    Waiting for events and for times: event lists, time-outs and periodic
    delays. *)

(** ** Times modulo 2^32 *)

Lemma u32_sub a b :
  0 ≤ a < 4294967296 → 0 ≤ b < 4294967296 →
  u32 (a - b) = if a <? b then a - b + 4294967296 else a - b.
Proof.
  intros Ha Hb. unfold u32. destruct (Z.ltb_spec a b) as [Hlt|Hlt].
  - symmetry. apply (Z.mod_unique _ _ (-1)); lia.
  - apply Z.mod_small. lia.
Qed.

Lemma u32_plus a b :
  0 ≤ a < 4294967296 → 0 ≤ b < 4294967296 →
  u32 (a + b) = if a + b <? 4294967296 then a + b else a + b - 4294967296.
Proof.
  intros Ha Hb. unfold u32. destruct (Z.ltb_spec (a + b) 4294967296) as [Hlt|Hlt].
  - apply Z.mod_small. lia.
  - symmetry. apply (Z.mod_unique _ _ 1); lia.
Qed.

(** The four comparisons of [xTaskDelayUntil] ask whether less than one period
    has passed since the previous wake-up. *)
Lemma should_delay_elapsed now previous period :
  0 ≤ now < 4294967296 → 0 ≤ previous < 4294967296 → 0 < period < 4294967296 →
  should_delay now previous (u32 (previous + period)) = (u32 (now - previous) <? period).
Proof.
  intros Hn Hp Hi. unfold should_delay. rewrite u32_sub, u32_plus by lia.
  destruct (Z.ltb_spec now previous), (Z.ltb_spec (previous + period) 4294967296);
    apply Bool.eq_iff_eq_true;
    rewrite ?andb_true_iff, ?orb_true_iff, !Z.ltb_lt; lia.
Qed.

(** The ticks that are left of the period. *)
Lemma rest_of_period now previous period :
  0 ≤ now < 4294967296 → 0 ≤ previous < 4294967296 → 0 < period < 4294967296 →
  u32 (now - previous) < period →
  u32 (u32 (previous + period) - now) = period - u32 (now - previous).
Proof.
  intros Hn Hp Hi Hlt. pose proof (u32_range (previous + period)).
  rewrite (u32_sub (u32 _)), u32_plus, u32_sub in * by lia.
  destruct (Z.ltb_spec (previous + period) 4294967296), (Z.ltb_spec now previous);
    case_match; lia.
Qed.

Section events.
Context `{Layout} {S : Type} `{ListLaws S}.
Implicit Types K : kernel ktable.

(** ** Time-outs *)

(** Ticks since the start, when [xNumOfOverflows] has not overflowed. *)
Definition clock_of (overflows tick : Z) : Z := overflows * 4294967296 + tick.

Lemma kwp_set_timeout (Q : TimeOut_t → kernel ktable → Prop) K :
  Q (TimeOut (var K xNumOfOverflows) (var K xTickCount)) K → kwp vTaskInternalSetTimeOutState Q K.
Proof. intros HQ. by apply kwp_bind, kwp_rd, kwp_bind, kwp_rd, kwp_ret. Qed.

Lemma check_timeout_exact K to ticks :
  0 ≤ var K xTickCount < 4294967296 → 0 ≤ xTimeOnEntering to < 4294967296 →
  0 ≤ ticks < portMAX_DELAY →
  let elapsed := clock_of (var K xNumOfOverflows) (var K xTickCount) -
                 clock_of (xOverflowCount to) (xTimeOnEntering to) in
  0 ≤ elapsed < 4294967296 →
  kwp (xTaskCheckForTimeOut to ticks) (λ '(b, (to', ticks')) K', K' = K ∧
    b = (ticks <=? elapsed) ∧
    if b then to' = to ∧ ticks' = 0
    else to' = TimeOut (var K xNumOfOverflows) (var K xTickCount) ∧ ticks' = ticks - elapsed) K.
Proof.
  intros Ht He Hk elapsed Hel. unfold clock_of in elapsed. unfold portMAX_DELAY in Hk.
  unfold xTaskCheckForTimeOut. apply kwp_bind, kwp_rd.
  apply kwp_if; intros Hm; [apply Z.eqb_eq in Hm; unfold portMAX_DELAY in Hm; lia|].
  apply kwp_bind, kwp_rd. rewrite u32_sub by lia.
  assert (var K xNumOfOverflows = xOverflowCount to ∧ elapsed = var K xTickCount - xTimeOnEntering to ∨
    var K xNumOfOverflows = xOverflowCount to + 1 ∧ var K xTickCount < xTimeOnEntering to ∧
      elapsed = var K xTickCount - xTimeOnEntering to + 4294967296) as Hcases by lia.
  apply kwp_if; intros Hb.
  { apply andb_true_iff in Hb as [Hb1%negb_true_iff%Z.eqb_neq Hb2%Z.leb_le]. lia. }
  apply andb_false_iff in Hb.
  assert ((if var K xTickCount <? xTimeOnEntering to
           then var K xTickCount - xTimeOnEntering to + 4294967296
           else var K xTickCount - xTimeOnEntering to) = elapsed) as -> by (case_match; lia).
  apply kwp_if; intros Hc; [apply Z.ltb_lt in Hc|apply Z.ltb_ge in Hc].
  - apply kwp_bind, kwp_set_timeout, kwp_ret. rewrite (proj2 (Z.leb_gt _ _)) by lia.
    rewrite u32_id by lia. done.
  - apply kwp_ret. by rewrite (proj2 (Z.leb_le _ _)) by lia.
Qed.

(** ** Periodic delays *)

Lemma kwp_delay_until previous period c K :
  live K → is_ready K (var K pxCurrentTCB) c →
  0 ≤ previous < 4294967296 → 0 < period < 4294967296 →
  let elapsed := u32 (var K xTickCount - previous) in
  kwp (xTaskDelayUntil previous period) (λ '(b, next) K',
    b = (elapsed <? period) ∧ next = u32 (previous + period) ∧ var K' pendsv = 1 ∧
    if b then asleep (period - elapsed) false K K'
    else live K' ∧ var K' pxCurrentTCB = var K pxCurrentTCB ∧ var K' xTickCount = var K xTickCount ∧
         ∀ t ct, tcbs K !! t = Some ct → undisturbed K K' t) K.
Proof.
  intros L Hr Hp Hi elapsed. pose proof L as [I Hs Hpd Hno Ht].
  pose proof (co_tick _ _ (kv_core _ _ _ I)) as Htick.
  unfold xTaskDelayUntil. apply kwp_bind, kwp_assert; [lia|].
  apply kwp_bind, kwp_suspend_live; [done|]. intros I0. set (K0 := set_var _ 1 K) in *.
  apply kwp_bind, kwp_rd, kwp_bind, kwp_rd, kwp_bind, kwp_assert; [done|].
  change (var K0 xTickCount) with (var K xTickCount).
  rewrite should_delay_elapsed by lia. fold elapsed. apply kwp_bind. apply kwp_when; intros Hb.
  - apply Z.ltb_lt in Hb. rewrite rest_of_period by lia. fold elapsed.
    pose proof (u32_range (var K xTickCount - previous)) as He. fold elapsed in He.
    eapply kwp_mono; [eapply (kwp_block _ _ c); [done|exact Hr|unfold portMAX_DELAY; lia]|].
    intros ? K1 Bl. apply kwp_bind. eapply kwp_mono; [by apply (kwp_resume_asleep (period - elapsed) false K)|].
    intros b K2 [A Hy]. apply kwp_bind. eapply kwp_mono; [by eapply kwp_yield_unless|].
    intros ? K3 [A3 Hy3]. apply kwp_ret. by rewrite (proj2 (Z.ltb_lt _ _)).
  - apply kwp_bind. eapply kwp_mono; [by apply kwp_resume_calm|]. intros b K2 [A Hy].
    apply kwp_bind. apply kwp_when; intros Eb; [apply kwp_wr|]; apply kwp_ret; rewrite Hb.
    + split_and!; try done; [by apply live_pendsv, A|apply A..].
    + split_and!; try done; [apply Hy; by destruct b|apply A..].
Qed.

(** ** Event lists *)

(** A list the scheduler is handed by its callers. *)
Definition event_list K (L : Z) : Prop := has_list K L ∧ L ∉ klists.

(** The running task waits on [L], behind those at least as important. *)
Record waits_on (L n : Z) K K' : Prop := {
  wo_inv : kinv K';
  wo_tcbs : tcbs K' = tcbs K;
  wo_var v : v ≠ uxTopReadyPriority → v ≠ xNextTaskUnblockTime → var K' v = var K v;
  wo_event : home_of K' (xEventListItem (var K pxCurrentTCB)) = L;
  wo_members : members K' L =
    put_sorted (value_of K) (value_of K (xEventListItem (var K pxCurrentTCB)))
      (xEventListItem (var K pxCurrentTCB)) (members K L);
  wo_wait :
    if n =? portMAX_DELAY then
      home_of K' (xStateListItem (var K pxCurrentTCB)) = xSuspendedTaskList
    else wait_left K' (var K pxCurrentTCB) = Some n;
  wo_others t c : tcbs K !! t = Some c → t ≠ var K pxCurrentTCB → items_of K' t = items_of K t
}.

Lemma kwp_place_on_event_list L n c K :
  kinv K → is_ready K (var K pxCurrentTCB) c → event_list K L →
  home_of K (xEventListItem (var K pxCurrentTCB)) = NULL → 0 < n ≤ portMAX_DELAY →
  kwp (vTaskPlaceOnEventList L n) (λ _, waits_on L n K) K.
Proof.
  intros I Hr [HL Hout] Hev Hn. pose proof (kv_core _ _ _ I) as C. pose proof Hr as [Hc Hh].
  set (t := var K pxCurrentTCB) in *. apply kwp_ok. intros Htab.
  pose proof (list_not_null K Htab L HL) as HLn.
  destruct (event_item None t c K C Hc) as (e & He & Ho & _).
  assert (ki_home e = NULL) as Hhe by (unfold home_of in Hev; by rewrite He in Hev).
  unfold vTaskPlaceOnEventList. apply kwp_bind, kwp_assert.
  { apply negb_true_iff. by apply Z.eqb_neq. }
  apply kwp_bind, kwp_rd. fold t. apply kwp_bind, kwp_insert; [by eapply legal_insert|].
  pose proof (insert_moved L _ e K He) as Mv.
  set (K1 := act (CInsert L (xEventListItem t)) K) in *.
  assert (kinv K1) as I1.
  { eapply (event_moved _ _ t c e); [exact Htab|exact I|exact Hc|exact He|exact Mv|exact Ho|done| |done|done].
    by eapply insert_order. }
  assert (is_ready K1 t c) as Hr1.
  { split; [done|]. unfold home_of. erewrite moved_other; [exact Hh|exact Mv|apply items_differ]. }
  eapply kwp_mono; [by apply (kwp_block n true c K1)|]. intros ? K2 Bl. split.
  - apply (bl_inv _ _ _ _ Bl).
  - by rewrite (bl_tcbs _ _ _ _ Bl).
  - intros v ??. by rewrite (bl_var _ _ _ _ Bl).
  - unfold home_of. rewrite (bl_itm _ _ _ _ Bl).
    + fold t. by rewrite (moved_some _ _ _ _ Mv).
    + intros E. symmetry in E. by apply (items_differ t).
  - rewrite (bl_members _ _ _ _ Bl) by done. unfold K1. rewrite members_insert_sorted by done.
    by rewrite decide_True.
  - pose proof (bl_wait _ _ _ _ Bl) as W. by rewrite andb_true_r in W.
  - intros u cu Hu Hne. destruct (other_items None K t c u cu C Hc Hu Hne) as (? & ? & ? & ?).
    unfold items_of. rewrite !(bl_itm _ _ _ _ Bl) by done.
    by rewrite !(moved_other _ _ _ _ _ Mv).
Qed.

(** The first task that waits on [L] no longer does. *)
Record event_given (L t : Z) (c : tcb) (b : bool) K K' : Prop := {
  eg_inv : kinv K';
  eg_tcbs : tcbs K' = tcbs K;
  eg_var v : v ≠ uxTopReadyPriority → v ≠ xYieldPending → var K' v = var K v;
  eg_task :
    if var K uxSchedulerSuspended =? 0 then
      home_of K' (xStateListItem t) = ready (uxPriority c) ∧ home_of K' (xEventListItem t) = NULL
    else itm K' (xStateListItem t) = itm K (xStateListItem t) ∧
         home_of K' (xEventListItem t) = xPendingReadyList;
  eg_members : members K' L = tail (members K L);
  eg_yield : var K' xYieldPending = if b then 1 else var K xYieldPending;
  eg_others u cu : tcbs K !! u = Some cu → u ≠ t → items_of K' u = items_of K u
}.

Lemma event_member o K L x :
  table_ok (kmem K) → core o K → event_list K L → x ∈ members K L →
  ∃ e c, itm K x = Some e ∧ ki_home e = L ∧ x = xEventListItem (ki_owner e) ∧
    tcbs K !! ki_owner e = Some c.
Proof.
  intros Htab C [HL Hout] Hx. destruct (member_item K Htab x L Hx) as (e & He & Hh & _).
  destruct (co_item _ _ C x e He) as (_ & [c Hc] & [(_ & Hk & _)|(E & _)]).
  - rewrite Hh. by apply (list_not_null K Htab).
  - by rewrite Hh in Hk.
  - exists e, c. done.
Qed.

(** Leaving the event list. *)
Lemma kwp_leave_head L t c e l (Q : unit → kernel ktable → Prop) K :
  kinv K → event_list K L → members K L = xEventListItem t :: l → tcbs K !! t = Some c →
  itm K (xEventListItem t) = Some e → ki_home e = L →
  (∀ K', table_ok (kmem K') → moved (xEventListItem t) (set_home NULL e) K K' → kinv K' →
     members K' L = l → var K' uxTopReadyPriority = var K uxTopReadyPriority → Q tt K') →
  kwp (listREMOVE_ITEM (xEventListItem t)) Q K.
Proof.
  intros I [HL Hout] E Hc He Hh HQ. apply kwp_ok. intros Htab. pose proof (kv_core _ _ _ I) as C.
  destruct (event_item None t c K C Hc) as (e' & He' & Ho & _). assert (e' = e) as -> by congruence.
  apply kwp_bind. eapply kwp_remove; [exact He|by rewrite Hh|]. intros K' n Htab' Mv Hord Ev _ Hm.
  apply kwp_ret. apply HQ; [done|done| | |done].
  - unfold kinv. rewrite (mv_var _ _ _ _ Mv) by done.
    eapply event_moved; [exact Htab|exact I|exact Hc|exact He|exact Mv|done|done|done|done|].
    simpl. intros Hk. exfalso. by apply (list_not_null K Htab NULL); [by apply (co_lists _ _ C)|].
  - rewrite Hm, decide_True, E by done. pose proof (members_nodup K Htab L) as Hnd. rewrite E in Hnd.
    by apply (take_out_middle (xEventListItem t) []).
Qed.

(** Into the pending list. *)
Lemma kwp_hold_pending lo t c e (Q : unit → kernel ktable → Prop) K :
  kinv_from lo None K → tcbs K !! t = Some c → itm K (xEventListItem t) = Some e → ki_home e = NULL →
  (∀ K', table_ok (kmem K') → moved (xEventListItem t) (set_home xPendingReadyList e) K K' →
     kinv_from lo None K' → Q tt K') →
  kwp (lst (list_insert_end xPendingReadyList (xEventListItem t))) Q K.
Proof.
  intros I Hc He Hh HQ. apply kwp_ok. intros Htab. pose proof (kv_core _ _ _ I) as C.
  destruct (event_item None t c K C Hc) as (e' & He' & Ho & _). assert (e' = e) as -> by congruence.
  destruct (pending_in _ K C) as [Hk HL]. destruct layout_apart as (_ & ? & ? & _).
  apply kwp_post, kwp_insert_end; [by eapply legal_insert|]. intros Htab'.
  pose proof (insert_end_moved xPendingReadyList _ e K He) as Mv.
  apply HQ; [done|done|].
  eapply event_moved; [exact Htab|exact I|exact Hc|exact He|exact Mv|done|done| |done|done].
  by eapply insert_end_order; [| |congruence|congruence].
Qed.

Lemma kwp_remove_from_event_list L t c cc l K :
  kinv K → event_list K L → members K L = xEventListItem t :: l → tcbs K !! t = Some c →
  tcbs K !! var K pxCurrentTCB = Some cc →
  kwp (xTaskRemoveFromEventList L)
    (λ b K', b = (uxPriority cc <? uxPriority c) ∧ event_given L t c b K K') K.
Proof.
  intros I HEL E Hc Hcc. apply kwp_ok. intros Htab. pose proof (kv_core _ _ _ I) as C.
  destruct (event_member None K L (xEventListItem t) Htab C HEL) as (e & c' & He & Hh & Et & Hc').
  { rewrite E. set_solver. }
  assert (ki_owner e = t) as Ho by (unfold xEventListItem in Et; lia).
  destruct (co_task _ _ C t c Hc) as (Htn & _). pose proof HEL as [HL Hout].
  pose proof (list_not_null K Htab L HL) as HLn.
  destruct (state_item None t c K C Hc ltac:(done)) as (i & Hi & _ & Hst & _).
  destruct (co_task _ _ C t c Hc) as (_ & Hp & _). destruct (stands_in c _ Hp Hst) as [Hik _].
  unfold xTaskRemoveFromEventList. apply kwp_bind. eapply kwp_head_owner; [exact E|exact He|].
  rewrite Ho. apply kwp_bind, kwp_assert. { apply negb_true_iff. by apply Z.eqb_neq. }
  apply kwp_bind. eapply kwp_leave_head; [exact I|exact HEL|exact E|exact Hc|exact He|exact Hh|].
  intros K1 Htab1 Mv1 I1 M1 Ev1.
  assert (tcbs K1 = tcbs K) as T1 by apply (mv_tcbs _ _ _ _ Mv1).
  assert (itm K1 (xStateListItem t) = Some i) as Hi1.
  { erewrite moved_other; [exact Hi|exact Mv1|apply items_differ]. }
  pose proof (moved_some _ _ _ _ Mv1) as He1.
  apply kwp_bind, kwp_rd. rewrite (mv_var _ _ _ _ Mv1) by done.
  assert (∀ K2, kinv K2 → tcbs K2 = tcbs K → (∀ v, v ≠ uxTopReadyPriority → var K2 v = var K v) →
    (if var K uxSchedulerSuspended =? 0 then
       home_of K2 (xStateListItem t) = ready (uxPriority c) ∧ home_of K2 (xEventListItem t) = NULL
     else itm K2 (xStateListItem t) = itm K (xStateListItem t) ∧
          home_of K2 (xEventListItem t) = xPendingReadyList) →
    members K2 L = l → (∀ u cu, tcbs K !! u = Some cu → u ≠ t → items_of K2 u = items_of K u) →
    kwp (yield_if_higher t) (λ b K', b = (uxPriority cc <? uxPriority c) ∧ event_given L t c b K K') K2)
    as Hend.
  { intros K2 I2 T2 V2 Ht2 M2 O2. eapply (kwp_yield_if_higher _ t c cc); [exact I2|by rewrite T2|by rewrite T2, V2|].
    intros K' b I' Eb EK'. split; [done|]. split.
    - unfold kinv. replace (var K' xTickCount) with (var K2 xTickCount) by (subst K'; by destruct b). done.
    - rewrite <-T2. subst K'. by destruct b.
    - intros v ??. rewrite <-V2 by done. subst K'. destruct b; [by apply set_var_other; auto|done].
    - subst K'. by destruct b.
    - rewrite E. simpl. subst K'. by destruct b.
    - rewrite <-V2 by done. subst K'. by destruct b.
    - intros u cu Hu Hne. rewrite <-(O2 u cu) by done. subst K'. by destruct b. }
  assert (∀ u cu, tcbs K !! u = Some cu → u ≠ t → items_of K1 u = items_of K u) as O1.
  { intros u cu Hu Hne. destruct (other_items None K t c u cu C Hc Hu Hne) as (? & ? & ? & ?).
    unfold items_of. by rewrite !(moved_other _ _ _ _ _ Mv1). }
  apply kwp_bind, kwp_if; intros Hs.
  - eapply (kwp_to_ready _ t c i); [exact I1|by rewrite T1|exact Hi1|]. intros K2 Htab2 Mv2 I2. apply Hend.
    + unfold kinv. by rewrite (mv_var _ _ _ _ Mv2).
    + by rewrite (mv_tcbs _ _ _ _ Mv2).
    + intros v Hv. by rewrite (mv_var _ _ _ _ Mv2), (mv_var _ _ _ _ Mv1).
    + rewrite Hs. unfold home_of. rewrite (moved_some _ _ _ _ Mv2).
      rewrite (moved_other _ _ _ _ (xEventListItem t) Mv2), He1; [done|].
      intros E'. symmetry in E'. by apply (items_differ t).
    + rewrite <-M1. eapply (moved_elsewhere _ _ i _ _ Mv2 Hi1); [by right|right; by apply ready_in|done|done].
    + intros u cu Hu Hne. rewrite <-(O1 u cu) by done.
      destruct (other_items None K t c u cu C Hc Hu Hne) as (? & ? & ? & ?).
      unfold items_of. by rewrite !(moved_other _ _ _ _ _ Mv2).
  - eapply (kwp_hold_pending _ t c); [exact I1|by rewrite T1|exact He1|done|].
    intros K2 Htab2 Mv2 I2. apply Hend.
    + unfold kinv. by rewrite (mv_var _ _ _ _ Mv2).
    + by rewrite (mv_tcbs _ _ _ _ Mv2).
    + intros v Hv. by rewrite (mv_var _ _ _ _ Mv2), (mv_var _ _ _ _ Mv1).
    + rewrite Hs. unfold home_of. rewrite (moved_some _ _ _ _ Mv2).
      rewrite (moved_other _ _ _ _ (xStateListItem t) Mv2), Hi1, Hi by apply items_differ. done.
    + rewrite <-M1. destruct (pending_in _ K C) as [Hk _].
      apply (mv_members _ _ _ _ Mv2); [done|done|simpl; by intros <-|].
      intros e1. rewrite He1. by intros [= <-].
    + intros u cu Hu Hne. rewrite <-(O1 u cu) by done.
      destruct (other_items None K t c u cu C Hc Hu Hne) as (? & ? & ? & ?).
      unfold items_of. by rewrite !(moved_other _ _ _ _ _ Mv2).
Qed.
End events.

(** * Priorities

    Priorities: setting them, inheriting them through a mutex and giving them
    back.  A task whose priority changes stays where it is, except that a ready
    task moves to the ready list of its new priority. *)

Section prio.
Context `{Layout} {S : Type} `{ListLaws S}.
Implicit Types K : kernel ktable.

(** Task [t] has become [c']; no other task is concerned. *)
Record repriced (t : Z) (c c' : tcb) K K' : Prop := {
  rc_inv : kinv K';
  rc_tcbs : tcbs K' = <[t := c']> (tcbs K);
  rc_var v : v ≠ uxTopReadyPriority → v ≠ pendsv → var K' v = var K v;
  rc_state : home_of K' (xStateListItem t) =
    if home_of K (xStateListItem t) =? ready (uxPriority c) then ready (uxPriority c')
    else home_of K (xStateListItem t);
  rc_event : home_of K' (xEventListItem t) = home_of K (xEventListItem t);
  rc_others u cu : tcbs K !! u = Some cu → u ≠ t → items_of K' u = items_of K u
}.

(** The priority of a task, whatever list it is in, before it is moved. *)
Lemma kinv_with_tcb lo t c K :
  kinv_from lo (Some t) K → is_Some (tcbs K !! t) → 0 ≤ uxPriority c < 5 → 0 ≤ uxBasePriority c < 5 →
  kinv_from lo (Some t) (with_tcb t c K).
Proof. intros [C [B1 B2] W] ? ? ?. split; [by apply core_tcb|by split|done]. Qed.

Lemma kinv_exempt lo t K : kinv_from lo None K → kinv_from lo (Some t) K.
Proof. intros [C B W]. split; [by apply core_exempt|done|done]. Qed.

Lemma with_tcb_twice t c1 c2 K : with_tcb t c2 (with_tcb t c1 K) = with_tcb t c2 K.
Proof. unfold with_tcb. simpl. by rewrite insert_insert_eq. Qed.

(** The event item follows the priority unless its value is in use. *)
Lemma kwp_event_value lo o t c p (Q : unit → kernel ktable → Prop) K :
  kinv_from lo o K → tcbs K !! t = Some c → 0 ≤ p < 5 →
  (∀ K' e e', table_ok (kmem K') → kinv_from lo o K' → itm K (xEventListItem t) = Some e →
     moved (xEventListItem t) e' K K' → ki_home e' = ki_home e → Q tt K') →
  kwp (set_event_value t p) Q K.
Proof.
  intros I Hc Hp HQ. destruct (event_item o t c K (kv_core _ _ _ I) Hc) as (e & He & _).
  apply kwp_ok. intros Htab. apply kwp_bind. eapply kwp_value; [exact He|]. apply kwp_when; intros Hb.
  - eapply kwp_set_event_value; [exact I|exact Hc|exact He|..].
    + unfold tick_value, portMAX_DELAY. pose proof (u32_range (configMAX_PRIORITIES - p)). lia.
    + intros K' Htab' Mv I'. by eapply HQ.
  - by eapply HQ; [done|done|done|apply moved_refl|].
Qed.

(** [c] has become [c'] and the items of [t] are as they were, but for the value
    of its event item: what is left is to move it if it is ready. *)
Record to_move (t : Z) (c c' : tcb) K K1 : Prop := {
  tm_inv : kinv_from (var K xTickCount + 1) (Some t) K1;
  tm_tcbs : tcbs K1 = <[t := c']> (tcbs K);
  tm_var v : v ≠ uxTopReadyPriority → v ≠ pendsv → var K1 v = var K v;
  tm_state : itm K1 (xStateListItem t) = itm K (xStateListItem t);
  tm_event : home_of K1 (xEventListItem t) = home_of K (xEventListItem t);
  tm_others u cu : tcbs K !! u = Some cu → u ≠ t → items_of K1 u = items_of K u
}.

Lemma others_kept o t c K1 K2 x j u cu :
  core o K1 → tcbs K1 !! t = Some c → tcbs K1 !! u = Some cu → u ≠ t →
  x = xStateListItem t ∨ x = xEventListItem t → moved x j K1 K2 → items_of K2 u = items_of K1 u.
Proof.
  intros C Hc Hu Hne Hx Mv. destruct (other_items o K1 t c u cu C Hc Hu Hne) as (? & ? & ? & ?).
  unfold items_of. destruct Hx as [->| ->]; by rewrite !(moved_other _ _ _ _ _ Mv).
Qed.

(** Moving a ready task. *)
Lemma kwp_move_ready t c c' (Q : unit → kernel ktable → Prop) K K1 :
  kinv K → tcbs K !! t = Some c → to_move t c c' K K1 →
  (∀ K', repriced t c c' K K' → var K' pendsv = var K1 pendsv → Q tt K') →
  kwp (requeue_ready t (uxPriority c)) Q K1.
Proof.
  intros I Hc [I1 T1 V1 S1 E1 O1] HQ. pose proof I as [C _ _]. pose proof I1 as [C1 B1 W1].
  destruct (state_item None t c K C Hc ltac:(done)) as (i & Hi & Ho & Hst & _).
  rewrite Hi in S1. apply kwp_bind, kwp_bind. eapply kwp_container; [exact S1|]. apply kwp_ret.
  assert (tcbs K1 !! t = Some c') as Hc1 by by rewrite T1, lookup_insert_eq.
  destruct (co_task _ _ C t c Hc) as (_ & Hp & _).
  assert (home_of K (xStateListItem t) = ki_home i) as Hhome by (unfold home_of; by rewrite Hi).
  apply kwp_when; intros Hb; rewrite <-Hhome in Hb.
  - pose proof Hb as Hh. apply Z.eqb_eq in Hh. rewrite Hhome in Hh. apply kwp_bind.
    eapply kwp_leave_ready; [exact C1|exact B1|exact S1|exact Hp|exact Hh|].
    intros K2 Htab2 Mv2 C2 B2 Hw2.
    assert (kinv_from (var K xTickCount + 1) (Some t) K2) as I2 by (split; auto).
    assert (tcbs K2 !! t = Some c') as Hc2 by by rewrite (mv_tcbs _ _ _ _ Mv2).
    eapply kwp_make_ready; [exact I2|exact Hc2|by eapply moved_some|done|].
    intros K3 Htab3 Mv3 I3.
    assert (moved (xStateListItem t) (set_home (ready (uxPriority c')) (set_home NULL i)) K1 K3) as Mv
      by (eapply (moved_trans _ (set_home NULL i)); [by left|done..]).
    apply HQ; [|by rewrite (mv_var _ _ _ _ Mv)]. split.
    + unfold kinv. by rewrite (mv_var _ _ _ _ Mv), V1.
    + by rewrite (mv_tcbs _ _ _ _ Mv).
    + intros v ??. by rewrite (mv_var _ _ _ _ Mv), V1.
    + rewrite Hb. unfold home_of. by rewrite (moved_some _ _ _ _ Mv).
    + rewrite <-E1. unfold home_of. rewrite (moved_other _ _ _ _ _ Mv); [done|].
      intros E. symmetry in E. by apply (items_differ t).
    + intros u cu Hu Hne. rewrite <-(O1 u cu) by done.
      eapply (others_kept _ t c' K1 K3); [exact C1|exact Hc1| |done|by left|exact Mv].
      by rewrite T1, lookup_insert_ne.
  - apply HQ; [|done]. split.
    + unfold kinv. rewrite V1 by done. split; [|done|done].
      eapply (core_settled t c'); [exact C1|exact Hc1|exact S1|]. rewrite Hhome in Hb.
      apply Z.eqb_neq in Hb. destruct Hst as [?|Hst]; [done|by right].
    + done.
    + auto.
    + rewrite Hb. unfold home_of. by rewrite S1, Hi.
    + done.
    + done.
Qed.

(** ** [vTaskPrioritySet] *)

Definition reset_priority (new : Z) (c : tcb) : tcb :=
  set_uxBasePriority new
    (if (uxBasePriority c =? uxPriority c) || (uxPriority c <? new) then set_uxPriority new c else c).

(** Whether the running task has to be looked at again. *)
Definition must_yield (t cur : Z) (pc : Z) (new old : Z) : bool :=
  if old <? new then negb (t =? cur) && (pc <? new) else t =? cur.

Lemma kinv_pendsv t c c' v K K' : repriced t c c' K K' → repriced t c c' K (set_var pendsv v K').
Proof.
  intros [I T V A B O]. split; try done; [by apply kinv_var|].
  intros w ??. rewrite set_var_other by auto. auto.
Qed.

Lemma kwp_priority_set t c cc new K :
  kinv K → tcbs K !! t = Some c → tcbs K !! var K pxCurrentTCB = Some cc →
  0 ≤ new < 5 → uxBasePriority c ≠ new →
  kwp (vTaskPrioritySet t new) (λ _ K', repriced t c (reset_priority new c) K K' ∧
    var K' pendsv =
      if must_yield t (var K pxCurrentTCB) (uxPriority cc) new (uxBasePriority c)
      then 1 else var K pendsv) K.
Proof.
  intros I Hc Hcc Hn Hne. pose proof I as [C _ _].
  destruct (co_task _ _ C t c Hc) as (Htn & Hp & Hb & _). pose proof (Z.eqb_neq t NULL) as Ht0.
  unfold vTaskPrioritySet. apply kwp_bind, kwp_assert; [unfold configMAX_PRIORITIES; lia|].
  apply kwp_bind. unfold prvGetTCBFromHandle. rewrite (proj2 Ht0) by done. apply kwp_ret.
  apply kwp_bind, kwp_assert; [by rewrite (proj2 Ht0)|].
  apply kwp_bind, kwp_fmap. eapply kwp_rd_tcb; [exact Hc|].
  rewrite (proj2 (Z.eqb_neq _ _)) by done. apply kwp_bind, kwp_rd, kwp_bind.
  set (y := must_yield t (var K pxCurrentTCB) (uxPriority cc) new (uxBasePriority c)).
  assert (kwp (S := S) (if uxBasePriority c <? new then
      if negb (t =? var K pxCurrentTCB) then
        pc ← uxPriority <$> rd_tcb (var K pxCurrentTCB); mret (pc <? new)
      else mret false
    else mret (t =? var K pxCurrentTCB)) (λ b K', b = y ∧ K' = K) K) as Hy.
  { unfold y, must_yield. destruct (uxBasePriority c <? new); [|by apply kwp_ret].
    destruct (t =? var K pxCurrentTCB); simpl; [by apply kwp_ret|].
    apply kwp_bind, kwp_fmap. eapply kwp_rd_tcb; [exact Hcc|]. by apply kwp_ret. }
  eapply kwp_mono; [exact Hy|]. intros y' K' [-> ->]. clear Hy.
  apply kwp_bind, kwp_fmap. eapply kwp_rd_tcb; [exact Hc|].
  apply kwp_bind. eapply kwp_rd_tcb; [exact Hc|].
  set (c1 := if (uxBasePriority c =? uxPriority c) || (uxPriority c <? new) then set_uxPriority new c else c).
  set (K1 := with_tcb t c1 K).
  assert (kwp (S := S) (when_ ((uxBasePriority c =? uxPriority c) || (uxPriority c <? new))
    (wr_tcb t (set_uxPriority new))) (λ _ K', K' = K1) K) as Hset.
  { unfold K1, c1. apply kwp_when; intros Eb; rewrite Eb; [by eapply kwp_wr_tcb|].
    unfold with_tcb. rewrite insert_id by done. by destruct K. }
  apply kwp_bind. eapply kwp_mono; [exact Hset|]. intros ? K' ->. clear Hset.
  assert (tcbs K1 !! t = Some c1) as Hc1 by (unfold K1; simpl; by rewrite lookup_insert_eq).
  apply kwp_bind. eapply kwp_wr_tcb; [exact Hc1|]. unfold K1. rewrite with_tcb_twice.
  change (set_uxBasePriority new c1) with (reset_priority new c). set (c' := reset_priority new c).
  assert (0 ≤ uxPriority c' < 5 ∧ 0 ≤ uxBasePriority c' < 5) as [Hp' Hb'].
  { unfold c', reset_priority. by case_match. }
  assert (kinv_from (var K xTickCount + 1) (Some t) (with_tcb t c' K)) as I2
    by (apply kinv_with_tcb; [by apply kinv_exempt|by exists c|done|done]).
  apply kwp_bind. eapply (kwp_event_value _ _ t c'); [exact I2|simpl; by rewrite lookup_insert_eq|done|].
  intros K3 e e' Htab3 I3 He Mv Hh.
  assert (to_move t c c' K K3) as TM.
  { split; [done|by rewrite (mv_tcbs _ _ _ _ Mv)|by intros; rewrite (mv_var _ _ _ _ Mv)|..].
    - rewrite (moved_other _ _ _ _ _ Mv); [done|apply items_differ].
    - unfold home_of. rewrite (moved_some _ _ _ _ Mv). change (itm (with_tcb t c' K)) with (itm K) in He.
      rewrite He. simpl. by rewrite Hh.
    - intros u cu Hu Hune. change (items_of K u) with (items_of (with_tcb t c' K) u).
      eapply (others_kept _ t c'); [exact (kv_core _ _ _ I2)|simpl; by rewrite lookup_insert_eq| |done|by right|exact Mv].
      simpl. by rewrite lookup_insert_ne. }
  apply kwp_bind. eapply (kwp_move_ready t c c'); [done|done|exact TM|]. intros K4 R Hpend.
  rewrite (mv_var _ _ _ _ Mv) in Hpend by done. change (var K4 pendsv = var K pendsv) in Hpend.
  apply kwp_when; intros Hyy; [apply kwp_wr|]; (split; [by try apply kinv_pendsv|]); by rewrite ?Hyy.
Qed.

(** ** Mutexes *)

(** A TCB that changes while its task stays where it is. *)
Lemma kinv_tcb_stays lo t c c' K :
  kinv_from lo None K → tcbs K !! t = Some c → 0 ≤ uxPriority c' < 5 → 0 ≤ uxBasePriority c' < 5 →
  uxPriority c' = uxPriority c ∨ home_of K (xStateListItem t) ≠ ready (uxPriority c) →
  kinv_from lo None (with_tcb t c' K).
Proof.
  intros I Hc Hp Hb Hor. pose proof (kv_core _ _ _ I) as C.
  destruct (kinv_with_tcb lo t c' K) as [C' B' W']; [by apply kinv_exempt|by exists c|done|done|].
  split; [|done|done]. destruct (state_item None t c K C Hc ltac:(done)) as (i & Hi & _ & Hst & _).
  eapply (core_settled t c' i); [exact C'|simpl; by rewrite lookup_insert_eq|exact Hi|].
  unfold home_of in Hor. rewrite Hi in Hor. unfold stands in *. destruct Hor as [->|Hor]; [done|].
  destruct Hst as [?|Hst]; [done|by right].
Qed.

Lemma kwp_inherit t c cc K :
  kinv K → tcbs K !! t = Some c → tcbs K !! var K pxCurrentTCB = Some cc →
  kwp (xTaskPriorityInherit t) (λ b K',
    if uxPriority c <? uxPriority cc then
      b = true ∧ repriced t c (set_uxPriority (uxPriority cc) c) K K'
    else b = (uxBasePriority c <? uxPriority cc) ∧ K' = K) K.
Proof.
  intros I Hc Hcc. pose proof I as [C _ _]. destruct (co_task _ _ C t c Hc) as (Htn & Hp & Hb & _).
  destruct (co_task _ _ C _ cc Hcc) as (_ & Hpc & _).
  unfold xTaskPriorityInherit. rewrite (proj2 (Z.eqb_neq t NULL)) by done.
  apply kwp_bind, kwp_rd, kwp_bind, kwp_fmap. eapply kwp_rd_tcb; [exact Hcc|].
  apply kwp_bind. eapply kwp_rd_tcb; [exact Hc|]. apply kwp_if; intros Hlt; rewrite ?Hlt; [|by apply kwp_ret].
  set (c' := set_uxPriority (uxPriority cc) c).
  apply kwp_bind. eapply kwp_event_value; [exact I|exact Hc|exact Hpc|].
  intros K1 e e' Htab1 I1 He Mv Hh. pose proof (kv_core _ _ _ I1) as C1.
  assert (tcbs K1 = tcbs K) as T1 by apply (mv_tcbs _ _ _ _ Mv).
  destruct (state_item None t c K C Hc ltac:(done)) as (i & Hi & _).
  assert (itm K1 (xStateListItem t) = Some i) as Hi1.
  { erewrite moved_other; [exact Hi|exact Mv|apply items_differ]. }
  assert (home_of K1 (xEventListItem t) = home_of K (xEventListItem t)) as Hev.
  { unfold home_of. rewrite (moved_some _ _ _ _ Mv), He. simpl. by rewrite Hh. }
  assert (∀ u cu, tcbs K !! u = Some cu → u ≠ t → items_of K1 u = items_of K u) as O1.
  { intros u cu Hu Hne. by eapply (others_kept None t c K K1); [exact C|exact Hc|exact Hu|done|right|exact Mv]. }
  assert (home_of K1 (xStateListItem t) = ki_home i ∧ home_of K (xStateListItem t) = ki_home i) as [Hh1 Hh0]
    by (unfold home_of; by rewrite Hi1, Hi).
  apply kwp_bind, kwp_bind. eapply kwp_container; [exact Hi1|]. apply kwp_ret, kwp_bind.
  apply kwp_if; intros Hr.
  - apply Z.eqb_eq in Hr. apply kwp_bind.
    eapply kwp_leave_ready; [apply core_exempt; exact C1|apply I1|exact Hi1|exact Hp|exact Hr|].
    intros K2 Htab2 Mv2 C2 B2 Hw2. apply kwp_bind.
    eapply kwp_wr_tcb; [by rewrite (mv_tcbs _ _ _ _ Mv2), T1|]. fold c'.
    assert (kinv_from (var K xTickCount + 1) (Some t) (with_tcb t c' K2)) as I3.
    { apply kinv_with_tcb; [|exists c; by rewrite (mv_tcbs _ _ _ _ Mv2), T1|done|done].
      split; [done|done|apply Hw2, I1]. }
    eapply (kwp_make_ready _ t c'); [exact I3|simpl; by rewrite lookup_insert_eq|
      change (itm (with_tcb t c' K2)) with (itm K2); by eapply moved_some|done|].
    intros K4 Htab4 Mv4 I4. apply kwp_ret. split; [done|].
    assert (∀ v, v ≠ uxTopReadyPriority → var K4 v = var K v) as V4.
    { intros v Hv. rewrite (mv_var _ _ _ _ Mv4) by done.
      change (var K2 v = var K v). by rewrite (mv_var _ _ _ _ Mv2), (mv_var _ _ _ _ Mv). }
    assert (∀ x, x ≠ xStateListItem t → itm K4 x = itm K1 x) as X4.
    { intros x Hx. rewrite (moved_other _ _ _ _ _ Mv4) by done.
      change (itm K2 x = itm K1 x). by rewrite (moved_other _ _ _ _ _ Mv2). }
    split.
    + unfold kinv. by rewrite V4.
    + rewrite (mv_tcbs _ _ _ _ Mv4). simpl. by rewrite (mv_tcbs _ _ _ _ Mv2), T1.
    + auto.
    + rewrite Hh0, Hr, Z.eqb_refl. unfold home_of. by rewrite (moved_some _ _ _ _ Mv4).
    + rewrite <-Hev. unfold home_of. rewrite X4; [done|].
      intros E. symmetry in E. by apply (items_differ t).
    + intros u cu Hu Hne. rewrite <-(O1 u cu) by done. unfold items_of.
      destruct (other_items None K t c u cu C Hc Hu Hne) as (? & _ & ? & _). by rewrite !X4.
  - apply Z.eqb_neq in Hr. eapply kwp_wr_tcb; [by rewrite T1|]. fold c'. apply kwp_ret. split; [done|].
    split.
    + assert (kinv_from (var K xTickCount + 1) None (with_tcb t c' K1)) as I2.
      { eapply kinv_tcb_stays; [exact I1|by rewrite T1|done|done|]. right. by rewrite Hh1. }
      unfold kinv. change (var (with_tcb t c' K1) xTickCount) with (var K1 xTickCount).
      by rewrite (mv_var _ _ _ _ Mv).
    + simpl. by rewrite T1.
    + intros v ??. by apply (mv_var _ _ _ _ Mv).
    + rewrite Hh0, (proj2 (Z.eqb_neq _ _)) by done. exact Hh1.
    + exact Hev.
    + exact O1.
Qed.

(** The running task gives a mutex back. *)
Definition gave_back (c : tcb) : tcb :=
  let n := uxMutexesHeld c - 1 in
  let c1 := set_uxMutexesHeld n c in
  if negb (uxPriority c =? uxBasePriority c) && (n =? 0) then set_uxPriority (uxBasePriority c) c1 else c1.

Lemma kwp_disinherit c K :
  kinv K → is_ready K (var K pxCurrentTCB) c → 0 < uxMutexesHeld c < 4294967296 →
  kwp (xTaskPriorityDisinherit (var K pxCurrentTCB)) (λ b K',
    b = negb (uxPriority c =? uxBasePriority c) && (uxMutexesHeld c =? 1) ∧
    repriced (var K pxCurrentTCB) c (gave_back c) K K') K.
Proof.
  intros I Hr Hm. pose proof I as [C _ _]. pose proof Hr as [Hc Hh]. set (t := var K pxCurrentTCB) in *.
  destruct (co_task _ _ C t c Hc) as (Htn & Hp & Hb & _).
  destruct (is_ready_item K t c C Hr) as (i & Hi & Hhi).
  unfold xTaskPriorityDisinherit. rewrite (proj2 (Z.eqb_neq t NULL)) by done.
  apply kwp_bind, kwp_rd. fold t. apply kwp_bind, kwp_assert; [apply Z.eqb_refl|].
  apply kwp_bind, kwp_fmap. eapply kwp_rd_tcb; [exact Hc|].
  apply kwp_bind, kwp_assert; [apply negb_true_iff, Z.eqb_neq; lia|].
  apply kwp_bind. eapply kwp_wr_tcb; [exact Hc|]. rewrite u32_id by lia.
  set (c1 := set_uxMutexesHeld (uxMutexesHeld c - 1) c). set (K1 := with_tcb t c1 K).
  assert (tcbs K1 !! t = Some c1) as Hc1 by (unfold K1; simpl; by rewrite lookup_insert_eq).
  assert (kinv_from (var K xTickCount + 1) None K1) as I1
    by (eapply kinv_tcb_stays; [exact I|exact Hc|done|done|by left]).
  apply kwp_bind. eapply kwp_rd_tcb; [exact Hc1|].
  assert ((uxMutexesHeld c =? 1) = (uxMutexesHeld c - 1 =? 0)) as -> by
    (destruct (Z.eqb_spec (uxMutexesHeld c) 1), (Z.eqb_spec (uxMutexesHeld c - 1) 0); lia).
  change (uxPriority c1) with (uxPriority c). change (uxBasePriority c1) with (uxBasePriority c).
  change (uxMutexesHeld c1) with (uxMutexesHeld c - 1).
  unfold gave_back. apply kwp_if; intros Hg; rewrite Hg.
  - set (c' := set_uxPriority (uxBasePriority c) c1). pose proof (kv_core _ _ _ I1) as C1.
    apply kwp_bind. eapply kwp_leave_ready; [apply core_exempt; exact C1|apply I1|exact Hi|exact Hp|exact Hhi|].
    intros K2 Htab2 Mv2 C2 B2 Hw2. apply kwp_bind.
    eapply kwp_wr_tcb; [by rewrite (mv_tcbs _ _ _ _ Mv2)|]. fold c'.
    assert (kinv_from (var K xTickCount + 1) (Some t) (with_tcb t c' K2)) as I3.
    { apply kinv_with_tcb; [|exists c1; by rewrite (mv_tcbs _ _ _ _ Mv2)|done|done].
      split; [done|done|apply Hw2, I1]. }
    set (K3 := with_tcb t c' K2) in *.
    assert (tcbs K3 !! t = Some c') as Hc3 by (unfold K3; simpl; by rewrite lookup_insert_eq).
    destruct (event_item _ t c' K3 (kv_core _ _ _ I3) Hc3) as (e & He & _).
    apply kwp_bind. eapply kwp_set_event_value; [exact I3|exact Hc3|exact He|..].
    { unfold tick_value, portMAX_DELAY. pose proof (u32_range (configMAX_PRIORITIES - uxBasePriority c)). lia. }
    intros K4 Htab4 Mv4 I4.
    assert (itm K4 (xStateListItem t) = Some (set_home NULL i)) as Hi4.
    { rewrite (moved_other _ _ _ _ _ Mv4) by apply items_differ.
      change (itm K2 (xStateListItem t) = Some (set_home NULL i)). by eapply moved_some. }
    apply kwp_bind. eapply (kwp_make_ready _ t c'); [exact I4|by rewrite (mv_tcbs _ _ _ _ Mv4)|exact Hi4|done|].
    intros K5 Htab5 Mv5 I5. apply kwp_ret. split; [done|].
    assert (∀ v, v ≠ uxTopReadyPriority → var K5 v = var K v) as V5.
    { intros v Hv. rewrite (mv_var _ _ _ _ Mv5), (mv_var _ _ _ _ Mv4) by done.
      change (var K2 v = var K v). by rewrite (mv_var _ _ _ _ Mv2). }
    assert (∀ x, x ≠ xStateListItem t → x ≠ xEventListItem t → itm K5 x = itm K x) as X5.
    { intros x Hx Hx'. rewrite (moved_other _ _ _ _ _ Mv5), (moved_other _ _ _ _ _ Mv4) by done.
      change (itm K2 x = itm K x). by rewrite (moved_other _ _ _ _ _ Mv2). }
    assert (xEventListItem t ≠ xStateListItem t) as Hne by (intros E; by apply (items_differ t)).
    split.
    + unfold kinv. by rewrite V5.
    + rewrite (mv_tcbs _ _ _ _ Mv5), (mv_tcbs _ _ _ _ Mv4). unfold K3. simpl.
      rewrite (mv_tcbs _ _ _ _ Mv2). unfold K1. simpl. by rewrite insert_insert_eq.
    + auto.
    + rewrite Hh, Z.eqb_refl. unfold home_of. by rewrite (moved_some _ _ _ _ Mv5).
    + unfold home_of. rewrite (moved_other _ _ _ _ _ Mv5), (moved_some _ _ _ _ Mv4) by done.
      change (itm K3 (xEventListItem t)) with (itm K2 (xEventListItem t)) in He.
      rewrite (moved_other _ _ _ _ _ Mv2) in He by done.
      change (itm K1 (xEventListItem t)) with (itm K (xEventListItem t)) in He. by rewrite He.
    + intros u cu Hu Hune. unfold items_of.
      destruct (other_items None K t c u cu C Hc Hu Hune) as (? & ? & ? & ?). by rewrite !X5.
  - apply kwp_ret. split; [done|]. split; try done.
    rewrite Hh, Z.eqb_refl. done.
Qed.
End prio.
