(* ===== verification/KernelLife.v ===== *)
(** The life of a task, and its notifications. *)
From stdpp Require Import base tactics numbers list gmap sorting.
From S2P Require Import Prelude Words Sched KList KListThm KListRefine Kernel KernelApi KernelInv KernelMoves KernelTick KernelResume KernelPrio.

(** * Life

    The life of a task: creation, suspension, resumption, deletion, and the
    state [eTaskGetState] reports. *)

Section life.
Context `{Layout} {S : Type} `{ListLaws S}.
Implicit Types K : kernel ktable.

(** ** Changing only next wake-up time, flags and notification states *)

Lemma kwp_reset_next_inv (Q : unit → kernel ktable → Prop) K :
  kinv K → (∀ n, kinv (set_var xNextTaskUnblockTime n K) → Q tt (set_var xNextTaskUnblockTime n K)) →
  kwp prvResetNextTaskUnblockTime Q K.
Proof.
  intros [C B W] HQ. eapply (kwp_reset_next (var K xTickCount + 1)); [exact C| |].
  - intros x i Hi. destruct (W x i Hi) as [HD HO]. split; [|done]. intros Hh. by apply HD.
  - intros n Cn Wn. apply HQ. split; [done|by destruct B; split|done].
Qed.

(** The notification a task waited for is no longer waited for. *)
Definition stop_waiting (c : tcb) : tcb :=
  set_ucNotifyState
    ((λ x, if bool_decide (x = taskWAITING_NOTIFICATION) then taskNOT_WAITING_NOTIFICATION else x)
       <$> ucNotifyState c) c.

Lemma stop_waiting_waits c : waits_notification (stop_waiting c) = false.
Proof.
  unfold waits_notification, stop_waiting. simpl. induction (ucNotifyState c) as [|x l IH]; [done|].
  destruct x; exact IH.
Qed.

(** ** [vTaskSuspend] *)

(** Task [t] with state item in [L] and in no event list. *)
Record parked (t : Z) (c' : tcb) (L : Z) K K' : Prop := {
  pk_inv : kinv K';
  pk_tcbs : tcbs K' = <[t := c']> (tcbs K);
  pk_state : home_of K' (xStateListItem t) = L;
  pk_event : home_of K' (xEventListItem t) = NULL;
  pk_var v : tracked v = false → v ≠ pendsv → var K' v = var K v;
  pk_current : var K' pxCurrentTCB = var K pxCurrentTCB;
  pk_others u cu : tcbs K !! u = Some cu → u ≠ t → items_of K' u = items_of K u
}.

(** Out of every list, up to the last step. *)
Lemma kwp_unlist t c (Q : unit → kernel ktable → Prop) K :
  kinv K → tcbs K !! t = Some c →
  (∀ K1 i e, table_ok (kmem K1) → kinv_from (var K xTickCount + 1) (Some t) K1 →
     tcbs K1 = tcbs K → (∀ v, v ≠ uxTopReadyPriority → var K1 v = var K v) →
     itm K1 (xStateListItem t) = Some i → ki_home i = NULL →
     itm K1 (xEventListItem t) = Some e → ki_home e = NULL →
     (∀ u cu, tcbs K !! u = Some cu → u ≠ t → items_of K1 u = items_of K u) → Q tt K1) →
  kwp (leave_state_list t;; leave_event_list t) Q K.
Proof.
  intros I Hc HQ. pose proof I as [C B W].
  destruct (state_item None t c K C Hc ltac:(done)) as (i & Hi & _).
  destruct (event_item None t c K C Hc) as (e & He & _).
  apply kwp_bind. eapply kwp_leave_state_list; [exact C|exact B|exact Hc|exact Hi|].
  intros K1 Htab1 Mv1 C1 B1 Hw1.
  assert (tcbs K1 !! t = Some c) as Hc1 by by rewrite (mv_tcbs _ _ _ _ Mv1).
  assert (itm K1 (xEventListItem t) = Some e) as He1.
  { erewrite moved_other; [exact He|exact Mv1|]. intros E. symmetry in E. by apply (items_differ t). }
  eapply (kwp_leave_event_list _ (Some t)); [split; [exact C1|exact B1|by apply Hw1]|exact Hc1|exact He1|].
  intros K2 Htab2 Mv2 I2. eapply HQ; [done|exact I2|..].
  - by rewrite (mv_tcbs _ _ _ _ Mv2), (mv_tcbs _ _ _ _ Mv1).
  - intros v Hv. by rewrite (mv_var _ _ _ _ Mv2), (mv_var _ _ _ _ Mv1).
  - rewrite (moved_other _ _ _ _ _ Mv2) by apply items_differ. by eapply moved_some.
  - done.
  - by eapply moved_some.
  - done.
  - intros u cu Hu Hne. destruct (other_items None K t c u cu C Hc Hu Hne) as (? & ? & ? & ?).
    unfold items_of. by rewrite !(moved_other _ _ _ _ _ Mv2), !(moved_other _ _ _ _ _ Mv1).
Qed.

Lemma kwp_handle (Q : Z → kernel ktable → Prop) t K :
  t ≠ NULL → Q t K → kwp (prvGetTCBFromHandle t) Q K.
Proof.
  intros Ht HQ. unfold prvGetTCBFromHandle. rewrite (proj2 (Z.eqb_neq _ _)) by done. by apply kwp_ret.
Qed.

Lemma kwp_seq {A} (m1 : M (kernel S) unit) (m2 : M (kernel S) unit) (f : M (kernel S) A)
    (Q : A → kernel ktable → Prop) K :
  kwp (m1;; m2) (λ _ K', kwp f Q K') K → kwp (m1;; m2;; f) Q K.
Proof. intros Hm. by apply (kwp_assoc m1 (λ _, m2) (λ _, f)), kwp_bind. Qed.

Lemma kwp_suspend t c K :
  kinv K → tcbs K !! t = Some c → var K xSchedulerRunning ≠ 0 → var K uxSchedulerSuspended = 0 →
  kwp (vTaskSuspend t) (λ _ K', parked t (stop_waiting c) xSuspendedTaskList K K' ∧
    var K' pendsv = if t =? var K pxCurrentTCB then 1 else var K pendsv) K.
Proof.
  intros I Hc Hrun Hs. pose proof I as [C B W]. destruct (co_task _ _ C t c Hc) as (Htn & Hp & Hb & _).
  unfold vTaskSuspend. apply kwp_bind, kwp_handle; [done|].
  apply kwp_bind, kwp_assert; [by apply negb_true_iff, Z.eqb_neq|].
  apply kwp_seq. eapply kwp_unlist; [exact I|exact Hc|].
  intros K1 i e Htab1 I1 T1 V1 Hi1 Hhi He1 Hhe O1.
  assert (tcbs K1 !! t = Some c) as Hc1 by by rewrite T1.
  apply kwp_bind. eapply kwp_store_item; [exact I1|exact Hc1|exact Hi1|exact Hhi|by right|].
  intros K2 Htab2 Mv2 Ev2 I2. apply kwp_bind.
  eapply kwp_wr_tcb; [by rewrite (mv_tcbs _ _ _ _ Mv2)|]. fold (stop_waiting c).
  set (K3 := with_tcb t (stop_waiting c) K2).
  assert (kinv K3) as I3.
  { unfold kinv. change (var K3 xTickCount) with (var K2 xTickCount).
    rewrite (mv_var _ _ _ _ Mv2), V1 by done.
    eapply kinv_tcb_stays; [exact I2|by rewrite (mv_tcbs _ _ _ _ Mv2)|done|done|by left]. }
  assert (var K3 xSchedulerRunning = var K xSchedulerRunning) as Erun
    by (change (var K2 xSchedulerRunning = var K xSchedulerRunning); by rewrite (mv_var _ _ _ _ Mv2), V1).
  apply kwp_bind, kwp_rd. rewrite Erun. rewrite (proj2 (Z.eqb_neq _ 0)) by done. simpl.
  apply kwp_bind, kwp_reset_next_inv; [done|]. intros n I4. set (K4 := set_var xNextTaskUnblockTime n K3) in *.
  assert (∀ v, v ≠ uxTopReadyPriority → v ≠ xNextTaskUnblockTime → var K4 v = var K v) as V4.
  { intros v ??. unfold K4. rewrite set_var_other by auto. change (var K2 v = var K v).
    by rewrite (mv_var _ _ _ _ Mv2), V1. }
  assert (parked t (stop_waiting c) xSuspendedTaskList K K4) as Pk.
  { split; [done|..].
    - change (<[t := stop_waiting c]> (tcbs K2) = <[t := stop_waiting c]> (tcbs K)).
      by rewrite (mv_tcbs _ _ _ _ Mv2), T1.
    - change (home_of K2 (xStateListItem t) = xSuspendedTaskList).
      unfold home_of. by rewrite (moved_some _ _ _ _ Mv2).
    - change (home_of K2 (xEventListItem t) = NULL). unfold home_of.
      rewrite (moved_other _ _ _ _ _ Mv2), He1; [done|]. intros E. symmetry in E. by apply (items_differ t).
    - intros v Hv ?. by apply V4; intros ->.
    - by apply V4.
    - intros u cu Hu Hne. change (items_of K2 u = items_of K u). rewrite <-(O1 u cu) by done.
      eapply (others_kept _ t c K1 K2); [exact (kv_core _ _ _ I1)|exact Hc1|by rewrite T1|done|by left|exact Mv2]. }
  apply kwp_bind, kwp_rd. rewrite V4 by done. apply kwp_when; intros Ht.
  - apply kwp_bind, kwp_rd. rewrite V4 by done. rewrite (proj2 (Z.eqb_neq _ 0)) by done. simpl.
    apply kwp_bind, kwp_rd, kwp_bind, kwp_assert; [rewrite V4, Hs; done|]. apply kwp_wr.
    split; [|by rewrite Ht]. destruct Pk as [P1 P2 P3 P4 P5 P6 P7]. split; try done; [by apply kinv_var|].
    intros v Hv Hv'. rewrite set_var_other by auto. by apply P5.
  - split; [done|]. rewrite Ht. by apply V4.
Qed.

(** ** [vTaskResume] *)

(** Suspended by [vTaskSuspend], not waiting. *)
Definition is_suspended K (t : Z) (c : tcb) : bool :=
  (home_of K (xStateListItem t) =? xSuspendedTaskList) && (home_of K (xEventListItem t) =? NULL) &&
  negb (waits_notification c).

Lemma kwp_is_suspended t c (Q : bool → kernel ktable → Prop) K :
  kinv K → tcbs K !! t = Some c → Q (is_suspended K t c) K → kwp (prvTaskIsTaskSuspended t) Q K.
Proof.
  intros I Hc HQ. pose proof I as [C _ _]. destruct (co_task _ _ C t c Hc) as (Htn & _).
  destruct (state_item None t c K C Hc ltac:(done)) as (i & Hi & _).
  destruct (event_item None t c K C Hc) as (e & He & _).
  apply kwp_ok. intros Htab. destruct (pending_in _ K C) as [_ HLp].
  pose proof (list_not_null K Htab _ HLp) as Hpn.
  unfold is_suspended, home_of in HQ. rewrite Hi, He in HQ. simpl in HQ.
  unfold prvTaskIsTaskSuspended. apply kwp_bind, kwp_assert; [by apply negb_true_iff, Z.eqb_neq|].
  apply kwp_bind. eapply kwp_container; [exact Hi|]. apply kwp_if; intros Hs; rewrite Hs in HQ; [|by apply kwp_ret].
  apply kwp_bind. eapply kwp_container; [exact He|]. apply kwp_if; intros Hep.
  - apply Z.eqb_eq in Hep. apply kwp_ret. rewrite Hep, (proj2 (Z.eqb_neq _ _)) in HQ by done. exact HQ.
  - apply kwp_if; intros Hen; rewrite Hen in HQ; [|by apply kwp_ret].
    apply kwp_fmap, kwp_fmap. by eapply kwp_rd_tcb.
Qed.

(** A yield if [t] is more important than the running task. *)
Lemma kwp_yield_any t c cc (Q : unit → kernel ktable → Prop) K :
  tcbs K !! t = Some c → tcbs K !! var K pxCurrentTCB = Some cc →
  Q tt (if uxPriority cc <? uxPriority c then set_var pendsv 1 K else K) →
  kwp (taskYIELD_ANY_CORE_IF_USING_PREEMPTION t) Q K.
Proof.
  intros Hc Hcc HQ. apply kwp_bind, kwp_rd, kwp_bind, kwp_fmap. eapply kwp_rd_tcb; [exact Hcc|].
  apply kwp_bind, kwp_fmap. eapply kwp_rd_tcb; [exact Hc|].
  apply kwp_when; intros Hb; rewrite Hb in HQ; [by apply kwp_wr|done].
Qed.

Lemma parked_pendsv t c L v K K' : parked t c L K K' → parked t c L K (set_var pendsv v K').
Proof.
  intros [P1 P2 P3 P4 P5 P6 P7]. split; try done; [by apply kinv_var|].
  intros w Hw Hw'. rewrite set_var_other by auto. by apply P5.
Qed.

Lemma kwp_task_resume t c cc K :
  kinv K → tcbs K !! t = Some c → tcbs K !! var K pxCurrentTCB = Some cc → t ≠ var K pxCurrentTCB →
  kwp (vTaskResume t) (λ _ K',
    if is_suspended K t c then
      parked t c (ready (uxPriority c)) K K' ∧
      var K' pendsv = if uxPriority cc <? uxPriority c then 1 else var K pendsv
    else K' = K) K.
Proof.
  intros I Hc Hcc Hne. pose proof I as [C B W]. destruct (co_task _ _ C t c Hc) as (Htn & _).
  destruct (state_item None t c K C Hc ltac:(done)) as (i & Hi & _).
  unfold vTaskResume. apply kwp_bind, kwp_assert; [by apply negb_true_iff, Z.eqb_neq|].
  apply kwp_bind, kwp_rd. rewrite (proj2 (Z.eqb_neq _ _)) by done. simpl.
  apply kwp_bind. eapply kwp_is_suspended; [exact I|exact Hc|].
  apply kwp_when; intros Hsus; rewrite ?Hsus; [|done].
  assert (home_of K (xEventListItem t) = NULL) as Hev
    by (apply Z.eqb_eq; by apply andb_true_iff in Hsus as [[_ ?]%andb_true_iff _]).
  apply kwp_bind. eapply (kwp_to_ready _ t c i); [exact I|exact Hc|exact Hi|].
  intros K1 Htab1 Mv1 I1.
  assert (parked t c (ready (uxPriority c)) K K1) as Pk.
  { split.
    - unfold kinv. by rewrite (mv_var _ _ _ _ Mv1).
    - by rewrite (mv_tcbs _ _ _ _ Mv1), insert_id.
    - unfold home_of. by rewrite (moved_some _ _ _ _ Mv1).
    - rewrite <-Hev. unfold home_of. rewrite (moved_other _ _ _ _ _ Mv1); [done|].
      intros E. symmetry in E. by apply (items_differ t).
    - intros v Hv _. apply (mv_var _ _ _ _ Mv1). by intros ->.
    - by rewrite (mv_var _ _ _ _ Mv1).
    - intros u cu Hu Hune. by eapply (others_kept None t c K K1); [exact C|exact Hc|exact Hu|done|left|exact Mv1]. }
  eapply (kwp_yield_any t c cc); [by rewrite (mv_tcbs _ _ _ _ Mv1)|
    by rewrite (mv_var _ _ _ _ Mv1), (mv_tcbs _ _ _ _ Mv1)|].
  case_match; (split; [by try apply parked_pendsv|]); [done|]. by rewrite (mv_var _ _ _ _ Mv1).
Qed.

(** ** [eTaskGetState] *)

(** What the answer means. *)
Definition state_means K (t : Z) (c : tcb) (r : eTaskState) : Prop :=
  match r with
  | eRunning => t = var K pxCurrentTCB
  | eReady => is_ready K t c ∨ home_of K (xEventListItem t) = xPendingReadyList
  | eBlocked =>
      (∃ w, wait_left K t = Some w) ∨
      home_of K (xStateListItem t) = xSuspendedTaskList ∧
      (home_of K (xEventListItem t) ≠ NULL ∨ waits_notification c = true)
  | eSuspended =>
      home_of K (xStateListItem t) = xSuspendedTaskList ∧ home_of K (xEventListItem t) = NULL ∧
      waits_notification c = false
  | eDeleted => home_of K (xStateListItem t) = xTasksWaitingTermination
  | eInvalid => False
  end.

Lemma kwp_get_state t c K :
  kinv K → tcbs K !! t = Some c → kwp (eTaskGetState t) (λ r K', K' = K ∧ state_means K t c r) K.
Proof.
  intros I Hc. pose proof I as [C _ _]. destruct (co_task _ _ C t c Hc) as (Htn & Hp & _).
  destruct (state_item None t c K C Hc ltac:(done)) as (i & Hi & _ & Hst & HLi & _).
  destruct (event_item None t c K C Hc) as (e & He & _). apply kwp_ok. intros Htab.
  assert (home_of K (xStateListItem t) = ki_home i ∧ home_of K (xEventListItem t) = ki_home e) as [Eh Ee]
    by (unfold home_of; by rewrite Hi, He).
  unfold eTaskGetState. apply kwp_bind, kwp_assert; [by apply negb_true_iff, Z.eqb_neq|].
  apply kwp_bind, kwp_rd. apply kwp_if; intros Hq1; [by apply kwp_ret; split; [|apply Z.eqb_eq]|].
  apply kwp_bind. eapply kwp_container; [exact Hi|]. apply kwp_bind. eapply kwp_container; [exact He|].
  apply kwp_bind, kwp_rd, kwp_bind, kwp_rd.
  apply kwp_if; intros Hq2; [apply kwp_ret; split; [done|]; right; rewrite Ee; by apply Z.eqb_eq|].
  apply kwp_if; intros Hq3.
  { apply kwp_ret. split; [done|]. left. unfold wait_left. rewrite Hi. simpl.
    apply orb_true_iff in Hq3 as [Hq3|Hq3]; rewrite Hq3; [by eexists|case_match; by eexists]. }
  apply orb_false_iff in Hq3 as [Hq3%Z.eqb_neq Hq3'%Z.eqb_neq].
  apply kwp_if; intros Hq4.
  { apply Z.eqb_eq in Hq4. apply kwp_if; intros Hq5.
    - apply Z.eqb_eq in Hq5. apply kwp_bind, kwp_fmap. eapply kwp_rd_tcb; [exact Hc|]. apply kwp_ret.
      split; [done|]. destruct (waits_notification c) eqn:Hw; simpl; rewrite Eh, Ee; [right|]; auto.
    - apply Z.eqb_neq in Hq5. apply kwp_ret. split; [done|]. right. rewrite Eh, Ee. auto. }
  apply Z.eqb_neq in Hq4. apply kwp_if; intros Hq6; apply kwp_ret; (split; [done|]); simpl.
  - apply orb_true_iff in Hq6 as [Hq6%Z.eqb_eq|Hq6%Z.eqb_eq]; [congruence|].
    by destruct (list_not_null K Htab _ HLi).
  - apply orb_false_iff in Hq6 as [Hq6%Z.eqb_neq _]. left. split; [done|]. rewrite Eh.
    destruct Hst as [?|[?|[?|[?|?]]]]; try done;
      destruct (co_delayed _ _ C) as [[E1 E2]|[E1 E2]]; congruence.
Qed.

(** ** Creation *)

(** Memory that no task, item or list uses. *)
Definition fresh_tcb K (t : Z) : Prop :=
  t ≠ NULL ∧ tcbs K !! t = None ∧
  (∀ x, x = xStateListItem t ∨ x = xEventListItem t → itm K x = None ∧ kt_lists (kmem K) !! (x - 8) = None).

Definition new_tcb (p : Z) : tcb := set_uxBasePriority p (set_uxPriority p zero_tcb).

(** The kernel with the new task in no list. *)
Record introduced (t p : Z) K K1 : Prop := {
  in_tcbs : tcbs K1 = <[t := new_tcb p]> (tcbs K);
  in_var : var K1 = var K;
  in_lists : kt_lists (kmem K1) = kt_lists (kmem K);
  in_itm x : itm K1 x =
    if decide (x = xStateListItem t) then Some (KI 0 t NULL)
    else if decide (x = xEventListItem t) then Some (KI (u32 (configMAX_PRIORITIES - p)) t NULL)
    else itm K x
}.

Lemma itm_zero x K y : itm (act (CZero x) K) y = if decide (y = x) then Some (KI 0 0 NULL) else itm K y.
Proof.
  unfold itm. simpl. case_decide as E; [subst; by rewrite lookup_insert_eq|by rewrite lookup_insert_ne].
Qed.
Lemma itm_set_owner x o K y :
  itm (act (CSetOwner x o) K) y = if decide (y = x) then set_kowner o <$> itm K x else itm K y.
Proof.
  unfold itm. simpl. case_decide as E; [subst; by rewrite lookup_alter_eq|by rewrite lookup_alter_ne].
Qed.

Lemma kwp_introduce t p (Q : unit → kernel ktable → Prop) K :
  fresh_tcb K t → 0 ≤ p < 5 → (∀ K1, introduced t p K K1 → Q tt K1) →
  kwp (memset_tcb t;; prvInitialiseNewTask p t) Q K.
Proof.
  intros (Htn & Hnew & Hfree) Hp HQ. pose proof (items_differ t) as Hd.
  destruct (Hfree (xStateListItem t)) as [Hs1 Hs2]; [by left|].
  destruct (Hfree (xEventListItem t)) as [He1 He2]; [by right|].
  unfold memset_tcb. apply kwp_bind, kwp_bind, kwp_zero; [by left|].
  set (K1 := act (CZero (xStateListItem t)) K).
  apply kwp_bind, kwp_zero.
  { left. split; [|done]. change (itm K1 (xEventListItem t) = None). unfold K1.
    rewrite itm_zero. by rewrite decide_False by auto. }
  set (K2 := act (CZero (xEventListItem t)) K1). apply kwp_new_tcb.
  set (K3 := with_tcb t zero_tcb K2).
  unfold prvInitialiseNewTask. apply kwp_bind, kwp_assert; [unfold configMAX_PRIORITIES; lia|].
  apply kwp_bind. eapply kwp_wr_tcb; [unfold K3; simpl; by rewrite lookup_insert_eq|].
  apply kwp_bind. eapply kwp_wr_tcb; [simpl; by rewrite lookup_insert_eq|].
  change (set_uxBasePriority p (set_uxPriority p zero_tcb)) with (new_tcb p). unfold K3.
  rewrite !with_tcb_twice. set (K4 := with_tcb t (new_tcb p) K2).
  assert (∀ x, itm K4 x = if decide (x = xEventListItem t) then Some (KI 0 0 NULL)
    else if decide (x = xStateListItem t) then Some (KI 0 0 NULL) else itm K x) as X4.
  { intros x. change (itm K4 x) with (itm K2 x). unfold K2. rewrite itm_zero. case_decide; [done|].
    unfold K1. by rewrite itm_zero. }
  assert (itm K4 (xStateListItem t) = Some (KI 0 0 NULL)) as Hs4
    by (rewrite X4, decide_False, decide_True by auto; done).
  assert (itm K4 (xEventListItem t) = Some (KI 0 0 NULL)) as He4 by by rewrite X4, decide_True.
  apply kwp_bind. eapply kwp_initialise_item; [exact Hs4|done|].
  apply kwp_bind. eapply kwp_initialise_item; [exact He4|done|].
  apply kwp_bind, kwp_set_owner; [by eexists|]. set (K5 := act (CSetOwner (xStateListItem t) t) K4).
  assert (itm K5 (xEventListItem t) = Some (KI 0 0 NULL)) as He5
    by (unfold K5; rewrite itm_set_owner, decide_False by auto; done).
  apply kwp_bind, kwp_set_value; [by eexists| |].
  { unfold tick_value, portMAX_DELAY. pose proof (u32_range (configMAX_PRIORITIES - p)). lia. }
  set (K6 := act (CSetValue (xEventListItem t) _) K5).
  assert (itm K6 (xEventListItem t) = Some (KI (u32 (configMAX_PRIORITIES - p)) 0 NULL)) as He6
    by (unfold K6; rewrite itm_set_value, decide_True, He5 by done; done).
  apply kwp_set_owner; [by eexists|]. apply HQ. split; [done|done|done|].
  intros x. rewrite itm_set_owner. case_decide as E1.
  { subst x. by rewrite He6, (decide_False (P := xEventListItem t = xStateListItem t)) by auto. }
  unfold K6. rewrite itm_set_value. rewrite decide_False by done. unfold K5. rewrite itm_set_owner.
  case_decide as E2; [subst x; by rewrite Hs4|]. by rewrite X4, !decide_False by done.
Qed.

Lemma members_same K K' L : kt_lists (kmem K') = kt_lists (kmem K) → members K' L = members K L.
Proof. unfold members. by intros ->. Qed.

Lemma introduced_inv t p K K1 :
  kinv K → table_ok (kmem K) → fresh_tcb K t → 0 ≤ p < 5 →
  2 * (Z.of_nat (size (tcbs K)) + 1) < 4294967290 → introduced t p K K1 →
  kinv_from (var K xTickCount + 1) (Some t) K1.
Proof.
  intros [C [B1 B2] W] Htab (Htn & Hnew & Hfree) Hp Hsize [T V L X].
  destruct C as [C1 C2 C3 C4 C5 C6 C7 C8]. pose proof (items_differ t) as Hd.
  assert (∀ L', has_list K1 L' ↔ has_list K L') as HL by (intros L'; unfold has_list; by rewrite L).
  assert (∀ x i, itm K1 x = Some i → ki_home i ≠ NULL → itm K x = Some i) as Hold.
  { intros x i. rewrite X. repeat case_decide; [| |done]; intros [= <-] Hn; by destruct Hn. }
  assert (∀ x i, itm K x = Some i → itm K1 x = Some i) as Hkeep.
  { intros x i Hi. rewrite X. case_decide as E1; [subst|case_decide as E2; [subst|done]].
    - destruct (Hfree (xStateListItem t)) as [Hs _]; [by left|]. congruence.
    - destruct (Hfree (xEventListItem t)) as [Hs _]; [by right|]. congruence. }
  assert (∀ u, is_Some (tcbs K !! u) → is_Some (tcbs K1 !! u)) as Hin
    by (intros u [cu Hu]; rewrite T; apply lookup_insert_is_Some; destruct (decide (t = u)); eauto).
  assert (∀ L', L' ∈ klists → L' ≠ NULL) as Hkn
    by (intros L' HL'; apply (list_not_null K Htab), C1, HL').
  assert (∀ x i L', itm K1 x = Some i → ki_home i = L' → L' ∈ klists → itm K x = Some i) as Hold'
    by (intros x i L' Hi <- HL'; apply Hold; [done|by apply Hkn]).
  assert (var K pxDelayedTaskList ∈ klists ∧ var K pxOverflowDelayedTaskList ∈ klists) as [HD HO]
    by (unfold klists; rewrite !elem_of_cons; destruct C2 as [[-> ->]|[-> ->]]; tauto).
  split; [split| |].
  - intros L' HL'. by apply HL, C1.
  - by rewrite V.
  - rewrite T, map_size_insert, Hnew. simpl. lia.
  - intros u cu. rewrite T. intros [[<- <-]|[Hne Hu]]%lookup_insert_Some.
    + do 3 (split; [done|]). split.
      * exists (KI 0 t NULL). rewrite X, decide_True by done. done.
      * exists (KI (u32 (configMAX_PRIORITIES - p)) t NULL).
        rewrite X, decide_False, decide_True by auto. done.
    + destruct (C4 u cu Hu) as (? & ? & ? & (i & Hi & Ho & Hs) & (e & He & Heo)).
      do 3 (split; [done|]). split; [exists i|exists e]; auto.
  - intros x i Hi Hh. pose proof (Hold x i Hi Hh) as Hi'. destruct (C5 x i Hi' Hh) as (? & ? & ?).
    split; [by apply HL|]. split; [by apply Hin|done].
  - intros L' HL'. rewrite (members_same K K1) by done. apply (in_order_ext (value_of K)); [|by apply C6].
    intros y Hy. destruct (member_item K Htab y L' Hy) as (i & Hi & _).
    by rewrite !value_of_itm, Hi, (Hkeep y i Hi).
  - by rewrite V.
  - rewrite V. by apply Hin.
  - split; rewrite V; [done|]. intros q Hq. rewrite (B2 q Hq).
    split; intros (x & i & Hi & Hh); exists x, i; (split; [|done]); [by apply Hkeep|].
    eapply Hold'; [done|done|by apply ready_in].
  - intros x i Hi. rewrite V. split; intros Hh; apply (W x i); try done; by eapply Hold'.
Qed.

(** Who runs, and whether a switch is asked for, when [t] has been made. *)
Record created (t p pc : Z) K K' : Prop := {
  cr_inv : kinv K';
  cr_tcbs : tcbs K' = <[t := new_tcb p]> (tcbs K);
  cr_ready : is_ready K' t (new_tcb p);
  cr_event : home_of K' (xEventListItem t) = NULL;
  cr_number : var K' uxCurrentNumberOfTasks = u32 (var K uxCurrentNumberOfTasks + 1);
  cr_current : var K' pxCurrentTCB =
    if (var K xSchedulerRunning =? 0) && (pc <=? p) then t else var K pxCurrentTCB;
  cr_pendsv : var K' pendsv =
    if negb (var K xSchedulerRunning =? 0) && (pc <? p) then 1 else var K pendsv;
  cr_others u cu : tcbs K !! u = Some cu → items_of K' u = items_of K u
}.

Lemma kwp_add_new t p cc K0 K :
  kinv K0 → introduced t p K0 K → fresh_tcb K0 t → kinv_from (var K0 xTickCount + 1) (Some t) K →
  tcbs K0 !! var K0 pxCurrentTCB = Some cc → 0 ≤ p < 5 →
  kwp (prvAddNewTaskToReadyList t) (λ _, created t p (uxPriority cc) K0) K.
Proof.
  intros I0 [T V L X] (Htn & Hnew & Hfree) I Hcc Hp. pose proof (kv_core _ _ _ I0) as C0.
  destruct (co_task _ _ C0 _ cc Hcc) as (Hcn & _). set (cur := var K0 pxCurrentTCB) in *.
  assert (cur ≠ t) as Hct by congruence.
  unfold prvAddNewTaskToReadyList. apply kwp_bind. unfold incr. apply kwp_bind, kwp_rd, kwp_wr.
  set (K1 := set_var uxCurrentNumberOfTasks _ K).
  assert (kinv_from (var K0 xTickCount + 1) (Some t) K1) as I1 by by apply kinv_var.
  assert (var K1 pxCurrentTCB = cur ∧ var K1 xSchedulerRunning = var K0 xSchedulerRunning) as [Ec1 Er1]
    by (unfold K1; by rewrite !set_var_other, V).
  apply kwp_bind, kwp_rd, kwp_bind, kwp_rd. rewrite Ec1, Er1.
  rewrite (proj2 (Z.eqb_neq _ _)) by done. apply kwp_bind.
  set (r := var K0 xSchedulerRunning). set (cur' := if (r =? 0) && (uxPriority cc <=? p) then t else cur).
  assert (tcbs K1 !! t = Some (new_tcb p)) as Ht1 by (unfold K1; simpl; by rewrite T, lookup_insert_eq).
  assert (tcbs K1 !! cur = Some cc) as Hc1 by (unfold K1; simpl; by rewrite T, lookup_insert_ne).
  assert (kwp (S := S) (if r =? 0 then pc ← uxPriority <$> rd_tcb cur; p ← uxPriority <$> rd_tcb t;
      when_ (pc <=? p) (wr pxCurrentTCB t) else mret tt)
    (λ _ K2, K2 = if (r =? 0) && (uxPriority cc <=? p) then set_var pxCurrentTCB t K1 else K1) K1) as Hcur.
  { apply kwp_if; intros Hr; rewrite Hr; simpl; [|by apply kwp_ret].
    apply kwp_bind, kwp_fmap. eapply kwp_rd_tcb; [exact Hc1|].
    apply kwp_bind, kwp_fmap. eapply kwp_rd_tcb; [exact Ht1|]. simpl.
    apply kwp_when; intros Hle; rewrite Hle; [by apply kwp_wr|done]. }
  eapply kwp_mono; [exact Hcur|]. intros ? K2 EK2. cbv beta in EK2. clear Hcur.
  assert (kinv_from (var K0 xTickCount + 1) (Some t) K2 ∧ tcbs K2 = tcbs K1 ∧
    (∀ v, v ≠ pxCurrentTCB → var K2 v = var K1 v) ∧ var K2 pxCurrentTCB = cur' ∧
    (∀ x, itm K2 x = itm K1 x)) as (I2 & T2 & V2 & Ec2 & X2).
  { unfold cur'. subst K2. destruct ((r =? 0) && (uxPriority cc <=? p)); [|split_and!; try done].
    - split_and!; try done; [|intros v Hv; by apply set_var_other; auto]. destruct I1 as [C1 [B1 B2] W1].
      split; [by apply core_running; [|eexists]|by split|done]. }
  apply kwp_bind, kwp_bind, kwp_rd, kwp_wr. set (K3 := set_var uxTaskNumber _ K2).
  assert (kinv_from (var K0 xTickCount + 1) (Some t) K3) as I3 by by apply kinv_var.
  assert (itm K3 (xStateListItem t) = Some (KI 0 t NULL)) as Hi3.
  { change (itm K2 (xStateListItem t) = Some (KI 0 t NULL)). rewrite X2.
    change (itm K (xStateListItem t) = Some (KI 0 t NULL)). by rewrite X, decide_True. }
  apply kwp_bind. eapply (kwp_make_ready _ t (new_tcb p)); [exact I3|by change (tcbs K2 !! t = Some (new_tcb p)); rewrite T2|exact Hi3|done|].
  intros K4 Htab4 Mv4 I4.
  assert (∀ v, v ≠ uxTopReadyPriority → v ≠ uxTaskNumber → v ≠ pxCurrentTCB → v ≠ uxCurrentNumberOfTasks →
    var K4 v = var K0 v) as V4.
  { intros v ? ? ? ?. rewrite (mv_var _ _ _ _ Mv4) by done. unfold K3.
    rewrite set_var_other, V2 by auto. unfold K1. rewrite set_var_other by auto. by rewrite V. }
  assert (var K4 pxCurrentTCB = cur') as Ec4
    by (rewrite (mv_var _ _ _ _ Mv4) by done; unfold K3; by rewrite set_var_other).
  assert (tcbs K4 = <[t := new_tcb p]> (tcbs K0)) as T4.
  { rewrite (mv_tcbs _ _ _ _ Mv4). change (tcbs K3) with (tcbs K2). by rewrite T2. }
  assert (created t p (uxPriority cc) K0 (if negb (r =? 0) && (uxPriority cc <? p) then set_var pendsv 1 K4 else K4)) as Cr.
  { set (K5 := if negb (r =? 0) && _ then _ else K4).
    assert (tcbs K5 = tcbs K4 ∧ (∀ v, v ≠ pendsv → var K5 v = var K4 v) ∧ (∀ x, itm K5 x = itm K4 x) ∧
      kinv_from (var K0 xTickCount + 1) None K5) as (T5 & V5 & X5 & I5).
    { unfold K5. destruct (negb (r =? 0) && _); [|done]. split; [done|]. split; [|split; [done|]].
      - intros v Hv. apply set_var_other. auto.
      - by apply kinv_var. }
    split.
    - unfold kinv. by rewrite V5, V4.
    - by rewrite T5.
    - split; [by rewrite T5, T4, lookup_insert_eq|]. unfold home_of. rewrite X5. by rewrite (moved_some _ _ _ _ Mv4).
    - unfold home_of. rewrite X5, (moved_other _ _ _ _ _ Mv4).
      + change (itm K3 (xEventListItem t)) with (itm K2 (xEventListItem t)). rewrite X2.
        change (itm K1 (xEventListItem t)) with (itm K (xEventListItem t)).
        rewrite X, decide_False, decide_True; [done..|]. intros E. symmetry in E. by apply (items_differ t).
      + intros E. symmetry in E. by apply (items_differ t).
    - rewrite V5, (mv_var _ _ _ _ Mv4) by done. unfold K3. rewrite set_var_other, V2 by done.
      unfold K1. by rewrite set_var_same, V.
    - by rewrite V5, Ec4.
    - unfold K5. destruct (negb (r =? 0) && (uxPriority cc <? p)) eqn:E; fold r; rewrite E; [done|]. by apply V4.
    - intros u cu Hu.
      assert (∀ x, x = xStateListItem u ∨ x = xEventListItem u → itm K5 x = itm K0 x) as Hx.
      { intros x Hx. assert (is_Some (itm K0 x)) as [ix Hix].
        { destruct (co_task _ _ C0 u cu Hu) as (_ & _ & _ & (i & Hi & _) & (e & He & _)).
          destruct Hx as [->| ->]; eauto. }
        assert (x ≠ xStateListItem t ∧ x ≠ xEventListItem t) as [Hn1 Hn2].
        { split; intros E; destruct (Hfree x) as [? _]; rewrite ?E; auto; congruence. }
        rewrite X5, (moved_other _ _ _ _ _ Mv4) by done. change (itm K3 x) with (itm K2 x). rewrite X2.
        change (itm K1 x) with (itm K x). by rewrite X, !decide_False. }
      unfold items_of. rewrite !Hx; auto. }
  apply kwp_bind, kwp_rd. rewrite V4 by done. fold r. apply kwp_when; intros Hr.
  - assert (cur' = cur) as Ecur by (unfold cur'; by apply negb_true_iff in Hr as ->).
    eapply (kwp_yield_any t (new_tcb p) cc).
    + by rewrite T4, lookup_insert_eq.
    + rewrite Ec4, Ecur, T4. by rewrite lookup_insert_ne by auto.
    + rewrite Hr in Cr. exact Cr.
  - rewrite Hr in Cr. exact Cr.
Qed.

Lemma kwp_create t p stack cc K :
  kinv K → fresh_tcb K t → stack ≠ NULL → 0 ≤ p < 5 →
  2 * (Z.of_nat (size (tcbs K)) + 1) < 4294967290 → tcbs K !! var K pxCurrentTCB = Some cc →
  kwp (xTaskCreate p stack t) (λ r K', r = (pdPASS, t) ∧ created t p (uxPriority cc) K K') K.
Proof.
  intros I Hf Hst Hp Hsize Hcc. apply kwp_ok. intros Htab. pose proof Hf as (Htn & _).
  unfold xTaskCreate. rewrite !(proj2 (Z.eqb_neq _ _)) by done. simpl.
  apply kwp_seq. eapply kwp_introduce; [exact Hf|exact Hp|]. intros K1 In.
  pose proof (introduced_inv t p K K1 I Htab Hf Hp Hsize In) as I1.
  apply kwp_bind. eapply kwp_mono; [by eapply kwp_add_new|]. intros ? K2 Cr. by apply kwp_ret.
Qed.

(** ** [vTaskDelete] *)

(** The TCB of a task that is in no list can be freed. *)
Lemma kinv_free t c i e K :
  kinv_from (var K xTickCount + 1) (Some t) K → tcbs K !! t = Some c →
  itm K (xStateListItem t) = Some i → ki_home i = NULL →
  itm K (xEventListItem t) = Some e → ki_home e = NULL → t ≠ var K pxCurrentTCB →
  kinv (Kernel (kmem K) (delete t (tcbs K)) (var K)).
Proof.
  intros [[C1 C2 C3 C4 C5 C6 C7 C8] [B1 B2] W] Hc Hi Hhi He Hhe Hne.
  assert (∀ u, u ≠ t → is_Some (tcbs K !! u) → is_Some (delete t (tcbs K) !! u)) as Hin
    by (intros u Hu [cu Hcu]; exists cu; by rewrite lookup_delete_ne).
  split; [split|by split|done]; try done; simpl.
  - rewrite map_size_delete, Hc. lia.
  - intros u cu [Hut Hu]%lookup_delete_Some. destruct (C4 u cu Hu) as (? & ? & ? & (j & Hj & Ho & Hs) & ?).
    do 3 (split; [done|]). split; [|done]. exists j. split; [done|]. split; [done|]. intros _.
    apply Hs. congruence.
  - intros x j Hj Hn. change (itm K x = Some j) in Hj. destruct (C5 x j Hj Hn) as (? & ? & Hor). split; [done|]. split; [|done].
    apply Hin; [|done]. intros Ho. rewrite Ho in Hor.
    destruct Hor as [[-> _]|[-> _]]; congruence.
  - by apply Hin.
Qed.

Lemma kwp_free_tcb t (Q : unit → kernel ktable → Prop) K :
  Q tt (Kernel (kmem K) (delete t (tcbs K)) (var K)) → kwp (prvDeleteTCB t) Q K.
Proof.
  intros HQ k (R & Et & Ev). apply wp_modify.
  exists (Kernel (kmem K) (delete t (tcbs K)) (var K)). split; [|done].
  unfold rep. simpl. by rewrite Et, Ev.
Qed.

(** The running task deletes another one. *)
Lemma kwp_delete_other t c K :
  kinv K → tcbs K !! t = Some c → t ≠ var K pxCurrentTCB →
  kwp (vTaskDelete t) (λ _ K', kinv K' ∧ tcbs K' = delete t (tcbs K) ∧
    var K' pxCurrentTCB = var K pxCurrentTCB ∧ var K' xTickCount = var K xTickCount ∧
    var K' uxCurrentNumberOfTasks = u32 (var K uxCurrentNumberOfTasks - 1) ∧
    ∀ u cu, tcbs K !! u = Some cu → u ≠ t → items_of K' u = items_of K u) K.
Proof.
  intros I Hc Hne. pose proof I as [C _ _]. destruct (co_task _ _ C t c Hc) as (Htn & _).
  unfold vTaskDelete. apply kwp_bind, kwp_handle; [done|].
  apply kwp_bind, kwp_assert; [by apply negb_true_iff, Z.eqb_neq|].
  apply kwp_seq. eapply kwp_unlist; [exact I|exact Hc|].
  intros K1 i e Htab1 I1 T1 V1 Hi1 Hhi He1 Hhe O1.
  apply kwp_bind, kwp_bind, kwp_rd, kwp_wr. set (K2 := set_var uxTaskNumber _ K1).
  assert (∀ v, v ≠ uxTopReadyPriority → v ≠ uxTaskNumber → var K2 v = var K v) as V2
    by (intros v ??; unfold K2; rewrite set_var_other by auto; auto).
  apply kwp_bind, kwp_rd, kwp_bind, kwp_rd. rewrite !V2, (proj2 (Z.eqb_neq t _)), andb_false_r by done.
  apply kwp_bind, kwp_bind, kwp_bind, kwp_rd, kwp_wr. set (K3 := set_var uxCurrentNumberOfTasks _ K2).
  assert (kinv_from (var K xTickCount + 1) (Some t) K3) as I3 by by do 2 (apply kinv_var; [done|]).
  assert (∀ v, v ≠ uxTopReadyPriority → v ≠ uxTaskNumber → v ≠ uxCurrentNumberOfTasks → var K3 v = var K v) as V3
    by (intros v ???; unfold K3; rewrite set_var_other by auto; auto).
  pose proof I3 as [C3 B3 W3]. apply kwp_bind.
  eapply (kwp_reset_next (var K xTickCount + 1)); [exact C3| |].
  { intros x j Hj. destruct (W3 x j Hj) as [HD HO]. split; [|done]. intros Hh. by apply HD. }
  intros n C4 W4. set (K4 := set_var xNextTaskUnblockTime n K3) in *.
  assert (∀ v, v ≠ uxTopReadyPriority → v ≠ uxTaskNumber → v ≠ uxCurrentNumberOfTasks →
    v ≠ xNextTaskUnblockTime → var K4 v = var K v) as V4
    by (intros v ? ? ? ?; unfold K4; rewrite set_var_other by auto; auto).
  apply kwp_free_tcb. set (K5 := Kernel (kmem K4) (delete t (tcbs K4)) (var K4)).
  assert (kinv K5) as I5.
  { eapply (kinv_free t c i e); [|by change (tcbs K1 !! t = Some c); rewrite T1|exact Hi1|exact Hhi|
      exact He1|exact Hhe|by rewrite V4].
    rewrite V4 by done. split; [exact C4|by destruct B3; split|exact W4]. }
  assert (kinv K5 ∧ tcbs K5 = delete t (tcbs K) ∧ var K5 pxCurrentTCB = var K pxCurrentTCB ∧
    var K5 xTickCount = var K xTickCount ∧
    var K5 uxCurrentNumberOfTasks = u32 (var K uxCurrentNumberOfTasks - 1) ∧
    ∀ u cu, tcbs K !! u = Some cu → u ≠ t → items_of K5 u = items_of K u) as Hpost.
  { split; [done|]. split; [change (delete t (tcbs K1) = delete t (tcbs K)); by rewrite T1|].
    change (var K5) with (var K4). rewrite !V4 by done. do 2 (split; [done|]). split; [|done].
    unfold K4, K3. rewrite set_var_other, set_var_same, V2 by done. done. }
  apply kwp_bind, kwp_rd. apply kwp_when; intros Hr; [|exact Hpost].
  apply kwp_bind, kwp_rd. change (var K5 pxCurrentTCB) with (var K4 pxCurrentTCB).
  rewrite V4, (proj2 (Z.eqb_neq t _)) by done. by apply kwp_ret.
Qed.

(** A task deletes itself: the idle task will free it. *)
Lemma kwp_delete_self c K :
  kinv K → tcbs K !! var K pxCurrentTCB = Some c →
  var K xSchedulerRunning ≠ 0 → var K uxSchedulerSuspended = 0 →
  kwp (vTaskDelete (var K pxCurrentTCB)) (λ _ K', parked (var K pxCurrentTCB) c xTasksWaitingTermination
    (set_var uxTaskNumber (u32 (var K uxTaskNumber + 1))
       (set_var uxDeletedTasksWaitingCleanUp (u32 (var K uxDeletedTasksWaitingCleanUp + 1)) K)) K' ∧
    var K' pendsv = 1) K.
Proof.
  intros I Hc Hrun Hs. pose proof I as [C _ _]. set (t := var K pxCurrentTCB) in *.
  destruct (co_task _ _ C t c Hc) as (Htn & _).
  unfold vTaskDelete. apply kwp_bind, kwp_handle; [done|].
  apply kwp_bind, kwp_assert; [by apply negb_true_iff, Z.eqb_neq|].
  apply kwp_seq. eapply kwp_unlist; [exact I|exact Hc|].
  intros K1 i e Htab1 I1 T1 V1 Hi1 Hhi He1 Hhe O1.
  apply kwp_bind, kwp_bind, kwp_rd, kwp_wr. rewrite V1 by done. set (K2 := set_var uxTaskNumber _ K1).
  assert (∀ v, v ≠ uxTopReadyPriority → v ≠ uxTaskNumber → var K2 v = var K v) as V2
    by (intros v ??; unfold K2; rewrite set_var_other by auto; auto).
  assert (kinv_from (var K xTickCount + 1) (Some t) K2) as I2 by by apply kinv_var.
  apply kwp_bind, kwp_rd, kwp_bind, kwp_rd. rewrite !V2 by done. fold t.
  rewrite Z.eqb_refl, (proj2 (Z.eqb_neq _ 0)) by done. simpl.
  apply kwp_bind, kwp_bind.
  eapply (kwp_store_item _ t c i); [exact I2|by change (tcbs K1 !! t = Some c); rewrite T1|exact Hi1|exact Hhi|by left|].
  intros K3 Htab3 Mv3 Ev3 I3. apply kwp_bind, kwp_rd, kwp_wr.
  rewrite (mv_var _ _ _ _ Mv3), V2 by done. set (K4 := set_var uxDeletedTasksWaitingCleanUp _ K3).
  assert (∀ v, v ≠ uxTopReadyPriority → v ≠ uxTaskNumber → v ≠ uxDeletedTasksWaitingCleanUp →
    var K4 v = var K v) as V4.
  { intros v ???. unfold K4. rewrite set_var_other, (mv_var _ _ _ _ Mv3) by auto. by apply V2. }
  apply kwp_bind, kwp_rd. rewrite V4, (proj2 (Z.eqb_neq _ 0)) by done. simpl.
  apply kwp_bind, kwp_rd. rewrite V4 by done. fold t. rewrite Z.eqb_refl. simpl.
  apply kwp_bind, kwp_rd. rewrite V4 by done. apply kwp_bind, kwp_assert; [by rewrite Hs|]. apply kwp_wr.
  split; [|apply set_var_same]. apply parked_pendsv. split.
  - unfold kinv. rewrite V4 by done. by apply kinv_var.
  - change (tcbs K3 = <[t := c]> (tcbs K)). rewrite (mv_tcbs _ _ _ _ Mv3).
    change (tcbs K1 = <[t := c]> (tcbs K)). by rewrite T1, insert_id.
  - change (home_of K3 (xStateListItem t) = xTasksWaitingTermination). unfold home_of.
    by rewrite (moved_some _ _ _ _ Mv3).
  - change (home_of K3 (xEventListItem t) = NULL). unfold home_of.
    rewrite (moved_other _ _ _ _ _ Mv3).
    + change (itm K2 (xEventListItem t)) with (itm K1 (xEventListItem t)). by rewrite He1.
    + intros E. symmetry in E. by apply (items_differ t).
  - intros v Hv _. destruct (kvar_eqb v uxTaskNumber) eqn:E1; [|destruct (kvar_eqb v uxDeletedTasksWaitingCleanUp) eqn:E2].
    + destruct v; try done. unfold K4. rewrite set_var_other, (mv_var _ _ _ _ Mv3) by done. done.
    + by destruct v.
    + rewrite V4, !set_var_other by (intros E; subst v; done). done.
  - by apply V4.
  - intros u cu Hu Hne. change (items_of K3 u = items_of K u). rewrite <-(O1 u cu) by done.
    change (items_of K1 u) with (items_of K2 u).
    eapply (others_kept _ t c K2 K3); [exact (kv_core _ _ _ I2)|..|done|by left|exact Mv3];
      change (tcbs K2) with (tcbs K1); by rewrite T1.
Qed.
End life.

(** * Notifications

    Task notifications: a notification updates the value of its index as its
    action says, marks it received, and makes a task that waits for it ready. *)

(** The value after a notification, and whether it was accepted. *)
Definition notify_effect (eAction : eNotifyAction) (old new : Z) (st : notify_state) : bool * Z :=
  match eAction with
  | eNoAction => (true, old)
  | eSetBits => (true, Z.lor old new)
  | eIncrement => (true, u32 (old + 1))
  | eSetValueWithOverwrite => (true, new)
  | eSetValueWithoutOverwrite =>
      if bool_decide (st = taskNOTIFICATION_RECEIVED) then (false, old) else (true, new)
  end.

Definition notified_tcb (i v : Z) (c : tcb) : tcb :=
  set_ulNotifiedValue (<[Z.to_nat i := v]> (ulNotifiedValue c))
    (set_ucNotifyState (<[Z.to_nat i := taskNOTIFICATION_RECEIVED]> (ucNotifyState c)) c).

Section notify.
Context `{Layout} {S : Type} `{ListLaws S}.
Implicit Types K : kernel ktable.

(** A change of the TCB that leaves the priorities alone. *)
Lemma kwp_wr_same lo t c f (Q : unit → kernel ktable → Prop) K :
  kinv_from lo None K → tcbs K !! t = Some c → uxPriority (f c) = uxPriority c →
  uxBasePriority (f c) = uxBasePriority c →
  (kinv_from lo None (with_tcb t (f c) K) → Q tt (with_tcb t (f c) K)) → kwp (wr_tcb t f) Q K.
Proof.
  intros I Hc Ep Eb HQ. destruct (co_task _ _ (kv_core _ _ _ I) t c Hc) as (_ & Hp & Hb & _).
  eapply kwp_wr_tcb; [exact Hc|]. apply HQ.
  eapply kinv_tcb_stays; [exact I|exact Hc|by rewrite Ep|by rewrite Eb|by left].
Qed.

Lemma kwp_notified t c i v (Q : Z → kernel ktable → Prop) K :
  tcbs K !! t = Some c → ulNotifiedValue c !! Z.to_nat i = Some v → Q v K → kwp (notified t i) Q K.
Proof. intros Hc Hv HQ. apply kwp_bind. eapply kwp_rd_tcb; [exact Hc|]. by eapply kwp_of_option. Qed.

Lemma kwp_notify_of t c i st (Q : notify_state → kernel ktable → Prop) K :
  tcbs K !! t = Some c → ucNotifyState c !! Z.to_nat i = Some st → Q st K → kwp (notify_of t i) Q K.
Proof. intros Hc Hv HQ. apply kwp_bind. eapply kwp_rd_tcb; [exact Hc|]. by eapply kwp_of_option. Qed.

(** The [switch( eAction )]. *)
Lemma kwp_notify_action t c i v old act st (Q : bool → kernel ktable → Prop) K :
  kinv K → tcbs K !! t = Some c → ulNotifiedValue c !! Z.to_nat i = Some old →
  (∀ K', kinv K' →
     K' = with_tcb t (set_ulNotifiedValue (<[Z.to_nat i := (notify_effect act old v st).2]> (ulNotifiedValue c)) c) K →
     Q (notify_effect act old v st).1 K') →
  kwp (notify_action t i v act st) Q K.
Proof.
  intros I Hc Hv HQ. apply kwp_bind. eapply kwp_notified; [exact Hc|exact Hv|].
  assert (∀ w b, notify_effect act old v st = (b, w) → kwp (wr_notified t i w;; mret b) Q K) as Hw.
  { intros w b E. rewrite E in HQ. apply kwp_bind. eapply kwp_wr_same; [exact I|exact Hc|done|done|].
    intros I'. by apply kwp_ret, HQ. }
  assert (∀ b, notify_effect act old v st = (b, old) → kwp (mret b) Q K) as Hn.
  { intros b E. rewrite E in HQ. apply kwp_ret, HQ; [done|]. simpl. rewrite list_insert_id by done.
    unfold with_tcb. destruct c. unfold set_ulNotifiedValue. simpl. rewrite insert_id by done. by destruct K. }
  destruct act; simpl; unfold is_state.
  - by apply Hn.
  - by apply Hw.
  - by apply Hw.
  - by apply Hw.
  - destruct (bool_decide (st = taskNOTIFICATION_RECEIVED)) eqn:E; simpl;
      [apply Hn|apply Hw]; simpl; by rewrite E.
Qed.

(** The task notified, and whether a switch is asked for. *)
Record was_notified (t : Z) (c c' : tcb) (waiting : bool) (pc : Z) K K' : Prop := {
  wn_inv : kinv K';
  wn_tcbs : tcbs K' = <[t := c']> (tcbs K);
  wn_state : if waiting then is_ready K' t c' else items_of K' t = items_of K t;
  wn_event : itm K' (xEventListItem t) = itm K (xEventListItem t);
  wn_pendsv : var K' pendsv = if waiting && (pc <? uxPriority c) then 1 else var K pendsv;
  wn_others u cu : tcbs K !! u = Some cu → u ≠ t → items_of K' u = items_of K u
}.

Lemma kwp_notify t c cc i v old st act K :
  kinv K → tcbs K !! t = Some c → tcbs K !! var K pxCurrentTCB = Some cc →
  0 ≤ i < configTASK_NOTIFICATION_ARRAY_ENTRIES →
  ulNotifiedValue c !! Z.to_nat i = Some old → ucNotifyState c !! Z.to_nat i = Some st →
  (st = taskWAITING_NOTIFICATION → home_of K (xEventListItem t) = NULL) →
  kwp (xTaskGenericNotify t i v act) (λ '(ok, previous) K',
    previous = old ∧ ok = (notify_effect act old v st).1 ∧
    was_notified t c (notified_tcb i (notify_effect act old v st).2 c)
      (bool_decide (st = taskWAITING_NOTIFICATION)) (uxPriority cc) K K') K.
Proof.
  intros I Hc Hcc Hi Hv Hst Hev. pose proof I as [C _ _].
  destruct (co_task _ _ C t c Hc) as (Htn & Hp & _).
  destruct (event_item None t c K C Hc) as (e & He & _).
  destruct (state_item None t c K C Hc ltac:(done)) as (j & Hj & _).
  unfold xTaskGenericNotify. apply kwp_bind, kwp_assert; [lia|].
  apply kwp_bind, kwp_assert; [by apply negb_true_iff, Z.eqb_neq|].
  apply kwp_bind. eapply kwp_notified; [exact Hc|exact Hv|].
  apply kwp_bind. eapply kwp_notify_of; [exact Hc|exact Hst|].
  apply kwp_bind. eapply kwp_wr_same; [exact I|exact Hc|done|done|]. intros I1.
  set (c1 := set_ucNotifyState _ c) in *. set (K1 := with_tcb t c1 K) in *.
  assert (tcbs K1 !! t = Some c1) as Hc1 by (unfold K1; simpl; by rewrite lookup_insert_eq).
  apply kwp_bind. eapply (kwp_notify_action t c1 i v old act st); [exact I1|exact Hc1|exact Hv|].
  intros K2 I2 EK2. set (c' := notified_tcb i (notify_effect act old v st).2 c).
  assert (K2 = with_tcb t c' K) as ->.
  { rewrite EK2. unfold K1. by rewrite with_tcb_twice. }
  set (K2 := with_tcb t c' K) in *.
  assert (tcbs K2 !! t = Some c') as Hc2 by (unfold K2; simpl; by rewrite lookup_insert_eq).
  unfold is_state. apply kwp_bind, kwp_when; intros Hw; rewrite Hw.
  - apply bool_decide_eq_true in Hw. specialize (Hev Hw).
    apply kwp_bind. eapply (kwp_to_ready _ t c' j); [exact I2|exact Hc2|exact Hj|].
    intros K3 Htab3 Mv3 I3.
    assert (itm K3 (xEventListItem t) = Some e) as He3.
    { rewrite (moved_other _ _ _ _ _ Mv3); [exact He|]. intros E. symmetry in E. by apply (items_differ t). }
    apply kwp_bind. eapply kwp_container; [exact He3|].
    apply kwp_bind, kwp_assert.
    { unfold home_of in Hev. rewrite He in Hev. simpl in Hev. by rewrite Hev. }
    assert (∃ cc', tcbs K3 !! var K3 pxCurrentTCB = Some cc' ∧ uxPriority cc' = uxPriority cc) as (cc' & Hcc' & Epc).
    { rewrite (mv_tcbs _ _ _ _ Mv3), (mv_var _ _ _ _ Mv3) by done. unfold K2. simpl.
      destruct (decide (t = var K pxCurrentTCB)) as [E|Hne].
      - rewrite <-E, lookup_insert_eq. eexists. split; [done|]. by assert (cc = c) as -> by congruence.
      - rewrite lookup_insert_ne by done. eauto. }
    eapply (kwp_yield_any t c' cc'); [by rewrite (mv_tcbs _ _ _ _ Mv3)|exact Hcc'|]. apply kwp_ret.
    split; [done|]. split; [done|]. rewrite Epc. change (uxPriority c') with (uxPriority c).
    assert (was_notified t c c' true (uxPriority cc) K
      (if uxPriority cc <? uxPriority c then set_var pendsv 1 K3 else K3)) as Wn; [|exact Wn].
    set (K4 := if uxPriority cc <? uxPriority c then set_var pendsv 1 K3 else K3).
    assert (tcbs K4 = tcbs K3 ∧ (∀ x, itm K4 x = itm K3 x)) as [T4 X4] by (unfold K4; by case_match).
    split.
    + assert (kinv K3) as I3' by (unfold kinv; by rewrite (mv_var _ _ _ _ Mv3)).
      unfold K4. case_match; [by apply kinv_var|done].
    + by rewrite T4, (mv_tcbs _ _ _ _ Mv3).
    + split; [by rewrite T4, (mv_tcbs _ _ _ _ Mv3)|]. unfold home_of. rewrite X4. by rewrite (moved_some _ _ _ _ Mv3).
    + by rewrite X4, He3.
    + simpl. unfold K4. case_match; [done|]. by rewrite (mv_var _ _ _ _ Mv3).
    + intros u cu Hu Hne. transitivity (items_of K3 u); [unfold items_of; by rewrite !X4|].
      change (items_of K u) with (items_of K2 u).
      eapply (others_kept None t c' K2 K3); [exact (kv_core _ _ _ I2)|exact Hc2| |done|by left|exact Mv3].
      unfold K2. simpl. by rewrite lookup_insert_ne.
  - apply kwp_ret. split; [done|]. split; [done|]. by split.
Qed.
End notify.
