(* ===== verification/KernelIsr.v ===== *)
(** What remains of the services: those called from interrupts, which hold a task
    pending while the scheduler is suspended, the priority a task falls back to
    when a waiting one gives up, and the clean-up by the idle task. *)
From stdpp Require Import base tactics numbers list gmap sorting.
From S2P Require Import Prelude Words Sched KList KListThm KListRefine Kernel KernelApi KernelInv KernelMoves KernelTick KernelResume KernelPrio KernelLife.

Section isr.
Context `{Layout} {S : Type} `{ListLaws S}.
Implicit Types K : kernel ktable.

(** ** Waking a task or holding it pending *)

(** Task [t] with TCB [c] has been woken, or is held pending; [b] tells whether it
    is more important than the running task. *)
Record handed (t : Z) (c : tcb) (b : bool) K K' : Prop := {
  hd_inv : kinv K';
  hd_tcbs : tcbs K' = tcbs K;
  hd_var v : v ≠ uxTopReadyPriority → v ≠ xYieldPending → var K' v = var K v;
  hd_task :
    if var K uxSchedulerSuspended =? 0 then
      home_of K' (xStateListItem t) = ready (uxPriority c) ∧
      itm K' (xEventListItem t) = itm K (xEventListItem t)
    else itm K' (xStateListItem t) = itm K (xStateListItem t) ∧
         home_of K' (xEventListItem t) = xPendingReadyList;
  hd_yield : var K' xYieldPending = if b then 1 else var K xYieldPending;
  hd_others u cu : tcbs K !! u = Some cu → u ≠ t → items_of K' u = items_of K u
}.

Lemma kwp_wake_or_hold t c (Q : unit → kernel ktable → Prop) K :
  kinv K → tcbs K !! t = Some c → home_of K (xEventListItem t) = NULL →
  (∀ K', handed t c false K K' → Q tt K') →
  kwp (if var K uxSchedulerSuspended =? 0 then wake_task t
       else lst (list_insert_end xPendingReadyList (xEventListItem t))) Q K.
Proof.
  intros I Hc Hev HQ. pose proof (kv_core _ _ _ I) as C.
  destruct (state_item None t c K C Hc ltac:(done)) as (i & Hi & _).
  destruct (event_item None t c K C Hc) as (e & He & _).
  assert (ki_home e = NULL) as Hhe by (unfold home_of in Hev; by rewrite He in Hev).
  assert (xEventListItem t ≠ xStateListItem t) as Hd by (intros E; symmetry in E; by apply (items_differ t)).
  apply kwp_if; intros Hs.
  - eapply (kwp_to_ready _ t c i); [exact I|exact Hc|exact Hi|]. intros K1 Htab1 Mv I1. apply HQ. split.
    + unfold kinv. by rewrite (mv_var _ _ _ _ Mv).
    + apply (mv_tcbs _ _ _ _ Mv).
    + intros v ??. by apply (mv_var _ _ _ _ Mv).
    + rewrite Hs. unfold home_of. by rewrite (moved_some _ _ _ _ Mv), (moved_other _ _ _ _ _ Mv).
    + by apply (mv_var _ _ _ _ Mv).
    + intros u cu Hu Hne. by eapply (others_kept None t c K K1); [exact C|exact Hc|exact Hu|done|left|exact Mv].
  - eapply (kwp_hold_pending _ t c); [exact I|exact Hc|exact He|exact Hhe|].
    intros K1 Htab1 Mv I1. apply HQ. split.
    + unfold kinv. by rewrite (mv_var _ _ _ _ Mv).
    + apply (mv_tcbs _ _ _ _ Mv).
    + intros v ??. by apply (mv_var _ _ _ _ Mv).
    + rewrite Hs. unfold home_of. by rewrite (moved_some _ _ _ _ Mv), (moved_other _ _ _ _ _ Mv).
    + by apply (mv_var _ _ _ _ Mv).
    + intros u cu Hu Hne. by eapply (others_kept None t c K K1); [exact C|exact Hc|exact Hu|done|right|exact Mv].
Qed.

Lemma handed_yield t c b K K' :
  handed t c false K K' → handed t c b K (if b then set_var xYieldPending 1 K' else K').
Proof.
  intros [I T V Ht Y O]. destruct b; [|done]. split; try done; [by apply kinv_var|].
  intros v ??. rewrite set_var_other by auto. auto.
Qed.

(** The whole of [notify_unblock_from_isr] for a task that waits. *)
Lemma kwp_hand t c cc K :
  kinv K → tcbs K !! t = Some c → tcbs K !! var K pxCurrentTCB = Some cc →
  home_of K (xEventListItem t) = NULL →
  kwp (notify_unblock_from_isr t taskWAITING_NOTIFICATION) (λ b K',
    b = (uxPriority cc <? uxPriority c) ∧ handed t c b K K') K.
Proof.
  intros I Hc Hcc Hev. pose proof (kv_core _ _ _ I) as C.
  destruct (event_item None t c K C Hc) as (e & He & _).
  unfold notify_unblock_from_isr. simpl. apply kwp_bind. eapply kwp_container; [exact He|].
  apply kwp_bind, kwp_assert.
  { unfold home_of in Hev. rewrite He in Hev. simpl in Hev. by rewrite Hev. }
  apply kwp_bind, kwp_rd, kwp_bind. eapply kwp_wake_or_hold; [exact I|exact Hc|exact Hev|].
  intros K1 Hd. pose proof (hd_tcbs _ _ _ _ _ Hd) as T1.
  eapply (kwp_yield_if_higher _ t c cc); [apply (hd_inv _ _ _ _ _ Hd)|by rewrite T1|
    by rewrite T1, (hd_var _ _ _ _ _ Hd)|].
  intros K' b _ Eb ->. split; [done|]. by apply handed_yield.
Qed.

(** ** Notifications from interrupts *)

Lemma kinv_tcb_same t c c' K :
  kinv K → tcbs K !! t = Some c → uxPriority c' = uxPriority c → uxBasePriority c' = uxBasePriority c →
  kinv (with_tcb t c' K).
Proof.
  intros I Hc Ep Eb. destruct (co_task _ _ (kv_core _ _ _ I) t c Hc) as (_ & ? & ? & _).
  eapply kinv_tcb_stays; [exact I|exact Hc|by rewrite Ep|by rewrite Eb|by left].
Qed.

(** What a notification does to the TCB, and then to the task if it waits. *)
Definition notified_from_isr (t : Z) (c c' : tcb) (waiting : bool) (pc : Z) (b : bool) K K' : Prop :=
  b = waiting && (pc <? uxPriority c) ∧
  if waiting then handed t c' b (with_tcb t c' K) K' else K' = with_tcb t c' K.

(** The TCB of the running task after that of [t] has changed. *)
Lemma current_after t c c' cc K :
  tcbs K !! t = Some c → tcbs K !! var K pxCurrentTCB = Some cc → uxPriority c' = uxPriority c →
  ∃ cc', tcbs (with_tcb t c' K) !! var (with_tcb t c' K) pxCurrentTCB = Some cc' ∧
    uxPriority cc' = uxPriority cc.
Proof.
  intros Hc Hcc Ep. simpl. destruct (decide (t = var K pxCurrentTCB)) as [E|Hne].
  - rewrite <-E, lookup_insert_eq. eexists. split; [done|]. rewrite Ep. congruence.
  - rewrite lookup_insert_ne by done. eauto.
Qed.

Lemma kwp_unblock_from_isr t c c' cc st K :
  kinv (with_tcb t c' K) → tcbs K !! t = Some c → tcbs K !! var K pxCurrentTCB = Some cc →
  uxPriority c' = uxPriority c →
  (st = taskWAITING_NOTIFICATION → home_of K (xEventListItem t) = NULL) →
  kwp (notify_unblock_from_isr t st) (λ b,
    notified_from_isr t c c' (bool_decide (st = taskWAITING_NOTIFICATION)) (uxPriority cc) b K) (with_tcb t c' K).
Proof.
  intros I Hc Hcc Ep Hev. unfold notified_from_isr. case_bool_decide as Hst.
  - subst st. destruct (current_after t c c' cc K Hc Hcc Ep) as (cc' & Hcc' & Ecc).
    eapply kwp_mono; [apply (kwp_hand t c' cc'); [exact I|simpl; by rewrite lookup_insert_eq|exact Hcc'|by apply Hev]|].
    intros b K' [-> Hd]. rewrite Ecc, Ep in Hd |- *. by split.
  - unfold notify_unblock_from_isr, is_state. rewrite bool_decide_eq_false_2 by done. by apply kwp_ret.
Qed.

Lemma kwp_notify_from_isr t c cc i v old st act K :
  kinv K → tcbs K !! t = Some c → tcbs K !! var K pxCurrentTCB = Some cc →
  0 ≤ i < configTASK_NOTIFICATION_ARRAY_ENTRIES →
  ulNotifiedValue c !! Z.to_nat i = Some old → ucNotifyState c !! Z.to_nat i = Some st →
  (st = taskWAITING_NOTIFICATION → home_of K (xEventListItem t) = NULL) →
  kwp (xTaskGenericNotifyFromISR t i v act) (λ '(ok, previous, b) K',
    previous = old ∧ ok = (notify_effect act old v st).1 ∧
    notified_from_isr t c (notified_tcb i (notify_effect act old v st).2 c)
      (bool_decide (st = taskWAITING_NOTIFICATION)) (uxPriority cc) b K K') K.
Proof.
  intros I Hc Hcc Hi Hv Hst Hev. pose proof I as [C _ _].
  destruct (co_task _ _ C t c Hc) as (Htn & _).
  unfold xTaskGenericNotifyFromISR. apply kwp_bind, kwp_assert; [by apply negb_true_iff, Z.eqb_neq|].
  apply kwp_bind, kwp_assert; [lia|].
  apply kwp_bind. eapply kwp_notified; [exact Hc|exact Hv|].
  apply kwp_bind. eapply kwp_notify_of; [exact Hc|exact Hst|].
  apply kwp_bind. eapply kwp_wr_same; [exact I|exact Hc|done|done|]. intros I1.
  apply kwp_bind. eapply (kwp_notify_action t _ i v old act st); [exact I1|simpl; by rewrite lookup_insert_eq|exact Hv|].
  intros K2 I2 E2. rewrite with_tcb_twice in E2. fold (notified_tcb i (notify_effect act old v st).2 c) in E2.
  subst K2. apply kwp_bind. eapply kwp_mono; [by eapply kwp_unblock_from_isr|].
  intros b K' N. by apply kwp_ret.
Qed.

Lemma kwp_give_from_isr t c cc i old st K :
  kinv K → tcbs K !! t = Some c → tcbs K !! var K pxCurrentTCB = Some cc →
  0 ≤ i < configTASK_NOTIFICATION_ARRAY_ENTRIES →
  ulNotifiedValue c !! Z.to_nat i = Some old → ucNotifyState c !! Z.to_nat i = Some st →
  (st = taskWAITING_NOTIFICATION → home_of K (xEventListItem t) = NULL) →
  kwp (vTaskGenericNotifyGiveFromISR t i) (λ b,
    notified_from_isr t c (notified_tcb i (u32 (old + 1)) c)
      (bool_decide (st = taskWAITING_NOTIFICATION)) (uxPriority cc) b K) K.
Proof.
  intros I Hc Hcc Hi Hv Hst Hev. pose proof I as [C _ _].
  destruct (co_task _ _ C t c Hc) as (Htn & _).
  unfold vTaskGenericNotifyGiveFromISR. apply kwp_bind, kwp_assert; [by apply negb_true_iff, Z.eqb_neq|].
  apply kwp_bind, kwp_assert; [lia|].
  apply kwp_bind. eapply kwp_notify_of; [exact Hc|exact Hst|].
  apply kwp_bind. eapply kwp_wr_same; [exact I|exact Hc|done|done|]. intros I1.
  apply kwp_bind. eapply kwp_notified; [simpl; by rewrite lookup_insert_eq|exact Hv|].
  apply kwp_bind. eapply kwp_wr_same; [exact I1|simpl; by rewrite lookup_insert_eq|done|done|]. intros I2.
  rewrite with_tcb_twice in I2 |- *. by eapply kwp_unblock_from_isr.
Qed.

Lemma notified_from_isr_inv t c c' w pc b K K' :
  kinv (with_tcb t c' K) → notified_from_isr t c c' w pc b K K' → kinv K'.
Proof. intros I [_ N]. destruct w; [apply (hd_inv _ _ _ _ _ N)|by subst]. Qed.

(** ** [xTaskResumeFromISR] *)

Lemma kwp_resume_from_isr t c cc K :
  kinv K → tcbs K !! t = Some c → tcbs K !! var K pxCurrentTCB = Some cc →
  kwp (xTaskResumeFromISR t) (λ b K',
    if is_suspended K t c then
      b = (var K uxSchedulerSuspended =? 0) && (uxPriority cc <? uxPriority c) ∧ handed t c b K K'
    else b = false ∧ K' = K) K.
Proof.
  intros I Hc Hcc. pose proof I as [C _ _]. destruct (co_task _ _ C t c Hc) as (Htn & _).
  unfold xTaskResumeFromISR. apply kwp_bind, kwp_assert; [by apply negb_true_iff, Z.eqb_neq|].
  apply kwp_bind. eapply kwp_is_suspended; [exact I|exact Hc|].
  apply kwp_if; intros Hsus; rewrite Hsus; [|by apply kwp_ret].
  assert (home_of K (xEventListItem t) = NULL) as Hev
    by (apply Z.eqb_eq; by apply andb_true_iff in Hsus as [[_ ?]%andb_true_iff _]).
  apply kwp_bind, kwp_rd. apply kwp_if; intros Hs; rewrite Hs; simpl.
  - apply kwp_bind. eapply (kwp_yield_if_higher _ t c cc); [exact I|exact Hc|exact Hcc|].
    intros K1 b I1 Eb EK1.
    assert (tcbs K1 = tcbs K ∧ (∀ x, itm K1 x = itm K x) ∧
      ∀ v, v ≠ xYieldPending → var K1 v = var K v) as (T1 & X1 & V1).
    { subst K1. destruct b; [|done]. split; [done|]. split; [done|].
      intros v Hv. by rewrite set_var_other by auto. }
    assert (kinv K1) as I1' by (unfold kinv; by rewrite V1).
    pose proof (kwp_wake_or_hold t c (λ _ K', b = (uxPriority cc <? uxPriority c) ∧ handed t c b K K') K1 I1') as Hw.
    rewrite V1, Hs, T1 in Hw by done. apply kwp_bind. eapply kwp_mono; [apply Hw|].
    + done.
    + unfold home_of. by rewrite X1.
    + intros K' [I2 T2 V2 Ht2 Y2 O2]. split; [done|]. rewrite V1, Hs in Ht2 by done. split.
      * done.
      * by rewrite T2.
      * intros v ??. by rewrite V2, V1.
      * rewrite Hs, <-X1. exact Ht2.
      * rewrite Y2. subst K1. by destruct b.
      * intros u cu Hu Hne. rewrite (O2 u cu) by (by rewrite ?T1). unfold items_of. by rewrite !X1.
    + intros ? K' HQ. by apply kwp_ret.
  - apply kwp_bind. pose proof (kwp_wake_or_hold t c (λ _ K', handed t c false K K') K I Hc Hev) as Hw.
    rewrite Hs in Hw. eapply kwp_mono; [by apply Hw|]. intros ? K' Hd. by apply kwp_ret.
Qed.

(** ** The priority after a time-out *)

(** What the holder of a mutex falls back to when a task stops waiting for it. *)
Definition after_timeout (highest : Z) (c : tcb) : Z := Z.max (uxBasePriority c) highest.

Lemma kwp_disinherit_after_timeout t c highest K :
  kinv K → tcbs K !! t = Some c → uxMutexesHeld c ≠ 0 → highest < 5 →
  (uxPriority c ≠ after_timeout highest c → uxMutexesHeld c = 1 → t ≠ var K pxCurrentTCB) →
  kwp (vTaskPriorityDisinheritAfterTimeout t highest) (λ _ K',
    if negb (uxPriority c =? after_timeout highest c) && (uxMutexesHeld c =? 1) then
      repriced t c (set_uxPriority (after_timeout highest c) c) K K'
    else K' = K) K.
Proof.
  intros I Hc Hm Hh Hcur. pose proof I as [C _ _]. destruct (co_task _ _ C t c Hc) as (Htn & Hp & Hb & _).
  unfold vTaskPriorityDisinheritAfterTimeout. rewrite (proj2 (Z.eqb_neq t NULL)) by done.
  apply kwp_bind. eapply kwp_rd_tcb; [exact Hc|].
  apply kwp_bind, kwp_assert; [by apply negb_true_iff, Z.eqb_neq|].
  assert ((if uxBasePriority c <? highest then highest else uxBasePriority c) = after_timeout highest c) as ->
    by (unfold after_timeout; destruct (Z.ltb_spec (uxBasePriority c) highest); lia).
  apply kwp_if; intros Hg; rewrite Hg; [|by apply kwp_ret].
  apply andb_true_iff in Hg as [Hg1%negb_true_iff%Z.eqb_neq Hg2%Z.eqb_eq].
  apply kwp_bind, kwp_rd, kwp_bind, kwp_assert.
  { apply negb_true_iff, Z.eqb_neq. auto. }
  set (p := after_timeout highest c) in *.
  assert (0 ≤ p < 5) as Hp' by (unfold p, after_timeout; lia). set (c' := set_uxPriority p c).
  apply kwp_bind. eapply kwp_wr_tcb; [exact Hc|]. fold c'.
  assert (kinv_from (var K xTickCount + 1) (Some t) (with_tcb t c' K)) as I2
    by (apply kinv_with_tcb; [by apply kinv_exempt|by exists c|done|done]).
  apply kwp_bind. eapply (kwp_event_value _ _ t c'); [exact I2|simpl; by rewrite lookup_insert_eq|done|].
  intros K3 e e' Htab3 I3 He Mv Heh.
  eapply (kwp_move_ready t c c'); [exact I|exact Hc| |by intros K' R _]. split.
  - done.
  - by rewrite (mv_tcbs _ _ _ _ Mv).
  - intros v ??. by rewrite (mv_var _ _ _ _ Mv).
  - rewrite (moved_other _ _ _ _ _ Mv); [done|apply items_differ].
  - unfold home_of. rewrite (moved_some _ _ _ _ Mv). change (itm (with_tcb t c' K)) with (itm K) in He.
    rewrite He. simpl. by rewrite Heh.
  - intros u cu Hu Hne. change (items_of K u) with (items_of (with_tcb t c' K) u).
    eapply (others_kept _ t c'); [exact (kv_core _ _ _ I2)|simpl; by rewrite lookup_insert_eq| |done|by right|exact Mv].
    simpl. by rewrite lookup_insert_ne.
Qed.

(** ** The idle task *)

(** The tasks whose state item is in the list of those waiting for termination. *)
Definition doomed K (t : Z) : bool := home_of K (xStateListItem t) =? xTasksWaitingTermination.

(** The tasks that have deleted themselves are counted, and none of them runs or
    waits for an event. *)
Record terminable K : Prop := {
  tn_count : var K uxDeletedTasksWaitingCleanUp = Z.of_nat (length (members K xTasksWaitingTermination));
  tn_range : 0 ≤ var K uxCurrentNumberOfTasks < 4294967296 ∧ var K uxDeletedTasksWaitingCleanUp < 4294967296;
  tn_current : doomed K (var K pxCurrentTCB) = false;
  tn_event t c : tcbs K !! t = Some c → doomed K t = true → home_of K (xEventListItem t) = NULL
}.

(** The doomed tasks are gone, the others as they were. *)
Record cleaned K K' : Prop := {
  cl_inv : kinv K';
  cl_none : members K' xTasksWaitingTermination = [];
  cl_count : var K' uxDeletedTasksWaitingCleanUp = 0;
  cl_tasks : var K' uxCurrentNumberOfTasks =
    u32 (var K uxCurrentNumberOfTasks - var K uxDeletedTasksWaitingCleanUp);
  cl_var v : v ≠ uxTopReadyPriority → v ≠ uxDeletedTasksWaitingCleanUp → v ≠ uxCurrentNumberOfTasks →
    var K' v = var K v;
  cl_tcbs t : tcbs K' !! t = if doomed K t then None else tcbs K !! t;
  cl_others t c : tcbs K !! t = Some c → doomed K t = false → items_of K' t = items_of K t
}.

Lemma members_without x l L i K K' :
  table_ok (kmem K) → table_ok (kmem K') → has_list K L → members K L = x :: l →
  itm K x = Some i → moved x (set_home NULL i) K K' → members K' L ≡ₚ l.
Proof.
  intros Htab Htab' HL E Hi Mv. pose proof (members_nodup K Htab L) as Hnd. rewrite E in Hnd.
  apply NoDup_cons in Hnd as [Hx Hnd]. pose proof (list_not_null K Htab L HL) as HLn.
  assert (has_list K' L) as HL' by by apply (mv_lists _ _ _ _ Mv).
  apply NoDup_Permutation; [by apply members_nodup|done|]. intros y. split.
  - intros Hy. destruct (member_item K' Htab' y L Hy) as (j & Hj & Hh & _).
    destruct (moved_inv _ _ _ _ _ _ Mv Hj) as [[-> ->]|[Hne Hj']]; [by symmetry in Hh|].
    apply (in_members K Htab y j L Hj' HL) in Hh. rewrite E in Hh. set_solver.
  - intros Hy. assert (y ≠ x) by (intros ->; done).
    assert (y ∈ members K L) as Hy' by (rewrite E; set_solver).
    destruct (member_item K Htab y L Hy') as (j & Hj & Hh & _).
    apply (in_members K' Htab' y j L); [by rewrite (moved_other _ _ _ _ _ Mv)|done|done].
Qed.

Lemma termination_in : xTasksWaitingTermination ∈ klists ∧ xTasksWaitingTermination ≠ xPendingReadyList.
Proof.
  destruct layout_apart as (_ & _ & _ & _ & _ & _ & _ & ? & _). split; [|congruence].
  unfold klists. rewrite !elem_of_cons. tauto.
Qed.

(** The first doomed task. *)
Lemma doomed_head K x l :
  table_ok (kmem K) → core None K → members K xTasksWaitingTermination = x :: l →
  ∃ t c i, x = xStateListItem t ∧ tcbs K !! t = Some c ∧ itm K x = Some i ∧ ki_owner i = t ∧
    ki_home i = xTasksWaitingTermination.
Proof.
  intros Htab C E. destruct termination_in as [Hk Hp].
  destruct (member_item K Htab x xTasksWaitingTermination) as (i & Hi & Hh & HL); [rewrite E; set_solver|].
  destruct (core_inner None K x i C Hi) as [-> [c Hc]]; rewrite ?Hh; [done|by apply (list_not_null K Htab)|done|].
  by exists (ki_owner i), c, i.
Qed.

(** The kernel after one turn of the loop. *)
Record one_cleaned (t : Z) K K1 : Prop := {
  oc_inv : kinv K1;
  oc_count : var K1 uxDeletedTasksWaitingCleanUp = u32 (var K uxDeletedTasksWaitingCleanUp - 1);
  oc_tasks : var K1 uxCurrentNumberOfTasks = u32 (var K uxCurrentNumberOfTasks - 1);
  oc_var v : v ≠ uxTopReadyPriority → v ≠ uxDeletedTasksWaitingCleanUp → v ≠ uxCurrentNumberOfTasks →
    var K1 v = var K v;
  oc_tcbs : tcbs K1 = delete t (tcbs K);
  oc_length : Datatypes.S (length (members K1 xTasksWaitingTermination)) = length (members K xTasksWaitingTermination);
  oc_others u cu : tcbs K !! u = Some cu → u ≠ t → items_of K1 u = items_of K u
}.

Lemma kwp_clean_one t c l i (m : M (kernel S) unit) (Q : unit → kernel ktable → Prop) K :
  kinv K → terminable K → members K xTasksWaitingTermination = xStateListItem t :: l →
  tcbs K !! t = Some c → itm K (xStateListItem t) = Some i → ki_home i = xTasksWaitingTermination →
  (∀ K1, one_cleaned t K K1 → kwp m Q K1) →
  kwp (listREMOVE_ITEM (xStateListItem t);; decr uxCurrentNumberOfTasks;;
       decr uxDeletedTasksWaitingCleanUp;; prvDeleteTCB t;; m) Q K.
Proof.
  intros I T E Hc Hi Hh HQ. pose proof I as [C _ _]. apply kwp_ok. intros Htab.
  destruct (event_item None t c K C Hc) as (e & He & _).
  assert (doomed K t = true) as Hd by (unfold doomed, home_of; rewrite Hi; simpl; rewrite Hh; apply Z.eqb_refl).
  assert (ki_home e = NULL) as Hhe.
  { pose proof (tn_event _ T t c Hc Hd) as Hev. unfold home_of in Hev. by rewrite He in Hev. }
  assert (has_list K xTasksWaitingTermination) as HL by (apply (co_lists _ _ C), termination_in).
  apply kwp_bind, kwp_bind. eapply (kwp_remove_waiting _ t c i); [exact I|exact Hc|exact Hi| |].
  { intros p Hp. rewrite Hh. destruct (ready_apart p Hp) as (_ & _ & _ & ? & _). congruence. }
  intros K1 n Htab1 Mv I1. apply kwp_ret.
  assert (length (members K1 xTasksWaitingTermination) = length l) as Hlen
    by (by rewrite (members_without (xStateListItem t) l xTasksWaitingTermination i K K1)).
  apply kwp_bind, kwp_bind, kwp_rd, kwp_wr, kwp_bind, kwp_bind, kwp_rd, kwp_wr.
  set (K2 := set_var uxCurrentNumberOfTasks _ K1). set (K3 := set_var uxDeletedTasksWaitingCleanUp _ K2).
  assert (∀ v, v ≠ uxTopReadyPriority → v ≠ uxDeletedTasksWaitingCleanUp → v ≠ uxCurrentNumberOfTasks →
    var K3 v = var K v) as V3.
  { intros v ???. unfold K3, K2. rewrite !set_var_other by auto. by apply (mv_var _ _ _ _ Mv). }
  assert (kinv_from (var K xTickCount + 1) (Some t) K3) as I3 by by do 2 (apply kinv_var; [done|]).
  apply kwp_bind, kwp_free_tcb, HQ. split.
  - eapply (kinv_free t c (set_home NULL i) e); [by rewrite V3|..].
    + change (tcbs K1 !! t = Some c). by rewrite (mv_tcbs _ _ _ _ Mv).
    + change (itm K1 (xStateListItem t) = Some (set_home NULL i)). by eapply moved_some.
    + done.
    + change (itm K1 (xEventListItem t) = Some e). rewrite (moved_other _ _ _ _ _ Mv); [done|].
      intros E'. symmetry in E'. by apply (items_differ t).
    + done.
    + rewrite V3 by done. intros ->. pose proof (tn_current _ T). congruence.
  - change (u32 (var K1 uxDeletedTasksWaitingCleanUp - 1) = u32 (var K uxDeletedTasksWaitingCleanUp - 1)).
    by rewrite (mv_var _ _ _ _ Mv).
  - change (u32 (var K1 uxCurrentNumberOfTasks - 1) = u32 (var K uxCurrentNumberOfTasks - 1)).
    by rewrite (mv_var _ _ _ _ Mv).
  - exact V3.
  - change (delete t (tcbs K1) = delete t (tcbs K)). by rewrite (mv_tcbs _ _ _ _ Mv).
  - change (Datatypes.S (length (members K1 xTasksWaitingTermination)) = length (members K xTasksWaitingTermination)).
    by rewrite Hlen, E.
  - intros u cu Hu Hne. change (items_of K1 u = items_of K u).
    by eapply (others_kept None t c K K1); [exact C|exact Hc|exact Hu|done|left|exact Mv].
Qed.

Lemma one_cleaned_doomed t K K1 u cu :
  one_cleaned t K K1 → tcbs K !! u = Some cu → u ≠ t → doomed K1 u = doomed K u.
Proof.
  intros O Hu Hne. pose proof (oc_others _ _ _ O u cu Hu Hne) as E. unfold items_of in E.
  injection E as E _. unfold doomed, home_of. by rewrite E.
Qed.

Lemma one_cleaned_terminable t c K K1 :
  core None K → terminable K →
  tcbs K !! t = Some c → doomed K t = true → one_cleaned t K K1 → terminable K1.
Proof.
  intros C [N [Hr Hsmall] Hcur Hev] Hc Hd O. pose proof (oc_length _ _ _ O) as Hlen.
  destruct (co_current _ _ C) as [cc Hcc]. split.
  - rewrite (oc_count _ _ _ O), u32_id by lia. lia.
  - rewrite (oc_count _ _ _ O), (oc_tasks _ _ _ O). pose proof (u32_range (var K uxCurrentNumberOfTasks - 1)).
    rewrite (u32_id (var K uxDeletedTasksWaitingCleanUp - 1)) by lia. lia.
  - rewrite (oc_var _ _ _ O) by done. rewrite (one_cleaned_doomed t K K1 _ cc O Hcc); [done|].
    intros E. rewrite E in Hcur. congruence.
  - intros u cu Hu Hdu. rewrite (oc_tcbs _ _ _ O) in Hu. apply lookup_delete_Some in Hu as [Hne Hu].
    assert (u ≠ t) as Hne' by auto. rewrite (one_cleaned_doomed t K K1 u cu) in Hdu by done.
    pose proof (oc_others _ _ _ O u cu Hu Hne') as E. unfold items_of in E. injection E as _ E.
    unfold home_of. rewrite E. by apply (Hev u cu).
Qed.

Lemma u32_sub_sub a b c : u32 (u32 (a - b) - c) = u32 (a - (b + c)).
Proof. unfold u32. rewrite Zminus_mod_idemp_l. f_equal. lia. Qed.

Lemma cleaned_step t c K K1 K' :
  core None K → tcbs K !! t = Some c → doomed K t = true → 0 < var K uxDeletedTasksWaitingCleanUp < 4294967296 →
  one_cleaned t K K1 → cleaned K1 K' → cleaned K K'.
Proof.
  intros C Hc Hd Hn O Cl. split; try apply Cl.
  - rewrite (cl_tasks _ _ Cl), (oc_tasks _ _ _ O), (oc_count _ _ _ O).
    rewrite (u32_id (var K uxDeletedTasksWaitingCleanUp - 1)) by lia. rewrite u32_sub_sub. f_equal. lia.
  - intros v ???. by rewrite (cl_var _ _ Cl), (oc_var _ _ _ O).
  - intros u. rewrite (cl_tcbs _ _ Cl), (oc_tcbs _ _ _ O).
    destruct (decide (u = t)) as [->|Hne]; [rewrite lookup_delete_eq, Hd; by case_match|].
    rewrite lookup_delete_ne by auto. destruct (tcbs K !! u) as [cu|] eqn:Hu.
    + by rewrite (one_cleaned_doomed t K K1 u cu).
    + by repeat case_match.
  - intros u cu Hu Hdu. assert (u ≠ t) as Hne by (intros ->; congruence).
    rewrite (cl_others _ _ Cl u cu).
    + by eapply oc_others.
    + rewrite (oc_tcbs _ _ _ O). by rewrite lookup_delete_ne.
    + by rewrite (one_cleaned_doomed t K K1 u cu).
Qed.

Lemma kwp_check_termination fuel K :
  kinv K → terminable K →
  (length (members K xTasksWaitingTermination) < fuel)%nat →
  kwp (check_termination fuel) (λ _, cleaned K) K.
Proof.
  revert K. induction fuel as [|fuel IH]; intros K I T Hf; [lia|].
  pose proof I as [C _ _]. apply kwp_ok. intros Htab. cbn [check_termination].
  pose proof (tn_count _ T) as N. destruct (tn_range _ T) as [Hr Hsmall]. apply kwp_bind, kwp_rd, kwp_if; intros Hb.
  - destruct (members K xTasksWaitingTermination) as [|x l] eqn:E; [rewrite N in Hb; by simpl in Hb|].
    destruct (doomed_head K x l Htab C E) as (t & c & i & -> & Hc & Hi & Ho & Hh).
    assert (doomed K t = true) as Hd by (unfold doomed, home_of; rewrite Hi; simpl; rewrite Hh; apply Z.eqb_refl).
    apply kwp_bind. eapply kwp_head_owner; [exact E|exact Hi|]. rewrite Ho.
    eapply kwp_clean_one; [exact I|exact T|exact E|exact Hc|exact Hi|exact Hh|]. intros K1 O.
    pose proof (oc_length _ _ _ O) as Hlen. rewrite E in Hlen. apply Z.ltb_lt in Hb.
    eapply kwp_mono; [apply IH|].
    + apply (oc_inv _ _ _ O).
    + by eapply one_cleaned_terminable.
    + simpl in Hf, Hlen. lia.
    + intros ? K' Cl. by eapply cleaned_step.
  - assert (members K xTasksWaitingTermination = []) as E.
    { apply Z.ltb_ge in Hb. destruct (members K xTasksWaitingTermination); [done|simpl in N; lia]. }
    rewrite E in N. simpl in N. apply kwp_ret.
    assert (∀ t c, tcbs K !! t = Some c → doomed K t = false) as Hno.
    { intros t c Hc. destruct (state_item None t c K C Hc ltac:(done)) as (i & Hi & _).
      unfold doomed, home_of. rewrite Hi. apply Z.eqb_neq. intros Hh. simpl in Hh.
      apply (in_members K Htab _ i _ Hi) in Hh; [rewrite E in Hh; set_solver|].
      apply (co_lists _ _ C), termination_in. }
    split; try done.
    + by rewrite N, Z.sub_0_r, u32_id.
    + intros t. destruct (tcbs K !! t) as [c|] eqn:Hc; [by rewrite (Hno t c)|by case_match].
Qed.

(** A round of the idle task: the doomed tasks are gone, and it gives way if
    another task of its priority is ready. *)
Lemma kwp_idle K :
  kinv K → terminable K →
  kwp prvIdleTask (λ _ K', ∃ K1, cleaned K K1 ∧
    K' = if 1 <? Z.of_nat (length (members K1 (ready 0))) then set_var pendsv 1 K1 else K1) K.
Proof.
  intros I T. pose proof I as [C _ _]. apply kwp_ok. intros Htab. destruct termination_in.
  pose proof (state_short None K _ Htab C ltac:(done) ltac:(done)) as Hshort.
  apply kwp_bind, kwp_bind, kwp_task_fuel.
  eapply kwp_mono; [apply kwp_check_termination; [done|done|lia]|]. intros ? K1 Cl.
  apply kwp_bind, kwp_length.
  { apply (co_lists _ _ (kv_core _ _ _ (cl_inv _ _ Cl))), ready_in. lia. }
  apply kwp_when; intros Hb; [apply kwp_wr|]; exists K1; by rewrite Hb.
Qed.

(** ** [xTaskCatchUpTicks] *)

Lemma kwp_catch_up n K :
  kinv K → var K uxSchedulerSuspended = 0 → 0 < var K uxCurrentNumberOfTasks →
  kwp (xTaskCatchUpTicks n)
    (resumed (set_var xPendedTicks (u32 (var K xPendedTicks + n)) (set_var uxSchedulerSuspended 1 K))) K.
Proof.
  intros I Hs Ht. unfold xTaskCatchUpTicks. apply kwp_bind, kwp_rd, kwp_bind, kwp_assert; [by rewrite Hs|].
  apply kwp_bind, kwp_bind, kwp_rd, kwp_wr. rewrite Hs. change (u32 (0 + 1)) with 1.
  apply kwp_bind, kwp_rd, kwp_bind, kwp_wr. apply kwp_resume_all.
  - by do 2 (apply kinv_var; [done|]).
  - done.
  - done.
  - change (0 ≤ u32 (var K xPendedTicks + n)). apply u32_range.
Qed.

(** ** Waiting for a notification *)

(** The TCB of the running task changes, and nothing the scheduler looks at. *)
Lemma live_tcb c c' K :
  live K → tcbs K !! var K pxCurrentTCB = Some c → uxPriority c' = uxPriority c →
  uxBasePriority c' = uxBasePriority c → live (with_tcb (var K pxCurrentTCB) c' K).
Proof.
  intros [I Hs Hp Hno Ht] Hc Ep Eb. destruct (co_task _ _ (kv_core _ _ _ I) _ c Hc) as (_ & ? & ? & _).
  split; try done. eapply kinv_tcb_stays; [exact I|exact Hc|by rewrite Ep|by rewrite Eb|by left].
Qed.

(** [still] says [b]; if so [mark] makes [c'] of the TCB. *)
Lemma kwp_notify_block still mark n c c' (b : bool) K :
  let K0 := set_var uxSchedulerSuspended 1 K in
  live K → is_ready K (var K pxCurrentTCB) c → 0 < n ≤ portMAX_DELAY →
  uxPriority c' = uxPriority c → uxBasePriority c' = uxBasePriority c →
  kwp still (λ r K', r = b ∧ K' = K0) K0 →
  kwp mark (λ _ K', K' = with_tcb (var K pxCurrentTCB) c' K0) K0 →
  kwp (notify_block still mark n) (λ _ K',
    if b then asleep n true (with_tcb (var K pxCurrentTCB) c' K) K' ∧ var K' pendsv = 1
    else calm K K') K.
Proof.
  intros K0 L Hr Hn Ep Eb Hstill Hmark. pose proof Hr as [Hc Hh].
  unfold notify_block. apply kwp_bind, kwp_suspend_live; [done|]. intros I0. fold K0.
  apply kwp_bind. eapply kwp_mono; [exact Hstill|]. intros ? K1 [-> ->].
  pose proof (live_tcb c c' K L Hc Ep Eb) as L1. set (t := var K pxCurrentTCB) in *.
  destruct b; simpl.
  - apply kwp_bind, kwp_bind. eapply kwp_mono; [exact Hmark|]. intros ? K1 ->.
    set (K2 := set_var uxSchedulerSuspended 1 (with_tcb t c' K)).
    change (with_tcb t c' K0) with K2.
    eapply kwp_mono; [eapply (kwp_block n true c' K2)|].
    + apply kinv_var; [done|]. apply (lv_inv _ L1).
    + split; [simpl; by rewrite lookup_insert_eq|]. by rewrite Ep.
    + done.
    + intros ? K3 Bl. apply kwp_bind.
      eapply kwp_mono; [by apply (kwp_resume_asleep n true (with_tcb t c' K))|].
      intros b K4 [A Hb]. by apply kwp_yield_unless.
  - apply kwp_bind, kwp_ret, kwp_bind. eapply kwp_mono; [by apply kwp_resume_calm|].
    intros b K4 [A _]. by apply kwp_ret.
Qed.

Definition with_notify_state (i : Z) (st : notify_state) (c : tcb) : tcb :=
  set_ucNotifyState (<[Z.to_nat i := st]> (ucNotifyState c)) c.
Definition with_notified (i v : Z) (c : tcb) : tcb :=
  set_ulNotifiedValue (<[Z.to_nat i := v]> (ulNotifiedValue c)) c.

Lemma kwp_wr_notify t c i st (Q : unit → kernel ktable → Prop) K :
  tcbs K !! t = Some c → Q tt (with_tcb t (with_notify_state i st c) K) → kwp (wr_notify t i st) Q K.
Proof. intros Hc HQ. by eapply kwp_wr_tcb. Qed.
Lemma kwp_wr_notified t c i v (Q : unit → kernel ktable → Prop) K :
  tcbs K !! t = Some c → Q tt (with_tcb t (with_notified i v c) K) → kwp (wr_notified t i v) Q K.
Proof. intros Hc HQ. by eapply kwp_wr_tcb. Qed.

(** [ulTaskGenericNotifyTake] waits while the count is 0. *)
Lemma kwp_take_wait i n c v K :
  live K → is_ready K (var K pxCurrentTCB) c → 0 ≤ n ≤ portMAX_DELAY →
  0 ≤ i < configTASK_NOTIFICATION_ARRAY_ENTRIES → ulNotifiedValue c !! Z.to_nat i = Some v →
  kwp (ulTaskGenericNotifyTake_wait i n) (λ _ K',
    if (v =? 0) && (0 <? n) then
      asleep n true (with_tcb (var K pxCurrentTCB) (with_notify_state i taskWAITING_NOTIFICATION c) K) K' ∧
      var K' pendsv = 1
    else K' = K) K.
Proof.
  intros L Hr Hn Hi Hv. pose proof Hr as [Hc _].
  unfold ulTaskGenericNotifyTake_wait. apply kwp_bind, kwp_assert; [lia|].
  apply kwp_bind, kwp_rd, kwp_bind. eapply kwp_notified; [exact Hc|exact Hv|].
  apply kwp_when; intros Hb; rewrite Hb; [|done].
  apply andb_true_iff in Hb as [Hv0 Hn0%Z.ltb_lt]. eapply kwp_mono.
  { apply (kwp_notify_block _ _ n c (with_notify_state i taskWAITING_NOTIFICATION c) true);
      [done|done|lia|done|done|..].
    - apply kwp_fmap. eapply kwp_notified; [exact Hc|exact Hv|]. by rewrite Hv0.
    - eapply kwp_wr_notify; [exact Hc|done]. }
  by intros ? K' HK.
Qed.

(** Afterwards it returns the count and lowers it by one or to 0. *)
Definition taken (i v : Z) (clear : bool) (c : tcb) : tcb :=
  with_notify_state i taskNOT_WAITING_NOTIFICATION
    (if v =? 0 then c else with_notified i (if clear then 0 else v - 1) c).

Lemma kwp_take_end i clear c v K :
  tcbs K !! var K pxCurrentTCB = Some c → ulNotifiedValue c !! Z.to_nat i = Some v → 0 ≤ v < 4294967296 →
  kwp (ulTaskGenericNotifyTake_end i clear) (λ r K', r = v ∧
    K' = with_tcb (var K pxCurrentTCB) (taken i v clear c) K) K.
Proof.
  intros Hc Hv Hr. unfold ulTaskGenericNotifyTake_end. apply kwp_bind, kwp_rd.
  apply kwp_bind. eapply kwp_notified; [exact Hc|exact Hv|]. apply kwp_bind. unfold taken.
  apply kwp_when; intros Hb; [apply negb_true_iff in Hb|apply negb_false_iff in Hb]; rewrite Hb.
  - eapply kwp_wr_notified; [exact Hc|].
    apply kwp_bind. eapply kwp_wr_notify; [simpl; by rewrite lookup_insert_eq|]. apply kwp_ret. split; [done|].
    rewrite with_tcb_twice. apply Z.eqb_neq in Hb. by rewrite u32_id by lia.
  - apply kwp_bind. eapply kwp_wr_notify; [exact Hc|]. by apply kwp_ret.
Qed.

(** [xTaskGenericNotifyWait] waits unless a notification has been received, with
    some bits of the value cleared. *)
Definition waits_for (i v bits : Z) (c : tcb) : tcb :=
  with_notify_state i taskWAITING_NOTIFICATION (with_notified i (Z.land v (u32 (Z.lnot bits))) c).

Lemma kwp_wait_wait i bits n c v st K :
  live K → is_ready K (var K pxCurrentTCB) c → 0 ≤ n ≤ portMAX_DELAY →
  0 ≤ i < configTASK_NOTIFICATION_ARRAY_ENTRIES → ulNotifiedValue c !! Z.to_nat i = Some v →
  ucNotifyState c !! Z.to_nat i = Some st →
  kwp (xTaskGenericNotifyWait_wait i bits n) (λ _ K',
    if negb (is_state st taskNOTIFICATION_RECEIVED) && (0 <? n) then
      asleep n true (with_tcb (var K pxCurrentTCB) (waits_for i v bits c) K) K' ∧ var K' pendsv = 1
    else K' = K) K.
Proof.
  intros L Hr Hn Hi Hv Hst. pose proof Hr as [Hc _].
  unfold xTaskGenericNotifyWait_wait. apply kwp_bind, kwp_assert; [lia|].
  apply kwp_bind, kwp_rd, kwp_bind. eapply kwp_notify_of; [exact Hc|exact Hst|].
  apply kwp_when; intros Hb; rewrite Hb; [|done].
  apply andb_true_iff in Hb as [Hv0 Hn0%Z.ltb_lt]. eapply kwp_mono.
  { apply (kwp_notify_block _ _ n c (waits_for i v bits c) true); [done|done|lia|done|done|..].
    - apply kwp_fmap. eapply kwp_notify_of; [exact Hc|exact Hst|]. by rewrite Hv0.
    - apply kwp_bind. eapply kwp_notified; [exact Hc|exact Hv|].
      apply kwp_bind. eapply kwp_wr_notified; [exact Hc|].
      eapply kwp_wr_notify; [simpl; by rewrite lookup_insert_eq|]. by rewrite with_tcb_twice. }
  by intros ? K' HK.
Qed.

(** Afterwards it tells whether one was received, and the value before some bits
    of it are cleared. *)
Definition waited (i v bits : Z) (st : notify_state) (c : tcb) : tcb :=
  with_notify_state i taskNOT_WAITING_NOTIFICATION
    (if is_state st taskNOTIFICATION_RECEIVED then with_notified i (Z.land v (u32 (Z.lnot bits))) c else c).

Lemma kwp_wait_end i bits c v st K :
  tcbs K !! var K pxCurrentTCB = Some c → ulNotifiedValue c !! Z.to_nat i = Some v →
  ucNotifyState c !! Z.to_nat i = Some st →
  kwp (xTaskGenericNotifyWait_end i bits) (λ r K', r = (is_state st taskNOTIFICATION_RECEIVED, v) ∧
    K' = with_tcb (var K pxCurrentTCB) (waited i v bits st c) K) K.
Proof.
  intros Hc Hv Hst. unfold xTaskGenericNotifyWait_end. apply kwp_bind, kwp_rd.
  apply kwp_bind. eapply kwp_notified; [exact Hc|exact Hv|].
  apply kwp_bind. eapply kwp_notify_of; [exact Hc|exact Hst|]. unfold waited.
  destruct (is_state st taskNOTIFICATION_RECEIVED) eqn:E; simpl; apply kwp_bind.
  - apply kwp_bind. eapply kwp_wr_notified; [exact Hc|]. apply kwp_ret, kwp_bind.
    eapply kwp_wr_notify; [simpl; by rewrite lookup_insert_eq|]. apply kwp_ret.
    by rewrite with_tcb_twice.
  - apply kwp_ret, kwp_bind. eapply kwp_wr_notify; [exact Hc|]. by apply kwp_ret.
Qed.

(** ** The rest of the notifications *)

Lemma kwp_state_clear t c i st K :
  t ≠ NULL → tcbs K !! t = Some c → 0 ≤ i < configTASK_NOTIFICATION_ARRAY_ENTRIES →
  ucNotifyState c !! Z.to_nat i = Some st →
  kwp (xTaskGenericNotifyStateClear t i) (λ b K', b = is_state st taskNOTIFICATION_RECEIVED ∧
    K' = if b then with_tcb t (with_notify_state i taskNOT_WAITING_NOTIFICATION c) K else K) K.
Proof.
  intros Ht Hc Hi Hst. unfold xTaskGenericNotifyStateClear. apply kwp_bind, kwp_assert; [lia|].
  apply kwp_bind, kwp_handle; [done|]. apply kwp_bind, kwp_assert; [by apply negb_true_iff, Z.eqb_neq|].
  apply kwp_bind. eapply kwp_notify_of; [exact Hc|exact Hst|]. apply kwp_if; intros E; rewrite E.
  - apply kwp_bind. eapply kwp_wr_notify; [exact Hc|]. by apply kwp_ret.
  - by apply kwp_ret.
Qed.

Lemma kwp_value_clear t c i v bits K :
  t ≠ NULL → tcbs K !! t = Some c → 0 ≤ i < configTASK_NOTIFICATION_ARRAY_ENTRIES →
  ulNotifiedValue c !! Z.to_nat i = Some v →
  kwp (ulTaskGenericNotifyValueClear t i bits) (λ r K', r = v ∧
    K' = with_tcb t (with_notified i (Z.land v (u32 (Z.lnot bits))) c) K) K.
Proof.
  intros Ht Hc Hi Hv. unfold ulTaskGenericNotifyValueClear. apply kwp_bind, kwp_assert; [lia|].
  apply kwp_bind, kwp_handle; [done|]. apply kwp_bind, kwp_assert; [by apply negb_true_iff, Z.eqb_neq|].
  apply kwp_bind. eapply kwp_notified; [exact Hc|exact Hv|].
  apply kwp_bind. eapply kwp_wr_notified; [exact Hc|]. by apply kwp_ret.
Qed.
End isr.
