(* ===== verification/KernelThm.v ===== *)
(** The theorems about the scheduler, and a scheduler at work. *)
From stdpp Require Import base tactics numbers list gmap sorting.
From S2P Require Import Prelude Words Sched KList KListThm KListRefine Kernel KernelApi KernelInv KernelMoves KernelTick KernelResume KernelPrio KernelLife KernelIsr.

(** * A scheduler

    A scheduler at work: five tasks a few ticks before the tick count
    overflows, one running, one ready beside it, the idle task, one asleep until
    just before the overflow and one waiting for an event until after it. *)

#[export] Instance demo_lists : KernelLists := {|
  pxReadyTasksLists := 100;
  xDelayedTaskList1 := 200;
  xDelayedTaskList2 := 220;
  xPendingReadyList := 240;
  xTasksWaitingTermination := 260;
  xSuspendedTaskList := 280
|}.

#[export] Instance demo_layout : Layout.
Proof. unfold Layout. apply (bool_decide_unpack _). vm_compute. exact I. Defined.

(** A list its callers use for an event. *)
Definition demo_event : Z := 300.

(** ** The memory before anything is in a list *)

Definition demo_all_lists : list Z := demo_event :: klists.
Definition demo_items : list (Z * (Z * Z)) :=
  [(1004, (0, 1000)); (1024, (5, 1000)); (2004, (0, 2000)); (2024, (3, 2000));
   (3004, (0, 3000)); (3024, (3, 3000)); (4004, (0, 4000)); (4024, (2, 4000));
   (5004, (0, 5000)); (5024, (4, 5000))].

Definition empty_mem : lmem :=
  Lmem (list_to_map (((λ L, (xListEnd L, Link portMAX_DELAY (xListEnd L) (xListEnd L))) <$> demo_all_lists) ++
                     ((λ x, (x.1, Link x.2.1 0 0)) <$> demo_items)))
       (list_to_map ((λ x, (x.1, Item x.2.2 NULL)) <$> demo_items))
       (list_to_map ((λ L, (L, List 0 (xListEnd L))) <$> demo_all_lists)).

Definition empty_table : ktable :=
  KT (list_to_map ((λ L, (L, KL [] (xListEnd L))) <$> demo_all_lists))
     (list_to_map ((λ x, (x.1, KI x.2.1 x.2.2 NULL)) <$> demo_items)).

(** The entries of a concrete map. *)
Lemma in_entries {A} (m : gmap Z A) x a l : map_to_list m = l → m !! x = Some a → (x, a) ∈ l.
Proof. intros <- Hx. by apply elem_of_map_to_list. Qed.

Ltac entries H :=
  eapply in_entries in H; [|vm_compute; reflexivity];
  repeat (apply elem_of_cons in H as [H|H]; [injection H as -> ->|]); [..|by apply not_elem_of_nil in H].

Lemma empty_represents : represents empty_mem empty_table.
Proof.
  split.
  - intros L k HL. unfold empty_table in HL. cbn [kt_lists] in HL.
    entries HL; (apply empty_list; [done|vm_compute; reflexivity..]).
  - intros x i Hi. unfold empty_table in Hi. cbn [kt_items] in Hi.
    entries Hi; unfold tick_value, portMAX_DELAY; simpl; (split_and!; [vm_compute; reflexivity|lia|lia|vm_compute; reflexivity..]).
  - intros x i L k Hi HL.
    assert (ki_home i = NULL) as -> by (unfold empty_table in Hi; cbn [kt_items] in Hi; by entries Hi).
    assert (NULL ≠ L ∧ k_items k = []) as [Hn ->]
      by (unfold empty_table in HL; cbn [kt_lists] in HL; by entries HL).
    split; [done|]. intros Hx. by apply not_elem_of_nil in Hx.
  - intros L k x HL Hx.
    assert (k_items k = []) as E by (unfold empty_table in HL; cbn [kt_lists] in HL; by entries HL).
    rewrite E in Hx. by apply not_elem_of_nil in Hx.
Qed.

(** ** The five tasks *)

Definition demo_setup : list lcall :=
  [CInsertEnd 100 1004; CInsertEnd 140 2004; CInsertEnd 140 3004; CNext 140;
   CSetValue 4004 4294967293; CInsert 200 4004;
   CSetValue 5004 3; CInsert 220 5004; CInsert 300 5024].

Definition demo_table : ktable := (lspecs demo_setup empty_table).2.

Definition demo_tcb (p : Z) : tcb := Tcb p p 0 [0; 0; 0] (replicate 3 taskNOT_WAITING_NOTIFICATION).

Definition demo_tcbs : gmap Z tcb :=
  list_to_map [(1000, demo_tcb 0); (2000, demo_tcb 2); (3000, demo_tcb 2); (4000, demo_tcb 3);
               (5000, demo_tcb 1)].

Definition demo_var (v : kvar) : Z :=
  match v with
  | pxCurrentTCB => 2000
  | pxDelayedTaskList => 200
  | pxOverflowDelayedTaskList => 220
  | uxCurrentNumberOfTasks => 5
  | xTickCount => 4294967290
  | uxTopReadyPriority => 5
  | xSchedulerRunning => 1
  | xNextTaskUnblockTime => 4294967293
  | uxTaskNumber => 5
  | _ => 0
  end.

Definition demo_kernel : kernel ktable := Kernel demo_table demo_tcbs demo_var.

Lemma demo_setup_legal : all_legal demo_setup empty_table.
Proof.
  unfold demo_setup. cbn [all_legal legal].
  repeat (split;
    [first [ split; [eexists; split; [vm_compute; reflexivity|vm_compute; reflexivity]|vm_compute; reflexivity]
           | eexists; split; [vm_compute; reflexivity|vm_compute; discriminate]
           | split; [eexists; vm_compute; reflexivity|split; vm_compute; discriminate] ]|]).
  exact I.
Qed.

(** A list memory that holds it. *)
Lemma demo_exists : ∃ k : kernel lmem, rep k demo_kernel.
Proof.
  destruct (wp_inv _ _ _ (run_refines demo_setup empty_mem empty_table empty_represents demo_setup_legal))
    as (rs & σ & _ & _ & R).
  by exists (Kernel σ demo_tcbs demo_var).
Qed.

(** ** It satisfies the invariant *)

Lemma demo_item x i :
  itm demo_kernel x = Some i →
  (x, i) ∈ [(1004, KI 0 1000 100); (1024, KI 5 1000 0); (2004, KI 0 2000 140); (2024, KI 3 2000 0);
            (3004, KI 0 3000 140); (3024, KI 3 3000 0); (4004, KI 4294967293 4000 200);
            (4024, KI 2 4000 0); (5004, KI 3 5000 220); (5024, KI 4 5000 300)].
Proof.
  intros Hi. change (kt_items demo_table !! x = Some i) in Hi.
  eapply in_entries in Hi; [|vm_compute; reflexivity].
  revert Hi. rewrite !elem_of_cons. tauto.
Qed.

Ltac cases_item H :=
  apply demo_item in H;
  repeat (apply elem_of_cons in H as [H|H]; [injection H as -> ->|]); [..|by apply not_elem_of_nil in H].

Lemma demo_task t c :
  tcbs demo_kernel !! t = Some c →
  (t, c) ∈ [(1000, demo_tcb 0); (2000, demo_tcb 2); (3000, demo_tcb 2); (4000, demo_tcb 3);
            (5000, demo_tcb 1)].
Proof.
  intros Hi. change (demo_tcbs !! t = Some c) in Hi.
  eapply in_entries in Hi; [|vm_compute; reflexivity].
  revert Hi. rewrite !elem_of_cons. tauto.
Qed.

Ltac cases_task H :=
  apply demo_task in H;
  repeat (apply elem_of_cons in H as [H|H]; [injection H as -> ->|]); [..|by apply not_elem_of_nil in H].

Lemma demo_core : core None demo_kernel.
Proof.
  split.
  - intros L HL. unfold klists in HL.
    repeat (apply elem_of_cons in HL as [->|HL]; [eexists; vm_compute; reflexivity|]).
    by apply not_elem_of_nil in HL.
  - by left.
  - vm_compute. reflexivity.
  - intros t c Hc.
    cases_task Hc; (split; [discriminate|]; split; [simpl; lia|]; split; [simpl; lia|]; split;
      [eexists; split; [vm_compute; reflexivity|]; split; [reflexivity|]; intros _;
       unfold stands; vm_compute; tauto
      |eexists; split; vm_compute; reflexivity]).
  - intros x i Hi Hh.
    cases_item Hi; try (by destruct Hh);
      (split; [eexists; vm_compute; reflexivity|]; split; [eexists; vm_compute; reflexivity|]);
      first [ left; split; [reflexivity|]; split; [apply (bool_decide_unpack _); vm_compute; exact I|discriminate]
            | right; split; [reflexivity|]; intros Hk; exfalso; revert Hk;
              apply (bool_decide_unpack _); vm_compute; exact I ].
  - intros L [-> | ->]; unfold in_order; vm_compute; repeat constructor.
  - simpl. lia.
  - eexists. vm_compute. reflexivity.
Qed.

Lemma demo_bits : bits demo_kernel.
Proof.
  split; [simpl; lia|]. intros p Hp.
  assert (p = 0 ∨ p = 1 ∨ p = 2 ∨ p = 3 ∨ p = 4) as Hc by lia.
  split.
  - destruct Hc as [->|[->|[->|[->| ->]]]]; try done; intros _; [exists 1004|exists 2004];
      eexists; split; vm_compute; reflexivity.
  - intros (x & i & Hi & Hh).
    cases_item Hi; destruct Hc as [->|[->|[->|[->| ->]]]]; done.
Qed.

Lemma demo_kinv : kinv demo_kernel.
Proof.
  split; [exact demo_core|exact demo_bits|].
  intros x i Hi. cases_item Hi; split; intros Hh; simpl in *; try done; lia.
Qed.

Lemma demo_live : live demo_kernel.
Proof.
  split; [exact demo_kinv|reflexivity|reflexivity| |reflexivity].
  intros x i Hi. by cases_item Hi.
Qed.

Lemma demo_running : is_ready demo_kernel (var demo_kernel pxCurrentTCB) (demo_tcb 2).
Proof. split; vm_compute; reflexivity. Qed.

(** * Theorems

    The theorems about the scheduler, each for every list code that keeps the
    laws of [ListLaws], with witnesses over the list memory of [KList]. *)

Section theorems.
Context `{Layout} {S : Type} `{ListLaws S}.
Implicit Types K : kernel ktable.

(** ** The services and the invariant *)

Inductive kcall :=
  | KTick | KSwitch | KSuspendAll | KResumeAll
  | KDelay (n : Z) | KDelayUntil (previous period : Z)
  | KPlace (L n : Z) | KGive (L : Z)
  | KPrioritySet (t p : Z) | KInherit (t : Z) | KDisinherit
  | KCreate (t p stack : Z) | KDelete (t : Z) | KSuspend (t : Z) | KResume (t : Z)
  | KNotify (t i v : Z) (act : eNotifyAction) | KNotifyTake (i n : Z) | KNotifyWait (i bits n : Z)
  | KNotifyFromISR (t i v : Z) (act : eNotifyAction) | KGiveFromISR (t i : Z) | KResumeFromISR (t : Z)
  | KDisinheritAfterTimeout (t highest : Z) | KCatchUp (n : Z) | KIdle.

Definition kcode (c : kcall) : M (kernel S) unit :=
  match c with
  | KTick => xTaskIncrementTick;; mret tt
  | KSwitch => vTaskSwitchContext
  | KSuspendAll => vTaskSuspendAll
  | KResumeAll => xTaskResumeAll;; mret tt
  | KDelay n => vTaskDelay n
  | KDelayUntil previous period => xTaskDelayUntil previous period;; mret tt
  | KPlace L n => vTaskPlaceOnEventList L n
  | KGive L => xTaskRemoveFromEventList L;; mret tt
  | KPrioritySet t p => vTaskPrioritySet t p
  | KInherit t => xTaskPriorityInherit t;; mret tt
  | KDisinherit => t ← rd pxCurrentTCB; xTaskPriorityDisinherit t;; mret tt
  | KCreate t p stack => xTaskCreate p stack t;; mret tt
  | KDelete t => vTaskDelete t
  | KSuspend t => vTaskSuspend t
  | KResume t => vTaskResume t
  | KNotify t i v act => xTaskGenericNotify t i v act;; mret tt
  | KNotifyTake i n => ulTaskGenericNotifyTake_wait i n
  | KNotifyWait i bits n => xTaskGenericNotifyWait_wait i bits n
  | KNotifyFromISR t i v act => xTaskGenericNotifyFromISR t i v act;; mret tt
  | KGiveFromISR t i => vTaskGenericNotifyGiveFromISR t i;; mret tt
  | KResumeFromISR t => xTaskResumeFromISR t;; mret tt
  | KDisinheritAfterTimeout t highest => vTaskPriorityDisinheritAfterTimeout t highest
  | KCatchUp n => xTaskCatchUpTicks n;; mret tt
  | KIdle => prvIdleTask
  end.

(** Notification [i] of task [t] exists, and if the task waits for it, it waits
    for no event. *)
Definition notifiable K (t i : Z) : Prop :=
  ∃ c old st, tcbs K !! t = Some c ∧ 0 ≤ i < 3 ∧
    ulNotifiedValue c !! Z.to_nat i = Some old ∧ ucNotifyState c !! Z.to_nat i = Some st ∧
    (st = taskWAITING_NOTIFICATION → home_of K (xEventListItem t) = NULL).

(** The running task may wait for its notification [i] for [n] ticks. *)
Definition may_wait K (i n : Z) : Prop :=
  live K ∧ 0 ≤ n ≤ portMAX_DELAY ∧ ∃ c v st, is_ready K (var K pxCurrentTCB) c ∧ 0 ≤ i < 3 ∧
    ulNotifiedValue c !! Z.to_nat i = Some v ∧ ucNotifyState c !! Z.to_nat i = Some st.

(** When a service may be called. *)
Definition klegal (c : kcall) K : Prop :=
  match c with
  | KTick => True
  | KSwitch => var K uxSchedulerSuspended ≠ 0 ∨ ∃ t c, is_ready K t c
  | KSuspendAll => 0 ≤ var K uxSchedulerSuspended < 4294967295
  | KResumeAll =>
      (var K uxSchedulerSuspended = 1 ∧ 0 < var K uxCurrentNumberOfTasks ∧ 0 ≤ var K xPendedTicks) ∨
      1 < var K uxSchedulerSuspended < 4294967296
  | KDelay n => live K ∧ (∃ c, is_ready K (var K pxCurrentTCB) c) ∧ 0 < n ≤ portMAX_DELAY
  | KDelayUntil previous period =>
      live K ∧ (∃ c, is_ready K (var K pxCurrentTCB) c) ∧
      0 ≤ previous < 4294967296 ∧ 0 < period < 4294967296
  | KPlace L n =>
      (∃ c, is_ready K (var K pxCurrentTCB) c) ∧ event_list K L ∧
      home_of K (xEventListItem (var K pxCurrentTCB)) = NULL ∧ 0 < n ≤ portMAX_DELAY
  | KGive L => event_list K L ∧ members K L ≠ []
  | KPrioritySet t p => is_Some (tcbs K !! t) ∧ 0 ≤ p < 5
  | KInherit t => is_Some (tcbs K !! t)
  | KDisinherit => ∃ c, is_ready K (var K pxCurrentTCB) c ∧ 0 < uxMutexesHeld c < 4294967296
  | KCreate t p stack =>
      fresh_tcb K t ∧ stack ≠ NULL ∧ 0 ≤ p < 5 ∧ 2 * (Z.of_nat (size (tcbs K)) + 1) < 4294967290
  | KDelete t => is_Some (tcbs K !! t) ∧
      (t = var K pxCurrentTCB → var K xSchedulerRunning ≠ 0 ∧ var K uxSchedulerSuspended = 0)
  | KSuspend t => is_Some (tcbs K !! t) ∧ var K xSchedulerRunning ≠ 0 ∧ var K uxSchedulerSuspended = 0
  | KResume t => is_Some (tcbs K !! t)
  | KNotify t i _ _ | KNotifyFromISR t i _ _ | KGiveFromISR t i => notifiable K t i
  | KNotifyTake i n | KNotifyWait i _ n => may_wait K i n
  | KResumeFromISR t => is_Some (tcbs K !! t)
  | KDisinheritAfterTimeout t highest => ∃ c, tcbs K !! t = Some c ∧ uxMutexesHeld c ≠ 0 ∧
      highest < 5 ∧ t ≠ var K pxCurrentTCB
  | KCatchUp n => var K uxSchedulerSuspended = 0 ∧ 0 < var K uxCurrentNumberOfTasks
  | KIdle => terminable K
  end.

Lemma kwp_void {A} (m : M (kernel S) A) (P : A → kernel ktable → Prop) (Q : kernel ktable → Prop) K :
  kwp m P K → (∀ a K', P a K' → Q K') → kwp (m;; mret tt) (λ _, Q) K.
Proof.
  intros Hm HQ. apply kwp_bind. eapply kwp_mono; [exact Hm|]. intros a K' HP. apply kwp_ret. eauto.
Qed.

Lemma kwp_tick_suspended K :
  var K uxSchedulerSuspended ≠ 0 →
  kwp xTaskIncrementTick (λ b K', b = false ∧
    K' = set_var xPendedTicks (u32 (var K xPendedTicks + 1)) K) K.
Proof.
  intros Hs. unfold xTaskIncrementTick. apply kwp_bind, kwp_rd. rewrite (proj2 (Z.eqb_neq _ 0)) by done.
  apply kwp_bind, kwp_rd, kwp_bind, kwp_wr. by apply kwp_ret.
Qed.

Lemma kwp_switch_suspended K :
  var K uxSchedulerSuspended ≠ 0 → kwp vTaskSwitchContext (λ _ K', K' = set_var xYieldPending 1 K) K.
Proof.
  intros Hs. unfold vTaskSwitchContext. apply kwp_bind, kwp_rd.
  rewrite (proj2 (Z.eqb_neq _ 0)) by done. by apply kwp_wr.
Qed.

Lemma kwp_priority_same t c K :
  kinv K → tcbs K !! t = Some c → 0 ≤ uxBasePriority c < 5 →
  kwp (vTaskPrioritySet t (uxBasePriority c)) (λ _ K', K' = K) K.
Proof.
  intros [C _ _] Hc Hb. destruct (co_task _ _ C t c Hc) as (Htn & _).
  unfold vTaskPrioritySet. apply kwp_bind, kwp_assert; [unfold configMAX_PRIORITIES; lia|].
  apply kwp_bind, kwp_handle; [done|]. apply kwp_bind, kwp_assert; [by apply negb_true_iff, Z.eqb_neq|].
  apply kwp_bind, kwp_fmap. eapply kwp_rd_tcb; [exact Hc|]. rewrite Z.eqb_refl. by apply kwp_ret.
Qed.

Lemma kwp_resume_self K :
  kinv K → kwp (vTaskResume (var K pxCurrentTCB)) (λ _ K', K' = K) K.
Proof.
  intros [C _ _]. destruct (co_current _ _ C) as [c Hc]. destruct (co_task _ _ C _ c Hc) as (Htn & _).
  unfold vTaskResume. apply kwp_bind, kwp_assert; [by apply negb_true_iff, Z.eqb_neq|].
  apply kwp_bind, kwp_rd. rewrite Z.eqb_refl. by apply kwp_ret.
Qed.

(** The services in four groups: the clock and the switch, events and priorities,
    the life of tasks, notifications. *)
Definition keeps (c : kcall) : Prop := ∀ K, kinv K → klegal c K → kwp (kcode c) (λ _, kinv) K.

Definition is_clock (c : kcall) : bool :=
  match c with
  | KTick | KSwitch | KSuspendAll | KResumeAll
  | KDelay _ | KDelayUntil _ _ | KCatchUp _ | KIdle => true
  | _ => false
  end.

Definition is_event_call (c : kcall) : bool :=
  match c with
  | KPlace _ _ | KGive _ | KPrioritySet _ _ | KInherit _
  | KDisinherit | KDisinheritAfterTimeout _ _ => true
  | _ => false
  end.

Definition is_life (c : kcall) : bool :=
  match c with
  | KCreate _ _ _ | KDelete _ | KSuspend _ | KResume _
  | KResumeFromISR _ => true
  | _ => false
  end.

Definition is_notify (c : kcall) : bool :=
  match c with
  | KNotify _ _ _ _ | KNotifyTake _ _ | KNotifyWait _ _ _ | KNotifyFromISR _ _ _ _
  | KGiveFromISR _ _ => true
  | _ => false
  end.

Lemma clock_keeps c : is_clock c = true → keeps c.
Proof.
  intros Hg K I Hl. pose proof I as [C _ _]. destruct (co_current _ _ C) as [cc Hcc].
  destruct c; try done; cbn [kcode klegal] in *.
  - destruct (decide (var K uxSchedulerSuspended = 0)) as [Hs|Hs].
    + eapply kwp_void; [by apply kwp_tick|]. intros b K' T. apply (tk_inv _ _ _ T).
    + eapply kwp_void; [by apply kwp_tick_suspended|]. intros b K' [_ ->]. by apply kinv_var.
  - destruct (decide (var K uxSchedulerSuspended = 0)) as [Hs|Hs].
    + eapply kwp_mono; [apply kwp_switch; naive_solver|]. intros ? K' W. apply (sw_inv _ _ W).
    + eapply kwp_mono; [by apply kwp_switch_suspended|]. intros ? K' ->. by apply kinv_var.
  - apply kwp_suspend_all; [done|]. by apply kinv_var.
  - destruct Hl as [(Hs & Ht & Hn)|Hs].
    + eapply kwp_void; [by apply kwp_resume_all|]. intros b K' R. apply (rs_inv _ _ _ R).
    + eapply kwp_void; [by apply kwp_resume_nested|]. intros b K' [_ ->]. by apply kinv_var.
  - destruct Hl as (L & [c Hr] & Hn). eapply kwp_mono; [by eapply kwp_delay|].
    intros ? K' [A _]. apply (lv_inv _ (as_live _ _ _ _ A)).
  - destruct Hl as (L & [c Hr] & Hp & Hi). eapply kwp_void; [by eapply kwp_delay_until|].
    intros [b next] K' (_ & _ & _ & A). destruct b; [apply (lv_inv _ (as_live _ _ _ _ A))|].
    apply lv_inv, A.
  - destruct Hl as [Hs Ht]. eapply kwp_void; [by apply kwp_catch_up|]. intros b K' R. apply (rs_inv _ _ _ R).
  - eapply kwp_mono; [by apply kwp_idle|]. intros ? K' (K1 & Cl & ->).
    case_match; [apply kinv_var; [done|]|]; apply (cl_inv _ _ Cl).
Qed.

Lemma event_keeps c : is_event_call c = true → keeps c.
Proof.
  intros Hg K I Hl. pose proof I as [C _ _]. destruct (co_current _ _ C) as [cc Hcc].
  destruct c; try done; cbn [kcode klegal] in *.
  - destruct Hl as ([c Hr] & HL & He & Hn). eapply kwp_mono; [by eapply kwp_place_on_event_list|].
    intros ? K' W. apply (wo_inv _ _ _ _ W).
  - destruct Hl as [HL Hm]. apply kwp_ok. intros Htab.
    destruct (members K L) as [|x l] eqn:E; [done|].
    destruct (event_member None K L x Htab C HL) as (e & c & He & _ & -> & Hc); [rewrite E; set_solver|].
    eapply kwp_void; [by eapply kwp_remove_from_event_list|]. intros b K' [_ G]. apply (eg_inv _ _ _ _ _ _ G).
  - destruct Hl as [[c Hc] Hp]. destruct (decide (uxBasePriority c = p)) as [<-|Hne].
    + eapply kwp_mono; [by apply kwp_priority_same|]. by intros ? K' ->.
    + eapply kwp_mono; [by eapply kwp_priority_set|]. intros ? K' [R _]. apply (rc_inv _ _ _ _ _ R).
  - destruct Hl as [c Hc]. eapply kwp_void; [by eapply kwp_inherit|]. intros b K'.
    case_match; [intros [_ R]; apply (rc_inv _ _ _ _ _ R)|by intros [_ ->]].
  - destruct Hl as (c & Hr & Hm). apply kwp_bind, kwp_rd. eapply kwp_void; [by apply kwp_disinherit|].
    intros b K' [_ R]. apply (rc_inv _ _ _ _ _ R).
  - destruct Hl as (c & Hc & Hm & Hh & Hne). eapply kwp_mono; [by apply (kwp_disinherit_after_timeout t c)|].
    intros ? K'. case_match; [intros R; apply (rc_inv _ _ _ _ _ R)|by intros ->].
Qed.

Lemma life_keeps c : is_life c = true → keeps c.
Proof.
  intros Hg K I Hl. pose proof I as [C _ _]. destruct (co_current _ _ C) as [cc Hcc].
  destruct c; try done; cbn [kcode klegal] in *.
  - destruct Hl as (Hf & Hst & Hp & Hsize). eapply kwp_void; [by eapply kwp_create|].
    intros r K' [_ Cr]. apply (cr_inv _ _ _ _ _ Cr).
  - destruct Hl as [[c Hc] Hcur]. destruct (decide (t = var K pxCurrentTCB)) as [->|Hne].
    + destruct (Hcur eq_refl). eapply kwp_mono; [by eapply kwp_delete_self|].
      intros ? K' [P _]. apply (pk_inv _ _ _ _ _ P).
    + eapply kwp_mono; [by eapply kwp_delete_other|]. intros ? K' (I' & _). exact I'.
  - destruct Hl as ([c Hc] & Hr & Hs). eapply kwp_mono; [by eapply kwp_suspend|].
    intros ? K' [P _]. apply (pk_inv _ _ _ _ _ P).
  - destruct Hl as [c Hc]. destruct (decide (t = var K pxCurrentTCB)) as [->|Hne].
    + eapply kwp_mono; [by apply kwp_resume_self|]. by intros ? K' ->.
    + eapply kwp_mono; [by eapply kwp_task_resume|]. intros ? K'.
      case_match; [intros [P _]; apply (pk_inv _ _ _ _ _ P)|by intros ->].
  - destruct Hl as [c Hc]. eapply kwp_void; [by eapply kwp_resume_from_isr|]. intros b K'.
    case_match; [intros [_ Hd]; apply (hd_inv _ _ _ _ _ Hd)|by intros [_ ->]].
Qed.

Lemma notify_keeps c : is_notify c = true → keeps c.
Proof.
  intros Hg K I Hl. pose proof I as [C _ _]. destruct (co_current _ _ C) as [cc Hcc].
  destruct c; try done; cbn [kcode klegal] in *.
  - destruct Hl as (c & old & st & Hc & Hi & Hv & Hst & Hev).
    eapply kwp_void; [by eapply kwp_notify|]. intros [ok prev] K' (_ & _ & W). apply (wn_inv _ _ _ _ _ _ _ W).
  - destruct Hl as (L & Hn & c & v & st & Hr & Hi & Hv & _). eapply kwp_mono; [by eapply kwp_take_wait|].
    intros ? K'. case_match; [intros [A _]; apply (lv_inv _ (as_live _ _ _ _ A))|by intros ->].
  - destruct Hl as (L & Hn & c & v & st & Hr & Hi & Hv & Hst). eapply kwp_mono; [by eapply kwp_wait_wait|].
    intros ? K'. case_match; [intros [A _]; apply (lv_inv _ (as_live _ _ _ _ A))|by intros ->].
  - destruct Hl as (c & old & st & Hc & Hi & Hv & Hst & Hev).
    eapply kwp_void; [by eapply kwp_notify_from_isr|]. intros [[ok prev] b] K' (_ & _ & W).
    eapply notified_from_isr_inv; [|exact W]. by eapply kinv_tcb_same.
  - destruct Hl as (c & old & st & Hc & Hi & Hv & Hst & Hev).
    eapply kwp_void; [by eapply kwp_give_from_isr|]. intros b K' W.
    eapply notified_from_isr_inv; [|exact W]. by eapply kinv_tcb_same.
Qed.

(** C10: every service of the scheduler, called as its conditions ask, returns
    and keeps the scheduler's data in order: every item in the list it says and
    owned by its task, the ready list of each priority holding only tasks of
    that priority, the bit map telling which are occupied, the delayed lists
    sorted and in the future. *)
Theorem services_keep_invariant c K :
  kinv K → klegal c K → kwp (kcode c) (λ _, kinv) K.
Proof.
  revert K. change (keeps c).
  destruct (is_clock c) eqn:E1; [by apply clock_keeps|]. destruct (is_event_call c) eqn:E2; [by apply event_keeps|].
  destruct (is_life c) eqn:E3; [by apply life_keeps|]. apply notify_keeps. by destruct c.
Qed.

(** ** Who runs *)

(** C22: a context switch with the scheduler running gives the processor to a
    ready task of the highest priority, and among those to the one whose turn it
    is; with the scheduler suspended it is put off. *)
Theorem switch_runs_highest K :
  kinv K → (∃ t c, is_ready K t c) →
  kwp vTaskSwitchContext (λ _ K',
    if var K uxSchedulerSuspended =? 0 then switched K K' else K' = set_var xYieldPending 1 K) K.
Proof.
  intros I Hr. destruct (Z.eqb_spec (var K uxSchedulerSuspended) 0).
  - by apply kwp_switch.
  - by apply kwp_switch_suspended.
Qed.

(** [n] switches, and the tasks they chose. *)
Fixpoint run_switches (n : nat) : M (kernel S) (list Z) :=
  match n with
  | O => mret []
  | Datatypes.S n =>
      vTaskSwitchContext;;
      t ← rd pxCurrentTCB;
      ts ← run_switches n;
      mret (t :: ts)
  end.

(** The most important tasks that are ready have priority [p]. *)
Definition highest_ready K (p : Z) : Prop :=
  (∃ t c, is_ready K t c ∧ uxPriority c = p) ∧ ∀ t c, is_ready K t c → uxPriority c ≤ p.

Lemma same_ready K K' t c :
  (∀ x, itm K' x = itm K x) → tcbs K' = tcbs K → is_ready K' t c ↔ is_ready K t c.
Proof. intros X T. unfold is_ready, home_of. by rewrite X, T. Qed.

Lemma switches_in_turn p n K u v :
  kinv K → var K uxSchedulerSuspended = 0 → highest_ready K p →
  upcoming (position K (ready p)) (members K (ready p)) = u ++ v → length u = n →
  kwp (run_switches n) (λ ts _, xStateListItem <$> ts = u) K.
Proof.
  revert K u v. induction n as [|n IH]; intros K u v I Hs Hp E Hlen.
  { destruct u; [|done]. by apply kwp_ret. }
  destruct u as [|x u]; [done|]. injection Hlen as Hlen. cbn [run_switches].
  apply kwp_ok. intros Htab. pose proof Hp as ((t0 & c0 & Hr0 & Ep0) & Hmax).
  apply kwp_bind. eapply kwp_mono; [apply kwp_switch; eauto|]. intros ? K1 W.
  destruct (sw_current _ _ W) as (c & Hr & Hbest & Hhead & Hpos).
  pose proof (same_ready K K1 (var K1 pxCurrentTCB) c (sw_itm _ _ W) (sw_tcbs _ _ W)) as Hsame.
  assert (uxPriority c = p) as Ep.
  { pose proof (Hmax _ c (proj1 Hsame Hr)). pose proof (Hbest t0 c0 Hr0). lia. }
  rewrite Ep in Hhead, Hpos. rewrite E in Hhead. injection Hhead as Ex.
  apply kwp_bind, kwp_rd, kwp_bind. eapply kwp_mono.
  - eapply (IH K1 u (v ++ [x])); [apply (sw_inv _ _ W)|by rewrite (sw_var _ _ W)| | |done].
    + split.
      * exists (var K1 pxCurrentTCB), c. done.
      * intros t ct Ht. apply (Hmax t). by apply (same_ready K K1 t ct (sw_itm _ _ W) (sw_tcbs _ _ W)).
    + rewrite Hpos, (sw_members _ _ W), <-Ex, app_assoc.
      destruct (kt_lists (kmem K) !! ready p) as [k|] eqn:HL.
      2: { unfold members in E. by rewrite HL in E. }
      unfold position, members in E |- *. rewrite HL in E |- *. simpl in E |- *.
      by apply (upcoming_next (xListEnd (ready p)) (k_index k) x (k_items k) (u ++ v));
        [apply (to_nodup _ Htab (ready p))|apply (to_index _ Htab (ready p))|].
  - intros ts K2 Hts. cbv beta in Hts. apply kwp_ret. by rewrite fmap_cons, Hts, Ex.
Qed.

(** Time is shared fairly: as many switches as the highest priority has ready
    tasks give the processor to each of them once, in the order of their list. *)
Theorem time_slices_fair p K :
  kinv K → var K uxSchedulerSuspended = 0 → highest_ready K p →
  kwp (run_switches (length (members K (ready p)))) (λ ts _,
    xStateListItem <$> ts = upcoming (position K (ready p)) (members K (ready p)) ∧
    ∀ t, (∃ c, is_ready K t c ∧ uxPriority c = p) → t ∈ ts) K.
Proof.
  intros I Hs Hp. apply kwp_ok. intros Htab. pose proof I as [C _ _].
  pose proof Hp as [(t0 & c0 & Hr0 & Ep0) Hmax].
  destruct (co_task _ _ C t0 c0 (proj1 Hr0)) as (_ & Hpr & _). rewrite Ep0 in Hpr.
  assert (has_list K (ready p)) as [k HL] by by apply (co_lists _ _ C), ready_in.
  assert (upcoming (position K (ready p)) (members K (ready p)) ≡ₚ members K (ready p)) as Hperm.
  { unfold position, members. rewrite HL. simpl. eapply (upcoming_perm (xListEnd (ready p)));
      [apply (to_nodup _ Htab _ _ HL)|apply (to_index _ Htab _ _ HL)]. }
  eapply kwp_mono.
  - apply (switches_in_turn p _ K (upcoming (position K (ready p)) (members K (ready p))) []);
      [done|done|done|by rewrite app_nil_r|by rewrite Hperm].
  - intros ts K' Hts. split; [exact Hts|]. intros t (c & Hr & Ep).
    destruct (is_ready_item K t c C Hr) as (i & Hi & Hh). rewrite Ep in Hh.
    assert (xStateListItem t ∈ xStateListItem <$> ts) as Hin.
    { rewrite Hts, Hperm. apply (in_members K Htab _ i _ Hi); [by exists k|done]. }
    apply list_elem_of_fmap in Hin as (t' & E & Ht'). unfold xStateListItem in E.
    by replace t with t' by lia.
Qed.

(** ** Time *)

(** C23: a tick moves the clock on by one, also when it wraps, and with it every
    wait that has a time-out: the tasks whose wait is over, and no others, become
    ready and leave their event lists, and a switch is asked for exactly if one
    of them is more important than the running task, another task of its
    priority is ready, or a yield was pending. *)
Theorem tick_exact K :
  kinv K → var K uxSchedulerSuspended = 0 → kwp xTaskIncrementTick (ticked K) K.
Proof. apply kwp_tick. Qed.

(** Resuming the scheduler loses nothing that happened while it was suspended:
    the tasks readied by interrupts become ready, the ticks missed are counted,
    every wait is shorter by as many ticks or over, and if a task released is more
    important than the running one, a switch is asked for. *)
Theorem resume_catches_up K :
  kinv K → var K uxSchedulerSuspended = 1 → 0 < var K uxCurrentNumberOfTasks →
  0 ≤ var K xPendedTicks → kwp xTaskResumeAll (resumed K) K.
Proof. apply kwp_resume_all. Qed.

(** [vTaskDelay] makes the running task wait for exactly the ticks it names,
    also across the overflow of the tick count, disturbs no other task and asks
    for a switch. *)
Theorem delay_exact n c K :
  live K → is_ready K (var K pxCurrentTCB) c → 0 < n ≤ portMAX_DELAY →
  kwp (vTaskDelay n) (λ _ K', asleep n false K K' ∧ var K' pendsv = 1) K.
Proof. apply kwp_delay. Qed.

(** C25: [xTaskDelayUntil] keeps a period without drift: less than a period after
    the previous wake-up the task waits for just the rest of it, otherwise not at
    all, and the next wake-up time is the previous one plus the period; modulo
    2^32 throughout. *)
Theorem delay_until_periodic previous period c K :
  live K → is_ready K (var K pxCurrentTCB) c →
  0 ≤ previous < 4294967296 → 0 < period < 4294967296 →
  let elapsed := u32 (var K xTickCount - previous) in
  kwp (xTaskDelayUntil previous period) (λ '(b, next) K',
    b = (elapsed <? period) ∧ next = u32 (previous + period) ∧ var K' pendsv = 1 ∧
    if b then asleep (period - elapsed) false K K'
    else live K' ∧ var K' pxCurrentTCB = var K pxCurrentTCB ∧ var K' xTickCount = var K xTickCount ∧
         ∀ t ct, tcbs K !! t = Some ct → undisturbed K K' t) K.
Proof. apply kwp_delay_until. Qed.

(** [xTaskCheckForTimeOut] is exact within 2^32 ticks of [vTaskSetTimeOutState],
    across overflows of the tick count: it reports a time-out exactly if the
    ticks allowed have passed, and otherwise leaves those that remain and starts
    again from now. *)
Theorem timeout_exact K to ticks :
  0 ≤ var K xTickCount < 4294967296 → 0 ≤ xTimeOnEntering to < 4294967296 →
  0 ≤ ticks < portMAX_DELAY →
  let elapsed := clock_of (var K xNumOfOverflows) (var K xTickCount) -
                 clock_of (xOverflowCount to) (xTimeOnEntering to) in
  0 ≤ elapsed < 4294967296 →
  kwp (xTaskCheckForTimeOut to ticks) (λ '(b, (to', ticks')) K', K' = K ∧
    b = (ticks <=? elapsed) ∧
    if b then to' = to ∧ ticks' = 0
    else to' = TimeOut (var K xNumOfOverflows) (var K xTickCount) ∧ ticks' = ticks - elapsed) K.
Proof. apply check_timeout_exact. Qed.

(** ** Events *)

(** [vTaskPlaceOnEventList] enters the running task in the event list by
    priority, after those as important, and makes it wait for the ticks it names
    or for ever. *)
Theorem place_on_event_list L n c K :
  kinv K → is_ready K (var K pxCurrentTCB) c → event_list K L →
  home_of K (xEventListItem (var K pxCurrentTCB)) = NULL → 0 < n ≤ portMAX_DELAY →
  kwp (vTaskPlaceOnEventList L n) (λ _, waits_on L n K) K.
Proof. apply kwp_place_on_event_list. Qed.

(** [xTaskRemoveFromEventList] wakes the task at the head of the event list,
    or holds it pending while the scheduler is suspended, and no other, and tells
    whether it is more important than the running task. *)
Theorem remove_from_event_list L t c cc l K :
  kinv K → event_list K L → members K L = xEventListItem t :: l → tcbs K !! t = Some c →
  tcbs K !! var K pxCurrentTCB = Some cc →
  kwp (xTaskRemoveFromEventList L)
    (λ b K', b = (uxPriority cc <? uxPriority c) ∧ event_given L t c b K K') K.
Proof. apply kwp_remove_from_event_list. Qed.

(** ** Priorities *)

(** A task that holds a mutex inherits the priority of the running task that
    waits for it, if that is higher, wherever it is; its base priority stays. *)
Theorem inherit_priority t c cc K :
  kinv K → tcbs K !! t = Some c → tcbs K !! var K pxCurrentTCB = Some cc →
  kwp (xTaskPriorityInherit t) (λ b K',
    if uxPriority c <? uxPriority cc then
      b = true ∧ repriced t c (set_uxPriority (uxPriority cc) c) K K'
    else b = (uxBasePriority c <? uxPriority cc) ∧ K' = K) K.
Proof. apply kwp_inherit. Qed.

(** Giving back the last mutex it holds, a task has its base priority again
    and is ready at it; before that it keeps the one inherited. *)
Theorem disinherit_priority c K :
  kinv K → is_ready K (var K pxCurrentTCB) c → 0 < uxMutexesHeld c < 4294967296 →
  kwp (xTaskPriorityDisinherit (var K pxCurrentTCB)) (λ b K',
    b = negb (uxPriority c =? uxBasePriority c) && (uxMutexesHeld c =? 1) ∧
    repriced (var K pxCurrentTCB) c (gave_back c) K K') K.
Proof. apply kwp_disinherit. Qed.

(** ** Notifications *)

(** A notification changes the value of its index as its action says, returns
    the one before, is marked received, and makes the task ready exactly if it
    waits for it, with a switch if it is more important. *)
Theorem notify_exact t c cc i v old st act K :
  kinv K → tcbs K !! t = Some c → tcbs K !! var K pxCurrentTCB = Some cc →
  0 ≤ i < configTASK_NOTIFICATION_ARRAY_ENTRIES →
  ulNotifiedValue c !! Z.to_nat i = Some old → ucNotifyState c !! Z.to_nat i = Some st →
  (st = taskWAITING_NOTIFICATION → home_of K (xEventListItem t) = NULL) →
  kwp (xTaskGenericNotify t i v act) (λ '(ok, previous) K',
    previous = old ∧ ok = (notify_effect act old v st).1 ∧
    was_notified t c (notified_tcb i (notify_effect act old v st).2 c)
      (bool_decide (st = taskWAITING_NOTIFICATION)) (uxPriority cc) K K') K.
Proof. apply kwp_notify. Qed.
End theorems.

(** ** At work *)

Lemma services_keep_invariant_witness :
  ∃ k : kernel lmem, rep k demo_kernel ∧
    wp (kcode (KDelay 5)) (λ _ k', ∃ K', rep k' K' ∧ kinv K') k ∧
    wp (kcode (KCreate 6000 4 50000)) (λ _ k', ∃ K', rep k' K' ∧ kinv K') k.
Proof.
  destruct demo_exists as [k R]. exists k. split; [exact R|]. split.
  - apply (services_keep_invariant (KDelay 5) demo_kernel demo_kinv); [|exact R].
    split; [exact demo_live|]. split; [exists (demo_tcb 2); exact demo_running|vm_compute; split; [reflexivity|discriminate]].
  - apply (services_keep_invariant (KCreate 6000 4 50000) demo_kernel demo_kinv); [|exact R].
    split; [|split; [discriminate|split; [lia|vm_compute; reflexivity]]].
    split; [discriminate|]. split; [vm_compute; reflexivity|].
    intros x [-> | ->]; split; vm_compute; reflexivity.
Defined.

Lemma demo_some_ready : ∃ t c, is_ready demo_kernel t c.
Proof. exists 2000, (demo_tcb 2). exact demo_running. Qed.

Lemma demo_most_ready t c : is_ready demo_kernel t c → 2 ≤ uxPriority c → uxPriority c = 2.
Proof. intros [Hc Hh] Hp. cases_task Hc; simpl in Hp; try lia; [done|done|by vm_compute in Hh]. Qed.

Lemma switch_runs_highest_witness :
  ∃ k : kernel lmem, rep k demo_kernel ∧ wp vTaskSwitchContext (λ _ k', var k' pxCurrentTCB = 3000) k.
Proof.
  destruct demo_exists as [k R]. exists k. split; [exact R|].
  eapply wp_mono; [exact (switch_runs_highest demo_kernel demo_kinv demo_some_ready k R)|].
  intros ? k' (K' & (_ & _ & ->) & W). cbv beta in W.
  change (var demo_kernel uxSchedulerSuspended =? 0) with true in W. cbv iota in W.
  destruct (sw_current _ _ W) as (c & Hr & Hbest & Hhead & _).
  assert (tcbs K' = tcbs demo_kernel) as T by apply (sw_tcbs _ _ W).
  pose proof (Hbest 2000 (demo_tcb 2) demo_running) as H2. simpl in H2.
  assert (is_ready demo_kernel (var K' pxCurrentTCB) c) as Hr'
    by by apply (same_ready demo_kernel K' _ _ (sw_itm _ _ W) T).
  assert (uxPriority c = 2) as Ep by by apply (demo_most_ready (var K' pxCurrentTCB)).
  rewrite Ep in Hhead. change (Some 3004 = Some (xStateListItem (var K' pxCurrentTCB))) in Hhead.
  injection Hhead as E. unfold xStateListItem in E. lia.
Defined.

Lemma demo_highest : highest_ready demo_kernel 2.
Proof.
  split; [exists 2000, (demo_tcb 2); split; [exact demo_running|reflexivity]|].
  intros t c Hr. destruct (Z.le_gt_cases (uxPriority c) 2); [done|].
  rewrite (demo_most_ready t c Hr); lia.
Qed.

Lemma time_slices_fair_witness :
  ∃ k : kernel lmem, rep k demo_kernel ∧
    wp (run_switches 2) (λ ts _, xStateListItem <$> ts = [3004; 2004]) k.
Proof.
  destruct demo_exists as [k R]. exists k. split; [exact R|].
  eapply wp_mono; [exact (time_slices_fair 2 demo_kernel demo_kinv eq_refl demo_highest k R)|].
  intros ts k' (K' & _ & Hts & _). exact Hts.
Defined.

Lemma tick_exact_witness :
  ∃ k : kernel lmem, rep k demo_kernel ∧
    wp xTaskIncrementTick (λ _ k', ∃ K', rep k' K' ∧ wait_left K' 4000 = Some 2 ∧ wait_left K' 5000 = Some 8) k.
Proof.
  destruct demo_exists as [k R]. exists k. split; [exact R|].
  eapply wp_mono; [exact (tick_exact demo_kernel demo_kinv eq_refl k R)|].
  intros b k' (K' & R' & T). exists K'. split; [exact R'|]. split.
  - apply (tk_asleep _ _ _ T 4000 (demo_tcb 3) 3); [reflexivity|vm_compute; reflexivity|discriminate].
  - apply (tk_asleep _ _ _ T 5000 (demo_tcb 1) 9); [reflexivity|vm_compute; reflexivity|discriminate].
Defined.

(** The scheduler suspended for twelve ticks. *)
Definition demo_suspended : kernel ktable :=
  set_var xPendedTicks 12 (set_var uxSchedulerSuspended 1 demo_kernel).

Lemma resume_catches_up_witness :
  ∃ k : kernel lmem, rep k demo_suspended ∧
    wp xTaskResumeAll (λ b k', b = true ∧ ∃ K', rep k' K' ∧ var K' xTickCount = 6 ∧
      home_of K' 4004 = ready 3 ∧ home_of K' 5004 = ready 1) k.
Proof.
  destruct demo_exists as [k R]. exists (set_var xPendedTicks 12 (set_var uxSchedulerSuspended 1 k)).
  assert (rep (set_var xPendedTicks 12 (set_var uxSchedulerSuspended 1 k)) demo_suspended) as R'.
  { destruct R as (R & Ht & Hv). split; [exact R|]. split; [exact Ht|]. simpl. by rewrite Hv. }
  split; [exact R'|].
  assert (kinv demo_suspended) as I by (do 2 (apply kinv_var; [done|]); exact demo_kinv).
  eapply wp_mono; [exact (resume_catches_up demo_suspended I eq_refl ltac:(vm_compute; reflexivity)
    ltac:(vm_compute; discriminate) _ R')|].
  intros b k' (K' & R2 & T).
  assert (released 12 demo_suspended 4000) as H4
    by (right; exists 3; split; [vm_compute; reflexivity|lia]).
  assert (released 12 demo_suspended 5000) as H5
    by (right; exists 9; split; [vm_compute; reflexivity|lia]).
  split; [by apply (rs_preempt _ _ _ T 4000 (demo_tcb 3) (demo_tcb 2))|].
  exists K'. split; [exact R2|]. split; [apply (rs_tick _ _ _ T)|].
  split; [by apply (rs_released _ _ _ T 4000 (demo_tcb 3))|by apply (rs_released _ _ _ T 5000 (demo_tcb 1))].
Defined.

Lemma delay_exact_witness :
  ∃ k : kernel lmem, rep k demo_kernel ∧
    wp (vTaskDelay 7) (λ _ k', ∃ K', rep k' K' ∧ wait_left K' 2000 = Some 7 ∧ wait_left K' 4000 = Some 3) k.
Proof.
  destruct demo_exists as [k R]. exists k. split; [exact R|].
  eapply wp_mono; [exact (delay_exact 7 (demo_tcb 2) demo_kernel demo_live demo_running
    ltac:(vm_compute; split; [reflexivity|discriminate]) k R)|].
  intros ? k' (K' & R' & A & _). exists K'. split; [exact R'|]. split; [exact (as_wait _ _ _ _ A)|].
  destruct (as_others _ _ _ _ A 4000 (demo_tcb 3) eq_refl ltac:(discriminate)) as (_ & -> & _).
  vm_compute. reflexivity.
Defined.

Lemma delay_until_periodic_witness :
  ∃ k : kernel lmem, rep k demo_kernel ∧
    wp (xTaskDelayUntil 4294967288 10) (λ r k', r = (true, 2) ∧ ∃ K', rep k' K' ∧ wait_left K' 2000 = Some 8) k.
Proof.
  destruct demo_exists as [k R]. exists k. split; [exact R|].
  eapply wp_mono; [exact (delay_until_periodic 4294967288 10 (demo_tcb 2) demo_kernel demo_live demo_running
    ltac:(lia) ltac:(lia) k R)|].
  intros [b next] k' (K' & R' & -> & -> & _ & A). split; [vm_compute; reflexivity|].
  exists K'. split; [exact R'|exact (as_wait _ _ _ _ A)].
Defined.

Lemma timeout_exact_witness :
  ∃ k : kernel lmem, rep k demo_kernel ∧
    wp (xTaskCheckForTimeOut (TimeOut 0 4294967280) 25)
      (λ r _, r = (false, (TimeOut 0 4294967290, 15))) k.
Proof.
  destruct demo_exists as [k R]. exists k. split; [exact R|].
  eapply wp_mono; [exact (timeout_exact demo_kernel (TimeOut 0 4294967280) 25
    ltac:(simpl; lia) ltac:(simpl; lia) ltac:(vm_compute; split; [discriminate|reflexivity])
    ltac:(vm_compute; split; [discriminate|reflexivity]) k R)|].
  intros [b [to ticks]] k' (K' & _ & _ & -> & E).
  change (to = TimeOut 0 4294967290 ∧ ticks = 15) in E. by destruct E as [-> ->].
Defined.

Lemma demo_is_event : event_list demo_kernel demo_event.
Proof. split; [eexists; vm_compute; reflexivity|apply (bool_decide_unpack _); vm_compute; exact I]. Qed.

Lemma place_on_event_list_witness :
  ∃ k : kernel lmem, rep k demo_kernel ∧
    wp (vTaskPlaceOnEventList demo_event 40)
      (λ _ k', ∃ K', rep k' K' ∧ members K' demo_event = [2024; 5024] ∧ wait_left K' 2000 = Some 40) k.
Proof.
  destruct demo_exists as [k R]. exists k. split; [exact R|].
  eapply wp_mono; [exact (place_on_event_list demo_event 40 (demo_tcb 2) demo_kernel demo_kinv demo_running
    demo_is_event ltac:(vm_compute; reflexivity) ltac:(vm_compute; split; [reflexivity|discriminate]) k R)|].
  intros ? k' (K' & R' & W). exists K'. split; [exact R'|]. split; [exact (wo_members _ _ _ _ W)|exact (wo_wait _ _ _ _ W)].
Defined.

Lemma remove_from_event_list_witness :
  ∃ k : kernel lmem, rep k demo_kernel ∧
    wp (xTaskRemoveFromEventList demo_event)
      (λ b k', b = false ∧ ∃ K', rep k' K' ∧ home_of K' 5004 = ready 1 ∧ members K' demo_event = []) k.
Proof.
  destruct demo_exists as [k R]. exists k. split; [exact R|].
  eapply wp_mono; [exact (remove_from_event_list demo_event 5000 (demo_tcb 1) (demo_tcb 2) [] demo_kernel
    demo_kinv demo_is_event ltac:(vm_compute; reflexivity) eq_refl eq_refl k R)|].
  intros b k' (K' & R' & -> & G). split; [reflexivity|]. exists K'. split; [exact R'|].
  split; [apply (eg_task _ _ _ _ _ _ G)|exact (eg_members _ _ _ _ _ _ G)].
Defined.

Lemma inherit_priority_witness :
  ∃ k : kernel lmem, rep k demo_kernel ∧
    wp (xTaskPriorityInherit 1000)
      (λ b k', b = true ∧ ∃ K', rep k' K' ∧ home_of K' 1004 = ready 2) k.
Proof.
  destruct demo_exists as [k R]. exists k. split; [exact R|].
  eapply wp_mono; [exact (inherit_priority 1000 (demo_tcb 0) (demo_tcb 2) demo_kernel
    demo_kinv eq_refl eq_refl k R)|].
  intros b k' (K' & R' & W). change (b = true ∧ repriced 1000 (demo_tcb 0)
    (set_uxPriority 2 (demo_tcb 0)) demo_kernel K') in W. destruct W as [-> W].
  split; [reflexivity|]. exists K'. split; [exact R'|exact (rc_state _ _ _ _ _ W)].
Defined.

(** Task 2000 has inherited priority 2 and holds one mutex. *)
Definition demo_holder : tcb := Tcb 2 1 1 [0; 0; 0] (replicate 3 taskNOT_WAITING_NOTIFICATION).
Definition demo_inherited : kernel ktable := with_tcb 2000 demo_holder demo_kernel.

Lemma disinherit_priority_witness :
  ∃ k : kernel lmem, rep k demo_inherited ∧
    wp (xTaskPriorityDisinherit 2000)
      (λ b k', b = true ∧ ∃ K', rep k' K' ∧ home_of K' 2004 = ready 1) k.
Proof.
  destruct demo_exists as [k R]. exists (Kernel (kmem k) (<[2000 := demo_holder]> (tcbs k)) (var k)).
  assert (rep (Kernel (kmem k) (<[2000 := demo_holder]> (tcbs k)) (var k)) demo_inherited) as R'.
  { destruct R as (R & Ht & Hv). split; [exact R|]. split; [|exact Hv]. simpl. by rewrite Ht. }
  split; [exact R'|].
  assert (kinv demo_inherited) as I.
  { apply (kinv_tcb_stays _ 2000 (demo_tcb 2)); [exact demo_kinv|reflexivity|simpl; lia|simpl; lia|by left]. }
  assert (is_ready demo_inherited 2000 demo_holder) as Hr by (split; vm_compute; reflexivity).
  eapply wp_mono; [exact (disinherit_priority demo_holder demo_inherited I Hr ltac:(simpl; lia) _ R')|].
  intros b k' (K' & R2 & -> & W). split; [reflexivity|]. exists K'. split; [exact R2|exact (rc_state _ _ _ _ _ W)].
Defined.

Lemma notify_exact_witness :
  ∃ k : kernel lmem, rep k demo_kernel ∧
    wp (xTaskGenericNotify 3000 1 6 eSetBits)
      (λ r k', r = (true, 0) ∧ ∃ K' c, rep k' K' ∧ tcbs K' !! 3000 = Some c ∧
        ulNotifiedValue c = [0; 6; 0]) k.
Proof.
  destruct demo_exists as [k R]. exists k. split; [exact R|].
  eapply wp_mono; [exact (notify_exact 3000 (demo_tcb 2) (demo_tcb 2) 1 6 0 taskNOT_WAITING_NOTIFICATION
    eSetBits demo_kernel demo_kinv eq_refl eq_refl ltac:(vm_compute; split; [discriminate|reflexivity])
    eq_refl eq_refl ltac:(discriminate) k R)|].
  intros [ok v] k' (K' & R' & -> & -> & W). split; [vm_compute; reflexivity|].
  eexists K', _. split; [exact R'|]. rewrite (wn_tcbs _ _ _ _ _ _ _ W). split; reflexivity.
Defined.
